(* ===== verification/_CoqProject ===== *)
-Q . S2P
Prelude.v
RustStd.v
Text.v
Paths.v
FileSystem.v
PrivateFs.v
Auth.v
FsTree.v
Manifest.v
Config.v
Lineage.v
Workspace.v
Images.v
Packages.v
Protocol.v
GuestWire.v
GuestRpc.v
GuestFs.v
GuestStats.v
Runtime.v
GuestBoot.v
GuestExec.v
Kernel.v
GuestInit.v
SecureRunner.v
Microvm.v
Launch.v
Harness.v
GuestServer.v
GuestCall.v
BoxStore.v
Boxes.v
BoxLifecycle.v
Stack.v
BoxApi.v
BoxClient.v
Interactive.v
ApiCall.v
HostConfig.v
Cli.v
Update.v
ImageFetch.v
StageFs.v
Ext4Image.v
ImageBuild.v
ImageBuilt.v
ImageSigned.v
GuestImage.v
Transfer.v
Bundle.v
Launcher.v
App.v
Ui.v
HelpPages.v
Terminal.v
Daemon.v
Server.v
Foreground.v
Embedding.v
Signing.v
Release.v
Demo.v
Witnesses.v
DemoGuest.v
GuestWitnesses.v
RunnerWitnesses.v
DemoApi.v
ApiWitnesses.v
CliWitnesses.v
ForegroundWitnesses.v
ImageWitnesses.v
