(* ===== verification/Prelude.v ===== *)
(** * Sagens: a verification development

    Sagens gives every user of an agent product a BOX: a microVM with a
    persistent workspace disk.  A daemon keeps the BOXes; clients talk to it
    over a websocket API; an agent inside each guest runs commands and file
    operations for it.

    ** The program and its model

    Requests pass through the layers below from top to bottom; each layer is
    proved against an interface the next one discharges.

    - [BoxApi.v], [src/box_api/protocol.rs] and [src/box_api/server/]: the
      messages, authentication, authorization, dispatch of every request, the
      tasks that relay output and the loop of one connection
      ([handle_connection]).  The BOX service below it is the class of the
      trait [BoxManager].
    - [Daemon.v]: the BOX service as an instance of that class, and what a
      client with a BOX credential can change of the whole daemon.
    - [BoxStore.v], [Boxes.v], [BoxLifecycle.v], [src/boxes/]: records on disk,
      every operation of [LocalBoxService], recovery after a restart.  The
      sandbox service below it is the record of the trait [SandboxService].
    - [Runtime.v], [src/runtime/]: the registry of sessions, creation and
      destruction of sandboxes, commands, files and checkpoints of a running
      one.  The hypervisor and the guest are the class [GuestHost].
      [Stack.v] joins the BOX service with it.
    - [Lineage.v], [Workspace.v], [src/workspace/]: the trait
      [WorkspaceLineageStore] with laws and its local implementation, workspace
      disks, run directories, checkpoints, restore and fork.
    - [Images.v], [src/images/store.rs], [types.rs]: the image store.
    - [Packages.v], [ImageFetch.v], [StageFs.v], [Ext4Image.v], [ImageBuild.v],
      [ImageBuilt.v], [ImageSigned.v], the other files of [src/images/]: the
      build of an image.  [Packages.v] reads the index and resolves dependencies
      ([packages.rs]), [ImageFetch.v] downloads, caches and verifies
      ([alpine.rs], [verify.rs], [archive.rs]), [StageFs.v] is the host's file
      system with links a build unpacks into, [Ext4Image.v] populates a file
      system image from a directory ([ext4.rs]), [ImageBuild.v] is the tree the
      image is made of and the build as a whole ([rootfs.rs], [build.rs]).
    - [Auth.v], [src/auth.rs]: administrator and BOX credentials;
      [PrivateFs.v], [src/private_fs.rs]: files with restricted modes.
    - [Config.v], [src/config.rs]: configuration, its validation, policies.
    - [GuestWire.v], [GuestRpc.v], [shared/src/guest_rpc.rs] and
      [src/guest_rpc/client/]: the messages and lines between daemon and agent,
      and the client that multiplexes the calls of many tasks over one
      connection, as a step machine ([Client], [step]).
    - [GuestBoot.v], [src/backend/libkrun/config.rs] and the agent's
      [linux_boot.rs], [bootstrap.rs], [linux_seccomp.rs]: the kernel command
      line that carries the policy into the guest, and the network filter.
    - [GuestInit.v], [bootstrap.rs], [rpc.rs] and [run] of [linux_server.rs]: the
      agent from its start: mounts and links, the search for its port, one
      connection after another.
    - [GuestFs.v], [GuestStats.v], [GuestExec.v], [GuestServer.v],
      [guest-agent/src/guest_agent/]: the agent's file operations on a file
      system with symbolic links, its statistics, the processes it starts and
      waits for, and one connection of it as a step machine ([Agent], [astep]).
      [GuestCall.v] joins client, wire and agent.
    - [Paths.v], [Manifest.v], [Protocol.v], [shared/src/]: workspace paths,
      snapshots and their difference, requests and events.
    - [Kernel.v], [SecureRunner.v], [Microvm.v], [Launch.v],
      [src/backend/libkrun/] and [src/host_hardening.rs]: the process of a
      sandbox.  Daemon and runner are programs over the system calls they make
      ([Sys]), a kernel that answers each given the calls before is a parameter,
      and [view] is what a process looks like after its calls.  [Launch.v] is
      the daemon's side (checks at start, control group, gate, shutdown),
      [SecureRunner.v] the confinement of a runner, [Microvm.v] the microVM it
      builds with libkrun.
    - [BoxClient.v], [src/box_api/client/]: the client of the API, a step
      machine like that of [GuestRpc.v]; [ApiCall.v] joins it with a connection
      of [BoxApi.v], [Interactive.v] is what an interactive command does with the
      terminal ([terminal.rs], [tty.rs]).
    - [HostConfig.v], [Cli.v], [Update.v], [Transfer.v], [Launcher.v], [App.v],
      [src/sagens/]: the program on the command line.  [HostConfig.v] is the
      configuration as a function of the environment, [Cli.v] the grammar of the
      commands, [Update.v] the self-update, [Transfer.v] files in and out of a
      BOX, [Launcher.v] starting, finding and stopping the daemon, [App.v] what
      each command does with them; [Ui.v], [HelpPages.v] and [Terminal.v] are what
      it shows: tables ([ui.rs]), the help pages ([args/help_pages/]) and the
      messages of every command ([output.rs], [output/]).
    - [GuestImage.v], [src/bin/build-alpine-guest.rs] and
      [src/bin/build_alpine_guest/]: the tool that builds the default guest.
    - [Harness.v], [secure_runner/harness.rs] and [preflight.rs]: the checks of
      the confinement from inside a runner, and the process that runs them
      before the daemon starts.
    - [Bundle.v], [src/bundle.rs]: the guest artifacts of a packaged build.
    - [Server.v], [serve_box_api_websocket]: the accept loop and all its
      connections on one BOX service, interleaved at will.
    - [Foreground.v], [run_foreground] of [src/sagens/daemon.rs]: the daemon, put
      together from the parts above; [Embedding.v], [src/embedding.rs] and
      [src/daemon_api.rs], the same daemon inside another program.
    - [Signing.v] and [Release.v], [src/bin/xtask/]: the tool that builds, signs
      and packages releases, over the programs it starts ([Programs]); what it
      publishes is what [Update.v] reads ([package_verifies]), the keychains of the
      user are as before after signing ([keychain_restored]), the guest is built
      again only when its sources changed ([fingerprint_of_sources]).
    [Prelude.v] has the error type ([shared/src/error.rs]), the result and state
    monads, the notations, tactics and hints; [RustStd.v] and [Text.v] what the
    code uses of Rust's strings, sorting and number parsing; [FileSystem.v] and
    [FsTree.v] the host's file system, in which every operation can fail and a
    failed one can leave a part of its work behind, and that it stays a tree.
    [Demo.v], [DemoGuest.v] and [DemoApi.v] instantiate every parameter,
    [Witnesses.v], [GuestWitnesses.v], [RunnerWitnesses.v], [ApiWitnesses.v],
    [CliWitnesses.v], [ForegroundWitnesses.v] and [ImageWitnesses.v] apply the properties there.

    ** What the theorems show

    - Isolation: any number of clients with BOX credentials, interleaved in any
      way, leave every BOX they have no credential of as it is
      ([server_box_isolation]; [daemon_box_isolation] and [box_client_confined]
      for one connection), and so does the daemon as a whole, which serves only
      after its checks ([daemon_serves_safely]), also inside another program
      ([embedded_serves_safely], which ends when it is told to,
      [embedded_close_stops]); so do the operations on one BOX and on one
      workspace ([box_ops_isolated], [workspaces_isolated]); paths stay below
      their root ([resolve_stays_in_root]) and the agent in a workspace without
      links below [/workspace] ([agent_confined]).
    - The policy arrives: the guest reads the configuration the daemon wrote
      ([boot_config_roundtrip]), every process runs under it
      ([guest_processes_confined]) once the agent has mounted what it was
      configured with ([guest_mounts_as_configured]), and the filters refuse exactly the calls
      they should ([no_network_filter_verdict], [runner_filter_verdict]).
    - The host is protected: a runner enters its guest only confined
      ([vm_starts_confined]), is held back until its control group limits it
      ([runner_gated_on_cgroup]), does not outlive a failed launch
      ([launch_leaves_only_its_runner]) or a shutdown ([shutdown_ends_runner]),
      and the daemon refuses a host that cannot do this
      ([preflight_fail_closed], [preflight_gates]); the harness is exactly its
      list of checks ([harness_is_checklist]); these hold for every kernel.
      [secure_runner_never_starts], [secure_preflight_never_passes] and
      [secure_socket_mismatch] are why secure mode does not work as it is.
      The artifacts of a packaged build arrive as they were embedded
      ([bundle_unpacked]).
    - State: invariants of the session registry, of the client's tables and of
      the agent's answers over all interleavings ([registry_invariant],
      [rpc_invariant], [one_answer_per_request], [exec_exit_is_last]); the
      administrator registry refines a set ([admin_store_refines]); a record is
      replaced atomically ([box_write_atomic]).
    - Behaviour: checkpoints, restore, start, stop, removal and restart
      ([checkpoint_roundtrip], [restore_checkpoint_spec], [start_box_outcome],
      [stop_box_stops], [remove_box_complete], [restart_leaves_none_running],
      [destroy_sandbox_spec]); a call over the wire is the agent's operation
      ([remote_call_is_direct], [framing_roundtrip]); files and snapshots
      ([write_then_read], [snapshot_diff_exact]); a command with a timeout ends
      ([exec_timeout_enforced]).
    - The API client: its tables stay consistent over all interleavings
      ([api_client_invariant]), a call over the websocket is the operation of the
      daemon and an error arrives as itself ([api_call_is_direct],
      [api_exec_is_direct], [remote_error_roundtrip]), nobody waits on a lost
      connection ([connection_end_tells_everyone]), early output of a shell is
      kept ([early_shell_events_kept]) and a stop survives the loss of its answer
      ([stop_box_recovery]).
    - The command line: every command can be typed and is read back as itself,
      what is read is within its widths ([command_line_roundtrip],
      [parsed_command_typed]); a daemon is started only with a checked
      configuration, secure unless compatibility was asked for
      ([config_fail_closed], [start_is_gated]), only a recorded sagens process is
      signaled ([only_sagens_is_signaled]), the waits end ([waits_end]); an update
      installs the verified release or changes nothing
      ([update_all_or_nothing]); transfers copy what they should and stay below
      their destination while the guest's listing does ([upload_exact],
      [file_transfer_roundtrip], [download_confined], [listing_escapes]).  The
      terminal is given back as it was ([terminal_given_back]) and a piped script
      arrives whole ([piped_script_exact]); tables are rectangular
      ([table_rectangular]), colour is decoration ([output_colour_is_decoration],
      [help_colour_is_decoration]), the examples of the help pages are commands
      ([help_examples_parse]), and names the guest chooses are printed as they are
      ([file_name_reaches_terminal]).
    - Images: the packages installed are the closure of what was asked for
      ([resolve_is_closure]), a build that reports success leaves an image the
      store resolves to what was built ([built_image_resolves]), made from a root
      file system that Alpine signed ([image_base_is_signed]), and the ext4 image
      holds exactly the tree it was built from ([image_is_directory]).
      [forced_rebuild_loses_image], [package_link_leaves_build],
      [torn_download_is_kept], [signature_never_cached] and
      [provider_hides_package] are where the builder falls short.  The tool for
      the default guest reads the same indexes, verifies the same way and writes
      the tree it assembled ([tool_loads_same_indexes], [tool_rootfs_verified],
      [tool_image_is_directory]).
    - Errors: what breaks and how far it spreads ([failure_answers_everyone],
      [orphaned_box_stuck], [interleaved_creates_share_workspace],
      [stopped_reader_never_answers], [full_stream_blocks_everyone],
      [early_ready_is_lost], [close_waits_for_running_shell],
      [open_output_withholds_exit], [link_leaves_workspace],
      [x32_socket_passes_filter], [second_daemon_clobbers],
      [embedded_credential]).

    ** Parameters, bounds and fuel

    Not under [src/] and therefore parameters: SHA-256 and base64 ([Platform],
    [Base64]), JSON ([Serde], with the round trip as law), random identifiers
    (a stream of draws), the clock, mkfs and the ext4 tools, the hypervisor,
    the kernel, TCP and WebSocket; for images HTTP, OpenPGP, the tar reader and
    the programs tar, pip and npm ([BuildTools], with [BuildLaws] saying that
    they write only where they are told to) and the ext4 library ([Ext4Lib] with
    [Ext4Laws]).  A build assumes file names in UTF-8 and a state directory
    written without [.] and [..].  Failures of the file system and of sockets are a list
    of faults the state carries, one per operation.  Interleaving is a list of
    steps: a theorem about all lists is about all schedules.
    Integers are [Z] at their width, with wrap-around or saturation written
    out.  Fuel: [trim_warm] has the length of its list, [read_messages] the
    length of the stream and one, [split_whitespace] the length of the string
    and one, [bpf_run] the length of the program, [walk_directory] the size of
    the file system and one; each recursive call uses up one element, so none
    runs out.  [upload_directory] has the depth of
    the file system and one, the loops that wait one turn per 100 ms of their
    timeout and one ([waits_end] proves it enough for a clock that passes the
    time slept).  [resolve_loop] has one turn per
    requested package and per dependency in the index, the walks of a tree
    ([walkdir], the copy of a directory) its number of nodes and one; each is
    proved enough ([resolve_is_closure], [copy_fuel_enough], [fingerprint_ends]).
    [poll_turns] has one turn per 5 s of the half hour a notarization may take
    ([notary_wait_ends]).  The loop in which
    the agent opens its port and takes connections runs for as many turns as it
    is given.  [walk] follows 40 links, the limit of Linux, and then fails with
    [ELOOP] as the kernel does.  The loops of the runner that retry an
    interrupted wait take a bound ([patience]) and end in [Waiting] after it; no
    theorem depends on its value.

    ** Not modelled

    Libkrun is called through FFI and appears as its calls; the
    Python and Node bindings, the build scripts and the vendored crates are
    outside the core.  Of the modelled parts: the times of [GuestRpcClient::connect], the calls
    of the pty, the in-process runner of compatibility mode, the code signature
    check of macOS, log lines and trailing separators of paths are left out. *)

From stdpp Require Export base tactics option list strings pretty numbers gmap sets sorting.
From Stdlib Require Export ZArith Lia.
From Stdlib.Strings Require Export Byte Ascii.

(** ** Notations of the development *)

Declare Scope sagens_scope.
Delimit Scope sagens_scope with sagens.
Open Scope sagens_scope.

(** [format!] is string concatenation. *)
Notation "a ^+ b" := (String.append a b) (at level 60, right associativity) : sagens_scope.

(** ** Bytes and machine integers *)

Abbreviation bytes := (list Byte.byte).

#[global] Instance byte_eq_decision : EqDecision Byte.byte := Byte.byte_eq_dec.

#[global] Instance byte_countable : Countable Byte.byte.
Proof.
  refine (inj_countable Byte.to_N Byte.of_N _). apply Byte.of_to_N.
Defined.

Definition u32_max : Z := 2 ^ 32 - 1.
Definition u64_max : Z := 2 ^ 64 - 1.

Definition is_u32 (z : Z) : Prop := (0 ≤ z ≤ u32_max)%Z.
Definition is_u64 (z : Z) : Prop := (0 ≤ z ≤ u64_max)%Z.

(** The saturating operations of the Rust integers, at a width given by its
    largest value. *)
Definition saturating_add (top a b : Z) : Z := (a + b) `min` top.
Definition saturating_sub (a b : Z) : Z := 0 `max` (a - b).
Definition saturating_mul (top a b : Z) : Z := (a * b) `min` top.

(** [Ord::clamp]: panics when the bounds are crossed, which [None] stands for. *)
Definition clamp (x lo hi : Z) : option Z :=
  if (lo <=? hi)%Z then Some (if (x <? lo)%Z then lo else if (hi <? x)%Z then hi else x) else None.

(** ** Errors: [shared/src/error.rs] *)

Inductive IoKind :=
  | KNotFound | KAlreadyExists | KNotADirectory | KIsADirectory | KDirectoryNotEmpty
  | KPermissionDenied | KOther.

(** [std::io::Error]: its kind and what its [Display] shows. *)
Record IoError := { io_kind : IoKind; io_text : string }.

Inductive SandboxError :=
  | Io (context : string) (source : IoError)
  | Json (context : string) (source : string)
  | HttpStatus (context : string) (status : Z) (body : string)
  | InvalidConfig (message : string)
  | NotFound (message : string)
  | Conflict (message : string)
  | Backend (message : string)
  | UnsupportedHost (message : string)
  | Protocol (message : string)
  | Timeout (message : string).

#[global] Instance IoKind_eq_decision : EqDecision IoKind.
Proof. solve_decision. Defined.
#[global] Instance IoError_eq_decision : EqDecision IoError.
Proof. solve_decision. Defined.
#[global] Instance SandboxError_eq_decision : EqDecision SandboxError.
Proof. solve_decision. Defined.

(** The [Display] that [thiserror] derives from the [#[error(..)]] attributes. *)
Definition error_to_string (e : SandboxError) : string :=
  match e with
  | Io c s => c ^+ ": " ^+ io_text s
  | Json c s => c ^+ ": " ^+ s
  | HttpStatus c n b => c ^+ ": unexpected HTTP status " ^+ pretty n ^+ ": " ^+ b
  | InvalidConfig m => "invalid configuration: " ^+ m
  | NotFound m => "not found: " ^+ m
  | Conflict m => "conflict: " ^+ m
  | Backend m => "backend failure: " ^+ m
  | UnsupportedHost m => "unsupported host: " ^+ m
  | Protocol m => "protocol error: " ^+ m
  | Timeout m => "timeout: " ^+ m
  end.

(** ** Results *)

Inductive Result (E A : Type) :=
  | Ok (a : A)
  | Err (e : E).
Arguments Ok {E A} a.
Arguments Err {E A} e.

Definition is_ok {E A} (r : Result E A) : bool := match r with Ok _ => true | Err _ => false end.

#[global] Instance Result_eq_decision {E A} `{!EqDecision E, !EqDecision A} : EqDecision (Result E A).
Proof. solve_decision. Defined.

#[global] Instance Result_ret {E} : MRet (Result E) := λ A x, Ok x.
#[global] Instance Result_bind {E} : MBind (Result E) := λ A B f r,
  match r with Ok a => f a | Err e => Err e end.

Definition ok_or {E A} (e : E) (o : option A) : Result E A :=
  match o with Some a => Ok a | None => Err e end.

(** ** The effect monad

    A computation runs in a state and ends with a result; an error keeps the
    state reached so far, as the early return of [?] does. *)

Definition M (E S A : Type) : Type := S → Result E A * S.

#[global] Instance M_ret {E S} : MRet (M E S) := λ A x s, (Ok x, s).
#[global] Instance M_bind {E S} : MBind (M E S) := λ A B f m s,
  match m s with (Ok a, s') => f a s' | (Err e, s') => (Err e, s') end.

#[global] Instance M_fmap {E S} : FMap (M E S) := λ A B f m s,
  match m s with (Ok a, s') => (Ok (f a), s') | (Err e, s') => (Err e, s') end.

Definition throw {E S A} (e : E) : M E S A := λ s, (Err e, s).
Definition lift {E S A} (r : Result E A) : M E S A := λ s, (r, s).
Definition gets {E S A} (f : S → A) : M E S A := λ s, (Ok (f s), s).
Definition modify {E S} (f : S → S) : M E S () := λ s, (Ok (), f s).

(** [result.map_err(f)]. *)
Definition map_err {E F S A} (f : E → F) (m : M E S A) : M F S A := λ s,
  match m s with (Ok a, s') => (Ok a, s') | (Err e, s') => (Err (f e), s') end.

(** [match m.await { Ok(..) => .., Err(..) => .. }]: the result as a value. *)
Definition attempt {E F S A} (m : M E S A) : M F S (Result E A) := λ s,
  let '(r, s') := m s in (Ok r, s').

(** Running a computation on a part of the state. *)
Definition zoom {E S T A} (get : S → T) (set : T → S → S) (m : M E T A) : M E S A := λ s,
  let '(r, t) := m (get s) in (r, set t s).

(** [for x in xs { f(x)?; }] *)
Fixpoint for_each {E S A} (f : A → M E S ()) (xs : list A) : M E S () :=
  match xs with
  | [] => mret ()
  | x :: xs' => f x ≫= λ _, for_each f xs'
  end.

(** [for x in xs { acc.push(f(x)?); }] *)
Fixpoint map_each {E S A B} (f : A → M E S B) (xs : list A) : M E S (list B) :=
  match xs with
  | [] => mret []
  | x :: xs' => f x ≫= λ y, map_each f xs' ≫= λ ys, mret (y :: ys)
  end.

(** ** Reasoning about effects

    [keeps R m]: whatever [m] does and however it ends, the states before and
    after are related by [R].  With [R] a preorder this composes along the
    monad; frames ("nothing outside a footprint changes") and invariants are
    both instances. *)

Definition keeps {E S A} (R : relation S) (m : M E S A) : Prop := ∀ s, R s (m s).2.

(** Partial correctness with the error path in the postcondition. *)
Definition triple {E S A} (P : S → Prop) (m : M E S A) (Q : Result E A → S → Prop) : Prop :=
  ∀ s, P s → Q (m s).1 (m s).2.

(** The preorder of an invariant. *)
Definition preserves {S} (I : S → Prop) : relation S := λ s s', I s → I s'.

#[global] Instance preserves_preorder {S} (I : S → Prop) : PreOrder (preserves I).
Proof. split; unfold preserves; [intros s; auto|intros s1 s2 s3; auto]. Qed.

Section keeps.
Context {E S : Type} (R : relation S) `{!PreOrder R}.

Lemma keeps_pure {A} (m : M E S A) : (∀ s, (m s).2 = s) → keeps R m.
Proof. intros H s. rewrite H. reflexivity. Qed.

Lemma keeps_ret {A} (a : A) : keeps R (mret a : M E S A).
Proof. by apply keeps_pure. Qed.
Lemma keeps_throw {A} (e : E) : keeps R (throw e : M E S A).
Proof. by apply keeps_pure. Qed.
Lemma keeps_lift {A} (r : Result E A) : keeps R (lift r : M E S A).
Proof. by apply keeps_pure. Qed.
Lemma keeps_gets {A} (f : S → A) : keeps R (gets f : M E S A).
Proof. by apply keeps_pure. Qed.
Lemma keeps_modify (f : S → S) : (∀ s, R s (f s)) → keeps R (modify f : M E S ()).
Proof. intros H s. apply H. Qed.

Lemma keeps_bind {A B} (m : M E S A) (f : A → M E S B) :
  keeps R m → (∀ a, keeps R (f a)) → keeps R (m ≫= f).
Proof.
  intros Hm Hf s. specialize (Hm s). unfold mbind, M_bind.
  destruct (m s) as [[a|e] s']; simpl in *; [|done].
  etrans; [exact Hm|apply Hf].
Qed.

(** The same with what is known of the first result. *)
Lemma keeps_bind_val {A B} (m : M E S A) (f : A → M E S B) :
  keeps R m → (∀ s a s', m s = (Ok a, s') → keeps R (f a)) → keeps R (m ≫= f).
Proof.
  intros Hm Hf s. specialize (Hm s). unfold mbind, M_bind.
  destruct (m s) as [[a|e] s'] eqn:Em; simpl in *; [|done].
  etrans; [exact Hm|by eapply Hf].
Qed.

Lemma keeps_fmap {A B} (f : A → B) (m : M E S A) : keeps R m → keeps R (f <$> m).
Proof. intros Hm s. specialize (Hm s). unfold fmap, M_fmap. by destruct (m s) as [[]]. Qed.

Lemma keeps_map_err {F A} (f : F → E) (m : M F S A) : keeps R m → keeps R (map_err f m).
Proof. intros Hm s. specialize (Hm s). unfold map_err. by destruct (m s) as [[]]. Qed.

Lemma keeps_attempt {F A} (m : M F S A) : keeps R m → keeps R (attempt m : M E S _).
Proof. intros Hm s. specialize (Hm s). unfold attempt. by destruct (m s). Qed.

Lemma keeps_for_each {A} (f : A → M E S ()) xs : (∀ x, x ∈ xs → keeps R (f x)) → keeps R (for_each f xs).
Proof.
  induction xs as [|x xs IH]; intros H; simpl; [apply keeps_ret|].
  apply keeps_bind; [apply H; left|intros _; apply IH; intros; apply H; by right].
Qed.

Lemma keeps_map_each {A B} (f : A → M E S B) xs :
  (∀ x, x ∈ xs → keeps R (f x)) → keeps R (map_each f xs).
Proof.
  induction xs as [|x xs IH]; intros H; simpl; [apply keeps_ret|].
  apply keeps_bind; [apply H; left|intros y]. apply keeps_bind; [|intros; apply keeps_ret].
  apply IH; intros; apply H; by right.
Qed.
End keeps.

Lemma keeps_impl {E S A} (R R' : relation S) (m : M E S A) :
  (∀ s s', R s s' → R' s s') → keeps R m → keeps R' m.
Proof. intros H Hm s. apply H, Hm. Qed.

Lemma keeps_zoom {E S T A} (R : relation S) (RT : relation T) (get : S → T) (set : T → S → S)
    (m : M E T A) :
  (∀ s t, RT (get s) t → R s (set t s)) → keeps RT m → keeps R (zoom get set m).
Proof. intros H Hm s. specialize (Hm (get s)). unfold zoom. destruct (m (get s)). by apply H. Qed.

(** Every run from a state with [I] ends in a state with [Q]. *)
Definition leads {E S A} (I Q : S → Prop) (m : M E S A) : Prop := ∀ s, I s → Q (m s).2.

Lemma leads_bind {E S A B} (I Q : S → Prop) (m : M E S A) (f : A → M E S B) :
  keeps (preserves I) m → (∀ s, I s → Q s) →
  (∀ s a s', m s = (Ok a, s') → leads I Q (f a)) → leads I Q (m ≫= f).
Proof.
  intros Hm HQ Hf s Hs. specialize (Hm s Hs). unfold mbind, M_bind.
  destruct (m s) as [[a|e] s'] eqn:Em; simpl in *; [by eapply Hf|by apply HQ].
Qed.

(** Evaluating a bind once its first computation is known. *)
(** An invariant, with what it says of the value. *)
Lemma preserves_bind {E S A B} (I : S → Prop) (m : M E S A) (f : A → M E S B) :
  keeps (preserves I) m → (∀ s a s', I s → m s = (Ok a, s') → keeps (preserves I) (f a)) →
  keeps (preserves I) (m ≫= f).
Proof.
  intros Hm Hf s Hs. specialize (Hm s Hs). unfold mbind, M_bind.
  destruct (m s) as [[a|e] s'] eqn:E'; [by eapply Hf|done].
Qed.

Lemma bind_ok {E S A B} (m : M E S A) (f : A → M E S B) s a s' :
  m s = (Ok a, s') → (m ≫= f) s = f a s'.
Proof. intros H. unfold mbind, M_bind. by rewrite H. Qed.

Lemma bind_err {E S A B} (m : M E S A) (f : A → M E S B) s e s' :
  m s = (Err e, s') → (m ≫= f) s = (Err e, s').
Proof. intros H. unfold mbind, M_bind. by rewrite H. Qed.

Lemma bind_ok_inv {E S A B} (m : M E S A) (f : A → M E S B) s b s' :
  (m ≫= f) s = (Ok b, s') → ∃ a s1, m s = (Ok a, s1) ∧ f a s1 = (Ok b, s').
Proof. unfold mbind, M_bind. destruct (m s) as [[a|e] s1]; intros; naive_solver. Qed.

(** The states around a failed run are related, whatever success would do. *)
Definition errs_keep {E S A} (R : relation S) (m : M E S A) : Prop :=
  ∀ s e s', m s = (Err e, s') → R s s'.

Lemma errs_keep_bind {E S A B} (R : relation S) `{!PreOrder R} (m : M E S A) (f : A → M E S B) :
  keeps R m → (∀ a, errs_keep R (f a)) → errs_keep R (m ≫= f).
Proof.
  intros Hm Hf s e s'. specialize (Hm s). unfold mbind, M_bind.
  destruct (m s) as [[a|e'] s1]; simpl in Hm; intros Hr.
  - etrans; [exact Hm|by eapply Hf].
  - by injection Hr as _ <-.
Qed.

Lemma bind_ok_keeps {E S A B} (R : relation S) (m : M E S A) (f : A → M E S B) s b s' :
  keeps R m → (m ≫= f) s = (Ok b, s') → ∃ a s1, R s s1 ∧ m s = (Ok a, s1) ∧ f a s1 = (Ok b, s').
Proof.
  intros Hk (a & s1 & Hm & Hf)%bind_ok_inv. exists a, s1. specialize (Hk s). by rewrite Hm in Hk.
Qed.

Lemma fmap_ok_inv {E S A B} (f : A → B) (m : M E S A) s b s' :
  (f <$> m) s = (Ok b, s') → ∃ a, m s = (Ok a, s') ∧ b = f a.
Proof. unfold fmap, M_fmap. destruct (m s) as [[]]; naive_solver. Qed.

Lemma fmap_ok {E S A B} (f : A → B) (m : M E S A) s a s' :
  m s = (Ok a, s') → (f <$> m) s = (Ok (f a), s').
Proof. unfold fmap, M_fmap. by intros ->. Qed.

Lemma map_err_ok {E F S A} (f : E → F) (m : M E S A) s a s' :
  m s = (Ok a, s') → map_err f m s = (Ok a, s').
Proof. intros H. unfold map_err. by rewrite H. Qed.

Lemma map_err_ok_inv {E F S A} (f : E → F) (m : M E S A) s a s' :
  map_err f m s = (Ok a, s') → m s = (Ok a, s').
Proof. unfold map_err. destruct (m s) as [[]]; intros; naive_solver. Qed.

Lemma attempt_run {E F S A} (m : M E S A) s r s' : m s = (r, s') → (attempt m : M F S _) s = (Ok r, s').
Proof. intros Hm. unfold attempt. by rewrite Hm. Qed.

Lemma for_each_app {E S A} (f : A → M E S ()) xs ys s : for_each f (xs ++ ys) s = (for_each f xs;; for_each f ys) s.
Proof.
  revert s. induction xs as [|x xs IH]; intros s; [done|]. cbn [app for_each]. unfold mbind, M_bind in *.
  destruct (f x s) as [[]s1]; [apply IH|done].
Qed.

Lemma bind_ext {E S A B} (m1 m2 : M E S A) (f1 f2 : A → M E S B) s :
  m1 s = m2 s → (∀ a s', m1 s = (Ok a, s') → f1 a s' = f2 a s') → (m1 ≫= f1) s = (m2 ≫= f2) s.
Proof. intros Hm Hf. unfold mbind, M_bind. rewrite <-Hm. destruct (m1 s) as [[a|e] s'] eqn:E1; auto. Qed.

(** Two loops agree when their turns do, in the states they reach. *)
Lemma for_each_ext {E S A} (I : S → Prop) (f g : A → M E S ()) xs s :
  I s → (∀ x s, x ∈ xs → I s → f x s = g x s) → (∀ x s, x ∈ xs → I s → I (f x s).2) → for_each f xs s = for_each g xs s.
Proof.
  revert s. induction xs as [|x xs IH]; intros s Hs Hfg HI; [done|]. cbn [for_each].
  apply bind_ext; [by apply Hfg; [left|]|]. intros a s' Hrun. apply IH; [|intros; apply Hfg; [by right|done]|intros; apply HI; [by right|done]].
  pose proof (HI x s ltac:(left) Hs) as Hx. by rewrite Hrun in Hx.
Qed.

(** ** Lists *)

Lemma Forall2_elem_of_r {A B} (P : A → B → Prop) l k y : Forall2 P l k → y ∈ k → ∃ x, x ∈ l ∧ P x y.
Proof.
  induction 1 as [|x z l k Hxz _ IH]; [by intros ?%not_elem_of_nil|].
  intros [->|Hy]%elem_of_cons; [exists x; split; [left|done]|].
  destruct (IH Hy) as (x' & ? & ?). exists x'. split; [by right|done].
Qed.

Lemma Forall2_elem_of_l {A B} (P : A → B → Prop) l k x : Forall2 P l k → x ∈ l → ∃ y, y ∈ k ∧ P x y.
Proof.
  induction 1 as [|z y l k Hzy _ IH]; [by intros ?%not_elem_of_nil|].
  intros [->|Hx]%elem_of_cons; [exists y; split; [left|done]|].
  destruct (IH Hx) as (y' & ? & ?). exists y'. split; [by right|done].
Qed.

(** ** Automation *)

Create HintDb keeps discriminated.

(** Walks through a computation written with the monad, case by case, and
    leaves the calls no hint covers. *)
Ltac keeps_step :=
  lazymatch goal with
  | |- keeps _ (mbind _ _) => apply keeps_bind; [try typeclasses eauto| |intros ?]
  | |- keeps _ (fmap _ _) => apply keeps_fmap
  | |- keeps _ (mret _) => apply keeps_ret; typeclasses eauto
  | |- keeps _ (throw _) => apply keeps_throw; typeclasses eauto
  | |- keeps _ (lift _) => apply keeps_lift; typeclasses eauto
  | |- keeps _ (gets _) => apply keeps_gets; typeclasses eauto
  | |- keeps _ (map_err _ _) => apply keeps_map_err
  | |- keeps _ (attempt _) => apply keeps_attempt
  | |- keeps _ (match ?x with _ => _ end) => destruct x
  | |- keeps _ (let '_ := ?x in _) => destruct x
  | |- keeps _ _ => solve [eauto with keeps]
  end.
Ltac keeps_tac := intros; repeat keeps_step.

Lemma ret_ok_inv {E S A} (a b : A) (s s' : S) : (mret a : M E S A) s = (Ok b, s') → a = b ∧ s = s'.
Proof. by intros [= -> ->]. Qed.
Lemma lift_ok_inv {E S A} (r : Result E A) b (s s' : S) : lift r s = (Ok b, s') → r = Ok b ∧ s = s'.
Proof. by intros [= -> ->]. Qed.
Lemma gets_ok_inv {E S A} (f : S → A) b (s s' : S) :
  (gets f : M E S A) s = (Ok b, s') → b = f s ∧ s = s'.
Proof. by intros [= -> ->]. Qed.
Lemma modify_ok_inv {E S} (f : S → S) b (s s' : S) : (modify f : M E S ()) s = (Ok b, s') → s' = f s.
Proof. by intros [= _ <-]. Qed.

(** Decomposes a successful run into the successful runs of its steps. *)
Ltac ok_inv_step :=
  match goal with
  | H : mbind _ _ _ = (Ok _, _) |- _ =>
      let H1 := fresh "Hrun" in apply bind_ok_inv in H as (? & ? & H1 & H)
  | H : fmap _ _ _ = (Ok _, _) |- _ => apply fmap_ok_inv in H as (? & H & ?); subst
  | H : map_err _ _ _ = (Ok _, _) |- _ => apply map_err_ok_inv in H
  | H : mret _ _ = (Ok _, _) |- _ => apply ret_ok_inv in H as [? ?]; subst
  | H : lift _ _ = (Ok _, _) |- _ => apply lift_ok_inv in H as [H ?]; subst
  | H : gets _ _ = (Ok _, _) |- _ => apply gets_ok_inv in H as [? ?]; subst
  | H : modify _ _ = (Ok _, _) |- _ => apply modify_ok_inv in H; subst
  | H : throw _ _ = (Ok _, _) |- _ => discriminate H
  | H : (if ?b then _ else _) _ = (Ok _, _) |- _ => destruct b eqn:?
  | H : (match ?x with _ => _ end) _ = (Ok _, _) |- _ => destruct x eqn:?
  end.
Ltac ok_inv := repeat ok_inv_step.
