(* ===== verification/RustStd.v ===== *)
(** * RustStd: what the sources use of [str], [Ord] and [slice::sort_by_key]

    Strings are byte strings ([str] is UTF-8; every character class the code
    tests is ASCII, so bytes and [char]s agree on it).  The lemmas are the ones
    the components share. *)

From S2P Require Import Prelude.

(** ** [str] *)

Fixpoint strip_prefix (pat s : string) : option string :=
  match pat, s with
  | EmptyString, _ => Some s
  | String a pat', String b s' => if Ascii.eqb a b then strip_prefix pat' s' else None
  | String _ _, EmptyString => None
  end.

Definition starts_with (pat s : string) : bool :=
  match strip_prefix pat s with Some _ => true | None => false end.

(** [str::contains] of a string pattern. *)
Fixpoint contains (pat s : string) : bool :=
  starts_with pat s || match s with EmptyString => false | String _ s' => contains pat s' end.

(** [str::trim_start_matches]: strips the prefix as often as it occurs; the
    fuel is the length of the string, which no run of a non-empty pattern
    exceeds. *)
Fixpoint trim_start_fuel (fuel : nat) (pat s : string) : string :=
  match fuel with
  | O => s
  | S fuel' => match strip_prefix pat s with
               | Some s' => trim_start_fuel fuel' pat s'
               | None => s
               end
  end.
Definition trim_start_matches (pat s : string) : string := trim_start_fuel (String.length s) pat s.

(** [str::split(c)]. *)
Fixpoint split_on (c : ascii) (s : string) : list string :=
  match s with
  | EmptyString => [EmptyString]
  | String a s' =>
      if Ascii.eqb a c then EmptyString :: split_on c s'
      else match split_on c s' with
           | [] => [String a EmptyString]
           | w :: ws => String a w :: ws
           end
  end.

Definition code (a : ascii) : N := N_of_ascii a.
Definition is_ascii_digit (a : ascii) : bool := (48 <=? code a)%N && (code a <=? 57)%N.
Definition is_ascii_alphabetic (a : ascii) : bool :=
  ((65 <=? code a)%N && (code a <=? 90)%N) || ((97 <=? code a)%N && (code a <=? 122)%N).
Definition is_ascii_alphanumeric (a : ascii) : bool := is_ascii_digit a || is_ascii_alphabetic a.

Fixpoint all_chars (f : ascii → bool) (s : string) : bool :=
  match s with EmptyString => true | String a s' => f a && all_chars f s' end.

Definition as_bytes (s : string) : bytes := String.list_byte_of_string s.

(** [{byte:02x}] *)
Definition hex_digit (n : N) : ascii :=
  ascii_of_N (if (n <? 10)%N then 48 + n else 87 + n).
Definition hex_byte (b : Byte.byte) : string :=
  let n := Byte.to_N b in String (hex_digit (n / 16)) (String (hex_digit (n mod 16)) EmptyString).
Definition hex_encode (bs : bytes) : string := foldr (λ b s, hex_byte b ^+ s) EmptyString bs.

Fixpoint map_chars (f : ascii → ascii) (s : string) : string :=
  match s with EmptyString => EmptyString | String a s' => String (f a) (map_chars f s') end.

Definition ascii_lower (a : ascii) : ascii :=
  if (65 <=? code a)%N && (code a <=? 90)%N then ascii_of_N (code a + 32) else a.
Definition to_ascii_lowercase (s : string) : string := map_chars ascii_lower s.

(** [str::trim]: the UTF-8 encodings of the characters with [White_Space]. *)
Definition byte_string (l : list N) : string := foldr (λ n s, String (ascii_of_N n) s) EmptyString l.
Definition white_space : list string :=
  map byte_string
    ([[9]; [10]; [11]; [12]; [13]; [32]; [194; 133]; [194; 160]; [225; 154; 128]] ++
     map (λ k, [226; 128; 128 + N.of_nat k]) (seq 0 11) ++
     [[226; 128; 168]; [226; 128; 169]; [226; 128; 175]; [226; 129; 159]; [227; 128; 128]])%N.

Definition strip_any (pats : list string) (s : string) : option string :=
  head (omap (λ pat, strip_prefix pat s) pats).
Fixpoint strip_all (fuel : nat) (pats : list string) (s : string) : string :=
  match fuel with
  | O => s
  | S fuel' => match strip_any pats s with Some s' => strip_all fuel' pats s' | None => s end
  end.
Fixpoint string_rev_app (s acc : string) : string :=
  match s with EmptyString => acc | String a s' => string_rev_app s' (String a acc) end.
Definition string_rev (s : string) : string := string_rev_app s EmptyString.
Definition trim_start (s : string) : string := strip_all (String.length s) white_space s.
Definition trim_end (s : string) : string :=
  string_rev (strip_all (String.length s) (map string_rev white_space) (string_rev s)).
Definition trim (s : string) : string := trim_end (trim_start s).

Definition ends_with (pat s : string) : bool := starts_with (string_rev pat) (string_rev s).

Lemma strip_prefix_app pat s : strip_prefix pat (pat ^+ s) = Some s.
Proof. induction pat as [|a pat IH]; simpl; [done|]. by rewrite Ascii.eqb_refl. Qed.

Lemma strip_prefix_Some pat s s' : strip_prefix pat s = Some s' → s = pat ^+ s'.
Proof.
  revert s. induction pat as [|a pat IH]; intros s; simpl; [by intros [= ->]|].
  destruct s as [|b s]; [done|]. destruct (Ascii.eqb a b) eqn:E; [|done].
  apply Ascii.eqb_eq in E as ->. intros ->%IH. done.
Qed.

Lemma strip_prefix_length pat s s' :
  strip_prefix pat s = Some s' → String.length s = String.length pat + String.length s'.
Proof. intros ->%strip_prefix_Some. induction pat; simpl; auto. Qed.

Lemma starts_with_app pat s : starts_with pat (pat ^+ s) = true.
Proof. unfold starts_with. by rewrite strip_prefix_app. Qed.

Lemma contains_mid pre pat post : contains pat (pre ^+ pat ^+ post) = true.
Proof.
  induction pre as [|a pre IH]; simpl.
  - pose proof (starts_with_app pat post) as H.
    destruct (pat ^+ post); simpl; by rewrite H.
  - rewrite IH. apply orb_true_r.
Qed.

(** A run of [trim_start_matches] leaves no further occurrence of the prefix. *)
Lemma trim_start_fuel_done fuel a pat s :
  String.length s ≤ fuel → strip_prefix (String a pat) (trim_start_fuel fuel (String a pat) s) = None.
Proof.
  revert s. induction fuel as [|fuel IH]; intros s Hlen.
  { destruct s; simpl in *; [done|lia]. }
  cbn [trim_start_fuel]. destruct (strip_prefix (String a pat) s) as [s'|] eqn:E; [|exact E].
  apply IH. apply strip_prefix_length in E. simpl in E. lia.
Qed.

Lemma trim_start_matches_done a pat s :
  strip_prefix (String a pat) (trim_start_matches (String a pat) s) = None.
Proof. by apply trim_start_fuel_done. Qed.

(** Fuel beyond the length of the string changes nothing. *)
Lemma trim_start_fuel_enough fuel a pat s :
  String.length s ≤ fuel → trim_start_fuel fuel (String a pat) s = trim_start_matches (String a pat) s.
Proof.
  unfold trim_start_matches. remember (String.length s) as n eqn:En. revert fuel s En.
  induction (lt_wf n) as [n _ IH]. intros fuel s -> Hlen.
  destruct fuel as [|fuel]. { destruct s; [done|simpl in Hlen; lia]. }
  destruct s as [|b s]; [done|]. cbn [String.length trim_start_fuel].
  destruct (strip_prefix (String a pat) (String b s)) as [s'|] eqn:E; [|done].
  apply strip_prefix_length in E. cbn [String.length] in E, Hlen.
  rewrite (IH (String.length s')); [|simpl; lia|done|lia].
  symmetry. apply IH; [simpl; lia|done|lia].
Qed.

Lemma trim_start_matches_app a pat s :
  trim_start_matches (String a pat) (String a pat ^+ s) = trim_start_matches (String a pat) s.
Proof.
  unfold trim_start_matches at 1. change (String a pat ^+ s) with (String a (pat ^+ s)).
  cbn [String.length trim_start_fuel].
  change (String a (pat ^+ s)) with (String a pat ^+ s). rewrite strip_prefix_app.
  apply trim_start_fuel_enough. pose proof (strip_prefix_length _ _ _ (strip_prefix_app pat s)). lia.
Qed.

Lemma starts_with_false pat s : starts_with pat s = false ↔ strip_prefix pat s = None.
Proof. unfold starts_with. destruct (strip_prefix pat s); naive_solver. Qed.

Lemma starts_with_true pat s : starts_with pat s = true ↔ ∃ s', s = pat ^+ s'.
Proof.
  unfold starts_with. destruct (strip_prefix pat s) as [s'|] eqn:E.
  - apply strip_prefix_Some in E. naive_solver.
  - split; [done|]. intros [s' ->]. by rewrite strip_prefix_app in E.
Qed.

Lemma trim_start_matches_none pat s : strip_prefix pat s = None → trim_start_matches pat s = s.
Proof.
  intros H. unfold trim_start_matches. destruct (String.length s); simpl; [done|]. by rewrite H.
Qed.

Lemma split_on_nonempty c s : split_on c s ≠ [].
Proof. destruct s as [|a s]; simpl; [done|]. destruct (Ascii.eqb a c); [done|]. by case_match. Qed.

Lemma all_chars_split f c s :
  f c = false → all_chars f s = true → s ≠ EmptyString → split_on c s = [s].
Proof.
  intros Hc. induction s as [|a s IH]; [done|]. simpl. intros [Ha Hs]%andb_true_iff _.
  destruct (Ascii.eqb_spec a c) as [->|]; [congruence|].
  destruct s as [|b s]; [done|]. rewrite IH; done.
Qed.

Lemma string_app_assoc (a b c : string) : (a ^+ b) ^+ c = a ^+ b ^+ c.
Proof.
  induction a as [|x a IH]; [done|].
  change (String x ((a ^+ b) ^+ c) = String x (a ^+ b ^+ c)). by rewrite IH.
Qed.

(** ** Lexicographic order of strings, [Ord for str] *)

Definition string_le (a b : string) : bool := String.leb a b.

Lemma ascii_compare_N a b : Ascii.compare a b = N.compare (code a) (code b).
Proof. done. Qed.

Lemma string_compare_trans_lt a b c :
  String.compare a b = Lt → String.compare b c = Lt → String.compare a c = Lt.
Proof.
  revert b c. induction a as [|x a IH]; intros [|y b] [|z c]; simpl; try done.
  rewrite !ascii_compare_N.
  destruct (N.compare_spec (code x) (code y)) as [E1|L1|G1]; [| |done];
  destruct (N.compare_spec (code y) (code z)) as [E2|L2|G2]; try done; intros H1 H2;
  destruct (N.compare_spec (code x) (code z)) as [E3|L3|G3]; try done; try lia.
  by eapply IH.
Qed.

Lemma string_le_total a b : string_le a b || string_le b a = true.
Proof. unfold string_le. destruct (String.leb_total a b) as [-> | ->]; [done|by rewrite orb_true_r]. Qed.

Lemma string_le_antisym a b : string_le a b = true → string_le b a = true → a = b.
Proof. apply String.leb_antisym. Qed.

Lemma string_compare_refl a : String.compare a a = Eq.
Proof. induction a as [|x a IH]; simpl; [done|]. by rewrite ascii_compare_N, N.compare_refl. Qed.

Lemma string_le_spec a b : string_le a b = true ↔ String.compare a b = Lt ∨ a = b.
Proof.
  unfold string_le, String.leb. split.
  - destruct (String.compare a b) eqn:E; intros; [right; by apply String.compare_eq_iff|by left|done].
  - intros [-> | ->]; [done|]. by rewrite string_compare_refl.
Qed.

Lemma string_le_trans a b c : string_le a b = true → string_le b c = true → string_le a c = true.
Proof.
  rewrite !string_le_spec. intros [?| ->] [?| ->]; eauto using string_compare_trans_lt.
Qed.

(** ** [slice::sort_by_key]: a stable sort *)

Section sort.
Context {A K : Type} (key : A → K) (leb : K → K → bool).

Fixpoint insert_by (x : A) (l : list A) : list A :=
  match l with
  | [] => [x]
  | y :: l' => if leb (key x) (key y) then x :: y :: l' else y :: insert_by x l'
  end.

Definition sort_by_key (l : list A) : list A := foldr insert_by [] l.

Lemma insert_by_perm x l : insert_by x l ≡ₚ x :: l.
Proof. induction l as [|y l IH]; simpl; [done|]. case_match; [done|]. rewrite IH. apply Permutation_swap. Qed.

Lemma sort_by_key_perm l : sort_by_key l ≡ₚ l.
Proof. induction l as [|x l IH]; simpl; [done|]. by rewrite insert_by_perm, IH. Qed.

Lemma sort_by_key_elem x l : x ∈ sort_by_key l ↔ x ∈ l.
Proof. by rewrite sort_by_key_perm. Qed.

Context (leb_total : ∀ a b, leb a b || leb b a = true)
        (leb_trans : ∀ a b c, leb a b = true → leb b c = true → leb a c = true).

Let le_key (x y : A) : Prop := leb (key x) (key y) = true.

Lemma insert_by_sorted x l : StronglySorted le_key l → StronglySorted le_key (insert_by x l).
Proof using leb_total leb_trans.
  induction 1 as [|y l Hs IH Hall]; simpl; [by repeat constructor|].
  destruct (leb (key x) (key y)) eqn:E.
  - constructor; [by constructor|]. constructor; [done|].
    eapply Forall_impl; [exact Hall|]. intros z Hz. unfold le_key in *. eauto.
  - constructor; [done|]. rewrite insert_by_perm. constructor; [|done].
    specialize (leb_total (key x) (key y)). rewrite E in leb_total. done.
Qed.

Lemma sort_by_key_sorted l : StronglySorted le_key (sort_by_key l).
Proof using leb_total leb_trans. induction l; simpl; [constructor|]. by apply insert_by_sorted. Qed.
End sort.

(** The lexicographic order on a timestamp and an identifier, the sort key of
    every listing. *)
Definition pair_le {K} (leb : K → K → bool) (a b : Z * K) : bool :=
  (a.1 <? b.1)%Z || ((a.1 =? b.1)%Z && leb a.2 b.2).

Section pair_le.
Context {K : Type} (leb : K → K → bool)
        (leb_total : ∀ a b, leb a b || leb b a = true)
        (leb_trans : ∀ a b c, leb a b = true → leb b c = true → leb a c = true).

Lemma pair_le_total a b : pair_le leb a b || pair_le leb b a = true.
Proof using leb_total.
  unfold pair_le. specialize (leb_total a.2 b.2).
  destruct (Z.ltb_spec a.1 b.1), (Z.ltb_spec b.1 a.1); simpl; try done; try (by rewrite orb_true_r).
  destruct (Z.eqb_spec a.1 b.1), (Z.eqb_spec b.1 a.1); simpl; try lia. done.
Qed.

Lemma pair_le_trans a b c : pair_le leb a b = true → pair_le leb b c = true → pair_le leb a c = true.
Proof using leb_trans.
  unfold pair_le. rewrite !orb_true_iff, !andb_true_iff, !Z.ltb_lt, !Z.eqb_eq.
  intros [?|[? ?]] [?|[? ?]]; try (left; lia). right. split; [lia|eauto].
Qed.
End pair_le.
