(* ===== verification/Text.v ===== *)
(** * Text: reading numbers and words

    [str::parse] at the unsigned integers, [str::split_whitespace] and
    [str::lines], with what the printers of numbers promise their readers. *)

From S2P Require Import Prelude RustStd.

(** ** [str::parse] *)

Definition digit_value (a : ascii) : Z := Z.of_N (code a - 48).

(** The digits of a number that must not exceed [top]. *)
Fixpoint parse_digits (top acc : Z) (s : string) : option Z :=
  match s with
  | EmptyString => Some acc
  | String a s' =>
      if is_ascii_digit a then
        let acc' := (acc * 10 + digit_value a)%Z in
        if (acc' <=? top)%Z then parse_digits top acc' s' else None
      else None
  end.

(** At an unsigned type with largest value [top]: one [+] is allowed in front. *)
Definition parse_uint (top : Z) (s : string) : option Z :=
  match s with
  | EmptyString => None
  | String a EmptyString => parse_digits top 0 s
  | String a s' => if Ascii.eqb a "+" then parse_digits top 0 s' else parse_digits top 0 s
  end.

(** ** Words and lines *)

(** [str::split_whitespace]: [word] is the word read so far, reversed. *)
Definition push_word (word : string) (rest : list string) : list string :=
  if decide (word = "") then rest else string_rev word :: rest.
Fixpoint words_fuel (fuel : nat) (word s : string) : list string :=
  match fuel with
  | O => []
  | S fuel' =>
      match s with
      | EmptyString => push_word word []
      | String a s' =>
          match strip_any white_space s with
          | Some rest => push_word word (words_fuel fuel' "" rest)
          | None => words_fuel fuel' (String a word) s'
          end
      end
  end.
Definition split_whitespace (s : string) : list string := words_fuel (S (String.length s)) "" s.

(** [str::lines]: cut at line feeds, without a carriage return before them, and
    without an empty line after the last. *)
Definition line_feed : ascii := ascii_of_nat 10.
Definition carriage_return : ascii := ascii_of_nat 13.
Definition chomp_cr (l : string) : string :=
  match string_rev l with
  | String a r => if Ascii.eqb a carriage_return then string_rev r else l
  | EmptyString => l
  end.
Fixpoint chomp_lines (segments : list string) : list string :=
  match segments with
  | [] => []
  | [last] => if decide (last = "") then [] else [last]
  | l :: rest => chomp_cr l :: chomp_lines rest
  end.
Definition str_lines (s : string) : list string := chomp_lines (split_on line_feed s).

(** ** Numbers *)

Lemma pretty_digit n : (n < 10)%N → is_ascii_digit (pretty_N_char n) = true ∧ digit_value (pretty_N_char n) = Z.of_N n.
Proof.
  intros Hn. assert (n = 0 ∨ n = 1 ∨ n = 2 ∨ n = 3 ∨ n = 4 ∨ n = 5 ∨ n = 6 ∨ n = 7 ∨ n = 8 ∨ n = 9)%N as Hc by lia.
  by repeat destruct Hc as [->|Hc]; [..|subst n].
Qed.

Lemma parse_pretty_go top n s :
  (Z.of_N n ≤ top)%Z → parse_digits top 0 (pretty_N_go n s) = parse_digits top (Z.of_N n) s.
Proof.
  revert s. induction (N.lt_wf_0 n) as [n _ IH]. intros s Hn.
  destruct (decide (n = 0)%N) as [->|Hn0]; [by rewrite pretty_N_go_0|].
  pose proof (N.div_mod n 10 ltac:(lia)) as Hdm. pose proof (N.mod_lt n 10 ltac:(lia)) as Hm.
  assert (n `div` 10 < n)%N by (apply N.div_lt; lia).
  rewrite pretty_N_go_step by lia. rewrite IH by lia. cbn [parse_digits].
  destruct (pretty_digit (n `mod` 10)%N Hm) as [-> ->].
  assert (Z.of_N (n `div` 10) * 10 + Z.of_N (n `mod` 10) = Z.of_N n)%Z as -> by lia.
  by rewrite (proj2 (Z.leb_le _ _) Hn).
Qed.

Lemma pretty_go_digits n s : all_chars is_ascii_digit s = true → all_chars is_ascii_digit (pretty_N_go n s) = true.
Proof.
  revert s. induction (N.lt_wf_0 n) as [n _ IH]. intros s Hs.
  destruct (decide (n = 0)%N) as [->|Hn0]; [by rewrite pretty_N_go_0|].
  rewrite pretty_N_go_step by lia. apply IH; [apply N.div_lt; lia|]. simpl.
  by rewrite (proj1 (pretty_digit _ (N.mod_lt n 10 ltac:(lia)))).
Qed.

Lemma pretty_nonneg z : (0 ≤ z)%Z → pretty z = pretty (Z.to_N z).
Proof. destruct z; [done|done|lia]. Qed.

Lemma pretty_digits z : (0 ≤ z)%Z → all_chars is_ascii_digit (pretty z) = true.
Proof.
  intros Hz. rewrite pretty_nonneg by done. unfold pretty, pretty_N. case_decide; [done|]. by apply pretty_go_digits.
Qed.

Lemma parse_uint_digits top s :
  s ≠ "" → all_chars is_ascii_digit s = true → parse_uint top s = parse_digits top 0 s.
Proof.
  destruct s as [|a s]; [done|]. intros _ [Ha _]%andb_true_iff. unfold parse_uint. destruct s as [|b s]; [done|].
  destruct (Ascii.eqb_spec a "+") as [->|]; done.
Qed.

Lemma pretty_nonempty (z : Z) : pretty z ≠ "".
Proof.
  intros E. destruct z as [|p|p]; [done| |done]. change (pretty (N.pos p) = "") in E.
  unfold pretty, pretty_N in E. rewrite decide_False in E by done. rewrite pretty_N_go_step in E by lia. revert E.
  assert (Hlen : ∀ n s, (String.length s ≤ String.length (pretty_N_go n s))%nat).
  { intros n. induction (N.lt_wf_0 n) as [n _ IH]. intros s. destruct (decide (n = 0)%N) as [->|]; [by rewrite pretty_N_go_0|].
    rewrite pretty_N_go_step by lia. etrans; [|apply IH; apply N.div_lt; lia]. simpl. lia. }
  intros E. specialize (Hlen (N.pos p `div` 10)%N (String (pretty_N_char (N.pos p `mod` 10)) "")).
  rewrite E in Hlen. simpl in Hlen. lia.
Qed.

(** A printed number is read back. *)
Lemma parse_uint_pretty top z : (0 ≤ z ≤ top)%Z → parse_uint top (pretty z) = Some z.
Proof.
  intros Hz. rewrite parse_uint_digits; [|apply pretty_nonempty|apply pretty_digits; lia].
  rewrite pretty_nonneg by lia. unfold pretty, pretty_N. case_decide as E.
  - assert (z = 0%Z) as -> by lia. unfold parse_digits. simpl. by rewrite (proj2 (Z.leb_le _ _)) by (vm_compute digit_value; lia).
  - rewrite parse_pretty_go by lia. cbn. f_equal. lia.
Qed.

(** ** Words *)

(** A visible ASCII character, as most of a command line is made of. *)
Definition graphic (a : ascii) : bool := (33 <=? code a)%N && (code a <=? 126)%N.

Lemma strip_any_none a s pats :
  forallb (λ p, match p with String b _ => negb (Ascii.eqb b a) | EmptyString => false end) pats = true →
  strip_any pats (String a s) = None.
Proof.
  unfold strip_any. induction pats as [|p pats IH]; [done|]. simpl. intros [Hp Hps]%andb_true_iff.
  destruct p as [|b p]; [done|]. cbn [strip_prefix]. apply negb_true_iff in Hp as ->. simpl. by apply IH.
Qed.

Lemma graphic_not_white a s : graphic a = true → strip_any white_space (String a s) = None.
Proof.
  intros Ha. apply strip_any_none. revert Ha. destruct a as [[] [] [] [] [] [] [] []]; vm_compute; done.
Qed.

Lemma graphic_digit a : is_ascii_digit a = true → graphic a = true.
Proof. unfold is_ascii_digit, graphic. rewrite !andb_true_iff, !N.leb_le. lia. Qed.

Lemma all_chars_impl (f g : ascii → bool) s : (∀ a, f a = true → g a = true) → all_chars f s = true → all_chars g s = true.
Proof. intros Hfg. induction s as [|a s IH]; [done|]. simpl. rewrite !andb_true_iff. naive_solver. Qed.

Lemma all_chars_app f a b : all_chars f (a ^+ b) = all_chars f a && all_chars f b.
Proof. induction a as [|x a IH]; [done|]. simpl. by rewrite IH, andb_assoc. Qed.

Lemma string_rev_app_app a b acc : string_rev_app (a ^+ b) acc = string_rev_app b (string_rev_app a acc).
Proof. revert acc. induction a as [|x a IH]; intros acc; [done|]. simpl. apply IH. Qed.

Lemma string_rev_app_acc a acc : string_rev_app a acc = string_rev a ^+ acc.
Proof.
  unfold string_rev. revert acc. induction a as [|x a IH]; intros acc; [done|]. cbn [string_rev_app].
  rewrite IH, (IH (String x "")). by rewrite string_app_assoc.
Qed.

Lemma string_app_nil_r (a : string) : a ^+ "" = a.
Proof. induction a as [|x a IH]; [done|]. change (String x (a ^+ "") = String x a). by rewrite IH. Qed.

Lemma string_rev_involutive a : string_rev (string_rev a) = a.
Proof.
  assert (Hg : ∀ s acc, string_rev_app (string_rev_app s acc) "" = string_rev_app acc s).
  { induction s as [|x s IH]; intros acc; [done|]. simpl. by rewrite IH. }
  unfold string_rev. by rewrite Hg.
Qed.

Lemma string_length_app (a b : string) : String.length (a ^+ b) = String.length a + String.length b.
Proof. induction a as [|x a IH]; [done|]. change (S (String.length (a ^+ b)) = S (String.length a) + String.length b). lia. Qed.

(** Reading over a word. *)
Lemma words_word fuel word w s :
  all_chars graphic w = true →
  words_fuel (String.length w + fuel) word (w ^+ s) = words_fuel fuel (string_rev_app w word) s.
Proof.
  revert word. induction w as [|a w IH]; intros word; [done|]. simpl. intros [Ha Hw]%andb_true_iff.
  change (String a w ^+ s) with (String a (w ^+ s)). rewrite graphic_not_white by done. by apply IH.
Qed.

Lemma string_rev_nonempty w : w ≠ "" → string_rev w ≠ "".
Proof. intros Hw E. apply Hw. rewrite <-(string_rev_involutive w), E. done. Qed.

Lemma split_whitespace_word w s :
  w ≠ "" → all_chars graphic w = true → split_whitespace (w ^+ " " ^+ s) = w :: split_whitespace s.
Proof.
  intros Hw Hg. unfold split_whitespace. rewrite string_length_app.
  replace (S (String.length w + String.length (" " ^+ s))) with (String.length w + S (S (String.length s))).
  2:{ change (String.length (" " ^+ s)) with (S (String.length s)). lia. }
  rewrite words_word by done. change (" " ^+ s) with (String " " s). cbn [words_fuel].
  change (strip_any white_space (String " " s)) with (Some s).
  unfold push_word. rewrite decide_False; [|by apply string_rev_nonempty].
  f_equal. apply string_rev_involutive.
Qed.

Lemma split_whitespace_last w : w ≠ "" → all_chars graphic w = true → split_whitespace (w ^+ String line_feed "") = [w].
Proof.
  intros Hw Hg. unfold split_whitespace. rewrite string_length_app.
  replace (S (String.length w + String.length (String line_feed ""))) with (String.length w + 2) by (simpl; lia).
  rewrite words_word by done. cbn [words_fuel]. change (strip_any white_space (String line_feed "")) with (Some "").
  unfold push_word at 1. rewrite decide_False; [|by apply string_rev_nonempty].
  f_equal. apply string_rev_involutive.
Qed.

(** Words with single spaces between them. *)
Fixpoint unwords (ws : list string) : string :=
  match ws with [] => "" | [w] => w | w :: rest => w ^+ " " ^+ unwords rest end.

Lemma split_unwords ws :
  ws ≠ [] → Forall (λ w, w ≠ "" ∧ all_chars graphic w = true) ws → split_whitespace (unwords ws ^+ String line_feed "") = ws.
Proof.
  induction ws as [|w [|v ws] IH]; [done| |].
  - intros _ [[? ?] _]%Forall_cons. by apply split_whitespace_last.
  - intros _ [[? ?] Hrest]%Forall_cons.
    change (unwords (w :: v :: ws)) with (w ^+ " " ^+ unwords (v :: ws)).
    rewrite !string_app_assoc, split_whitespace_word by done. by rewrite IH.
Qed.

(** ** [ParseIntError] *)

Fixpoint digits_error (top acc : Z) (s : string) : string :=
  match s with
  | EmptyString => ""
  | String a s' =>
      if is_ascii_digit a then
        let acc' := (acc * 10 + digit_value a)%Z in
        if (acc' <=? top)%Z then digits_error top acc' s' else "number too large to fit in target type"
      else "invalid digit found in string"
  end.

(** [Display] of the error of [parse_uint], when it fails. *)
Definition uint_error (top : Z) (s : string) : string :=
  match s with
  | EmptyString => "cannot parse integer from empty string"
  | String a EmptyString => digits_error top 0 s
  | String a s' => if Ascii.eqb a "+" then digits_error top 0 s' else digits_error top 0 s
  end.

Lemma parse_digits_bounds top acc s x : (0 ≤ acc ≤ top)%Z → parse_digits top acc s = Some x → (0 ≤ x ≤ top)%Z.
Proof.
  revert acc. induction s as [|a s IH]; intros acc Hacc; simpl; [by intros [= <-]|].
  destruct (is_ascii_digit a); [|done]. destruct (Z.leb_spec (acc * 10 + digit_value a) top); [|done].
  apply IH. unfold digit_value in *. lia.
Qed.

Lemma parse_uint_bounds top s x : (0 ≤ top)%Z → parse_uint top s = Some x → (0 ≤ x ≤ top)%Z.
Proof.
  intros Ht. unfold parse_uint. destruct s as [|a [|b s]]; [done|apply parse_digits_bounds; lia|].
  destruct (Ascii.eqb a "+"); apply parse_digits_bounds; lia.
Qed.

(** ** Texts without white space around them *)

Lemma all_chars_rev_app f a acc : all_chars f (string_rev_app a acc) = all_chars f a && all_chars f acc.
Proof.
  revert acc. induction a as [|x a IH]; intros acc; simpl; [done|]. rewrite IH. simpl.
  by destruct (f x), (all_chars f a).
Qed.
Lemma all_chars_rev f a : all_chars f (string_rev a) = all_chars f a.
Proof. unfold string_rev. rewrite all_chars_rev_app. simpl. by rewrite andb_true_r. Qed.

Lemma graphic_not_white_rev a s : graphic a = true → strip_any (map string_rev white_space) (String a s) = None.
Proof.
  intros Ha. apply strip_any_none. revert Ha. destruct a as [[][][][][][][][]]; vm_compute; try done; intros _; repeat constructor.
Qed.

(** A text that begins and ends with a graphic character. *)
Definition solid (s : string) : Prop :=
  ∃ a s' b r, s = String a s' ∧ string_rev s = String b r ∧ graphic a = true ∧ graphic b = true.

Lemma strip_all_done fuel pats s : strip_any pats s = None → strip_all fuel pats s = s.
Proof. intros Hs. destruct fuel as [|fuel]; [done|]. simpl. by rewrite Hs. Qed.

Lemma trim_solid s : solid s → trim s = s.
Proof.
  intros (a & s' & b & r & E & Er & Ha & Hb). unfold trim, trim_start, trim_end.
  rewrite (strip_all_done _ _ s) by (rewrite E; by apply graphic_not_white). rewrite Er.
  rewrite strip_all_done by by apply graphic_not_white_rev. rewrite <-Er. apply string_rev_involutive.
Qed.

Lemma graphic_solid s : s ≠ "" → all_chars graphic s = true → solid s.
Proof.
  intros Hne Hg. pose proof (string_rev_nonempty s Hne) as Hr. pose proof Hg as Hg'. rewrite <-all_chars_rev in Hg'.
  destruct s as [|a s]; [done|]. destruct (string_rev (String a s)) as [|b r] eqn:E; [done|].
  simpl in Hg, Hg'. apply andb_true_iff in Hg as [? _], Hg' as [? _]. by exists a, s, b, r.
Qed.

Lemma trim_graphic s : all_chars graphic s = true → trim s = s.
Proof. destruct s as [|a s]; [done|]. intros Hg. by apply trim_solid, graphic_solid. Qed.

Lemma string_rev_append a b : string_rev (a ^+ b) = string_rev b ^+ string_rev a.
Proof. unfold string_rev at 1. rewrite string_rev_app_app, (string_rev_app_acc b). done. Qed.

Lemma solid_app a m b : solid a → solid b → solid (a ^+ m ^+ b).
Proof.
  intros (x & a' & _ & _ & -> & _ & Hx & _) (_ & _ & y & r & _ & Er & _ & Hy). unfold solid.
  rewrite !string_rev_append, Er. eexists x, _, y, _. split_and!; [reflexivity|simpl; reflexivity|done|done].
Qed.

Lemma split_whitespace_space s : split_whitespace (String " " s) = split_whitespace s.
Proof. done. Qed.

Lemma split_whitespace_one w : w ≠ "" → all_chars graphic w = true → split_whitespace w = [w].
Proof.
  intros Hw Hg. unfold split_whitespace. replace (S (String.length w)) with (String.length w + 1) by lia.
  rewrite <-(string_app_nil_r w) at 2. rewrite words_word by done. simpl. unfold push_word.
  rewrite decide_False; [|by apply string_rev_nonempty]. f_equal. apply string_rev_involutive.
Qed.

(** ** Lines *)

Lemma split_on_app c p s : split_on c (p ^+ String c s) = split_on c p ++ split_on c s.
Proof.
  induction p as [|a p IH]; simpl; [by rewrite Ascii.eqb_refl|]. destruct (Ascii.eqb a c); [by rewrite IH|].
  rewrite IH. pose proof (split_on_nonempty c p). by destruct (split_on c p).
Qed.

Lemma split_on_line c l rest :
  all_chars (λ a, negb (Ascii.eqb a c)) l = true → split_on c (l ^+ String c rest) = l :: split_on c rest.
Proof.
  induction l as [|a l IH]; simpl.
  - intros _. by rewrite Ascii.eqb_refl.
  - intros [Ha%negb_true_iff Hl]%andb_true_iff. change (String a l ^+ String c rest) with (String a (l ^+ String c rest)).
    simpl. rewrite IH by done. by rewrite Ha.
Qed.

Lemma chomp_solid l : solid l → chomp_cr l = l.
Proof.
  intros (a & l' & b & r & _ & Er & _ & Hb). unfold chomp_cr. rewrite Er. by destruct b as [[][][][][][][][]].
Qed.

Lemma str_lines_cons l rest :
  all_chars (λ a, negb (Ascii.eqb a line_feed)) l = true → solid l →
  str_lines (l ^+ String line_feed rest) = l :: str_lines rest.
Proof.
  intros Hl Hs. unfold str_lines. rewrite split_on_line by done.
  pose proof (split_on_nonempty line_feed rest) as Hne. destruct (split_on line_feed rest) as [|r rs]; [done|].
  simpl. by rewrite chomp_solid.
Qed.

(** ** Splitting *)

(** [str::split_once] *)
Fixpoint split_once (c : ascii) (s : string) : option (string * string) :=
  match s with
  | EmptyString => None
  | String a s' =>
      if Ascii.eqb a c then Some ("", s') else '(key, value) ← split_once c s'; Some (String a key, value)
  end.

Lemma split_once_app c key value :
  all_chars (λ a, negb (Ascii.eqb a c)) key = true → split_once c (key ^+ String c value) = Some (key, value).
Proof.
  induction key as [|a key IH]; simpl.
  - intros _. by rewrite Ascii.eqb_refl.
  - intros [Ha%negb_true_iff Hk]%andb_true_iff. rewrite Ha. by rewrite IH.
Qed.

(** [str::split] at a pattern of more than one character, from the left. *)
Fixpoint split_once_str (pat s : string) : option (string * string) :=
  match strip_prefix pat s with
  | Some rest => Some ("", rest)
  | None =>
      match s with
      | EmptyString => None
      | String a s' => '(l, r) ← split_once_str pat s'; Some (String a l, r)
      end
  end.

Fixpoint split_str_fuel (fuel : nat) (pat s : string) : list string :=
  match fuel with
  | O => [s]
  | S fuel' =>
      match split_once_str pat s with
      | Some (l, r) => l :: split_str_fuel fuel' pat r
      | None => [s]
      end
  end.
Definition split_str (pat s : string) : list string := split_str_fuel (String.length s) pat s.

Lemma split_once_str_Some pat s l r : split_once_str pat s = Some (l, r) → s = l ^+ pat ^+ r.
Proof.
  revert l. induction s as [|a s IH]; intros l; simpl.
  - destruct pat; [by intros [= <- <-]|done].
  - destruct (strip_prefix pat (String a s)) as [rest|] eqn:E.
    + intros [= <- <-]. by apply strip_prefix_Some in E.
    + destruct (split_once_str pat s) as [[l' r']|]; [|done]. intros [= <- <-]. by rewrite (IH l' eq_refl).
Qed.
