(* ===== verification/Paths.v ===== *)
(** * Paths: [shared/src/workspace/path.rs]

    [std::path::Path::components] on Unix and the three functions that keep
    guest-supplied paths and persisted identifiers inside their directory. *)

From S2P Require Import Prelude RustStd.

(** ** [std::path] *)

Inductive Component :=
  | RootDir
  | CurDir
  | ParentDir
  | Normal (name : string).

#[global] Instance Component_eq_decision : EqDecision Component.
Proof. solve_decision. Defined.

Definition slash : ascii := "/"%char.

Definition segment (s : string) : option Component :=
  if decide (s = "") then None
  else if decide (s = ".") then None
  else if decide (s = "..") then Some ParentDir
  else Some (Normal s).

(** [Path::components]: repeated separators and inner [.] vanish, a leading
    [/] is [RootDir], a leading [.] of a relative path is [CurDir]. *)
Definition components (s : string) : list Component :=
  let segs := split_on slash s in
  let body := omap segment segs in
  if starts_with "/" s then RootDir :: body
  else match segs with
       | w :: _ => if decide (w = ".") then CurDir :: body else body
       | [] => body
       end.

(** A [PathBuf] up to the equality of [Path], which compares components. *)
Abbreviation PathBuf := (list Component).

Definition drop_cur (cs : list Component) : list Component :=
  match cs with CurDir :: cs' => cs' | _ => cs end.

(** [Path::join]: an absolute argument replaces the path. *)
Definition join (root : PathBuf) (rel : string) : PathBuf :=
  let cs := components rel in
  match cs, root with
  | RootDir :: _, _ => cs
  | _, [] => cs
  | _, _ => root ++ drop_cur cs
  end.

(** ** The source *)

Fixpoint validate_components (cs : list Component) : Result SandboxError () :=
  match cs with
  | [] => Ok ()
  | Normal _ :: cs' | CurDir :: cs' => validate_components cs'
  | _ => Err (InvalidConfig "workspace path must stay within /workspace")
  end.

Definition validate_relative (path : string) : Result SandboxError () :=
  validate_components (components path).

Definition normalize_workspace_path (path : string) : Result SandboxError string :=
  if decide (path = "") then Ok "/workspace"
  else if decide (path = ".") then Ok "/workspace"
  else if decide (path = "/workspace") then Ok "/workspace"
  else
    candidate ← (if starts_with "/workspace/" path then Ok path
                 else if starts_with "/" path then
                   Err (InvalidConfig "filesystem access is restricted to /workspace")
                 else Ok ("/workspace/" ^+ trim_start_matches "/" path));
    _ ← validate_relative (trim_start_matches "/workspace/" candidate);
    Ok candidate.

Definition resolve_workspace_path (root : PathBuf) (path : string) : Result SandboxError PathBuf :=
  normalized ← normalize_workspace_path path;
  if decide (normalized = "/workspace") then Ok root
  else
    let relative := trim_start_matches "/workspace/" normalized in
    _ ← validate_relative relative;
    Ok (join root relative).

Definition id_char (a : ascii) : bool :=
  is_ascii_alphanumeric a || Ascii.eqb a "-" || Ascii.eqb a "_".

Definition validate_persisted_id (value field : string) : Result SandboxError () :=
  if decide (value = "") then Err (InvalidConfig (field ^+ " must not be empty"))
  else if all_chars id_char value then Ok ()
  else Err (InvalidConfig (field ^+ " may only contain ASCII letters, digits, '-' or '_'")).

(** ** Lemmas *)

(** A name a directory entry can have: one component, neither [.] nor [..]. *)
Definition plain_name (n : string) : Prop :=
  n ≠ "" ∧ n ≠ "." ∧ n ≠ ".." ∧ split_on slash n = [n].

Lemma split_on_elem_plain c s w : w ∈ split_on c s → split_on c w = [w].
Proof.
  revert w. induction s as [|a s IH]; intros w; simpl.
  { intros ->%list_elem_of_singleton. done. }
  destruct (Ascii.eqb a c) eqn:Ea.
  { intros [->|Hw]%elem_of_cons; [done|auto]. }
  destruct (split_on c s) as [|v ws] eqn:Es; [by apply split_on_nonempty in Es|].
  intros [->|Hw]%elem_of_cons; [|apply IH; by right].
  simpl. rewrite Ea. rewrite (IH v); [done|by left].
Qed.

Lemma segment_Normal s n : segment s = Some (Normal n) → s = n ∧ n ≠ "" ∧ n ≠ "." ∧ n ≠ "..".
Proof. unfold segment. repeat case_decide; naive_solver. Qed.

Lemma body_components s c :
  c ∈ omap segment (split_on slash s) → c = ParentDir ∨ ∃ n, c = Normal n ∧ plain_name n.
Proof.
  rewrite list_elem_of_omap. intros (w & Hw & Hc). pose proof (split_on_elem_plain _ _ _ Hw).
  destruct c as [| | |n].
  - unfold segment in Hc. repeat case_decide; naive_solver.
  - unfold segment in Hc. repeat case_decide; naive_solver.
  - by left.
  - right. apply segment_Normal in Hc as (-> & ?). exists n. unfold plain_name. naive_solver.
Qed.

Lemma validate_components_ok cs :
  validate_components cs = Ok () ↔ Forall (λ c, c = CurDir ∨ ∃ n, c = Normal n) cs.
Proof.
  induction cs as [|[| | |n] cs IH]; simpl; rewrite ?Forall_nil, ?Forall_cons; naive_solver.
Qed.

(** The components of an accepted relative path are plain names, after at
    most one leading [.]. *)
Lemma validate_relative_names s :
  validate_relative s = Ok () →
  starts_with "/" s = false ∧ ∃ ns, drop_cur (components s) = map Normal ns ∧ Forall plain_name ns.
Proof.
  unfold validate_relative. rewrite validate_components_ok. unfold components.
  set (body := omap segment (split_on slash s)).
  assert (Hbody : Forall (λ c, c = CurDir ∨ ∃ n, c = Normal n) body →
                  ∃ ns, body = map Normal ns ∧ Forall plain_name ns).
  { assert (Hc : ∀ c, c ∈ body → c = ParentDir ∨ ∃ n, c = Normal n ∧ plain_name n)
      by apply body_components.
    clearbody body. induction body as [|c body IH]; intros Hall; [by exists []|].
    apply Forall_cons in Hall as [Hh Ht].
    destruct IH as (ns & -> & ?); [intros; apply Hc; by right|done|].
    destruct (Hc c) as [->|(n & -> & ?)]; [by left|naive_solver|].
    exists (n :: ns). by split; [|constructor]. }
  destruct (starts_with "/" s).
  { intros [Hh _]%Forall_cons. naive_solver. }
  intros Hall. split; [done|].
  assert (Hb : Forall (λ c, c = CurDir ∨ ∃ n, c = Normal n) body).
  { destruct (split_on slash s) as [|w ws]; [done|]. case_decide; [|done].
    by apply Forall_cons in Hall as [_ ?]. }
  destruct (Hbody Hb) as (ns & Hns & ?). exists ns. split; [|done].
  destruct (split_on slash s) as [|w ws]; [by rewrite Hns; destruct ns|].
  case_decide; simpl; rewrite Hns; [done|by destruct ns].
Qed.

Lemma relative_no_root s : starts_with "/" s = false → RootDir ∉ components s.
Proof.
  intros Hs. unfold components. rewrite Hs.
  assert (Hno : RootDir ∉ omap segment (split_on slash s)).
  { intros [?|(n & ? & ?)]%body_components; done. }
  destruct (split_on slash s) as [|w ws]; [done|]. case_decide; [|done].
  rewrite elem_of_cons. naive_solver.
Qed.

Lemma join_relative root s ns :
  root ≠ [] → starts_with "/" s = false → drop_cur (components s) = map Normal ns →
  join root s = root ++ map Normal ns.
Proof.
  intros Hroot Hs Hns. unfold join. rewrite <-Hns.
  pose proof (relative_no_root s Hs) as Hno.
  destruct (components s) as [|[| | |n] cs] eqn:E; try (by destruct root).
  exfalso. apply Hno. by left.
Qed.

Lemma id_char_slash : id_char slash = false.
Proof. done. Qed.

Lemma validate_persisted_id_ok value field :
  validate_persisted_id value field = Ok () ↔ value ≠ "" ∧ all_chars id_char value = true.
Proof. unfold validate_persisted_id. case_decide; [naive_solver|]. destruct (all_chars _ _); naive_solver. Qed.

(** Whether an identifier is accepted does not depend on the field name. *)
Definition valid_id (value : string) : Prop := value ≠ "" ∧ all_chars id_char value = true.

Lemma valid_id_plain value : valid_id value → plain_name value.
Proof.
  intros [Hne Hall]. unfold plain_name. split_and!; [done| | |].
  - intros ->. done.
  - intros ->. done.
  - apply (all_chars_split id_char); done.
Qed.

Lemma plain_name_components n : plain_name n → components n = [Normal n].
Proof.
  intros (H1 & H2 & H3 & H4). unfold components. rewrite H4.
  assert (starts_with "/" n = false) as ->.
  { unfold starts_with. destruct (strip_prefix "/" n) as [n'|] eqn:E; [|done].
    apply strip_prefix_Some in E. subst n. exfalso.
    change (EmptyString :: split_on slash n' = ["/" ^+ n']) in H4. done. }
  rewrite decide_False by done. simpl. unfold segment. by rewrite !decide_False by done.
Qed.

(** The branch of [normalize_workspace_path] that the trivial spellings do not take. *)
Lemma normalize_absolute r :
  normalize_workspace_path ("/workspace/" ^+ r) =
  (_ ← validate_relative (trim_start_matches "/workspace/" r); Ok ("/workspace/" ^+ r)).
Proof.
  unfold normalize_workspace_path. rewrite !decide_False by done.
  rewrite starts_with_app. cbn [mbind Result_bind].
  by rewrite trim_start_matches_app.
Qed.

Lemma resolve_absolute root r :
  resolve_workspace_path root ("/workspace/" ^+ r) =
  (_ ← validate_relative (trim_start_matches "/workspace/" r);
   Ok (join root (trim_start_matches "/workspace/" r))).
Proof.
  unfold resolve_workspace_path. rewrite normalize_absolute.
  destruct (validate_relative _) as [[]|e] eqn:E; [|done]. cbn [mbind Result_bind].
  rewrite decide_False by done. rewrite trim_start_matches_app. by rewrite E.
Qed.

Lemma normalize_ok_shape path q :
  normalize_workspace_path path = Ok q →
  q = "/workspace" ∨ ∃ r, q = "/workspace/" ^+ r ∧
    validate_relative (trim_start_matches "/workspace/" r) = Ok ().
Proof.
  unfold normalize_workspace_path. repeat case_decide; [naive_solver..|].
  assert (Hgo : ∀ r, (_ ← validate_relative (trim_start_matches "/workspace/" ("/workspace/" ^+ r));
                      Ok ("/workspace/" ^+ r)) = Ok q →
                q = "/workspace" ∨ ∃ r, q = "/workspace/" ^+ r ∧
                  validate_relative (trim_start_matches "/workspace/" r) = Ok ()).
  { intros r. rewrite trim_start_matches_app.
    destruct (validate_relative _) as [[]|] eqn:E; [|done]. intros [= <-]. eauto. }
  destruct (starts_with "/workspace/" path) eqn:Hp.
  { apply starts_with_true in Hp as [r ->]. apply Hgo. }
  destruct (starts_with "/" path); [done|]. apply Hgo.
Qed.

Lemma trim_relative path :
  starts_with "/" path = false →
  trim_start_matches "/" path = path ∧ trim_start_matches "/workspace/" path = path.
Proof.
  intros Hp%starts_with_false. split; apply trim_start_matches_none; [done|].
  destruct path as [|a p]; [done|]. cbn [strip_prefix] in *.
  destruct (Ascii.eqb "/" a); [done|done].
Qed.

Lemma validate_components_parent cs :
  RootDir ∉ cs →
  validate_components cs = if decide (ParentDir ∈ cs)
    then Err (InvalidConfig "workspace path must stay within /workspace") else Ok ().
Proof.
  induction cs as [|[| | |n] cs IH]; intros Hr; cbn [validate_components].
  - by rewrite decide_False by apply not_elem_of_nil.
  - exfalso. apply Hr. by left.
  - rewrite IH by (intros ?; apply Hr; by right). apply decide_ext. rewrite elem_of_cons. naive_solver.
  - by rewrite decide_True by left.
  - rewrite IH by (intros ?; apply Hr; by right). apply decide_ext. rewrite elem_of_cons. naive_solver.
Qed.

Lemma resolve_names root path q :
  root ≠ [] → resolve_workspace_path root path = Ok q →
  ∃ names, q = root ++ map Normal names ∧ Forall plain_name names.
Proof.
  intros Hroot. unfold resolve_workspace_path.
  destruct (normalize_workspace_path path) as [n|e]; [|done]. simpl.
  case_decide. { intros [= ->]. exists []. by rewrite app_nil_r. }
  destruct (validate_relative _) as [[]|] eqn:Hv; [|done]. intros [= <-].
  apply validate_relative_names in Hv as (Hs & ns & Hns & ?).
  exists ns. split; [by apply join_relative|done].
Qed.

(** ** Properties *)

(** a path the guest resolves lies under the workspace root, component by
    component: the root followed by plain names, so neither [..] nor an
    absolute path nor an empty component reaches the file system. *)
Theorem resolve_stays_in_root root path q :
  root ≠ [] → resolve_workspace_path root path = Ok q →
  ∃ names, q = root ++ map Normal names ∧ Forall plain_name names.
Proof. intros Hroot Hq. by apply (resolve_names root path). Qed.

(** [normalize_workspace_path] is idempotent: a normalized path is its own
    normal form, so validating twice (host and guest) never changes a path. *)
Theorem normalize_idempotent path q :
  normalize_workspace_path path = Ok q → normalize_workspace_path q = Ok q.
Proof.
  intros [->|(r & -> & Hr)]%normalize_ok_shape; [done|].
  rewrite normalize_absolute. by rewrite Hr.
Qed.

(** on a relative path the function is decided by [..] alone: a path with
    a [..] component is refused, every other one is prefixed with the root. *)
Theorem normalize_relative_spec path :
  path ≠ "" → path ≠ "." → starts_with "/" path = false →
  normalize_workspace_path path =
    if decide (ParentDir ∈ components path)
    then Err (InvalidConfig "workspace path must stay within /workspace")
    else Ok ("/workspace/" ^+ path).
Proof.
  intros H1 H2 Hp. destruct (trim_relative path Hp) as [Ht1 Ht2].
  unfold normalize_workspace_path. rewrite (decide_False (P := path = "")) by done.
  rewrite (decide_False (P := path = ".")) by done.
  rewrite (decide_False (P := path = "/workspace")) by (intros ->; done).
  assert (starts_with "/workspace/" path = false) as ->.
  { apply not_true_iff_false. intros [r ->]%starts_with_true. done. }
  rewrite Hp, Ht1. cbn [mbind Result_bind].
  rewrite trim_start_matches_app, Ht2. unfold validate_relative.
  rewrite validate_components_parent by by apply relative_no_root. by case_decide.
Qed.

(** the root is stripped as often as it occurs: a path that repeats it
    after a doubled separator names the same file as the path without the
    repetition, not the entry [workspace] inside the workspace. *)
Theorem resolve_strips_repeated_root root r :
  resolve_workspace_path root ("/workspace/" ^+ "/workspace/" ^+ r) =
  resolve_workspace_path root ("/workspace/" ^+ r).
Proof. by rewrite !resolve_absolute, trim_start_matches_app. Qed.

(** an accepted identifier is exactly one path component, so joining it
    to a directory adds one level below that directory and nothing else. *)
Theorem persisted_id_is_one_component value field root :
  root ≠ [] → validate_persisted_id value field = Ok () →
  join root value = root ++ [Normal value] ∧ plain_name value.
Proof.
  intros Hroot Hv%validate_persisted_id_ok. apply valid_id_plain in Hv. split; [|done].
  unfold join. rewrite plain_name_components by done. by destruct root.
Qed.
