(* ===== verification/FileSystem.v ===== *)
(** * FileSystem: the host environment of the daemon

    The part of [std::fs]/[tokio::fs] the state directory is kept with, as a
    finite map from paths to nodes, together with the sources of identifiers
    and time, and an adversarial schedule of I/O failures: every operation can
    fail, and one that is not atomic can fail half-way.  Symbolic links are not
    modelled.  Below it, [src/private_fs.rs] and [now_ms]. *)

From S2P Require Import Prelude RustStd Paths.

(** ** What is not under [src/]: crates and the operating system *)

(** [uuid::Uuid], a 128-bit number ordered as one. *)
Abbreviation Uuid := N.

Class Platform := {
  entropy : nat → Uuid;                 (** [Uuid::new_v4], by draw *)
  uuid_to_string : Uuid → string;       (** [Display for Uuid], hyphenated *)
  uuid_simple : Uuid → string;          (** [Uuid::simple] *)
  uuid_parse : string → option Uuid;    (** [Uuid::parse_str] *)
  wall_clock : nat → option Z;          (** milliseconds since the epoch, by reading;
                                            [None] before the epoch *)
  sha256 : bytes → bytes;
  umask : Z;
  from_utf8_lossy : bytes → string;     (** [String::from_utf8_lossy] *)
  dir_order : list string → list string;  (** the order [read_dir] yields names in *)
}.

(** The documented behaviour of the [uuid] crate the daemon relies on: the
    printed form is hyphenated hexadecimal, and parsing reads it back; and of
    [read_dir]: every entry once, in some order. *)
Definition uuid_char (a : ascii) : bool :=
  let n := N_of_ascii a in
  (((48 <=? n) && (n <=? 57)) || ((97 <=? n) && (n <=? 102)) || (n =? 45))%N.

Class PlatformLaws `{Platform} : Prop := {
  uuid_to_string_valid u : valid_id (uuid_to_string u);
  uuid_to_string_hex u : all_chars uuid_char (uuid_to_string u) = true;
  uuid_parse_to_string u : uuid_parse (uuid_to_string u) = Some u;
  dir_order_perm l : dir_order l ≡ₚ l;
}.

#[global] Instance uuid_to_string_inj `{PlatformLaws} : Inj (=) (=) uuid_to_string.
Proof.
  intros u v Huv. apply (inj Some). rewrite <-!uuid_parse_to_string. by rewrite Huv.
Qed.

(** [serde_json] at one type. *)
Class Serde (A : Type) := {
  to_vec : A → Result string bytes;
  from_slice : bytes → Result string A;
}.
Class SerdeLaws (A : Type) `{Serde A} : Prop := {
  from_to_vec a : ∃ b, to_vec a = Ok b ∧ from_slice b = Ok a;
}.

(** ** The world *)

Abbreviation path := (list string).

(** File contents: bytes written by the program, or a disk image, a sparse
    file of a given length whose unmapped bytes are zero. *)
Inductive content :=
  | Text (b : bytes)
  | Sparse (len : Z) (data : gmap Z Byte.byte).

Inductive node :=
  | Dir (mode : Z)
  | File (mode : Z) (c : content).

Record Fault := {
  fault_error : IoError;
  fault_progress : nat;          (** how far a non-atomic operation got *)
  fault_survives : path → bool;  (** what an interrupted removal left behind *)
}.

Record World := mkWorld {
  w_fs : gmap path node;
  w_faults : list (option Fault);  (** one entry per I/O operation; then none fails *)
  w_draws : nat;
  w_ticks : nat;
}.

Definition set_fs (fs : gmap path node) (w : World) : World :=
  mkWorld fs (w_faults w) (w_draws w) (w_ticks w).

(** [io_op act torn]: consume a schedule entry; a scheduled fault leaves the
    file system as [torn] says. *)
Definition io_op {A} (act : gmap path node → Result IoError (A * gmap path node))
    (torn : Fault → gmap path node → gmap path node) : M IoError World A := λ w,
  match w_faults w with
  | Some f :: fs => (Err (fault_error f), mkWorld (torn f (w_fs w)) fs (w_draws w) (w_ticks w))
  | sched =>
      let w' := mkWorld (w_fs w) (tail sched) (w_draws w) (w_ticks w) in
      match act (w_fs w) with
      | Ok (a, fs') => (Ok a, set_fs fs' w')
      | Err e => (Err e, w')
      end
  end.

(** An operation that fails without effect. *)
Definition atomic (_ : Fault) (fs : gmap path node) : gmap path node := fs.

Definition os_error (k : IoKind) (text : string) : IoError := {| io_kind := k; io_text := text |}.
Definition ENOENT : IoError := os_error KNotFound "No such file or directory (os error 2)".
Definition EEXIST : IoError := os_error KAlreadyExists "File exists (os error 17)".
Definition ENOTDIR : IoError := os_error KNotADirectory "Not a directory (os error 20)".
Definition EISDIR : IoError := os_error KIsADirectory "Is a directory (os error 21)".

Definition parent (p : path) : path := take (pred (length p)) p.

Definition is_dir (n : node) : bool := match n with Dir _ => true | File _ _ => false end.

(** The root directory always exists. *)
Definition parent_is_dir (fs : gmap path node) (p : path) : bool :=
  match parent p with
  | [] => true
  | q => match fs !! q with Some n => is_dir n | None => false end
  end.

Definition content_len (c : content) : Z :=
  match c with Text b => Z.of_nat (length b) | Sparse len _ => len end.

Section fs.
Context `{Platform}.

Definition dir_mode : Z := Z.ldiff 511 umask.   (* 0o777 *)
Definition file_mode : Z := Z.ldiff 438 umask.  (* 0o666 *)

(** All ancestors of a path, itself included, as directories. *)
Definition dir_chain (p : path) : gmap path node :=
  list_to_map (map (λ n, (take n p, Dir dir_mode)) (seq 1 (length p))).

Definition has_file_prefix (fs : gmap path node) (p : path) : bool :=
  existsb (λ n, match fs !! take n p with Some (File _ _) => true | _ => false end) (seq 1 (length p)).

Definition fs_try_exists (p : path) : M IoError World bool :=
  io_op (λ fs, Ok (bool_decide (is_Some (fs !! p)), fs)) atomic.

Definition fs_create_dir_all (p : path) : M IoError World () :=
  io_op (λ fs, if has_file_prefix fs p then Err ENOTDIR else Ok ((), fs ∪ dir_chain p))
        (λ f fs, let made := take (fault_progress f) p in
                 if has_file_prefix fs made then fs else fs ∪ dir_chain made).

Definition read_node (fs : gmap path node) (p : path) : Result IoError content :=
  match fs !! p with
  | Some (File _ c) => Ok c
  | Some (Dir _) => Err EISDIR
  | None => Err ENOENT
  end.

Definition content_bytes (c : content) : bytes :=
  match c with
  | Text b => b
  | Sparse len data => map (λ i, default Byte.x00 (data !! Z.of_nat i)) (seq 0 (Z.to_nat len))
  end.

Definition fs_read (p : path) : M IoError World bytes :=
  io_op (λ fs, c ← read_node fs p; Ok (content_bytes c, fs)) atomic.

Definition fs_metadata (p : path) : M IoError World node :=
  io_op (λ fs, n ← ok_or ENOENT (fs !! p); Ok (n, fs)) atomic.

(** Opening for writing: keeps the mode of an existing file. *)
Definition put_file (fs : gmap path node) (p : path) (mode : Z) (c : content) :
    Result IoError (gmap path node) :=
  if parent_is_dir fs p then
    match fs !! p with
    | Some (Dir _) => Err EISDIR
    | Some (File m _) => Ok (<[p := File m c]> fs)
    | None => Ok (<[p := File mode c]> fs)
    end
  else Err ENOENT.

(** What is on disk when writing [b] over a truncated file stops early: nothing
    happened yet, or a prefix was written. *)
Definition torn_write (p : path) (mode : Z) (b : bytes) (f : Fault) (fs : gmap path node) :
    gmap path node :=
  match fault_progress f with
  | O => fs
  | S n => match put_file fs p mode (Text (take n b)) with Ok fs' => fs' | Err _ => fs end
  end.

Definition fs_write (p : path) (b : bytes) : M IoError World () :=
  io_op (λ fs, fs' ← put_file fs p file_mode (Text b); Ok ((), fs')) (torn_write p file_mode b).

Definition fs_file_create (p : path) : M IoError World () :=
  io_op (λ fs, fs' ← put_file fs p file_mode (Text []); Ok ((), fs')) atomic.

(** [File::set_len]. *)
Definition resize_content (n : Z) (c : content) : content :=
  match c with
  | Text b => Sparse n (list_to_map (filter (λ kv, (kv.1 < n)%Z) (zip (map Z.of_nat (seq 0 (length b))) b)))
  | Sparse _ data => Sparse n (filter (λ kv, (kv.1 < n)%Z) data)
  end.

Definition fs_set_len (p : path) (n : Z) : M IoError World () :=
  io_op (λ fs, if (2 ^ 63 <=? n)%Z then Err (os_error KOther "out of range integral type conversion attempted")
               else match fs !! p with
               | Some (File m c) => Ok ((), <[p := File m (resize_content n c)]> fs)
               | Some (Dir _) => Err EISDIR
               | None => Err ENOENT
               end) atomic.

Definition fs_set_mode (p : path) (mode : Z) : M IoError World () :=
  io_op (λ fs, match fs !! p with
               | Some (Dir _) => Ok ((), <[p := Dir mode]> fs)
               | Some (File _ c) => Ok ((), <[p := File mode c]> fs)
               | None => Err ENOENT
               end) atomic.

(** [fs::copy]: contents and permission bits; not atomic. *)
Definition copy_act (src dst : path) (cut : content → content) (fs : gmap path node) :
    Result IoError (gmap path node) :=
  match fs !! src with
  | Some (File m c) =>
      fs' ← put_file fs dst m (cut c);
      match fs' !! dst with
      | Some (File _ c') => Ok (<[dst := File m c']> fs')
      | _ => Ok fs'
      end
  | Some (Dir _) => Err EISDIR
  | None => Err ENOENT
  end.

Definition cut_content (n : nat) (c : content) : content :=
  match c with
  | Text b => Text (take n b)
  | Sparse len data => Sparse (Z.of_nat n `min` len) (filter (λ kv, (kv.1 < Z.of_nat n)%Z) data)
  end.

Definition fs_copy (src dst : path) : M IoError World () :=
  io_op (λ fs, fs' ← copy_act src dst id fs; Ok ((), fs'))
        (λ f fs, match fault_progress f with
                 | O => fs
                 | S n => match copy_act src dst (cut_content n) fs with Ok fs' => fs' | Err _ => fs end
                 end).

(** [fs::rename] of a regular file: atomic. *)
Definition fs_rename_file (src dst : path) : M IoError World () :=
  io_op (λ fs, match fs !! src with
               | Some (File m c) =>
                   if parent_is_dir fs dst then
                     match fs !! dst with
                     | Some (Dir _) => Err EISDIR
                     | _ => Ok ((), <[dst := File m c]> (delete src fs))
                     end
                   else Err ENOENT
               | Some (Dir _) => Err ENOTDIR
               | None => Err ENOENT
               end) atomic.

Definition fs_remove_file (p : path) : M IoError World () :=
  io_op (λ fs, match fs !! p with
               | Some (File _ _) => Ok ((), delete p fs)
               | Some (Dir _) => Err EISDIR
               | None => Err ENOENT
               end) atomic.

(** An entry outlives an interrupted removal of [p] only with every directory
    between [p] and it. *)
Definition survives_to (f : Fault) (p q : path) : bool :=
  forallb (λ n, fault_survives f (take n q)) (seq (length p) (S (length q - length p))).

Definition fs_remove_dir_all (p : path) : M IoError World () :=
  io_op (λ fs, match fs !! p with
               | Some (Dir _) => Ok ((), filter (λ kv, ¬ p `prefix_of` kv.1) fs)
               | Some (File _ _) => Err ENOTDIR
               | None => Err ENOENT
               end)
        (λ f fs, filter (λ kv, p `prefix_of` kv.1 → survives_to f p kv.1 = true) fs).

(** [fs::read_dir], read to its end: the names of the entries, in an order
    that is the platform's. *)
Definition child_name (p q : path) : option string :=
  if decide (parent q = p ∧ q ≠ []) then last q else None.

Definition child_names {A} (fs : gmap path A) (p : path) : list string :=
  omap (λ kv, child_name p kv.1) (map_to_list fs).

Definition entries (fs : gmap path node) (p : path) : list string :=
  dir_order (sort_by_key id string_le (child_names fs p)).

Definition fs_read_dir (p : path) : M IoError World (list string) :=
  io_op (λ fs, match p, fs !! p with
               | [], _ | _, Some (Dir _) => Ok (entries fs p, fs)
               | _, Some (File _ _) => Err ENOTDIR
               | _, None => Err ENOENT
               end) atomic.

(** [ReadDir::next_entry]: one more directory entry can fail to be read. *)
Definition fs_next_entry : M IoError World () := io_op (λ fs, Ok ((), fs)) atomic.

(** [fs::rename] of a file or of a directory with all that is under it. *)
Definition move_path (src dst q : path) : path :=
  if decide (src `prefix_of` q) then dst ++ drop (length src) q else q.

Definition move_tree (src dst : path) (fs : gmap path node) : gmap path node :=
  list_to_map (map (λ kv, (move_path src dst kv.1, kv.2)) (map_to_list fs)).

Definition EINVAL : IoError := os_error KOther "Invalid argument (os error 22)".
Definition ENOTEMPTY : IoError := os_error KDirectoryNotEmpty "Directory not empty (os error 39)".

Definition fs_rename (src dst : path) : M IoError World () :=
  io_op (λ fs, match fs !! src with
               | None => Err ENOENT
               | Some n =>
                   if negb (parent_is_dir fs dst) then Err ENOENT
                   else if decide (src = dst) then Ok ((), fs)
                   else if decide (src `prefix_of` dst) then Err EINVAL
                   else match fs !! dst, n with
                        | None, _ => Ok ((), move_tree src dst fs)
                        | Some (File _ _), File _ _ => Ok ((), move_tree src dst (delete dst fs))
                        | Some (File _ _), Dir _ => Err ENOTDIR
                        | Some (Dir _), File _ _ => Err EISDIR
                        | Some (Dir _), Dir _ =>
                            if decide (child_names fs dst = []) then Ok ((), move_tree src dst (delete dst fs))
                            else Err ENOTEMPTY
                        end
               end) atomic.

(** ** Identifiers and time *)

Definition new_v4 {E} : M E World Uuid := λ w,
  (Ok (entropy (w_draws w)), mkWorld (w_fs w) (w_faults w) (S (w_draws w)) (w_ticks w)).

(** [now_ms]: the same function in [auth.rs], [boxes/helpers.rs],
    [workspace/store.rs] and [runtime/service/lifecycle.rs]. *)
Definition now_ms {E} : M E World Z := λ w,
  (Ok (match wall_clock (w_ticks w) with Some d => d mod 2 ^ 64 | None => 0 end)%Z,
   mkWorld (w_fs w) (w_faults w) (w_draws w) (S (w_ticks w))).
End fs.

(** ** Frames: nothing outside a footprint changes *)

Definition frame (P : path → Prop) : relation World := λ w w',
  ∀ q, ¬ P q → w_fs w' !! q = w_fs w !! q.

#[global] Instance frame_preorder P : PreOrder (frame P).
Proof. split; unfold frame; [done|]. intros w1 w2 w3 H1 H2 q Hq. by rewrite H2, H1. Qed.

Definition frame_fs (P : path → Prop) (fs fs' : gmap path node) : Prop :=
  ∀ q, ¬ P q → fs' !! q = fs !! q.

Lemma keeps_io_op {A} (P : path → Prop) (act : gmap path node → Result IoError (A * gmap path node)) torn :
  (∀ fs a fs', act fs = Ok (a, fs') → frame_fs P fs fs') →
  (∀ f fs, frame_fs P fs (torn f fs)) → keeps (frame P) (io_op act torn).
Proof.
  intros Hact Htorn w. unfold io_op, frame.
  destruct (w_faults w) as [|[f|] sched]; simpl; [|apply Htorn|];
    destruct (act (w_fs w)) as [[a fs']|e] eqn:E; simpl; intros q Hq; try done; by eapply Hact.
Qed.

(** Success of an operation: its effect, whatever the schedule was. *)
Lemma io_op_ok {A} (act : gmap path node → Result IoError (A * gmap path node)) torn w a w' :
  io_op act torn w = (Ok a, w') →
  act (w_fs w) = Ok (a, w_fs w') ∧ w_draws w' = w_draws w ∧ w_ticks w' = w_ticks w.
Proof.
  unfold io_op. destruct (w_faults w) as [|[f|] sched]; [| done |];
    destruct (act (w_fs w)) as [[a' fs']|e]; intros [= <- <-]; done.
Qed.

(** An operation that is atomic and fails changes nothing. *)
Lemma io_op_err_atomic {A} (act : gmap path node → Result IoError (A * gmap path node)) w e w' :
  io_op act atomic w = (Err e, w') → w_fs w' = w_fs w.
Proof.
  unfold io_op, atomic. destruct (w_faults w) as [|[f|] sched]; [|by intros [= _ <-]|];
    destruct (act (w_fs w)) as [[a' fs']|e']; intros [= <- <-]; done.
Qed.

(** An empty schedule: the operation does what [act] says. *)
Lemma io_op_clean {A} (act : gmap path node → Result IoError (A * gmap path node)) torn w :
  w_faults w = [] →
  io_op act torn w = match act (w_fs w) with
                     | Ok (a, fs') => (Ok a, set_fs fs' w)
                     | Err e => (Err e, w)
                     end.
Proof. destruct w as [fs sched d t]. simpl. intros ->. unfold io_op. simpl. by destruct (act fs) as [[]|]. Qed.

Section footprints.
Context `{Platform} (P : path → Prop).

Lemma frame_fs_refl fs : frame_fs P fs fs.
Proof. by intros q. Qed.
Hint Resolve frame_fs_refl : core.

Lemma frame_fs_insert fs p n : P p → frame_fs P fs (<[p := n]> fs).
Proof. intros HP q Hq. apply lookup_insert_ne. intros ->. done. Qed.

Lemma frame_fs_delete fs p : P p → frame_fs P fs (delete p fs).
Proof. intros HP q Hq. apply lookup_delete_ne. intros ->. done. Qed.

Lemma frame_fs_filter fs (Q : path * node → Prop) `{!∀ x, Decision (Q x)} :
  (∀ q n, ¬ P q → Q (q, n)) → frame_fs P fs (filter Q fs).
Proof.
  intros HQ q Hq. destruct (fs !! q) as [n|] eqn:E.
  - apply map_lookup_filter_Some. eauto.
  - apply map_lookup_filter_None. by left.
Qed.

Lemma dir_chain_lookup p q : is_Some (dir_chain p !! q) ↔ q `prefix_of` p ∧ q ≠ [].
Proof.
  unfold dir_chain. rewrite <-elem_of_dom, dom_list_to_map_L, elem_of_list_to_set.
  rewrite list_elem_of_fmap. split.
  - intros ([x n] & -> & Hin). apply list_elem_of_fmap in Hin as (k & [= -> ->] & Hk).
    apply elem_of_seq in Hk. simpl. split; [by exists (drop k p); rewrite take_drop|].
    intros He. apply (f_equal length) in He. rewrite length_take in He. simpl in He. lia.
  - intros [[k ->] Hne]. exists (q, Dir dir_mode). split; [done|].
    apply list_elem_of_fmap. exists (length q). rewrite take_app_length. split; [done|].
    apply elem_of_seq. rewrite length_app. destruct q; [done|]. simpl. lia.
Qed.

Lemma dir_chain_dir p q n : dir_chain p !! q = Some n → n = Dir dir_mode.
Proof.
  unfold dir_chain. intros Hin%elem_of_list_to_map_2.
  apply list_elem_of_fmap in Hin as (k & [= _ ->] & _). done.
Qed.

Lemma frame_fs_chain fs p : (∀ q, q `prefix_of` p → P q) → frame_fs P fs (fs ∪ dir_chain p).
Proof.
  intros HP q Hq. rewrite lookup_union. destruct (dir_chain p !! q) eqn:E.
  - exfalso. apply Hq, HP. apply (dir_chain_lookup p q). eauto.
  - apply (right_id None _).
Qed.

Lemma put_file_frame fs p m c fs' : P p → put_file fs p m c = Ok fs' → frame_fs P fs fs'.
Proof.
  unfold put_file. intros HP. destruct (parent_is_dir fs p); [|done].
  destruct (fs !! p) as [[]|]; [done|..]; intros [= <-]; by apply frame_fs_insert.
Qed.

Lemma copy_act_frame src dst cut fs fs' : P dst → copy_act src dst cut fs = Ok fs' → frame_fs P fs fs'.
Proof.
  unfold copy_act. intros HP. destruct (fs !! src) as [[|m c]|]; [done| |done].
  destruct (put_file fs dst m (cut c)) as [fs1|] eqn:E; [|done]. cbn [mbind Result_bind].
  pose proof (put_file_frame _ _ _ _ _ HP E) as Hf.
  destruct (fs1 !! dst) as [[]|]; intros [= <-]; try done.
  intros q Hq. rewrite frame_fs_insert by done. by apply Hf.
Qed.

(** Reads change nothing. *)
Lemma keeps_try_exists p : keeps (frame P) (fs_try_exists p).
Proof. apply keeps_io_op; [|done]. intros fs a fs' [= _ <-]. done. Qed.
Lemma keeps_read p : keeps (frame P) (fs_read p).
Proof.
  apply keeps_io_op; [|done]. intros fs a fs'. destruct (read_node fs p); [|done]. by intros [= _ <-].
Qed.
Lemma keeps_metadata p : keeps (frame P) (fs_metadata p).
Proof.
  apply keeps_io_op; [|done]. intros fs a fs'. destruct (fs !! p); [|done]. by intros [= _ <-].
Qed.
Lemma keeps_read_dir p : keeps (frame P) (fs_read_dir p).
Proof.
  apply keeps_io_op; [|done]. intros fs a fs'.
  destruct p; [|destruct (fs !! _) as [[]|]]; intros; simplify_eq; done.
Qed.
Lemma keeps_new_v4 {E} : keeps (frame P) (new_v4 : M E World _).
Proof. by intros w. Qed.
Lemma keeps_now_ms {E} : keeps (frame P) (now_ms : M E World _).
Proof. by intros w. Qed.

(** Writes change their target. *)
Lemma keeps_create_dir_all p : (∀ q, q `prefix_of` p → P q) → keeps (frame P) (fs_create_dir_all p).
Proof.
  intros HP. apply keeps_io_op.
  - intros fs a fs'. destruct (has_file_prefix fs p); [done|]. intros [= _ <-]. by apply frame_fs_chain.
  - intros f fs. cbv zeta. destruct (has_file_prefix _ _); [done|].
    apply frame_fs_chain. intros q Hq. apply HP. etrans; [exact Hq|]. apply prefix_take.
Qed.
Lemma keeps_write p b : P p → keeps (frame P) (fs_write p b).
Proof.
  intros HP. apply keeps_io_op.
  - intros fs a fs'. destruct (put_file _ _ _ _) eqn:E; [|done]. intros [= _ <-]. by eapply put_file_frame.
  - intros f fs. unfold torn_write. destruct (fault_progress f); [done|].
    destruct (put_file _ _ _ _) eqn:E; [|done]. by eapply put_file_frame.
Qed.
Lemma keeps_file_create p : P p → keeps (frame P) (fs_file_create p).
Proof.
  intros HP. apply keeps_io_op; [|done].
  intros fs a fs'. destruct (put_file _ _ _ _) eqn:E; [|done]. intros [= _ <-]. by eapply put_file_frame.
Qed.
Lemma keeps_set_len p n : P p → keeps (frame P) (fs_set_len p n).
Proof.
  intros HP. apply keeps_io_op; [|done]. intros fs a fs'. destruct (2 ^ 63 <=? n)%Z; [done|].
  destruct (fs !! p) as [[]|]; [done| |done]. intros [= _ <-]. by apply frame_fs_insert.
Qed.
Lemma keeps_set_mode p n : P p → keeps (frame P) (fs_set_mode p n).
Proof.
  intros HP. apply keeps_io_op; [|done]. intros fs a fs'.
  destruct (fs !! p) as [[]|]; [| |done]; intros [= _ <-]; by apply frame_fs_insert.
Qed.
Lemma keeps_copy src dst : P dst → keeps (frame P) (fs_copy src dst).
Proof.
  intros HP. apply keeps_io_op.
  - intros fs a fs'. destruct (copy_act _ _ _ _) eqn:E; [|done]. intros [= _ <-]. by eapply copy_act_frame.
  - intros f fs. destruct (fault_progress f); [done|].
    destruct (copy_act _ _ _ _) eqn:E; [|done]. by eapply copy_act_frame.
Qed.
Lemma keeps_rename_file src dst : P src → P dst → keeps (frame P) (fs_rename_file src dst).
Proof.
  intros Hs Hd. apply keeps_io_op; [|done]. intros fs a fs'.
  destruct (fs !! src) as [[|m c]|]; [done| |done]. destruct (parent_is_dir fs dst); [|done].
  assert (frame_fs P fs (<[dst := File m c]> (delete src fs))).
  { intros q Hq. rewrite frame_fs_insert by done. by apply frame_fs_delete. }
  destruct (fs !! dst) as [[]|]; [done|..]; intros [= _ <-]; done.
Qed.
Lemma keeps_remove_file p : P p → keeps (frame P) (fs_remove_file p).
Proof.
  intros HP. apply keeps_io_op; [|done]. intros fs a fs'.
  destruct (fs !! p) as [[]|]; [done| |done]. intros [= _ <-]. by apply frame_fs_delete.
Qed.
Lemma keeps_remove_dir_all p : (∀ q, p `prefix_of` q → P q) → keeps (frame P) (fs_remove_dir_all p).
Proof.
  intros HP. apply keeps_io_op.
  - intros fs a fs'. destruct (fs !! p) as [[]|]; [|done..]. intros [= _ <-].
    apply frame_fs_filter. simpl. naive_solver.
  - intros f fs. apply frame_fs_filter. simpl. naive_solver.
Qed.
Lemma keeps_next_entry : keeps (frame P) fs_next_entry.
Proof. apply keeps_io_op; [|done]. intros fs a fs' [= _ <-]. done. Qed.

Lemma move_tree_lookup_other src dst fs q :
  ¬ src `prefix_of` q → ¬ dst `prefix_of` q → move_tree src dst fs !! q = fs !! q.
Proof.
  intros Hs Hd. rewrite <-(list_to_map_to_list fs) at 2. unfold move_tree.
  induction (map_to_list fs) as [|[k n] l IH]; csimpl; [done|].
  rewrite !lookup_insert, IH. unfold move_path.
  repeat case_decide; subst; try done. exfalso. apply Hd. by apply prefix_app_r.
Qed.

Lemma keeps_rename src dst :
  (∀ q, src `prefix_of` q → P q) → (∀ q, dst `prefix_of` q → P q) → keeps (frame P) (fs_rename src dst).
Proof.
  intros Hs Hd. apply keeps_io_op; [|done]. intros fs a fs'.
  assert (Hm : frame_fs P fs (move_tree src dst fs)).
  { intros q Hq. apply move_tree_lookup_other; naive_solver. }
  assert (Hm' : frame_fs P fs (move_tree src dst (delete dst fs))).
  { intros q Hq. rewrite move_tree_lookup_other by naive_solver.
    apply lookup_delete_ne. intros ->. by apply Hq, Hd. }
  repeat case_match; intros; simplify_eq/=; done.
Qed.
End footprints.

#[export] Hint Resolve keeps_try_exists keeps_read keeps_metadata keeps_read_dir keeps_new_v4 keeps_now_ms
  keeps_create_dir_all keeps_write keeps_file_create keeps_set_len keeps_set_mode keeps_copy
  keeps_next_entry keeps_rename keeps_rename_file keeps_remove_file keeps_remove_dir_all : keeps.

(** ** Runs without failures *)

Definition clean (w : World) : Prop := w_faults w = [].

Lemma io_op_clean_ok {A} (act : gmap path node → Result IoError (A * gmap path node)) torn w a fs' :
  clean w → act (w_fs w) = Ok (a, fs') → io_op act torn w = (Ok a, set_fs fs' w).
Proof. intros Hc Ha. rewrite io_op_clean by done. by rewrite Ha. Qed.

Lemma set_fs_id w : set_fs (w_fs w) w = w.
Proof. by destruct w. Qed.

Lemma set_fs_set_fs fs fs' w : set_fs fs (set_fs fs' w) = set_fs fs w.
Proof. done. Qed.

Lemma clean_set_fs fs w : clean w → clean (set_fs fs w).
Proof. done. Qed.

(** No regular file where a directory is wanted. *)
Definition dir_free (fs : gmap path node) (d : path) : Prop := has_file_prefix fs d = false.

Lemma dir_free_spec fs d :
  dir_free fs d ↔ ∀ q m c, q `prefix_of` d → q ≠ [] → fs !! q ≠ Some (File m c).
Proof.
  unfold dir_free, has_file_prefix. rewrite <-not_true_iff_false, existsb_exists. split.
  - intros Hn q m c [k ->] Hne Hq. apply Hn. exists (length q). split.
    + apply in_seq. rewrite length_app. destruct q; [done|]. simpl. lia.
    + by rewrite take_app_length, Hq.
  - intros Hq (n & Hin & Hf). apply in_seq in Hin.
    destruct (fs !! take n d) as [[|m c]|] eqn:E; try done.
    eapply Hq; [apply prefix_take| |exact E].
    intros He. apply (f_equal length) in He. rewrite length_take in He. simpl in He. lia.
Qed.

Section clean.
Context `{Platform}.

Lemma chain_lookup_self fs d :
  d ≠ [] → dir_free fs d → ∃ m, (fs ∪ dir_chain d) !! d = Some (Dir m).
Proof.
  intros Hd Hfree. destruct (fs !! d) as [[m|m c]|] eqn:E.
  - exists m. apply lookup_union_Some_raw. by left.
  - exfalso. by eapply (proj1 (dir_free_spec fs d)).
  - destruct (proj2 (dir_chain_lookup d d)) as [n Hn]; [done|].
    exists dir_mode. apply lookup_union_Some_raw. right. split; [done|].
    by rewrite (dir_chain_dir _ _ _ Hn) in Hn.
Qed.

Lemma dir_free_chain fs d : dir_free fs d → dir_free (fs ∪ dir_chain d) d.
Proof.
  rewrite !dir_free_spec. intros Hf q m c Hq Hne [Hq'|[_ Hq']]%lookup_union_Some_raw.
  - by eapply Hf.
  - by apply dir_chain_dir in Hq'.
Qed.

Lemma dir_free_insert_dir fs d q m : dir_free fs d → dir_free (<[q := Dir m]> fs) d.
Proof.
  rewrite !dir_free_spec. intros Hf r m' c Hr Hne. rewrite lookup_insert.
  case_decide; [done|by apply Hf].
Qed.

Lemma dir_free_insert_file fs d q m c : ¬ q `prefix_of` d → dir_free fs d → dir_free (<[q := File m c]> fs) d.
Proof.
  rewrite !dir_free_spec. intros Hn Hf r m' c' Hr Hne. rewrite lookup_insert.
  case_decide; [by subst|by apply Hf].
Qed.
End clean.
