(* ===== verification/PrivateFs.v ===== *)
(** * PrivateFs: [src/private_fs.rs]

    Directories with mode 0700 and files with mode 0600 for credentials and
    runtime state, and the world lemmas the stores share: what a successful
    operation did to the file system. *)

From S2P Require Import Prelude RustStd Paths FileSystem.

(** ** What successful operations did *)

Section ok.
Context `{Platform}.
Implicit Types w : World.

Lemma try_exists_ok p w b w' :
  fs_try_exists p w = (Ok b, w') → b = bool_decide (is_Some (w_fs w !! p)) ∧ w_fs w' = w_fs w.
Proof. intros [[= -> ->] _]%io_op_ok. done. Qed.

Lemma read_ok p w b w' :
  fs_read p w = (Ok b, w') →
  ∃ m c, w_fs w !! p = Some (File m c) ∧ b = content_bytes c ∧ w_fs w' = w_fs w.
Proof.
  intros [Hact _]%io_op_ok. unfold read_node in Hact.
  destruct (w_fs w !! p) as [[|m c]|] eqn:E; try done. injection Hact as <- <-. eauto.
Qed.

Lemma metadata_ok p w n w' : fs_metadata p w = (Ok n, w') → w_fs w !! p = Some n ∧ w_fs w' = w_fs w.
Proof. intros [Hact _]%io_op_ok. destruct (w_fs w !! p); simplify_eq/=. done. Qed.

Lemma create_dir_all_ok p w w' u :
  fs_create_dir_all p w = (Ok u, w') → w_fs w' = w_fs w ∪ dir_chain p.
Proof. intros [Hact _]%io_op_ok. destruct (has_file_prefix _ _); simplify_eq/=. done. Qed.

Lemma create_dir_all_free p w w' u : fs_create_dir_all p w = (Ok u, w') → dir_free (w_fs w) p.
Proof. intros [Hact _]%io_op_ok. unfold dir_free. destruct (has_file_prefix _ _); by simplify_eq/=. Qed.

Lemma put_file_ok fs p m c fs' :
  put_file fs p m c = Ok fs' →
  parent_is_dir fs p = true ∧ ∃ m', fs' = <[p := File m' c]> fs ∧
    (m' = m ∨ ∃ c', fs !! p = Some (File m' c')).
Proof.
  unfold put_file. destruct (parent_is_dir fs p); [|done].
  destruct (fs !! p) as [[|m' c']|]; [done|..]; intros [= <-]; eauto 10.
Qed.

Lemma write_ok p b w w' u :
  fs_write p b w = (Ok u, w') → ∃ m, w_fs w' = <[p := File m (Text b)]> (w_fs w).
Proof.
  intros [Hact _]%io_op_ok. destruct (put_file _ _ _ _) eqn:E; simplify_eq/=.
  apply put_file_ok in E as (_ & m & -> & _). eauto.
Qed.

Lemma set_mode_ok p m w w' u :
  fs_set_mode p m w = (Ok u, w') →
  (∃ m0, w_fs w !! p = Some (Dir m0) ∧ w_fs w' = <[p := Dir m]> (w_fs w)) ∨
  (∃ m0 c, w_fs w !! p = Some (File m0 c) ∧ w_fs w' = <[p := File m c]> (w_fs w)).
Proof. intros [Hact _]%io_op_ok. destruct (w_fs w !! p) as [[]|]; simplify_eq/=; eauto 10. Qed.

Lemma copy_ok src dst w w' u :
  fs_copy src dst w = (Ok u, w') →
  ∃ m c, w_fs w !! src = Some (File m c) ∧ w_fs w' = <[dst := File m c]> (w_fs w).
Proof.
  intros [Hact _]%io_op_ok. destruct (copy_act src dst id (w_fs w)) as [fs'|] eqn:E; simplify_eq/=.
  unfold copy_act in E. destruct (w_fs w !! src) as [[|m c]|]; try done.
  destruct (put_file _ _ _ _) as [fs1|] eqn:Ep; [|done]. cbn [mbind Result_bind] in E.
  apply put_file_ok in Ep as (_ & m' & -> & _). rewrite lookup_insert_eq in E.
  injection E as <-. exists m, c. by rewrite insert_insert_eq.
Qed.

Lemma rename_file_ok src dst w w' u :
  fs_rename_file src dst w = (Ok u, w') →
  ∃ m c, w_fs w !! src = Some (File m c) ∧ w_fs w' = <[dst := File m c]> (delete src (w_fs w)).
Proof.
  intros [Hact _]%io_op_ok. destruct (w_fs w !! src) as [[|m c]|]; simplify_eq/=.
  destruct (parent_is_dir _ _); [|done].
  destruct (w_fs w !! dst) as [[]|]; simplify_eq/=; eauto.
Qed.

Lemma remove_file_ok p w w' u :
  fs_remove_file p w = (Ok u, w') → w_fs w' = delete p (w_fs w).
Proof. intros [Hact _]%io_op_ok. destruct (w_fs w !! p) as [[]|]; by simplify_eq/=. Qed.

Lemma remove_dir_all_ok p w w' u :
  fs_remove_dir_all p w = (Ok u, w') →
  w_fs w' = filter (λ kv, ¬ p `prefix_of` kv.1) (w_fs w).
Proof. intros [Hact _]%io_op_ok. destruct (w_fs w !! p) as [[]|]; by simplify_eq/=. Qed.
End ok.

(** ** The source *)

Definition display (p : path) : string := foldr (λ n s, "/" ^+ n ^+ s) "" p.

Section private_fs.
Context `{Platform}.

Definition ensure_private_dir (p : path) (context : string) : M SandboxError World () :=
  map_err (Io context) (fs_create_dir_all p);;
  metadata ← map_err (Io ("reading " ^+ display p)) (fs_metadata p);
  if negb (is_dir metadata) then
    throw (InvalidConfig (context ^+ " must be a real directory: " ^+ display p))
  else map_err (Io ("setting " ^+ display p)) (fs_set_mode p 448).  (* 0o700 *)

Definition set_private_file_permissions (p : path) (context : string) : M SandboxError World () :=
  map_err (Io ("setting " ^+ context ^+ " permissions")) (fs_set_mode p 384).  (* 0o600 *)

(** [OpenOptions::create(true).write(true).truncate(true).mode(0o600)]. *)
Definition fs_open_truncate (p : path) : M IoError World () :=
  io_op (λ fs, fs' ← put_file fs p (Z.ldiff 384 umask) (Text []); Ok ((), fs')) atomic.

Definition open_private_file_truncate (p : path) (dir_context file_context : string) :
    M SandboxError World () :=
  ensure_private_dir (parent p) dir_context;;
  map_err (Io file_context) (fs_open_truncate p);;
  set_private_file_permissions p file_context.

(** [File::sync_all] has no effect on what a running system reads. *)
Definition fs_sync (p : path) : M IoError World () := io_op (λ fs, Ok ((), fs)) atomic.

Definition write_private_file (p : path) (b : bytes) (dir_context file_context : string) :
    M SandboxError World () :=
  open_private_file_truncate p dir_context file_context;;
  map_err (Io file_context) (fs_write p b);;
  map_err (Io ("syncing " ^+ display p)) (fs_sync p).

Definition node_mode (n : node) : Z := match n with Dir m | File m _ => m end.

Definition validate_private_file_permissions (p : path) (context : string) : M SandboxError World () :=
  metadata ← map_err (Io ("reading " ^+ context ^+ " metadata")) (fs_metadata p);
  let mode := Z.land (node_mode metadata) 511 in
  if negb (Z.land mode 63 =? 0)%Z then
    throw (InvalidConfig (context ^+ " " ^+ display p ^+ " must have 0600 permissions"))
  else mret ().

(** ** Lemmas *)

Lemma ensure_private_dir_ok p context w w' u :
  ensure_private_dir p context w = (Ok u, w') →
  w_fs w' = <[p := Dir 448]> (w_fs w ∪ dir_chain p).
Proof.
  unfold ensure_private_dir. intros Hr. ok_inv; try done.
  apply create_dir_all_ok in Hrun. apply metadata_ok in Hrun0 as [Hn Hfs].
  apply set_mode_ok in Hr. rewrite Hfs, Hrun in Hr. rewrite Hrun in Hn.
  destruct Hr as [(m0 & _ & ->)|(m0 & c & Hc & _)]; [done|].
  rewrite Hn in Hc. by simplify_eq.
Qed.

Lemma keeps_ensure_private_dir P p context :
  (∀ q, q `prefix_of` p → P q) → keeps (frame P) (ensure_private_dir p context).
Proof. intros HP. unfold ensure_private_dir. keeps_tac. Qed.

Lemma keeps_fs_sync P p : keeps (frame P) (fs_sync p).
Proof. apply keeps_io_op; [|done]. by intros fs a fs' [= _ <-]. Qed.

Lemma keeps_fs_open_truncate P p : P p → keeps (frame P) (fs_open_truncate p).
Proof.
  intros HP. apply keeps_io_op; [|done]. intros fs a fs'.
  destruct (put_file _ _ _ _) eqn:E; [|done]. intros [= _ <-]. by eapply put_file_frame.
Qed.

Lemma fs_sync_ok p w w' u : fs_sync p w = (Ok u, w') → w_fs w' = w_fs w.
Proof. by intros [[= _ ->] _]%io_op_ok. Qed.

Lemma open_private_file_truncate_ok p dc fc w w' u :
  p ≠ [] → open_private_file_truncate p dc fc w = (Ok u, w') →
  w_fs w' = <[p := File 384 (Text [])]> (<[parent p := Dir 448]> (w_fs w ∪ dir_chain (parent p))).
Proof.
  intros Hp. unfold open_private_file_truncate, set_private_file_permissions. intros Hr. ok_inv.
  apply ensure_private_dir_ok in Hrun. apply io_op_ok in Hrun0 as [Hact _].
  destruct (put_file _ _ _ _) eqn:E; simplify_eq/=. apply put_file_ok in E as (_ & m & Hfs & _).
  apply set_mode_ok in Hr as [(m0 & Hc & _)|(m0 & c & Hc & ->)]; rewrite Hfs, lookup_insert_eq in Hc;
    simplify_eq. by rewrite Hfs, insert_insert_eq, Hrun.
Qed.

Lemma write_private_file_ok p b dc fc w w' u :
  p ≠ [] → write_private_file p b dc fc w = (Ok u, w') →
  w_fs w' = <[p := File 384 (Text b)]> (<[parent p := Dir 448]> (w_fs w ∪ dir_chain (parent p))).
Proof.
  intros Hp. unfold write_private_file. intros Hr. ok_inv.
  apply open_private_file_truncate_ok in Hrun; [|done].
  apply fs_sync_ok in Hr. apply io_op_ok in Hrun0 as [Hact _].
  unfold put_file in Hact. rewrite Hrun, lookup_insert_eq in Hact.
  destruct (parent_is_dir _ _); [|done]. cbn in Hact. injection Hact as _ Hact.
  by rewrite Hr, <-Hact, insert_insert_eq.
Qed.

Lemma parent_prefix p : parent p `prefix_of` p.
Proof. apply prefix_take. Qed.

Lemma parent_app p n : parent (p ++ [n]) = p.
Proof. unfold parent. rewrite length_app, Nat.add_comm. simpl. by rewrite take_app_length. Qed.

Lemma keeps_write_private_file P p b dc fc :
  (∀ q, q `prefix_of` p → P q) → keeps (frame P) (write_private_file p b dc fc).
Proof.
  intros HP. unfold write_private_file, open_private_file_truncate, set_private_file_permissions.
  pose proof (parent_prefix p). keeps_tac; eauto using keeps_fs_open_truncate, keeps_fs_sync with keeps.
  apply keeps_ensure_private_dir. intros q Hq. apply HP. by etrans.
Qed.

(** ** Runs without failures *)

Lemma not_prefix_parent p : p ≠ [] → ¬ p `prefix_of` parent p.
Proof.
  intros Hp Hpre%prefix_length. unfold parent in Hpre. rewrite length_take in Hpre.
  destruct p; simpl in *; [done|lia].
Qed.

Lemma set_mode_clean p m w :
  clean w → is_Some (w_fs w !! p) →
  fs_set_mode p m w =
    (Ok (), set_fs (<[p := match w_fs w !! p with Some (File _ c) => File m c | _ => Dir m end]> (w_fs w)) w).
Proof.
  intros Hc [n Hn]. unfold fs_set_mode. rewrite io_op_clean by done. rewrite Hn. by destruct n.
Qed.

Lemma put_file_clean fs p m c :
  parent_is_dir fs p = true → (∀ m, fs !! p ≠ Some (Dir m)) →
  ∃ m', put_file fs p m c = Ok (<[p := File m' c]> fs).
Proof.
  intros Hpar Hnd. unfold put_file. rewrite Hpar. destruct (fs !! p) as [[]|]; [|eauto..].
  by destruct (Hnd mode).
Qed.

Lemma ensure_private_dir_clean d ctx w :
  clean w → d ≠ [] → dir_free (w_fs w) d →
  ensure_private_dir d ctx w = (Ok (), set_fs (<[d := Dir 448]> (w_fs w ∪ dir_chain d)) w).
Proof.
  intros Hc Hd Hf. destruct (chain_lookup_self (w_fs w) d Hd Hf) as [m Hm].
  unfold ensure_private_dir.
  erewrite bind_ok; [|apply map_err_ok; unfold fs_create_dir_all; apply io_op_clean_ok; [done|]].
  2: { unfold dir_free in Hf. by rewrite Hf. }
  erewrite bind_ok; [|apply map_err_ok; unfold fs_metadata; apply io_op_clean_ok; [done|]].
  2: { simpl. rewrite Hm. done. }
  simpl. apply map_err_ok. rewrite set_mode_clean; [|done|simpl; eauto].
  simpl. by rewrite Hm.
Qed.

Lemma write_private_file_clean p b dc fc w :
  clean w → p ≠ [] → parent p ≠ [] → dir_free (w_fs w) (parent p) →
  (∀ m, w_fs w !! p ≠ Some (Dir m)) →
  write_private_file p b dc fc w =
    (Ok (), set_fs (<[p := File 384 (Text b)]>
                     (<[parent p := Dir 448]> (w_fs w ∪ dir_chain (parent p)))) w).
Proof.
  intros Hc Hp Hpp Hf Hnd. set (fs1 := <[parent p := Dir 448]> (w_fs w ∪ dir_chain (parent p))).
  assert (Hpar : ∀ n, parent_is_dir (<[p := n]> fs1) p = true ∧ parent_is_dir fs1 p = true).
  { intros n. unfold parent_is_dir. destruct (parent p) as [|x q] eqn:Eq; [done|]. rewrite <-Eq.
    assert (p ≠ parent p) by (intros He; apply (not_prefix_parent p); [done|by rewrite <-He]).
    rewrite lookup_insert_ne by done. unfold fs1. by rewrite Eq, lookup_insert_eq. }
  assert (Hnd1 : ∀ m, fs1 !! p ≠ Some (Dir m)).
  { intros m. unfold fs1. rewrite lookup_insert_ne.
    2: { intros He. apply (not_prefix_parent p); [done|by rewrite He]. }
    intros [?|[_ Hq]]%lookup_union_Some_raw; [by eapply Hnd|].
    apply (not_prefix_parent p); [done|]. apply (dir_chain_lookup (parent p) p). eauto. }
  destruct (put_file_clean fs1 p (Z.ldiff 384 umask) (Text [])) as [m1 Hm1]; [apply (Hpar (Dir 0))|done|].
  unfold write_private_file, open_private_file_truncate, set_private_file_permissions.
  erewrite bind_ok; [|erewrite bind_ok; [|by apply ensure_private_dir_clean]].
  2: { erewrite bind_ok; [|apply map_err_ok; unfold fs_open_truncate; apply io_op_clean_ok; [done|]].
       2: { cbn [w_fs set_fs]. fold fs1. rewrite Hm1. reflexivity. }
       apply map_err_ok. rewrite set_mode_clean; [done|done|]. simpl. rewrite lookup_insert_eq. eauto. }
  simpl. rewrite lookup_insert_eq, insert_insert_eq. simpl.
  erewrite bind_ok; [|apply map_err_ok; unfold fs_write; apply io_op_clean_ok; [done|]].
  2: { cbn [w_fs set_fs]. unfold put_file. rewrite (proj1 (Hpar _)), lookup_insert_eq. reflexivity. }
  apply map_err_ok. unfold fs_sync. erewrite io_op_clean_ok; [|done..].
  simpl. by rewrite insert_insert_eq.
Qed.
End private_fs.

#[export] Hint Resolve keeps_ensure_private_dir keeps_fs_sync keeps_fs_open_truncate
  keeps_write_private_file : keeps.
