(* ===== verification/Auth.v ===== *)
(** * Auth: [src/auth.rs]

    The administrator registry and the BOX credential registry, two JSON files
    kept with mode 0600.  Each operation runs under the store's [file_lock], so
    an operation is one step on the world. *)

From S2P Require Import Prelude RustStd Paths FileSystem PrivateFs.

(** ** Data *)

Record UserConfig := {
  uc_version : Z;
  uc_admin_uuid : Uuid;
  uc_admin_token : string;
  uc_endpoint : string;
}.

Record AdminCredential := { ac_admin_uuid : Uuid; ac_admin_token : string }.

Record AdminRecord := mkAdminRecord {
  ar_admin_uuid : Uuid;
  ar_token_hash : string;
  ar_active : bool;
  ar_created_at_ms : Z;
  ar_updated_at_ms : Z;
}.

Record AdminRegistry := mkAdminRegistry { version : Z; admins : list AdminRecord }.

Record AdminCredentialBundle := {
  ab_admin_uuid : Uuid;
  ab_admin_token : string;
  ab_endpoint : string;
}.

Record BoxCredentialBundle := {
  bb_box_id : Uuid;
  bb_box_token : string;
  bb_endpoint : string;
}.

Record BoxCredentialRecord := mkBoxCredentialRecord {
  br_box_id : Uuid;
  br_token_hash : string;
  br_active : bool;
  br_created_at_ms : Z;
  br_updated_at_ms : Z;
}.

Record BoxCredentialRegistry := mkBoxCredentialRegistry {
  box_version : Z;
  boxes : list BoxCredentialRecord;
}.

Definition USER_CONFIG_VERSION : Z := 1.
Definition ADMIN_REGISTRY_VERSION : Z := 1.
Definition BOX_CREDENTIAL_REGISTRY_VERSION : Z := 1.

(** [for x in &mut xs { if f(x) { g(x); break; } }] *)
Fixpoint update_first {A} (f : A → bool) (g : A → A) (xs : list A) : list A :=
  match xs with
  | [] => []
  | x :: xs' => if f x then g x :: xs' else x :: update_first f g xs'
  end.

(** ** The JSON file behind a store: [read_registry] and [write_registry] of both *)

Section registry.
Context `{Platform} {R : Type} `{Serde R} (what : string) (empty : R).

Definition read_registry (p : path) : M SandboxError World R :=
  present ← map_err (Io ("checking " ^+ what)) (fs_try_exists p);
  if negb present then mret empty
  else
    data ← map_err (Io ("reading " ^+ what)) (fs_read p);
    map_err (Json ("decoding " ^+ what)) (lift (from_slice data)).

Definition write_registry (p : path) (registry : R) : M SandboxError World () :=
  ensure_private_dir (parent p) ("creating " ^+ what ^+ " directory");;
  data ← map_err (Json ("encoding " ^+ what)) (lift (to_vec registry));
  write_private_file p data ("creating " ^+ what ^+ " directory") ("writing " ^+ what).

(** What a reader of the file gets; [None] when it does not decode. *)
Definition stored (p : path) (w : World) : option R :=
  match w_fs w !! p with
  | None => Some empty
  | Some (File _ c) => match from_slice (content_bytes c) with Ok r => Some r | Err _ => None end
  | Some (Dir _) => None
  end.

(** Where an operation of the store cannot fail: no scheduled fault, no
    regular file in place of the directory, no directory in place of the file. *)
Definition ready (p : path) (w : World) : Prop :=
  clean w ∧ p ≠ [] ∧ parent p ≠ [] ∧ dir_free (w_fs w) (parent p) ∧ ∀ m, w_fs w !! p ≠ Some (Dir m).

Lemma read_registry_ok p w r w' :
  read_registry p w = (Ok r, w') → stored p w = Some r ∧ w_fs w' = w_fs w.
Proof.
  unfold read_registry, stored. intros Hr. apply bind_ok_inv in Hr as (b & w1 & Hb & Hr).
  apply map_err_ok_inv, try_exists_ok in Hb as [-> Hfs].
  destruct (w_fs w !! p) as [n|] eqn:E.
  - rewrite bool_decide_true in Hr by eauto. simpl in Hr. ok_inv.
    apply read_ok in Hrun as (m & c & Hc & -> & Hfs'). rewrite Hfs, E in Hc. simplify_eq.
    by rewrite Hr, Hfs', Hfs.
  - rewrite bool_decide_false in Hr by (intros []; done). simpl in Hr. ok_inv. done.
Qed.

Lemma read_registry_clean p w r : clean w → stored p w = Some r → read_registry p w = (Ok r, w).
Proof.
  unfold stored, read_registry. intros Hc Hs.
  assert (He : fs_try_exists p w = (Ok (bool_decide (is_Some (w_fs w !! p))), w)).
  { unfold fs_try_exists. erewrite io_op_clean_ok; [|done..]. by rewrite set_fs_id. }
  erewrite bind_ok; [|by apply map_err_ok]. clear He.
  destruct (w_fs w !! p) as [[m|m c]|] eqn:E; [done| |].
  - destruct (from_slice (content_bytes c)) eqn:Ef; simplify_eq.
    rewrite bool_decide_true by eauto. simpl.
    erewrite bind_ok; [|apply map_err_ok].
    2: { unfold fs_read. erewrite io_op_clean_ok; [|done|unfold read_node; by rewrite E].
         by rewrite set_fs_id. }
    unfold map_err, lift. by rewrite Ef.
  - simplify_eq. rewrite bool_decide_false by (intros []; done). done.
Qed.

Lemma read_registry_frame p P : keeps (frame P) (read_registry p).
Proof. unfold read_registry. keeps_tac. Qed.

Lemma write_registry_frame p r P :
  (∀ q, q `prefix_of` p → P q) → keeps (frame P) (write_registry p r).
Proof.
  intros HP. unfold write_registry. keeps_tac.
  apply keeps_ensure_private_dir. intros q Hq. apply HP. etrans; [exact Hq|apply parent_prefix].
Qed.

(** A store that is [ready] can be written: its directory is made private, the
    file replaced, and it is ready again. *)
Lemma ready_write p w dc dc' fc b :
  ready p w →
  ∃ w1 fs2, ensure_private_dir (parent p) dc w = (Ok (), w1) ∧
    write_private_file p b dc' fc w1 = (Ok (), set_fs fs2 w) ∧
    fs2 !! p = Some (File 384 (Text b)) ∧ ready p (set_fs fs2 w).
Proof.
  intros (Hc & Hp & Hpp & Hf & Hnd).
  set (d := parent p). set (fs1 := <[d := Dir 448]> (w_fs w ∪ dir_chain d)).
  set (fs2 := <[p := File 384 (Text b)]> (<[d := Dir 448]> (fs1 ∪ dir_chain d))).
  assert (Hpd : p ≠ d) by (intros He; apply (not_prefix_parent p); [done|by rewrite He at 1]).
  assert (Hf1 : dir_free fs1 d) by (apply dir_free_insert_dir, dir_free_chain, Hf).
  assert (Hnd1 : ∀ m, fs1 !! p ≠ Some (Dir m)).
  { intros m. unfold fs1. rewrite lookup_insert_ne by done.
    intros [?|[_ Hq]]%lookup_union_Some_raw; [by eapply Hnd|].
    apply (not_prefix_parent p); [done|]. apply (dir_chain_lookup d p). eauto. }
  exists (set_fs fs1 w), fs2. split_and!.
  - by apply ensure_private_dir_clean.
  - by erewrite write_private_file_clean.
  - apply lookup_insert_eq.
  - split_and!; [done..| |].
    + simpl. unfold fs2. apply dir_free_insert_file; [by apply not_prefix_parent|].
      by apply dir_free_insert_dir, dir_free_chain.
    + simpl. unfold fs2. intros m. by rewrite lookup_insert_eq.
Qed.

Context `{!SerdeLaws R}.

Lemma write_registry_ok p r w w' u :
  p ≠ [] → write_registry p r w = (Ok u, w') → stored p w' = Some r.
Proof.
  unfold write_registry. intros Hp Hr. ok_inv. apply write_private_file_ok in Hr; [|done].
  unfold stored. rewrite Hr, lookup_insert_eq. simpl.
  destruct (from_to_vec r) as (b & Hb & Hb'). rewrite Hb in Hrun0. simplify_eq. by rewrite Hb'.
Qed.

(** Where a store is [ready], a write succeeds, is read back, and leaves the
    store ready; identifiers and clock are not consumed. *)
Lemma write_registry_clean p r w :
  ready p w →
  ∃ w', write_registry p r w = (Ok (), w') ∧ stored p w' = Some r ∧ ready p w' ∧
        w_draws w' = w_draws w ∧ w_ticks w' = w_ticks w.
Proof.
  intros Hr. destruct (from_to_vec r) as (b & Hb & Hb').
  destruct (ready_write p w ("creating " ^+ what ^+ " directory") ("creating " ^+ what ^+ " directory")
    ("writing " ^+ what) b Hr) as (w1 & fs2 & H1 & H2 & H3 & H4).
  exists (set_fs fs2 w). split_and!; [| |done..].
  - unfold write_registry. erewrite bind_ok; [|exact H1].
    erewrite bind_ok; [|apply map_err_ok; unfold lift; by rewrite Hb]. exact H2.
  - unfold stored. simpl. rewrite H3. simpl. by rewrite Hb'.
Qed.
End registry.

(** ** Tokens *)

Section tokens.
Context `{Platform}.

Definition generate_token {E} : M E World string :=
  a ← new_v4; b ← new_v4; mret (uuid_simple a ^+ uuid_simple b).

Definition hash_token (token : string) : string := hex_encode (sha256 (as_bytes token)).

Definition new_record {E} (credential : AdminCredential) : M E World AdminRecord :=
  now ← now_ms;
  mret (mkAdminRecord (ac_admin_uuid credential) (hash_token (ac_admin_token credential)) true now now).

Definition UserConfig_new {E} (endpoint : string) : M E World UserConfig :=
  u ← new_v4; t ← generate_token;
  mret {| uc_version := USER_CONFIG_VERSION; uc_admin_uuid := u; uc_admin_token := t;
          uc_endpoint := endpoint |}.
End tokens.

(** ** The user's configuration file *)

Section user_config.
Context `{Platform, Serde UserConfig}.

Definition read_user_config (p : path) : M SandboxError World UserConfig :=
  validate_private_file_permissions p "sagens user config";;
  data ← map_err (Io "reading sagens user config") (fs_read p);
  map_err (Json "decoding sagens user config") (lift (from_slice data)).

Definition write_user_config (p : path) (config : UserConfig) : M SandboxError World () :=
  ensure_private_dir (parent p) "creating sagens config directory";;
  data ← map_err (Json "encoding sagens user config") (lift (to_vec config));
  write_private_file p data "creating sagens config directory" "writing sagens user config".
End user_config.

(** ** [AdminStore] *)

Module AdminStore.
Section admin_store.
Context `{Platform, Serde AdminRegistry} (state_dir : path).

Definition registry_path : path := state_dir ++ ["admins"; "registry.json"].

Definition empty : AdminRegistry := mkAdminRegistry ADMIN_REGISTRY_VERSION [].
Definition read : M SandboxError World AdminRegistry :=
  read_registry "admin registry" empty registry_path.
Definition write (r : AdminRegistry) : M SandboxError World () :=
  write_registry "admin registry" registry_path r.

Definition bootstrap (credential : AdminCredential) : M SandboxError World bool :=
  registry ← read;
  if existsb ar_active (admins registry) then mret false
  else
    record ← new_record credential;
    write (mkAdminRegistry (version registry) (admins registry ++ [record]));;
    mret true.

(** The record an authentication is checked against. *)
Definition matches (admin_uuid : Uuid) (token_hash : string) (a : AdminRecord) : bool :=
  (ar_admin_uuid a =? admin_uuid)%N && ar_active a && String.eqb (ar_token_hash a) token_hash.

Definition touch (now : Z) (a : AdminRecord) : AdminRecord :=
  mkAdminRecord (ar_admin_uuid a) (ar_token_hash a) (ar_active a) (ar_created_at_ms a) now.

Definition authenticate (admin_uuid : Uuid) (admin_token : string) : M SandboxError World bool :=
  registry ← read;
  let token_hash := hash_token admin_token in
  if existsb (matches admin_uuid token_hash) (admins registry) then
    now ← now_ms;
    write (mkAdminRegistry (version registry)
             (update_first (matches admin_uuid token_hash) (touch now) (admins registry)));;
    mret true
  else mret false.

Definition add_admin (endpoint : string) : M SandboxError World AdminCredentialBundle :=
  registry ← read;
  admin_uuid ← new_v4;
  admin_token ← generate_token;
  record ← new_record {| ac_admin_uuid := admin_uuid; ac_admin_token := admin_token |};
  write (mkAdminRegistry (version registry) (admins registry ++ [record]));;
  mret {| ab_admin_uuid := admin_uuid; ab_admin_token := admin_token; ab_endpoint := endpoint |}.

Definition active_count (r : AdminRegistry) : nat := length (List.filter ar_active (admins r)).

Definition active_with (admin_uuid : Uuid) (a : AdminRecord) : bool :=
  (ar_admin_uuid a =? admin_uuid)%N && ar_active a.

Definition deactivate (now : Z) (a : AdminRecord) : AdminRecord :=
  mkAdminRecord (ar_admin_uuid a) (ar_token_hash a) false (ar_created_at_ms a) now.

Definition remove_admin (admin_uuid : Uuid) : M SandboxError World () :=
  registry ← read;
  if decide (active_count registry ≤ 1) then
    throw (Conflict "refusing to remove the last active admin")
  else if existsb (active_with admin_uuid) (admins registry) then
    now ← now_ms;
    write (mkAdminRegistry (version registry)
             (update_first (active_with admin_uuid) (deactivate now) (admins registry)))
  else throw (NotFound ("unknown active admin " ^+ uuid_to_string admin_uuid)).
End admin_store.
End AdminStore.

(** ** [BoxCredentialStore] *)

Module BoxCredentialStore.
Section box_store.
Context `{Platform, Serde BoxCredentialRegistry} (state_dir : path).

Definition registry_path : path := state_dir ++ ["boxes"; "credentials.json"].

Definition empty : BoxCredentialRegistry :=
  mkBoxCredentialRegistry BOX_CREDENTIAL_REGISTRY_VERSION [].
Definition read : M SandboxError World BoxCredentialRegistry :=
  read_registry "box credential registry" empty registry_path.
Definition write (r : BoxCredentialRegistry) : M SandboxError World () :=
  write_registry "box credential registry" registry_path r.

Definition reissue (hash : string) (now : Z) (r : BoxCredentialRecord) : BoxCredentialRecord :=
  mkBoxCredentialRecord (br_box_id r) hash true (br_created_at_ms r) now.

Definition same_box (box_id : Uuid) (r : BoxCredentialRecord) : bool := (br_box_id r =? box_id)%N.

Definition issue (endpoint : string) (box_id : Uuid) : M SandboxError World BoxCredentialBundle :=
  registry ← read;
  box_token ← generate_token;
  now ← now_ms;
  let hash := hash_token box_token in
  let boxes' :=
    if existsb (same_box box_id) (boxes registry)
    then update_first (same_box box_id) (reissue hash now) (boxes registry)
    else boxes registry ++ [mkBoxCredentialRecord box_id hash true now now] in
  write (mkBoxCredentialRegistry (box_version registry) boxes');;
  mret {| bb_box_id := box_id; bb_box_token := box_token; bb_endpoint := endpoint |}.

Definition matches (box_id : Uuid) (token_hash : string) (r : BoxCredentialRecord) : bool :=
  (br_box_id r =? box_id)%N && br_active r && String.eqb (br_token_hash r) token_hash.

Definition touch (now : Z) (r : BoxCredentialRecord) : BoxCredentialRecord :=
  mkBoxCredentialRecord (br_box_id r) (br_token_hash r) (br_active r) (br_created_at_ms r) now.

Definition authenticate (box_id : Uuid) (box_token : string) : M SandboxError World bool :=
  registry ← read;
  let token_hash := hash_token box_token in
  if existsb (matches box_id token_hash) (boxes registry) then
    now ← now_ms;
    write (mkBoxCredentialRegistry (box_version registry)
             (update_first (matches box_id token_hash) (touch now) (boxes registry)));;
    mret true
  else mret false.
End box_store.
End BoxCredentialStore.

(** ** Lemmas *)

Section update_first.
Context {A : Type} (f : A → bool) (g : A → A).

Lemma update_first_map {B} (h : A → B) xs : (∀ x, h (g x) = h x) → map h (update_first f g xs) = map h xs.
Proof. intros Hg. induction xs as [|x xs IH]; simpl; [done|]. destruct (f x); simpl; by rewrite ?Hg, ?IH. Qed.

Lemma existsb_elem (p : A → bool) xs : existsb p xs = true ↔ ∃ x, x ∈ xs ∧ p x = true.
Proof. rewrite existsb_exists. by setoid_rewrite list_elem_of_In. Qed.
End update_first.

(** The credentials that authenticate: what an observer of the store can tell
    apart. *)
Definition cred_of (a : AdminRecord) : Uuid * string := (ar_admin_uuid a, ar_token_hash a).
Definition live_list (r : AdminRegistry) : list (Uuid * string) :=
  map cred_of (List.filter ar_active (admins r)).
Definition live (r : AdminRegistry) : gset (Uuid * string) := list_to_set (live_list r).

(** At most one active record per administrator. *)
Definition unique_admins (r : AdminRegistry) : Prop := NoDup (map fst (live_list r)).

Lemma live_list_elem r c :
  c ∈ live_list r ↔ ∃ a, a ∈ admins r ∧ ar_active a = true ∧ cred_of a = c.
Proof.
  unfold live_list. rewrite list_elem_of_fmap. setoid_rewrite list_elem_of_In.
  setoid_rewrite List.filter_In. naive_solver.
Qed.

Lemma live_elem r c : c ∈ live r ↔ ∃ a, a ∈ admins r ∧ ar_active a = true ∧ cred_of a = c.
Proof. unfold live. rewrite elem_of_list_to_set. apply live_list_elem. Qed.

Lemma matches_live r u h :
  existsb (AdminStore.matches u h) (admins r) = bool_decide ((u, h) ∈ live r).
Proof.
  apply eq_bool_prop_intro. rewrite !Is_true_true, existsb_elem, bool_decide_eq_true, live_elem.
  unfold AdminStore.matches, cred_of. setoid_rewrite andb_true_iff. setoid_rewrite andb_true_iff.
  setoid_rewrite N.eqb_eq. setoid_rewrite String.eqb_eq. naive_solver.
Qed.

Lemma active_with_live r u :
  existsb (AdminStore.active_with u) (admins r) = true ↔ ∃ h, (u, h) ∈ live r.
Proof.
  rewrite existsb_elem. setoid_rewrite live_elem. unfold AdminStore.active_with, cred_of.
  setoid_rewrite andb_true_iff. setoid_rewrite N.eqb_eq. naive_solver.
Qed.

Lemma active_count_live r : AdminStore.active_count r = length (live_list r).
Proof. unfold live_list. by rewrite length_map. Qed.

Lemma unique_live_NoDup r : unique_admins r → NoDup (live_list r).
Proof. apply NoDup_fmap_1. Qed.

Lemma unique_live_size r : unique_admins r → size (live r) = length (live_list r).
Proof.
  intros Hu%unique_live_NoDup. unfold live. induction Hu as [|x l Hx Hu IH]; [done|].
  simpl. rewrite size_union, size_singleton, IH; [done|]. set_solver.
Qed.

Lemma live_update_touch v f now l :
  live_list (mkAdminRegistry v (update_first f (AdminStore.touch now) l)) = live_list (mkAdminRegistry v l).
Proof.
  unfold live_list. simpl. induction l as [|a l IH]; [done|]. cbn.
  destruct (f a); cbn; destruct (ar_active a); cbn; first [done|by rewrite IH].
Qed.

(** Deactivating an administrator removes its credential and nothing else. *)
Lemma live_deactivate v u now l :
  existsb (AdminStore.active_with u) l = true →
  ∃ h xs ys, live_list (mkAdminRegistry v l) = xs ++ (u, h) :: ys ∧
    live_list (mkAdminRegistry v (update_first (AdminStore.active_with u) (AdminStore.deactivate now) l)) = xs ++ ys.
Proof.
  unfold live_list. simpl. induction l as [|a l IH]; simpl; [done|].
  destruct (AdminStore.active_with u a) eqn:Ea; simpl.
  - intros _. apply andb_true_iff in Ea as [<-%N.eqb_eq ->].
    by exists (ar_token_hash a), [], (map cred_of (List.filter ar_active l)).
  - intros (h & xs & ys & H1 & H2)%IH. destruct (ar_active a); simpl; rewrite H1, H2.
    + by exists h, (cred_of a :: xs), ys.
    + by exists h, xs, ys.
Qed.

Lemma unique_deactivate v u now l :
  existsb (AdminStore.active_with u) l = true → unique_admins (mkAdminRegistry v l) →
  unique_admins (mkAdminRegistry v (update_first (AdminStore.active_with u) (AdminStore.deactivate now) l)).
Proof.
  intros E. destruct (live_deactivate v u now l E) as (h & xs & ys & H1 & H2). unfold unique_admins.
  rewrite H1, H2, !map_app. simpl. intros (? & Hd & [_ ?]%NoDup_cons)%NoDup_app.
  apply NoDup_app. split_and!; [done| |done]. intros x Hx Hy. apply (Hd x Hx). by right.
Qed.

Lemma live_deactivate_set v u now l :
  existsb (AdminStore.active_with u) l = true → unique_admins (mkAdminRegistry v l) →
  ∃ h, (u, h) ∈ live (mkAdminRegistry v l) ∧
    live (mkAdminRegistry v (update_first (AdminStore.active_with u) (AdminStore.deactivate now) l)) =
    live (mkAdminRegistry v l) ∖ {[(u, h)]}.
Proof.
  intros E Hnd%unique_live_NoDup. destruct (live_deactivate v u now l E) as (h & xs & ys & H1 & H2).
  exists h. unfold live. rewrite H1, H2. rewrite H1 in Hnd.
  apply NoDup_app in Hnd as (_ & Hd & [Hn _]%NoDup_cons). rewrite !list_to_set_app_L. simpl.
  assert ((u, h) ∉ xs) by (intros Hx; apply (Hd _ Hx); by left). split; set_solver.
Qed.

(** ** Abstract specification of the administrator store

    The state is the set of live credentials; a removal must leave one. *)

Module AdminSpec.
Section spec.
Context `{Platform, Serde AdminRegistry} (state_dir : path).

Inductive Op :=
  | Bootstrap (c : AdminCredential)
  | Authenticate (u : Uuid) (token : string)
  | Add (endpoint : string)
  | Remove (u : Uuid).

Inductive Out := OBool (b : bool) | OBundle (b : AdminCredentialBundle) | OUnit.

Definition run (op : Op) : M SandboxError World Out :=
  match op with
  | Bootstrap c => b ← AdminStore.bootstrap state_dir c; mret (OBool b)
  | Authenticate u t => b ← AdminStore.authenticate state_dir u t; mret (OBool b)
  | Add e => b ← AdminStore.add_admin state_dir e; mret (OBundle b)
  | Remove u => AdminStore.remove_admin state_dir u;; mret OUnit
  end.

Inductive step : Op → gset (Uuid * string) → Result SandboxError Out → gset (Uuid * string) → Prop :=
  | step_bootstrap_again c L : L ≠ ∅ → step (Bootstrap c) L (Ok (OBool false)) L
  | step_bootstrap c : step (Bootstrap c) ∅ (Ok (OBool true))
      {[(ac_admin_uuid c, hash_token (ac_admin_token c))]}
  | step_authenticate u t L :
      step (Authenticate u t) L (Ok (OBool (bool_decide ((u, hash_token t) ∈ L)))) L
  | step_add e u t L : step (Add e) L
      (Ok (OBundle {| ab_admin_uuid := u; ab_admin_token := t; ab_endpoint := e |}))
      ({[(u, hash_token t)]} ∪ L)
  | step_remove_last u L : size L ≤ 1 →
      step (Remove u) L (Err (Conflict "refusing to remove the last active admin")) L
  | step_remove_unknown u L : 1 < size L → (∀ h, (u, h) ∉ L) →
      step (Remove u) L (Err (NotFound ("unknown active admin " ^+ uuid_to_string u))) L
  | step_remove u h L : 1 < size L → (u, h) ∈ L →
      step (Remove u) L (Ok OUnit) (L ∖ {[(u, h)]}).

(** The store's invariant: the file can be read and written, it decodes to
    the registry, and no administrator is active twice. *)
Definition holds (w : World) (r : AdminRegistry) : Prop :=
  ready (AdminStore.registry_path state_dir) w ∧
  stored AdminStore.empty (AdminStore.registry_path state_dir) w = Some r ∧
  unique_admins r.

(** A drawn identifier is new (version 4 identifiers are random). *)
Definition fresh (op : Op) (w : World) (r : AdminRegistry) : Prop :=
  match op with Add _ => entropy (w_draws w) ∉ map fst (live_list r) | _ => True end.
End spec.
End AdminSpec.

(** ** Properties *)

Section admin_refinement.
Context `{Platform, Serde AdminRegistry, !SerdeLaws AdminRegistry} (state_dir : path).

Lemma holds_after_write w r r' :
  AdminSpec.holds state_dir w r → unique_admins r' →
  ∃ w', AdminStore.write state_dir r' w = (Ok (), w') ∧ AdminSpec.holds state_dir w' r'.
Proof.
  intros (Hready & _ & _) Hu.
  destruct (write_registry_clean "admin registry" AdminStore.empty _ r' w Hready)
    as (w' & Hw & Hs & Hr & _ & _).
  exists w'. split; [exact Hw|]. by split_and!.
Qed.

Lemma holds_env w r w' :
  w_fs w' = w_fs w → clean w' → AdminSpec.holds state_dir w r → AdminSpec.holds state_dir w' r.
Proof.
  intros Hfs Hc ((_ & ? & ? & ? & ?) & Hs & Hu). unfold AdminSpec.holds, ready, stored in *.
  rewrite Hfs. by split_and!.
Qed.

Lemma holds_read w r : AdminSpec.holds state_dir w r → AdminStore.read state_dir w = (Ok r, w).
Proof. intros ((Hc & _) & Hs & _). by apply read_registry_clean. Qed.

(** A write after a clock reading, as every operation ends. *)
Lemma holds_now_write w r (k : Z → AdminRegistry) :
  AdminSpec.holds state_dir w r → (∀ now, unique_admins (k now)) →
  ∃ now w1 w', now_ms (E := SandboxError) w = (Ok now, w1) ∧ AdminStore.write state_dir (k now) w1 = (Ok (), w') ∧
    AdminSpec.holds state_dir w' (k now).
Proof.
  intros Hh Hu. destruct (now_ms (E := SandboxError) w) as [[now|e] w1] eqn:En; [|done].
  assert (Hh1 : AdminSpec.holds state_dir w1 r).
  { injection En as _ <-. eapply holds_env; [| |exact Hh]; [done|apply Hh]. }
  destruct (holds_after_write w1 r (k now) Hh1 (Hu now)) as (w' & Hw & Hh').
  exists now, w1, w'. by split_and!.
Qed.

(** The live credentials of a registry with a record appended. *)
Lemma live_append v l a :
  ar_active a = true →
  live_list (mkAdminRegistry v (l ++ [a])) = live_list (mkAdminRegistry v l) ++ [cred_of a].
Proof. intros Ha. unfold live_list. simpl. by rewrite List.filter_app, map_app; simpl; rewrite Ha. Qed.

Lemma live_append_set v l a :
  ar_active a = true →
  live (mkAdminRegistry v (l ++ [a])) = {[cred_of a]} ∪ live (mkAdminRegistry v l).
Proof. intros Ha. unfold live. rewrite live_append by done. rewrite list_to_set_app_L. set_solver. Qed.

Lemma unique_append v l a :
  ar_active a = true → unique_admins (mkAdminRegistry v l) →
  ar_admin_uuid a ∉ map fst (live_list (mkAdminRegistry v l)) →
  unique_admins (mkAdminRegistry v (l ++ [a])).
Proof.
  unfold unique_admins. intros Ha Hu Hn. rewrite live_append, map_app by done.
  apply NoDup_app. split_and!; [done| |apply NoDup_singleton].
  intros x Hx Hc%list_elem_of_singleton. simpl in Hc. congruence.
Qed.

Definition refines_at (op : AdminSpec.Op) (w : World) (r : AdminRegistry) : Prop :=
  ∃ r', AdminSpec.holds state_dir (AdminSpec.run state_dir op w).2 r' ∧
        AdminSpec.step op (live r) (AdminSpec.run state_dir op w).1 (live r').

Lemma refines_intro op w r res w' r' :
  AdminSpec.run state_dir op w = (res, w') → AdminSpec.holds state_dir w' r' →
  AdminSpec.step op (live r) res (live r') → refines_at op w r.
Proof. intros Hr Hh Hs. exists r'. by rewrite Hr. Qed.

Lemma authenticate_refines u t w r :
  AdminSpec.holds state_dir w r → refines_at (AdminSpec.Authenticate u t) w r.
Proof.
  intros Hh. pose proof (holds_read w r Hh) as Hread. destruct r as [v l].
  set (k now := mkAdminRegistry v (update_first (AdminStore.matches u (hash_token t)) (AdminStore.touch now) l)).
  assert (Hk : ∀ now, live_list (k now) = live_list (mkAdminRegistry v l))
    by (intros; apply live_update_touch).
  destruct (existsb (AdminStore.matches u (hash_token t)) l) eqn:E.
  - destruct (holds_now_write w (mkAdminRegistry v l) k Hh) as (now & w1 & w' & Hnow & Hw & Hh').
    { intros now. unfold unique_admins. rewrite Hk. apply Hh. }
    eapply refines_intro; [|exact Hh'|].
    + cbn [AdminSpec.run]. unfold AdminStore.authenticate. erewrite bind_ok; [done|].
      erewrite bind_ok; [|exact Hread]. cbn [admins]. rewrite E.
      erewrite bind_ok; [|exact Hnow]. by erewrite bind_ok; [|exact Hw].
    + replace (live (k now)) with (live (mkAdminRegistry v l)) by (unfold live; by rewrite Hk).
      rewrite <-E. rewrite (matches_live (mkAdminRegistry v l)). constructor.
  - eapply refines_intro; [|exact Hh|].
    + cbn [AdminSpec.run]. unfold AdminStore.authenticate. erewrite bind_ok; [done|].
      erewrite bind_ok; [|exact Hread]. cbn [admins]. by rewrite E.
    + rewrite <-E. rewrite (matches_live (mkAdminRegistry v l)). constructor.
Qed.

Lemma bootstrap_refines c w r :
  AdminSpec.holds state_dir w r → refines_at (AdminSpec.Bootstrap c) w r.
Proof.
  intros Hh. pose proof (holds_read w r Hh) as Hread. destruct r as [v l].
  destruct (existsb ar_active l) eqn:E.
  - eapply refines_intro; [|exact Hh|].
    + cbn [AdminSpec.run]. unfold AdminStore.bootstrap. erewrite bind_ok; [done|].
      erewrite bind_ok; [|exact Hread]. cbn [admins]. by rewrite E.
    + constructor. apply existsb_elem in E as (a & Hin & Ha). intros He.
      assert (cred_of a ∈ live (mkAdminRegistry v l)) by (apply live_elem; eauto). set_solver.
  - assert (Hnil : live_list (mkAdminRegistry v l) = []).
    { destruct (live_list _) as [|x xs] eqn:El; [done|]. exfalso.
      assert (x ∈ live_list (mkAdminRegistry v l)) as (a & Hin & Ha & _)%live_list_elem
        by (rewrite El; by left).
      assert (existsb ar_active l = true) by (apply existsb_elem; eauto). congruence. }
    set (rec now := mkAdminRecord (ac_admin_uuid c) (hash_token (ac_admin_token c)) true now now).
    destruct (holds_now_write w _ (λ now, mkAdminRegistry v (l ++ [rec now])) Hh)
      as (now & w1 & w' & Hnow & Hw & Hh').
    { intros now. apply unique_append; [done|apply Hh|]. rewrite Hnil. apply not_elem_of_nil. }
    eapply refines_intro; [|exact Hh'|].
    + cbn [AdminSpec.run]. unfold AdminStore.bootstrap. erewrite bind_ok; [done|].
      erewrite bind_ok; [|exact Hread]. cbn [admins]. rewrite E.
      unfold new_record. erewrite bind_ok; [|erewrite bind_ok; [|exact Hnow]; done].
      by erewrite bind_ok; [|exact Hw].
    + rewrite live_append_set by done. unfold live. rewrite Hnil. simpl. rewrite (right_id_L ∅ (∪)).
      constructor.
Qed.

Lemma add_refines e w r :
  AdminSpec.holds state_dir w r → AdminSpec.fresh (AdminSpec.Add e) w r →
  refines_at (AdminSpec.Add e) w r.
Proof.
  intros Hh Hfresh. pose proof (holds_read w r Hh) as Hread. destruct r as [v l].
  set (u := entropy (w_draws w)).
  set (t := uuid_simple (entropy (S (w_draws w))) ^+ uuid_simple (entropy (S (S (w_draws w))))).
  set (w1 := mkWorld (w_fs w) (w_faults w) (S (S (S (w_draws w)))) (w_ticks w)).
  set (rec now := mkAdminRecord u (hash_token t) true now now).
  assert (Hh1 : AdminSpec.holds state_dir w1 (mkAdminRegistry v l))
    by (eapply holds_env; [| |exact Hh]; [done|apply Hh]).
  destruct (holds_now_write w1 _ (λ now, mkAdminRegistry v (l ++ [rec now])) Hh1)
    as (now & w2 & w' & Hnow & Hw & Hh').
  { intros now. apply unique_append; [done|apply Hh|exact Hfresh]. }
  eapply refines_intro; [|exact Hh'|].
  - cbn [AdminSpec.run]. unfold AdminStore.add_admin. erewrite bind_ok; [done|].
    erewrite bind_ok; [|exact Hread].
    erewrite bind_ok; [|done]. erewrite bind_ok; [|done]. unfold new_record.
    erewrite bind_ok; [|erewrite bind_ok; [|exact Hnow]; done].
    by erewrite bind_ok; [|exact Hw].
  - rewrite live_append_set by done. constructor.
Qed.

Lemma remove_refines u w r :
  AdminSpec.holds state_dir w r → refines_at (AdminSpec.Remove u) w r.
Proof.
  intros Hh. pose proof (holds_read w r Hh) as Hread. destruct Hh as (Hready & Hs & Hu).
  pose proof (unique_live_size r Hu) as Hsize.
  destruct (decide (AdminStore.active_count r ≤ 1)) as [Hle|Hgt].
  { eapply refines_intro; [|split_and!; done|].
    - cbn [AdminSpec.run]. unfold AdminStore.remove_admin. erewrite bind_err; [done|].
      erewrite bind_ok; [|exact Hread]. by rewrite decide_True.
    - constructor. rewrite Hsize. by rewrite <-active_count_live. }
  assert (Hlt : 1 < size (live r)) by (rewrite Hsize, <-active_count_live; lia).
  destruct (existsb (AdminStore.active_with u) (admins r)) eqn:E.
  - destruct r as [v l]. cbn [admins version] in *.
    assert (Hh : AdminSpec.holds state_dir w (mkAdminRegistry v l)) by by split_and!.
    destruct (holds_now_write w _ (λ now, mkAdminRegistry v
      (update_first (AdminStore.active_with u) (AdminStore.deactivate now) l)) Hh)
      as (now & w1 & w' & Hnow & Hw & Hh').
    { intros now. by apply unique_deactivate. }
    destruct (live_deactivate_set v u now l E Hu) as (h & Hin & Hlive).
    eapply refines_intro; [|exact Hh'|].
    { cbn [AdminSpec.run]. unfold AdminStore.remove_admin. erewrite bind_ok; [done|].
      erewrite bind_ok; [|exact Hread]. rewrite decide_False by done. cbn [admins version]. rewrite E.
      erewrite bind_ok; [|exact Hnow]. exact Hw. }
    rewrite Hlive. by constructor.
  - eapply refines_intro; [|split_and!; done|].
    { cbn [AdminSpec.run]. unfold AdminStore.remove_admin. erewrite bind_err; [done|].
      erewrite bind_ok; [|exact Hread]. rewrite decide_False by done. by rewrite E. }
    constructor; [done|]. intros h Hin. assert (existsb (AdminStore.active_with u) (admins r) = true)
      by (apply active_with_live; eauto). congruence.
Qed.

(** C13: the administrator store implements its abstract specification, the
    set of live credentials: every operation on a readable registry returns
    what the specification returns and moves the set as it says.  In
    particular authentication succeeds exactly for a live credential, and a
    removal never empties the set. *)
Theorem admin_store_refines op w r :
  AdminSpec.holds state_dir w r → AdminSpec.fresh op w r → refines_at op w r.
Proof.
  destruct op; intros Hh Hf; eauto using bootstrap_refines, authenticate_refines, add_refines, remove_refines.
Qed.
End admin_refinement.

(** ** Safety under every failure schedule *)

Section auth_safety.
Context `{Platform, Serde AdminRegistry, !SerdeLaws AdminRegistry} (state_dir : path).

Lemma admin_path_ne : AdminStore.registry_path state_dir ≠ [].
Proof. unfold AdminStore.registry_path. by destruct state_dir. Qed.

(** no failure of the disk lets anyone in: whenever an administrator is
    accepted, the registry on disk before the call held an active record with
    that identifier and the hash of that token. *)
Theorem authenticate_sound u t w w' :
  AdminStore.authenticate state_dir u t w = (Ok true, w') →
  ∃ r, stored AdminStore.empty (AdminStore.registry_path state_dir) w = Some r ∧
       (u, hash_token t) ∈ live r.
Proof.
  unfold AdminStore.authenticate. intros Hr. apply bind_ok_inv in Hr as (r & w1 & Hread & Hr).
  apply read_registry_ok in Hread as [Hs _]. exists r. split; [done|].
  destruct (existsb _ _) eqn:E; [|done]. rewrite matches_live in E. by apply bool_decide_eq_true in E.
Qed.

(** a removal that reports success leaves an active administrator on
    disk, one fewer than before, whatever failed on the way. *)
Theorem remove_admin_keeps_one u w w' :
  AdminStore.remove_admin state_dir u w = (Ok (), w') →
  ∃ r r', stored AdminStore.empty (AdminStore.registry_path state_dir) w = Some r ∧
    stored AdminStore.empty (AdminStore.registry_path state_dir) w' = Some r' ∧
    1 ≤ AdminStore.active_count r' ∧ AdminStore.active_count r = S (AdminStore.active_count r').
Proof.
  unfold AdminStore.remove_admin. intros Hr. apply bind_ok_inv in Hr as (r & w1 & Hread & Hr).
  apply read_registry_ok in Hread as [Hs _]. case_decide as Hle; [done|].
  destruct (existsb _ _) eqn:E; [|done].
  apply bind_ok_inv in Hr as (now & w2 & _ & Hr).
  eapply (write_registry_ok "admin registry" AdminStore.empty) in Hr; [|apply admin_path_ne].
  destruct r as [v l]. destruct (live_deactivate v u now l E) as (h & xs & ys & H1 & H2).
  eexists _, _. split; [exact Hs|]. split; [exact Hr|]. revert Hle. rewrite !active_count_live.
  cbn [admins version]. rewrite H1, H2, !length_app. simpl. lia.
Qed.
End auth_safety.

(** ** BOX credentials *)

Section box_credentials.
Context `{Platform, Serde BoxCredentialRegistry, !SerdeLaws BoxCredentialRegistry} (state_dir : path).

Definition accepts (r : BoxCredentialRegistry) (b : Uuid) (h : string) : bool :=
  existsb (BoxCredentialStore.matches b h) (boxes r).

Definition unique_boxes (r : BoxCredentialRegistry) : Prop := NoDup (map br_box_id (boxes r)).

Definition box_holds (w : World) (r : BoxCredentialRegistry) : Prop :=
  ready (BoxCredentialStore.registry_path state_dir) w ∧
  stored BoxCredentialStore.empty (BoxCredentialStore.registry_path state_dir) w = Some r ∧
  unique_boxes r.

Lemma accepts_not_in v l b h : b ∉ map br_box_id l → accepts (mkBoxCredentialRegistry v l) b h = false.
Proof.
  unfold accepts. simpl. intros Hb. apply not_true_iff_false. rewrite existsb_elem.
  intros (x & Hx & Hm). apply Hb. apply andb_true_iff in Hm as [[<-%N.eqb_eq _]%andb_true_iff _].
  by apply list_elem_of_fmap_2.
Qed.

Lemma same_box_in l b : existsb (BoxCredentialStore.same_box b) l = true ↔ b ∈ map br_box_id l.
Proof.
  rewrite existsb_elem, list_elem_of_fmap. unfold BoxCredentialStore.same_box.
  setoid_rewrite N.eqb_eq. naive_solver.
Qed.

(** Re-issuing replaces the accepted token of the box and of no other box. *)
Lemma accepts_reissue v l b hash now b' h :
  NoDup (map br_box_id l) → b ∈ map br_box_id l →
  accepts (mkBoxCredentialRegistry v
    (update_first (BoxCredentialStore.same_box b) (BoxCredentialStore.reissue hash now) l)) b' h =
  if decide (b' = b) then String.eqb hash h else accepts (mkBoxCredentialRegistry v l) b' h.
Proof.
  induction l as [|x l IH]; simpl; [by intros _ ?%not_elem_of_nil|].
  intros [Hx Hnd]%NoDup_cons Hin. unfold BoxCredentialStore.same_box at 1.
  destruct (N.eqb_spec (br_box_id x) b) as [Hb|Hb].
  - subst b. pose proof (accepts_not_in v l (br_box_id x) h Hx) as Hno.
    unfold accepts in *. simpl in *. case_decide as Hd.
    + subst b'. rewrite Hno, orb_false_r. unfold BoxCredentialStore.matches. simpl. by rewrite N.eqb_refl.
    + unfold BoxCredentialStore.matches at 1 3. simpl. by destruct (N.eqb_spec (br_box_id x) b').
  - apply elem_of_cons in Hin as [?|Hin]; [done|]. specialize (IH Hnd Hin).
    unfold accepts in *. simpl in *. rewrite IH. case_decide as Hd; [|done]. subst b'.
    unfold BoxCredentialStore.matches. destruct (N.eqb_spec (br_box_id x) b); [done|]. done.
Qed.

Lemma accepts_append v l b hash now b' h :
  b ∉ map br_box_id l →
  accepts (mkBoxCredentialRegistry v (l ++ [mkBoxCredentialRecord b hash true now now])) b' h =
  if decide (b' = b) then String.eqb hash h else accepts (mkBoxCredentialRegistry v l) b' h.
Proof.
  intros Hb. pose proof (accepts_not_in v l b h Hb) as Hno. unfold accepts in *. simpl in *.
  rewrite existsb_app. simpl. unfold BoxCredentialStore.matches at 2. simpl.
  case_decide as Hd; [subst b'; by rewrite Hno, N.eqb_refl, orb_false_r|].
  destruct (N.eqb_spec b b'); [done|]. simpl. by rewrite !orb_false_r.
Qed.

Definition issued (r : BoxCredentialRegistry) (b : Uuid) (hash : string) (now : Z) : BoxCredentialRegistry :=
  mkBoxCredentialRegistry (box_version r)
    (if existsb (BoxCredentialStore.same_box b) (boxes r)
     then update_first (BoxCredentialStore.same_box b) (BoxCredentialStore.reissue hash now) (boxes r)
     else boxes r ++ [mkBoxCredentialRecord b hash true now now]).

Lemma issued_spec r b hash now :
  unique_boxes r →
  unique_boxes (issued r b hash now) ∧
  ∀ b' h, accepts (issued r b hash now) b' h = if decide (b' = b) then String.eqb hash h else accepts r b' h.
Proof.
  destruct r as [v l]. unfold unique_boxes, issued. simpl. intros Hu.
  destruct (existsb _ _) eqn:E.
  - split; [by rewrite update_first_map|]. intros. apply accepts_reissue; [done|]. by apply same_box_in.
  - assert (b ∉ map br_box_id l) by (rewrite <-same_box_in; by rewrite E).
    split; [|intros; by apply accepts_append].
    rewrite map_app. apply NoDup_app. split_and!; [done| |apply NoDup_singleton].
    simpl. set_solver.
Qed.

(** issuing credentials for a BOX succeeds on a readable registry, makes
    the returned token the only one the BOX accepts (every earlier token with
    another hash is revoked) and leaves every other BOX's credentials alone. *)
Theorem issue_rotates_one_box endpoint b w r :
  box_holds w r →
  ∃ bundle w' r', BoxCredentialStore.issue state_dir endpoint b w = (Ok bundle, w') ∧
    box_holds w' r' ∧ bb_box_id bundle = b ∧
    ∀ b' h, accepts r' b' h =
      if decide (b' = b) then String.eqb (hash_token (bb_box_token bundle)) h else accepts r b' h.
Proof.
  intros (Hready & Hs & Hu).
  set (t := uuid_simple (entropy (w_draws w)) ^+ uuid_simple (entropy (S (w_draws w)))).
  set (w1 := mkWorld (w_fs w) (w_faults w) (S (S (w_draws w))) (S (w_ticks w))).
  set (now := (match wall_clock (w_ticks w) with Some d => d mod 2 ^ 64 | None => 0 end)%Z).
  destruct (issued_spec r b (hash_token t) now Hu) as [Hu' Hacc].
  assert (Hready1 : ready (BoxCredentialStore.registry_path state_dir) w1) by exact Hready.
  destruct (write_registry_clean "box credential registry" BoxCredentialStore.empty _
    (issued r b (hash_token t) now) w1 Hready1) as (w' & Hw & Hs' & Hr' & _ & _).
  exists {| bb_box_id := b; bb_box_token := t; bb_endpoint := endpoint |}, w', (issued r b (hash_token t) now).
  split_and!; [|split_and!; done|done|done].
  unfold BoxCredentialStore.issue. erewrite bind_ok; [|by apply read_registry_clean; [apply Hready|]].
  erewrite bind_ok; [|done]. erewrite bind_ok; [|done].
  by erewrite bind_ok; [|exact Hw].
Qed.

(** BOX authentication answers exactly whether the registry accepts the
    token's hash for that BOX, and answering changes no acceptance. *)
Theorem box_authenticate_exact b t w r :
  box_holds w r →
  ∃ w' r', BoxCredentialStore.authenticate state_dir b t w = (Ok (accepts r b (hash_token t)), w') ∧
    box_holds w' r' ∧ ∀ b' h, accepts r' b' h = accepts r b' h.
Proof.
  intros (Hready & Hs & Hu). unfold BoxCredentialStore.authenticate.
  erewrite bind_ok; [|by apply read_registry_clean; [apply Hready|]]. fold (accepts r b (hash_token t)).
  destruct (accepts r b (hash_token t)) eqn:E; [|exists w, r; by split_and!].
  set (now := (match wall_clock (w_ticks w) with Some d => d mod 2 ^ 64 | None => 0 end)%Z).
  set (r' := mkBoxCredentialRegistry (box_version r)
    (update_first (BoxCredentialStore.matches b (hash_token t)) (BoxCredentialStore.touch now) (boxes r))).
  set (w1 := mkWorld (w_fs w) (w_faults w) (w_draws w) (S (w_ticks w))).
  assert (Hready1 : ready (BoxCredentialStore.registry_path state_dir) w1) by exact Hready.
  destruct (write_registry_clean "box credential registry" BoxCredentialStore.empty _ r' w1 Hready1)
    as (w' & Hw & Hs' & Hr' & _ & _).
  exists w', r'. split_and!.
  - erewrite bind_ok; [|done]. by erewrite bind_ok; [|exact Hw].
  - split_and!; [done..|]. unfold unique_boxes, r'. simpl. by rewrite update_first_map.
  - intros b' h. unfold accepts, r'. simpl. clear.
    induction (boxes r) as [|x l IH]; simpl; [done|].
    destruct (BoxCredentialStore.matches b (hash_token t) x); simpl; by rewrite ?IH.
Qed.
End box_credentials.

(** ** The user's configuration file *)

Section user_config_file.
Context `{Platform, Serde UserConfig, !SerdeLaws UserConfig}.

Lemma metadata_clean p w n : clean w → w_fs w !! p = Some n → fs_metadata p w = (Ok n, w).
Proof.
  intros Hc Hn. unfold fs_metadata. erewrite io_op_clean_ok; [|done|by rewrite Hn].
  by rewrite set_fs_id.
Qed.

(** What reading the file gives, by its permission bits. *)
Lemma read_user_config_clean p w m c d :
  clean w → w_fs w !! p = Some (File m d) → from_slice (content_bytes d) = Ok c →
  read_user_config p w =
    (if (Z.land (Z.land m 511) 63 =? 0)%Z then Ok c
     else Err (InvalidConfig ("sagens user config" ^+ " " ^+ display p ^+ " must have 0600 permissions")), w).
Proof.
  intros Hc Hf Hd. unfold read_user_config, validate_private_file_permissions.
  destruct (Z.land (Z.land m 511) 63 =? 0)%Z eqn:E.
  - erewrite bind_ok.
    2: { erewrite bind_ok; [|by apply map_err_ok, metadata_clean]. cbn [node_mode]. rewrite E. reflexivity. }
    erewrite bind_ok; [|apply map_err_ok].
    2: { unfold fs_read. erewrite io_op_clean_ok; [|done|unfold read_node; by rewrite Hf]. by rewrite set_fs_id. }
    unfold map_err, lift. by rewrite Hd.
  - erewrite bind_err; [done|]. erewrite bind_ok; [|by apply map_err_ok, metadata_clean].
    cbn [node_mode]. by rewrite E.
Qed.

(** a configuration that was written is read back as it was written, as long
    as the file stays private: once its mode has a bit for the group or for
    others, reading it is refused and the credential in it is not used. *)
Theorem user_config_roundtrip p c w :
  ready p w →
  ∃ w1, write_user_config p c w = (Ok (), w1) ∧ read_user_config p w1 = (Ok c, w1) ∧
    ∀ m u w2, fs_set_mode p m w1 = (Ok u, w2) → Z.land m 63 ≠ 0%Z →
      ∃ why, read_user_config p w2 = (Err (InvalidConfig why), w2).
Proof.
  intros Hr. destruct (from_to_vec c) as (b & Hb & Hb').
  destruct (ready_write p w "creating sagens config directory" "creating sagens config directory"
    "writing sagens user config" b Hr) as (w1 & fs2 & H1 & H2 & H3 & Hc & _).
  exists (set_fs fs2 w). split_and!.
  - unfold write_user_config. erewrite bind_ok; [|exact H1].
    erewrite bind_ok; [|apply map_err_ok; unfold lift; by rewrite Hb]. exact H2.
  - rewrite (read_user_config_clean p _ 384 c (Text b)); [reflexivity|exact Hc|exact H3|exact Hb'].
  - intros m u w2 Hm Hbits. rewrite set_mode_clean in Hm by (simpl; eauto). simpl in Hm.
    rewrite H3 in Hm. simplify_eq. erewrite read_user_config_clean; [|done|apply lookup_insert_eq|done].
    replace (Z.land (Z.land m 511) 63) with (Z.land m 63) by (by rewrite <-Z.land_assoc).
    rewrite (proj2 (Z.eqb_neq _ _)) by done. eauto.
Qed.
End user_config_file.
