(* ===== verification/FsTree.v ===== *)
(** * FsTree: the file system is a tree, and what directory listings show

    Every operation, completed or interrupted, keeps every entry inside a
    directory; so a listing of a directory shows exactly the entries that exist
    below it. *)

From S2P Require Import Prelude RustStd Paths FileSystem PrivateFs.

Definition tree (fs : gmap path node) : Prop := map_Forall (λ q _, parent_is_dir fs q = true) fs.

#[global] Instance tree_decision fs : Decision (tree fs).
Proof. unfold tree. apply _. Defined.

Definition tree_world (w : World) : Prop := tree (w_fs w).

Lemma parent_is_dir_spec fs q :
  parent_is_dir fs q = true ↔ parent q = [] ∨ ∃ m, fs !! parent q = Some (Dir m).
Proof.
  unfold parent_is_dir. destruct (parent q) as [|a r]; [naive_solver|].
  destruct (fs !! (a :: r)) as [[]|]; simpl; naive_solver.
Qed.

Lemma tree_lookup fs q n :
  tree fs → fs !! q = Some n → parent q = [] ∨ ∃ m, fs !! parent q = Some (Dir m).
Proof. intros Ht Hq. apply parent_is_dir_spec. by apply (Ht q n). Qed.

Lemma parent_ne (p : path) : p ≠ [] → parent p ≠ p.
Proof. intros Hp He. apply (not_prefix_parent p Hp). by rewrite He. Qed.

Section tree.
Context `{Platform}.

(** Changes that keep every directory keep the tree above what they keep. *)
Lemma tree_mono fs fs' :
  tree fs →
  (∀ q n, fs' !! q = Some n →
    parent q = [] ∨ (∃ m, fs' !! parent q = Some (Dir m)) ∨
    (is_Some (fs !! q) ∧ ∀ m, fs !! parent q = Some (Dir m) → ∃ m', fs' !! parent q = Some (Dir m'))) →
  tree fs'.
Proof.
  intros Ht Hk q n Hq. apply parent_is_dir_spec. destruct (Hk q n Hq) as [?|[?|[[n' Hn] Hd]]]; [eauto..|].
  destruct (tree_lookup fs q n' Ht Hn) as [?|[m Hm]]; eauto.
Qed.

Lemma tree_insert_file fs p m c :
  tree fs → parent_is_dir fs p = true → (∀ d, fs !! p ≠ Some (Dir d)) → tree (<[p := File m c]> fs).
Proof.
  intros Ht Hp Hnd. apply (tree_mono fs); [done|]. intros q n. rewrite !lookup_insert.
  destruct (decide (p = q)) as [<-|Hpq].
  - intros _. apply parent_is_dir_spec in Hp as [?|[d Hd]]; [by left|]. right. left.
    rewrite decide_False; [eauto|]. intros He. rewrite <-He in Hd. by eapply Hnd.
  - intros Hq. right. right. split; [eauto|]. intros d Hd. rewrite decide_False; [eauto|].
    intros He. rewrite <-He in Hd. by eapply Hnd.
Qed.

Lemma tree_insert_dir fs p m d : tree fs → fs !! p = Some (Dir m) → tree (<[p := Dir d]> fs).
Proof.
  intros Ht Hp. apply (tree_mono fs); [done|]. intros q n Hq. right. right.
  rewrite lookup_insert in Hq. rewrite !lookup_insert. split.
  - destruct (decide (p = q)) as [<-|]; eauto.
  - clear Hq. intros m' Hm'. case_decide; eauto.
Qed.

Lemma tree_delete_file fs p m c : tree fs → fs !! p = Some (File m c) → tree (delete p fs).
Proof.
  intros Ht Hp. apply (tree_mono fs); [done|]. intros q n [_ Hq]%lookup_delete_Some. right. right.
  split; [eauto|]. intros d Hd. rewrite lookup_delete_ne; [eauto|]. intros He. congruence.
Qed.

Lemma tree_put_file fs p m c fs' : tree fs → put_file fs p m c = Ok fs' → tree fs'.
Proof.
  intros Ht. unfold put_file. destruct (parent_is_dir fs p) eqn:E; [|done].
  destruct (fs !! p) as [[]|] eqn:Ep; [done|..]; intros [= <-]; apply tree_insert_file; try done;
    intros d; by rewrite Ep.
Qed.

Lemma parent_of_prefix (q p : path) : q `prefix_of` p → parent q `prefix_of` p.
Proof. intros Hq. etrans; [apply parent_prefix|done]. Qed.

Lemma tree_chain fs p : tree fs → dir_free fs p → tree (fs ∪ dir_chain p).
Proof.
  intros Ht Hf. apply (tree_mono fs); [done|]. intros q n [Hq|[_ Hq]]%lookup_union_Some_raw.
  - right. right. split; [eauto|]. intros m Hm. exists m. apply lookup_union_Some_raw. by left.
  - destruct (decide (parent q = [])) as [?|Hne]; [by left|]. right. left.
    assert (Hp : parent q `prefix_of` p).
    { apply parent_of_prefix. apply (dir_chain_lookup p q). eauto. }
    destruct (fs !! parent q) as [[m|m c]|] eqn:E.
    + exists m. apply lookup_union_Some_raw. by left.
    + by apply (proj1 (dir_free_spec fs p) Hf (parent q) m c) in E.
    + destruct (proj2 (dir_chain_lookup p (parent q)) (conj Hp Hne)) as [n' Hn'].
      rewrite (dir_chain_dir _ _ _ Hn') in Hn'. exists dir_mode. apply lookup_union_Some_raw. by right.
Qed.

Lemma has_file_prefix_take fs p n : dir_free fs p → dir_free fs (take n p).
Proof.
  rewrite !dir_free_spec. intros Hf q m c Hq. apply Hf. etrans; [exact Hq|apply prefix_take].
Qed.

Lemma parent_take_le p q : p `prefix_of` q → p ≠ q → p `prefix_of` parent q.
Proof.
  intros [k ->] Hne. unfold parent. rewrite length_app.
  destruct k as [|x k]; [by rewrite app_nil_r in Hne|]. simpl.
  rewrite take_app_ge by lia. by apply prefix_app_r.
Qed.

Lemma tree_filter fs (Q : path → Prop) `{!∀ kv : path * node, Decision (Q kv.1)} :
  tree fs → (∀ q, is_Some (fs !! q) → Q q → parent q = [] ∨ Q (parent q)) →
  tree (filter (λ kv, Q kv.1) fs).
Proof.
  intros Ht HQ. apply (tree_mono fs); [done|]. intros q n [Hq Hs]%map_lookup_filter_Some. simpl in Hs.
  destruct (HQ q) as [?|Hp]; [eauto..|by left|]. right. right. split; [eauto|].
  intros m Hm. exists m. by apply map_lookup_filter_Some.
Qed.

Lemma survives_parent f p q :
  p `prefix_of` parent q → survives_to f p q = true → survives_to f p (parent q) = true.
Proof.
  unfold survives_to. intros Hp. rewrite !forallb_forall. intros Hs n Hn. apply in_seq in Hn.
  assert (length (parent q) ≤ length q) by (unfold parent; rewrite length_take; lia).
  apply prefix_length in Hp.
  specialize (Hs n). rewrite in_seq in Hs. specialize (Hs ltac:(lia)).
  unfold parent in *. rewrite length_take in Hn, Hp. rewrite take_take.
  by replace (n `min` pred (length q)) with n by lia.
Qed.

Lemma tree_removed fs p : tree fs → tree (filter (λ kv, ¬ p `prefix_of` kv.1) fs).
Proof.
  intros Ht. apply (tree_filter fs (λ q, ¬ p `prefix_of` q)); [done|]. intros q _ Hq. right.
  intros Hp. apply Hq. etrans; [exact Hp|apply parent_prefix].
Qed.

Lemma tree_torn_removed f fs p :
  tree fs → tree (filter (λ kv, p `prefix_of` kv.1 → survives_to f p kv.1 = true) fs).
Proof.
  intros Ht. apply (tree_filter fs (λ q, p `prefix_of` q → survives_to f p q = true)); [done|].
  intros q _ Hq. right. intros Hp. apply survives_parent; [done|]. apply Hq.
  etrans; [exact Hp|apply parent_prefix].
Qed.

Lemma tree_copy src dst cut fs fs' : tree fs → copy_act src dst cut fs = Ok fs' → tree fs'.
Proof.
  unfold copy_act. intros Ht. destruct (fs !! src) as [[|m c]|]; [done| |done].
  destruct (put_file fs dst m (cut c)) as [fs1|] eqn:E; [|done]. cbn [mbind Result_bind].
  pose proof (tree_put_file _ _ _ _ _ Ht E) as Ht1.
  apply put_file_ok in E as (Hp & m' & -> & _). rewrite lookup_insert_eq. intros [= <-].
  apply tree_insert_file; [done| |by intros d; rewrite lookup_insert_eq].
  apply (Ht1 dst (File m' (cut c))). apply lookup_insert_eq.
Qed.

(** ** Every operation keeps the tree *)

Lemma keeps_tree_io_op {A} (act : gmap path node → Result IoError (A * gmap path node)) torn :
  (∀ fs a fs', tree fs → act fs = Ok (a, fs') → tree fs') →
  (∀ f fs, tree fs → tree (torn f fs)) → keeps (preserves tree_world) (io_op act torn).
Proof.
  intros Hact Htorn w. unfold io_op, preserves, tree_world.
  destruct (w_faults w) as [|[f|] sched]; simpl; [|auto|];
    destruct (act (w_fs w)) as [[a fs']|e] eqn:E; simpl; eauto.
Qed.

Lemma tree_try_exists p : keeps (preserves tree_world) (fs_try_exists p).
Proof. apply keeps_tree_io_op; naive_solver. Qed.
Lemma tree_read p : keeps (preserves tree_world) (fs_read p).
Proof. apply keeps_tree_io_op; [|done]. intros fs a fs' Ht. destruct (read_node fs p); cbn; naive_solver. Qed.
Lemma tree_metadata p : keeps (preserves tree_world) (fs_metadata p).
Proof. apply keeps_tree_io_op; [|done]. intros fs a fs' Ht. destruct (fs !! p); cbn; naive_solver. Qed.
Lemma tree_read_dir p : keeps (preserves tree_world) (fs_read_dir p).
Proof.
  apply keeps_tree_io_op; [|done]. intros fs a fs' Ht.
  destruct p; [|destruct (fs !! _) as [[]|]]; naive_solver.
Qed.
Lemma tree_next_entry : keeps (preserves tree_world) fs_next_entry.
Proof. apply keeps_tree_io_op; naive_solver. Qed.
Lemma tree_new_v4 {E} : keeps (preserves tree_world) (new_v4 : M E World _).
Proof. intros w Hw. exact Hw. Qed.
Lemma tree_now_ms {E} : keeps (preserves tree_world) (now_ms : M E World _).
Proof. intros w Hw. exact Hw. Qed.
Lemma tree_create_dir_all p : keeps (preserves tree_world) (fs_create_dir_all p).
Proof.
  apply keeps_tree_io_op.
  - intros fs a fs' Ht. destruct (has_file_prefix fs p) eqn:E; [done|]. intros [= _ <-]. exact (tree_chain _ _ Ht E).
  - intros f fs Ht. cbv zeta. destruct (has_file_prefix _ _) eqn:E; [done|]. exact (tree_chain _ _ Ht E).
Qed.
Lemma tree_write p b : keeps (preserves tree_world) (fs_write p b).
Proof.
  apply keeps_tree_io_op.
  - intros fs a fs' Ht. destruct (put_file _ _ _ _) eqn:E; [|done]. intros [= _ <-]. by eapply tree_put_file.
  - intros f fs Ht. unfold torn_write. destruct (fault_progress f); [done|].
    destruct (put_file _ _ _ _) eqn:E; [|done]. by eapply tree_put_file.
Qed.
Lemma tree_file_create p : keeps (preserves tree_world) (fs_file_create p).
Proof.
  apply keeps_tree_io_op; [|done]. intros fs a fs' Ht.
  destruct (put_file _ _ _ _) eqn:E; [|done]. intros [= _ <-]. by eapply tree_put_file.
Qed.
Lemma tree_open_truncate p : keeps (preserves tree_world) (fs_open_truncate p).
Proof.
  apply keeps_tree_io_op; [|done]. intros fs a fs' Ht.
  destruct (put_file _ _ _ _) eqn:E; [|done]. intros [= _ <-]. by eapply tree_put_file.
Qed.
Lemma tree_sync p : keeps (preserves tree_world) (fs_sync p).
Proof. apply keeps_tree_io_op; naive_solver. Qed.

(** Rewriting a regular file in place. *)
Lemma tree_rewrite_file fs p m c m' c' : tree fs → fs !! p = Some (File m c) → tree (<[p := File m' c']> fs).
Proof.
  intros Ht Hp. apply tree_insert_file; [done|by eapply Ht|]. intros d. by rewrite Hp.
Qed.

Lemma tree_set_len p n : keeps (preserves tree_world) (fs_set_len p n).
Proof.
  apply keeps_tree_io_op; [|done]. intros fs a fs' Ht. destruct (2 ^ 63 <=? n)%Z; [done|].
  destruct (fs !! p) as [[]|] eqn:E; [done| |done]. intros [= _ <-]. by eapply tree_rewrite_file.
Qed.
Lemma tree_set_mode p n : keeps (preserves tree_world) (fs_set_mode p n).
Proof.
  apply keeps_tree_io_op; [|done]. intros fs a fs' Ht.
  destruct (fs !! p) as [[]|] eqn:E; [| |done]; intros [= _ <-];
    [by eapply tree_insert_dir|by eapply tree_rewrite_file].
Qed.
Lemma tree_copy_op src dst : keeps (preserves tree_world) (fs_copy src dst).
Proof.
  apply keeps_tree_io_op.
  - intros fs a fs' Ht. destruct (copy_act _ _ _ _) eqn:E; [|done]. intros [= _ <-]. by eapply tree_copy.
  - intros f fs Ht. destruct (fault_progress f); [done|].
    destruct (copy_act _ _ _ _) eqn:E; [|done]. by eapply tree_copy.
Qed.
Lemma tree_rename_file src dst : keeps (preserves tree_world) (fs_rename_file src dst).
Proof.
  apply keeps_tree_io_op; [|done]. intros fs a fs' Ht.
  destruct (fs !! src) as [[|m c]|] eqn:E; [done| |done]. destruct (parent_is_dir fs dst) eqn:Ep; [|done].
  assert (Hd : parent_is_dir (delete src fs) dst = true).
  { apply parent_is_dir_spec in Ep as [?|[d Hd]]; apply parent_is_dir_spec; [by left|right].
    exists d. rewrite lookup_delete_ne; [done|]. intros ->. congruence. }
  assert (Ht' : tree (delete src fs)) by by eapply tree_delete_file.
  destruct (fs !! dst) as [[]|] eqn:Edst; [done|..]; intros [= _ <-]; apply tree_insert_file; try done;
    intros d [_ ?]%lookup_delete_Some; congruence.
Qed.
Lemma tree_remove_file p : keeps (preserves tree_world) (fs_remove_file p).
Proof.
  apply keeps_tree_io_op; [|done]. intros fs a fs' Ht.
  destruct (fs !! p) as [[]|] eqn:E; [done| |done]. intros [= _ <-]. by eapply tree_delete_file.
Qed.
Lemma tree_remove_dir_all p : keeps (preserves tree_world) (fs_remove_dir_all p).
Proof.
  apply keeps_tree_io_op.
  - intros fs a fs' Ht. destruct (fs !! p) as [[]|]; [|done..]. intros [= _ <-]. by apply tree_removed.
  - intros f fs Ht. by apply tree_torn_removed.
Qed.
End tree.

#[export] Hint Resolve tree_try_exists tree_read tree_metadata tree_read_dir tree_next_entry tree_new_v4
  tree_now_ms tree_create_dir_all tree_write tree_file_create tree_open_truncate tree_sync tree_set_len
  tree_set_mode tree_copy_op tree_rename_file tree_remove_file tree_remove_dir_all : keeps.

(** ** Listings *)

Lemma child_name_Some p q n : child_name p q = Some n ↔ q = p ++ [n].
Proof.
  unfold child_name. split.
  - case_decide as Hd; [|done]. destruct Hd as [Hp Hne]. intros Hl.
    destruct (exists_last Hne) as (r & x & ->). rewrite last_snoc in Hl. simplify_eq.
    by rewrite parent_app.
  - intros ->. rewrite decide_True, last_snoc; [done|]. rewrite parent_app. split; [done|]. by destruct p.
Qed.

Lemma child_names_elem {A} (fs : gmap path A) p n : n ∈ child_names fs p ↔ is_Some (fs !! (p ++ [n])).
Proof.
  unfold child_names. rewrite list_elem_of_omap. split.
  - intros ([q x] & Hin & Hc). apply child_name_Some in Hc. simpl in Hc. subst q.
    apply elem_of_map_to_list in Hin. eauto.
  - intros [x Hx]. exists (p ++ [n], x). split; [by apply elem_of_map_to_list|by apply child_name_Some].
Qed.

Lemma child_names_NoDup {A} (fs : gmap path A) p : NoDup (child_names fs p).
Proof.
  unfold child_names. pose proof (NoDup_fst_map_to_list fs) as Hnd.
  induction (map_to_list fs) as [|[q x] l IH]; csimpl in *; [constructor|].
  apply NoDup_cons in Hnd as [Hq Hnd]. specialize (IH Hnd).
  destruct (child_name p q) as [n|] eqn:E; [|done]. apply NoDup_cons. split; [|done].
  rewrite list_elem_of_omap. intros ([q' x'] & Hin & Hc). simpl in Hc.
  apply child_name_Some in E, Hc. subst. apply Hq. by apply (list_elem_of_fmap_2 fst) in Hin.
Qed.

#[global] Instance string_le_antisymm : AntiSymm (=) (λ a b, string_le a b = true).
Proof. intros a b. apply string_le_antisym. Qed.

Lemma sorted_names_eq (l k : list string) :
  NoDup l → NoDup k → (∀ n, n ∈ l ↔ n ∈ k) → sort_by_key id string_le l = sort_by_key id string_le k.
Proof.
  intros Hl Hk Hlk. apply (StronglySorted_unique (λ a b, string_le a b = true)).
  - apply (sort_by_key_sorted id string_le string_le_total string_le_trans).
  - apply (sort_by_key_sorted id string_le string_le_total string_le_trans).
  - rewrite !sort_by_key_perm. by apply NoDup_Permutation.
Qed.

Section entries.
Context `{PlatformLaws}.

Lemma entries_elem fs p n : n ∈ entries fs p ↔ is_Some (fs !! (p ++ [n])).
Proof. unfold entries. by rewrite dir_order_perm, sort_by_key_elem, child_names_elem. Qed.

Lemma entries_NoDup fs p : NoDup (entries fs p).
Proof. unfold entries. rewrite dir_order_perm, sort_by_key_perm. apply child_names_NoDup. Qed.
End entries.

(** A listing depends on the names in the directory only. *)
Lemma entries_ext `{Platform} fs fs' p :
  (∀ n, is_Some (fs !! (p ++ [n])) ↔ is_Some (fs' !! (p ++ [n]))) → entries fs p = entries fs' p.
Proof.
  intros He. unfold entries. f_equal. apply sorted_names_eq; [apply child_names_NoDup..|].
  intros n. by rewrite !child_names_elem.
Qed.

(** ** Ancestors *)

Lemma tree_ancestors fs q n :
  tree fs → fs !! q = Some n → ∀ r, r `prefix_of` q → r ≠ [] → r ≠ q → ∃ m, fs !! r = Some (Dir m).
Proof.
  intros Ht. revert n. induction q as [|x q IH] using rev_ind; intros n Hq r Hr Hne Hrq.
  { by apply prefix_nil_inv in Hr. }
  apply parent_take_le in Hr; [|done]. rewrite parent_app in Hr.
  destruct (tree_lookup fs _ n Ht Hq) as [Hp|[m Hm]]; rewrite parent_app in *.
  { subst q. by apply prefix_nil_inv in Hr. }
  destruct (decide (r = q)) as [->|]; eauto.
Qed.

Lemma chain_noop `{Platform} fs d m : tree fs → fs !! d = Some (Dir m) → fs ∪ dir_chain d = fs.
Proof.
  intros Ht Hd. apply map_eq. intros q. destruct (dir_chain d !! q) as [n|] eqn:E.
  - assert (is_Some (dir_chain d !! q)) as [Hq Hne]%dir_chain_lookup by eauto.
    assert (∃ m', fs !! q = Some (Dir m')) as [m' Hm'].
    { destruct (decide (q = d)) as [->|]; [eauto|]. by eapply tree_ancestors. }
    rewrite Hm'. apply lookup_union_Some_raw. by left.
  - rewrite lookup_union, E. apply (right_id None _).
Qed.

(** ** Agreement below a directory *)

Definition agree_under (d : path) (fs fs' : gmap path node) : Prop :=
  ∀ q, d `prefix_of` q → fs' !! q = fs !! q.

(** What an operation that owns the directory [d] may touch: [d] and all below
    it, and the directories above it. *)
Definition near (d q : path) : Prop := q `prefix_of` d ∨ d `prefix_of` q.

Lemma near_sibling p a b q : a ≠ b → (p ++ [b]) `prefix_of` q → ¬ near (p ++ [a]) q.
Proof.
  intros Hab [k ->] [[j Hj]|[j Hj]]; rewrite <-?app_assoc in Hj; apply app_inv_head in Hj; naive_solver.
Qed.

Lemma frame_agree d P w w' : frame P w w' → (∀ q, d `prefix_of` q → ¬ P q) → agree_under d (w_fs w) (w_fs w').
Proof. intros Hf HP q Hq. by apply Hf, HP. Qed.
