(* ===== verification/Manifest.v ===== *)
(** * Manifest: [shared/src/workspace/manifest.rs]

    Snapshots of a workspace tree and their difference, which the guest agent
    computes and the daemon passes on, and the limit on file reads.  A
    [BTreeMap<String, _>] is a [gmap] read in the order of its keys. *)

From S2P Require Import Prelude RustStd.

Definition MAX_READ_FILE_BYTES : Z := 16 * 1024 * 1024.

Inductive FileKind := FkFile | FkDirectory | FkSymlink.

Record FileNode := mkFileNode {
  fn_path : string;
  fn_kind : FileKind;
  fn_size : Z;
  fn_digest : option string;
  fn_target : option string;
}.

#[global] Instance FileKind_eq_decision : EqDecision FileKind.
Proof. solve_decision. Defined.
#[global] Instance FileNode_eq_decision : EqDecision FileNode.
Proof. solve_decision. Defined.

Record WorkspaceSnapshot := mkSnapshot { snap_entries : gmap string FileNode }.

Inductive WorkspaceChangeKind := Added | Modified | Deleted | TypeChanged.

Record WorkspaceChange := mkChange {
  wc_path : string;
  wc_kind : WorkspaceChangeKind;
  wc_kind_after : option FileKind;
}.

#[global] Instance WorkspaceChangeKind_eq_decision : EqDecision WorkspaceChangeKind.
Proof. solve_decision. Defined.
#[global] Instance WorkspaceChange_eq_decision : EqDecision WorkspaceChange.
Proof. solve_decision. Defined.

Record ReadFileResult := mkReadFileResult {
  rf_path : string;
  rf_data : bytes;
  rf_truncated : bool;
}.

(** [collect] into a [BTreeMap]: the last entry of a path wins. *)
Definition from_entries (entries : list FileNode) : WorkspaceSnapshot :=
  mkSnapshot (foldl (λ m e, <[fn_path e := e]> m) ∅ entries).

(** The keys of a [BTreeMap] or [BTreeSet], in its order. *)
Definition ordered (s : gset string) : list string := sort_by_key id string_le (elements s).

Definition snapshot_entries (s : WorkspaceSnapshot) : list FileNode :=
  omap (λ p, snap_entries s !! p) (ordered (dom (snap_entries s))).

Definition diff_entry (before after : option FileNode) (path : string) : option WorkspaceChange :=
  match before, after with
  | None, Some a => Some (mkChange path Added (Some (fn_kind a)))
  | Some _, None => Some (mkChange path Deleted None)
  | Some b, Some a =>
      if decide (fn_kind b ≠ fn_kind a) then Some (mkChange path TypeChanged (Some (fn_kind a)))
      else if decide (b ≠ a) then Some (mkChange path Modified (Some (fn_kind a)))
      else None
  | None, None => None
  end.

Definition diff (self current : WorkspaceSnapshot) : list WorkspaceChange :=
  omap (λ p, diff_entry (snap_entries self !! p) (snap_entries current !! p) p)
       (ordered (dom (snap_entries self) ∪ dom (snap_entries current))).

Definition git_label (c : WorkspaceChange) : string :=
  match wc_kind c with Added => "A" | Modified => "M" | Deleted => "D" | TypeChanged => "T" end.

(** [usize::try_from] of a value that fits 64 bits cannot fail on the 64-bit
    hosts the daemon is built for. *)
Definition validate_read_limit (limit : Z) : Result SandboxError Z :=
  if (MAX_READ_FILE_BYTES <? limit)%Z then
    Err (InvalidConfig ("file read limit must not exceed " ^+ pretty MAX_READ_FILE_BYTES ^+ " bytes"))
  else Ok limit.

(** ** Lemmas *)

Lemma ordered_elem s p : p ∈ ordered s ↔ p ∈ s.
Proof. unfold ordered. by rewrite sort_by_key_elem, elem_of_elements. Qed.

Lemma ordered_NoDup s : NoDup (ordered s).
Proof. unfold ordered. rewrite sort_by_key_perm. apply NoDup_elements. Qed.

Lemma ordered_sorted s : StronglySorted (λ a b, string_le a b = true) (ordered s).
Proof. unfold ordered. apply (sort_by_key_sorted id string_le string_le_total string_le_trans). Qed.

Lemma diff_entry_path b a p c : diff_entry b a p = Some c → wc_path c = p.
Proof. unfold diff_entry. intros. repeat case_match; simplify_eq/=; done. Qed.

Lemma diff_entry_None b a p : diff_entry b a p = None ↔ b = a.
Proof.
  unfold diff_entry. destruct b as [b|], a as [a|]; repeat case_decide; naive_solver.
Qed.

(** What a change says about the two entries of its path. *)
Definition change_meaning (b a : option FileNode) (k : WorkspaceChangeKind) : Prop :=
  match k with
  | Added => b = None ∧ is_Some a
  | Deleted => is_Some b ∧ a = None
  | TypeChanged => ∃ x y, b = Some x ∧ a = Some y ∧ fn_kind x ≠ fn_kind y
  | Modified => ∃ x y, b = Some x ∧ a = Some y ∧ fn_kind x = fn_kind y ∧ x ≠ y
  end.

Lemma diff_entry_spec b a p k ka :
  diff_entry b a p = Some (mkChange p k ka) ↔ change_meaning b a k ∧ ka = fn_kind <$> a.
Proof.
  unfold diff_entry. destruct b as [b|], a as [a|]; simpl.
  - repeat case_decide; destruct k; naive_solver.
  - destruct k; naive_solver.
  - destruct k; naive_solver.
  - destruct k; naive_solver.
Qed.

Lemma omap_sublist {A B} (f : A → option B) (g : B → A) l :
  (∀ x y, f x = Some y → g y = x) → g <$> omap f l `sublist_of` l.
Proof.
  intros Hg. induction l as [|x l IH]; csimpl; [done|].
  destruct (f x) as [y|] eqn:E; csimpl; [|by constructor].
  rewrite (Hg _ _ E). by constructor.
Qed.

Lemma sublist_sorted {A} (R : relation A) l k : k `sublist_of` l → StronglySorted R l → StronglySorted R k.
Proof.
  induction 1 as [|x k l Hs IH|x k l Hs IH]; intros Hl; [done| |].
  - apply StronglySorted_inv in Hl as [Hl Hx]. constructor; [auto|].
    rewrite Forall_forall in Hx |- *. intros y Hy. apply Hx. by eapply elem_of_sublist.
  - apply StronglySorted_inv in Hl as [Hl _]. auto.
Qed.

Lemma diff_paths_sublist s t :
  wc_path <$> diff s t `sublist_of` ordered (dom (snap_entries s) ∪ dom (snap_entries t)).
Proof. unfold diff. apply omap_sublist. intros p c. apply diff_entry_path. Qed.

Lemma diff_elem s t c :
  c ∈ diff s t ↔ diff_entry (snap_entries s !! wc_path c) (snap_entries t !! wc_path c) (wc_path c) = Some c.
Proof.
  unfold diff. rewrite list_elem_of_omap. split.
  - intros (p & _ & Hc). by rewrite (diff_entry_path _ _ _ _ Hc).
  - intros Hc. exists (wc_path c). split; [|done]. apply ordered_elem.
    rewrite elem_of_union, !elem_of_dom.
    destruct (snap_entries s !! _), (snap_entries t !! _); naive_solver.
Qed.

(** ** Properties *)

(** a change is reported exactly when it happened: [diff] contains a change
    of a path with a kind if and only if the entries of that path before and
    after are as the kind says, and the change carries the kind of the entry
    found after it. *)
Theorem diff_exact s t p k ka :
  mkChange p k ka ∈ diff s t ↔
  change_meaning (snap_entries s !! p) (snap_entries t !! p) k ∧ ka = fn_kind <$> snap_entries t !! p.
Proof. rewrite diff_elem. apply diff_entry_spec. Qed.

(** [diff] is a minimal, ordered description: its paths are strictly
    increasing (each path is reported once), and it is empty exactly when the
    two snapshots are equal. *)
Theorem diff_ordered_and_complete s t :
  NoDup (wc_path <$> diff s t) ∧
  StronglySorted (λ a b, string_le a b = true) (wc_path <$> diff s t) ∧
  (diff s t = [] ↔ s = t).
Proof.
  split_and!.
  - eapply sublist_NoDup; [apply ordered_NoDup|apply diff_paths_sublist].
  - eapply sublist_sorted; [apply diff_paths_sublist|apply ordered_sorted].
  - split.
    + destruct s as [m], t as [n]. intros Hd. f_equal. apply map_eq. intros p.
      apply (diff_entry_None _ _ p). destruct (diff_entry _ _ _) as [c|] eqn:E; [|done].
      assert (c ∈ diff (mkSnapshot m) (mkSnapshot n)).
      { apply diff_elem. by rewrite (diff_entry_path _ _ _ _ E). }
      rewrite Hd in *. by apply not_elem_of_nil in H.
    + intros ->. destruct (diff t t) as [|c l] eqn:E; [done|].
      assert (Hc : c ∈ diff t t) by (rewrite E; left).
      apply diff_elem in Hc. by rewrite (proj2 (diff_entry_None _ _ _) eq_refl) in Hc.
Qed.
