(* ===== verification/Config.v ===== *)
(** * Config: [src/config.rs]

    The daemon's configuration and its validation, execution policies and the
    detection of the guest kernel's format.  What [cfg!] fixes at compile time
    is the [Target] the definitions take.  Paths are compared with the empty
    path only, so they are strings here; durations are in nanoseconds. *)

From S2P Require Import Prelude RustStd.

(** ** The compilation target *)

Inductive Os := Linux | MacOs | OtherOs.

Class Target := { target_os : Os; target_x86_64 : bool }.

#[global] Instance Os_eq_decision : EqDecision Os.
Proof. solve_decision. Defined.

Definition on_linux `{Target} : bool := bool_decide (target_os = Linux).
Definition on_macos `{Target} : bool := bool_decide (target_os = MacOs).

(** ** Data *)

Inductive IsolationMode := Compat | Secure.

Inductive GuestKernelFormat := Raw | Elf | PeGz | ImageBz2 | ImageGz | ImageZstd.

#[global] Instance IsolationMode_eq_decision : EqDecision IsolationMode.
Proof. solve_decision. Defined.
#[global] Instance GuestKernelFormat_eq_decision : EqDecision GuestKernelFormat.
Proof. solve_decision. Defined.

Record GuestConfig := {
  kernel_image : string;
  kernel_format : GuestKernelFormat;
  rootfs_image : string;
  firmware : option string;
  guest_agent_path : string;
  guest_vsock_port : Z;
  boot_timeout : Z;
  guest_uid : Z;
  guest_gid : Z;
  guest_tmpfs_mib : Z;
}.

Record WorkspaceConfig := { disk_size_mib : Z }.

Inductive IpAddr :=
  | V4 (a b c d : Z)
  | V6 (segments : list Z).

Record SocketAddr := { addr_ip : IpAddr; addr_port : Z }.

Record ControlPlaneConfig := { bind_addr : SocketAddr; allow_remote_bind : bool }.

Record HardeningConfig := {
  enable_landlock : bool;
  cgroup_parent : option string;
  runner_log_limit_bytes : Z;
}.

Record LifecycleConfig := { warm_pool_size : Z }.

Record ArtifactBundle := { bundle_id : string }.

Record ExecutionPolicy := mkPolicy {
  cpu_cores : Z;
  memory_mb : Z;
  max_processes : Z;
  network_enabled : bool;
  timeout_ms : option Z;
}.

#[global] Instance ExecutionPolicy_eq_decision : EqDecision ExecutionPolicy.
Proof. solve_decision. Defined.

Record SandboxSpec := mkSandboxSpec {
  spec_workspace_id : string;
  spec_image : string;
  spec_policy : ExecutionPolicy;
  spec_restore_commit : option string;
}.

Record RuntimeConfig := {
  rc_state_dir : string;
  rc_guest : GuestConfig;
  rc_workspace : WorkspaceConfig;
  rc_control : ControlPlaneConfig;
  rc_lifecycle : LifecycleConfig;
  rc_isolation_mode : IsolationMode;
  rc_hardening : HardeningConfig;
  rc_artifact_bundle : ArtifactBundle;
  rc_default_policy : ExecutionPolicy;
}.

(** ** Defaults *)

Definition ControlPlaneConfig_default : ControlPlaneConfig :=
  {| bind_addr := {| addr_ip := V4 127 0 0 1; addr_port := 7000 |}; allow_remote_bind := false |}.

Definition LifecycleConfig_default : LifecycleConfig := {| warm_pool_size := 1 |}.

Definition ArtifactBundle_default : ArtifactBundle := {| bundle_id := "dev" |}.

Definition ExecutionPolicy_default : ExecutionPolicy := mkPolicy 1 128 256 false None.

(** [images::BASE_IMAGE_NAME] *)
Definition BASE_IMAGE_NAME : string := "base".

Definition SandboxSpec_new (workspace_id : string) : SandboxSpec :=
  mkSandboxSpec workspace_id BASE_IMAGE_NAME ExecutionPolicy_default None.

(** ** Kernel formats *)

Section kernel_format.
Context `{Target}.

Definition KERNEL_FORMAT_PROBE_BYTES : nat := 64 * 1024.

Definition default_for_host : GuestKernelFormat := Raw.

Definition parse (value : string) : Result SandboxError GuestKernelFormat :=
  let v := to_ascii_lowercase (trim value) in
  if bool_decide (v = "raw") then Ok Raw
  else if bool_decide (v = "elf") then Ok Elf
  else if bool_decide (v ∈ ["pegz"; "pe_gz"; "pe-gz"]) then Ok PeGz
  else if bool_decide (v ∈ ["imagebz2"; "image_bz2"; "image-bz2"]) then Ok ImageBz2
  else if bool_decide (v ∈ ["imagegz"; "image_gz"; "image-gz"]) then Ok ImageGz
  else if bool_decide (v ∈ ["imagezstd"; "image_zstd"; "image-zstd"]) then Ok ImageZstd
  else Err (InvalidConfig ("unsupported guest kernel format: " ^+ value)).

Definition bytes_start (pat probe : bytes) : bool := bool_decide (pat `prefix_of` probe).

(** [probe.windows(k).any(|window| window == pat)]. *)
Fixpoint has_window (pat probe : bytes) : bool :=
  bytes_start pat probe || match probe with [] => false | _ :: rest => has_window pat rest end.

Definition detect_from_probe (probe : bytes) (fallback : GuestKernelFormat) : GuestKernelFormat :=
  if bytes_start [Byte.x7f; Byte.x45; Byte.x4c; Byte.x46] probe then Elf
  else if bytes_start [Byte.x4d; Byte.x5a] probe then
    if has_window [Byte.x1f; Byte.x8b; Byte.x08] probe then
      if target_x86_64 then ImageGz else PeGz
    else if has_window [Byte.x42; Byte.x5a; Byte.x68] probe then ImageBz2
    else if has_window [Byte.x28; Byte.xb5; Byte.x2f; Byte.xfd] probe then ImageZstd
    else fallback
  else fallback.

Definition detect_from_file_name (file_name : string) : option GuestKernelFormat :=
  if ends_with ".pe.gz" (to_ascii_lowercase file_name) && negb target_x86_64 then Some PeGz else None.
End kernel_format.

(** ** Validation *)

Definition invalid {A} (cond : bool) (message : string) (k : Result SandboxError A) : Result SandboxError A :=
  if cond then Err (InvalidConfig message) else k.

Definition is_empty (s : string) : bool := String.eqb s "".

Section validate.
Context `{Target}.

Definition uses_krun_init_boot_path (g : GuestConfig) : bool :=
  on_linux && bool_decide (firmware g = None) && bool_decide (kernel_format g = Raw).

Definition GuestConfig_validate (g : GuestConfig) : Result SandboxError () :=
  invalid (is_empty (kernel_image g)) "kernel_image must not be empty" $
  invalid (is_empty (rootfs_image g)) "rootfs_image must not be empty" $
  invalid (is_empty (guest_agent_path g)) "guest_agent_path must not be empty" $
  invalid (on_macos && bool_decide (firmware g = None))
    "firmware must be configured for libkrun on macOS" $
  invalid (guest_vsock_port g <? 1024)%Z "guest_vsock_port must be >= 1024 for sandbox RPC" $
  invalid (boot_timeout g <? 1000000000)%Z "boot_timeout must be at least one second" $
  invalid (guest_tmpfs_mib g <? 32)%Z "guest_tmpfs_mib must be at least 32" $
  Ok ().

Definition WorkspaceConfig_validate (c : WorkspaceConfig) : Result SandboxError () :=
  invalid (disk_size_mib c <? 64)%Z "workspace disk must be at least 64 MiB" $ Ok ().

(** [IpAddr::is_loopback]: 127.0.0.0/8 and [::1]. *)
Definition is_loopback (ip : IpAddr) : bool :=
  match ip with
  | V4 a _ _ _ => (a =? 127)%Z
  | V6 segments => bool_decide (segments = [0; 0; 0; 0; 0; 0; 0; 1]%Z)
  end.

Definition ControlPlaneConfig_validate (c : ControlPlaneConfig) : Result SandboxError () :=
  invalid (negb (allow_remote_bind c) && negb (is_loopback (addr_ip (bind_addr c))))
    "control-plane bind must stay on loopback unless remote bind is explicitly allowed" $ Ok ().

Definition HardeningConfig_validate (c : HardeningConfig) (mode : IsolationMode) : Result SandboxError () :=
  invalid (runner_log_limit_bytes c <? 1048576)%Z "runner_log_limit_bytes must be at least 1048576" $
  invalid (bool_decide (mode = Secure) && bool_decide (cgroup_parent c = None))
    "secure isolation mode requires SAGENS_CGROUP_PARENT" $
  invalid (bool_decide (mode = Secure) && negb (enable_landlock c))
    "secure isolation mode requires Landlock host hardening" $ Ok ().

Definition LifecycleConfig_validate (c : LifecycleConfig) : Result SandboxError () :=
  invalid (64 <? warm_pool_size c)%Z "warm_pool_size must not exceed 64" $ Ok ().

Definition ExecutionPolicy_validate (p : ExecutionPolicy) : Result SandboxError () :=
  invalid (cpu_cores p =? 0)%Z "cpu_cores must be at least 1" $
  invalid (memory_mb p <? 128)%Z "memory_mb must be at least 128" $
  invalid (max_processes p =? 0)%Z "max_processes must be at least 1" $
  invalid (bool_decide (timeout_ms p = Some 0%Z))
    "timeout_ms must be greater than zero when configured" $ Ok ().

Definition RuntimeConfig_validate (c : RuntimeConfig) : Result SandboxError () :=
  invalid (is_empty (rc_state_dir c)) "state_dir must not be empty" $
  GuestConfig_validate (rc_guest c);;
  WorkspaceConfig_validate (rc_workspace c);;
  ControlPlaneConfig_validate (rc_control c);;
  LifecycleConfig_validate (rc_lifecycle c);;
  HardeningConfig_validate (rc_hardening c) (rc_isolation_mode c);;
  ExecutionPolicy_validate (rc_default_policy c);;
  match rc_isolation_mode c with
  | Compat => Ok ()
  | Secure =>
      if on_linux then
        invalid (uses_krun_init_boot_path (rc_guest c))
          "secure isolation mode requires a direct block-root guest boot path; init.krun/virtiofs root is not allowed" $
        invalid (network_enabled (rc_default_policy c))
          "secure isolation mode does not allow a network-enabled default policy" $ Ok ()
      else Err (InvalidConfig "secure isolation mode is only supported on Linux")
  end.

(** ** Properties *)

Lemma invalid_ok {A} cond msg (k : Result SandboxError A) a :
  invalid cond msg k = Ok a ↔ cond = false ∧ k = Ok a.
Proof. unfold invalid. destruct cond; naive_solver. Qed.

Lemma seq_ok {B} (m : Result SandboxError ()) (k : Result SandboxError B) b :
  (m;; k) = Ok b ↔ m = Ok () ∧ k = Ok b.
Proof. destruct m as [[]|]; cbn; naive_solver. Qed.

(** What a valid policy is. *)
Definition valid_policy (p : ExecutionPolicy) : Prop :=
  (1 ≤ cpu_cores p ∧ 128 ≤ memory_mb p ∧ 1 ≤ max_processes p)%Z ∧ timeout_ms p ≠ Some 0%Z.

Lemma policy_validate_ok p :
  (0 ≤ cpu_cores p)%Z → (0 ≤ max_processes p)%Z →
  ExecutionPolicy_validate p = Ok () ↔ valid_policy p.
Proof.
  intros Hc Hm. unfold ExecutionPolicy_validate, valid_policy. rewrite !invalid_ok.
  rewrite !Z.eqb_neq, Z.ltb_ge, bool_decide_eq_false. split; [intros (?&?&?&?&_)|intros ((?&?&?)&?)];
    split_and!; try done; lia.
Qed.

(** What the secure mode guarantees of a configuration that validates. *)
Definition hardened (c : RuntimeConfig) : Prop :=
  target_os = Linux ∧ (∃ cg, cgroup_parent (rc_hardening c) = Some cg) ∧
  enable_landlock (rc_hardening c) = true ∧ network_enabled (rc_default_policy c) = false ∧
  (firmware (rc_guest c) ≠ None ∨ kernel_format (rc_guest c) ≠ Raw).

(** a validated configuration in secure mode is hardened: Linux only, a
    cgroup parent and Landlock present, no network by default and no
    virtiofs root; and a validated configuration in any mode listens on
    loopback unless remote binds are allowed explicitly, with a bounded warm
    pool and a privileged-port-free RPC channel. *)
Theorem validated_config_is_safe c :
  RuntimeConfig_validate c = Ok () →
  (rc_isolation_mode c = Secure → hardened c) ∧
  (allow_remote_bind (rc_control c) = false → is_loopback (addr_ip (bind_addr (rc_control c))) = true) ∧
  (warm_pool_size (rc_lifecycle c) ≤ 64 ∧ 1024 ≤ guest_vsock_port (rc_guest c))%Z.
Proof.
  unfold RuntimeConfig_validate. rewrite !seq_ok, invalid_ok.
  intros ((_ & Hg) & _ & Hc & Hl & Hh & _ & Hmode). split_and!.
  - intros Hs. rewrite Hs in *. unfold HardeningConfig_validate in Hh. rewrite !invalid_ok in Hh.
    destruct Hh as (_ & Hcg & Hll & _). unfold on_linux in Hmode. case_bool_decide as Hos; [|done].
    rewrite !invalid_ok in Hmode. destruct Hmode as (Hboot & Hnet & _).
    unfold uses_krun_init_boot_path, on_linux in Hboot. rewrite (bool_decide_true _ Hos) in Hboot.
    rewrite bool_decide_true in Hcg, Hll by done. simpl in *. unfold hardened. split_and!; [done| | |done|].
    + destruct (cgroup_parent _); [eauto|done].
    + by apply negb_false_iff.
    + apply andb_false_iff in Hboot. rewrite !bool_decide_eq_false in Hboot. done.
  - intros Hr. unfold ControlPlaneConfig_validate in Hc. rewrite invalid_ok, Hr in Hc.
    destruct Hc as [Hc _]. by apply negb_false_iff.
  - unfold LifecycleConfig_validate in Hl. rewrite invalid_ok in Hl. lia.
  - unfold GuestConfig_validate in Hg. rewrite !invalid_ok in Hg. lia.
Qed.
End validate.
