(* ===== verification/Lineage.v ===== *)
(** * Lineage: [src/workspace/lineage.rs]

    The trait [WorkspaceLineageStore], as a class of operations with the laws
    its client relies on, and [LocalLineageStore], which keeps each workspace's
    checkpoints under [checkpoints/<workspace>/<checkpoint>/] with a head
    pointer beside them. *)

From S2P Require Import Prelude RustStd Paths FileSystem PrivateFs FsTree Manifest.

(** ** Data: [src/workspace/checkpoints.rs] and [store.rs] *)

Record WorkspaceCheckpointSummary := mkSummary {
  cs_checkpoint_id : string;
  cs_workspace_id : string;
  cs_name : option string;
  cs_metadata : gmap string string;
  cs_created_at_ms : Z;
}.

Record WorkspaceCheckpointRecord := mkCheckpoint {
  cr_summary : WorkspaceCheckpointSummary;
  cr_source_checkpoint_id : option string;
  cr_changes : list WorkspaceChange;
}.

Record WorkspaceLease := { wl_workspace_id : string; wl_disk_path : path }.

Record WorkspaceLineageHead := mkHead { head_checkpoint : option string }.

#[global] Instance WorkspaceCheckpointSummary_eq_decision : EqDecision WorkspaceCheckpointSummary.
Proof. solve_decision. Defined.
#[global] Instance WorkspaceCheckpointRecord_eq_decision : EqDecision WorkspaceCheckpointRecord.
Proof. solve_decision. Defined.

Definition checkpoint_id (r : WorkspaceCheckpointRecord) : string := cs_checkpoint_id (cr_summary r).

(** The key checkpoints are listed by. *)
Definition checkpoint_key (r : WorkspaceCheckpointRecord) : Z * string :=
  (cs_created_at_ms (cr_summary r), cs_checkpoint_id (cr_summary r)).
Definition checkpoint_le (a b : WorkspaceCheckpointRecord) : bool :=
  pair_le string_le (checkpoint_key a) (checkpoint_key b).
Definition sort_checkpoints (l : list WorkspaceCheckpointRecord) : list WorkspaceCheckpointRecord :=
  sort_by_key checkpoint_key (pair_le string_le) l.

(** ** The trait *)

Class WorkspaceLineageStore := {
  ensure_workspace : string → M SandboxError World ();
  head_checkpoint_id : string → M SandboxError World (option string);
  set_head_checkpoint_id : string → option string → M SandboxError World ();
  save_checkpoint : WorkspaceLease → WorkspaceCheckpointRecord → M SandboxError World ();
  load_checkpoint : string → string → M SandboxError World (option WorkspaceCheckpointRecord);
  list_checkpoints : string → M SandboxError World (list WorkspaceCheckpointRecord);
  lineage_delete_checkpoint : string → string → M SandboxError World ();
  copy_checkpoint_snapshot : string → string → path → M SandboxError World ();
}.

(** ** [LocalLineageStore] *)

Module Local.
Section local.
Context `{Platform, Serde WorkspaceCheckpointRecord, Serde WorkspaceLineageHead} (checkpoints_dir : path).

Definition workspace_dir (workspace_id : string) : path := checkpoints_dir ++ [workspace_id].
Definition checkpoint_dir (workspace_id checkpoint_id : string) : path :=
  checkpoints_dir ++ [workspace_id; checkpoint_id].
Definition checkpoint_record_path (workspace_id checkpoint_id : string) : path :=
  checkpoints_dir ++ [workspace_id; checkpoint_id; "record.json"].
Definition checkpoint_snapshot_path (workspace_id checkpoint_id : string) : path :=
  checkpoints_dir ++ [workspace_id; checkpoint_id; "workspace.raw"].
Definition head_path (workspace_id : string) : path := checkpoints_dir ++ [workspace_id; "head.json"].

Definition write_json {T} `{Serde T} (p : path) (value : T) : M SandboxError World () :=
  data ← map_err (Json "encoding workspace metadata") (lift (to_vec value));
  map_err (Io "writing workspace metadata") (fs_write p data).

Definition read_json {T} `{Serde T} (p : path) : M SandboxError World T :=
  data ← map_err (Io "reading workspace metadata") (fs_read p);
  map_err (Json "decoding workspace metadata") (lift (from_slice data)).

Definition copy_file (source destination : path) (context : string) : M SandboxError World () :=
  map_err (Io ("copying disk for " ^+ context)) (fs_copy source destination).

(** The body of the [while let Some(entry) = entries.next_entry()] loop. *)
Definition read_entry (workspace_id name : string) : M SandboxError World (option WorkspaceCheckpointRecord) :=
  file_type ← map_err (Io "reading workspace checkpoint entry type")
                (fs_metadata (checkpoint_dir workspace_id name));
  if negb (is_dir file_type) then mret None
  else
    present ← map_err (Io "checking checkpoint record")
                (fs_try_exists (checkpoint_record_path workspace_id name));
    if negb present then mret None
    else Some <$> read_json (checkpoint_record_path workspace_id name).

Fixpoint read_entries (workspace_id : string) (names : list string) :
    M SandboxError World (list WorkspaceCheckpointRecord) :=
  map_err (Io "iterating workspace checkpoints") fs_next_entry;;
  match names with
  | [] => mret []
  | name :: rest =>
      record ← read_entry workspace_id name;
      records ← read_entries workspace_id rest;
      mret (option_list record ++ records)
  end.

Definition list_checkpoint_records (workspace_id : string) :
    M SandboxError World (list WorkspaceCheckpointRecord) :=
  let dir := workspace_dir workspace_id in
  present ← map_err (Io "checking workspace checkpoints") (fs_try_exists dir);
  if negb present then mret []
  else
    names ← map_err (Io "reading workspace checkpoints") (fs_read_dir dir);
    records ← read_entries workspace_id names;
    mret (sort_checkpoints records).

Definition last_id (records : list WorkspaceCheckpointRecord) : option string :=
  checkpoint_id <$> last records.

Definition ensure_workspace (workspace_id : string) : M SandboxError World () :=
  lift (validate_persisted_id workspace_id "workspace_id");;
  map_err (Io "creating workspace checkpoint directory") (fs_create_dir_all (workspace_dir workspace_id));;
  present ← map_err (Io "checking workspace checkpoint head") (fs_try_exists (head_path workspace_id));
  if negb present then
    records ← list_checkpoint_records workspace_id;
    write_json (head_path workspace_id) (mkHead (last_id records))
  else mret ().

Definition head_checkpoint_id (workspace_id : string) : M SandboxError World (option string) :=
  lift (validate_persisted_id workspace_id "workspace_id");;
  present ← map_err (Io "checking workspace checkpoint head") (fs_try_exists (head_path workspace_id));
  if present : bool then
    head ← read_json (head_path workspace_id);
    mret (head_checkpoint head)
  else
    records ← list_checkpoint_records workspace_id;
    mret (last_id records).

Definition validate_opt (value : option string) (field : string) : Result SandboxError () :=
  match value with Some v => validate_persisted_id v field | None => Ok () end.

Definition set_head_checkpoint_id (workspace_id : string) (checkpoint_id : option string) :
    M SandboxError World () :=
  lift (validate_persisted_id workspace_id "workspace_id");;
  lift (validate_opt checkpoint_id "checkpoint_id");;
  ensure_workspace workspace_id;;
  write_json (head_path workspace_id) (mkHead checkpoint_id).

Definition save_checkpoint (workspace : WorkspaceLease) (checkpoint : WorkspaceCheckpointRecord) :
    M SandboxError World () :=
  let ws := wl_workspace_id workspace in
  let id := checkpoint_id checkpoint in
  lift (validate_persisted_id ws "workspace_id");;
  lift (validate_persisted_id (cs_workspace_id (cr_summary checkpoint)) "workspace_id");;
  lift (validate_persisted_id id "checkpoint_id");;
  lift (validate_opt (cr_source_checkpoint_id checkpoint) "source_checkpoint_id");;
  if negb (String.eqb (cs_workspace_id (cr_summary checkpoint)) ws) then
    throw (InvalidConfig ("checkpoint workspace " ^+ cs_workspace_id (cr_summary checkpoint) ^+
                          " does not match lease " ^+ ws))
  else
    ensure_workspace ws;;
    map_err (Io "creating workspace checkpoint directory") (fs_create_dir_all (checkpoint_dir ws id));;
    copy_file (wl_disk_path workspace) (checkpoint_snapshot_path ws id) "checkpoint";;
    write_json (checkpoint_record_path ws id) checkpoint.

Definition load_checkpoint (workspace_id checkpoint_id : string) :
    M SandboxError World (option WorkspaceCheckpointRecord) :=
  lift (validate_persisted_id workspace_id "workspace_id");;
  lift (validate_persisted_id checkpoint_id "checkpoint_id");;
  present ← map_err (Io "checking checkpoint record")
              (fs_try_exists (checkpoint_record_path workspace_id checkpoint_id));
  if negb present then mret None
  else Some <$> read_json (checkpoint_record_path workspace_id checkpoint_id).

Definition list_checkpoints (workspace_id : string) :
    M SandboxError World (list WorkspaceCheckpointRecord) :=
  lift (validate_persisted_id workspace_id "workspace_id");;
  list_checkpoint_records workspace_id.

Definition delete_checkpoint (workspace_id checkpoint_id : string) : M SandboxError World () :=
  lift (validate_persisted_id workspace_id "workspace_id");;
  lift (validate_persisted_id checkpoint_id "checkpoint_id");;
  present ← map_err (Io "checking checkpoint directory")
              (fs_try_exists (checkpoint_dir workspace_id checkpoint_id));
  if present : bool then
    map_err (Io "removing checkpoint directory") (fs_remove_dir_all (checkpoint_dir workspace_id checkpoint_id))
  else mret ().

Definition copy_checkpoint_snapshot (workspace_id checkpoint_id : string) (destination : path) :
    M SandboxError World () :=
  lift (validate_persisted_id workspace_id "workspace_id");;
  lift (validate_persisted_id checkpoint_id "checkpoint_id");;
  copy_file (checkpoint_snapshot_path workspace_id checkpoint_id) destination "checkpoint workspace".
End local.
End Local.

(** ** What the trait promises

    The observable state of a lineage store is, per workspace, its checkpoint
    records, their disk snapshots and the head.  The laws speak about calls that
    succeed, under every schedule of failures. *)

Class LineageSpec `{Platform} (L : WorkspaceLineageStore) := {
  lineage_dir : string → path;
  record_at : gmap path node → string → string → option WorkspaceCheckpointRecord;
  snapshot_at : gmap path node → string → string → option content;
  head_at : gmap path node → string → option (option string);
  head_saved : gmap path node → string → Prop;

  (** A workspace's lineage is in its own directory, and operations on it stay there. *)
  lineage_local ws fs fs' : agree_under (lineage_dir ws) fs fs' →
    (∀ id, record_at fs' ws id = record_at fs ws id ∧ snapshot_at fs' ws id = snapshot_at fs ws id) ∧
    head_at fs' ws = head_at fs ws ∧ (head_saved fs' ws ↔ head_saved fs ws);
  lineage_apart ws ws' q : ws ≠ ws' → lineage_dir ws' `prefix_of` q → ¬ near (lineage_dir ws) q;
  ensure_frame ws : keeps (frame (near (lineage_dir ws))) (ensure_workspace ws);
  set_head_frame ws h : keeps (frame (near (lineage_dir ws))) (set_head_checkpoint_id ws h);
  save_frame l c : keeps (frame (near (lineage_dir (wl_workspace_id l)))) (save_checkpoint l c);
  delete_frame ws id : keeps (frame (near (lineage_dir ws))) (lineage_delete_checkpoint ws id);
  head_frame ws : keeps (frame (λ _, False)) (head_checkpoint_id ws);
  load_frame ws id : keeps (frame (λ _, False)) (load_checkpoint ws id);
  list_frame ws : keeps (frame (λ _, False)) (list_checkpoints ws);
  copy_frame ws id p : keeps (frame (eq p)) (copy_checkpoint_snapshot ws id p);
  ensure_tree ws : keeps (preserves tree_world) (ensure_workspace ws);
  set_head_tree ws h : keeps (preserves tree_world) (set_head_checkpoint_id ws h);
  save_tree l c : keeps (preserves tree_world) (save_checkpoint l c);
  delete_tree ws id : keeps (preserves tree_world) (lineage_delete_checkpoint ws id);
  copy_tree ws id p : keeps (preserves tree_world) (copy_checkpoint_snapshot ws id p);

  ensure_ok ws w w' : tree_world w → ensure_workspace ws w = (Ok (), w') →
    valid_id ws ∧ head_saved (w_fs w') ws ∧ head_at (w_fs w') ws = head_at (w_fs w) ws ∧
    ∀ id, record_at (w_fs w') ws id = record_at (w_fs w) ws id ∧
          snapshot_at (w_fs w') ws id = snapshot_at (w_fs w) ws id;
  head_ok ws w h w' : head_checkpoint_id ws w = (Ok h, w') → head_at (w_fs w) ws = Some h;
  set_head_ok ws h w w' : tree_world w → set_head_checkpoint_id ws h w = (Ok (), w') →
    head_saved (w_fs w') ws ∧ head_at (w_fs w') ws = Some h ∧
    ∀ id, record_at (w_fs w') ws id = record_at (w_fs w) ws id ∧
          snapshot_at (w_fs w') ws id = snapshot_at (w_fs w) ws id;
  save_ok l c w w' : tree_world w → (∀ q, near (lineage_dir (wl_workspace_id l)) q → wl_disk_path l ≠ q) →
    save_checkpoint l c w = (Ok (), w') →
    ∃ m d, w_fs w !! wl_disk_path l = Some (File m d) ∧
    let ws := wl_workspace_id l in
    cs_workspace_id (cr_summary c) = ws ∧
    (∀ id, record_at (w_fs w') ws id = if decide (id = checkpoint_id c) then Some c else record_at (w_fs w) ws id) ∧
    (∀ id, snapshot_at (w_fs w') ws id = if decide (id = checkpoint_id c) then Some d else snapshot_at (w_fs w) ws id) ∧
    head_saved (w_fs w') ws ∧ head_at (w_fs w') ws = head_at (w_fs w) ws;
  load_ok ws id w o w' : load_checkpoint ws id w = (Ok o, w') → record_at (w_fs w) ws id = o;
  list_ok ws w rs w' : tree_world w → list_checkpoints ws w = (Ok rs, w') →
    StronglySorted (λ a b, checkpoint_le a b = true) rs ∧
    (∀ r, r ∈ rs ↔ ∃ id, record_at (w_fs w) ws id = Some r) ∧
    ((∀ id r, record_at (w_fs w) ws id = Some r → checkpoint_id r = id) → NoDup (map checkpoint_id rs));
  delete_ok ws id w w' : tree_world w → lineage_delete_checkpoint ws id w = (Ok (), w') →
    (∀ id', record_at (w_fs w') ws id' = if decide (id' = id) then None else record_at (w_fs w) ws id') ∧
    (∀ id', snapshot_at (w_fs w') ws id' = if decide (id' = id) then None else snapshot_at (w_fs w) ws id') ∧
    (head_saved (w_fs w) ws → head_saved (w_fs w') ws ∧ head_at (w_fs w') ws = head_at (w_fs w) ws);
  copy_snapshot_ok ws id p w w' : copy_checkpoint_snapshot ws id p w = (Ok (), w') →
    ∃ m c, snapshot_at (w_fs w) ws id = Some c ∧ w_fs w' = <[p := File m c]> (w_fs w);
}.

#[export] Hint Resolve ensure_frame set_head_frame save_frame delete_frame head_frame load_frame list_frame
  copy_frame ensure_tree set_head_tree save_tree delete_tree copy_tree : keeps.

(** ** [LocalLineageStore] keeps the promise *)

Section local_spec.
Context `{PlatformLaws, Serde WorkspaceCheckpointRecord, Serde WorkspaceLineageHead,
          !SerdeLaws WorkspaceCheckpointRecord, !SerdeLaws WorkspaceLineageHead} (root : path).
Implicit Types (fs : gmap path node) (ws id : string).

#[local] Instance local_store : WorkspaceLineageStore := {|
  ensure_workspace := Local.ensure_workspace root;
  head_checkpoint_id := Local.head_checkpoint_id root;
  set_head_checkpoint_id := Local.set_head_checkpoint_id root;
  save_checkpoint := Local.save_checkpoint root;
  load_checkpoint := Local.load_checkpoint root;
  list_checkpoints := Local.list_checkpoints root;
  lineage_delete_checkpoint := Local.delete_checkpoint root;
  copy_checkpoint_snapshot := Local.copy_checkpoint_snapshot root;
|}.

Definition decode_file {T} `{Serde T} fs (p : path) : option T :=
  match fs !! p with
  | Some (File _ c) => match from_slice (content_bytes c) with Ok v => Some v | Err _ => None end
  | _ => None
  end.

Definition local_record_at fs ws id : option WorkspaceCheckpointRecord :=
  decode_file fs (Local.checkpoint_record_path root ws id).

Definition local_snapshot_at fs ws id : option content :=
  match fs !! Local.checkpoint_snapshot_path root ws id with Some (File _ c) => Some c | _ => None end.

(** The checkpoints a listing finds. *)
Definition visible fs ws id : bool :=
  match fs !! Local.checkpoint_dir root ws id with
  | Some (Dir _) => bool_decide (is_Some (fs !! Local.checkpoint_record_path root ws id))
  | _ => false
  end.

Definition records_of fs ws : option (list WorkspaceCheckpointRecord) :=
  match fs !! Local.workspace_dir root ws with
  | None => Some []
  | Some _ => sort_checkpoints <$>
      mapM (local_record_at fs ws) (List.filter (visible fs ws) (entries fs (Local.workspace_dir root ws)))
  end.

Definition local_head_at fs ws : option (option string) :=
  match fs !! Local.head_path root ws with
  | Some _ => head_checkpoint <$> decode_file fs (Local.head_path root ws)
  | None => Local.last_id <$> records_of fs ws
  end.

Definition local_head_saved fs ws : Prop := is_Some (fs !! Local.head_path root ws).

(** *** Reading and writing *)

Lemma write_json_ok {T} `{Serde T, !SerdeLaws T} p (v : T) w w' u :
  Local.write_json p v w = (Ok u, w') →
  ∃ m b, w_fs w' = <[p := File m (Text b)]> (w_fs w) ∧ from_slice b = Ok v.
Proof.
  unfold Local.write_json. intros Hr. ok_inv. apply write_ok in Hr as [m ->].
  destruct (from_to_vec v) as (b & Hb & Hb'). exists m, b. split; [|done]. congruence.
Qed.

Lemma read_json_ok {T} `{Serde T} p (v : T) w w' :
  Local.read_json p w = (Ok v, w') → decode_file (w_fs w) p = Some v ∧ w_fs w' = w_fs w.
Proof.
  unfold Local.read_json. intros Hr. ok_inv. apply read_ok in Hrun as (m & c & Hc & -> & Hfs).
  unfold decode_file. by rewrite Hc, Hr.
Qed.

Lemma decode_insert {T} `{Serde T} fs p q m b (v : T) :
  from_slice b = Ok v →
  decode_file (<[p := File m (Text b)]> fs) q = if decide (p = q) then Some v else decode_file fs q.
Proof. intros Hb. unfold decode_file. rewrite lookup_insert. case_decide; [|done]. simpl. by rewrite Hb. Qed.

Lemma decode_ext {T} `{Serde T} fs fs' p :
  fs' !! p = fs !! p → (decode_file fs' p : option T) = decode_file fs p.
Proof. intros He. unfold decode_file. by rewrite He. Qed.

Lemma validate_id_inv {S} ws f (s s' : S) u :
  lift (validate_persisted_id ws f) s = (Ok u, s') → valid_id ws ∧ s' = s.
Proof. intros [Hv ->]%lift_ok_inv. destruct u. by apply validate_persisted_id_ok in Hv. Qed.

(** *** Listings *)

Lemma read_dir_ok p w names w' :
  fs_read_dir p w = (Ok names, w') → names = entries (w_fs w) p ∧ w_fs w' = w_fs w.
Proof.
  intros [Ha _]%io_op_ok. destruct p as [|x p]; [by simplify_eq/=|].
  destruct (w_fs w !! (x :: p)) as [[]|]; by simplify_eq/=.
Qed.

Lemma next_entry_ok w w' u : fs_next_entry w = (Ok u, w') → w_fs w' = w_fs w.
Proof. intros [Ha _]%io_op_ok. by simplify_eq/=. Qed.

Lemma read_entry_ok ws n w o w' :
  Local.read_entry root ws n w = (Ok o, w') →
  w_fs w' = w_fs w ∧
  if visible (w_fs w) ws n then ∃ r, o = Some r ∧ local_record_at (w_fs w) ws n = Some r else o = None.
Proof.
  unfold Local.read_entry. intros Hr. apply bind_ok_inv in Hr as (t & w1 & Ht & Hr).
  apply map_err_ok_inv, metadata_ok in Ht as [Ht Hfs1]. unfold visible. rewrite Ht.
  destruct t as [d|d c]; simpl in Hr; ok_inv; [..|done].
  - apply try_exists_ok in Hrun as [-> Hfs2]. simplify_eq/=.
    rewrite Hfs2, Hfs1 in *. case_bool_decide; [done|]. done.
  - apply try_exists_ok in Hrun as [-> Hfs2]. apply read_json_ok in Hr as [Hr Hfs3].
    rewrite Hfs3, Hfs2, Hfs1 in *. split; [done|]. case_bool_decide; [|done]. eauto.
Qed.

Lemma read_entries_ok ws names w rs w' :
  Local.read_entries root ws names w = (Ok rs, w') →
  w_fs w' = w_fs w ∧ mapM (local_record_at (w_fs w) ws) (List.filter (visible (w_fs w) ws) names) = Some rs.
Proof.
  revert w rs w'. induction names as [|n names IH]; intros w rs w' Hr.
  - cbn [Local.read_entries] in Hr. ok_inv. apply next_entry_ok in Hrun. done.
  - cbn [Local.read_entries] in Hr. ok_inv.
    apply next_entry_ok in Hrun. apply read_entry_ok in Hrun0 as [Hfs Ho]. apply IH in Hrun1 as [Hfs' Hm].
    rewrite Hfs', Hfs, Hrun in *. split; [done|]. cbn [List.filter].
    destruct (visible (w_fs w) ws n); [|by subst].
    destruct Ho as (r & -> & Hrec). cbn [mapM]. by rewrite Hrec, Hm.
Qed.

Lemma list_records_ok ws w rs w' :
  Local.list_checkpoint_records root ws w = (Ok rs, w') →
  records_of (w_fs w) ws = Some rs ∧ w_fs w' = w_fs w.
Proof.
  unfold Local.list_checkpoint_records, records_of. intros Hr.
  apply bind_ok_inv in Hr as (b & w1 & Hb & Hr). apply map_err_ok_inv, try_exists_ok in Hb as [-> Hfs].
  destruct (w_fs w !! Local.workspace_dir root ws) as [n|] eqn:E.
  - rewrite bool_decide_true in Hr by eauto. simpl in Hr. ok_inv.
    apply read_dir_ok in Hrun as [-> Hfs1]. apply read_entries_ok in Hrun0 as [Hfs2 Hm].
    rewrite Hfs2, Hfs1, Hfs in *. by rewrite Hm.
  - rewrite bool_decide_false in Hr by (intros []; done). simpl in Hr. ok_inv. by rewrite Hfs.
Qed.

Lemma sort_checkpoints_sorted l : StronglySorted (λ a b, checkpoint_le a b = true) (sort_checkpoints l).
Proof.
  apply (sort_by_key_sorted checkpoint_key (pair_le string_le)).
  - apply pair_le_total, string_le_total.
  - apply pair_le_trans, string_le_trans.
Qed.

(** In a tree, every record is in a listed directory. *)
Lemma record_visible fs ws id r :
  tree fs → local_record_at fs ws id = Some r →
  visible fs ws id = true ∧ id ∈ entries fs (Local.workspace_dir root ws) ∧
  is_Some (fs !! Local.workspace_dir root ws).
Proof.
  unfold local_record_at, decode_file. intros Ht Hr.
  destruct (fs !! Local.checkpoint_record_path root ws id) as [[|m c]|] eqn:E; try done.
  destruct (tree_ancestors _ _ _ Ht E (Local.checkpoint_dir root ws id)) as [d Hd].
  { exists ["record.json"]. unfold Local.checkpoint_record_path, Local.checkpoint_dir. by rewrite <-app_assoc. }
  { unfold Local.checkpoint_dir. by destruct root. }
  { unfold Local.checkpoint_record_path, Local.checkpoint_dir. intros ?%app_inv_head. done. }
  assert (Hpar : Local.checkpoint_dir root ws id = Local.workspace_dir root ws ++ [id]).
  { unfold Local.checkpoint_dir, Local.workspace_dir. by rewrite <-app_assoc. }
  split_and!.
  - unfold visible. rewrite Hd. by apply bool_decide_eq_true_2; rewrite E.
  - rewrite entries_elem, <-Hpar, Hd. eauto.
  - destruct (tree_lookup _ _ _ Ht Hd) as [Hp|[d' Hd']]; rewrite Hpar, parent_app in *; [|eauto].
    by destruct root.
Qed.

Lemma records_of_spec fs ws rs :
  tree fs → records_of fs ws = Some rs →
  StronglySorted (λ a b, checkpoint_le a b = true) rs ∧
  (∀ r, r ∈ rs ↔ ∃ id, local_record_at fs ws id = Some r) ∧
  ((∀ id r, local_record_at fs ws id = Some r → checkpoint_id r = id) → NoDup (map checkpoint_id rs)).
Proof.
  intros Ht. unfold records_of. destruct (fs !! Local.workspace_dir root ws) as [n|] eqn:E.
  - destruct (mapM _ _) as [l|] eqn:Em; [|done]. intros [= <-]. apply mapM_Some in Em.
    split; [apply sort_checkpoints_sorted|]. split.
    + intros r. unfold sort_checkpoints. rewrite sort_by_key_elem. split.
      * intros Hin. destruct (Forall2_elem_of_r _ _ _ _ Em Hin) as (id & _ & Hid). eauto.
      * intros [id Hid]. destruct (record_visible fs ws id r Ht Hid) as (Hv & Hin & _).
        assert (Hf : id ∈ List.filter (visible fs ws) (entries fs (Local.workspace_dir root ws))).
        { apply list_elem_of_In, filter_In. split; [by apply list_elem_of_In|done]. }
        destruct (Forall2_elem_of_l _ _ _ _ Em Hf) as (r' & Hr' & Hid'). congruence.
    + intros Hn. unfold sort_checkpoints. rewrite sort_by_key_perm.
      assert (Hids : map checkpoint_id l = List.filter (visible fs ws) (entries fs (Local.workspace_dir root ws))).
      { clear -Em Hn. induction Em as [|id r ids l Hid Hl IH]; [done|]. csimpl. rewrite IH. f_equal. eauto. }
      rewrite Hids. apply NoDup_ListNoDup, List.NoDup_filter, NoDup_ListNoDup, entries_NoDup.
  - intros [= <-]. split; [constructor|]. split; [|constructor]. intros r. split; [by intros ?%not_elem_of_nil|].
    intros [id Hid]. destruct (record_visible fs ws id r Ht Hid) as (_ & _ & [? ?]). congruence.
Qed.

(** *** Footprints *)

Ltac paths := unfold Local.workspace_dir, Local.checkpoint_dir, Local.checkpoint_record_path,
  Local.checkpoint_snapshot_path, Local.head_path in *.

(** Decides prefixes and equations between paths of the store. *)
Ltac path_solve := paths; repeat match goal with
  | H : _ ∨ _ |- _ => destruct H as [H|H]
  | H : _ `prefix_of` _ |- _ => let k := fresh "k" in destruct H as [k H]
  | H : (root ++ _) ++ _ = _ |- _ => rewrite <-app_assoc in H
  | H : _ = (root ++ _) ++ _ |- _ => rewrite <-app_assoc in H
  | H : root ++ _ = root ++ _ |- _ => apply app_inv_head in H; simplify_eq/=
  end; try done; try naive_solver.

Lemma under_dir ws l : near (Local.workspace_dir root ws) (root ++ ws :: l).
Proof. right. exists l. unfold Local.workspace_dir. by rewrite <-app_assoc. Qed.

Lemma near_prefix d q p : near d p → d `prefix_of` p → q `prefix_of` p → near d q.
Proof.
  intros _ Hd Hq. unfold near.
  destruct (prefix_weak_total d q p Hd Hq); [by right|by left].
Qed.

Lemma near_below ws l q : q `prefix_of` (root ++ ws :: l) → near (Local.workspace_dir root ws) q.
Proof.
  apply near_prefix; [apply under_dir|]. exists l. unfold Local.workspace_dir. by rewrite <-app_assoc.
Qed.

Lemma write_json_frame {T} `{Serde T} p (v : T) P : P p → keeps (frame P) (Local.write_json p v).
Proof. intros HP. unfold Local.write_json. keeps_tac. Qed.
Lemma read_json_frame {T} `{Serde T} p P : keeps (frame P) (Local.read_json p : M _ _ T).
Proof. unfold Local.read_json. keeps_tac. Qed.
Lemma write_json_tree {T} `{Serde T} p (v : T) : keeps (preserves tree_world) (Local.write_json p v).
Proof. unfold Local.write_json. keeps_tac. Qed.
Lemma read_json_tree {T} `{Serde T} p : keeps (preserves tree_world) (Local.read_json p : M _ _ T).
Proof. unfold Local.read_json. keeps_tac. Qed.
Hint Resolve write_json_frame read_json_frame write_json_tree read_json_tree : keeps.

Lemma read_entries_keeps (R : relation World) `{!PreOrder R} ws names :
  keeps R fs_next_entry → (∀ n, keeps R (Local.read_entry root ws n)) →
  keeps R (Local.read_entries root ws names).
Proof.
  intros Hn He. induction names as [|n names IH]; cbn [Local.read_entries]; keeps_tac; auto.
Qed.

Lemma list_records_frame ws P : keeps (frame P) (Local.list_checkpoint_records root ws).
Proof.
  unfold Local.list_checkpoint_records. keeps_tac.
  apply read_entries_keeps; [typeclasses eauto|auto with keeps|].
  intros n. unfold Local.read_entry. keeps_tac.
Qed.
Lemma list_records_tree ws : keeps (preserves tree_world) (Local.list_checkpoint_records root ws).
Proof.
  unfold Local.list_checkpoint_records. keeps_tac.
  apply read_entries_keeps; [typeclasses eauto|auto with keeps|].
  intros n. unfold Local.read_entry. keeps_tac.
Qed.
Hint Resolve list_records_frame list_records_tree : keeps.

Lemma create_chain_frame ws l :
  keeps (frame (near (Local.workspace_dir root ws))) (fs_create_dir_all (root ++ ws :: l)).
Proof. apply keeps_create_dir_all. intros q. apply near_below. Qed.

Lemma local_ensure_frame ws : keeps (frame (near (Local.workspace_dir root ws))) (Local.ensure_workspace root ws).
Proof.
  unfold Local.ensure_workspace. keeps_tac.
  - apply (create_chain_frame ws []).
  - apply write_json_frame, under_dir.
Qed.
Lemma local_ensure_tree ws : keeps (preserves tree_world) (Local.ensure_workspace root ws).
Proof. unfold Local.ensure_workspace. keeps_tac. Qed.
Hint Resolve local_ensure_frame local_ensure_tree : keeps.

Lemma local_set_head_frame ws h :
  keeps (frame (near (Local.workspace_dir root ws))) (Local.set_head_checkpoint_id root ws h).
Proof. unfold Local.set_head_checkpoint_id. keeps_tac. apply write_json_frame, under_dir. Qed.

Lemma local_save_frame l c :
  keeps (frame (near (Local.workspace_dir root (wl_workspace_id l)))) (Local.save_checkpoint root l c).
Proof.
  unfold Local.save_checkpoint, Local.copy_file. cbv zeta. keeps_tac.
  - apply (create_chain_frame _ [_]).
  - apply keeps_copy, under_dir.
  - apply write_json_frame, under_dir.
Qed.

Lemma local_delete_frame ws id :
  keeps (frame (near (Local.workspace_dir root ws))) (Local.delete_checkpoint root ws id).
Proof.
  unfold Local.delete_checkpoint. keeps_tac. apply keeps_remove_dir_all. intros q Hq. right.
  etrans; [|exact Hq]. exists [id]. paths. by rewrite <-app_assoc.
Qed.

Lemma local_save_tree l c : keeps (preserves tree_world) (Local.save_checkpoint root l c).
Proof. unfold Local.save_checkpoint, Local.copy_file. cbv zeta. keeps_tac. Qed.

Lemma local_delete_tree ws id : keeps (preserves tree_world) (Local.delete_checkpoint root ws id).
Proof. unfold Local.delete_checkpoint. keeps_tac. Qed.

(** *** Observations depend on the workspace's directory only *)

Lemma local_obs_ext fs fs' ws id :
  agree_under (Local.workspace_dir root ws) fs fs' →
  local_record_at fs' ws id = local_record_at fs ws id ∧ local_snapshot_at fs' ws id = local_snapshot_at fs ws id.
Proof.
  intros Ha. unfold local_record_at, local_snapshot_at. split; [apply decode_ext|]; rewrite Ha; try done.
  - exists [id; "record.json"]. paths. by rewrite <-app_assoc.
  - exists [id; "workspace.raw"]. paths. by rewrite <-app_assoc.
Qed.

Lemma records_of_ext fs fs' ws :
  fs' !! Local.workspace_dir root ws = fs !! Local.workspace_dir root ws →
  (∀ n, is_Some (fs' !! (Local.workspace_dir root ws ++ [n])) ↔ is_Some (fs !! (Local.workspace_dir root ws ++ [n]))) →
  (∀ id, visible fs' ws id = visible fs ws id ∧ local_record_at fs' ws id = local_record_at fs ws id) →
  records_of fs' ws = records_of fs ws.
Proof.
  intros Hd He Hv. unfold records_of. rewrite Hd. rewrite (entries_ext fs' fs) by done.
  destruct (fs !! _); [|done]. f_equal.
  rewrite (List.filter_ext (visible fs' ws) (visible fs ws)) by apply Hv.
  apply mapM_ext. intros id. apply Hv.
Qed.

Lemma local_head_ext fs fs' ws :
  agree_under (Local.workspace_dir root ws) fs fs' → local_head_at fs' ws = local_head_at fs ws.
Proof.
  intros Ha. assert (Hu : ∀ l, fs' !! (root ++ ws :: l) = fs !! (root ++ ws :: l)).
  { intros l. apply Ha. exists l. paths. by rewrite <-app_assoc. }
  unfold local_head_at, Local.head_path. rewrite Hu. destruct (fs !! _).
  - f_equal. by apply decode_ext.
  - f_equal. apply records_of_ext.
    + apply Hu.
    + intros n. paths. rewrite <-app_assoc. cbn [app]. by rewrite Hu.
    + intros id. split; [|by apply local_obs_ext]. unfold visible. paths. by rewrite !Hu.
Qed.

(** *** Successful operations *)

Lemma head_file_dir fs ws n : tree fs → fs !! Local.head_path root ws = Some n →
  ∃ m, fs !! Local.workspace_dir root ws = Some (Dir m).
Proof.
  intros Ht Hn. eapply tree_ancestors; [done|exact Hn|..].
  - exists ["head.json"]. paths. by rewrite <-app_assoc.
  - paths. by destruct root.
  - paths. intros ?%app_inv_head. done.
Qed.

(** Writing the head changes neither records nor snapshots. *)
Lemma obs_insert_head fs ws ws' id n :
  local_record_at (<[Local.head_path root ws := n]> fs) ws' id = local_record_at fs ws' id ∧
  local_snapshot_at (<[Local.head_path root ws := n]> fs) ws' id = local_snapshot_at fs ws' id.
Proof.
  unfold local_record_at, local_snapshot_at. rewrite (decode_ext fs); rewrite ?lookup_insert_ne; try done;
    paths; intros ?%app_inv_head; done.
Qed.

Lemma obs_chain fs ws l ws' id :
  length l ≤ 1 →
  local_record_at (fs ∪ dir_chain (root ++ ws :: l)) ws' id = local_record_at fs ws' id ∧
  local_snapshot_at (fs ∪ dir_chain (root ++ ws :: l)) ws' id = local_snapshot_at fs ws' id.
Proof.
  intros Hl. assert (Hc : ∀ x, (fs ∪ dir_chain (root ++ ws :: l)) !! (root ++ [ws'; id; x]) = fs !! (root ++ [ws'; id; x])).
  { intros x. rewrite lookup_union. destruct (dir_chain _ !! _) eqn:E; [|apply (right_id None _)].
    exfalso. assert (Hs : is_Some (dir_chain (root ++ ws :: l) !! (root ++ [ws'; id; x]))) by eauto.
    apply dir_chain_lookup in Hs as [Hp _]. apply prefix_length in Hp. rewrite !length_app in Hp.
    simpl in Hp. lia. }
  unfold local_record_at, local_snapshot_at. rewrite (decode_ext fs); paths; by rewrite ?Hc.
Qed.

(** A workspace whose directory is missing has no checkpoints, also once the
    directory is made. *)
Lemma records_of_new fs ws :
  tree fs → fs !! Local.workspace_dir root ws = None →
  records_of (fs ∪ dir_chain (Local.workspace_dir root ws)) ws = Some [].
Proof.
  intros Ht Hd. unfold records_of. destruct ((fs ∪ _) !! _) as [d|]; [|done].
  assert (He : entries (fs ∪ dir_chain (Local.workspace_dir root ws)) (Local.workspace_dir root ws) = []).
  { apply elem_of_nil_inv. intros n. rewrite entries_elem. intros [x [Hx|[_ Hx]]%lookup_union_Some_raw].
    - destruct (tree_lookup fs _ _ Ht Hx) as [Hp|[m Hm]]; rewrite parent_app in *; [|congruence].
      unfold Local.workspace_dir in Hp. by destruct root.
    - assert (Hs : is_Some (dir_chain (Local.workspace_dir root ws) !! (Local.workspace_dir root ws ++ [n]))) by eauto.
      apply dir_chain_lookup in Hs as [Hp _]. apply prefix_length in Hp. rewrite length_app in Hp. simpl in Hp. lia. }
  by rewrite He.
Qed.

Lemma local_ensure_ok ws w w' :
  tree_world w → Local.ensure_workspace root ws w = (Ok (), w') →
  valid_id ws ∧ local_head_saved (w_fs w') ws ∧ local_head_at (w_fs w') ws = local_head_at (w_fs w) ws ∧
  ∀ id, local_record_at (w_fs w') ws id = local_record_at (w_fs w) ws id ∧
        local_snapshot_at (w_fs w') ws id = local_snapshot_at (w_fs w) ws id.
Proof.
  unfold Local.ensure_workspace. intros Ht Hr.
  apply bind_ok_inv in Hr as ([] & w0 & [Hv ->]%validate_id_inv & Hr). split; [done|].
  apply bind_ok_inv in Hr as ([] & w1 & Hc%map_err_ok_inv & Hr).
  pose proof (create_dir_all_free _ _ _ _ Hc) as Hfree. apply create_dir_all_ok in Hc.
  apply bind_ok_inv in Hr as (b & w2 & Hb & Hr).
  apply map_err_ok_inv, try_exists_ok in Hb as [-> Hfs2].
  assert (Hhead : w_fs w1 !! Local.head_path root ws = w_fs w !! Local.head_path root ws).
  { rewrite Hc. rewrite lookup_union. destruct (dir_chain _ !! _) eqn:E; [|apply (right_id None _)].
    exfalso. assert (Hs : is_Some (dir_chain (Local.workspace_dir root ws) !! Local.head_path root ws)) by eauto.
    apply dir_chain_lookup in Hs as [Hp _]. path_solve. }
  pose proof (λ id, obs_chain (w_fs w) ws [] ws id (Nat.le_0_l 1)) as Hobs.
  fold (Local.workspace_dir root ws) in Hobs. rewrite <-Hc in Hobs.
  destruct (w_fs w !! Local.head_path root ws) as [n|] eqn:E.
  - rewrite bool_decide_true in Hr by (rewrite Hhead; eauto). simpl in Hr. ok_inv.
    rewrite Hfs2. unfold local_head_saved. rewrite Hhead. split_and!; [eauto| |done].
    unfold local_head_at. rewrite Hhead, E. f_equal. apply decode_ext. congruence.
  - rewrite bool_decide_false in Hr by (rewrite Hhead; intros []; done). simpl in Hr. ok_inv.
    apply list_records_ok in Hrun as [Hl Hfs3]. apply write_json_ok in Hr as (m & b & Hfs4 & Hb).
    rewrite Hfs4, Hfs3, Hfs2. split_and!.
    + unfold local_head_saved. rewrite lookup_insert_eq. eauto.
    + unfold local_head_at at 1. rewrite lookup_insert_eq, (decode_insert _ _ _ _ _ _ Hb), decide_True by done.
      simpl. unfold local_head_at. rewrite E. rewrite Hfs2 in Hl.
      destruct (w_fs w !! Local.workspace_dir root ws) as [[d|d c]|] eqn:Ed.
      * rewrite Hc, (chain_noop _ _ d) in Hl by done. by rewrite Hl.
      * exfalso. eapply (proj1 (dir_free_spec _ _) Hfree); [reflexivity| |exact Ed]. paths. by destruct root.
      * rewrite Hc, records_of_new in Hl by done. simplify_eq. unfold records_of. by rewrite Ed.
    + intros id. rewrite (proj1 (obs_insert_head _ _ _ _ _)), (proj2 (obs_insert_head _ _ _ _ _)). apply Hobs.
Qed.

Lemma local_head_ok ws w h w' :
  Local.head_checkpoint_id root ws w = (Ok h, w') → local_head_at (w_fs w) ws = Some h.
Proof.
  unfold Local.head_checkpoint_id. intros Hr.
  apply bind_ok_inv in Hr as ([] & w0 & [Hv ->]%validate_id_inv & Hr).
  apply bind_ok_inv in Hr as (b & w2 & Hb & Hr).
  apply map_err_ok_inv, try_exists_ok in Hb as [-> Hfs]. unfold local_head_at.
  destruct (w_fs w !! Local.head_path root ws) as [n|] eqn:E.
  - rewrite bool_decide_true in Hr by eauto. ok_inv. apply read_json_ok in Hrun as [Hd _].
    rewrite Hfs in Hd. by rewrite Hd.
  - rewrite bool_decide_false in Hr by (intros []; done). ok_inv.
    apply list_records_ok in Hrun as [Hl _]. rewrite Hfs in Hl. by rewrite Hl.
Qed.

Lemma local_set_head_ok ws h w w' :
  tree_world w → Local.set_head_checkpoint_id root ws h w = (Ok (), w') →
  local_head_saved (w_fs w') ws ∧ local_head_at (w_fs w') ws = Some h ∧
  ∀ id, local_record_at (w_fs w') ws id = local_record_at (w_fs w) ws id ∧
        local_snapshot_at (w_fs w') ws id = local_snapshot_at (w_fs w) ws id.
Proof.
  unfold Local.set_head_checkpoint_id. intros Ht Hr. ok_inv.
  match goal with H : Local.ensure_workspace _ _ _ = (Ok ?u, _) |- _ =>
    destruct u; apply local_ensure_ok in H as (_ & _ & _ & Hobs); [|done] end.
  apply write_json_ok in Hr as (m & b & -> & Hb). split_and!.
  - unfold local_head_saved. rewrite lookup_insert_eq. eauto.
  - unfold local_head_at. by rewrite lookup_insert_eq, (decode_insert _ _ _ _ _ _ Hb), decide_True.
  - intros id. rewrite (proj1 (obs_insert_head _ _ _ _ _)), (proj2 (obs_insert_head _ _ _ _ _)). apply Hobs.
Qed.

(** The observations after the files of one checkpoint are written. *)
Lemma obs_insert_checkpoint fs ws id m d m' b (c : WorkspaceCheckpointRecord) id' :
  from_slice b = Ok c →
  let fs' := <[Local.checkpoint_record_path root ws id := File m' (Text b)]>
               (<[Local.checkpoint_snapshot_path root ws id := File m d]> fs) in
  local_record_at fs' ws id' = (if decide (id' = id) then Some c else local_record_at fs ws id') ∧
  local_snapshot_at fs' ws id' = (if decide (id' = id) then Some d else local_snapshot_at fs ws id').
Proof.
  intros Hb fs'. unfold fs', local_record_at, local_snapshot_at.
  rewrite (decode_insert _ _ _ _ _ _ Hb). split.
  - destruct (decide (id' = id)) as [->|Hne]; [by rewrite decide_True|].
    rewrite decide_False by (paths; intros ?%app_inv_head; naive_solver).
    apply decode_ext, lookup_insert_ne. paths. intros ?%app_inv_head. naive_solver.
  - rewrite lookup_insert_ne by (paths; intros ?%app_inv_head; naive_solver). rewrite lookup_insert.
    destruct (decide (id' = id)) as [->|Hne]; [by rewrite decide_True|].
    rewrite decide_False by (paths; intros ?%app_inv_head; naive_solver). done.
Qed.

Lemma head_saved_ext fs fs' ws :
  fs' !! Local.head_path root ws = fs !! Local.head_path root ws → local_head_saved fs ws →
  local_head_saved fs' ws ∧ local_head_at fs' ws = local_head_at fs ws.
Proof.
  unfold local_head_saved, local_head_at. intros He [n Hn]. rewrite He, Hn. split; [eauto|].
  f_equal. by apply decode_ext.
Qed.

(** Identifiers name no file of the store's own. *)
Lemma valid_id_not_head id : valid_id id → id ≠ "head.json".
Proof. by intros [_ Hv] ->. Qed.

Lemma local_save_ok l c w w' :
  tree_world w →
  (∀ q, near (Local.workspace_dir root (wl_workspace_id l)) q → wl_disk_path l ≠ q) →
  Local.save_checkpoint root l c w = (Ok (), w') →
  ∃ m d, w_fs w !! wl_disk_path l = Some (File m d) ∧
  let ws := wl_workspace_id l in
  cs_workspace_id (cr_summary c) = ws ∧
  (∀ id, local_record_at (w_fs w') ws id =
     if decide (id = checkpoint_id c) then Some c else local_record_at (w_fs w) ws id) ∧
  (∀ id, local_snapshot_at (w_fs w') ws id =
     if decide (id = checkpoint_id c) then Some d else local_snapshot_at (w_fs w) ws id) ∧
  local_head_saved (w_fs w') ws ∧ local_head_at (w_fs w') ws = local_head_at (w_fs w) ws.
Proof.
  unfold Local.save_checkpoint, Local.copy_file. cbv zeta. intros Ht Hdisk Hr.
  set (ws := wl_workspace_id l) in *. set (id := checkpoint_id c) in *.
  apply bind_ok_inv in Hr as ([] & w0 & [Hws ->]%validate_id_inv & Hr).
  apply bind_ok_inv in Hr as ([] & w0 & [_ ->]%validate_id_inv & Hr).
  apply bind_ok_inv in Hr as ([] & w0 & [Hid ->]%validate_id_inv & Hr).
  apply bind_ok_inv in Hr as ([] & w0 & [_ <-]%lift_ok_inv & Hr).
  destruct (String.eqb_spec (cs_workspace_id (cr_summary c)) ws) as [Hcw|]; [|done]. simpl in Hr.
  apply bind_ok_inv in Hr as ([] & w1 & He & Hr).
  pose proof (local_ensure_frame ws w) as Hf1. rewrite He in Hf1. simpl in Hf1.
  apply local_ensure_ok in He as (_ & Hs & Hh & Hobs); [|done].
  ok_inv. apply create_dir_all_ok in Hrun. rename Hrun into Hc.
  apply copy_ok in Hrun0 as (m & d & Hd & Hfs2). apply write_json_ok in Hr as (m' & b & Hfs3 & Hb).
  exists m, d.
  assert (Hchain : ∀ q, ¬ near (Local.workspace_dir root ws) q →
    (w_fs w1 ∪ dir_chain (Local.checkpoint_dir root ws id)) !! q = w_fs w !! q).
  { intros q Hq. rewrite (frame_fs_chain (near (Local.workspace_dir root ws))); [by apply Hf1| |done].
    intros q'. apply (near_below ws [id]). }
  rewrite Hc, Hchain in Hd by (intros Hq; by apply (Hdisk _ Hq)).
  split; [done|]. split; [done|]. rewrite Hfs3, Hfs2, Hc.
  pose proof (λ id', obs_chain (w_fs w1) ws [id] ws id' (le_n 1)) as Hob2.
  fold (Local.checkpoint_dir root ws id) in Hob2.
  split; [|split].
  - intros id'. rewrite (proj1 (obs_insert_checkpoint _ _ _ _ _ _ _ _ id' Hb)).
    case_decide; [done|]. rewrite (proj1 (Hob2 id')). apply Hobs.
  - intros id'. rewrite (proj2 (obs_insert_checkpoint _ _ _ _ _ _ _ _ id' Hb)).
    case_decide; [done|]. rewrite (proj2 (Hob2 id')). apply Hobs.
  - rewrite <-Hh. apply head_saved_ext; [|done].
    rewrite !lookup_insert_ne by (paths; intros ?%app_inv_head; done).
    rewrite lookup_union. destruct (dir_chain _ !! _) eqn:E; [|apply (right_id None _)].
    exfalso. assert (Hx : is_Some (dir_chain (Local.checkpoint_dir root ws id) !! Local.head_path root ws)) by eauto.
    apply dir_chain_lookup in Hx as [[k Hp] _]. paths. rewrite <-app_assoc in Hp. apply app_inv_head in Hp.
    simplify_eq/=. by apply valid_id_not_head in Hid.
Qed.

Lemma local_load_ok ws id w o w' :
  Local.load_checkpoint root ws id w = (Ok o, w') → local_record_at (w_fs w) ws id = o.
Proof.
  unfold Local.load_checkpoint. intros Hr.
  apply bind_ok_inv in Hr as ([] & w0 & [_ ->]%validate_id_inv & Hr).
  apply bind_ok_inv in Hr as ([] & w0 & [_ ->]%validate_id_inv & Hr).
  apply bind_ok_inv in Hr as (b & w2 & Hb & Hr).
  apply map_err_ok_inv, try_exists_ok in Hb as [-> Hfs]. unfold local_record_at.
  destruct (w_fs w !! Local.checkpoint_record_path root ws id) as [n|] eqn:E.
  - rewrite bool_decide_true in Hr by eauto. simpl in Hr. ok_inv.
    apply read_json_ok in Hr as [Hd _]. by rewrite Hfs in Hd.
  - rewrite bool_decide_false in Hr by (intros []; done). simpl in Hr. ok_inv.
    unfold decode_file. by rewrite E.
Qed.

Lemma filter_lookup_out fs d q :
  ¬ d `prefix_of` q → filter (λ kv : path * node, ¬ d `prefix_of` kv.1) fs !! q = fs !! q.
Proof.
  intros Hq. destruct (fs !! q) as [n|] eqn:E.
  - by apply map_lookup_filter_Some.
  - apply map_lookup_filter_None. by left.
Qed.

Lemma filter_lookup_in fs d q :
  d `prefix_of` q → filter (λ kv : path * node, ¬ d `prefix_of` kv.1) fs !! q = None.
Proof. intros Hq. apply map_lookup_filter_None. right. simpl. naive_solver. Qed.

Lemma obs_no_checkpoint fs ws id :
  tree fs → fs !! Local.checkpoint_dir root ws id = None →
  local_record_at fs ws id = None ∧ local_snapshot_at fs ws id = None.
Proof.
  intros Ht Hd.
  assert (Hn : ∀ x, fs !! (root ++ [ws; id; x]) = None).
  { intros x. destruct (fs !! (root ++ [ws; id; x])) as [n|] eqn:E; [|done].
    destruct (tree_ancestors _ _ _ Ht E (Local.checkpoint_dir root ws id)) as [m Hm]; [..|congruence].
    - exists [x]. paths. by rewrite <-app_assoc.
    - paths. by destruct root.
    - paths. intros ?%app_inv_head. done. }
  unfold local_record_at, local_snapshot_at, decode_file. paths. by rewrite !Hn.
Qed.

Lemma obs_delete_checkpoint fs ws id id' :
  let fs' := filter (λ kv : path * node, ¬ Local.checkpoint_dir root ws id `prefix_of` kv.1) fs in
  local_record_at fs' ws id' = (if decide (id' = id) then None else local_record_at fs ws id') ∧
  local_snapshot_at fs' ws id' = (if decide (id' = id) then None else local_snapshot_at fs ws id').
Proof.
  cbv zeta. unfold local_record_at, local_snapshot_at. destruct (decide (id' = id)) as [->|Hne].
  - assert (Hp : ∀ x, Local.checkpoint_dir root ws id `prefix_of` (root ++ [ws; id; x])).
    { intros x. exists [x]. paths. by rewrite <-app_assoc. }
    unfold decode_file. paths. by rewrite !filter_lookup_in by apply Hp.
  - assert (Hp : ∀ x, ¬ Local.checkpoint_dir root ws id `prefix_of` (root ++ [ws; id'; x])).
    { intros x Hx. path_solve. }
    split; [apply decode_ext|]; paths; by rewrite filter_lookup_out by apply Hp.
Qed.

Lemma local_delete_ok ws id w w' :
  tree_world w → Local.delete_checkpoint root ws id w = (Ok (), w') →
  (∀ id', local_record_at (w_fs w') ws id' = if decide (id' = id) then None else local_record_at (w_fs w) ws id') ∧
  (∀ id', local_snapshot_at (w_fs w') ws id' =
     if decide (id' = id) then None else local_snapshot_at (w_fs w) ws id') ∧
  (local_head_saved (w_fs w) ws →
     local_head_saved (w_fs w') ws ∧ local_head_at (w_fs w') ws = local_head_at (w_fs w) ws).
Proof.
  unfold Local.delete_checkpoint. intros Ht Hr.
  apply bind_ok_inv in Hr as ([] & w0 & [_ ->]%validate_id_inv & Hr).
  apply bind_ok_inv in Hr as ([] & w0 & [Hid ->]%validate_id_inv & Hr).
  apply bind_ok_inv in Hr as (b & w2 & Hb & Hr).
  apply map_err_ok_inv, try_exists_ok in Hb as [-> Hfs].
  destruct (w_fs w !! Local.checkpoint_dir root ws id) as [n|] eqn:E.
  - rewrite bool_decide_true in Hr by eauto. ok_inv. apply remove_dir_all_ok in Hr. rewrite Hr, Hfs.
    split; [|split]; [intros id'; apply obs_delete_checkpoint..|].
    apply head_saved_ext, filter_lookup_out. intros Hp. path_solve. by apply valid_id_not_head in Hid.
  - rewrite bool_decide_false in Hr by (intros []; done). ok_inv. rewrite Hfs.
    destruct (obs_no_checkpoint _ _ _ Ht E) as [Hr Hs].
    split_and!; [intros id'; case_decide; by subst..|done].
Qed.

Lemma local_copy_ok ws id p w w' :
  Local.copy_checkpoint_snapshot root ws id p w = (Ok (), w') →
  ∃ m c, local_snapshot_at (w_fs w) ws id = Some c ∧ w_fs w' = <[p := File m c]> (w_fs w).
Proof.
  unfold Local.copy_checkpoint_snapshot, Local.copy_file. intros Hr.
  apply bind_ok_inv in Hr as ([] & w0 & [_ ->]%validate_id_inv & Hr).
  apply bind_ok_inv in Hr as ([] & w0 & [_ ->]%validate_id_inv & Hr).
  ok_inv. apply copy_ok in Hr as (m & c & Hc & ->). exists m, c. unfold local_snapshot_at. by rewrite Hc.
Qed.

Lemma local_list_ok ws w rs w' :
  tree_world w → Local.list_checkpoints root ws w = (Ok rs, w') →
  StronglySorted (λ a b, checkpoint_le a b = true) rs ∧
  (∀ r, r ∈ rs ↔ ∃ id, local_record_at (w_fs w) ws id = Some r) ∧
  ((∀ id r, local_record_at (w_fs w) ws id = Some r → checkpoint_id r = id) → NoDup (map checkpoint_id rs)).
Proof.
  unfold Local.list_checkpoints. intros Ht Hr.
  apply bind_ok_inv in Hr as ([] & w0 & [_ ->]%validate_id_inv & Hr).
  apply list_records_ok in Hr as [Hl _]. by apply records_of_spec.
Qed.

#[local, refine] Instance local_spec : LineageSpec local_store := {|
  lineage_dir := Local.workspace_dir root;
  record_at := local_record_at;
  snapshot_at := local_snapshot_at;
  head_at := local_head_at;
  head_saved := local_head_saved;
|}.
Proof.
  - intros ws fs fs' Ha. split_and!; [intros id; by apply local_obs_ext|by apply local_head_ext|].
    unfold local_head_saved. rewrite Ha; [done|]. exists ["head.json"]. paths. by rewrite <-app_assoc.
  - intros ws ws' q Hne Hq. by eapply near_sibling.
  - apply local_ensure_frame.
  - apply local_set_head_frame.
  - apply local_save_frame.
  - apply local_delete_frame.
  - intros ws. cbn. unfold Local.head_checkpoint_id. keeps_tac.
  - intros ws id. cbn. unfold Local.load_checkpoint. keeps_tac.
  - intros ws. cbn. unfold Local.list_checkpoints. keeps_tac.
  - intros ws id p. cbn. unfold Local.copy_checkpoint_snapshot, Local.copy_file. keeps_tac.
  - apply local_ensure_tree.
  - intros ws h. cbn. unfold Local.set_head_checkpoint_id. keeps_tac.
  - apply local_save_tree.
  - apply local_delete_tree.
  - intros ws id p. cbn. unfold Local.copy_checkpoint_snapshot, Local.copy_file. keeps_tac.
  - apply local_ensure_ok.
  - apply local_head_ok.
  - apply local_set_head_ok.
  - apply local_save_ok.
  - apply local_load_ok.
  - apply local_list_ok.
  - apply local_delete_ok.
  - apply local_copy_ok.
Defined.
End local_spec.
