(* ===== verification/Workspace.v ===== *)
(** * Workspace: [src/workspace/store.rs] and [src/workspace/checkpoints.rs]

    The workspace disks, the run directories of sandboxes, and checkpoints of a
    workspace on top of the lineage interface. *)

From S2P Require Import Prelude RustStd Paths FileSystem PrivateFs FsTree Manifest Lineage.

(** ** What is not under [src/]: the ext4 library and the e2fsprogs tools *)

Class Ext4 := {
  (** [FileBlockDevice::open] on a file with these contents *)
  block_device_open : content → Result string ();
  block_device_missing : string;
  (** [mkfs] with a block size and a label: the outcome and what it wrote *)
  mkfs : Z → string → content → Result string () * content;
  (** [Command::new(program).args(args).status()] on a disk image: the exit code
      ([None] for a signal) and the image afterwards *)
  run_program : string → list string → option content → Result IoError (option Z * content);
  geteuid : Z;
}.

Record RunLayout := mkRun {
  rl_sandbox_id : Uuid;
  rl_root_dir : path;
  rl_runtime_dir : path;
  rl_vsock_socket : path;
  rl_runner_config : path;
  rl_runner_log : path;
  rl_guest_console_log : path;
}.

Inductive CheckpointRestoreMode := Rollback | Replace.

#[global] Instance CheckpointRestoreMode_eq_decision : EqDecision CheckpointRestoreMode.
Proof. solve_decision. Defined.

Section store.
Context `{Platform, Ext4, WorkspaceLineageStore} (state_dir : path) (disk_size_mib : Z).

(** ** Directories *)

Definition workspaces_dir : path := state_dir ++ ["workspaces"].
Definition runs_dir : path := state_dir ++ ["runs"].
Definition checkpoints_dir : path := state_dir ++ ["checkpoints"].
Definition vsock_dir : path := ["tmp"; "sagens-vsock-" ^+ pretty geteuid].
Definition vsock_socket_path (sandbox_id : Uuid) : path :=
  vsock_dir ++ [uuid_simple sandbox_id ^+ ".sock"].
Definition workspace_dir (workspace_id : string) : path := state_dir ++ ["workspaces"; workspace_id].
Definition workspace_disk (workspace_id : string) : path :=
  state_dir ++ ["workspaces"; workspace_id; "workspace.raw"].
Definition workspace_checkpoints_dir (workspace_id : string) : path :=
  state_dir ++ ["checkpoints"; workspace_id].

Definition create_private_dir (p : path) : M SandboxError World () :=
  ensure_private_dir p "creating runtime state directory".

Definition ensure_layout : M SandboxError World () :=
  for_each create_private_dir [workspaces_dir; runs_dir; checkpoints_dir; vsock_dir].

(** ** Disks *)

(** [size_mib * 1024 * 1024] at 64 bits. *)
Definition mib_bytes (size_mib : Z) : Z := (size_mib * 1024 * 1024) mod 2 ^ 64.

Definition format_ext4 (disk_path : path) : M SandboxError World () := λ w,
  match w_fs w !! disk_path with
  | Some (File m c) =>
      match block_device_open c with
      | Err e => (Err (Backend ("opening ext4 workspace image: " ^+ e)), w)
      | Ok _ =>
          let '(r, c') := mkfs 4096 "workspace" c in
          let w' := set_fs (<[disk_path := File m c']> (w_fs w)) w in
          match r with
          | Ok _ => (Ok (), w')
          | Err e => (Err (Backend ("formatting ext4 workspace image: " ^+ e)), w')
          end
      end
  | _ => (Err (Backend ("opening ext4 workspace image: " ^+ block_device_missing)), w)
  end.

(** The branch of [prepare_workspace] for a missing disk. *)
Definition create_disk (disk_path : path) : M SandboxError World () :=
  map_err (Io "creating workspace disk") (fs_file_create disk_path);;
  map_err (Io "sizing workspace disk") (fs_set_len disk_path (mib_bytes disk_size_mib));;
  format_ext4 disk_path.

Definition prepare_workspace (workspace_id : string) : M SandboxError World WorkspaceLease :=
  lift (validate_persisted_id workspace_id "workspace_id");;
  let disk_path := workspace_disk workspace_id in
  create_private_dir (workspace_dir workspace_id);;
  ensure_workspace workspace_id;;
  present ← map_err (Io "checking workspace disk") (fs_try_exists disk_path);
  (if negb present then create_disk disk_path else mret ());;
  mret {| wl_workspace_id := workspace_id; wl_disk_path := disk_path |}.

(** [Metadata::len]; the length a directory reports is the host's. *)
Definition node_len (n : node) : Z := match n with File _ c => content_len c | Dir _ => 4096 end.

Definition workspace_disk_size_mib (workspace_id : string) : M SandboxError World Z :=
  lift (validate_persisted_id workspace_id "workspace_id");;
  metadata ← map_err (Io "reading workspace disk metadata") (fs_metadata (workspace_disk workspace_id));
  mret (node_len metadata / (1024 * 1024))%Z.

Definition run_command (program : string) (args : list string) (disk_path : path) :
    M IoError World (option Z) :=
  io_op (λ fs, match fs !! disk_path with
               | Some (File m c) =>
                   '(code, c') ← run_program program args (Some c);
                   Ok (code, <[disk_path := File m c']> fs)
               | _ => '(code, _) ← run_program program args None; Ok (code, fs)
               end) atomic.

(** The loops of [resize_ext4] and [check_ext4] over the candidate commands. *)
Fixpoint first_accepted (accept : option Z → bool) (commands : list (string * list string))
    (disk_path : path) (missing : string) : M SandboxError World () :=
  match commands with
  | [] => throw (UnsupportedHost missing)
  | (program, args) :: rest =>
      status ← attempt (run_command program args disk_path);
      match status with
      | Ok code => if accept code then mret () else first_accepted accept rest disk_path missing
      | Err e =>
          if bool_decide (io_kind e = KNotFound) then first_accepted accept rest disk_path missing
          else throw (Io ("spawning " ^+ program) e)
      end
  end.

Definition resize_ext4_commands (disk_path : path) (size_mib : Z) : list (string * list string) :=
  [("resize2fs", [display disk_path; pretty size_mib ^+ "M"]);
   ("/opt/homebrew/opt/e2fsprogs/sbin/resize2fs", [display disk_path; pretty size_mib ^+ "M"])].

Definition ext4_check_commands (disk_path : path) : list (string * list string) :=
  [("e2fsck", ["-f"; "-y"; display disk_path]);
   ("/opt/homebrew/opt/e2fsprogs/sbin/e2fsck", ["-f"; "-y"; display disk_path])].

Definition resize_ext4 (disk_path : path) (size_mib : Z) : M SandboxError World () :=
  first_accepted (λ code, bool_decide (code = Some 0%Z)) (resize_ext4_commands disk_path size_mib) disk_path
    "ext4 resize tooling not found; install resize2fs".

Definition check_ext4 (disk_path : path) : M SandboxError World () :=
  first_accepted (λ code, bool_decide (code = Some 0%Z ∨ code = Some 1%Z)) (ext4_check_commands disk_path)
    disk_path "ext4 consistency tooling not found; install e2fsck".

Definition fs_open_rw (p : path) : M IoError World () :=
  io_op (λ fs, match fs !! p with
               | Some (File _ _) => Ok ((), fs)
               | Some (Dir _) => Err EISDIR
               | None => Err ENOENT
               end) atomic.

Definition resize_file_len (disk_path : path) (size_mib : Z) : M SandboxError World () :=
  map_err (Io "opening workspace disk for resize") (fs_open_rw disk_path);;
  map_err (Io "resizing workspace disk file") (fs_set_len disk_path (mib_bytes size_mib)).

Definition resize_workspace (workspace_id : string) (new_size_mib : Z) : M SandboxError World () :=
  lift (validate_persisted_id workspace_id "workspace_id");;
  if (new_size_mib <? 64)%Z then throw (InvalidConfig "workspace disk must be at least 64 MiB")
  else
    lease ← prepare_workspace workspace_id;
    current_size_mib ← workspace_disk_size_mib workspace_id;
    if (current_size_mib =? new_size_mib)%Z then mret ()
    else
      check_ext4 (wl_disk_path lease);;
      if (current_size_mib <? new_size_mib)%Z then
        resize_file_len (wl_disk_path lease) new_size_mib;;
        resize_ext4 (wl_disk_path lease) new_size_mib
      else
        resize_ext4 (wl_disk_path lease) new_size_mib;;
        resize_file_len (wl_disk_path lease) new_size_mib;;
        check_ext4 (wl_disk_path lease).

Definition remove_if_present (check remove : string) (dir : path) : M SandboxError World () :=
  present ← map_err (Io check) (fs_try_exists dir);
  if present : bool then map_err (Io remove) (fs_remove_dir_all dir) else mret ().

Definition remove_workspace (workspace_id : string) : M SandboxError World () :=
  lift (validate_persisted_id workspace_id "workspace_id");;
  for_each (remove_if_present "checking workspace state path" "removing workspace state path")
    [workspace_dir workspace_id; workspace_checkpoints_dir workspace_id].

(** ** Run directories *)

Definition run_layout (sandbox_id : Uuid) : RunLayout :=
  let root_dir := state_dir ++ ["runs"; uuid_to_string sandbox_id] in
  mkRun sandbox_id root_dir (root_dir ++ ["runtime"]) (vsock_socket_path sandbox_id)
    (root_dir ++ ["libkrun-runner.json"]) (root_dir ++ ["libkrun-runner.log"])
    (root_dir ++ ["guest-console.log"]).

Definition prepare_run : M SandboxError World RunLayout :=
  sandbox_id ← new_v4;
  let run := run_layout sandbox_id in
  create_private_dir (rl_root_dir run);;
  create_private_dir (rl_runtime_dir run);;
  create_private_dir vsock_dir;;
  mret run.

Definition remove_file_if_present (check remove : string) (p : path) : M SandboxError World () :=
  present ← map_err (Io check) (fs_try_exists p);
  if present : bool then map_err (Io remove) (fs_remove_file p) else mret ().

Definition recycle_run (run : RunLayout) : M SandboxError World RunLayout :=
  sandbox_id ← new_v4;
  let next := run_layout sandbox_id in
  create_private_dir vsock_dir;;
  present ← map_err (Io "checking recycled run root") (fs_try_exists (rl_root_dir run));
  (if present : bool
   then map_err (Io "recycling run root") (fs_rename (rl_root_dir run) (rl_root_dir next))
   else create_private_dir (rl_root_dir next));;
  create_private_dir (rl_runtime_dir next);;
  (if decide (rl_vsock_socket run ≠ rl_vsock_socket next)
   then remove_file_if_present "checking recycled vsock socket path" "removing recycled vsock socket path"
          (rl_vsock_socket run)
   else mret ());;
  mret next.

Definition destroy_run (run : RunLayout) : M SandboxError World () :=
  remove_if_present "checking run root" "removing run root" (rl_root_dir run);;
  remove_file_if_present "checking vsock socket path" "removing vsock socket path" (rl_vsock_socket run).

(** ** Checkpoints *)

Definition create_checkpoint (workspace : WorkspaceLease) (changes : list WorkspaceChange)
    (name : option string) (metadata : gmap string string) : M SandboxError World WorkspaceCheckpointRecord :=
  id ← new_v4;
  let checkpoint_id := uuid_to_string id in
  source_checkpoint_id ← head_checkpoint_id (wl_workspace_id workspace);
  created_at_ms ← now_ms;
  let record := mkCheckpoint (mkSummary checkpoint_id (wl_workspace_id workspace) name metadata created_at_ms)
                  source_checkpoint_id changes in
  save_checkpoint workspace record;;
  set_head_checkpoint_id (wl_workspace_id workspace) (Some checkpoint_id);;
  mret record.

Definition store_list_checkpoints (workspace_id : string) : M SandboxError World (list WorkspaceCheckpointRecord) :=
  lift (validate_persisted_id workspace_id "workspace_id");;
  list_checkpoints workspace_id.

Definition delete_checkpoint_ids (workspace_id : string) (ids : list string) : M SandboxError World () :=
  for_each (lineage_delete_checkpoint workspace_id) ids.

Definition restore_checkpoint (workspace_id checkpoint_id : string) (mode : CheckpointRestoreMode) :
    M SandboxError World WorkspaceCheckpointRecord :=
  lift (validate_persisted_id workspace_id "workspace_id");;
  lift (validate_persisted_id checkpoint_id "checkpoint_id");;
  lease ← prepare_workspace workspace_id;
  checkpoints ← list_checkpoints workspace_id;
  '(target_index, target) ← lift (ok_or (NotFound ("unknown checkpoint " ^+ checkpoint_id))
      (list_find (λ record, Lineage.checkpoint_id record = checkpoint_id) checkpoints));
  copy_checkpoint_snapshot workspace_id checkpoint_id (wl_disk_path lease);;
  (if decide (mode = Rollback)
   then delete_checkpoint_ids workspace_id (map Lineage.checkpoint_id (drop (S target_index) checkpoints))
   else mret ());;
  set_head_checkpoint_id workspace_id (Some checkpoint_id);;
  mret target.

Definition delete_checkpoint (workspace_id checkpoint_id : string) : M SandboxError World () :=
  lift (validate_persisted_id workspace_id "workspace_id");;
  lift (validate_persisted_id checkpoint_id "checkpoint_id");;
  current_head ← head_checkpoint_id workspace_id;
  record ← load_checkpoint workspace_id checkpoint_id;
  lineage_delete_checkpoint workspace_id checkpoint_id;;
  if decide (current_head = Some checkpoint_id)
  then set_head_checkpoint_id workspace_id (record ≫= cr_source_checkpoint_id)
  else mret ().

Definition load_checkpoint_record (workspace_id checkpoint_id : string) :
    M SandboxError World WorkspaceCheckpointRecord :=
  record ← load_checkpoint workspace_id checkpoint_id;
  lift (ok_or (NotFound ("unknown checkpoint " ^+ checkpoint_id)) record).

Definition fork_workspace (source_workspace_id checkpoint_id new_workspace_id : string) :
    M SandboxError World WorkspaceCheckpointRecord :=
  lift (validate_persisted_id source_workspace_id "workspace_id");;
  lift (validate_persisted_id checkpoint_id "checkpoint_id");;
  lift (validate_persisted_id new_workspace_id "new_workspace_id");;
  record ← load_checkpoint_record source_workspace_id checkpoint_id;
  lease ← prepare_workspace new_workspace_id;
  copy_checkpoint_snapshot source_workspace_id checkpoint_id (wl_disk_path lease);;
  set_head_checkpoint_id new_workspace_id None;;
  mret record.

Definition create_internal_checkpoint (workspace : WorkspaceLease) (baseline current : WorkspaceSnapshot)
    (name : option string) (metadata : gmap string string) : M SandboxError World WorkspaceCheckpointRecord :=
  create_checkpoint workspace (diff baseline current) name metadata.

Definition restore_internal_checkpoint (workspace_id checkpoint_id : string) :
    M SandboxError World WorkspaceCheckpointRecord :=
  restore_checkpoint workspace_id checkpoint_id Rollback.
End store.

(** ** Where the disks and the lineage are kept apart *)

Class StoreLayout `{Platform} (L : WorkspaceLineageStore) `{!LineageSpec L} (state_dir : path) : Prop := {
  layout_disk ws ws' q : workspace_dir state_dir ws `prefix_of` q → ¬ near (lineage_dir ws') q;
  layout_lineage ws ws' q : lineage_dir ws' `prefix_of` q → ¬ near (workspace_dir state_dir ws) q;
  layout_checkpoints ws : lineage_dir ws = workspace_checkpoints_dir state_dir ws;
}.

(** The files of a workspace: its disk directory and its lineage, with the
    directories above them. *)
Definition owned `{Platform} {L : WorkspaceLineageStore} `{!LineageSpec L} (state_dir : path) (ws : string)
    (q : path) : Prop :=
  near (workspace_dir state_dir ws) q ∨ near (lineage_dir ws) q.

Section workspace_laws.
Context `{Platform, Ext4, L : WorkspaceLineageStore, !LineageSpec L} (state_dir : path) (disk_size_mib : Z)
  `{!StoreLayout L state_dir}.
Implicit Types (fs : gmap path node) (ws id : string).

Local Abbreviation prepare := (prepare_workspace state_dir disk_size_mib).
Local Abbreviation disk := (workspace_disk state_dir).

(** The records of a workspace are filed under their own identifiers. *)
Definition named fs ws : Prop := ∀ id r, record_at fs ws id = Some r → checkpoint_id r = id.

(** Two states with the same lineage for a workspace. *)
Definition same_lineage fs fs' ws : Prop :=
  head_at fs' ws = head_at fs ws ∧
  ∀ id, record_at fs' ws id = record_at fs ws id ∧ snapshot_at fs' ws id = snapshot_at fs ws id.

Lemma same_lineage_named fs fs' ws : same_lineage fs fs' ws → named fs ws → named fs' ws.
Proof. intros [_ Hs] Hn id r Hr. apply Hn. by rewrite <-(proj1 (Hs id)). Qed.

Lemma agree_same fs fs' ws : agree_under (lineage_dir ws) fs fs' → same_lineage fs fs' ws.
Proof. intros Ha. destruct (lineage_local ws fs fs' Ha) as (Hr & Hh & _). by split. Qed.

(** *** Footprints *)

Lemma disk_under ws : workspace_dir state_dir ws `prefix_of` disk ws.
Proof. exists ["workspace.raw"]. unfold workspace_disk, workspace_dir. by rewrite <-app_assoc. Qed.

Lemma disk_not_lineage ws ws' : ¬ near (lineage_dir ws') (disk ws).
Proof. apply (layout_disk ws), disk_under. Qed.

Lemma disk_other ws ws' : ws ≠ ws' → ¬ near (workspace_dir state_dir ws') (disk ws).
Proof.
  unfold workspace_dir, workspace_disk. intros Hne [[k Hk]|[k Hk]]; rewrite <-?app_assoc in Hk;
    apply app_inv_head in Hk; naive_solver.
Qed.

Lemma near_of_prefix d q : q `prefix_of` d → near d q.
Proof. by left. Qed.

Lemma frame_weaken P Q w w' : (∀ q, P q → Q q) → frame P w w' → frame Q w w'.
Proof. intros HPQ Hf q Hq. apply Hf. auto. Qed.

Lemma keeps_weaken {E A} P Q (m : M E World A) : (∀ q, P q → Q q) → keeps (frame P) m → keeps (frame Q) m.
Proof. intros HPQ. apply keeps_impl. intros w w'. by apply frame_weaken. Qed.

Lemma format_ext4_frame p P : P p → keeps (frame P) (format_ext4 p).
Proof.
  intros HP w. unfold format_ext4. destruct (w_fs w !! p) as [[]|]; [by intros q| |by intros q].
  destruct (block_device_open c); [|by intros q]. destruct (mkfs _ _ _) as [[] c']; simpl;
    intros q Hq; simpl; apply lookup_insert_ne; naive_solver.
Qed.

Lemma format_ext4_tree p : keeps (preserves tree_world) (format_ext4 p).
Proof.
  intros w Ht. unfold format_ext4. destruct (w_fs w !! p) as [[|m c]|] eqn:E; [done| |done].
  destruct (block_device_open c); [|done]. destruct (mkfs _ _ _) as [[] c']; simpl;
    by eapply tree_rewrite_file.
Qed.

Lemma create_private_dir_frame p P :
  (∀ q, q `prefix_of` p → P q) → keeps (frame P) (create_private_dir p).
Proof. apply keeps_ensure_private_dir. Qed.

Lemma create_private_dir_tree p : keeps (preserves tree_world) (create_private_dir p).
Proof. unfold create_private_dir, ensure_private_dir. keeps_tac. Qed.
Hint Resolve create_private_dir_tree format_ext4_tree : keeps.

Lemma create_disk_frame p P : P p → keeps (frame P) (create_disk disk_size_mib p).
Proof. intros HP. unfold create_disk. keeps_tac. by apply format_ext4_frame. Qed.
Lemma create_disk_tree p : keeps (preserves tree_world) (create_disk disk_size_mib p).
Proof. unfold create_disk. keeps_tac. Qed.
Hint Resolve create_disk_frame create_disk_tree : keeps.

Lemma prepare_tree ws : keeps (preserves tree_world) (prepare ws).
Proof. unfold prepare_workspace. cbv zeta. keeps_tac. Qed.

Lemma owned_disk ws : owned state_dir ws (disk ws).
Proof. left. right. apply disk_under. Qed.

Lemma prepare_frame ws : keeps (frame (owned state_dir ws)) (prepare ws).
Proof.
  pose proof (owned_disk ws) as Hd. unfold prepare_workspace. cbv zeta. keeps_tac.
  - apply create_private_dir_frame. intros q Hq. left. by left.
  - eapply keeps_weaken; [|apply ensure_frame]. intros q Hq. by right.
Qed.
Hint Resolve prepare_tree prepare_frame : keeps.

(** *** Preparing a workspace *)

(** Changes outside a workspace's lineage directory. *)
Lemma same_lineage_frame P w w' ws :
  frame P w w' → (∀ q, lineage_dir ws `prefix_of` q → ¬ P q) →
  same_lineage (w_fs w) (w_fs w') ws ∧ (head_saved (w_fs w') ws ↔ head_saved (w_fs w) ws).
Proof.
  intros Hf HP. pose proof (frame_agree _ _ _ _ Hf HP) as Ha.
  destruct (lineage_local ws _ _ Ha) as (Hr & Hh & Hs). split; [by split|done].
Qed.

Lemma same_lineage_trans fs1 fs2 fs3 ws :
  same_lineage fs1 fs2 ws → same_lineage fs2 fs3 ws → same_lineage fs1 fs3 ws.
Proof.
  intros [Hh1 Ho1] [Hh2 Ho2]. split; [congruence|]. intros id.
  destruct (Ho1 id), (Ho2 id). split; congruence.
Qed.

Lemma disk_apart ws ws' q : lineage_dir ws `prefix_of` q → disk ws' ≠ q.
Proof. intros Hq <-. apply (layout_lineage ws' ws _ Hq). right. apply disk_under. Qed.

Lemma private_dir_disk ws w w' u :
  create_private_dir (workspace_dir state_dir ws) w = (Ok u, w') →
  same_lineage (w_fs w) (w_fs w') ws ∧ w_fs w' !! disk ws = w_fs w !! disk ws.
Proof.
  intros Hr. pose proof (create_private_dir_frame (workspace_dir state_dir ws) (λ q, q `prefix_of` workspace_dir state_dir ws)
    (λ q Hq, Hq) w) as Hf. rewrite Hr in Hf. simpl in Hf. split.
  - eapply same_lineage_frame; [exact Hf|]. intros q Hq Hp. apply (layout_lineage ws ws _ Hq). by left.
  - apply Hf. intros Hp%prefix_length. unfold workspace_disk, workspace_dir in Hp.
    rewrite !length_app in Hp. simpl in Hp. lia.
Qed.

(** A prepared workspace has its lineage untouched, its head saved, and the disk
    it had before, byte for byte. *)
Lemma prepare_ok ws w l w' :
  tree_world w → prepare ws w = (Ok l, w') →
  l = {| wl_workspace_id := ws; wl_disk_path := disk ws |} ∧ valid_id ws ∧
  same_lineage (w_fs w) (w_fs w') ws ∧ head_saved (w_fs w') ws ∧
  (∀ n, w_fs w !! disk ws = Some n → w_fs w' !! disk ws = Some n).
Proof.
  unfold prepare_workspace. cbv zeta. intros Ht Hr.
  apply bind_ok_inv in Hr as ([] & w0 & [_ <-]%lift_ok_inv & Hr).
  apply bind_ok_inv in Hr as ([] & w1 & Hdir & Hr).
  pose proof (create_private_dir_tree (workspace_dir state_dir ws) w Ht) as Ht1. rewrite Hdir in Ht1.
  apply private_dir_disk in Hdir as [Hs1 Hd1].
  apply bind_ok_inv in Hr as ([] & w2 & Hens & Hr).
  pose proof (ensure_frame ws w1) as Hf2. rewrite Hens in Hf2. simpl in Hf2.
  apply ensure_ok in Hens as (Hv & Hsaved & Hh & Hobs); [|done].
  apply bind_ok_inv in Hr as (b & w3 & Hb & Hr).
  apply map_err_ok_inv, try_exists_ok in Hb as [-> Hfs3].
  apply bind_ok_inv in Hr as ([] & w4 & Hnew & Hr). apply ret_ok_inv in Hr as [<- <-].
  assert (Hf4 : frame (eq (disk ws)) w3 w4).
  { destruct (negb _).
    - pose proof (create_disk_frame (disk ws) (eq (disk ws)) eq_refl w3) as Hk. by rewrite Hnew in Hk.
    - by apply ret_ok_inv in Hnew as [_ <-]. }
  destruct (same_lineage_frame _ _ _ ws Hf4) as [Hs4 Hsv4]; [intros q Hq; by apply (disk_apart ws)|].
  rewrite Hfs3 in Hs4, Hsv4. split_and!; [done|done| |by apply Hsv4|].
  - eapply same_lineage_trans; [exact Hs1|]. by eapply same_lineage_trans; [|exact Hs4].
  - intros n Hn. rewrite bool_decide_true in Hnew.
    + apply ret_ok_inv in Hnew as [_ <-]. rewrite Hfs3, Hf2 by apply disk_not_lineage. congruence.
    + rewrite Hf2 by apply disk_not_lineage. rewrite Hd1. eauto.
Qed.

(** *** Creating a checkpoint *)

Lemma keeps_pure_fs {E A} (m : M E World A) w a w' :
  keeps (frame (λ _, False)) m → m w = (Ok a, w') → w_fs w' = w_fs w.
Proof.
  intros Hk Hr. specialize (Hk w). rewrite Hr in Hk. apply map_eq. intros q. apply (Hk q). tauto.
Qed.

Lemma head_pure ws w h w' : head_checkpoint_id ws w = (Ok h, w') → w_fs w' = w_fs w.
Proof. apply keeps_pure_fs, head_frame. Qed.
Lemma load_pure ws id w o w' : load_checkpoint ws id w = (Ok o, w') → w_fs w' = w_fs w.
Proof. apply keeps_pure_fs, load_frame. Qed.
Lemma list_pure ws w rs w' : list_checkpoints ws w = (Ok rs, w') → w_fs w' = w_fs w.
Proof. apply keeps_pure_fs, list_frame. Qed.

Lemma new_v4_ok {E} w u w' : (new_v4 : M E World _) w = (Ok u, w') → w_fs w' = w_fs w.
Proof. by intros [= _ <-]. Qed.
Lemma now_ms_ok {E} w t w' : (now_ms : M E World _) w = (Ok t, w') → w_fs w' = w_fs w.
Proof. by intros [= _ <-]. Qed.

(** The specification of creation, on the file systems before and after: the
    record is filed under its identifier, its snapshot is the disk as it was,
    the new head is the record and its source the previous head; every other
    checkpoint is as before, and so is the disk. *)
Definition Created ws (r : WorkspaceCheckpointRecord) fs fs' : Prop :=
  ∃ m d, fs !! disk ws = Some (File m d) ∧ fs' !! disk ws = Some (File m d) ∧
    (∀ id, record_at fs' ws id = if decide (id = checkpoint_id r) then Some r else record_at fs ws id) ∧
    (∀ id, snapshot_at fs' ws id = if decide (id = checkpoint_id r) then Some d else snapshot_at fs ws id) ∧
    head_at fs ws = Some (cr_source_checkpoint_id r) ∧ head_at fs' ws = Some (Some (checkpoint_id r)).

Lemma create_checkpoint_ok ws changes name metadata w r w' :
  tree_world w →
  create_checkpoint {| wl_workspace_id := ws; wl_disk_path := disk ws |} changes name metadata w = (Ok r, w') →
  Created ws r (w_fs w) (w_fs w').
Proof.
  unfold create_checkpoint. cbv zeta. intros Ht Hr. ok_inv. cbn [wl_workspace_id] in *.
  apply new_v4_ok in Hrun. pose proof (head_pure _ _ _ _ Hrun0) as Hp0. apply now_ms_ok in Hrun1.
  apply head_ok in Hrun0. rewrite Hrun in Hrun0, Hp0. rewrite Hp0 in Hrun1.
  match goal with H : save_checkpoint ?l ?c ?v = (Ok ?u, ?v') |- _ =>
    destruct u; pose proof (save_frame l c v) as Hf; pose proof (save_tree l c v) as Hts;
    rewrite H in Hf, Hts; cbn in Hf, Hts; apply save_ok in H as (m & d & Hd & _ & Hrec & Hsnap & _ & _) end.
  2: { unfold tree_world. by rewrite Hrun1. }
  2: { intros q Hq Heq. cbn in Heq. subst q. by apply disk_not_lineage in Hq. }
  match goal with H : set_head_checkpoint_id ?l ?c ?v = (Ok ?u, ?v') |- _ =>
    destruct u; pose proof (set_head_frame l c v) as Hf'; rewrite H in Hf'; cbn in Hf';
    apply set_head_ok in H as (_ & Hhead & Hobs) end.
  2: { apply Hts. unfold tree_world. by rewrite Hrun1. }
  cbn [wl_disk_path wl_workspace_id] in *. rewrite Hrun1 in *. exists m, d. split_and!; [done| | | |done|done].
  - rewrite Hf', Hf by apply disk_not_lineage. by rewrite Hrun1.
  - intros id. rewrite (proj1 (Hobs id)). apply Hrec.
  - intros id. rewrite (proj2 (Hobs id)). apply Hsnap.
Qed.

(** *** Restoring a checkpoint *)

Lemma delete_ids_ok ws ids w w' :
  tree_world w → delete_checkpoint_ids ws ids w = (Ok (), w') →
  tree_world w' ∧ frame (near (lineage_dir ws)) w w' ∧
  (∀ id, record_at (w_fs w') ws id = (if decide (id ∈ ids) then None else record_at (w_fs w) ws id) ∧
         snapshot_at (w_fs w') ws id = (if decide (id ∈ ids) then None else snapshot_at (w_fs w) ws id)).
Proof.
  unfold delete_checkpoint_ids. revert w. induction ids as [|i ids IH]; intros w Ht Hr; cbn [for_each] in Hr.
  - ok_inv. split_and!; [done|done|]. intros id. rewrite decide_False by apply not_elem_of_nil. done.
  - apply bind_ok_inv in Hr as ([] & w1 & Hd & Hr).
    pose proof (delete_tree ws i w Ht) as Ht1. pose proof (delete_frame ws i w) as Hf1.
    rewrite Hd in Ht1, Hf1. apply delete_ok in Hd as (Hrec & Hsnap & _); [|done].
    destruct (IH _ Ht1 Hr) as (Ht2 & Hf2 & Hobs). split; [done|]. split; [by etrans|].
    intros id. destruct (Hobs id) as [-> ->]. rewrite Hrec, Hsnap.
    destruct (decide (id = i)) as [->|]; [rewrite !(decide_True (P := i ∈ i :: ids)) by left; by destruct (decide (i ∈ ids))|].
    destruct (decide (id ∈ ids)); [by rewrite !decide_True by by right|].
    by rewrite !decide_False by (rewrite not_elem_of_cons; done).
Qed.

#[global] Instance checkpoint_le_keys_antisymm : AntiSymm (=) (λ a b, pair_le string_le a b = true).
Proof.
  intros [t a] [t' a']. unfold pair_le. simpl. rewrite !orb_true_iff, !andb_true_iff, !Z.ltb_lt, !Z.eqb_eq.
  intros [?|[-> Ha]] [?|[? Ha']]; try lia. f_equal. by apply string_le_antisym.
Qed.

(** Splitting a sorted listing at a record: what is not after it is below it. *)
Lemma sorted_split rs i (r : WorkspaceCheckpointRecord) r' :
  StronglySorted (λ a b, checkpoint_le a b = true) rs → NoDup (map checkpoint_id rs) →
  rs !! i = Some r → r' ∈ rs →
  (checkpoint_id r' ∈ map checkpoint_id (drop (S i) rs) ↔ checkpoint_le r' r = false).
Proof.
  intros Hs Hnd Hi Hin. rewrite <-(take_drop_middle rs i r Hi) in Hs, Hnd, Hin.
  set (a := take i rs) in *. set (b := drop (S i) rs) in *.
  assert (Hle : ∀ x, x ∈ b → checkpoint_le r x = true).
  { intros x Hx. apply StronglySorted_app_1_r in Hs. apply StronglySorted_inv in Hs as [_ Hs].
    rewrite Forall_forall in Hs. by apply Hs. }
  rewrite map_app in Hnd. cbn [map] in Hnd. apply NoDup_app in Hnd as (_ & Hab & Hrb).
  apply NoDup_cons in Hrb as [Hrb _]. split.
  - intros Hb. apply list_elem_of_fmap in Hb as (x & Hx & Hxb).
    destruct (checkpoint_le r' r) eqn:E; [|done]. exfalso. apply Hrb.
    assert (r' ∈ b).
    { apply elem_of_app in Hin as [Ha|[->|?]%elem_of_cons]; [|exfalso|done].
      - exfalso. apply (Hab (checkpoint_id r')); [by apply list_elem_of_fmap_2|].
        rewrite Hx. right. by apply list_elem_of_fmap_2.
      - apply Hrb. rewrite Hx. by apply list_elem_of_fmap_2. }
    assert (checkpoint_key r' = checkpoint_key r) as Hk.
    { apply (anti_symm (λ a b, pair_le string_le a b = true)); [done|by apply Hle]. }
    injection Hk as _ Hk. change (checkpoint_id r' = checkpoint_id r) in Hk. rewrite <-Hk. by apply list_elem_of_fmap_2.
  - intros Hf. apply elem_of_app in Hin as [Ha|[->|Hb]%elem_of_cons]; [exfalso|exfalso|by apply list_elem_of_fmap_2].
    + pose proof (StronglySorted_app_1_elem_of _ _ _ r' r Hs Ha ltac:(left)) as Hc. by rewrite Hc in Hf.
    + unfold checkpoint_le in Hf. pose proof (pair_le_total string_le string_le_total (checkpoint_key r) (checkpoint_key r)) as Hc.
      by rewrite Hf in Hc.
Qed.

(** What is left of the lineage after a restore: everything, or everything not
    newer than the target. *)
Definition kept (mode : CheckpointRestoreMode) (target r : WorkspaceCheckpointRecord) : Prop :=
  mode = Rollback → checkpoint_le r target = true.

(** The deletions of a restore, from the listing to what is kept. *)
Lemma restore_deletes ws id mode rs i target w w' :
  tree_world w → named (w_fs w) ws →
  StronglySorted (λ a b, checkpoint_le a b = true) rs → NoDup (map checkpoint_id rs) →
  (∀ r, r ∈ rs ↔ ∃ id, record_at (w_fs w) ws id = Some r) →
  list_find (λ r, checkpoint_id r = id) rs = Some (i, target) →
  (if decide (mode = Rollback) then delete_checkpoint_ids ws (map checkpoint_id (drop (S i) rs)) else mret ()) w
    = (Ok (), w') →
  tree_world w' ∧ frame (near (lineage_dir ws)) w w' ∧
  ∀ id' r', record_at (w_fs w) ws id' = Some r' →
    (kept mode target r' → record_at (w_fs w') ws id' = Some r' ∧
                           snapshot_at (w_fs w') ws id' = snapshot_at (w_fs w) ws id') ∧
    (¬ kept mode target r' → record_at (w_fs w') ws id' = None).
Proof.
  intros Ht Hn Hs Hnd Hrs Hfind. apply list_find_Some in Hfind as (Hi & _ & _). case_decide as Hm.
  - intros Hr. destruct (delete_ids_ok _ _ _ _ Ht Hr) as (Ht' & Hf & Hobs). split; [done|]. split; [done|].
    intros id' r' Hr'. destruct (Hobs id') as [Hrec Hsnap].
    assert (Hin : r' ∈ rs) by (apply Hrs; eauto). pose proof (sorted_split rs i target r' Hs Hnd Hi Hin) as Hsp.
    rewrite (Hn _ _ Hr') in Hsp. unfold kept. split.
    + intros Hk. assert (Hno : id' ∉ map checkpoint_id (drop (S i) rs)) by (rewrite Hsp; by rewrite (Hk Hm)).
      rewrite decide_False in Hrec by done. rewrite decide_False in Hsnap by done. split; congruence.
    + intros Hk. rewrite decide_True in Hrec; [done|]. apply Hsp. destruct (checkpoint_le r' target); [|done].
      exfalso. by apply Hk.
  - intros Hr. ok_inv. split_and!; [done|done|]. intros id' r' Hr'. split; [done|]. intros Hk. exfalso. apply Hk. intros ?. done.
Qed.

Lemma list_found rs id i (target : WorkspaceCheckpointRecord) :
  list_find (λ r, checkpoint_id r = id) rs = Some (i, target) → target ∈ rs ∧ checkpoint_id target = id.
Proof. intros (Hi & Hid & _)%list_find_Some. split; [by eapply list_elem_of_lookup_2|done]. Qed.

(** The specification of a restore: the returned record is the one filed under
    the identifier, the workspace's disk becomes that checkpoint's snapshot, the
    head is the checkpoint, and the checkpoints that remain are all of them
    ([Replace]) or exactly those not newer than it in the listing order
    ([Rollback]), with their snapshots. *)
Definition Restored ws id mode (r : WorkspaceCheckpointRecord) fs fs' : Prop :=
  record_at fs ws id = Some r ∧
  (∃ m d, snapshot_at fs ws id = Some d ∧ fs' !! disk ws = Some (File m d)) ∧
  head_at fs' ws = Some (Some id) ∧
  (∀ id' r', record_at fs ws id' = Some r' →
     (kept mode r r' → record_at fs' ws id' = Some r' ∧ snapshot_at fs' ws id' = snapshot_at fs ws id') ∧
     (¬ kept mode r r' → record_at fs' ws id' = None)).

Lemma restore_checkpoint_ok ws id mode w r w' :
  tree_world w → named (w_fs w) ws →
  restore_checkpoint state_dir disk_size_mib ws id mode w = (Ok r, w') →
  Restored ws id mode r (w_fs w) (w_fs w').
Proof.
  unfold restore_checkpoint. intros Ht Hn Hr.
  apply bind_ok_inv in Hr as ([] & w0 & [_ <-]%lift_ok_inv & Hr).
  apply bind_ok_inv in Hr as ([] & w0 & [_ <-]%lift_ok_inv & Hr).
  apply bind_ok_inv in Hr as (l & w1 & Hprep & Hr).
  pose proof (prepare_tree ws w Ht) as Ht1. rewrite Hprep in Ht1. cbn in Ht1.
  apply prepare_ok in Hprep as (-> & _ & Hs1 & _ & _); [|done].
  apply bind_ok_inv in Hr as (rs & w2 & Hlist & Hr). pose proof (list_pure _ _ _ _ Hlist) as Hp2.
  apply list_ok in Hlist as (Hsorted & Hrs & Hnd); [|done].
  pose proof (same_lineage_named _ _ _ Hs1 Hn) as Hn1. specialize (Hnd Hn1).
  apply bind_ok_inv in Hr as ([i target] & w3 & [Hfind <-]%lift_ok_inv & Hr).
  destruct (list_find _ rs) as [[i' t']|] eqn:Hlf; simplify_eq/=.
  apply bind_ok_inv in Hr as ([] & w4 & Hcopy & Hr).
  pose proof (copy_tree ws id (disk ws) w2) as Ht4. rewrite Hcopy in Ht4. cbn in Ht4.
  apply copy_snapshot_ok in Hcopy as (m & d & Hd & Hfs4). rewrite Hp2 in Hd, Hfs4.
  assert (Hs4 : same_lineage (w_fs w1) (w_fs w4) ws).
  { apply agree_same. intros q Hq. rewrite Hfs4. apply lookup_insert_ne. by apply (disk_apart ws). }
  apply bind_ok_inv in Hr as ([] & w5 & Hdel & Hr).
  pose proof (same_lineage_trans _ _ _ _ Hs1 Hs4) as [_ Hs].
  apply (restore_deletes ws id mode rs i target) in Hdel as (Ht5 & Hf5 & Hkept); [..|done].
  2: { apply Ht4. unfold tree_world. by rewrite Hp2. }
  2: { by apply (same_lineage_named (w_fs w1)). }
  2, 3: done.
  2: { intros x. rewrite Hrs. split; intros [y Hy]; exists y; rewrite <-Hy; [|symmetry]; apply Hs4. }
  apply bind_ok_inv in Hr as ([] & w6 & Hhead & Hr). apply ret_ok_inv in Hr as [<- <-].
  pose proof (set_head_frame ws (Some id) w5) as Hf6. rewrite Hhead in Hf6. cbn in Hf6.
  apply set_head_ok in Hhead as (_ & Hh & Hobs); [|done].
  apply list_found in Hlf as [Hin Hid]. split_and!; [| |done|].
  - apply Hrs in Hin as [x Hx]. rewrite <-(Hn1 _ _ Hx) in Hx. rewrite Hid in Hx. rewrite <-Hx. symmetry. apply Hs1.
  - exists m, d. split; [rewrite <-Hd; symmetry; apply Hs1|].
    rewrite Hf6, Hf5, Hfs4 by apply disk_not_lineage. apply lookup_insert_eq.
  - intros id' r' Hr'. rewrite <-(proj1 (Hs id')) in Hr'. destruct (Hkept id' r' Hr') as [Hk Hnk].
    rewrite (proj1 (Hobs id')), (proj2 (Hobs id')). split; [|done].
    intros Hk'. destruct (Hk Hk') as [-> ->]. split; [done|]. apply Hs.
Qed.

(** C9: checkpoints round-trip: after a checkpoint was created, and whatever the
    guest did to the disk and other workspaces to their files since (the
    lineage directory of this workspace being left alone), restoring it gives
    back the record and the disk exactly as they were at creation. *)
Theorem checkpoint_roundtrip ws changes name metadata mode w r w1 w2 r' w3 :
  tree_world w → named (w_fs w) ws →
  create_checkpoint {| wl_workspace_id := ws; wl_disk_path := disk ws |} changes name metadata w = (Ok r, w1) →
  tree_world w2 → agree_under (lineage_dir ws) (w_fs w1) (w_fs w2) →
  restore_checkpoint state_dir disk_size_mib ws (checkpoint_id r) mode w2 = (Ok r', w3) →
  r' = r ∧ ∃ m m' d, w_fs w !! disk ws = Some (File m d) ∧ w_fs w3 !! disk ws = Some (File m' d).
Proof.
  intros Ht Hn Hc Ht2 Ha Hr.
  destruct (create_checkpoint_ok _ _ _ _ _ _ _ Ht Hc) as (m & d & Hd & _ & Hrec & Hsnap & _ & _).
  destruct (agree_same _ _ _ Ha) as [_ Hs].
  assert (Hn2 : named (w_fs w2) ws).
  { intros id x Hx. rewrite (proj1 (Hs id)), Hrec in Hx. case_decide; [naive_solver|]. by apply Hn. }
  destruct (restore_checkpoint_ok _ _ _ _ _ _ Ht2 Hn2 Hr) as (Hr' & (m' & d' & Hd' & Hdisk) & _).
  rewrite (proj1 (Hs _)), Hrec, decide_True in Hr' by done.
  rewrite (proj2 (Hs _)), Hsnap, decide_True in Hd' by done. injection Hr' as <-. injection Hd' as <-.
  split; [done|]. by exists m, m', d.
Qed.

(** creating a checkpoint of a workspace's disk, when it reports success and
    whatever failed before, meets its specification [Created]. *)
Theorem create_checkpoint_spec ws changes name metadata w r w' :
  tree_world w →
  create_checkpoint {| wl_workspace_id := ws; wl_disk_path := disk ws |} changes name metadata w = (Ok r, w') →
  Created ws r (w_fs w) (w_fs w').
Proof. apply create_checkpoint_ok. Qed.

(** C19: restoring a checkpoint, when it reports success and whatever failed
    before, meets its specification [Restored]: in particular a rollback deletes
    exactly the checkpoints newer than the target. *)
Theorem restore_checkpoint_spec ws id mode w r w' :
  tree_world w → named (w_fs w) ws →
  restore_checkpoint state_dir disk_size_mib ws id mode w = (Ok r, w') →
  Restored ws id mode r (w_fs w) (w_fs w').
Proof. apply restore_checkpoint_ok. Qed.

(** *** Deleting a checkpoint *)

(** The specification of a deletion: the checkpoint is gone, every other one is
    as before, and the head, if it was the deleted checkpoint, becomes that
    checkpoint's source. *)
Definition CheckpointDeleted ws id fs fs' : Prop :=
  (∀ id', record_at fs' ws id' = if decide (id' = id) then None else record_at fs ws id') ∧
  (∀ id', snapshot_at fs' ws id' = if decide (id' = id) then None else snapshot_at fs ws id') ∧
  head_at fs' ws = (if decide (head_at fs ws = Some (Some id))
                    then Some (record_at fs ws id ≫= cr_source_checkpoint_id)
                    else head_at fs ws).

Lemma delete_checkpoint_ok ws id w w' :
  tree_world w → head_saved (w_fs w) ws → delete_checkpoint ws id w = (Ok (), w') →
  CheckpointDeleted ws id (w_fs w) (w_fs w').
Proof.
  unfold delete_checkpoint. intros Ht Hsv Hr. ok_inv_step. ok_inv_step. apply lift_ok_inv in Hrun as [_ <-].
  apply lift_ok_inv in Hrun0 as [_ <-].
  apply bind_ok_inv in Hr as (h & w1 & Hh & Hr). pose proof (head_pure _ _ _ _ Hh) as Hp1. apply head_ok in Hh.
  apply bind_ok_inv in Hr as (o & w2 & Ho & Hr). pose proof (load_pure _ _ _ _ _ Ho) as Hp2. apply load_ok in Ho.
  apply bind_ok_inv in Hr as ([] & w3 & Hd & Hr).
  assert (Hfs : w_fs w2 = w_fs w) by congruence. rewrite Hp1 in Ho.
  pose proof (delete_tree ws id w2) as Ht3. rewrite Hd in Ht3. cbn in Ht3. unfold preserves, tree_world in Ht3.
  apply delete_ok in Hd as (Hrec & Hsnap & Hhd); [|unfold tree_world; by rewrite Hfs]. rewrite Hfs in *.
  destruct (decide (h = Some id)) as [->|Hne].
  - apply set_head_ok in Hr as (_ & Hh' & Hobs); [|by apply Ht3]. split_and!.
    + intros id'. rewrite (proj1 (Hobs id')). apply Hrec.
    + intros id'. rewrite (proj2 (Hobs id')). apply Hsnap.
    + rewrite Hh, decide_True by done. by rewrite Ho.
  - ok_inv. split_and!; [done..|]. rewrite decide_False by (rewrite Hh; congruence). by apply Hhd.
Qed.

(** the head can be left on a checkpoint that no longer exists: when a
    checkpoint was deleted after a later one had been created from it, deleting
    the later one, the head, makes the head name the missing checkpoint, and the
    next checkpoint records it as its source. *)
Theorem delete_can_leave_dangling_head ws id src r w w' :
  tree_world w → head_saved (w_fs w) ws → head_at (w_fs w) ws = Some (Some id) → id ≠ src →
  record_at (w_fs w) ws id = Some r → cr_source_checkpoint_id r = Some src →
  record_at (w_fs w) ws src = None →
  delete_checkpoint ws id w = (Ok (), w') →
  head_at (w_fs w') ws = Some (Some src) ∧ record_at (w_fs w') ws src = None.
Proof.
  intros Ht Hsv Hh Hne Hr Hsrc Hnone Hd.
  destruct (delete_checkpoint_ok _ _ _ _ Ht Hsv Hd) as (Hrec & _ & Hhead). split.
  - rewrite Hhead, decide_True, Hr by done. cbn. by rewrite Hsrc.
  - by rewrite Hrec, decide_False by congruence.
Qed.

(** *** Forking *)

(** forking a workspace at a checkpoint, when it reports success: the new
    workspace's disk is the checkpoint's snapshot and its head is empty, while
    the source workspace's disk and lineage are untouched. *)
Theorem fork_workspace_spec ws id new w r w' :
  tree_world w → ws ≠ new → fork_workspace state_dir disk_size_mib ws id new w = (Ok r, w') →
  record_at (w_fs w) ws id = Some r ∧
  (∃ m d, snapshot_at (w_fs w) ws id = Some d ∧ w_fs w' !! disk new = Some (File m d)) ∧
  head_at (w_fs w') new = Some None ∧
  same_lineage (w_fs w) (w_fs w') ws ∧ w_fs w' !! disk ws = w_fs w !! disk ws.
Proof.
  unfold fork_workspace, load_checkpoint_record. intros Ht Hne Hr.
  apply bind_ok_inv in Hr as ([] & w0 & [_ <-]%lift_ok_inv & Hr).
  apply bind_ok_inv in Hr as ([] & w0 & [_ <-]%lift_ok_inv & Hr).
  apply bind_ok_inv in Hr as ([] & w0 & [_ <-]%lift_ok_inv & Hr).
  apply bind_ok_inv in Hr as (rec & w1 & Hl & Hr).
  apply bind_ok_inv in Hl as (o & w1' & Ho & [Hrec <-]%lift_ok_inv).
  pose proof (load_pure _ _ _ _ _ Ho) as Hp1. apply load_ok in Ho. destruct o as [o|]; [|done]. simplify_eq/=.
  apply bind_ok_inv in Hr as (l & w2 & Hprep & Hr).
  assert (Ht1 : tree_world w1') by (unfold tree_world; by rewrite Hp1).
  pose proof (prepare_tree new w1' Ht1) as Ht2. pose proof (prepare_frame new w1') as Hf2.
  rewrite Hprep in Ht2, Hf2. cbn in Ht2, Hf2. apply prepare_ok in Hprep as (-> & _); [|done]. cbn in Hr.
  apply bind_ok_inv in Hr as ([] & w3 & Hcopy & Hr).
  pose proof (copy_tree ws id (disk new) w2 Ht2) as Ht3. rewrite Hcopy in Ht3. cbn in Ht3.
  apply copy_snapshot_ok in Hcopy as (m & d & Hd & Hfs3).
  apply bind_ok_inv in Hr as ([] & w4 & Hhead & Hr). apply ret_ok_inv in Hr as [<- <-].
  pose proof (set_head_frame new None w3) as Hf4. rewrite Hhead in Hf4. cbn in Hf4.
  apply set_head_ok in Hhead as (_ & Hh & _); [|done].
  assert (Hout : ∀ q, lineage_dir ws `prefix_of` q → ¬ owned state_dir new q).
  { intros q Hq [?|?]; [by eapply layout_lineage|]. by eapply (lineage_apart new ws). }
  assert (Hs2 : same_lineage (w_fs w) (w_fs w2) ws).
  { apply agree_same. intros q Hq. rewrite Hf2 by by apply Hout. by rewrite Hp1. }
  split_and!; [done| |done| |].
  - exists m, d. split; [rewrite <-Hd; symmetry; apply Hs2|].
    rewrite Hf4, Hfs3 by apply disk_not_lineage. apply lookup_insert_eq.
  - eapply same_lineage_trans; [exact Hs2|]. apply agree_same. intros q Hq.
    rewrite Hf4 by by eapply (lineage_apart new ws). rewrite Hfs3. apply lookup_insert_ne. by apply (disk_apart ws).
  - rewrite Hf4 by apply disk_not_lineage. rewrite Hfs3. rewrite lookup_insert_ne.
    2: { unfold workspace_disk. intros ?%app_inv_head. naive_solver. }
    rewrite Hf2; [by rewrite Hp1|]. intros [Hn|Hn]; [|by apply disk_not_lineage in Hn].
    by apply (disk_other ws new) in Hn.
Qed.

(** *** Isolation of workspaces *)

Lemma run_command_frame program args p P : P p → keeps (frame P) (run_command program args p).
Proof.
  intros HP. apply keeps_io_op; [|done]. intros fs a fs'.
  destruct (fs !! p) as [[|m c]|]; destruct (run_program _ _ _) as [[code c']|]; cbn; intros; simplify_eq;
    try done; by apply frame_fs_insert.
Qed.

Lemma open_rw_frame p P : keeps (frame P) (fs_open_rw p).
Proof.
  apply keeps_io_op; [|done]. intros fs a fs'. destruct (fs !! p) as [[]|]; intros; by simplify_eq.
Qed.
Hint Resolve run_command_frame open_rw_frame : keeps.

Lemma first_accepted_frame accept commands p missing P :
  P p → keeps (frame P) (first_accepted accept commands p missing).
Proof.
  intros HP. induction commands as [|[program args] rest IH]; cbn [first_accepted]; keeps_tac.
Qed.
Hint Resolve first_accepted_frame : keeps.

Lemma prepare_lease ws w l w' :
  prepare ws w = (Ok l, w') → l = {| wl_workspace_id := ws; wl_disk_path := disk ws |}.
Proof. unfold prepare_workspace. cbv zeta. intros Hr. by ok_inv. Qed.

Lemma resize_frame ws n : keeps (frame (owned state_dir ws)) (resize_workspace state_dir disk_size_mib ws n).
Proof.
  pose proof (owned_disk ws) as Hd. unfold resize_workspace. keeps_step; [keeps_step|].
  keeps_step; [keeps_step|]. apply keeps_bind_val; [typeclasses eauto|apply prepare_frame|].
  intros w l w' ->%prepare_lease. unfold workspace_disk_size_mib, check_ext4, resize_ext4, resize_file_len.
  cbn [wl_disk_path]. keeps_tac.
Qed.

Lemma remove_frame ws : keeps (frame (owned state_dir ws)) (remove_workspace state_dir ws).
Proof.
  unfold remove_workspace. keeps_step; [keeps_step|]. apply keeps_for_each; [typeclasses eauto|].
  intros d Hd. unfold remove_if_present. keeps_step; [keeps_tac|]. keeps_step; [|keeps_step].
  keeps_step. apply keeps_remove_dir_all. intros q Hq.
  apply elem_of_cons in Hd as [->|[->|[]%not_elem_of_nil]%elem_of_cons]; [left; by right|].
  right. right. by rewrite layout_checkpoints.
Qed.

Lemma lineage_owned {A} ws (m : M SandboxError World A) :
  keeps (frame (near (lineage_dir ws))) m → keeps (frame (owned state_dir ws)) m.
Proof. apply keeps_weaken. intros q Hq. by right. Qed.

Lemma create_frame ws p changes name metadata :
  keeps (frame (owned state_dir ws))
    (create_checkpoint {| wl_workspace_id := ws; wl_disk_path := p |} changes name metadata).
Proof.
  unfold create_checkpoint. cbv zeta. keeps_tac; apply lineage_owned.
  - eapply keeps_weaken; [|apply head_frame]. done.
  - apply (save_frame {| wl_workspace_id := ws; wl_disk_path := p |}).
  - apply set_head_frame.
Qed.

Lemma restore_frame ws id mode :
  keeps (frame (owned state_dir ws)) (restore_checkpoint state_dir disk_size_mib ws id mode).
Proof.
  unfold restore_checkpoint. keeps_step; [keeps_step|]. keeps_step; [keeps_step|].
  apply keeps_bind_val; [typeclasses eauto|apply prepare_frame|]. intros w l w' ->%prepare_lease.
  keeps_tac.
  - eapply keeps_weaken; [|apply list_frame]. done.
  - eapply keeps_weaken; [|apply copy_frame]. intros q <-. apply owned_disk.
  - apply keeps_for_each; [typeclasses eauto|]. intros i _. apply lineage_owned, delete_frame.
  - apply lineage_owned, set_head_frame.
Qed.

Lemma delete_checkpoint_frame ws id : keeps (frame (owned state_dir ws)) (delete_checkpoint ws id).
Proof.
  unfold delete_checkpoint. keeps_tac; try (apply lineage_owned; auto with keeps);
    (eapply keeps_weaken; [|first [apply head_frame|apply load_frame]]); done.
Qed.

Lemma fork_frame ws id new :
  keeps (frame (owned state_dir new)) (fork_workspace state_dir disk_size_mib ws id new).
Proof.
  unfold fork_workspace, load_checkpoint_record. do 3 (keeps_step; [keeps_step|]).
  keeps_step; [keeps_tac; eapply keeps_weaken; [|apply load_frame]; done|].
  apply keeps_bind_val; [typeclasses eauto|apply prepare_frame|]. intros w l w' ->%prepare_lease. keeps_tac.
  - eapply keeps_weaken; [|apply copy_frame]. intros q <-. apply owned_disk.
  - apply lineage_owned, set_head_frame.
Qed.

(** The operations that change a workspace, as a request another client of the
    store may make between two of ours. *)
Inductive WorkspaceOp :=
  | OpPrepare
  | OpResize (new_size_mib : Z)
  | OpRemove
  | OpCreate (changes : list WorkspaceChange) (name : option string) (metadata : gmap string string)
  | OpRestore (id : string) (mode : CheckpointRestoreMode)
  | OpDelete (id : string)
  | OpForkFrom (source id : string).

Definition run_op (ws : string) (op : WorkspaceOp) : M SandboxError World () :=
  match op with
  | OpPrepare => (λ _, ()) <$> prepare ws
  | OpResize n => resize_workspace state_dir disk_size_mib ws n
  | OpRemove => remove_workspace state_dir ws
  | OpCreate c n md =>
      (λ _, ()) <$> create_checkpoint {| wl_workspace_id := ws; wl_disk_path := disk ws |} c n md
  | OpRestore id mode => (λ _, ()) <$> restore_checkpoint state_dir disk_size_mib ws id mode
  | OpDelete id => delete_checkpoint ws id
  | OpForkFrom source id => (λ _, ()) <$> fork_workspace state_dir disk_size_mib source id ws
  end.

Lemma run_op_frame ws op : keeps (frame (owned state_dir ws)) (run_op ws op).
Proof.
  destruct op; cbn [run_op]; try (apply keeps_fmap);
    auto using prepare_frame, resize_frame, remove_frame, create_frame, restore_frame,
      delete_checkpoint_frame, fork_frame.
Qed.

(** A history of operations on several workspaces, each of which may fail. *)
Fixpoint run_ops (ops : list (string * WorkspaceOp)) (w : World) : World :=
  match ops with [] => w | (ws, op) :: rest => run_ops rest (run_op ws op w).2 end.

Lemma owned_apart ws ws' : ws ≠ ws' →
  ¬ owned state_dir ws' (disk ws) ∧ ∀ q, lineage_dir ws `prefix_of` q → ¬ owned state_dir ws' q.
Proof.
  intros Hne. split.
  - intros [Hn|Hn]; [by apply disk_other in Hn|by apply disk_not_lineage in Hn].
  - intros q Hq [Hn|Hn]; [by eapply layout_lineage|]. by eapply (lineage_apart ws' ws).
Qed.

(** C14: workspaces are isolated: any history of operations on other workspaces,
    with any of them failing half-way, leaves a workspace's disk and its whole
    lineage exactly as they were. *)
Theorem workspaces_isolated ws ops w :
  Forall (λ x, ws ≠ x.1) ops →
  w_fs (run_ops ops w) !! disk ws = w_fs w !! disk ws ∧ same_lineage (w_fs w) (w_fs (run_ops ops w)) ws.
Proof.
  intros Hops. revert w. induction Hops as [|[ws' op] ops Hne _ IH]; intros w; cbn [run_ops].
  { split; [done|]. by apply agree_same. }
  destruct (IH (run_op ws' op w).2) as [Hd Hs]. destruct (owned_apart ws ws' Hne) as [Ho1 Ho2].
  pose proof (run_op_frame ws' op w) as Hf. split; [rewrite Hd; by apply Hf|].
  eapply same_lineage_trans; [|exact Hs]. apply agree_same. intros q Hq. by apply Hf, Ho2.
Qed.

Lemma tree_none_below fs d q : tree fs → d ≠ [] → fs !! d = None → d `prefix_of` q → fs !! q = None.
Proof.
  intros Ht Hne Hd Hq. destruct (fs !! q) as [n|] eqn:E; [|done].
  destruct (decide (d = q)) as [->|Hdq]; [congruence|].
  destruct (tree_ancestors fs q n Ht E d Hq Hne Hdq). congruence.
Qed.

Lemma remove_if_present_ok c r d w w' u :
  tree_world w → d ≠ [] → remove_if_present c r d w = (Ok u, w') →
  tree_world w' ∧ (∀ q, d `prefix_of` q → w_fs w' !! q = None) ∧
  (∀ q, w_fs w !! q = None → w_fs w' !! q = None).
Proof.
  unfold remove_if_present. intros Ht Hne Hr.
  apply bind_ok_inv in Hr as (b & w1 & Hb%map_err_ok_inv & Hr). apply try_exists_ok in Hb as [-> Hfs].
  case_bool_decide as Hd.
  - ok_inv. apply remove_dir_all_ok in Hr. unfold tree_world. rewrite Hr, Hfs. split_and!.
    + by apply tree_removed.
    + intros q Hq. apply map_lookup_filter_None. right. simpl. naive_solver.
    + intros q Hq. apply map_lookup_filter_None. by left.
  - ok_inv. unfold tree_world. rewrite Hfs. split_and!; [done| |done].
    intros q Hq. eapply tree_none_below; [done|exact Hne| |exact Hq]. by apply eq_None_not_Some.
Qed.

Lemma remove_workspace_gone ws w w' :
  tree_world w → remove_workspace state_dir ws w = (Ok (), w') →
  ∀ q, workspace_dir state_dir ws `prefix_of` q ∨ workspace_checkpoints_dir state_dir ws `prefix_of` q →
  w_fs w' !! q = None.
Proof.
  unfold remove_workspace. cbn [for_each]. intros Ht Hr q Hq. ok_inv.
  assert (Hne : workspace_dir state_dir ws ≠ [] ∧ workspace_checkpoints_dir state_dir ws ≠ []).
  { unfold workspace_dir, workspace_checkpoints_dir. by destruct state_dir. }
  match goal with
  | H1 : remove_if_present _ _ (workspace_dir _ _) _ = _, H2 : remove_if_present _ _ _ _ = _ |- _ =>
      apply remove_if_present_ok in H1 as (Ht1 & Hn1 & Hm1); [|done|apply Hne];
      apply remove_if_present_ok in H2 as (Ht2 & Hn2 & Hm2); [|done|apply Hne]
  end.
  destruct Hq as [Hq|Hq]; [apply Hm2, Hn1, Hq|apply Hn2, Hq].
Qed.

(** a removal that reports success leaves nothing of the workspace on disk:
    neither its disk directory nor its checkpoints. *)
Theorem remove_workspace_complete ws w w' :
  tree_world w → remove_workspace state_dir ws w = (Ok (), w') →
  ∀ q, workspace_dir state_dir ws `prefix_of` q ∨ workspace_checkpoints_dir state_dir ws `prefix_of` q →
  w_fs w' !! q = None.
Proof. apply remove_workspace_gone. Qed.
End workspace_laws.

(** ** The local store has the layout *)

Section local_layout.
Context `{PlatformLaws, Serde WorkspaceCheckpointRecord, Serde WorkspaceLineageHead,
          !SerdeLaws WorkspaceCheckpointRecord, !SerdeLaws WorkspaceLineageHead} (state_dir : path).

#[export] Instance local_layout :
  @StoreLayout _ (local_store (checkpoints_dir state_dir)) (local_spec (checkpoints_dir state_dir)) state_dir.
Proof.
  split.
  - intros ws ws' q [k ->]. cbn. unfold Local.workspace_dir, checkpoints_dir, workspace_dir.
    intros [[j Hj]|[j Hj]]; rewrite <-!app_assoc in Hj; apply app_inv_head in Hj; done.
  - intros ws ws' q [k ->]. cbn. unfold Local.workspace_dir, checkpoints_dir, workspace_dir.
    intros [[j Hj]|[j Hj]]; rewrite <-!app_assoc in Hj; apply app_inv_head in Hj; done.
  - intros ws. cbn. unfold Local.workspace_dir, checkpoints_dir, workspace_checkpoints_dir. by rewrite <-app_assoc.
Qed.
End local_layout.
