(* ===== verification/Images.v ===== *)
(** * Images: [src/images/store.rs] and [src/images/types.rs]

    The store of guest images: listing, inspection, removal, and the resolution
    of an image name to the kernel and root file system a sandbox boots, with
    the kernel format probed from the file ([GuestKernelFormat::detect_from_path]
    of [src/config.rs]).  Building an image is [Packages.v], [ImageFetch.v],
    [StageFs.v], [Ext4Image.v] and [ImageBuild.v]. *)

From S2P Require Import Prelude RustStd Paths FileSystem PrivateFs FsTree Config Lineage.

Definition ALPINE_VERSION : string := "3.23.4".
Definition IMAGE_MANIFEST : string := "image.json".
Definition BASE_APK_PACKAGES : list string :=
  ["bash"; "python3"; "py3-pip"; "ca-certificates-bundle"; "busybox-binsh"; "linux-virt"].

Record VmImageManifest := mkImageManifest {
  im_version : Z;
  im_name : string;
  im_arch : string;
  im_alpine_version : string;
  im_created_at_ms : Z;
  im_apk : list string;
  im_pip : list string;
  im_npm : list string;
  im_kernel_image : string;
  im_rootfs_image : string;
  im_cache_image : option string;
  im_package_count : Z;
}.

Record ResolvedImageGuest := mkResolved { ri_guest : GuestConfig; ri_cache_image : option path }.

Definition validate_image_name (name : string) : Result SandboxError () :=
  validate_persisted_id name "image name".

(** The path a name relative to a directory leads to: an absolute name replaces
    the directory ([Path::join]) and [..] leads to the parent. *)
Definition walk (from : path) (cs : list Component) : path :=
  foldl (λ p c, match c with
                | RootDir => []
                | CurDir => p
                | ParentDir => parent p
                | Normal n => p ++ [n]
                end) from cs.
Definition join_path (dir : path) (name : string) : path := walk dir (components name).

Section images.
Context `{Platform, Target, Serde VmImageManifest} (state_dir : path).

Definition default_guest_arch : Result SandboxError string :=
  match target_os, target_x86_64 with
  | Linux, true | MacOs, true => Ok "x86_64"
  | Linux, false | MacOs, false => Ok "aarch64"
  | OtherOs, _ => Err (UnsupportedHost "unsupported host platform for guest image defaults")
  end.

Definition images_dir : path := state_dir ++ ["images"].
Definition image_dir (name : string) : path := state_dir ++ ["images"; name].
Definition package_cache_dir : path := state_dir ++ ["package-cache"].

Definition image_ensure_layout : M SandboxError World () :=
  map_err (Io "creating images directory") (fs_create_dir_all images_dir);;
  map_err (Io "creating package cache directory") (fs_create_dir_all package_cache_dir).

Definition read_manifest (p : path) : M SandboxError World VmImageManifest :=
  data ← map_err (Io ("reading " ^+ display p)) (fs_read p);
  map_err (Json ("decoding " ^+ display p)) (lift (from_slice data)).

(** [Path::is_file]: an error counts as no. *)
Definition is_file (p : path) : M SandboxError World bool :=
  metadata ← attempt (fs_metadata p);
  mret (match metadata with Ok (File _ _) => true | _ => false end).

Fixpoint read_manifests (names : list string) : M SandboxError World (list VmImageManifest) :=
  match names with
  | [] => mret []
  | name :: rest =>
      map_err (Io "reading image entry") fs_next_entry;;
      let p := image_dir name ++ [IMAGE_MANIFEST] in
      present ← is_file p;
      here ← (if present : bool then m ← read_manifest p; mret [m] else mret []);
      more ← read_manifests rest;
      mret (here ++ more)
  end.

Definition image_list : M SandboxError World (list VmImageManifest) :=
  image_ensure_layout;;
  names ← map_err (Io "reading image directory") (fs_read_dir images_dir);
  images ← read_manifests names;
  mret (sort_by_key im_name string_le images).

Definition base_manifest : VmImageManifest :=
  mkImageManifest 1 BASE_IMAGE_NAME (match default_guest_arch with Ok a => a | Err _ => "unknown" end)
    ALPINE_VERSION 0 BASE_APK_PACKAGES [] [] "default runtime kernel" "default runtime rootfs" None
    (Z.of_nat (length BASE_APK_PACKAGES)).

Definition inspect (name : string) : M SandboxError World VmImageManifest :=
  lift (validate_image_name name);;
  if String.eqb name BASE_IMAGE_NAME then mret base_manifest
  else read_manifest (image_dir name ++ [IMAGE_MANIFEST]).

(** [Path::exists]: an error counts as no. *)
Definition path_exists (p : path) : M SandboxError World bool :=
  metadata ← attempt (fs_metadata p); mret (is_ok metadata).

Definition image_remove (name : string) : M SandboxError World () :=
  lift (validate_image_name name);;
  if String.eqb name BASE_IMAGE_NAME then throw (InvalidConfig "base image cannot be removed")
  else
    present ← path_exists (image_dir name);
    if negb present then throw (NotFound ("image " ^+ name))
    else map_err (Io ("removing image " ^+ name)) (fs_remove_dir_all (image_dir name)).

Definition ensure_file (p : path) (label : string) : M SandboxError World () :=
  present ← is_file p;
  if present : bool then mret () else throw (NotFound (label ^+ " " ^+ display p)).

(** One [read] fills the probe from a regular file, as far as the file goes. *)
Definition detect_from_path (p : path) (fallback : GuestKernelFormat) : M SandboxError World GuestKernelFormat :=
  if decide (p = []) then mret fallback
  else match last p ≫= detect_from_file_name with
       | Some format => mret format
       | None =>
           data ← attempt (fs_read p);
           mret (match data with
                 | Ok b => detect_from_probe (take KERNEL_FORMAT_PROBE_BYTES b) fallback
                 | Err _ => fallback
                 end)
       end.

Definition with_image (g : GuestConfig) (kernel : path) (format : GuestKernelFormat) (rootfs : path) : GuestConfig :=
  {| kernel_image := display kernel; kernel_format := format; rootfs_image := display rootfs;
     firmware := firmware g; guest_agent_path := guest_agent_path g; guest_vsock_port := guest_vsock_port g;
     boot_timeout := boot_timeout g; guest_uid := guest_uid g; guest_gid := guest_gid g;
     guest_tmpfs_mib := guest_tmpfs_mib g |}.

Definition resolve_guest (name : string) (base_guest : GuestConfig) : M SandboxError World ResolvedImageGuest :=
  lift (validate_image_name name);;
  if String.eqb name BASE_IMAGE_NAME then mret (mkResolved base_guest None)
  else
    let dir := image_dir name in
    manifest ← read_manifest (dir ++ [IMAGE_MANIFEST]);
    let kernel := join_path dir (im_kernel_image manifest) in
    let rootfs := join_path dir (im_rootfs_image manifest) in
    let cache := join_path dir <$> im_cache_image manifest in
    ensure_file kernel "image kernel";;
    ensure_file rootfs "image rootfs";;
    match cache with Some p => ensure_file p "image cache" | None => mret () end;;
    format ← detect_from_path kernel (kernel_format base_guest);
    mret (mkResolved (with_image base_guest kernel format rootfs) cache).

(** ** Properties *)

Lemma is_file_frame p P : keeps (frame P) (is_file p).
Proof. unfold is_file. keeps_tac. Qed.
Lemma read_manifest_frame p P : keeps (frame P) (read_manifest p).
Proof. unfold read_manifest. keeps_tac. Qed.
Lemma detect_frame p f P : keeps (frame P) (detect_from_path p f).
Proof. unfold detect_from_path. keeps_tac. Qed.
#[local] Hint Resolve is_file_frame read_manifest_frame detect_frame : keeps.

(** Resolving an image only reads. *)
Lemma resolve_guest_frame name g P : keeps (frame P) (resolve_guest name g).
Proof. unfold resolve_guest, ensure_file. cbv zeta. keeps_tac. Qed.

Lemma inspect_frame name P : keeps (frame P) (inspect name).
Proof. unfold inspect. keeps_tac. Qed.

(** no operation on images removes the base image or leaves the image
    directory: removing reports an error for the base image without touching
    the disk, and any removal touches only the files of the image it names. *)
Theorem image_remove_contained name w :
  (name = BASE_IMAGE_NAME → image_remove name w = (Err (InvalidConfig "base image cannot be removed"), w)) ∧
  frame (λ q, valid_id name ∧ image_dir name `prefix_of` q) w (image_remove name w).2.
Proof.
  split.
  - intros ->. done.
  - destruct (validate_image_name name) as [[]|e] eqn:Hv.
    2: { unfold image_remove. by rewrite Hv. }
    apply validate_persisted_id_ok in Hv.
    assert (Hk : keeps (frame (λ q, valid_id name ∧ image_dir name `prefix_of` q)) (image_remove name)).
    { unfold image_remove, path_exists. keeps_tac. }
    apply (Hk w).
Qed.
End images.
