(* ===== verification/Packages.v ===== *)
(** * Packages: [src/images/packages.rs], the packages of a guest image

    The index of an Alpine repository, and the packages an image needs: the
    wanted ones and, in turn, what they depend on.  An error of [anyhow] is the
    text its alternate [Display] shows, the contexts before the cause. *)

From S2P Require Import Prelude RustStd Text Paths FileSystem FsTree Config Images.

Record Package := mkPackage {
  pk_name : string;
  pk_version : string;
  pk_repo : string;
  pk_depends : list string;
  pk_provides : list string;
}.

#[global] Instance Package_eq_decision : EqDecision Package.
Proof. solve_decision. Defined.

Definition file_name (p : Package) : string := pk_name p ^+ "-" ^+ pk_version p ^+ ".apk".

(** The packages by name, and which package provides a name. *)
Abbreviation Packages := (gmap string Package).
Abbreviation Providers := (gmap string string).

(** ** Names of dependencies *)

Definition markers : list ascii := ["!"; "?"; "<"; ">"; "="; "~"]%char.

Definition before_marker (value : string) (marker : ascii) : string :=
  match split_once marker value with Some (l, _) => l | None => value end.

Definition strip_constraint (token : string) : string := trim (foldl before_marker (trim token) markers).

Definition normalize_dep (providers : Providers) (token : string) : option string :=
  let dep := strip_constraint token in
  if decide (dep = "") then None
  else if starts_with "so:" dep || starts_with "cmd:" dep then providers !! dep
  else Some (default dep (providers !! dep)).

(** ** The index *)

Abbreviation Fields := (gmap string (list string)).

Definition add_field (fields : Fields) (line : string) : Fields :=
  match split_once ":" line with
  | Some (key, value) => <[key := default [] (fields !! key) ++ [value]]> fields
  | None => fields
  end.

Definition package_fields (block : string) : Fields := foldl add_field ∅ (str_lines block).

Definition first_field (fields : Fields) (key : string) : option string := fields !! key ≫= head.

Definition join_fields (fields : Fields) (key : string) : list string :=
  concat (split_whitespace <$> default [] (fields !! key)).

(** [entry(key).or_insert(value)] *)
Definition or_insert (key value : string) (providers : Providers) : Providers :=
  match providers !! key with Some _ => providers | None => <[key := value]> providers end.

Definition add_package (package : Package) (index : Packages * Providers) : Packages * Providers :=
  let providers := or_insert (pk_name package) (pk_name package) index.2 in
  let providers := foldl (λ m entry, or_insert (strip_constraint entry) (pk_name package) m) providers (pk_provides package) in
  (<[pk_name package := package]> index.1, providers).

Definition parse_block (repo block : string) : option Package :=
  let fields := package_fields block in
  name ← first_field fields "P";
  version ← first_field fields "V";
  Some (mkPackage name version repo (join_fields fields "D") (join_fields fields "p")).

Definition load_package_block (repo block : string) (index : Packages * Providers) : Packages * Providers :=
  match parse_block repo block with Some package => add_package package index | None => index end.

Definition blank_line : string := String line_feed (String line_feed "").

(** [content] is the text of the index of the repository. *)
Definition load_index_text (repo content : string) (index : Packages * Providers) : Packages * Providers :=
  foldl (λ index block, load_package_block repo block index) index (split_str blank_line (trim content)).

(** ** What an image needs *)

Definition wanted_apk_packages (extra : list string) (include_npm : bool) : list string :=
  let extra : gset string := list_to_set (filter (λ s, s ≠ "") (trim <$> extra)) in
  sort_by_key id string_le
    (elements (list_to_set BASE_APK_PACKAGES ∪ (if include_npm then {["npm"]} else ∅) ∪ extra : gset string)).

Section resolve.
Context (packages : Packages) (providers : Providers).

(** The stack has its top first.  [None] is the fuel running out. *)
Fixpoint resolve_loop (fuel : nat) (stack : list string) (seen : gset string) (resolved : list Package) :
    option (Result string (list Package)) :=
  match stack with
  | [] => Some (Ok resolved)
  | token :: stack' =>
      match fuel with
      | O => None
      | S fuel' =>
          match normalize_dep providers token with
          | None => resolve_loop fuel' stack' seen resolved
          | Some name =>
              if decide (name ∈ seen) then resolve_loop fuel' stack' seen resolved
              else match packages !! name with
                   | None => Some (Err ("missing package in APKINDEX: " ^+ name))
                   | Some package =>
                       resolve_loop fuel' (reverse (pk_depends package) ++ stack') ({[name]} ∪ seen) (resolved ++ [package])
                   end
          end
      end
  end.

(** Every token of the stack is a wanted one or a dependency of a package seen
    once, so this many turns are enough. *)
Definition dependency_count (m : Packages) : nat := map_fold (λ _ p n, length (pk_depends p) + n) 0 m.

Definition resolve_packages (wanted : list string) : option (Result string (list Package)) :=
  match resolve_loop (length wanted + dependency_count packages) (reverse wanted) ∅ [] with
  | Some (Ok resolved) => Some (Ok (sort_by_key pk_name string_le resolved))
  | other => other
  end.

(** *** The specification: what is needed, in terms of dependencies alone *)

Inductive needed (wanted : list string) : string → Prop :=
  | needed_wanted token name : token ∈ wanted → normalize_dep providers token = Some name → needed wanted name
  | needed_dependency n p token name :
      needed wanted n → packages !! n = Some p → token ∈ pk_depends p → normalize_dep providers token = Some name →
      needed wanted name.

(** *** The loop computes it *)

(** The names already seen are needed and in the index, and what the wanted
    packages and they need is seen or still on the stack. *)
Record resolving (wanted stack : list string) (seen : gset string) (resolved : list Package) : Prop := {
  rs_needed name : name ∈ seen → needed wanted name;
  rs_stack token name : token ∈ stack → normalize_dep providers token = Some name → needed wanted name;
  rs_resolved p : p ∈ resolved ↔ ∃ name, name ∈ seen ∧ packages !! name = Some p;
  rs_distinct : NoDup (pk_name <$> resolved);
  rs_found name : name ∈ seen → is_Some (packages !! name);
  rs_wanted token name : token ∈ wanted → normalize_dep providers token = Some name → token ∈ stack ∨ name ∈ seen;
  rs_closed n p token name : n ∈ seen → packages !! n = Some p → token ∈ pk_depends p →
    normalize_dep providers token = Some name → token ∈ stack ∨ name ∈ seen;
}.

(** Dependencies of packages not seen yet. *)
Definition unseen_count (seen : gset string) : nat := dependency_count (filter (λ kv, kv.1 ∉ seen) packages).

Lemma unseen_see name p seen :
  name ∉ seen → packages !! name = Some p → unseen_count seen = length (pk_depends p) + unseen_count ({[name]} ∪ seen).
Proof.
  intros Hn Hp. unfold unseen_count.
  assert (E : filter (λ kv : string * Package, kv.1 ∉ seen) packages =
              <[name := p]> (filter (λ kv : string * Package, kv.1 ∉ {[name]} ∪ seen) packages)).
  { apply map_eq. intros k. apply option_eq. intros q. destruct (decide (k = name)) as [->|Hk].
    - rewrite lookup_insert_eq, map_lookup_filter_Some. simpl. naive_solver.
    - rewrite lookup_insert_ne, !map_lookup_filter_Some by done. simpl. set_solver. }
  rewrite E. unfold dependency_count. rewrite map_fold_insert_L; [done|intros; lia|].
  apply map_lookup_filter_None. right. intros x _. simpl. set_solver.
Qed.

Context (named : ∀ name p, packages !! name = Some p → pk_name p = name) (wanted : list string).

Lemma resolving_start : resolving wanted (reverse wanted) ∅ [].
Proof.
  split; [set_solver| | |constructor|set_solver| |set_solver].
  - intros token name. rewrite elem_of_reverse. by apply needed_wanted.
  - intros p. split; [set_solver|]. intros (name & Hn & _). set_solver.
  - intros token name Ht _. left. by rewrite elem_of_reverse.
Qed.

(** A token that stands for nothing, or for a package already seen. *)
Lemma resolving_skip token stack seen resolved :
  (∀ name, normalize_dep providers token = Some name → name ∈ seen) →
  resolving wanted (token :: stack) seen resolved → resolving wanted stack seen resolved.
Proof.
  intros Hskip [Hn Hst Hr Hd Hf Hw Hc]. split; [done| |done|done|done| |].
  - intros t name Ht. apply Hst. by right.
  - intros t name Ht E. destruct (Hw t name Ht E) as [[->|?]%elem_of_cons|?]; [|by left|by right]. right. by apply Hskip.
  - intros n p t name Hin Hp Ht E. destruct (Hc n p t name Hin Hp Ht E) as [[->|?]%elem_of_cons|?]; [|by left|by right].
    right. by apply Hskip.
Qed.

Lemma resolving_see token name p stack seen resolved :
  normalize_dep providers token = Some name → name ∉ seen → packages !! name = Some p →
  resolving wanted (token :: stack) seen resolved →
  resolving wanted (reverse (pk_depends p) ++ stack) ({[name]} ∪ seen) (resolved ++ [p]).
Proof.
  intros Et Hname Hp [Hn Hst Hr Hd Hf Hw Hc].
  assert (Hnew : needed wanted name) by (by eapply Hst; [left|]).
  assert (Hmove : ∀ t m, t ∈ token :: stack → normalize_dep providers t = Some m →
                         t ∈ reverse (pk_depends p) ++ stack ∨ m ∈ ({[name]} ∪ seen : gset string)).
  { intros t m [->|Ht]%elem_of_cons Em; [right; assert (m = name) as -> by congruence; set_solver|left; set_solver]. }
  split.
  - intros m [->%elem_of_singleton|Hm]%elem_of_union; [done|by apply Hn].
  - intros t m [Ht|Ht]%elem_of_app Em; [rewrite elem_of_reverse in Ht; by eapply needed_dependency|eapply Hst; [by right|done]].
  - intros q. rewrite elem_of_app, list_elem_of_singleton, Hr. set_solver.
  - rewrite fmap_app. apply NoDup_app. split_and!; [done| |apply NoDup_singleton].
    intros x Hx ->%list_elem_of_singleton. apply list_elem_of_fmap in Hx as (q & Hq & Hin).
    apply Hr in Hin as (m & Hm & Hqm). apply Hname. rewrite <-(named _ _ Hp), Hq, (named _ _ Hqm). done.
  - intros m [->%elem_of_singleton|Hm]%elem_of_union; [by eexists|by apply Hf].
  - intros t m Ht Em. destruct (Hw t m Ht Em) as [?|?]; [by apply Hmove|set_solver].
  - intros n q t m Hin Hq Ht Em. apply elem_of_union in Hin as [->%elem_of_singleton|Hin].
    + assert (q = p) as -> by congruence. left. apply elem_of_app. left. by rewrite elem_of_reverse.
    + destruct (Hc n q t m Hin Hq Ht Em) as [?|?]; [by apply Hmove|set_solver].
Qed.

Definition resolve_outcome (r : Result string (list Package)) : Prop :=
  match r with
  | Ok l => ∃ seen, resolving wanted [] seen l
  | Err e => ∃ name, needed wanted name ∧ packages !! name = None ∧ e = "missing package in APKINDEX: " ^+ name
  end.

Lemma resolve_loop_ends fuel stack seen resolved :
  resolving wanted stack seen resolved → length stack + unseen_count seen ≤ fuel →
  ∃ r, resolve_loop fuel stack seen resolved = Some r ∧ resolve_outcome r.
Proof.
  revert stack seen resolved. induction fuel as [|fuel IH]; intros [|token stack] seen resolved Hinv Hfuel;
    cbn [resolve_loop length] in *; [eexists; split; [done|by eexists]|lia|eexists; split; [done|by eexists]|].
  destruct (normalize_dep providers token) as [name|] eqn:Et.
  2:{ apply IH; [|lia]. eapply resolving_skip; [|done]. congruence. }
  case_decide as Hname.
  { apply IH; [|lia]. eapply resolving_skip; [|done]. congruence. }
  destruct (packages !! name) as [p|] eqn:Hp.
  - apply IH; [by eapply resolving_see|]. rewrite length_app, length_reverse. rewrite (unseen_see _ p) in Hfuel by done. lia.
  - eexists. split; [done|]. exists name. split_and!; [|done|done]. eapply rs_stack; [done|by left|done].
Qed.

(** Nothing left on the stack: what was seen is what is needed. *)
Lemma resolving_done seen l name : resolving wanted [] seen l → name ∈ seen ↔ needed wanted name.
Proof.
  intros [Hn _ _ _ _ Hw Hc]. split; [apply Hn|].
  induction 1 as [token m Ht Em|n p token m Hneed IH Hp Ht Em].
  - destruct (Hw token m Ht Em) as [?|?]; set_solver.
  - destruct (Hc n p token m IH Hp Ht Em) as [?|?]; set_solver.
Qed.

(** The packages of the needed names, each once, in the order of their names. *)
Definition closure_of (l : list Package) : Prop :=
  (∀ p, p ∈ l ↔ ∃ name, needed wanted name ∧ packages !! name = Some p) ∧
  (∀ name, needed wanted name → is_Some (packages !! name)) ∧
  NoDup (pk_name <$> l) ∧ StronglySorted (λ p q, string_le (pk_name p) (pk_name q) = true) l.

Lemma resolve_packages_outcome : ∃ r, resolve_packages wanted = Some r ∧
  match r with
  | Ok l => closure_of l
  | Err e => ∃ name, needed wanted name ∧ packages !! name = None ∧ e = "missing package in APKINDEX: " ^+ name
  end.
Proof.
  destruct (resolve_loop_ends (length wanted + dependency_count packages) (reverse wanted) ∅ []) as (r & Hr & Ho).
  { apply resolving_start. }
  { rewrite length_reverse. unfold unseen_count. rewrite map_filter_id; [lia|]. set_solver. }
  unfold resolve_packages. rewrite Hr. destruct r as [l|e]; [|by exists (Err e)].
  eexists. split; [done|]. destruct Ho as [seen Hs]. unfold closure_of. split_and!.
  - intros p. rewrite sort_by_key_elem, (rs_resolved _ _ _ _ Hs). setoid_rewrite (resolving_done seen l); done.
  - intros name Hn. eapply rs_found; [exact Hs|]. by eapply resolving_done.
  - rewrite (fmap_Permutation pk_name _ _ (sort_by_key_perm _ _ _)). apply (rs_distinct _ _ _ _ Hs).
  - apply sort_by_key_sorted; [apply string_le_total|apply string_le_trans].
Qed.
End resolve.

(** ** The index as loaded *)

Definition indexed (index : Packages * Providers) : Prop := ∀ name p, index.1 !! name = Some p → pk_name p = name.

Lemma add_package_indexed p index : indexed index → indexed (add_package p index).
Proof. intros Hi name q. cbn. intros [[<- <-]|[_ Hq]]%lookup_insert_Some; [done|by apply Hi]. Qed.

Lemma load_index_indexed repo content index : indexed index → indexed (load_index_text repo content index).
Proof.
  unfold load_index_text. generalize (split_str blank_line (trim content)). intros blocks. revert index.
  induction blocks as [|block blocks IH]; intros index Hi; [done|]. cbn. apply IH. unfold load_package_block.
  destruct (parse_block repo block); [by apply add_package_indexed|done].
Qed.

(** Who provides a name is settled by the first package that does. *)
Lemma or_insert_first k v k' v' m : m !! k = Some v → or_insert k' v' m !! k = Some v.
Proof.
  intros Hk. unfold or_insert. destruct (m !! k') eqn:E; [done|]. rewrite lookup_insert_ne; [done|congruence].
Qed.

Lemma provides_first k v owner entries m :
  m !! k = Some v → foldl (λ m entry, or_insert (strip_constraint entry) owner m) m entries !! k = Some v.
Proof. revert m. induction entries as [|e entries IH]; intros m Hk; [done|]. cbn. by apply IH, or_insert_first. Qed.

Lemma add_package_first p index k v : index.2 !! k = Some v → (add_package p index).2 !! k = Some v.
Proof. intros Hk. cbn. by apply provides_first, or_insert_first. Qed.

Definition load_both (main community : string) : Packages * Providers :=
  load_index_text "community" community (load_index_text "main" main (∅, ∅)).

Lemma load_both_indexed main community : indexed (load_both main community).
Proof. by apply load_index_indexed, load_index_indexed. Qed.

(** C22: resolution computes the closure of the dependencies and nothing else: for
    whatever texts the indexes hold and whatever is wanted, [resolve_packages]
    ends (its fuel is enough); if every needed name has a package, the result is
    exactly the packages of the needed names, each once and sorted by name; if
    not, the error names a needed package the indexes do not have. *)
Theorem resolve_is_closure main community wanted :
  let index := load_both main community in
  ∃ r, resolve_packages index.1 index.2 wanted = Some r ∧
    match r with
    | Ok l => closure_of index.1 index.2 wanted l
    | Err e => ∃ name, needed index.1 index.2 wanted name ∧ index.1 !! name = None ∧
                       e = "missing package in APKINDEX: " ^+ name
    end.
Proof. intros index. apply resolve_packages_outcome. apply load_both_indexed. Qed.

(** *** The order of the wish list does not matter *)

Lemma needed_mono packages providers wanted wanted' name :
  wanted ⊆ wanted' → needed packages providers wanted name → needed packages providers wanted' name.
Proof.
  intros Hw. induction 1 as [token name Ht En|n p token name _ IH Hp Ht En].
  - eapply needed_wanted; [by apply Hw|done].
  - by eapply needed_dependency.
Qed.

Lemma sorted_names_unique (l l' : list Package) :
  StronglySorted (λ p q, string_le (pk_name p) (pk_name q) = true) l →
  StronglySorted (λ p q, string_le (pk_name p) (pk_name q) = true) l' →
  NoDup (pk_name <$> l) → (∀ p q, p ∈ l → q ∈ l' → pk_name p = pk_name q → p = q) → l ≡ₚ l' → l = l'.
Proof.
  intros Hs. revert l'. induction Hs as [|p l Hs IH Hp]; intros l' Hs' Hd Huniq HP; [by apply Permutation_nil in HP|].
  destruct Hs' as [|q l' Hs' Hq]; [by apply symmetry, Permutation_nil in HP|].
  assert (p = q) as ->.
  { apply Huniq; [by left|by left|]. apply string_le_antisym.
    - assert (Hin : q ∈ p :: l) by (rewrite HP; by left). apply elem_of_cons in Hin as [->|Hin].
      + pose proof (string_le_total (pk_name p) (pk_name p)) as Ht. by rewrite orb_diag in Ht.
      + by apply (proj1 (Forall_forall _ _) Hp).
    - assert (Hin : p ∈ q :: l') by (rewrite <-HP; by left). apply elem_of_cons in Hin as [->|Hin].
      + pose proof (string_le_total (pk_name q) (pk_name q)) as Ht. by rewrite orb_diag in Ht.
      + by apply (proj1 (Forall_forall _ _) Hq). }
  f_equal. apply IH; [done|by inversion Hd| |by apply Permutation_cons_inv in HP].
  intros a b Ha Hb. apply Huniq; by right.
Qed.

Lemma closure_unique packages providers wanted wanted' l l' :
  (∀ name p, packages !! name = Some p → pk_name p = name) → wanted ≡ₚ wanted' →
  closure_of packages providers wanted l → closure_of packages providers wanted' l' → l = l'.
Proof.
  intros Hnamed HP (Hl & _ & Hd & Hs) (Hl' & _ & Hd' & Hs').
  assert (Hneed : ∀ name, needed packages providers wanted name ↔ needed packages providers wanted' name).
  { intros name. split; apply needed_mono; intros x; by rewrite HP. }
  assert (Hiff : ∀ p, p ∈ l ↔ p ∈ l') by (intros p; rewrite Hl, Hl'; by setoid_rewrite Hneed).
  apply sorted_names_unique; [done..| |].
  - intros p q Hp Hq E. apply Hl in Hp as (n & _ & Hp). apply Hl' in Hq as (m & _ & Hq).
    apply Hnamed in Hp as Ep. apply Hnamed in Hq as Eq. congruence.
  - apply NoDup_Permutation; [by eapply NoDup_fmap_1|by eapply NoDup_fmap_1|done].
Qed.

(** ** Reading an index back *)

(** A string up to the first character that [f] holds of. *)
Fixpoint until_char (f : ascii → bool) (s : string) : string :=
  match s with EmptyString => "" | String a s' => if f a then "" else String a (until_char f s') end.

Lemma until_until f g s : until_char f (until_char g s) = until_char (λ a, f a || g a) s.
Proof.
  induction s as [|a s IH]; [done|]. simpl. destruct (g a) eqn:Eg; [by rewrite orb_true_r|]. rewrite orb_false_r. simpl.
  by destruct (f a); [|rewrite IH].
Qed.

Lemma until_ext f g s : (∀ a, f a = g a) → until_char f s = until_char g s.
Proof. intros Hfg. induction s as [|a s IH]; [done|]. simpl. by rewrite Hfg, IH. Qed.

Lemma before_marker_until m s : before_marker s m = until_char (λ a, Ascii.eqb a m) s.
Proof.
  unfold before_marker. induction s as [|a s IH]; [done|]. simpl. destruct (Ascii.eqb a m) eqn:E; [done|].
  rewrite <-IH. by destruct (split_once m s) as [[]|].
Qed.

Definition is_marker (a : ascii) : bool := bool_decide (a ∈ markers).

(** A dependency is its token up to the first constraint, trimmed. *)
Lemma strip_constraint_until token : strip_constraint token = trim (until_char is_marker (trim token)).
Proof.
  unfold strip_constraint, markers. cbn [foldl]. rewrite !before_marker_until, !until_until. f_equal.
  apply until_ext. intros a. unfold is_marker, markers. destruct a as [[][][][][][][][]]; reflexivity.
Qed.

Lemma strip_constraint_plain token : solid token → all_chars (λ a, negb (is_marker a)) token = true → strip_constraint token = token.
Proof.
  intros Hs Hc. rewrite strip_constraint_until, (trim_solid token Hs).
  assert (E : until_char is_marker token = token).
  { clear Hs. induction token as [|a s IH]; [done|]. simpl in *. apply andb_true_iff in Hc as [Ha%negb_true_iff Hc]. by rewrite Ha, IH. }
  rewrite E. by apply trim_solid.
Qed.

(** A block of an index, as the repositories write it. *)
Definition field (key value : string) : string := key ^+ ":" ^+ value.
Definition render_package (p : Package) : string :=
  field "P" (pk_name p) ^+ String line_feed (field "V" (pk_version p) ^+ String line_feed
    (field "D" (unwords (pk_depends p)) ^+ String line_feed (field "p" (unwords (pk_provides p))))).

Definition word (s : string) : Prop := s ≠ "" ∧ all_chars graphic s = true.
Definition package_wf (p : Package) : Prop :=
  word (pk_name p) ∧ word (pk_version p) ∧ Forall word (pk_depends p) ∧ Forall word (pk_provides p).

Lemma word_solid s : word s → solid s.
Proof. intros [? ?]. by apply graphic_solid. Qed.

Lemma graphic_no_feed s : all_chars graphic s = true → all_chars (λ a, negb (Ascii.eqb a line_feed)) s = true.
Proof. apply all_chars_impl. intros a Ha. by destruct a as [[][][][][][][][]]. Qed.

Lemma unwords_chars f ws : f " "%char = true → Forall (λ w, all_chars f w = true) ws → all_chars f (unwords ws) = true.
Proof.
  intros Hsp. induction ws as [|w [|v ws] IH]; [done|by intros [? _]%Forall_cons|].
  intros [Hw Hrest]%Forall_cons. change (unwords (w :: v :: ws)) with (w ^+ " " ^+ unwords (v :: ws)).
  rewrite !all_chars_app, Hw, IH by done. simpl. by rewrite Hsp.
Qed.

Lemma unwords_solid ws : ws ≠ [] → Forall word ws → solid (unwords ws).
Proof.
  induction ws as [|w [|v ws] IH]; [done|intros _ [Hw _]%Forall_cons; by apply word_solid|].
  intros _ [Hw Hrest]%Forall_cons. change (unwords (w :: v :: ws)) with (w ^+ " " ^+ unwords (v :: ws)).
  apply (solid_app w " "); [by apply word_solid|by apply IH].
Qed.

Lemma split_unwords_all ws : Forall word ws → split_whitespace (unwords ws) = ws.
Proof.
  induction ws as [|w [|v ws] IH]; [done|intros [[? ?] _]%Forall_cons; by apply split_whitespace_one|].
  intros [[? ?] Hrest]%Forall_cons. change (unwords (w :: v :: ws)) with (w ^+ " " ^+ unwords (v :: ws)).
  rewrite split_whitespace_word by done. by rewrite IH.
Qed.

(** A line of a block. *)
Lemma field_line key ws : word key → Forall word ws → solid (field key (unwords ws)).
Proof.
  intros Hk Hws. unfold field. destruct (decide (ws = [])) as [->|Hne].
  - change (key ^+ ":" ^+ unwords []) with (key ^+ ":" ^+ ""). rewrite <-(string_app_nil_r ":"), string_app_assoc.
    apply graphic_solid; [destruct key; [by destruct Hk|done]|].
    rewrite !all_chars_app. by rewrite (proj2 Hk).
  - apply (solid_app key ":"); [by apply word_solid|by apply unwords_solid].
Qed.

Lemma str_lines_last l : l ≠ "" → all_chars (λ a, negb (Ascii.eqb a line_feed)) l = true → str_lines l = [l].
Proof.
  intros Hne Hl. unfold str_lines.
  assert (E : split_on line_feed l = [l]).
  { clear Hne. induction l as [|a l IH]; [done|]. simpl in *. apply andb_true_iff in Hl as [Ha%negb_true_iff Hl]. by rewrite IH, Ha. }
  rewrite E. simpl. by destruct l.
Qed.

Lemma field_no_feed key ws :
  word key → Forall word ws → all_chars (λ a, negb (Ascii.eqb a line_feed)) (field key (unwords ws)) = true.
Proof.
  intros [_ Hk] Hws. unfold field. rewrite !all_chars_app, (graphic_no_feed key Hk). simpl. apply unwords_chars; [done|].
  eapply Forall_impl; [exact Hws|]. intros w [_ Hw]. by apply graphic_no_feed.
Qed.

Lemma add_field_line m key value :
  all_chars (λ a, negb (Ascii.eqb a ":")) key = true →
  add_field m (field key value) = <[key := default [] (m !! key) ++ [value]]> m.
Proof. intros Hk. unfold add_field, field. change (":" ^+ value) with (String ":" value). by rewrite split_once_app. Qed.

(** A package is read back from its block. *)
Lemma parse_render p : package_wf p → parse_block (pk_repo p) (render_package p) = Some p.
Proof.
  destruct p as [name version repo depends provides]. intros (Hn & Hv & Hd & Hp). cbn in *.
  assert (Hkey : ∀ k, graphic k = true → word (String k "")) by (intros k Hk; split; [done|]; simpl; by rewrite Hk).
  assert (Hline : ∀ k ws, graphic k = true → Forall word ws → solid (field (String k "") (unwords ws)) ∧
    all_chars (λ a, negb (Ascii.eqb a line_feed)) (field (String k "") (unwords ws)) = true).
  { intros k ws Hk Hws. split; [by apply field_line; [apply Hkey|]|by apply field_no_feed; [apply Hkey|]]. }
  destruct (Hline "P"%char [name] eq_refl (proj2 (Forall_singleton _ _) Hn)) as [S1 F1].
  destruct (Hline "V"%char [version] eq_refl (proj2 (Forall_singleton _ _) Hv)) as [S2 F2].
  destruct (Hline "D"%char depends eq_refl Hd) as [S3 F3]. destruct (Hline "p"%char provides eq_refl Hp) as [_ F4].
  assert (N4 : field "p" (unwords provides) ≠ "") by discriminate.
  unfold parse_block, package_fields, render_package. cbn [pk_name pk_version pk_depends pk_provides unwords] in *.
  rewrite (str_lines_cons _ _ F1 S1), (str_lines_cons _ _ F2 S2), (str_lines_cons _ _ F3 S3), (str_lines_last _ N4 F4).
  cbn [foldl]. rewrite !add_field_line by done. unfold first_field, join_fields.
  rewrite !lookup_empty. cbn [default from_option app]. simplify_map_eq. cbn [fmap list_fmap concat]. rewrite !app_nil_r.
  by rewrite !split_unwords_all.
Qed.

(** *** Blocks between blank lines *)

(** Every line feed is followed by something on its line. *)
Fixpoint no_blank (s : string) : bool :=
  match s with
  | EmptyString => true
  | String a s' =>
      (negb (Ascii.eqb a line_feed) || match s' with String b _ => negb (Ascii.eqb b line_feed) | EmptyString => false end) && no_blank s'
  end.

Lemma no_blank_line l : all_chars (λ a, negb (Ascii.eqb a line_feed)) l = true → no_blank l = true.
Proof. induction l as [|a l IH]; [done|]. simpl. intros [-> Hl]%andb_true_iff. by rewrite IH. Qed.

Lemma no_blank_cons l rest :
  all_chars (λ a, negb (Ascii.eqb a line_feed)) l = true → no_blank rest = true →
  (∃ b s, rest = String b s ∧ Ascii.eqb b line_feed = false) → no_blank (l ^+ String line_feed rest) = true.
Proof.
  intros Hl Hr (b & s & -> & Hb). induction l as [|a l IH].
  - change (no_blank ("" ^+ String line_feed (String b s))) with
      ((negb (Ascii.eqb line_feed line_feed) || negb (Ascii.eqb b line_feed)) && no_blank (String b s)). by rewrite Hr, Hb, orb_true_r.
  - simpl in Hl. apply andb_true_iff in Hl as [Ha Hl]. change (String a l ^+ ?x) with (String a (l ^+ x)). cbn [no_blank].
    by rewrite Ha, IH.
Qed.

Lemma strip_blank_none a s : no_blank (String a s) = true → strip_prefix blank_line (String a s) = None.
Proof.
  intros Hb. unfold blank_line. cbn [strip_prefix]. destruct (Ascii.eqb_spec a line_feed) as [->|Ha].
  - rewrite Ascii.eqb_refl. destruct s as [|b s]; [done|]. cbn in Hb. destruct (Ascii.eqb_spec b line_feed) as [->|Hb']; [done|].
    by rewrite (proj2 (Ascii.eqb_neq _ _) (not_eq_sym Hb')).
  - by rewrite (proj2 (Ascii.eqb_neq _ _) (not_eq_sym Ha)).
Qed.

Lemma split_once_blank l r :
  no_blank l = true → split_once_str blank_line (l ^+ blank_line ^+ r) = Some (l, r) ∧ split_once_str blank_line l = None.
Proof.
  induction l as [|a l IH]; [by intros _|]. intros Hb. pose proof (strip_blank_none a l Hb) as Hs.
  assert (Hl : no_blank l = true) by (cbn [no_blank] in Hb; apply andb_true_iff in Hb; tauto).
  destruct (IH Hl) as [E1 E2]. split; [|cbn [split_once_str]; by rewrite Hs, E2].
  assert (Hs' : strip_prefix blank_line (String a (l ^+ blank_line ^+ r)) = None).
  { destruct l as [|b l]; [|].
    - cbn [no_blank] in Hb. unfold blank_line. cbn [strip_prefix]. destruct (Ascii.eqb_spec line_feed a) as [<-|]; done.
    - revert Hs. change (String b l ^+ ?x) with (String b (l ^+ x)). unfold blank_line. cbn [strip_prefix].
      destruct (Ascii.eqb line_feed a), (Ascii.eqb line_feed b); done. }
  change (String a l ^+ ?x) with (String a (l ^+ x)). cbn [split_once_str]. rewrite Hs', E1. done.
Qed.

Fixpoint unblocks (blocks : list string) : string :=
  match blocks with [] => "" | [b] => b | b :: rest => b ^+ blank_line ^+ unblocks rest end.

Lemma split_blocks fuel blocks :
  blocks ≠ [] → Forall (λ b, no_blank b = true) blocks → String.length (unblocks blocks) ≤ fuel →
  split_str_fuel fuel blank_line (unblocks blocks) = blocks.
Proof.
  revert fuel. induction blocks as [|b [|c blocks] IH]; intros fuel; [done| |].
  - intros _ [Hb _]%Forall_cons _. destruct fuel as [|fuel]; [done|]. cbn [split_str_fuel unblocks].
    by rewrite (proj2 (split_once_blank b "" Hb)).
  - intros _ [Hb Hrest]%Forall_cons. change (unblocks (b :: c :: blocks)) with (b ^+ blank_line ^+ unblocks (c :: blocks)).
    rewrite !string_length_app. intros Hfuel. change (String.length blank_line) with 2 in Hfuel.
    destruct fuel as [|fuel]; [lia|]. cbn [split_str_fuel]. rewrite (proj1 (split_once_blank b _ Hb)), IH; [done|done|done|lia].
Qed.

Definition render_index (packages : list Package) : string := unblocks (render_package <$> packages).

Lemma field_head key value : ∃ b s, field (String key "") value = String b s ∧ b = key.
Proof. by eexists _, _. Qed.

Lemma render_no_blank p : package_wf p → no_blank (render_package p) = true.
Proof.
  intros (Hn & Hv & Hd & Hp).
  assert (Hf : ∀ k ws, graphic k = true → Forall word ws →
    all_chars (λ a, negb (Ascii.eqb a line_feed)) (field (String k "") (unwords ws)) = true).
  { intros k ws Hk Hws. apply field_no_feed; [split; [done|]; simpl; by rewrite Hk|done]. }
  unfold render_package.
  apply no_blank_cons; [apply (Hf "P"%char [pk_name p]); [done|by apply Forall_singleton]| |by eexists _, _].
  apply no_blank_cons; [apply (Hf "V"%char [pk_version p]); [done|by apply Forall_singleton]| |by eexists _, _].
  apply no_blank_cons; [by apply Hf| |by eexists _, _]. by apply no_blank_line, Hf.
Qed.

Lemma render_solid p : package_wf p → solid (render_package p).
Proof.
  intros (Hn & Hv & Hd & Hp). unfold render_package.
  assert (Hk : ∀ k, graphic k = true → word (String k "")) by (intros k E; split; [done|]; simpl; by rewrite E).
  assert (S1 : solid (field "P" (pk_name p))) by (apply (field_line _ [pk_name p]); [by apply Hk|by apply Forall_singleton]).
  assert (S2 : solid (field "V" (pk_version p))) by (apply (field_line _ [pk_version p]); [by apply Hk|by apply Forall_singleton]).
  assert (S3 : solid (field "D" (unwords (pk_depends p)))) by (apply field_line; [by apply Hk|done]).
  assert (S4 : solid (field "p" (unwords (pk_provides p)))) by (apply field_line; [by apply Hk|done]).
  refine (solid_app _ (String line_feed "") _ S1 _). refine (solid_app _ (String line_feed "") _ S2 _).
  exact (solid_app _ (String line_feed "") _ S3 S4).
Qed.

Lemma unblocks_solid blocks : blocks ≠ [] → Forall solid blocks → solid (unblocks blocks).
Proof.
  induction blocks as [|b [|c blocks] IH]; [done|by intros _ [? _]%Forall_cons|].
  intros _ [Hb Hrest]%Forall_cons. change (unblocks (b :: c :: blocks)) with (b ^+ blank_line ^+ unblocks (c :: blocks)).
  apply solid_app; [done|by apply IH].
Qed.

(** an index written as the repositories write it is loaded package by package,
    with nothing lost or changed: the packages, in their order, as if each had
    been added by itself. *)
Theorem index_roundtrip repo packages index :
  Forall (λ p, package_wf p ∧ pk_repo p = repo) packages →
  load_index_text repo (render_index packages) index = foldl (λ index p, add_package p index) index packages.
Proof.
  intros Hall. destruct packages as [|p packages]; [done|]. set (ps := p :: packages) in *.
  assert (Hwf : Forall package_wf ps) by (eapply Forall_impl; [exact Hall|]; by intros q [? _]).
  unfold load_index_text, render_index. rewrite trim_solid.
  2:{ apply unblocks_solid; [done|]. apply Forall_fmap. eapply Forall_impl; [exact Hwf|]. intros q. apply render_solid. }
  unfold split_str. rewrite split_blocks; [|done| |done].
  2:{ apply Forall_fmap. eapply Forall_impl; [exact Hwf|]. intros q. apply render_no_blank. }
  clearbody ps. revert index. induction ps as [|q ps IH]; intros index; [done|]. apply Forall_cons in Hall as [[Hq <-] Hall].
  apply Forall_cons in Hwf as [_ Hwf]. cbn. unfold load_package_block. rewrite parse_render by done. by apply IH.
Qed.

(** ** Who answers for a name *)

Lemma fold_first k v packages index :
  index.2 !! k = Some v → (foldl (λ index p, add_package p index) index packages).2 !! k = Some v.
Proof. revert index. induction packages as [|p ps IH]; intros index Hk; [done|]. cbn [foldl]. by apply IH, add_package_first. Qed.

Lemma provides_settles k owner entries m :
  m !! k = None → k ∈ strip_constraint <$> entries →
  foldl (λ m entry, or_insert (strip_constraint entry) owner m) m entries !! k = Some owner.
Proof.
  revert m. induction entries as [|e entries IH]; intros m Hk Hin; [by apply not_elem_of_nil in Hin|]. cbn [foldl].
  destruct (decide (strip_constraint e = k)) as [<-|Hne].
  - apply provides_first. unfold or_insert. rewrite Hk. apply lookup_insert_eq.
  - apply IH; [unfold or_insert; case_match; [done|by rewrite lookup_insert_ne]|]. cbn in Hin. set_solver.
Qed.

(** a package can be hidden by one that merely provides its name: when the
    package [p] provides [name] and comes first, then wishing for [name] gives
    [p], even if a package of that very name follows in the index, which is then
    not installed unless something else needs it under another name. *)
Theorem provider_hides_package p name rest index :
  index.2 !! name = None → pk_name p ≠ name → name ∈ strip_constraint <$> pk_provides p → strip_constraint name = name →
  name ≠ "" →
  let loaded := foldl (λ index p, add_package p index) (add_package p index) rest in
  normalize_dep loaded.2 name = Some (pk_name p).
Proof.
  intros Hk Hne Hin Hs Hnil loaded.
  assert (Hp : loaded.2 !! name = Some (pk_name p)).
  { apply fold_first. cbn. apply provides_settles; [|done]. unfold or_insert. case_match; [done|by rewrite lookup_insert_ne]. }
  unfold normalize_dep. rewrite Hs, decide_False, Hp by done. by destruct (_ || _).
Qed.

(** A library no package provides is left out without an error. *)
Lemma missing_library_dropped packages providers token stack fuel seen resolved :
  normalize_dep providers token = None →
  resolve_loop packages providers (S fuel) (token :: stack) seen resolved =
  resolve_loop packages providers fuel stack seen resolved.
Proof. intros E. cbn. by rewrite E. Qed.

(** *** The wish list *)

(** The packages of every image are wanted, npm when something needs it, and
    whatever was asked for, without blanks, each once and sorted. *)
Lemma wanted_spec extra npm name :
  name ∈ wanted_apk_packages extra npm ↔
    name ∈ BASE_APK_PACKAGES ∨ (npm = true ∧ name = "npm") ∨ (name ≠ "" ∧ ∃ asked, asked ∈ extra ∧ name = trim asked).
Proof.
  unfold wanted_apk_packages. rewrite sort_by_key_elem, elem_of_elements, !elem_of_union, !elem_of_list_to_set, list_elem_of_filter, list_elem_of_fmap.
  destruct npm; set_solver.
Qed.

Lemma wanted_sorted extra npm : StronglySorted (λ a b, string_le a b = true) (wanted_apk_packages extra npm) ∧
  NoDup (wanted_apk_packages extra npm).
Proof.
  split; [apply (sort_by_key_sorted id string_le string_le_total string_le_trans)|].
  unfold wanted_apk_packages. rewrite sort_by_key_perm. apply NoDup_elements.
Qed.
