(* ===== verification/Protocol.v ===== *)
(** * Protocol: [shared/src/protocol.rs], [src/protocol.rs] and [src/host_log.rs]

    Execution requests and events, what a client collects from an event stream,
    and the tail of a log file.  A stream is the list of the events it yields. *)

From S2P Require Import Prelude RustStd.

(** ** The crate [base64], its standard alphabet with padding *)

Class Base64 := {
  base64_encode : bytes → string;
  base64_decode : string → Result string bytes;
}.
Class Base64Laws `{Base64} : Prop := {
  base64_decode_encode b : base64_decode (base64_encode b) = Ok b;
}.

(** ** Requests and events *)

Record ExecRequest := mkExec {
  ex_program : string;
  ex_args : list string;
  ex_env : gmap string string;
  ex_cwd : string;
  ex_timeout_ms : option Z;
  ex_kill_grace_ms : Z;
}.

Definition ExecRequest_python (code : string) : ExecRequest :=
  mkExec "/usr/bin/env" ["python3"; "-u"; "-c"; code] ∅ "/workspace" None 250.

Definition ExecRequest_shell (command : string) : ExecRequest :=
  mkExec "/bin/bash" ["--noprofile"; "--norc"; "-lc"; command] ∅ "/workspace" None 250.

Record ShellRequest := mkShell {
  sh_program : string;
  sh_args : list string;
  sh_env : gmap string string;
  sh_cwd : string;
}.

Definition ShellRequest_default : ShellRequest :=
  mkShell "/bin/bash" ["--noprofile"; "--norc"; "--noediting"; "-i"]
    (<["TERM" := "dumb"]> (<["PS1" := "$ "]> (<["INPUTRC" := "/dev/null"]> ∅))) "/workspace".

Inductive OutputStream := Stdout | Stderr.

Inductive ExecExit := Success | ExitCode (code : Z) | ExecTimeout | Killed.

Inductive ExecutionEvent :=
  | EvOutput (stream : OutputStream) (data : bytes)
  | EvExit (status : ExecExit).

Inductive ShellEvent := ShStarted | ShOutput (data : bytes) | ShExit (code : Z).

Record GuestRuntimeStats := mkStats {
  st_cpu_millicores : Z;
  st_memory_used_mib : Z;
  st_fs_used_mib : Z;
  st_process_count : Z;
}.

#[global] Instance OutputStream_eq_decision : EqDecision OutputStream.
Proof. solve_decision. Defined.
#[global] Instance ExecExit_eq_decision : EqDecision ExecExit.
Proof. solve_decision. Defined.
#[global] Instance ExecutionEvent_eq_decision : EqDecision ExecutionEvent.
Proof. solve_decision. Defined.

(** ** [CommandStream::collect] *)

Record CompletedExecution := mkCompleted {
  ce_exit_status : ExecExit;
  ce_exit_code : option Z;
  ce_output : bytes;
  ce_stdout : bytes;
  ce_stderr : bytes;
}.

Definition exit_code (status : ExecExit) : option Z :=
  match status with
  | Success => Some 0%Z
  | ExitCode code => Some code
  | ExecTimeout | Killed => None
  end.

Record Collected := mkCollected {
  co_stdout : bytes; co_stderr : bytes; co_output : bytes; co_exit : ExecExit }.

Definition collect_event (acc : Collected) (event : ExecutionEvent) : Collected :=
  match event with
  | EvOutput Stdout data => mkCollected (co_stdout acc ++ data) (co_stderr acc) (co_output acc ++ data) (co_exit acc)
  | EvOutput Stderr data => mkCollected (co_stdout acc) (co_stderr acc ++ data) (co_output acc ++ data) (co_exit acc)
  | EvExit status => mkCollected (co_stdout acc) (co_stderr acc) (co_output acc) status
  end.

Definition collect (events : list ExecutionEvent) : CompletedExecution :=
  let acc := foldl collect_event (mkCollected [] [] [] Killed) events in
  mkCompleted (co_exit acc) (exit_code (co_exit acc)) (co_output acc) (co_stdout acc) (co_stderr acc).

(** [wrap_exec_stream] of [src/runtime/service/ops.rs]: forwards events up to
    and including the first exit. *)
Fixpoint wrap_exec_stream (events : list ExecutionEvent) : list ExecutionEvent :=
  match events with
  | [] => []
  | EvExit status :: _ => [EvExit status]
  | event :: rest => event :: wrap_exec_stream rest
  end.

(** ** [src/host_log.rs] *)

Definition newline : ascii := "010".
Definition carriage : ascii := "013".

Fixpoint drop_last_cr (s : string) : string :=
  match s with
  | EmptyString => EmptyString
  | String a EmptyString => if Ascii.eqb a carriage then EmptyString else s
  | String a s' => String a (drop_last_cr s')
  end.

(** [str::lines]: split at line feeds, without a trailing empty line and without
    the carriage return before a line feed. *)
Definition lines (s : string) : list string :=
  let pieces := split_on newline s in
  let body := map drop_last_cr (take (pred (length pieces)) pieces) in
  match last pieces with
  | Some "" | None => body
  | Some l => body ++ [l]
  end.

Definition join_lines (l : list string) : string :=
  match l with
  | [] => ""
  | x :: xs => foldl (λ acc y, acc ^+ String newline y) x xs
  end.

(** The body of [read_file_tail_lossy] once the file is read: the ring of the
    last [max_lines] lines. *)
Definition push_tail (max_lines : nat) (tail : list string) (line : string) : list string :=
  (if decide (length tail = max_lines) then drop 1 tail else tail) ++ [line].

Definition tail_text (text : string) (max_lines : nat) : string :=
  match max_lines with
  | O => ""
  | _ => join_lines (foldl (push_tail max_lines) [] (lines text))
  end.

(** ** Properties *)

Definition data_of (s : OutputStream) (event : ExecutionEvent) : bytes :=
  match event with EvOutput s' data => if decide (s = s') then data else [] | EvExit _ => [] end.
Definition any_data (event : ExecutionEvent) : bytes :=
  match event with EvOutput _ data => data | EvExit _ => [] end.
Definition exit_of (event : ExecutionEvent) : option ExecExit :=
  match event with EvExit status => Some status | EvOutput _ _ => None end.

Lemma collect_fold acc events :
  foldl collect_event acc events =
  mkCollected (co_stdout acc ++ mjoin (map (data_of Stdout) events))
    (co_stderr acc ++ mjoin (map (data_of Stderr) events))
    (co_output acc ++ mjoin (map any_data events))
    (default (co_exit acc) (last (omap exit_of events))).
Proof.
  revert acc. induction events as [|e events IH]; intros acc; csimpl.
  - by rewrite !app_nil_r; destruct acc.
  - rewrite IH. destruct e as [[] data|status]; csimpl; rewrite <-?app_assoc; try done.
    destruct (omap exit_of events) as [|x l] eqn:El; [done|]. rewrite last_cons_cons.
    destruct (last (x :: l)) eqn:E; [done|]. by apply last_None in E.
Qed.

(** The prefix of a stream up to its first exit. *)
Lemma wrap_exec_stream_split events :
  Forall (λ e, exit_of e = None) events ∧ wrap_exec_stream events = events ∨
  ∃ before status after, events = before ++ EvExit status :: after ∧
    Forall (λ e, exit_of e = None) before ∧ wrap_exec_stream events = before ++ [EvExit status].
Proof.
  induction events as [|e events IH]; [by left|]. destruct e as [s data|status]; simpl.
  - destruct IH as [[Hall ->]|(b & st & a & -> & Hall & ->)].
    + left. split; [by constructor|done].
    + right. exists (EvOutput s data :: b), st, a. split_and!; [done|by constructor|done].
  - right. by exists [], status, events.
Qed.

Lemma omap_exit_none events : Forall (λ e, exit_of e = None) events → omap exit_of events = [].
Proof. induction 1 as [|e l He _ IH]; csimpl; [done|]. by rewrite He. Qed.

(** what a client collects from a sandboxed command: the two streams and
    their interleaving, byte for byte and in order, and one exit status, that of
    the first exit event; what the guest sends after it is never seen, and a
    stream that ends without an exit is reported as killed. *)
Theorem collect_wrapped_stream events :
  let c := collect (wrap_exec_stream events) in
  ce_stdout c = mjoin (map (data_of Stdout) (wrap_exec_stream events)) ∧
  ce_stderr c = mjoin (map (data_of Stderr) (wrap_exec_stream events)) ∧
  ce_output c = mjoin (map any_data (wrap_exec_stream events)) ∧
  ce_exit_status c = default Killed (head (omap exit_of events)) ∧
  ce_exit_code c = exit_code (ce_exit_status c) ∧
  wrap_exec_stream events `prefix_of` events.
Proof.
  cbv zeta. unfold collect. rewrite collect_fold. cbn. split_and!; try done.
  - destruct (wrap_exec_stream_split events) as [[Hall ->]|(b & st & a & -> & Hall & ->)].
    + by rewrite omap_exit_none.
    + rewrite !omap_app, omap_exit_none by done. done.
  - destruct (wrap_exec_stream_split events) as [[Hall ->]|(b & st & a & -> & Hall & ->)]; [done|].
    exists a. by rewrite <-app_assoc.
Qed.

Lemma push_tail_fold n (acc l : list string) :
  0 < n → length acc ≤ n →
  foldl (push_tail n) acc l = drop (length acc + length l - n) (acc ++ l).
Proof.
  intros Hn. revert acc. induction l as [|x l IH]; intros acc Hacc; simpl.
  - rewrite app_nil_r. by replace (length acc + 0 - n) with 0 by lia.
  - unfold push_tail at 2. case_decide as Hd.
    + rewrite IH by (rewrite length_app, length_drop; simpl; lia).
      destruct acc as [|a acc]; [simpl in *; lia|]. subst n.
      replace (length (a :: acc) + S (length l) - length (a :: acc)) with (S (length l)) by lia.
      rewrite length_app, length_drop. cbn [drop length app]. rewrite <-app_assoc. cbn [app]. f_equal. lia.
    + rewrite IH by (rewrite length_app; simpl; lia). rewrite length_app, <-app_assoc. simpl.
      f_equal. lia.
Qed.

(** the tail of a log is its last lines: the ring buffer of
    [read_file_tail_lossy] keeps exactly the last [max_lines] lines, in order. *)
Theorem tail_text_last_lines text n :
  tail_text text n = join_lines (if decide (n = 0) then [] else drop (length (lines text) - n) (lines text)).
Proof.
  unfold tail_text. destruct n as [|n]; [done|]. rewrite decide_False by done.
  rewrite push_tail_fold by (simpl; lia). done.
Qed.
