(* ===== verification/GuestWire.v ===== *)
(** * GuestWire: [shared/src/guest_rpc.rs] and the framing of both ends

    The messages between the daemon and the agent in a guest, and how they
    travel: one JSON object per line, written by [send_request] and
    [send_event], read by [next_request] and the reader of the client. *)

From S2P Require Import Prelude RustStd FileSystem Manifest Protocol.

(** ** Messages *)

Record GuestRpcReady := mkReady { rr_protocol_version : Z; rr_capabilities : list string }.

Inductive GuestRequest :=
  | GqPing (request_id : string)
  | GqExec (request_id : string) (exec_id : Uuid) (request : ExecRequest)
  | GqOpenShell (request_id : string) (session_id : Uuid) (request : ShellRequest)
  | GqShellInput (request_id : string) (session_id : Uuid) (data : string)
  | GqResizeShell (request_id : string) (session_id : Uuid) (cols rows : Z)
  | GqCloseShell (request_id : string) (session_id : Uuid)
  | GqSnapshotWorkspace (request_id : string)
  | GqSyncWorkspace (request_id : string)
  | GqRuntimeStats (request_id : string)
  | GqListFiles (request_id : string) (path : string)
  | GqReadFile (request_id : string) (path : string) (limit : Z)
  | GqWriteFile (request_id : string) (path : string) (data : string) (create_parents : bool)
  | GqMakeDir (request_id : string) (path : string) (recursive : bool)
  | GqRemovePath (request_id : string) (path : string) (recursive : bool)
  | GqShutdown (request_id : string).

Record ReadFilePayload := mkPayload { rp_path : string; rp_data : string; rp_truncated : bool }.

Inductive GuestEvent :=
  | GeReady (ready : GuestRpcReady)
  | GePong (request_id : string)
  | GeAck (request_id : string)
  | GeShellOpened (request_id : string) (session_id : Uuid)
  | GeExecOutput (exec_id : Uuid) (stream : OutputStream) (data : string)
  | GeExecExit (exec_id : Uuid) (status : ExecExit)
  | GeShellOutput (session_id : Uuid) (data : string)
  | GeShellExit (session_id : Uuid) (code : Z)
  | GeWorkspaceSnapshot (request_id : string) (entries : list FileNode)
  | GeRuntimeStats (request_id : string) (stats : GuestRuntimeStats)
  | GeFilesListed (request_id : string) (entries : list FileNode)
  | GeFileRead (request_id : string) (file : ReadFilePayload)
  | GeError (request_id : option string) (target : option Uuid) (message : string).

Definition guest_request_id (request : GuestRequest) : string :=
  match request with
  | GqPing i | GqSnapshotWorkspace i | GqSyncWorkspace i | GqRuntimeStats i | GqListFiles i _
  | GqReadFile i _ _ | GqWriteFile i _ _ _ | GqMakeDir i _ _ | GqRemovePath i _ _ | GqShutdown i
  | GqExec i _ _ | GqOpenShell i _ _ | GqShellInput i _ _ | GqResizeShell i _ _ _ | GqCloseShell i _ => i
  end.

(** ** Binary data in messages *)

Section payload.
Context `{Base64}.

Definition rpc_encode_bytes (data : bytes) : string := base64_encode data.

Definition rpc_decode_bytes (value : string) : Result SandboxError bytes :=
  match base64_decode value with
  | Ok data => Ok data
  | Err error => Err (Prelude.Protocol ("invalid base64 payload: " ^+ error))
  end.

Definition from_read_file (file : ReadFileResult) : ReadFilePayload :=
  mkPayload (rf_path file) (rpc_encode_bytes (rf_data file)) (rf_truncated file).

Definition into_read_file (file : ReadFilePayload) : Result SandboxError ReadFileResult :=
  data ← rpc_decode_bytes (rp_data file);
  Ok (mkReadFileResult (rp_path file) data (rp_truncated file)).

Lemma rpc_decode_encode `{!Base64Laws} data : rpc_decode_bytes (rpc_encode_bytes data) = Ok data.
Proof. unfold rpc_decode_bytes, rpc_encode_bytes. by rewrite base64_decode_encode. Qed.

Lemma read_file_roundtrip `{!Base64Laws} file : into_read_file (from_read_file file) = Ok file.
Proof. unfold into_read_file, from_read_file. simpl. rewrite rpc_decode_encode. by destruct file. Qed.
End payload.

(** ** Lines *)

Definition LF : Byte.byte := Byte.x0a.
Definition CR : Byte.byte := Byte.x0d.

(** [std::str::from_utf8], as [AsyncBufReadExt::lines] uses it. *)
Class Utf8 := { valid_utf8 : bytes → bool }.

(** Compact JSON as [serde_json::to_vec] writes it: control characters are
    escaped, the text is UTF-8, and an object ends with a brace. *)
Class JsonLines (A : Type) `{Serde A, Utf8} : Prop := {
  json_no_lf a b : to_vec a = Ok b → LF ∉ b;
  json_ends a b : to_vec a = Ok b → b ≠ [] ∧ last b ≠ Some CR;
  json_utf8 a b : to_vec a = Ok b → valid_utf8 b = true;
}.

(** The bytes up to the first line feed and those after it; [None] without one. *)
Fixpoint break_line (b : bytes) : option (bytes * bytes) :=
  match b with
  | [] => None
  | x :: b' =>
      if decide (x = LF) then Some ([], b')
      else match break_line b' with Some (l, r) => Some (x :: l, r) | None => None end
  end.

Definition strip_cr (l : bytes) : bytes :=
  match last l with Some x => if decide (x = CR) then take (pred (length l)) l else l | None => l end.

Definition invalid_utf8 : IoError := os_error KOther "stream did not contain valid UTF-8".

(** [Lines::next_line] on a stream that ends where its bytes end. *)
Definition next_line `{Utf8} (b : bytes) : Result IoError (option bytes) * bytes :=
  match b with
  | [] => (Ok None, [])
  | _ =>
      let '(l, rest) := match break_line b with Some (l, r) => (strip_cr l, r) | None => (b, []) end in
      (if valid_utf8 l then Ok (Some l) else Err invalid_utf8, rest)
  end.

Section framing.
Context {A : Type} `{Serde A, Utf8}.

(** What is written for a message: its payload, then the line feed. *)
Definition frame_message (a : A) : Result string bytes := b ← to_vec a; Ok (b ++ [LF]).

(** [next_request] of [guest-agent/src/guest_agent/rpc.rs]; the reader of the
    client decodes its lines in the same way. *)
Definition next_message (reading decoding : string) (b : bytes) : Result SandboxError (option A) * bytes :=
  let '(r, rest) := next_line b in
  (match r with
   | Ok (Some line) => match from_slice line with Ok a => Ok (Some a) | Err e => Err (Json decoding e) end
   | Ok None => Ok None
   | Err e => Err (Io reading e)
   end, rest).

Fixpoint frame_all (messages : list A) : Result string bytes :=
  match messages with
  | [] => Ok []
  | a :: rest => b ← frame_message a; bs ← frame_all rest; Ok (b ++ bs)
  end.

(** The messages a reader gets from a stream until it ends, or until the first
    that does not decode. *)
Fixpoint read_messages (fuel : nat) (reading decoding : string) (b : bytes) : list A * Result SandboxError () :=
  match fuel with
  | O => ([], Ok ())
  | S fuel' =>
      match next_message reading decoding b with
      | (Ok (Some a), rest) => let '(l, r) := read_messages fuel' reading decoding rest in (a :: l, r)
      | (Ok None, _) => ([], Ok ())
      | (Err e, _) => ([], Err e)
      end
  end.

Lemma break_line_app l rest : LF ∉ l → break_line (l ++ LF :: rest) = Some (l, rest).
Proof.
  induction l as [|x l IH]; intros Hl; simpl; [done|].
  apply not_elem_of_cons in Hl as [Hx Hl]. rewrite decide_False by done. by rewrite IH.
Qed.

Lemma strip_cr_none l : last l ≠ Some CR → strip_cr l = l.
Proof.
  unfold strip_cr. destruct (last l) as [x|]; [|done]. intros Hx. destruct (decide (x = CR)); [congruence|done].
Qed.

Lemma next_line_app l rest :
  LF ∉ l → last l ≠ Some CR → valid_utf8 l = true → next_line (l ++ [LF] ++ rest) = (Ok (Some l), rest).
Proof.
  intros Hlf Hcr Hu. unfold next_line. simpl. rewrite break_line_app, strip_cr_none, Hu by done.
  by destruct l.
Qed.

Context `{!SerdeLaws A, !JsonLines A}.

Lemma next_message_frame reading decoding a f rest :
  frame_message a = Ok f → next_message reading decoding (f ++ rest) = (Ok (Some a), rest).
Proof.
  unfold frame_message. destruct (from_to_vec a) as (b & Hb & Hb'). rewrite Hb. intros [= <-].
  destruct (json_ends a b Hb) as [Hne Hcr].
  unfold next_message. rewrite <-app_assoc, next_line_app by (by eauto using json_no_lf, json_utf8).
  by rewrite Hb'.
Qed.

Lemma frame_message_ok a : ∃ f, frame_message a = Ok f ∧ 1 ≤ length f.
Proof.
  destruct (from_to_vec a) as (b & Hb & _). exists (b ++ [LF]). unfold frame_message. rewrite Hb.
  split; [done|]. rewrite length_app. simpl. lia.
Qed.

Lemma read_frames reading decoding messages stream n :
  frame_all messages = Ok stream → length stream < n →
  read_messages n reading decoding stream = (messages, Ok ()).
Proof.
  revert stream n. induction messages as [|a messages IH]; intros stream n Hs Hn.
  - injection Hs as <-. by destruct n.
  - destruct (frame_message_ok a) as (f & Hf & Hlen). simpl in Hs. rewrite Hf in Hs. simpl in Hs.
    destruct (frame_all messages) as [bs|] eqn:E; [|done]. injection Hs as <-.
    rewrite length_app in Hn. destruct n as [|n]; [lia|]. simpl.
    rewrite (next_message_frame _ _ a f bs Hf), (IH bs n) by (done || lia). done.
Qed.

(** Whatever messages are written one after the other, the reader at the other
    end gets the same messages in the same order and then the end of the
    stream; no message is cut, joined or lost. *)
Theorem framing_roundtrip reading decoding messages :
  ∃ stream, frame_all messages = Ok stream ∧
    read_messages (S (length stream)) reading decoding stream = (messages, Ok ()).
Proof.
  assert (∃ stream, frame_all messages = Ok stream) as [stream Hs].
  { induction messages as [|a messages [stream Hs]]; [by exists []|].
    destruct (frame_message_ok a) as (f & Hf & _). exists (f ++ stream). simpl. by rewrite Hf, Hs. }
  exists stream. split; [done|]. apply read_frames; [done|lia].
Qed.
End framing.
