(* ===== verification/GuestRpc.v ===== *)
(** * GuestRpc: the client of the guest agent, [src/guest_rpc/client]

    One connection carries the calls of many tasks.  A call registers a
    oneshot channel under its request identifier and writes its request; the
    reader task routes every line of the guest to the channel it names.  The
    state is what the tasks share; a run is an explicit sequence of steps, one
    per point at which another task can come in between: the reader takes a
    line, the reader's next send into a bounded channel goes through, a call
    registers, writes or gives up, a consumer takes an event or goes away. *)

From S2P Require Import Prelude RustStd FileSystem Manifest Protocol GuestWire.

(** ** Channels *)

(** [tokio::sync::mpsc::channel(64)]: what was sent, how much of it was taken,
    and whether the receiver still exists. *)
Record Chan (A : Type) := mkChan { ch_sent : list A; ch_taken : nat; ch_open : bool }.
Arguments mkChan {A} _ _ _.
Arguments ch_sent {A} _.
Arguments ch_taken {A} _.
Arguments ch_open {A} _.

Definition CAPACITY : nat := 64.

Definition new_chan {A} : Chan A := mkChan [] 0 true.

Definition ch_full {A} (c : Chan A) : bool := bool_decide (CAPACITY ≤ length (ch_sent c) - ch_taken c).

(** [sender.send(x).await]: waits while the channel is full ([None]); without a
    receiver it fails, which the reader ignores. *)
Definition ch_send {A} (x : A) (c : Chan A) : option (Chan A) :=
  if negb (ch_open c) then Some c
  else if ch_full c then None
  else Some (mkChan (ch_sent c ++ [x]) (ch_taken c) true).

(** [receiver.recv()], when something is there. *)
Definition ch_recv {A} (c : Chan A) : option (A * Chan A) :=
  x ← ch_sent c !! ch_taken c;
  if ch_open c then Some (x, mkChan (ch_sent c) (S (ch_taken c)) true) else None.

Definition ch_drop {A} (c : Chan A) : Chan A := mkChan (ch_sent c) (ch_taken c) false.

(** ** The state of a connection *)

Inductive GuestResponse :=
  | RspAck
  | RspPong
  | RspShellOpened (session_id : Uuid)
  | RspSnapshot (snapshot : WorkspaceSnapshot)
  | RspRuntimeStats (stats : GuestRuntimeStats)
  | RspFiles (entries : list FileNode)
  | RspFile (file : ReadFileResult).

Abbreviation Answer := (Result SandboxError GuestResponse).

(** A oneshot channel, with the identifier it was registered under. *)
Record Oneshot := mkOneshot { os_id : string; os_value : option Answer }.

(** What the reader has still to do for the line it has taken.  [locked] says
    that the lock of the table of streams is held until the send goes through. *)
Inductive Act :=
  | ASendExec (ch : nat) (event : ExecutionEvent) (locked : bool)
  | ASendShell (ch : nat) (event : ShellEvent) (locked : bool)
  | ARouteShell (target : Uuid) (message : string).

(** [tokio::sync::watch]: its value and its receivers. *)
Record Watch := mkWatch { wt_receivers : nat; wt_value : option GuestRpcReady }.

(** [watch::Sender::send] keeps the value only while there is a receiver; the
    error it returns otherwise is ignored. *)
Definition watch_send (ready : GuestRpcReady) (w : Watch) : Watch :=
  match wt_receivers w with O => w | n => mkWatch n (Some ready) end.

Record Client := mkClient {
  cl_draws : nat;
  cl_next_request : Z;
  cl_ready : Watch;
  cl_responses : gmap string nat;
  cl_exec_streams : gmap Uuid nat;
  cl_shell_streams : gmap Uuid nat;
  cl_oneshots : list Oneshot;
  cl_exec_chans : list (Chan ExecutionEvent);
  cl_shell_chans : list (Chan ShellEvent);
  cl_reading : bool;
  cl_todo : list Act;
  cl_written : bytes;
  cl_write_faults : list (option (IoError * nat));
}.

Definition set_responses (m : gmap string nat) (l : list Oneshot) (c : Client) : Client :=
  mkClient (cl_draws c) (cl_next_request c) (cl_ready c) m (cl_exec_streams c) (cl_shell_streams c) l
    (cl_exec_chans c) (cl_shell_chans c) (cl_reading c) (cl_todo c) (cl_written c) (cl_write_faults c).
Definition set_execs (m : gmap Uuid nat) (l : list (Chan ExecutionEvent)) (c : Client) : Client :=
  mkClient (cl_draws c) (cl_next_request c) (cl_ready c) (cl_responses c) m (cl_shell_streams c) (cl_oneshots c)
    l (cl_shell_chans c) (cl_reading c) (cl_todo c) (cl_written c) (cl_write_faults c).
Definition set_rpc_shells (m : gmap Uuid nat) (l : list (Chan ShellEvent)) (c : Client) : Client :=
  mkClient (cl_draws c) (cl_next_request c) (cl_ready c) (cl_responses c) (cl_exec_streams c) m (cl_oneshots c)
    (cl_exec_chans c) l (cl_reading c) (cl_todo c) (cl_written c) (cl_write_faults c).
Definition set_reader (ready : Watch) (reading : bool) (todo : list Act) (c : Client) : Client :=
  mkClient (cl_draws c) (cl_next_request c) ready (cl_responses c) (cl_exec_streams c) (cl_shell_streams c)
    (cl_oneshots c) (cl_exec_chans c) (cl_shell_chans c) reading todo (cl_written c) (cl_write_faults c).
Definition set_todo (todo : list Act) (c : Client) : Client := set_reader (cl_ready c) (cl_reading c) todo c.
Definition set_counters (draws : nat) (next : Z) (c : Client) : Client :=
  mkClient draws next (cl_ready c) (cl_responses c) (cl_exec_streams c) (cl_shell_streams c)
    (cl_oneshots c) (cl_exec_chans c) (cl_shell_chans c) (cl_reading c) (cl_todo c) (cl_written c) (cl_write_faults c).
Definition set_writer (written : bytes) (faults : list (option (IoError * nat))) (c : Client) : Client :=
  mkClient (cl_draws c) (cl_next_request c) (cl_ready c) (cl_responses c) (cl_exec_streams c) (cl_shell_streams c)
    (cl_oneshots c) (cl_exec_chans c) (cl_shell_chans c) (cl_reading c) (cl_todo c) written faults.

(** [from_stream]. *)
Definition from_stream (draws : nat) (faults : list (option (IoError * nat))) : Client :=
  mkClient draws 1 (mkWatch 0 None) ∅ ∅ ∅ [] [] [] true [] [] faults.

Section client.
Context `{Platform, Base64, Serde GuestRequest, Serde GuestEvent}.

Abbreviation CM := (M SandboxError Client).

(** ** Calls *)

(** [AtomicU64::fetch_add] wraps. *)
Definition next_request_id : CM string := λ c,
  (Ok (pretty (cl_next_request c)), set_counters (cl_draws c) ((cl_next_request c + 1) mod 2 ^ 64)%Z c).

Definition client_new_v4 : CM Uuid := λ c,
  (Ok (entropy (cl_draws c)), set_counters (S (cl_draws c)) (cl_next_request c) c).

(** The sender of a oneshot channel is dropped; its receiver sees the error of
    [receiver.await.map_err(..)].  A value already sent stays. *)
Definition channel_closed : Answer := Err (Protocol "guest response channel closed").
Definition os_fill (v : Answer) (o : Oneshot) : Oneshot :=
  mkOneshot (os_id o) (match os_value o with None => Some v | w => w end).

Definition drop_sender (id : string) (c : Client) : Client :=
  match cl_responses c !! id with
  | Some ch => set_responses (delete id (cl_responses c)) (alter (os_fill channel_closed) ch (cl_oneshots c)) c
  | None => c
  end.

(** The first half of [request_response]: a channel for the answer, under the
    request's identifier; a sender that was there is dropped. *)
Definition register_response (id : string) : CM nat := λ c0,
  let c := drop_sender id c0 in
  let ch := length (cl_oneshots c) in
  (Ok ch, set_responses (<[id := ch]> (cl_responses c)) (cl_oneshots c ++ [mkOneshot id None]) c).

Definition unregister_response (id : string) : CM () := modify (drop_sender id).

(** [writer.write_all]: a failure can leave a part written. *)
Definition write_all (context : string) (b : bytes) : CM () := λ c,
  match cl_write_faults c with
  | Some (e, n) :: fs => (Err (Io context e), set_writer (cl_written c ++ take n b) fs c)
  | fs => (Ok (), set_writer (cl_written c ++ b) (tail fs) c)
  end.

Definition send_request (request : GuestRequest) : CM () :=
  payload ← map_err (Json "encoding guest request") (lift (to_vec request));
  write_all "writing guest request" payload;;
  write_all "terminating guest request" [LF].

(** [request_response] up to [receiver.await]: the channel to wait on. *)
Definition begin_request (request : GuestRequest) : CM nat :=
  let id := guest_request_id request in
  ch ← register_response id;
  r ← attempt (send_request request);
  match r with
  | Ok () => mret ch
  | Err error => unregister_response id;; throw error
  end.

(** What a call makes of the answer it waited for. *)
Definition ack_of (answer : Answer) : Result SandboxError () :=
  r ← answer; match r with RspAck | RspPong => Ok () | _ => Err (Protocol "unexpected guest acknowledgement") end.
Definition snapshot_of (answer : Answer) : Result SandboxError WorkspaceSnapshot :=
  r ← answer; match r with RspSnapshot s => Ok s | _ => Err (Protocol "unexpected workspace snapshot response") end.
Definition stats_of (answer : Answer) : Result SandboxError GuestRuntimeStats :=
  r ← answer; match r with RspRuntimeStats s => Ok s | _ => Err (Protocol "unexpected runtime stats response") end.
Definition files_of (answer : Answer) : Result SandboxError (list FileNode) :=
  r ← answer; match r with RspFiles l => Ok l | _ => Err (Protocol "unexpected file list response") end.
Definition file_of (answer : Answer) : Result SandboxError ReadFileResult :=
  r ← answer; match r with RspFile f => Ok f | _ => Err (Protocol "unexpected file read response") end.

(** The requests of the calls that wait for one answer. *)
Inductive Call :=
  | ClPing
  | ClSnapshotWorkspace
  | ClSyncWorkspace
  | ClRuntimeStats
  | ClListFiles (path : string)
  | ClReadFile (path : string) (limit : Z)
  | ClWriteFile (path : string) (data : bytes) (create_parents : bool)
  | ClMakeDir (path : string) (recursive : bool)
  | ClRemovePath (path : string) (recursive : bool)
  | ClShutdown
  | ClShellInput (session_id : Uuid) (data : bytes)
  | ClResizeShell (session_id : Uuid) (cols rows : Z)
  | ClCloseShell (session_id : Uuid).

Definition request_of (id : string) (call : Call) : GuestRequest :=
  match call with
  | ClPing => GqPing id
  | ClSnapshotWorkspace => GqSnapshotWorkspace id
  | ClSyncWorkspace => GqSyncWorkspace id
  | ClRuntimeStats => GqRuntimeStats id
  | ClListFiles p => GqListFiles id p
  | ClReadFile p limit => GqReadFile id p limit
  | ClWriteFile p data create => GqWriteFile id p (rpc_encode_bytes data) create
  | ClMakeDir p recursive => GqMakeDir id p recursive
  | ClRemovePath p recursive => GqRemovePath id p recursive
  | ClShutdown => GqShutdown id
  | ClShellInput s data => GqShellInput id s (rpc_encode_bytes data)
  | ClResizeShell s cols rows => GqResizeShell id s cols rows
  | ClCloseShell s => GqCloseShell id s
  end.

(** A call up to the await of its answer; [read_file] checks its limit first. *)
Definition begin_call (call : Call) : CM nat :=
  match call with
  | ClReadFile p limit =>
      limit ← lift (validate_read_limit limit); id ← next_request_id; begin_request (request_of id (ClReadFile p limit))
  | _ => id ← next_request_id; begin_request (request_of id call)
  end.

(** [exec], and the two halves of [open_shell] around its await. *)
Definition register_exec : CM (Uuid * nat) :=
  exec_id ← client_new_v4;
  ch ← gets (λ c, length (cl_exec_chans c));
  modify (λ c, set_execs (<[exec_id := ch]> (cl_exec_streams c)) (cl_exec_chans c ++ [new_chan]) c);;
  mret (exec_id, ch).
Definition unregister_exec (exec_id : Uuid) : CM () :=
  modify (λ c, set_execs (delete exec_id (cl_exec_streams c)) (cl_exec_chans c) c).

Definition rpc_exec (request : ExecRequest) : CM nat :=
  '(exec_id, ch) ← register_exec;
  id ← next_request_id;
  r ← attempt (send_request (GqExec id exec_id request));
  match r with
  | Ok () => mret ch
  | Err error => unregister_exec exec_id;; throw error
  end.

Definition register_shell : CM (Uuid * string * nat) :=
  session_id ← client_new_v4;
  id ← next_request_id;
  ch ← gets (λ c, length (cl_shell_chans c));
  modify (λ c, set_rpc_shells (<[session_id := ch]> (cl_shell_streams c)) (cl_shell_chans c ++ [new_chan]) c);;
  mret (session_id, id, ch).
Definition unregister_shell (session_id : Uuid) : CM () :=
  modify (λ c, set_rpc_shells (delete session_id (cl_shell_streams c)) (cl_shell_chans c) c).

(** Gives the session, its stream and the channel of the answer. *)
Definition begin_open_shell (request : ShellRequest) : CM (Uuid * nat * nat) :=
  '(session_id, id, ch) ← register_shell;
  r ← attempt (begin_request (GqOpenShell id session_id request));
  match r with
  | Ok answer_ch => mret (session_id, ch, answer_ch)
  | Err error => unregister_shell session_id;; throw error
  end.

Definition finish_open_shell (session_id : Uuid) (ch : nat) (answer : Answer) : CM (Uuid * nat) :=
  match answer with
  | Ok (RspShellOpened opened) =>
      if decide (opened = session_id) then mret (session_id, ch)
      else unregister_shell session_id;; throw (Protocol "guest returned an unexpected shell response")
  | Ok _ => unregister_shell session_id;; throw (Protocol "guest returned an unexpected shell response")
  | Err error => unregister_shell session_id;; throw error
  end.

(** ** The reader *)

Definition resolve_response (id : string) (response : Answer) (c : Client) : Client :=
  match cl_responses c !! id with
  | Some ch => set_responses (delete id (cl_responses c)) (alter (os_fill response) ch (cl_oneshots c)) c
  | None => c
  end.

Definition killed_with (message : string) : list ExecutionEvent :=
  [EvOutput Stderr (as_bytes message); EvExit Killed].
Definition shell_killed_with (message : string) : list ShellEvent :=
  [ShOutput (as_bytes message); ShExit (-1)].

(** The part of [route_error] after the target's exec stream: its shell stream. *)
Definition route_shell (target : Uuid) (message : string) (c : Client) : option Client :=
  ch ← cl_shell_streams c !! target;
  Some (set_todo (((λ e, ASendShell ch e true) <$> shell_killed_with message) ++ cl_todo c)
    (set_rpc_shells (delete target (cl_shell_streams c)) (cl_shell_chans c) c)).

Definition route_error (request_id : option string) (target : option Uuid) (message : string) (c : Client) :
    Result SandboxError Client :=
  let c1 := match request_id with Some id => resolve_response id (Err (Protocol message)) c | None => c end in
  match target with
  | Some x =>
      match cl_exec_streams c1 !! x with
      | Some ch =>
          Ok (set_todo (((λ e, ASendExec ch e true) <$> killed_with message) ++ [ARouteShell x message])
                (set_execs (delete x (cl_exec_streams c1)) (cl_exec_chans c1) c1))
      | None =>
          match route_shell x message c1 with
          | Some c2 => Ok c2
          | None => if bool_decide (is_Some request_id) then Ok c1 else Err (Protocol message)
          end
      end
  | None => if bool_decide (is_Some request_id) then Ok c1 else Err (Protocol message)
  end.

(** [handle_line] on a decoded event.  On an error the tables are unchanged,
    as the reader has touched none of them yet. *)
Definition handle_event (event : GuestEvent) (c : Client) : Result SandboxError Client :=
  match event with
  | GeReady ready => Ok (set_reader (watch_send ready (cl_ready c)) (cl_reading c) (cl_todo c) c)
  | GePong id => Ok (resolve_response id (Ok RspPong) c)
  | GeAck id => Ok (resolve_response id (Ok RspAck) c)
  | GeShellOpened id session => Ok (resolve_response id (Ok (RspShellOpened session)) c)
  | GeExecOutput x stream data =>
      match cl_exec_streams c !! x with
      | Some ch => b ← rpc_decode_bytes data; Ok (set_todo [ASendExec ch (EvOutput stream b) true] c)
      | None => Ok c
      end
  | GeExecExit x status =>
      match cl_exec_streams c !! x with
      | Some ch => Ok (set_todo [ASendExec ch (EvExit status) true]
                         (set_execs (delete x (cl_exec_streams c)) (cl_exec_chans c) c))
      | None => Ok c
      end
  | GeShellOutput s data =>
      match cl_shell_streams c !! s with
      | Some ch => b ← rpc_decode_bytes data; Ok (set_todo [ASendShell ch (ShOutput b) true] c)
      | None => Ok c
      end
  | GeShellExit s code =>
      match cl_shell_streams c !! s with
      | Some ch => Ok (set_todo [ASendShell ch (ShExit code) true]
                         (set_rpc_shells (delete s (cl_shell_streams c)) (cl_shell_chans c) c))
      | None => Ok c
      end
  | GeWorkspaceSnapshot id entries => Ok (resolve_response id (Ok (RspSnapshot (from_entries entries))) c)
  | GeRuntimeStats id stats => Ok (resolve_response id (Ok (RspRuntimeStats stats)) c)
  | GeFilesListed id entries => Ok (resolve_response id (Ok (RspFiles entries)) c)
  | GeFileRead id file =>
      Ok (resolve_response id (match into_read_file file with Ok f => Ok (RspFile f) | Err e => Err e end) c)
  | GeError id target message => route_error id target message c
  end.

(** [fail_all]: every waiting call is answered, every stream gets a message and
    its end.  The locks are released before the sends; the order among the
    streams is that of [map_to_list], where [HashMap] leaves it open. *)
Definition fail_all (message : string) (c : Client) : Client :=
  let answer o ch := if decide (cl_responses c !! os_id o = Some ch) then os_fill (Err (Protocol message)) o else o in
  let execs := map_to_list (cl_exec_streams c) ≫= λ '(_, ch), (λ e, ASendExec ch e false) <$> killed_with message in
  let shells := map_to_list (cl_shell_streams c) ≫= λ '(_, ch), (λ e, ASendShell ch e false) <$> shell_killed_with message in
  set_reader (cl_ready c) false (execs ++ shells)
    (set_rpc_shells ∅ (cl_shell_chans c) (set_execs ∅ (cl_exec_chans c)
      (set_responses ∅ (imap (λ ch o, answer o ch) (cl_oneshots c)) c))).

(** What [lines.next_line()] gives the reader. *)
Inductive Input := InLine (line : bytes) | InEof | InError (text : string).

(** One turn of [read_loop], which takes a line once it is done with the last. *)
Definition read_input (input : Input) (c : Client) : option Client :=
  if negb (cl_reading c) then None
  else if decide (cl_todo c ≠ []) then None
  else Some match input with
  | InLine [] => c
  | InLine line =>
      match from_slice line with
      | Err error => fail_all (error_to_string (Json "decoding guest event" error)) c
      | Ok event =>
          match handle_event event c with
          | Ok c' => c'
          | Err error => fail_all (error_to_string error) c
          end
      end
  | InEof => fail_all "guest RPC connection closed" c
  | InError text => fail_all ("guest RPC read error: " ^+ text) c
  end.

(** The next send of the reader; [None] while it waits. *)
Definition run_act (c : Client) : option Client :=
  match cl_todo c with
  | [] => None
  | ASendExec ch e _ :: rest =>
      chan ← cl_exec_chans c !! ch; chan' ← ch_send e chan;
      Some (set_todo rest (set_execs (cl_exec_streams c) (<[ch := chan']> (cl_exec_chans c)) c))
  | ASendShell ch e _ :: rest =>
      chan ← cl_shell_chans c !! ch; chan' ← ch_send e chan;
      Some (set_todo rest (set_rpc_shells (cl_shell_streams c) (<[ch := chan']> (cl_shell_chans c)) c))
  | ARouteShell x message :: rest =>
      Some (default (set_todo rest c) (route_shell x message (set_todo rest c)))
  end.

(** [wait_ready] up to its wait: a value that is there is returned, else it
    subscribes; it goes away when it sees a value or when its time is up. *)
Definition begin_wait_ready (c : Client) : option GuestRpcReady * Client :=
  match wt_value (cl_ready c) with
  | Some ready => (Some ready, c)
  | None => (None, set_reader (mkWatch (S (wt_receivers (cl_ready c))) None) (cl_reading c) (cl_todo c) c)
  end.
Definition end_wait_ready (c : Client) : Client :=
  set_reader (mkWatch (pred (wt_receivers (cl_ready c))) (wt_value (cl_ready c))) (cl_reading c) (cl_todo c) c.

(** ** Runs *)

(** Whether the reader holds the lock of a table of streams. *)
Definition exec_locked (c : Client) : bool := match cl_todo c with ASendExec _ _ true :: _ => true | _ => false end.
Definition shell_locked (c : Client) : bool := match cl_todo c with ASendShell _ _ true :: _ => true | _ => false end.

Inductive Step :=
  | SRead (input : Input)
  | SAct
  | SNextId
  | SRegister (id : string)
  | SUnregister (id : string)
  | SWrite (request : GuestRequest)
  | SExec
  | SUnexec (exec_id : Uuid)
  | SShell
  | SUnshell (session_id : Uuid)
  | STakeExec (ch : nat)
  | SDropExec (ch : nat)
  | STakeShell (ch : nat)
  | SDropShell (ch : nat)
  | SSubscribe
  | SUnsubscribe.

#[global] Instance is_act_decision (st : Step) : Decision (st = SAct).
Proof. destruct st; (by left) || (by right). Defined.

Definition when (b : bool) (c : Client) : option Client := if b then Some c else None.

Definition step (st : Step) (c : Client) : option Client :=
  match st with
  | SRead input => read_input input c
  | SAct => run_act c
  | SNextId => Some (next_request_id c).2
  | SRegister id => Some (register_response id c).2
  | SUnregister id => Some (unregister_response id c).2
  | SWrite request => Some (send_request request c).2
  | SExec => when (negb (exec_locked c)) (register_exec c).2
  | SUnexec x => when (negb (exec_locked c)) (unregister_exec x c).2
  | SShell => when (negb (shell_locked c)) (register_shell c).2
  | SUnshell x => when (negb (shell_locked c)) (unregister_shell x c).2
  | STakeExec ch =>
      chan ← cl_exec_chans c !! ch; '(_, chan') ← ch_recv chan;
      Some (set_execs (cl_exec_streams c) (<[ch := chan']> (cl_exec_chans c)) c)
  | SDropExec ch => Some (set_execs (cl_exec_streams c) (alter ch_drop ch (cl_exec_chans c)) c)
  | STakeShell ch =>
      chan ← cl_shell_chans c !! ch; '(_, chan') ← ch_recv chan;
      Some (set_rpc_shells (cl_shell_streams c) (<[ch := chan']> (cl_shell_chans c)) c)
  | SDropShell ch => Some (set_rpc_shells (cl_shell_streams c) (alter ch_drop ch (cl_shell_chans c)) c)
  | SSubscribe => Some (begin_wait_ready c).2
  | SUnsubscribe => Some (end_wait_ready c)
  end.

Fixpoint run (steps : list Step) (c : Client) : option Client :=
  match steps with [] => Some c | st :: rest => c' ← step st c; run rest c' end.
End client.

(** ** Updates of a list at an index *)

Lemma alter_insert {A} (l : list A) i f x : l !! i = Some x → alter f i l = <[i := f x]> l.
Proof.
  intros Hi. apply list_eq. intros j. destruct (decide (j = i)) as [->|Hne].
  - rewrite list_lookup_alter_eq, Hi, list_lookup_insert_eq; [done|by eapply lookup_lt_Some].
  - by rewrite list_lookup_alter_ne, list_lookup_insert_ne by done.
Qed.

Lemma alter_none {A} (l : list A) i f : l !! i = None → alter f i l = l.
Proof.
  intros Hi. apply list_eq. intros j. destruct (decide (j = i)) as [->|Hne].
  - by rewrite list_lookup_alter_eq, Hi.
  - by rewrite list_lookup_alter_ne by done.
Qed.

Lemma insert_cases {A} (l : list A) i x j y :
  <[i := x]> l !! j = Some y → j = i ∧ y = x ∨ j ≠ i ∧ l !! j = Some y.
Proof.
  intros [(-> & -> & _)|[]]%list_lookup_insert_Some; [by left|right]. split; congruence.
Qed.

(** ** Streams

    What holds of a table of streams, their channels and the events the reader
    has still to send ([q]), for commands and for shells alike. *)

Section streams.
Context {A : Type} (is_end : A → bool).

(** Nothing follows an end. *)
Fixpoint terminated (l : list A) : Prop :=
  match l with [] => True | x :: l' => (is_end x = true → l' = []) ∧ terminated l' end.

Definition running (l : list A) : Prop := Forall (λ x, is_end x = false) l.

Lemma running_terminated l k : running l → terminated k → terminated (l ++ k).
Proof. induction 1 as [|x l Hx _ IH]; simpl; [done|]. intros Hk. split; [by rewrite Hx|auto]. Qed.

Lemma terminated_drop_mid l x k : terminated (l ++ x :: k) → terminated (l ++ k).
Proof.
  induction l as [|y l IH]; simpl; [by intros [_ ?]|]. intros [Hy Hr]. split; [|auto].
  intros He. specialize (Hy He). by destruct l.
Qed.

Lemma terminated_prefix l k : terminated (l ++ k) → terminated l.
Proof.
  induction l as [|y l IH]; simpl; [done|]. intros [Hy Hr]. split; [|auto].
  intros He. specialize (Hy He). by destruct l.
Qed.

Record streams_ok (table : gmap Uuid nat) (chans : list (Chan A)) (q : nat → list A) : Prop := {
  so_live x ch : table !! x = Some ch → ∃ chan, chans !! ch = Some chan ∧ running (ch_sent chan ++ q ch);
  so_inj x y ch : table !! x = Some ch → table !! y = Some ch → x = y;
  so_term ch chan : chans !! ch = Some chan → terminated (ch_sent chan ++ q ch);
  so_room ch chan : chans !! ch = Some chan →
    ch_taken chan ≤ length (ch_sent chan) ≤ ch_taken chan + CAPACITY;
  so_queued ch : length chans ≤ ch → q ch = [];
}.

Lemma so_ext table chans q q' : (∀ ch, q ch = q' ch) → streams_ok table chans q → streams_ok table chans q'.
Proof.
  intros Hq [H1 H2 H3 H4 H5]. split; [|done| |done|].
  - intros x ch Hx. rewrite <-Hq. eauto.
  - intros ch chan Hc. rewrite <-Hq. eauto.
  - intros ch Hc. rewrite <-Hq. eauto.
Qed.

Lemma so_register table chans q x :
  streams_ok table chans q → streams_ok (<[x := length chans]> table) (chans ++ [new_chan]) q.
Proof.
  intros [H1 H2 H3 H4 H5].
  assert (Hnew : ∀ ch chan, (chans ++ [new_chan]) !! ch = Some chan →
    chans !! ch = Some chan ∨ ch = length chans ∧ chan = new_chan).
  { intros ch chan [?|[? Hc]]%lookup_app_Some; [by left|right].
    apply list_lookup_singleton_Some in Hc as [? <-]. split; [lia|done]. }
  assert (Hlt : ∀ y ch, table !! y = Some ch → ch < length chans).
  { intros y ch (chan & Hc & _)%H1. by eapply lookup_lt_Some. }
  split.
  - intros y ch [[<- <-]|[Hne Hy]]%lookup_insert_Some.
    + exists new_chan. rewrite (H5 (length chans)) by lia. split; [|constructor].
      by rewrite lookup_app_r, Nat.sub_diag by lia.
    + destruct (H1 y ch Hy) as (chan & Hc & Hr). exists chan. split; [by apply lookup_app_l_Some|done].
  - intros y z ch [[<- <-]|[Hne Hy]]%lookup_insert_Some [[<- Hz]|[Hne' Hz]]%lookup_insert_Some; [done|..].
    + specialize (Hlt _ _ Hz). lia.
    + subst. specialize (Hlt _ _ Hy). lia.
    + eauto.
  - intros ch chan [?|[-> ->]]%Hnew; [eauto|]. by rewrite (H5 (length chans)) by lia.
  - intros ch chan [?|[-> ->]]%Hnew; [eauto|]. simpl. lia.
  - intros ch Hch. rewrite length_app in Hch. simpl in Hch. apply H5. lia.
Qed.

Lemma so_delete table chans q x : streams_ok table chans q → streams_ok (delete x table) chans q.
Proof. intros [H1 H2 H3 H4 H5]. split; try done; intros *; rewrite !lookup_delete_Some; naive_solver. Qed.

Lemma so_empty table chans q : streams_ok table chans q → streams_ok ∅ chans q.
Proof. intros [H1 H2 H3 H4 H5]. split; try done; intros *; by rewrite lookup_empty. Qed.

(** The reader takes a line when nothing is queued; what it then queues for a
    stream of the table does not follow an end. *)
Lemma so_queue table table' chans q :
  streams_ok table chans (λ _, []) → table' ⊆ table →
  (∀ ch, q ch = [] ∨ ∃ x, table !! x = Some ch ∧ terminated (q ch) ∧ (table' !! x = Some ch → running (q ch))) →
  streams_ok table' chans q.
Proof.
  intros [H1 H2 H3 H4 H5] Hsub Hq. split; [| | |done|].
  - intros x ch Hx. destruct (H1 x ch) as (chan & Hc & Hr); [by eapply lookup_weaken|].
    exists chan. split; [done|]. rewrite app_nil_r in Hr.
    apply Forall_app_2; [done|]. destruct (Hq ch) as [->|(y & Hy & _ & Hrun)]; [constructor|].
    apply Hrun. rewrite (H2 y x ch); [done..|by eapply lookup_weaken].
  - intros x y ch Hx Hy. eapply H2; by eapply lookup_weaken.
  - intros ch chan Hc. destruct (Hq ch) as [->|(y & Hy & Ht & _)]; [eauto|].
    destruct (H1 y ch Hy) as (chan' & Hc' & Hr). simplify_eq. rewrite app_nil_r in Hr.
    by apply running_terminated.
  - intros ch Hch. destruct (Hq ch) as [->|(y & Hy & _)]; [done|].
    destruct (H1 y ch Hy) as (chan' & Hc' & _). apply lookup_lt_Some in Hc'. lia.
Qed.

Lemma ch_send_spec (x : A) chan chan' :
  ch_send x chan = Some chan' →
  chan' = chan ∨ chan' = mkChan (ch_sent chan ++ [x]) (ch_taken chan) true ∧
                 length (ch_sent chan) - ch_taken chan < CAPACITY.
Proof.
  unfold ch_send, ch_full. destruct (negb (ch_open chan)); [by intros [= <-]; left|].
  destruct (bool_decide _) eqn:E; [done|]. intros [= <-]. right. split; [done|].
  apply bool_decide_eq_false in E. lia.
Qed.

(** The first queued event of a channel is sent. *)
Lemma so_act table chans q q' ch x chan chan' :
  streams_ok table chans q → chans !! ch = Some chan → ch_send x chan = Some chan' →
  q ch = x :: q' ch → (∀ i, i ≠ ch → q' i = q i) →
  streams_ok table (<[ch := chan']> chans) q'.
Proof.
  intros [H1 H2 H3 H4 H5] Hc Hs Hqc Hq. assert (Hlt := lookup_lt_Some _ _ _ Hc).
  assert (Hmid : ∀ P : list A → Prop, (∀ l k, P (l ++ x :: k) → P (l ++ k)) →
    P (ch_sent chan ++ q ch) → P (ch_sent chan' ++ q' ch)).
  { intros P HP. rewrite Hqc. destruct (ch_send_spec _ _ _ Hs) as [->|[-> _]]; [by apply HP|].
    simpl. by rewrite <-app_assoc. }
  split.
  - intros y i Hy. destruct (H1 y i Hy) as (c & Hi & Hr). destruct (decide (i = ch)) as [->|Hne].
    + exists chan'. rewrite list_lookup_insert_eq by done. simplify_eq. split; [done|].
      apply (Hmid running); [|done]. unfold running. intros l k. rewrite !Forall_app, Forall_cons. naive_solver.
    + exists c. rewrite list_lookup_insert_ne by done. by rewrite Hq.
  - done.
  - intros i c [[-> ->]|[Hne Hi]]%insert_cases; [|rewrite Hq by done; eauto].
    apply (Hmid terminated); [intros l k; apply terminated_drop_mid|eauto].
  - intros i c [[-> ->]|[Hne Hi]]%insert_cases; [|eauto]. specialize (H4 ch chan Hc).
    destruct (ch_send_spec _ _ _ Hs) as [->|[-> Hroom]]; [done|]. simpl. rewrite length_app. simpl. lia.
  - intros i Hi. rewrite length_insert in Hi. rewrite Hq by lia. by apply H5.
Qed.

(** A consumer takes an event or goes away. *)
Lemma so_chan table chans q ch chan chan' :
  streams_ok table chans q → chans !! ch = Some chan → ch_sent chan' = ch_sent chan →
  ch_taken chan ≤ ch_taken chan' ≤ length (ch_sent chan) → streams_ok table (<[ch := chan']> chans) q.
Proof.
  intros [H1 H2 H3 H4 H5] Hc Hs Ht. assert (Hlt := lookup_lt_Some _ _ _ Hc).
  split.
  - intros y i Hy. destruct (H1 y i Hy) as (c & Hi & Hr). destruct (decide (i = ch)) as [->|Hne].
    + exists chan'. rewrite list_lookup_insert_eq by done. simplify_eq. by rewrite Hs.
    + exists c. by rewrite list_lookup_insert_ne.
  - done.
  - intros i c [[-> ->]|[Hne Hi]]%insert_cases; [rewrite Hs|]; eauto.
  - intros i c [[-> ->]|[Hne Hi]]%insert_cases; [|eauto]. specialize (H4 ch chan Hc). rewrite Hs. lia.
  - intros i Hi. rewrite length_insert in Hi. by apply H5.
Qed.

Lemma so_take table chans q ch chan x chan' :
  streams_ok table chans q → chans !! ch = Some chan → ch_recv chan = Some (x, chan') →
  streams_ok table (<[ch := chan']> chans) q.
Proof.
  intros Hok Hc Hr. unfold ch_recv in Hr. destruct (ch_sent chan !! ch_taken chan) eqn:E; [|done].
  simpl in Hr. destruct (ch_open chan); [|done]. simplify_eq.
  eapply so_chan; [done..|]. simpl. apply lookup_lt_Some in E. lia.
Qed.

Lemma so_drop table chans q ch : streams_ok table chans q → streams_ok table (alter ch_drop ch chans) q.
Proof.
  intros Hok. destruct (chans !! ch) as [chan|] eqn:E.
  - rewrite (alter_insert chans ch ch_drop chan) by done. eapply so_chan; [done..|]. simpl.
    pose proof (so_room _ _ _ Hok ch chan E). lia.
  - by rewrite alter_none.
Qed.
End streams.

(** ** The invariant of a connection *)

Definition is_exit (e : ExecutionEvent) : bool := match e with EvExit _ => true | _ => false end.
Definition is_shell_exit (e : ShellEvent) : bool := match e with ShExit _ => true | _ => false end.

(** The sends the reader has still to do into a channel. *)
Definition queued_exec (todo : list Act) (ch : nat) : list ExecutionEvent :=
  omap (λ a, match a with ASendExec ch' e _ => if decide (ch' = ch) then Some e else None | _ => None end) todo.
Definition queued_shell (todo : list Act) (ch : nat) : list ShellEvent :=
  omap (λ a, match a with ASendShell ch' e _ => if decide (ch' = ch) then Some e else None | _ => None end) todo.

(** A call waits exactly when the sender of its channel is in the table. *)
Definition pending_ok (m : gmap string nat) (l : list Oneshot) : Prop :=
  ∀ id ch, m !! id = Some ch ↔ l !! ch = Some (mkOneshot id None).

(** Looking for the target's shell stream is the last thing an error does. *)
Fixpoint route_last (todo : list Act) : Prop :=
  match todo with [] => True | ARouteShell _ _ :: rest => rest = [] | _ :: rest => route_last rest end.

Record rpc_ok (c : Client) : Prop := {
  ok_route : route_last (cl_todo c);
  ok_pending : pending_ok (cl_responses c) (cl_oneshots c);
  ok_execs : streams_ok is_exit (cl_exec_streams c) (cl_exec_chans c) (queued_exec (cl_todo c));
  ok_shells : streams_ok is_shell_exit (cl_shell_streams c) (cl_shell_chans c) (queued_shell (cl_todo c));
}.

Lemma pending_fill m l id ch v :
  pending_ok m l → m !! id = Some ch → pending_ok (delete id m) (alter (os_fill v) ch l).
Proof.
  intros Hok Hid id' ch'. pose proof (proj1 (Hok id ch) Hid) as Hch. rewrite lookup_delete_Some.
  destruct (decide (ch' = ch)) as [->|Hne].
  - rewrite list_lookup_alter_eq, Hch. simpl. split; [|by intros ?; simplify_eq].
    intros [Hne Hm]. apply Hok in Hm. congruence.
  - rewrite list_lookup_alter_ne by done. specialize (Hok id' ch'). split; [intros [_ Hm]; by apply Hok|].
    intros Hm%Hok. split; [|done]. intros ->. congruence.
Qed.

Lemma pending_new m l id :
  pending_ok m l → m !! id = None → pending_ok (<[id := length l]> m) (l ++ [mkOneshot id None]).
Proof.
  intros Hok Hid id' ch. rewrite lookup_insert_Some, lookup_snoc_Some. split.
  - intros [[<- <-]|[Hne Hm]]; [by right|left]. apply Hok in Hm. split; [by eapply lookup_lt_Some|done].
  - intros [[Hlt Hl]|[-> Heq]]; [right|left; by simplify_eq]. apply Hok in Hl. split; [congruence|done].
Qed.

Lemma pending_fail m l v :
  pending_ok m l → pending_ok ∅ (imap (λ ch o, if decide (m !! os_id o = Some ch) then os_fill v o else o) l).
Proof.
  intros Hok id ch. rewrite lookup_empty, list_lookup_imap. split; [done|].
  intros ([id' w] & Ho & Heq)%fmap_Some. simpl in Heq. case_decide as Hm; simplify_eq/=.
  - destruct w; discriminate.
  - by apply Hok in Ho.
Qed.

Lemma drop_sender_pending id c :
  pending_ok (cl_responses c) (cl_oneshots c) →
  pending_ok (cl_responses (drop_sender id c)) (cl_oneshots (drop_sender id c)) ∧
  cl_responses (drop_sender id c) !! id = None.
Proof.
  intros Hok. unfold drop_sender. destruct (cl_responses c !! id) as [ch|] eqn:E; [|done].
  split; [by apply pending_fill|apply lookup_delete_eq].
Qed.

(** What [fail_all] queues for a channel: the message and the end, once, if its
    stream is in the table. *)
Lemma queued_each {B} (mk : nat → B → Act) (q : list Act → nat → list B) (events : list B) (l : list (Uuid * nat)) ch :
  (∀ t u i, q (t ++ u) i = q t i ++ q u i) → (∀ t, t = [] → q t ch = []) →
  (∀ i, q (mk i <$> events) ch = if decide (i = ch) then events else []) →
  NoDup l.*2 →
  q (l ≫= λ '(_, i), mk i <$> events) ch = if decide (ch ∈ l.*2) then events else [].
Proof.
  intros Happ Hnil Hmk. induction l as [|[x i] l IH]; [by intros _; simpl; apply Hnil|].
  intros [Hi Hnd]%NoDup_cons. rewrite bind_cons, Happ, Hmk, IH by done. simpl.
  destruct (decide (i = ch)) as [->|Hne].
  - rewrite decide_False by done. rewrite app_nil_r. by rewrite decide_True by left.
  - apply decide_ext. rewrite elem_of_cons. naive_solver.
Qed.

Section queues.
Context {A : Type} (is_end : A → bool).

Lemma table_NoDup table chans q : streams_ok is_end table chans q → NoDup (map_to_list table).*2.
Proof.
  intros Hok. apply NoDup_fmap_2_strong; [|apply NoDup_map_to_list].
  intros [x i] [y j] Hx%elem_of_map_to_list Hy%elem_of_map_to_list ?. simplify_eq/=.
  f_equal. by eapply (so_inj _ _ _ _ Hok).
Qed.

Lemma table_elem (table : gmap Uuid nat) ch : ch ∈ (map_to_list table).*2 ↔ ∃ x, table !! x = Some ch.
Proof.
  rewrite list_elem_of_fmap. split.
  - intros ([x i] & -> & Hx%elem_of_map_to_list). by exists x.
  - intros [x Hx]. exists (x, ch). by rewrite elem_of_map_to_list.
Qed.
End queues.

Lemma queued_exec_app t u ch : queued_exec (t ++ u) ch = queued_exec t ch ++ queued_exec u ch.
Proof. apply omap_app. Qed.
Lemma queued_shell_app t u ch : queued_shell (t ++ u) ch = queued_shell t ch ++ queued_shell u ch.
Proof. apply omap_app. Qed.

Lemma queued_exec_none t ch : (∀ i e b, ASendExec i e b ∉ t) → queued_exec t ch = [].
Proof.
  induction t as [|a t IH]; intros Ht; [done|]. simpl.
  destruct a as [i e b| |]; simpl; [destruct (Ht i e b); left|..]; apply IH; intros i e b Hin; apply (Ht i e b); by right.
Qed.
Lemma queued_shell_none t ch : (∀ i e b, ASendShell i e b ∉ t) → queued_shell t ch = [].
Proof.
  induction t as [|a t IH]; intros Ht; [done|]. simpl.
  destruct a as [|i e b|]; simpl; [|destruct (Ht i e b); left|]; apply IH; intros i e b Hin; apply (Ht i e b); by right.
Qed.

Lemma queued_exec_sends (events : list ExecutionEvent) i ch b :
  queued_exec ((λ e, ASendExec i e b) <$> events) ch = if decide (i = ch) then events else [].
Proof.
  induction events as [|e l IH]; [by case_decide|].
  rewrite fmap_cons. change (ASendExec i e b :: ?t) with ([ASendExec i e b] ++ t). rewrite queued_exec_app, IH.
  unfold queued_exec. simpl. by case_decide.
Qed.
Lemma queued_shell_sends (events : list ShellEvent) i ch b :
  queued_shell ((λ e, ASendShell i e b) <$> events) ch = if decide (i = ch) then events else [].
Proof.
  induction events as [|e l IH]; [by case_decide|].
  rewrite fmap_cons. change (ASendShell i e b :: ?t) with ([ASendShell i e b] ++ t). rewrite queued_shell_app, IH.
  unfold queued_shell. simpl. by case_decide.
Qed.

Lemma route_last_none t : (∀ x m, ARouteShell x m ∉ t) → route_last t.
Proof.
  induction t as [|[| |x m] t IH]; intros Ht; simpl; [done| | |destruct (Ht x m); left];
    apply IH; intros x m Hin; apply (Ht x m); by right.
Qed.

Section invariant.
Context `{Platform, Base64, Serde GuestRequest, Serde GuestEvent}.

Lemma rpc_ok_fresh draws faults : rpc_ok (from_stream draws faults).
Proof. split; [done|intros id ch; simpl; by rewrite lookup_empty|..]; split; simpl; try done; intros *; by rewrite ?lookup_empty, ?lookup_nil. Qed.

Lemma resolve_ok id v c : rpc_ok c → rpc_ok (resolve_response id v c).
Proof.
  intros [Hr Hp He Hs]. unfold resolve_response. destruct (cl_responses c !! id) as [ch|] eqn:E; [|done].
  split; [done|by apply pending_fill|done..].
Qed.

(** Queueing sends for the streams of one of the tables. *)
Lemma queue_exec_ok c table todo :
  rpc_ok c → cl_todo c = [] → table ⊆ cl_exec_streams c → (∀ i e b, ASendShell i e b ∉ todo) → route_last todo →
  (∀ ch, queued_exec todo ch = [] ∨ ∃ x, cl_exec_streams c !! x = Some ch ∧
     terminated is_exit (queued_exec todo ch) ∧ (table !! x = Some ch → running is_exit (queued_exec todo ch))) →
  rpc_ok (set_todo todo (set_execs table (cl_exec_chans c) c)).
Proof.
  intros [_ Hp He Hs] Ht Hsub Hno Hr Hq. rewrite Ht in He, Hs. split; [done|done| |].
  - by apply so_queue with (cl_exec_streams c).
  - simpl. eapply so_ext; [|exact Hs]. intros ch. by rewrite (queued_shell_none todo).
Qed.

Lemma queue_shell_ok c table todo :
  rpc_ok c → cl_todo c = [] → table ⊆ cl_shell_streams c → (∀ i e b, ASendExec i e b ∉ todo) → route_last todo →
  (∀ ch, queued_shell todo ch = [] ∨ ∃ x, cl_shell_streams c !! x = Some ch ∧
     terminated is_shell_exit (queued_shell todo ch) ∧ (table !! x = Some ch → running is_shell_exit (queued_shell todo ch))) →
  rpc_ok (set_todo todo (set_rpc_shells table (cl_shell_chans c) c)).
Proof.
  intros [_ Hp He Hs] Ht Hsub Hno Hr Hq. rewrite Ht in He, Hs. split; [done|done| |].
  - simpl. eapply so_ext; [|exact He]. intros ch. by rewrite (queued_exec_none todo).
  - by apply so_queue with (cl_shell_streams c).
Qed.

(** The sends for one stream: an output while it stays, or its last events
    once it was taken out of the table. *)
Lemma send_exec_ok c x ch events (rest : list Act) (gone : bool) b :
  rpc_ok c → cl_todo c = [] → cl_exec_streams c !! x = Some ch →
  (∀ i e b, ASendShell i e b ∉ rest) → (∀ i, queued_exec rest i = []) → route_last rest →
  terminated is_exit events → (gone = false → running is_exit events) →
  rpc_ok (set_todo (((λ e, ASendExec ch e b) <$> events) ++ rest)
    (set_execs (if gone then delete x (cl_exec_streams c) else cl_exec_streams c) (cl_exec_chans c) c)).
Proof.
  intros Hok Ht Hx Hno Hrest Hlast Hterm Hrun. apply queue_exec_ok; [done..| | | |].
  - destruct gone; [apply delete_subseteq|done].
  - intros i e b' [(e' & ? & _)%list_elem_of_fmap|Hin]%elem_of_app; [done|by eapply Hno].
  - clear -Hlast. by induction events.
  - intros i. rewrite queued_exec_app, Hrest, app_nil_r, queued_exec_sends.
    destruct (decide (ch = i)) as [<-|]; [right|by left]. exists x. split_and!; [done..|].
    intros Hl. apply Hrun. destruct gone; [|done]. by rewrite lookup_delete_eq in Hl.
Qed.

Lemma send_shell_ok c x ch events (gone : bool) b :
  rpc_ok c → cl_todo c = [] → cl_shell_streams c !! x = Some ch →
  terminated is_shell_exit events → (gone = false → running is_shell_exit events) →
  rpc_ok (set_todo ((λ e, ASendShell ch e b) <$> events)
    (set_rpc_shells (if gone then delete x (cl_shell_streams c) else cl_shell_streams c) (cl_shell_chans c) c)).
Proof.
  intros Hok Ht Hx Hterm Hrun. apply queue_shell_ok; [done..| | | |].
  - destruct gone; [apply delete_subseteq|done].
  - by intros i e b' (e' & ? & _)%list_elem_of_fmap.
  - clear. by induction events.
  - intros i. rewrite queued_shell_sends.
    destruct (decide (ch = i)) as [<-|]; [right|by left]. exists x. split_and!; [done..|].
    intros Hl. apply Hrun. destruct gone; [|done]. by rewrite lookup_delete_eq in Hl.
Qed.

Lemma route_shell_ok x message c c' :
  rpc_ok c → cl_todo c = [] → route_shell x message c = Some c' → rpc_ok c'.
Proof.
  intros Hok Ht. unfold route_shell. destruct (cl_shell_streams c !! x) as [ch|] eqn:E; [|done].
  intros [= <-]. rewrite Ht. exact (send_shell_ok c x ch (shell_killed_with message) true true Hok Ht E ltac:(done) ltac:(done)).
Qed.

Lemma resolve_todo id v c : cl_todo (resolve_response id v c) = cl_todo c.
Proof. unfold resolve_response. by destruct (_ !! _). Qed.

Lemma route_error_ok id target message c c' :
  rpc_ok c → cl_todo c = [] → route_error id target message c = Ok c' → rpc_ok c'.
Proof.
  intros Hok Ht. unfold route_error.
  set (c1 := match id with Some i => resolve_response i (Err (Protocol message)) c | None => c end).
  assert (Hok1 : rpc_ok c1 ∧ cl_todo c1 = []) by (unfold c1; destruct id; [rewrite resolve_todo; split; [by apply resolve_ok|done]|done]).
  destruct Hok1 as [Hok1 Ht1]. destruct target as [x|]; [|case_bool_decide; by intros [= <-]].
  destruct (cl_exec_streams c1 !! x) as [ch|] eqn:E.
  - intros [= <-]. apply (send_exec_ok c1 x ch (killed_with message) [ARouteShell x message] true true); try done.
    intros i e b. rewrite list_elem_of_singleton. done.
  - destruct (route_shell x message c1) eqn:Er; [intros [= <-]; by eapply route_shell_ok|].
    case_bool_decide; by intros [= <-].
Qed.

Lemma handle_event_ok event c c' :
  rpc_ok c → cl_todo c = [] → handle_event event c = Ok c' → rpc_ok c'.
Proof.
  intros Hok Ht. destruct event; simpl; try (intros [= <-]; by auto using resolve_ok).
  - intros [= <-]. by destruct Hok.
  - destruct (cl_exec_streams c !! exec_id) as [ch|] eqn:E; [|by intros [= <-]].
    destruct (rpc_decode_bytes data) as [b|]; [|done]. intros [= <-].
    apply (send_exec_ok c exec_id ch [EvOutput stream b] [] false); try done; [|by repeat constructor].
    intros i e b'. apply not_elem_of_nil.
  - destruct (cl_exec_streams c !! exec_id) as [ch|] eqn:E; intros [= <-]; [|done].
    apply (send_exec_ok c exec_id ch [EvExit status] [] true); try done.
    intros i e b'. apply not_elem_of_nil.
  - destruct (cl_shell_streams c !! session_id) as [ch|] eqn:E; [|by intros [= <-]].
    destruct (rpc_decode_bytes data) as [b|]; [|done]. intros [= <-].
    apply (send_shell_ok c session_id ch [ShOutput b] false); try done. by repeat constructor.
  - destruct (cl_shell_streams c !! session_id) as [ch|] eqn:E; intros [= <-]; [|done].
    by apply (send_shell_ok c session_id ch [ShExit code] true).
  - by apply route_error_ok.
Qed.

(** What [fail_all] leaves to send to each channel. *)
Lemma fail_all_queued message c ch :
  rpc_ok c →
  queued_exec (cl_todo (fail_all message c)) ch =
    (if decide (ch ∈ (map_to_list (cl_exec_streams c)).*2) then killed_with message else []) ∧
  queued_shell (cl_todo (fail_all message c)) ch =
    (if decide (ch ∈ (map_to_list (cl_shell_streams c)).*2) then shell_killed_with message else []).
Proof.
  intros [_ _ He Hs]. unfold fail_all. cbn [cl_todo set_reader]. rewrite queued_exec_app, queued_shell_app. split.
  - rewrite (queued_exec_none (_ ≫= λ '(_, i), _ <$> shell_killed_with message)), app_nil_r.
    + apply (queued_each (λ i e, ASendExec i e false)); [apply queued_exec_app|by intros ? ->| |by eapply table_NoDup].
      intros i. apply queued_exec_sends.
    + by intros i e b ([x j] & (e' & ? & _)%list_elem_of_fmap & _)%list_elem_of_bind.
  - rewrite (queued_shell_none (_ ≫= λ '(_, i), _ <$> killed_with message)).
    + apply (queued_each (λ i e, ASendShell i e false)); [apply queued_shell_app|by intros ? ->| |by eapply table_NoDup].
      intros i. apply queued_shell_sends.
    + by intros i e b ([x j] & (e' & ? & _)%list_elem_of_fmap & _)%list_elem_of_bind.
Qed.

Lemma fail_all_ok message c : rpc_ok c → cl_todo c = [] → rpc_ok (fail_all message c).
Proof.
  intros Hok Ht. assert (Hq := λ ch, fail_all_queued message c ch Hok). destruct Hok as [_ Hp He Hs].
  split; [|by apply pending_fail|..]; rewrite Ht in He, Hs.
  - apply route_last_none. intros x m [Hin|Hin]%elem_of_app;
      apply list_elem_of_bind in Hin as ([y j] & (e & ? & _)%list_elem_of_fmap & _); done.
  - apply so_queue with (cl_exec_streams c); [done|apply map_empty_subseteq|]. intros ch.
    rewrite (proj1 (Hq ch)). case_decide as Hin; [right|by left].
    apply table_elem in Hin as [x Hx]. by exists x.
  - apply so_queue with (cl_shell_streams c); [done|apply map_empty_subseteq|]. intros ch.
    rewrite (proj2 (Hq ch)). case_decide as Hin; [right|by left].
    apply table_elem in Hin as [x Hx]. by exists x.
Qed.

Lemma read_input_ok input c c' : rpc_ok c → read_input input c = Some c' → rpc_ok c'.
Proof.
  intros Hok. unfold read_input. destruct (cl_reading c); [|done]. simpl.
  case_decide as Ht; [done|]. intros [= <-].
  destruct input as [[|x line]| |]; [done| |by apply fail_all_ok..].
  destruct (from_slice (x :: line)) as [event|]; [|by apply fail_all_ok].
  destruct (handle_event event c) as [c1|] eqn:E; [by eapply handle_event_ok|by apply fail_all_ok].
Qed.

Lemma run_act_ok c c' : rpc_ok c → run_act c = Some c' → rpc_ok c'.
Proof.
  intros [Hr Hp He Hs]. unfold run_act. destruct (cl_todo c) as [|[ch e b|ch e b|x message] rest] eqn:Ht; [done|..].
  - intros (chan & Hc & (chan' & Hsend & [= <-])%bind_Some)%bind_Some. split; [done|done| |done].
    eapply so_act; [exact He|exact Hc|exact Hsend|..]; simpl.
    + unfold queued_exec. simpl. by rewrite decide_True.
    + intros i Hi. unfold queued_exec. simpl. by rewrite decide_False.
  - intros (chan & Hc & (chan' & Hsend & [= <-])%bind_Some)%bind_Some. split; [done|done|done|].
    eapply so_act; [exact Hs|exact Hc|exact Hsend|..]; simpl.
    + unfold queued_shell. simpl. by rewrite decide_True.
    + intros i Hi. unfold queued_shell. simpl. by rewrite decide_False.
  - simpl in Hr. subst rest. intros [= <-].
    assert (Hok1 : rpc_ok (set_todo [] c)) by (by split).
    destruct (route_shell x message (set_todo [] c)) eqn:E; simpl; [by eapply route_shell_ok|done].
Qed.

(** The other operations leave the tables and the reader alone, or change one
    table by the call they serve. *)
Lemma rpc_ok_same c c' :
  rpc_ok c → cl_todo c' = cl_todo c → cl_responses c' = cl_responses c → cl_oneshots c' = cl_oneshots c →
  cl_exec_streams c' = cl_exec_streams c → cl_exec_chans c' = cl_exec_chans c →
  cl_shell_streams c' = cl_shell_streams c → cl_shell_chans c' = cl_shell_chans c → rpc_ok c'.
Proof. intros [Hr Hp He Hs] H3 H4 H5 H6 H7 H8 H9. split; rewrite ?H3, ?H4, ?H5, ?H6, ?H7, ?H8, ?H9; done. Qed.

Lemma write_all_same context b c :
  ∃ w f, (write_all context b c).2 = set_writer w f c.
Proof. unfold write_all. destruct (cl_write_faults c) as [|[[e n]|] fs]; simpl; eauto. Qed.

Lemma send_request_same request c : ∃ w f, (send_request request c).2 = set_writer w f c.
Proof.
  unfold send_request, mbind, M_bind. destruct (map_err _ _ c) as [[payload|e] c1] eqn:E;
    unfold map_err, lift in E; destruct (to_vec request); simplify_eq/=.
  - destruct (write_all_same "writing guest request" payload c1) as (w & f & Hw).
    destruct (write_all _ _ c1) as [[?|?] c2]; simpl in *; subst; [|eauto].
    destruct (write_all_same "terminating guest request" [LF] (set_writer w f c1)) as (w' & f' & ->). eauto.
  - exists (cl_written c1), (cl_write_faults c1). by destruct c1.
Qed.

Lemma step_ok st c c' : rpc_ok c → step st c = Some c' → rpc_ok c'.
Proof.
  intros Hok. destruct st; simpl; unfold when.
  - by apply read_input_ok.
  - by apply run_act_ok.
  - intros [= <-]. by eapply rpc_ok_same.
  - intros [= <-]. destruct Hok as [Hr Hp He Hs]. destruct (drop_sender_pending id c Hp) as [Hp' Hid].
    assert (Hsame : cl_todo (drop_sender id c) = cl_todo c ∧ cl_exec_streams (drop_sender id c) = cl_exec_streams c ∧
      cl_exec_chans (drop_sender id c) = cl_exec_chans c ∧ cl_shell_streams (drop_sender id c) = cl_shell_streams c ∧
      cl_shell_chans (drop_sender id c) = cl_shell_chans c) by (unfold drop_sender; by destruct (cl_responses c !! id)).
    destruct Hsame as (E1 & E2 & E3 & E4 & E5). split; simpl; rewrite ?E1, ?E2, ?E3, ?E4, ?E5; try done.
    by apply pending_new.
  - intros [= <-]. destruct (drop_sender_pending id c (ok_pending _ Hok)) as [Hp' _].
    destruct Hok as [Hr Hp He Hs]. revert Hp'. unfold drop_sender. destruct (cl_responses c !! id); intros Hp'; by split.
  - intros [= <-]. destruct (send_request_same request c) as (w & f & ->). by eapply rpc_ok_same.
  - destruct (exec_locked c); [done|]. intros [= <-]. destruct Hok as [Hr Hp He Hs]. split; try done.
    by apply so_register.
  - destruct (exec_locked c); [done|]. intros [= <-]. destruct Hok as [Hr Hp He Hs]. split; try done.
    by apply so_delete.
  - destruct (shell_locked c); [done|]. intros [= <-]. destruct Hok as [Hr Hp He Hs]. split; try done.
    by apply so_register.
  - destruct (shell_locked c); [done|]. intros [= <-]. destruct Hok as [Hr Hp He Hs]. split; try done.
    by apply so_delete.
  - intros (chan & Hc & ([e chan'] & Hrecv & [= <-])%bind_Some)%bind_Some.
    destruct Hok as [Hr Hp He Hs]. split; try done. by eapply so_take.
  - intros [= <-]. destruct Hok as [Hr Hp He Hs]. split; try done. by apply so_drop.
  - intros (chan & Hc & ([e chan'] & Hrecv & [= <-])%bind_Some)%bind_Some.
    destruct Hok as [Hr Hp He Hs]. split; try done. by eapply so_take.
  - intros [= <-]. destruct Hok as [Hr Hp He Hs]. split; try done. by apply so_drop.
  - intros [= <-]. unfold begin_wait_ready. destruct (wt_value (cl_ready c)); [done|]. by eapply rpc_ok_same.
  - intros [= <-]. by eapply rpc_ok_same.
Qed.

Lemma run_ok_steps steps c c' : rpc_ok c → run steps c = Some c' → rpc_ok c'.
Proof.
  revert c. induction steps as [|st steps IH]; simpl; intros c Hok; [by intros [= <-]|].
  intros (c1 & Hst & Hrun)%bind_Some. eapply IH; [|exact Hrun]. by eapply step_ok.
Qed.
End invariant.

(** ** What an event does, and to whom *)

Section routing.
Context `{Platform, Base64, Serde GuestRequest, Serde GuestEvent}.

(** The call an event answers, and the answer. *)
Definition answer_of (event : GuestEvent) : option (string * Answer) :=
  match event with
  | GePong id => Some (id, Ok RspPong)
  | GeAck id => Some (id, Ok RspAck)
  | GeShellOpened id session => Some (id, Ok (RspShellOpened session))
  | GeWorkspaceSnapshot id entries => Some (id, Ok (RspSnapshot (from_entries entries)))
  | GeRuntimeStats id stats => Some (id, Ok (RspRuntimeStats stats))
  | GeFilesListed id entries => Some (id, Ok (RspFiles entries))
  | GeFileRead id file => Some (id, match into_read_file file with Ok f => Ok (RspFile f) | Err e => Err e end)
  | GeError (Some id) _ message => Some (id, Err (Protocol message))
  | _ => None
  end.

(** What an event adds to the stream of a command. *)
Definition exec_view (x : Uuid) (event : GuestEvent) : list ExecutionEvent :=
  match event with
  | GeExecOutput y stream data =>
      if decide (y = x) then match rpc_decode_bytes data with Ok b => [EvOutput stream b] | Err _ => [] end else []
  | GeExecExit y status => if decide (y = x) then [EvExit status] else []
  | GeError _ (Some y) message => if decide (y = x) then killed_with message else []
  | _ => []
  end.

(** The state of a call once an event has been handled. *)
Definition answered (event : GuestEvent) (o : Oneshot) : Oneshot :=
  match answer_of event with
  | Some (id, v) => if decide (id = os_id o) then os_fill v o else o
  | None => o
  end.

Lemma os_fill_done v o : os_value o ≠ None → os_fill v o = o.
Proof. destruct o as [i [w|]]; [done|]. intros []; done. Qed.

Lemma resolve_exact id v c ch o :
  rpc_ok c → cl_oneshots c !! ch = Some o →
  cl_oneshots (resolve_response id v c) !! ch = Some (if decide (id = os_id o) then os_fill v o else o).
Proof.
  intros Hok Ho. assert (Hp := ok_pending c Hok). unfold resolve_response.
  destruct (cl_responses c !! id) as [i|] eqn:E; simpl.
  - pose proof (proj1 (Hp id i) E) as Hi. destruct (decide (i = ch)) as [->|Hne].
    + rewrite list_lookup_alter_eq, Hi. simplify_eq/=. by rewrite decide_True.
    + rewrite list_lookup_alter_ne by done. rewrite Ho. case_decide as Hid; [|done].
      rewrite os_fill_done; [done|]. intros Hn. destruct o as [id' w]. simplify_eq/=.
      apply Hp in Ho. congruence.
  - rewrite Ho. case_decide as Hid; [|done]. rewrite os_fill_done; [done|]. intros Hn.
    destruct o as [id' w]. simplify_eq/=. apply Hp in Ho. congruence.
Qed.

Lemma route_error_oneshots id target message c c' :
  route_error id target message c = Ok c' →
  cl_oneshots c' = cl_oneshots (match id with Some i => resolve_response i (Err (Protocol message)) c | None => c end).
Proof.
  unfold route_error, route_shell.
  set (c1 := match id with Some i => resolve_response i (Err (Protocol message)) c | None => c end).
  destruct target as [x|]; [|case_bool_decide; by intros [= <-]].
  destruct (cl_exec_streams c1 !! x); [by intros [= <-]|].
  destruct (cl_shell_streams c1 !! x); simpl; [by intros [= <-]|]. case_bool_decide; by intros [= <-].
Qed.

Lemma event_answers event c c' ch o :
  rpc_ok c → handle_event event c = Ok c' → cl_oneshots c !! ch = Some o →
  cl_oneshots c' !! ch = Some (answered event o).
Proof.
  intros Hok Hev Ho.
  destruct event; simpl in Hev; try (injection Hev as <-; by apply resolve_exact); unfold answered; simpl.
  - by injection Hev as <-.
  - destruct (cl_exec_streams c !! exec_id); [|by injection Hev as <-].
    destruct (rpc_decode_bytes data); [|done]. by injection Hev as <-.
  - destruct (cl_exec_streams c !! exec_id); by injection Hev as <-.
  - destruct (cl_shell_streams c !! session_id); [|by injection Hev as <-].
    destruct (rpc_decode_bytes data); [|done]. by injection Hev as <-.
  - destruct (cl_shell_streams c !! session_id); by injection Hev as <-.
  - rewrite (route_error_oneshots _ _ _ _ _ Hev). destruct request_id as [id|]; [by apply resolve_exact|done].
Qed.

Lemma route_error_execs id target message c c' x ch :
  rpc_ok c → cl_todo c = [] → route_error id target message c = Ok c' → cl_exec_streams c !! x = Some ch →
  queued_exec (cl_todo c') ch = exec_view x (GeError id target message) ∧
  cl_exec_streams c' !! x = (if decide (target = Some x) then None else Some ch).
Proof.
  intros Hok Ht. unfold route_error, route_shell.
  set (c1 := match id with Some i => resolve_response i (Err (Protocol message)) c | None => c end).
  assert (E1 : cl_exec_streams c1 = cl_exec_streams c ∧ cl_todo c1 = []).
  { unfold c1, resolve_response. destruct id as [i|]; [|done]. by destruct (cl_responses c !! i). }
  destruct E1 as [E1 Ht1]. intros Hr Hx.
  destruct target as [y|]; [|case_bool_decide; [|done]; injection Hr as <-; by rewrite Ht1, E1].
  destruct (decide (y = x)) as [->|Hne].
  - rewrite E1, Hx in Hr. injection Hr as <-. unfold queued_exec. simpl. rewrite !decide_True by done.
    by rewrite lookup_delete_eq.
  - rewrite (decide_False (P := Some y = Some x)) by congruence. simpl. rewrite decide_False by done.
    destruct (cl_exec_streams c1 !! y) as [i|] eqn:Ey.
    + injection Hr as <-. unfold queued_exec. simpl. rewrite lookup_delete_ne, E1 by done.
      assert (i ≠ ch) by (intros ->; apply Hne; rewrite E1 in Ey; by eapply (so_inj _ _ _ _ (ok_execs _ Hok))).
      by rewrite !decide_False.
    + destruct (cl_shell_streams c1 !! y) as [i|]; simpl in Hr.
      * injection Hr as <-. rewrite Ht1. split; [|by rewrite <-E1 in Hx]. done.
      * case_bool_decide; [|done]. injection Hr as <-. by rewrite Ht1, E1.
Qed.

(** every line of the guest reaches exactly whom it names. A call's answer
    changes only by an event with its identifier, and only while the call waits;
    the stream of a command is given exactly what the event carries for it, and
    leaves the table exactly when that ends the command. *)
Theorem routing_exact event c c' :
  rpc_ok c → cl_todo c = [] → handle_event event c = Ok c' →
  (∀ ch o, cl_oneshots c !! ch = Some o → cl_oneshots c' !! ch = Some (answered event o)) ∧
  (∀ x ch, cl_exec_streams c !! x = Some ch →
     queued_exec (cl_todo c') ch = exec_view x event ∧
     cl_exec_streams c' !! x = (if existsb is_exit (exec_view x event) then None else Some ch)).
Proof.
  intros Hok Ht Hev. split; [intros; by eapply event_answers|]. intros x ch Hx.
  destruct event; simpl in Hev;
    try (injection Hev as <-; unfold resolve_response; destruct (cl_responses c !! _); simpl; rewrite ?Ht; done).
  - injection Hev as <-. simpl. by rewrite Ht.
  - destruct (decide (exec_id = x)) as [->|Hne].
    + rewrite Hx in Hev. destruct (rpc_decode_bytes data) as [b|] eqn:Eb; [|done]. injection Hev as <-.
      unfold queued_exec. simpl. rewrite !decide_True, Eb by done. done.
    + simpl. rewrite decide_False by done. destruct (cl_exec_streams c !! exec_id) as [i|] eqn:Ei.
      * destruct (rpc_decode_bytes data); [|done]. injection Hev as <-. unfold queued_exec. simpl.
        rewrite decide_False; [done|]. intros ->. apply Hne. by eapply (so_inj _ _ _ _ (ok_execs _ Hok)).
      * injection Hev as <-. by rewrite Ht.
  - destruct (decide (exec_id = x)) as [->|Hne].
    + rewrite Hx in Hev. injection Hev as <-. unfold queued_exec. simpl. rewrite !decide_True by done.
      simpl. by rewrite lookup_delete_eq.
    + simpl. rewrite decide_False by done. destruct (cl_exec_streams c !! exec_id) as [i|] eqn:Ei; injection Hev as <-.
      * unfold queued_exec. simpl. rewrite lookup_delete_ne by done.
        rewrite decide_False; [done|]. intros ->. apply Hne. by eapply (so_inj _ _ _ _ (ok_execs _ Hok)).
      * by rewrite Ht.
  - destruct (cl_shell_streams c !! session_id); [|injection Hev as <-; by rewrite Ht].
    destruct (rpc_decode_bytes data); [|done]. by injection Hev as <-.
  - destruct (cl_shell_streams c !! session_id); injection Hev as <-; [done|by rewrite Ht].
  - destruct (route_error_execs _ _ _ _ _ x ch Hok Ht Hev Hx) as [-> ->]. split; [done|].
    cbn [exec_view]. destruct target as [y|]; [|done].
    destruct (decide (Some y = Some x)) as [[= ->]|Hne]; [by rewrite decide_True|].
    by rewrite decide_False by congruence.
Qed.
End routing.

(** ** Properties of whole runs *)

Section runs.
Context `{Platform, Base64, Serde GuestRequest, Serde GuestEvent}.

(** C17: however the tasks of a connection interleave and whatever the guest
    sends: a call waits exactly as long as its sender is registered under its
    identifier, so that no two calls wait for the same answer and none is
    forgotten; nothing ever follows the exit of a command or of a shell in its
    stream; and no stream holds more unread events than its capacity. *)
Theorem rpc_invariant draws faults steps c :
  run steps (from_stream draws faults) = Some c →
  (∀ id ch, cl_responses c !! id = Some ch ↔ cl_oneshots c !! ch = Some (mkOneshot id None)) ∧
  (∀ ch chan, cl_exec_chans c !! ch = Some chan →
     terminated is_exit (ch_sent chan) ∧ length (ch_sent chan) - ch_taken chan ≤ CAPACITY) ∧
  (∀ ch chan, cl_shell_chans c !! ch = Some chan →
     terminated is_shell_exit (ch_sent chan) ∧ length (ch_sent chan) - ch_taken chan ≤ CAPACITY).
Proof.
  intros Hrun. pose proof (run_ok_steps steps _ c (rpc_ok_fresh draws faults) Hrun) as [_ Hp He Hs].
  split_and!; [exact Hp|..]; intros ch chan Hc.
  - split; [by eapply terminated_prefix, so_term|]. pose proof (so_room _ _ _ _ He ch chan Hc). lia.
  - split; [by eapply terminated_prefix, so_term|]. pose proof (so_room _ _ _ _ Hs ch chan Hc). lia.
Qed.

Lemma fail_all_answers message c ch o :
  rpc_ok c → cl_oneshots c !! ch = Some o →
  cl_oneshots (fail_all message c) !! ch = Some (os_fill (Err (Protocol message)) o).
Proof.
  intros Hok Ho. simpl. rewrite list_lookup_imap, Ho. simpl. case_decide as Hm; [done|].
  rewrite os_fill_done; [done|]. intros Hn. destruct o as [id w]. simplify_eq/=.
  apply (ok_pending c Hok) in Ho. congruence.
Qed.

Lemma handle_event_reading event c c' :
  cl_reading c = true → handle_event event c = Ok c' → cl_reading c' = true.
Proof.
  intros Hr. assert (Hres : ∀ id v, cl_reading (resolve_response id v c) = true).
  { intros id v. unfold resolve_response. by destruct (cl_responses c !! id). }
  destruct event; simpl; try (intros [= <-]; by auto);
    try (destruct (_ !! _); [|by intros [= <-]]);
    try (destruct (rpc_decode_bytes data); [|done]); try (by intros [= <-]).
  unfold route_error, route_shell. set (c1 := match request_id with Some _ => _ | None => _ end).
  assert (cl_reading c1 = true) by (unfold c1; by destruct request_id).
  destruct target as [x|]; [|case_bool_decide; by intros [= <-]].
  destruct (cl_exec_streams c1 !! x); [by intros [= <-]|].
  destruct (cl_shell_streams c1 !! x); simpl; [by intros [= <-]|]. case_bool_decide; by intros [= <-].
Qed.

(** when the connection fails, because it closed, because reading failed or
    because the guest sent something the client cannot make sense of, nobody is
    left behind: every call that waited is answered with the reason, every
    command and every shell is sent the reason and then its end, and the reader
    stops. *)
Theorem failure_answers_everyone input c c' :
  rpc_ok c → read_input input c = Some c' → cl_reading c' = false →
  ∃ message,
    (∀ ch o, cl_oneshots c !! ch = Some o →
       cl_oneshots c' !! ch = Some (os_fill (Err (Protocol message)) o)) ∧
    (∀ ch o, cl_oneshots c' !! ch = Some o → os_value o ≠ None) ∧
    (∀ x ch, cl_exec_streams c !! x = Some ch → queued_exec (cl_todo c') ch = killed_with message) ∧
    (∀ x ch, cl_shell_streams c !! x = Some ch → queued_shell (cl_todo c') ch = shell_killed_with message).
Proof.
  intros Hok Hread Hstop.
  assert (∃ message, c' = fail_all message c ∧ cl_todo c = []) as (message & -> & Ht).
  { unfold read_input in Hread. destruct (cl_reading c) eqn:Er; [|done]. simpl in Hread.
    case_decide as Ht; [done|]. injection Hread as <-.
    destruct input as [[|x line]| |]; [congruence| |by eauto..].
    destruct (from_slice (x :: line)) as [event|]; [|by eauto].
    destruct (handle_event event c) as [c1|] eqn:E; [|by eauto].
    by rewrite (handle_event_reading event c c1) in Hstop. }
  exists message. split_and!.
  - intros ch o. by apply fail_all_answers.
  - intros ch o Ho Hn. destruct o as [id w]. simpl in Hn. subst w.
    by apply (ok_pending _ (fail_all_ok message c Hok Ht)) in Ho.
  - intros x ch Hx. rewrite (proj1 (fail_all_queued message c ch Hok)). apply decide_True.
    apply table_elem. eauto.
  - intros x ch Hx. rewrite (proj2 (fail_all_queued message c ch Hok)). apply decide_True.
    apply table_elem. eauto.
Qed.

(** A step that is no turn of the reader, nor a call's own clean-up, answers nobody. *)
Lemma step_keeps_pending st c c' id ch :
  step st c = Some c' → cl_oneshots c !! ch = Some (mkOneshot id None) →
  (∀ input, st ≠ SRead input) → st ≠ SRegister id → st ≠ SUnregister id → rpc_ok c →
  cl_oneshots c' !! ch = Some (mkOneshot id None).
Proof.
  intros Hst Ho Hread Hreg Hunreg Hok. assert (Hp := ok_pending c Hok).
  assert (Hdrop : ∀ id', id' ≠ id → cl_oneshots (drop_sender id' c) !! ch = Some (mkOneshot id None)).
  { intros id' Hne. unfold drop_sender. destruct (cl_responses c !! id') as [i|] eqn:E; [|done]. simpl.
    rewrite list_lookup_alter_ne; [done|]. intros ->. apply Hp in E. congruence. }
  destruct st; simpl in Hst; unfold when in Hst.
  - by destruct (Hread input).
  - unfold run_act, route_shell in Hst. destruct (cl_todo c) as [|[i e b|i e b|x m] rest]; [done|..].
    + by apply bind_Some in Hst as (? & _ & (? & _ & [= <-])%bind_Some).
    + by apply bind_Some in Hst as (? & _ & (? & _ & [= <-])%bind_Some).
    + injection Hst as <-. simpl. by destruct (cl_shell_streams c !! x).
  - by injection Hst as <-.
  - injection Hst as <-. simpl. apply lookup_app_l_Some, Hdrop. congruence.
  - injection Hst as <-. simpl. apply Hdrop. congruence.
  - injection Hst as <-. by destruct (send_request_same request c) as (w & f & ->).
  - destruct (exec_locked c); [done|]. by injection Hst as <-.
  - destruct (exec_locked c); [done|]. by injection Hst as <-.
  - destruct (shell_locked c); [done|]. by injection Hst as <-.
  - destruct (shell_locked c); [done|]. by injection Hst as <-.
  - by apply bind_Some in Hst as (? & _ & ([] & _ & [= <-])%bind_Some).
  - by injection Hst as <-.
  - by apply bind_Some in Hst as (? & _ & ([] & _ & [= <-])%bind_Some).
  - by injection Hst as <-.
  - injection Hst as <-. unfold begin_wait_ready. by destruct (wt_value (cl_ready c)).
  - by injection Hst as <-.
Qed.

(** A property of the state that rules out the turns of the reader keeps a call waiting. *)
Lemma stuck_reader (stuck : Client → Prop) (allowed : Step → Prop) steps c c' id ch :
  (∀ st s s', allowed st → stuck s → step st s = Some s' → stuck s') →
  (∀ input s s', stuck s → read_input input s = Some s' → False) →
  Forall allowed steps → Forall (λ st, st ≠ SRegister id ∧ st ≠ SUnregister id) steps →
  stuck c → rpc_ok c → cl_oneshots c !! ch = Some (mkOneshot id None) →
  run steps c = Some c' → cl_oneshots c' !! ch = Some (mkOneshot id None).
Proof.
  intros Hkeep Hno. revert c. induction steps as [|st steps IH]; simpl; intros c Hall Hown Hstuck Hok Ho Hrun.
  - by injection Hrun as <-.
  - apply Forall_cons in Hall as [Ha Hall]. apply Forall_cons in Hown as [[H1' H2'] Hown].
    apply bind_Some in Hrun as (c1 & Hst & Hrun).
    apply (IH c1); [done..|by eapply Hkeep|by eapply step_ok| |done].
    eapply step_keeps_pending; try done. intros input ->. by eapply Hno.
Qed.

(** Only the reader's turns stop it or start its sends. *)
Lemma step_reader st c c' :
  step st c = Some c' → (∀ input, st ≠ SRead input) → st ≠ SAct →
  cl_reading c' = cl_reading c ∧ cl_todo c' = cl_todo c ∧
  (∀ ch chan, st ≠ STakeExec ch → st ≠ SDropExec ch → cl_exec_chans c !! ch = Some chan → cl_exec_chans c' !! ch = Some chan).
Proof.
  intros Hst Hread Hact. destruct st; simpl in Hst; unfold when in Hst.
  - by destruct (Hread input).
  - done.
  - by injection Hst as <-.
  - injection Hst as <-. simpl. unfold drop_sender. by destruct (cl_responses c !! id).
  - injection Hst as <-. simpl. unfold drop_sender. by destruct (cl_responses c !! id).
  - injection Hst as <-. by destruct (send_request_same request c) as (w & f & ->).
  - destruct (exec_locked c); [done|]. injection Hst as <-. split_and!; [done..|]. intros ch chan _ _. apply lookup_app_l_Some.
  - destruct (exec_locked c); [done|]. by injection Hst as <-.
  - destruct (shell_locked c); [done|]. by injection Hst as <-.
  - destruct (shell_locked c); [done|]. by injection Hst as <-.
  - apply bind_Some in Hst as (? & _ & ([] & _ & [= <-])%bind_Some). split_and!; [done..|].
    intros i chan Hi _ Hc. simpl. by rewrite list_lookup_insert_ne by congruence.
  - injection Hst as <-. split_and!; [done..|].
    intros i chan _ Hi Hc. simpl. by rewrite list_lookup_alter_ne by congruence.
  - by apply bind_Some in Hst as (? & _ & ([] & _ & [= <-])%bind_Some).
  - by injection Hst as <-.
  - injection Hst as <-. unfold begin_wait_ready. by destruct (wt_value (cl_ready c)).
  - by injection Hst as <-.
Qed.

Lemma run_act_reading c c' : run_act c = Some c' → cl_reading c' = cl_reading c.
Proof.
  unfold run_act, route_shell. destruct (cl_todo c) as [|[i e b|i e b|x m] rest]; [done|..].
  - by intros (? & _ & (? & _ & [= <-])%bind_Some)%bind_Some.
  - by intros (? & _ & (? & _ & [= <-])%bind_Some)%bind_Some.
  - intros [= <-]. simpl. by destruct (cl_shell_streams c !! x).
Qed.

Lemma next_id_ok c i c0 :
  rpc_ok c → next_request_id c = (Ok i, c0) →
  rpc_ok c0 ∧ cl_reading c0 = cl_reading c ∧ cl_todo c0 = cl_todo c ∧ cl_exec_chans c0 = cl_exec_chans c.
Proof. intros Hok [= <- <-]. split_and!; [by eapply rpc_ok_same|done..]. Qed.

Lemma begin_call_ok call c ch c' :
  rpc_ok c → begin_call call c = (Ok ch, c') →
  rpc_ok c' ∧ cl_reading c' = cl_reading c ∧ cl_todo c' = cl_todo c ∧ cl_exec_chans c' = cl_exec_chans c ∧
  ∃ id, cl_oneshots c' !! ch = Some (mkOneshot id None).
Proof.
  intros Hok Hb. assert (∃ request c0, rpc_ok c0 ∧ cl_reading c0 = cl_reading c ∧ cl_todo c0 = cl_todo c ∧
    cl_exec_chans c0 = cl_exec_chans c ∧ begin_request request c0 = (Ok ch, c')) as (request & c0 & Hok0 & Er & Et & Ec & Hq).
  { destruct call; simpl in Hb; ok_inv;
      match goal with H' : next_request_id _ = _ |- _ => apply (next_id_ok _ _ _ Hok) in H' as (? & ? & ? & ?) end;
      eauto 10. }
  unfold begin_request in Hq. apply bind_ok_inv in Hq as (i & c1 & Hreg & Hq).
  apply bind_ok_inv in Hq as (r & c2 & Hsend & Hq).
  assert (Hok1 : rpc_ok c1) by (apply (step_ok (SRegister (guest_request_id request)) c0); [done|]; cbn [step]; by rewrite Hreg).
  unfold attempt in Hsend. destruct (send_request_same request c1) as (w & f & Hw).
  destruct (send_request request c1) as [u c3]. simpl in Hw. injection Hsend as <- <-. subst c3.
  destruct u as [[]|e]; [|by ok_inv]. ok_inv. injection Hreg as <- <-.
  split_and!; [by eapply rpc_ok_same| | | |].
  1-3: simpl; unfold drop_sender; by destruct (cl_responses c0 !! _).
  eexists. simpl. rewrite lookup_app_r, Nat.sub_diag by lia. done.
Qed.

(** the reader stops at the first line it cannot handle, but the client
    goes on taking calls: a call that begins after that, and whose request is
    written, is never answered. Whatever any task does, its caller waits. *)
Theorem stopped_reader_never_answers call c ch c1 :
  rpc_ok c → cl_reading c = false → begin_call call c = (Ok ch, c1) →
  ∃ id, cl_oneshots c1 !! ch = Some (mkOneshot id None) ∧
    ∀ steps c2, Forall (λ st, st ≠ SRegister id ∧ st ≠ SUnregister id) steps → run steps c1 = Some c2 →
      cl_oneshots c2 !! ch = Some (mkOneshot id None).
Proof.
  intros Hok Hr Hb. destruct (begin_call_ok call c ch c1 Hok Hb) as (Hok1 & Hr1 & _ & _ & id & Hid).
  exists id. split; [done|]. intros steps c2 Hown Hrun.
  eapply (stuck_reader (λ s, cl_reading s = false) (λ _, True)); [..|exact Hrun]; [| |by apply Forall_true|done|congruence|done..].
  - intros st s s' _ Hs Hst. destruct (decide (st = SAct)) as [->|Hact]; [by rewrite (run_act_reading s s')|].
    destruct st; try (rewrite (proj1 (step_reader _ s s' Hst ltac:(done) Hact)); done).
    simpl in Hst. unfold read_input in Hst. by rewrite Hs in Hst.
  - intros input s s' Hs. unfold read_input. by rewrite Hs.
Qed.

(** The reader waits for room in the stream of a command. *)
Definition blocked_on (ch : nat) (c : Client) : Prop :=
  ∃ e b rest chan, cl_todo c = ASendExec ch e b :: rest ∧ cl_exec_chans c !! ch = Some chan ∧
    ch_full chan = true ∧ ch_open chan = true.

(** one stream that nobody reads blocks the whole connection: while the
    reader waits for room in the stream of a command whose consumer neither
    takes an event nor goes away, no waiting call of any other task is answered. *)
Theorem full_stream_blocks_everyone full c ch id steps c' :
  rpc_ok c → blocked_on full c → cl_oneshots c !! ch = Some (mkOneshot id None) →
  Forall (λ st, st ≠ STakeExec full ∧ st ≠ SDropExec full) steps →
  Forall (λ st, st ≠ SRegister id ∧ st ≠ SUnregister id) steps →
  run steps c = Some c' → cl_oneshots c' !! ch = Some (mkOneshot id None).
Proof.
  intros Hok Hb Ho Hidle Hown Hrun.
  eapply (stuck_reader (blocked_on full) (λ st, st ≠ STakeExec full ∧ st ≠ SDropExec full)); [..|exact Hrun]; [| |done..].
  - intros st s s' [Ha1 Ha2] (e & b & rest & chan & Ht & Hc & Hf & Hopen) Hst.
    destruct (decide (st = SAct)) as [->|Hact].
    { simpl in Hst. unfold run_act in Hst. rewrite Ht, Hc in Hst. simpl in Hst.
      unfold ch_send in Hst. by rewrite Hopen, Hf in Hst. }
    assert (Hread : ∀ input, st ≠ SRead input).
    { intros input ->. simpl in Hst. unfold read_input in Hst. destruct (cl_reading s); [|done].
      simpl in Hst. by rewrite Ht in Hst. }
    destruct (step_reader st s s' Hst Hread Hact) as (_ & Ht' & Hcs).
    exists e, b, rest, chan. split_and!; [congruence|by apply Hcs|done..].
  - intros input s s' (e & b & rest & chan & Ht & _). unfold read_input. destruct (cl_reading s); [|done].
    simpl. by rewrite Ht.
Qed.

(** ** Readiness *)

(** A line that says the guest is ready. *)
Definition announces (st : Step) : Prop :=
  ∃ line ready, st = SRead (InLine line) ∧ from_slice line = Ok (GeReady ready).

Lemma handle_event_ready event c c' :
  (∀ ready, event ≠ GeReady ready) → handle_event event c = Ok c' → cl_ready c' = cl_ready c.
Proof.
  intros Hne Hev. assert (Hres : ∀ id v c, cl_ready (resolve_response id v c) = cl_ready c).
  { intros id v c0. unfold resolve_response. by destruct (cl_responses c0 !! id). }
  destruct event; simpl in Hev; try (injection Hev as <-; apply Hres).
  - by destruct (Hne ready).
  - destruct (cl_exec_streams c !! _); [|by injection Hev as <-]. destruct (rpc_decode_bytes data); [|done]. by injection Hev as <-.
  - destruct (cl_exec_streams c !! _); by injection Hev as <-.
  - destruct (cl_shell_streams c !! _); [|by injection Hev as <-]. destruct (rpc_decode_bytes data); [|done]. by injection Hev as <-.
  - destruct (cl_shell_streams c !! _); by injection Hev as <-.
  - unfold route_error, route_shell in Hev. set (c1 := match request_id with Some _ => _ | None => _ end) in Hev.
    assert (Hc1 : cl_ready c1 = cl_ready c) by (unfold c1; destruct request_id; [apply Hres|done]).
    destruct target as [x|]; [|case_bool_decide; by simplify_eq].
    destruct (cl_exec_streams c1 !! x); [by simplify_eq|].
    destruct (cl_shell_streams c1 !! x); simpl in Hev; [by simplify_eq|]. case_bool_decide; by simplify_eq.
Qed.

Lemma step_unready st c c' :
  step st c = Some c' → ¬ announces st → wt_value (cl_ready c) = None → wt_value (cl_ready c') = None.
Proof.
  intros Hst Hna Hv. destruct st; simpl in Hst; unfold when in Hst.
  - unfold read_input in Hst. destruct (cl_reading c); [|done]. simpl in Hst. case_decide; [done|]. injection Hst as <-.
    destruct input as [[|x line]| |]; [done| |done..].
    destruct (from_slice (x :: line)) as [event|] eqn:E; [|done]. destruct (handle_event event c) as [c'|] eqn:Hev; [|done].
    rewrite (handle_event_ready event c c'); [done| |done]. intros ready ->. apply Hna. by exists (x :: line), ready.
  - unfold run_act, route_shell in Hst. destruct (cl_todo c) as [|[i e b|i e b|x m] rest]; [done|..].
    + by apply bind_Some in Hst as (? & _ & (? & _ & [= <-])%bind_Some).
    + by apply bind_Some in Hst as (? & _ & (? & _ & [= <-])%bind_Some).
    + injection Hst as <-. simpl. by destruct (cl_shell_streams c !! x).
  - by injection Hst as <-.
  - injection Hst as <-. simpl. unfold drop_sender. by destruct (cl_responses c !! id).
  - injection Hst as <-. simpl. unfold drop_sender. by destruct (cl_responses c !! id).
  - injection Hst as <-. by destruct (send_request_same request c) as (w & f & ->).
  - destruct (exec_locked c); [done|]. by injection Hst as <-.
  - destruct (exec_locked c); [done|]. by injection Hst as <-.
  - destruct (shell_locked c); [done|]. by injection Hst as <-.
  - destruct (shell_locked c); [done|]. by injection Hst as <-.
  - by apply bind_Some in Hst as (? & _ & ([] & _ & [= <-])%bind_Some).
  - by injection Hst as <-.
  - by apply bind_Some in Hst as (? & _ & ([] & _ & [= <-])%bind_Some).
  - by injection Hst as <-.
  - injection Hst as <-. unfold begin_wait_ready. by rewrite Hv.
  - by injection Hst as <-.
Qed.

(** a guest that announces itself too early is not heard: [Ready] is sent once, and when the
    reader handles it before [wait_ready] has subscribed, the value is dropped with nobody
    to receive it.  Every later wait on this connection subscribes and finds nothing,
    until its time is up. *)
Theorem early_ready_is_lost ready line c c1 steps c2 :
  wt_receivers (cl_ready c) = 0 → wt_value (cl_ready c) = None →
  from_slice line = Ok (GeReady ready) → read_input (InLine line) c = Some c1 →
  run steps c1 = Some c2 → Forall (λ st, ¬ announces st) steps →
  wt_value (cl_ready c2) = None ∧ (begin_wait_ready c2).1 = None.
Proof.
  intros Hr Hv Hline Hread Hrun Hall.
  assert (wt_value (cl_ready c1) = None) as Hv1.
  { unfold read_input in Hread. destruct (cl_reading c); [|done]. simpl in Hread. case_decide; [done|]. injection Hread as <-.
    destruct line as [|x line]; [done|]. rewrite Hline. simpl. unfold watch_send. by rewrite Hr. }
  clear Hread Hv Hr. assert (wt_value (cl_ready c2) = None) as Hv2.
  { revert c1 Hrun Hv1. induction steps as [|st steps IH]; simpl; intros c1 Hrun Hv1; [by injection Hrun as <-|].
    apply Forall_cons in Hall as [Hst Hall]. apply bind_Some in Hrun as (c3 & Hs & Hrun).
    apply (IH Hall c3); [done|]. by eapply step_unready. }
  split; [done|]. unfold begin_wait_ready. by rewrite Hv2.
Qed.
End runs.
