(* ===== verification/GuestFs.v ===== *)
(** * GuestFs: [guest-agent/src/guest_agent/fs.rs]

    The file operations the agent runs in the guest, as root, on the guest's
    own file system: directories, files and symbolic links, which the kernel
    follows while it resolves a path.  A path is its components, as in [Paths];
    what a trailing separator asks of the kernel is not modelled. *)

From S2P Require Import Prelude RustStd Paths FileSystem PrivateFs FsTree Manifest.

(** ** The file system of a guest *)

Inductive gnode :=
  | GDir
  | GFile (b : bytes)
  | GLink (target : string).

Abbreviation gfs := (gmap path gnode).

(** The file system, and the failures of I/O operations to come. *)
Record Guest := mkGuest { g_fs : gfs; g_faults : list (option Fault) }.

Definition ELOOP : IoError := os_error KOther "Too many levels of symbolic links (os error 40)".

(** What is at a resolved path; the root directory is always there. *)
Definition node_at (fs : gfs) (q : path) : option gnode := match q with [] => Some GDir | _ => fs !! q end.

(** The components of a link's target the kernel walks through. *)
Definition link_names (target : string) : list string := filter (λ s, s ≠ "") (split_on slash target).

(** Path resolution: [rest] from the directory [cur], at most [links] symbolic
    links on the way.  The last component may be missing, and is followed if it
    is a link and [follow] says so. *)
Fixpoint walk (links : nat) (fs : gfs) (follow : bool) : path → list string → Result IoError path :=
  fix go (cur : path) (rest : list string) : Result IoError path :=
    match rest with
    | [] => Ok cur
    | n :: rest' =>
        if decide (n = ".") then go cur rest'
        else if decide (n = "..") then go (parent cur) rest'
        else match fs !! (cur ++ [n]) with
        | None => match rest' with [] => Ok (cur ++ [n]) | _ => Err ENOENT end
        | Some GDir => go (cur ++ [n]) rest'
        | Some (GFile _) => match rest' with [] => Ok (cur ++ [n]) | _ => Err ENOTDIR end
        | Some (GLink target) =>
            if decide (rest' = [] ∧ follow = false) then Ok (cur ++ [n])
            else match links with
            | O => Err ELOOP
            | S links' =>
                walk links' fs follow (if starts_with "/" target then [] else cur) (link_names target ++ rest')
            end
        end
    end.

(** Linux follows at most forty links. *)
Definition MAXSYMLINKS : nat := 40.

Definition namei (fs : gfs) (follow : bool) (p : path) : Result IoError path := walk MAXSYMLINKS fs follow [] p.

(** ** What the agent uses of [std::fs] *)

(** One operation: it fails as scheduled, leaving what [torn] says, or acts. *)
Definition g_op {A} (act : gfs → Result IoError (A * gfs)) (torn : Fault → gfs → gfs) : M IoError Guest A := λ g,
  match g_faults g with
  | Some f :: fs => (Err (fault_error f), mkGuest (torn f (g_fs g)) fs)
  | sched =>
      match act (g_fs g) with
      | Ok (a, fs') => (Ok a, mkGuest fs' (tail sched))
      | Err e => (Err e, mkGuest (g_fs g) (tail sched))
      end
  end.
Definition untorn (_ : Fault) (fs : gfs) : gfs := fs.

(** The node a path leads to, and where it is. *)
Definition find_node (fs : gfs) (follow : bool) (p : path) : Result IoError (path * gnode) :=
  q ← namei fs follow p; n ← ok_or ENOENT (node_at fs q); Ok (q, n).

Definition g_symlink_metadata (p : path) : M IoError Guest gnode :=
  g_op (λ fs, '(_, n) ← find_node fs false p; Ok (n, fs)) untorn.

Definition g_read_link (p : path) : M IoError Guest string :=
  g_op (λ fs, '(_, n) ← find_node fs false p;
              match n with GLink t => Ok (t, fs) | _ => Err EINVAL end) untorn.

(** [File::open], then reading at most [limit] bytes when there is a limit. *)
Definition g_open (p : path) : M IoError Guest path :=
  g_op (λ fs, '(q, _) ← find_node fs true p; Ok (q, fs)) untorn.
Definition g_read (q : path) (limit : option nat) : M IoError Guest bytes :=
  g_op (λ fs, match node_at fs q with
              | Some (GFile b) => Ok (match limit with Some n => take n b | None => b end, fs)
              | Some _ => Err EISDIR
              | None => Err ENOENT
              end) untorn.

(** [File::create] opens the file a path leads to, truncated, and creates it if
    it is missing; [write_all] then fills it, or a part of it. *)
Definition g_create (p : path) : M IoError Guest path :=
  g_op (λ fs, q ← namei fs true p;
              match node_at fs q with
              | Some GDir => Err EISDIR
              | _ => Ok (q, <[q := GFile []]> fs)
              end) untorn.
Definition g_write_all (q : path) (data : bytes) : M IoError Guest () :=
  g_op (λ fs, Ok ((), <[q := GFile data]> fs)) (λ f fs, <[q := GFile (take (fault_progress f) data)]> fs).

Definition g_mkdir (p : path) : M IoError Guest () :=
  g_op (λ fs, q ← namei fs false p;
              match node_at fs q with
              | Some _ => Err EEXIST
              | None => Ok ((), <[q := GDir]> fs)
              end) untorn.

(** [Path::is_dir]: following links; an error counts as no. *)
Definition g_is_dir (p : path) : M IoError Guest bool := λ g,
  match g_op (λ fs, '(_, n) ← find_node fs true p; Ok (n, fs)) untorn g with
  | (Ok GDir, g') => (Ok true, g')
  | (_, g') => (Ok false, g')
  end.

(** [DirBuilder::recursive(true)]: the directory, its ancestors if they are
    missing, and the directory again.  By recursion on the path reversed. *)
Fixpoint create_dir_all_rev (r : list string) : M IoError Guest () :=
  let p := rev r in
  r1 ← attempt (g_mkdir p);
  match r1 with
  | Ok _ => mret ()
  | Err e =>
      let retry := (r2 ← attempt (g_mkdir p);
        match r2 with
        | Ok _ => mret ()
        | Err e' => d ← g_is_dir p; if d : bool then mret () else throw e'
        end) in
      if decide (io_kind e = KNotFound) then
        match r with
        | [] => throw (os_error KOther "failed to create whole tree")
        | _ :: r' => create_dir_all_rev r';; retry
        end
      else d ← g_is_dir p; if d : bool then mret () else throw e
  end.
Definition g_create_dir_all (p : path) : M IoError Guest () := create_dir_all_rev (rev p).

(** The names in a directory, in the order of names, which is the order the
    agent sorts them into. *)
Definition g_children (fs : gfs) (q : path) : list string :=
  sort_by_key id string_le (child_names fs q).

Definition g_read_dir (p : path) : M IoError Guest (list string) :=
  g_op (λ fs, '(q, n) ← find_node fs true p;
              match n with GDir => Ok (g_children fs q, fs) | _ => Err ENOTDIR end) untorn.

(** [remove_dir_all] on a directory removes what is below it and follows no
    link; interrupted, it leaves a part. *)
Definition g_remove_dir_all (p : path) : M IoError Guest () :=
  g_op (λ fs, '(q, n) ← find_node fs false p;
              match n with
              | GDir => Ok ((), filter (λ kv, ¬ q `prefix_of` kv.1) fs)
              | GLink _ => Ok ((), delete q fs)
              | GFile _ => Err ENOTDIR
              end)
       (λ f fs, match find_node fs false p with
                | Ok (q, GDir) => filter (λ kv, q `prefix_of` kv.1 → survives_to f q kv.1 = true) fs
                | _ => fs
                end).
Definition g_remove_dir (p : path) : M IoError Guest () :=
  g_op (λ fs, '(q, n) ← find_node fs false p;
              match n with
              | GDir => if decide (g_children fs q = []) then Ok ((), delete q fs) else Err ENOTEMPTY
              | _ => Err ENOTDIR
              end) untorn.
Definition g_remove_file (p : path) : M IoError Guest () :=
  g_op (λ fs, '(q, n) ← find_node fs false p;
              match n with GDir => Err EISDIR | _ => Ok ((), delete q fs) end) untorn.

(** ** The source *)

Section agent_fs.
Context `{Platform}.

Definition WORKSPACE_ROOT : path := ["workspace"].

Abbreviation GM := (M SandboxError Guest).

Definition names_of (p : PathBuf) : list string :=
  omap (λ c, match c with Normal n => Some n | ParentDir => Some ".." | RootDir | CurDir => None end) p.

(** [resolve_workspace_path(Path::new(WORKSPACE_ROOT), path)] *)
Definition agent_path (p : string) : GM path :=
  q ← lift (resolve_workspace_path [RootDir; Normal "workspace"] p); mret (names_of q).

Definition digest_bytes (b : bytes) : string := hex_encode (sha256 b).

(** The hash of a file, read to its end in blocks, is the hash of its bytes. *)
Definition digest_file (p : path) : GM string :=
  q ← map_err (Io "opening workspace file for hashing") (g_open p);
  b ← map_err (Io "hashing workspace file") (g_read q None);
  mret (digest_bytes b).

Fixpoint join_names (names : list string) : string :=
  match names with
  | [] => ""
  | [n] => n
  | n :: rest => n ^+ "/" ^+ join_names rest
  end.

Definition relative_path (p : path) : Result SandboxError string :=
  if decide (WORKSPACE_ROOT `prefix_of` p) then Ok (join_names (drop (length WORKSPACE_ROOT) p))
  else Err (Backend "workspace path escaped root").

Definition node_for_path (p : path) : GM FileNode :=
  metadata ← map_err (Io "reading workspace path metadata") (g_symlink_metadata p);
  match metadata with
  | GDir => name ← lift (relative_path p); mret (mkFileNode name FkDirectory 0 None None)
  | GLink _ =>
      target ← map_err (Io "reading workspace symlink") (g_read_link p);
      name ← lift (relative_path p);
      mret (mkFileNode name FkSymlink 0 (Some (digest_bytes (as_bytes target))) (Some target))
  | GFile b =>
      digest ← digest_file p;
      name ← lift (relative_path p);
      mret (mkFileNode name FkFile (Z.of_nat (length b)) (Some digest) None)
  end.

Definition agent_list_files (p : string) : GM (list FileNode) :=
  dir ← agent_path p;
  entries ← map_err (Io "reading workspace directory") (g_read_dir dir);
  map_each (λ n, node_for_path (dir ++ [n])) entries.

Definition agent_read_file (p : string) (limit : Z) : GM ReadFileResult :=
  limit ← lift (validate_read_limit limit);
  file_path ← agent_path p;
  q ← map_err (Io "opening workspace file") (g_open file_path);
  data ← map_err (Io "reading workspace file") (g_read q (Some (S (Z.to_nat limit))));
  let truncated := bool_decide (Z.to_nat limit < length data) in
  mret (mkReadFileResult p (if truncated then take (Z.to_nat limit) data else data) truncated).

Definition agent_write_file (p : string) (data : bytes) (create_parents : bool) : GM () :=
  file_path ← agent_path p;
  (if create_parents
   then map_err (Io "creating workspace parent directory") (g_create_dir_all (parent file_path)) else mret ());;
  q ← map_err (Io "creating workspace file") (g_create file_path);
  map_err (Io "writing workspace file") (g_write_all q data).

Definition agent_make_dir (p : string) (recursive : bool) : GM () :=
  dir ← agent_path p;
  map_err (Io "creating workspace directory") (if recursive then g_create_dir_all dir else g_mkdir dir).

Definition agent_remove_path (p : string) (recursive : bool) : GM () :=
  target ← agent_path p;
  metadata ← map_err (Io "reading workspace path metadata") (g_symlink_metadata target);
  map_err (Io "removing workspace path")
    (match metadata with
     | GDir => if recursive then g_remove_dir_all target else g_remove_dir target
     | _ => g_remove_file target
     end).

(** [walk_directory], with fuel for the depth of the tree. *)
Fixpoint walk_directory (fuel : nat) (current : path) : GM (list FileNode) :=
  match fuel with
  | O => throw (Backend "directory tree deeper than the file system")
  | S fuel' =>
      own ← (if decide (current = WORKSPACE_ROOT) then mret []
             else name ← lift (relative_path current); mret [mkFileNode name FkDirectory 0 None None]);
      entries ← map_err (Io "reading workspace directory") (g_read_dir current);
      below ← map_each (λ n,
        metadata ← map_err (Io "reading workspace entry metadata") (g_symlink_metadata (current ++ [n]));
        match metadata with
        | GDir => walk_directory fuel' (current ++ [n])
        | _ => node ← node_for_path (current ++ [n]); mret [node]
        end) entries;
      mret (own ++ mjoin below)
  end.

Definition snapshot_workspace : GM (list FileNode) := λ g,
  walk_directory (S (size (g_fs g))) WORKSPACE_ROOT g.

(** [libc::sync] changes nothing a reader of the file system sees. *)
Definition agent_sync_workspace : GM () := mret ().
End agent_fs.

(** ** Path resolution *)

Lemma walk_nil links fs follow cur : walk links fs follow cur [] = Ok cur.
Proof. by destruct links. Qed.

(** One component. *)
Lemma walk_cons links fs follow cur n rest :
  walk links fs follow cur (n :: rest) =
    if decide (n = ".") then walk links fs follow cur rest
    else if decide (n = "..") then walk links fs follow (parent cur) rest
    else match fs !! (cur ++ [n]) with
    | None => match rest with [] => Ok (cur ++ [n]) | _ => Err ENOENT end
    | Some GDir => walk links fs follow (cur ++ [n]) rest
    | Some (GFile _) => match rest with [] => Ok (cur ++ [n]) | _ => Err ENOTDIR end
    | Some (GLink target) =>
        if decide (rest = [] ∧ follow = false) then Ok (cur ++ [n])
        else match links with
        | O => Err ELOOP
        | S links' => walk links' fs follow (if starts_with "/" target then [] else cur) (link_names target ++ rest)
        end
    end.
Proof. by destruct links. Qed.

(** The directory a walk has reached, with all directories above it. *)
Definition dirs (fs : gfs) (cur : path) : Prop := ∀ k, k `prefix_of` cur → node_at fs k = Some GDir.

Lemma dirs_nil fs : dirs fs [].
Proof. intros k Hk. apply prefix_nil_inv in Hk as ->. done. Qed.

Lemma dirs_parent fs cur : dirs fs cur → dirs fs (parent cur).
Proof. intros Hd k Hk. apply Hd. etrans; [exact Hk|]. unfold parent. apply prefix_take. Qed.

Lemma node_at_snoc fs cur n : node_at fs (cur ++ [n]) = fs !! (cur ++ [n]).
Proof. by destruct cur. Qed.

Lemma dirs_snoc fs cur n : dirs fs cur → fs !! (cur ++ [n]) = Some GDir → dirs fs (cur ++ [n]).
Proof.
  intros Hd Hn k Hk. destruct (decide (k = cur ++ [n])) as [->|Hne]; [by rewrite node_at_snoc|].
  apply Hd. destruct Hk as [l Hl]. induction l as [|x l _] using rev_ind.
  - rewrite app_nil_r in Hl. by destruct Hne.
  - rewrite app_assoc in Hl. apply app_inj_tail in Hl as [-> _]. by exists l.
Qed.

(** Following the last link, a walk ends at no link. *)
Lemma walk_no_link links fs cur rest q :
  dirs fs cur → walk links fs true cur rest = Ok q → ∀ t, node_at fs q ≠ Some (GLink t).
Proof.
  revert cur rest. induction links as [|links IHl]; intros cur rest; revert cur;
    (induction rest as [|n rest IH]; intros cur Hd; [rewrite walk_nil; intros [= <-] t; by rewrite (Hd cur)|]);
    rewrite walk_cons; (case_decide; [by apply IH|]); (case_decide; [by apply IH, dirs_parent|]);
    (destruct (fs !! (cur ++ [n])) as [[|b|t]|] eqn:E;
      [intros Hw; eapply IH; [by apply dirs_snoc|exact Hw]
      |destruct rest; [intros [= <-] t; by rewrite node_at_snoc, E|done]
      |
      |destruct rest; [intros [= <-] t; by rewrite node_at_snoc, E|done]]);
    (rewrite decide_False by naive_solver); [done|].
  apply IHl. destruct (starts_with "/" t); [apply dirs_nil|done].
Qed.

(** A walk ends at the same place once there is a file where it ends. *)
Lemma walk_stable links fs cur rest q d :
  dirs fs cur → walk links fs true cur rest = Ok q → node_at fs q ≠ Some GDir → 
  walk links (<[q := GFile d]> fs) true cur rest = Ok q.
Proof.
  revert cur rest. induction links as [|links IHl]; intros cur rest; revert cur;
    (induction rest as [|n rest IH]; intros cur Hd Hw Hq;
      [rewrite walk_nil in *; injection Hw as <-; by destruct Hq; rewrite (Hd cur)|]);
    pose proof (walk_no_link _ _ _ _ _ Hd Hw) as Hl;
    rewrite walk_cons in *; (case_decide; [by apply IH|]); (case_decide; [by apply IH; [apply dirs_parent|..]|]);
    (destruct (decide (cur ++ [n] = q)) as [<-|Hne];
      [rewrite lookup_insert_eq; rewrite node_at_snoc in Hq, Hl;
       destruct (fs !! (cur ++ [n])) as [[|b|t]|] eqn:E; [done| |by destruct (Hl t)|]; destruct rest; done
      |rewrite lookup_insert_ne by done]);
    (destruct (fs !! (cur ++ [n])) as [[|b|t]|] eqn:E;
      [apply IH; [by apply dirs_snoc|done..]|done| |done]);
    (rewrite decide_False in * by naive_solver); [done|].
  apply IHl; [|done..]. destruct (starts_with "/" t); [apply dirs_nil|done].
Qed.

(** A walk along plain names that meets no link it must follow. *)
Definition direct (fs : gfs) (follow : bool) (cur : path) (rest : list string) : Prop :=
  Forall plain_name rest ∧
  ∀ r t, r `prefix_of` rest → r ≠ [] → fs !! (cur ++ r) = Some (GLink t) → r = rest ∧ follow = false.

Lemma direct_cons fs follow cur n rest :
  direct fs follow cur (n :: rest) →
  n ≠ "." ∧ n ≠ ".." ∧ direct fs follow (cur ++ [n]) rest ∧
  ∀ t, fs !! (cur ++ [n]) = Some (GLink t) → rest = [] ∧ follow = false.
Proof.
  intros [(Hn & Hrest)%Forall_cons Hl]. destruct Hn as (_ & ? & ? & _). split_and!; [done..| |].
  - split; [done|]. intros r t Hr Hne Ht. destruct (Hl (n :: r) t) as [[= ->] ?]; [by apply prefix_cons|done| |done].
    by rewrite <-(assoc_L (++)) in Ht.
  - intros t Ht. destruct (Hl [n] t) as [[= <-] ?]; [by apply prefix_cons, prefix_nil|done..].
Qed.

Lemma walk_direct links fs follow cur rest q :
  direct fs follow cur rest → walk links fs follow cur rest = Ok q → q = cur ++ rest.
Proof.
  revert cur. induction rest as [|n rest IH]; intros cur.
  { rewrite walk_nil, app_nil_r. by intros _ [= ->]. }
  intros (? & ? & Hd & Hl)%direct_cons. rewrite walk_cons, !decide_False by done.
  change (n :: rest) with ([n] ++ rest). rewrite (assoc_L (++)).
  destruct (fs !! (cur ++ [n])) as [[|b|t]|]; [by apply IH| | |];
    [destruct rest| |destruct rest]; try done; try (intros [= <-]; by rewrite app_nil_r).
  destruct (Hl t) as [-> ->]; [done|]. rewrite decide_True by done. intros [= <-]. by rewrite app_nil_r.
Qed.

(** It arrives when all directories on the way are there. *)
Lemma walk_arrives links fs follow cur rest :
  direct fs follow cur rest → (∀ r, r `prefix_of` rest → r ≠ [] → r ≠ rest → fs !! (cur ++ r) = Some GDir) →
  walk links fs follow cur rest = Ok (cur ++ rest).
Proof.
  revert cur. induction rest as [|n rest IH]; intros cur.
  { by rewrite walk_nil, app_nil_r. }
  intros (? & ? & Hd & Hl)%direct_cons Hdirs. rewrite walk_cons, !decide_False by done.
  change (n :: rest) with ([n] ++ rest). rewrite (assoc_L (++)).
  destruct rest as [|m rest].
  { rewrite app_nil_r. destruct (fs !! (cur ++ [n])) as [[|b|t]|] eqn:E; try done; [by rewrite walk_nil|].
    destruct (Hl t) as [_ ->]; [done|]. by rewrite decide_True. }
  rewrite (Hdirs [n]); [|by apply prefix_cons, prefix_nil|done..].
  apply IH; [done|]. intros r Hr Hne Hnr. rewrite <-(assoc_L (++)). apply Hdirs; [by apply prefix_cons|done|].
  intros [=]. congruence.
Qed.

(** ** Runs of the operations *)

Lemma g_op_ok_inv {A} (act : gfs → Result IoError (A * gfs)) torn g a g' :
  g_op act torn g = (Ok a, g') → act (g_fs g) = Ok (a, g_fs g') ∧ g_faults g' = tail (g_faults g).
Proof.
  unfold g_op. destruct (g_faults g) as [|[f|] sched]; [|done|]; (destruct (act (g_fs g)) as [[b fs']|]; naive_solver).
Qed.

Lemma g_op_calm {A} (act : gfs → Result IoError (A * gfs)) torn g :
  g_faults g = [] →
  g_op act torn g = match act (g_fs g) with Ok (a, fs') => (Ok a, mkGuest fs' []) | Err e => (Err e, g) end.
Proof. destruct g as [fs sched]. simpl. intros ->. unfold g_op. by destruct (act _) as [[]|]. Qed.

(** An operation that keeps a relation on the file system. *)
Definition g_keeps (R : relation gfs) : relation Guest := λ g g', R (g_fs g) (g_fs g').

#[global] Instance g_keeps_preorder R `{!PreOrder R} : PreOrder (g_keeps R).
Proof. unfold g_keeps. split; [intros ?; reflexivity|intros ???; apply transitivity]. Qed.

Lemma keeps_g_op {A} R `{!Reflexive R} (act : gfs → Result IoError (A * gfs)) torn :
  (∀ fs a fs', act fs = Ok (a, fs') → R fs fs') → (∀ f fs, R fs (torn f fs)) → keeps (g_keeps R) (g_op act torn).
Proof.
  intros Ha Ht g. unfold g_keeps, g_op. destruct (g_faults g) as [|[f|] sched]; simpl; [| apply Ht|];
    (destruct (act (g_fs g)) as [[a fs']|] eqn:E; simpl; [by eapply Ha|reflexivity]).
Qed.

(** An operation that only looks. *)
Lemma keeps_g_look {A} R `{!Reflexive R} (act : gfs → Result IoError (A * gfs)) :
  (∀ fs a fs', act fs = Ok (a, fs') → fs' = fs) → keeps (g_keeps R) (g_op act untorn).
Proof. intros Ha. apply (keeps_g_op R); [|intros; reflexivity]. by intros fs a fs' ->%Ha. Qed.

Lemma find_node_ok fs follow p q n : find_node fs follow p = Ok (q, n) → namei fs follow p = Ok q ∧ node_at fs q = Some n.
Proof.
  unfold find_node. destruct (namei fs follow p) as [q'|]; [|done]. simpl.
  destruct (node_at fs q') eqn:E; [|done]. by intros [= <- <-].
Qed.

Section looks.
Context (R : relation gfs) `{!PreOrder R}.

Lemma keeps_symlink_metadata p : keeps (g_keeps R) (g_symlink_metadata p).
Proof. apply (keeps_g_look R). intros ???. destruct (find_node _ _ _) as [[? []]|]; naive_solver. Qed.
Lemma keeps_read_link p : keeps (g_keeps R) (g_read_link p).
Proof. apply (keeps_g_look R). intros ???. destruct (find_node _ _ _) as [[? []]|]; naive_solver. Qed.
Lemma keeps_open p : keeps (g_keeps R) (g_open p).
Proof. apply (keeps_g_look R). intros ???. destruct (find_node _ _ _) as [[? []]|]; naive_solver. Qed.
Lemma g_keeps_read q limit : keeps (g_keeps R) (g_read q limit).
Proof. apply (keeps_g_look R). intros ???. destruct (node_at _ _) as [[]|]; naive_solver. Qed.
Lemma g_keeps_read_dir p : keeps (g_keeps R) (g_read_dir p).
Proof. apply (keeps_g_look R). intros ???. destruct (find_node _ _ _) as [[? []]|]; naive_solver. Qed.
Lemma keeps_is_dir p : keeps (g_keeps R) (g_is_dir p).
Proof.
  intros g. unfold g_is_dir. set (op := g_op _ _).
  assert (keeps (g_keeps R) op) as Hop.
  { apply (keeps_g_look R). intros ???. destruct (find_node _ _ _) as [[? []]|]; naive_solver. }
  specialize (Hop g). by destruct (op g) as [[[]|] ?].
Qed.
End looks.
#[export] Hint Resolve keeps_symlink_metadata keeps_read_link keeps_open g_keeps_read g_keeps_read_dir keeps_is_dir : keeps.
#[export] Hint Extern 1 (PreOrder _) => typeclasses eauto : keeps.

(** Only directories are added. *)
Definition grown (fs fs' : gfs) : Prop :=
  fs ⊆ fs' ∧ ∀ k n, fs !! k = None → fs' !! k = Some n → n = GDir.

#[global] Instance grown_preorder : PreOrder grown.
Proof.
  split; [intros fs; split; [done|congruence]|]. intros f1 f2 f3 [H1 N1] [H2 N2]. split; [by etrans|].
  intros k n Hk Hn. destruct (f2 !! k) as [m|] eqn:E; [|by eapply N2].
  rewrite (lookup_weaken _ _ _ _ E H2) in Hn. simplify_eq. by eapply N1.
Qed.

(** [create_dir_all] is made of [mkdir] and looking. *)
Lemma g_keeps_create_dir_all R `{!PreOrder R} p :
  (∀ q, q `prefix_of` p → keeps (g_keeps R) (g_mkdir q)) → keeps (g_keeps R) (g_create_dir_all p).
Proof.
  intros Hp. unfold g_create_dir_all.
  assert (Hmk : ∀ q, q `prefix_of` rev (rev p) → keeps (g_keeps R) (g_mkdir q)) by by rewrite rev_involutive.
  revert Hmk. generalize (rev p) as r. clear p Hp. induction r as [|n r IH]; intros Hmk; simpl.
  - pose proof (Hmk [] ltac:(done)). keeps_tac.
  - pose proof (Hmk (rev r ++ [n]) ltac:(done)).
    assert (keeps (g_keeps R) (create_dir_all_rev r)).
    { apply IH. intros q Hq. apply Hmk. simpl. by apply prefix_app_r. }
    keeps_tac.
Qed.

Lemma keeps_mkdir_grown p : keeps (g_keeps grown) (g_mkdir p).
Proof.
  apply (keeps_g_op grown); [|done]. intros fs a fs'. destruct (namei fs false p) as [q|]; [|done]. simpl.
  destruct (node_at fs q) eqn:E; [done|]. intros [= _ <-].
  assert (fs !! q = None) by by destruct q. split; [by apply insert_subseteq|].
  intros k n Hk. destruct (decide (k = q)) as [->|]; [rewrite lookup_insert_eq|rewrite lookup_insert_ne by done]; congruence.
Qed.

Section agent_props.
Context `{Platform}.

Lemma names_of_normal names : names_of (map Normal names) = names.
Proof. induction names as [|n names IH]; [done|]. cbn. by f_equal. Qed.

Lemma agent_path_ok p g fp g' :
  agent_path p g = (Ok fp, g') →
  g' = g ∧ (∀ s, agent_path p s = (Ok fp, s)) ∧ ∃ names, fp = WORKSPACE_ROOT ++ names ∧ Forall plain_name names.
Proof.
  unfold agent_path. intros Hp. ok_inv. split; [done|].
  match goal with Hr : resolve_workspace_path _ _ = _ |- _ => rename Hr into Hres end. split.
  { intros s. unfold mbind, M_bind, lift. by rewrite Hres. }
  apply resolve_names in Hres as (names & -> & Hn); [|done]. exists names. split; [|done].
  cbn. f_equal. apply names_of_normal.
Qed.

Lemma agent_path_keeps R `{!PreOrder R} p : keeps (g_keeps R) (agent_path p).
Proof. unfold agent_path. keeps_tac. Qed.

(** What a successful [write_file] did: it made directories, and put the data
    in the one file the path leads to. *)
Lemma write_file_inv p data cp g g' :
  agent_write_file p data cp g = (Ok (), g') →
  ∃ fp fs q, (∀ s, agent_path p s = (Ok fp, s)) ∧ grown (g_fs g) fs ∧ namei fs true fp = Ok q ∧
    node_at fs q ≠ Some GDir ∧ g_fs g' = <[q := GFile data]> fs.
Proof.
  unfold agent_write_file. intros Hw.
  apply bind_ok_inv in Hw as (fp & g0 & (-> & Hfp & _)%agent_path_ok & Hw).
  apply (bind_ok_keeps (g_keeps grown)) in Hw as (u & g1 & Hg1 & _ & Hw); last first.
  { destruct cp; [|apply keeps_ret; typeclasses eauto]. apply keeps_map_err, g_keeps_create_dir_all; [typeclasses eauto|].
    intros; apply keeps_mkdir_grown. }
  apply bind_ok_inv in Hw as (q & g2 & (Hc & _)%map_err_ok_inv%g_op_ok_inv & (Hd & _)%map_err_ok_inv%g_op_ok_inv).
  destruct (namei (g_fs g1) true fp) as [q'|] eqn:Hq; [|done]. simpl in Hc.
  assert (q' = q ∧ node_at (g_fs g1) q ≠ Some GDir ∧ g_fs g2 = <[q := GFile []]> (g_fs g1)) as (-> & Hnd & H2).
  { destruct (node_at (g_fs g1) q') as [[]|] eqn:E; simplify_eq; by rewrite E. }
  exists fp, (g_fs g1), q. split_and!; [done..|]. injection Hd as <-. by rewrite H2, insert_insert_eq.
Qed.

(** Afterwards the path leads to a file with the data. *)
Lemma written_file_found p data cp g g' :
  agent_write_file p data cp g = (Ok (), g') →
  ∃ fp q, (∀ s, agent_path p s = (Ok fp, s)) ∧ namei (g_fs g') true fp = Ok q ∧ node_at (g_fs g') q = Some (GFile data).
Proof.
  intros (fp & fs & q & Hfp & _ & Hq & Hnd & Hfs)%write_file_inv. exists fp, q. rewrite Hfs. split_and!; [done|..].
  - by apply walk_stable; [apply dirs_nil|..].
  - destruct q; [by destruct Hnd|]. simpl. apply lookup_insert_eq.
Qed.

(** What [read_file] returns: at most [limit] bytes, the beginning of the file
    the path leads to. *)
Lemma read_file_run p limit g fp q b :
  g_faults g = [] → validate_read_limit limit = Ok limit → (∀ s, agent_path p s = (Ok fp, s)) →
  namei (g_fs g) true fp = Ok q → node_at (g_fs g) q = Some (GFile b) →
  agent_read_file p limit g =
    (Ok (mkReadFileResult p (take (Z.to_nat limit) b) (bool_decide (Z.to_nat limit < length b))), g).
Proof.
  intros Hf Hl Hp Hn Hb. assert (Hg : mkGuest (g_fs g) [] = g) by (destruct g; simpl in *; congruence).
  unfold agent_read_file. rewrite (bind_ok _ _ _ limit g) by (by unfold lift; rewrite Hl).
  rewrite (bind_ok _ _ _ fp g) by done.
  rewrite (bind_ok _ _ _ q g); last first.
  { apply map_err_ok. unfold g_open. rewrite g_op_calm by done. unfold find_node. by rewrite Hn; simpl; rewrite Hb; simpl; rewrite Hg. }
  rewrite (bind_ok _ _ _ (take (S (Z.to_nat limit)) b) g); last first.
  { apply map_err_ok. unfold g_read. rewrite g_op_calm by done. by rewrite Hb, Hg. }
  unfold mret, M_ret. rewrite length_take. do 3 f_equal.
  - case_bool_decide.
    + rewrite take_take. f_equal. lia.
    + rewrite !take_ge by lia. done.
  - apply bool_decide_ext. lia.
Qed.

(** C25: what a guest wrote is what it reads back: after a successful [write_file], a
    [read_file] of the same path returns the data, up to the limit asked for, and says
    whether it cut it, also when links lead to the file.  The write changed that one file
    and, besides, only made directories that were missing. *)
Theorem write_then_read p data cp limit g g' :
  agent_write_file p data cp g = (Ok (), g') → g_faults g' = [] → (limit ≤ MAX_READ_FILE_BYTES)%Z →
  agent_read_file p limit g' =
    (Ok (mkReadFileResult p (take (Z.to_nat limit) data) (bool_decide (Z.to_nat limit < length data))), g') ∧
  ∃ q, g_fs g' !! q = Some (GFile data) ∧
    ∀ k, k ≠ q → g_fs g' !! k ≠ g_fs g !! k → g_fs g !! k = None ∧ g_fs g' !! k = Some GDir.
Proof.
  intros Hw Hf Hl. split.
  - destruct (written_file_found _ _ _ _ _ Hw) as (fp & q & Hfp & Hq & Hnd). apply read_file_run with fp q; [done| |done..].
    unfold validate_read_limit. case_match eqn:E; [|done]. apply Z.ltb_lt in E. lia.
  - apply write_file_inv in Hw as (fp & fs & q & Hfp & [Hsub Hnew] & Hq & Hnd & Hfs).
    exists q. rewrite Hfs, lookup_insert_eq. split; [done|]. intros k Hk. rewrite lookup_insert_ne by done. intros Hne.
    destruct (g_fs g !! k) as [n|] eqn:Hgk.
    { destruct Hne. by apply (lookup_weaken _ _ _ _ Hgk Hsub). }
    split; [done|]. destruct (fs !! k) as [n|] eqn:Hn; [|done]. by rewrite (Hnew k n).
Qed.

(** however much is in the file, a successful [read_file] returns at most [limit] bytes,
    and never more than [MAX_READ_FILE_BYTES]: they are the beginning of the regular file the
    path leads to, [truncated] is set exactly when more follows, and nothing is changed. *)
Theorem read_file_bounded p limit g r g' :
  (0 ≤ limit)%Z → agent_read_file p limit g = (Ok r, g') →
  (Z.of_nat (length (rf_data r)) ≤ limit ≤ MAX_READ_FILE_BYTES)%Z ∧ rf_path r = p ∧ g_fs g' = g_fs g ∧
  ∃ fp q b, agent_path p g = (Ok fp, g) ∧ namei (g_fs g) true fp = Ok q ∧ node_at (g_fs g) q = Some (GFile b) ∧
    rf_data r = take (Z.to_nat limit) b ∧ (rf_truncated r = true ↔ rf_data r ≠ b).
Proof.
  intros H0 Hr. unfold agent_read_file in Hr.
  apply bind_ok_inv in Hr as (l & g0 & [Hl <-]%lift_ok_inv & Hr). unfold validate_read_limit in Hl.
  destruct (Z.ltb_spec MAX_READ_FILE_BYTES limit) as [|Hlim]; [done|]. injection Hl as <-.
  apply bind_ok_inv in Hr as (fp & g0 & (-> & Hfp & _)%agent_path_ok & Hr).
  apply bind_ok_inv in Hr as (q & g1 & (Ho & _)%map_err_ok_inv%g_op_ok_inv & Hr).
  apply bind_ok_inv in Hr as (d & g2 & (Hd & _)%map_err_ok_inv%g_op_ok_inv & [<- <-]%ret_ok_inv).
  destruct (find_node (g_fs g) true fp) as [[q' m]|] eqn:Hq; [|done]. injection Ho as -> H1.
  apply find_node_ok in Hq as [Hq Hm]. rewrite <-H1 in Hd. rewrite Hm in Hd.
  destruct m as [|b|]; [done| |done]. injection Hd as <- H2. simpl.
  assert (Hdata : (if bool_decide (Z.to_nat limit < length (take (S (Z.to_nat limit)) b))
                   then take (Z.to_nat limit) (take (S (Z.to_nat limit)) b)
                   else take (S (Z.to_nat limit)) b) = take (Z.to_nat limit) b).
  { rewrite length_take. case_bool_decide; [rewrite take_take; f_equal; lia|]. by rewrite !take_ge by lia. }
  rewrite Hdata. split_and!; [rewrite length_take; lia|done|done|congruence|].
  exists fp, q, b. split_and!; [done..|]. rewrite bool_decide_eq_true, length_take. split.
  - intros Hlt Hb. apply (f_equal length) in Hb. rewrite length_take in Hb. lia.
  - intros Hb. destruct (decide (length b ≤ Z.to_nat limit)); [by rewrite take_ge in Hb by lia|lia].
Qed.

(** *** Confinement *)

(** No symbolic link at or below [/workspace]. *)
Definition linkless (fs : gfs) : Prop := ∀ k t, WORKSPACE_ROOT `prefix_of` k → fs !! k ≠ Some (GLink t).

(** Without links in the workspace there still are none, and nothing outside it changed. *)
Definition confined (fs fs' : gfs) : Prop :=
  linkless fs → linkless fs' ∧ ∀ k, ¬ WORKSPACE_ROOT `prefix_of` k → fs' !! k = fs !! k.

#[global] Instance confined_preorder : PreOrder confined.
Proof.
  split; [by intros fs Hl|]. intros f1 f2 f3 H1 H2 Hl. destruct (H1 Hl) as [Hl2 Ho1]. destruct (H2 Hl2) as [Hl3 Ho2].
  split; [done|]. intros k Hk. by rewrite Ho2, Ho1.
Qed.

(** A path of the workspace, or one above it. *)
Definition in_workspace (p : path) : Prop := ∃ names, p `prefix_of` WORKSPACE_ROOT ++ names ∧ Forall plain_name names.

Lemma in_workspace_prefix p q : in_workspace p → q `prefix_of` p → in_workspace q.
Proof. intros (names & Hp & ?) Hq. exists names. split; [by etrans|done]. Qed.

Lemma in_workspace_cases p : in_workspace p → p = [] ∨ WORKSPACE_ROOT `prefix_of` p.
Proof.
  intros (names & Hp & _). destruct p as [|a p]; [by left|right]. apply prefix_cons_inv_1 in Hp as ->.
  apply prefix_cons, prefix_nil.
Qed.

Lemma namei_workspace fs follow p q : linkless fs → in_workspace p → namei fs follow p = Ok q → q = p.
Proof.
  intros Hl (names & Hp & Hn) Hq. apply walk_direct in Hq; [done|]. split.
  - assert (Forall plain_name (WORKSPACE_ROOT ++ names)) as Hall by (constructor; [done|exact Hn]).
    destruct Hp as [l Hp]. rewrite Hp in Hall. by apply Forall_app in Hall as [? _].
  - intros r t Hr Hne Ht. destruct (in_workspace_cases r) as [->|Hw]; [|done|by destruct (Hl r t)].
    exists names. split; [by etrans|done].
Qed.

Lemma confined_insert fs q n : in_workspace q → q ≠ [] → (∀ t, n ≠ GLink t) → confined fs (<[q := n]> fs).
Proof.
  intros [->|Hq]%in_workspace_cases Hne Hn Hl; [done|]. split.
  - intros k t Hk. destruct (decide (k = q)) as [->|]; [rewrite lookup_insert_eq|rewrite lookup_insert_ne by done; by apply Hl].
    intros [= ->]. by destruct (Hn t).
  - intros k Hk. rewrite lookup_insert_ne; [done|]. by intros ->.
Qed.

Lemma confined_filter fs (P : path * gnode → Prop) `{!∀ kv, Decision (P kv)} :
  (∀ k n, ¬ WORKSPACE_ROOT `prefix_of` k → P (k, n)) → confined fs (filter P fs).
Proof.
  intros HP Hl. split.
  - intros k t Hk [Ht _]%map_lookup_filter_Some. by destruct (Hl k t).
  - intros k Hk. destruct (fs !! k) as [n|] eqn:E.
    + apply map_lookup_filter_Some. split; [done|by apply HP].
    + apply map_lookup_filter_None. by left.
Qed.

Lemma confined_delete fs q : WORKSPACE_ROOT `prefix_of` q → confined fs (delete q fs).
Proof.
  intros Hq Hl. split.
  - intros k t Hk Ht. apply lookup_delete_Some in Ht as [_ Ht]. by destruct (Hl k t).
  - intros k Hk. rewrite lookup_delete_ne; [done|]. by intros ->.
Qed.

(** A step that acts on the node its path leads to acts on the path itself. *)
Lemma keeps_confined_op {A} (act : gfs → Result IoError (A * gfs)) torn :
  (∀ fs a fs', linkless fs → act fs = Ok (a, fs') → confined fs fs') →
  (∀ f fs, linkless fs → confined fs (torn f fs)) → keeps (g_keeps confined) (g_op act torn).
Proof. intros Ha Ht. apply (keeps_g_op confined); [intros fs a fs' E Hl; by eapply Ha|intros f fs Hl; by apply Ht]. Qed.

Lemma keeps_confined_mkdir p : in_workspace p → keeps (g_keeps confined) (g_mkdir p).
Proof.
  intros Hp. apply keeps_confined_op; [|done]. intros fs a fs' Hl.
  destruct (namei fs false p) as [q|] eqn:E; [|done]. apply namei_workspace in E as ->; [|done..]. simpl.
  destruct (node_at fs p) eqn:En; [done|]. intros [= _ <-]. apply confined_insert; [done| |done]. by intros ->.
Qed.

Lemma keeps_confined_create p : in_workspace p → keeps (g_keeps confined) (g_create p).
Proof.
  intros Hp. apply keeps_confined_op; [|done]. intros fs a fs' Hl.
  destruct (namei fs true p) as [q|] eqn:E; [|done]. apply namei_workspace in E as ->; [|done..]. simpl.
  assert (p = [] → node_at fs p = Some GDir) by by intros ->.
  destruct (node_at fs p) as [[]|] eqn:En; [done|..]; intros [= _ <-]; apply confined_insert; naive_solver.
Qed.

Lemma keeps_confined_write q data : in_workspace q → q ≠ [] → keeps (g_keeps confined) (g_write_all q data).
Proof.
  intros Hq Hne. apply keeps_confined_op; [intros fs a fs' _ [= _ <-]|intros f fs _]; by apply confined_insert.
Qed.

Lemma confined_bind {E A B} (m : M E Guest A) (f : A → M E Guest B) :
  keeps (g_keeps confined) m → (∀ g a g', linkless (g_fs g) → m g = (Ok a, g') → keeps (g_keeps confined) (f a)) →
  keeps (g_keeps confined) (m ≫= f).
Proof.
  intros Hm Hf g Hl. specialize (Hm g). unfold mbind, M_bind. destruct (m g) as [[a|e] g'] eqn:E'; [|by apply Hm].
  assert (confined (g_fs g) (g_fs (f a g').2)); [|auto]. etrans; [exact Hm|]. by eapply Hf.
Qed.

Lemma find_node_workspace fs follow p q n :
  linkless fs → in_workspace p → find_node fs follow p = Ok (q, n) → q = p ∧ node_at fs p = Some n.
Proof. intros Hl Hp [Hq Hn]%find_node_ok. apply namei_workspace in Hq as ->; done. Qed.

Lemma keeps_confined_remove_file p : WORKSPACE_ROOT `prefix_of` p → in_workspace p → keeps (g_keeps confined) (g_remove_file p).
Proof.
  intros Hw Hp. apply keeps_confined_op; [|done]. intros fs a fs' Hl.
  destruct (find_node fs false p) as [[q n]|] eqn:E; [|done]. apply find_node_workspace in E as [-> E]; [|done..]. simpl.
  destruct n; [done|..]; intros [= _ <-]; by apply confined_delete.
Qed.

Lemma keeps_confined_remove_dir p : WORKSPACE_ROOT `prefix_of` p → in_workspace p → keeps (g_keeps confined) (g_remove_dir p).
Proof.
  intros Hw Hp. apply keeps_confined_op; [|done]. intros fs a fs' Hl.
  destruct (find_node fs false p) as [[q n]|] eqn:E; [|done]. apply find_node_workspace in E as [-> E]; [|done..]. simpl.
  destruct n; [|done..]. case_decide; [|done]. intros [= _ <-]. by apply confined_delete.
Qed.

Lemma keeps_confined_remove_dir_all p :
  WORKSPACE_ROOT `prefix_of` p → in_workspace p → keeps (g_keeps confined) (g_remove_dir_all p).
Proof.
  intros Hw Hp. assert (Hout : ∀ k, ¬ WORKSPACE_ROOT `prefix_of` k → ¬ p `prefix_of` k).
  { intros k Hk Hpk. apply Hk. by etrans. }
  apply keeps_confined_op.
  - intros fs a fs' Hl. destruct (find_node fs false p) as [[q n]|] eqn:E; [|done].
    apply find_node_workspace in E as [-> E]; [|done..]. simpl. destruct n; [|done|]; intros [= _ <-].
    + apply confined_filter. intros k n Hk. by apply Hout.
    + by apply confined_delete.
  - intros f fs Hl. destruct (find_node fs false p) as [[q n]|] eqn:E; [|done].
    apply find_node_workspace in E as [-> E]; [|done..]. destruct n; [|done..].
    apply confined_filter. intros k n Hk Hpk. by destruct (Hout k Hk).
Qed.

(** What [agent_path] returns. *)
Lemma agent_path_workspace p g fp g' : agent_path p g = (Ok fp, g') → in_workspace fp ∧ WORKSPACE_ROOT `prefix_of` fp.
Proof.
  intros (_ & _ & names & -> & Hn)%agent_path_ok. split; [by exists names|by apply prefix_app_r].
Qed.

Lemma confined_write_file p data cp : keeps (g_keeps confined) (agent_write_file p data cp).
Proof.
  unfold agent_write_file. apply confined_bind; [apply agent_path_keeps; typeclasses eauto|].
  intros g fp g' _ [Hfp Hw]%agent_path_workspace. apply confined_bind.
  { destruct cp; [|apply keeps_ret; typeclasses eauto]. apply keeps_map_err, g_keeps_create_dir_all; [typeclasses eauto|].
    intros q Hq. apply keeps_confined_mkdir. eapply in_workspace_prefix; [exact Hfp|]. etrans; [exact Hq|apply prefix_take]. }
  intros _ _ _ _ _. apply confined_bind; [by apply keeps_map_err, keeps_confined_create|].
  intros g1 q g2 Hl (Hc & _)%map_err_ok_inv%g_op_ok_inv. apply keeps_map_err.
  destruct (namei (g_fs g1) true fp) as [q'|] eqn:E; [|done]. apply namei_workspace in E as ->; [|done..]. simpl in Hc.
  assert (q = fp) as -> by (destruct (node_at _ _) as [[]|]; naive_solver).
  apply keeps_confined_write; [done|]. intros ->. by apply prefix_nil_inv in Hw.
Qed.

Lemma confined_make_dir p recursive : keeps (g_keeps confined) (agent_make_dir p recursive).
Proof.
  unfold agent_make_dir. apply confined_bind; [apply agent_path_keeps; typeclasses eauto|].
  intros g fp g' _ [Hfp Hw]%agent_path_workspace. apply keeps_map_err. destruct recursive; [|by apply keeps_confined_mkdir].
  apply g_keeps_create_dir_all; [typeclasses eauto|]. intros q Hq. apply keeps_confined_mkdir. by eapply in_workspace_prefix.
Qed.

Lemma confined_remove_path p recursive : keeps (g_keeps confined) (agent_remove_path p recursive).
Proof.
  unfold agent_remove_path. apply confined_bind; [apply agent_path_keeps; typeclasses eauto|].
  intros g fp g' _ [Hfp Hw]%agent_path_workspace.
  pose proof (keeps_confined_remove_file fp Hw Hfp). pose proof (keeps_confined_remove_dir fp Hw Hfp).
  pose proof (keeps_confined_remove_dir_all fp Hw Hfp). keeps_tac.
Qed.

(** C26: while there is no symbolic link in the workspace, the agent's file requests stay in it:
    whatever path is named, however the request ends and wherever an I/O error interrupts it,
    writing a file, making a directory and removing a path leave every node outside [/workspace]
    as it was, and make no link. *)
Theorem agent_confined g g' :
  linkless (g_fs g) →
  (∃ p data cp, g' = (agent_write_file p data cp g).2) ∨ (∃ p r, g' = (agent_make_dir p r g).2) ∨
  (∃ p r, g' = (agent_remove_path p r g).2) →
  linkless (g_fs g') ∧ ∀ k, ¬ WORKSPACE_ROOT `prefix_of` k → g_fs g' !! k = g_fs g !! k.
Proof.
  intros Hl [(p & data & cp & ->)|[(p & r & ->)|(p & r & ->)]].
  - by apply confined_write_file.
  - by apply confined_make_dir.
  - by apply confined_remove_path.
Qed.

(** *** Links out of the workspace *)

Lemma split_on_word c w s : split_on c w = [w] → split_on c (w ^+ String c s) = w :: split_on c s.
Proof.
  induction w as [|a w IH]; simpl.
  - intros _. by rewrite Ascii.eqb_refl.
  - destruct (Ascii.eqb a c) eqn:E; [done|]. destruct (split_on c w) as [|v ws] eqn:Ew; [by apply split_on_nonempty in Ew|].
    intros [= -> ->]. by rewrite IH.
Qed.

Lemma split_join names : names ≠ [] → Forall plain_name names → split_on slash (join_names names) = names.
Proof.
  induction names as [|n [|m names] IH]; [done| |].
  - by intros _ [(_ & _ & _ & ?) _]%Forall_cons.
  - intros _ [(_ & _ & _ & Hn) Hns]%Forall_cons.
    change (join_names (n :: m :: names)) with (n ^+ String slash (join_names (m :: names))).
    rewrite split_on_word by done. by rewrite IH.
Qed.

Lemma link_names_absolute names :
  names ≠ [] → Forall plain_name names → link_names ("/" ^+ join_names names) = names.
Proof.
  intros Hne Hn. unfold link_names. change ("/" ^+ join_names names) with ("" ^+ String slash (join_names names)).
  rewrite split_on_word, split_join by done. rewrite filter_cons_False by naive_solver.
  clear Hne. induction Hn as [|n names (? & _) _ IH]; [done|]. by rewrite filter_cons_True, IH.
Qed.

Lemma plain_name_relative n : plain_name n → starts_with "/" n = false.
Proof.
  intros (H1 & _ & _ & H4). apply not_true_iff_false. intros [s ->]%starts_with_true.
  change (split_on slash ("/" ^+ s)) with ("" :: split_on slash s) in H4. done.
Qed.

Lemma agent_path_plain n s : plain_name n → agent_path n s = (Ok (WORKSPACE_ROOT ++ [n]), s).
Proof.
  intros Hn. pose proof (plain_name_relative n Hn) as Hrel. destruct (trim_relative n Hrel) as [Ht1 Ht2].
  pose proof (plain_name_components n Hn) as Hc. pose proof Hn as (? & ? & ? & _).
  unfold agent_path, lift, mbind at 1, M_bind. unfold resolve_workspace_path, normalize_workspace_path.
  rewrite !(decide_False (P := n = _)) by (try done; intros ->; done).
  assert (starts_with "/workspace/" n = false) as ->.
  { apply not_true_iff_false. intros [r ->]%starts_with_true. done. }
  rewrite Hrel, Ht1. cbn [mbind Result_bind]. rewrite trim_start_matches_app, Ht2.
  assert (Hv : validate_relative n = Ok ()) by (unfold validate_relative; by rewrite Hc).
  rewrite Hv. cbn [mbind Result_bind]. rewrite decide_False by done.
  rewrite trim_start_matches_app, Ht2, Hv. unfold join. by rewrite Hc.
Qed.

(** a link in the workspace leads the agent out of it: when the name [l] of the workspace is
    a link to an absolute path, [write_file] of [l] creates or overwrites the file at that
    path, anywhere in the guest, for every path whose directories exist.  The validation of
    the path, which lets no [..] and no absolute path through, does not look at links. *)
Theorem link_leaves_workspace g l names data :
  g_faults g = [] → plain_name l → names ≠ [] → Forall plain_name names →
  g_fs g !! WORKSPACE_ROOT = Some GDir →
  g_fs g !! (WORKSPACE_ROOT ++ [l]) = Some (GLink ("/" ^+ join_names names)) →
  (∀ r, r `prefix_of` names → r ≠ [] → r ≠ names → g_fs g !! r = Some GDir) →
  (g_fs g !! names = None ∨ ∃ b, g_fs g !! names = Some (GFile b)) →
  agent_write_file l data false g = (Ok (), mkGuest (<[names := GFile data]> (g_fs g)) []).
Proof.
  intros Hf Hl Hne Hn Hw Hlink Hdirs Hend.
  assert (Hq : namei (g_fs g) true (WORKSPACE_ROOT ++ [l]) = Ok names).
  { unfold namei, WORKSPACE_ROOT. simpl app. pose proof Hl as (_ & ? & ? & _).
    rewrite walk_cons, !decide_False by done. change ([] ++ ["workspace"]) with WORKSPACE_ROOT. rewrite Hw.
    rewrite walk_cons, !decide_False by done. rewrite Hlink, decide_False by naive_solver. cbv beta iota.
    rewrite starts_with_app, link_names_absolute, app_nil_r by done. apply walk_arrives; [|done].
    split; [done|]. intros r t Hr Hr0 Ht. simpl in Ht. destruct (decide (r = names)) as [->|]; [naive_solver|].
    rewrite Hdirs in Ht; done. }
  unfold agent_write_file. rewrite (bind_ok _ _ _ _ _ (agent_path_plain l g Hl)).
  rewrite (bind_ok _ _ _ () g) by done.
  rewrite (bind_ok _ _ _ names (mkGuest (<[names := GFile []]> (g_fs g)) [])); last first.
  { apply map_err_ok. unfold g_create. rewrite g_op_calm by done. rewrite Hq. simpl.
    destruct names as [|a names]; [done|]. destruct Hend as [E|[b E]]; simpl; by rewrite E. }
  apply map_err_ok. unfold g_write_all. rewrite g_op_calm by done. simpl. by rewrite insert_insert_eq.
Qed.

(** *** The snapshot *)

(** Every node has a directory above it and a name. *)
Definition gtree (fs : gfs) : Prop :=
  ∀ k n, fs !! k = Some n → k ≠ [] ∧ Forall plain_name k ∧ node_at fs (parent k) = Some GDir.

(** What a listing says of a node. *)
Definition describe (kv : path * gnode) : FileNode :=
  let name := join_names (drop (length WORKSPACE_ROOT) kv.1) in
  match kv.2 with
  | GDir => mkFileNode name FkDirectory 0 None None
  | GFile b => mkFileNode name FkFile (Z.of_nat (length b)) (Some (digest_bytes b)) None
  | GLink t => mkFileNode name FkSymlink 0 (Some (digest_bytes (as_bytes t))) (Some t)
  end.

(** The nodes below a directory, and those at or below a path. *)
Definition below (fs : gfs) (cur : path) : list (path * gnode) :=
  filter (λ kv, cur `prefix_of` kv.1 ∧ kv.1 ≠ cur) (map_to_list fs).
Definition from (fs : gfs) (cur : path) : list (path * gnode) :=
  filter (λ kv, cur `prefix_of` kv.1) (map_to_list fs).

Lemma gtree_above fs k n r : gtree fs → fs !! k = Some n → r `prefix_of` k → r ≠ [] → r ≠ k → fs !! r = Some GDir.
Proof.
  intros Ht. revert n. induction k as [|x k IH] using rev_ind; intros n Hk Hr Hne Hrk.
  { by apply prefix_nil_inv in Hr. }
  apply parent_take_le in Hr; [|done]. rewrite parent_app in Hr.
  destruct (Ht _ _ Hk) as (_ & _ & Hp). rewrite parent_app in Hp.
  destruct k as [|y k]; [by apply prefix_nil_inv in Hr|]. simpl node_at in Hp.
  destruct (decide (r = y :: k)) as [->|]; eauto.
Qed.

(** A node of the tree is found at its own path. *)
Lemma find_node_tree fs k n follow :
  gtree fs → fs !! k = Some n → (follow = true → ∀ t, n ≠ GLink t) → find_node fs follow k = Ok (k, n).
Proof.
  intros Ht Hk Hf. destruct (Ht _ _ Hk) as (Hne & Hp & _). unfold find_node, namei.
  rewrite walk_arrives; simpl.
  - destruct k; [done|]. simpl. by rewrite Hk.
  - split; [done|]. simpl. intros r t Hr Hr0 Hl. destruct (decide (r = k)) as [->|].
    + split; [done|]. destruct follow; [|done]. simplify_eq. by destruct (Hf eq_refl t).
    + rewrite (gtree_above fs k n r) in Hl; done.
  - intros r Hr Hr0 Hrk. by eapply gtree_above.
Qed.

Section still.
Context (g : Guest) (Hcalm : g_faults g = []) (Htree : gtree (g_fs g)).

Lemma still_guest : mkGuest (g_fs g) [] = g.
Proof using Hcalm. clear Htree. destruct g; simpl in *; congruence. Qed.

Lemma symlink_metadata_run k n : g_fs g !! k = Some n → g_symlink_metadata k g = (Ok n, g).
Proof using Hcalm Htree.
  intros Hk. unfold g_symlink_metadata. rewrite g_op_calm, (find_node_tree _ k n) by done. simpl. by rewrite still_guest.
Qed.

Lemma read_dir_run k : g_fs g !! k = Some GDir → g_read_dir k g = (Ok (g_children (g_fs g) k), g).
Proof using Hcalm Htree.
  intros Hk. unfold g_read_dir. rewrite g_op_calm, (find_node_tree _ k GDir) by done. simpl. by rewrite still_guest.
Qed.

Lemma node_for_path_run k n :
  WORKSPACE_ROOT `prefix_of` k → g_fs g !! k = Some n → node_for_path k g = (Ok (describe (k, n)), g).
Proof using Hcalm Htree.
  intros Hw Hk. unfold node_for_path.
  rewrite (bind_ok _ _ _ n g) by by apply map_err_ok, symlink_metadata_run.
  assert (Hrel : relative_path k = Ok (join_names (drop (length WORKSPACE_ROOT) k))).
  { unfold relative_path. by rewrite decide_True. }
  destruct n as [|b|t].
  - unfold lift, mbind, M_bind. by rewrite Hrel.
  - rewrite (bind_ok _ _ _ (digest_bytes b) g); [unfold lift, mbind, M_bind; by rewrite Hrel|].
    unfold digest_file. rewrite (bind_ok _ _ _ k g); last first.
    { apply map_err_ok. unfold g_open. rewrite g_op_calm, (find_node_tree _ k (GFile b)) by done. simpl. by rewrite still_guest. }
    rewrite (bind_ok _ _ _ b g); [done|]. apply map_err_ok. unfold g_read. rewrite g_op_calm by done.
    destruct k; [by apply prefix_nil_inv in Hw|]. simpl. rewrite Hk. by rewrite still_guest.
  - rewrite (bind_ok _ _ _ t g); [unfold lift, mbind, M_bind; by rewrite Hrel|]. apply map_err_ok.
    unfold g_read_link. rewrite g_op_calm, (find_node_tree _ k (GLink t)) by done. simpl. by rewrite still_guest.
Qed.

(** A loop that changes nothing and collects what each turn finds. *)
Lemma map_each_perm {A B} (f : A → M SandboxError Guest (list B)) (F : A → list B) xs :
  (∀ x, x ∈ xs → ∃ ys, f x g = (Ok ys, g) ∧ ys ≡ₚ F x) →
  ∃ yss, map_each f xs g = (Ok yss, g) ∧ mjoin yss ≡ₚ xs ≫= F.
Proof.
  induction xs as [|x xs IH]; intros Hf; [by exists []|].
  destruct (Hf x) as (ys & Hys & Hp); [left|]. destruct IH as (yss & Hyss & Hps); [intros; apply Hf; by right|].
  exists (ys :: yss). split; [|simpl; by rewrite Hp, Hps].
  simpl. rewrite (bind_ok _ _ _ _ _ Hys). by rewrite (bind_ok _ _ _ _ _ Hyss).
Qed.

Lemma g_children_elem fs k n : n ∈ g_children fs k ↔ is_Some (fs !! (k ++ [n])).
Proof. unfold g_children. by rewrite sort_by_key_elem, child_names_elem. Qed.

Lemma elem_of_from fs k kv : kv ∈ from fs k ↔ k `prefix_of` kv.1 ∧ fs !! kv.1 = Some kv.2.
Proof. unfold from. rewrite list_elem_of_filter. destruct kv. by rewrite elem_of_map_to_list. Qed.
Lemma elem_of_below fs k kv : kv ∈ below fs k ↔ (k `prefix_of` kv.1 ∧ kv.1 ≠ k) ∧ fs !! kv.1 = Some kv.2.
Proof. unfold below. rewrite list_elem_of_filter. destruct kv. by rewrite elem_of_map_to_list. Qed.

Lemma NoDup_below fs k : NoDup (below fs k).
Proof. apply NoDup_filter, NoDup_map_to_list. Qed.
Lemma NoDup_from fs k : NoDup (from fs k).
Proof. apply NoDup_filter, NoDup_map_to_list. Qed.

Lemma from_below fs k n : fs !! k = Some n → from fs k ≡ₚ (k, n) :: below fs k.
Proof.
  intros Hk. apply NoDup_Permutation; [apply NoDup_from| |].
  - apply NoDup_cons. split; [|apply NoDup_below]. rewrite elem_of_below. naive_solver.
  - intros [q m]. rewrite elem_of_cons, elem_of_from, elem_of_below. simpl. split.
    + intros [Hp Hq]. destruct (decide (q = k)) as [->|]; [left; congruence|by right].
    + intros [[= -> ->]|[[? ?] ?]]; [by split|done].
Qed.

(** The nodes below a directory are those from each of its entries on. *)
Lemma below_children fs k : gtree fs → below fs k ≡ₚ g_children fs k ≫= λ n, from fs (k ++ [n]).
Proof.
  intros Ht. apply NoDup_Permutation; [apply NoDup_below| |].
  - unfold g_children. rewrite sort_by_key_perm. generalize (child_names_NoDup fs k).
    induction (child_names fs k) as [|n ns IH]; intros Hnd; [constructor|].
    apply NoDup_cons in Hnd as [Hn Hnd]. simpl. apply NoDup_app. split_and!; [apply NoDup_from| |by apply IH].
    intros kv [Hp _]%elem_of_from (m & [Hp' _]%elem_of_from & Hm)%list_elem_of_bind.
    destruct (prefix_weak_total _ _ _ Hp Hp') as [Hx|Hx]; apply prefix_length_eq in Hx;
      rewrite ?length_app; simpl; try lia; apply app_inj_tail in Hx as [_ ->]; done.
  - intros [q m]. rewrite elem_of_below, list_elem_of_bind. simpl. split.
    + intros [[[l ->] Hne] Hq]. destruct l as [|n l]; [by rewrite app_nil_r in Hne|]. exists n.
      rewrite elem_of_from, g_children_elem. simpl. change (n :: l) with ([n] ++ l) in *. rewrite (assoc_L (++)) in *.
      split; [by split; [apply prefix_app_r|]|]. destruct (decide (l = [])) as [->|Hl]; [rewrite app_nil_r in Hq; eauto|].
      exists GDir. eapply gtree_above; [done|exact Hq|by apply prefix_app_r|by destruct k|].
      intros E. apply (f_equal length) in E. rewrite !length_app in E. destruct l; [done|]. simpl in E. lia.
    + intros (n & [Hp Hq]%elem_of_from & _). split; [|done]. simpl in Hp. split; [by etrans; [apply prefix_app_r|exact Hp]|].
      intros ->. apply prefix_length in Hp. rewrite length_app in Hp. simpl in Hp. lia.
Qed.

Lemma fmap_bind_list {A B C} (f : B → C) (F : A → list B) l : f <$> (l ≫= F) = l ≫= λ x, f <$> F x.
Proof. induction l as [|x l IH]; [done|]. csimpl. by rewrite fmap_app, IH. Qed.

Lemma below_shrinks fs k n m : fs !! (k ++ [n]) = Some m → length (below fs (k ++ [n])) < length (below fs k).
Proof.
  intros Hn. change (S (length (below fs (k ++ [n]))) ≤ length (below fs k)).
  change (length ((k ++ [n], m) :: below fs (k ++ [n])) ≤ length (below fs k)).
  apply submseteq_length. rewrite <-from_below by done. apply NoDup_submseteq; [apply NoDup_from|].
  intros [q x]. rewrite elem_of_from, elem_of_below. simpl. intros [Hp Hq]. split; [|done].
  split; [by etrans; [apply prefix_app_r|exact Hp]|]. intros ->. apply prefix_length in Hp. rewrite length_app in Hp. simpl in Hp. lia.
Qed.

Lemma walk_directory_run fuel k :
  WORKSPACE_ROOT `prefix_of` k → g_fs g !! k = Some GDir → length (below (g_fs g) k) < fuel →
  ∃ nodes, walk_directory fuel k g = (Ok nodes, g) ∧
    nodes ≡ₚ (if decide (k = WORKSPACE_ROOT) then [] else [describe (k, GDir)]) ++ (describe <$> below (g_fs g) k).
Proof using Hcalm Htree.
  revert k. induction fuel as [|fuel IH]; intros k Hw Hk Hfuel; [lia|].
  cbn [walk_directory]. set (own := if decide (k = WORKSPACE_ROOT) then [] else [describe (k, GDir)]).
  rewrite (bind_ok _ _ _ own g); last first.
  { unfold own. case_decide; [done|]. unfold lift, mbind, M_bind, relative_path. by rewrite decide_True. }
  rewrite (bind_ok _ _ _ (g_children (g_fs g) k) g) by by apply map_err_ok, read_dir_run.
  match goal with |- context [map_each ?f _] =>
    destruct (map_each_perm f (λ n, describe <$> from (g_fs g) (k ++ [n])) (g_children (g_fs g) k)) as (yss & Hyss & Hp) end.
  { intros n [m Hm]%g_children_elem. assert (WORKSPACE_ROOT `prefix_of` k ++ [n]) as Hwn by by apply prefix_app_r.
    rewrite (bind_ok _ _ _ m g) by by apply map_err_ok, symlink_metadata_run.
    assert (HF : describe <$> from (g_fs g) (k ++ [n]) ≡ₚ describe (k ++ [n], m) :: (describe <$> below (g_fs g) (k ++ [n]))).
    { by rewrite (from_below _ _ m). }
    assert (Hleaf : m ≠ GDir → below (g_fs g) (k ++ [n]) = []).
    { intros Hnd. apply elem_of_nil_inv. intros kv [[Hpre Hne] Hkv]%elem_of_below.
      rewrite (gtree_above (g_fs g) kv.1 kv.2 (k ++ [n])) in Hm; [naive_solver|done..|by destruct k|done]. }
    destruct m as [|b|t]; [|rewrite Hleaf in HF by done..].
    - destruct (IH (k ++ [n])) as (nodes & Hnodes & Hp); [done..|pose proof (below_shrinks _ _ _ _ Hm); lia|].
      exists nodes. split; [done|]. rewrite Hp, HF, decide_False; [done|].
      intros E. apply (f_equal length) in E. apply prefix_length in Hw. rewrite length_app in E. simpl in *. lia.
    - eexists. rewrite (bind_ok _ _ _ _ _ (node_for_path_run _ _ Hwn Hm)). by rewrite HF.
    - eexists. rewrite (bind_ok _ _ _ _ _ (node_for_path_run _ _ Hwn Hm)). by rewrite HF. }
  rewrite (bind_ok _ _ _ _ _ Hyss). eexists. split; [done|]. rewrite Hp, below_children by done.
  by rewrite fmap_bind_list.
Qed.
End still.

Lemma join_names_inj l k : l ≠ [] → k ≠ [] → Forall plain_name l → Forall plain_name k → join_names l = join_names k → l = k.
Proof. intros ???? E. rewrite <-(split_join l), <-(split_join k) by done. by rewrite E. Qed.

Lemma describe_path kv : fn_path (describe kv) = join_names (drop (length WORKSPACE_ROOT) kv.1).
Proof. by destruct kv as [k []]. Qed.

(** Different nodes of the workspace have different paths in a listing. *)
Lemma describe_path_inj fs kv kv' :
  gtree fs → kv ∈ below fs WORKSPACE_ROOT → kv' ∈ below fs WORKSPACE_ROOT →
  fn_path (describe kv) = fn_path (describe kv') → kv = kv'.
Proof.
  intros Ht [[Hp Hne] Hk]%elem_of_below [[Hp' Hne'] Hk']%elem_of_below. rewrite !describe_path. intros E.
  destruct kv as [k n], kv' as [k' n']. simpl in *.
  destruct (Ht _ _ Hk) as (_ & Hn & _), (Ht _ _ Hk') as (_ & Hn' & _). destruct Hp as [l ->], Hp' as [l' ->].
  apply Forall_app in Hn as [_ Hn], Hn' as [_ Hn'].
  assert (l = l') as ->; [|by simplify_eq].
  apply join_names_inj; [intros ->; by rewrite app_nil_r in *..|done|done|exact E].
Qed.

Lemma snapshot_run g :
  gtree (g_fs g) → g_fs g !! WORKSPACE_ROOT = Some GDir → g_faults g = [] →
  ∃ nodes, snapshot_workspace g = (Ok nodes, g) ∧ nodes ≡ₚ (describe <$> below (g_fs g) WORKSPACE_ROOT) ∧
    NoDup (fn_path <$> nodes).
Proof.
  intros Ht Hw Hf. destruct (walk_directory_run g Hf Ht (S (size (g_fs g))) WORKSPACE_ROOT) as (nodes & Hr & Hp); [done..| |].
  { rewrite <-length_map_to_list. apply Nat.lt_succ_r, length_filter. }
  rewrite decide_True, app_nil_l in Hp by done. exists nodes. split_and!; [done..|].
  rewrite Hp. rewrite <-list_fmap_compose. apply NoDup_fmap_2_strong; [|apply NoDup_below].
  intros kv kv' ?? E. by eapply describe_path_inj.
Qed.

(** a snapshot is the tree: with a directory at [/workspace] and no I/O error,
    [snapshot_workspace] ends, lists every node below the workspace exactly once, under its own
    path, each described by its kind, size and digest, follows no link, and lists nothing
    else.  The depth of the recursion never exceeds the number of nodes. *)
Theorem snapshot_exact g :
  gtree (g_fs g) → g_fs g !! WORKSPACE_ROOT = Some GDir → g_faults g = [] →
  ∃ nodes, snapshot_workspace g = (Ok nodes, g) ∧ nodes ≡ₚ (describe <$> below (g_fs g) WORKSPACE_ROOT) ∧
    NoDup (fn_path <$> nodes).
Proof. apply snapshot_run. Qed.

Lemma from_entries_lookup l p e :
  NoDup (fn_path <$> l) → snap_entries (from_entries l) !! p = Some e ↔ e ∈ l ∧ fn_path e = p.
Proof.
  unfold from_entries. simpl. induction l as [|x l IH] using rev_ind; simpl; intros Hnd.
  { rewrite lookup_empty, elem_of_nil. naive_solver. }
  rewrite fmap_app in Hnd. apply NoDup_app in Hnd as (Hl & Hx & _). rewrite foldl_snoc, elem_of_app, list_elem_of_singleton.
  destruct (decide (fn_path x = p)) as [<-|Hne].
  - rewrite lookup_insert_eq. split; [intros [= ->]; auto|]. intros [[He| ->] Hp]; [|done].
    exfalso. apply (Hx (fn_path e)); [by apply list_elem_of_fmap_2|]. rewrite Hp. by left.
  - rewrite lookup_insert_ne, IH by done. naive_solver.
Qed.

(** What a listing says of the node at a path of the workspace, if there is one. *)
Definition describe_at (fs : gfs) (names : list string) : option FileNode :=
  (λ n, describe (WORKSPACE_ROOT ++ names, n)) <$> fs !! (WORKSPACE_ROOT ++ names).

Lemma snapshot_lookup g nodes names :
  gtree (g_fs g) → nodes ≡ₚ (describe <$> below (g_fs g) WORKSPACE_ROOT) → NoDup (fn_path <$> nodes) →
  names ≠ [] → Forall plain_name names →
  snap_entries (from_entries nodes) !! join_names names = describe_at (g_fs g) names.
Proof.
  intros Ht Hp Hnd Hne Hn. apply option_eq. intros e. rewrite from_entries_lookup by done.
  rewrite Hp, list_elem_of_fmap. unfold describe_at. rewrite fmap_Some. split.
  - intros [(kv & -> & Hkv) Hpath]. pose proof Hkv as [[Hpre Hk0] Hk]%elem_of_below. rewrite describe_path in Hpath.
    destruct kv as [k n]. simpl in *. destruct Hpre as [l ->]. exists n.
    assert (l = names) as ->; [|done]. destruct (Ht _ _ Hk) as (_ & Hall & _). apply Forall_app in Hall as [_ Hall].
    apply join_names_inj; [intros ->; by rewrite app_nil_r in *|done..|exact Hpath].
  - intros (n & Hk & ->). split; [|by rewrite describe_path]. exists (WORKSPACE_ROOT ++ names, n). split; [done|].
    apply elem_of_below. simpl. split_and!; [by exists names| |done].
    intros E. apply Hne. by injection E.
Qed.

End agent_props.
