(* ===== verification/GuestStats.v ===== *)
(** * GuestStats: [guest-agent/src/guest_agent/stats.rs]

    What a guest reports of its load, from the files of [/proc] and from
    [statvfs].  The contents read are inputs of the functions. *)

From S2P Require Import Prelude RustStd Text FileSystem Protocol.

Record CpuSample := mkSample { cs_busy : Z; cs_total : Z }.

(** [values.iter().sum::<u64>()] wraps in a release build. *)
Definition sum_u64 (l : list Z) : Z := (foldr Z.add 0 l mod 2 ^ 64)%Z.

Fixpoint parse_counters (fields : list string) : Result SandboxError (list Z) :=
  match fields with
  | [] => Ok []
  | v :: rest =>
      x ← ok_or (Prelude.Protocol ("invalid cpu stat value `" ^+ v ^+ "`: " ^+ uint_error u64_max v)) (parse_uint u64_max v);
      xs ← parse_counters rest; Ok (x :: xs)
  end.

(** The sample of the first line of [/proc/stat]. *)
Definition cpu_sample (stat : string) : Result SandboxError CpuSample :=
  line ← ok_or (Prelude.Protocol "missing aggregate cpu line in /proc/stat") (head (str_lines stat));
  match split_whitespace line with
  | w :: fields =>
      if decide (w = "cpu") then
        values ← parse_counters (take 8 fields);
        match values with
        | _ :: _ :: _ :: idle :: iowait :: _ :: _ :: _ :: _ =>
            let total := sum_u64 values in
            Ok (mkSample (saturating_sub total (saturating_add u64_max idle iowait)) total)
        | _ => Err (Prelude.Protocol "expected at least 8 aggregate cpu counters in /proc/stat")
        end
      else Err (Prelude.Protocol "unexpected aggregate cpu format in /proc/stat")
  | [] => Err (Prelude.Protocol "unexpected aggregate cpu format in /proc/stat")
  end.

Definition u128_max : Z := 2 ^ 128 - 1.

Definition cpu_millicores_used (first second : CpuSample) (cpu_count : Z) : Z :=
  let busy_delta := saturating_sub (cs_busy second) (cs_busy first) in
  let total_delta := saturating_sub (cs_total second) (cs_total first) in
  if (total_delta =? 0)%Z then 0%Z
  else
    let millicores :=
      (saturating_add u128_max
         (saturating_mul u128_max (saturating_mul u128_max busy_delta cpu_count) 1000) (total_delta `div` 2)
       `div` total_delta)%Z in
    ((millicores `min` saturating_mul u128_max cpu_count 1000) mod 2 ^ 32)%Z.

(** [str::strip_suffix]. *)
Definition strip_suffix (pat s : string) : option string :=
  string_rev <$> strip_prefix (string_rev pat) (string_rev s).

Definition parse_meminfo_kib (raw label : string) : Result SandboxError Z :=
  value ← ok_or (Prelude.Protocol (label ^+ " is missing kB suffix")) (strip_suffix " kB" (trim raw));
  ok_or (Prelude.Protocol ("invalid " ^+ label ^+ " value `" ^+ value ^+ "`: " ^+ uint_error u64_max (trim value)))
    (parse_uint u64_max (trim value)).

Fixpoint meminfo_lines (lines : list string) (total available : option Z) :
    Result SandboxError (option Z * option Z) :=
  match lines with
  | [] => Ok (total, available)
  | line :: rest =>
      match strip_prefix "MemTotal:" line with
      | Some v => x ← parse_meminfo_kib v "MemTotal"; meminfo_lines rest (Some x) available
      | None =>
          match strip_prefix "MemAvailable:" line with
          | Some v => x ← parse_meminfo_kib v "MemAvailable"; meminfo_lines rest total (Some x)
          | None => meminfo_lines rest total available
          end
      end
  end.

Definition memory_used_mib (meminfo : string) : Result SandboxError Z :=
  '(total, available) ← meminfo_lines (str_lines meminfo) None None;
  total ← ok_or (Prelude.Protocol "MemTotal missing from /proc/meminfo") total;
  available ← ok_or (Prelude.Protocol "MemAvailable missing from /proc/meminfo") available;
  Ok (saturating_sub total available `div` 1024)%Z.

(** The entries of [/proc] whose names are numbers. *)
Definition process_count (names : list string) : Z :=
  foldl (λ n name, if all_chars is_ascii_digit name then saturating_add u32_max n 1 else n) 0%Z names.

(** [struct statvfs]. *)
Record Statvfs := mkStatvfs { f_blocks : Z; f_bavail : Z; f_frsize : Z }.

Definition fs_used_mib (s : Statvfs) : Z :=
  let total_bytes := saturating_mul u128_max (f_blocks s) (f_frsize s) in
  let avail_bytes := saturating_mul u128_max (f_bavail s) (f_frsize s) in
  ((saturating_sub total_bytes avail_bytes `div` (1024 * 1024)) mod 2 ^ 64)%Z.

(** What one call reads, in this order. *)
Record Readings := mkReadings {
  rd_stat : Result IoError string;
  rd_stat_later : Result IoError string;
  rd_parallelism : option Z;
  rd_meminfo : Result IoError string;
  rd_statvfs : Result IoError Statvfs;
  rd_proc : Result IoError (list string);
}.

Definition io_context {A} (context : string) (r : Result IoError A) : Result SandboxError A :=
  match r with Ok a => Ok a | Err e => Err (Io context e) end.

Definition collect_runtime_stats (r : Readings) : Result SandboxError GuestRuntimeStats :=
  first ← (stat ← io_context "reading /proc/stat" (rd_stat r); cpu_sample stat);
  second ← (stat ← io_context "reading /proc/stat" (rd_stat_later r); cpu_sample stat);
  let cpu_count := (default 1 ((λ n, n mod 2 ^ 32) <$> rd_parallelism r) `max` 1)%Z in
  memory ← (meminfo ← io_context "reading /proc/meminfo" (rd_meminfo r); memory_used_mib meminfo);
  fs ← (s ← io_context "reading workspace filesystem stats" (rd_statvfs r); Ok (fs_used_mib s));
  processes ← (names ← io_context "reading /proc" (rd_proc r); Ok (process_count names));
  Ok (mkStats (cpu_millicores_used first second cpu_count) memory fs processes).

(** ** Properties *)

Lemma div_nearest a b : (0 < b → 0 ≤ a → 2 * Z.abs (((a + b `div` 2) `div` b) * b - a) ≤ b)%Z.
Proof.
  intros Hb Ha. pose proof (Z.div_mod (a + b `div` 2) b ltac:(lia)). pose proof (Z.mod_pos_bound (a + b `div` 2) b Hb).
  pose proof (Z.div_mod b 2 ltac:(lia)). pose proof (Z.mod_pos_bound b 2 ltac:(lia)). lia.
Qed.

(** the processor load a guest reports is the share of busy time between the two samples,
    in thousandths of a core, to the nearest: for counters of 64 bits and a machine of
    at most 4294967 processors no intermediate product overflows or saturates, the result
    never exceeds the processors there are, and it is 0 when no time passed. *)
Theorem cpu_millicores_nearest first second count :
  is_u64 (cs_busy first) → is_u64 (cs_total first) → is_u64 (cs_busy second) → is_u64 (cs_total second) →
  (1 ≤ count ≤ 4294967)%Z →
  let r := cpu_millicores_used first second count in
  let busy := (cs_busy second - cs_busy first)%Z in
  let total := (cs_total second - cs_total first)%Z in
  (0 ≤ r ≤ count * 1000)%Z ∧
  (total ≤ 0 → r = 0)%Z ∧
  (0 < total → 0 ≤ busy ≤ total → 2 * Z.abs (r * total - busy * count * 1000) ≤ total)%Z.
Proof.
  unfold is_u64, u64_max. intros Hb1 Ht1 Hb2 Ht2 Hc. cbv zeta. unfold cpu_millicores_used, saturating_sub.
  set (busy := (cs_busy second - cs_busy first)%Z). set (total := (cs_total second - cs_total first)%Z).
  destruct (Z.eqb_spec (0 `max` total) 0) as [Hz|Hz]; [split_and!; lia|].
  rewrite (Z.max_r 0 total) by lia. set (b := (0 `max` busy)%Z).
  assert (0 ≤ b < 2 ^ 64)%Z as Hb by lia. assert (0 < total < 2 ^ 64)%Z as Ht by lia.
  assert (0 ≤ b * count < 2 ^ 64 * 4294968)%Z by nia. assert (0 ≤ total `div` 2 < 2 ^ 64)%Z by (split; [apply Z.div_pos; lia|apply Z.div_lt_upper_bound; lia]).
  unfold saturating_mul, saturating_add, u128_max.
  rewrite (Z.min_l (b * count)) by lia. rewrite (Z.min_l (b * count * 1000)) by lia.
  rewrite (Z.min_l (b * count * 1000 + total `div` 2)) by lia. rewrite (Z.min_l (count * 1000)) by lia.
  set (q := ((b * count * 1000 + total `div` 2) `div` total)%Z).
  assert (0 ≤ q)%Z by (apply Z.div_pos; lia). rewrite Z.mod_small by lia. split_and!; [lia|lia|lia|].
  intros _ Hbusy. assert (b = busy) as Hbb by lia. rewrite <-Hbb.
  pose proof (div_nearest (b * count * 1000) total ltac:(lia) ltac:(lia)) as Hn. fold q in Hn.
  destruct (Z.le_gt_cases q (count * 1000)) as [Hq|Hq]; [by rewrite Z.min_l|].
  rewrite Z.min_r by lia. assert (b * count * 1000 ≤ count * 1000 * total)%Z by nia. nia.
Qed.
