(* ===== verification/Runtime.v ===== *)
(** * Runtime: [src/runtime/registry.rs] and [src/runtime/service/]

    The sandbox service: the registry of sessions (active, history, warm run
    directories) and the operations that create, use and destroy sandboxes.
    The hypervisor backend and the guest RPC client are an interface here. *)

From S2P Require Import Prelude RustStd Paths FileSystem PrivateFs FsTree Manifest Config Lineage Workspace Images Protocol.

(** ** Data: [src/runtime/types.rs], [src/backend/mod.rs] *)

Inductive SandboxSessionState := SActive | SDestroyed.

Record SandboxSessionSummary := mkSession {
  ss_sandbox_id : Uuid;
  ss_workspace_id : string;
  ss_state : SandboxSessionState;
  ss_policy : ExecutionPolicy;
  ss_started_at_ms : Z;
  ss_ended_at_ms : option Z;
}.

Record SandboxSessionRecord := mkSessionRecord {
  sr_summary : SandboxSessionSummary;
  sr_changes : list WorkspaceChange;
}.

Record BackendLaunchRequest := {
  bl_sandbox_id : Uuid;
  bl_run_layout : RunLayout;
  bl_guest : GuestConfig;
  bl_cache_image : option path;
  bl_policy : ExecutionPolicy;
  bl_workspace : WorkspaceLease;
  bl_hardening : HardeningConfig;
  bl_isolation_mode : IsolationMode;
  bl_artifact_bundle : ArtifactBundle;
}.

(** ** The backend and the guests, as the service sees them

    [G] is the state of the virtual machines; a call runs in it and in the
    world, since a machine writes its disk. *)

Class GuestHost (G : Type) := {
  vm : Type;        (** [Arc<dyn BackendInstance>] *)
  guest : Type;     (** [GuestRpcClient] *)
  endpoint : Type;  (** [GuestTransportEndpoint] *)
  shell_session : Type;
  backend_launch : BackendLaunchRequest → M SandboxError (World * G) (vm * endpoint);
  backend_shutdown : vm → M SandboxError (World * G) ();
  guest_connect : endpoint → Z → M SandboxError (World * G) guest;
  guest_snapshot : guest → M SandboxError (World * G) WorkspaceSnapshot;
  guest_sync : guest → M SandboxError (World * G) ();
  guest_shutdown : guest → M SandboxError (World * G) ();
  guest_list_files : guest → string → M SandboxError (World * G) (list FileNode);
  guest_read_file : guest → string → Z → M SandboxError (World * G) ReadFileResult;
  guest_write_file : guest → string → bytes → bool → M SandboxError (World * G) ();
  guest_make_dir : guest → string → bool → M SandboxError (World * G) ();
  guest_remove_path : guest → string → bool → M SandboxError (World * G) ();
  guest_exec : guest → ExecRequest → M SandboxError (World * G) (list ExecutionEvent);
  guest_open_shell : guest → ShellRequest → M SandboxError (World * G) shell_session;
  guest_runtime_stats : guest → M SandboxError (World * G) GuestRuntimeStats;
  (** [tokio::time::timeout]: [None] when the deadline passes first *)
  guest_timeout {A : Type} : Z → M SandboxError (World * G) A →
    M SandboxError (World * G) (option (Result SandboxError A));
}.

(** ** The registry *)

Section runtime.
Context `{Platform, Ext4, Target, L : WorkspaceLineageStore, Serde VmImageManifest} {G : Type} `{!GuestHost G}.

Record ManagedSandbox := mkManaged {
  ms_summary : SandboxSessionSummary;
  ms_baseline : WorkspaceSnapshot;
  ms_run_layout : RunLayout;
  ms_workspace : WorkspaceLease;
  ms_backend : vm;
  ms_guest : guest;
  ms_exec_permits : nat;  (** of the [exec_gate] semaphore *)
}.

Definition ManagedSandbox_new (summary : SandboxSessionSummary) (baseline : WorkspaceSnapshot)
    (run_layout : RunLayout) (workspace : WorkspaceLease) (backend : vm) (g : guest) : ManagedSandbox :=
  mkManaged summary baseline run_layout workspace backend g 1.

Record Service := mkService {
  sv_world : World;
  sv_guests : G;
  sv_active : gmap Uuid ManagedSandbox;
  sv_warm_runs : list RunLayout;
  sv_history : gmap Uuid SandboxSessionRecord;
}.

Definition set_active (a : gmap Uuid ManagedSandbox) (s : Service) : Service :=
  mkService (sv_world s) (sv_guests s) a (sv_warm_runs s) (sv_history s).
Definition set_warm (l : list RunLayout) (s : Service) : Service :=
  mkService (sv_world s) (sv_guests s) (sv_active s) l (sv_history s).
Definition set_history (h : gmap Uuid SandboxSessionRecord) (s : Service) : Service :=
  mkService (sv_world s) (sv_guests s) (sv_active s) (sv_warm_runs s) h.
Definition set_host (h : World * G) (s : Service) : Service :=
  mkService h.1 h.2 (sv_active s) (sv_warm_runs s) (sv_history s).

Abbreviation SM := (M SandboxError Service).

(** Running on the disk, and on the disk with the machines. *)
Definition on_disk {A} (m : M SandboxError World A) : SM A :=
  zoom sv_world (λ w s, set_host (w, sv_guests s) s) m.
Definition on_guest {A} (m : M SandboxError (World * G) A) : SM A :=
  zoom (λ s, (sv_world s, sv_guests s)) set_host m.

Definition unknown_sandbox (sandbox_id : Uuid) : SandboxError :=
  InvalidConfig ("unknown active sandbox " ^+ uuid_to_string sandbox_id).

Definition registry_insert (sandbox : ManagedSandbox) : SM () :=
  modify (λ s, set_active (<[ss_sandbox_id (ms_summary sandbox) := sandbox]> (sv_active s)) s).

Definition active (sandbox_id : Uuid) : SM ManagedSandbox :=
  o ← gets (λ s, sv_active s !! sandbox_id);
  lift (ok_or (unknown_sandbox sandbox_id) o).

Definition remove_active (sandbox_id : Uuid) : SM ManagedSandbox :=
  o ← gets (λ s, sv_active s !! sandbox_id);
  modify (λ s, set_active (delete sandbox_id (sv_active s)) s);;
  lift (ok_or (unknown_sandbox sandbox_id) o).

Definition active_workspace (workspace_id : string) (s : Service) : bool :=
  existsb (λ x, String.eqb (wl_workspace_id (ms_workspace x.2)) workspace_id) (map_to_list (sv_active s)).

Definition has_active_workspace (workspace_id : string) : SM bool := gets (active_workspace workspace_id).

Definition session_key (s : SandboxSessionSummary) : Z * N := (ss_started_at_ms s, ss_sandbox_id s).

Definition registry_list (include_history : bool) : SM (list SandboxSessionSummary) :=
  gets (λ s, sort_by_key session_key (pair_le N.leb)
    (map (λ x, ms_summary x.2) (map_to_list (sv_active s)) ++
     if include_history then map (λ x, sr_summary x.2) (map_to_list (sv_history s)) else [])).

Definition history_record (sandbox_id : Uuid) : SM (option SandboxSessionRecord) :=
  gets (λ s, sv_history s !! sandbox_id).

Definition save_history (record : SandboxSessionRecord) : SM () :=
  modify (λ s, set_history (<[ss_sandbox_id (sr_summary record) := record]> (sv_history s)) s).

(** [Vec::pop]. *)
Definition take_warm_run : SM (option RunLayout) := λ s,
  (Ok (last (sv_warm_runs s)), set_warm (removelast (sv_warm_runs s)) s).

(** [while warm_runs.len() > warm_pool_size { warm_runs.remove(0); }]: one pass
    per element is enough. *)
Fixpoint trim_warm (fuel : nat) (warm_pool_size : Z) (runs : list RunLayout) : list RunLayout :=
  match fuel with
  | O => runs
  | S fuel' => if (warm_pool_size <? Z.of_nat (length runs))%Z
               then trim_warm fuel' warm_pool_size (drop 1 runs) else runs
  end.

Definition store_warm_run (run : RunLayout) (warm_pool_size : Z) : SM () :=
  modify (λ s, let runs := sv_warm_runs s ++ [run] in
               set_warm (trim_warm (length runs) warm_pool_size runs) s).

Definition try_acquire_exec (sandbox_id : Uuid) (session : ManagedSandbox) : SM () :=
  match ms_exec_permits session with
  | O => throw (Conflict "parallel exec is not supported for a running BOX")
  | S n => modify (λ s, set_active (alter (λ m, mkManaged (ms_summary m) (ms_baseline m) (ms_run_layout m)
             (ms_workspace m) (ms_backend m) (ms_guest m) n) sandbox_id (sv_active s)) s)
  end.

(** Dropping the [OwnedSemaphorePermit]. *)
Definition release_exec (sandbox_id : Uuid) : SM () :=
  modify (λ s, set_active (alter (λ m, mkManaged (ms_summary m) (ms_baseline m) (ms_run_layout m)
    (ms_workspace m) (ms_backend m) (ms_guest m) (S (ms_exec_permits m))) sandbox_id (sv_active s)) s).

(** ** Launch errors *)

Definition GUEST_FAILURE_PATTERNS : list string :=
  ["Kernel panic - not syncing:"; "VFS: Cannot open root device"; "VFS: Unable to mount root fs";
   "Can't open blockdev"; "No working init found"; "Run /init as init process"; "EXT4-fs error";
   "guest agent error:"; "guest bootstrap failed:"].

Definition RUNNER_FAILURE_PATTERNS : list string :=
  ["unexpected exception:"; "panicked at"; "krun_start_enter failed"; "Failed to create listening proxy";
   "failed with"; "CreatingSocket("].

Definition select_line (text : option string) (keep : string → bool) : option string :=
  t ← text; snd <$> list_find (λ line, keep line = true) (map trim (rev (lines t))).

Definition nonempty (line : string) : bool := negb (String.eqb line "").

Definition select_boot_failure_line (text : option string) (patterns : list string) : option string :=
  select_line text (λ line, nonempty line && existsb (λ pattern, contains pattern line) patterns).

Definition last_nonempty_line (text : option string) : option string := select_line text nonempty.

Definition or_else {A} (a b : option A) : option A := match a with Some x => Some x | None => b end.

Definition read_tail (p : path) (max_lines : nat) : M SandboxError World (option string) :=
  data ← attempt (fs_read p);
  mret (match data with Ok b => Some (tail_text (from_utf8_lossy b) max_lines) | Err _ => None end).

Definition boot_failure_detail (run : RunLayout) : M SandboxError World (option string) :=
  guest_console ← read_tail (rl_guest_console_log run) 200;
  runner_log ← read_tail (rl_runner_log run) 200;
  mret (or_else (select_boot_failure_line guest_console GUEST_FAILURE_PATTERNS)
       (or_else (select_boot_failure_line runner_log RUNNER_FAILURE_PATTERNS)
       (or_else (last_nonempty_line guest_console) (last_nonempty_line runner_log)))).

Definition should_attach_boot_detail (stage : string) (error : SandboxError) : bool :=
  if String.eqb stage "guest connect" then
    match error with
    | Timeout _ | Protocol _ => true
    | Io context _ => contains "guest vsock bridge" context
    | _ => false
    end
  else if String.eqb stage "backend launch" then
    match error with
    | Timeout _ => true
    | Backend message => contains "startup handshake" message || contains "exited before" message
                         || contains "thread panicked" message
    | _ => false
    end
  else false.

Definition enrich_launch_error (run : RunLayout) (stage : string) (error : SandboxError) :
    M SandboxError World SandboxError :=
  if negb (should_attach_boot_detail stage error) then mret error
  else
    detail ← boot_failure_detail run;
    mret (match detail with
          | None => error
          | Some d => if contains d (error_to_string error) then error
                      else Backend (stage ^+ " failed: " ^+ d)
          end).

(** ** The service *)

Context (config : RuntimeConfig) (state_dir : path).

Definition GUEST_STOP_RPC_TIMEOUT : Z := 5000.
Definition service_disk_mib : Z := disk_size_mib (rc_workspace config).

(** The guards of [create_sandbox_inner], up to its first write. *)
Definition create_guards (spec : SandboxSpec) : SM () :=
  if bool_decide (rc_isolation_mode config = Secure) && network_enabled (spec_policy spec) then
    throw (InvalidConfig "networking is unsupported in secure isolation mode")
  else
    busy ← has_active_workspace (spec_workspace_id spec);
    if busy : bool then
      throw (InvalidConfig ("workspace " ^+ spec_workspace_id spec ^+ " already has an active sandbox"))
    else mret ().

(** [match step.await { Err(error) => return Err(enrich_launch_error(..)) .. }] *)
Definition launch_step {A} (run : RunLayout) (stage : string) (m : M SandboxError (World * G) A) : SM A :=
  r ← attempt (on_guest m);
  match r with
  | Ok a => mret a
  | Err error => error' ← on_disk (enrich_launch_error run stage error); throw error'
  end.

Definition acquire_run : SM RunLayout :=
  warm ← take_warm_run;
  match warm with
  | Some run => on_disk (recycle_run state_dir run)
  | None => on_disk (prepare_run state_dir)
  end.

(** The rest of [create_sandbox_inner]. *)
Definition create_launch (spec : SandboxSpec) : SM SandboxSessionSummary :=
  match spec_restore_commit spec with
  | Some commit_id =>
      _ ← on_disk (restore_internal_checkpoint state_dir service_disk_mib (spec_workspace_id spec) commit_id);
      mret ()
  | None => mret ()
  end;;
  workspace ← on_disk (prepare_workspace state_dir service_disk_mib (spec_workspace_id spec));
  image ← on_disk (resolve_guest state_dir (spec_image spec) (rc_guest config));
  run ← acquire_run;
  '(instance, guest_endpoint) ← launch_step run "backend launch" (backend_launch
    {| bl_sandbox_id := rl_sandbox_id run; bl_run_layout := run; bl_guest := ri_guest image;
       bl_cache_image := ri_cache_image image; bl_policy := spec_policy spec; bl_workspace := workspace;
       bl_hardening := rc_hardening config; bl_isolation_mode := rc_isolation_mode config;
       bl_artifact_bundle := rc_artifact_bundle config |});
  g ← launch_step run "guest connect" (guest_connect guest_endpoint (boot_timeout (rc_guest config)));
  started ← on_disk now_ms;
  let summary := mkSession (rl_sandbox_id run) (wl_workspace_id workspace) SActive (spec_policy spec) started None in
  baseline ← on_guest (guest_snapshot g);
  registry_insert (ManagedSandbox_new summary baseline run workspace instance g);;
  mret summary.

Definition create_sandbox (spec : SandboxSpec) : SM SandboxSessionSummary :=
  create_guards spec;; create_launch spec.

(** [sync_guest_best_effort] and [shutdown_guest_best_effort]: the outcome is
    only logged. *)
Definition best_effort (m : M SandboxError (World * G) ()) : SM () :=
  _ ← attempt (on_guest (guest_timeout GUEST_STOP_RPC_TIMEOUT m)); mret ().

Definition snapshot_guest_or_baseline (session : ManagedSandbox) : SM WorkspaceSnapshot :=
  r ← attempt (on_guest (guest_timeout GUEST_STOP_RPC_TIMEOUT (guest_snapshot (ms_guest session))));
  mret (match r with Ok (Some (Ok snapshot)) => snapshot | _ => ms_baseline session end).

Definition end_session (session : ManagedSandbox) (ended : Z) (final : WorkspaceSnapshot) : SandboxSessionRecord :=
  let s := ms_summary session in
  mkSessionRecord (mkSession (ss_sandbox_id s) (ss_workspace_id s) SDestroyed (ss_policy s)
                     (ss_started_at_ms s) (Some ended))
    (diff (ms_baseline session) final).

Definition destroy_sandbox (sandbox_id : Uuid) : SM SandboxSessionRecord :=
  past ← history_record sandbox_id;
  match past with
  | Some record => mret record
  | None =>
      session ← remove_active sandbox_id;
      best_effort (guest_sync (ms_guest session));;
      final ← snapshot_guest_or_baseline session;
      ended ← on_disk now_ms;
      let record := end_session session ended final in
      best_effort (guest_sync (ms_guest session));;
      best_effort (guest_shutdown (ms_guest session));;
      on_guest (backend_shutdown (ms_backend session));;
      store_warm_run (ms_run_layout session) (warm_pool_size (rc_lifecycle config));;
      save_history record;;
      mret record
  end.

(** [self.session(sandbox_id).await?.guest.<call>]: the guest of an active sandbox. *)
Definition with_guest {A} (sandbox_id : Uuid) (call : guest → M SandboxError (World * G) A) : SM A :=
  session ← active sandbox_id; on_guest (call (ms_guest session)).

Definition list_files (sandbox_id : Uuid) (p : string) : SM (list FileNode) :=
  with_guest sandbox_id (λ g, guest_list_files g p).
Definition read_file (sandbox_id : Uuid) (p : string) (limit : Z) : SM ReadFileResult :=
  with_guest sandbox_id (λ g, guest_read_file g p limit).
Definition write_file (sandbox_id : Uuid) (p : string) (data : bytes) (create_parents : bool) : SM () :=
  with_guest sandbox_id (λ g, guest_write_file g p data create_parents).
Definition make_dir (sandbox_id : Uuid) (p : string) (recursive : bool) : SM () :=
  with_guest sandbox_id (λ g, guest_make_dir g p recursive).
Definition remove_path (sandbox_id : Uuid) (p : string) (recursive : bool) : SM () :=
  with_guest sandbox_id (λ g, guest_remove_path g p recursive).
Definition open_shell (sandbox_id : Uuid) (request : ShellRequest) : SM shell_session :=
  with_guest sandbox_id (λ g, guest_open_shell g request).
Definition runtime_stats (sandbox_id : Uuid) : SM GuestRuntimeStats :=
  with_guest sandbox_id guest_runtime_stats.
Definition sync_workspace (sandbox_id : Uuid) : SM () := with_guest sandbox_id guest_sync.

Definition with_default_timeout (session : ManagedSandbox) (request : ExecRequest) : ExecRequest :=
  match ex_timeout_ms request with
  | Some _ => request
  | None => mkExec (ex_program request) (ex_args request) (ex_env request) (ex_cwd request)
              (timeout_ms (ss_policy (ms_summary session))) (ex_kill_grace_ms request)
  end.

(** The stream keeps the permit until it is dropped ([release_exec]); a failed
    start drops it at once. *)
Definition exec (sandbox_id : Uuid) (request : ExecRequest) : SM (list ExecutionEvent) :=
  session ← active sandbox_id;
  try_acquire_exec sandbox_id session;;
  r ← attempt (on_guest (guest_exec (ms_guest session) (with_default_timeout session request)));
  match r with
  | Ok stream => mret (wrap_exec_stream stream)
  | Err error => release_exec sandbox_id;; throw error
  end.

Definition capture_workspace_checkpoint (sandbox_id : Uuid) (name : option string)
    (metadata : gmap string string) : SM WorkspaceCheckpointRecord :=
  session ← active sandbox_id;
  on_guest (guest_sync (ms_guest session));;
  current ← on_guest (guest_snapshot (ms_guest session));
  on_guest (guest_sync (ms_guest session));;
  on_disk (create_internal_checkpoint (ms_workspace session) (ms_baseline session) current name metadata).

Definition restore_workspace_checkpoint (workspace_id checkpoint_id : string) : SM WorkspaceCheckpointRecord :=
  busy ← has_active_workspace workspace_id;
  if busy : bool then
    throw (InvalidConfig ("workspace " ^+ workspace_id ^+ " is currently attached to an active sandbox"))
  else on_disk (restore_internal_checkpoint state_dir service_disk_mib workspace_id checkpoint_id).

(** ** The invariant of the registry *)

Definition session_ok (id : Uuid) (m : ManagedSandbox) : Prop :=
  ss_sandbox_id (ms_summary m) = id ∧ ss_state (ms_summary m) = SActive ∧
  ss_ended_at_ms (ms_summary m) = None ∧ ss_workspace_id (ms_summary m) = wl_workspace_id (ms_workspace m) ∧
  ms_exec_permits m ≤ 1.

Definition record_ok (id : Uuid) (r : SandboxSessionRecord) : Prop :=
  ss_sandbox_id (sr_summary r) = id ∧ ss_state (sr_summary r) = SDestroyed ∧ is_Some (ss_ended_at_ms (sr_summary r)).

(** Every workspace is attached to at most one active sandbox. *)
Definition exclusive (a : gmap Uuid ManagedSandbox) : Prop := ∀ id id' m m',
  a !! id = Some m → a !! id' = Some m' →
  wl_workspace_id (ms_workspace m) = wl_workspace_id (ms_workspace m') → id = id'.

Record registry_ok (s : Service) : Prop := {
  ok_active : map_Forall session_ok (sv_active s);
  ok_history : map_Forall record_ok (sv_history s);
  ok_exclusive : exclusive (sv_active s);
  ok_warm : (Z.of_nat (length (sv_warm_runs s)) ≤ 0 `max` warm_pool_size (rc_lifecycle config))%Z;
}.

Lemma active_workspace_spec ws s :
  active_workspace ws s = true ↔ ∃ id m, sv_active s !! id = Some m ∧ wl_workspace_id (ms_workspace m) = ws.
Proof.
  unfold active_workspace. rewrite existsb_exists. split.
  - intros ([id m] & Hin & Heq). apply String.eqb_eq in Heq. exists id, m. split; [|done].
    by apply elem_of_map_to_list, list_elem_of_In.
  - intros (id & m & Hm & <-). exists (id, m). split; [by apply list_elem_of_In, elem_of_map_to_list|].
    apply String.eqb_refl.
Qed.

(** Same registry, any disk and machines. *)
Definition same_registry (s s' : Service) : Prop :=
  sv_active s' = sv_active s ∧ sv_history s' = sv_history s ∧ sv_warm_runs s' = sv_warm_runs s.

#[local] Instance same_registry_preorder : PreOrder same_registry.
Proof. split; [by intros s|]. intros a b c (?&?&?) (?&?&?). split_and!; congruence. Qed.

Lemma on_disk_same {A} (m : M SandboxError World A) : keeps same_registry (on_disk m).
Proof. apply (keeps_zoom _ (λ _ _, True)); [|done]. by intros s w _. Qed.
Lemma on_guest_same {A} (m : M SandboxError (World * G) A) : keeps same_registry (on_guest m).
Proof. apply (keeps_zoom _ (λ _ _, True)); [|done]. by intros s w _. Qed.

Lemma launch_step_same {A} run stage (m : M SandboxError (World * G) A) : keeps same_registry (launch_step run stage m).
Proof. unfold launch_step. keeps_tac; auto using on_disk_same, on_guest_same. Qed.
Lemma best_effort_same m : keeps same_registry (best_effort m).
Proof. unfold best_effort. keeps_tac. apply on_guest_same. Qed.
Lemma snapshot_same session : keeps same_registry (snapshot_guest_or_baseline session).
Proof. unfold snapshot_guest_or_baseline. keeps_tac. apply on_guest_same. Qed.

(** Invariants of the registry that do not depend on the rest. *)
Lemma same_registry_keeps {A} (I : Service → Prop) (m : SM A) :
  (∀ s s', same_registry s s' → I s → I s') → keeps same_registry m → keeps (preserves I) m.
Proof. intros HI. apply keeps_impl. exact HI. Qed.

Lemma same_registry_ok s s' : same_registry s s' → registry_ok s → registry_ok s'.
Proof. intros (Ha & Hh & Hw) [????]. constructor; rewrite ?Ha, ?Hh, ?Hw; done. Qed.

(** Nothing active on a workspace. *)
Definition free_for ws (s : Service) : Prop := registry_ok s ∧ active_workspace ws s = false.

Lemma same_registry_free ws s s' : same_registry s s' → free_for ws s → free_for ws s'.
Proof.
  intros Hs [Hok Hf]. split; [by eapply same_registry_ok|]. unfold active_workspace in *.
  by rewrite (proj1 Hs).
Qed.

Lemma take_warm_free ws : keeps (preserves (free_for ws)) take_warm_run.
Proof.
  intros s [[Ha Hh He Hw] Hf]. split; [|done]. constructor; try done. simpl.
  rewrite removelast_firstn_len. rewrite length_take. lia.
Qed.

Lemma acquire_run_free ws : keeps (preserves (free_for ws)) acquire_run.
Proof.
  unfold acquire_run. apply keeps_bind; [typeclasses eauto|apply take_warm_free|]. intros [run|];
    (apply (same_registry_keeps (free_for ws)); [apply same_registry_free|apply on_disk_same]).
Qed.

Lemma insert_exclusive a id m :
  exclusive a → (∀ id' m', a !! id' = Some m' → wl_workspace_id (ms_workspace m') ≠ wl_workspace_id (ms_workspace m)) →
  exclusive (<[id := m]> a).
Proof.
  intros He Hn i j x y. rewrite !lookup_insert. repeat case_decide; subst; intros; simplify_eq; try done.
  - by edestruct Hn.
  - by edestruct Hn.
  - by eapply He.
Qed.

Lemma insert_ok sandbox :
  session_ok (ss_sandbox_id (ms_summary sandbox)) sandbox →
  leads (free_for (wl_workspace_id (ms_workspace sandbox))) registry_ok (registry_insert sandbox).
Proof.
  intros Hs s [[Ha Hh He Hw] Hf]. constructor; try done.
  - simpl. by apply map_Forall_insert_2.
  - simpl. apply insert_exclusive; [done|]. intros id' m' Hm' Heq.
    assert (active_workspace (wl_workspace_id (ms_workspace sandbox)) s = true)
      by (apply active_workspace_spec; eauto). congruence.
Qed.

Lemma free_ok ws s : free_for ws s → registry_ok s.
Proof. by intros []. Qed.

Lemma on_disk_value {A} (m : M SandboxError World A) s a s' : on_disk m s = (Ok a, s') → (m (sv_world s)).1 = Ok a.
Proof. unfold on_disk, zoom. destruct (m (sv_world s)) as [r w] eqn:E. by intros [= -> _]. Qed.

(** A launch that starts with the workspace free keeps the registry in order. *)
Lemma create_launch_ok spec : leads (free_for (spec_workspace_id spec)) registry_ok (create_launch spec).
Proof.
  set (ws := spec_workspace_id spec). set (I := free_for ws).
  assert (HI : ∀ {A} (m : SM A), keeps same_registry m → keeps (preserves I) m).
  { intros A m. apply same_registry_keeps, same_registry_free. }
  pose proof (free_ok ws) as Hfree.
  unfold create_launch. apply leads_bind; [|exact Hfree|intros _ [] _ _].
  { destruct (spec_restore_commit spec); keeps_tac. apply HI, on_disk_same. }
  apply leads_bind; [apply HI, on_disk_same|exact Hfree|intros s1 workspace s1' Hws].
  assert (Hlease : wl_workspace_id workspace = ws).
  { apply on_disk_value in Hws. destruct (prepare_workspace _ _ _ _) as [r w'] eqn:Hp. simpl in Hws. subst r.
    by apply prepare_lease in Hp as ->. }
  apply leads_bind; [apply HI, on_disk_same|exact Hfree|intros _ image _ _].
  apply leads_bind; [apply acquire_run_free|exact Hfree|intros _ run _ _].
  apply leads_bind; [apply HI, launch_step_same|exact Hfree|intros _ [instance ep] _ _].
  apply leads_bind; [apply HI, launch_step_same|exact Hfree|intros _ g _ _].
  apply leads_bind; [apply HI, on_disk_same|exact Hfree|intros _ started _ _].
  apply leads_bind; [apply HI, on_guest_same|exact Hfree|intros _ baseline _ _].
  intros s Hs. cbv zeta.
  set (sandbox := ManagedSandbox_new _ _ _ _ _ _).
  apply (insert_ok sandbox); [unfold session_ok; by split_and!; simpl; [..|lia]|].
  simpl. by rewrite Hlease.
Qed.

Lemma create_guards_ok spec s u s' :
  create_guards spec s = (Ok u, s') →
  s' = s ∧ active_workspace (spec_workspace_id spec) s = false ∧
  (rc_isolation_mode config = Secure → network_enabled (spec_policy spec) = false).
Proof.
  unfold create_guards. destruct (_ && _) eqn:Hn; [done|]. unfold has_active_workspace, mbind, M_bind, gets. simpl.
  destruct (active_workspace _ s) eqn:Hw; [done|]. intros [= _ <-]. split_and!; [done|done|].
  intros Hs. rewrite bool_decide_true in Hn by done. done.
Qed.

Lemma create_sandbox_keeps spec : keeps (preserves registry_ok) (create_sandbox spec).
Proof.
  intros s Hok. unfold create_sandbox. destruct (create_guards spec s) as [[[]|e] s'] eqn:Hg.
  - erewrite bind_ok by exact Hg. apply create_guards_ok in Hg as (-> & Hf & _). by apply create_launch_ok.
  - erewrite bind_err by exact Hg. simpl. unfold create_guards in Hg. destruct (_ && _).
    + injection Hg as _ <-. done.
    + unfold has_active_workspace, mbind, M_bind, gets in Hg. destruct (active_workspace _ s); by injection Hg as _ <-.
Qed.

(** *** The other operations *)

Lemma with_guest_same {A} id (call : guest → M SandboxError (World * G) A) : keeps same_registry (with_guest id call).
Proof. unfold with_guest, active. keeps_tac. apply on_guest_same. Qed.

(** Shrinking the set of active sandboxes. *)
Lemma remove_active_keeps id : keeps (preserves registry_ok) (remove_active id).
Proof.
  intros s [Ha Hh He Hw]. unfold remove_active, mbind, M_bind, gets, modify, lift. simpl.
  constructor; simpl; try done.
  - by apply map_Forall_delete.
  - intros i j x y [_ Hx]%lookup_delete_Some [_ Hy]%lookup_delete_Some. by eapply He.
Qed.

Lemma trim_warm_length fuel n runs :
  length runs ≤ fuel → (Z.of_nat (length (trim_warm fuel n runs)) ≤ 0 `max` n)%Z.
Proof.
  revert runs. induction fuel as [|fuel IH]; intros runs Hl; simpl; [lia|].
  destruct (Z.ltb_spec n (Z.of_nat (length runs))); [|lia]. apply IH. rewrite length_drop. lia.
Qed.

Lemma trim_warm_last fuel n l x : (1 ≤ n)%Z → last (trim_warm fuel n (l ++ [x])) = Some x.
Proof.
  intros Hn. revert l. induction fuel as [|fuel IH]; intros l; cbn [trim_warm]; [by rewrite last_snoc|].
  destruct (Z.ltb_spec n (Z.of_nat (length (l ++ [x])))) as [Hl|]; [|by rewrite last_snoc].
  rewrite length_app in Hl. destruct l as [|y l]; [simpl in Hl; lia|]. apply (IH l).
Qed.

Lemma store_warm_keeps run :
  keeps (preserves registry_ok) (store_warm_run run (warm_pool_size (rc_lifecycle config))).
Proof.
  intros s [Ha Hh He Hw]. constructor; try done. simpl. by apply trim_warm_length.
Qed.

Lemma save_history_keeps record :
  record_ok (ss_sandbox_id (sr_summary record)) record → keeps (preserves registry_ok) (save_history record).
Proof. intros Hr s [Ha Hh He Hw]. constructor; try done. simpl. by apply map_Forall_insert_2. Qed.

Lemma same_keeps_ok {A} (m : SM A) : keeps same_registry m → keeps (preserves registry_ok) m.
Proof. apply same_registry_keeps, same_registry_ok. Qed.

Lemma destroy_sandbox_keeps id : keeps (preserves registry_ok) (destroy_sandbox id).
Proof.
  unfold destroy_sandbox, history_record. keeps_tac; try apply remove_active_keeps; try apply store_warm_keeps;
    try solve [apply same_keeps_ok; auto using best_effort_same, snapshot_same, on_disk_same, on_guest_same].
  apply save_history_keeps. split_and!; simpl; [done|done|eauto].
Qed.

(** Changing the permits of a session only. *)
Definition with_permits (n : nat) (m : ManagedSandbox) : ManagedSandbox :=
  mkManaged (ms_summary m) (ms_baseline m) (ms_run_layout m) (ms_workspace m) (ms_backend m) (ms_guest m) n.

Lemma alter_permits_ok (f : ManagedSandbox → nat) id s :
  (∀ m, sv_active s !! id = Some m → f m ≤ 1) → registry_ok s →
  registry_ok (set_active (alter (λ m, with_permits (f m) m) id (sv_active s)) s).
Proof.
  intros Hf [Ha Hh He Hw]. constructor; try done; simpl.
  - intros i m. rewrite lookup_alter. case_decide; [|by apply Ha]. subst.
    intros Hm. apply fmap_Some in Hm as (m0 & Hm0 & ->). destruct (Ha _ _ Hm0) as (?&?&?&?&?).
    split_and!; try done. simpl. by apply Hf.
  - intros i j x y. rewrite !lookup_alter. intros Hx Hy Hxy.
    assert (∃ x0, sv_active s !! i = Some x0 ∧ ms_workspace x0 = ms_workspace x) as (x0 & Hx0 & Hxe)
      by (clear Hy; case_decide; [subst; apply fmap_Some in Hx as (x0 & ? & ->)|]; eauto).
    assert (∃ y0, sv_active s !! j = Some y0 ∧ ms_workspace y0 = ms_workspace y) as (y0 & Hy0 & Hye)
      by (clear Hx; case_decide; [subst; apply fmap_Some in Hy as (y0 & ? & ->)|]; eauto).
    eapply He; [exact Hx0|exact Hy0|]. by rewrite Hxe, Hye.
Qed.

Lemma exec_keeps id request : keeps (preserves registry_ok) (exec id request).
Proof.
  intros s Hok. unfold exec, active, mbind, M_bind, gets, lift.
  destruct (sv_active s !! id) as [m|] eqn:Hm; cbn [ok_or]; [|done].
  unfold try_acquire_exec. destruct (ms_exec_permits m) as [|n] eqn:Hp; [done|]. cbn [modify].
  pose proof (ok_active _ Hok _ _ Hm) as (_&_&_&_&Hle). rewrite Hp in Hle.
  set (s1 := set_active _ s).
  assert (Hok1 : registry_ok s1).
  { apply (alter_permits_ok (λ _, n)); [|done]. lia. }
  assert (Hp1 : ∀ x, sv_active s1 !! id = Some x → ms_exec_permits x = n).
  { intros x. simpl. rewrite lookup_alter_eq, Hm. by intros [= <-]. }
  unfold attempt. pose proof (on_guest_same (guest_exec (ms_guest m) (with_default_timeout m request)) s1) as Hs.
  destruct (on_guest _ s1) as [[stream|e] s2]; cbn [snd] in Hs; pose proof (same_registry_ok _ _ Hs Hok1) as Hok2; [done|].
  cbn. apply (alter_permits_ok (λ m, S (ms_exec_permits m))); [|done].
  intros x Hx. rewrite (proj1 Hs) in Hx. rewrite (Hp1 x Hx). lia.
Qed.

(** Dropping the stream of a running command. *)
Definition drop_stream (sandbox_id : Uuid) : SM () :=
  o ← gets (λ s, sv_active s !! sandbox_id);
  match o with
  | Some m => if decide (ms_exec_permits m = 0) then release_exec sandbox_id else mret ()
  | None => mret ()
  end.

Lemma drop_stream_keeps id : keeps (preserves registry_ok) (drop_stream id).
Proof.
  intros s Hok. unfold drop_stream, mbind, M_bind, gets.
  destruct (sv_active s !! id) as [m|] eqn:Hm; [|done]. case_decide as Hp; [|done].
  apply (alter_permits_ok (λ m, S (ms_exec_permits m))); [|done].
  intros x Hx. simplify_eq. lia.
Qed.

(** The requests of [SandboxService]. *)
Inductive ServiceOp :=
  | SvCreate (spec : SandboxSpec)
  | SvDestroy (id : Uuid)
  | SvListFiles (id : Uuid) (p : string)
  | SvReadFile (id : Uuid) (p : string) (limit : Z)
  | SvWriteFile (id : Uuid) (p : string) (data : bytes) (create_parents : bool)
  | SvMakeDir (id : Uuid) (p : string) (recursive : bool)
  | SvRemovePath (id : Uuid) (p : string) (recursive : bool)
  | SvExec (id : Uuid) (request : ExecRequest)
  | SvDropStream (id : Uuid)
  | SvOpenShell (id : Uuid) (request : ShellRequest)
  | SvStats (id : Uuid)
  | SvSync (id : Uuid)
  | SvCapture (id : Uuid) (name : option string) (metadata : gmap string string)
  | SvRestore (ws id : string).

Definition serve (op : ServiceOp) : SM () :=
  match op with
  | SvCreate spec => (λ _, ()) <$> create_sandbox spec
  | SvDestroy id => (λ _, ()) <$> destroy_sandbox id
  | SvListFiles id p => (λ _, ()) <$> list_files id p
  | SvReadFile id p limit => (λ _, ()) <$> read_file id p limit
  | SvWriteFile id p data cp => write_file id p data cp
  | SvMakeDir id p r => make_dir id p r
  | SvRemovePath id p r => remove_path id p r
  | SvExec id request => (λ _, ()) <$> exec id request
  | SvDropStream id => drop_stream id
  | SvOpenShell id request => (λ _, ()) <$> open_shell id request
  | SvStats id => (λ _, ()) <$> runtime_stats id
  | SvSync id => sync_workspace id
  | SvCapture id name md => (λ _, ()) <$> capture_workspace_checkpoint id name md
  | SvRestore ws id => (λ _, ()) <$> restore_workspace_checkpoint ws id
  end.

Lemma capture_same id name md : keeps same_registry (capture_workspace_checkpoint id name md).
Proof. unfold capture_workspace_checkpoint, active. keeps_tac; auto using on_guest_same, on_disk_same. Qed.
Lemma restore_same ws id : keeps same_registry (restore_workspace_checkpoint ws id).
Proof. unfold restore_workspace_checkpoint, has_active_workspace. keeps_tac. apply on_disk_same. Qed.

Lemma serve_keeps op : keeps (preserves registry_ok) (serve op).
Proof.
  destruct op; cbn [serve]; try apply keeps_fmap;
    auto using create_sandbox_keeps, destroy_sandbox_keeps, exec_keeps, drop_stream_keeps;
    apply same_keeps_ok; first [apply capture_same|apply restore_same|apply with_guest_same].
Qed.

(** Requests served one after the other, each of which may fail. *)
Definition serve_all (ops : list ServiceOp) (s : Service) : Service :=
  foldl (λ s op, (serve op s).2) s ops.

Definition fresh_service (w : World) (g : G) : Service := mkService w g ∅ [] ∅.

Lemma fresh_service_ok w g : registry_ok (fresh_service w g).
Proof.
  constructor; simpl; [apply map_Forall_empty..| |lia]. by intros i j x y ?%lookup_empty_Some.
Qed.

(** C10: served one at a time, requests keep the registry in order, whatever the
    backend, the guests and the disk do: no workspace is ever attached to two
    active sandboxes, sessions are filed under their own identifiers, active
    ones have not ended and past ones have, a sandbox has at most one exec
    permit, and the pool of warm run directories stays within its bound. *)
Theorem registry_invariant ops w g : registry_ok (serve_all ops (fresh_service w g)).
Proof.
  unfold serve_all. generalize (fresh_service_ok w g). generalize (fresh_service w g).
  induction ops as [|op ops IH]; intros s Hs; simpl; [done|]. apply IH. by apply serve_keeps.
Qed.

(** ** Interleaved requests

    The service takes no lock across a launch: between the guards of a creation
    and its insertion into the registry, other requests run.  A configuration is
    the service and the creations that have passed their guards. *)

Definition Config : Type := list SandboxSpec * Service.

Inductive interleave : Config → Config → Prop :=
  | il_serve op pending s : interleave (pending, s) (pending, (serve op s).2)
  | il_begin spec pending s s' :
      create_guards spec s = (Ok (), s') → interleave (pending, s) (spec :: pending, s')
  | il_finish before spec after s :
      interleave (before ++ spec :: after, s) (before ++ after, (create_launch spec s).2).

Definition same_active (s s' : Service) : Prop := sv_active s' = sv_active s.

#[local] Instance same_active_preorder : PreOrder same_active.
Proof. split; unfold same_active; [done|]. intros a b c. congruence. Qed.

Lemma same_registry_active {A} (m : SM A) : keeps same_registry m → keeps same_active m.
Proof. apply keeps_impl. by intros s s' []. Qed.

Lemma acquire_run_active : keeps same_active acquire_run.
Proof.
  unfold acquire_run. apply keeps_bind; [typeclasses eauto|done|].
  intros [run|]; apply same_registry_active, on_disk_same.
Qed.

(** A creation that succeeds adds exactly one session, for the workspace and the
    policy it was asked for. *)
Lemma create_launch_inserts spec s r s' :
  create_launch spec s = (Ok r, s') →
  ∃ m, sv_active s' = <[ss_sandbox_id r := m]> (sv_active s) ∧
       wl_workspace_id (ms_workspace m) = spec_workspace_id spec ∧
       ss_policy r = spec_policy spec ∧ ms_summary m = r.
Proof.
  assert (HI : ∀ {A} (m : SM A), keeps same_registry m → keeps same_active m)
    by (intros; by apply same_registry_active).
  unfold create_launch. intros Hr.
  apply (bind_ok_keeps same_active) in Hr as (_ & s0 & E0 & _ & Hr).
  2: { destruct (spec_restore_commit spec); keeps_tac. apply HI, on_disk_same. }
  apply (bind_ok_keeps same_active) in Hr as (workspace & s1 & E1 & Hws & Hr); [|apply HI, on_disk_same].
  assert (Hlease : wl_workspace_id workspace = spec_workspace_id spec).
  { apply on_disk_value in Hws. destruct (prepare_workspace _ _ _ _) as [x w'] eqn:Hp. simpl in Hws. subst x.
    by apply prepare_lease in Hp as ->. }
  apply (bind_ok_keeps same_active) in Hr as (image & s2 & E2 & _ & Hr); [|apply HI, on_disk_same].
  apply (bind_ok_keeps same_active) in Hr as (run & s3 & E3 & _ & Hr); [|apply acquire_run_active].
  apply (bind_ok_keeps same_active) in Hr as ([instance ep] & s4 & E4 & _ & Hr); [|apply HI, launch_step_same].
  apply (bind_ok_keeps same_active) in Hr as (g & s5 & E5 & _ & Hr); [|apply HI, launch_step_same].
  apply (bind_ok_keeps same_active) in Hr as (started & s6 & E6 & _ & Hr); [|apply HI, on_disk_same].
  apply (bind_ok_keeps same_active) in Hr as (baseline & s7 & E7 & _ & Hr); [|apply HI, on_guest_same].
  assert (Es : sv_active s7 = sv_active s) by (unfold same_active in *; congruence).
  injection Hr as <- <-. rewrite <-Es. eexists. split; [reflexivity|]. by split_and!.
Qed.

(** interleaved creations break the exclusivity of workspaces: two creations
    for one workspace that both pass their guards before either is inserted,
    and whose launches both succeed, leave two active sandboxes on the same
    workspace disk. *)
Theorem interleaved_creates_share_workspace spec spec' s r s1 r' s2 :
  spec_workspace_id spec = spec_workspace_id spec' →
  create_guards spec s = (Ok (), s) → create_guards spec' s = (Ok (), s) →
  create_launch spec s = (Ok r, s1) → create_launch spec' s1 = (Ok r', s2) →
  ss_sandbox_id r ≠ ss_sandbox_id r' →
  rtc interleave ([], s) ([], s2) ∧ ¬ exclusive (sv_active s2).
Proof.
  intros Hws Hg Hg' Hl Hl' Hne. split.
  - eapply rtc_l; [apply (il_begin spec); exact Hg|].
    eapply rtc_l; [apply (il_begin spec'); exact Hg'|].
    eapply rtc_l; [apply (il_finish [spec'] spec [])|]. rewrite Hl. cbn.
    eapply rtc_l; [apply (il_finish [] spec' [])|]. rewrite Hl'. cbn. apply rtc_refl.
  - apply create_launch_inserts in Hl as (m & Ha & Hm & _ & _).
    apply create_launch_inserts in Hl' as (m' & Ha' & Hm' & _ & _).
    intros He. apply Hne. eapply (He _ _ m m'); rewrite ?Ha', ?Ha.
    + rewrite lookup_insert_ne by done. apply lookup_insert_eq.
    + apply lookup_insert_eq.
    + congruence.
Qed.

(** in secure isolation mode no sandbox is launched with networking, and a
    created session carries the policy that was asked for. *)
Theorem secure_sandboxes_have_no_network spec s r s' :
  create_sandbox spec s = (Ok r, s') →
  ss_policy r = spec_policy spec ∧
  (rc_isolation_mode config = Secure → network_enabled (ss_policy r) = false).
Proof.
  intros (u & s1 & Hg & Hl)%bind_ok_inv. apply create_guards_ok in Hg as (_ & _ & Hn).
  apply create_launch_inserts in Hl as (m & _ & _ & Hp & _). rewrite Hp. done.
Qed.

(** ** Destroying *)

Lemma remove_active_ok id s m s' :
  remove_active id s = (Ok m, s') → sv_active s !! id = Some m ∧ s' = set_active (delete id (sv_active s)) s.
Proof.
  unfold remove_active, mbind, M_bind, gets, modify, lift. destruct (sv_active s !! id); by intros [= <- <-].
Qed.

(** a destruction that reports success ends the session: the sandbox is no
    longer active, its record is in the history with an end time and with the
    changes against the baseline, its run directory is in the warm pool if the
    pool has room for one, and asking again returns the same record without
    doing anything. *)
Theorem destroy_sandbox_spec id m s r s' :
  sv_history s !! id = None → sv_active s !! id = Some m → ss_sandbox_id (ms_summary m) = id →
  destroy_sandbox id s = (Ok r, s') →
  sv_active s' !! id = None ∧ sv_history s' !! id = Some r ∧ record_ok id r ∧
  (∃ final, sr_changes r = diff (ms_baseline m) final) ∧
  ((1 ≤ warm_pool_size (rc_lifecycle config))%Z → last (sv_warm_runs s') = Some (ms_run_layout m)) ∧
  destroy_sandbox id s' = (Ok r, s').
Proof.
  intros Hh Ha Hid. unfold destroy_sandbox at 1, history_record, mbind at 1, M_bind at 1, gets. rewrite Hh. intros Hr.
  apply bind_ok_inv in Hr as (m' & s1 & [Hm' ->]%remove_active_ok & Hr). assert (m' = m) as -> by congruence.
  apply (bind_ok_keeps same_registry) in Hr as (_ & s2 & E2 & _ & Hr); [|apply best_effort_same].
  apply (bind_ok_keeps same_registry) in Hr as (final & s3 & E3 & _ & Hr); [|apply snapshot_same].
  apply (bind_ok_keeps same_registry) in Hr as (ended & s4 & E4 & _ & Hr); [|apply on_disk_same].
  apply (bind_ok_keeps same_registry) in Hr as (_ & s5 & E5 & _ & Hr); [|apply best_effort_same].
  apply (bind_ok_keeps same_registry) in Hr as (_ & s6 & E6 & _ & Hr); [|apply best_effort_same].
  apply (bind_ok_keeps same_registry) in Hr as (_ & s7 & E7 & _ & Hr); [|apply on_guest_same].
  assert (E : same_registry (set_active (delete id (sv_active s)) s) s7) by (repeat (etrans; [eassumption|]); done).
  destruct E as (Eact & Ehist & Ewarm). injection Hr as <- <-. cbn. rewrite Eact, Ehist, Ewarm. cbn.
  rewrite Hid. split; [apply lookup_delete_eq|]. split; [apply lookup_insert_eq|].
  split; [unfold record_ok; simpl; split_and!; eauto|]. split; [by exists final|]. split.
  - apply trim_warm_last.
  - unfold destroy_sandbox, history_record, mbind, M_bind, gets. cbn. by rewrite lookup_insert_eq.
Qed.

(** when the hypervisor fails to shut a machine down, the service forgets
    it: the call reports the error, and the sandbox is neither active nor in the
    history, so no later call can reach the machine that may still be running,
    and its workspace counts as free. *)
Theorem failed_shutdown_forgets_sandbox id m s e s' :
  sv_history s !! id = None → sv_active s !! id = Some m →
  destroy_sandbox id s = (Err e, s') →
  sv_active s' !! id = None ∧ sv_history s' !! id = None ∧
  destroy_sandbox id s' = (Err (unknown_sandbox id), s').
Proof.
  intros Hh Ha. unfold destroy_sandbox at 1, history_record, mbind at 1, M_bind at 1, gets. rewrite Hh. intros Hr.
  unfold mbind at 1, M_bind at 1 in Hr.
  assert (Hrm : remove_active id s = (Ok m, set_active (delete id (sv_active s)) s)).
  { unfold remove_active, mbind, M_bind, gets, modify, lift. by rewrite Ha. }
  rewrite Hrm in Hr. revert Hr. set (s1 := set_active _ s). intros Hr.
  assert (Hs : same_registry s1 s').
  { revert Hr. match goal with |- ?c s1 = _ → _ => enough (errs_keep same_registry c) as He by apply He end.
    apply errs_keep_bind; [typeclasses eauto|apply best_effort_same|intros _].
    apply errs_keep_bind; [typeclasses eauto|apply snapshot_same|intros final].
    apply errs_keep_bind; [typeclasses eauto|apply on_disk_same|intros ended].
    apply errs_keep_bind; [typeclasses eauto|apply best_effort_same|intros _].
    apply errs_keep_bind; [typeclasses eauto|apply best_effort_same|intros _].
    apply errs_keep_bind; [typeclasses eauto|apply on_guest_same|intros _]. done. }
  destruct Hs as (Hact & Hhist & _).
  assert (Hgone : sv_active s' !! id = None) by (rewrite Hact; apply lookup_delete_eq).
  assert (Hnone : sv_history s' !! id = None) by (by rewrite Hhist).
  split_and!; [done|done|]. unfold destroy_sandbox, history_record, remove_active, mbind, M_bind, gets, modify, lift.
  rewrite Hnone, Hgone. cbn. f_equal. rewrite delete_id by done. by destruct s'.
Qed.

(** ** Commands *)

(** one command at a time: while a sandbox runs a command, that is until its
    stream is dropped, another one is refused as a conflict without reaching the
    guest, and a command that fails to start gives its permit back. *)
Theorem exec_is_exclusive id request request' m s :
  sv_active s !! id = Some m → ms_exec_permits m = 1 →
  match exec id request s with
  | (Ok _, s') => exec id request' s' = (Err (Conflict "parallel exec is not supported for a running BOX"), s')
  | (Err _, s') => sv_active s' !! id = Some m
  end.
Proof.
  intros Hm Hp. unfold exec at 1, active, mbind, M_bind, gets, lift. rewrite Hm. cbn [ok_or].
  unfold try_acquire_exec. rewrite Hp. cbn [modify]. set (s1 := set_active _ s).
  assert (Hs1 : sv_active s1 !! id = Some (with_permits 0 m)) by (simpl; by rewrite lookup_alter_eq, Hm).
  unfold attempt. pose proof (on_guest_same (guest_exec (ms_guest m) (with_default_timeout m request)) s1) as (Ha & _).
  destruct (on_guest _ s1) as [[stream|e] s2]; cbn in Ha |- *.
  - unfold exec, active, mbind, M_bind, gets, lift. rewrite Ha, lookup_alter_eq, Hm. done.
  - rewrite lookup_alter_eq, Ha, lookup_alter_eq, Hm. cbn. destruct m; simpl in *; subst. done.
Qed.
End runtime.
