(* ===== verification/GuestBoot.v ===== *)
(** * GuestBoot: how a guest learns its configuration, and its network filter

    The daemon passes the policy of a sandbox to the agent on the kernel
    command line: [src/backend/libkrun/config.rs] writes it,
    [guest-agent/src/guest_agent/linux_boot.rs] and [bootstrap.rs] read it.
    Below, the seccomp program of [linux_seccomp.rs] that every process of a
    guest without network runs under, with the kernel's evaluation of it. *)

From S2P Require Import Prelude RustStd Text Config FileSystem Lineage Workspace Images Protocol Runtime.

(** ** The host's side: [src/backend/libkrun/config.rs] *)

Record LibkrunRunnerConfig := mkRunner {
  lk_kernel_image : string;
  lk_kernel_format : GuestKernelFormat;
  lk_rootfs_image : string;
  lk_cache_image : option path;
  lk_workspace_image : path;
  lk_runtime_dir : path;
  lk_console_output_path : path;
  lk_firmware : option string;
  lk_guest_agent_path : string;
  lk_cpu_cores : Z;
  lk_memory_mb : Z;
  lk_tmpfs_mib : Z;
  lk_max_processes : Z;
  lk_network_enabled : bool;
  lk_guest_uid : Z;
  lk_guest_gid : Z;
  lk_guest_vsock_port : Z;
  lk_vsock_socket : path;
  lk_isolation_mode : IsolationMode;
  lk_runner_log_limit_bytes : Z;
}.

Definition build_runner_config (request : BackendLaunchRequest) : LibkrunRunnerConfig :=
  let guest := bl_guest request in
  let policy := bl_policy request in
  mkRunner (kernel_image guest) (kernel_format guest) (rootfs_image guest) (bl_cache_image request)
    (wl_disk_path (bl_workspace request)) (rl_runtime_dir (bl_run_layout request))
    (rl_guest_console_log (bl_run_layout request)) (firmware guest) (guest_agent_path guest)
    (cpu_cores policy) (memory_mb policy) (guest_tmpfs_mib guest) (max_processes policy) (network_enabled policy)
    (guest_uid guest) (guest_gid guest) (guest_vsock_port guest) (rl_vsock_socket (bl_run_layout request))
    (bl_isolation_mode request) (runner_log_limit_bytes (bl_hardening request)).

Section cmdline.
Context `{Target}.

Definition uses_krun_init (c : LibkrunRunnerConfig) : bool :=
  on_linux && bool_decide (lk_firmware c = None) && bool_decide (lk_isolation_mode c = Compat).

Definition validate_secure_constraints (c : LibkrunRunnerConfig) : Result SandboxError () :=
  if decide (lk_isolation_mode c ≠ Secure) then Ok ()
  else if lk_network_enabled c then
    Err (InvalidConfig "secure isolation mode does not allow guest networking")
  else if uses_krun_init c then
    Err (InvalidConfig "secure isolation mode requires a direct block-root guest boot path; init.krun/virtiofs root is not allowed")
  else Ok ().

Definition root_device : string := "/dev/vda".

Definition cache_cmdline_arg (c : LibkrunRunnerConfig) : string :=
  match lk_cache_image c with Some _ => " sandbox.cache_device=/dev/vdc" | None => "" end.

(** [max_processes.saturating_mul(16).clamp(256, 4096)]; the bounds do not
    cross, so [clamp] does not panic. *)
Definition max_open_files (c : LibkrunRunnerConfig) : Z :=
  default 256%Z (clamp (saturating_mul u32_max (lk_max_processes c) 16) 256 4096).

Definition kernel_cmdline (c : LibkrunRunnerConfig) : string :=
  let common :=
    "sandbox.workspace_device=/dev/vdb sandbox.tmpfs_mib=" ^+ pretty (lk_tmpfs_mib c)
    ^+ " sandbox.uid=" ^+ pretty (lk_guest_uid c) ^+ " sandbox.gid=" ^+ pretty (lk_guest_gid c)
    ^+ " sandbox.max_processes=" ^+ pretty (lk_max_processes c)
    ^+ " sandbox.max_open_files=" ^+ pretty (max_open_files c)
    ^+ " sandbox.max_file_size_bytes=" ^+ pretty (16 * 1024 * 1024)%Z
    ^+ " sandbox.rpc_port=" ^+ pretty (lk_guest_vsock_port c)
    ^+ " sandbox.network_enabled=" ^+ pretty (if lk_network_enabled c then 1 else 0)%Z in
  if on_linux && uses_krun_init c then
    "reboot=k panic=-1 panic_print=0 nomodule console=hvc0 root=/dev/root rootfstype=virtiofs rw quiet no-kvmapf init=/init.krun "
    ^+ common ^+ cache_cmdline_arg c
  else
    let rpc_transport := if on_macos && target_x86_64 then " sandbox.rpc_transport=virtio-serial" else "" in
    "console=hvc0 root=" ^+ root_device ^+ " ro rootfstype=ext4 rootwait loglevel=8 ignore_loglevel "
    ^+ common ^+ rpc_transport ^+ cache_cmdline_arg c ^+ " panic=-1".
End cmdline.

(** ** The guest's side: [linux_boot.rs], [bootstrap.rs] *)

Inductive RpcTransport := Vsock | VirtioSerial.

Record BootConfig := mkBoot {
  bt_tmpfs_mib : Z;
  bt_uid : Z;
  bt_gid : Z;
  bt_max_processes : Z;
  bt_max_open_files : Z;
  bt_max_file_size_bytes : Z;
  bt_network_enabled : bool;
  bt_rpc_port : Z;
  bt_rpc_transport : RpcTransport;
}.

Definition default_boot : BootConfig := mkBoot 256 65534 65534 256 1024 (16 * 1024 * 1024) false 11000 Vsock.

Definition parse_field (top : Z) (value field : string) : Result SandboxError Z :=
  ok_or (InvalidConfig (field ^+ " must be an integer")) (parse_uint top value).

Definition parse_rpc_transport (value : string) : Result SandboxError RpcTransport :=
  let v := to_ascii_lowercase (trim value) in
  if decide (v = "vsock") then Ok Vsock
  else if decide (v = "virtio-serial") then Ok VirtioSerial
  else if decide (v = "virtio_serial") then Ok VirtioSerial
  else Err (InvalidConfig "sandbox.rpc_transport must be one of: vsock, virtio-serial").

(** One turn of the loop of [from_cmdline]: the first prefix that fits. *)
Definition boot_token (c : BootConfig) (token : string) : Result SandboxError BootConfig :=
  let '(mkBoot tmpfs uid gid procs files fsize net port transport) := c in
  match strip_prefix "sandbox.tmpfs_mib=" token with
  | Some v => x ← parse_field u32_max v "sandbox.tmpfs_mib"; Ok (mkBoot x uid gid procs files fsize net port transport)
  | None =>
  match strip_prefix "sandbox.uid=" token with
  | Some v => x ← parse_field u32_max v "sandbox.uid"; Ok (mkBoot tmpfs x gid procs files fsize net port transport)
  | None =>
  match strip_prefix "sandbox.gid=" token with
  | Some v => x ← parse_field u32_max v "sandbox.gid"; Ok (mkBoot tmpfs uid x procs files fsize net port transport)
  | None =>
  match strip_prefix "sandbox.max_processes=" token with
  | Some v => x ← parse_field u32_max v "sandbox.max_processes"; Ok (mkBoot tmpfs uid gid x files fsize net port transport)
  | None =>
  match strip_prefix "sandbox.max_open_files=" token with
  | Some v => x ← parse_field u32_max v "sandbox.max_open_files"; Ok (mkBoot tmpfs uid gid procs x fsize net port transport)
  | None =>
  match strip_prefix "sandbox.max_file_size_bytes=" token with
  | Some v => x ← parse_field u64_max v "sandbox.max_file_size_bytes"; Ok (mkBoot tmpfs uid gid procs files x net port transport)
  | None =>
  match strip_prefix "sandbox.network_enabled=" token with
  | Some v => x ← parse_field u32_max v "sandbox.network_enabled";
              Ok (mkBoot tmpfs uid gid procs files fsize (negb (x =? 0)%Z) port transport)
  | None =>
  match strip_prefix "sandbox.rpc_port=" token with
  | Some v => x ← parse_field u32_max v "sandbox.rpc_port"; Ok (mkBoot tmpfs uid gid procs files fsize net x transport)
  | None =>
  match strip_prefix "sandbox.rpc_transport=" token with
  | Some v => x ← parse_rpc_transport v; Ok (mkBoot tmpfs uid gid procs files fsize net port x)
  | None => Ok c
  end end end end end end end end end.

Fixpoint boot_tokens (c : BootConfig) (tokens : list string) : Result SandboxError BootConfig :=
  match tokens with
  | [] => Ok c
  | t :: rest => c' ← boot_token c t; boot_tokens c' rest
  end.

(** [from_cmdline] on the contents of [/proc/cmdline]. *)
Definition from_cmdline (cmdline : string) : Result SandboxError BootConfig :=
  boot_tokens default_boot (split_whitespace cmdline).

Definition cmdline_value (cmdline prefix : string) : option string :=
  head (omap (strip_prefix prefix) (split_whitespace cmdline)).

Definition read_workspace_device (cmdline : string) : string :=
  default "/dev/vdb" (cmdline_value cmdline "sandbox.workspace_device=").
Definition read_cache_device (cmdline : string) : option string := cmdline_value cmdline "sandbox.cache_device=".

(** ** The seccomp filter: [linux_seccomp.rs] *)

(** [struct sock_filter] and [struct seccomp_data] (arguments at their low and
    high words, little-endian). *)
Record sock_filter := mkInsn { bpf_code : Z; bpf_jt : nat; bpf_jf : nat; bpf_k : Z }.
Record seccomp_data := mkSeccomp { sd_nr : Z; sd_arch : Z; sd_args : list Z }.

(** The constants of [libc]. *)
Definition BPF_LD_W_ABS : Z := Z.lor (Z.lor 0 0) 32.
Definition BPF_JMP_JEQ_K : Z := Z.lor (Z.lor 5 16) 0.
Definition BPF_RET_K : Z := Z.lor 6 0.
Definition SECCOMP_RET_KILL_PROCESS : Z := 2147483648.
Definition SECCOMP_RET_ERRNO : Z := 327680.
Definition SECCOMP_RET_ALLOW : Z := 2147418112.
Definition EPERM : Z := 1.
Definition AF_UNIX : Z := 1.
Definition AF_NETLINK : Z := 16.

(** The architecture the agent was built for. *)
Inductive Arch := X86_64 | Aarch64.
Definition SYS_socket (a : Arch) : Z := match a with X86_64 => 41 | Aarch64 => 198 end.
Definition seccomp_audit_arch (a : Arch) : Z := match a with X86_64 => 3221225534 | Aarch64 => 3221225655 end.

Definition SECCOMP_DATA_NR_OFFSET : Z := 0.
Definition SECCOMP_DATA_ARCH_OFFSET : Z := 4.
Definition SECCOMP_DATA_ARG0_OFFSET : Z := 16.

Definition bpf_stmt (code k : Z) : sock_filter := mkInsn code 0 0 k.
Definition bpf_jump (code k : Z) (jt jf : nat) : sock_filter := mkInsn code jt jf k.

Definition build_no_network_seccomp_filter (a : Arch) : list sock_filter :=
  [ bpf_stmt BPF_LD_W_ABS SECCOMP_DATA_ARCH_OFFSET;
    bpf_jump BPF_JMP_JEQ_K (seccomp_audit_arch a) 1 0;
    bpf_stmt BPF_RET_K SECCOMP_RET_KILL_PROCESS;
    bpf_stmt BPF_LD_W_ABS SECCOMP_DATA_NR_OFFSET;
    bpf_jump BPF_JMP_JEQ_K (SYS_socket a) 0 5;
    bpf_stmt BPF_LD_W_ABS SECCOMP_DATA_ARG0_OFFSET;
    bpf_jump BPF_JMP_JEQ_K AF_UNIX 2 0;
    bpf_jump BPF_JMP_JEQ_K AF_NETLINK 1 0;
    bpf_stmt BPF_RET_K (Z.lor SECCOMP_RET_ERRNO EPERM);
    bpf_stmt BPF_RET_K SECCOMP_RET_ALLOW;
    bpf_stmt BPF_RET_K SECCOMP_RET_ALLOW ].

(** The kernel's evaluation of the instructions used: a 32-bit load from the
    system call's data, a forward jump on equality, a return.  A jump is over
    what follows, so a program ends within its length. *)
Definition load_word (d : seccomp_data) (offset : Z) : option Z :=
  if decide (offset = 0)%Z then Some (Z.land (sd_nr d) u32_max)
  else if decide (offset = 4)%Z then Some (Z.land (sd_arch d) u32_max)
  else if decide (offset = 16)%Z then (λ x, Z.land x u32_max) <$> sd_args d !! 0
  else None.

Fixpoint bpf_run (fuel : nat) (program : list sock_filter) (acc : Z) (d : seccomp_data) : option Z :=
  match fuel, program with
  | S fuel', i :: rest =>
      if decide (bpf_code i = BPF_LD_W_ABS) then x ← load_word d (bpf_k i); bpf_run fuel' rest x d
      else if decide (bpf_code i = BPF_JMP_JEQ_K) then
        bpf_run fuel' (drop (if (acc =? bpf_k i)%Z then bpf_jt i else bpf_jf i) rest) acc d
      else if decide (bpf_code i = BPF_RET_K) then Some (bpf_k i)
      else None
  | _, _ => None
  end.
Definition seccomp_verdict (program : list sock_filter) (d : seccomp_data) : option Z :=
  bpf_run (length program) program 0 d.

(** ** The command line as words *)

Section boot_props.
Context `{Target}.

Definition policy_words (tmpfs uid gid procs files fsize port net : string) : list string :=
  [ "sandbox.workspace_device=/dev/vdb"; "sandbox.tmpfs_mib=" ^+ tmpfs; "sandbox.uid=" ^+ uid; "sandbox.gid=" ^+ gid;
    "sandbox.max_processes=" ^+ procs; "sandbox.max_open_files=" ^+ files; "sandbox.max_file_size_bytes=" ^+ fsize;
    "sandbox.rpc_port=" ^+ port; "sandbox.network_enabled=" ^+ net ].

Definition cmdline_words (c : LibkrunRunnerConfig) : list string :=
  let policy := policy_words (pretty (lk_tmpfs_mib c)) (pretty (lk_guest_uid c)) (pretty (lk_guest_gid c))
    (pretty (lk_max_processes c)) (pretty (max_open_files c)) (pretty (16 * 1024 * 1024)%Z)
    (pretty (lk_guest_vsock_port c)) (pretty (if lk_network_enabled c then 1 else 0)%Z) in
  let cache := match lk_cache_image c with Some _ => ["sandbox.cache_device=/dev/vdc"] | None => [] end in
  if on_linux && uses_krun_init c then
    ["reboot=k"; "panic=-1"; "panic_print=0"; "nomodule"; "console=hvc0"; "root=/dev/root"; "rootfstype=virtiofs";
     "rw"; "quiet"; "no-kvmapf"; "init=/init.krun"] ++ policy ++ cache
  else
    ["console=hvc0"; "root=/dev/vda"; "ro"; "rootfstype=ext4"; "rootwait"; "loglevel=8"; "ignore_loglevel"] ++ policy ++
    (if on_macos && target_x86_64 then ["sandbox.rpc_transport=virtio-serial"] else []) ++ cache ++ ["panic=-1"].

Lemma kernel_cmdline_words c : kernel_cmdline c = unwords (cmdline_words c).
Proof.
  unfold kernel_cmdline, cmdline_words, cache_cmdline_arg, root_device.
  generalize (pretty (lk_tmpfs_mib c)) (pretty (lk_guest_uid c)) (pretty (lk_guest_gid c)) (pretty (lk_max_processes c))
    (pretty (max_open_files c)) (pretty (16 * 1024 * 1024)%Z) (pretty (lk_guest_vsock_port c))
    (pretty (if lk_network_enabled c then 1 else 0)%Z). intros.
  destruct (on_linux && uses_krun_init c), (on_macos && target_x86_64), (lk_cache_image c);
    cbv [policy_words unwords app]; rewrite ?string_app_assoc, ?string_app_nil_r; reflexivity.
Qed.

Lemma word_pretty (s : string) z : all_chars graphic s = true → s ≠ "" → (0 ≤ z)%Z →
  s ^+ pretty z ≠ "" ∧ all_chars graphic (s ^+ pretty z) = true.
Proof.
  intros Hs Hne Hz. split; [by destruct s|]. rewrite all_chars_app, Hs.
  apply (all_chars_impl is_ascii_digit); [apply graphic_digit|by apply pretty_digits].
Qed.

(** The numbers of a runner configuration fit their types. *)
Definition runner_numbers_ok (c : LibkrunRunnerConfig) : Prop :=
  is_u32 (lk_tmpfs_mib c) ∧ is_u32 (lk_guest_uid c) ∧ is_u32 (lk_guest_gid c) ∧ is_u32 (lk_max_processes c) ∧
  is_u32 (lk_guest_vsock_port c).

Lemma max_open_files_bounds c : (256 ≤ max_open_files c ≤ 4096)%Z.
Proof.
  unfold max_open_files, clamp. simpl. repeat case_match; simpl; rewrite ?Z.ltb_lt, ?Z.ltb_ge in *; lia.
Qed.

Lemma cmdline_words_split c :
  runner_numbers_ok c → split_whitespace (kernel_cmdline c ^+ String line_feed "") = cmdline_words c.
Proof.
  intros (H1 & H2 & H3 & H4 & H5). pose proof (max_open_files_bounds c). unfold is_u32 in *.
  rewrite kernel_cmdline_words. apply split_unwords; [unfold cmdline_words; by case_match|].
  assert (Forall (λ w, w ≠ "" ∧ all_chars graphic w = true)
    (policy_words (pretty (lk_tmpfs_mib c)) (pretty (lk_guest_uid c)) (pretty (lk_guest_gid c))
      (pretty (lk_max_processes c)) (pretty (max_open_files c)) (pretty (16 * 1024 * 1024)%Z)
      (pretty (lk_guest_vsock_port c)) (pretty (if lk_network_enabled c then 1 else 0)%Z))) as Hp.
  { unfold policy_words. repeat (constructor; [first [done|apply word_pretty; [done..|destruct (lk_network_enabled c); lia]]|]).
    constructor. }
  unfold cmdline_words.
  destruct (on_linux && uses_krun_init c), (on_macos && target_x86_64), (lk_cache_image c);
    rewrite !Forall_app; split_and?; try done; by repeat constructor.
Qed.

(** ** Reading the words *)

Lemma parse_field_pretty top z field : (0 ≤ z ≤ top)%Z → parse_field top (pretty z) field = Ok z.
Proof. intros Hz. unfold parse_field. by rewrite parse_uint_pretty. Qed.

(** The agent's configuration after the words of the policy. *)
Lemma boot_policy c rest tmpfs uid gid procs files fsize port net :
  is_u32 tmpfs → is_u32 uid → is_u32 gid → is_u32 procs → is_u32 files → is_u64 fsize → is_u32 port → is_u32 net →
  boot_tokens c (policy_words (pretty tmpfs) (pretty uid) (pretty gid) (pretty procs) (pretty files) (pretty fsize)
    (pretty port) (pretty net) ++ rest) =
  boot_tokens (mkBoot tmpfs uid gid procs files fsize (negb (net =? 0)%Z) port (bt_rpc_transport c)) rest.
Proof.
  intros H1 H2 H3 H4 H5 H6 H7 H8. destruct c.
  pose proof (λ f, parse_field_pretty _ _ f H1) as P1. pose proof (λ f, parse_field_pretty _ _ f H2) as P2.
  pose proof (λ f, parse_field_pretty _ _ f H3) as P3. pose proof (λ f, parse_field_pretty _ _ f H4) as P4.
  pose proof (λ f, parse_field_pretty _ _ f H5) as P5. pose proof (λ f, parse_field_pretty _ _ f H6) as P6.
  pose proof (λ f, parse_field_pretty _ _ f H7) as P7. pose proof (λ f, parse_field_pretty _ _ f H8) as P8.
  revert P1 P2 P3 P4 P5 P6 P7 P8.
  generalize (pretty tmpfs) (pretty uid) (pretty gid) (pretty procs) (pretty files) (pretty fsize) (pretty port) (pretty net).
  intros s1 s2 s3 s4 s5 s6 s7 s8 P1 P2 P3 P4 P5 P6 P7 P8.
  unfold policy_words. cbn [app]. repeat (cbn [boot_tokens];
    match goal with |- context [boot_token ?c ?t] =>
      let r := eval lazy -[parse_field u32_max u64_max mbind] in (boot_token c t) in change (boot_token c t) with r end;
    rewrite ?P1, ?P2, ?P3, ?P4, ?P5, ?P6, ?P7, ?P8; cbn [mbind Result_bind]).
  done.
Qed.

(** The transport the host chose for a guest. *)
Definition boot_transport (c : LibkrunRunnerConfig) : RpcTransport :=
  if on_linux && uses_krun_init c then Vsock else if on_macos && target_x86_64 then VirtioSerial else Vsock.

Lemma from_cmdline_kernel c :
  runner_numbers_ok c →
  from_cmdline (kernel_cmdline c ^+ String line_feed "") =
    Ok (mkBoot (lk_tmpfs_mib c) (lk_guest_uid c) (lk_guest_gid c) (lk_max_processes c) (max_open_files c)
         (16 * 1024 * 1024) (lk_network_enabled c) (lk_guest_vsock_port c) (boot_transport c)).
Proof.
  intros Hc. unfold from_cmdline. rewrite cmdline_words_split by done. unfold cmdline_words, boot_transport.
  destruct Hc as (H1 & H2 & H3 & H4 & H5). pose proof (max_open_files_bounds c) as Hf.
  assert (is_u32 (max_open_files c)) by (unfold is_u32, u32_max; lia).
  assert (is_u64 (16 * 1024 * 1024)) by (unfold is_u64, u64_max; lia).
  assert (is_u32 (if lk_network_enabled c then 1 else 0)) by (unfold is_u32, u32_max; case_match; lia).
  assert (Hnet : negb ((if lk_network_enabled c then 1 else 0) =? 0)%Z = lk_network_enabled c) by by case_match.
  destruct (on_linux && uses_krun_init c).
  - match goal with |- boot_tokens _ (_ ++ ?l) = _ => etrans; [exact (eq_refl (boot_tokens default_boot l))|] end.
    rewrite boot_policy, Hnet by done. by destruct (lk_cache_image c).
  - match goal with |- boot_tokens _ (_ ++ ?l) = _ => etrans; [exact (eq_refl (boot_tokens default_boot l))|] end.
    rewrite boot_policy, Hnet by done. by destruct (on_macos && target_x86_64), (lk_cache_image c).
Qed.

(** The devices the guest mounts are the disks the host attached. *)
Lemma devices_kernel c :
  runner_numbers_ok c →
  read_workspace_device (kernel_cmdline c ^+ String line_feed "") = "/dev/vdb" ∧
  read_cache_device (kernel_cmdline c ^+ String line_feed "") = (λ _, "/dev/vdc") <$> lk_cache_image c.
Proof.
  intros Hc. unfold read_workspace_device, read_cache_device, cmdline_value. rewrite !cmdline_words_split by done.
  unfold cmdline_words, policy_words.
  generalize (pretty (lk_tmpfs_mib c)) (pretty (lk_guest_uid c)) (pretty (lk_guest_gid c)) (pretty (lk_max_processes c))
    (pretty (max_open_files c)) (pretty (16 * 1024 * 1024)%Z) (pretty (lk_guest_vsock_port c))
    (pretty (if lk_network_enabled c then 1 else 0)%Z). intros.
  by destruct (on_linux && uses_krun_init c), (on_macos && target_x86_64), (lk_cache_image c).
Qed.

(** the agent boots with the policy the daemon launched the sandbox with: whatever the
    request, reading [/proc/cmdline] in the guest gives back the process limit, the user and
    group, the size of [/tmp], the RPC port, the transport and whether there is network, and
    the workspace and cache devices are the disks that were attached. *)
Theorem boot_config_roundtrip request :
  let c := build_runner_config request in
  let cmdline := kernel_cmdline c ^+ String line_feed "" in
  runner_numbers_ok c →
  from_cmdline cmdline =
    Ok (mkBoot (guest_tmpfs_mib (bl_guest request)) (guest_uid (bl_guest request)) (guest_gid (bl_guest request))
         (max_processes (bl_policy request)) (max_open_files c) (16 * 1024 * 1024)
         (network_enabled (bl_policy request)) (guest_vsock_port (bl_guest request)) (boot_transport c)) ∧
  read_workspace_device cmdline = "/dev/vdb" ∧
  read_cache_device cmdline = (λ _, "/dev/vdc") <$> bl_cache_image request.
Proof.
  intros c cmdline Hc. split; [exact (from_cmdline_kernel c Hc)|]. exact (devices_kernel c Hc).
Qed.

(** in secure isolation mode the runner refuses a configuration with network or with a root
    shared from the host, so an agent that boots has no network and applies the filter. *)
Theorem secure_guest_filters_network request :
  let c := build_runner_config request in
  runner_numbers_ok c → bl_isolation_mode request = Secure → validate_secure_constraints c = Ok () →
  uses_krun_init c = false ∧
  ∃ boot, from_cmdline (kernel_cmdline c ^+ String line_feed "") = Ok boot ∧ bt_network_enabled boot = false.
Proof.
  intros c Hc Hm Hv. unfold validate_secure_constraints in Hv.
  rewrite decide_False in Hv by (simpl; naive_solver). destruct (lk_network_enabled c) eqn:Hn; [done|].
  destruct (uses_krun_init c) eqn:Hk; [done|]. split; [done|].
  rewrite from_cmdline_kernel by done. eexists. split; [done|]. exact Hn.
Qed.
End boot_props.

(** ** The filter *)

Lemma bpf_load fuel k rest acc d :
  bpf_run (S fuel) (bpf_stmt BPF_LD_W_ABS k :: rest) acc d = (x ← load_word d k; bpf_run fuel rest x d).
Proof. done. Qed.
Lemma bpf_jeq fuel k jt jf rest acc d :
  bpf_run (S fuel) (bpf_jump BPF_JMP_JEQ_K k jt jf :: rest) acc d =
  bpf_run fuel (drop (if (acc =? k)%Z then jt else jf) rest) acc d.
Proof. done. Qed.
Lemma bpf_ret fuel k rest acc d : bpf_run (S fuel) (bpf_stmt BPF_RET_K k :: rest) acc d = Some k.
Proof. done. Qed.

Lemma load_nr d : load_word d SECCOMP_DATA_NR_OFFSET = Some (Z.land (sd_nr d) u32_max).
Proof. done. Qed.
Lemma load_arch d : load_word d SECCOMP_DATA_ARCH_OFFSET = Some (Z.land (sd_arch d) u32_max).
Proof. done. Qed.
Lemma load_arg0 d : load_word d SECCOMP_DATA_ARG0_OFFSET = (λ x, Z.land x u32_max) <$> sd_args d !! 0.
Proof. done. Qed.

(** what a filtered process may call: under the architecture the agent was built for,
    [socket] is refused with [EPERM] unless its domain, read as the kernel reads it (the
    low 32 bits), is [AF_UNIX] or [AF_NETLINK]; every other system call number is let
    through; a call under another architecture kills the process.  The program always
    comes to a verdict. *)
Theorem no_network_filter_verdict a d x args :
  sd_args d = x :: args →
  seccomp_verdict (build_no_network_seccomp_filter a) d =
    Some (if (Z.land (sd_arch d) u32_max =? seccomp_audit_arch a)%Z then
            if (Z.land (sd_nr d) u32_max =? SYS_socket a)%Z then
              if (Z.land x u32_max =? AF_UNIX)%Z || (Z.land x u32_max =? AF_NETLINK)%Z then SECCOMP_RET_ALLOW
              else Z.lor SECCOMP_RET_ERRNO EPERM
            else SECCOMP_RET_ALLOW
          else SECCOMP_RET_KILL_PROCESS).
Proof.
  intros Hx. unfold seccomp_verdict, build_no_network_seccomp_filter. cbn [length].
  rewrite bpf_load, load_arch. cbn [mbind option_bind]. rewrite bpf_jeq. destruct (_ =? seccomp_audit_arch a)%Z; cbn [drop]; [|by rewrite bpf_ret].
  rewrite bpf_load, load_nr. cbn [mbind option_bind]. rewrite bpf_jeq.
  destruct (_ =? SYS_socket a)%Z; cbn [drop]; [|by rewrite bpf_ret].
  rewrite bpf_load, load_arg0, Hx. cbn [lookup list_lookup fmap option_fmap option_map mbind option_bind]. rewrite bpf_jeq.
  destruct (_ =? AF_UNIX)%Z; cbn [drop orb]; [by rewrite bpf_ret|]. rewrite bpf_jeq.
  destruct (_ =? AF_NETLINK)%Z; cbn [drop]; by rewrite bpf_ret.
Qed.

(** the filter does not know the second system call table of x86-64: [socket] of the x32
    ABI, which has the same architecture and bit 30 set in its number, is let through for
    every domain, the internet families included. *)
Theorem x32_socket_passes_filter x args :
  seccomp_verdict (build_no_network_seccomp_filter X86_64)
    (mkSeccomp (Z.lor (SYS_socket X86_64) 1073741824) (seccomp_audit_arch X86_64) (x :: args)) =
  Some SECCOMP_RET_ALLOW.
Proof. reflexivity. Qed.
