(* ===== verification/GuestExec.v ===== *)
(** * GuestExec: the processes a guest starts, [guest-agent/src/guest_agent/linux_exec.rs]

    How a command is prepared, and how the agent waits for one with a timeout.
    A child is its reaction to signals: when it exits, and how, given the
    signals it was sent and when. *)

From S2P Require Import Prelude RustStd Text Paths FileSystem Config Protocol GuestBoot.

(** ** Preparing a command *)

Inductive Resource := RLIMIT_NPROC | RLIMIT_NOFILE | RLIMIT_CORE | RLIMIT_FSIZE.

(** A [Command] with what its [pre_exec] does in the child: both limits of a
    resource, the seccomp filter, a session of its own. *)
Record Command := mkCommand {
  cmd_program : string;
  cmd_args : list string;
  cmd_cwd : PathBuf;
  cmd_env : gmap string string;
  cmd_uid : Z;
  cmd_gid : Z;
  cmd_rlimits : list (Resource * Z);
  cmd_seccomp : bool;
  cmd_setsid : bool;
}.

Definition apply_process_limits (max_processes max_open_files max_file_size_bytes : Z) : list (Resource * Z) :=
  [(RLIMIT_NPROC, max_processes); (RLIMIT_NOFILE, max_open_files); (RLIMIT_CORE, 0%Z); (RLIMIT_FSIZE, max_file_size_bytes)].

Definition workspace_root : PathBuf := [RootDir; Normal "workspace"].

(** [configure_command], and the [pre_exec] both callers install. *)
Definition configure_command (program : string) (args : list string) (env : gmap string string) (cwd : string)
    (config : BootConfig) : Result SandboxError Command :=
  cwd ← resolve_workspace_path workspace_root cwd;
  Ok (mkCommand program args cwd
    (env ∪ <["HOME" := "/workspace"]> (<["USER" := "sandbox"]> (<["TMPDIR" := "/tmp"]>
       {["NO_PROXY" := if bt_network_enabled config then "" else "*"]})))
    (bt_uid config) (bt_gid config)
    (apply_process_limits (bt_max_processes config) (bt_max_open_files config) (bt_max_file_size_bytes config))
    (negb (bt_network_enabled config)) true).

(** ** Waiting *)

Inductive Signal := SIGTERM | SIGKILL.

#[global] Instance Signal_eq_decision : EqDecision Signal.
Proof. solve_decision. Defined.

(** What [Child::wait] gives: the exit code, [None] after a signal, or an error. *)
Inductive Waited := WExited (code : option Z) | WError.

Record Child := mkChild { exits : list (Z * Signal) → option (Z * Waited) }.

(** The clock, the signals sent so far, and whether the child was reaped. *)
Record Clock := mkClock { ck_now : Z; ck_sent : list (Z * Signal); ck_reaped : bool }.

(** [child.lock().await.wait().await]; [None] when the child never exits. *)
Definition wait (ch : Child) (c : Clock) : option (Waited * Clock) :=
  '(te, w) ← exits ch (ck_sent c); Some (w, mkClock (ck_now c `max` te)%Z (ck_sent c) true).

(** [tokio::time::timeout(ms, wait_child_exit(child))]. *)
Definition wait_timeout (ch : Child) (ms : Z) (c : Clock) : option Waited * Clock :=
  match exits ch (ck_sent c) with
  | Some (te, w) =>
      if (te <=? ck_now c + ms)%Z then (Some w, mkClock (ck_now c `max` te)%Z (ck_sent c) true)
      else (None, mkClock (ck_now c + ms)%Z (ck_sent c) (ck_reaped c))
  | None => (None, mkClock (ck_now c + ms)%Z (ck_sent c) (ck_reaped c))
  end.

(** [send_process_group_signal]: a child that was reaped has no pid; one that
    was not is there to be signalled, if only as a zombie. *)
Definition send_process_group_signal (s : Signal) (c : Clock) : Result SandboxError () * Clock :=
  if ck_reaped c then (Err (Backend "guest child has no pid"), c)
  else (Ok (), mkClock (ck_now c) (ck_sent c ++ [(ck_now c, s)]) false).

(** [force_kill]: the group, then [Child::kill], which kills the child itself
    and waits for it. *)
Definition force_kill (ch : Child) (c : Clock) : option Clock :=
  let c1 := (send_process_group_signal SIGKILL c).2 in
  if ck_reaped c1 then Some c1
  else '(_, c2) ← wait ch (mkClock (ck_now c1) (ck_sent c1 ++ [(ck_now c1, SIGKILL)]) false); Some c2.

Definition exit_status (w : Waited) : ExecExit :=
  match w with
  | WExited (Some code) => if (code =? 0)%Z then Success else ExitCode code
  | WExited None => ExitCode (-1)
  | WError => Killed
  end.

Definition wait_child_result (ch : Child) (c : Clock) : option (ExecExit * Clock) :=
  '(w, c') ← wait ch c; Some (exit_status w, c').

Definition wait_exec_status (ch : Child) (timeout_ms : option Z) (kill_grace_ms : Z) (c : Clock) :
    option (ExecExit * Clock) :=
  match timeout_ms with
  | Some ms =>
      match wait_timeout ch ms c with
      | (Some _, c1) => wait_child_result ch c1
      | (None, c1) =>
          let '(sent, c2) := send_process_group_signal SIGTERM c1 in
          let '(graceful, c3) :=
            match sent with Ok _ => wait_timeout ch kill_grace_ms c2 | Err _ => (None, c2) end in
          match graceful with
          | Some _ => Some (ExecTimeout, c3)
          | None => c4 ← force_kill ch c3; '(_, c5) ← wait ch c4; Some (Killed, c5)
          end
      end
  | None => wait_child_result ch c
  end.

(** The waiter of a shell. *)
Definition shell_code (w : Waited) : Z := match w with WExited (Some code) => code | _ => (-1)%Z end.

(** ** What a child is *)

(** Signals act forward in time: one sent at [t] changes no exit up to [t], and
    an exit it brings about comes after it; a killed child has exited
    [latency] after the kill. *)
Record child_laws (latency : Z) (ch : Child) : Prop := {
  signal_late sent t s te w :
    exits ch sent = Some (te, w) → (te ≤ t)%Z → exits ch (sent ++ [(t, s)]) = Some (te, w);
  signal_forward sent t s te w :
    exits ch (sent ++ [(t, s)]) = Some (te, w) → exits ch sent = Some (te, w) ∨ (t ≤ te)%Z;
  kill_certain sent t :
    Forall (λ ts, (ts.1 ≤ t)%Z) sent →
    ∃ te w, exits ch (sent ++ [(t, SIGKILL)]) = Some (te, w) ∧ (te ≤ t + latency)%Z;
}.

(** ** Properties *)

Section waiting.
Context (latency : Z) (ch : Child) (Hch : child_laws latency ch) (Hlat : (0 ≤ latency)%Z).

Lemma wait_again c w c' : wait ch c = Some (w, c') → wait ch c' = Some (w, c').
Proof using.
  unfold wait. destruct (exits ch (ck_sent c)) as [[te w0]|] eqn:E; [|done]. simpl. intros [= <- <-]. simpl. rewrite E.
  simpl. do 2 f_equal. f_equal. lia.
Qed.

(** Killing always ends the wait, soon. *)
Lemma force_kill_ends c :
  ck_reaped c = false → Forall (λ ts, (ts.1 ≤ ck_now c)%Z) (ck_sent c) →
  ∃ c', force_kill ch c = Some c' ∧ (ck_now c ≤ ck_now c' ≤ ck_now c + latency)%Z ∧
    ∃ te w, exits ch (ck_sent c') = Some (te, w) ∧ (te ≤ ck_now c')%Z.
Proof using Hch Hlat.
  intros Hr Hpast. unfold force_kill, send_process_group_signal. rewrite Hr. simpl. unfold wait. simpl.
  destruct (kill_certain _ _ Hch (ck_sent c ++ [(ck_now c, SIGKILL)]) (ck_now c)) as (te & w & He & Hte).
  { apply Forall_app. split; [done|]. by apply Forall_singleton. }
  rewrite He.
  simpl. eexists. split; [done|]. simpl. split; [lia|]. exists te, w. split; [done|lia].
Qed.

Lemma wait_timeout_some ms c w c' :
  wait_timeout ch ms c = (Some w, c') →
  ∃ te, exits ch (ck_sent c) = Some (te, w) ∧ (te ≤ ck_now c + ms)%Z ∧ c' = mkClock (ck_now c `max` te)%Z (ck_sent c) true.
Proof using.
  unfold wait_timeout. destruct (exits ch (ck_sent c)) as [[te w']|]; [|done].
  destruct (Z.leb_spec te (ck_now c + ms)); [|done]. intros [= -> <-]. eauto.
Qed.

Lemma wait_timeout_none ms c c' :
  wait_timeout ch ms c = (None, c') →
  (∀ te w, exits ch (ck_sent c) = Some (te, w) → (ck_now c + ms < te)%Z) ∧
  c' = mkClock (ck_now c + ms)%Z (ck_sent c) (ck_reaped c).
Proof using.
  unfold wait_timeout. destruct (exits ch (ck_sent c)) as [[te w']|]; [|intros [= <-]; naive_solver].
  destruct (Z.leb_spec te (ck_now c + ms)); [done|]. intros [= <-]. naive_solver.
Qed.

End waiting.
