(* ===== verification/Kernel.v ===== *)
(** * Kernel: the system calls of the daemon's launcher and of the runner

    The daemon starts one process per sandbox, and that process
    ([src/backend/libkrun/runner/]) confines itself with system calls before it
    becomes a microVM.  Here the calls both make, a kernel as a parameter that answers each of them given the calls
    before, and what a process that made a sequence of calls looks like. *)

From S2P Require Import Prelude RustStd Text FileSystem PrivateFs Config GuestBoot GuestExec.

(** ** Calls *)

Inductive Ns := NewUser | NewNs | NewNet | NewIpc | NewUts | NewCgroup | NewPid.

#[global] Instance Ns_eq_decision : EqDecision Ns.
Proof. solve_decision. Defined.
#[global] Instance Resource_eq_decision : EqDecision Resource.
Proof. solve_decision. Defined.

Inductive Prctl := PR_SET_NO_NEW_PRIVS | PR_SET_DUMPABLE (v : Z) | PR_SET_MDWE (v : Z).

(** The functions of libkrun that build and enter a microVM, as the runner calls them. *)
Inductive KrunCall :=
  | krun_init_log (target level style options : Z)
  | krun_create_ctx
  | krun_set_vm_config (ctx num_vcpus ram_mib : Z)
  | krun_set_console_output (ctx : Z) (file : string)
  | krun_set_kernel_console (ctx : Z) (id : string)
  | krun_disable_implicit_vsock (ctx : Z)
  | krun_set_firmware (ctx : Z) (firmware : string)
  | krun_set_kernel (ctx : Z) (kernel : string) (format : Z) (cmdline : string)
  | krun_add_disk3 (ctx : Z) (id disk : string) (format : Z) (read_only direct_io : bool) (sync : Z)
  | krun_set_root_disk_remount (ctx : Z) (device fstype options : string)
  | krun_set_workdir (ctx : Z) (dir : string)
  | krun_set_exec (ctx : Z) (exec : string) (args envp : list string)
  | krun_add_vsock (ctx tsi : Z)
  | krun_add_vsock_port2 (ctx port : Z) (socket : string) (listen : bool)
  | krun_get_shutdown_eventfd (ctx : Z)
  | krun_start_enter (ctx : Z)
  | krun_free_ctx (ctx : Z).

(** What the security harness tries from inside the confinement. *)
Inductive Probing :=
  | PbGetpid
  | PbGetDumpable
  | PbGetMdwe
  | PbReadFile (p : string)
  | PbTcpConnect (ip : string) (port : Z)
  | PbTcpBind (ip : string) (port : Z)
  | PbExecve (p : string)
  | PbUnixConnect (p : string)
  | PbKill (pid signal : Z).

(** System calls, the operations of [std::fs] and [std::env], and libkrun.
    Host paths the configuration names are strings, paths the runner builds are
    absolute component lists. *)
Inductive Sys :=
  | Umask (mask : Z)
  | CallPrctl (op : Prctl)
  | Setrlimit (r : Resource) (value : Z)
  | Geteuid
  | Getegid
  | Unshare (ns : list Ns)
  | Setresgid (r e s : Z)
  | Setresuid (r e s : Z)
  | Mount (source : option string) (target : path) (fstype : option string) (flags : Z) (data : option string)
  | Fork
  | Waitpid (pid : Z)
  | Setsid
  | Chdir (p : path)
  | Chroot (p : path)
  | Close (fd : Z)
  | ReadByte (fd : Z)
  | LandlockAbi
  | LandlockCreateRuleset (handled : Z)
  | OpenPath (p : path)
  | LandlockAddRule (ruleset parent_fd access : Z)
  | LandlockRestrictSelf (ruleset : Z)
  | InstallSeccomp (program : list sock_filter)
  | Sysconf_PAGESIZE
  | SetVar (key value : string)
  | FsExists (p : string)
  | FsIsDir (p : string)
  | FsLen (p : string)
  | FsCreateDirAll (p : path)
  | FsTruncate (p : path)
  | FsOpen (p : path)
  | FsWrite (p data : string)
  | FsCopy (source : string) (target : path)
  | FsSetLen (p : path) (len : Z)
  | FsReadDir (p : string)
  | FsMkdirs (p : string)
  | FsMkdir (p : string)
  | FsRmdir (p : string)
  | FsReadText (p : string)
  | FsRemove (p : path)
  | FsOpenLog (p : path)
  | FsWriteBytes (p : path) (data : bytes)
  | Pipe2
  | FcntlGetFd (fd : Z)
  | FcntlSetFd (fd flags : Z)
  | WriteByte (fd byte : Z)
  | DupLog
  | Spawn (program : string) (args : list string) (env : list (string * string))
  | KillChild (pid : Z)
  | WaitChild (pid : Z)
  | Probe (p : Probing)
  | TempDirIn (root : path) (prefix : string)
  | RemoveTree (p : path)
  | RunHarness (program : string) (config : path)
  | Krun (call : KrunCall).

(** What a call returns: its value, and behind a failure [errno] with its
    [std::io::Error]; the status of [waitpid], the entries of [read_dir] the text
    of [read_to_string], the name of a temporary directory or the two outputs of
    a process as its entries, the two ends of a pipe. *)
Record Reply := mkReply {
  rp_value : Z;
  rp_errno : Z;
  rp_error : IoError;
  rp_status : Z;
  rp_names : list (Result IoError string);
  rp_pipe : Z * Z;
}.

(** The calls made so far, the last one first, with their replies. *)
Abbreviation History := (list (Sys * Reply)).

Class Kernel := { kernel : History → Sys → Reply; machine : Arch }.

Definition EINTR_code : Z := 4.
Definition EINVAL_code : Z := 22.

(** ** Programs

    A program ends with a value, with an error, by [exit], or is still waiting
    after as many interrupted waits as we follow. *)
Inductive Halt := Failed (e : SandboxError) | Exited (code : Z) | Waiting.

Abbreviation RM := (M Halt History).

Section programs.
Context `{Kernel}.

Definition sys (s : Sys) : RM Reply := λ h, let r := kernel h s in (Ok r, (s, r) :: h).

Definition fail {A} (e : SandboxError) : RM A := throw (Failed e).
Definition last_os_error {A} (context : string) (r : Reply) : RM A := fail (Io context (rp_error r)).
Definition checked {A} (r : Result SandboxError A) : RM A :=
  match r with Ok a => mret a | Err e => fail e end.

(** An operation of [std::fs]: [map_err(|error| SandboxError::io(context, error))]. *)
Definition fs_call (s : Sys) (context : string) : RM Reply :=
  r ← sys s; if decide (rp_value r < 0)%Z then last_os_error context r else mret r.

(** An [OwnedFd] is closed when it goes out of scope. *)
Definition with_fd {A} (fd : Z) (body : RM A) : RM A :=
  r ← attempt body; sys (Close fd);; lift r.
End programs.

(** ** What a process looks like after its calls

    The effect of the calls that succeeded, as their manual pages document it.
    A mount is its source, its target, its type and whether it is read-only; a
    bind mount is created writable and made read-only by remounting it. *)

Definition MS_RDONLY : Z := 1.
Definition MS_NOSUID : Z := 2.
Definition MS_NODEV : Z := 4.
Definition MS_NOEXEC : Z := 8.
Definition MS_REMOUNT : Z := 32.
Definition MS_BIND : Z := 4096.
Definition MS_REC : Z := 16384.
Definition MS_PRIVATE : Z := 262144.

Definition has_flag (flags flag : Z) : bool := negb (Z.land flags flag =? 0)%Z.

Record MountEntry := mkMount {
  mt_source : option string; mt_target : path; mt_fstype : option string; mt_read_only : bool;
}.

Record View := mkView {
  v_umask : option Z;
  v_no_new_privs : bool;
  v_dumpable : bool;
  v_rlimits : list (Resource * Z);
  v_namespaces : list Ns;
  v_first_in_pid_namespace : bool;
  v_private_mounts : bool;
  v_mounts : list MountEntry;
  v_root : path;
  v_ruleset : option (Z * Z);      (** of Landlock: handled rights, rights granted below the root *)
  v_landlock : option (Z * Z);     (** the ruleset in force *)
  v_seccomp : list (list sock_filter);
}.

Definition initial_view : View := mkView None false true [] [] false false [] [] None None [].

(** The topmost mount on a target is made read-only. *)
Fixpoint remount_ro (target : path) (l : list MountEntry) : list MountEntry :=
  match l with
  | [] => []
  | m :: l' =>
      if decide (mt_target m = target) then mkMount (mt_source m) (mt_target m) (mt_fstype m) true :: l'
      else m :: remount_ro target l'
  end.

Definition effect (s : Sys) (v : View) : View :=
  let '(mkView um nnp dump lim ns pid1 priv mounts root rs ll sec) := v in
  match s with
  | Umask m => mkView (Some m) nnp dump lim ns pid1 priv mounts root rs ll sec
  | CallPrctl PR_SET_NO_NEW_PRIVS => mkView um true dump lim ns pid1 priv mounts root rs ll sec
  | CallPrctl (PR_SET_DUMPABLE x) => mkView um nnp (negb (x =? 0)%Z) lim ns pid1 priv mounts root rs ll sec
  | Setrlimit r x => mkView um nnp dump ((r, x) :: filter (λ p, p.1 ≠ r) lim) ns pid1 priv mounts root rs ll sec
  | Unshare l => mkView um nnp dump lim (l ++ ns) pid1 priv mounts root rs ll sec
  | Fork => mkView um nnp dump lim ns (bool_decide (NewPid ∈ ns)) priv mounts root rs ll sec
  | Mount source target fstype flags _ =>
      if has_flag flags MS_REMOUNT then
        mkView um nnp dump lim ns pid1 priv
          (if has_flag flags MS_RDONLY then remount_ro (root ++ target) mounts else mounts) root rs ll sec
      else if has_flag flags MS_PRIVATE then mkView um nnp dump lim ns pid1 true mounts root rs ll sec
      else
        mkView um nnp dump lim ns pid1 priv
          (mkMount source (root ++ target) fstype (negb (has_flag flags MS_BIND) && has_flag flags MS_RDONLY) :: mounts)
          root rs ll sec
  | Chroot p => mkView um nnp dump lim ns pid1 priv mounts (root ++ p) rs ll sec
  | LandlockCreateRuleset handled => mkView um nnp dump lim ns pid1 priv mounts root (Some (handled, 0%Z)) ll sec
  | LandlockAddRule _ _ access =>
      mkView um nnp dump lim ns pid1 priv mounts root ((λ '(handled, _), (handled, access)) <$> rs) ll sec
  | LandlockRestrictSelf _ => mkView um nnp dump lim ns pid1 priv mounts root rs rs sec
  | InstallSeccomp program => mkView um nnp dump lim ns pid1 priv mounts root rs ll (program :: sec)
  | _ => v
  end.

(** A call had its effect unless it failed; [umask] always succeeds. *)
Definition failed (c : Sys * Reply) : bool :=
  match c.1 with Umask _ => false | _ => (rp_value c.2 <? 0)%Z end.
Definition view_step (c : Sys * Reply) (v : View) : View := if failed c then v else effect c.1 v.

Definition view (h : History) : View := foldr view_step initial_view h.

(** ** Reasoning about programs *)

(** [h'] extends [h] by calls with [P]. *)
Definition extends (P : Sys → Prop) (h h' : History) : Prop :=
  ∃ new, h' = new ++ h ∧ Forall (λ c, P c.1) new.

#[global] Instance extends_preorder P : PreOrder (extends P).
Proof.
  split.
  - intros h. by exists [].
  - intros h1 h2 h3 (n1 & -> & F1) (n2 & -> & F2). exists (n2 ++ n1).
    rewrite app_assoc. split; [done|by apply Forall_app].
Qed.

Section program_lemmas.
Context `{Kernel}.

Lemma sys_ok_inv s h r h' : sys s h = (Ok r, h') → h' = (s, r) :: h.
Proof. by intros [= <- <-]. Qed.

Lemma keeps_sys (P : Sys → Prop) s : P s → keeps (extends P) (sys s).
Proof. intros Hs h. exists [(s, kernel h s)]. split; [done|by repeat constructor]. Qed.

Lemma keeps_fs_call (P : Sys → Prop) s context : P s → keeps (extends P) (fs_call s context).
Proof. intros Hs. unfold fs_call, last_os_error, fail. keeps_tac. by apply keeps_sys. Qed.

Lemma keeps_with_fd {A} (P : Sys → Prop) fd (body : RM A) :
  P (Close fd) → keeps (extends P) body → keeps (extends P) (with_fd fd body).
Proof. intros. unfold with_fd. keeps_tac; by auto using keeps_sys. Qed.

Lemma fs_call_ok_inv s context h r h' :
  fs_call s context h = (Ok r, h') → h' = (s, r) :: h ∧ (0 ≤ rp_value r)%Z.
Proof. unfold fs_call, sys, mbind, M_bind. simpl. case_decide; [done|]. intros [= <- <-]. split; [done|lia]. Qed.

Lemma with_fd_ok_inv {A} fd (body : RM A) h a h' :
  with_fd fd body h = (Ok a, h') → ∃ h1, body h = (Ok a, h1) ∧ ∃ r, h' = (Close fd, r) :: h1.
Proof.
  unfold with_fd, attempt, mbind, M_bind, lift. destruct (body h) as [[b|e] h1]; simpl; [|done].
  intros [= <- <-]. eauto.
Qed.

Lemma checked_ok_inv {A} (r : Result SandboxError A) h a h' :
  checked r h = (Ok a, h') → r = Ok a ∧ h' = h.
Proof. destruct r; [by intros [= -> ->]|done]. Qed.

Lemma view_cons s r h : (0 ≤ rp_value r)%Z → view ((s, r) :: h) = effect s (view h).
Proof.
  intros Hr%Z.ltb_ge. simpl. unfold view_step, failed. simpl. rewrite Hr. by destruct s.
Qed.

(** Calls that change nothing of the view, whatever they return. *)
Lemma view_skip s r h : (∀ v, effect s v = v) → view ((s, r) :: h) = view h.
Proof. intros Hs. simpl. unfold view_step. simpl. by destruct (failed _). Qed.
End program_lemmas.

#[export] Hint Resolve keeps_sys keeps_fs_call keeps_with_fd : keeps.
