(* ===== verification/GuestInit.v ===== *)
(** * GuestInit: [run] of [linux_server.rs] and [bootstrap.rs] of the guest agent

    What the agent does from its start to its connections: it mounts the file
    systems of the guest as the kernel command line says, hands the workspace to
    its user, and then listens.  The guest's kernel answers each call given the
    calls before; a connection is one call here, [GuestServer] says what happens
    on it. *)

From S2P Require Import Prelude RustStd Text Paths FileSystem PrivateFs Config Protocol Runtime GuestBoot Kernel.

Inductive GuestCall :=
  | GMkdirs (p : string)
  | GStat (p : string)
  | GMount (source target fstype : string) (flags : Z) (data : option string)
  | GReadText (p : string)
  | GAppend (p text : string)
  | GChown (p : string) (uid gid : Z)
  | GBind (port : Z)
  | GAccept
  | GServe (config : BootConfig)
  | GOpenSerial (p : string)
  | GElapsed
  | GSleep (ms : Z).

(** The result of a call: its error with [errno] behind a failure, the text of a
    file, whether a connection ended the agent, milliseconds. *)
Record GuestReply := mkGuestReply {
  gr_ok : bool;
  gr_errno : Z;
  gr_error : IoError;
  gr_text : string;
  gr_value : Z;
}.

Abbreviation GuestHistory := (list (GuestCall * GuestReply)).
Class GuestKernel := { guest_kernel : GuestHistory → GuestCall → GuestReply }.

Local Abbreviation GM := (M Halt GuestHistory).

Definition EBUSY_code : Z := 16.

Section init.
Context `{GuestKernel}.

Definition gsys (c : GuestCall) : GM GuestReply := λ h, let r := guest_kernel h c in (Ok r, (c, r) :: h).
Definition gfail {A} (e : SandboxError) : GM A := throw (Failed e).
Definition gchecked {A} (r : Result SandboxError A) : GM A := match r with Ok a => mret a | Err e => gfail e end.
Definition gcall (c : GuestCall) (context : string) : GM GuestReply :=
  r ← gsys c; if gr_ok r then mret r else gfail (Io context (gr_error r)).

(** ** [bootstrap.rs] *)

Definition ensure_dir (p : string) : GM () := gcall (GMkdirs p) ("creating " ^+ p);; mret ().

(** [CString::new] refuses a null byte. *)
Definition make_cstring (value field : string) : Result SandboxError () :=
  if all_chars (λ a, negb (Ascii.eqb a "000")) value then Ok () else Err (InvalidConfig (field ^+ " contains a null byte")).

Definition mount_fs (source target fstype : string) (flags : Z) (data : option string) : GM () :=
  present ← gsys (GStat target);
  if negb (gr_ok present) then gfail (InvalidConfig ("missing mountpoint " ^+ target ^+ " in guest image"))
  else
    gchecked (make_cstring source "mount source");;
    gchecked (make_cstring target "mount target");;
    gchecked (make_cstring fstype "mount filesystem type");;
    gchecked (match data with Some value => make_cstring value "mount data" | None => Ok () end);;
    r ← gsys (GMount source target fstype flags data);
    if gr_ok r then mret ()
    else if decide (gr_errno r = EBUSY_code) then mret ()
    else gfail (Io ("mounting " ^+ source ^+ " on " ^+ target) (gr_error r)).

Definition mount_runtime_filesystems : GM () :=
  ensure_dir "/proc";;
  ensure_dir "/sys";;
  ensure_dir "/dev";;
  ensure_dir "/dev/pts";;
  mount_fs "proc" "/proc" "proc" 0 None;;
  mount_fs "sysfs" "/sys" "sysfs" 0 None;;
  mount_fs "devtmpfs" "/dev" "devtmpfs" 0 (Some "mode=0755");;
  mount_fs "devpts" "/dev/pts" "devpts" 0 (Some "mode=0620,ptmxmode=0666");;
  ensure_dir "/dev/shm";;
  mount_fs "tmpfs" "/dev/shm" "tmpfs" (Z.lor MS_NOSUID MS_NODEV) (Some "size=64m,mode=1777").

(** Errors of the boot log are ignored. *)
Definition append_boot_log (line : string) : GM () := gsys (GAppend "/workspace/boot.log" (line ^+ String line_feed ""));; mret ().

Definition read_cmdline : GM string :=
  r ← gcall (GReadText "/proc/cmdline") "reading /proc/cmdline"; mret (gr_text r).

Definition chown_path (p : string) (uid gid : Z) : GM () :=
  gchecked (make_cstring p "workspace path");;
  gcall (GChown p uid gid) "chown workspace";; mret ().

Definition bootstrap_guest (config : BootConfig) : GM () :=
  mount_fs "tmpfs" "/tmp" "tmpfs" (Z.lor MS_NOSUID MS_NODEV) (Some ("size=" ^+ pretty (bt_tmpfs_mib config) ^+ "m,mode=1777"));;
  cmdline ← read_cmdline;
  mount_fs (read_workspace_device cmdline) "/workspace" "ext4" 0 None;;
  cmdline ← read_cmdline;
  (match read_cache_device cmdline with
   | Some cache_device =>
       ensure_dir "/opt";;
       ensure_dir "/opt/sagens-cache";;
       mount_fs cache_device "/opt/sagens-cache" "ext4" MS_RDONLY None;;
       append_boot_log "cache mounted"
   | None => mret ()
   end);;
  append_boot_log "workspace mounted";;
  chown_path "/workspace" (bt_uid config) (bt_gid config).

(** ** [run] of [linux_server.rs] *)

Definition boot_sequence : GM BootConfig :=
  mount_runtime_filesystems;;
  cmdline ← read_cmdline;
  boot ← gchecked (from_cmdline cmdline);
  bootstrap_guest boot;;
  append_boot_log "boot config parsed";;
  mret boot.

Definition serve_connection (boot : BootConfig) : GM bool :=
  r ← gsys (GServe boot); if gr_ok r then mret (negb (gr_value r =? 0)%Z) else gfail (Io "guest rpc connection" (gr_error r)).

(** The accept loop, for as many connections as we follow. *)
Fixpoint accept_loop (connections : nat) (boot : BootConfig) : GM () :=
  match connections with
  | O => throw Waiting
  | S connections' =>
      gcall GAccept "accepting guest vsock connection";;
      stop ← serve_connection boot;
      if stop : bool then mret () else accept_loop connections' boot
  end.

(** [open_virtio_serial]: tried again every 100 ms for ten seconds by the clock
    of the guest, for as many turns as we follow. *)
Fixpoint open_virtio_serial (turns : nat) (p : string) : GM () :=
  match turns with
  | O => throw Waiting
  | S turns' =>
      r ← gsys (GOpenSerial p);
      if gr_ok r then mret ()
      else if decide (io_kind (gr_error r) = KNotFound) then
        elapsed ← gsys GElapsed;
        if decide (10000 < gr_value elapsed)%Z then gfail (Timeout ("timed out waiting for guest virtio-serial device " ^+ p))
        else gsys (GSleep 100);; open_virtio_serial turns' p
      else gfail (Io ("opening guest virtio-serial device " ^+ p) (gr_error r))
  end.

Definition serve_guest (bound : nat) (boot : BootConfig) : GM () :=
  match bt_rpc_transport boot with
  | Vsock =>
      gcall (GBind (bt_rpc_port boot)) "binding guest vsock listener";;
      append_boot_log "vsock listener bound";;
      accept_loop bound boot
  | VirtioSerial =>
      append_boot_log "opening virtio-serial rpc device";;
      open_virtio_serial bound "/dev/virtio-ports/sagens-rpc";;
      serve_connection boot;;
      mret ()
  end.

Definition guest_run (bound : nat) : GM () :=
  boot ← boot_sequence;
  serve_guest bound boot.

(** ** The mounts of a guest *)

Record GuestMount := mkGuestMount { gm_source : string; gm_target : string; gm_fstype : string; gm_flags : Z; gm_data : option string }.

Definition runtime_mounts : list GuestMount := [
  mkGuestMount "proc" "/proc" "proc" 0 None;
  mkGuestMount "sysfs" "/sys" "sysfs" 0 None;
  mkGuestMount "devtmpfs" "/dev" "devtmpfs" 0 (Some "mode=0755");
  mkGuestMount "devpts" "/dev/pts" "devpts" 0 (Some "mode=0620,ptmxmode=0666");
  mkGuestMount "tmpfs" "/dev/shm" "tmpfs" 6 (Some "size=64m,mode=1777") ].

Definition policy_mounts (tmpfs_mib : Z) (workspace : string) (cache : option string) : list GuestMount :=
  [ mkGuestMount "tmpfs" "/tmp" "tmpfs" 6 (Some ("size=" ^+ pretty tmpfs_mib ^+ "m,mode=1777"));
    mkGuestMount workspace "/workspace" "ext4" 0 None ] ++
  match cache with Some device => [mkGuestMount device "/opt/sagens-cache" "ext4" 1 None] | None => [] end.

(** The mount calls of a history, the first one first, and whether they went
    through: a busy target has what it needs already. *)
Definition mount_of (c : GuestCall * GuestReply) : option GuestMount :=
  match c with
  | (GMount source target fstype flags data, _) => Some (mkGuestMount source target fstype flags data)
  | _ => None
  end.
Definition mounts_of (h : GuestHistory) : list GuestMount := omap mount_of (reverse h).
Definition went_through (c : GuestCall * GuestReply) : Prop :=
  match c.1 with GMount _ _ _ _ _ => gr_ok c.2 = true ∨ gr_errno c.2 = EBUSY_code | _ => True end.

(** ** A logic of appended calls

    Every run of [m] appends calls that satisfy [P], and a run that succeeds with
    [a] appends a list for which [Q a] holds. *)
Definition appends {A} (m : GM A) (P : GuestCall * GuestReply → Prop) (Q : A → GuestHistory → Prop) : Prop := ∀ h r h',
  m h = (r, h') → ∃ new, h' = new ++ h ∧ Forall P new ∧ match r with Ok a => Q a new | Err _ => True end.

(** A run that succeeds made just the mounts [l], and all went through. *)
Definition made (l : list GuestMount) (new : GuestHistory) : Prop := mounts_of new = l ∧ Forall went_through new.

Lemma made_nil : made [] [].
Proof. by split. Qed.

Lemma made_app l1 l2 n1 n2 : made l1 n1 → made l2 n2 → made (l1 ++ l2) (n2 ++ n1).
Proof.
  intros [<- H1] [<- H2]. split; [|by apply Forall_app].
  unfold mounts_of. by rewrite reverse_app, omap_app.
Qed.

Lemma appends_bind {A B} (m : GM A) (f : A → GM B) P (Q1 : A → GuestHistory → Prop) (Q : B → GuestHistory → Prop) :
  appends m P Q1 →
  (∀ a n1, Q1 a n1 → appends (f a) P (λ b n2, Q b (n2 ++ n1))) → appends (m ≫= f) P Q.
Proof.
  intros Hm Hf h r h' Hrun. unfold mbind, M_bind in Hrun.
  destruct (m h) as [[a|e] h1] eqn:Em; apply Hm in Em as (n1 & -> & HP & HQ).
  - apply (Hf a n1 HQ) in Hrun as (n2 & -> & HP2 & HQ2). exists (n2 ++ n1). split_and!; [by rewrite app_assoc|by apply Forall_app|done].
  - injection Hrun as <- <-. by exists n1.
Qed.

Lemma appends_ret {A} (a : A) P (Q : A → GuestHistory → Prop) : Q a [] → appends (mret a) P Q.
Proof. intros HQ h r h' [= <- <-]. by exists []. Qed.

Lemma appends_throw {A} e P (Q : A → GuestHistory → Prop) : appends (throw e) P Q.
Proof. intros h r h' [= <- <-]. by exists []. Qed.

Lemma appends_gsys c (P : GuestCall * GuestReply → Prop) : (∀ r, P (c, r)) → appends (gsys c) P (λ r n, n = [(c, r)]).
Proof. intros HP h r h' [= <- <-]. exists [(c, guest_kernel h c)]. by repeat constructor. Qed.

Lemma appends_weaken {A} (m : GM A) P (Q Q' : A → GuestHistory → Prop) :
  appends m P Q → (∀ a n, Q a n → Q' a n) → appends m P Q'.
Proof. intros Hm HQ h r h' Hrun. apply Hm in Hrun as (n & -> & HP & H1). exists n. split_and!; [done..|]. destruct r; eauto. Qed.

Lemma appends_checked {A} (r : Result SandboxError A) P (Q : A → GuestHistory → Prop) :
  (∀ a, r = Ok a → Q a []) → appends (gchecked r) P Q.
Proof. intros HQ. destruct r; [by apply appends_ret, HQ|apply appends_throw]. Qed.

Lemma appends_gcall c context (P : GuestCall * GuestReply → Prop) :
  (∀ r, P (c, r)) → appends (gcall c context) P (λ r n, n = [(c, r)] ∧ gr_ok r = true).
Proof.
  intros HP. eapply appends_bind; [by apply appends_gsys|]. intros r n1 ->. destruct (gr_ok r) eqn:E; [|apply appends_throw].
  by apply appends_ret.
Qed.

(** Calls before a connection. *)
Definition before_serving (c : GuestCall * GuestReply) : Prop := match c.1 with GServe _ => False | _ => True end.

(** Calls of a guest that serves [boot]: it mounts nothing more. *)
Definition while_serving (boot : BootConfig) (c : GuestCall * GuestReply) : Prop :=
  match c.1 with GServe boot' => boot' = boot | GMount _ _ _ _ _ => False | GChown _ _ _ => False | _ => True end.

(** A step of a boot that makes the mounts [l]. *)
Abbreviation boots m l := (appends m before_serving (λ _, made l)).

Lemma boots_bind {A B} (m : GM A) (f : A → GM B) l1 l2 :
  boots m l1 → (∀ a, boots (f a) l2) → boots (m ≫= f) (l1 ++ l2).
Proof.
  intros Hm Hf. eapply appends_bind; [exact Hm|]. intros a n1 H1. eapply appends_weaken; [apply Hf|]. intros b n2 H2. by apply made_app.
Qed.

Lemma boots_ret {A} (a : A) : boots (mret a) [].
Proof. apply appends_ret, made_nil. Qed.

Lemma boots_quiet c context : (∀ r, mount_of (c, r) = None) → (∀ r, before_serving (c, r)) → boots (gcall c context) [].
Proof.
  intros Hc HP. eapply appends_weaken; [by apply appends_gcall|]. intros r n [-> _]. split.
  - specialize (Hc r). by destruct c.
  - apply Forall_singleton. specialize (Hc r). by destruct c.
Qed.

Lemma boots_ensure_dir p : boots (ensure_dir p) [].
Proof. apply (boots_bind _ _ [] []); [by apply boots_quiet|]. intros. apply boots_ret. Qed.

Lemma boots_append_boot_log line : boots (append_boot_log line) [].
Proof.
  eapply appends_bind; [by apply appends_gsys|]. intros r n ->. apply appends_ret. split; [done|]. by repeat constructor.
Qed.

Lemma boots_checked {A} (r : Result SandboxError A) : boots (gchecked r) [].
Proof. apply appends_checked. intros. apply made_nil. Qed.

Lemma boots_mount_fs source target fstype flags data :
  boots (mount_fs source target fstype flags data) [mkGuestMount source target fstype flags data].
Proof.
  unfold mount_fs. eapply appends_bind; [by apply appends_gsys|]. intros present n ->.
  destruct (gr_ok present); simpl; [|apply appends_throw].
  do 4 (eapply appends_bind; [apply (appends_checked _ _ (λ _ n, n = [])); by intros|]; intros ? ? ->).
  eapply appends_bind; [by apply appends_gsys|]. intros r n2 ->.
  assert (Hmade : gr_ok r = true ∨ gr_errno r = EBUSY_code →
    made [mkGuestMount source target fstype flags data]
      [(GMount source target fstype flags data, r); (GStat target, present)]).
  { intros Hr. split; [done|]. by apply Forall_cons; split; [exact Hr|apply Forall_singleton]. }
  destruct (gr_ok r) eqn:Er; [apply appends_ret, Hmade; by left|].
  case_decide as Hb; [apply appends_ret, Hmade; by right|apply appends_throw].
Qed.

Lemma boots_runtime : boots mount_runtime_filesystems runtime_mounts.
Proof.
  unfold mount_runtime_filesystems.
  do 4 (apply (boots_bind _ _ []); [apply boots_ensure_dir|intros _]).
  do 4 (eapply (boots_bind _ _ [_]); [apply boots_mount_fs|intros _]).
  apply (boots_bind _ _ [] [_]); [apply boots_ensure_dir|intros _]. apply boots_mount_fs.
Qed.

Definition chowned (config : BootConfig) (n : GuestHistory) : Prop :=
  ∃ r, (GChown "/workspace" (bt_uid config) (bt_gid config), r) ∈ n ∧ gr_ok r = true.

Lemma appends_chown p uid gid n0 l :
  made l n0 →
  appends (chown_path p uid gid) before_serving
    (λ _ n, made l (n ++ n0) ∧ ∃ r, (GChown p uid gid, r) ∈ n ++ n0 ∧ gr_ok r = true).
Proof.
  intros Hl. unfold chown_path. eapply appends_bind; [apply (appends_checked _ _ (λ _ n, n = [])); by intros|]. intros ? ? ->.
  eapply appends_bind; [by apply appends_gcall|]. intros r n [-> Hr]. apply appends_ret. simpl. split.
  - rewrite <- (app_nil_r l). apply (made_app _ _ _ [_]); [done|]. split; [done|by apply Forall_singleton].
  - exists r. split; [set_solver|done].
Qed.

Lemma boots_cache cache :
  boots (match cache with
   | Some cache_device =>
       ensure_dir "/opt";;
       ensure_dir "/opt/sagens-cache";;
       mount_fs cache_device "/opt/sagens-cache" "ext4" MS_RDONLY None;;
       append_boot_log "cache mounted"
   | None => mret ()
   end) (match cache with Some device => [mkGuestMount device "/opt/sagens-cache" "ext4" 1 None] | None => [] end).
Proof.
  destruct cache as [device|]; [|apply boots_ret].
  do 2 (apply (boots_bind _ _ []); [apply boots_ensure_dir|intros _]).
  apply (boots_bind _ _ [_] []); [apply boots_mount_fs|intros _]. apply boots_append_boot_log.
Qed.

Lemma appends_then {A B} (m : GM A) (k : GM B) l l0 n0 (Q : B → GuestHistory → Prop) :
  boots m l → made l0 n0 →
  (∀ n, made (l0 ++ l) n → appends k before_serving (λ b n', Q b (n' ++ n))) →
  appends (m;; k) before_serving (λ b n', Q b (n' ++ n0)).
Proof.
  intros Hm H0 Hk. eapply appends_bind; [exact Hm|]. intros a n1 H1.
  eapply appends_weaken; [apply (Hk (n1 ++ n0)); by apply made_app|]. intros b n'. cbv beta. by rewrite <- app_assoc.
Qed.

(** ** The boot of a guest

    The kernel has one command line. *)
Section booted.
Context (t : string).
Context (one_cmdline : ∀ h, gr_ok (guest_kernel h (GReadText "/proc/cmdline")) = true →
  gr_text (guest_kernel h (GReadText "/proc/cmdline")) = t).

Lemma appends_read_cmdline : appends read_cmdline before_serving (λ text n, text = t ∧ made [] n).
Proof using one_cmdline.
  intros h r h' Hrun. unfold read_cmdline, gcall, gsys, mbind, M_bind in Hrun. simpl in Hrun.
  pose proof (one_cmdline h) as Ht.
  destruct (gr_ok (guest_kernel h (GReadText "/proc/cmdline"))) eqn:E; injection Hrun as <- <-;
    (exists [(GReadText "/proc/cmdline", guest_kernel h (GReadText "/proc/cmdline"))]; split; [done|split; [by apply Forall_singleton|]]); [|done].
  split; [by apply Ht|]. split; [done|by apply Forall_singleton].
Qed.

(** A step after the command line is read goes on with [t]. *)
Lemma boots_read {A} (f : string → GM A) (Q : A → GuestHistory → Prop) n0 :
  (∀ n, made [] n → appends (f t) before_serving (λ a n', Q a (n' ++ n ++ n0))) →
  appends (read_cmdline ≫= f) before_serving (λ a n, Q a (n ++ n0)).
Proof using one_cmdline.
  intros Hf. eapply appends_bind; [apply appends_read_cmdline|]. intros a n [-> Hn].
  eapply appends_weaken; [by apply Hf|]. intros b n'. cbv beta. by rewrite <- app_assoc.
Qed.

Lemma appends_bootstrap config n0 l0 :
  made l0 n0 →
  appends (bootstrap_guest config) before_serving (λ _ n,
    made (l0 ++ policy_mounts (bt_tmpfs_mib config) (read_workspace_device t) (read_cache_device t)) (n ++ n0) ∧
    chowned config (n ++ n0)).
Proof using one_cmdline.
  intros H0. unfold bootstrap_guest. eapply (appends_then _ _ _ _ _ (λ _ n, made _ n ∧ chowned config n)); [apply boots_mount_fs|exact H0|].
  intros n1 H1. apply (boots_read _ (λ _ n, made _ n ∧ chowned config n)). intros n2 H2.
  assert (H12 := made_app _ _ _ _ H1 H2). rewrite app_nil_r in H12.
  eapply (appends_then _ _ _ _ _ (λ _ n, made _ n ∧ chowned config n)); [apply boots_mount_fs|exact H12|].
  intros n3 H3. apply (boots_read _ (λ _ n, made _ n ∧ chowned config n)). intros n4 H4.
  assert (H34 := made_app _ _ _ _ H3 H4). rewrite app_nil_r in H34.
  eapply (appends_then _ _ _ _ _ (λ _ n, made _ n ∧ chowned config n)); [apply boots_cache|exact H34|]. intros n5 H5.
  eapply (appends_then _ _ _ _ _ (λ _ n, made _ n ∧ chowned config n)); [apply boots_append_boot_log|exact H5|]. intros n6 H6.
  eapply appends_weaken; [apply appends_chown, H6|]. intros _ n [Hm Hc]. split; [|done].
  unfold policy_mounts. by rewrite app_nil_r, <- !app_assoc in Hm.
Qed.

Lemma appends_boot_sequence :
  appends boot_sequence before_serving (λ boot n,
    from_cmdline t = Ok boot ∧
    made (runtime_mounts ++ policy_mounts (bt_tmpfs_mib boot) (read_workspace_device t) (read_cache_device t)) n ∧ chowned boot n).
Proof using one_cmdline.
  unfold boot_sequence. eapply appends_bind; [apply boots_runtime|]. intros ? n1 H1.
  apply (boots_read _ (λ boot n, from_cmdline t = Ok boot ∧
    made (runtime_mounts ++ policy_mounts (bt_tmpfs_mib boot) (read_workspace_device t) (read_cache_device t)) n ∧ chowned boot n)).
  intros n2 H2.
  eapply appends_bind; [apply (appends_checked _ _ (λ boot n, from_cmdline t = Ok boot ∧ n = [])); by intros|].
  intros boot ? [Hboot ->].
  assert (H12 := made_app _ _ _ _ H1 H2). rewrite app_nil_r in H12.
  eapply appends_bind; [apply (appends_bootstrap boot _ _ H12)|]. intros ? n3 [H3 Hc].
  eapply appends_bind; [apply boots_append_boot_log|]. intros ? n4 H4. apply appends_ret. cbv beta.
  rewrite !app_nil_l, app_nil_r, <- app_assoc. split; [done|split].
  - rewrite <- (app_nil_r (runtime_mounts ++ _)). by apply made_app.
  - destruct Hc as (r & Hin & Hr). exists r. split; [set_solver|done].
Qed.
End booted.

(** ** Serving *)

Lemma serving_call c boot context : (∀ r, while_serving boot (c, r)) → appends (gcall c context) (while_serving boot) (λ _ _, True).
Proof. intros Hc. eapply appends_weaken; [by apply appends_gcall|done]. Qed.

Lemma serving_sys c boot : (∀ r, while_serving boot (c, r)) → appends (gsys c) (while_serving boot) (λ _ _, True).
Proof. intros Hc. eapply appends_weaken; [by apply appends_gsys|done]. Qed.

Lemma serving_bind {A B} (m : GM A) (f : A → GM B) boot :
  appends m (while_serving boot) (λ _ _, True) → (∀ a, appends (f a) (while_serving boot) (λ _ _, True)) →
  appends (m ≫= f) (while_serving boot) (λ _ _, True).
Proof. intros Hm Hf. eapply appends_bind; [exact Hm|]. intros a n1 _. apply Hf. Qed.

Ltac serving := repeat first
  [ apply serving_bind; [|intros ?] | by apply serving_call | by apply serving_sys | by apply appends_ret
  | apply appends_throw | case_match | done ].

Lemma serving_connection boot : appends (serve_connection boot) (while_serving boot) (λ _ _, True).
Proof. unfold serve_connection. serving. Qed.

Lemma serving_accept_loop boot connections : appends (accept_loop connections boot) (while_serving boot) (λ _ _, True).
Proof.
  induction connections as [|n IH]; simpl; [apply appends_throw|].
  apply serving_bind; [by apply serving_call|intros _]. apply serving_bind; [apply serving_connection|intros stop]. by case_match; [apply appends_ret|].
Qed.

Lemma serving_open_virtio_serial boot turns p : appends (open_virtio_serial turns p) (while_serving boot) (λ _ _, True).
Proof. induction turns as [|n IH]; simpl; serving. Qed.

Lemma serving_guest boot bound : appends (serve_guest bound boot) (while_serving boot) (λ _ _, True).
Proof.
  unfold serve_guest, append_boot_log. case_match; serving; auto using serving_accept_loop, serving_open_virtio_serial, serving_connection.
Qed.

Lemma mounts_of_app n1 n2 : mounts_of (n1 ++ n2) = mounts_of n2 ++ mounts_of n1.
Proof. unfold mounts_of. by rewrite reverse_app, omap_app. Qed.

Lemma serving_no_mounts boot n : Forall (while_serving boot) n → mounts_of n = [] ∧ Forall went_through n.
Proof.
  intros Hn. induction Hn as [|[c r] n Hc _ [IH1 IH2]]; [by split|]. split.
  - change ((c, r) :: n) with ([(c, r)] ++ n). rewrite mounts_of_app, IH1. by destruct c.
  - constructor; [by destruct c|done].
Qed.

(** What has happened when a connection is served, for a kernel with the command line [t]. *)
Lemma guest_mounts_before_serving t bound res boot reply after before :
  (∀ h, gr_ok (guest_kernel h (GReadText "/proc/cmdline")) = true →
    gr_text (guest_kernel h (GReadText "/proc/cmdline")) = t) →
  guest_run bound [] = (res, after ++ (GServe boot, reply) :: before) →
  from_cmdline t = Ok boot ∧
  mounts_of before =
    runtime_mounts ++ policy_mounts (bt_tmpfs_mib boot) (read_workspace_device t) (read_cache_device t) ∧
  Forall went_through before ∧
  chowned boot before ∧
  mounts_of after = [].
Proof.
  intros Ht Hrun. unfold guest_run, mbind, M_bind in Hrun.
  destruct (boot_sequence []) as [[boot'|e] h1] eqn:Eb; apply (appends_boot_sequence t Ht) in Eb as (n1 & -> & Hbefore & HQ).
  2:{ injection Hrun as <- Heq. rewrite app_nil_r in Heq. subst n1. apply Forall_app in Hbefore as [_ Hb].
      apply Forall_cons in Hb as [Hb _]. by destruct Hb. }
  destruct HQ as (Hboot & [Hm Hw] & Hc). apply serving_guest in Hrun as (n2 & Heq & Hserve & _). rewrite app_nil_r in Heq.
  assert (Hsplit : ∃ n2', n2 = after ++ (GServe boot, reply) :: n2' ∧ before = n2' ++ n1).
  { apply (app_eq_inv after _ n2 n1) in Heq as [(k & -> & Hk)|(k & -> & Hk)].
    - subst n1. apply Forall_app in Hbefore as [_ Hb]. apply Forall_cons in Hb as [Hb _]. by destruct Hb.
    - destruct k as [|c k]; simpl in Hk.
      + subst n1. by apply Forall_cons in Hbefore as [[] _].
      + injection Hk as <- ->. by exists k. }
  destruct Hsplit as (n2' & -> & ->). apply Forall_app in Hserve as [Ha Hserve].
  apply Forall_cons in Hserve as [Hb Hn2]. unfold while_serving in Hb. simpl in Hb. subst boot'.
  apply serving_no_mounts in Ha as [Ha _]. apply serving_no_mounts in Hn2 as [Hn2 Hw2].
  split_and!; [done| |by apply Forall_app| |done].
  - rewrite mounts_of_app, Hn2, app_nil_r. exact Hm.
  - destruct Hc as (r & Hin & Hr). exists r. split; [set_solver|done].
Qed.

(** C5: the mounts of a sandbox's guest.  In a guest whose kernel was given the command line the
    host builds from the runner configuration, the agent serves connections only with that
    configuration's limits, user, group, network flag, port and transport; before it serves one it
    made just these mounts, in this order: the five runtime file systems, a tmpfs of the configured
    size on /tmp without set-id programs or devices, the workspace disk /dev/vdb on /workspace and,
    exactly when the configuration has a cache image, /dev/vdc read-only on /opt/sagens-cache; each
    went through or was busy, /workspace was handed to the configured user and group, and nothing
    is mounted after. *)
Theorem guest_mounts_as_configured `{!Target} c bound res boot reply after before :
  runner_numbers_ok c →
  (∀ h, gr_ok (guest_kernel h (GReadText "/proc/cmdline")) = true →
    gr_text (guest_kernel h (GReadText "/proc/cmdline")) = kernel_cmdline c ^+ String line_feed "") →
  guest_run bound [] = (res, after ++ (GServe boot, reply) :: before) →
  boot = mkBoot (lk_tmpfs_mib c) (lk_guest_uid c) (lk_guest_gid c) (lk_max_processes c) (max_open_files c)
           (16 * 1024 * 1024) (lk_network_enabled c) (lk_guest_vsock_port c) (boot_transport c) ∧
  mounts_of before =
    runtime_mounts ++ policy_mounts (lk_tmpfs_mib c) "/dev/vdb" ((λ _, "/dev/vdc") <$> lk_cache_image c) ∧
  Forall went_through before ∧
  (∃ r, (GChown "/workspace" (lk_guest_uid c) (lk_guest_gid c), r) ∈ before ∧ gr_ok r = true) ∧
  mounts_of after = [].
Proof.
  intros Hc Ht Hrun.
  destruct (guest_mounts_before_serving _ bound res boot reply after before Ht Hrun) as (Hboot & Hm & Hw & Hch & Ha).
  rewrite from_cmdline_kernel in Hboot by done. injection Hboot as <-.
  destruct (devices_kernel c Hc) as [Hd1 Hd2]. rewrite Hd1, Hd2 in Hm. done.
Qed.

(** The wait for the serial device ends: if the clock of the guest is past ten
    seconds once [limit] calls were made, [limit] turns are enough. *)
Lemma open_virtio_serial_returns p limit turns h :
  (∀ h', limit < length h' → (10000 < gr_value (guest_kernel h' GElapsed))%Z) →
  0 < turns → limit < length h + turns → (open_virtio_serial turns p h).1 ≠ Err Waiting.
Proof.
  intros Hclock. revert h. induction turns as [|turns IH]; intros h Hpos Hlen; [lia|].
  simpl. unfold mbind, M_bind, gsys. simpl.
  set (r := guest_kernel h (GOpenSerial p)). destruct (gr_ok r); [done|]. case_decide; [|done]. simpl.
  specialize (Hclock ((GOpenSerial p, r) :: h)). simpl in Hclock.
  case_decide as Hlate; [done|]. destruct turns as [|turns]; [exfalso; apply Hlate, Hclock; lia|].
  apply IH; simpl; lia.
Qed.
End init.
