(* ===== verification/SecureRunner.v ===== *)
(** * SecureRunner: [src/backend/libkrun/runner/secure_runner/]

    How the runner of a sandbox in secure mode confines itself: [sys.rs],
    the Landlock rules and the seccomp filter of [policies.rs], and the
    sequence of [bootstrap.rs]. *)

From S2P Require Import Prelude RustStd Text FileSystem PrivateFs Config Lineage Workspace Images Protocol Runtime GuestBoot GuestExec Kernel.

(** ** [sys.rs] *)

Definition no_nul (s : string) : bool := all_chars (λ a, negb (Ascii.eqb a Ascii.zero)) s.

Definition path_cstring (p context : string) : Result SandboxError () :=
  if no_nul p then Ok () else Err (InvalidConfig (context ^+ ": path contains interior NUL: " ^+ p)).

Section runner.
Context `{Kernel}.

Definition syscall_ok (s : Sys) (context : string) : RM () :=
  r ← sys s; if decide (rp_value r ≠ 0)%Z then last_os_error context r else mret ().

Definition syscall_owned_fd (s : Sys) (context : string) : RM Z :=
  r ← sys s; if decide (rp_value r < 0)%Z then last_os_error context r else mret (rp_value r).

Definition mount_path (source : option string) (target : path) (fstype : option string) (flags : Z)
    (data : option string) (context : string) : RM () :=
  match source with Some p => checked (path_cstring p context) | None => mret () end;;
  checked (path_cstring (display target) context);;
  (if forallb no_nul (option_list fstype) then mret ()
   else fail (InvalidConfig (context ^+ ": filesystem type contains interior NUL")));;
  (if forallb no_nul (option_list data) then mret ()
   else fail (InvalidConfig (context ^+ ": data contains interior NUL")));;
  syscall_ok (Mount source target fstype flags data) context.

(** ** [policies.rs] *)

Definition LANDLOCK_ACCESS_FS_EXECUTE : Z := Z.shiftl 1 0.
Definition LANDLOCK_ACCESS_FS_WRITE_FILE : Z := Z.shiftl 1 1.
Definition LANDLOCK_ACCESS_FS_READ_FILE : Z := Z.shiftl 1 2.
Definition LANDLOCK_ACCESS_FS_READ_DIR : Z := Z.shiftl 1 3.
Definition LANDLOCK_ACCESS_FS_REMOVE_DIR : Z := Z.shiftl 1 4.
Definition LANDLOCK_ACCESS_FS_REMOVE_FILE : Z := Z.shiftl 1 5.
Definition LANDLOCK_ACCESS_FS_MAKE_DIR : Z := Z.shiftl 1 7.
Definition LANDLOCK_ACCESS_FS_MAKE_REG : Z := Z.shiftl 1 8.
Definition LANDLOCK_ACCESS_FS_MAKE_SOCK : Z := Z.shiftl 1 9.
Definition LANDLOCK_ACCESS_FS_MAKE_FIFO : Z := Z.shiftl 1 10.
Definition LANDLOCK_ACCESS_FS_MAKE_SYM : Z := Z.shiftl 1 12.
Definition LANDLOCK_ACCESS_FS_REFER : Z := Z.shiftl 1 13.
Definition LANDLOCK_ACCESS_FS_TRUNCATE : Z := Z.shiftl 1 14.

Definition landlock_handled_access_fs (abi : Z) : Z :=
  let access := fold_left Z.lor
    [LANDLOCK_ACCESS_FS_WRITE_FILE; LANDLOCK_ACCESS_FS_READ_FILE; LANDLOCK_ACCESS_FS_READ_DIR;
     LANDLOCK_ACCESS_FS_REMOVE_DIR; LANDLOCK_ACCESS_FS_REMOVE_FILE; LANDLOCK_ACCESS_FS_MAKE_DIR;
     LANDLOCK_ACCESS_FS_MAKE_REG; LANDLOCK_ACCESS_FS_MAKE_SOCK; LANDLOCK_ACCESS_FS_MAKE_FIFO;
     LANDLOCK_ACCESS_FS_MAKE_SYM] LANDLOCK_ACCESS_FS_EXECUTE in
  let access := if (2 <=? abi)%Z then Z.lor access LANDLOCK_ACCESS_FS_REFER else access in
  if (3 <=? abi)%Z then Z.lor access LANDLOCK_ACCESS_FS_TRUNCATE else access.

Definition landlock_runtime_access (abi : Z) : Z := landlock_handled_access_fs abi.

(** [host_hardening::landlock_abi]. *)
Definition landlock_abi : RM Z :=
  r ← sys LandlockAbi;
  if (1 <=? rp_value r)%Z then mret (rp_value r)
  else fail (UnsupportedHost ("secure isolation mode requires Linux Landlock support: " ^+ io_text (rp_error r))).

(** The rule for [/], the only path the code asks for. *)
Definition add_landlock_rule (ruleset_fd access : Z) : RM () :=
  parent_fd ← syscall_owned_fd (OpenPath []) "opening Landlock path /";
  with_fd parent_fd (syscall_ok (LandlockAddRule ruleset_fd parent_fd access) "adding Landlock rule for /").

Definition apply_landlock_policy : RM () :=
  abi ← landlock_abi;
  ruleset_fd ← syscall_owned_fd (LandlockCreateRuleset (landlock_handled_access_fs abi)) "creating Landlock ruleset";
  with_fd ruleset_fd
    (add_landlock_rule ruleset_fd (landlock_runtime_access abi);;
     syscall_ok (LandlockRestrictSelf ruleset_fd) "restricting secure runner with Landlock").

(** The numbers [libc] gives the blocked calls, in the order of the source:
    mount, umount2, unshare, setns, execve, execveat, ptrace, bpf,
    perf_event_open, kexec_load, kexec_file_load, reboot, swapon, swapoff,
    init_module, finit_module, delete_module, open_by_handle_at, userfaultfd. *)
Definition BLOCKED_SYSCALLS (a : Arch) : list Z :=
  match a with
  | X86_64 => [165; 166; 272; 308; 59; 322; 101; 321; 298; 246; 320; 169; 167; 168; 175; 313; 176; 304; 323]%Z
  | Aarch64 => [40; 39; 97; 268; 221; 281; 117; 280; 241; 104; 294; 142; 224; 225; 105; 273; 106; 265; 282]%Z
  end.

Definition socket_family_filter (a : Arch) : list sock_filter :=
  [ bpf_jump BPF_JMP_JEQ_K (SYS_socket a) 0 4;
    bpf_stmt BPF_LD_W_ABS SECCOMP_DATA_ARG0_OFFSET;
    bpf_jump BPF_JMP_JEQ_K AF_UNIX 1 0;
    bpf_stmt BPF_RET_K (Z.lor SECCOMP_RET_ERRNO EPERM);
    bpf_stmt BPF_RET_K SECCOMP_RET_ALLOW ].

Definition build_seccomp_filter (a : Arch) : list sock_filter :=
  [ bpf_stmt BPF_LD_W_ABS SECCOMP_DATA_ARCH_OFFSET;
    bpf_jump BPF_JMP_JEQ_K (seccomp_audit_arch a) 1 0;
    bpf_stmt BPF_RET_K SECCOMP_RET_KILL_PROCESS;
    bpf_stmt BPF_LD_W_ABS SECCOMP_DATA_NR_OFFSET ]
  ++ socket_family_filter a
  ++ (BLOCKED_SYSCALLS a ≫= λ syscall,
        [ bpf_jump BPF_JMP_JEQ_K syscall 0 1; bpf_stmt BPF_RET_K (Z.lor SECCOMP_RET_ERRNO EPERM) ])
  ++ [ bpf_stmt BPF_RET_K SECCOMP_RET_ALLOW ].

Definition apply_seccomp_filter : RM () :=
  syscall_ok (InstallSeccomp (build_seccomp_filter machine)) "installing secure runner seccomp filter".

(** ** [bootstrap.rs] *)

Definition ensure_runtime_root (c : LibkrunRunnerConfig) : RM () :=
  fs_call (FsCreateDirAll (lk_runtime_dir c)) "creating secure runner runtime root";; mret ().

Definition prctl_no_new_privs : RM () := syscall_ok (CallPrctl PR_SET_NO_NEW_PRIVS) "setting PR_SET_NO_NEW_PRIVS".
Definition prctl_disable_dumpable : RM () := syscall_ok (CallPrctl (PR_SET_DUMPABLE 0)) "setting PR_SET_DUMPABLE".

Definition PR_MDWE_REFUSE_EXEC_GAIN : Z := 1.

(** A kernel that does not know the option answers [EINVAL], which is accepted. *)
Definition apply_memory_deny_write_execute : RM () :=
  r ← sys (CallPrctl (PR_SET_MDWE PR_MDWE_REFUSE_EXEC_GAIN));
  if decide (rp_value r = 0)%Z then mret ()
  else if decide (rp_errno r = EINVAL_code) then mret ()
  else last_os_error "setting PR_SET_MDWE" r.

Definition apply_runner_file_limit (limit_bytes : Z) : RM () :=
  syscall_ok (Setrlimit RLIMIT_FSIZE limit_bytes) "setting runner RLIMIT_FSIZE".

Definition runner_fd_limit (max_processes : Z) : Z :=
  default 256%Z (clamp (saturating_mul u32_max max_processes 16) 256 4096).

Definition apply_runner_fd_limit (max_processes : Z) : RM () :=
  syscall_ok (Setrlimit RLIMIT_NOFILE (runner_fd_limit max_processes)) "setting runner RLIMIT_NOFILE".

Definition line_end : string := String line_feed "".

Definition isolate_user_namespace : RM () :=
  uid ← sys Geteuid;
  gid ← sys Getegid;
  syscall_ok (Unshare [NewUser]) "unsharing user namespace";;
  fs_call (FsWrite "/proc/self/setgroups" ("deny" ^+ line_end)) "writing /proc/self/setgroups";;
  fs_call (FsWrite "/proc/self/uid_map" ("0 " ^+ pretty (rp_value uid) ^+ " 1" ^+ line_end)) "writing /proc/self/uid_map";;
  fs_call (FsWrite "/proc/self/gid_map" ("0 " ^+ pretty (rp_value gid) ^+ " 1" ^+ line_end)) "writing /proc/self/gid_map";;
  syscall_ok (Setresgid 0 0 0) "switching secure runner gid mapping";;
  syscall_ok (Setresuid 0 0 0) "switching secure runner uid mapping".

Definition isolate_mount_ipc_uts_network_and_cgroup : RM () :=
  syscall_ok (Unshare [NewNs; NewNet; NewIpc; NewUts; NewCgroup])
    "unsharing mount, network, ipc, uts, and cgroup namespaces";;
  mount_path None [] None (Z.lor MS_REC MS_PRIVATE) None "making mount namespace private".

Definition bind_mount_path (source : string) (target : path) (read_only : bool) (context : string) : RM () :=
  present ← sys (FsExists source);
  if decide (rp_value present ≠ 1)%Z then fail (UnsupportedHost (context ^+ ": missing " ^+ source)) else
  fs_call (FsCreateDirAll (parent target)) (context ^+ ": creating " ^+ display (parent target));;
  dir ← sys (FsIsDir source);
  fs_call (if decide (rp_value dir = 1)%Z then FsCreateDirAll target else FsTruncate target)
    (context ^+ ": creating " ^+ display target);;
  dir ← sys (FsIsDir source);
  mount_path (Some source) target None
    (if decide (rp_value dir = 1)%Z then Z.lor MS_BIND MS_REC else MS_BIND) None context;;
  if read_only then
    dir ← sys (FsIsDir source);
    mount_path None target None
      (Z.lor (Z.lor MS_BIND MS_REMOUNT) (if decide (rp_value dir = 1)%Z then Z.lor MS_RDONLY MS_REC else MS_RDONLY))
      None context
  else mret ().

Definition secure_root_dir (c : LibkrunRunnerConfig) : Result SandboxError path :=
  match lk_runtime_dir c with
  | [] => Err (InvalidConfig "secure runner runtime_dir must have a parent")
  | p => Ok (parent p)
  end.

Definition optionally {A} (o : option A) (f : A → RM ()) : RM () := match o with Some a => f a | None => mret () end.

(** The configuration as seen from inside the new root. *)
Definition staged_config (c : LibkrunRunnerConfig) : LibkrunRunnerConfig :=
  mkRunner "/guest-assets/kernel" (lk_kernel_format c) "/guest-assets/rootfs.raw"
    ((λ _, ["guest-assets"; "cache.raw"]) <$> lk_cache_image c) ["guest-assets"; "workspace.raw"]
    ["runtime"] ["guest-console.log"] ((λ _, "/guest-assets/firmware.fd") <$> lk_firmware c)
    (lk_guest_agent_path c) (lk_cpu_cores c) (lk_memory_mb c) (lk_tmpfs_mib c) (lk_max_processes c)
    (lk_network_enabled c) (lk_guest_uid c) (lk_guest_gid c) (lk_guest_vsock_port c)
    ["runtime"; "guest.sock"] (lk_isolation_mode c) (lk_runner_log_limit_bytes c).

Definition devices : list (string * string) :=
  [("/dev/kvm", "kvm"); ("/dev/null", "null"); ("/dev/zero", "zero"); ("/dev/urandom", "urandom")].

Definition stage_secure_runtime_root (c : LibkrunRunnerConfig) : RM (path * LibkrunRunnerConfig) :=
  root_dir ← checked (secure_root_dir c);
  let guest_assets_dir := root_dir ++ ["guest-assets"] in
  let dev_dir := root_dir ++ ["dev"] in
  for_each (λ dir, fs_call (FsCreateDirAll dir) ("creating " ^+ display dir);; mret ())
    [root_dir; lk_runtime_dir c; guest_assets_dir; dev_dir; root_dir ++ ["proc"]; root_dir ++ ["tmp"]];;
  bind_mount_path (lk_kernel_image c) (guest_assets_dir ++ ["kernel"]) true "staging secure runner kernel image";;
  bind_mount_path (lk_rootfs_image c) (guest_assets_dir ++ ["rootfs.raw"]) true "staging secure runner rootfs image";;
  optionally (lk_cache_image c) (λ cache,
    bind_mount_path (display cache) (guest_assets_dir ++ ["cache.raw"]) true "staging secure runner cache image");;
  bind_mount_path (display (lk_workspace_image c)) (guest_assets_dir ++ ["workspace.raw"]) false
    "staging secure runner workspace image";;
  optionally (lk_firmware c) (λ firmware,
    bind_mount_path firmware (guest_assets_dir ++ ["firmware.fd"]) true "staging secure runner firmware image");;
  for_each (λ '(source, name),
    bind_mount_path source (dev_dir ++ [name]) false ("staging secure runner device " ^+ name)) devices;;
  mret (root_dir, staged_config c).

(** The status [waitpid] stores, through the macros of [libc]. *)
Definition wait_code (status : Z) : Z :=
  if decide (Z.land status 127 = 0)%Z then Z.land (Z.shiftr status 8) 255
  else if decide (Z.land status 127 ≠ 127)%Z then (128 + Z.land status 127)%Z
  else 1.

Variable patience : nat.

(** The parent waits for the first process of the new namespace and exits as it did. *)
Fixpoint wait_and_exit (fuel : nat) (pid : Z) : RM () :=
  match fuel with
  | O => throw Waiting
  | S fuel' =>
      r ← sys (Waitpid pid);
      if decide (rp_value r = pid) then throw (Exited (wait_code (rp_status r)))
      else if decide (rp_errno r = EINTR_code) then wait_and_exit fuel' pid
      else last_os_error "waiting for pid namespace child" r
  end.

Definition enter_pid_namespace : RM () :=
  syscall_ok (Unshare [NewPid]) "unsharing pid namespace";;
  child ← sys Fork;
  (if decide (rp_value child < 0)%Z then last_os_error "forking secure runner pid namespace init" child
   else if decide (0 < rp_value child)%Z then wait_and_exit patience (rp_value child)
   else mret ());;
  syscall_ok Setsid "creating secure runner session".

Definition enter_chroot (root_dir : path) : RM () :=
  checked (path_cstring (display root_dir) "secure runner root");;
  syscall_ok (Chdir root_dir) "changing directory to secure runner root";;
  syscall_ok (Chroot root_dir) "chrooting secure runner into runtime root";;
  syscall_ok (Chdir []) "changing directory to secure runner chroot root".

Definition mount_proc : RM () :=
  mount_path (Some "proc") ["proc"] (Some "proc") (fold_left Z.lor [MS_NOSUID; MS_NODEV; MS_NOEXEC] MS_RDONLY) None
    "mounting secure runner /proc".
Definition mount_private_tmp : RM () :=
  mount_path (Some "tmpfs") ["tmp"] (Some "tmpfs") (fold_left Z.lor [MS_NODEV; MS_NOEXEC] MS_NOSUID)
    (Some "mode=700,size=16777216") "mounting secure runner private /tmp".

(** [str::parse] at [i32]: a sign, then digits. *)
Definition parse_fd (name : string) : option Z :=
  match name with
  | String "-" (String _ _ as digits) => Z.opp <$> parse_digits (2 ^ 31) 0 digits
  | _ => parse_uint (2 ^ 31 - 1) name
  end.

Definition close_extra_fds : RM () :=
  listing ← fs_call (FsReadDir "/proc/self/fd") "reading /proc/self/fd";
  names ← map_each (λ entry, match entry with Ok name => mret name | Err e => fail (Io "reading /proc/self/fd entry" e) end)
            (rp_names listing);
  for_each (λ fd, sys (Close fd);; mret ()) (filter (λ fd, 2 < fd)%Z (omap parse_fd names)).

Definition apply_secure_bootstrap (c : LibkrunRunnerConfig) : RM LibkrunRunnerConfig :=
  sys (Umask 63);;  (* 0o077 *)
  ensure_runtime_root c;;
  prctl_no_new_privs;;
  prctl_disable_dumpable;;
  apply_memory_deny_write_execute;;
  apply_runner_file_limit (lk_runner_log_limit_bytes c);;
  apply_runner_fd_limit (lk_max_processes c);;
  isolate_user_namespace;;
  isolate_mount_ipc_uts_network_and_cgroup;;
  '(root_dir, c') ← stage_secure_runtime_root c;
  enter_pid_namespace;;
  enter_chroot root_dir;;
  mount_proc;;
  mount_private_tmp;;
  for_each (λ key, sys (SetVar key "/tmp");; mret ()) ["TMPDIR"; "TEMP"; "TMP"];;
  close_extra_fds;;
  apply_landlock_policy;;
  apply_seccomp_filter;;
  mret c'.
End runner.

(** ** What the bootstrap achieves *)

(** The transformers of the view the steps amount to. *)
Definition add_mount (m : MountEntry) (v : View) : View :=
  mkView (v_umask v) (v_no_new_privs v) (v_dumpable v) (v_rlimits v) (v_namespaces v) (v_first_in_pid_namespace v)
    (v_private_mounts v) (m :: v_mounts v) (v_root v) (v_ruleset v) (v_landlock v) (v_seccomp v).

Section bootstrap_props.
Context `{Kernel}.

Lemma syscall_ok_inv s context h u h' :
  syscall_ok s context h = (Ok u, h') → h' = (s, kernel h s) :: h ∧ view h' = effect s (view h) ∧ rp_value (kernel h s) = 0%Z.
Proof.
  unfold syscall_ok, sys, mbind, M_bind. simpl. case_decide as Hv; [done|]. intros [= _ <-].
  assert (rp_value (kernel h s) = 0%Z) by lia. split_and!; [done| |done]. apply view_cons. lia.
Qed.

Lemma syscall_owned_fd_inv s context h fd h' :
  syscall_owned_fd s context h = (Ok fd, h') →
  h' = (s, kernel h s) :: h ∧ view h' = effect s (view h) ∧ fd = rp_value (kernel h s).
Proof.
  unfold syscall_owned_fd, sys, mbind, M_bind. simpl. case_decide as Hv; [done|]. intros [= <- <-].
  split_and!; [done| |done]. apply view_cons. lia.
Qed.

Lemma mount_path_inv source target fstype flags data context h u h' :
  mount_path source target fstype flags data context h = (Ok u, h') →
  view h' = effect (Mount source target fstype flags data) (view h).
Proof.
  unfold mount_path. intros Hr. ok_inv;
    repeat match goal with Hc : checked _ _ = (Ok _, _) |- _ => apply checked_ok_inv in Hc as [_ ->] end;
    by apply syscall_ok_inv in Hr as (_ & -> & _).
Qed.
End bootstrap_props.

(** Reads a successful run backwards: every call is now in the history, and
    the view of the state after it is its effect. *)
Ltac run_step :=
  match goal with
  | Hc : sys _ _ = (Ok _, _) |- _ => apply sys_ok_inv in Hc as ->
  | Hc : fs_call _ _ _ = (Ok _, _) |- _ => apply fs_call_ok_inv in Hc as (-> & ?)
  | Hc : checked _ _ = (Ok _, _) |- _ => apply checked_ok_inv in Hc as [? ->]
  | Hc : fail _ _ = (Ok _, _) |- _ => discriminate Hc
  | Hc : last_os_error _ _ _ = (Ok _, _) |- _ => discriminate Hc
  | _ => ok_inv_step
  end.
Ltac run_inv := repeat run_step.

(** The calls that leave the view alone. *)
Definition passive (s : Sys) : Prop := ∀ v, effect s v = v.

Ltac passive_tac := intros []; reflexivity.
Ltac skip_calls := rewrite ?view_skip by (intros []; reflexivity).

Section bootstrap_views.
Context `{Kernel}.

Lemma keeps_view {A} (m : RM A) h r h' : keeps (extends passive) m → m h = (r, h') → view h' = view h.
Proof.
  intros Hm Hr. specialize (Hm h). rewrite Hr in Hm. destruct Hm as (new & Hnew & Hall). simpl in Hnew. subst h'.
  clear Hr. induction new as [|[s x] new IH]; [done|]. apply Forall_cons in Hall as [Hs Hall].
  change (view ((s, x) :: (new ++ h)) = view h). rewrite view_skip; [by apply IH|exact Hs].
Qed.

Lemma effect_mount source target fstype flags data v :
  has_flag flags MS_REMOUNT = false → has_flag flags MS_PRIVATE = false →
  effect (Mount source target fstype flags data) v =
  add_mount (mkMount source (v_root v ++ target) fstype (negb (has_flag flags MS_BIND) && has_flag flags MS_RDONLY)) v.
Proof. intros H1 H2. destruct v. simpl. by rewrite H1, H2. Qed.

Lemma effect_remount target flags data source fstype ro v :
  has_flag flags MS_REMOUNT = true → has_flag flags MS_RDONLY = true →
  effect (Mount None target None flags data) (add_mount (mkMount source (v_root v ++ target) fstype ro) v) =
  add_mount (mkMount source (v_root v ++ target) fstype true) v.
Proof. intros H1 H2. destruct v. simpl. rewrite H1, H2. simpl. by rewrite decide_True. Qed.

Lemma bind_mount_view source target read_only context h u h' :
  bind_mount_path source target read_only context h = (Ok u, h') →
  view h' = add_mount (mkMount (Some source) (v_root (view h) ++ target) None read_only) (view h).
Proof.
  unfold bind_mount_path. intros Hr. run_inv;
    repeat match goal with Hm : mount_path _ _ _ _ _ _ _ = (Ok _, _) |- _ => apply mount_path_inv in Hm end.
  - rewrite Hr. skip_calls. rewrite Hrun. repeat case_decide; skip_calls;
      rewrite (effect_mount (Some source)), effect_remount by done; by subst.
  - rewrite Hrun. repeat case_decide; skip_calls; rewrite effect_mount by done; by subst.
Qed.

Definition add_mounts (l : list MountEntry) (v : View) : View := fold_left (λ v m, add_mount m v) l v.

Lemma v_root_add_mounts l v : v_root (add_mounts l v) = v_root v.
Proof. revert v. induction l as [|m l IH]; intros v; [done|]. simpl. by rewrite IH. Qed.

(** What the runner sees of the host, in the order it is mounted: the images
    read-only except the workspace's, and four devices. *)
Definition staged (root : path) (c : LibkrunRunnerConfig) : list MountEntry :=
  let asset source name ro := mkMount (Some source) (root ++ ["guest-assets"; name]) None ro in
  [asset (lk_kernel_image c) "kernel" true; asset (lk_rootfs_image c) "rootfs.raw" true]
  ++ ((λ cache, asset (display cache) "cache.raw" true) <$> option_list (lk_cache_image c))
  ++ [asset (display (lk_workspace_image c)) "workspace.raw" false]
  ++ ((λ firmware, asset firmware "firmware.fd" true) <$> option_list (lk_firmware c))
  ++ ((λ '(source, name), mkMount (Some source) (root ++ ["dev"; name]) None false) <$> devices).

Lemma create_dirs_view dirs h u h' :
  for_each (λ dir, fs_call (FsCreateDirAll dir) ("creating " ^+ display dir);; mret ()) dirs h = (Ok u, h') →
  view h' = view h.
Proof.
  intros Hr. eapply keeps_view; [|exact Hr]. apply keeps_for_each; [typeclasses eauto|]. intros dir _.
  keeps_tac. apply keeps_fs_call. passive_tac.
Qed.

Lemma optionally_view {A} (o : option A) (f : A → RM ()) (m : A → MountEntry) h u h' :
  (∀ a h u h', v_root (view h) = [] → f a h = (Ok u, h') → view h' = add_mount (m a) (view h)) →
  v_root (view h) = [] → optionally o f h = (Ok u, h') → view h' = add_mounts (m <$> option_list o) (view h).
Proof. intros Hf Hroot. destruct o; simpl; [by apply Hf|]. by intros [= _ <-]. Qed.

Lemma devices_view dev_dir l h u h' :
  v_root (view h) = [] →
  for_each (λ '(source, name),
    bind_mount_path source (dev_dir ++ [name]) false ("staging secure runner device " ^+ name)) l h = (Ok u, h') →
  view h' = add_mounts ((λ '(source, name), mkMount (Some source) (dev_dir ++ [name]) None false) <$> l) (view h).
Proof.
  revert h. induction l as [|[source name] l IH]; intros h Hroot; simpl; [by intros [= _ <-]|].
  intros (x & h1 & H1 & H2)%bind_ok_inv. apply bind_mount_view in H1. rewrite Hroot in H1.
  apply IH in H2; [by rewrite H2, H1|]. by rewrite H1.
Qed.

Lemma add_mounts_app l k v : add_mounts (l ++ k) v = add_mounts k (add_mounts l v).
Proof. apply fold_left_app. Qed.

Lemma bind_mount_at source target read_only context h u h' :
  v_root (view h) = [] → bind_mount_path source target read_only context h = (Ok u, h') →
  view h' = add_mount (mkMount (Some source) target None read_only) (view h).
Proof. intros Hroot Hr. apply bind_mount_view in Hr. by rewrite Hroot in Hr. Qed.

Lemma stage_view c h root c' h' :
  v_root (view h) = [] → stage_secure_runtime_root c h = (Ok (root, c'), h') →
  secure_root_dir c = Ok root ∧ c' = staged_config c ∧ view h' = add_mounts (staged root c) (view h).
Proof.
  intros Hroot. unfold stage_secure_runtime_root. intros Hr. run_inv. simplify_eq. split_and!; [done|done|].
  rename select (for_each _ _ h = _) into Hdirs. apply create_dirs_view in Hdirs. rewrite <-Hdirs in *.
  rename select (bind_mount_path (lk_kernel_image c) _ _ _ _ = _) into H1. apply bind_mount_at in H1; [|done].
  rename select (bind_mount_path (lk_rootfs_image c) _ _ _ _ = _) into H2.
  apply bind_mount_at in H2; [|by rewrite H1].
  rename select (optionally (lk_cache_image c) _ _ = _) into H3.
  eapply (optionally_view _ _ (λ cache, mkMount (Some (display cache)) _ None true)) in H3;
    [|intros *; apply bind_mount_at|by rewrite H2, H1].
  rename select (bind_mount_path (display _) _ _ _ _ = _) into H4.
  apply bind_mount_at in H4; [|by rewrite H3, v_root_add_mounts, H2, H1].
  rename select (optionally (lk_firmware c) _ _ = _) into H5.
  eapply (optionally_view _ _ (λ firmware, mkMount (Some firmware) _ None true)) in H5;
    [|intros *; apply bind_mount_at|by rewrite H4; simpl; rewrite H3, v_root_add_mounts, H2, H1].
  rename select (for_each _ devices _ = _) into H6. apply devices_view in H6;
    [|by rewrite H5, v_root_add_mounts, H4; simpl; rewrite H3, v_root_add_mounts, H2, H1].
  rewrite H6, H5, H4, H3, H2, H1. unfold staged. rewrite !add_mounts_app, <-!app_assoc. simpl.
  rewrite <-!app_assoc. done.
Qed.

Lemma add_mounts_view l v :
  add_mounts l v =
  mkView (v_umask v) (v_no_new_privs v) (v_dumpable v) (v_rlimits v) (v_namespaces v) (v_first_in_pid_namespace v)
    (v_private_mounts v) (rev l ++ v_mounts v) (v_root v) (v_ruleset v) (v_landlock v) (v_seccomp v).
Proof.
  revert v. induction l as [|m l IH]; intros v; [by destruct v|]. simpl. rewrite IH. simpl. by rewrite <-app_assoc.
Qed.

Lemma mdwe_view h u h' : apply_memory_deny_write_execute h = (Ok u, h') → view h' = view h.
Proof. unfold apply_memory_deny_write_execute. intros Hr. run_inv; by skip_calls. Qed.

Lemma wait_and_exit_not_ok fuel pid h u h' : wait_and_exit fuel pid h ≠ (Ok u, h').
Proof.
  revert h. induction fuel as [|fuel IH]; intros h Hr; simpl in Hr; [done|]. run_inv. by eapply IH.
Qed.

Lemma pid_namespace_view patience h u h' :
  enter_pid_namespace patience h = (Ok u, h') →
  ∃ h1, view h1 = effect Fork (effect (Unshare [NewPid]) (view h)) ∧
    h' = (Setsid, kernel h1 Setsid) :: h1 ∧ rp_value (kernel h1 Setsid) = 0%Z.
Proof.
  unfold enter_pid_namespace. intros Hr. run_inv; [by exfalso; eapply wait_and_exit_not_ok|].
  rename select (syscall_ok (Unshare _) _ _ = _) into H1. apply syscall_ok_inv in H1 as (_ & H1 & _).
  apply syscall_ok_inv in Hr as (-> & _ & Hsid). eexists. split_and!; [|done|done].
  rewrite view_cons, H1; [done|lia].
Qed.

Lemma close_extra_fds_view h u h' : close_extra_fds h = (Ok u, h') → view h' = view h.
Proof.
  intros Hr. eapply keeps_view; [|exact Hr]. unfold close_extra_fds, fail. keeps_tac.
  - apply keeps_fs_call. passive_tac.
  - apply keeps_map_each; [typeclasses eauto|]. intros [] _; keeps_tac.
  - apply keeps_for_each; [typeclasses eauto|]. intros fd _. keeps_tac. apply keeps_sys. passive_tac.
Qed.

Lemma landlock_view h u h' :
  apply_landlock_policy h = (Ok u, h') →
  ∃ abi access, (1 ≤ abi)%Z ∧ access = landlock_handled_access_fs abi ∧
    view h' = effect (LandlockRestrictSelf 0) (effect (LandlockAddRule 0 0 access)
                (effect (LandlockCreateRuleset access) (view h))).
Proof.
  unfold apply_landlock_policy, landlock_abi, add_landlock_rule. intros Hr. run_inv.
  repeat match goal with
  | Hc : with_fd _ _ _ = (Ok _, _) |- _ => apply with_fd_ok_inv in Hc as (? & Hc & ? & ->); run_inv
  | Hc : syscall_owned_fd _ _ _ = (Ok _, _) |- _ => apply syscall_owned_fd_inv in Hc as (_ & Hc & ->)
  | Hc : syscall_ok _ _ _ = (Ok _, _) |- _ => apply syscall_ok_inv in Hc as (_ & Hc & _)
  end.
  eexists _, _. split_and!; [|done|]; [by apply Z.leb_le|].
  skip_calls. rename select (view x = _) into H1. rewrite H1. skip_calls.
  rename select (view x8 = _) into H2. rename select (view x7 = _) into H3. rename select (view x2 = _) into H4.
  rewrite H2, H3, H4. skip_calls. by destruct (view h).
Qed.

(** The process the bootstrap leaves behind. *)
Definition secured_view (c : LibkrunRunnerConfig) (root : path) (abi : Z) : View :=
  let access := landlock_handled_access_fs abi in
  mkView (Some 63%Z) true false
    [(RLIMIT_NOFILE, runner_fd_limit (lk_max_processes c)); (RLIMIT_FSIZE, lk_runner_log_limit_bytes c)]
    [NewPid; NewNs; NewNet; NewIpc; NewUts; NewCgroup; NewUser] true true
    (mkMount (Some "tmpfs") (root ++ ["tmp"]) (Some "tmpfs") false
       :: mkMount (Some "proc") (root ++ ["proc"]) (Some "proc") true :: rev (staged root c))
    root (Some (access, access)) (Some (access, access)) [build_seccomp_filter machine].

(** The part before the new root, from a process that has made no call of effect. *)
Definition isolated_view (c : LibkrunRunnerConfig) : View :=
  mkView (Some 63%Z) true false
    [(RLIMIT_NOFILE, runner_fd_limit (lk_max_processes c)); (RLIMIT_FSIZE, lk_runner_log_limit_bytes c)]
    [NewNs; NewNet; NewIpc; NewUts; NewCgroup; NewUser] false true [] [] None None [].

Ltac syscalls_inv :=
  repeat match goal with
  | Hc : syscall_ok _ _ _ = (Ok _, _) |- _ => apply syscall_ok_inv in Hc as (_ & Hc & _)
  | Hc : mount_path _ _ _ _ _ _ _ = (Ok _, _) |- _ => apply mount_path_inv in Hc
  end.

Lemma user_namespace_view h u h' :
  isolate_user_namespace h = (Ok u, h') → view h' = effect (Unshare [NewUser]) (view h).
Proof.
  unfold isolate_user_namespace. intros Hr. run_inv. syscalls_inv.
  repeat match goal with He : view _ = effect _ _ |- _ => rewrite He; clear He; skip_calls end. by destruct (view h).
Qed.

Lemma other_namespaces_view h u h' :
  isolate_mount_ipc_uts_network_and_cgroup h = (Ok u, h') →
  view h' = effect (Mount None [] None (Z.lor MS_REC MS_PRIVATE) None)
    (effect (Unshare [NewNs; NewNet; NewIpc; NewUts; NewCgroup]) (view h)).
Proof.
  unfold isolate_mount_ipc_uts_network_and_cgroup. intros Hr. run_inv. syscalls_inv. by rewrite Hr, Hrun.
Qed.

Lemma chroot_view root h u h' : enter_chroot root h = (Ok u, h') → view h' = effect (Chroot root) (view h).
Proof.
  unfold enter_chroot. intros Hr. run_inv. syscalls_inv.
  repeat match goal with He : view _ = effect _ _ |- _ => rewrite He; clear He; skip_calls end. by destruct (view h).
Qed.

Lemma set_vars_view keys h u h' :
  for_each (λ key, sys (SetVar key "/tmp");; mret ()) keys h = (Ok u, h') → view h' = view h.
Proof.
  intros Hr. eapply keeps_view; [|exact Hr]. apply keeps_for_each; [typeclasses eauto|]. intros key _.
  keeps_tac. apply keeps_sys. passive_tac.
Qed.

(** A bootstrap that succeeds leaves the process confined, whatever the kernel
    answered on the way. *)
Lemma bootstrap_view patience c h c' h' :
  view h = initial_view → apply_secure_bootstrap patience c h = (Ok c', h') →
  ∃ root abi, secure_root_dir c = Ok root ∧ (1 ≤ abi)%Z ∧ c' = staged_config c ∧ view h' = secured_view c root abi.
Proof.
  intros Hi. unfold apply_secure_bootstrap, ensure_runtime_root, prctl_no_new_privs, prctl_disable_dumpable,
    apply_runner_file_limit, apply_runner_fd_limit, mount_proc, mount_private_tmp, apply_seccomp_filter.
  intros Hr. run_inv. syscalls_inv.
  repeat match goal with
  | Hc : apply_memory_deny_write_execute _ = _ |- _ => apply mdwe_view in Hc
  | Hc : isolate_user_namespace _ = _ |- _ => apply user_namespace_view in Hc
  | Hc : isolate_mount_ipc_uts_network_and_cgroup _ = _ |- _ => apply other_namespaces_view in Hc
  | Hc : enter_chroot _ _ = _ |- _ => apply chroot_view in Hc
  | Hc : for_each _ _ _ = _ |- _ => apply set_vars_view in Hc
  | Hc : close_extra_fds _ = _ |- _ => apply close_extra_fds_view in Hc
  end.
  rename select (apply_landlock_policy _ = _) into Hl. apply landlock_view in Hl as (abi & access & Habi & -> & Hl).
  rename select (enter_pid_namespace _ _ = _) into Hp. apply pid_namespace_view in Hp as (hp & Hp & -> & Hs).
  rename select (stage_secure_runtime_root _ _ = _) into Ht.
  match type of Ht with stage_secure_runtime_root _ ?x = _ => assert (Hiso : view x = isolated_view c) end.
  { repeat match goal with He : view ?x = _ |- context [view ?x] => rewrite He end. skip_calls.
    unfold view at 1. simpl. fold (view h). by rewrite Hi. }
  apply stage_view in Ht as (Hroot & -> & Ht); [|by rewrite Hiso].
  eexists _, abi. split_and!; [done|done|done|].
  repeat match goal with He : view ?x = _ |- context [view ?x] => rewrite He end. skip_calls.
  rewrite Hp, Ht, Hiso, add_mounts_view. simpl. rewrite app_nil_r. done.
Qed.
End bootstrap_views.

(** ** The filter of the runner *)

Definition refuse_all (l : list Z) : list sock_filter :=
  l ≫= λ syscall, [ bpf_jump BPF_JMP_JEQ_K syscall 0 1; bpf_stmt BPF_RET_K (Z.lor SECCOMP_RET_ERRNO EPERM) ].

(** The chain of comparisons, with fuel for every instruction. *)
Lemma refuse_all_verdict l fuel acc d :
  length (refuse_all l) < fuel →
  bpf_run fuel (refuse_all l ++ [bpf_stmt BPF_RET_K SECCOMP_RET_ALLOW]) acc d =
  Some (if bool_decide (acc ∈ l) then Z.lor SECCOMP_RET_ERRNO EPERM else SECCOMP_RET_ALLOW).
Proof.
  revert fuel. induction l as [|k l IH]; intros fuel Hf; [destruct fuel; [simpl in Hf; lia|done]|].
  change (refuse_all (k :: l)) with
    (bpf_jump BPF_JMP_JEQ_K k 0 1 :: bpf_stmt BPF_RET_K (Z.lor SECCOMP_RET_ERRNO EPERM) :: refuse_all l) in *.
  cbn [app length] in *. destruct fuel as [|[|fuel]]; [lia..|]. rewrite bpf_jeq.
  destruct (Z.eqb_spec acc k) as [->|Hne]; cbn [drop].
  - by rewrite bpf_ret, bool_decide_true by (by left).
  - rewrite IH, (bool_decide_ext (acc ∈ k :: l) (acc ∈ l)) by (lia || (rewrite elem_of_cons; naive_solver)). done.
Qed.

(** C27: what the runner of a secure sandbox may call: under the architecture it was built
    for, [socket] succeeds for [AF_UNIX] only, each of the nineteen calls that could undo
    its confinement (mounts, namespaces, new programs, tracing, BPF, modules, reboot, ...)
    is refused with [EPERM], and every other number is let through; a call under another
    architecture kills the process.  The program always comes to a verdict. *)
Theorem runner_filter_verdict a d x args :
  sd_args d = x :: args →
  seccomp_verdict (build_seccomp_filter a) d =
    Some (if (Z.land (sd_arch d) u32_max =? seccomp_audit_arch a)%Z then
            let nr := Z.land (sd_nr d) u32_max in
            if (nr =? SYS_socket a)%Z then
              if (Z.land x u32_max =? AF_UNIX)%Z then SECCOMP_RET_ALLOW else Z.lor SECCOMP_RET_ERRNO EPERM
            else if bool_decide (nr ∈ BLOCKED_SYSCALLS a) then Z.lor SECCOMP_RET_ERRNO EPERM
            else SECCOMP_RET_ALLOW
          else SECCOMP_RET_KILL_PROCESS).
Proof.
  intros Hx. unfold seccomp_verdict.
  assert (∃ fuel, length (build_seccomp_filter a) = 9 + S (length (refuse_all (BLOCKED_SYSCALLS a))) + fuel)
    as [fuel ->] by (by exists 0; destruct a).
  unfold build_seccomp_filter, socket_family_filter. fold (refuse_all (BLOCKED_SYSCALLS a)).
  cbn [Nat.add app]. rewrite bpf_load, load_arch. cbn [mbind option_bind]. rewrite bpf_jeq.
  destruct (_ =? seccomp_audit_arch a)%Z; cbn [drop]; [|by rewrite bpf_ret].
  rewrite bpf_load, load_nr. cbn [mbind option_bind]. rewrite bpf_jeq. cbv zeta.
  destruct (_ =? SYS_socket a)%Z; cbn [drop].
  - rewrite bpf_load, load_arg0, Hx. cbn [lookup list_lookup fmap option_fmap option_map mbind option_bind].
    rewrite bpf_jeq. destruct (_ =? AF_UNIX)%Z; cbn [drop]; by rewrite bpf_ret.
  - apply refuse_all_verdict. lia.
Qed.
