(* ===== verification/Microvm.v ===== *)
(** * Microvm: [src/backend/libkrun/loader.rs], [loader/kernel.rs] and [runner.rs]

    The runner process: it reads its configuration, waits for the daemon to
    release it, confines itself in secure mode, builds a microVM with libkrun
    and enters it. *)

From S2P Require Import Prelude RustStd Text Paths FileSystem PrivateFs Config Lineage Workspace Images Protocol Runtime GuestBoot GuestExec Kernel SecureRunner.

Definition KRUN_DISK_FORMAT_RAW : Z := 0.
Definition KRUN_SYNC_RELAXED : Z := 1.
Definition KRUN_LOG_LEVEL_TRACE : Z := 5.
Definition KRUN_LOG_STYLE_NEVER : Z := 2.
Definition KRUN_TSI_DISABLED : Z := 0.

(** ** [loader/kernel.rs] *)

Definition kernel_format_code (format : GuestKernelFormat) : Z :=
  match format with Raw => 0 | Elf => 1 | PeGz => 2 | ImageBz2 => 3 | ImageGz => 4 | ImageZstd => 5 end.

(** [Path::file_name]. *)
Definition path_file_name (p : string) : option string :=
  match last (components p) with Some (Normal name) => Some name | _ => None end.

Definition div_ceil (a b : Z) : Z := ((a + b - 1) / b)%Z.

Section microvm.
Context `{Kernel, Target}.

Definition host_page_size : RM Z :=
  r ← sys Sysconf_PAGESIZE;
  if decide (rp_value r ≤ 0)%Z then fail (Backend "failed to determine host page size for libkrun kernel mmap")
  else mret (rp_value r).

Definition pad_kernel_file_for_mmap (kernel_image : string) (runtime_dir : path) (page_size : Z) : RM string :=
  metadata ← fs_call (FsLen kernel_image) "reading kernel image metadata";
  let kernel_size := rp_value metadata in
  let aligned_size := (div_ceil kernel_size page_size * page_size)%Z in
  if decide (aligned_size = kernel_size) then mret kernel_image else
  fs_call (FsCreateDirAll runtime_dir) "creating libkrun runtime directory";;
  let file_name := match path_file_name kernel_image with
                   | Some name => if is_empty name then "kernel.raw" else name
                   | None => "kernel.raw" end in
  let padded_path := runtime_dir ++ [file_name ^+ ".page-aligned"] in
  fs_call (FsCopy kernel_image padded_path) "copying kernel image for libkrun mmap";;
  fs_call (FsOpen padded_path) "opening padded kernel image";;
  fs_call (FsSetLen padded_path aligned_size) "extending padded kernel image";;
  mret (display padded_path).

Definition kernel_image_for_libkrun (c : LibkrunRunnerConfig) : RM string :=
  if on_linux && target_x86_64 && bool_decide (lk_kernel_format c = Raw) then
    page_size ← host_page_size; pad_kernel_file_for_mmap (lk_kernel_image c) (lk_runtime_dir c) page_size
  else mret (lk_kernel_image c).

(** ** [loader.rs] *)

Definition krun (call : KrunCall) (name : string) : RM Z :=
  r ← sys (Krun call);
  if decide (rp_value r < 0)%Z then fail (Backend (name ^+ " failed with " ^+ pretty (rp_value r))) else mret (rp_value r).
Definition krun_call (call : KrunCall) (name : string) : RM () := krun call name;; mret ().

Definition the_init_log : KrunCall := krun_init_log 2 KRUN_LOG_LEVEL_TRACE KRUN_LOG_STYLE_NEVER 1.

(** [OnceLock::get_or_init]: the first call decides for the whole process. *)
Definition init_log_once : RM () := λ h,
  let result (r : Reply) : Result Halt () :=
    if decide (rp_value r < 0)%Z then Err (Failed (Backend ("krun_init_log failed with " ^+ pretty (rp_value r)))) else Ok () in
  match last (omap (λ '(s, r), match s with Krun (krun_init_log _ _ _ _) => Some r | _ => None end) h) with
  | Some r => (result r, h)
  | None => let r := kernel h (Krun the_init_log) in (result r, (Krun the_init_log, r) :: h)
  end.

Definition call_optional_fd (call : KrunCall) (name : string) : RM (option Z) :=
  r ← sys (Krun call);
  if decide (rp_value r = - EINVAL_code)%Z then mret None
  else if decide (rp_value r < 0)%Z then fail (Backend (name ^+ " failed with " ^+ pretty (rp_value r)))
  else mret (Some (rp_value r)).

Definition to_cstring (p : string) : RM () :=
  if no_nul p then mret () else fail (InvalidConfig ("path contains NUL: " ^+ p)).

Definition configure_krun_init_entrypoint (ctx : Z) (c : LibkrunRunnerConfig) : RM () :=
  to_cstring (lk_guest_agent_path c);;
  krun_call (krun_set_workdir ctx "/") "krun_set_workdir";;
  krun_call (krun_set_exec ctx (lk_guest_agent_path c) [lk_guest_agent_path c] []) "krun_set_exec".

Definition add_disk (ctx : Z) (id disk : string) (read_only : bool) : RM () :=
  krun_call (krun_add_disk3 ctx id disk KRUN_DISK_FORMAT_RAW read_only false KRUN_SYNC_RELAXED)
    ("krun_add_disk3(" ^+ id ^+ ")").

Definition configure_direct_kernel_guest (ctx : Z) (c : LibkrunRunnerConfig) (rootfs : string) (cache : option string)
    (workspace : string) : RM () :=
  optionally (lk_firmware c) (λ firmware,
    to_cstring firmware;; krun_call (krun_set_firmware ctx firmware) "krun_set_firmware");;
  (if uses_krun_init c then mret () else
    kernel_image ← kernel_image_for_libkrun c;
    to_cstring kernel_image;;
    (if no_nul (kernel_cmdline c) then mret () else fail (InvalidConfig "kernel command line contains NUL"));;
    krun_call (krun_set_kernel ctx kernel_image (kernel_format_code (lk_kernel_format c)) (kernel_cmdline c))
      "krun_set_kernel");;
  add_disk ctx "rootfs" rootfs true;;
  add_disk ctx "workspace" workspace false;;
  optionally cache (λ cache, add_disk ctx "cache" cache true);;
  krun_call (krun_set_root_disk_remount ctx root_device "ext4" "ro") "krun_set_root_disk_remount";;
  (if uses_krun_init c then configure_krun_init_entrypoint ctx c else mret ()).

(** The context and the descriptor that asks the guest to shut down; the number
    of processors is passed as [u8]. *)
Definition prepare_microvm (c : LibkrunRunnerConfig) : RM (Z * option Z) :=
  init_log_once;;
  ctx ← krun krun_create_ctx "krun_create_ctx";
  let rootfs := lk_rootfs_image c in
  let cache := display <$> lk_cache_image c in
  let workspace := display (lk_workspace_image c) in
  let vsock_socket := display (lk_vsock_socket c) in
  let console_output := display (lk_console_output_path c) in
  to_cstring rootfs;;
  optionally cache to_cstring;;
  to_cstring workspace;;
  to_cstring vsock_socket;;
  to_cstring console_output;;
  krun_call (krun_set_vm_config ctx (lk_cpu_cores c mod 2 ^ 8) (lk_memory_mb c)) "krun_set_vm_config";;
  krun_call (krun_set_console_output ctx console_output) "krun_set_console_output";;
  krun_call (krun_set_kernel_console ctx "hvc0") "krun_set_kernel_console";;
  krun_call (krun_disable_implicit_vsock ctx) "krun_disable_implicit_vsock";;
  configure_direct_kernel_guest ctx c rootfs cache workspace;;
  krun_call (krun_add_vsock ctx KRUN_TSI_DISABLED) "krun_add_vsock";;
  krun_call (krun_add_vsock_port2 ctx (lk_guest_vsock_port c) vsock_socket true) "krun_add_vsock_port2";;
  shutdown_fd ← call_optional_fd (krun_get_shutdown_eventfd ctx) "krun_get_shutdown_eventfd";
  mret (ctx, shutdown_fd).

(** [krun_start_enter] returns when it could not enter the guest, or when the guest is done. *)
Definition start_enter (ctx : Z) : RM () :=
  r ← sys (Krun (krun_start_enter ctx));
  sys (Krun (krun_free_ctx ctx));;
  if decide (rp_value r < 0)%Z then fail (Backend ("krun_start_enter failed with " ^+ pretty (rp_value r))) else mret ().

(** ** [runner.rs] *)

Variable patience : nat.

Fixpoint read_gate (fuel : nat) (fd : Z) : RM () :=
  match fuel with
  | O => throw Waiting
  | S fuel' =>
      r ← sys (ReadByte fd);
      if decide (rp_value r = 1)%Z then mret ()
      else if decide (rp_value r = 0)%Z then fail (Backend "secure runner startup gate closed before release")
      else if decide (rp_errno r = EINTR_code) then read_gate fuel' fd
      else last_os_error "waiting for secure runner startup gate" r
  end.

(** [gate] is the variable [SAGENS_LIBKRUN_STARTUP_FD] of the environment, and
    [parse_error] what [str::parse] says of a value it rejects. *)
Definition wait_for_startup_gate (gate : option string) (parse_error : string) : RM () :=
  match gate with
  | None => mret ()
  | Some raw_fd =>
      match parse_fd raw_fd with
      | None => fail (InvalidConfig ("invalid SAGENS_LIBKRUN_STARTUP_FD value " ^+ raw_fd ^+ ": " ^+ parse_error))
      | Some fd => with_fd fd (read_gate patience fd)
      end
  end.

(** [config] is the result of [read_runner_config]. *)
Definition run_from_file (config : Result SandboxError LibkrunRunnerConfig) (gate : option string) (parse_error : string) :
    RM () :=
  config ← checked config;
  checked (validate_secure_constraints config);;
  wait_for_startup_gate gate parse_error;;
  config ← (if decide (lk_isolation_mode config = Secure) then
              if on_linux then apply_secure_bootstrap patience config
              else fail (UnsupportedHost "secure runner bootstrap requires Linux")
            else mret config);
  '(ctx, _) ← prepare_microvm config;
  start_enter ctx.
End microvm.

(** ** What a runner does before it enters its guest *)

Definition enters (s : Sys) : bool := match s with Krun (krun_start_enter _) => true | _ => false end.
Definition before_guest (s : Sys) : Prop := enters s = false.

(** Calls of the loader: they build the microVM and do not touch the confinement. *)
Definition building (s : Sys) : Prop := passive s ∧ before_guest s.

(** What the calls of a history say of one subject, the last one first. *)
Definition marks {B} (f : Sys → option B) (h : History) : list B := omap (λ c, f c.1) h.

(** The disks of the microVM: identifier, image as the runner names it,
    read-only; and the sockets it offers the ports of the guest on. *)
Definition disk_of (s : Sys) : option (string * string * bool) :=
  match s with Krun (krun_add_disk3 _ id disk _ ro _ _) => Some (id, disk, ro) | _ => None end.
Definition socket_of (s : Sys) : option (Z * string) :=
  match s with Krun (krun_add_vsock_port2 _ port socket _) => Some (port, socket) | _ => None end.

Definition disks_of (c : LibkrunRunnerConfig) : list (string * string * bool) :=
  [("rootfs", lk_rootfs_image c, true); ("workspace", display (lk_workspace_image c), false)]
  ++ ((λ cache, ("cache", display cache, true)) <$> option_list (lk_cache_image c)).

(** ... and those of them that say nothing of disks and sockets. *)
Definition plain (s : Sys) : Prop := building s ∧ disk_of s = None ∧ socket_of s = None.

Section microvm_props.
Context `{Kernel, Target}.

Ltac building_tac := split; [passive_tac|reflexivity].
Ltac plain_tac := split_and!; [building_tac|reflexivity|reflexivity].

Lemma extends_impl (P Q : Sys → Prop) h h' : (∀ s, P s → Q s) → extends P h h' → extends Q h h'.
Proof. intros HPQ (new & -> & Hall). exists new. split; [done|]. eapply Forall_impl; [exact Hall|]. auto. Qed.

Lemma keeps_krun (P : Sys → Prop) call name : P (Krun call) → keeps (extends P) (krun call name).
Proof. intros Hb. unfold krun, fail. keeps_tac; by auto using keeps_sys. Qed.
Lemma keeps_krun_call (P : Sys → Prop) call name : P (Krun call) → keeps (extends P) (krun_call call name).
Proof. intros Hb. unfold krun_call. keeps_tac; by auto using keeps_krun. Qed.
Lemma keeps_to_cstring P p : keeps (extends P) (to_cstring p).
Proof. unfold to_cstring, fail. keeps_tac. Qed.
Lemma keeps_optionally {A} P (o : option A) f : (∀ a, keeps (extends P) (f a)) → keeps (extends P) (optionally o f).
Proof. intros Hf. unfold optionally. keeps_tac; auto. Qed.
Lemma keeps_init_log : keeps (extends plain) init_log_once.
Proof.
  intros h. unfold init_log_once. destruct (last _); simpl; [by exists []|].
  exists [(Krun the_init_log, kernel h (Krun the_init_log))]. split; [done|]. apply Forall_singleton. plain_tac.
Qed.
Lemma keeps_kernel_image c : keeps (extends plain) (kernel_image_for_libkrun c).
Proof.
  unfold kernel_image_for_libkrun, host_page_size, pad_kernel_file_for_mmap, fail. cbv zeta. keeps_tac;
    first [apply keeps_sys | apply keeps_fs_call]; plain_tac.
Qed.
Lemma keeps_plain {A} (P : Sys → Prop) (m : RM A) : (∀ s, plain s → P s) → keeps (extends plain) m → keeps (extends P) m.
Proof. intros HP. apply keeps_impl. intros h h'. by apply extends_impl. Qed.
Lemma keeps_prepare c : keeps (extends building) (prepare_microvm c).
Proof.
  unfold prepare_microvm, configure_direct_kernel_guest, configure_krun_init_entrypoint, add_disk, call_optional_fd, fail.
  cbv zeta. repeat first
    [ keeps_step | apply keeps_plain, keeps_init_log; by intros s [] | apply keeps_plain, keeps_kernel_image; by intros s []
    | apply keeps_optionally; intros ? | apply keeps_to_cstring | apply keeps_krun; building_tac
    | apply keeps_krun_call; building_tac | apply keeps_sys; building_tac ].
Qed.

Lemma marks_cons {B} (f : Sys → option B) s r h :
  marks f ((s, r) :: h) = option_list (f s) ++ marks f h.
Proof. unfold marks. simpl. by destruct (f s). Qed.

(** A program that succeeds has said [l] of the subject [f]. *)
Definition says {A B} (f : Sys → option B) (m : RM A) (l : list B) : Prop :=
  ∀ h x h', m h = (Ok x, h') → marks f h' = l ++ marks f h.

Lemma says_bind {A A' B} (f : Sys → option B) (m : RM A) (k : A → RM A') l l' :
  says f m l → (∀ x, says f (k x) l') → says f (m ≫= k) (l' ++ l).
Proof.
  intros Hm Hk h y h' (x & h1 & H1 & H2)%bind_ok_inv. apply Hm in H1. apply Hk in H2.
  by rewrite H2, H1, app_assoc.
Qed.
Lemma says_ret {A B} (f : Sys → option B) (x : A) : says f (mret x) [].
Proof. by intros h y h' [= _ <-]. Qed.
Lemma says_quiet {A B} (f : Sys → option B) (m : RM A) : keeps (extends (λ s, f s = None)) m → says f m [].
Proof.
  intros Hm h x h' Hr. specialize (Hm h). rewrite Hr in Hm. destruct Hm as (new & Hnew & Hall). simpl in Hnew.
  subst h'. clear Hr. induction Hall as [|[s r] new Hs _ IH]; [done|].
  change (((s, r) :: new) ++ h) with ((s, r) :: (new ++ h)). rewrite marks_cons, IH. simpl in Hs. by rewrite Hs.
Qed.
Lemma says_krun {B} (f : Sys → option B) call name o : f (Krun call) = o → says f (krun call name) (option_list o).
Proof. intros <-. unfold krun. intros h x h' Hr. run_inv. apply marks_cons. Qed.
Lemma says_krun_call {B} (f : Sys → option B) call name o :
  f (Krun call) = o → says f (krun_call call name) (option_list o).
Proof. intros Ho. apply (says_bind f _ _ _ []); [by apply says_krun|intros; apply says_ret]. Qed.
Lemma says_optionally {A B} (f : Sys → option B) (o : option A) (g : A → RM ()) l :
  (∀ a, says f (g a) (l a)) → says f (optionally o g) (match o with Some a => l a | None => [] end).
Proof. destruct o; simpl; [auto|intros _; apply says_ret]. Qed.
Lemma says_eq {A B} (f : Sys → option B) (m : RM A) l l' : says f m l → l = l' → says f m l'.
Proof. by intros ? ->. Qed.


(** Everything but the disks (the socket) of a configuration is quiet about them. *)
Ltac quiet_tac :=
  apply says_quiet; unfold configure_krun_init_entrypoint, to_cstring, call_optional_fd, fail;
  repeat first
    [ keeps_step | apply keeps_plain, keeps_init_log; by intros s (_ & ? & ?)
    | apply keeps_plain, keeps_kernel_image; by intros s (_ & ? & ?)
    | apply keeps_optionally; intros ? | apply keeps_krun; reflexivity | apply keeps_krun_call; reflexivity
    | apply keeps_sys; reflexivity ].
Ltac says_step :=
  first
    [ eapply says_krun_call; cbn; reflexivity | eapply says_krun; cbn; reflexivity | apply says_ret | solve [quiet_tac]
    | eapply says_optionally; intros ? | eapply says_bind; [|intros ?] ].

Lemma configure_disks ctx c rootfs cache workspace :
  says disk_of (configure_direct_kernel_guest ctx c rootfs cache workspace)
    (rev ([("rootfs", rootfs, true); ("workspace", workspace, false)] ++ ((λ p, ("cache", p, true)) <$> option_list cache))).
Proof.
  unfold configure_direct_kernel_guest, add_disk.
  eapply says_eq; [repeat says_step|]. by destruct cache.
Qed.

Lemma prepare_disks c : says disk_of (prepare_microvm c) (rev (disks_of c)).
Proof.
  unfold prepare_microvm. cbv zeta. eapply says_eq; [repeat first [apply configure_disks | says_step]|].
  unfold disks_of. by destruct (lk_cache_image c).
Qed.

Lemma configure_sockets ctx c rootfs cache workspace :
  says socket_of (configure_direct_kernel_guest ctx c rootfs cache workspace) [].
Proof.
  unfold configure_direct_kernel_guest, add_disk. eapply says_eq; [repeat says_step|]. by destruct cache, (lk_firmware c).
Qed.

(** The guest is reached on one port, behind the socket of the configuration. *)
Lemma prepare_sockets c : says socket_of (prepare_microvm c) [(lk_guest_vsock_port c, display (lk_vsock_socket c))].
Proof.
  unfold prepare_microvm. cbv zeta. eapply says_eq; [repeat first [apply configure_sockets | says_step]|]. by destruct (lk_cache_image c).
Qed.

(** ** Up to the guest *)

Lemma keeps_read_gate (P : Sys → Prop) fuel fd : P (ReadByte fd) → keeps (extends P) (read_gate fuel fd).
Proof.
  intros HP. induction fuel as [|fuel IH]; simpl; unfold fail, last_os_error, fail; keeps_tac; auto using keeps_sys.
Qed.
Lemma keeps_gate patience gate parse_error : keeps (extends plain) (wait_for_startup_gate patience gate parse_error).
Proof.
  unfold wait_for_startup_gate, fail. keeps_tac. apply keeps_with_fd; [plain_tac|]. apply keeps_read_gate. plain_tac.
Qed.

Lemma keeps_checked {A} P (r : Result SandboxError A) : keeps (extends P) (checked r).
Proof. unfold checked, fail. keeps_tac. Qed.
Lemma keeps_syscall_ok (P : Sys → Prop) s context : P s → keeps (extends P) (syscall_ok s context).
Proof. intros. unfold syscall_ok, last_os_error, fail. keeps_tac; by auto using keeps_sys. Qed.
Lemma keeps_owned_fd (P : Sys → Prop) s context : P s → keeps (extends P) (syscall_owned_fd s context).
Proof. intros. unfold syscall_owned_fd, last_os_error, fail. keeps_tac; by auto using keeps_sys. Qed.
Lemma keeps_mount_path (P : Sys → Prop) source target fstype flags data context :
  P (Mount source target fstype flags data) → keeps (extends P) (mount_path source target fstype flags data context).
Proof.
  intros. unfold mount_path, fail. keeps_tac; auto using keeps_checked, keeps_syscall_ok.
Qed.
Lemma keeps_wait (P : Sys → Prop) fuel pid : P (Waitpid pid) → keeps (extends P) (wait_and_exit fuel pid).
Proof.
  intros HP. induction fuel as [|fuel IH]; simpl; unfold last_os_error, fail; keeps_tac; auto using keeps_sys.
Qed.

(** The bootstrap does not call libkrun. *)
Definition confining (s : Sys) : Prop := match s with Krun _ => False | _ => True end.

Lemma confining_plain s : confining s → before_guest s ∧ disk_of s = None ∧ socket_of s = None.
Proof. by destruct s. Qed.

Lemma keeps_bootstrap patience c : keeps (extends confining) (apply_secure_bootstrap patience c).
Proof.
  unfold apply_secure_bootstrap, ensure_runtime_root, prctl_no_new_privs, prctl_disable_dumpable,
    apply_memory_deny_write_execute, apply_runner_file_limit, apply_runner_fd_limit, isolate_user_namespace,
    isolate_mount_ipc_uts_network_and_cgroup, stage_secure_runtime_root, bind_mount_path, enter_pid_namespace,
    enter_chroot, mount_proc, mount_private_tmp, close_extra_fds, apply_landlock_policy, landlock_abi,
    add_landlock_rule, apply_seccomp_filter, last_os_error, fail. cbv zeta.
  repeat first
    [ keeps_step | apply keeps_checked | apply keeps_syscall_ok; exact I | apply keeps_owned_fd; exact I
    | apply keeps_mount_path; exact I | apply keeps_wait; exact I | apply keeps_optionally; intros ?
    | apply keeps_with_fd; [exact I|] | apply keeps_fs_call; solve [exact I | case_decide; exact I] | apply keeps_sys; exact I
    | apply keeps_for_each; [typeclasses eauto|intros ? _]
    | apply keeps_map_each; [typeclasses eauto|intros ? _] ].
Qed.

Lemma extends_nil (P : Sys → Prop) h : extends P [] h → Forall (λ c, P c.1) h.
Proof. intros (new & -> & ?). by rewrite app_nil_r. Qed.

Lemma extends_all (P Q : Sys → Prop) h h' :
  (∀ s, P s → Q s) → Forall (λ c, Q c.1) h → extends P h h' → Forall (λ c, Q c.1) h'.
Proof.
  intros HPQ Hh (new & -> & Hall). apply Forall_app. split; [|done]. eapply Forall_impl; [exact Hall|]. auto.
Qed.

(** How a run of a secure runner can come to enter the guest: the bootstrap
    and the building of the microVM succeeded. *)
Lemma run_secure_inv patience config gate parse_error res h' :
  lk_isolation_mode config = Secure →
  run_from_file patience (Ok config) gate parse_error [] = (res, h') →
  Forall (λ c, before_guest c.1) h' ∧ is_ok res = false ∨
  ∃ h1 c2 h2 ctx fd h3 r rf,
    lk_network_enabled config = false ∧ extends plain [] h1 ∧
    apply_secure_bootstrap patience config h1 = (Ok c2, h2) ∧
    prepare_microvm c2 h2 = (Ok (ctx, fd), h3) ∧ Forall (λ c, before_guest c.1) h3 ∧
    h' = (Krun (krun_free_ctx ctx), rf) :: (Krun (krun_start_enter ctx), r) :: h3.
Proof.
  intros Hsec. unfold run_from_file, start_enter, mbind, M_bind. cbn [checked mret M_ret].
  assert (Hv : validate_secure_constraints config = Ok () → lk_network_enabled config = false).
  { unfold validate_secure_constraints. rewrite decide_False by (by rewrite Hsec; auto).
    by destruct (lk_network_enabled config). }
  destruct (validate_secure_constraints config) as [[]|e]; cbn [checked mret M_ret]; [|intros [= <- <-]; by left].
  pose proof (keeps_gate patience gate parse_error []) as Hg.
  destruct (wait_for_startup_gate patience gate parse_error []) as [[[]|e] h1]; simpl in Hg.
  2: { intros [= <- <-]. left. split; [|done]. eapply extends_all; [|by constructor|exact Hg]. by intros s [[]]. }
  rewrite decide_True by done. destruct on_linux.
  2: { intros [= <- <-]. left. split; [|done]. eapply extends_all; [|by constructor|exact Hg]. by intros s [[]]. }
  assert (Hall1 : Forall (λ c, before_guest c.1) h1) by (eapply extends_all; [|by constructor|exact Hg]; by intros s [[]]).
  pose proof (keeps_bootstrap patience config h1) as Hb.
  destruct (apply_secure_bootstrap patience config h1) as [[c2|e] h2] eqn:Eb; simpl in Hb.
  2: { intros [= <- <-]. left. split; [|done]. eapply extends_all; [|exact Hall1|exact Hb]. apply confining_plain. }
  assert (Hall2 : Forall (λ c, before_guest c.1) h2)
    by (eapply extends_all; [|exact Hall1|exact Hb]; apply confining_plain).
  pose proof (keeps_prepare c2 h2) as Hp.
  destruct (prepare_microvm c2 h2) as [[[ctx fd]|e] h3] eqn:Ep; simpl in Hp.
  2: { intros [= <- <-]. left. split; [|done]. eapply extends_all; [|exact Hall2|exact Hp]. by intros s []. }
  intros Hr. right. exists h1, c2, h2, ctx, fd, h3. eexists _, _. split_and!; auto.
  - eapply extends_all; [|exact Hall2|exact Hp]. by intros s [].
  - revert Hr. simpl. case_decide; intros [= <- <-]; reflexivity.
Qed.
End microvm_props.

Section secure_runs.
Context `{Kernel, Target}.

Lemma plain_start h : extends plain [] h → view h = initial_view ∧ marks disk_of h = [] ∧ marks socket_of h = [].
Proof.
  intros (new & -> & Hall). rewrite app_nil_r. induction Hall as [|[s r] new Hs _ (IHv & IHd & IHs)]; [done|].
  destruct Hs as ([Hp _] & Hd & Hk). cbn [fst] in *. rewrite !marks_cons, Hd, Hk, view_skip by exact Hp. done.
Qed.

Lemma bootstrap_marks patience c h r h' :
  apply_secure_bootstrap patience c h = (r, h') →
  marks disk_of h' = marks disk_of h ∧ marks socket_of h' = marks socket_of h.
Proof.
  intros Hr. pose proof (keeps_bootstrap patience c h) as Hk. rewrite Hr in Hk. simpl in Hk.
  destruct Hk as (new & -> & Hall). clear Hr. induction Hall as [|[s x] new Hs _ [IH1 IH2]]; [done|].
  cbn [app fst] in *. rewrite !marks_cons, IH1, IH2. by apply confining_plain in Hs as (_ & -> & ->).
Qed.

Lemma elem_of_rev_list {A} (x : A) l : x ∈ l → x ∈ rev l.
Proof. rewrite rev_alt. apply elem_of_reverse. Qed.

Lemma staged_disks c root id host ro :
  (id, host, ro) ∈ disks_of c →
  ∃ inside, (id, display inside, ro) ∈ rev (disks_of (staged_config c)) ∧
    mkMount (Some host) (root ++ inside) None ro ∈ rev (staged root c).
Proof.
  intros Hin. unfold disks_of in Hin. apply elem_of_app in Hin as [Hin|Hin].
  - apply elem_of_cons in Hin as [[= -> -> ->]|[[= -> -> ->]|[]%not_elem_of_nil]%elem_of_cons];
      [exists ["guest-assets"; "rootfs.raw"]|exists ["guest-assets"; "workspace.raw"]];
      (split; apply elem_of_rev_list; unfold disks_of, staged; set_solver).
  - destruct (lk_cache_image c) as [cache|] eqn:Ec; simpl in Hin; [|by apply not_elem_of_nil in Hin].
    apply list_elem_of_singleton in Hin as [= -> -> ->]. exists ["guest-assets"; "cache.raw"].
    split; apply elem_of_rev_list; unfold disks_of, staged, staged_config; rewrite Ec; set_solver.
Qed.

(** The state in which a secure runner enters its guest. *)
Lemma start_state patience config gate parse_error res later ctx r h :
  lk_isolation_mode config = Secure →
  run_from_file patience (Ok config) gate parse_error [] = (res, later ++ (Krun (krun_start_enter ctx), r) :: h) →
  ∃ root abi, secure_root_dir config = Ok root ∧ (1 ≤ abi)%Z ∧ lk_network_enabled config = false ∧
    view h = secured_view config root abi ∧ marks disk_of h = rev (disks_of (staged_config config)) ∧
    marks socket_of h = [(lk_guest_vsock_port config, "/runtime/guest.sock")].
Proof.
  intros Hsec Hrun.
  apply run_secure_inv in Hrun as
    [[Hall _]|(h1 & c2 & h2 & ctx' & fd & h3 & r' & rf & Hnet & Hpl & Hb & Hp & Hall & Heq)]; [|..|done].
  - apply Forall_app in Hall as [_ Hall]. by apply Forall_cons in Hall as [Hs _].
  - assert (h = h3) as ->.
    { destruct later as [|[s x] [|[s' x'] later]]; simplify_eq/=; [done|].
      rewrite Forall_app in Hall. destruct Hall as [_ Hall]. by apply Forall_cons in Hall as [Hs _]. }
    destruct (plain_start _ Hpl) as (Hv & Hd & Hk). destruct (bootstrap_marks _ _ _ _ _ Hb) as [Hd2 Hk2].
    apply bootstrap_view in Hb as (root & abi & Hroot & Habi & -> & Hv2); [|done].
    assert (Hv3 : view h3 = view h2).
    { eapply (keeps_view (prepare_microvm (staged_config config))); [|exact Hp].
      eapply keeps_impl; [|apply keeps_prepare]. intros ??. apply extends_impl. by intros ? []. }
    pose proof (prepare_disks _ _ _ _ Hp) as Hd3. apply prepare_sockets in Hp.
    exists root, abi. rewrite Hv3, Hv2, Hd3, Hp, Hd2, Hd, Hk2, Hk, app_nil_r. split_and!; auto.
Qed.


(** The bootstrap takes the answer of [setsid] for an error code. *)
Lemma bootstrap_needs_setsid patience config h c h' :
  (∀ h, rp_value (kernel h Setsid) = -1 ∨ 0 < rp_value (kernel h Setsid))%Z →
  apply_secure_bootstrap patience config h ≠ (Ok c, h').
Proof.
  intros Hsid Hb. unfold apply_secure_bootstrap in Hb. run_inv.
  rename select (enter_pid_namespace _ _ = _) into Hp. apply pid_namespace_view in Hp as (hp & _ & _ & Hzero).
  destruct (Hsid hp); lia.
Qed.

(** a runner in secure mode never enters its guest.  [setsid] returns the identifier of the
    new session, a process identifier, and [-1] on failure, so never [0]; the bootstrap
    takes every value but [0] for a failure.  Whatever else the kernel answers, the run
    fails (or its parent exits) before [krun_start_enter]. *)
Theorem secure_runner_never_starts patience config gate parse_error res h :
  (∀ h, rp_value (kernel h Setsid) = -1 ∨ 0 < rp_value (kernel h Setsid))%Z →
  lk_isolation_mode config = Secure →
  run_from_file patience (Ok config) gate parse_error [] = (res, h) →
  is_ok res = false ∧ Forall (λ c, enters c.1 = false) h.
Proof.
  intros Hsid Hsec Hrun. apply run_secure_inv in Hrun as [[Hall Hres]|(h1 & c2 & h2 & _ & _ & _ & _ & _ & _ & _ & Hb & _)]; [done| |done].
  by apply bootstrap_needs_setsid in Hb.
Qed.
End secure_runs.
