(* ===== verification/Launch.v ===== *)
(** * Launch: [src/backend/libkrun/mod.rs], [instance.rs] and [src/host_hardening.rs]

    The daemon's side of a sandbox's process: the checks of the host at start,
    the control group a runner is put in, the gate that holds a runner back
    until it is, and how a runner is ended. *)

From S2P Require Import Prelude RustStd Text Paths FileSystem PrivateFs Config Lineage Workspace Images Protocol Runtime GuestBoot GuestExec Kernel SecureRunner Microvm.

(** [Path::join] with a name. *)
Definition join_name (dir name : string) : string := dir ^+ "/" ^+ name.

Inductive RunnerMode := Thread | SelfSubprocess.

Definition is_sagens_self_runner_binary (stem : string) : bool :=
  bool_decide (stem = "sagens") || starts_with "sagens-" stem.

(** [stem]: the file stem of the running program, when it is known. *)
Definition should_use_self_runner_for_current_binary (stem : option string) : bool :=
  match stem with Some s => is_sagens_self_runner_binary s | None => false end.

Definition effective_runner_mode `{Target} (mode : IsolationMode) (stem : option string) : RunnerMode :=
  if bool_decide (mode = Secure) || on_macos || should_use_self_runner_for_current_binary stem
  then SelfSubprocess else Thread.

Record GuestTransportEndpoint := mkEndpoint { ep_socket_path : path; ep_port : Z }.

Record StartupGate := mkGate { read_end : Z; write_end : Z }.

Definition RUNNER_STARTUP_FD_ENV : string := "SAGENS_LIBKRUN_STARTUP_FD".
Definition FD_CLOEXEC : Z := 1.

Section launch.
Context `{Kernel, Target, Platform, Serde LibkrunRunnerConfig}.

(** ** [host_hardening.rs] *)

(** The settings of a sandbox's control group, in the order they are written;
    the process comes last. *)
Definition cgroup_settings (dir : string) (policy : ExecutionPolicy) : list (string * string * string) :=
  [ (join_name dir "memory.max", pretty (memory_mb policy * 1024 * 1024)%Z ^+ line_end, "writing sandbox memory.max");
    (join_name dir "cpu.max", pretty (cpu_cores policy * 100000)%Z ^+ " 100000" ^+ line_end, "writing sandbox cpu.max");
    (join_name dir "pids.max", pretty (saturating_add u32_max (max_processes policy) 32) ^+ line_end,
      "writing sandbox pids.max") ].

Definition attach_to_cgroup (parent : string) (sandbox_id : Uuid) (pid : Z) (policy : ExecutionPolicy) : RM () :=
  if negb on_linux then fail (UnsupportedHost "cgroup hardening requires Linux") else
  let dir := join_name parent (uuid_to_string sandbox_id) in
  fs_call (FsMkdirs dir) "creating sandbox cgroup directory";;
  for_each (λ '(p, data, context), fs_call (FsWrite p data) context;; mret ()) (cgroup_settings dir policy);;
  fs_call (FsWrite (join_name dir "cgroup.procs") (pretty pid ^+ line_end)) "attaching backend process to cgroup";;
  mret ().

Definition attach_backend_process (config : HardeningConfig) (policy : ExecutionPolicy) (sandbox_id : Uuid) (pid : Z) : RM () :=
  optionally (cgroup_parent config) (λ parent, attach_to_cgroup parent sandbox_id pid policy).

(** [probe] is the fresh identifier of the probe directory. *)
Definition probe_settings (dir : string) : list (string * string * string) :=
  [ (join_name dir "memory.max", "max" ^+ line_end, "writing delegated cgroup memory.max");
    (join_name dir "cpu.max", "max 100000" ^+ line_end, "writing delegated cgroup cpu.max");
    (join_name dir "pids.max", "64" ^+ line_end, "writing delegated cgroup pids.max") ].

Definition validate_cgroup_parent (parent : string) (probe_id : Uuid) : RM () :=
  present ← fs_call (FsExists parent) "checking delegated cgroup parent";
  if decide (rp_value present ≠ 1)%Z then
    fail (InvalidConfig ("delegated cgroup parent " ^+ parent ^+ " does not exist"))
  else
  let probe := join_name parent ("sagens-preflight-" ^+ uuid_simple probe_id) in
  fs_call (FsMkdir probe) "creating delegated cgroup probe";;
  result ← attempt (
    fs_call (FsReadText (join_name parent "cgroup.controllers")) "reading delegated cgroup controllers";;
    for_each (λ '(p, data, context), fs_call (FsWrite p data) context;; mret ()) (probe_settings probe));
  cleanup ← attempt (fs_call (FsRmdir probe) "removing delegated cgroup probe");
  lift result;;
  lift cleanup;;
  mret ().

Definition preflight_runtime (c : RuntimeConfig) (probe_id : Uuid) : RM () :=
  if decide (rc_isolation_mode c ≠ Secure) then mret ()
  else if negb on_linux then fail (UnsupportedHost "secure host isolation requires Linux")
  else
    match cgroup_parent (rc_hardening c) with
    | None => fail (InvalidConfig "secure isolation mode requires SAGENS_CGROUP_PARENT")
    | Some parent =>
        validate_cgroup_parent parent probe_id;;
        if negb (enable_landlock (rc_hardening c)) then
          fail (InvalidConfig "secure isolation mode requires Landlock host hardening")
        else landlock_abi;; mret ()
    end.

(** ** [backend/libkrun/mod.rs] *)

Definition open_private_log (p : path) : RM () :=
  (if decide (p = []) then mret ()
   else fs_call (FsCreateDirAll (parent p)) "creating runner log directory";; mret ());;
  fs_call (FsOpenLog p) ("opening " ^+ display p);; mret ().

Definition prepare_runner_artifacts (run : RunLayout) : RM () :=
  stale ← sys (FsExists (display (rl_vsock_socket run)));
  (if decide (rp_value stale = 1)%Z then
     fs_call (FsRemove (rl_vsock_socket run)) "removing stale guest rpc socket";; mret ()
   else mret ());;
  open_private_log (rl_runner_log run);;
  open_private_log (rl_guest_console_log run).

Definition write_debug_runner_config (p : path) (c : LibkrunRunnerConfig) : RM () :=
  data ← checked (match to_vec c with Ok b => Ok b | Err e => Err (Json "encoding libkrun runner config" e) end);
  fs_call (FsWriteBytes p data) "writing libkrun runner config";; mret ().

Definition create_startup_gate : RM StartupGate :=
  r ← sys Pipe2;
  if decide (rp_value r ≠ 0)%Z then last_os_error "creating secure runner startup gate" r else
  let gate := mkGate (rp_pipe r).1 (rp_pipe r).2 in
  if on_linux then
    flags ← sys (FcntlGetFd (read_end gate));
    if decide (rp_value flags < 0)%Z then last_os_error "reading secure runner startup gate flags" flags else
    set ← sys (FcntlSetFd (read_end gate) (Z.ldiff (rp_value flags) FD_CLOEXEC));
    if decide (rp_value set ≠ 0)%Z then last_os_error "updating secure runner startup gate flags" set else mret gate
  else mret gate.

Definition release_startup_gate (gate : StartupGate) : RM () :=
  sys (Close (read_end gate));;
  with_fd (write_end gate) (
    r ← sys (WriteByte (write_end gate) 1);
    if decide (rp_value r ≠ 1)%Z then last_os_error "releasing secure runner startup gate" r else mret ()).

Definition drop_gate (gate : StartupGate) : RM () :=
  sys (Close (read_end gate));; sys (Close (write_end gate));; mret ().

(** [let _ = child.kill().await; let _ = child.wait().await; return Err(error);] *)
Definition killed {A} (pid : Z) (e : Halt) : RM A := sys (KillChild pid);; sys (WaitChild pid);; throw e.

(** Up to the release of the gate. *)
Definition spawn_attached (program : string) (args : list string) (request : BackendLaunchRequest)
    (runner_kind : string) (env : list (string * string)) : RM Z :=
  open_private_log (rl_runner_log (bl_run_layout request));;
  fs_call DupLog "cloning libkrun runner log";;
  child ← fs_call (Spawn program args env) ("spawning " ^+ runner_kind ^+ " libkrun runner");
  let pid := rp_value child in
  if decide (pid = 0)%Z then
    sys (KillChild pid);; fail (Backend "spawned libkrun runner did not report a process id")
  else
  r ← attempt (attach_backend_process (bl_hardening request) (bl_policy request) (bl_sandbox_id request) pid);
  match r with Ok _ => mret pid | Err e => killed pid e end.

Definition spawn_runner_process (program : string) (args : list string) (request : BackendLaunchRequest)
    (runner_kind : string) : RM Z :=
  if decide (bl_isolation_mode request = Secure) then
    gate ← create_startup_gate;
    spawned ← attempt (spawn_attached program args request runner_kind [(RUNNER_STARTUP_FD_ENV, pretty (read_end gate))]);
    match spawned with
    | Err e => drop_gate gate;; throw e
    | Ok pid =>
        released ← attempt (release_startup_gate gate);
        match released with Ok _ => mret pid | Err e => killed pid e end
    end
  else spawn_attached program args request runner_kind [].

(** [SAGENS_HOST_BINARY], and [std::env::current_exe]. *)
Definition resolve_runner_executable (host_binary : option string) (current_exe : Result IoError string) (context : string) :
    Result SandboxError string :=
  match host_binary with
  | Some p => if is_empty p then match current_exe with Ok q => Ok q | Err e => Err (Io context e) end else Ok p
  | None => match current_exe with Ok q => Ok q | Err e => Err (Io context e) end
  end.

Definition launch_self_runner (request : BackendLaunchRequest) (host_binary : option string)
    (current_exe : Result IoError string) : RM (Z * GuestTransportEndpoint) :=
  let c := build_runner_config request in
  let run := bl_run_layout request in
  checked (validate_secure_constraints c);;
  prepare_runner_artifacts run;;
  write_debug_runner_config (rl_runner_config run) c;;
  exe ← checked (resolve_runner_executable host_binary current_exe "discovering sagens executable");
  pid ← spawn_runner_process exe ["__libkrun-runner"; display (rl_runner_config run)] request "sagens";
  mret (pid, mkEndpoint (rl_vsock_socket run) (guest_vsock_port (bl_guest request))).
End launch.

(** ** What the launcher guarantees *)

(** The call [s] was made and did not fail. *)
Definition did (s : Sys) (h : History) : Prop := ∃ r, (s, r) ∈ h ∧ (0 ≤ rp_value r)%Z.

Definition releases (s : Sys) : bool := match s with WriteByte _ _ => true | _ => false end.
Definition held (s : Sys) : Prop := releases s = false.

Section launch_props.
Context `{Kernel, Target, Platform, Serde LibkrunRunnerConfig}.

Lemma did_mono s h h' : suffix h h' → did s h → did s h'.
Proof. intros [k ->] (r & Hin & Hr). exists r. split; [set_solver|done]. Qed.

Lemma run_suffix {A} P (m : RM A) h r h' : keeps (extends P) m → m h = (r, h') → suffix h h'.
Proof. intros Hm Hr. specialize (Hm h). rewrite Hr in Hm. destruct Hm as (new & Hh & _). by exists new. Qed.

Lemma fs_call_did s context h r h' : fs_call s context h = (Ok r, h') → did s h'.
Proof. intros [-> Hr]%fs_call_ok_inv. exists r. split; [left|done]. Qed.

Lemma keeps_settings (P : Sys → Prop) l :
  (∀ p data, P (FsWrite p data)) →
  keeps (extends P) (for_each (λ '(p, data, context), fs_call (FsWrite p data) context;; mret ()) l).
Proof.
  intros HP. apply keeps_for_each; [typeclasses eauto|]. intros [[p data] context] _. keeps_tac; by auto using keeps_fs_call.
Qed.

Lemma settings_did l h u h' :
  for_each (λ '(p, data, context), fs_call (FsWrite p data) context;; mret ()) l h = (Ok u, h') →
  Forall (λ '(p, data, _), did (FsWrite p data) h') l.
Proof.
  revert h. induction l as [|[[p data] context] l IH]; intros h Hr; [constructor|].
  simpl in Hr. apply bind_ok_inv in Hr as (x & h1 & Hfst & Hsnd). run_inv. constructor; [|by eapply IH].
  eapply did_mono; [|by eexists; split; [left|eassumption]].
  eapply run_suffix; [|exact Hsnd]. by apply (keeps_settings (λ _, True)).
Qed.

(** A runner put in its control group: the limits first, then the process. *)
Definition attached (parent : string) (sandbox_id : Uuid) (pid : Z) (policy : ExecutionPolicy) (h : History) : Prop :=
  let dir := join_name parent (uuid_to_string sandbox_id) in
  Forall (λ '(p, data, _), did (FsWrite p data) h) (cgroup_settings dir policy) ∧
  did (FsWrite (join_name dir "cgroup.procs") (pretty pid ^+ line_end)) h.

Lemma attach_attached parent sandbox_id pid policy h u h' :
  attach_to_cgroup parent sandbox_id pid policy h = (Ok u, h') → attached parent sandbox_id pid policy h'.
Proof.
  unfold attach_to_cgroup. cbv zeta. intros Hr. run_inv.
  rename select (for_each _ _ _ = _) into Hs. apply settings_did in Hs. split; [|eexists; split; [left|done]].
  eapply Forall_impl; [exact Hs|]. intros [[p data] context]. apply did_mono. by eexists [_].
Qed.

(** The one call of a kind in a history. *)
Lemma only_one (f : Sys → bool) (l1 l2 k1 k2 : History) x y :
  l1 ++ x :: l2 = k1 ++ y :: k2 → Forall (λ c, f c.1 = false) l1 → Forall (λ c, f c.1 = false) l2 →
  f y.1 = true → x = y ∧ l2 = k2.
Proof.
  revert k1. induction l1 as [|c l1 IH]; intros [|d k1] Heq Hl1 Hl2 Hy; simplify_eq/=.
  - done.
  - apply Forall_app in Hl2 as [_ [Hl2 _]%Forall_cons]. by rewrite Hl2 in Hy.
  - apply Forall_cons in Hl1 as [Hc _]. by rewrite Hc in Hy.
  - apply Forall_cons in Hl1 as [_ Hl1]. by eapply IH.
Qed.

Ltac held_tac :=
  unfold prepare_runner_artifacts, open_private_log, write_debug_runner_config, create_startup_gate, drop_gate, killed,
    attach_backend_process, attach_to_cgroup, last_os_error, fail; cbv zeta;
  repeat first
    [ keeps_step | apply keeps_checked | apply keeps_optionally; intros ? | apply keeps_settings; reflexivity
    | apply keeps_fs_call; reflexivity | apply keeps_sys; reflexivity ].

Lemma held_spawn program args request kind env : keeps (extends held) (spawn_attached program args request kind env).
Proof. unfold spawn_attached. held_tac. Qed.
Lemma held_gate : keeps (extends held) create_startup_gate.
Proof. held_tac. Qed.
Lemma held_artifacts run : keeps (extends held) (prepare_runner_artifacts run).
Proof. held_tac. Qed.
Lemma held_config p c : keeps (extends held) (write_debug_runner_config p c).
Proof. held_tac. Qed.
Lemma held_drop gate : keeps (extends held) (drop_gate gate).
Proof. held_tac. Qed.
Lemma held_killed {A} pid e : keeps (extends held) (killed pid e : RM A).
Proof. held_tac. Qed.

Lemma keeps_all {A} (P : Sys → Prop) (m : RM A) h r h' :
  keeps (extends P) m → m h = (r, h') → Forall (λ c, P c.1) h → Forall (λ c, P c.1) h'.
Proof.
  intros Hm Hr Hh. specialize (Hm h). rewrite Hr in Hm. by eapply extends_all.
Qed.

Lemma attempt_bind {E F S A B} (m : M E S A) (k : Result E A → M F S B) s r s' :
  m s = (r, s') → (attempt m ≫= k) s = k r s'.
Proof. intros Hm. unfold attempt, mbind, M_bind. by rewrite Hm. Qed.

Lemma release_calls gate h :
  ∃ r rc rx, (release_startup_gate gate h).2 =
    (Close (write_end gate), rx) :: (WriteByte (write_end gate) 1, r) :: (Close (read_end gate), rc) :: h.
Proof.
  unfold release_startup_gate, with_fd, attempt, mbind, M_bind, sys, last_os_error, fail, throw, lift. simpl.
  destruct (decide _); simpl; eauto.
Qed.

(** A launch either never touches the gate, or released it once, after the
    runner was spawned and attached. *)
Lemma spawn_secure_inv program args request kind h res h' :
  bl_isolation_mode request = Secure → Forall (λ c, held c.1) h →
  spawn_runner_process program args request kind h = (res, h') →
  Forall (λ c, held c.1) h' ∨
  ∃ gate h1 pid h2 later r rc,
    create_startup_gate h = (Ok gate, h1) ∧
    spawn_attached program args request kind [(RUNNER_STARTUP_FD_ENV, pretty (read_end gate))] h1 = (Ok pid, h2) ∧
    Forall (λ c, held c.1) h2 ∧ Forall (λ c, held c.1) later ∧
    h' = later ++ (WriteByte (write_end gate) 1, r) :: (Close (read_end gate), rc) :: h2.
Proof.
  intros Hsec Hh. unfold spawn_runner_process. rewrite decide_True by done. unfold mbind at 1, M_bind at 1.
  destruct (create_startup_gate h) as [[gate|e] h1] eqn:Eg; pose proof (keeps_all _ _ _ _ _ held_gate Eg Hh) as Hh1;
    [|intros [= <- <-]; by left].
  destruct (spawn_attached program args request kind [(RUNNER_STARTUP_FD_ENV, pretty (read_end gate))] h1)
    as [r h2] eqn:Es. rewrite (attempt_bind _ _ _ _ _ Es).
  pose proof (keeps_all _ _ _ _ _ (held_spawn _ _ _ _ _) Es Hh1) as Hh2.
  destruct r as [pid|e].
  2: { intros Hr. left. eapply keeps_all; [|exact Hr|exact Hh2]. held_tac. }
  destruct (release_calls gate h2) as (r & rc & rx & Hrel).
  destruct (release_startup_gate gate h2) as [rel h3] eqn:Er. simpl in Hrel. subst h3.
  rewrite (attempt_bind _ _ _ _ _ Er).
  intros Hr. right.
  assert (Hk : ∃ new, h' = new ++ (Close (write_end gate), rx) :: (WriteByte (write_end gate) 1, r) ::
                 (Close (read_end gate), rc) :: h2 ∧ Forall (λ c, held c.1) new).
  { destruct rel as [u|e]; simpl in Hr; [injection Hr as _ <-; by exists []|].
    pose proof (held_killed (A := Z) pid e ((Close (write_end gate), rx) :: (WriteByte (write_end gate) 1, r) ::
      (Close (read_end gate), rc) :: h2)) as Hk.
    rewrite Hr in Hk. destruct Hk as (new & ? & ?). by exists new. }
  destruct Hk as (new & -> & Hnew).
  exists gate, h1, pid, h2, (new ++ [(Close (write_end gate), rx)]), r, rc. split_and!; auto.
  - apply Forall_app. split; [done|]. by apply Forall_singleton.
  - by rewrite <-app_assoc.
Qed.

Lemma gate_pipe h gate h' :
  create_startup_gate h = (Ok gate, h') → ∃ r, (Pipe2, r) ∈ h' ∧ gate = mkGate (rp_pipe r).1 (rp_pipe r).2.
Proof. unfold create_startup_gate. cbv zeta. intros Hr. run_inv; eexists; split; try done; set_solver. Qed.

Lemma spawn_attached_inv program args request kind env h pid h' :
  spawn_attached program args request kind env h = (Ok pid, h') →
  ∃ r, (Spawn program args env, r) ∈ h' ∧ rp_value r = pid ∧
    ∀ parent, cgroup_parent (bl_hardening request) = Some parent →
      attached parent (bl_sandbox_id request) pid (bl_policy request) h'.
Proof.
  unfold spawn_attached. cbv zeta. intros Hr.
  apply bind_ok_inv in Hr as (u1 & h1 & _ & Hr). apply bind_ok_inv in Hr as (u2 & h2 & _ & Hr).
  apply bind_ok_inv in Hr as (child & h3 & Hs & Hr). apply fs_call_ok_inv in Hs as [-> Hc].
  destruct (decide _); [run_inv|].
  destruct (attach_backend_process (bl_hardening request) (bl_policy request) (bl_sandbox_id request) (rp_value child)
    ((Spawn program args env, child) :: h2)) as [ra h4] eqn:Ea.
  rewrite (attempt_bind _ _ _ _ _ Ea) in Hr. destruct ra as [u|e]; [|unfold killed in Hr; run_inv].
  injection Hr as <- <-. exists child. split_and!; [|done|].
  - assert (suffix ((Spawn program args env, child) :: h2) h4) as [k ->]; [|set_solver].
    eapply (run_suffix held); [|exact Ea]. held_tac.
  - intros parent Hp. unfold attach_backend_process in Ea. rewrite Hp in Ea. by eapply attach_attached.
Qed.

Lemma attached_mono parent sandbox_id pid policy h h' :
  suffix h h' → attached parent sandbox_id pid policy h → attached parent sandbox_id pid policy h'.
Proof.
  intros Hs [Hl Hp]. split; [|by eapply did_mono]. eapply Forall_impl; [exact Hl|].
  intros [[p data] context]. by apply did_mono.
Qed.

Lemma bind_held {A B} (m : RM A) (k : A → RM B) h res h' :
  keeps (extends held) m → Forall (λ c, held c.1) h → (m ≫= k) h = (res, h') →
  Forall (λ c, held c.1) h' ∨ ∃ a h1, Forall (λ c, held c.1) h1 ∧ k a h1 = (res, h').
Proof.
  intros Hm Hh. unfold mbind, M_bind. destruct (m h) as [[a|e] h1] eqn:Em; pose proof (keeps_all _ _ _ _ _ Hm Em Hh).
  - intros Hk. right. eauto.
  - intros [= _ <-]. by left.
Qed.

Lemma launch_secure_inv request host_binary current_exe res h' :
  bl_isolation_mode request = Secure →
  launch_self_runner request host_binary current_exe [] = (res, h') →
  Forall (λ c, held c.1) h' ∨
  ∃ program args gate h0 h1 pid h2 later r rc,
    create_startup_gate h0 = (Ok gate, h1) ∧
    spawn_attached program args request "sagens" [(RUNNER_STARTUP_FD_ENV, pretty (read_end gate))] h1 = (Ok pid, h2) ∧
    Forall (λ c, held c.1) h2 ∧ Forall (λ c, held c.1) later ∧
    h' = later ++ (WriteByte (write_end gate) 1, r) :: (Close (read_end gate), rc) :: h2.
Proof.
  intros Hsec. unfold launch_self_runner. cbv zeta. intros Hr.
  apply bind_held in Hr as [?|(u1 & h1 & Hh1 & Hr)]; [by left| |apply keeps_checked|constructor].
  apply bind_held in Hr as [?|(u2 & h2 & Hh2 & Hr)]; [by left| |apply held_artifacts|done].
  apply bind_held in Hr as [?|(u3 & h3 & Hh3 & Hr)]; [by left| |apply held_config|done].
  apply bind_held in Hr as [?|(exe & h4 & Hh4 & Hr)]; [by left| |apply keeps_checked|done].
  unfold mbind, M_bind in Hr. destruct (spawn_runner_process _ _ _ _ h4) as [rs h5] eqn:Es.
  assert (h' = h5) as -> by (by destruct rs; injection Hr).
  apply spawn_secure_inv in Es as [?|(gate & h6 & pid & h7 & later & r & rc & ?)]; [by left| |done|done].
  right. by eexists _, _, gate, h4, h6, pid, h7, later, r, rc.
Qed.

(** C7: a runner in secure mode is held back until its control group confines it: when the
    daemon releases the gate, the runner was spawned with the read end of that very gate
    in its environment, the memory, processor and process limits of its policy were
    written to the group of its sandbox, and the runner's process is in that group; every
    step succeeded. *)
Theorem runner_gated_on_cgroup request parent host_binary current_exe res later fd byte r h :
  bl_isolation_mode request = Secure → cgroup_parent (bl_hardening request) = Some parent →
  launch_self_runner request host_binary current_exe [] = (res, later ++ (WriteByte fd byte, r) :: h) →
  ∃ program args pipe child,
    (Pipe2, pipe) ∈ h ∧ fd = (rp_pipe pipe).2 ∧
    (Spawn program args [(RUNNER_STARTUP_FD_ENV, pretty (rp_pipe pipe).1)], child) ∈ h ∧
    attached parent (bl_sandbox_id request) (rp_value child) (bl_policy request) h.
Proof.
  intros Hsec Hp Hrun.
  apply launch_secure_inv in Hrun as [Hall|(program & args & gate & h0 & h1 & pid & h2 & later' & r' & rc & Hg & Hs & Hh2 & Hl & Heq)]; [..|done].
  - by apply Forall_app in Hall as [_ [Hw _]%Forall_cons].
  - symmetry in Heq. eapply (only_one releases) in Heq as [[= <- <- <-] <-]; [|done|by constructor|done].
    apply gate_pipe in Hg as (pipe & Hpipe & ->). exists program, args, pipe.
    pose proof (run_suffix _ _ _ _ _ (held_spawn _ _ _ _ _) Hs) as [k Hk].
    apply spawn_attached_inv in Hs as (child & Hc & <- & Ha). exists child. split_and!; [|done| |].
    + rewrite Hk. set_solver.
    + set_solver.
    + eapply attached_mono; [|by apply Ha]. by eexists [_].
Qed.

(** Every runner that was spawned was killed, except [pid]. *)
Definition reaped_but (pid : option Z) (h : History) : Prop :=
  ∀ program args env r, (Spawn program args env, r) ∈ h → (0 ≤ rp_value r)%Z →
    pid = Some (rp_value r) ∨ ∃ k, (KillChild (rp_value r), k) ∈ h.

Definition spawns (s : Sys) : bool := match s with Spawn _ _ _ => true | _ => false end.
Definition no_spawn (s : Sys) : Prop := spawns s = false.

Lemma reaped_extends pid h h' : extends no_spawn h h' → reaped_but pid h → reaped_but pid h'.
Proof.
  intros (new & -> & Hall) Hh program args env r [Hin|Hin]%elem_of_app Hr.
  - rewrite Forall_forall in Hall. by apply Hall in Hin.
  - destruct (Hh _ _ _ _ Hin Hr) as [?|[k ?]]; [by left|]. right. exists k. set_solver.
Qed.

Ltac no_spawn_tac := unfold release_startup_gate, with_fd; held_tac.

Lemma reaped_run {A} pid (m : RM A) h r h' :
  keeps (extends no_spawn) m → m h = (r, h') → reaped_but pid h → reaped_but pid h'.
Proof. intros Hm Hr. specialize (Hm h). rewrite Hr in Hm. by apply reaped_extends. Qed.

Lemma killed_reaps {A} pid e h r h' : reaped_but (Some pid) h → (killed pid e : RM A) h = (r, h') → reaped_but None h'.
Proof.
  intros Hh [= _ <-] program args env x Hin Hx. right.
  assert (Hin' : (Spawn program args env, x) ∈ h) by set_solver.
  destruct (Hh _ _ _ _ Hin' Hx) as [[= ->]|[k ?]]; [eexists; right; left|exists k; set_solver].
Qed.

Lemma fs_call_cases s context h :
  ∃ r, (fs_call s context h = (Ok r, (s, r) :: h) ∧ (0 ≤ rp_value r)%Z) ∨
       ((∃ e, fs_call s context h = (Err e, (s, r) :: h)) ∧ (rp_value r < 0)%Z).
Proof.
  exists (kernel h s). unfold fs_call, sys, mbind, M_bind. simpl. case_decide; [right; eauto|left]. split; [done|lia].
Qed.

Lemma spawn_attached_reaps program args request kind env h res h' :
  reaped_but None h → spawn_attached program args request kind env h = (res, h') →
  reaped_but (match res with Ok pid => Some pid | Err _ => None end) h'.
Proof.
  unfold spawn_attached. cbv zeta. intros Hh Hr. unfold mbind at 1, M_bind at 1 in Hr.
  destruct (open_private_log _ h) as [[u1|e] h1] eqn:E1;
    (assert (Hh1 : reaped_but None h1) by (eapply reaped_run; [|exact E1|exact Hh]; no_spawn_tac));
    [|injection Hr as <- <-; exact Hh1].
  unfold mbind at 1, M_bind at 1 in Hr. destruct (fs_call DupLog _ h1) as [[u2|e] h2] eqn:E2;
    (assert (Hh2 : reaped_but None h2) by (eapply reaped_run; [|exact E2|exact Hh1]; no_spawn_tac));
    [|injection Hr as <- <-; exact Hh2].
  destruct (fs_call_cases (Spawn program args env) ("spawning " ^+ kind ^+ " libkrun runner") h2)
    as (child & [[E3 Hpos]|[[e E3] Hneg]]); unfold mbind at 1, M_bind at 1 in Hr; rewrite E3 in Hr.
  2: { injection Hr as <- <-. intros p a v x [[= -> -> -> ->]|Hin]%elem_of_cons Hx; [lia|].
    destruct (Hh2 _ _ _ _ Hin Hx) as [|[k ?]]; [done|]. right. exists k. set_solver. }
  assert (Hs : reaped_but (Some (rp_value child)) ((Spawn program args env, child) :: h2)).
  { intros p a v x [[= -> -> -> ->]|Hin]%elem_of_cons Hx; [by left|].
    destruct (Hh2 _ _ _ _ Hin Hx) as [|[k ?]]; [done|]. right. exists k. set_solver. }
  destruct (decide (rp_value child = 0)%Z) as [Hz|Hnz].
  { unfold sys, fail, throw, mbind, M_bind in Hr. simpl in Hr. injection Hr as <- <-.
    intros p a v x Hin Hx. right. assert (Hin' : (Spawn p a v, x) ∈ (Spawn program args env, child) :: h2) by set_solver.
    destruct (Hs _ _ _ _ Hin' Hx) as [[= <-]|[k ?]]; [eexists; left|exists k; set_solver]. }
  destruct (attach_backend_process (bl_hardening request) (bl_policy request) (bl_sandbox_id request) (rp_value child)
    ((Spawn program args env, child) :: h2)) as [ra h4] eqn:Ea.
  rewrite (attempt_bind _ _ _ _ _ Ea) in Hr.
  assert (Hh4 : reaped_but (Some (rp_value child)) h4) by (eapply reaped_run; [|exact Ea|exact Hs]; no_spawn_tac).
  destruct ra as [u|e]; [by injection Hr as <- <-|]. pose proof (killed_reaps _ _ _ _ _ Hh4 Hr). by injection Hr as <- _.
Qed.

Definition survivor (res : Result Halt Z) : option Z := match res with Ok pid => Some pid | Err _ => None end.

Lemma spawn_reaps program args request kind h res h' :
  reaped_but None h → spawn_runner_process program args request kind h = (res, h') → reaped_but (survivor res) h'.
Proof.
  intros Hh. unfold spawn_runner_process. case_decide; [|by apply spawn_attached_reaps].
  unfold mbind at 1, M_bind at 1. destruct (create_startup_gate h) as [[gate|e] h1] eqn:Eg;
    (assert (Hh1 : reaped_but None h1) by (eapply reaped_run; [|exact Eg|exact Hh]; no_spawn_tac));
    [|by intros [= <- <-]].
  destruct (spawn_attached program args request kind [(RUNNER_STARTUP_FD_ENV, pretty (read_end gate))] h1)
    as [r h2] eqn:Es. rewrite (attempt_bind _ _ _ _ _ Es). apply spawn_attached_reaps in Es; [|done].
  destruct r as [pid|e].
  2: { intros Hr. replace (survivor res) with (@None Z); [eapply reaped_run; [|exact Hr|exact Es]; no_spawn_tac|].
       unfold drop_gate, mbind, M_bind in Hr. simpl in Hr. by injection Hr as <- _. }
  destruct (release_startup_gate gate h2) as [rel h3] eqn:Er. rewrite (attempt_bind _ _ _ _ _ Er).
  assert (Hh3 : reaped_but (Some pid) h3) by (eapply reaped_run; [|exact Er|exact Es]; no_spawn_tac).
  destruct rel as [u|e]; [by intros [= <- <-]|]. intros Hr. pose proof (killed_reaps _ _ _ _ _ Hh3 Hr).
  by injection Hr as <- _.
Qed.

Lemma bind_reaped {A B} (m : RM A) (k : A → RM B) h res h' :
  keeps (extends no_spawn) m → reaped_but None h → (m ≫= k) h = (res, h') →
  (reaped_but None h' ∧ is_ok res = false) ∨ ∃ a h1, reaped_but None h1 ∧ k a h1 = (res, h').
Proof.
  intros Hm Hh. unfold mbind, M_bind. destruct (m h) as [[a|e] h1] eqn:Em; pose proof (reaped_run _ _ _ _ _ Hm Em Hh).
  - intros Hk. right. eauto.
  - intros [= <- <-]. by left.
Qed.

(** C18: a launch that fails leaves no runner behind, and one that succeeds leaves the one it
    returns: every process that was spawned was killed, except the runner of a launch that
    succeeded. *)
Theorem launch_leaves_only_its_runner request host_binary current_exe res h :
  launch_self_runner request host_binary current_exe [] = (res, h) →
  reaped_but (match res with Ok (pid, _) => Some pid | Err _ => None end) h.
Proof.
  unfold launch_self_runner. cbv zeta. intros Hr.
  assert (Hnil : reaped_but None []) by (by intros ???? ?%not_elem_of_nil).
  apply bind_reaped in Hr as [[? ?]|(u1 & h1 & Hh1 & Hr)]; [by destruct res| |apply keeps_checked|done].
  apply bind_reaped in Hr as [[? ?]|(u2 & h2 & Hh2 & Hr)]; [by destruct res| |no_spawn_tac|done].
  apply bind_reaped in Hr as [[? ?]|(u3 & h3 & Hh3 & Hr)]; [by destruct res| |no_spawn_tac|done].
  apply bind_reaped in Hr as [[? ?]|(exe & h4 & Hh4 & Hr)]; [by destruct res| |apply keeps_checked|done].
  unfold mbind, M_bind in Hr. destruct (spawn_runner_process _ _ _ _ h4) as [rs h5] eqn:Es.
  apply spawn_reaps in Es; [|done]. by destruct rs; injection Hr as <- <-.
Qed.

Lemma attempt_ok_inv {E F S A} (m : M E S A) s r s' : (attempt m : M F S _) s = (Ok r, s') → m s = (r, s').
Proof. unfold attempt. destruct (m s). by intros [= -> ->]. Qed.

(** The probe of a delegated control group. *)
Definition probed (parent : string) (probe_id : Uuid) (h : History) : Prop :=
  let probe := join_name parent ("sagens-preflight-" ^+ uuid_simple probe_id) in
  did (FsMkdir probe) h ∧ did (FsReadText (join_name parent "cgroup.controllers")) h ∧
  Forall (λ '(p, data, _), did (FsWrite p data) h) (probe_settings probe) ∧ did (FsRmdir probe) h.

Ltac did_tac :=
  multimatch goal with Hr : (0 ≤ rp_value ?x)%Z |- did _ _ => solve [exists x; split; [set_solver|exact Hr]] end.

Lemma cgroup_parent_probed parent probe_id h u h' :
  validate_cgroup_parent parent probe_id h = (Ok u, h') → probed parent probe_id h'.
Proof.
  unfold validate_cgroup_parent. cbv zeta. intros Hr. run_inv.
  repeat match goal with Ha : attempt _ _ = (Ok _, _) |- _ => apply attempt_ok_inv in Ha end. run_inv.
  rename select (for_each _ _ _ = _) into Hs. pose proof (settings_did _ _ _ _ Hs) as Hd.
  eapply (run_suffix (λ _, True)) in Hs as [k ->]; [|by apply keeps_settings].
  unfold probed. split_and!.
  - did_tac.
  - did_tac.
  - eapply Forall_impl; [exact Hd|]. intros [[p data] context]. apply did_mono. by eexists [_].
  - did_tac.
Qed.

Definition makes_dir (s : Sys) : bool := match s with FsMkdir _ => true | _ => false end.

Lemma probe_removed parent probe_id res h p r :
  validate_cgroup_parent parent probe_id [] = (res, h) → (FsMkdir p, r) ∈ h → (0 ≤ rp_value r)%Z →
  ∃ x, (FsRmdir p, x) ∈ h.
Proof.
  unfold validate_cgroup_parent. cbv zeta. set (probe := join_name parent _).
  destruct (fs_call_cases (FsExists parent) "checking delegated cgroup parent" []) as (present & [[E _]|[[e E] _]]);
    unfold mbind at 1, M_bind at 1; rewrite E; [|intros [= _ <-]; set_solver].
  destruct (decide _); [intros [= _ <-]; set_solver|].
  destruct (fs_call_cases (FsMkdir probe) "creating delegated cgroup probe" [(FsExists parent, present)])
    as (mk & [[E2 _]|[[e E2] Hneg]]); unfold mbind at 1, M_bind at 1; rewrite E2.
  2: { intros [= _ <-] [[= -> ->]|[?|?%not_elem_of_nil]%elem_of_cons]%elem_of_cons ?; [lia|done|done]. }
  match goal with |- (attempt ?m ≫= _) ?h1 = _ → _ => destruct (m h1) as [result h2] eqn:E3; rewrite (attempt_bind _ _ _ _ _ E3) end.
  match type of E3 with ?m ?h1 = _ => assert (Hk : keeps (extends (λ s, makes_dir s = false)) m) end.
  { repeat first [keeps_step | apply keeps_fs_call; reflexivity | apply keeps_settings; reflexivity]. }
  match goal with |- (attempt ?m ≫= _) ?h1 = _ → _ => destruct (m h1) as [cleanup h3] eqn:E4; rewrite (attempt_bind _ _ _ _ _ E4) end.
  assert (∃ x, h3 = (FsRmdir probe, x) :: h2) as [x ->].
  { destruct (fs_call_cases (FsRmdir probe) "removing delegated cgroup probe" h2) as (x & [[E5 _]|[[e E5] _]]);
      rewrite E5 in E4; injection E4 as _ <-; eauto. }
  specialize (Hk [(FsMkdir probe, mk); (FsExists parent, present)]). rewrite E3 in Hk. destruct Hk as (new & Hn & Hall).
  simpl in Hn. intros Hr Hin Hge.
  assert (h = (FsRmdir probe, x) :: h2) as ->.
  { unfold lift, mbind, M_bind in Hr. destruct result; [destruct cleanup|]; by injection Hr. }
  exists x. assert (p = probe) as ->; [|left].
  rewrite Hn in Hin. apply elem_of_cons in Hin as [?|[Hin|Hin]%elem_of_app]; [done| |set_solver].
  rewrite Forall_forall in Hall. by apply Hall in Hin.
Qed.

(** the check at start is fail-closed: in secure mode it succeeds only on Linux, with a
    delegated control group whose controllers can be read, in which a probe group could be
    created, limited in memory, processors and processes, and removed again, and with
    Landlock enabled in the configuration and supported by the kernel.  A probe group that
    was created is removed again, also when the check fails. *)
Theorem preflight_fail_closed c probe_id res h :
  rc_isolation_mode c = Secure → preflight_runtime c probe_id [] = (res, h) →
  (is_ok res = true →
    on_linux = true ∧ enable_landlock (rc_hardening c) = true ∧
    (∃ parent, cgroup_parent (rc_hardening c) = Some parent ∧ probed parent probe_id h) ∧
    ∃ abi, (LandlockAbi, abi) ∈ h ∧ (1 ≤ rp_value abi)%Z) ∧
  (∀ p r, (FsMkdir p, r) ∈ h → (0 ≤ rp_value r)%Z → ∃ x, (FsRmdir p, x) ∈ h).
Proof.
  intros Hsec. unfold preflight_runtime. rewrite decide_False by (by rewrite Hsec; auto).
  destruct on_linux; simpl; [|intros [= <- <-]; split; [done|set_solver]].
  destruct (cgroup_parent (rc_hardening c)) as [parent|]; [|intros [= <- <-]; split; [done|set_solver]].
  unfold mbind at 1, M_bind at 1. destruct (validate_cgroup_parent parent probe_id []) as [[u|e] h1] eqn:Ev.
  2: { intros [= <- <-]. split; [done|]. intros p r. by eapply probe_removed. }
  pose proof (cgroup_parent_probed _ _ _ _ _ Ev) as Hp.
  destruct (enable_landlock (rc_hardening c)); simpl.
  2: { intros [= <- <-]. split; [done|]. intros p r. by eapply probe_removed. }
  unfold landlock_abi, sys, mbind, M_bind. simpl. set (abi := kernel h1 LandlockAbi).
  intros Hr. assert (h = (LandlockAbi, abi) :: h1 ∧ (is_ok res = true → (1 ≤ rp_value abi)%Z)) as [-> Habi].
  { revert Hr. destruct (Z.leb_spec 1 (rp_value abi)); simpl; intros [= <- <-]; split; done. }
  split.
  - intros Hok. split_and!; [done|done| |by exists abi; split; [left|auto]]. exists parent. split; [done|].
    destruct Hp as (Hp1 & Hp2 & Hp3 & Hp4). assert (Hs : suffix h1 ((LandlockAbi, abi) :: h1)) by (by eexists [_]).
    unfold probed. split_and!; try (by eapply did_mono). eapply Forall_impl; [exact Hp3|].
    intros [[p data] context]. by apply did_mono.
  - intros p r [?|Hin]%elem_of_cons Hr0; [done|]. destruct (probe_removed _ _ _ _ _ _ Ev Hin Hr0) as [x ?].
    exists x. by right.
Qed.
End launch_props.

(** ** Where the guest can be reached *)

Section reach.
Context `{Target, Platform, Ext4, Serde LibkrunRunnerConfig} (launcher runner : Kernel).

Lemma run_socket_apart state_dir id :
  rl_root_dir (run_layout state_dir id) ++ ["runtime"; "guest.sock"] ≠ rl_vsock_socket (run_layout state_dir id).
Proof. intros Heq%(f_equal length). revert Heq. simpl. rewrite !length_app. simpl. lia. Qed.

Lemma parent_snoc (p : path) name : parent (p ++ [name]) = p.
Proof. unfold parent. rewrite length_app. simpl. rewrite Nat.add_1_r. simpl. by rewrite take_app_length. Qed.

Lemma run_root c state_dir id root :
  lk_runtime_dir c = rl_runtime_dir (run_layout state_dir id) → secure_root_dir c = Ok root →
  root = rl_root_dir (run_layout state_dir id).
Proof.
  unfold secure_root_dir. intros ->. simpl. destruct (_ ++ ["runtime"]) as [|x l] eqn:E; [done|].
  intros [= <-]. by rewrite <-E, parent_snoc.
Qed.

(** the daemon cannot reach the guest of a secure sandbox: a runner that enters its guest
    offers the guest's port on one socket, inside its own root, the directory of the run;
    the path the launch hands the daemon to connect to lies elsewhere. *)
Theorem secure_socket_mismatch patience state_dir id request host_binary current_exe pid endpoint hd gate parse_error res later
    ctx r h :
  bl_isolation_mode request = Secure → bl_run_layout request = run_layout state_dir id →
  launch_self_runner (H := launcher) request host_binary current_exe [] = (Ok (pid, endpoint), hd) →
  run_from_file (H := runner) patience (Ok (build_runner_config request)) gate parse_error []
    = (res, later ++ (Krun (krun_start_enter ctx), r) :: h) →
  ∃ socket, marks socket_of h = [(ep_port endpoint, display socket)] ∧
    v_root (view h) ++ socket ≠ ep_socket_path endpoint.
Proof.
  intros Hsec Hrun Hl Hr.
  destruct (start_state (H := runner) _ (build_runner_config request) _ _ _ _ _ _ _ Hsec Hr) as (root & abi & Hroot & _ & _ & Hv & _ & Hk).
  assert (endpoint = mkEndpoint (rl_vsock_socket (run_layout state_dir id)) (guest_vsock_port (bl_guest request))) as ->.
  { unfold launch_self_runner in Hl. cbv zeta in Hl. run_inv. simplify_eq. by rewrite Hrun. }
  exists ["runtime"; "guest.sock"]. rewrite Hk, Hv. split; [done|]. simpl.
  eapply run_root in Hroot as ->; [apply run_socket_apart|]. simpl. by rewrite Hrun.
Qed.
End reach.

(** ** Ending a runner: [instance.rs]

    [LibkrunInstance] for a runner process: the slot a shutdown empties. *)

Record LibkrunInstance := mkInstance { li_running : option Child; li_supports_graceful_shutdown : bool }.

Definition new_process (child : Child) : LibkrunInstance := mkInstance (Some child) true.

Section instance.
Context (wait_error : IoError).  (** the error behind a failed wait *)

(** [Child::kill]: the signal, then a wait. *)
Definition kill_child (ch : Child) (c : Clock) : option (Waited * Clock) :=
  wait ch (mkClock (ck_now c) (ck_sent c ++ [(ck_now c, SIGKILL)]) (ck_reaped c)).

Definition waited_ok (context : string) (w : Waited) : Result SandboxError () :=
  match w with WExited _ => Ok () | WError => Err (Io context wait_error) end.

Definition shutdown_process_vm (ch : Child) (c : Clock) : option (Result SandboxError () * Clock) :=
  match wait_timeout ch 2000 c with
  | (Some _, c1) => Some (Ok (), c1)
  | (None, c1) =>
      '(w, c2) ← kill_child ch c1;
      match waited_ok "killing libkrun runner process" w with
      | Err e => Some (Err e, c2)
      | Ok _ => '(w', c3) ← wait ch c2; Some (waited_ok "waiting for libkrun runner process exit" w', c3)
      end
  end.

Definition shutdown (i : LibkrunInstance) (c : Clock) : option (Result SandboxError () * Clock * LibkrunInstance) :=
  match li_running i with
  | None => Some (Ok (), c, i)
  | Some ch =>
      '(r, c') ← shutdown_process_vm ch c; Some (r, c', mkInstance None (li_supports_graceful_shutdown i))
  end.

(** shutting down a sandbox's process always ends it: the call returns at most two seconds
    and the latency of a kill later, the runner has exited by then, a runner that exits by
    itself in the two seconds is not killed, and a second shutdown does nothing. *)
Theorem shutdown_ends_runner latency child start :
  child_laws latency child → (0 ≤ latency)%Z →
  ∃ r c i, shutdown (new_process child) (mkClock start [] false) = Some (r, c, i) ∧
    (start ≤ ck_now c ≤ start + 2000 + latency)%Z ∧
    (∃ te w, exits child (ck_sent c) = Some (te, w) ∧ (te ≤ ck_now c)%Z) ∧
    (∀ te w, exits child [] = Some (te, w) → (te ≤ start + 2000)%Z → r = Ok () ∧ ck_sent c = []) ∧
    ∀ c', shutdown i c' = Some (Ok (), c', i).
Proof.
  intros Hch Hlat. unfold shutdown, shutdown_process_vm. simpl.
  destruct (wait_timeout child 2000 _) as [[w|] c1] eqn:E1.
  - apply wait_timeout_some in E1 as (te & He & Hte & ->). simpl in *. eexists _, _, _. split; [done|]. simpl.
    split_and!; [lia|lia|exists te, w; split; [done|lia]|done|done].
  - apply wait_timeout_none in E1 as [Hlate ->]. simpl in *.
    destruct (kill_certain _ _ Hch [] (start + 2000)) as (te & w & He & Hte); [constructor|].
    simpl in He. unfold kill_child, wait. simpl. rewrite He. simpl. rewrite ?He.
    assert (Hno : ∀ te w (P : Prop), exits child [] = Some (te, w) → (te ≤ start + 2000)%Z → P).
    { intros te' w' P Hx Hy. apply Hlate in Hx. lia. }
    destruct w; simpl; (eexists _, _, _; split; [done|]); simpl;
      (split_and!; [lia|lia|exists te; eexists; split; [done|lia]|intros te' w'; by apply Hno|done]).
Qed.
End instance.
