(* ===== verification/Harness.v ===== *)
(** * Harness: [secure_runner/harness.rs] and [preflight.rs]

    Before it starts, the daemon runs itself as a security harness: the process
    confines itself like a runner and then tries what a runner must not be able
    to do.  [verify_security_harness] is that list of attempts, over the calls of
    [Kernel]; [preflight_secure_runner] prepares the files of the harness and
    judges its exit. *)

From S2P Require Import Prelude RustStd Text Paths FileSystem PrivateFs Config Lineage Workspace Images Protocol Runtime GuestBoot GuestExec Kernel SecureRunner Microvm Launch.

Definition ESRCH_code : Z := 3.

(** ** [/proc/self/mounts] *)

(** The fields of a line: source, mount point, type, options. *)
Definition mount_options (mountpoint line : string) : option string :=
  match split_whitespace line with
  | _ :: current :: _ :: options :: _ => if decide (current = mountpoint) then Some options else None
  | _ => None
  end.

Definition first_options (mountpoint mounts : string) : option string :=
  head (omap (mount_options mountpoint) (str_lines mounts)).

Fixpoint require_options (mountpoint options : string) (expected : list string) : Result SandboxError () :=
  match expected with
  | [] => Ok ()
  | flag :: expected' =>
      if bool_decide (flag ∈ split_on "," options) then require_options mountpoint options expected'
      else Err (Backend ("mount " ^+ mountpoint ^+ " is missing expected option " ^+ flag ^+ ": " ^+ options))
  end.

Definition reply_text (r : Reply) : string := match rp_names r with Ok text :: _ => text | _ => "" end.

Section harness.
Context `{Kernel}.

Definition verify_mount_options (mountpoint : string) (expected : list string) : RM () :=
  r ← fs_call (FsReadText "/proc/self/mounts") "reading secure runner mount table";
  options ← checked (ok_or (Backend ("missing mount entry for " ^+ mountpoint)) (first_options mountpoint (reply_text r)));
  checked (require_options mountpoint options expected).

Definition verify_dumpable_disabled : RM () :=
  r ← sys (Probe PbGetDumpable);
  if decide (rp_value r = 0)%Z then mret ()
  else if decide (rp_value r < 0)%Z then last_os_error "reading PR_GET_DUMPABLE" r
  else fail (Backend ("secure runner unexpectedly remained dumpable: " ^+ pretty (rp_value r))).

Definition verify_mdwe_if_supported : RM () :=
  r ← sys (Probe PbGetMdwe);
  if decide (rp_value r < 0)%Z then
    if decide (rp_errno r = EINVAL_code) then mret () else last_os_error "reading PR_GET_MDWE" r
  else if decide (Z.land (rp_value r) PR_MDWE_REFUSE_EXEC_GAIN ≠ 0)%Z then mret ()
  else fail (Backend "secure runner did not retain PR_MDWE_REFUSE_EXEC_GAIN").

Definition expect_failure (label : string) (operation : Probing) : RM () :=
  r ← sys (Probe operation);
  if decide (rp_value r < 0)%Z then mret ()
  else fail (Backend ("security harness check unexpectedly succeeded: " ^+ label)).

Definition verify_pid : RM () :=
  r ← sys (Probe PbGetpid);
  if decide (rp_value r ≠ 1)%Z then
    fail (Backend ("secure runner pid namespace check failed: expected pid 1, got " ^+ pretty (rp_value r)))
  else mret ().

Definition verify_signal_isolation : RM () :=
  r ← sys (Probe (PbKill 2 0));
  if decide (rp_value r = 0)%Z then fail (Backend "secure runner unexpectedly signaled pid 2")
  else if decide (rp_errno r ≠ ESRCH_code) then
    fail (Backend ("secure runner signal isolation expected ESRCH for pid 2, got " ^+ io_text (rp_error r)))
  else mret ().

Definition verify_fd_table : RM () :=
  r ← fs_call (FsReadDir "/proc/self/fd") "reading secure runner fd table";
  if decide (4 < length (rp_names r)) then
    fail (Backend ("secure runner leaked file descriptors: observed " ^+ pretty (length (rp_names r))))
  else mret ().

Definition verify_security_harness : RM () :=
  verify_pid;;
  verify_mount_options "/proc" ["ro"; "nosuid"; "nodev"; "noexec"];;
  verify_mount_options "/tmp" ["nosuid"; "nodev"; "noexec"];;
  verify_dumpable_disabled;;
  verify_mdwe_if_supported;;
  expect_failure "reading host file outside secure runner root" (PbReadFile "/etc/passwd");;
  expect_failure "connecting outbound TCP socket from secure runner" (PbTcpConnect "127.0.0.1" 9);;
  expect_failure "binding TCP listener from secure runner" (PbTcpBind "127.0.0.1" 0);;
  expect_failure "executing a new program from secure runner" (PbExecve "/proc/self/exe");;
  expect_failure "connecting arbitrary unix socket from secure runner" (PbUnixConnect "/tmp/host.sock");;
  verify_signal_isolation;;
  verify_fd_table.

Context `{Target}.

(** [runner.rs] and [secure_runner/mod.rs]; [config] and [gate] as for [run_from_file]. *)
Definition run_security_harness (patience : nat) (config : LibkrunRunnerConfig) : RM () :=
  if on_linux then apply_secure_bootstrap patience config;; verify_security_harness
  else fail (UnsupportedHost "security harness requires Linux").

Definition run_security_harness_from_file (patience : nat) (config : Result SandboxError LibkrunRunnerConfig)
    (gate : option string) (parse_error : string) : RM () :=
  config ← checked config;
  checked (validate_secure_constraints config);;
  wait_for_startup_gate patience gate parse_error;;
  if decide (lk_isolation_mode config ≠ Secure) then fail (InvalidConfig "security harness requires secure isolation mode")
  else run_security_harness patience config.

(** ** What the harness establishes *)

(** The attempts in their order, and what each has to come to. *)
Definition mounted_with (mountpoint : string) (expected : list string) (r : Reply) : Prop :=
  (0 ≤ rp_value r)%Z ∧ ∃ options, first_options mountpoint (reply_text r) = Some options ∧
  Forall (λ flag, flag ∈ split_on "," options) expected.

Definition refused_call (r : Reply) : Prop := (rp_value r < 0)%Z.

Definition checklist : list (Sys * (Reply → Prop)) := [
  (Probe PbGetpid, λ r, rp_value r = 1%Z);
  (FsReadText "/proc/self/mounts", mounted_with "/proc" ["ro"; "nosuid"; "nodev"; "noexec"]);
  (FsReadText "/proc/self/mounts", mounted_with "/tmp" ["nosuid"; "nodev"; "noexec"]);
  (Probe PbGetDumpable, λ r, rp_value r = 0%Z);
  (Probe PbGetMdwe, λ r, ((rp_value r < 0 ∧ rp_errno r = EINVAL_code) ∨ (0 ≤ rp_value r ∧ Z.testbit (rp_value r) 0 = true))%Z);
  (Probe (PbReadFile "/etc/passwd"), refused_call);
  (Probe (PbTcpConnect "127.0.0.1" 9), refused_call);
  (Probe (PbTcpBind "127.0.0.1" 0), refused_call);
  (Probe (PbExecve "/proc/self/exe"), refused_call);
  (Probe (PbUnixConnect "/tmp/host.sock"), refused_call);
  (Probe (PbKill 2 0), λ r, rp_value r ≠ 0%Z ∧ rp_errno r = ESRCH_code);
  (FsReadDir "/proc/self/fd", λ r, (0 ≤ rp_value r)%Z ∧ length (rp_names r) ≤ 4) ].

(** The calls of [l] are made one after the other from [h] on, each is answered
    as it has to be, and [h'] is the history after them. *)
Fixpoint passes (h : History) (l : list (Sys * (Reply → Prop))) (h' : History) : Prop :=
  match l with
  | [] => h' = h
  | (s, expected) :: l' => expected (kernel h s) ∧ passes ((s, kernel h s) :: h) l' h'
  end.

(** A program that makes one call and succeeds exactly if the answer is as expected. *)
Definition checks (m : RM ()) (s : Sys) (expected : Reply → Prop) : Prop := ∀ h u h',
  m h = (Ok u, h') ↔ expected (kernel h s) ∧ h' = (s, kernel h s) :: h.

Lemma checks_seq m s expected (k : RM ()) l :
  checks m s expected → (∀ h u h', k h = (Ok u, h') ↔ passes h l h') →
  ∀ h u h', (m;; k) h = (Ok u, h') ↔ passes h ((s, expected) :: l) h'.
Proof.
  intros Hm Hk h u h'. cbn [passes]. split.
  - intros ([] & h1 & H1 & H2)%bind_ok_inv. apply Hm in H1 as [He ->]. split; [done|]. by apply (Hk _ u).
  - intros [He Hp]. assert (Hmh : m h = (Ok (), (s, kernel h s) :: h)) by by apply Hm.
    rewrite (bind_ok _ _ _ _ _ Hmh). by apply Hk.
Qed.

Lemma checks_last m s expected : checks m s expected → ∀ h u h', m h = (Ok u, h') ↔ passes h [(s, expected)] h'.
Proof. intros Hm h u h'. exact (Hm h u h'). Qed.

Lemma require_options_ok mountpoint options expected u :
  require_options mountpoint options expected = Ok u ↔ Forall (λ flag, flag ∈ split_on "," options) expected.
Proof.
  destruct u. induction expected as [|flag expected IH]; cbn [require_options]; [by rewrite Forall_nil|].
  rewrite Forall_cons. case_bool_decide; naive_solver.
Qed.

Ltac checks_tac := intros h [] h'; unfold sys, fs_call, mbind, M_bind, fail, last_os_error, throw, mret, M_ret; cbn;
  repeat case_decide; cbn; naive_solver lia.

Lemma mount_checks mountpoint expected :
  checks (verify_mount_options mountpoint expected) (FsReadText "/proc/self/mounts") (mounted_with mountpoint expected).
Proof.
  intros h u h'. unfold verify_mount_options, mounted_with, fs_call, sys, last_os_error, fail, mbind, M_bind. cbn.
  set (r := kernel h _). case_decide as Hv; cbn; [split; [done|lia]|].
  destruct (first_options mountpoint (reply_text r)) as [options|]; cbn; [|naive_solver].
  destruct u. pose proof (require_options_ok mountpoint options expected ()) as Hq.
  destruct (require_options mountpoint options expected) as [[]|e]; cbn; [|naive_solver].
  split; [intros [= <-]; naive_solver lia|by intros [_ ->]].
Qed.

Lemma expect_checks label p : checks (expect_failure label p) (Probe p) refused_call.
Proof. unfold expect_failure, refused_call. checks_tac. Qed.

Lemma mdwe_bit v : Z.land v PR_MDWE_REFUSE_EXEC_GAIN ≠ 0%Z ↔ Z.testbit v 0 = true.
Proof.
  unfold PR_MDWE_REFUSE_EXEC_GAIN. change 1%Z with (Z.ones 1). rewrite Z.land_ones by lia. change (2 ^ 1)%Z with 2%Z.
  rewrite Z.bit0_odd, Zmod_odd. by destruct (Z.odd v).
Qed.

Lemma pid_checks : checks verify_pid (Probe PbGetpid) (λ r, rp_value r = 1%Z).
Proof. unfold verify_pid. checks_tac. Qed.
Lemma dumpable_checks : checks verify_dumpable_disabled (Probe PbGetDumpable) (λ r, rp_value r = 0%Z).
Proof. unfold verify_dumpable_disabled. checks_tac. Qed.
Lemma mdwe_checks : checks verify_mdwe_if_supported (Probe PbGetMdwe)
  (λ r, ((rp_value r < 0 ∧ rp_errno r = EINVAL_code) ∨ (0 ≤ rp_value r ∧ Z.testbit (rp_value r) 0 = true))%Z).
Proof.
  unfold verify_mdwe_if_supported. intros h u h'. rewrite <-mdwe_bit. revert h u h'. checks_tac.
Qed.
Lemma signal_checks : checks verify_signal_isolation (Probe (PbKill 2 0)) (λ r, rp_value r ≠ 0%Z ∧ rp_errno r = ESRCH_code).
Proof. unfold verify_signal_isolation. checks_tac. Qed.
Lemma fd_checks : checks verify_fd_table (FsReadDir "/proc/self/fd") (λ r, (0 ≤ rp_value r)%Z ∧ length (rp_names r) ≤ 4).
Proof. unfold verify_fd_table. checks_tac. Qed.

Lemma verify_passes h u h' : verify_security_harness h = (Ok u, h') ↔ passes h checklist h'.
Proof.
  revert h u h'. unfold verify_security_harness, checklist.
  repeat (apply checks_seq; [auto using pid_checks, mount_checks, dumpable_checks, mdwe_checks, expect_checks, signal_checks|]).
  apply checks_last, fd_checks.
Qed.

(** the harness is exactly its list of checks: it succeeds if and only if the
    process is the first of its namespace, [/proc] and [/tmp] are mounted with
    their restrictions, the process is neither dumpable nor (where the kernel
    knows the option) allowed to gain executable memory, every forbidden attempt
    is refused, no other process can be signaled, and at most the standard
    descriptors are open; all of it is tried, once and in this order. *)
Theorem harness_is_checklist h h' : verify_security_harness h = (Ok (), h') ↔ passes h checklist h'.
Proof. apply verify_passes. Qed.
End harness.

(** ** A harness that passes, and whether one can *)

Section harness_runs.
Context `{Kernel, Target}.

Lemma harness_run_inv patience config gate parse_error u h' :
  run_security_harness_from_file patience (Ok config) gate parse_error [] = (Ok u, h') →
  ∃ h1 c' h2, lk_isolation_mode config = Secure ∧ view h1 = initial_view ∧
    apply_secure_bootstrap patience config h1 = (Ok c', h2) ∧ verify_security_harness h2 = (Ok u, h').
Proof.
  unfold run_security_harness_from_file, run_security_harness. intros Hr.
  apply bind_ok_inv in Hr as (c & h0 & [[= <-] ->]%checked_ok_inv & Hr).
  apply bind_ok_inv in Hr as ([] & h0 & [_ ->]%checked_ok_inv & Hr).
  apply bind_ok_inv in Hr as ([] & h1 & Hg & Hr). case_decide; [done|]. destruct on_linux; [|done].
  apply bind_ok_inv in Hr as (c' & h2 & Hb & Hv). exists h1, c', h2.
  pose proof (keeps_gate patience gate parse_error []) as Hk. rewrite Hg in Hk. apply plain_start in Hk as [Hi _].
  split_and!; [|done..]. by destruct (lk_isolation_mode config).
Qed.

(** a harness that passes has been confined like a runner and has seen it: its
    process has the view a secure runner enters its guest with, and from there
    every check of the list came out as it has to. *)
Theorem harness_vouches patience config gate parse_error h' :
  run_security_harness_from_file patience (Ok config) gate parse_error [] = (Ok (), h') →
  ∃ root abi h, secure_root_dir config = Ok root ∧ (1 ≤ abi)%Z ∧ view h = secured_view config root abi ∧
    passes h checklist h'.
Proof.
  intros (h1 & c' & h2 & _ & Hi & Hb & Hv)%harness_run_inv.
  apply bootstrap_view in Hb as (root & abi & Hroot & Habi & _ & Hview); [|done].
  exists root, abi, h2. do 3 (split; [done|]). exact (proj1 (verify_passes h2 () h') Hv).
Qed.

(** the harness cannot pass: like a runner in secure mode it takes the session
    identifier [setsid] returns for a failure. *)
Theorem harness_never_passes patience config gate parse_error :
  (∀ h, rp_value (kernel h Setsid) = -1 ∨ 0 < rp_value (kernel h Setsid))%Z →
  is_ok (run_security_harness_from_file patience (Ok config) gate parse_error []).1 = false.
Proof.
  intros Hsid. destruct (run_security_harness_from_file patience (Ok config) gate parse_error []) as [[u|e] h'] eqn:E; [|done].
  apply harness_run_inv in E as (h1 & c' & h2 & _ & _ & Hb & _). by apply bootstrap_needs_setsid in Hb.
Qed.
End harness_runs.

(** ** [preflight.rs] *)

Section preflight.
Context `{outside : Kernel, !Target, !Serde LibkrunRunnerConfig}.

(** The last lines of the two outputs; [status] is the exit status as text. *)
Definition format_preflight_output (status stdout stderr : string) : string :=
  let lines := filter (λ l, l ≠ "") (trim <$> (str_lines stdout ++ str_lines stderr)) in
  let lines := if decide (8 < length lines) then drop (length lines - 8) lines else lines in
  match lines with
  | [] => "exit_status=" ^+ status
  | _ => "exit_status=" ^+ status ^+ " tail=" ^+ String.concat " | " lines
  end.

Definition harness_config (dir : path) (c : RuntimeConfig) : LibkrunRunnerConfig :=
  mkRunner (display (dir ++ ["kernel"])) ImageGz (display (dir ++ ["rootfs.raw"])) None (dir ++ ["workspace.raw"])
    (dir ++ ["runtime"]) (dir ++ ["guest-console.log"]) None (guest_agent_path (rc_guest c)) 1 128 64 32 false
    (guest_uid (rc_guest c)) (guest_gid (rc_guest c)) (Z.max (guest_vsock_port (rc_guest c)) 1024)
    (dir ++ ["runtime"; "guest.sock"]) Secure (runner_log_limit_bytes (rc_hardening c)).

Definition reply_entry (r : Reply) (i : nat) : string := match rp_names r !! i with Some (Ok text) => text | _ => "" end.

(** What is done in the temporary directory.  [RunHarness] answers 0 when the
    process ended, with its status and outputs, and 1 when its time was up. *)
Definition preflight_in (dir : path) (host_binary : string) (c : RuntimeConfig) : RM () :=
  for_each (λ p, fs_call (FsWriteBytes p (as_bytes ("secure-runner-preflight" ^+ line_end))) ("writing " ^+ display p);; mret ())
    [dir ++ ["kernel"]; dir ++ ["rootfs.raw"]; dir ++ ["workspace.raw"]];;
  fs_call (FsCreateDirAll (dir ++ ["runtime"])) "creating secure preflight runtime dir";;
  write_debug_runner_config (dir ++ ["runner-config.json"]) (harness_config dir c);;
  r ← sys (RunHarness host_binary (dir ++ ["runner-config.json"]));
  if decide (rp_value r < 0)%Z then last_os_error "waiting for secure runner preflight harness" r
  else if decide (rp_value r ≠ 0)%Z then fail (Timeout "timed out waiting for secure runner preflight harness")
  else if decide (rp_status r = 0)%Z then mret ()
  else fail (UnsupportedHost ("secure runner host sandbox preflight failed: "
                              ^+ format_preflight_output (reply_entry r 2) (reply_entry r 0) (reply_entry r 1))).

(** [TempDir] removes its directory when it goes out of scope. *)
Definition preflight_secure_runner (state_dir : path) (host_binary : string) (c : RuntimeConfig) : RM () :=
  if decide (rc_isolation_mode c ≠ Secure) then mret ()
  else if negb on_linux then fail (UnsupportedHost "secure runner host sandbox preflight requires Linux")
  else
    let root := state_dir ++ ["secure-preflight"] in
    fs_call (FsCreateDirAll root) "creating secure preflight directory";;
    made ← fs_call (TempDirIn root "runner-") "creating secure preflight tempdir";
    let dir := root ++ [reply_text made] in
    result ← attempt (preflight_in dir host_binary c);
    sys (RemoveTree dir);;
    lift result.

(** The harness ran on the configuration in [dir], in time, and exited with 0. *)
Definition harness_succeeded (host_binary : string) (dir : path) (h : History) : Prop :=
  ∃ r, (RunHarness host_binary (dir ++ ["runner-config.json"]), r) ∈ h ∧ rp_value r = 0%Z ∧ rp_status r = 0%Z.

Lemma preflight_in_ok dir host_binary c h u h' :
  preflight_in dir host_binary c h = (Ok u, h') → ∃ r h0,
    h' = (RunHarness host_binary (dir ++ ["runner-config.json"]), r) :: h0 ∧ r = kernel h0 (RunHarness host_binary (dir ++ ["runner-config.json"])) ∧
    rp_value r = 0%Z ∧ rp_status r = 0%Z.
Proof.
  unfold preflight_in. intros Hr. do 3 apply bind_ok_inv in Hr as (? & ? & _ & Hr).
  apply bind_ok_inv in Hr as (r & h1 & [= <- <-] & Hr).
  case_decide; [done|]. case_decide; [done|]. case_decide; [|done]. injection Hr as _ <-. eexists _, _. split_and!; [done|done|lia|done].
Qed.

Lemma preflight_ok_inv state_dir host_binary c h u h' :
  rc_isolation_mode c = Secure → preflight_secure_runner state_dir host_binary c h = (Ok u, h') →
  on_linux = true ∧ ∃ name h2 h3 r, let dir := state_dir ++ ["secure-preflight"; name] in
    preflight_in dir host_binary c h2 = (Ok (), h3) ∧ h' = (RemoveTree dir, r) :: h3.
Proof.
  unfold preflight_secure_runner. intros Hs. rewrite decide_False by tauto. destruct on_linux; [|done]. intros Hr. split; [done|].
  cbn [negb] in Hr. apply bind_ok_inv in Hr as (? & h1 & _ & Hr). apply bind_ok_inv in Hr as (made & h2 & _ & Hr).
  apply bind_ok_inv in Hr as (result & h3 & Ha & Hr). apply bind_ok_inv in Hr as (r & h4 & ->%sys_ok_inv & Hr).
  apply lift_ok_inv in Hr as [-> <-]. exists (reply_text made), h2, h3, r. unfold attempt in Ha. cbv zeta.
  rewrite <-app_assoc in *. cbn [app] in *.
  destruct (preflight_in _ host_binary c h2) as [[[]|e] h3'] eqn:E; injection Ha as Ha <-; by split.
Qed.

(** the daemon comes past its preflight in secure mode only on a Linux host
    where the harness, run as this program on the configuration it was given,
    ended in time and successfully. *)
Theorem preflight_gates state_dir host_binary c h h' :
  rc_isolation_mode c = Secure → preflight_secure_runner state_dir host_binary c h = (Ok (), h') →
  on_linux = true ∧ ∃ name, harness_succeeded host_binary (state_dir ++ ["secure-preflight"; name]) h'.
Proof.
  intros Hs Hr. apply preflight_ok_inv in Hr as (Hl & name & h2 & h3 & r & E & ->); [|done]. split; [done|]. exists name.
  apply preflight_in_ok in E as (y & h0 & -> & _ & Hv & Hst). exists y. split_and!; [set_solver|done..].
Qed.

Lemma fs_call_history s context h r h' :
  fs_call s context h = (r, h') → h' = (s, kernel h s) :: h ∧ (∀ e, r = Err e → rp_value (kernel h s) < 0)%Z.
Proof. unfold fs_call, sys, mbind, M_bind. cbn. case_decide; intros [= <- <-]; by split. Qed.

(** the preflight leaves nothing behind: however it ends, the last thing it did
    after making its temporary directory was to remove it. *)
Theorem preflight_cleans_up state_dir host_binary c r h' :
  preflight_secure_runner state_dir host_binary c [] = (r, h') →
  (∃ made, (TempDirIn (state_dir ++ ["secure-preflight"]) "runner-", made) ∈ h' ∧ (0 ≤ rp_value made)%Z) →
  ∃ name x, head h' = Some (RemoveTree (state_dir ++ ["secure-preflight"; name]), x).
Proof.
  unfold preflight_secure_runner. case_decide; [intros [= <- <-] (? & Hin & _); set_solver|].
  destruct on_linux; cbn [negb]; [|intros [= <- <-] (? & Hin & _); set_solver].
  cbv zeta. destruct (fs_call (FsCreateDirAll (state_dir ++ ["secure-preflight"])) "creating secure preflight directory" []) as [[r1|e] h1] eqn:E1.
  2:{ rewrite (bind_err _ _ _ _ _ E1). apply fs_call_history in E1 as [-> _]. intros [= <- <-] (? & Hin & _). set_solver. }
  rewrite (bind_ok _ _ _ _ _ E1). apply fs_call_history in E1 as [-> _].
  destruct (fs_call (TempDirIn (state_dir ++ ["secure-preflight"]) "runner-") "creating secure preflight tempdir"
    [(FsCreateDirAll (state_dir ++ ["secure-preflight"]), kernel [] (FsCreateDirAll (state_dir ++ ["secure-preflight"])))]) as [[r2|e] h2] eqn:E2.
  2:{ rewrite (bind_err _ _ _ _ _ E2). apply fs_call_history in E2 as [-> Hneg]. intros [= <- <-] (made & Hin & Hv).
      apply elem_of_cons in Hin as [[= ->]|Hin]; [by specialize (Hneg e eq_refl); lia|set_solver]. }
  rewrite (bind_ok _ _ _ _ _ E2), <-app_assoc. cbn [app]. unfold mbind, M_bind, attempt, lift.
  destruct (preflight_in _ host_binary c h2) as [res h3]. intros [= _ <-] _. eexists _, _. reflexivity.
Qed.

(** no daemon starts in secure mode: if a harness exits with 0 only when
    [run_security_harness_from_file] returned, then on every kernel whose
    [setsid] returns a session identifier the preflight fails. *)
Theorem secure_preflight_never_passes (inside : Kernel) patience state_dir host_binary c h :
  (∀ h, rp_value (kernel (Kernel := inside) h Setsid) = -1 ∨ 0 < rp_value (kernel (Kernel := inside) h Setsid))%Z →
  (∀ h binary dir, rp_value (kernel (Kernel := outside) h (RunHarness binary (dir ++ ["runner-config.json"]))) = 0%Z →
     rp_status (kernel (Kernel := outside) h (RunHarness binary (dir ++ ["runner-config.json"]))) = 0%Z →
     is_ok (run_security_harness_from_file (H := inside) patience (Ok (harness_config dir c)) None "" []).1 = true) →
  rc_isolation_mode c = Secure →
  is_ok (preflight_secure_runner state_dir host_binary c h).1 = false.
Proof.
  intros Hsid Hexit Hs. destruct (preflight_secure_runner state_dir host_binary c h) as [[u|e] h'] eqn:Hr; [|done]. exfalso.
  apply preflight_ok_inv in Hr as (_ & name & h2 & h3 & r & E & _); [|done].
  apply preflight_in_ok in E as (x' & h0 & _ & -> & Hv & Hst). specialize (Hexit _ _ _ Hv Hst).
  destruct (run_security_harness_from_file (H := inside) _ _ _ _ _) as [[y|e] hy] eqn:Ey; [|done].
  apply (harness_run_inv (H := inside)) in Ey as (g1 & c' & g2 & _ & _ & Hb & _). by apply bootstrap_needs_setsid in Hb.
Qed.
End preflight.
