(* ===== verification/GuestServer.v ===== *)
(** * GuestServer: a connection of the guest agent, [linux_server.rs] and [linux_exec.rs]

    The loop of [handle_connection] takes one request after the other and
    answers it; the processes it started are watched by tasks of their own,
    which write to the same connection and share two kinds of locks with the
    loop: the table of shells, and one per shell around its [Child].  A run is
    a sequence of steps, each up to the next point where a task waits. *)

From S2P Require Import Prelude RustStd Text Paths FileSystem Config Manifest Protocol Runtime GuestWire GuestFs GuestStats GuestBoot GuestExec.

(** ** State *)

(** The task [open_shell] leaves behind: it waits with the lock of the child
    held, then removes the shell from the table, then reports. *)
Inductive Waiter := WtStart | WtWaiting | WtRemove (code : Z) | WtReport (code : Z) | WtDone.

Record ShellProc := mkShellProc {
  sp_session : Uuid;
  sp_command : Command;
  sp_exit : option Waited;       (** how the process exited, once it did *)
  sp_reaped : bool;
  sp_signals : list Signal;      (** what it was sent *)
  sp_waiter : Waiter;
  sp_reading : bool;             (** [stream_shell_output] is running *)
  sp_input : bytes;              (** what was written to the terminal *)
  sp_size : Z * Z;
}.

Record ExecProc := mkExecProc {
  xp_id : Uuid;
  xp_command : Command;
  xp_timeout : option Z;
  xp_grace : Z;
  xp_stdout : bool;              (** the task of [stream_exec] is running *)
  xp_stderr : bool;
  xp_status : option ExecExit;   (** what [wait_exec_status] returned *)
  xp_reported : bool;
}.

(** Where [terminate_child] is; what awaits the lock of the child says so. *)
Inductive CloseStage :=
  | CSignal   (** lock, SIGTERM *)
  | CGrace    (** lock and wait, for at most 250 ms *)
  | CKill     (** lock, SIGKILL *)
  | CReap.    (** lock, [Child::kill] *)

(** The loop: at [next_request]; closing a shell, with those still to close, for
    the request [id], the last one or not; or returned. *)
Inductive Loop :=
  | LReady
  | LClosing (id : string) (shell : nat) (stage : CloseStage) (rest : list nat) (last : bool)
  | LEnded (result : Result SandboxError bool).

(** [ag_sent] are the events written to [ag_out].  The table of execs is left
    out: it is written and never read. *)
Record Agent := mkAgent {
  ag_guest : Guest;
  ag_shells : gmap Uuid nat;
  ag_procs : list ShellProc;
  ag_execs : list ExecProc;
  ag_loop : Loop;
  ag_out : bytes;
  ag_faults : list (option (IoError * nat));
  ag_sent : list GuestEvent;
}.

Definition set_guest (g : Guest) (a : Agent) : Agent :=
  mkAgent g (ag_shells a) (ag_procs a) (ag_execs a) (ag_loop a) (ag_out a) (ag_faults a) (ag_sent a).
Definition set_shells (m : gmap Uuid nat) (l : list ShellProc) (a : Agent) : Agent :=
  mkAgent (ag_guest a) m l (ag_execs a) (ag_loop a) (ag_out a) (ag_faults a) (ag_sent a).
Definition set_procs (l : list ShellProc) (a : Agent) : Agent := set_shells (ag_shells a) l a.
Definition set_exec_procs (l : list ExecProc) (a : Agent) : Agent :=
  mkAgent (ag_guest a) (ag_shells a) (ag_procs a) l (ag_loop a) (ag_out a) (ag_faults a) (ag_sent a).
Definition set_loop (l : Loop) (a : Agent) : Agent :=
  mkAgent (ag_guest a) (ag_shells a) (ag_procs a) (ag_execs a) l (ag_out a) (ag_faults a) (ag_sent a).
Definition set_out (b : bytes) (faults : list (option (IoError * nat))) (a : Agent) : Agent :=
  mkAgent (ag_guest a) (ag_shells a) (ag_procs a) (ag_execs a) (ag_loop a) b faults (ag_sent a).
Definition add_sent (e : GuestEvent) (a : Agent) : Agent :=
  mkAgent (ag_guest a) (ag_shells a) (ag_procs a) (ag_execs a) (ag_loop a) (ag_out a) (ag_faults a) (ag_sent a ++ [e]).

(** What the operating system answers during a request: opening and cloning the
    terminal, [Command::spawn], the write or the [ioctl] on the terminal, the
    readings of the load. *)
Record Oracle := mkOracle {
  or_pty : Result SandboxError ();
  or_spawn : Result IoError ();
  or_tty : Result IoError ();
  or_readings : Readings;
}.

Section server.
Context `{Platform, Base64, Serde GuestEvent} (config : BootConfig).

Abbreviation AM := (M SandboxError Agent).

(** ** Writing: [rpc.rs] *)

Definition write_out (context : string) (b : bytes) : AM () := λ a,
  match ag_faults a with
  | Some (e, n) :: fs => (Err (Io context e), set_out (ag_out a ++ take n b) fs a)
  | fs => (Ok (), set_out (ag_out a ++ b) (tail fs) a)
  end.

(** The lock of the writer is held for both writes. *)
Definition send_guest_event (e : GuestEvent) : AM () :=
  payload ← map_err (Json "encoding guest event") (lift (to_vec e));
  write_out "writing guest event" payload;;
  write_out "terminating guest event" [LF];;
  modify (add_sent e).

Definition send_error (request_id : option string) (target : option Uuid) (error : SandboxError) : AM () :=
  send_guest_event (GeError request_id target (error_to_string error)).

(** ** Starting processes *)

Definition spawn_exec (exec_id : Uuid) (request : ExecRequest) (o : Oracle) : AM () :=
  command ← lift (configure_command (ex_program request) (ex_args request) (ex_env request) (ex_cwd request) config);
  map_err (Io "spawning exec command") (lift (or_spawn o));;
  modify (λ a, set_exec_procs (ag_execs a ++
    [mkExecProc exec_id command (ex_timeout_ms request) (ex_kill_grace_ms request) true true None false]) a).

Definition agent_open_shell (session_id : Uuid) (request : ShellRequest) (o : Oracle) : AM () :=
  lift (or_pty o);;
  command ← lift (configure_command (sh_program request) (sh_args request) (sh_env request) (sh_cwd request) config);
  map_err (Io "spawning shell command") (lift (or_spawn o));;
  modify (λ a, set_shells (<[session_id := length (ag_procs a)]> (ag_shells a))
    (ag_procs a ++ [mkShellProc session_id command None false [] WtStart true [] (120, 40)%Z]) a).

(** ** Requests *)

Definition unknown_shell (session_id : Uuid) : SandboxError :=
  InvalidConfig ("unknown shell session " ^+ uuid_to_string session_id).

Definition shell_state (session_id : Uuid) : AM nat :=
  r ← gets (λ a, ag_shells a !! session_id); lift (ok_or (unknown_shell session_id) r).

Definition write_shell_input (k : nat) (data : string) (o : Oracle) : AM () :=
  b ← lift (rpc_decode_bytes data);
  map_err (Io "writing shell pty input") (lift (or_tty o));;
  modify (λ a, set_procs (alter (λ p, mkShellProc (sp_session p) (sp_command p) (sp_exit p) (sp_reaped p) (sp_signals p)
    (sp_waiter p) (sp_reading p) (sp_input p ++ b) (sp_size p)) k (ag_procs a)) a).

Definition resize_shell (k : nat) (cols rows : Z) (o : Oracle) : AM () :=
  map_err (Io "resizing guest pty") (lift (or_tty o));;
  modify (λ a, set_procs (alter (λ p, mkShellProc (sp_session p) (sp_command p) (sp_exit p) (sp_reaped p) (sp_signals p)
    (sp_waiter p) (sp_reading p) (sp_input p) (cols, rows)) k (ag_procs a)) a).

(** An operation on the guest's files, on the file system as the loop finds it. *)
Definition on_files {A} (m : M SandboxError Guest A) : AM A := zoom ag_guest set_guest m.

(** [match r { Ok(x) => send(f(x)), Err(error) => send_error(Some(id), target, error) }] *)
Definition answer {A} (id : string) (target : option Uuid) (m : AM A) (f : A → GuestEvent) : AM () :=
  r ← attempt m;
  match r with
  | Ok x => send_guest_event (f x)
  | Err e => send_error (Some id) target e
  end.

(** [close_shell] of the shells in turn, the lock of the table held. *)
Definition begin_closing (id : string) (ks : list nat) (last : bool) : AM () :=
  match ks with
  | k :: rest => modify (set_loop (LClosing id k CSignal rest last))
  | [] => send_guest_event (GeAck id);; modify (set_loop (if last then LEnded (Ok true) else LReady))
  end.

Definition handle_request (request : GuestRequest) (o : Oracle) : AM () :=
  match request with
  | GqPing id => send_guest_event (GePong id)
  | GqExec id exec_id r =>
      started ← attempt (spawn_exec exec_id r o);
      match started with Ok () => mret () | Err e => send_error (Some id) (Some exec_id) e end
  | GqOpenShell id s r => answer id (Some s) (agent_open_shell s r o) (λ _, GeShellOpened id s)
  | GqShellInput id s data =>
      shell ← attempt (shell_state s);
      match shell with
      | Ok k => write_shell_input k data o;; send_guest_event (GeAck id)
      | Err e => send_error (Some id) (Some s) e
      end
  | GqResizeShell id s cols rows =>
      shell ← attempt (shell_state s);
      match shell with
      | Ok k => resize_shell k cols rows o;; send_guest_event (GeAck id)
      | Err e => send_error (Some id) (Some s) e
      end
  | GqCloseShell id s =>
      removed ← gets (λ a, ag_shells a !! s);
      modify (λ a, set_shells (delete s (ag_shells a)) (ag_procs a) a);;
      match removed with
      | Some k => begin_closing id [k] false
      | None => send_error (Some id) (Some s) (unknown_shell s)
      end
  | GqSnapshotWorkspace id => answer id None (on_files snapshot_workspace) (GeWorkspaceSnapshot id)
  | GqSyncWorkspace id => answer id None (on_files agent_sync_workspace) (λ _, GeAck id)
  | GqRuntimeStats id => answer id None (lift (collect_runtime_stats (or_readings o))) (GeRuntimeStats id)
  | GqListFiles id p => answer id None (on_files (agent_list_files p)) (GeFilesListed id)
  | GqReadFile id p limit => answer id None (on_files (agent_read_file p limit)) (λ f, GeFileRead id (from_read_file f))
  | GqWriteFile id p data create =>
      answer id None (b ← lift (rpc_decode_bytes data); on_files (agent_write_file p b create)) (λ _, GeAck id)
  | GqMakeDir id p recursive => answer id None (on_files (agent_make_dir p recursive)) (λ _, GeAck id)
  | GqRemovePath id p recursive => answer id None (on_files (agent_remove_path p recursive)) (λ _, GeAck id)
  | GqShutdown id =>
      ks ← gets (λ a, (map_to_list (ag_shells a)).*2);
      modify (λ a, set_shells ∅ (ag_procs a) a);;
      begin_closing id ks true
  end.

(** ** Steps *)

Inductive AStep :=
  | ARequest (input : Result SandboxError (option GuestRequest)) (o : Oracle)
  | AClosing
  | AWait (k : nat)
  | AExit (k : nat) (w : Waited)
  | AReap (k : nat)
  | ARemove (k : nat)
  | AReport (k : nat)
  | AShellOutput (k : nat) (data : bytes)
  | AShellEof (k : nat)
  | AExecOutput (k : nat) (stream : OutputStream) (data : bytes)
  | AExecEof (k : nat) (stream : OutputStream)
  | AExecStatus (k : nat) (ch : Child) (start : Z)
  | AExecReport (k : nat)
  | AFiles (g : Guest).

(** The first [?] that fails ends the loop. *)
Definition loop_run (m : AM ()) (a : Agent) : Agent :=
  match m a with (Ok (), a') => a' | (Err e, a') => set_loop (LEnded (Err e)) a' end.

(** What a task sends without looking at the result. *)
Definition task_send (e : GuestEvent) (a : Agent) : Agent := (send_guest_event e a).2.

Definition upd_shell (k : nat) (p : ShellProc) (a : Agent) : Agent := set_procs (<[k := p]> (ag_procs a)) a.
Definition upd_exec (k : nat) (x : ExecProc) (a : Agent) : Agent := set_exec_procs (<[k := x]> (ag_execs a)) a.

Definition set_waiter (w : Waiter) (reaped : bool) (p : ShellProc) : ShellProc :=
  mkShellProc (sp_session p) (sp_command p) (sp_exit p) reaped (sp_signals p) w (sp_reading p) (sp_input p) (sp_size p).
Definition signal_shell (s : Signal) (p : ShellProc) : ShellProc :=
  mkShellProc (sp_session p) (sp_command p) (sp_exit p) (sp_reaped p)
    (if sp_reaped p then sp_signals p else sp_signals p ++ [s]) (sp_waiter p) (sp_reading p) (sp_input p) (sp_size p).
Definition exit_shell (w : Waited) (p : ShellProc) : ShellProc :=
  mkShellProc (sp_session p) (sp_command p) (Some w) (sp_reaped p) (sp_signals p) (sp_waiter p) (sp_reading p) (sp_input p) (sp_size p).
Definition set_reading (b : bool) (p : ShellProc) : ShellProc :=
  mkShellProc (sp_session p) (sp_command p) (sp_exit p) (sp_reaped p) (sp_signals p) (sp_waiter p) b (sp_input p) (sp_size p).

(** The waiter has the lock of the child. *)
Definition child_locked (p : ShellProc) : bool := match sp_waiter p with WtWaiting => true | _ => false end.
(** The loop has the lock of the table. *)
Definition table_locked (a : Agent) : bool := match ag_loop a with LClosing _ _ _ _ _ => true | _ => false end.

(** One step of [terminate_child] in the loop; [None] while it waits. *)
Definition close_step (a : Agent) : option Agent :=
  match ag_loop a with
  | LClosing id k stage rest last =>
      p ← ag_procs a !! k;
      let go stage' p' := Some (set_loop (LClosing id k stage' rest last) (upd_shell k p' a)) in
      match stage with
      | CSignal => if child_locked p then None else go CGrace (signal_shell SIGTERM p)
      | CGrace =>
          go CKill (if child_locked p then p
                    else match sp_exit p with Some _ => set_waiter (sp_waiter p) true p | None => p end)
      | CKill => if child_locked p then None else go CReap (signal_shell SIGKILL p)
      | CReap =>
          if child_locked p then None
          else match sp_exit p with
          | Some _ => Some (loop_run (begin_closing id rest last) (upd_shell k (set_waiter (sp_waiter p) true p) a))
          | None => None
          end
      end
  | _ => None
  end.

Definition chunk (data : bytes) : bool := bool_decide (1 ≤ length data ≤ 1024).

Definition running (stream : OutputStream) (x : ExecProc) : bool :=
  match stream with Stdout => xp_stdout x | Stderr => xp_stderr x end.
Definition set_stream (stream : OutputStream) (b : bool) (x : ExecProc) : ExecProc :=
  mkExecProc (xp_id x) (xp_command x) (xp_timeout x) (xp_grace x)
    (match stream with Stdout => b | Stderr => xp_stdout x end)
    (match stream with Stdout => xp_stderr x | Stderr => b end) (xp_status x) (xp_reported x).
Definition set_status (st : ExecExit) (x : ExecProc) : ExecProc :=
  mkExecProc (xp_id x) (xp_command x) (xp_timeout x) (xp_grace x) (xp_stdout x) (xp_stderr x) (Some st) (xp_reported x).
Definition set_reported (x : ExecProc) : ExecProc :=
  mkExecProc (xp_id x) (xp_command x) (xp_timeout x) (xp_grace x) (xp_stdout x) (xp_stderr x) (xp_status x) true.

Definition astep (st : AStep) (a : Agent) : option Agent :=
  match st with
  | ARequest input o =>
      match ag_loop a with
      | LReady => Some
          match input with
          | Ok (Some request) => loop_run (handle_request request o) a
          | Ok None => set_loop (LEnded (Ok false)) a
          | Err e => set_loop (LEnded (Err e)) a
          end
      | _ => None
      end
  | AClosing => close_step a
  | AWait k =>
      p ← ag_procs a !! k;
      match sp_waiter p with WtStart => Some (upd_shell k (set_waiter WtWaiting (sp_reaped p) p) a) | _ => None end
  | AExit k w =>
      p ← ag_procs a !! k;
      match sp_exit p with None => Some (upd_shell k (exit_shell w p) a) | Some _ => None end
  | AReap k =>
      p ← ag_procs a !! k;
      match sp_waiter p, sp_exit p with
      | WtWaiting, Some w => Some (upd_shell k (set_waiter (WtRemove (shell_code w)) true p) a)
      | _, _ => None
      end
  | ARemove k =>
      p ← ag_procs a !! k;
      match sp_waiter p with
      | WtRemove code =>
          if table_locked a then None
          else Some (set_shells (delete (sp_session p) (ag_shells a)) (<[k := set_waiter (WtReport code) (sp_reaped p) p]> (ag_procs a)) a)
      | _ => None
      end
  | AReport k =>
      p ← ag_procs a !! k;
      match sp_waiter p with
      | WtReport code => Some (task_send (GeShellExit (sp_session p) code) (upd_shell k (set_waiter WtDone (sp_reaped p) p) a))
      | _ => None
      end
  | AShellOutput k data =>
      p ← ag_procs a !! k;
      if sp_reading p && chunk data then
        let '(r, a') := send_guest_event (GeShellOutput (sp_session p) (rpc_encode_bytes data)) a in
        Some (match r with Ok () => a' | Err _ => upd_shell k (set_reading false p) a' end)
      else None
  | AShellEof k => p ← ag_procs a !! k; if sp_reading p then Some (upd_shell k (set_reading false p) a) else None
  | AExecOutput k stream data =>
      x ← ag_execs a !! k;
      if running stream x && chunk data then
        let '(r, a') := send_guest_event (GeExecOutput (xp_id x) stream (rpc_encode_bytes data)) a in
        Some (match r with Ok () => a' | Err _ => upd_exec k (set_stream stream false x) a' end)
      else None
  | AExecEof k stream =>
      x ← ag_execs a !! k; if running stream x then Some (upd_exec k (set_stream stream false x) a) else None
  | AExecStatus k ch start =>
      x ← ag_execs a !! k;
      match xp_status x with
      | None => '(st, _) ← wait_exec_status ch (xp_timeout x) (xp_grace x) (mkClock start [] false); Some (upd_exec k (set_status st x) a)
      | Some _ => None
      end
  | AExecReport k =>
      x ← ag_execs a !! k;
      match xp_status x with
      | Some st =>
          if xp_stdout x || xp_stderr x || xp_reported x then None
          else Some (task_send (GeExecExit (xp_id x) st) (upd_exec k (set_reported x) a))
      | None => None
      end
  | AFiles g => Some (set_guest g a)
  end.

Fixpoint arun (steps : list AStep) (a : Agent) : option Agent :=
  match steps with [] => Some a | st :: rest => a' ← astep st a; arun rest a' end.

Definition capabilities : list string := ["exec"; "shell"; "runtime-stats"; "workspace-files"; "workspace-snapshot"].

(** A connection: [Ready] is sent, then the loop begins; a failure ends it. *)
Definition connection (g : Guest) (faults : list (option (IoError * nat))) : Agent :=
  loop_run (send_guest_event (GeReady (mkReady 3 capabilities))) (mkAgent g ∅ [] [] LReady [] faults []).
End server.

(** ** Sending *)

Section server_props.
Context `{Platform, Base64, Serde GuestEvent, !SerdeLaws GuestEvent} (config : BootConfig).

Definition emit (e : GuestEvent) (f : bytes) (a : Agent) : Agent := add_sent e (set_out (ag_out a ++ f) [] a).

(** Without a fault of the connection, an event is written. *)
Lemma send_event_ok e a :
  ag_faults a = [] → ∃ f, frame_message e = Ok f ∧ send_guest_event e a = (Ok (), emit e f a).
Proof.
  intros Hf. destruct (from_to_vec e) as (b & Hb & _). exists (b ++ [LF]). unfold frame_message. rewrite Hb. split; [done|].
  unfold send_guest_event. rewrite (bind_ok _ _ _ b a) by (apply map_err_ok; unfold lift; by rewrite Hb).
  rewrite (bind_ok _ _ _ () (set_out (ag_out a ++ b) [] a)) by (unfold write_out; by rewrite Hf).
  rewrite (bind_ok _ _ _ () (set_out ((ag_out a ++ b) ++ [LF]) [] a)) by done.
  unfold emit. by rewrite (assoc_L (++)).
Qed.

(** Nothing is written and the loop stays where it is. *)
Definition silent (a a' : Agent) : Prop :=
  ag_sent a' = ag_sent a ∧ ag_loop a' = ag_loop a ∧ ag_faults a' = ag_faults a ∧ ag_out a' = ag_out a.

#[global] Instance silent_preorder : PreOrder silent.
Proof. split; [done|]. intros ??? (?&?&?&?) (?&?&?&?). unfold silent. split_and!; congruence. Qed.

Lemma silent_lift {A} (r : Result SandboxError A) : keeps silent (lift r : M SandboxError Agent A).
Proof. apply keeps_lift, _. Qed.
Lemma silent_files {A} (m : M SandboxError Guest A) : keeps silent (on_files m).
Proof. intros a. unfold on_files, zoom. by destruct (m (ag_guest a)). Qed.
Lemma silent_spawn x r o : keeps silent (spawn_exec config x r o).
Proof. unfold spawn_exec. keeps_tac. by apply keeps_modify. Qed.
Lemma silent_open_shell s r o : keeps silent (agent_open_shell config s r o).
Proof. unfold agent_open_shell. keeps_tac. by apply keeps_modify. Qed.
Lemma silent_shell_state s : keeps silent (shell_state s).
Proof. unfold shell_state. keeps_tac. Qed.
Lemma silent_input k data o : keeps silent (write_shell_input k data o).
Proof. unfold write_shell_input. keeps_tac. by apply keeps_modify. Qed.
Lemma silent_resize k cols rows o : keeps silent (resize_shell k cols rows o).
Proof. unfold resize_shell. keeps_tac. by apply keeps_modify. Qed.

(** ** Answers *)

(** The request an event answers. *)
Definition answer_id (e : GuestEvent) : option string :=
  match e with
  | GePong i | GeAck i | GeShellOpened i _ | GeWorkspaceSnapshot i _ | GeRuntimeStats i _ | GeFilesListed i _ | GeFileRead i _ => Some i
  | GeError i _ _ => i
  | _ => None
  end.

Definition answers (a : Agent) : list string := omap answer_id (ag_sent a).

(** The request the loop is working on. *)
Definition pending (a : Agent) : list string := match ag_loop a with LClosing id _ _ _ _ => [id] | _ => [] end.

Definition errored (a : Agent) : Prop := ∃ e, ag_loop a = LEnded (Err e).

(** The answers a request asks for: one, but none for a command that starts, whose
    own events answer it. *)
Definition starts (r : ExecRequest) (o : Oracle) : bool :=
  is_ok (configure_command (ex_program r) (ex_args r) (ex_env r) (ex_cwd r) config) && is_ok (or_spawn o).
Definition asked (st : AStep) : list string :=
  match st with
  | ARequest (Ok (Some (GqExec id _ r))) o => if starts r o then [] else [id]
  | ARequest (Ok (Some request)) _ => [guest_request_id request]
  | _ => []
  end.

Lemma answers_emit e f a : answers (emit e f a) = answers a ++ option_list (answer_id e).
Proof. unfold answers, emit. simpl. rewrite omap_app. simpl. by destruct (answer_id e). Qed.

(** [m] ends well, having answered [ids], with the loop where it was. *)
Definition answers_with (ids : list string) (m : M SandboxError Agent ()) (a : Agent) : Prop :=
  ∃ a', m a = (Ok (), a') ∧ answers a' = answers a ++ ids ∧ ag_loop a' = ag_loop a ∧ ag_faults a' = [].

Lemma send_answers e a : ag_faults a = [] → answers_with (option_list (answer_id e)) (send_guest_event e) a.
Proof. intros Hf. destruct (send_event_ok e a Hf) as (f & _ & He). exists (emit e f a). by rewrite answers_emit. Qed.

Lemma answers_after_silent ids m a a1 : silent a a1 → answers_with ids m a1 → 
  ∃ a', m a1 = (Ok (), a') ∧ answers a' = answers a ++ ids ∧ ag_loop a' = ag_loop a ∧ ag_faults a' = [].
Proof. intros (Hs & Hl & _) (a' & ? & Ha & ? & ?). exists a'. unfold answers in *. split_and!; congruence. Qed.

Lemma answer_answers {A} id target (m : M SandboxError Agent A) f a :
  keeps silent m → ag_faults a = [] → (∀ x, answer_id (f x) = Some id) → answers_with [id] (answer id target m f) a.
Proof.
  intros Hm Hf Hid. specialize (Hm a). unfold answer, answers_with, attempt, mbind, M_bind.
  destruct (m a) as [r a1]. simpl in Hm. assert (ag_faults a1 = []) as Hf1 by (destruct Hm as (_ & _ & -> & _); done).
  apply (answers_after_silent _ _ a); [done|]. destruct r as [x|e].
  - pose proof (send_answers (f x) a1 Hf1) as Hs. by rewrite Hid in Hs.
  - exact (send_answers (GeError (Some id) target (error_to_string e)) a1 Hf1).
Qed.

(** What the loop owes after a step, given what it owed before it. *)
Definition settled (ids : list string) (a a' : Agent) : Prop :=
  errored a' ∨ ag_faults a' = [] ∧ answers a' ++ pending a' = answers a ++ ids.

Lemma settled_answers ids m a :
  ag_loop a = LReady → answers_with ids m a → settled ids a (loop_run m a).
Proof.
  intros Hl (a' & Hm & Ha & Hl' & Hf). right. unfold loop_run. rewrite Hm. split; [done|].
  unfold pending. rewrite Hl', Hl, app_nil_r. done.
Qed.

(** Closing ends with one acknowledgement. *)
Lemma settled_closing id ks last a a0 :
  answers a0 = answers a → ag_faults a = [] → settled [id] a0 (loop_run (begin_closing id ks last) a).
Proof.
  intros Ha Hf. right. unfold loop_run, begin_closing. destruct ks as [|k rest]; [|by rewrite Ha].
  destruct (send_answers (GeAck id) a Hf) as (a' & Hs & Ha' & Hl' & Hf'). rewrite (bind_ok _ _ _ _ _ Hs). simpl.
  split; [done|]. unfold pending. change (answers (set_loop _ ?x)) with (answers x). rewrite Ha', Ha. simpl.
  destruct last; simpl; by rewrite app_nil_r.
Qed.

(** A request to a shell: an unknown one is answered with an error, a failing one
    ends the connection. *)
Lemma settled_shell id s (act : nat → M SandboxError Agent ()) a :
  ag_loop a = LReady → ag_faults a = [] → (∀ k, keeps silent (act k)) →
  settled [id] a (loop_run (shell ← attempt (shell_state s);
    match shell with Ok k => act k;; send_guest_event (GeAck id) | Err e => send_error (Some id) (Some s) e end) a).
Proof.
  intros Hl Hf Hact. unfold shell_state, gets, lift, attempt, mbind at 1 2, M_bind at 1 2.
  unfold loop_run, mbind, M_bind. destruct (ag_shells a !! s) as [k|]; simpl.
  - specialize (Hact k a). destruct (act k a) as [[[]|e] a1]; [|left; by eexists]. simpl in Hact.
    assert (ag_faults a1 = []) as Hf1 by (destruct Hact as (_ & _ & -> & _); done).
    destruct (answers_after_silent _ _ _ _ Hact (send_answers (GeAck id) a1 Hf1)) as (a' & -> & Ha & Hl' & Hf').
    right. split; [done|]. unfold pending. by rewrite Ha, Hl', Hl, app_nil_r.
  - destruct (send_answers (GeError (Some id) (Some s) (error_to_string (unknown_shell s))) a Hf) as (a' & Hs & Ha & Hl' & Hf').
    unfold send_error. rewrite Hs. right. split; [done|]. unfold pending. by rewrite Ha, Hl', Hl, app_nil_r.
Qed.

Lemma spawn_exec_result x r o a : is_ok (spawn_exec config x r o a).1 = starts r o.
Proof.
  unfold spawn_exec, starts, mbind, M_bind, lift, map_err. by destruct (configure_command _ _ _ _ _), (or_spawn o).
Qed.

Lemma request_settled request o a :
  ag_loop a = LReady → ag_faults a = [] →
  settled (asked (ARequest (Ok (Some request)) o)) a (loop_run (handle_request config request o) a).
Proof.
  intros Hl Hf. destruct request as [id|id x r|id s r|id s data|id s cols rows|id s|id|id|id|id p|id p limit|id p data cp|id p rc|id p rc|id];
    cbn [handle_request asked guest_request_id];
    try (apply settled_answers; [done|]; apply answer_answers; [|done|done];
         first [apply silent_files|apply silent_lift|apply silent_open_shell|apply keeps_bind; [typeclasses eauto|apply silent_lift|intros; apply silent_files]]).
  - apply settled_answers; [done|]. by apply (send_answers (GePong id)).
  - pose proof (silent_spawn x r o a) as Hs. pose proof (spawn_exec_result x r o a) as Hr.
    unfold loop_run, attempt, mbind, M_bind. destruct (spawn_exec config x r o a) as [[[]|e] a1]; simpl in *; rewrite <-Hr.
    + right. destruct Hs as (Hs & Hl' & Hf' & _). split; [congruence|]. unfold answers, pending. by rewrite Hs, Hl', Hl.
    + assert (ag_faults a1 = []) as Hf1 by (destruct Hs as (_ & _ & -> & _); done).
      destruct (answers_after_silent _ _ _ _ Hs (send_answers (GeError (Some id) (Some x) (error_to_string e)) a1 Hf1)) as (a' & Hs' & Ha & Hl' & Hf').
      unfold send_error. rewrite Hs'. right. split; [done|]. unfold pending. by rewrite Ha, Hl', Hl, app_nil_r.
  - apply (settled_shell id s (λ k, write_shell_input k data o)); [done..|]. intros; apply silent_input.
  - apply (settled_shell id s (λ k, resize_shell k cols rows o)); [done..|]. intros; apply silent_resize.
  - unfold gets, modify, mbind, M_bind. unfold loop_run at 1. set (a1 := set_shells _ _ a).
    destruct (ag_shells a !! s) as [k|]; simpl.
    + by apply (settled_closing id [k] false a1).
    + apply (settled_answers [id] (send_error (Some id) (Some s) (unknown_shell s)) a1); [done|].
      by apply (send_answers (GeError (Some id) (Some s) _)).
  - unfold gets, modify, mbind, M_bind. unfold loop_run at 1. by apply (settled_closing id _ true (set_shells ∅ (ag_procs a) a)).
Qed.

(** A step of a task: not one of the loop. *)
Definition is_task (st : AStep) : bool := match st with ARequest _ _ | AClosing => false | _ => true end.

Definition same_loop (a a' : Agent) : Prop := ag_loop a' = ag_loop a.
#[global] Instance same_loop_preorder : PreOrder same_loop.
Proof. split; [done|]. unfold same_loop. intros ???; congruence. Qed.

(** Sending touches what was written, and nothing else. *)
Lemma keeps_send (R : relation Agent) `{!PreOrder R} e :
  (∀ a b fs, R a (set_out b fs a)) → (∀ a, R a (add_sent e a)) → keeps R (send_guest_event e).
Proof.
  intros Hout Hsent.
  assert (∀ context b, keeps R (write_out context b)).
  { intros context b a. unfold write_out. destruct (ag_faults a) as [|[[]|]]; apply Hout. }
  unfold send_guest_event. keeps_tac.
Qed.

Lemma send_same_loop e : keeps same_loop (send_guest_event e).
Proof. apply (keeps_send same_loop); intros; exact eq_refl. Qed.

Lemma task_send_same_loop e a : ag_loop (task_send e a) = ag_loop a.
Proof. apply send_same_loop. Qed.

(** A task leaves the loop alone, and without faults writes nothing that answers a
    request. *)
Lemma task_step st a a' :
  is_task st = true → astep config st a = Some a' →
  ag_loop a' = ag_loop a ∧ (ag_faults a = [] → ag_faults a' = [] ∧ answers a' = answers a).
Proof.
  intros Ht Hst. destruct st as [| |k|k w|k|k|k|k data|k|k stream data|k stream|k ch start|k|g]; [done|done|..];
    cbn [astep] in Hst; try (injection Hst as <-; done);
    try (destruct (ag_procs a !! k) as [p|]; [|done]); try (destruct (ag_execs a !! k) as [x|]; [|done]); simpl in Hst.
  - destruct (sp_waiter p); by simplify_eq.
  - destruct (sp_exit p); by simplify_eq.
  - destruct (sp_waiter p), (sp_exit p); by simplify_eq.
  - destruct (sp_waiter p), (table_locked a); by simplify_eq.
  - destruct (sp_waiter p) as [| | |code|]; simplify_eq. rewrite task_send_same_loop. split; [done|]. intros Hf.
    destruct (send_answers (GeShellExit (sp_session p) code) (upd_shell k (set_waiter WtDone (sp_reaped p) p) a) Hf) as (a' & Hs & Ha & _ & Hf').
    unfold task_send. rewrite Hs. simpl. by rewrite Ha, app_nil_r.
  - destruct (sp_reading p && chunk data); [|done].
    pose proof (send_same_loop (GeShellOutput (sp_session p) (rpc_encode_bytes data)) a) as Hl.
    pose proof (send_answers (GeShellOutput (sp_session p) (rpc_encode_bytes data)) a) as Hs.
    destruct (send_guest_event _ a) as [[[]|e] a1] eqn:E; simplify_eq; (split; [exact Hl|]); intros Hf;
      destruct (Hs Hf) as (a2 & E2 & Ha & _ & Hf'); rewrite E in E2; simplify_eq. by rewrite Ha, app_nil_r.
  - destruct (sp_reading p); by simplify_eq.
  - destruct (running stream x && chunk data); [|done].
    pose proof (send_same_loop (GeExecOutput (xp_id x) stream (rpc_encode_bytes data)) a) as Hl.
    pose proof (send_answers (GeExecOutput (xp_id x) stream (rpc_encode_bytes data)) a) as Hs.
    destruct (send_guest_event _ a) as [[[]|e] a1] eqn:E; simplify_eq; (split; [exact Hl|]); intros Hf;
      destruct (Hs Hf) as (a2 & E2 & Ha & _ & Hf'); rewrite E in E2; simplify_eq. by rewrite Ha, app_nil_r.
  - destruct (running stream x); by simplify_eq.
  - destruct (xp_status x); [done|]. destruct (wait_exec_status _ _ _ _) as [[st c]|]; by simplify_eq/=.
  - destruct (xp_status x) as [status|]; [|done]. destruct (xp_stdout x || xp_stderr x || xp_reported x); [done|]. simplify_eq.
    rewrite task_send_same_loop. split; [done|]. intros Hf.
    destruct (send_answers (GeExecExit (xp_id x) status) (upd_exec k (set_reported x) a) Hf) as (a' & Hs & Ha & _ & Hf').
    unfold task_send. rewrite Hs. simpl. by rewrite Ha, app_nil_r.
Qed.

Lemma close_settled a a' : ag_faults a = [] → close_step a = Some a' → settled (pending a) a a'.
Proof.
  intros Hf. unfold close_step, pending. destruct (ag_loop a) as [|id k stage rest last|] eqn:El; [done| |done].
  destruct (ag_procs a !! k) as [p|]; [|done]. simpl.
  destruct stage; (destruct (child_locked p); [try done|]); try (intros [= <-]; right; done).
  destruct (sp_exit p); [|done]. intros [= <-]. by apply settled_closing.
Qed.

Lemma step_settled st a a' :
  ag_faults a = [] → astep config st a = Some a' → settled (pending a ++ asked st) a a'.
Proof.
  intros Hf Hst. destruct (is_task st) eqn:Ht.
  - destruct (task_step st a a' Ht Hst) as [Hl Hq]. destruct (Hq Hf) as [Hf' Ha]. right. split; [done|].
    assert (asked st = []) as -> by by destruct st. unfold pending. by rewrite Hl, Ha, app_nil_r.
  - destruct st as [input o| | | | | | | | | | | | |]; try done; cbn [astep] in Hst.
    + destruct (ag_loop a) eqn:El; simplify_eq. unfold pending at 1. rewrite El, app_nil_l.
      destruct input as [[request|]|e]; [by apply request_settled| |left; by eexists].
      right. split; [done|]. simpl. by rewrite !app_nil_r.
    + cbn [asked]. rewrite app_nil_r. by apply close_settled.
Qed.

Lemma errored_stays steps a a' : errored a → arun config steps a = Some a' → errored a'.
Proof.
  revert a. induction steps as [|st steps IH]; intros a He; simpl; [by intros [= <-]|].
  destruct (astep config st a) as [a1|] eqn:Hst; [|done]. apply IH. destruct He as [e He].
  destruct (is_task st) eqn:Ht; [exists e; destruct (task_step st a a1 Ht Hst) as [-> _]; done|].
  destruct st; try done; cbn [astep] in Hst; unfold close_step in Hst; by rewrite He in Hst.
Qed.

Lemma run_settled steps a a' :
  ag_faults a = [] → arun config steps a = Some a' → ¬ errored a' →
  answers a' ++ pending a' = answers a ++ pending a ++ (steps ≫= asked).
Proof.
  revert a. induction steps as [|st steps IH]; intros a Hf Hrun Hne; simpl in *.
  { injection Hrun as <-. by rewrite app_nil_r. }
  destruct (astep config st a) as [a1|] eqn:Hst; [|done]. simpl in Hrun.
  destruct (step_settled st a a1 Hf Hst) as [He|[Hf1 Hs]]; [by destruct Hne; eapply errored_stays|].
  rewrite (IH a1 Hf1 Hrun Hne). rewrite (assoc_L (++)), Hs. by rewrite <-!(assoc_L (++)).
Qed.

(** C23: every request is answered exactly once and in the order of the requests, whatever the
    processes of the guest do in between: in every run of a connection on which writing does
    not fail and which has not ended with an error, the answers sent so far, with the one
    the loop is still working on, are those of the requests taken, one each; only a command
    that starts is not answered by the loop. *)
Theorem one_answer_per_request steps g a :
  arun config steps (connection g []) = Some a → (∀ e, ag_loop a ≠ LEnded (Err e)) →
  omap answer_id (ag_sent a) ++ pending a = steps ≫= asked.
Proof.
  intros Hrun Hne. unfold connection, loop_run in Hrun.
  destruct (send_answers (GeReady (mkReady 3 capabilities)) (mkAgent g ∅ [] [] LReady [] [] []) eq_refl) as (a0 & Hs & Ha & Hl & Hf).
  rewrite Hs in Hrun. change (omap answer_id (ag_sent a)) with (answers a).
  rewrite (run_settled steps a0 a Hf Hrun); [|intros [e He]; by destruct (Hne e)].
  unfold pending. by rewrite Ha, Hl.
Qed.

(** ** Closing a shell that is still running *)

(** A shell whose waiter has the lock of its child, which has not exited. *)
Definition live_shell (signals : list Signal) (k : nat) (a : Agent) : Prop :=
  ∃ p, ag_procs a !! k = Some p ∧ sp_waiter p = WtWaiting ∧ sp_exit p = None ∧ sp_signals p = signals.

Lemma live_upd signals k j p p' a a' :
  live_shell signals k a → ag_procs a !! j = Some p → ag_procs a' = <[j := p']> (ag_procs a) →
  (j = k → sp_waiter p = WtWaiting → sp_exit p = None →
    sp_waiter p' = WtWaiting ∧ sp_exit p' = None ∧ sp_signals p' = sp_signals p) →
  live_shell signals k a'.
Proof.
  intros (q & Hq & Hw & He & Hs) Hp Ha' Hsame. destruct (decide (j = k)) as [->|Hne].
  - simplify_eq. destruct (Hsame eq_refl Hw He) as (? & ? & ?). exists p'. rewrite Ha', list_lookup_insert_eq; [done|].
    by eapply lookup_lt_Some.
  - exists q. by rewrite Ha', list_lookup_insert_ne.
Qed.

Lemma live_same signals k a a' : live_shell signals k a → ag_procs a' = ag_procs a → live_shell signals k a'.
Proof. intros (p & Hp & ?) E. exists p. by rewrite E. Qed.

Definition same_procs (a a' : Agent) : Prop := ag_procs a' = ag_procs a.
#[global] Instance same_procs_preorder : PreOrder same_procs.
Proof. split; [done|]. unfold same_procs. intros ???; congruence. Qed.

Lemma send_same_procs e : keeps same_procs (send_guest_event e).
Proof. apply (keeps_send same_procs); intros; exact eq_refl. Qed.

Definition same_execs (a a' : Agent) : Prop := ag_execs a' = ag_execs a.
#[global] Instance same_execs_preorder : PreOrder same_execs.
Proof. split; [done|]. unfold same_execs. intros ???; congruence. Qed.

Lemma send_same_execs e : keeps same_execs (send_guest_event e).
Proof. apply (keeps_send same_execs); intros; exact eq_refl. Qed.

Lemma task_live signals k st a a' :
  is_task st = true → (∀ w, st ≠ AExit k w) → live_shell signals k a → astep config st a = Some a' → live_shell signals k a'.
Proof.
  intros Ht Hx Hk Hst. destruct st as [| |j|j w|j|j|j|j data|j|j stream data|j stream|j ch start|j|g]; [done|done|..];
    cbn [astep] in Hst; try (injection Hst as <-; by eapply live_same);
    try (destruct (ag_procs a !! j) as [p|] eqn:Ep; [|done]); try (destruct (ag_execs a !! j) as [x|]; [|done]); simpl in Hst.
  - destruct (sp_waiter p) eqn:Ew; simplify_eq. eapply live_upd; [done..|]. intros _ Hw. congruence.
  - destruct (sp_exit p); simplify_eq. eapply live_upd; [done..|]. intros ->. by destruct (Hx w).
  - destruct (sp_waiter p), (sp_exit p) eqn:Ee; simplify_eq. eapply live_upd; [done..|]. intros _ _ He. congruence.
  - destruct (sp_waiter p) eqn:Ew, (table_locked a); simplify_eq. eapply (live_upd _ _ j p); [done..|]. intros _ Hw. congruence.
  - destruct (sp_waiter p) eqn:Ew; simplify_eq. eapply (live_same _ _ (upd_shell j _ a)); [|apply send_same_procs].
    eapply live_upd; [done..|]. intros _ Hw. congruence.
  - destruct (sp_reading p && chunk data); [|done].
    pose proof (send_same_procs (GeShellOutput (sp_session p) (rpc_encode_bytes data)) a) as Hl.
    destruct (send_guest_event _ a) as [[[]|e] a1]; simplify_eq; [by eapply live_same|].
    eapply (live_upd _ _ j p (set_reading false p) a1); [by eapply live_same|by unfold same_procs in Hl; simpl in Hl; rewrite Hl|done|by intros _ ? ?].
  - destruct (sp_reading p); simplify_eq. eapply live_upd; [done..|]. by intros _ ? ?.
  - destruct (running stream x && chunk data); [|done].
    pose proof (send_same_procs (GeExecOutput (xp_id x) stream (rpc_encode_bytes data)) a) as Hl.
    destruct (send_guest_event _ a) as [[[]|e] a1]; simplify_eq; by eapply live_same.
  - destruct (running stream x); simplify_eq. by eapply live_same.
  - destruct (xp_status x); [done|]. destruct (wait_exec_status _ _ _ _) as [[st c]|]; simplify_eq/=. by eapply live_same.
  - destruct (xp_status x) as [status|]; [|done]. destruct (xp_stdout x || xp_stderr x || xp_reported x); [done|]. simplify_eq.
    eapply (live_same _ _ a); [done|]. apply (send_same_procs _ (upd_exec j (set_reported x) a)).
Qed.

Lemma closing_stuck steps id k signals rest last a a' :
  ag_loop a = LClosing id k CSignal rest last → live_shell signals k a → (∀ w, AExit k w ∉ steps) →
  ag_faults a = [] → arun config steps a = Some a' →
  ag_loop a' = LClosing id k CSignal rest last ∧ live_shell signals k a' ∧ answers a' = answers a.
Proof.
  revert a. induction steps as [|st steps IH]; intros a Hl Hk Hx Hf; simpl; [by intros [= <-]|].
  destruct (astep config st a) as [a1|] eqn:Hst; [|done]. simpl. destruct (is_task st) eqn:Ht.
  - destruct (task_step st a a1 Ht Hst) as [Hl1 Hq]. destruct (Hq Hf) as [Hf1 <-]. apply IH; [congruence| | |done].
    + eapply task_live; [done| |done..]. intros w ->. apply (Hx w). left.
    + intros w Hw. apply (Hx w). by right.
  - destruct st; try done; cbn [astep] in Hst; [by rewrite Hl in Hst|]. unfold close_step in Hst. rewrite Hl in Hst.
    destruct Hk as (p & Hp & Hw & _). rewrite Hp in Hst. simpl in Hst. unfold child_locked in Hst. by rewrite Hw in Hst.
Qed.

(** closing a shell that is still running stops the agent: the waiter of the shell holds
    the lock of the child for as long as the shell runs, and closing it begins by waiting for
    that lock, with the table of shells locked.  From the request on, until the shell exits
    by itself, it is sent no signal, the request is not answered, and the loop takes no other
    request, whatever the other tasks do. *)
Theorem close_waits_for_running_shell id s k o a :
  ag_loop a = LReady → ag_faults a = [] → ag_shells a !! s = Some k → live_shell [] k a →
  ∃ a1, astep config (ARequest (Ok (Some (GqCloseShell id s))) o) a = Some a1 ∧
    ∀ steps a2, arun config steps a1 = Some a2 → (∀ w, AExit k w ∉ steps) →
      answers a2 = answers a ∧ live_shell [] k a2 ∧
      ∀ input o', astep config (ARequest input o') a2 = None.
Proof.
  intros Hl Hf Hs Hk. cbn [astep]. rewrite Hl. eexists. split; [done|]. intros steps a2.
  cbn [handle_request]. unfold loop_run, gets, modify, mbind, M_bind. rewrite Hs. cbn. set (a1 := set_loop _ _).
  intros Hrun Hx. assert (ag_loop a1 = LClosing id k CSignal [] false) as Hl1 by done.
  destruct (closing_stuck steps id k [] [] false a1 a2 Hl1) as (Hl2 & Hk2 & Ha2); [by eapply live_same|done..|].
  split_and!; [done|done|]. intros input o'. cbn [astep]. by rewrite Hl2.
Qed.

(** ** The processes of a guest *)

(** What holds of a command the agent runs: the user, the limits and the session are
    those of the boot configuration, the filter is on without network, the directory is
    in the workspace. *)
Definition confined_command (c : Command) : Prop :=
  cmd_uid c = bt_uid config ∧ cmd_gid c = bt_gid config ∧ cmd_setsid c = true ∧
  cmd_seccomp c = negb (bt_network_enabled config) ∧
  cmd_rlimits c = [(RLIMIT_NPROC, bt_max_processes config); (RLIMIT_NOFILE, bt_max_open_files config);
                   (RLIMIT_CORE, 0%Z); (RLIMIT_FSIZE, bt_max_file_size_bytes config)] ∧
  ∃ names, cmd_cwd c = workspace_root ++ map Normal names ∧ Forall plain_name names.

Lemma configure_confined program args env cwd c :
  configure_command program args env cwd config = Ok c → confined_command c.
Proof.
  unfold configure_command. destruct (resolve_workspace_path workspace_root cwd) as [q|] eqn:E; [|done].
  intros [= <-]. unfold confined_command. simpl. split_and!; [done..|]. by apply (resolve_names workspace_root cwd).
Qed.

Definition commands (a : Agent) : list Command := (sp_command <$> ag_procs a) ++ (xp_command <$> ag_execs a).
Definition all_confined (a : Agent) : Prop := Forall confined_command (commands a).

Definition same_commands (a a' : Agent) : Prop := commands a' = commands a.
#[global] Instance same_commands_preorder : PreOrder same_commands.
Proof. split; [done|]. unfold same_commands. intros ???; congruence. Qed.

Lemma fmap_insert_same {A B} (f : A → B) (l : list A) (k : nat) x x' : l !! k = Some x → f x' = f x → f <$> <[k := x']> l = f <$> l.
Proof. intros Hk Hx. rewrite list_fmap_insert, Hx. apply list_insert_id. by rewrite list_lookup_fmap, Hk. Qed.

Lemma fmap_alter_same {A B} (f : A → B) (g : A → A) (l : list A) (k : nat) : (∀ x, f (g x) = f x) → f <$> alter g k l = f <$> l.
Proof.
  intros Hg. revert k. induction l as [|x l IH]; intros [|k]; [done..|by cbn; rewrite Hg|].
  change (f x :: (f <$> alter g k l) = f x :: (f <$> l)). by rewrite IH.
Qed.

Lemma upd_shell_commands k p p' a :
  ag_procs a !! k = Some p → sp_command p' = sp_command p → same_commands a (upd_shell k p' a).
Proof. intros Hk Hp. unfold same_commands, commands. simpl. by rewrite (fmap_insert_same _ _ _ p). Qed.
Lemma upd_exec_commands k x x' a :
  ag_execs a !! k = Some x → xp_command x' = xp_command x → same_commands a (upd_exec k x' a).
Proof. intros Hk Hp. unfold same_commands, commands. simpl. by rewrite (fmap_insert_same _ _ _ x). Qed.

Lemma send_same_commands e : keeps same_commands (send_guest_event e).
Proof. apply (keeps_send same_commands); intros; exact eq_refl. Qed.

Lemma same_all_confined {E A} (m : M E Agent A) : keeps same_commands m → keeps (preserves all_confined) m.
Proof. apply keeps_impl. intros a a' E' Ha. unfold all_confined. by rewrite E'. Qed.

Lemma spawn_all_confined x r o : keeps (preserves all_confined) (spawn_exec config x r o).
Proof.
  unfold spawn_exec. apply keeps_bind_val; [typeclasses eauto|apply keeps_lift; typeclasses eauto|].
  intros a c a' [Hc _]%lift_ok_inv. apply configure_confined in Hc. keeps_tac. apply keeps_modify. intros a1 Ha.
  unfold all_confined, commands in *. simpl. rewrite fmap_app, (assoc_L (++)). apply Forall_app. split; [done|]. by apply Forall_singleton.
Qed.

Lemma open_all_confined s r o : keeps (preserves all_confined) (agent_open_shell config s r o).
Proof.
  unfold agent_open_shell. apply keeps_bind; [typeclasses eauto|apply keeps_lift; typeclasses eauto|intros _].
  apply keeps_bind_val; [typeclasses eauto|apply keeps_lift; typeclasses eauto|].
  intros a c a' [Hc _]%lift_ok_inv. apply configure_confined in Hc. keeps_tac. apply keeps_modify. intros a1 Ha.
  unfold all_confined, commands in *. simpl. rewrite fmap_app. apply Forall_app in Ha as [? ?].
  rewrite !Forall_app. split; [split; [done|by apply Forall_singleton]|done].
Qed.

Lemma handle_all_confined request o : keeps (preserves all_confined) (handle_request config request o).
Proof.
  assert (Hsend : ∀ e, keeps (preserves all_confined) (send_guest_event e)) by (intros; apply same_all_confined, send_same_commands).
  assert (Hans : ∀ A id target (m : M SandboxError Agent A) f,
    keeps (preserves all_confined) m → keeps (preserves all_confined) (answer id target m f)).
  { intros. unfold answer, send_error. keeps_tac. }
  assert (Hfiles : ∀ A (m : M SandboxError Guest A), keeps (preserves all_confined) (on_files m)).
  { intros A m. apply same_all_confined. intros a. unfold on_files, zoom. by destruct (m (ag_guest a)). }
  assert (Hclose : ∀ id ks last, keeps (preserves all_confined) (begin_closing id ks last)).
  { intros. unfold begin_closing. keeps_tac; apply same_all_confined; by apply keeps_modify. }
  assert (Hstate : ∀ s, keeps (preserves all_confined) (shell_state s)) by (intros; unfold shell_state; keeps_tac).
  assert (Hin : ∀ k data o, keeps (preserves all_confined) (write_shell_input k data o)).
  { intros. apply same_all_confined. unfold write_shell_input. keeps_tac. apply keeps_modify. intros ag.
    unfold same_commands, commands. simpl. by rewrite fmap_alter_same. }
  assert (Hre : ∀ k cols rows o, keeps (preserves all_confined) (resize_shell k cols rows o)).
  { intros. apply same_all_confined. unfold resize_shell. keeps_tac. apply keeps_modify. intros ag.
    unfold same_commands, commands. simpl. by rewrite fmap_alter_same. }
  pose proof spawn_all_confined. pose proof open_all_confined.
  destruct request; cbn [handle_request]; unfold send_error; try (apply Hans); keeps_tac; apply same_all_confined; by apply keeps_modify.
Qed.

Lemma loop_run_confined m a : keeps (preserves all_confined) m → all_confined a → all_confined (loop_run m a).
Proof. intros Hm Ha. specialize (Hm a Ha). unfold loop_run. by destruct (m a) as [[[]|] a']. Qed.

Lemma close_all_confined a a' : all_confined a → close_step a = Some a' → all_confined a'.
Proof.
  intros Ha. unfold close_step. destruct (ag_loop a) as [|id k stage rest last|]; [done| |done].
  destruct (ag_procs a !! k) as [p|] eqn:Ep; [|done]. simpl.
  assert (Hupd : ∀ p', sp_command p' = sp_command p → all_confined (upd_shell k p' a)).
  { intros p' Hp. unfold all_confined. by rewrite (upd_shell_commands k p p' a). }
  destruct stage; (destruct (child_locked p); [try done|]); try (intros [= <-]; by apply Hupd).
  - intros [= <-]. destruct (sp_exit p); by apply Hupd.
  - destruct (sp_exit p); [|done]. intros [= <-]. apply loop_run_confined; [|by apply Hupd].
    unfold begin_closing. destruct rest; [apply keeps_bind; [typeclasses eauto|apply same_all_confined, send_same_commands|intros _]|];
      apply same_all_confined; by apply keeps_modify.
Qed.

Lemma task_same_commands st a a' : is_task st = true → astep config st a = Some a' → same_commands a a'.
Proof.
  intros Ht Hst. destruct st as [| |k|k w|k|k|k|k data|k|k stream data|k stream|k ch start|k|g]; [done|done|..];
    cbn [astep] in Hst; try (injection Hst as <-; done);
    try (destruct (ag_procs a !! k) as [p|] eqn:Ep; [|done]); try (destruct (ag_execs a !! k) as [x|] eqn:Ex; [|done]); simpl in Hst.
  - destruct (sp_waiter p); simplify_eq. by eapply upd_shell_commands.
  - destruct (sp_exit p); simplify_eq. by eapply upd_shell_commands.
  - destruct (sp_waiter p), (sp_exit p); simplify_eq. by eapply upd_shell_commands.
  - destruct (sp_waiter p), (table_locked a); simplify_eq. by eapply (upd_shell_commands k p).
  - destruct (sp_waiter p); simplify_eq. etrans; [by eapply (upd_shell_commands k p (set_waiter WtDone (sp_reaped p) p))|apply send_same_commands].
  - destruct (sp_reading p && chunk data); [|done].
    pose proof (send_same_commands (GeShellOutput (sp_session p) (rpc_encode_bytes data)) a) as Hl.
    pose proof (send_same_procs (GeShellOutput (sp_session p) (rpc_encode_bytes data)) a) as Hp.
    destruct (send_guest_event _ a) as [[[]|e] a1]; simplify_eq; [done|]. etrans; [exact Hl|].
    eapply (upd_shell_commands k p); [|done]. unfold same_procs in Hp. simpl in Hp. by rewrite Hp.
  - destruct (sp_reading p); simplify_eq. by eapply upd_shell_commands.
  - destruct (running stream x && chunk data); [|done].
    pose proof (send_same_commands (GeExecOutput (xp_id x) stream (rpc_encode_bytes data)) a) as Hl.
    pose proof (send_same_execs (GeExecOutput (xp_id x) stream (rpc_encode_bytes data)) a) as Hp.
    destruct (send_guest_event _ a) as [[[]|e] a1]; simplify_eq; [done|]. etrans; [exact Hl|].
    eapply (upd_exec_commands k x); [|done]. unfold same_execs in Hp. simpl in Hp. by rewrite Hp.
  - destruct (running stream x); simplify_eq. by eapply upd_exec_commands.
  - destruct (xp_status x); [done|]. destruct (wait_exec_status _ _ _ _) as [[st c]|]; simplify_eq/=. by eapply upd_exec_commands.
  - destruct (xp_status x) as [status|]; [|done]. destruct (xp_stdout x || xp_stderr x || xp_reported x); [done|]. simplify_eq.
    etrans; [by eapply (upd_exec_commands k x (set_reported x))|apply send_same_commands].
Qed.

Lemma run_all_confined steps a a' : all_confined a → arun config steps a = Some a' → all_confined a'.
Proof.
  revert a. induction steps as [|st steps IH]; intros a Ha; simpl; [by intros [= <-]|].
  destruct (astep config st a) as [a1|] eqn:Hst; [|done]. apply IH. destruct (is_task st) eqn:Ht.
  - unfold all_confined. by rewrite (task_same_commands st a a1).
  - destruct st as [input o| | | | | | | | | | | | |]; try done; cbn [astep] in Hst; [|by eapply close_all_confined].
    destruct (ag_loop a); simplify_eq. destruct input as [[request|]|e]; [|done..].
    apply loop_run_confined; [apply handle_all_confined|done].
Qed.

Lemma connection_all_confined g faults : all_confined (connection g faults).
Proof.
  unfold connection. apply loop_run_confined; [apply same_all_confined, send_same_commands|]. constructor.
Qed.
(** ** The events of a command *)

Definition about (x : Uuid) (e : GuestEvent) : bool :=
  match e with GeExecOutput y _ _ | GeExecExit y _ => bool_decide (y = x) | _ => false end.
Definition is_output (e : GuestEvent) : bool := match e with GeExecOutput _ _ _ => true | _ => false end.
Definition exec_events (x : Uuid) (a : Agent) : list GuestEvent := filter (λ e, about x e = true) (ag_sent a).

(** The end of the events of a command that has been reported. *)
Definition ending (x : ExecProc) : list GuestEvent :=
  if xp_reported x then match xp_status x with Some st => [GeExecExit (xp_id x) st] | None => [] end else [].

Definition told (x : ExecProc) (a : Agent) : Prop :=
  (∃ outs, exec_events (xp_id x) a = outs ++ ending x ∧ Forall (λ e, is_output e = true) outs) ∧
  (xp_reported x = true → xp_stdout x = false ∧ xp_stderr x = false ∧ is_Some (xp_status x)).

Definition exec_ids (a : Agent) : list Uuid := xp_id <$> ag_execs a.

Definition all_told (a : Agent) : Prop :=
  NoDup (exec_ids a) → (∀ id, id ∉ exec_ids a → exec_events id a = []) ∧
  ∀ k x, ag_execs a !! k = Some x → told x a.

(** No event of a command was sent, and the commands are the same. *)
Definition same_told (a a' : Agent) : Prop := ag_execs a' = ag_execs a ∧ ∀ x, exec_events x a' = exec_events x a.
#[global] Instance same_told_preorder : PreOrder same_told.
Proof. split; [done|]. intros a1 a2 a3 [E1 V1] [E2 V2]. split; [congruence|]. intros x. by rewrite V2, V1. Qed.

Lemma same_all_told a a' : same_told a a' → all_told a → all_told a'.
Proof.
  intros [E V] Ha. unfold all_told, exec_ids in *. rewrite E. intros Hnd. destruct (Ha Hnd) as [Hf Ht]. split.
  - intros id Hid. rewrite V. by apply Hf.
  - intros k x Hx. destruct (Ht k x Hx) as [Ho Hr]. split; [by rewrite V|done].
Qed.

Lemma exec_events_add x e a : exec_events x (add_sent e a) = exec_events x a ++ (if about x e then [e] else []).
Proof. unfold exec_events. simpl. rewrite filter_app. f_equal. rewrite filter_cons. simpl. by destruct (about x e). Qed.

Lemma send_same_told e : (∀ x, about x e = false) → keeps same_told (send_guest_event e).
Proof.
  intros He. apply (keeps_send same_told); [done|]. intros a. split; [done|]. intros x. by rewrite exec_events_add, He, app_nil_r.
Qed.

Lemma closing_same_told id ks last : keeps same_told (begin_closing id ks last).
Proof. pose proof (send_same_told (GeAck id) (λ _, eq_refl)). unfold begin_closing. keeps_tac; by apply keeps_modify. Qed.

Lemma handle_same_told request o : (∀ id x r, request ≠ GqExec id x r) → keeps same_told (handle_request config request o).
Proof.
  intros Hne. pose proof closing_same_told.
  assert (Hsend : ∀ e, (∀ x, about x e = false) → keeps same_told (send_guest_event e)) by apply send_same_told.
  assert (Hans : ∀ A id target (m : M SandboxError Agent A) f,
    keeps same_told m → (∀ y x, about x (f y) = false) → keeps same_told (answer id target m f)).
  { intros. unfold answer, send_error. keeps_tac; by apply Hsend. }
  assert (Hfiles : ∀ A (m : M SandboxError Guest A), keeps same_told (on_files m)).
  { intros A m a. unfold on_files, zoom. by destruct (m (ag_guest a)). }
  destruct request as [id|id x r|id s r|id s data|id s cols rows|id s|id|id|id|id p|id p limit|id p data cp|id p rc|id p rc|id];
    cbn [handle_request]; unfold send_error; try (apply Hans; [|done]); try apply Hfiles; try (by apply Hsend);
    try (apply keeps_lift; typeclasses eauto).
  - by destruct (Hne id x r).
  - unfold agent_open_shell. keeps_tac. by apply keeps_modify.
  - unfold shell_state, write_shell_input. keeps_tac; first [by apply Hsend|by apply keeps_modify].
  - unfold shell_state, resize_shell. keeps_tac; first [by apply Hsend|by apply keeps_modify].
  - keeps_tac; first [by apply Hsend|by apply keeps_modify].
  - keeps_tac.
  - keeps_tac. by apply keeps_modify.
Qed.

(** A command is changed, and only its own events grow. *)
Lemma upd_all_told k x x' a a' :
  all_told a → ag_execs a !! k = Some x → ag_execs a' = <[k := x']> (ag_execs a) → xp_id x' = xp_id x →
  (∀ y, y ≠ xp_id x → exec_events y a' = exec_events y a) → (told x a → told x' a') → all_told a'.
Proof.
  intros Ha Hk Hk' Hid Hev Ht Hnd. unfold all_told, exec_ids in *. rewrite Hk', (fmap_insert_same _ _ _ x) in * by done.
  destruct (Ha Hnd) as [Hf Hall]. split.
  - intros id Hi. rewrite Hev; [by apply Hf|]. intros ->. apply Hi. apply list_elem_of_fmap. exists x. split; [done|].
    by eapply list_elem_of_lookup_2.
  - intros j y Hj. destruct (decide (j = k)) as [->|Hne].
    + rewrite list_lookup_insert_eq in Hj by (by eapply lookup_lt_Some). simplify_eq. apply Ht. by apply (Hall k).
    + rewrite list_lookup_insert_ne in Hj by done. destruct (Hall j y Hj) as [Ho Hr]. split; [|done]. rewrite Hev; [done|].
      intros E. apply Hne. eapply (NoDup_lookup _ j k (xp_id y)); [exact Hnd|by rewrite list_lookup_fmap, Hj|by rewrite list_lookup_fmap, Hk, E].
Qed.

Lemma spawn_all_told x0 a a' :
  all_told a → ag_execs a' = ag_execs a ++ [x0] → (∀ x, exec_events x a' = exec_events x a) → xp_reported x0 = false → all_told a'.
Proof.
  intros Ha E V Hr. unfold all_told, exec_ids in *. rewrite E, fmap_app. intros (Hnd & Hx & _)%NoDup_app.
  destruct (Ha Hnd) as [Hf Ht]. split.
  - intros id [Hid _]%not_elem_of_app. rewrite V. by apply Hf.
  - intros k x [Hk|[_ Hk]]%lookup_app_Some.
    + destruct (Ht k x Hk) as [Ho Hrep]. split; [by rewrite V|done].
    + destruct (k - length (ag_execs a)); simplify_eq/=. split; [|congruence]. exists []. unfold ending. rewrite Hr, V.
      split; [|constructor]. apply Hf. intros Hin. apply (Hx _ Hin). by left.
Qed.

Lemma exec_events_emit x e f a : exec_events x (emit e f a) = exec_events x a ++ (if about x e then [e] else []).
Proof. apply (exec_events_add x e (set_out _ _ a)). Qed.

Lemma exec_step_told st a a' :
  is_task st = true → ag_faults a = [] → all_told a → astep config st a = Some a' → all_told a'.
Proof.
  intros Ht Hf Ha Hst. destruct st as [| |k|k w|k|k|k|k data|k|k stream data|k stream|k ch start|k|g]; [done|done|..];
    cbn [astep] in Hst; try (injection Hst as <-; by apply (same_all_told a));
    try (destruct (ag_procs a !! k) as [p|] eqn:Ep; [|done]); try (destruct (ag_execs a !! k) as [x|] eqn:Ex; [|done]); simpl in Hst.
  - destruct (sp_waiter p); simplify_eq. by apply (same_all_told a).
  - destruct (sp_exit p); simplify_eq. by apply (same_all_told a).
  - destruct (sp_waiter p), (sp_exit p); simplify_eq. by apply (same_all_told a).
  - destruct (sp_waiter p), (table_locked a); simplify_eq. by apply (same_all_told a).
  - destruct (sp_waiter p); simplify_eq. eapply same_all_told; [by apply send_same_told|]. by apply (same_all_told a).
  - destruct (sp_reading p && chunk data); [|done].
    destruct (send_event_ok (GeShellOutput (sp_session p) (rpc_encode_bytes data)) a Hf) as (f & _ & E). rewrite E in Hst. simplify_eq.
    apply (same_all_told a); [|done]. split; [done|]. intros y. rewrite exec_events_emit. apply app_nil_r.
  - destruct (sp_reading p); simplify_eq. by apply (same_all_told a).
  - destruct (running stream x) eqn:Er; [|done]. destruct (chunk data); [|done]. simpl in Hst.
    destruct (send_event_ok (GeExecOutput (xp_id x) stream (rpc_encode_bytes data)) a Hf) as (f & _ & E). rewrite E in Hst. simplify_eq.
    eapply (upd_all_told k x x a); [done|done|by rewrite list_insert_id|done| |].
    + intros y Hy. rewrite exec_events_emit. simpl. rewrite bool_decide_eq_false_2 by done. apply app_nil_r.
    + intros [(outs & Ho & Hall) Hr]. split; [|done]. assert (xp_reported x = false) as Hrep.
      { destruct (xp_reported x); [|done]. destruct (Hr eq_refl) as (? & ? & _). by destruct stream; simpl in Er; congruence. }
      unfold ending in *. rewrite Hrep, app_nil_r in *. eexists (outs ++ [_]). rewrite exec_events_emit, Ho. simpl.
      rewrite bool_decide_eq_true_2 by done. rewrite app_nil_r. split; [done|]. apply Forall_app. by split; [|apply Forall_singleton].
  - destruct (running stream x) eqn:Er; simplify_eq. eapply (upd_all_told k x _ a); [done..|].
    intros [(outs & Ho & Hall) Hr]. split; [by exists outs|]. simpl. intros Hrep. destruct (Hr Hrep) as (? & ? & ?). by destruct stream.
  - destruct (xp_status x) eqn:Es; [done|]. destruct (wait_exec_status _ _ _ _) as [[st c]|]; simplify_eq/=.
    eapply (upd_all_told k x _ a); [done..|]. intros [(outs & Ho & Hall) Hr].
    assert (xp_reported x = false) as Hrep. { destruct (xp_reported x); [|done]. destruct (Hr eq_refl) as (_ & _ & [? ?]). congruence. }
    split; [|simpl; congruence]. exists outs. unfold ending in *. simpl. by rewrite Hrep in *.
  - destruct (xp_status x) as [status|] eqn:Es; [|done]. destruct (xp_stdout x) eqn:E1, (xp_stderr x) eqn:E2, (xp_reported x) eqn:E3; try done.
    simpl in Hst. simplify_eq. unfold task_send.
    destruct (send_event_ok (GeExecExit (xp_id x) status) (upd_exec k (set_reported x) a) Hf) as (f & _ & ->). simpl.
    eapply (upd_all_told k x (set_reported x) a); [done..| |].
    + intros y Hy. rewrite exec_events_emit. simpl. rewrite bool_decide_eq_false_2 by done. apply app_nil_r.
    + intros [(outs & Ho & Hall) Hr]. split; [|intros _; simpl; rewrite Es; by split_and!; [..|eexists]].
      exists outs. rewrite exec_events_emit. simpl. rewrite bool_decide_eq_true_2 by done.
      unfold ending in *. rewrite E3 in Ho. simpl. rewrite Es. change (exec_events (xp_id x) (upd_exec k (set_reported x) a)) with (exec_events (xp_id x) a).
      by rewrite Ho, app_nil_r.
Qed.

Lemma loop_same_told m a : keeps same_told m → all_told a → all_told (loop_run m a).
Proof.
  intros Hm Ha. apply (same_all_told a); [|done]. specialize (Hm a). unfold loop_run. by destruct (m a) as [[[]|] a'].
Qed.

Lemma request_told request o a : all_told a → all_told (loop_run (handle_request config request o) a).
Proof.
  intros Ha. destruct request as [id|id x r|id s r|id s data|id s cols rows|id s|id|id|id|id p|id p limit|id p data cp|id p rc|id p rc|id];
    try (apply loop_same_told; [apply handle_same_told; done|done]).
  cbn [handle_request]. unfold loop_run, spawn_exec, attempt, mbind, M_bind, lift, map_err.
  destruct (configure_command _ _ _ _ _) as [c|e], (or_spawn o) as [[]|e']; simpl.
  - by eapply spawn_all_told.
  - apply (loop_same_told (send_error (Some id) (Some x) _)); [by apply send_same_told|done].
  - apply (loop_same_told (send_error (Some id) (Some x) _)); [by apply send_same_told|done].
  - apply (loop_same_told (send_error (Some id) (Some x) _)); [by apply send_same_told|done].
Qed.

Lemma close_same_told a a' : close_step a = Some a' → same_told a a'.
Proof.
  unfold close_step. destruct (ag_loop a) as [|id k stage rest last|]; [done| |done].
  destruct (ag_procs a !! k) as [p|] eqn:Ep; [|done]. simpl.
  destruct stage; (destruct (child_locked p); [try done|]); try (intros [= <-]; done).
  destruct (sp_exit p); [|done]. intros [= <-].
  set (a1 := upd_shell k (set_waiter (sp_waiter p) true p) a).
  assert (same_told a a1) as Hsame by done. etrans; [exact Hsame|]. pose proof (closing_same_told id rest last a1) as Hc.
  unfold loop_run. by destruct (begin_closing id rest last a1) as [[[]|] a2].
Qed.

(** A connection without faults, or one that has ended with an error. *)
Lemma run_all_told steps a a' :
  ag_faults a = [] → all_told a → arun config steps a = Some a' → ¬ errored a' → all_told a'.
Proof.
  revert a. induction steps as [|st steps IH]; intros a Hf Ha Hrun Hne; simpl in Hrun; [by simplify_eq|].
  destruct (astep config st a) as [a1|] eqn:Hst; [|done]. simpl in Hrun.
  destruct (step_settled st a a1 Hf Hst) as [He|[Hf1 _]]; [by destruct Hne; eapply errored_stays|].
  apply (IH a1); [done| |done..]. destruct (is_task st) eqn:Ht; [exact (exec_step_told st a a1 Ht Hf Ha Hst)|].
  destruct st as [input o| | | | | | | | | | | | |]; try done; cbn [astep] in Hst.
  - destruct (ag_loop a); simplify_eq. destruct input as [[request|]|e]; [by apply request_told|by apply (same_all_told a)..].
  - eapply same_all_told; [by eapply close_same_told|done].
Qed.

(** what a guest tells of a command: in every run of a connection, the events of each
    command are outputs, followed, once it is reported, by exactly one exit with its
    status, and nothing more; and it is reported only after both of its output streams
    have been read to their end and its status is known.  Commands are told apart by
    their identifiers. *)
Theorem exec_exit_is_last steps g a k x :
  arun config steps (connection g []) = Some a → (∀ e, ag_loop a ≠ LEnded (Err e)) →
  NoDup (xp_id <$> ag_execs a) → ag_execs a !! k = Some x →
  (∃ outs, exec_events (xp_id x) a = outs ++ ending x ∧ Forall (λ e, is_output e = true) outs) ∧
  (xp_reported x = true → xp_stdout x = false ∧ xp_stderr x = false ∧ is_Some (xp_status x)).
Proof.
  intros Hrun Hne Hnd Hk. unfold connection, loop_run in Hrun.
  destruct (send_event_ok (GeReady (mkReady 3 capabilities)) (mkAgent g ∅ [] [] LReady [] [] []) eq_refl) as (f & _ & Hs).
  rewrite Hs in Hrun. eapply (run_all_told steps _ a) in Hrun; [|done| |intros [e He]; by destruct (Hne e)].
  - destruct (Hrun Hnd) as [_ Ht]. exact (Ht k x Hk).
  - intros _. split; [intros id _; by rewrite exec_events_emit|by intros [] ?].
Qed.

(** A command whose output is still being read and which is not reported. *)
Definition unread (stream : OutputStream) (k : nat) (a : Agent) : Prop :=
  ∃ x, ag_execs a !! k = Some x ∧ running stream x = true ∧ xp_reported x = false.

Lemma unread_upd stream k j x x' a a' :
  unread stream k a → ag_execs a !! j = Some x → ag_execs a' = <[j := x']> (ag_execs a) →
  (j = k → running stream x = true → xp_reported x = false → running stream x' = true ∧ xp_reported x' = false) →
  unread stream k a'.
Proof.
  intros (y & Hy & Hr & Hn) Hj E Hx. destruct (decide (j = k)) as [->|Hne].
  - simplify_eq. exists x'. rewrite E, list_lookup_insert_eq by (by eapply lookup_lt_Some). split; [done|]. by apply Hx.
  - exists y. by rewrite E, list_lookup_insert_ne.
Qed.

Lemma unread_app stream k a a' l : unread stream k a → ag_execs a' = ag_execs a ++ l → unread stream k a'.
Proof. intros (x & Hx & ?) E. exists x. rewrite E. split; [by apply lookup_app_l_Some|done]. Qed.

Lemma task_unread st stream k a a' :
  is_task st = true → ag_faults a = [] → st ≠ AExecEof k stream → unread stream k a → astep config st a = Some a' → unread stream k a'.
Proof.
  intros Ht Hf Hne Hk Hst. pose proof (λ a', unread_app stream k a a' [] Hk) as Hsame. setoid_rewrite app_nil_r in Hsame.
  destruct st as [| |j|j w|j|j|j|j data|j|j str data|j str|j ch start|j|g]; [done|done|..];
    cbn [astep] in Hst; try (injection Hst as <-; by apply Hsame);
    try (destruct (ag_procs a !! j) as [p|] eqn:Ep; [|done]); try (destruct (ag_execs a !! j) as [x|] eqn:Ex; [|done]); simpl in Hst.
  - destruct (sp_waiter p); simplify_eq. by apply Hsame.
  - destruct (sp_exit p); simplify_eq. by apply Hsame.
  - destruct (sp_waiter p), (sp_exit p); simplify_eq. by apply Hsame.
  - destruct (sp_waiter p), (table_locked a); simplify_eq. by apply Hsame.
  - destruct (sp_waiter p); simplify_eq. apply Hsame. apply (send_same_execs _ (upd_shell j _ a)).
  - destruct (sp_reading p && chunk data); [|done].
    destruct (send_event_ok (GeShellOutput (sp_session p) (rpc_encode_bytes data)) a Hf) as (f & _ & E). rewrite E in Hst. simplify_eq. by apply Hsame.
  - destruct (sp_reading p); simplify_eq. by apply Hsame.
  - destruct (running str x && chunk data); [|done].
    destruct (send_event_ok (GeExecOutput (xp_id x) str (rpc_encode_bytes data)) a Hf) as (f & _ & E). rewrite E in Hst. simplify_eq. by apply Hsame.
  - destruct (running str x); simplify_eq. eapply unread_upd; [done..|]. intros -> Hr Hn. split; [|done]. by destruct stream, str.
  - destruct (xp_status x); [done|]. destruct (wait_exec_status _ _ _ _) as [[st c]|]; simplify_eq/=. eapply unread_upd; [done..|].
    intros -> Hr Hn. split; [by destruct stream|done].
  - destruct (xp_status x) as [status|]; [|done]. destruct (xp_stdout x) eqn:E1, (xp_stderr x) eqn:E2, (xp_reported x) eqn:E3; try done.
    simpl in Hst. simplify_eq. eapply (unread_upd stream k j x (set_reported x)); [done..|apply (send_same_execs _ (upd_exec j (set_reported x) a))|].
    intros -> Hr. destruct stream; simpl in Hr; congruence.
Qed.

Lemma request_execs request o a : ∃ l, ag_execs (loop_run (handle_request config request o) a) = ag_execs a ++ l.
Proof.
  assert (Hsame : ∀ m, keeps same_told m → ∃ l, ag_execs (loop_run m a) = ag_execs a ++ l).
  { intros m Hm. exists []. specialize (Hm a). rewrite app_nil_r. unfold loop_run.
    destruct (m a) as [[[]|] a'], Hm as [Hm _]; exact Hm. }
  destruct request as [id|id x r|id s r|id s data|id s cols rows|id s|id|id|id|id p|id p limit|id p data cp|id p rc|id p rc|id];
    try (apply Hsame, handle_same_told; done).
  cbn [handle_request]. unfold loop_run, spawn_exec, attempt, mbind, M_bind, lift, map_err.
  destruct (configure_command _ _ _ _ _) as [c|e], (or_spawn o) as [[]|e']; simpl; [by eexists|..];
    apply (Hsame (send_error (Some id) (Some x) _)); by apply send_same_told.
Qed.

(** a timeout does not bound the wait for a command's output: as long as some process holds
    its standard output or standard error open, a command is not reported, even when its
    child has been killed and its status is known. *)
Theorem open_output_withholds_exit steps k stream x a a' :
  ag_faults a = [] → ag_execs a !! k = Some x → running stream x = true → xp_reported x = false →
  AExecEof k stream ∉ steps → arun config steps a = Some a' → ¬ errored a' →
  ∃ x', ag_execs a' !! k = Some x' ∧ running stream x' = true ∧ xp_reported x' = false.
Proof.
  intros Hf Hk Hr Hn Hno Hrun Hne. assert (unread stream k a) as Hu by by exists x. clear Hk Hr Hn x.
  revert a Hf Hrun Hu. induction steps as [|st steps IH]; intros a Hf Hrun Hu; simpl in Hrun; [by simplify_eq|].
  destruct (astep config st a) as [a1|] eqn:Hst; [|done]. simpl in Hrun. apply not_elem_of_cons in Hno as [Hst' Hno].
  destruct (step_settled st a a1 Hf Hst) as [He|[Hf1 _]]; [by destruct Hne; eapply errored_stays|].
  apply (IH Hno a1); [done..|]. destruct (is_task st) eqn:Ht; [apply (task_unread st stream k a a1 Ht Hf); [by intros ->|done..]|].
  destruct st as [input o| | | | | | | | | | | | |]; try done; cbn [astep] in Hst.
  - destruct (ag_loop a); simplify_eq. destruct input as [[request|]|e].
    + destruct (request_execs request o a) as [l E]. by eapply unread_app.
    + eapply (unread_app _ _ _ _ []); [done|]. by rewrite app_nil_r.
    + eapply (unread_app _ _ _ _ []); [done|]. by rewrite app_nil_r.
  - destruct (close_same_told _ _ Hst) as [E _]. eapply (unread_app _ _ _ _ []); [done|]. by rewrite app_nil_r.
Qed.

End server_props.

(** ** From the daemon's policy to the processes *)

