(* ===== verification/GuestCall.v ===== *)
(** * GuestCall: a call from the daemon to the agent, from end to end

    The client of [GuestRpc] and the agent of [GuestServer], joined by the
    framing of [GuestWire]: what one end writes is what the other reads. *)

From S2P Require Import Prelude RustStd FileSystem Manifest Protocol GuestWire GuestRpc GuestFs GuestBoot GuestExec GuestServer.

Section call.
Context `{Platform, Base64, Serde GuestRequest, Serde GuestEvent, Utf8}.
Context `{!Base64Laws, !SerdeLaws GuestRequest, !SerdeLaws GuestEvent, !JsonLines GuestRequest, !JsonLines GuestEvent}.
Context (config : BootConfig).

(** The calls that work on the guest's files, run directly in the guest. *)
Definition direct_call (call : Call) : option (M SandboxError Guest GuestResponse) :=
  match call with
  | ClPing => Some (mret RspPong)
  | ClSnapshotWorkspace => Some (entries ← snapshot_workspace; mret (RspSnapshot (from_entries entries)))
  | ClSyncWorkspace => Some (agent_sync_workspace;; mret RspAck)
  | ClListFiles p => Some (entries ← agent_list_files p; mret (RspFiles entries))
  | ClReadFile p limit => Some (f ← agent_read_file p limit; mret (RspFile f))
  | ClWriteFile p data create => Some (agent_write_file p data create;; mret RspAck)
  | ClMakeDir p recursive => Some (agent_make_dir p recursive;; mret RspAck)
  | ClRemovePath p recursive => Some (agent_remove_path p recursive;; mret RspAck)
  | _ => None
  end.

(** An error crosses the connection as its text. *)
Definition over_wire (r : Result SandboxError GuestResponse) : Answer :=
  match r with Ok x => Ok x | Err e => Err (Prelude.Protocol (error_to_string e)) end.

(** What is checked before a request is written. *)
Definition call_allowed (call : Call) : Prop :=
  match call with ClReadFile _ limit => (limit ≤ MAX_READ_FILE_BYTES)%Z | _ => True end.

(** ** The client writes *)

Definition ready_client (c : Client) : Prop :=
  cl_reading c = true ∧ cl_todo c = [] ∧ cl_write_faults c = [] ∧ cl_responses c !! pretty (cl_next_request c) = None.

Lemma send_request_ok request c :
  cl_write_faults c = [] → ∃ f, frame_message request = Ok f ∧
    send_request request c = (Ok (), set_writer (cl_written c ++ f) [] c).
Proof.
  intros Hf. destruct (from_to_vec request) as (b & Hb & _). exists (b ++ [LF]). unfold frame_message. rewrite Hb. split; [done|].
  unfold send_request. rewrite (bind_ok _ _ _ b c) by (apply map_err_ok; unfold lift; by rewrite Hb).
  rewrite (bind_ok _ _ _ () (set_writer (cl_written c ++ b) [] c)) by (unfold write_all; by rewrite Hf).
  unfold write_all. simpl. by rewrite (assoc_L (++)).
Qed.

(** A call registers its channel and writes its request. *)
Lemma begin_call_run call c :
  ready_client c → call_allowed call →
  let id := pretty (cl_next_request c) in
  ∃ f c1, frame_message (request_of id call) = Ok f ∧ begin_call call c = (Ok (length (cl_oneshots c)), c1) ∧
    cl_written c1 = cl_written c ++ f ∧ cl_reading c1 = true ∧ cl_todo c1 = [] ∧
    cl_responses c1 !! id = Some (length (cl_oneshots c)) ∧ cl_oneshots c1 = cl_oneshots c ++ [mkOneshot id None].
Proof.
  intros (Hrd & Htd & Hwf & Hno) Hal id.
  set (c0 := set_counters (cl_draws c) ((cl_next_request c + 1) mod 2 ^ 64)%Z c).
  set (cr := set_responses (<[id := length (cl_oneshots c)]> (cl_responses c)) (cl_oneshots c ++ [mkOneshot id None]) c0).
  assert (Hreg : register_response id c0 = (Ok (length (cl_oneshots c)), cr)).
  { unfold register_response, drop_sender. change (cl_responses c0) with (cl_responses c). fold id in Hno. by rewrite Hno. }
  destruct (send_request_ok (request_of id call) cr Hwf) as (f & Hfr & Hs).
  assert (Hid : guest_request_id (request_of id call) = id) by by destruct call.
  assert (Hbegin : begin_request (request_of id call) c0 = (Ok (length (cl_oneshots c)), set_writer (cl_written cr ++ f) [] cr)).
  { unfold begin_request. rewrite Hid, (bind_ok _ _ _ _ _ Hreg). unfold attempt, mbind, M_bind. by rewrite Hs. }
  exists f, (set_writer (cl_written cr ++ f) [] cr). split; [done|]. split; [|by split_and!; [..|simpl; apply lookup_insert_eq|]].
  destruct call as [| | | |p|p limit|p d cp|p rc|p rc| |s d|s cols rows|s]; cbn [begin_call];
    try exact Hbegin. simpl in Hal. rewrite (bind_ok _ _ _ limit c); [exact Hbegin|].
  unfold lift, validate_read_limit. destruct (Z.ltb_spec MAX_READ_FILE_BYTES limit); [lia|done].
Qed.

(** ** The agent answers *)

Lemma answer_run {A} id target (m : M SandboxError Agent A) f a r a1 :
  m a = (r, a1) → answer id target m f a =
    match r with Ok x => send_guest_event (f x) a1 | Err e => send_error (Some id) target e a1 end.
Proof. intros Hm. unfold answer, attempt, mbind, M_bind. rewrite Hm. by destruct r. Qed.

(** A direct call is answered with one event, on the file system it left; the event resolves
    the call with the result of the operation. *)
Lemma agent_answers id call m o a :
  direct_call call = Some m → ag_faults a = [] →
  ∃ event f, frame_message event = Ok f ∧
    handle_request config (request_of id call) o a = (Ok (), emit event f (set_guest (m (ag_guest a)).2 a)) ∧
    ∀ c, handle_event event c = Ok (resolve_response id (over_wire (m (ag_guest a)).1) c).
Proof.
  intros Hm Hf.
  assert (Hsend : ∀ event v g', (∀ c, handle_event event c = Ok (resolve_response id v c)) →
    ∃ f, frame_message event = Ok f ∧ send_guest_event event (set_guest g' a) = (Ok (), emit event f (set_guest g' a)) ∧
      ∀ c, handle_event event c = Ok (resolve_response id v c)).
  { intros event v g' Hev. destruct (send_event_ok event (set_guest g' a) Hf) as (f & ? & ?). eauto. }
  assert (Hops : ∀ A (op : M SandboxError Guest A) (k : A → GuestResponse) (ev : A → GuestEvent),
    m = (x ← op; mret (k x)) → (∀ x c, handle_event (ev x) c = Ok (resolve_response id (Ok (k x)) c)) →
    ∃ event f, frame_message event = Ok f ∧
      answer id None (on_files op) ev a = (Ok (), emit event f (set_guest (m (ag_guest a)).2 a)) ∧
      ∀ c, handle_event event c = Ok (resolve_response id (over_wire (m (ag_guest a)).1) c)).
  { intros A op k ev -> Hev. unfold answer, on_files, zoom, attempt, mbind, M_bind. destruct (op (ag_guest a)) as [[x|e] g']; simpl.
    - destruct (Hsend (ev x) (Ok (k x)) g' (Hev x)) as (f & ? & ? & ?). eauto 6.
    - destruct (Hsend (GeError (Some id) None (error_to_string e)) (Err (Prelude.Protocol (error_to_string e))) g') as (f & ? & ? & ?);
        [done|]. eexists _, f. eauto. }
  destruct call as [| | | |p|p limit|p d cp|p rc|p rc| |s d|s cols rows|s]; try done; injection Hm as Hm;
    cbn [request_of handle_request].
  - subst m. destruct (Hsend (GePong id) (Ok RspPong) (ag_guest a)) as (f & ? & Hs & ?); [done|].
    exists (GePong id), f. split_and!; [done| |done]. simpl. by destruct a.
  - by apply (Hops _ _ _ (GeWorkspaceSnapshot id) (eq_sym Hm)).
  - by apply (Hops _ agent_sync_workspace (λ _, RspAck) (λ _, GeAck id) (eq_sym Hm)).
  - by apply (Hops _ _ _ (GeFilesListed id) (eq_sym Hm)).
  - apply (Hops _ _ _ (λ f, GeFileRead id (from_read_file f)) (eq_sym Hm)). intros x c. cbn [handle_event].
    by rewrite read_file_roundtrip.
  - unfold answer, lift. rewrite rpc_decode_encode. by apply (Hops _ (agent_write_file p d cp) (λ _, RspAck) (λ _, GeAck id) (eq_sym Hm)).
  - by apply (Hops _ (agent_make_dir p rc) (λ _, RspAck) (λ _, GeAck id) (eq_sym Hm)).
  - by apply (Hops _ (agent_remove_path p rc) (λ _, RspAck) (λ _, GeAck id) (eq_sym Hm)).
Qed.

(** ** From end to end *)

(** C3: a call of the daemon is the operation in the guest: for every call on the guest's files,
    the bytes the client writes are read by the agent as one request, which it answers with
    one line, and the reader of the client resolves the call with the result the operation
    has when it is run directly on the guest's file system, an error as its text; the
    guest's file system is left as by the operation. *)
Theorem remote_call_is_direct call m o c a :
  direct_call call = Some m → call_allowed call → ready_client c → ag_loop a = LReady → ag_faults a = [] →
  ∃ request_bytes request c1 a1 event_bytes line c2,
    begin_call call c = (Ok (length (cl_oneshots c)), c1) ∧ cl_written c1 = cl_written c ++ request_bytes ∧
    next_message "reading guest request" "decoding guest request" request_bytes = (Ok (Some request), []) ∧
    astep config (ARequest (Ok (Some request)) o) a = Some a1 ∧ ag_out a1 = ag_out a ++ event_bytes ∧
    next_line event_bytes = (Ok (Some line), []) ∧ read_input (InLine line) c1 = Some c2 ∧
    os_value <$> cl_oneshots c2 !! length (cl_oneshots c) = Some (Some (over_wire (m (ag_guest a)).1)) ∧
    ag_guest a1 = (m (ag_guest a)).2 ∧ ag_loop a1 = LReady.
Proof.
  intros Hm Hal Hc Hl Hf. set (id := pretty (cl_next_request c)).
  destruct (begin_call_run call c Hc Hal) as (f & c1 & Hfr & Hb & Hw & Hrd & Htd & Hresp & Hos).
  destruct (agent_answers id call m o a Hm Hf) as (event & g & Hg & Hh & Hev).
  destruct (from_to_vec event) as (line & Hline & Hback).
  assert (g = line ++ [LF]) as -> by (unfold frame_message in Hg; rewrite Hline in Hg; by injection Hg as <-).
  destruct (json_ends event line Hline) as [Hne Hcr].
  exists f, (request_of id call), c1, (emit event (line ++ [LF]) (set_guest (m (ag_guest a)).2 a)), (line ++ [LF]), line.
  exists (resolve_response id (over_wire (m (ag_guest a)).1) c1). split_and!; [done|done| | |done| | | |done|done].
  - rewrite <-(app_nil_r f). by apply next_message_frame.
  - cbn [astep]. rewrite Hl. unfold loop_run. by rewrite Hh.
  - rewrite <-(app_nil_r (line ++ [LF])), <-app_assoc. apply next_line_app; eauto using json_no_lf, json_utf8.
  - unfold read_input. rewrite Hrd, Htd. simpl. destruct line as [|b line]; [done|].
    rewrite Hback, Hev. done.
  - unfold resolve_response. fold id in Hresp. rewrite Hresp. simpl. rewrite list_lookup_alter_eq, Hos.
    by rewrite lookup_app_r, Nat.sub_diag.
Qed.
End call.
