(* ===== verification/BoxStore.v ===== *)
(** * BoxStore: [src/boxes/types.rs] and [src/boxes/store.rs]

    BOX records and the directory they are kept in, one JSON file per BOX,
    replaced by writing a temporary file and renaming it. *)

From S2P Require Import Prelude RustStd Paths FileSystem PrivateFs FsTree Config Protocol Lineage.

(** ** Data *)

Record BoxNumericSetting := mkNumeric { ns_current : Z; ns_max : Z }.
Record BoxBooleanSetting := mkBoolean { bo_current : bool; bo_max : bool }.

Record BoxSettings := mkSettings {
  set_cpu_cores : BoxNumericSetting;
  set_memory_mb : BoxNumericSetting;
  set_fs_size_mib : BoxNumericSetting;
  set_max_processes : BoxNumericSetting;
  set_network_enabled : BoxBooleanSetting;
}.

Definition BoxSettings_default : BoxSettings :=
  mkSettings (mkNumeric 1 1) (mkNumeric 128 128) (mkNumeric 128 128) (mkNumeric 256 256) (mkBoolean false false).

Record BoxRuntimeUsage := mkUsage {
  ru_cpu_millicores : Z;
  ru_memory_used_mib : Z;
  ru_fs_used_mib : Z;
  ru_process_count : Z;
}.

Definition usage_of_stats (s : GuestRuntimeStats) : BoxRuntimeUsage :=
  mkUsage (st_cpu_millicores s) (st_memory_used_mib s) (st_fs_used_mib s) (st_process_count s).

Inductive BoxSettingValue :=
  | SetCpuCores (value : Z)
  | SetMemoryMb (value : Z)
  | SetFsSizeMib (value : Z)
  | SetMaxProcesses (value : Z)
  | SetNetworkEnabled (value : bool).

Inductive BoxStatus := BCreated | BRunning | BStopped | BFailed | BRemoving.

Record BoxRecord := mkBox {
  bx_box_id : Uuid;
  bx_name : option string;
  bx_image : string;
  bx_status : BoxStatus;
  bx_settings : BoxSettings;
  bx_runtime_usage : option BoxRuntimeUsage;
  bx_workspace_path : path;
  bx_active_sandbox_id : option Uuid;
  bx_created_at_ms : Z;
  bx_last_start_at_ms : option Z;
  bx_last_stop_at_ms : option Z;
  bx_last_error : option string;
}.

#[global] Instance BoxNumericSetting_eq_decision : EqDecision BoxNumericSetting.
Proof. solve_decision. Defined.
#[global] Instance BoxBooleanSetting_eq_decision : EqDecision BoxBooleanSetting.
Proof. solve_decision. Defined.
#[global] Instance BoxSettings_eq_decision : EqDecision BoxSettings.
Proof. solve_decision. Defined.
#[global] Instance BoxRuntimeUsage_eq_decision : EqDecision BoxRuntimeUsage.
Proof. solve_decision. Defined.
#[global] Instance BoxStatus_eq_decision : EqDecision BoxStatus.
Proof. solve_decision. Defined.
#[global] Instance BoxRecord_eq_decision : EqDecision BoxRecord.
Proof. solve_decision. Defined.

(** What is written to disk: without the usage. *)
Definition persisted (r : BoxRecord) : BoxRecord :=
  mkBox (bx_box_id r) (bx_name r) (bx_image r) (bx_status r) (bx_settings r) None (bx_workspace_path r)
    (bx_active_sandbox_id r) (bx_created_at_ms r) (bx_last_start_at_ms r) (bx_last_stop_at_ms r) (bx_last_error r).

(** ** [Path::extension] and [Path::file_stem] *)

Definition dot : ascii := ".".

Fixpoint rsplit_dot (s : string) : option (string * string) :=
  match s with
  | EmptyString => None
  | String a s' =>
      match rsplit_dot s' with
      | Some (p, q) => Some (String a p, q)
      | None => if Ascii.eqb a dot then Some (EmptyString, s') else None
      end
  end.

Definition extension (name : string) : option string :=
  match rsplit_dot name with Some ("", _) | None => None | Some (_, ext) => Some ext end.
Definition file_stem (name : string) : string :=
  match rsplit_dot name with Some ("", _) | None => name | Some (stem, _) => stem end.

(** ** The store *)

Section box_store.
Context `{Platform, Serde BoxRecord} (state_dir : path).

Definition boxes_dir : path := state_dir ++ ["boxes"].
Definition box_path (box_id : Uuid) : path := state_dir ++ ["boxes"; uuid_to_string box_id ^+ ".json"].
(** [path.with_extension("json.tmp")]: a printed identifier has no dot. *)
Definition box_temp_path (box_id : Uuid) : path := state_dir ++ ["boxes"; uuid_to_string box_id ^+ ".json.tmp"].

Definition boxes_ensure_layout : M SandboxError World () :=
  map_err (Io "creating BOX registry directory") (fs_create_dir_all boxes_dir).

Definition read_path (p : path) : M SandboxError World BoxRecord :=
  data ← map_err (Io "reading BOX registry entry") (fs_read p);
  map_err (Json "decoding BOX registry entry") (lift (from_slice data)).

(** Whether [list] reads an entry: [<uuid>.json]. *)
Definition is_box_entry (name : string) : bool :=
  bool_decide (extension name = Some "json") && bool_decide (is_Some (uuid_parse (file_stem name))).

Fixpoint read_box_entries (names : list string) : M SandboxError World (list BoxRecord) :=
  map_err (Io "iterating BOX registry directory") fs_next_entry;;
  match names with
  | [] => mret []
  | name :: rest =>
      if is_box_entry name then
        record ← read_path (boxes_dir ++ [name]);
        records ← read_box_entries rest;
        mret (record :: records)
      else read_box_entries rest
  end.

Definition box_key (r : BoxRecord) : Z * N := (bx_created_at_ms r, bx_box_id r).
Definition box_le (a b : BoxRecord) : bool := pair_le N.leb (box_key a) (box_key b).

Definition box_list : M SandboxError World (list BoxRecord) :=
  names ← map_err (Io "reading BOX registry directory") (fs_read_dir boxes_dir);
  records ← read_box_entries names;
  mret (sort_by_key box_key (pair_le N.leb) records).

Definition unknown_box (box_id : Uuid) : SandboxError := NotFound ("unknown BOX " ^+ uuid_to_string box_id).

Definition box_read (box_id : Uuid) : M SandboxError World BoxRecord :=
  present ← map_err (Io "checking BOX registry entry") (fs_try_exists (box_path box_id));
  if negb present then throw (unknown_box box_id) else read_path (box_path box_id).

Definition box_write (record : BoxRecord) : M SandboxError World () :=
  boxes_ensure_layout;;
  payload ← map_err (Json "encoding BOX registry entry") (lift (to_vec (persisted record)));
  map_err (Io "writing BOX registry entry") (fs_write (box_temp_path (bx_box_id record)) payload);;
  map_err (Io "replacing BOX registry entry")
    (fs_rename_file (box_temp_path (bx_box_id record)) (box_path (bx_box_id record))).

Definition box_remove (box_id : Uuid) : M SandboxError World () :=
  present ← map_err (Io "checking BOX registry entry") (fs_try_exists (box_path box_id));
  if negb present then throw (unknown_box box_id)
  else map_err (Io "removing BOX registry entry") (fs_remove_file (box_path box_id)).
End box_store.

(** ** Names *)

Fixpoint no_dot (s : string) : bool :=
  match s with EmptyString => true | String a s' => negb (Ascii.eqb a dot) && no_dot s' end.

Lemma rsplit_no_dot s : no_dot s = true → rsplit_dot s = None.
Proof.
  induction s as [|a s IH]; simpl; [done|]. rewrite andb_true_iff. intros [Ha Hs].
  rewrite (IH Hs). by destruct (Ascii.eqb a dot).
Qed.

Lemma rsplit_dot_app a b : no_dot b = true → rsplit_dot (a ^+ String dot b) = Some (a, b).
Proof.
  intros Hb. induction a as [|x a IH].
  - change (rsplit_dot (String dot b) = Some ("", b)). cbn [rsplit_dot]. by rewrite (rsplit_no_dot b Hb).
  - change (rsplit_dot (String x (a ^+ String dot b)) = Some (String x a, b)). cbn [rsplit_dot]. by rewrite IH.
Qed.

(** ** Laws of the store *)

Section box_store_laws.
Context `{PlatformLaws, Serde BoxRecord, !SerdeLaws BoxRecord} (state_dir : path).
Implicit Types (fs : gmap path node) (id : Uuid).

Local Abbreviation bpath := (box_path state_dir).
Local Abbreviation btemp := (box_temp_path state_dir).

Lemma box_name_rsplit id : rsplit_dot (uuid_to_string id ^+ ".json") = Some (uuid_to_string id, "json").
Proof. by apply (rsplit_dot_app _ "json"). Qed.

Lemma temp_name_rsplit id : rsplit_dot (uuid_to_string id ^+ ".json.tmp") = Some (uuid_to_string id ^+ ".json", "tmp").
Proof.
  rewrite <-(rsplit_dot_app (uuid_to_string id ^+ ".json") "tmp") by done. by rewrite string_app_assoc.
Qed.

Lemma box_path_inj id id' : bpath id = bpath id' → id = id'.
Proof.
  unfold box_path. intros Heq%app_inv_head. injection Heq as Heq.
  apply (f_equal rsplit_dot) in Heq. rewrite !box_name_rsplit in Heq. injection Heq as Heq.
  by apply (inj uuid_to_string).
Qed.

Lemma temp_not_box id id' : btemp id ≠ bpath id'.
Proof.
  unfold box_path, box_temp_path. intros Heq%app_inv_head. injection Heq as Heq.
  apply (f_equal rsplit_dot) in Heq. rewrite box_name_rsplit, temp_name_rsplit in Heq. done.
Qed.

Lemma uuid_nonempty id : uuid_to_string id ≠ "".
Proof. apply (uuid_to_string_valid id). Qed.

Lemma is_box_entry_path id : is_box_entry (uuid_to_string id ^+ ".json") = true.
Proof.
  unfold is_box_entry, extension, file_stem. rewrite box_name_rsplit.
  pose proof (uuid_nonempty id). destruct (uuid_to_string id) as [|a u] eqn:Hu; [done|].
  rewrite <-Hu, uuid_parse_to_string. done.
Qed.

(** The record a reader of the store finds under an identifier. *)
Definition stored_box fs id : option BoxRecord := decode_file fs (bpath id).

(** Everything the store keeps in its directory. *)
Definition box_files (q : path) : Prop := near (boxes_dir state_dir) q.

Lemma box_file_under name : near (boxes_dir state_dir) (state_dir ++ ["boxes"; name]).
Proof. right. exists [name]. unfold boxes_dir. by rewrite <-app_assoc. Qed.

Lemma boxes_prefix q : q `prefix_of` boxes_dir state_dir → ∀ id, q ≠ bpath id ∧ q ≠ btemp id.
Proof.
  intros Hq id. split; intros ->; apply prefix_length in Hq; unfold boxes_dir, box_path, box_temp_path in Hq;
    rewrite !length_app in Hq; simpl in Hq; lia.
Qed.

Lemma box_write_frame r : keeps (frame box_files) (box_write state_dir r).
Proof.
  unfold box_write, boxes_ensure_layout. keeps_tac.
  - apply keeps_create_dir_all. intros q Hq. by left.
  - apply keeps_write, box_file_under.
  - apply keeps_rename_file; apply box_file_under.
Qed.

(** Up to the rename, a write touches no record. *)
Lemma box_unchanged r w1 w2 :
  frame (λ q, q `prefix_of` boxes_dir state_dir ∨ q = btemp (bx_box_id r)) w1 w2 →
  ∀ id, stored_box (w_fs w2) id = stored_box (w_fs w1) id.
Proof.
  intros Hf id. apply decode_ext, Hf. intros [Hq|Hq].
  - by destruct (boxes_prefix _ Hq id) as [? _].
  - by apply (temp_not_box (bx_box_id r) id).
Qed.

Lemma box_renamed r fs b m id :
  from_slice b = Ok (persisted r) → fs !! btemp (bx_box_id r) = Some (File m (Text b)) →
  stored_box (<[bpath (bx_box_id r) := File m (Text b)]> (delete (btemp (bx_box_id r)) fs)) id =
  if decide (id = bx_box_id r) then Some (persisted r) else stored_box fs id.
Proof.
  intros Hb Ht. unfold stored_box. rewrite (decode_insert _ _ _ _ _ _ Hb).
  destruct (decide (id = bx_box_id r)) as [->|Hne]; [by rewrite decide_True|].
  rewrite decide_False by (intros ?%box_path_inj; congruence).
  apply decode_ext, lookup_delete_ne, temp_not_box.
Qed.

(** What a write does to every record of the store, successful or not. *)
Lemma box_write_effect r w :
  match box_write state_dir r w with
  | (Ok _, w') => ∀ id, stored_box (w_fs w') id =
                    if decide (id = bx_box_id r) then Some (persisted r) else stored_box (w_fs w) id
  | (Err _, w') => ∀ id, stored_box (w_fs w') id = stored_box (w_fs w) id
  end.
Proof.
  set (P q := q `prefix_of` boxes_dir state_dir ∨ q = btemp (bx_box_id r)).
  destruct (from_to_vec (persisted r)) as (b & Hb & Hb'). unfold box_write.
  assert (K1 : keeps (frame P) (boxes_ensure_layout state_dir)).
  { apply keeps_map_err, keeps_create_dir_all. intros q Hq. by left. }
  specialize (K1 w). unfold mbind at 1, M_bind at 1.
  destruct (boxes_ensure_layout state_dir w) as [[[]|e] w1]; simpl in K1; [|by apply (box_unchanged r)].
  erewrite bind_ok by (apply map_err_ok; unfold lift; rewrite Hb; reflexivity).
  assert (K2 : keeps (frame P) (fs_write (btemp (bx_box_id r)) b)) by (apply keeps_write; by right).
  specialize (K2 w1). unfold mbind at 1, M_bind at 1, map_err at 1.
  destruct (fs_write _ b w1) as [[[]|e] w2] eqn:Hw; simpl in K2.
  2: { apply (box_unchanged r). by etrans. }
  apply write_ok in Hw as [m Hm]. unfold map_err.
  assert (Hpre : ∀ id, stored_box (w_fs w2) id = stored_box (w_fs w) id) by (apply (box_unchanged r); by etrans).
  destruct (fs_rename_file _ _ w2) as [[[]|e] w3] eqn:Hr.
  - apply rename_file_ok in Hr as (m' & c & Hc & ->). intros id.
    assert (Hc' := Hc). rewrite Hm, lookup_insert_eq in Hc'. injection Hc' as -> <-.
    rewrite (box_renamed r _ b m' id Hb' Hc). by rewrite Hpre.
  - apply io_op_err_atomic in Hr. by rewrite Hr.
Qed.

(** C24: replacing a BOX record is atomic: whatever fails and however far it got,
    afterwards every record of the store reads as before, except that a write
    that reports success made its own record, without the runtime usage, the
    one that is read back. *)
Theorem box_write_atomic r w u w' :
  box_write state_dir r w = (u, w') →
  (∀ id, id ≠ bx_box_id r → stored_box (w_fs w') id = stored_box (w_fs w) id) ∧
  stored_box (w_fs w') (bx_box_id r) =
    (if is_ok u then Some (persisted r) else stored_box (w_fs w) (bx_box_id r)).
Proof.
  intros Hr. pose proof (box_write_effect r w) as He. rewrite Hr in He. destruct u as [[]|e]; simpl.
  - split; [intros id Hid; rewrite He; by case_decide|]. by rewrite He, decide_True.
  - split; [intros id _; by rewrite He|by rewrite He].
Qed.

(** Reading changes nothing and returns what is stored. *)
Lemma read_path_frame p P : keeps (frame P) (read_path p).
Proof. unfold read_path. keeps_tac. Qed.
#[local] Hint Resolve read_path_frame : keeps.

Lemma box_read_frame id P : keeps (frame P) (box_read state_dir id).
Proof. unfold box_read. keeps_tac. Qed.

Lemma box_entries_frame names P : keeps (frame P) (read_box_entries state_dir names).
Proof. induction names as [|n names IH]; cbn [read_box_entries]; keeps_tac. Qed.
#[local] Hint Resolve box_entries_frame : keeps.

Lemma box_list_frame P : keeps (frame P) (box_list state_dir).
Proof. unfold box_list. keeps_tac. Qed.

Lemma box_remove_frame id : keeps (frame (eq (bpath id))) (box_remove state_dir id).
Proof. unfold box_remove. keeps_tac. Qed.

Lemma read_path_ok p w r w' : read_path p w = (Ok r, w') → decode_file (w_fs w) p = Some r ∧ w_fs w' = w_fs w.
Proof.
  unfold read_path. intros Hr. ok_inv. apply read_ok in Hrun as (m & c & Hc & -> & Hfs).
  unfold decode_file. by rewrite Hc, Hr.
Qed.

Lemma box_read_ok id w r w' : box_read state_dir id w = (Ok r, w') → stored_box (w_fs w) id = Some r ∧ w_fs w' = w_fs w.
Proof.
  unfold box_read. intros Hr. apply bind_ok_inv in Hr as (b & w1 & Hb%map_err_ok_inv & Hr).
  apply try_exists_ok in Hb as [-> Hfs]. destruct (negb _); [done|].
  apply read_path_ok in Hr as [Hd Hfs']. rewrite Hfs in Hd. unfold stored_box. split; [done|congruence].
Qed.

Lemma box_entries_ok names w rs w' :
  read_box_entries state_dir names w = (Ok rs, w') →
  w_fs w' = w_fs w ∧
  Forall2 (λ n r, decode_file (w_fs w) (boxes_dir state_dir ++ [n]) = Some r) (List.filter is_box_entry names) rs.
Proof.
  revert w rs w'. induction names as [|n names IH]; intros w rs w' Hr; cbn [read_box_entries] in Hr.
  - ok_inv. apply next_entry_ok in Hrun. split; [done|constructor].
  - apply bind_ok_inv in Hr as (u & w1 & Hn%map_err_ok_inv%next_entry_ok & Hr). cbn [List.filter].
    destruct (is_box_entry n).
    + ok_inv. apply read_path_ok in Hrun as [Hd Hfs]. apply IH in Hrun0 as [Hfs' Hall].
      rewrite Hfs', Hfs, Hn in *. split; [done|]. by constructor.
    + apply IH in Hr as [Hfs Hall]. rewrite Hfs, Hn in *. done.
Qed.

Lemma box_list_ok w rs w' :
  box_list state_dir w = (Ok rs, w') →
  w_fs w' = w_fs w ∧
  ∃ names, (∀ n, n ∈ names ↔ is_box_entry n = true ∧ is_Some (w_fs w !! (boxes_dir state_dir ++ [n]))) ∧
    NoDup names ∧ ∃ l, Forall2 (λ n r, decode_file (w_fs w) (boxes_dir state_dir ++ [n]) = Some r) names l ∧
    rs = sort_by_key box_key (pair_le N.leb) l.
Proof.
  unfold box_list. intros Hr. ok_inv. apply read_dir_ok in Hrun as [-> Hfs].
  apply box_entries_ok in Hrun0 as [Hfs' Hall]. rewrite Hfs', Hfs in *. split; [done|].
  eexists. split; [|split; [|eexists; split; [exact Hall|done]]].
  - intros n. rewrite list_elem_of_In, filter_In, <-list_elem_of_In, entries_elem. tauto.
  - apply NoDup_ListNoDup, List.NoDup_filter, NoDup_ListNoDup, entries_NoDup.
Qed.

Lemma N_leb_total a b : N.leb a b || N.leb b a = true.
Proof. destruct (N.leb_spec a b), (N.leb_spec b a); simpl; try done. lia. Qed.
Lemma N_leb_trans a b c : N.leb a b = true → N.leb b c = true → N.leb a c = true.
Proof. rewrite !N.leb_le. lia. Qed.

(** Every stored BOX is listed. *)
Lemma box_list_complete w rs w' id r :
  box_list state_dir w = (Ok rs, w') → stored_box (w_fs w) id = Some r → r ∈ rs.
Proof.
  intros (Hfs & names & Hn & Hnd & l & Hall & ->)%box_list_ok Hr. rewrite sort_by_key_elem.
  assert (Hp : bpath id = boxes_dir state_dir ++ [uuid_to_string id ^+ ".json"]).
  { unfold box_path, boxes_dir. by rewrite <-app_assoc. }
  unfold stored_box in Hr. rewrite Hp in Hr.
  assert (Hin : uuid_to_string id ^+ ".json" ∈ names).
  { apply Hn. split; [apply is_box_entry_path|]. unfold decode_file in Hr.
    destruct (w_fs w !! _); [eauto|done]. }
  destruct (Forall2_elem_of_l _ _ _ _ Hall Hin) as (r' & Hr' & Hd). simpl in Hd. congruence.
Qed.

(** a listing that succeeds reads every file of the store named after a BOX
    identifier, each once, and nothing else: every stored BOX is in it, it is
    ordered by creation time and identifier, and it changes nothing on disk. *)
Theorem box_list_exact w rs w' :
  box_list state_dir w = (Ok rs, w') →
  w_fs w' = w_fs w ∧ StronglySorted (λ a b, box_le a b = true) rs ∧
  (∀ id r, stored_box (w_fs w) id = Some r → r ∈ rs) ∧
  (∀ r, r ∈ rs → ∃ n, is_box_entry n = true ∧ decode_file (w_fs w) (boxes_dir state_dir ++ [n]) = Some r).
Proof.
  intros Hl. pose proof (box_list_ok _ _ _ Hl) as (Hfs & names & Hn & Hnd & l & Hall & Hrs). split; [done|]. split_and!.
  - rewrite Hrs. apply (sort_by_key_sorted box_key (pair_le N.leb));
      [apply pair_le_total, N_leb_total|apply pair_le_trans, N_leb_trans].
  - intros id r. by apply (box_list_complete _ _ _ _ _ Hl).
  - intros r. rewrite Hrs, sort_by_key_elem. intros Hin.
    destruct (Forall2_elem_of_r _ _ _ _ Hall Hin) as (n & Hin' & Hd). exists n. split; [by apply Hn|done].
Qed.

(** A removal removes the record's file, or nothing. *)
Lemma box_remove_effect id w :
  match box_remove state_dir id w with
  | (Ok _, w') => w_fs w' = delete (bpath id) (w_fs w)
  | (Err _, w') => w_fs w' = w_fs w
  end.
Proof.
  unfold box_remove, mbind, M_bind, map_err. destruct (fs_try_exists (bpath id) w) as [[b|e] w1] eqn:Ht.
  - apply try_exists_ok in Ht as [_ Ht]. destruct (negb b); [done|].
    destruct (fs_remove_file (bpath id) w1) as [[[]|e] w2] eqn:Hr.
    + apply remove_file_ok in Hr. congruence.
    + apply io_op_err_atomic in Hr. congruence.
  - by apply io_op_err_atomic in Ht.
Qed.

Lemma stored_removed fs id id' :
  stored_box (delete (bpath id) fs) id' = if decide (id' = id) then None else stored_box fs id'.
Proof.
  unfold stored_box, decode_file. case_decide as Hd; [subst; by rewrite lookup_delete_eq|].
  rewrite lookup_delete_ne; [done|]. intros ?%box_path_inj. congruence.
Qed.
End box_store_laws.
