(* ===== verification/Boxes.v ===== *)
(** * Boxes: [src/boxes/helpers.rs] and [src/boxes/service/]

    The BOX service: settings and their caps, the life cycle of a BOX on top of
    the sandbox service, which is the interface [SandboxService] here, and the
    checkpoints of a BOX's workspace. *)

From S2P Require Import Prelude RustStd Paths FileSystem PrivateFs FsTree Manifest Config Lineage Workspace Images Protocol Runtime BoxStore.

(** ** The host's limits, from libc and [available_parallelism] *)

Class HostLimits := {
  available_parallelism : option Z;              (** [None] for an error *)
  sysconf_phys_pages : Z;
  sysconf_page_size : Z;
  rlimit_nproc : option (option Z);              (** error; unlimited; a limit *)
  statvfs : World → path → option (Z * Z);       (** [f_bavail], [f_frsize] *)
}.

(** ** The sandbox service, as the BOX service sees it: the trait
    [SandboxService] of [src/runtime/service/mod.rs] *)

Class SandboxService (R : Type) := {
  box_shell : Type;
  rt_create_sandbox : SandboxSpec → M SandboxError (World * R) SandboxSessionSummary;
  rt_destroy_sandbox : Uuid → M SandboxError (World * R) SandboxSessionRecord;
  rt_list_files : Uuid → string → M SandboxError (World * R) (list FileNode);
  rt_read_file : Uuid → string → Z → M SandboxError (World * R) ReadFileResult;
  rt_write_file : Uuid → string → bytes → bool → M SandboxError (World * R) ();
  rt_make_dir : Uuid → string → bool → M SandboxError (World * R) ();
  rt_remove_path : Uuid → string → bool → M SandboxError (World * R) ();
  rt_exec : Uuid → ExecRequest → M SandboxError (World * R) (list ExecutionEvent);
  rt_open_shell : Uuid → ShellRequest → M SandboxError (World * R) box_shell;
  rt_runtime_stats : Uuid → M SandboxError (World * R) GuestRuntimeStats;
  rt_capture_workspace_checkpoint : Uuid → option string → gmap string string →
    M SandboxError (World * R) WorkspaceCheckpointRecord;
}.

(** ** Caps and settings *)

Record BoxCaps := mkCaps {
  cap_cpu_cores : Z;
  cap_memory_mb : Z;
  cap_fs_size_mib : Z;
  cap_max_processes : Z;
  cap_network_enabled : bool;
}.

(** [normalize_settings]; [None] where a [clamp] panics. *)
Definition normalize_settings (existing : BoxSettings) (actual_fs_size_mib : Z) (detected : BoxCaps) :
    option BoxSettings :=
  let cpu_max := (cap_cpu_cores detected `max` ns_current (set_cpu_cores existing))%Z in
  cpu ← clamp (ns_current (set_cpu_cores existing)) 1 cpu_max;
  let mem_max := (cap_memory_mb detected `max` ns_current (set_memory_mb existing))%Z in
  mem ← clamp (ns_current (set_memory_mb existing)) 128 mem_max;
  let proc_max := (cap_max_processes detected `max` ns_current (set_max_processes existing))%Z in
  proc ← clamp (ns_current (set_max_processes existing)) 1 proc_max;
  let fs_max := (cap_fs_size_mib detected `max` actual_fs_size_mib)%Z in
  fs ← clamp actual_fs_size_mib 64 fs_max;
  Some (mkSettings (mkNumeric cpu cpu_max) (mkNumeric mem mem_max) (mkNumeric fs fs_max) (mkNumeric proc proc_max)
          (mkBoolean (bo_current (set_network_enabled existing) && cap_network_enabled detected)
                     (cap_network_enabled detected))).

Section caps.
Context `{HostLimits}.

(** [value.get() as u32]. *)
Definition detect_cpu_cap (default_value : Z) : Z :=
  (match available_parallelism with Some n => n mod 2 ^ 32 | None => default_value `max` 1 end `max` default_value)%Z.

Definition detect_total_memory_mib : option Z :=
  if ((sysconf_phys_pages <=? 0) || (sysconf_page_size <=? 0))%Z then None
  else Some (saturating_mul u64_max sysconf_phys_pages sysconf_page_size / (1024 * 1024))%Z.

(** [u32::try_from(value).ok()]. *)
Definition try_u32 (value : Z) : option Z := if (value <=? u32_max)%Z then Some value else None.

Definition detect_memory_cap (default_value : Z) : Z :=
  (default (default_value `max` 4096) (detect_total_memory_mib ≫= try_u32) `max` default_value)%Z.

Definition detect_process_limit : option Z :=
  match rlimit_nproc with
  | None | Some None => None
  | Some (Some n) => Some (n `min` 65535)%Z
  end.

Definition detect_process_cap (default_value : Z) : Z :=
  (default (default_value `max` 4096) (detect_process_limit ≫= try_u32) `max` default_value)%Z.

(** [(free_bytes / MiB) as u64] at 128 bits. *)
Definition detect_available_disk_mib (w : World) (p : path) : option Z :=
  '(bavail, frsize) ← statvfs w p;
  Some ((saturating_mul (2 ^ 128 - 1) bavail frsize / (1024 * 1024)) mod 2 ^ 64)%Z.

Definition detect_fs_cap (w : World) (state_dir : path) (default_value current_value : Z) : Z :=
  (match detect_available_disk_mib w state_dir with
   | Some free_mib => saturating_add u64_max free_mib current_value
   | None => saturating_mul u64_max default_value 8 `max` current_value
   end `max` (default_value `max` current_value))%Z.

Definition detect_box_caps (w : World) (state_dir : path) (default_policy : ExecutionPolicy)
    (default_fs_size_mib : Z) (isolation_mode : IsolationMode) (actual_fs_size_mib : Z) : BoxCaps :=
  mkCaps (detect_cpu_cap (cpu_cores default_policy)) (detect_memory_cap (memory_mb default_policy))
    (detect_fs_cap w state_dir default_fs_size_mib actual_fs_size_mib)
    (detect_process_cap (max_processes default_policy)) (bool_decide (isolation_mode ≠ Secure)).
End caps.

(** [service/policy.rs] *)
Definition validate_numeric_setting (name : string) (value max min : Z) : Result SandboxError () :=
  if (value <? min)%Z then Err (InvalidConfig (name ^+ " must be at least " ^+ pretty min))
  else if (max <? value)%Z then Err (InvalidConfig (name ^+ " cannot exceed " ^+ pretty max))
  else Ok ().

Definition box_policy (record : BoxRecord) (timeout_ms : option Z) : ExecutionPolicy :=
  let s := bx_settings record in
  mkPolicy (ns_current (set_cpu_cores s)) (ns_current (set_memory_mb s)) (ns_current (set_max_processes s))
    (bo_current (set_network_enabled s)) timeout_ms.

(** [missing_runtime_session]. *)
Definition missing_runtime_session (error : SandboxError) : bool :=
  match error with
  | InvalidConfig message | Backend message => contains "unknown active sandbox" message
  | _ => false
  end.

(** ** Records *)

Definition with_status (r : BoxRecord) (status : BoxStatus) (sandbox : option Uuid) (error : option string) : BoxRecord :=
  mkBox (bx_box_id r) (bx_name r) (bx_image r) status (bx_settings r) (bx_runtime_usage r) (bx_workspace_path r)
    sandbox (bx_created_at_ms r) (bx_last_start_at_ms r) (bx_last_stop_at_ms r) error.
Definition with_settings (r : BoxRecord) (s : BoxSettings) : BoxRecord :=
  mkBox (bx_box_id r) (bx_name r) (bx_image r) (bx_status r) s (bx_runtime_usage r) (bx_workspace_path r)
    (bx_active_sandbox_id r) (bx_created_at_ms r) (bx_last_start_at_ms r) (bx_last_stop_at_ms r) (bx_last_error r).
Definition with_usage (r : BoxRecord) (u : option BoxRuntimeUsage) : BoxRecord :=
  mkBox (bx_box_id r) (bx_name r) (bx_image r) (bx_status r) (bx_settings r) u (bx_workspace_path r)
    (bx_active_sandbox_id r) (bx_created_at_ms r) (bx_last_start_at_ms r) (bx_last_stop_at_ms r) (bx_last_error r).
Definition with_start (r : BoxRecord) (t : Z) : BoxRecord :=
  mkBox (bx_box_id r) (bx_name r) (bx_image r) (bx_status r) (bx_settings r) (bx_runtime_usage r) (bx_workspace_path r)
    (bx_active_sandbox_id r) (bx_created_at_ms r) (Some t) (bx_last_stop_at_ms r) (bx_last_error r).
Definition with_stop (r : BoxRecord) (t : Z) : BoxRecord :=
  mkBox (bx_box_id r) (bx_name r) (bx_image r) (bx_status r) (bx_settings r) (bx_runtime_usage r) (bx_workspace_path r)
    (bx_active_sandbox_id r) (bx_created_at_ms r) (bx_last_start_at_ms r) (Some t) (bx_last_error r).

(** ** The service *)

Section service.
Context `{Platform, Ext4, Target, HostLimits, L : WorkspaceLineageStore, Serde VmImageManifest, Serde BoxRecord}
  {R : Type} `{!SandboxService R}
  (state_dir : path) (workspace_config : WorkspaceConfig) (default_policy : ExecutionPolicy)
  (isolation_mode : IsolationMode).

Record BoxService := mkBoxService {
  bs_world : World;
  bs_runtime : R;
  bs_active : gmap Uuid Uuid;
}.

Definition set_bs_host (h : World * R) (s : BoxService) : BoxService := mkBoxService h.1 h.2 (bs_active s).

Abbreviation BM := (M SandboxError BoxService).

Definition disk {A} (m : M SandboxError World A) : BM A :=
  zoom bs_world (λ w s, set_bs_host (w, bs_runtime s) s) m.
Definition runtime {A} (m : M SandboxError (World * R) A) : BM A :=
  zoom (λ s, (bs_world s, bs_runtime s)) set_bs_host m.
Definition active_insert (b sandbox : Uuid) : BM () :=
  modify (λ s, mkBoxService (bs_world s) (bs_runtime s) (<[b := sandbox]> (bs_active s))).
Definition active_remove (b : Uuid) : BM () :=
  modify (λ s, mkBoxService (bs_world s) (bs_runtime s) (delete b (bs_active s))).

(** The workspace of a BOX. *)
Definition box_ws (b : Uuid) : string := uuid_to_string b.
Definition default_fs_mib : Z := disk_size_mib workspace_config.

(** *** [helpers.rs] *)

(** A request whose handler panics. *)
Definition panicked : SandboxError := Backend "panicked".

Definition hydrate_record (record : BoxRecord) : BM BoxRecord :=
  size ← attempt (disk (workspace_disk_size_mib state_dir (box_ws (bx_box_id record))));
  let actual_fs_size_mib := match size with Ok n => n | Err _ => default_fs_mib end in
  w ← gets bs_world;
  let detected := detect_box_caps w state_dir default_policy default_fs_mib isolation_mode actual_fs_size_mib in
  settings ← lift (ok_or panicked (normalize_settings (bx_settings record) actual_fs_size_mib detected));
  let record' := with_settings record settings in
  (if decide (record' ≠ record) then disk (box_write state_dir record') else mret ());;
  mret record'.

Definition read_box (b : Uuid) : BM BoxRecord :=
  record ← disk (box_read state_dir b); hydrate_record record.

Definition set_failed (record : BoxRecord) (message : string) : BM () :=
  active_remove (bx_box_id record);;
  disk (box_write state_dir (with_status record BFailed None (Some message))).

Definition mark_stopped (record : BoxRecord) : BM () :=
  now ← disk now_ms;
  active_remove (bx_box_id record);;
  disk (box_write state_dir (with_stop (with_status record BStopped None None) now)).

Definition missing_runtime_state_message (b : Uuid) : string :=
  "BOX " ^+ uuid_to_string b ^+ " is marked running but has no active sandbox; start it again".
Definition missing_runtime_session_message (b : Uuid) : string :=
  "BOX " ^+ uuid_to_string b ^+ " runtime is no longer available; start it again".

(** [match record.active_sandbox_id { Some(id) => Some(id), None => self.active.get(..) }] *)
Definition known_sandbox (b : Uuid) (record : BoxRecord) : BM (option Uuid) :=
  match bx_active_sandbox_id record with
  | Some sandbox => mret (Some sandbox)
  | None => gets (λ s, bs_active s !! b)
  end.

Definition attach_runtime_usage (record0 : BoxRecord) : BM BoxRecord :=
  let record := with_usage record0 None in
  if decide (bx_status record ≠ BRunning) then mret record
  else
    let b := bx_box_id record in
    sandbox ← known_sandbox b record;
    match sandbox with
    | None => set_failed record (missing_runtime_state_message b);; read_box b
    | Some sandbox_id =>
        stats ← attempt (runtime (rt_runtime_stats sandbox_id));
        match stats with
        | Ok st => mret (with_usage record (Some (usage_of_stats st)))
        | Err error =>
            set_failed record (if missing_runtime_session error then missing_runtime_session_message b
                               else error_to_string error);;
            read_box b
        end
    end.

Definition not_running (b : Uuid) (hint : string) : SandboxError :=
  Conflict ("BOX " ^+ uuid_to_string b ^+ " is not running" ^+ hint).

Definition running_sandbox_id (b : Uuid) : BM Uuid :=
  record ← read_box b;
  if decide (bx_status record ≠ BRunning) then throw (not_running b "")
  else
    sandbox ← known_sandbox b record;
    match sandbox with
    | None =>
        let message := missing_runtime_state_message b in
        set_failed record message;; throw (Backend message)
    | Some sandbox_id => active_insert b sandbox_id;; mret sandbox_id
    end.

Definition ensure_runtime (b : Uuid) : BM Uuid :=
  record ← read_box b;
  if decide (bx_status record ≠ BRunning) then throw (not_running b "; start it first")
  else
    sandbox ← known_sandbox b record;
    match sandbox with
    | None =>
        let message := missing_runtime_state_message b in
        set_failed record message;; throw (Backend message)
    | Some sandbox_id =>
        active_insert b sandbox_id;;
        stats ← attempt (runtime (rt_runtime_stats sandbox_id));
        match stats with
        | Ok _ => mret sandbox_id
        | Err error =>
            if missing_runtime_session error then
              let message := missing_runtime_session_message b in
              set_failed record message;; throw (Backend message)
            else set_failed record (error_to_string error);; throw error
        end
    end.

Definition stop_box_for_shutdown (b : Uuid) : BM () :=
  record ← read_box b;
  if decide (bx_status record ≠ BRunning) then active_remove b
  else
    sandbox ← known_sandbox b record;
    match sandbox with
    | None => mark_stopped record
    | Some sandbox_id =>
        active_insert b sandbox_id;;
        r ← attempt (runtime (rt_destroy_sandbox sandbox_id));
        match r with
        | Ok _ => mark_stopped record
        | Err error =>
            if missing_runtime_session error then mark_stopped record
            else set_failed record (error_to_string error);; throw error
        end
    end.

Definition restart_error : string := "daemon restarted while BOX was marked running; start it again".

Definition reconcile_record (record0 : BoxRecord) : BM () :=
  record ← hydrate_record record0;
  if decide (bx_status record = BRunning)
  then disk (box_write state_dir (with_status record BFailed (bx_active_sandbox_id record) (Some restart_error)))
  else mret ().

Definition reconcile_after_restart : BM () :=
  records ← disk (box_list state_dir); for_each reconcile_record records.

(** *** [service/record.rs] *)

Definition create_box_record (name : option string) (image : string) (settings : BoxSettings) : BM BoxRecord :=
  b ← disk new_v4;
  workspace ← disk (prepare_workspace state_dir default_fs_mib (box_ws b));
  created ← disk now_ms;
  record ← hydrate_record (mkBox b name image BCreated settings None (wl_disk_path workspace) None created None None None);
  disk (box_write state_dir record);;
  mret record.

Definition LocalBoxService_new : BM () :=
  disk (boxes_ensure_layout state_dir);;
  disk (ensure_layout state_dir);;
  reconcile_after_restart.

(** *** [service/mod.rs]: the trait [BoxManager] *)

Definition list_boxes : BM (list BoxRecord) :=
  records ← disk (box_list state_dir);
  map_each (λ r, r' ← hydrate_record r; attach_runtime_usage r') records.

Definition get_box (b : Uuid) : BM BoxRecord :=
  record ← read_box b; attach_runtime_usage record.

Definition create_box_from_image (image : option string) : BM BoxRecord :=
  let image := default BASE_IMAGE_NAME image in
  lift (validate_image_name image);;
  (if decide (image ≠ BASE_IMAGE_NAME) then _ ← disk (inspect state_dir image); mret () else mret ());;
  create_box_record None image BoxSettings_default.

Definition create_box : BM BoxRecord := create_box_from_image None.

Definition create_named_box (name : option string) : BM BoxRecord :=
  create_box_record name BASE_IMAGE_NAME BoxSettings_default.

(** The settings after the [match setting] of [set_box_setting], with the disk
    resized where the file system size changes. *)
Definition apply_setting (b : Uuid) (s : BoxSettings) (setting : BoxSettingValue) : BM BoxSettings :=
  match setting with
  | SetCpuCores v =>
      lift (validate_numeric_setting "cpu_cores" v (ns_max (set_cpu_cores s)) 1);;
      mret (mkSettings (mkNumeric v (ns_max (set_cpu_cores s))) (set_memory_mb s) (set_fs_size_mib s)
              (set_max_processes s) (set_network_enabled s))
  | SetMemoryMb v =>
      lift (validate_numeric_setting "memory_mb" v (ns_max (set_memory_mb s)) 128);;
      mret (mkSettings (set_cpu_cores s) (mkNumeric v (ns_max (set_memory_mb s))) (set_fs_size_mib s)
              (set_max_processes s) (set_network_enabled s))
  | SetFsSizeMib v =>
      lift (validate_numeric_setting "fs_size_mib" v (ns_max (set_fs_size_mib s)) 64);;
      if decide (v ≠ ns_current (set_fs_size_mib s)) then
        disk (resize_workspace state_dir default_fs_mib (box_ws b) v);;
        mret (mkSettings (set_cpu_cores s) (set_memory_mb s) (mkNumeric v (ns_max (set_fs_size_mib s)))
                (set_max_processes s) (set_network_enabled s))
      else mret s
  | SetMaxProcesses v =>
      lift (validate_numeric_setting "max_processes" v (ns_max (set_max_processes s)) 1);;
      mret (mkSettings (set_cpu_cores s) (set_memory_mb s) (set_fs_size_mib s)
              (mkNumeric v (ns_max (set_max_processes s))) (set_network_enabled s))
  | SetNetworkEnabled v =>
      if v && negb (bo_max (set_network_enabled s)) then
        throw (InvalidConfig "network_enabled cannot be set to true for this BOX")
      else mret (mkSettings (set_cpu_cores s) (set_memory_mb s) (set_fs_size_mib s) (set_max_processes s)
                   (mkBoolean v (bo_max (set_network_enabled s))))
  end.

Definition set_box_setting (b : Uuid) (setting : BoxSettingValue) : BM BoxRecord :=
  record ← read_box b;
  if decide (bx_status record = BRunning) then
    throw (Conflict ("BOX " ^+ uuid_to_string b ^+ " must be stopped before updating settings"))
  else
    settings ← apply_setting b (bx_settings record) setting;
    let record' := with_settings record settings in
    disk (box_write state_dir record');;
    hydrate_record record'.

Definition start_box (b : Uuid) : BM BoxRecord :=
  record ← read_box b;
  if decide (bx_status record = BRunning) then
    throw (Conflict ("BOX " ^+ uuid_to_string b ^+ " is already running"))
  else
    r ← attempt (runtime (rt_create_sandbox
          (mkSandboxSpec (box_ws b) (bx_image record) (box_policy record (timeout_ms default_policy)) None)));
    match r with
    | Ok session =>
        active_insert b (ss_sandbox_id session);;
        now ← disk now_ms;
        let record' := with_start (with_status record BRunning (Some (ss_sandbox_id session)) None) now in
        disk (box_write state_dir record');;
        attach_runtime_usage record'
    | Err error => set_failed record (error_to_string error);; throw error
    end.

Definition stop_box (b : Uuid) : BM BoxRecord :=
  record ← read_box b;
  if decide (bx_status record ≠ BRunning) then throw (not_running b "")
  else
    sandbox_id ← running_sandbox_id b;
    r ← attempt (runtime (rt_destroy_sandbox sandbox_id));
    match r with
    | Ok _ =>
        active_remove b;;
        now ← disk now_ms;
        let record' := with_stop (with_status record BStopped None None) now in
        disk (box_write state_dir record');;
        mret record'
    | Err error =>
        if missing_runtime_session error then mark_stopped record;; read_box b
        else set_failed record (error_to_string error);; throw error
    end.

Definition remove_box (b : Uuid) : BM () :=
  record0 ← read_box b;
  record ← (if decide (bx_status record0 = BRunning) then _ ← stop_box b; read_box b else mret record0);
  disk (box_write state_dir (with_status record BRemoving None None));;
  disk (remove_workspace state_dir (box_ws b));;
  active_remove b;;
  disk (box_remove state_dir b).

Definition box_list_files (b : Uuid) (p : string) : BM (list FileNode) :=
  sandbox ← ensure_runtime b; runtime (rt_list_files sandbox p).
Definition box_read_file (b : Uuid) (p : string) (limit : Z) : BM ReadFileResult :=
  sandbox ← ensure_runtime b; runtime (rt_read_file sandbox p limit).
Definition box_write_file (b : Uuid) (p : string) (data : bytes) (create_parents : bool) : BM () :=
  sandbox ← ensure_runtime b; runtime (rt_write_file sandbox p data create_parents).
Definition box_make_dir (b : Uuid) (p : string) (recursive : bool) : BM () :=
  sandbox ← ensure_runtime b; runtime (rt_make_dir sandbox p recursive).
Definition box_remove_path (b : Uuid) (p : string) (recursive : bool) : BM () :=
  sandbox ← ensure_runtime b; runtime (rt_remove_path sandbox p recursive).
Definition box_exec (b : Uuid) (request : ExecRequest) : BM (list ExecutionEvent) :=
  sandbox ← ensure_runtime b; runtime (rt_exec sandbox request).
Definition box_open_shell (b : Uuid) (request : ShellRequest) : BM box_shell :=
  sandbox ← ensure_runtime b; runtime (rt_open_shell sandbox request).

Definition checkpoint_create (b : Uuid) (name : option string) (metadata : gmap string string) :
    BM WorkspaceCheckpointRecord :=
  sandbox ← ensure_runtime b; runtime (rt_capture_workspace_checkpoint sandbox name metadata).

Definition checkpoint_list (b : Uuid) : BM (list WorkspaceCheckpointRecord) :=
  _ ← read_box b; disk (store_list_checkpoints (box_ws b)).

Definition checkpoint_restore (b : Uuid) (checkpoint : string) (mode : CheckpointRestoreMode) :
    BM WorkspaceCheckpointRecord :=
  record ← read_box b;
  let was_running := bool_decide (bx_status record = BRunning) in
  (if was_running then _ ← stop_box b; mret () else mret ());;
  restored ← disk (restore_checkpoint state_dir default_fs_mib (box_ws b) checkpoint mode);
  (if was_running then _ ← start_box b; mret () else mret ());;
  mret restored.

Definition checkpoint_fork (b : Uuid) (checkpoint : string) (new_box_name : option string) : BM BoxRecord :=
  source ← read_box b;
  record ← create_box_record new_box_name (bx_image source) (bx_settings source);
  _ ← disk (fork_workspace state_dir default_fs_mib (box_ws b) checkpoint (box_ws (bx_box_id record)));
  mret record.

Definition checkpoint_delete (b : Uuid) (checkpoint : string) : BM () :=
  _ ← read_box b; disk (delete_checkpoint (box_ws b) checkpoint).

Definition active_box_ids : BM (list Uuid) :=
  gets (λ s, sort_by_key id N.leb (map fst (map_to_list (bs_active s)))).

Definition shutdown_daemon : BM () :=
  boxes ← active_box_ids; for_each stop_box_for_shutdown boxes.
End service.

(** ** Settings stay within the host's caps *)

Definition within (lo : Z) (n : BoxNumericSetting) : Prop := (lo ≤ ns_current n ≤ ns_max n)%Z.

Definition settings_ok (s : BoxSettings) : Prop :=
  within 1 (set_cpu_cores s) ∧ within 128 (set_memory_mb s) ∧ within 64 (set_fs_size_mib s) ∧
  within 1 (set_max_processes s) ∧
  (bo_current (set_network_enabled s) = true → bo_max (set_network_enabled s) = true).

Definition caps_ok (c : BoxCaps) : Prop :=
  (1 ≤ cap_cpu_cores c ∧ 128 ≤ cap_memory_mb c ∧ 64 ≤ cap_fs_size_mib c ∧ 1 ≤ cap_max_processes c)%Z.

Lemma clamp_spec x lo hi : (lo ≤ hi)%Z → ∃ y, clamp x lo hi = Some y ∧ (lo ≤ y ≤ hi)%Z ∧ ((lo ≤ x ≤ hi)%Z → y = x).
Proof.
  intros Hle. unfold clamp. destruct (Z.leb_spec lo hi); [|lia].
  destruct (Z.ltb_spec x lo); [|destruct (Z.ltb_spec hi x)]; eexists; split; try done; lia.
Qed.

#[local] Arguments clamp : simpl never.

(** One numeric setting, normalized. *)
Lemma clamp_cap cur lo cap :
  (lo ≤ cap)%Z → ∃ y, clamp cur lo (cap `max` cur) = Some y ∧ (lo ≤ y ≤ cap `max` cur)%Z ∧
    clamp y lo (cap `max` y) = Some y ∧ (cap `max` y = cap `max` cur)%Z.
Proof.
  intros Hlo. destruct (clamp_spec cur lo (cap `max` cur)) as (y & Hy & Hb & Hid); [lia|].
  exists y. assert (Hmax : (cap `max` y = cap `max` cur)%Z) by (destruct (decide (lo ≤ cur)%Z); [rewrite Hid; lia|lia]).
  destruct (clamp_spec y lo (cap `max` y)) as (z & Hz & Hzb & Hzid); [lia|].
  split_and!; [done|lia|lia| |done]. rewrite Hz. f_equal. apply Hzid. lia.
Qed.

(** C40: normalizing settings against caps that allow the minima never panics,
    gives settings within their bounds with networking only where it is allowed,
    and normalizing again changes nothing. *)
Theorem normalize_settings_spec existing actual detected :
  caps_ok detected → (0 ≤ actual)%Z →
  ∃ s, normalize_settings existing actual detected = Some s ∧ settings_ok s ∧
       set_network_enabled s =
         mkBoolean (bo_current (set_network_enabled existing) && cap_network_enabled detected)
                   (cap_network_enabled detected) ∧
       normalize_settings s actual detected = Some s.
Proof.
  intros (Hc & Hm & Hf & Hp) Ha. unfold normalize_settings.
  destruct (clamp_cap (ns_current (set_cpu_cores existing)) 1 _ Hc) as (c & -> & Hcb & Hc' & Hcm).
  destruct (clamp_cap (ns_current (set_memory_mb existing)) 128 _ Hm) as (m & -> & Hmb & Hm' & Hmm).
  destruct (clamp_cap (ns_current (set_max_processes existing)) 1 _ Hp) as (p & -> & Hpb & Hp' & Hpm).
  destruct (clamp_spec actual 64 (cap_fs_size_mib detected `max` actual)) as (f & Hfe & Hfb & _); [lia|].
  rewrite Hfe. eexists. split; [reflexivity|]. cbn. split; [|split; [done|]].
  - unfold settings_ok, within. cbn. split_and!; try lia. by intros [_ ?]%andb_true_iff.
  - rewrite Hc'. cbn. rewrite Hm'. cbn. rewrite Hp'. cbn. rewrite Hcm, Hmm, Hpm.
    do 3 f_equal. by rewrite <-andb_assoc, andb_diag.
Qed.

Section caps_laws.
Context `{HostLimits}.

(** the caps detected on a host allow the minima whenever the default policy
    and the default disk size are valid, whatever the host reports, and they
    allow networking exactly outside secure mode; so hydrating a record never
    panics. *)
Theorem detected_caps_ok w state_dir policy default_fs mode actual :
  valid_policy policy → (64 ≤ default_fs)%Z →
  caps_ok (detect_box_caps w state_dir policy default_fs mode actual) ∧
  (cap_network_enabled (detect_box_caps w state_dir policy default_fs mode actual) = true ↔ mode ≠ Secure).
Proof.
  intros ((Hc & Hm & Hp) & _) Hfs. split.
  - unfold caps_ok, detect_box_caps, detect_cpu_cap, detect_memory_cap, detect_process_cap, detect_fs_cap. cbn.
    split_and!; lia.
  - unfold detect_box_caps. cbn. apply bool_decide_eq_true.
Qed.
End caps_laws.

(** a numeric setting is accepted exactly when it lies between the minimum
    and the maximum. *)
Theorem validate_numeric_setting_exact name value max min :
  validate_numeric_setting name value max min = Ok () ↔ (min ≤ value ≤ max)%Z.
Proof.
  unfold validate_numeric_setting. destruct (Z.ltb_spec value min); [split; [done|lia]|].
  destruct (Z.ltb_spec max value); split; try done; lia.
Qed.

(** ** What the sandbox service promises the BOX service

    It runs machines and writes disks, run directories and lineages, but never
    the directory of BOX records.  It may rely on an invariant of its own. *)

Definition sandbox_step {R} (state_dir : path) (ok : R → Prop) : relation (World * R) := λ h h',
  ok h.2 → ok h'.2 ∧ frame (λ q, ¬ boxes_dir state_dir `prefix_of` q) h.1 h'.1.

#[global] Instance sandbox_step_preorder {R} state_dir (ok : R → Prop) : PreOrder (sandbox_step state_dir ok).
Proof.
  split; [by intros h Hh|]. intros h1 h2 h3 H12 H23 Hok. destruct (H12 Hok) as [Hok2 Hf2].
  destruct (H23 Hok2) as [Hok3 Hf3]. split; [done|]. by etrans.
Qed.

Class SandboxServiceLaws (R : Type) `{!SandboxService R} (state_dir : path) := {
  rt_ok : R → Prop;
  rt_create_step spec : keeps (sandbox_step state_dir rt_ok) (rt_create_sandbox spec);
  rt_destroy_step id : keeps (sandbox_step state_dir rt_ok) (rt_destroy_sandbox id);
  rt_list_files_step id p : keeps (sandbox_step state_dir rt_ok) (rt_list_files id p);
  rt_read_file_step id p n : keeps (sandbox_step state_dir rt_ok) (rt_read_file id p n);
  rt_write_file_step id p d c : keeps (sandbox_step state_dir rt_ok) (rt_write_file id p d c);
  rt_make_dir_step id p r : keeps (sandbox_step state_dir rt_ok) (rt_make_dir id p r);
  rt_remove_path_step id p r : keeps (sandbox_step state_dir rt_ok) (rt_remove_path id p r);
  rt_exec_step id e : keeps (sandbox_step state_dir rt_ok) (rt_exec id e);
  rt_open_shell_step id e : keeps (sandbox_step state_dir rt_ok) (rt_open_shell id e);
  rt_stats_step id : keeps (sandbox_step state_dir rt_ok) (rt_runtime_stats id);
  rt_capture_step id n m : keeps (sandbox_step state_dir rt_ok) (rt_capture_workspace_checkpoint id n m);
  rt_destroy_tree id :
    keeps (λ h h' : World * R, tree_world h.1 → tree_world h'.1) (rt_destroy_sandbox id);
}.

(** The lineage is kept outside the directory of BOX records. *)
Class BoxLayout `{Platform} (L : WorkspaceLineageStore) `{!LineageSpec L} (state_dir : path) : Prop := {
  box_layout_store :: StoreLayout L state_dir;
  layout_boxes ws q : boxes_dir state_dir `prefix_of` q → ¬ near (lineage_dir ws) q;
}.

Section ownership.
Context `{PlatformLaws, Ext4, Target, HostLimits, L : WorkspaceLineageStore, !LineageSpec L, Serde VmImageManifest,
          Serde BoxRecord, !SerdeLaws BoxRecord}
  {R : Type} `{!SandboxService R} (state_dir : path) (workspace_config : WorkspaceConfig)
  (default_policy : ExecutionPolicy) (isolation_mode : IsolationMode)
  `{!SandboxServiceLaws R state_dir, !BoxLayout L state_dir}.

Local Abbreviation S := (BoxService (R := R)).
Local Abbreviation stored := (stored_box state_dir).
Implicit Types (s : S) (b : Uuid).

(** Every record is filed under its own identifier, and the sandbox service is
    in order. *)
Definition boxes_ok s : Prop :=
  rt_ok (state_dir := state_dir) (bs_runtime s) ∧ ∀ b r, stored (w_fs (bs_world s)) b = Some r → bx_box_id r = b.

(** The other BOXes are as before: their records and their live sandboxes. *)
Definition others b s s' : Prop := ∀ b', b' ≠ b →
  stored (w_fs (bs_world s')) b' = stored (w_fs (bs_world s)) b' ∧ bs_active s' !! b' = bs_active s !! b'.

(** [own b Q m]: a computation on behalf of the BOX [b].  It keeps records filed
    under their identifiers, leaves the other BOXes alone, and a result has [Q]. *)
Definition own {A} b (Q : A → Prop) (m : M SandboxError S A) : Prop := ∀ s, boxes_ok s →
  boxes_ok (m s).2 ∧ others b s (m s).2 ∧ match (m s).1 with Ok a => Q a | Err _ => True end.

Lemma others_refl b s : others b s s.
Proof. by intros b'. Qed.
Lemma others_trans b s1 s2 s3 : others b s1 s2 → others b s2 s3 → others b s1 s3.
Proof. intros H1' H2' b' Hb. destruct (H1' b' Hb), (H2' b' Hb). split; congruence. Qed.

Lemma own_bind {A B} b (P : A → Prop) (Q : B → Prop) (m : M SandboxError S A) f :
  own b P m → (∀ a, P a → own b Q (f a)) → own b Q (m ≫= f).
Proof.
  intros Hm Hf s Hs. destruct (Hm s Hs) as (Hn & Ho & HP). unfold mbind, M_bind.
  destruct (m s) as [[a|e] s1]; simpl in *; [|done].
  destruct (Hf a HP s1 Hn) as (Hn' & Ho' & HQ). split_and!; [done|by eapply others_trans|done].
Qed.

Lemma own_mono {A} b (P Q : A → Prop) (m : M SandboxError S A) : (∀ a, P a → Q a) → own b P m → own b Q m.
Proof.
  intros HPQ Hm s Hs. destruct (Hm s Hs) as (Hn & Ho & HP). split_and!; [done|done|].
  destruct (m s).1; auto.
Qed.

Lemma own_pure {A} b (Q : A → Prop) (m : M SandboxError S A) :
  (∀ s, (m s).2 = s ∧ match (m s).1 with Ok a => Q a | Err _ => True end) → own b Q m.
Proof.
  intros Hm s Hs. destruct (Hm s) as [-> HQ]. split_and!; [done|apply others_refl|done].
Qed.
Lemma own_ret {A} b (Q : A → Prop) a : Q a → own b Q (mret a).
Proof. intros. by apply own_pure. Qed.
Lemma own_throw {A} b (Q : A → Prop) e : own b Q (throw e).
Proof. by apply own_pure. Qed.
Lemma own_gets {A} b (f : S → A) : own b (λ _, True) (gets f).
Proof. by apply own_pure. Qed.
Lemma own_lift {A} b (r : Result SandboxError A) : own b (λ _, True) (lift r).
Proof. apply own_pure. intros s. split; [done|]. by destruct r. Qed.

Lemma own_attempt {A} b (m : M SandboxError S A) : own b (λ _, True) m → own b (λ _, True) (attempt m).
Proof.
  intros Hm s Hs. destruct (Hm s Hs) as (Hn & Ho & _). unfold attempt. by destruct (m s).
Qed.

(** Changes outside the directory of records. *)
Lemma own_outside {A} b (m : M SandboxError S A) :
  (∀ s, rt_ok (state_dir := state_dir) (bs_runtime s) →
        rt_ok (state_dir := state_dir) (bs_runtime (m s).2) ∧
        (∀ q, boxes_dir state_dir `prefix_of` q → w_fs (bs_world (m s).2) !! q = w_fs (bs_world s) !! q) ∧
        bs_active (m s).2 = bs_active s) → own b (λ _, True) m.
Proof.
  intros Hm s [Hok Hs]. destruct (Hm s Hok) as (Hok' & Hf & Ha).
  assert (Hst : ∀ b', stored (w_fs (bs_world (m s).2)) b' = stored (w_fs (bs_world s)) b').
  { intros b'. apply decode_ext, Hf. unfold boxes_dir, box_path. eexists [_]. by rewrite <-app_assoc. }
  split_and!.
  - split; [done|]. intros b' r. rewrite Hst. apply Hs.
  - intros b' _. by rewrite Hst, Ha.
  - by destruct (m s).1.
Qed.

Lemma own_disk {A} b (P : path → Prop) (m : M SandboxError World A) :
  keeps (frame P) m → (∀ q, boxes_dir state_dir `prefix_of` q → ¬ P q) → own b (λ _, True) (disk m).
Proof.
  intros Hk HP. apply own_outside. intros s Hok. specialize (Hk (bs_world s)). unfold disk, zoom.
  destruct (m (bs_world s)) as [r w]. simpl in *. split_and!; [done| |done]. intros q Hq. by apply Hk, HP.
Qed.

Lemma own_runtime {A} b (m : M SandboxError (World * R) A) :
  keeps (sandbox_step state_dir (rt_ok (state_dir := state_dir))) m → own b (λ _, True) (runtime m).
Proof.
  intros Hk. apply own_outside. intros s Hok. specialize (Hk (bs_world s, bs_runtime s) Hok). unfold runtime, zoom.
  destruct (m _) as [r [w h]]. destruct Hk as [Hok' Hk]. simpl in *. split_and!; [done| |done].
  intros q Hq. apply Hk. tauto.
Qed.

Lemma own_active b (f : gmap Uuid Uuid → gmap Uuid Uuid) :
  (∀ m b', b' ≠ b → f m !! b' = m !! b') →
  own b (λ _, True) (modify (λ s, mkBoxService (bs_world s) (bs_runtime s) (f (bs_active s)))).
Proof. intros Hf s Hs. split_and!; [done| |done]. intros b' Hb. split; [done|]. by apply Hf. Qed.

Lemma own_active_insert b x : own b (λ _, True) (active_insert b x).
Proof. apply (own_active b (λ m, <[b := x]> m)). intros m b' Hb. by apply lookup_insert_ne. Qed.
Lemma own_active_remove b : own b (λ _, True) (active_remove b).
Proof. apply (own_active b (λ m, delete b m)). intros m b' Hb. by apply lookup_delete_ne. Qed.

(** Writing the record of the BOX itself. *)
Lemma own_box_write b r : bx_box_id r = b → own b (λ _, True) (disk (box_write state_dir r)).
Proof.
  intros Hid s [Hok Hs]. pose proof (box_write_effect state_dir r (bs_world s)) as He. unfold disk, zoom.
  destruct (box_write state_dir r (bs_world s)) as [[[]|e] w]; simpl.
  - split_and!; [split; [done|]| |done].
    + intros b' r'. simpl. rewrite He. case_decide; [by intros [= <-]|]. apply Hs.
    + intros b' Hb. simpl. rewrite He. case_decide; [congruence|done].
  - split_and!; [split; [done|]| |done].
    + intros b' r'. simpl. rewrite He. apply Hs.
    + intros b' Hb. simpl. by rewrite He.
Qed.

Lemma own_box_read b : own b (λ r, bx_box_id r = b) (disk (box_read state_dir b)).
Proof.
  intros s Hs. assert (Ho := own_disk b (λ _, False) (box_read state_dir b)
    (box_read_frame state_dir b _) (λ _ _ HF, HF) s Hs).
  destruct Ho as (Hn & Ho & _). split_and!; [done|done|]. unfold disk, zoom.
  destruct (box_read state_dir b (bs_world s)) as [[r|e] w] eqn:Hr; [|done]. simpl.
  apply box_read_ok in Hr as [Hr _]. by apply Hs.
Qed.

Lemma boxes_not_owned ws q : boxes_dir state_dir `prefix_of` q → ¬ owned state_dir ws q.
Proof.
  intros Hq [Hn|Hn]; [|by eapply layout_boxes]. destruct Hq as [k ->]. revert Hn.
  unfold boxes_dir, workspace_dir. intros [[j Hj]|[j Hj]]; rewrite <-!app_assoc in Hj; apply app_inv_head in Hj; done.
Qed.

Lemma own_ws {A} b ws (m : M SandboxError World A) : keeps (frame (owned state_dir ws)) m → own b (λ _, True) (disk m).
Proof. intros Hk. eapply own_disk; [exact Hk|]. apply boxes_not_owned. Qed.

Lemma own_reads {A} b (m : M SandboxError World A) : keeps (frame (λ _, False)) m → own b (λ _, True) (disk m).
Proof. intros Hk. eapply own_disk; [exact Hk|tauto]. Qed.

(** Walks through an operation of the BOX [b]. *)
Ltac own_step :=
  lazymatch goal with
  | |- own _ _ (mbind _ _) =>
      first [eapply own_bind; [solve [eauto with own]|intros ? ?]
            |apply (own_bind _ (λ _, True)); [|intros ? _]]
  | |- own _ _ (mret _) => apply own_ret; try done
  | |- own _ _ (throw _) => apply own_throw
  | |- own _ _ (lift _) => apply own_lift
  | |- own _ _ (gets _) => apply own_gets
  | |- own _ _ (attempt _) => apply own_attempt
  | |- own _ _ (match ?x with _ => _ end) => destruct x
  | |- own _ _ _ => solve [eauto with own]
  end.
Ltac own_tac := cbv zeta; repeat own_step.

Create HintDb own.
Hint Resolve own_active_insert own_active_remove own_box_read own_box_write : own.

Lemma own_now b : own b (λ _, True) (disk now_ms).
Proof. apply own_reads. by intros w. Qed.
Lemma own_stats b id : own b (λ _, True) (runtime (rt_runtime_stats id)).
Proof. apply own_runtime, rt_stats_step. Qed.
Lemma own_destroy b id : own b (λ _, True) (runtime (rt_destroy_sandbox id)).
Proof. apply own_runtime, rt_destroy_step. Qed.
Lemma own_create b spec : own b (λ _, True) (runtime (rt_create_sandbox spec)).
Proof. apply own_runtime, rt_create_step. Qed.
Hint Resolve own_now own_stats own_destroy own_create : own.

Local Abbreviation hydrate := (hydrate_record state_dir workspace_config default_policy isolation_mode).
Local Abbreviation readbox := (read_box state_dir workspace_config default_policy isolation_mode).

Lemma own_disk_size b ws : own b (λ _, True) (disk (workspace_disk_size_mib state_dir ws)).
Proof. apply own_reads. unfold workspace_disk_size_mib. keeps_tac. Qed.
Hint Resolve own_disk_size : own.

Lemma own_hydrate b r : bx_box_id r = b → own b (λ r', bx_box_id r' = b) (hydrate r).
Proof.
  intros Hr. unfold hydrate_record. own_tac; by apply own_box_write.
Qed.
Hint Resolve own_hydrate : own.

Lemma own_read b : own b (λ r, bx_box_id r = b) (readbox b).
Proof. unfold read_box. own_tac. Qed.
Lemma own_set_failed b r msg : bx_box_id r = b → own b (λ _, True) (set_failed state_dir r msg).
Proof. intros Hr. unfold set_failed. rewrite Hr. own_tac; by apply own_box_write. Qed.
Lemma own_mark_stopped b r : bx_box_id r = b → own b (λ _, True) (mark_stopped state_dir r).
Proof. intros Hr. unfold mark_stopped. rewrite Hr. own_tac; by apply own_box_write. Qed.
Lemma own_known b r : own b (λ _, True) (known_sandbox b r).
Proof. unfold known_sandbox. own_tac. Qed.
Hint Resolve own_read own_set_failed own_mark_stopped own_known : own.

Lemma own_attach b r : bx_box_id r = b → own b (λ r', bx_box_id r' = b)
  (attach_runtime_usage state_dir workspace_config default_policy isolation_mode r).
Proof.
  intros Hr. unfold attach_runtime_usage. cbn [bx_box_id with_usage]. rewrite Hr. own_tac;
    apply own_set_failed; done.
Qed.
Lemma own_ensure b : own b (λ _, True) (ensure_runtime state_dir workspace_config default_policy isolation_mode b).
Proof. unfold ensure_runtime. own_tac. Qed.
Lemma own_running b : own b (λ _, True) (running_sandbox_id state_dir workspace_config default_policy isolation_mode b).
Proof. unfold running_sandbox_id. own_tac. Qed.
Hint Resolve own_attach own_ensure own_running : own.

Lemma own_apply_setting b st v : own b (λ _, True) (apply_setting state_dir workspace_config b st v).
Proof.
  unfold apply_setting. destruct v; own_tac. eapply own_ws, resize_frame; typeclasses eauto.
Qed.
Hint Resolve own_apply_setting : own.

Lemma own_set_box_setting b v :
  own b (λ r, bx_box_id r = b) (set_box_setting state_dir workspace_config default_policy isolation_mode b v).
Proof. unfold set_box_setting. own_tac. Qed.
Lemma own_start b :
  own b (λ r, bx_box_id r = b) (start_box state_dir workspace_config default_policy isolation_mode b).
Proof. unfold start_box. own_tac. Qed.
Lemma own_stop b :
  own b (λ r, bx_box_id r = b) (stop_box state_dir workspace_config default_policy isolation_mode b).
Proof. unfold stop_box. own_tac. Qed.
Hint Resolve own_set_box_setting own_start own_stop : own.

Lemma own_box_remove b : own b (λ _, True) (disk (box_remove state_dir b)).
Proof.
  intros s [Hok Hs]. pose proof (box_remove_effect state_dir b (bs_world s)) as He. unfold disk, zoom.
  destruct (box_remove state_dir b (bs_world s)) as [[[]|e] w]; simpl.
  - split_and!; [split; [done|]| |done].
    + intros b' r. simpl. rewrite He, stored_removed. case_decide; [done|]. apply Hs.
    + intros b' Hb. simpl. rewrite He, stored_removed. by case_decide.
  - split_and!; [split; [done|]| |done].
    + intros b' r. simpl. rewrite He. apply Hs.
    + intros b' Hb. simpl. by rewrite He.
Qed.
Lemma own_remove_ws b ws : own b (λ _, True) (disk (remove_workspace state_dir ws)).
Proof. eapply own_ws, remove_frame; typeclasses eauto. Qed.
Hint Resolve own_box_remove own_remove_ws : own.

Lemma own_remove b :
  own b (λ _, True) (remove_box state_dir workspace_config default_policy isolation_mode b).
Proof.
  unfold remove_box. eapply own_bind; [apply own_read|intros r0 H0'].
  eapply own_bind; [instantiate (1 := λ r, bx_box_id r = b); own_tac|intros r Hr]. own_tac.
Qed.

Lemma own_checkpoint_list b :
  own b (λ _, True) (checkpoint_list state_dir workspace_config default_policy isolation_mode b).
Proof.
  unfold checkpoint_list. own_tac. apply own_reads. unfold store_list_checkpoints. keeps_tac.
Qed.
Lemma own_checkpoint_delete b c :
  own b (λ _, True) (checkpoint_delete state_dir workspace_config default_policy isolation_mode b c).
Proof. unfold checkpoint_delete. own_tac. eapply own_ws, delete_checkpoint_frame; typeclasses eauto. Qed.
Lemma own_checkpoint_restore b c mode :
  own b (λ _, True) (checkpoint_restore state_dir workspace_config default_policy isolation_mode b c mode).
Proof. unfold checkpoint_restore. own_tac. eapply own_ws, restore_frame; typeclasses eauto. Qed.

(** The requests of [BoxManager] that name one BOX. *)
Inductive BoxOp :=
  | BxGet | BxSet (v : BoxSettingValue) | BxStart | BxStop | BxRemove
  | BxListFiles (p : string) | BxReadFile (p : string) (limit : Z)
  | BxWriteFile (p : string) (data : bytes) (create_parents : bool)
  | BxMakeDir (p : string) (recursive : bool) | BxRemovePath (p : string) (recursive : bool)
  | BxExec (request : ExecRequest) | BxOpenShell (request : ShellRequest)
  | BxCheckpointCreate (name : option string) (metadata : gmap string string)
  | BxCheckpointList | BxCheckpointRestore (checkpoint : string) (mode : CheckpointRestoreMode)
  | BxCheckpointDelete (checkpoint : string).

Definition run_box_op b (op : BoxOp) : M SandboxError S () :=
  let u {A} (m : M SandboxError S A) : M SandboxError S () := m ≫= λ _, mret () in
  match op with
  | BxGet => u (get_box state_dir workspace_config default_policy isolation_mode b)
  | BxSet v => u (set_box_setting state_dir workspace_config default_policy isolation_mode b v)
  | BxStart => u (start_box state_dir workspace_config default_policy isolation_mode b)
  | BxStop => u (stop_box state_dir workspace_config default_policy isolation_mode b)
  | BxRemove => remove_box state_dir workspace_config default_policy isolation_mode b
  | BxListFiles p => u (box_list_files state_dir workspace_config default_policy isolation_mode b p)
  | BxReadFile p n => u (box_read_file state_dir workspace_config default_policy isolation_mode b p n)
  | BxWriteFile p d c => box_write_file state_dir workspace_config default_policy isolation_mode b p d c
  | BxMakeDir p r => box_make_dir state_dir workspace_config default_policy isolation_mode b p r
  | BxRemovePath p r => box_remove_path state_dir workspace_config default_policy isolation_mode b p r
  | BxExec e => u (box_exec state_dir workspace_config default_policy isolation_mode b e)
  | BxOpenShell e => u (box_open_shell state_dir workspace_config default_policy isolation_mode b e)
  | BxCheckpointCreate n m => u (checkpoint_create state_dir workspace_config default_policy isolation_mode b n m)
  | BxCheckpointList => u (checkpoint_list state_dir workspace_config default_policy isolation_mode b)
  | BxCheckpointRestore c m => u (checkpoint_restore state_dir workspace_config default_policy isolation_mode b c m)
  | BxCheckpointDelete c => checkpoint_delete state_dir workspace_config default_policy isolation_mode b c
  end.

Hint Resolve own_remove own_checkpoint_list own_checkpoint_delete own_checkpoint_restore : own.

Lemma own_get b : own b (λ r, bx_box_id r = b) (get_box state_dir workspace_config default_policy isolation_mode b).
Proof. unfold get_box. own_tac. Qed.
Hint Resolve own_get : own.

Lemma own_run b op : own b (λ _, True) (run_box_op b op).
Proof.
  destruct op; cbn [run_box_op];
    unfold box_list_files, box_read_file, box_write_file, box_make_dir, box_remove_path, box_exec,
      box_open_shell, checkpoint_create; own_tac; apply own_runtime;
    auto using rt_list_files_step, rt_read_file_step, rt_write_file_step, rt_make_dir_step,
      rt_remove_path_step, rt_exec_step, rt_open_shell_step, rt_capture_step.
Qed.

(** Creating a BOX is an operation of the BOX whose identifier it draws. *)
Lemma own_create_record name image settings s :
  boxes_ok s →
  let b := entropy (w_draws (bs_world s)) in
  let m := create_box_record state_dir workspace_config default_policy isolation_mode name image settings in
  boxes_ok (m s).2 ∧ others b s (m s).2.
Proof.
  intros Hs. cbv zeta. set (b := entropy _). unfold create_box_record.
  set (s1 := mkBoxService (mkWorld (w_fs (bs_world s)) (w_faults (bs_world s)) (Datatypes.S (w_draws (bs_world s)))
                             (w_ticks (bs_world s))) (bs_runtime s) (bs_active s)).
  assert (Hd : disk (new_v4 (E := SandboxError)) s = (Ok b, s1)) by done.
  erewrite bind_ok by exact Hd.
  match goal with |- context [?m s1] => enough (own b (λ _, True) m) as Hm end.
  { destruct (Hm s1) as (Hn & Ho & _); [exact Hs|]. by split. }
  own_tac. eapply own_ws, prepare_frame; typeclasses eauto.
Qed.

End ownership.
