(* ===== verification/BoxLifecycle.v ===== *)
(** * BoxLifecycle: what the operations of the BOX service achieve

    The behaviour of [start_box], [stop_box], [remove_box] and of the restart
    of [src/boxes/service/mod.rs] and [src/boxes/helpers.rs] on the record, the
    table of live sandboxes and the disk. *)

From S2P Require Import Prelude RustStd Paths FileSystem PrivateFs FsTree Manifest Config Lineage Workspace Images Protocol Runtime BoxStore Boxes.

Section lifecycle.
Context `{PlatformLaws, Ext4, Target, HostLimits, L : WorkspaceLineageStore, !LineageSpec L, Serde VmImageManifest,
          Serde BoxRecord, !SerdeLaws BoxRecord}
  {R : Type} `{!SandboxService R} (state_dir : path) (workspace_config : WorkspaceConfig)
  (default_policy : ExecutionPolicy) (isolation_mode : IsolationMode)
  `{!SandboxServiceLaws R state_dir, !BoxLayout L state_dir}.

Local Abbreviation S := (BoxService (R := R)).
Local Abbreviation stored s := (stored_box state_dir (w_fs (bs_world s))).
Local Abbreviation named s := (boxes_ok state_dir s).
Local Abbreviation hydrate := (hydrate_record state_dir workspace_config default_policy isolation_mode).
Local Abbreviation readbox := (read_box state_dir workspace_config default_policy isolation_mode).
Local Abbreviation stop := (stop_box state_dir workspace_config default_policy isolation_mode).
Implicit Types (s : S) (b : Uuid).

(** The store holds [r], up to the runtime usage, which is not written. *)
Definition filed s (r : BoxRecord) : Prop :=
  ∃ r0, stored s (bx_box_id r) = Some r0 ∧ persisted r0 = persisted r.

Lemma persisted_idem r : persisted (persisted r) = persisted r.
Proof. done. Qed.

Lemma disk_ok {A} (m : M SandboxError World A) s a s' :
  disk m s = (Ok a, s') →
  m (bs_world s) = (Ok a, bs_world s') ∧ bs_runtime s' = bs_runtime s ∧ bs_active s' = bs_active s.
Proof. unfold disk, zoom. destruct (m (bs_world s)) as [r w]. by intros [= -> <-]. Qed.

Lemma own_named {A} b (Q : A → Prop) (m : M SandboxError S A) s u s' :
  own state_dir b Q m → named s → m s = (u, s') → named s'.
Proof. intros Hm Hn Hr. destruct (Hm s Hn) as (Hn' & _). by rewrite Hr in Hn'. Qed.

(** A computation that leaves the records, the table and the sandboxes alone. *)
Definition unchanged s s' : Prop :=
  (∀ b, stored s' b = stored s b) ∧ bs_active s' = bs_active s ∧ bs_runtime s' = bs_runtime s.

#[local] Instance unchanged_preorder : PreOrder unchanged.
Proof. split; [by intros s|]. intros x y z (?&?&?) (?&?&?). split_and!; intros; congruence. Qed.

Lemma unchanged_disk {A} (m : M SandboxError World A) : keeps (frame (λ _, False)) m → keeps unchanged (disk m).
Proof.
  intros Hm s. specialize (Hm (bs_world s)). unfold disk, zoom. destruct (m (bs_world s)) as [r w].
  split_and!; [|done|done]. intros b. cbn. by apply decode_ext, Hm; intros [].
Qed.

Lemma unchanged_filed s s' r : unchanged s s' → filed s r → filed s' r.
Proof. intros (Hs & _) (r0 & Hr0 & Hp). exists r0. by rewrite Hs. Qed.

Lemma persist_ok r s u s' :
  disk (box_write state_dir r) s = (Ok u, s') →
  stored s' (bx_box_id r) = Some (persisted r) ∧ bs_runtime s' = bs_runtime s ∧ bs_active s' = bs_active s.
Proof.
  intros (Hw & Hr & Ha)%disk_ok. pose proof (box_write_effect state_dir r (bs_world s)) as He.
  rewrite Hw in He. by rewrite He, decide_True.
Qed.

Lemma write_filed r s u s' : disk (box_write state_dir r) s = (Ok u, s') → filed s' r.
Proof. intros (Hs & _)%persist_ok. exists (persisted r). by rewrite persisted_idem. Qed.

(** Hydrating changes the settings only, and files what it returns. *)
Lemma hydrate_ok r s r' s' :
  hydrate r s = (Ok r', s') →
  r' = with_settings r (bx_settings r') ∧ bs_active s' = bs_active s ∧ bs_runtime s' = bs_runtime s ∧
  (filed s r → filed s' r').
Proof.
  unfold hydrate_record. intros Hr.
  apply (bind_ok_keeps unchanged) in Hr as (size & s1 & U1 & _ & Hr).
  2: { apply keeps_attempt, unchanged_disk. unfold workspace_disk_size_mib. keeps_tac. }
  apply bind_ok_inv in Hr as (w & s2 & [-> <-]%gets_ok_inv & Hr). cbv zeta in Hr.
  apply bind_ok_inv in Hr as (st & s3 & [_ <-]%lift_ok_inv & Hr).
  apply bind_ok_inv in Hr as ([] & s4 & Hw & Hr). apply ret_ok_inv in Hr as [<- <-].
  destruct U1 as (U1 & Ua & Ur). case_decide as Hd.
  - pose proof (write_filed _ _ _ _ Hw) as Hf. apply persist_ok in Hw as (_ & -> & ->).
    split_and!; [done|congruence|congruence|done].
  - apply ret_ok_inv in Hw as [_ <-]. split_and!; [done|congruence|congruence|].
    rewrite Hd. intros Hf. eapply unchanged_filed, Hf. by split_and!.
Qed.

(** What reading a BOX returns. *)
Lemma fetch_ok b s r s' :
  named s → readbox b s = (Ok r, s') →
  bx_box_id r = b ∧ named s' ∧ filed s' r ∧ bs_active s' = bs_active s ∧ bs_runtime s' = bs_runtime s ∧
  ∃ r0, stored s b = Some r0 ∧ r = with_settings r0 (bx_settings r).
Proof.
  intros Hn Hr. destruct (own_read state_dir workspace_config default_policy isolation_mode b s Hn) as (Hn' & _ & Hid).
  rewrite Hr in Hn', Hid. cbn in Hn', Hid. split; [done|]. split; [done|].
  unfold read_box in Hr. apply bind_ok_inv in Hr as (r0 & s1 & Hr0 & Hh).
  pose proof (disk_ok _ _ _ _ Hr0) as (Hrd & Hr1 & Ha1). apply box_read_ok in Hrd as [Hst Hfs].
  assert (Hid0 : bx_box_id r0 = b) by (by apply Hn).
  apply hydrate_ok in Hh as (Hw & Ha & Hrt & Hf). split_and!; [|congruence|congruence|by exists r0].
  apply Hf. exists r0. rewrite Hfs, Hid0. done.
Qed.

Lemma runtime_any {A} (m : M SandboxError (World * R) A) s :
  bs_active (attempt (E := SandboxError) (F := SandboxError) (runtime m) s).2 = bs_active s.
Proof. unfold attempt, runtime, zoom. by destruct (m _) as [? []]. Qed.

(** ** Stopping *)

(** a stop that reports success, also when the sandbox had already gone,
    leaves the BOX stopped: the record it returns and the one on disk say so,
    with no sandbox and no error, and the table of live sandboxes has forgotten
    the BOX. *)
Theorem stop_box_stops b s r s' :
  named s → stop b s = (Ok r, s') →
  bx_box_id r = b ∧ bx_status r = BStopped ∧ bx_active_sandbox_id r = None ∧ bx_last_error r = None ∧
  is_Some (bx_last_stop_at_ms r) ∧ filed s' r ∧ bs_active s' !! b = None.
Proof.
  intros Hn Hr. unfold stop_box in Hr.
  apply bind_ok_inv in Hr as (r0 & s1 & Hr0 & Hr). apply fetch_ok in Hr0 as (Hid & Hn1 & _); [|done].
  case_decide; [done|].
  apply bind_ok_inv in Hr as (sb & s2 & Hsb & Hr).
  pose proof (own_named b _ _ _ _ _ (own_running state_dir _ _ _ b) Hn1 Hsb) as Hn2.
  apply bind_ok_inv in Hr as (d & s3 & Hd & Hr).
  pose proof (own_named b _ _ _ _ _ (own_attempt state_dir b _ (own_destroy state_dir b sb)) Hn2 Hd) as Hn3.
  clear Hd Hsb. destruct d as [rec|e].
  - apply bind_ok_inv in Hr as ([] & s4 & ->%modify_ok_inv & Hr).
    apply bind_ok_inv in Hr as (now & s5 & Hnow & Hr). apply disk_ok in Hnow as (_ & _ & Ha5).
    cbv zeta in Hr. apply bind_ok_inv in Hr as ([] & s6 & Hw & Hr). apply ret_ok_inv in Hr as [<- <-].
    pose proof (write_filed _ _ _ _ Hw) as Hf. apply persist_ok in Hw as (_ & _ & Ha6).
    split_and!; cbn; eauto. rewrite Ha6, Ha5. cbn. apply lookup_delete_eq.
  - destruct (missing_runtime_session e); [|by apply bind_ok_inv in Hr as (? & ? & _ & ?)].
    apply bind_ok_inv in Hr as ([] & s4 & Hm & Hr).
    pose proof (own_named b _ _ _ _ _ (own_mark_stopped state_dir b r0 Hid) Hn3 Hm) as Hn4.
    unfold mark_stopped in Hm. apply bind_ok_inv in Hm as (now & s5 & Hnow & Hm).
    apply bind_ok_inv in Hm as ([] & s6 & ->%modify_ok_inv & Hw).
    apply persist_ok in Hw as (Hst & _ & Ha4). cbn in Hst, Ha4. rewrite Hid in Hst, Ha4.
    apply fetch_ok in Hr as (Hidr & _ & Hf & Ha & _ & r1 & Hr1 & Hrw); [|done].
    rewrite Hst in Hr1. injection Hr1 as <-.
    split_and!; [done|by rewrite Hrw|by rewrite Hrw|by rewrite Hrw|rewrite Hrw; cbn; eauto|done|].
    rewrite Ha, Ha4. apply lookup_delete_eq.
Qed.

(** ** The directory tree *)

(** The files still form a tree. *)
Definition tree_kept s s' : Prop := tree_world (bs_world s) → tree_world (bs_world s').

#[local] Instance tree_kept_preorder : PreOrder tree_kept.
Proof. split; [by intros s|]. intros x y z ? ?. unfold tree_kept in *. auto. Qed.

Lemma tree_disk {A} (m : M SandboxError World A) : keeps (preserves tree_world) m → keeps tree_kept (disk m).
Proof. apply keeps_zoom. intros s w Hw. exact Hw. Qed.
Lemma tree_active_insert b x : keeps tree_kept (active_insert b x : M SandboxError S ()).
Proof. intros s Hs. exact Hs. Qed.
Lemma tree_active_remove b : keeps tree_kept (active_remove b : M SandboxError S ()).
Proof. intros s Hs. exact Hs. Qed.
Lemma tree_box_write r : keeps tree_kept (disk (box_write state_dir r) : M SandboxError S ()).
Proof. apply tree_disk. unfold box_write, boxes_ensure_layout. keeps_tac. Qed.
Lemma tree_now : keeps tree_kept (disk now_ms : M SandboxError S Z).
Proof. apply tree_disk. keeps_tac. Qed.
Hint Resolve tree_active_insert tree_active_remove tree_box_write tree_now : keeps.

Lemma tree_hydrate r : keeps tree_kept (hydrate r).
Proof.
  unfold hydrate_record. keeps_tac. apply tree_disk. unfold workspace_disk_size_mib. keeps_tac.
Qed.
Hint Resolve tree_hydrate : keeps.
Lemma tree_readbox b : keeps tree_kept (readbox b).
Proof. unfold read_box. keeps_tac. apply tree_disk. unfold box_read, read_path. keeps_tac. Qed.
Hint Resolve tree_readbox : keeps.

Lemma tree_stop b : keeps tree_kept (stop b).
Proof.
  unfold stop_box, running_sandbox_id, known_sandbox, set_failed, mark_stopped. keeps_tac.
  all: apply (keeps_zoom _ (λ h h' : World * R, tree_world h.1 → tree_world h'.1)); [by intros ? []|].
  all: apply (rt_destroy_tree (state_dir := state_dir)).
Qed.
Hint Resolve tree_stop : keeps.

(** ** Removing *)

(** a removal that reports success leaves nothing of the BOX: its record is
    gone from the store, no sandbox is attached to it, and the directories of
    its workspace and of its checkpoints are gone from the disk. *)
Theorem remove_box_complete b s s' :
  named s → tree_world (bs_world s) →
  remove_box state_dir workspace_config default_policy isolation_mode b s = (Ok (), s') →
  stored s' b = None ∧ bs_active s' !! b = None ∧
  ∀ q, workspace_dir state_dir (box_ws b) `prefix_of` q ∨ workspace_checkpoints_dir state_dir (box_ws b) `prefix_of` q →
       w_fs (bs_world s') !! q = None.
Proof.
  intros Hn Ht Hr. unfold remove_box in Hr.
  apply (bind_ok_keeps tree_kept) in Hr as (r0 & s1 & T1 & _ & Hr); [|keeps_tac].
  apply (bind_ok_keeps tree_kept) in Hr as (r & s2 & T2 & _ & Hr); [|keeps_tac].
  apply (bind_ok_keeps tree_kept) in Hr as (_ & s3 & T3 & _ & Hr); [|keeps_tac].
  apply bind_ok_inv in Hr as ([] & s4 & Hws & Hr). apply disk_ok in Hws as (Hws & _ & _).
  apply bind_ok_inv in Hr as ([] & s5 & ->%modify_ok_inv & Hrm). apply disk_ok in Hrm as (Hrm & _ & Ha).
  pose proof (box_remove_effect state_dir b (bs_world s4)) as He. cbn in Hrm, Ha. rewrite Hrm in He.
  rewrite He, stored_removed, decide_True, Ha by done. split_and!; [done|apply lookup_delete_eq|].
  intros q Hq. apply lookup_delete_None. right.
  refine (remove_workspace_gone _ _ _ _ _ Hws q Hq). by apply T3, T2, T1.
Qed.

(** ** Starting *)

Local Abbreviation attach := (attach_runtime_usage state_dir workspace_config default_policy isolation_mode).

Lemma set_failed_ok r msg s u s' :
  set_failed state_dir r msg s = (Ok u, s') →
  stored s' (bx_box_id r) = Some (persisted (with_status r BFailed None (Some msg))) ∧
  bs_active s' = delete (bx_box_id r) (bs_active s) ∧ bs_runtime s' = bs_runtime s.
Proof.
  unfold set_failed. intros Hr. apply bind_ok_inv in Hr as ([] & s1 & ->%modify_ok_inv & Hw).
  by apply persist_ok in Hw as (Hst & Hrt & Ha).
Qed.

(** A BOX that has failed and holds no sandbox. *)
Definition failed b s (r : BoxRecord) : Prop :=
  bx_box_id r = b ∧ bx_status r = BFailed ∧ bx_active_sandbox_id r = None ∧ is_Some (bx_last_error r) ∧ filed s r ∧
  bs_active s !! b = None.

Lemma failed_read b r msg s0 s r' s' :
  bx_box_id r = b → named s0 →
  set_failed state_dir r msg s0 = (Ok (), s) → readbox b s = (Ok r', s') →
  failed b s' r' ∧ bs_runtime s' = bs_runtime s0.
Proof.
  intros Hid Hn Hf Hr.
  pose proof (own_named b _ _ _ _ _ (own_set_failed state_dir b r msg Hid) Hn Hf) as Hn1.
  apply set_failed_ok in Hf as (Hst & Ha & Hrt).
  apply fetch_ok in Hr as (Hid' & _ & Hf' & Ha' & Hrt' & r1 & Hr1 & Hrw); [|done].
  rewrite <-Hid in Hr1. rewrite Hst in Hr1. injection Hr1 as <-. split; [|congruence].
  split_and!; [done|by rewrite Hrw|by rewrite Hrw|rewrite Hrw; cbn; eauto|done|].
  rewrite Ha', Ha, Hid. apply lookup_delete_eq.
Qed.

(** Attaching the usage of a running BOX: it either leaves the record running,
    or marks the BOX failed.  The sandboxes only ever answer [runtime_stats]. *)
Lemma attach_ok b r s r' s' :
  named s → filed s r → bx_box_id r = b → bx_status r = BRunning → attach r s = (Ok r', s') →
  ((∃ u, r' = with_usage r (Some u)) ∧ filed s' r' ∧ bs_active s' = bs_active s ∨ failed b s' r') ∧
  ∀ I : R → Prop, (∀ id h, I h.2 → I (rt_runtime_stats id h).2.2) → I (bs_runtime s) → I (bs_runtime s').
Proof.
  intros Hn Hf Hid Hrun. unfold attach_runtime_usage. cbv zeta. cbn [bx_status bx_box_id with_usage].
  rewrite decide_False by tauto. rewrite Hid. intros Hr.
  apply bind_ok_inv in Hr as (sb & s1 & Hsb & Hr).
  assert (s1 = s) as ->.
  { revert Hsb. unfold known_sandbox. cbn. destruct (bx_active_sandbox_id r); [by intros [= _ <-]|by intros [= _ <-]]. }
  destruct sb as [sb|].
  2: { apply bind_ok_inv in Hr as ([] & s2 & Hsf & Hr).
       destruct (failed_read b _ _ _ _ _ _ Hid Hn Hsf Hr) as [Hfl ->]. split; [by right|auto]. }
  apply bind_ok_inv in Hr as (st & s2 & Hst & Hr).
  pose proof (own_named b _ _ _ _ _ (own_attempt state_dir b _ (own_stats state_dir b sb)) Hn Hst) as Hn2.
  assert (Hs2 : (∀ b, stored s2 b = stored s b) ∧ bs_active s2 = bs_active s ∧
                bs_runtime s2 = (rt_runtime_stats sb (bs_world s, bs_runtime s)).2.2).
  { revert Hst. pose proof (rt_stats_step (state_dir := state_dir) sb (bs_world s, bs_runtime s) (proj1 Hn)) as [_ Hfr].
    unfold attempt, runtime, zoom. destruct (rt_runtime_stats sb _) as [x [w h]]. intros [= _ <-]. cbn in *.
    split_and!; [|done|done]. intros b'. apply decode_ext, Hfr. intros Hp. apply Hp.
    unfold boxes_dir, box_path. eexists [_]. by rewrite <-app_assoc. }
  destruct Hs2 as (Hst2 & Ha2 & Hr2). destruct st as [st|e].
  - apply ret_ok_inv in Hr as [<- <-]. split; [left|by rewrite Hr2; auto]. split_and!; [eauto| |done].
    destruct Hf as (r0 & Hr0 & Hp). exists r0. cbn in *. by rewrite Hst2.
  - apply bind_ok_inv in Hr as ([] & s3 & Hsf & Hr).
    destruct (failed_read b _ _ _ _ _ _ Hid Hn2 Hsf Hr) as [Hfl ->]. split; [by right|rewrite Hr2; auto].
Qed.

(** a start that reports success has the BOX running in a sandbox that the
    record, the store and the table of live sandboxes agree on, or, when that
    sandbox does not answer right away, it has the BOX failed, with the reason
    in the record and no sandbox attached.  There is nothing in between. *)
Theorem start_box_outcome b s r s' :
  named s → start_box state_dir workspace_config default_policy isolation_mode b s = (Ok r, s') →
  (bx_status r = BRunning ∧ bx_last_error r = None ∧ filed s' r ∧ is_Some (bx_runtime_usage r) ∧
   ∃ sandbox, bx_active_sandbox_id r = Some sandbox ∧ bs_active s' !! b = Some sandbox) ∨
  failed b s' r.
Proof.
  intros Hn Hr. unfold start_box in Hr.
  apply bind_ok_inv in Hr as (r0 & s1 & Hr0 & Hr). apply fetch_ok in Hr0 as (Hid & Hn1 & _); [|done].
  case_decide; [done|].
  apply bind_ok_inv in Hr as (d & s2 & Hd & Hr).
  pose proof (own_named b _ _ _ _ _ (own_attempt state_dir b _ (own_create state_dir b _)) Hn1 Hd) as Hn2.
  clear Hd. destruct d as [session|e]; [|by apply bind_ok_inv in Hr as (? & ? & _ & ?)].
  apply bind_ok_inv in Hr as ([] & s3 & ->%modify_ok_inv & Hr).
  apply bind_ok_inv in Hr as (now & s4 & Hnow & Hr).
  assert (Hn4 : named s4) by (eapply (own_named b); [apply own_now| |exact Hnow]; exact Hn2).
  apply disk_ok in Hnow as (_ & _ & Ha4). cbv zeta in Hr.
  apply bind_ok_inv in Hr as ([] & s5 & Hw & Hr).
  set (r1 := with_start _ now) in *.
  assert (Hid1 : bx_box_id r1 = b) by done.
  pose proof (own_named b _ _ _ _ _ (own_box_write state_dir b r1 Hid1) Hn4 Hw) as Hn5.
  pose proof (write_filed _ _ _ _ Hw) as Hf5. apply persist_ok in Hw as (_ & _ & Ha5).
  destruct (attach_ok b r1 s5 r s' Hn5 Hf5 Hid1 eq_refl Hr) as [[((u & ->) & Hf & Ha)|Hfl] _]; [left|by right].
  cbn. split_and!; [done|done|done|eauto|]. exists (ss_sandbox_id session). split; [done|].
  rewrite Ha, Ha5, Ha4. cbn. apply lookup_insert_eq.
Qed.

(** one failed answer to [runtime_stats] is enough for [get_box] to give a
    running BOX up: the record and the table of live sandboxes forget the
    sandbox, but nothing destroys it.  Whatever holds of the sandbox service
    and survives a [runtime_stats] call, such as the sandbox being active,
    still holds. *)
Theorem failed_stats_orphan_sandbox b s r s' (I : R → Prop) :
  named s →
  get_box state_dir workspace_config default_policy isolation_mode b s = (Ok r, s') →
  (∃ r0, stored s b = Some r0 ∧ bx_status r0 = BRunning) → bx_status r ≠ BRunning →
  (∀ id h, I h.2 → I (rt_runtime_stats id h).2.2) → I (bs_runtime s) →
  failed b s' r ∧ I (bs_runtime s').
Proof.
  intros Hn Hr (r0 & Hr0 & Hrun) Hnot HI Hs. unfold get_box in Hr.
  apply bind_ok_inv in Hr as (r1 & s1 & Hrd & Hr).
  apply fetch_ok in Hrd as (Hid & Hn1 & Hf1 & _ & Hrt1 & r0' & Hr0' & Hrw); [|done].
  rewrite Hr0 in Hr0'. injection Hr0' as <-.
  assert (Hrun1 : bx_status r1 = BRunning) by (rewrite Hrw; exact Hrun).
  destruct (attach_ok b r1 s1 r s' Hn1 Hf1 Hid Hrun1 Hr) as [[((u & ->) & _)|Hfl] HIs].
  - by destruct Hnot.
  - split; [done|]. apply HIs; [done|]. by rewrite Hrt1.
Qed.

(** ** The restart of the daemon *)

(** Changes to no record. *)
Lemma unchanged_elsewhere {A} (m : M SandboxError World A) :
  keeps (frame (λ q, ∀ b, q ≠ box_path state_dir b)) m → keeps unchanged (disk m).
Proof.
  intros Hm s. specialize (Hm (bs_world s)). unfold disk, zoom. destruct (m (bs_world s)) as [r w].
  split_and!; [|done|done]. intros b. cbn. apply decode_ext, Hm. intros Hp. by apply (Hp b).
Qed.

(** A directory above no record. *)
Lemma dir_not_box name q b : q `prefix_of` state_dir ++ [name] → q ≠ box_path state_dir b.
Proof. intros Hq%prefix_length ->. revert Hq. unfold box_path. rewrite !length_app. cbn. lia. Qed.
Lemma vsock_not_box q b : q `prefix_of` vsock_dir → q ≠ box_path state_dir b.
Proof.
  unfold vsock_dir, box_path. intros [k Hk] ->. clear BoxLayout0 SandboxServiceLaws0. destruct state_dir as [|x [|y l]]; [done|done|].
  apply (f_equal length) in Hk. rewrite !length_app in Hk. cbn in Hk. lia.
Qed.

Lemma layout_frame : keeps (frame (λ q, ∀ b, q ≠ box_path state_dir b)) (ensure_layout state_dir).
Proof.
  unfold ensure_layout. apply keeps_for_each; [typeclasses eauto|]. intros d Hd. apply create_private_dir_frame.
  intros q Hq b. revert Hd. rewrite !elem_of_cons, elem_of_nil.
  intros [->|[->|[->|[->|[]]]]]; [by eapply dir_not_box..|by apply vsock_not_box].
Qed.

Lemma new_layout_unchanged :
  keeps unchanged (disk (boxes_ensure_layout state_dir) : M SandboxError S ()) ∧
  keeps unchanged (disk (ensure_layout state_dir) : M SandboxError S ()).
Proof.
  split; apply unchanged_elsewhere.
  - apply keeps_map_err, keeps_create_dir_all. intros q Hq b. by eapply dir_not_box.
  - apply layout_frame.
Qed.

(** Every BOX stored as running is one of [todo]. *)
Definition running_in (todo : list BoxRecord) s : Prop := ∀ b x,
  stored s b = Some x → bx_status x = BRunning → ∃ r, r ∈ todo ∧ bx_box_id r = b ∧ bx_status r = BRunning.

Lemma running_unchanged todo s s' : unchanged s s' → running_in todo s → running_in todo s'.
Proof. intros (Hs & _) Hr b x. rewrite Hs. apply Hr. Qed.

(** One of them, written. *)
Lemma running_written r todo s u s' :
  disk (box_write state_dir r) s = (u, s') → running_in (r :: todo) s → running_in (r :: todo) s'.
Proof.
  intros Hw Hin b x. pose proof (box_write_effect state_dir r (bs_world s)) as He.
  revert Hw. unfold disk, zoom. destruct (box_write state_dir r (bs_world s)) as [[[]|e] w]; intros [= <- <-].
  - cbn. rewrite He. case_decide; [|apply Hin]. intros [= <-] Hrun. exists r. rewrite elem_of_cons. naive_solver.
  - cbn. rewrite He. apply Hin.
Qed.

(** Only the status and the identifier of the listed records matter. *)
Lemma running_head r r' todo s :
  bx_box_id r' = bx_box_id r → bx_status r' = bx_status r → running_in (r :: todo) s → running_in (r' :: todo) s.
Proof.
  intros Hid Hst Hin b x Hx Hrun. destruct (Hin b x Hx Hrun) as (y & [->|Hy]%elem_of_cons & Hyb & Hys).
  - exists r'. rewrite elem_of_cons, Hid, Hst. naive_solver.
  - exists y. rewrite elem_of_cons. naive_solver.
Qed.

Lemma running_drop r todo s : bx_status r ≠ BRunning → running_in (r :: todo) s → running_in todo s.
Proof.
  intros Hr Hin b x Hx Hrun. destruct (Hin b x Hx Hrun) as (y & [->|Hy]%elem_of_cons & Hyb & Hys); [done|eauto].
Qed.

Lemma hydrate_running r todo s r' s' :
  hydrate r s = (Ok r', s') → running_in (r :: todo) s → running_in (r' :: todo) s'.
Proof.
  unfold hydrate_record. intros Hr Hin.
  apply (bind_ok_keeps unchanged) in Hr as (size & s1 & U1 & _ & Hr).
  2: { apply keeps_attempt, unchanged_disk. unfold workspace_disk_size_mib. keeps_tac. }
  apply bind_ok_inv in Hr as (w & s2 & [-> <-]%gets_ok_inv & Hr). cbv zeta in Hr.
  apply bind_ok_inv in Hr as (st & s3 & [_ <-]%lift_ok_inv & Hr).
  apply bind_ok_inv in Hr as ([] & s4 & Hw & Hr). apply ret_ok_inv in Hr as [<- <-].
  apply (running_unchanged _ _ _ U1), (running_head _ (with_settings r st)) in Hin; [|done..].
  case_decide; [by eapply running_written|]. by apply ret_ok_inv in Hw as [_ <-].
Qed.

Lemma reconcile_record_step r todo s u s' :
  reconcile_record state_dir workspace_config default_policy isolation_mode r s = (Ok u, s') →
  running_in (r :: todo) s → running_in todo s'.
Proof.
  unfold reconcile_record. intros Hr Hin. apply bind_ok_inv in Hr as (r' & s1 & Hh & Hr).
  apply (hydrate_running _ _ _ _ _ Hh) in Hin. case_decide as Hrun.
  - set (r2 := with_status _ _ _ _) in Hr. apply (running_drop r2); [done|].
    intros b x Hx Hs. pose proof (persist_ok _ _ _ _ Hr) as (Hst & _). change (bx_box_id r2) with (bx_box_id r') in Hst.
    destruct (decide (b = bx_box_id r')) as [->|Hne]; [rewrite Hst in Hx; by injection Hx as <-|].
    pose proof (box_write_effect state_dir r2 (bs_world s1)) as He. apply disk_ok in Hr as (Hr & _).
    rewrite Hr in He. rewrite He, decide_False in Hx by done.
    destruct (Hin b x Hx Hs) as (y & [->|Hy]%elem_of_cons & Hyb & Hys); [done|].
    exists y. rewrite elem_of_cons. naive_solver.
  - apply ret_ok_inv in Hr as [_ <-]. by apply (running_drop r').
Qed.

Lemma restart_none_running s s' :
  named s → LocalBoxService_new state_dir workspace_config default_policy isolation_mode s = (Ok (), s') →
  ∀ b x, stored s' b = Some x → bx_status x ≠ BRunning.
Proof.
  intros Hn Hr. unfold LocalBoxService_new in Hr.
  apply (bind_ok_keeps unchanged) in Hr as ([] & s1 & U1 & _ & Hr); [|apply new_layout_unchanged].
  apply (bind_ok_keeps unchanged) in Hr as ([] & s2 & U2 & _ & Hr); [|apply new_layout_unchanged].
  unfold reconcile_after_restart in Hr.
  apply (bind_ok_keeps unchanged) in Hr as (rs & s3 & U3 & Hl & Hr); [|apply unchanged_disk, box_list_frame].
  apply disk_ok in Hl as (Hl & _).
  assert (Hin : running_in rs s3).
  { apply (running_unchanged _ _ _ U3). intros b x Hx Hrun. exists x.
    split_and!; [by eapply box_list_complete| |done]. apply Hn. by rewrite <-(proj1 U1), <-(proj1 U2). }
  clear s s1 s2 U1 U2 U3 Hl Hn. revert s3 Hr Hin. induction rs as [|r rs IH]; intros s Hr Hin; cbn in Hr.
  - apply ret_ok_inv in Hr as [_ <-]. intros b x Hx Hrun. destruct (Hin b x Hx Hrun) as (y & []%not_elem_of_nil & _).
  - apply bind_ok_inv in Hr as ([] & s1 & Hr1 & Hr). eapply IH; [exact Hr|]. by eapply reconcile_record_step.
Qed.

(** A restart keeps every record filed under its identifier. *)
Lemma unchanged_named s s' : unchanged s s' → named s → named s'.
Proof. intros (Hs & _ & Hr) [Hrt Hn]. split; [by rewrite Hr|]. intros b r. rewrite Hs. apply Hn. Qed.

Lemma reconcile_named r :
  keeps (preserves (boxes_ok state_dir)) (reconcile_record state_dir workspace_config default_policy isolation_mode r : M SandboxError S ()).
Proof.
  intros s Hs.
  assert (Ho : own state_dir (bx_box_id r) (λ _, True)
    (reconcile_record state_dir workspace_config default_policy isolation_mode r : M SandboxError S ())).
  { unfold reconcile_record. eapply own_bind; [by apply own_hydrate|]. intros r' Hr'. case_decide; [by apply own_box_write|].
    by apply own_ret. }
  by destruct (Ho s Hs).
Qed.

Lemma restart_named :
  keeps (preserves (boxes_ok state_dir)) (LocalBoxService_new state_dir workspace_config default_policy isolation_mode : M SandboxError S ()).
Proof.
  assert (Hu : ∀ {A} (m : M SandboxError S A), keeps unchanged m → keeps (preserves (boxes_ok state_dir)) m).
  { intros A m Hm s Hs. exact (unchanged_named _ _ (Hm s) Hs). }
  unfold LocalBoxService_new, reconcile_after_restart.
  keeps_step; [apply Hu, new_layout_unchanged|]. keeps_step; [apply Hu, new_layout_unchanged|].
  keeps_step; [apply Hu, unchanged_disk, box_list_frame|]. apply keeps_for_each; [typeclasses eauto|]. intros r _. apply reconcile_named.
Qed.

(** after a restart of the daemon that reports success no stored BOX claims
    to be running: what the records said about sandboxes that no
    longer exist is corrected before the first request is served. *)
Theorem restart_leaves_none_running s s' :
  named s → LocalBoxService_new state_dir workspace_config default_policy isolation_mode s = (Ok (), s') →
  ∀ b x, stored s' b = Some x → bx_status x ≠ BRunning.
Proof. apply restart_none_running. Qed.
End lifecycle.
