(* ===== verification/Stack.v ===== *)
(** * Stack: the sandbox service under the BOX service

    [LocalSandboxService] of [src/runtime/service/] implements the trait
    [SandboxService] that [LocalBoxService] of [src/boxes/service/] runs on.
    This file makes [Runtime] an instance of the interface of [Boxes],
    discharges its laws, and states what holds of the two together. *)

From S2P Require Import Prelude RustStd Paths FileSystem PrivateFs FsTree Manifest Config Lineage Workspace Images Protocol Runtime BoxStore Boxes BoxLifecycle.

(** ** The instance *)

Section instance.
Context `{Platform, Ext4, Target, L : WorkspaceLineageStore, Serde VmImageManifest} {G : Type} `{!GuestHost G}
  (config : RuntimeConfig) (state_dir : path).

(** The state of the service, without the disk. *)
Record RuntimeState := mkRuntime {
  rs_guests : G;
  rs_active : gmap Uuid (ManagedSandbox (G := G));
  rs_warm_runs : list RunLayout;
  rs_history : gmap Uuid SandboxSessionRecord;
}.

Definition as_service (h : World * RuntimeState) : Service (G := G) :=
  mkService h.1 (rs_guests h.2) (rs_active h.2) (rs_warm_runs h.2) (rs_history h.2).
Definition of_service (s : Service (G := G)) : World * RuntimeState :=
  (sv_world s, mkRuntime (sv_guests s) (sv_active s) (sv_warm_runs s) (sv_history s)).

Lemma as_of_service s : as_service (of_service s) = s.
Proof. by destruct s. Qed.

Definition serving {A} (m : M SandboxError Service A) : M SandboxError (World * RuntimeState) A :=
  zoom as_service (λ s _, of_service s) m.

Definition local_sandbox_service : SandboxService RuntimeState := {|
  box_shell := shell_session;
  rt_create_sandbox spec := serving (create_sandbox config state_dir spec);
  rt_destroy_sandbox id := serving (destroy_sandbox config id);
  rt_list_files id p := serving (list_files id p);
  rt_read_file id p limit := serving (read_file id p limit);
  rt_write_file id p data create_parents := serving (write_file id p data create_parents);
  rt_make_dir id p recursive := serving (make_dir id p recursive);
  rt_remove_path id p recursive := serving (remove_path id p recursive);
  rt_exec id request := serving (exec id request);
  rt_open_shell id request := serving (open_shell id request);
  rt_runtime_stats id := serving (runtime_stats id);
  rt_capture_workspace_checkpoint id name metadata := serving (capture_workspace_checkpoint id name metadata);
|}.
End instance.

(** ** What the machines promise

    A virtual machine writes the disk it was given and its run directory: never
    the BOX records, and it leaves the files a tree. *)

Definition machine_step {G} (state_dir : path) : relation (World * G) := λ h h',
  frame (λ q, ¬ boxes_dir state_dir `prefix_of` q) h.1 h'.1 ∧ (tree_world h.1 → tree_world h'.1).

#[global] Instance machine_step_preorder {G} state_dir : PreOrder (machine_step (G := G) state_dir).
Proof.
  split; [by intros h; split; [|auto]|]. intros h1 h2 h3 [F12 T12] [F23 T23]. split; [by etrans|auto].
Qed.

Class GuestLaws (G : Type) `{!GuestHost G} (state_dir : path) : Prop := {
  gl_launch r : keeps (machine_step state_dir) (backend_launch r);
  gl_backend_shutdown v : keeps (machine_step state_dir) (backend_shutdown v);
  gl_connect e t : keeps (machine_step state_dir) (guest_connect e t);
  gl_snapshot g : keeps (machine_step state_dir) (guest_snapshot g);
  gl_sync g : keeps (machine_step state_dir) (guest_sync g);
  gl_shutdown g : keeps (machine_step state_dir) (guest_shutdown g);
  gl_list_files g p : keeps (machine_step state_dir) (guest_list_files g p);
  gl_read_file g p n : keeps (machine_step state_dir) (guest_read_file g p n);
  gl_write_file g p d c : keeps (machine_step state_dir) (guest_write_file g p d c);
  gl_make_dir g p r : keeps (machine_step state_dir) (guest_make_dir g p r);
  gl_remove_path g p r : keeps (machine_step state_dir) (guest_remove_path g p r);
  gl_exec g e : keeps (machine_step state_dir) (guest_exec g e);
  gl_open_shell g e : keeps (machine_step state_dir) (guest_open_shell g e);
  gl_stats g : keeps (machine_step state_dir) (guest_runtime_stats g);
  gl_timeout {A} n (m : M SandboxError (World * G) A) :
    keeps (machine_step state_dir) m → keeps (machine_step state_dir) (guest_timeout n m);
}.

Section stack.
Context `{PlatformLaws, Ext4, Target, HostLimits, L : WorkspaceLineageStore, !LineageSpec L, Serde VmImageManifest,
          Serde BoxRecord, !SerdeLaws BoxRecord} {G : Type} `{!GuestHost G}
  (config : RuntimeConfig) (state_dir : path) `{!GuestLaws G state_dir, !BoxLayout L state_dir}.

Local Abbreviation SV := (Service (G := G)).

(** Every run directory is one the service laid out. *)
Definition run_ok (r : RunLayout) : Prop := ∃ id, r = run_layout state_dir id.
Record runs_ok (h : RuntimeState (G := G)) : Prop := {
  ok_warm_runs : Forall run_ok (rs_warm_runs h);
  ok_active_runs : map_Forall (λ _ m, run_ok (ms_run_layout m)) (rs_active h);
}.

(** The step on the state of [Runtime]. *)
Definition service_step (s s' : SV) : Prop :=
  runs_ok (of_service s).2 →
  runs_ok (of_service s').2 ∧ frame (λ q, ¬ boxes_dir state_dir `prefix_of` q) (sv_world s) (sv_world s').

#[local] Instance service_step_preorder : PreOrder service_step.
Proof.
  split; [by intros s|]. intros s1 s2 s3 H12 H23 Hok. destruct (H12 Hok) as [Hok2 F12].
  destruct (H23 Hok2) as [Hok3 F23]. split; [done|by etrans].
Qed.

Lemma serving_step {A} (m : M SandboxError SV A) :
  keeps service_step m → keeps (sandbox_step state_dir runs_ok) (serving m).
Proof.
  intros Hm [w h]. specialize (Hm (as_service (w, h))). unfold serving, zoom.
  destruct (m (as_service (w, h))) as [r s]. intros Hok. apply Hm. by destruct h.
Qed.

Lemma step_guest {A} (m : M SandboxError (World * G) A) : keeps (machine_step state_dir) m → keeps service_step (on_guest m).
Proof.
  intros Hm. apply (keeps_zoom _ (machine_step state_dir)); [|done]. intros s [w g] [Hf _] Hok.
  by destruct Hok.
Qed.

Lemma step_disk {A} (P : path → Prop) (m : M SandboxError World A) :
  keeps (frame P) m → (∀ q, boxes_dir state_dir `prefix_of` q → ¬ P q) → keeps (service_step) (on_disk m).
Proof.
  intros Hm HP. apply (keeps_zoom _ (frame P)); [|done]. intros s w Hf Hok. split; [by destruct Hok|].
  intros q Hq. apply Hf. intros HPq. apply Hq. intros Hb. by apply (HP q).
Qed.

Lemma step_owned {A} ws (m : M SandboxError World A) : keeps (frame (owned state_dir ws)) m → keeps service_step (on_disk m).
Proof. intros Hm. eapply step_disk; [exact Hm|]. exact (boxes_not_owned state_dir ws). Qed.

Lemma step_reads {A} (m : M SandboxError World A) : keeps (frame (λ _, False)) m → keeps service_step (on_disk m).
Proof. intros Hm. eapply step_disk; [exact Hm|tauto]. Qed.

(** *** Runs *)

Lemma not_boxes name k q : name ≠ "boxes" → q `prefix_of` state_dir ++ name :: k → ¬ boxes_dir state_dir `prefix_of` q.
Proof.
  intros Hn Hq Hb. destruct (transitivity Hb Hq) as [j Hj]. unfold boxes_dir in Hj.
  rewrite <-app_assoc in Hj. by apply app_inv_head in Hj as [= -> _].
Qed.

Lemma under_runs id q : (state_dir ++ ["runs"; uuid_to_string id]) `prefix_of` q → ¬ boxes_dir state_dir `prefix_of` q.
Proof. intros [k ->]. rewrite <-app_assoc. by apply (not_boxes "runs" (uuid_to_string id :: k)). Qed.

Lemma vsock_not_boxes q id : q `prefix_of` vsock_socket_path id → ¬ boxes_dir state_dir `prefix_of` q.
Proof.
  intros Hq Hb. destruct (transitivity Hb Hq) as [j Hj]. unfold boxes_dir, vsock_socket_path, vsock_dir in Hj.
  destruct state_dir as [|x [|y [|z l]]]; simpl in Hj; try done.
  - injection Hj as _ _ Hj _. apply (f_equal rsplit_dot) in Hj.
    by rewrite (rsplit_dot_app (uuid_simple id) "sock") in Hj.
  - injection Hj as _ _ _ Hj. by destruct l.
Qed.

Lemma vsock_dir_not_boxes q : q `prefix_of` vsock_dir → ¬ boxes_dir state_dir `prefix_of` q.
Proof. intros Hq. apply (vsock_not_boxes q 0%N). etrans; [exact Hq|]. by eexists. Qed.

Local Abbreviation outside := (frame (λ q, ¬ boxes_dir state_dir `prefix_of` q)).

Lemma create_run_dir_frame id k :
  keeps outside (create_private_dir (state_dir ++ "runs" :: uuid_to_string id :: k)).
Proof. apply create_private_dir_frame. intros q. by apply not_boxes. Qed.
Lemma create_vsock_dir_frame : keeps outside (create_private_dir vsock_dir).
Proof. apply create_private_dir_frame, vsock_dir_not_boxes. Qed.

Lemma prepare_run_frame : keeps outside (prepare_run state_dir).
Proof.
  unfold prepare_run. cbn. keeps_tac; rewrite <-?app_assoc; [apply create_run_dir_frame..|apply create_vsock_dir_frame].
Qed.

Lemma recycle_run_frame id : keeps outside (recycle_run state_dir (run_layout state_dir id)).
Proof.
  unfold recycle_run. cbn [run_layout rl_root_dir rl_runtime_dir rl_vsock_socket].
  keeps_tac; rewrite <-?app_assoc; try apply create_vsock_dir_frame; try apply create_run_dir_frame.
  - apply keeps_rename; intros q; apply under_runs.
  - unfold remove_file_if_present. keeps_tac. apply keeps_remove_file. by eapply vsock_not_boxes.
Qed.

Lemma prepare_run_ok w r w' : prepare_run state_dir w = (Ok r, w') → run_ok r.
Proof. unfold prepare_run. intros Hr. ok_inv. by eexists. Qed.
Lemma recycle_run_ok run w r w' : recycle_run state_dir run w = (Ok r, w') → run_ok r.
Proof.
  unfold recycle_run. intros Hr. cbv zeta in Hr.
  apply bind_ok_inv in Hr as (id & w1 & _ & Hr). do 5 apply bind_ok_inv in Hr as (? & ? & _ & Hr).
  apply ret_ok_inv in Hr as [<- _]. by eexists.
Qed.

(** *** The operations *)

Lemma step_prepare_run : keeps service_step (on_disk (prepare_run state_dir)).
Proof. eapply step_disk; [apply prepare_run_frame|tauto]. Qed.
Lemma step_recycle_run run : run_ok run → keeps service_step (on_disk (recycle_run state_dir run)).
Proof. intros [id ->]. eapply step_disk; [apply recycle_run_frame|tauto]. Qed.

Lemma step_acquire_run : keeps service_step (acquire_run state_dir).
Proof.
  intros s Hok. unfold acquire_run, mbind, M_bind, take_warm_run. destruct Hok as [Hwarm Hact]. cbn in Hwarm, Hact.
  set (s1 := set_warm (removelast (sv_warm_runs s)) s).
  assert (Hs1 : runs_ok (of_service s1).2).
  { split; [|done]. cbn. rewrite removelast_firstn_len. by apply Forall_take. }
  destruct (last (sv_warm_runs s)) as [run|] eqn:Hl.
  - destruct (step_recycle_run run) with (s := s1) as [Hok' Hf]; [|done|by split].
    apply last_Some in Hl as [l Hl]. rewrite Hl, Forall_app, Forall_singleton in Hwarm. apply Hwarm.
  - destruct (step_prepare_run s1 Hs1) as [Hok' Hf]. by split.
Qed.

Lemma acquire_run_ok s r s' : acquire_run state_dir s = (Ok r, s') → run_ok r.
Proof.
  unfold acquire_run. intros Hr. apply bind_ok_inv in Hr as ([run|] & s1 & _ & Hr); apply on_disk_value in Hr.
  - destruct (recycle_run _ _ _) as [x w] eqn:E. cbn in Hr. subst. by eapply recycle_run_ok.
  - destruct (prepare_run _ _) as [x w] eqn:E. cbn in Hr. subst. by eapply prepare_run_ok.
Qed.

Lemma step_insert sandbox : run_ok (ms_run_layout sandbox) → keeps service_step (registry_insert sandbox).
Proof.
  intros Hr s [Hw Ha]. split; [|by intros q]. split; [done|]. cbn. by apply map_Forall_insert_2.
Qed.

Lemma step_now : keeps service_step (on_disk now_ms).
Proof. apply step_reads. keeps_tac. Qed.

Lemma step_launch {A} run stage (m : M SandboxError (World * G) A) :
  keeps (machine_step state_dir) m → keeps service_step (launch_step run stage m).
Proof.
  intros Hm. unfold launch_step. keeps_tac; [by apply step_guest|]. apply step_reads.
  unfold enrich_launch_error, boot_failure_detail, read_tail. keeps_tac.
Qed.

Lemma step_create spec : keeps service_step (create_sandbox config state_dir spec).
Proof.
  unfold create_sandbox. keeps_step; [unfold create_guards, has_active_workspace; keeps_tac|].
  unfold create_launch. keeps_step.
  { keeps_tac. unfold restore_internal_checkpoint. eapply step_owned, restore_frame; typeclasses eauto. }
  keeps_step; [eapply step_owned, prepare_frame; typeclasses eauto|].
  keeps_step; [apply step_reads, resolve_guest_frame|].
  apply keeps_bind_val; [typeclasses eauto|apply step_acquire_run|]. intros s0 run s1 Hrun%acquire_run_ok.
  keeps_tac; [apply step_launch, gl_launch|apply step_launch, gl_connect|apply step_now|
    apply step_guest, gl_snapshot|by apply step_insert].
Qed.

Lemma step_best_effort m : keeps (machine_step state_dir) m → keeps service_step (best_effort m).
Proof. intros Hm. unfold best_effort. keeps_tac. by apply step_guest, gl_timeout. Qed.
Lemma step_final session : keeps service_step (snapshot_guest_or_baseline session).
Proof. unfold snapshot_guest_or_baseline. keeps_tac. apply step_guest, gl_timeout, gl_snapshot. Qed.

Lemma trim_warm_forall P fuel n runs : Forall P runs → Forall P (trim_warm fuel n runs).
Proof.
  revert runs. induction fuel as [|fuel IH]; intros runs Hr; cbn [trim_warm]; [done|].
  destruct (_ <? _)%Z; [|done]. by apply IH, Forall_drop.
Qed.

Lemma step_store_warm run n : run_ok run → keeps service_step (store_warm_run run n).
Proof.
  intros Hr s [Hw Ha]. split; [|by intros q]. split; [|done]. cbn.
  apply trim_warm_forall, Forall_app. split; [done|by constructor].
Qed.
Lemma step_save_history r : keeps service_step (save_history r).
Proof. intros s [Hw Ha]. split; [by split|by intros q]. Qed.

Lemma step_remove_active id : keeps service_step (remove_active id).
Proof.
  intros s [Hw Ha]. unfold remove_active, mbind, M_bind, gets, modify, lift. cbn.
  split; [|by intros q]. split; [done|]. cbn. by apply map_Forall_delete.
Qed.

Lemma step_destroy id : keeps service_step (destroy_sandbox config id).
Proof.
  unfold destroy_sandbox, history_record. keeps_step; [keeps_step|]. destruct a as [r|]; [keeps_step|].
  intros s. pose proof (step_remove_active id s) as Hs1. unfold mbind at 1, M_bind at 1.
  destruct (remove_active id s) as [[session|e] s1] eqn:Hrm; [|exact Hs1]. intros Hok.
  assert (Hrun : run_ok (ms_run_layout session)).
  { apply remove_active_ok in Hrm as [Hm _]. destruct Hok as [_ Ha]. exact (Ha _ _ Hm). }
  revert Hok. match goal with |- context [?c s1] => enough (keeps service_step c) as Hc end.
  { exact (transitivity Hs1 (Hc s1)). }
  keeps_tac; auto using step_best_effort, gl_sync, gl_shutdown, step_final, step_now, step_store_warm, step_save_history.
  apply step_guest, gl_backend_shutdown.
Qed.

Lemma step_with_guest {A} id (call : guest → M SandboxError (World * G) A) :
  (∀ g, keeps (machine_step state_dir) (call g)) → keeps service_step (with_guest id call).
Proof. intros Hc. unfold with_guest, active. keeps_tac. by apply step_guest. Qed.

Lemma step_permits id (f : ManagedSandbox → nat) :
  keeps service_step (modify (λ s, set_active (alter (λ m, with_permits (f m) m) id (sv_active s)) s) : M SandboxError SV ()).
Proof.
  intros s [Hw Ha]. split; [|by intros q]. split; [done|]. cbn. intros i m. rewrite lookup_alter.
  case_decide; [|apply Ha]. intros (m0 & Hm0 & ->)%fmap_Some. subst. exact (Ha _ _ Hm0).
Qed.

Lemma step_exec id request : keeps service_step (exec id request).
Proof.
  unfold exec, active, try_acquire_exec, release_exec. keeps_tac;
    [apply (step_permits _ (λ _, _))|apply step_guest, gl_exec|apply (step_permits _ (λ m, S (ms_exec_permits m)))].
Qed.

Lemma step_capture id name metadata : keeps service_step (capture_workspace_checkpoint id name metadata).
Proof.
  unfold capture_workspace_checkpoint, active. keeps_tac;
    [apply step_guest, gl_sync|apply step_guest, gl_snapshot|apply step_guest, gl_sync|].
  unfold create_internal_checkpoint. destruct (ms_workspace _) as [ws p].
  eapply step_owned, create_frame; typeclasses eauto.
Qed.

(** *** The tree *)

Definition service_tree (s s' : SV) : Prop := tree_world (sv_world s) → tree_world (sv_world s').

#[local] Instance service_tree_preorder : PreOrder service_tree.
Proof. split; [by intros s Hs|]. intros s1 s2 s3 H12 H23 Hs. by apply H23, H12. Qed.

Lemma service_tree_guest {A} (m : M SandboxError (World * G) A) :
  keeps (machine_step state_dir) m → keeps service_tree (on_guest m).
Proof. apply keeps_zoom. intros s [w g] [_ Ht]. exact Ht. Qed.

Lemma destroy_tree id : keeps service_tree (destroy_sandbox config id).
Proof.
  unfold destroy_sandbox, history_record, remove_active, best_effort, snapshot_guest_or_baseline.
  keeps_tac; try (apply service_tree_guest; auto using gl_timeout, gl_sync, gl_snapshot, gl_shutdown, gl_backend_shutdown);
    intros s Hs; exact Hs.
Qed.

(** ** The laws *)

Definition local_sandbox_laws : @SandboxServiceLaws RuntimeState (local_sandbox_service config state_dir) state_dir.
Proof.
  unshelve esplit; [exact runs_ok|..].
  - intros spec. apply serving_step, step_create.
  - intros id. apply serving_step, step_destroy.
  - intros id p. apply serving_step, step_with_guest. intros g. apply gl_list_files.
  - intros id p n. apply serving_step, step_with_guest. intros g. apply gl_read_file.
  - intros id p d c. apply serving_step, step_with_guest. intros g. apply gl_write_file.
  - intros id p r. apply serving_step, step_with_guest. intros g. apply gl_make_dir.
  - intros id p r. apply serving_step, step_with_guest. intros g. apply gl_remove_path.
  - intros id e. apply serving_step, step_exec.
  - intros id e. apply serving_step, step_with_guest. intros g. apply gl_open_shell.
  - intros id. apply serving_step, step_with_guest. intros g. apply gl_stats.
  - intros id n m. apply serving_step, step_capture.
  - intros id. apply (keeps_zoom _ service_tree); [|apply destroy_tree]. intros [w h] s Hs. exact Hs.
Defined.

#[local] Instance stack_service : SandboxService RuntimeState := local_sandbox_service config state_dir.
#[local] Instance stack_laws : SandboxServiceLaws RuntimeState state_dir := local_sandbox_laws.

(** ** A BOX whose sandbox is still there *)

Context (workspace_config : WorkspaceConfig) (default_policy : ExecutionPolicy) (isolation_mode : IsolationMode).

Local Abbreviation S := (BoxService (R := RuntimeState (G := G))).
Local Abbreviation svc s := (as_service (bs_world s, bs_runtime s)).
Local Abbreviation stored s := (stored_box state_dir (w_fs (bs_world s))).

(** The record of [b] does not say that it runs, but the sandbox service has an
    active sandbox on the workspace of [b]. *)
Definition orphaned (b : Uuid) (s : S) : Prop :=
  active_workspace (box_ws b) (svc s) = true ∧ ∀ r, stored s b = Some r → bx_status r ≠ BRunning.

Lemma orphaned_unchanged b : ∀ s s' : S, unchanged state_dir s s' → preserves (orphaned b) s s'.
Proof. intros s s' (Hs & _ & Hr) [Ha Hd]. split; [by rewrite Hr|]. intros r. rewrite Hs. apply Hd. Qed.

Lemma orphaned_write b r : bx_status r ≠ BRunning →
  keeps (preserves (orphaned b)) (disk (box_write state_dir r) : M SandboxError S ()).
Proof.
  intros Hr s [Ha Hd]. pose proof (box_write_effect state_dir r (bs_world s)) as He. unfold disk, zoom.
  destruct (box_write state_dir r (bs_world s)) as [[[]|e] w]; (split; [exact Ha|]); intros x; cbn; rewrite He; [|apply Hd].
  case_decide; [|apply Hd]. by intros [= <-].
Qed.

Lemma orphaned_hydrate b r : bx_status r ≠ BRunning →
  keeps (preserves (orphaned b))
    (hydrate_record state_dir workspace_config default_policy isolation_mode r : M SandboxError S _).
Proof.
  intros Hr. unfold hydrate_record. keeps_tac; [|by apply orphaned_write].
  eapply keeps_impl; [apply orphaned_unchanged|]. apply unchanged_disk. unfold workspace_disk_size_mib. keeps_tac.
Qed.

Lemma orphaned_read b :
  keeps (preserves (orphaned b))
    (read_box state_dir workspace_config default_policy isolation_mode b : M SandboxError S _).
Proof.
  intros s Ho. unfold read_box, mbind, M_bind.
  pose proof (unchanged_disk state_dir (box_read state_dir b) (box_read_frame state_dir b _) s) as Hu.
  destruct (disk (box_read state_dir b) s) as [[r|e] s1] eqn:Hr; [|by eapply orphaned_unchanged].
  apply disk_ok in Hr as (Hr & _). apply box_read_ok in Hr as [Hst _].
  apply orphaned_hydrate; [by apply Ho|]. by eapply orphaned_unchanged.
Qed.

Lemma create_refused spec s :
  active_workspace (spec_workspace_id spec) (as_service s) = true →
  ∃ e, rt_create_sandbox spec s = (Err e, s).
Proof.
  intros Ha. cbn. unfold serving, zoom, create_sandbox, create_guards.
  destruct (_ && _); [|unfold has_active_workspace, mbind, M_bind, gets; rewrite Ha];
    (eexists; cbn; destruct s as [w []]; reflexivity).
Qed.

Local Abbreviation start := (start_box state_dir workspace_config default_policy isolation_mode).
Local Abbreviation stop := (stop_box state_dir workspace_config default_policy isolation_mode).

(** a BOX that has lost track of its sandbox cannot be brought back: while
    the sandbox service still has an active sandbox on its workspace, starting
    it is refused, and so is stopping it, because its record does not say that
    it runs; and both leave it in that state. *)
Theorem orphaned_box_stuck b s :
  boxes_ok state_dir s → orphaned b s →
  (∃ e s', start b s = (Err e, s') ∧ orphaned b s') ∧ (∃ e s', stop b s = (Err e, s') ∧ orphaned b s').
Proof.
  intros Hn Ho. pose proof (orphaned_read b s Ho) as Ho1. unfold start_box, stop_box.
  destruct (read_box state_dir workspace_config default_policy isolation_mode b s) as [[r|e] s1] eqn:Hr; cbn in Ho1.
  2: { split; eexists _, _; (split; [by apply bind_err|done]). }
  pose proof (fetch_ok _ _ _ _ b s r s1 Hn Hr) as (Hid & _ & _ & _ & _ & r0 & Hr0 & Hrw).
  assert (Hnot : bx_status r ≠ BRunning) by (rewrite Hrw; exact (proj2 Ho r0 Hr0)).
  split.
  2: { exists (not_running b ""), s1. split; [|done]. erewrite bind_ok by exact Hr. by rewrite decide_True. }
  erewrite bind_ok by exact Hr. rewrite decide_False by done.
  set (spec := mkSandboxSpec _ _ _ _).
  destruct (create_refused spec (bs_world s1, bs_runtime s1)) as [e He]; [apply Ho1|].
  assert (Hrt : attempt (E := SandboxError) (F := SandboxError) (runtime (rt_create_sandbox spec)) s1 = (Ok (Err e), s1)).
  { unfold attempt, runtime, zoom. rewrite He. by destruct s1. }
  erewrite bind_ok by exact Hrt.
  assert (Hf : keeps (preserves (orphaned b)) (set_failed state_dir r (error_to_string e) : M SandboxError S ())).
  { unfold set_failed. keeps_tac; [by intros s2 [Ha2 Hd2]|by apply orphaned_write]. }
  specialize (Hf s1 Ho1). unfold mbind, M_bind.
  destruct (set_failed state_dir r (error_to_string e) s1) as [[[]|e'] s2]; eexists _, _; (split; [reflexivity|exact Hf]).
Qed.
End stack.

(** ** The local lineage is apart from the records *)

Section local.
Context `{PlatformLaws, Serde WorkspaceCheckpointRecord, Serde WorkspaceLineageHead,
          !SerdeLaws WorkspaceCheckpointRecord, !SerdeLaws WorkspaceLineageHead} (state_dir : path).

#[export] Instance local_box_layout :
  @BoxLayout _ (local_store (checkpoints_dir state_dir)) (local_spec (checkpoints_dir state_dir)) state_dir.
Proof.
  split; [typeclasses eauto|]. intros ws q [k ->]. cbn. unfold Local.workspace_dir, checkpoints_dir, boxes_dir.
  intros [[j Hj]|[j Hj]]; rewrite <-!app_assoc in Hj; apply app_inv_head in Hj; done.
Qed.
End local.
