(* ===== verification/BoxApi.v ===== *)
(** * BoxApi: [src/box_api/protocol.rs] and [src/box_api/server/]

    The websocket API: messages, authentication, authorization and the dispatch
    of requests, over the trait [BoxManager] of [src/boxes/service/manager.rs],
    which is an interface here.  A connection is driven by an explicit sequence
    of events: frames, the shutdown signal, and turns of the tasks it spawned. *)

From S2P Require Import Prelude RustStd Paths FileSystem PrivateFs Auth FsTree Manifest Config Lineage Workspace Images Protocol Runtime BoxStore Boxes.

(** ** Messages: [protocol.rs] *)

Inductive InteractiveTarget := TBash | TPython.

Inductive Principal := PAdmin (admin_uuid : Uuid) | PBox (box_id : Uuid).

#[global] Instance Principal_eq_decision : EqDecision Principal.
Proof. solve_decision. Defined.

Inductive BoxRequest :=
  | RqPing (request_id : string)
  | RqListBoxes (request_id : string)
  | RqGetBox (request_id : string) (box_id : Uuid)
  | RqNewBox (request_id : string) (image : option string)
  | RqImageBuild (request_id name : string) (apk pip npm : list string) (min_image_mib : Z) (force_refresh : bool)
  | RqImageList (request_id : string)
  | RqImageInspect (request_id name : string)
  | RqImageRemove (request_id name : string)
  | RqStartBox (request_id : string) (box_id : Uuid)
  | RqStopBox (request_id : string) (box_id : Uuid)
  | RqRemoveBox (request_id : string) (box_id : Uuid)
  | RqSetBoxSetting (request_id : string) (box_id : Uuid) (value : BoxSettingValue)
  | RqExecBash (request_id : string) (box_id : Uuid) (command : string) (timeout_ms kill_grace_ms : option Z)
  | RqExecPython (request_id : string) (box_id : Uuid) (args : list string) (timeout_ms kill_grace_ms : option Z)
  | RqOpenShell (request_id : string) (box_id : Uuid) (target : InteractiveTarget)
  | RqShellInput (request_id : string) (shell_id : Uuid) (data : string)
  | RqResizeShell (request_id : string) (shell_id : Uuid) (cols rows : Z)
  | RqCloseShell (request_id : string) (shell_id : Uuid)
  | RqFsList (request_id : string) (box_id : Uuid) (path : string)
  | RqFsRead (request_id : string) (box_id : Uuid) (path : string) (limit : Z)
  | RqFsWrite (request_id : string) (box_id : Uuid) (path data : string) (create_parents : bool)
  | RqFsMkdir (request_id : string) (box_id : Uuid) (path : string) (recursive : bool)
  | RqFsRemove (request_id : string) (box_id : Uuid) (path : string) (recursive : bool)
  | RqCheckpointCreate (request_id : string) (box_id : Uuid) (name : option string) (metadata : gmap string string)
  | RqCheckpointList (request_id : string) (box_id : Uuid)
  | RqCheckpointRestore (request_id : string) (box_id : Uuid) (checkpoint_id : string) (mode : CheckpointRestoreMode)
  | RqCheckpointFork (request_id : string) (box_id : Uuid) (checkpoint_id : string) (new_box_name : option string)
  | RqCheckpointDelete (request_id : string) (box_id : Uuid) (checkpoint_id : string)
  | RqShutdownDaemon (request_id : string)
  | RqAdminAdd (request_id : string)
  | RqBoxIssueCredentials (request_id : string) (box_id : Uuid)
  | RqAdminRemoveMe (request_id : string).

Definition request_id (r : BoxRequest) : string :=
  match r with
  | RqPing i | RqListBoxes i | RqGetBox i _ | RqNewBox i _ | RqImageBuild i _ _ _ _ _ _ | RqImageList i
  | RqImageInspect i _ | RqImageRemove i _ | RqStartBox i _ | RqStopBox i _ | RqRemoveBox i _ | RqSetBoxSetting i _ _
  | RqExecBash i _ _ _ _ | RqExecPython i _ _ _ _ | RqOpenShell i _ _ | RqShellInput i _ _ | RqResizeShell i _ _ _
  | RqCloseShell i _ | RqFsList i _ _ | RqFsRead i _ _ _ | RqFsWrite i _ _ _ _ | RqFsMkdir i _ _ _ | RqFsRemove i _ _ _
  | RqCheckpointCreate i _ _ _ | RqCheckpointList i _ | RqCheckpointRestore i _ _ _ | RqCheckpointFork i _ _ _
  | RqCheckpointDelete i _ _ | RqShutdownDaemon i | RqAdminAdd i | RqBoxIssueCredentials i _ | RqAdminRemoveMe i => i
  end.

Inductive ClientMessage :=
  | CmAuthenticateAdmin (admin_uuid : Uuid) (admin_token : string)
  | CmAuthenticateBox (box_id : Uuid) (box_token : string)
  | CmRequest (request : BoxRequest).

Inductive BoxResponse :=
  | RsPong
  | RsBoxList (boxes : list BoxRecord)
  | RsBox (record : BoxRecord)
  | RsBoxRemoved (box_id : Uuid)
  | RsImage (image : VmImageManifest)
  | RsImageList (images : list VmImageManifest)
  | RsImageRemoved (name : string)
  | RsFiles (path : string) (entries : list FileNode)
  | RsFile (file : ReadFileResult)
  | RsCheckpoint (checkpoint : WorkspaceCheckpointRecord)
  | RsCheckpointList (checkpoints : list WorkspaceCheckpointRecord)
  | RsShellOpened (shell_id box_id : Uuid)
  | RsAdminAdded (bundle : AdminCredentialBundle)
  | RsBoxCredentials (bundle : BoxCredentialBundle)
  | RsAck.

Inductive BoxEvent :=
  | BeResponse (request_id : string) (response : BoxResponse)
  | BeExecOutput (request_id : string) (stream : OutputStream) (data : string)
  | BeExecExit (request_id : string) (status : ExecExit)
  | BeShellOutput (shell_id : Uuid) (data : string)
  | BeShellExit (shell_id : Uuid) (code : Z)
  | BeError (request_id : option string) (message : string).

Inductive ServerMessage :=
  | SmAuthenticated (principal : Principal)
  | SmEvent (event : BoxEvent).

(** ** The BOX service, as the server sees it: the trait [BoxManager]

    [B] is the state of the service; a shell is its handle with the events it
    will deliver. *)

Class BoxManager (B : Type) := {
  bm_shell : Type;
  shell_id_of : bm_shell → Uuid;
  shell_events : bm_shell → list ShellEvent;
  shell_send_input : bm_shell → bytes → M SandboxError (World * B) ();
  shell_resize : bm_shell → Z → Z → M SandboxError (World * B) ();
  shell_close : bm_shell → M SandboxError (World * B) ();
  bm_list_boxes : M SandboxError (World * B) (list BoxRecord);
  bm_get_box : Uuid → M SandboxError (World * B) BoxRecord;
  bm_create_box_from_image : option string → M SandboxError (World * B) BoxRecord;
  bm_set_box_setting : Uuid → BoxSettingValue → M SandboxError (World * B) BoxRecord;
  bm_start_box : Uuid → M SandboxError (World * B) BoxRecord;
  bm_stop_box : Uuid → M SandboxError (World * B) BoxRecord;
  bm_remove_box : Uuid → M SandboxError (World * B) ();
  bm_list_files : Uuid → string → M SandboxError (World * B) (list FileNode);
  bm_read_file : Uuid → string → Z → M SandboxError (World * B) ReadFileResult;
  bm_write_file : Uuid → string → bytes → bool → M SandboxError (World * B) ();
  bm_make_dir : Uuid → string → bool → M SandboxError (World * B) ();
  bm_remove_path : Uuid → string → bool → M SandboxError (World * B) ();
  bm_exec : Uuid → ExecRequest → M SandboxError (World * B) (list ExecutionEvent);
  bm_open_shell : Uuid → ShellRequest → M SandboxError (World * B) bm_shell;
  bm_checkpoint_create : Uuid → option string → gmap string string →
    M SandboxError (World * B) WorkspaceCheckpointRecord;
  bm_checkpoint_list : Uuid → M SandboxError (World * B) (list WorkspaceCheckpointRecord);
  bm_checkpoint_restore : Uuid → string → CheckpointRestoreMode →
    M SandboxError (World * B) WorkspaceCheckpointRecord;
  bm_checkpoint_fork : Uuid → string → option string → M SandboxError (World * B) BoxRecord;
  bm_checkpoint_delete : Uuid → string → M SandboxError (World * B) ();
  bm_shutdown_daemon : M SandboxError (World * B) ();
}.

(** What the server uses of other crates: the decoding of a client
    message, and the image builder. *)
Record ImageBuildSpec := mkBuildSpec {
  ib_state_dir : path;
  ib_name : string;
  ib_apk : list string;
  ib_pip : list string;
  ib_npm : list string;
  ib_min_image_mib : Z;
  ib_force_refresh : bool;
  ib_base_guest : GuestConfig;
}.

Class ApiCrates := {
  decode_client_message : string → Result string ClientMessage;
  image_build : ImageBuildSpec → M SandboxError World VmImageManifest;
}.

(** ** Access: [server/dispatch/access.rs] *)

Definition require_admin (principal : Principal) : Result SandboxError Uuid :=
  match principal with
  | PAdmin admin_uuid => Ok admin_uuid
  | PBox _ => Err (Conflict "admin authentication required for this websocket command")
  end.

Section access.
Context `{Platform}.

Definition authorize_box (principal : Principal) (box_id : Uuid) : Result SandboxError () :=
  match principal with
  | PAdmin _ => Ok ()
  | PBox principal_box_id =>
      if decide (principal_box_id = box_id) then Ok ()
      else Err (Conflict ("box-authenticated connection for " ^+ uuid_to_string principal_box_id ^+
                          " cannot access BOX " ^+ uuid_to_string box_id))
  end.
End access.

(** ** Requests to the guest: [server/execution.rs] *)

Definition python_exec (args : list string) (timeout_ms kill_grace_ms : option Z) : ExecRequest :=
  mkExec "/usr/bin/env" ("python3" :: args) ∅ "/workspace" timeout_ms (default 250%Z kill_grace_ms).

Definition shell_request (target : InteractiveTarget) : ShellRequest :=
  match target with
  | TBash => ShellRequest_default
  | TPython => mkShell "/usr/bin/env" ["python3"; "-i"]
                 (<["TERM" := "dumb"]> (<["PYTHONUNBUFFERED" := "1"]> ∅)) "/workspace"
  end.

(** The request of [ExecBash]. *)
Definition bash_exec (command : string) (timeout_ms kill_grace_ms : option Z) : ExecRequest :=
  let request := ExecRequest_shell command in
  mkExec (ex_program request) (ex_args request) (ex_env request) (ex_cwd request) timeout_ms
    (default (ex_kill_grace_ms request) kill_grace_ms).

(** ** Connections *)

Inductive ConnectionAction := KeepOpen | Close | ShutdownServer.

Section server.
Context `{Platform, Target, Serde AdminRegistry, Serde BoxCredentialRegistry, Serde VmImageManifest, Base64, ApiCrates}
  {B : Type} `{!BoxManager B} (state_dir : path) (base_guest : GuestConfig) (endpoint : string).

Record ShellSessionEntry := mkShellEntry { se_box_id : Uuid; se_handle : bm_shell }.

(** The spawned tasks, each with the events it has still to relay. *)
Inductive Task :=
  | TkExec (request_id : string) (stream : list ExecutionEvent)
  | TkShell (shell_id : Uuid) (events : list ShellEvent).

(** [cn_send_faults] says which of the next messages fail to go out. *)
Record Connection := mkConn {
  cn_host : World * B;
  cn_principal : option Principal;
  cn_shells : gmap Uuid ShellSessionEntry;
  cn_sent : list ServerMessage;
  cn_send_faults : list (option string);
  cn_tasks : list Task;
  cn_shutdown : bool;
}.

Abbreviation CM := (M SandboxError Connection).

Definition set_cn_host (h : World * B) (c : Connection) : Connection :=
  mkConn h (cn_principal c) (cn_shells c) (cn_sent c) (cn_send_faults c) (cn_tasks c) (cn_shutdown c).
Definition set_principal (p : Principal) (c : Connection) : Connection :=
  mkConn (cn_host c) (Some p) (cn_shells c) (cn_sent c) (cn_send_faults c) (cn_tasks c) (cn_shutdown c).
Definition set_shells (m : gmap Uuid ShellSessionEntry) (c : Connection) : Connection :=
  mkConn (cn_host c) (cn_principal c) m (cn_sent c) (cn_send_faults c) (cn_tasks c) (cn_shutdown c).
Definition set_sent (l : list ServerMessage) (f : list (option string)) (c : Connection) : Connection :=
  mkConn (cn_host c) (cn_principal c) (cn_shells c) l f (cn_tasks c) (cn_shutdown c).
Definition set_tasks (l : list Task) (c : Connection) : Connection :=
  mkConn (cn_host c) (cn_principal c) (cn_shells c) (cn_sent c) (cn_send_faults c) l (cn_shutdown c).
Definition set_shutdown (c : Connection) : Connection :=
  mkConn (cn_host c) (cn_principal c) (cn_shells c) (cn_sent c) (cn_send_faults c) (cn_tasks c) true.

(** A call of the BOX service, and one on the disk alone. *)
Definition serve {A} (m : M SandboxError (World * B) A) : CM A := zoom cn_host set_cn_host m.
Definition on_world {A} (m : M SandboxError World A) : CM A :=
  zoom (λ c, (cn_host c).1) (λ w c, set_cn_host (w, (cn_host c).2) c) m.

(** The messages of this API always encode. *)
Definition send_server_message (message : ServerMessage) : CM () := λ c,
  match cn_send_faults c with
  | Some error :: faults => (Err (Backend ("sending box api message: " ^+ error)), set_sent (cn_sent c) faults c)
  | faults => (Ok (), set_sent (cn_sent c ++ [message]) (tail faults) c)
  end.

Definition send_event (event : BoxEvent) : CM () := send_server_message (SmEvent event).
Definition send_response (request_id : string) (response : BoxResponse) : CM () :=
  send_event (BeResponse request_id response).

Definition spawn (task : Task) : CM () := modify (λ c, set_tasks (cn_tasks c ++ [task]) c).

Definition decode_bytes (context value : string) : Result SandboxError bytes :=
  match base64_decode value with
  | Ok b => Ok b
  | Err error => Err (Protocol (context ^+ ": " ^+ error))
  end.

(** *** Shells *)

Definition shell_handle (principal : Principal) (shell_id : Uuid) : CM ShellSessionEntry :=
  found ← gets (λ c, cn_shells c !! shell_id);
  entry ← lift (ok_or (InvalidConfig ("unknown shell session " ^+ uuid_to_string shell_id)) found);
  lift (authorize_box principal (se_box_id entry));;
  mret entry.

Definition remove_shell (principal : Principal) (shell_id : Uuid) : CM (option ShellSessionEntry) :=
  found ← gets (λ c, cn_shells c !! shell_id);
  match found with Some entry => lift (authorize_box principal (se_box_id entry)) | None => mret () end;;
  modify (λ c, set_shells (delete shell_id (cn_shells c)) c);;
  mret found.

(** *** [server/dispatch.rs] *)

Definition dispatch_image_request (request : BoxRequest) : CM () :=
  match request with
  | RqImageBuild rid name apk pip npm min_image_mib force_refresh =>
      image ← on_world (image_build (mkBuildSpec state_dir name apk pip npm min_image_mib force_refresh base_guest));
      send_response rid (RsImage image)
  | RqImageList rid => images ← on_world (image_list state_dir); send_response rid (RsImageList images)
  | RqImageInspect rid name => image ← on_world (inspect state_dir name); send_response rid (RsImage image)
  | RqImageRemove rid name => on_world (image_remove state_dir name);; send_response rid (RsImageRemoved name)
  | _ => throw (Backend "unreachable")
  end.

Definition known_box (box_id : Uuid) (boxes : list BoxRecord) : bool :=
  existsb (λ record, (bx_box_id record =? box_id)%N) boxes.

Definition dispatch_request (request : BoxRequest) (principal : Principal) : CM ConnectionAction :=
  let keep (m : CM ()) : CM ConnectionAction := m;; mret KeepOpen in
  let admin {A} (m : CM A) : CM A := _ ← lift (require_admin principal); m in
  let authorized {A} (box_id : Uuid) (m : CM A) : CM A := lift (authorize_box principal box_id);; m in
  match request with
  | RqPing rid => keep (send_response rid RsPong)
  | RqListBoxes rid => keep (admin (boxes ← serve bm_list_boxes; send_response rid (RsBoxList boxes)))
  | RqGetBox rid b => keep (authorized b (record ← serve (bm_get_box b); send_response rid (RsBox record)))
  | RqNewBox rid image =>
      keep (admin (record ← serve (bm_create_box_from_image image); send_response rid (RsBox record)))
  | RqImageBuild _ _ _ _ _ _ _ | RqImageList _ | RqImageInspect _ _ | RqImageRemove _ _ =>
      keep (admin (dispatch_image_request request))
  | RqStartBox rid b => keep (admin (record ← serve (bm_start_box b); send_response rid (RsBox record)))
  | RqStopBox rid b => keep (admin (record ← serve (bm_stop_box b); send_response rid (RsBox record)))
  | RqRemoveBox rid b => keep (admin (serve (bm_remove_box b);; send_response rid (RsBoxRemoved b)))
  | RqSetBoxSetting rid b value =>
      keep (admin (record ← serve (bm_set_box_setting b value); send_response rid (RsBox record)))
  | RqExecBash rid b command timeout_ms kill_grace_ms =>
      keep (authorized b (stream ← serve (bm_exec b (bash_exec command timeout_ms kill_grace_ms));
                          spawn (TkExec rid stream)))
  | RqExecPython rid b args timeout_ms kill_grace_ms =>
      keep (authorized b (stream ← serve (bm_exec b (python_exec args timeout_ms kill_grace_ms));
                          spawn (TkExec rid stream)))
  | RqOpenShell rid b target =>
      keep (authorized b (
        session ← serve (bm_open_shell b (shell_request target));
        let shell_id := shell_id_of session in
        modify (λ c, set_shells (<[shell_id := mkShellEntry b session]> (cn_shells c)) c);;
        spawn (TkShell shell_id (shell_events session));;
        send_response rid (RsShellOpened shell_id b)))
  | RqShellInput rid sid data =>
      keep (entry ← shell_handle principal sid;
            bytes ← lift (decode_bytes "invalid shell input payload" data);
            serve (shell_send_input (se_handle entry) bytes);;
            send_response rid RsAck)
  | RqResizeShell rid sid cols rows =>
      keep (entry ← shell_handle principal sid;
            serve (shell_resize (se_handle entry) cols rows);;
            send_response rid RsAck)
  | RqCloseShell rid sid =>
      keep (entry ← remove_shell principal sid;
            match entry with Some e => serve (shell_close (se_handle e)) | None => mret () end;;
            send_response rid RsAck)
  | RqFsList rid b p => keep (authorized b (entries ← serve (bm_list_files b p); send_response rid (RsFiles p entries)))
  | RqFsRead rid b p limit =>
      keep (authorized b (limit' ← lift (validate_read_limit limit);
                          file ← serve (bm_read_file b p limit');
                          send_response rid (RsFile file)))
  | RqFsWrite rid b p data create_parents =>
      keep (authorized b (bytes ← lift (decode_bytes "invalid file payload" data);
                          serve (bm_write_file b p bytes create_parents);;
                          send_response rid RsAck))
  | RqFsMkdir rid b p recursive => keep (authorized b (serve (bm_make_dir b p recursive);; send_response rid RsAck))
  | RqFsRemove rid b p recursive => keep (authorized b (serve (bm_remove_path b p recursive);; send_response rid RsAck))
  | RqCheckpointCreate rid b name metadata =>
      keep (authorized b (r ← serve (bm_checkpoint_create b name metadata); send_response rid (RsCheckpoint r)))
  | RqCheckpointList rid b =>
      keep (authorized b (l ← serve (bm_checkpoint_list b); send_response rid (RsCheckpointList l)))
  | RqCheckpointRestore rid b id mode =>
      keep (authorized b (r ← serve (bm_checkpoint_restore b id mode); send_response rid (RsCheckpoint r)))
  | RqCheckpointFork rid b id new_name =>
      keep (admin (r ← serve (bm_checkpoint_fork b id new_name); send_response rid (RsBox r)))
  | RqCheckpointDelete rid b id =>
      keep (authorized b (serve (bm_checkpoint_delete b id);; send_response rid RsAck))
  | RqShutdownDaemon rid =>
      admin (serve bm_shutdown_daemon;; send_response rid RsAck;; mret ShutdownServer)
  | RqAdminAdd rid =>
      keep (admin (bundle ← on_world (AdminStore.add_admin state_dir endpoint); send_response rid (RsAdminAdded bundle)))
  | RqBoxIssueCredentials rid b =>
      keep (admin (boxes ← serve bm_list_boxes;
                   if known_box b boxes then
                     bundle ← on_world (BoxCredentialStore.issue state_dir endpoint b);
                     send_response rid (RsBoxCredentials bundle)
                   else throw (unknown_box b)))
  | RqAdminRemoveMe rid =>
      admin_uuid ← lift (require_admin principal);
      on_world (AdminStore.remove_admin state_dir admin_uuid);;
      send_response rid RsAck;;
      mret Close
  end.

(** *** [server/mod.rs] *)

Definition authentication_failed : BoxEvent := BeError None "authentication failed".

Definition authenticate_admin (admin_uuid : Uuid) (admin_token : string) : CM bool :=
  accepted ← on_world (AdminStore.authenticate state_dir admin_uuid admin_token);
  if accepted : bool then
    modify (set_principal (PAdmin admin_uuid));;
    send_server_message (SmAuthenticated (PAdmin admin_uuid));;
    mret false
  else send_event authentication_failed;; mret true.

Definition authenticate_box (box_id : Uuid) (box_token : string) : CM bool :=
  accepted ← on_world (BoxCredentialStore.authenticate state_dir box_id box_token);
  if accepted : bool then
    modify (set_principal (PBox box_id));;
    send_server_message (SmAuthenticated (PBox box_id));;
    mret false
  else send_event authentication_failed;; mret true.

(** One client message; the result says whether to close. *)
Definition handle_message (message : ClientMessage) : CM bool :=
  match message with
  | CmAuthenticateAdmin admin_uuid admin_token => authenticate_admin admin_uuid admin_token
  | CmAuthenticateBox box_id box_token => authenticate_box box_id box_token
  | CmRequest request =>
      principal ← gets cn_principal;
      match principal with
      | None => send_event (BeError (Some (request_id request)) "authentication required");; mret false
      | Some p =>
          action ← attempt (dispatch_request request p);
          match action with
          | Ok KeepOpen => mret false
          | Ok Close => mret true
          | Ok ShutdownServer => modify set_shutdown;; mret true
          | Err error => send_event (BeError (Some (request_id request)) (error_to_string error));; mret false
          end
      end
  end.

Inductive Frame :=
  | FrText (text : string)
  | FrClose
  | FrOther                     (** binary, ping, pong and raw frames *)
  | FrError (error : string).   (** the socket failed *)

Definition handle_frame (frame : Frame) : CM bool :=
  match frame with
  | FrText text =>
      message ← map_err (Json "decoding box api request") (lift (decode_client_message text));
      handle_message message
  | FrClose => mret true
  | FrOther => mret false
  | FrError error => throw (Backend ("reading box api websocket: " ^+ error))
  end.

(** One turn of a spawned task. *)
Definition run_task (i : nat) : CM () :=
  found ← gets (λ c, cn_tasks c !! i);
  let finish : CM () := modify (λ c, set_tasks (delete i (cn_tasks c)) c) in
  let continue (t : Task) : CM () := modify (λ c, set_tasks (<[i := t]> (cn_tasks c)) c) in
  match found with
  | None => mret ()
  | Some (TkExec rid []) => finish
  | Some (TkExec rid (EvOutput stream data :: rest)) =>
      sent ← attempt (send_event (BeExecOutput rid stream (base64_encode data)));
      if is_ok sent then continue (TkExec rid rest) else finish
  | Some (TkExec rid (EvExit status :: _)) =>
      _ ← attempt (send_event (BeExecExit rid status)); finish
  | Some (TkShell sid []) => finish
  | Some (TkShell sid (ShStarted :: rest)) => continue (TkShell sid rest)
  | Some (TkShell sid (ShOutput data :: rest)) =>
      sent ← attempt (send_event (BeShellOutput sid (base64_encode data)));
      if is_ok sent then continue (TkShell sid rest) else finish
  | Some (TkShell sid (ShExit code :: _)) =>
      modify (λ c, set_shells (delete sid (cn_shells c)) c);;
      _ ← attempt (send_event (BeShellExit sid code));
      finish
  end.

(** What happens to a connection, in order; the stream of frames ends when the
    events do. *)
Inductive Event :=
  | EvFrame (frame : Frame)
  | EvShutdown
  | EvTask (i : nat).

Fixpoint connection_loop (events : list Event) : CM () :=
  match events with
  | [] => mret ()
  | EvShutdown :: _ => mret ()
  | EvTask i :: events' => run_task i;; connection_loop events'
  | EvFrame frame :: events' =>
      close ← handle_frame frame;
      if close : bool then mret () else connection_loop events'
  end.

(** The shells still open are closed; what that reports is dropped. *)
Definition drain_shells : CM () :=
  shells ← gets (λ c, map snd (map_to_list (cn_shells c)));
  modify (set_shells ∅);;
  for_each (λ entry, _ ← attempt (serve (shell_close (se_handle entry))); mret ()) shells.

Definition handle_connection (events : list Event) : CM () := connection_loop events;; drain_shells.
End server.

(** ** Authorization *)

(** Requests an admin alone may make. *)
Definition admin_only (r : BoxRequest) : bool :=
  match r with
  | RqListBoxes _ | RqNewBox _ _ | RqImageBuild _ _ _ _ _ _ _ | RqImageList _ | RqImageInspect _ _ | RqImageRemove _ _
  | RqStartBox _ _ | RqStopBox _ _ | RqRemoveBox _ _ | RqSetBoxSetting _ _ _ | RqCheckpointFork _ _ _ _
  | RqShutdownDaemon _ | RqAdminAdd _ | RqBoxIssueCredentials _ _ | RqAdminRemoveMe _ => true
  | _ => false
  end.

(** The BOX that any other request names. *)
Definition target_box (r : BoxRequest) : option Uuid :=
  match r with
  | RqGetBox _ b | RqExecBash _ b _ _ _ | RqExecPython _ b _ _ _ | RqOpenShell _ b _ | RqFsList _ b _ | RqFsRead _ b _ _
  | RqFsWrite _ b _ _ _ | RqFsMkdir _ b _ _ | RqFsRemove _ b _ _ | RqCheckpointCreate _ b _ _ | RqCheckpointList _ b
  | RqCheckpointRestore _ b _ _ | RqCheckpointDelete _ b _ => Some b
  | _ => None
  end.

Section server_laws.
Context `{Platform, Target, Serde AdminRegistry, Serde BoxCredentialRegistry, Serde VmImageManifest, Base64, ApiCrates}
  {B : Type} `{!BoxManager B} (state_dir : path) (base_guest : GuestConfig) (endpoint : string).

Local Abbreviation Conn := (Connection (B := B)).
Local Abbreviation dispatch := (dispatch_request state_dir base_guest endpoint).
Local Abbreviation message := (handle_message state_dir base_guest endpoint).
Implicit Types (c : Conn) (b : Uuid).

Lemma refused b request c :
  (admin_only request = true ∨ ∃ b', target_box request = Some b' ∧ b' ≠ b) →
  ∃ why, dispatch request (PBox b) c = (Err (Conflict why), c).
Proof.
  intros [Ha|(b' & Ht & Hne)]; destruct request; try discriminate; try (eexists; reflexivity);
    injection Ht as <-; (eexists; cbn; unfold mbind, M_bind, lift; cbn; rewrite decide_False by congruence; reflexivity).
Qed.

(** a BOX credential gives no other rights: on a connection authenticated as
    a BOX, every request reserved to admins and every request that names another
    BOX is refused as a conflict, and refused before anything else: the service,
    the disk, the shells and the tasks are exactly as they were. *)
Theorem box_principal_refused b request c :
  (admin_only request = true ∨ ∃ b', target_box request = Some b' ∧ b' ≠ b) →
  ∃ why, dispatch request (PBox b) c = (Err (Conflict why), c).
Proof. apply refused. Qed.

(** before it has authenticated, a connection gets nothing done: a request of
    any kind is answered with an error, and changes neither the service nor the
    disk nor the state of the connection. *)
Theorem unauthenticated_request_rejected request c :
  cn_principal c = None → cn_send_faults c = [] →
  message (CmRequest request) c =
    (Ok false, set_sent (cn_sent c ++ [SmEvent (BeError (Some (request_id request)) "authentication required")]) [] c).
Proof.
  intros Hp Hf. cbn. unfold mbind, M_bind, gets. rewrite Hp. unfold send_event, send_server_message. by rewrite Hf.
Qed.

(** ** Confinement

    [I] is any property of the disk and the BOX service that the calls on behalf
    of one BOX keep, [own_shell] the shells of that BOX. *)

Class Serves (b : Uuid) (I : World * B → Prop) (own_shell : bm_shell → Prop) : Prop := {
  sv_get : keeps (preserves I) (bm_get_box b);
  sv_exec r : keeps (preserves I) (bm_exec b r);
  sv_open r : keeps (preserves I) (bm_open_shell b r);
  sv_open_own r h sh h' : bm_open_shell b r h = (Ok sh, h') → own_shell sh;
  sv_list_files p : keeps (preserves I) (bm_list_files b p);
  sv_read_file p n : keeps (preserves I) (bm_read_file b p n);
  sv_write_file p d cp : keeps (preserves I) (bm_write_file b p d cp);
  sv_make_dir p r : keeps (preserves I) (bm_make_dir b p r);
  sv_remove_path p r : keeps (preserves I) (bm_remove_path b p r);
  sv_checkpoint_create n m : keeps (preserves I) (bm_checkpoint_create b n m);
  sv_checkpoint_list : keeps (preserves I) (bm_checkpoint_list b);
  sv_checkpoint_restore id m : keeps (preserves I) (bm_checkpoint_restore b id m);
  sv_checkpoint_delete id : keeps (preserves I) (bm_checkpoint_delete b id);
  sv_input sh d : own_shell sh → keeps (preserves I) (shell_send_input sh d);
  sv_resize sh x y : own_shell sh → keeps (preserves I) (shell_resize sh x y);
  sv_close sh : own_shell sh → keeps (preserves I) (shell_close sh);
}.

Context (b : Uuid) (I : World * B → Prop) (own_shell : bm_shell → Prop) `{!Serves b I own_shell}.

Record confined (c : Conn) : Prop := {
  cf_inv : I (cn_host c);
  cf_principal : cn_principal c = None ∨ cn_principal c = Some (PBox b);
  cf_shells : map_Forall (λ _ e, se_box_id e = b ∧ own_shell (se_handle e)) (cn_shells c);
}.

(** A message that is not another credential that works. *)
Definition harmless (m : ClientMessage) : Prop :=
  match m with
  | CmAuthenticateAdmin id token => ∀ w h, I (w, h) →
      I ((AdminStore.authenticate state_dir id token w).2, h) ∧ (AdminStore.authenticate state_dir id token w).1 ≠ Ok true
  | CmAuthenticateBox b' token => ∀ w h, I (w, h) →
      I ((BoxCredentialStore.authenticate state_dir b' token w).2, h) ∧
      (b' ≠ b → (BoxCredentialStore.authenticate state_dir b' token w).1 ≠ Ok true)
  | CmRequest _ => True
  end.

Lemma cf_serve {A} (m : M SandboxError (World * B) A) : keeps (preserves I) m → keeps (preserves confined) (serve m).
Proof.
  apply keeps_zoom. intros c h Hh [Hi Hp Hs]. by split; [apply Hh| |].
Qed.
Lemma cf_send m : keeps (preserves confined) (send_server_message m : M SandboxError Conn ()).
Proof.
  intros c [Hi Hp Hs]. unfold send_server_message. by destruct (cn_send_faults c) as [|[]].
Qed.
Lemma cf_spawn t : keeps (preserves confined) (spawn t : M SandboxError Conn ()).
Proof. by intros c [Hi Hp Hs]. Qed.
Lemma cf_respond rid r : keeps (preserves confined) (send_response rid r : M SandboxError Conn ()).
Proof. apply cf_send. Qed.
Lemma cf_event e : keeps (preserves confined) (send_event e : M SandboxError Conn ()).
Proof. apply cf_send. Qed.
Lemma cf_set_tasks f : keeps (preserves confined) (modify (λ c : Conn, set_tasks (f c) c) : M SandboxError Conn ()).
Proof. by intros c [Hi Hp Hs]. Qed.
Lemma cf_remove sid :
  keeps (preserves confined) (modify (λ c : Conn, set_shells (delete sid (cn_shells c)) c) : M SandboxError Conn ()).
Proof. intros c [Hi Hp Hs]. split; [done|done|]. by apply map_Forall_delete. Qed.
Hint Resolve cf_send cf_spawn cf_respond cf_event cf_set_tasks cf_remove : keeps.
Hint Resolve sv_get sv_exec sv_open sv_list_files sv_read_file sv_write_file sv_make_dir sv_remove_path
  sv_checkpoint_create sv_checkpoint_list sv_checkpoint_restore sv_checkpoint_delete cf_serve : keeps.

Lemma cf_shell_handle sid : keeps (preserves confined) (shell_handle (PBox b) sid : M SandboxError Conn _).
Proof. unfold shell_handle. keeps_tac. Qed.
Lemma shell_handle_own sid c e c' :
  confined c → shell_handle (PBox b) sid c = (Ok e, c') → own_shell (se_handle e).
Proof.
  intros [_ _ Hs] Hr. unfold shell_handle in Hr.
  apply bind_ok_inv in Hr as (o & c1 & [-> <-]%gets_ok_inv & Hr).
  apply bind_ok_inv in Hr as (e' & c2 & [He <-]%lift_ok_inv & Hr).
  apply bind_ok_inv in Hr as ([] & c3 & _ & Hr). apply ret_ok_inv in Hr as [<- _].
  destruct (cn_shells c !! sid) as [x|] eqn:Hx; [|done]. injection He as <-. by apply (Hs _ _ Hx).
Qed.
Lemma remove_shell_own sid c e c' :
  confined c → remove_shell (PBox b) sid c = (Ok (Some e), c') → own_shell (se_handle e).
Proof.
  intros [_ _ Hs] Hr. unfold remove_shell in Hr.
  apply bind_ok_inv in Hr as (o & c1 & [-> <-]%gets_ok_inv & Hr).
  apply bind_ok_inv in Hr as ([] & c2 & _ & Hr). apply bind_ok_inv in Hr as ([] & c3 & _ & Hr).
  apply ret_ok_inv in Hr as [He _]. by apply (Hs _ _ He).
Qed.

Lemma cf_open_shell rid target : keeps (preserves confined) (dispatch (RqOpenShell rid b target) (PBox b)).
Proof.
  cbn [dispatch_request]. cbv zeta. keeps_step; [|keeps_step]. keeps_step; [keeps_step|].
  apply preserves_bind; [apply cf_serve, sv_open|]. intros c sh c' _ Hsh.
  assert (Hown : own_shell sh).
  { revert Hsh. unfold serve, zoom. destruct (bm_open_shell b (shell_request target) (cn_host c)) as [r h] eqn:E.
    intros [= -> _]. by eapply sv_open_own. }
  keeps_tac. intros c2 [Hi Hp Hs]. split; [done|done|]. cbn. by apply map_Forall_insert_2.
Qed.

Lemma cf_dispatch request : keeps (preserves confined) (dispatch request (PBox b)).
Proof.
  destruct (admin_only request) eqn:Ha.
  { intros c Hc. destruct (refused b request c) as [why ->]; [by left|done]. }
  assert (Ht : target_box request = None ∨ target_box request = Some b ∨ ∃ b', target_box request = Some b' ∧ b' ≠ b).
  { destruct (target_box request) as [b'|]; [|by left]. destruct (decide (b' = b)); naive_solver. }
  destruct Ht as [Ht|[Ht|Ht]]; [..|intros c Hc; destruct (refused b request c) as [why ->]; [by right|done]].
  - destruct request; try discriminate; cbn [dispatch_request]; cbv zeta; try solve [keeps_tac].
    + keeps_step; [|keeps_step]. apply preserves_bind; [apply cf_shell_handle|].
      intros c e c' Hc He%(shell_handle_own _ _ _ _ Hc). keeps_tac. by apply cf_serve, sv_input.
    + keeps_step; [|keeps_step]. apply preserves_bind; [apply cf_shell_handle|].
      intros c e c' Hc He%(shell_handle_own _ _ _ _ Hc). keeps_tac. by apply cf_serve, sv_resize.
    + keeps_step; [|keeps_step]. apply preserves_bind; [unfold remove_shell; keeps_tac|].
      intros c [e|] c' Hc He; [|keeps_tac]. apply (remove_shell_own _ _ _ _ Hc) in He. keeps_tac.
      by apply cf_serve, sv_close.
  - destruct request; try discriminate; injection Ht as ->; try apply cf_open_shell;
      cbn [dispatch_request]; cbv zeta; keeps_tac.
Qed.

Lemma cf_on_world {A} (m : M SandboxError World A) :
  (∀ w h, I (w, h) → I ((m w).2, h)) → keeps (preserves confined) (on_world m).
Proof.
  intros Hm c [Hi Hp Hs]. unfold on_world, zoom. specialize (Hm (cn_host c).1 (cn_host c).2).
  destruct (m (cn_host c).1) as [r w]. split; [|done|done]. apply Hm. by destruct (cn_host c).
Qed.

Lemma on_world_value {A} (m : M SandboxError World A) c a c' : on_world m c = (Ok a, c') → (m (cn_host c).1).1 = Ok a.
Proof. unfold on_world, zoom. destruct (m (cn_host c).1) as [r w]. by intros [= -> _]. Qed.

Lemma cf_message m : harmless m → keeps (preserves confined) (message m).
Proof.
  intros Hm. destruct m as [id token|b' token|request]; cbn [handle_message].
  - unfold authenticate_admin. apply preserves_bind; [apply cf_on_world; intros w h Hi; by apply (Hm w h)|].
    intros c a c' [Hi _ _] Ha%on_world_value. destruct a; [|keeps_tac].
    destruct (Hm (cn_host c).1 (cn_host c).2) as [_ Hno]; [by destruct (cn_host c)|done].
  - unfold authenticate_box. apply preserves_bind; [apply cf_on_world; intros w h Hi; by apply (Hm w h)|].
    intros c a c' [Hi _ _] Ha%on_world_value. destruct a; [|keeps_tac].
    destruct (Hm (cn_host c).1 (cn_host c).2) as [_ Hno]; [by destruct (cn_host c)|].
    assert (b' = b) as -> by (destruct (decide (b' = b)); [done|by destruct Hno]).
    keeps_tac. intros c2 [Hi2 Hp2 Hs2]. by split; [|right|].
  - apply preserves_bind; [keeps_tac|]. intros c p c' [_ Hp _] [-> <-]%gets_ok_inv.
    destruct Hp as [->| ->]; [keeps_tac|]. keeps_step; [keeps_step; apply cf_dispatch|].
    keeps_tac. by intros c2 [Hi2 Hp2 Hs2].
Qed.

Lemma cf_task i : keeps (preserves confined) (run_task i).
Proof. unfold run_task. cbv zeta. keeps_tac; try apply (cf_set_tasks (λ c, _)). Qed.

Lemma cf_loop events :
  (∀ text m, EvFrame (FrText text) ∈ events → decode_client_message text = Ok m → harmless m) →
  keeps (preserves confined) (connection_loop state_dir base_guest endpoint events).
Proof.
  induction events as [|[frame| |i] events IH]; intros Hev; cbn [connection_loop]; [keeps_tac| |keeps_tac|].
  - assert (IH' : keeps (preserves confined) (connection_loop state_dir base_guest endpoint events)).
    { apply IH. intros text m Hin. apply Hev. by right. }
    keeps_step; [|keeps_tac; exact IH']. destruct frame as [text| | |error]; cbn [handle_frame]; [|keeps_tac..].
    apply preserves_bind; [keeps_tac|]. intros c m c' _ Hm. ok_inv. apply cf_message. eapply Hev; [left|done].
  - keeps_step; [apply cf_task|]. apply IH. intros text m Hin. apply Hev. by right.
Qed.

Lemma cf_drain : keeps (preserves confined) drain_shells.
Proof.
  unfold drain_shells. apply preserves_bind; [keeps_tac|]. intros c l c' [_ _ Hs] [-> <-]%gets_ok_inv.
  keeps_step; [intros c2 [Hi2 Hp2 Hs2]; by split|]. apply keeps_for_each; [typeclasses eauto|].
  intros e He. keeps_tac. apply cf_serve, sv_close.
  apply list_elem_of_fmap in He as ([sid e'] & -> & He). apply elem_of_map_to_list in He. by apply (Hs _ _ He).
Qed.

Lemma confined_connection events c :
  (∀ text m, EvFrame (FrText text) ∈ events → decode_client_message text = Ok m → harmless m) →
  confined c → confined (handle_connection state_dir base_guest endpoint events c).2.
Proof.
  intros Hev Hc. unfold handle_connection. revert c Hc.
  enough (keeps (preserves confined) (connection_loop state_dir base_guest endpoint events;; drain_shells)) as Hk
    by (intros c Hc; by apply Hk).
  keeps_step; [by apply cf_loop|apply cf_drain].
Qed.

(** a client that holds the credential of one BOX only is confined to it:
    through any sequence of messages, task turns and failures on its connection,
    a property of the disk and of the BOX service that the calls for that BOX
    and its shells keep is kept, and the connection is never authenticated as
    anyone else, as long as no other credential it tries is accepted. *)
Theorem box_client_confined events c :
  (∀ text m, EvFrame (FrText text) ∈ events → decode_client_message text = Ok m → harmless m) →
  confined c → confined (handle_connection state_dir base_guest endpoint events c).2.
Proof. apply confined_connection. Qed.
End server_laws.

(** ** Relaying and closing *)

Section relay.
Context `{Platform, Target, Serde AdminRegistry, Serde BoxCredentialRegistry, Serde VmImageManifest, Base64, ApiCrates}
  {B : Type} `{!BoxManager B} (state_dir : path) (base_guest : GuestConfig) (endpoint : string).

Local Abbreviation Conn := (Connection (B := B)).
Implicit Types (c : Conn).

(** What a client is to see of a command: its output, up to the first exit. *)
Fixpoint relayed (rid : string) (stream : list ExecutionEvent) : list BoxEvent :=
  match stream with
  | [] => []
  | EvOutput s data :: rest => BeExecOutput rid s (base64_encode data) :: relayed rid rest
  | EvExit status :: _ => [BeExecExit rid status]
  end.

(** The turns the task takes to relay it and end. *)
Fixpoint relay_turns (stream : list ExecutionEvent) : nat :=
  match stream with
  | [] | EvExit _ :: _ => 1
  | EvOutput _ _ :: rest => S (relay_turns rest)
  end.

Definition run_turns (i n : nat) c : Conn := Nat.iter n (λ c, (run_task i c).2) c.

Lemma run_turns_S i n c : run_turns i (S n) c = run_turns i n (run_task i c).2.
Proof. unfold run_turns. by rewrite Nat.iter_succ_r. Qed.

Lemma list_delete_insert {A} (i : nat) (x : A) (l : list A) : delete i (<[i := x]> l) = delete i l.
Proof. revert i. induction l as [|y l IH]; intros [|i]; cbn; [done..|]. f_equal. apply IH. Qed.

(** on a connection that works, the task of a command relays the output of
    the command in order, ends with its exit status and sends nothing after it,
    and then is gone; it touches neither the service, nor the shells, nor the
    other tasks. *)
Theorem exec_relay_complete i rid stream c :
  cn_send_faults c = [] → cn_tasks c !! i = Some (TkExec rid stream) →
  run_turns i (relay_turns stream) c =
    set_tasks (delete i (cn_tasks c)) (set_sent (cn_sent c ++ map SmEvent (relayed rid stream)) [] c).
Proof.
  revert c. induction stream as [|[s data|status] stream IH]; intros c Hf Ht.
  - cbn. unfold run_task, mbind, M_bind, gets. rewrite Ht. cbn. rewrite app_nil_r, <-Hf. by destruct c.
  - cbn [relay_turns]. rewrite run_turns_S. unfold run_task, mbind, M_bind, gets. rewrite Ht.
    unfold attempt, send_event, send_server_message. rewrite Hf. cbn -[run_turns].
    assert (Hi : i < length (cn_tasks c)) by (by apply lookup_lt_Some in Ht).
    rewrite IH; [|done|by apply list_lookup_insert_eq]. unfold set_tasks, set_sent. cbn. f_equal.
    + by rewrite <-app_assoc.
    + apply list_delete_insert.
  - cbn. unfold run_task, mbind, M_bind, gets. rewrite Ht. unfold attempt, send_event, send_server_message.
    by rewrite Hf.
Qed.

(** Closing a list of shells, whatever each answers. *)
Lemma close_each l c :
  for_each (λ entry, _ ← attempt (F := SandboxError) (serve (shell_close (se_handle entry))); mret ()) l c =
  (Ok (), set_cn_host (foldl (λ h e, (shell_close (se_handle e) h).2) (cn_host c) l) c).
Proof.
  revert c. induction l as [|e l IH]; intros c; cbn [for_each foldl]; [by destruct c|].
  unfold mbind, M_bind, attempt, serve, zoom. destruct (shell_close (se_handle e) (cn_host c)) as [r h]. cbn.
  rewrite IH. by destruct c.
Qed.

(** how the loop of a connection ends decides over its shells.  When it ends
    because the client closed, because it was told to or because the daemon
    stops, every shell still open is closed, in turn and whatever each answers.
    When it ends with an error, such as a socket that broke or a message that
    does not decode, none is: the shells stay open in the guest and nothing
    refers to them any more. *)
Theorem connection_end_and_shells events c u c1 :
  connection_loop state_dir base_guest endpoint events c = (u, c1) →
  handle_connection state_dir base_guest endpoint events c =
    match u with
    | Ok () => (Ok (), set_cn_host (foldl (λ h e, (shell_close (se_handle e) h).2) (cn_host c1)
                                      (map snd (map_to_list (cn_shells c1)))) (set_shells ∅ c1))
    | Err e => (Err e, c1)
    end.
Proof.
  intros Hl. unfold handle_connection, mbind, M_bind. rewrite Hl. destruct u as [[]|e]; [|done].
  unfold drain_shells, mbind, M_bind, gets, modify. by rewrite close_each.
Qed.
End relay.
