(* ===== verification/BoxClient.v ===== *)
(** * BoxClient: [src/box_api/client], the client of the BOX API

    One websocket carries the calls of many tasks, as in [GuestRpc].  A call
    registers a oneshot channel under its request identifier and writes its
    request; the reader task routes every message of the daemon.  The events of
    a shell can arrive before its caller has registered a channel for them: they
    are buffered and replayed.  A run is an explicit sequence of the points at
    which another task can come in between. *)

From S2P Require Import Prelude RustStd FileSystem Auth Manifest Config Lineage Workspace Images Protocol GuestRpc BoxStore BoxApi.

(** What the client uses of [serde_json]. *)
Class ClientCrates := {
  encode_client_message : ClientMessage → Result string string;
  decode_server_message : string → Result string ServerMessage;
}.

Module ApiClient.

(** ** Errors of the daemon *)

Definition remote_error (message : string) : SandboxError :=
  match strip_prefix "invalid configuration: " message with Some detail => InvalidConfig detail | None =>
  match strip_prefix "not found: " message with Some detail => NotFound detail | None =>
  match strip_prefix "conflict: " message with Some detail => Conflict detail | None =>
  match strip_prefix "backend failure: " message with Some detail => Backend detail | None =>
  match strip_prefix "unsupported host: " message with Some detail => UnsupportedHost detail | None =>
  match strip_prefix "protocol error: " message with Some detail => Prelude.Protocol detail | None =>
  match strip_prefix "timeout: " message with Some detail => Timeout detail | None =>
  Backend message
  end end end end end end end.

Definition is_connection_lost_error (error : SandboxError) : bool :=
  let message := error_to_string error in
  contains "reading websocket message failed" message
  || contains "websocket connection closed" message
  || contains "Connection reset without closing handshake" message.

(** ** The state of a connection *)

(** Senders are the positions of their channels. *)
Record ClientState := mkState {
  pending_responses : gmap string nat;
  exec_streams : gmap string nat;
  shell_streams : gmap Uuid nat;
  buffered_shell_events : gmap Uuid (list BoxEvent);
}.

Definition ClientState_default : ClientState := mkState ∅ ∅ ∅ ∅.

Abbreviation Answer := (Result SandboxError BoxResponse).

(** What the receiver of a oneshot channel finds. *)
Inductive Delivery := Delivered (answer : Answer) | SenderDropped.

Record Oneshot := mkOneshot { os_id : string; os_value : option Delivery }.

(** What the reader has still to do for the message it has taken; [locked] says
    that the lock of the state is held until the send goes through. *)
Inductive Act :=
  | ASend (ch : nat) (event : BoxEvent) (locked : bool)
  | AForgetExec (request_id : string)
  | AForgetShell (shell_id : Uuid).

Record BoxApiClient := mkApi {
  ac_state : ClientState;
  ac_oneshots : list Oneshot;
  ac_chans : list (Chan BoxEvent);
  ac_auth : option (Result SandboxError ());
  ac_reading : bool;
  ac_todo : list Act;
  ac_replays : list (nat * list BoxEvent);
  ac_next_id : Z;
  ac_written : list string;
  ac_write_faults : list (option string);
}.

Definition set_state (s : ClientState) (c : BoxApiClient) : BoxApiClient :=
  mkApi s (ac_oneshots c) (ac_chans c) (ac_auth c) (ac_reading c) (ac_todo c) (ac_replays c) (ac_next_id c)
    (ac_written c) (ac_write_faults c).
Definition set_oneshots (l : list Oneshot) (c : BoxApiClient) : BoxApiClient :=
  mkApi (ac_state c) l (ac_chans c) (ac_auth c) (ac_reading c) (ac_todo c) (ac_replays c) (ac_next_id c)
    (ac_written c) (ac_write_faults c).
Definition set_chans (l : list (Chan BoxEvent)) (c : BoxApiClient) : BoxApiClient :=
  mkApi (ac_state c) (ac_oneshots c) l (ac_auth c) (ac_reading c) (ac_todo c) (ac_replays c) (ac_next_id c)
    (ac_written c) (ac_write_faults c).
Definition set_reader (reading : bool) (todo : list Act) (c : BoxApiClient) : BoxApiClient :=
  mkApi (ac_state c) (ac_oneshots c) (ac_chans c) (ac_auth c) reading todo (ac_replays c) (ac_next_id c)
    (ac_written c) (ac_write_faults c).
Definition set_todo (todo : list Act) (c : BoxApiClient) : BoxApiClient := set_reader (ac_reading c) todo c.
Definition set_replays (l : list (nat * list BoxEvent)) (c : BoxApiClient) : BoxApiClient :=
  mkApi (ac_state c) (ac_oneshots c) (ac_chans c) (ac_auth c) (ac_reading c) (ac_todo c) l (ac_next_id c)
    (ac_written c) (ac_write_faults c).
Definition set_next_id (n : Z) (c : BoxApiClient) : BoxApiClient :=
  mkApi (ac_state c) (ac_oneshots c) (ac_chans c) (ac_auth c) (ac_reading c) (ac_todo c) (ac_replays c) n
    (ac_written c) (ac_write_faults c).
Definition set_writer (w : list string) (f : list (option string)) (c : BoxApiClient) : BoxApiClient :=
  mkApi (ac_state c) (ac_oneshots c) (ac_chans c) (ac_auth c) (ac_reading c) (ac_todo c) (ac_replays c) (ac_next_id c)
    w f.

(** [auth_tx.take()] and its send: the first result stays. *)
Definition send_auth (r : Result SandboxError ()) (c : BoxApiClient) : BoxApiClient :=
  mkApi (ac_state c) (ac_oneshots c) (ac_chans c) (match ac_auth c with None => Some r | v => v end)
    (ac_reading c) (ac_todo c) (ac_replays c) (ac_next_id c) (ac_written c) (ac_write_faults c).

Definition with_pending (m : gmap string nat) (s : ClientState) : ClientState :=
  mkState m (exec_streams s) (shell_streams s) (buffered_shell_events s).
Definition with_execs (m : gmap string nat) (s : ClientState) : ClientState :=
  mkState (pending_responses s) m (shell_streams s) (buffered_shell_events s).
Definition with_shells (m : gmap Uuid nat) (b : gmap Uuid (list BoxEvent)) (s : ClientState) : ClientState :=
  mkState (pending_responses s) (exec_streams s) m b.

(** The connection before anything was written. *)
Definition client_new (faults : list (option string)) : BoxApiClient :=
  mkApi ClientState_default [] [] None true [] [] 1 [] faults.

(** ** Routing: [state.rs] *)

Definition os_fill (v : Delivery) (o : Oneshot) : Oneshot :=
  mkOneshot (os_id o) (match os_value o with None => Some v | w => w end).

(** [pending_responses.remove(id)] with what happens to its sender. *)
Definition resolve (id : string) (v : Delivery) (c : BoxApiClient) : BoxApiClient :=
  match pending_responses (ac_state c) !! id with
  | Some ch =>
      set_state (with_pending (delete id (pending_responses (ac_state c))) (ac_state c))
        (set_oneshots (alter (os_fill v) ch (ac_oneshots c)) c)
  | None => c
  end.

Definition forget_exec (id : string) (c : BoxApiClient) : BoxApiClient :=
  set_state (with_execs (delete id (exec_streams (ac_state c))) (ac_state c)) c.
Definition forget_shell (sid : Uuid) (c : BoxApiClient) : BoxApiClient :=
  set_state (with_shells (delete sid (shell_streams (ac_state c))) (buffered_shell_events (ac_state c)) (ac_state c)) c.
Definition buffer_shell_event (sid : Uuid) (event : BoxEvent) (c : BoxApiClient) : BoxApiClient :=
  let buffered := buffered_shell_events (ac_state c) in
  set_state (with_shells (shell_streams (ac_state c)) (<[sid := default [] (buffered !! sid) ++ [event]]> buffered)
    (ac_state c)) c.

(** [fail_all]: every waiting call is answered, every stream gets the error, the
    buffered events are dropped.  The order among the streams is that of
    [map_to_list], where [HashMap] leaves it open. *)
Definition fail_all (message : string) (c : BoxApiClient) : BoxApiClient :=
  let s := ac_state c in
  let answer ch o := if decide (pending_responses s !! os_id o = Some ch)
                     then os_fill (Delivered (Err (remote_error message))) o else o in
  let notify ch := ASend ch (BeError None message) false in
  set_todo ((notify <$> (map_to_list (exec_streams s)).*2) ++ (notify <$> (map_to_list (shell_streams s)).*2))
    (set_oneshots (imap answer (ac_oneshots c)) (set_state ClientState_default c)).

(** [dispatch_event] of a message the reader has just taken. *)
Definition dispatch_event (event : BoxEvent) (c : BoxApiClient) : BoxApiClient :=
  let s := ac_state c in
  match event with
  | BeResponse id response => resolve id (Delivered (Ok response)) c
  | BeError (Some id) message =>
      match pending_responses s !! id with
      | Some _ => resolve id (Delivered (Err (remote_error message))) c
      | None =>
          match exec_streams s !! id with
          | Some ch => set_todo [ASend ch event true] (forget_exec id c)
          | None => c
          end
      end
  | BeExecOutput id _ _ =>
      match exec_streams s !! id with Some ch => set_todo [ASend ch event false] c | None => c end
  | BeExecExit id _ =>
      set_todo (match exec_streams s !! id with Some ch => [ASend ch event false] | None => [] end ++ [AForgetExec id]) c
  | BeShellOutput sid _ =>
      match shell_streams s !! sid with
      | Some ch => set_todo [ASend ch event false] c
      | None => buffer_shell_event sid event c
      end
  | BeShellExit sid _ =>
      match shell_streams s !! sid with
      | Some ch => set_todo [ASend ch event false; AForgetShell sid] c
      | None => buffer_shell_event sid event c
      end
  | BeError None message => fail_all message c
  end.

Definition validate_auth (principal : Principal) (request : ClientMessage) : Result SandboxError () :=
  let unexpected := Err (Backend "websocket authenticated as an unexpected principal") in
  match principal, request with
  | PAdmin actual, CmAuthenticateAdmin admin_uuid _ => if decide (actual = admin_uuid) then Ok () else unexpected
  | PBox actual, CmAuthenticateBox box_id _ => if decide (actual = box_id) then Ok () else unexpected
  | _, _ => unexpected
  end.

(** ** The connection: [mod.rs] *)

(** A call with one answer: the request it makes of its identifier and the answer
    it expects. *)
Record Op (T : Type) := mkOp { op_request : string → BoxRequest; op_map : BoxResponse → option T }.
Arguments mkOp {T} _ _.
Arguments op_request {T} _ _.
Arguments op_map {T} _ _.

Section client.
Context `{Base64, ClientCrates}.

Abbreviation CM := (M SandboxError BoxApiClient).

(** What [reader.next()] gives the reader task. *)
Inductive Input :=
  | WsText (text : string)
  | WsClose
  | WsOther                     (** binary, ping, pong and raw frames *)
  | WsError (error : string)
  | WsEnd.

Definition closed_message : string := "websocket connection closed".

(** The reader gives up: whoever waits for the handshake and every call is told. *)
Definition stop_reading (error : SandboxError) (message : string) (c : BoxApiClient) : BoxApiClient :=
  let c' := fail_all message (send_auth (Err error) c) in set_reader false (ac_todo c') c'.

(** One turn of the reader task of [connect_with_auth]; it takes a message once
    it is done with the last. *)
Definition read_message (auth : ClientMessage) (input : Input) (c : BoxApiClient) : option BoxApiClient :=
  if negb (ac_reading c) then None
  else if decide (ac_todo c ≠ []) then None
  else Some match input with
  | WsText text =>
      match decode_server_message text with
      | Ok (SmAuthenticated principal) => send_auth (validate_auth principal auth) c
      | Ok (SmEvent event) => dispatch_event event c
      | Err error =>
          let message := error_to_string (Json "decoding websocket server message" error) in
          stop_reading (Backend message) message c
      end
  | WsClose | WsEnd => stop_reading (Backend closed_message) closed_message c
  | WsOther => c
  | WsError error =>
      let message := error_to_string (Backend ("reading websocket message failed: " ^+ error)) in
      stop_reading (Backend message) message c
  end.

(** The next send or removal of the reader; [None] while it waits for room. *)
Definition run_act (c : BoxApiClient) : option BoxApiClient :=
  match ac_todo c with
  | [] => None
  | ASend ch e _ :: rest =>
      chan ← ac_chans c !! ch; chan' ← ch_send e chan;
      Some (set_todo rest (set_chans (<[ch := chan']> (ac_chans c)) c))
  | AForgetExec id :: rest => Some (set_todo rest (forget_exec id c))
  | AForgetShell sid :: rest => Some (set_todo rest (forget_shell sid c))
  end.

(** [writer.send(Message::Text(..))] *)
Definition ws_send (context payload : string) : CM () := λ c,
  match ac_write_faults c with
  | Some error :: faults => (Err (Backend (context ^+ error)), set_writer (ac_written c) faults c)
  | faults => (Ok (), set_writer (ac_written c ++ [payload]) (tail faults) c)
  end.

(** [connect_with_auth] once the socket is open and the reader spawned, up to
    its wait; and what it makes of the handshake. *)
Definition begin_auth (auth : ClientMessage) : CM () :=
  payload ← map_err (Json "encoding auth request") (lift (encode_client_message auth));
  ws_send "sending auth request: " payload.

Definition connect_as_admin (config : UserConfig) : ClientMessage :=
  CmAuthenticateAdmin (uc_admin_uuid config) (uc_admin_token config).
Definition connect_as_box (box_id : Uuid) (box_token : string) : ClientMessage := CmAuthenticateBox box_id box_token.

(** [AtomicU64::fetch_add] wraps. *)
Definition next_request_id : CM string := λ c,
  (Ok (pretty (ac_next_id c)), set_next_id ((ac_next_id c + 1) mod 2 ^ 64)%Z c).

Definition send_request (request : BoxRequest) : CM () :=
  payload ← map_err (Json "encoding websocket request") (lift (encode_client_message (CmRequest request)));
  ws_send "sending websocket request: " payload.

(** A sender that was there is dropped. *)
Definition register_response (id : string) : CM nat := λ c0,
  let c := resolve id SenderDropped c0 in
  let ch := length (ac_oneshots c) in
  (Ok ch, set_state (with_pending (<[id := ch]> (pending_responses (ac_state c))) (ac_state c))
            (set_oneshots (ac_oneshots c ++ [mkOneshot id None]) c)).

(** [request_response] up to its wait, and what it makes of the answer. *)
Definition begin_request (request : BoxRequest) : CM nat :=
  ch ← register_response (request_id request);
  send_request request;;
  mret ch.

Definition finish_request {T} (id : string) (map : BoxResponse → option T) (d : Delivery) : Result SandboxError T :=
  match d with
  | Delivered (Ok response) => ok_or (Prelude.Protocol ("unexpected response type for request " ^+ id)) (map response)
  | Delivered (Err error) => Err error
  | SenderDropped => Err (Backend ("response waiter dropped for request " ^+ id))
  end.

(** A channel for the events of a command; a sender that was there is dropped. *)
Definition register_exec (id : string) (c : BoxApiClient) : BoxApiClient :=
  set_state (with_execs (<[id := length (ac_chans c)]> (exec_streams (ac_state c))) (ac_state c))
    (set_chans (ac_chans c ++ [new_chan]) c).

Definition open_exec_channel (request : BoxRequest) : CM (string * nat) :=
  let id := request_id request in
  ch ← gets (λ c, length (ac_chans c));
  modify (register_exec id);;
  r ← attempt (send_request request);
  match r with
  | Ok () => mret (id, ch)
  | Err error => modify (forget_exec id);; throw error
  end.

(** [register_shell_channel] up to the release of the lock: what it has still to
    replay is recorded, for [replay]. *)
Definition register_shell_channel (sid : Uuid) : CM nat := λ c,
  let s := ac_state c in
  let ch := length (ac_chans c) in
  (Ok ch, set_replays (ac_replays c ++ [(ch, default [] (buffered_shell_events s !! sid))])
            (set_state (with_shells (<[sid := ch]> (shell_streams s)) (delete sid (buffered_shell_events s)) s)
              (set_chans (ac_chans c ++ [new_chan]) c))).

(** The next send of its loop. *)
Definition replay (i : nat) (c : BoxApiClient) : option BoxApiClient :=
  match ac_replays c !! i with
  | Some (ch, event :: rest) =>
      chan ← ac_chans c !! ch; chan' ← ch_send event chan;
      Some (set_replays (<[i := (ch, rest)]> (ac_replays c)) (set_chans (<[ch := chan']> (ac_chans c)) c))
  | _ => None
  end.

Definition decode_bytes (context value : string) : Result SandboxError bytes :=
  match base64_decode value with
  | Ok b => Ok b
  | Err error => Err (Prelude.Protocol (context ^+ ": " ^+ error))
  end.

(** ** Calls with one answer: [ops.rs], [checkpoints.rs], [ops/]

    A call is an [Op]. *)

Definition begin_op {T} (op : Op T) : CM (string * nat) :=
  id ← next_request_id; ch ← begin_request (op_request op id); mret (id, ch).
Definition finish_op {T} (op : Op T) (id : string) (d : Delivery) : Result SandboxError T :=
  finish_request id (op_map op) d.

Definition request_box (request : string → BoxRequest) : Op BoxRecord :=
  mkOp request (λ r, match r with RsBox record => Some record | _ => None end).
Definition request_ack (request : string → BoxRequest) : Op () :=
  mkOp request (λ r, match r with RsAck => Some () | _ => None end).

Definition list_boxes : Op (list BoxRecord) :=
  mkOp RqListBoxes (λ r, match r with RsBoxList boxes => Some boxes | _ => None end).
Definition get_box (b : Uuid) : Op BoxRecord := request_box (λ id, RqGetBox id b).
Definition create_box_from_image (image : option string) : Op BoxRecord := request_box (λ id, RqNewBox id image).
Definition create_box : Op BoxRecord := create_box_from_image None.
Definition start_box (b : Uuid) : Op BoxRecord := request_box (λ id, RqStartBox id b).
(** The first request of [stop_box]; [recover_stopped_box] follows an error. *)
Definition request_stop (b : Uuid) : Op BoxRecord := request_box (λ id, RqStopBox id b).
Definition remove_box (b : Uuid) : Op () :=
  mkOp (λ id, RqRemoveBox id b) (λ r, match r with RsBoxRemoved _ => Some () | _ => None end).
Definition set_box_setting (b : Uuid) (value : BoxSettingValue) : Op BoxRecord :=
  request_box (λ id, RqSetBoxSetting id b value).

Definition checkpoint_create (b : Uuid) (name : option string) (metadata : gmap string string) :
    Op WorkspaceCheckpointRecord :=
  mkOp (λ id, RqCheckpointCreate id b name metadata) (λ r, match r with RsCheckpoint k => Some k | _ => None end).
Definition checkpoint_list (b : Uuid) : Op (list WorkspaceCheckpointRecord) :=
  mkOp (λ id, RqCheckpointList id b) (λ r, match r with RsCheckpointList l => Some l | _ => None end).
Definition checkpoint_restore (b : Uuid) (checkpoint_id : string) (mode : CheckpointRestoreMode) :
    Op WorkspaceCheckpointRecord :=
  mkOp (λ id, RqCheckpointRestore id b checkpoint_id mode) (λ r, match r with RsCheckpoint k => Some k | _ => None end).
Definition checkpoint_fork (b : Uuid) (checkpoint_id : string) (new_box_name : option string) : Op BoxRecord :=
  mkOp (λ id, RqCheckpointFork id b checkpoint_id new_box_name) (λ r, match r with RsBox k => Some k | _ => None end).
Definition checkpoint_delete (b : Uuid) (checkpoint_id : string) : Op () :=
  request_ack (λ id, RqCheckpointDelete id b checkpoint_id).

Definition list_files (b : Uuid) (p : string) : Op (list FileNode) :=
  mkOp (λ id, RqFsList id b p) (λ r, match r with RsFiles _ entries => Some entries | _ => None end).
Definition read_file (b : Uuid) (p : string) (limit : Z) : Op ReadFileResult :=
  mkOp (λ id, RqFsRead id b p limit) (λ r, match r with RsFile file => Some file | _ => None end).
Definition write_file (b : Uuid) (p : string) (data : bytes) (create_parents : bool) : Op () :=
  request_ack (λ id, RqFsWrite id b p (base64_encode data) create_parents).
Definition make_dir (b : Uuid) (p : string) (recursive : bool) : Op () :=
  request_ack (λ id, RqFsMkdir id b p recursive).
Definition remove_path (b : Uuid) (p : string) (recursive : bool) : Op () :=
  request_ack (λ id, RqFsRemove id b p recursive).

Definition shutdown_daemon : Op () := request_ack RqShutdownDaemon.
Definition admin_add : Op AdminCredentialBundle :=
  mkOp RqAdminAdd (λ r, match r with RsAdminAdded bundle => Some bundle | _ => None end).
Definition issue_box_credentials (b : Uuid) : Op BoxCredentialBundle :=
  mkOp (λ id, RqBoxIssueCredentials id b) (λ r, match r with RsBoxCredentials bundle => Some bundle | _ => None end).
Definition admin_remove_me : Op () := request_ack RqAdminRemoveMe.

Definition image_response (r : BoxResponse) : option VmImageManifest :=
  match r with RsImage image => Some image | _ => None end.
Definition build_image (name : string) (apk pip npm : list string) (min_image_mib : Z) (force_refresh : bool) :
    Op VmImageManifest :=
  mkOp (λ id, RqImageBuild id name apk pip npm min_image_mib force_refresh) image_response.
Definition list_images : Op (list VmImageManifest) :=
  mkOp RqImageList (λ r, match r with RsImageList images => Some images | _ => None end).
Definition inspect_image (name : string) : Op VmImageManifest := mkOp (λ id, RqImageInspect id name) image_response.
Definition remove_image (name : string) : Op () :=
  mkOp (λ id, RqImageRemove id name) (λ r, match r with RsImageRemoved _ => Some () | _ => None end).

(** The request of [open_shell]; [register_shell_channel] follows its answer. *)
Definition request_shell (b : Uuid) (target : InteractiveTarget) : Op Uuid :=
  mkOp (λ id, RqOpenShell id b target) (λ r, match r with RsShellOpened sid _ => Some sid | _ => None end).
Definition finish_open_shell (b : Uuid) (target : InteractiveTarget) (id : string) (d : Delivery) : CM (Uuid * nat) :=
  sid ← lift (finish_op (request_shell b target) id d);
  ch ← register_shell_channel sid;
  mret (sid, ch).

(** ** Shells: [shell.rs] *)

Definition send_input (sid : Uuid) (data : bytes) : CM () :=
  id ← next_request_id; send_request (RqShellInput id sid (base64_encode data)).
Definition resize (sid : Uuid) (cols rows : Z) : CM () :=
  id ← next_request_id; send_request (RqResizeShell id sid cols rows).
Definition close (sid : Uuid) : CM () :=
  id ← next_request_id; send_request (RqCloseShell id sid).

(** ** Commands: [exec.rs] *)

Definition exec_bash_request (b : Uuid) (command : string) (timing : option (Z * Z)) (id : string) : BoxRequest :=
  RqExecBash id b command (fst <$> timing) (snd <$> timing).
Definition exec_python_request (b : Uuid) (args : list string) (id : string) : BoxRequest := RqExecPython id b args None None.

(** [collect_exec] up to its loop. *)
Definition begin_exec (request : string → BoxRequest) : CM (string * nat) :=
  id ← next_request_id; open_exec_channel (request id).

Inductive Collecting := Waiting (acc : Collected) | Done (r : Result SandboxError CompletedExecution).

Definition completed (acc : Collected) : CompletedExecution :=
  mkCompleted (co_exit acc) (exit_code (co_exit acc)) (co_output acc) (co_stdout acc) (co_stderr acc).

(** One round of the loop of [collect_exec]; the channel closes when [events.recv()] gives [None]. *)
Definition collect_one (rid : string) (acc : Collected) (event : option BoxEvent) : Collecting :=
  match event with
  | None => Done (Ok (completed acc))
  | Some (BeExecOutput id stream data) =>
      if decide (id = rid) then
        match decode_bytes "exec payload" data with
        | Ok b => Waiting (collect_event acc (EvOutput stream b))
        | Err error => Done (Err error)
        end
      else Waiting acc
  | Some (BeExecExit id status) =>
      if decide (id = rid) then Done (Ok (completed (collect_event acc (EvExit status)))) else Waiting acc
  | Some (BeError (Some id) message) => if decide (id = rid) then Done (Err (remote_error message)) else Waiting acc
  | Some (BeError None message) => Done (Err (remote_error message))
  | Some _ => Waiting acc
  end.

Fixpoint collect_exec (rid : string) (acc : Collected) (events : list BoxEvent) : Collecting :=
  match events with
  | [] => Waiting acc
  | event :: rest =>
      match collect_one rid acc (Some event) with
      | Waiting acc' => collect_exec rid acc' rest
      | done => done
      end
  end.

Definition collect_start : Collected := mkCollected [] [] [] Killed.

(** The exit code of the command line. *)
Definition process_exit_code (status : ExecExit) : Z :=
  match status with
  | Success => default 0%Z (exit_code status)
  | ExitCode code => default code (exit_code status)
  | ExecTimeout => 124
  | Killed => 137
  end.

(** The standard streams of the process, with the failures of its next writes;
    a failed write can leave a part written. *)
Record Stdio := mkStdio { so_out : bytes; so_err : bytes; so_faults : list (option (IoError * nat)) }.

Definition write_out (context : string) (b : bytes) : M SandboxError Stdio () := λ s,
  match so_faults s with
  | Some (e, n) :: fs => (Err (Io context e), mkStdio (so_out s ++ take n b) (so_err s) fs)
  | fs => (Ok (), mkStdio (so_out s ++ b) (so_err s) (tail fs))
  end.
Definition write_err (context : string) (b : bytes) : M SandboxError Stdio () := λ s,
  match so_faults s with
  | Some (e, n) :: fs => (Err (Io context e), mkStdio (so_out s) (so_err s ++ take n b) fs)
  | fs => (Ok (), mkStdio (so_out s) (so_err s ++ b) (tail fs))
  end.
Definition flush (context : string) : M SandboxError Stdio () := λ s,
  match so_faults s with
  | Some (e, _) :: fs => (Err (Io context e), mkStdio (so_out s) (so_err s) fs)
  | fs => (Ok (), mkStdio (so_out s) (so_err s) (tail fs))
  end.

(** [exec_bash] and [exec_python] once the command has completed. *)
Definition print_completed (done : CompletedExecution) : M SandboxError Stdio Z :=
  write_out "writing exec stdout" (ce_stdout done);;
  write_err "writing exec stderr" (ce_stderr done);;
  flush "flushing exec stdout";;
  flush "flushing exec stderr";;
  mret (process_exit_code (ce_exit_status done)).

(** The same in [run_piped_interactive_exec]. *)
Definition print_piped (done : CompletedExecution) : M SandboxError Stdio Z :=
  write_out "writing exec stdout" (ce_stdout done);;
  flush "flushing exec stdout";;
  write_err "writing exec stderr" (ce_stderr done);;
  flush "flushing exec stderr";;
  mret (process_exit_code (ce_exit_status done)).

(** [run_piped_interactive_exec]: the command that feeds a script to an interpreter. *)
Definition newline_text : string := String newline "".
Definition piped_command (target : InteractiveTarget) (delimiter script : string) : string :=
  let interpreter := match target with TBash => "bash" | TPython => "python3" end in
  interpreter ^+ " <<'" ^+ delimiter ^+ "'" ^+ newline_text ^+ script ^+ newline_text ^+ delimiter ^+ newline_text.

(** ** [recover_stopped_box] *)

(** One round: what [reconnect] gives, what the new client's [get_box] gives, and
    whether the two seconds are over. *)
Record Round := mkRound { rd_connected : Result SandboxError (); rd_fetched : Result SandboxError BoxRecord; rd_late : bool }.

(** [None] while the loop goes on. *)
Definition recover_round (error : SandboxError) (round : Round) : option (Result SandboxError BoxRecord) :=
  let again := if rd_late round then Some (Err error) else None in
  match rd_connected round with
  | Ok () =>
      match rd_fetched round with
      | Ok record => if decide (bx_status record ≠ BRunning) then Some (Ok record) else again
      | Err fetch_error => if is_connection_lost_error fetch_error then again else Some (Err error)
      end
  | Err reconnect_error => if is_connection_lost_error reconnect_error then again else Some (Err error)
  end.

Fixpoint recover_rounds (error : SandboxError) (rounds : list Round) : option (Result SandboxError BoxRecord) :=
  match rounds with
  | [] => None
  | round :: rest => match recover_round error round with Some r => Some r | None => recover_rounds error rest end
  end.

Definition recover_stopped_box (error : SandboxError) (rounds : list Round) : option (Result SandboxError BoxRecord) :=
  if is_connection_lost_error error then recover_rounds error rounds else Some (Err error).

(** [stop_box] from the answer to its request. *)
Definition stop_box (answer : Result SandboxError BoxRecord) (rounds : list Round) : option (Result SandboxError BoxRecord) :=
  match answer with Ok record => Some (Ok record) | Err error => recover_stopped_box error rounds end.

(** ** The interactive terminal: [interactive_shell] *)

(** What the [select!] of the loop picks: the next event of the shell, or the
    next chunk of standard input ([None] at its end). *)
Inductive Picked := PkEvent (event : option BoxEvent) | PkInput (read : option bytes).

(** The client at a terminal. *)
Record Term := mkTerm { tm_client : BoxApiClient; tm_stdio : Stdio }.

Definition on_client {A} (m : CM A) : M SandboxError Term A := zoom tm_client (λ c t, mkTerm c (tm_stdio t)) m.
Definition on_stdio {A} (m : M SandboxError Stdio A) : M SandboxError Term A := zoom tm_stdio (λ o t, mkTerm (tm_client t) o) m.

(** The loop ends with the code of the shell; [None] while it goes on.  Input is
    not read any more once the shell was asked to close. *)
Fixpoint interactive_loop (sid : Uuid) (close_sent : bool) (picks : list Picked) : M SandboxError Term (option Z) :=
  match picks with
  | [] => mret None
  | PkEvent None :: _ => throw (Backend "shell event channel closed")
  | PkEvent (Some (BeShellOutput _ data)) :: rest =>
      b ← lift (decode_bytes "shell payload" data);
      on_stdio (write_out "writing shell output" b;; flush "flushing shell output");;
      interactive_loop sid close_sent rest
  | PkEvent (Some (BeShellExit _ code)) :: _ => mret (Some code)
  | PkEvent (Some (BeError _ message)) :: _ => throw (remote_error message)
  | PkEvent (Some _) :: rest => interactive_loop sid close_sent rest
  | PkInput read :: rest =>
      if close_sent : bool then interactive_loop sid close_sent rest
      else match read with
           | None => on_client (close sid);; interactive_loop sid true rest
           | Some b => on_client (send_input sid b);; interactive_loop sid close_sent rest
           end
  end.

(** From the shell that was opened: the size of the terminal is sent first. *)
Definition interactive_session (sid : Uuid) (size : option (Z * Z)) (picks : list Picked) : M SandboxError Term (option Z) :=
  match size with Some (cols, rows) => on_client (resize sid cols rows) | None => mret () end;;
  interactive_loop sid false picks.

(** ** Runs *)

(** Whether the reader holds the lock of the state. *)
Definition state_locked (c : BoxApiClient) : bool := match ac_todo c with ASend _ _ true :: _ => true | _ => false end.

Inductive Step :=
  | SRead (input : Input)
  | SAct
  | SNextId
  | SRegister (id : string)
  | SWrite (request : BoxRequest)
  | SExec (id : string)
  | SUnexec (id : string)
  | SShell (sid : Uuid)
  | SReplay (i : nat)
  | STake (ch : nat)
  | SDrop (ch : nat).

Definition unlocked (c : BoxApiClient) (c' : BoxApiClient) : option BoxApiClient :=
  if state_locked c then None else Some c'.

Definition step (auth : ClientMessage) (st : Step) (c : BoxApiClient) : option BoxApiClient :=
  match st with
  | SRead input => read_message auth input c
  | SAct => run_act c
  | SNextId => Some (next_request_id c).2
  | SRegister id => unlocked c (register_response id c).2
  | SWrite request => Some (send_request request c).2
  | SExec id => unlocked c (register_exec id c)
  | SUnexec id => unlocked c (forget_exec id c)
  | SShell sid => unlocked c (register_shell_channel sid c).2
  | SReplay i => replay i c
  | STake ch =>
      chan ← ac_chans c !! ch; '(_, chan') ← ch_recv chan; Some (set_chans (<[ch := chan']> (ac_chans c)) c)
  | SDrop ch => Some (set_chans (alter ch_drop ch (ac_chans c)) c)
  end.

Fixpoint run (auth : ClientMessage) (steps : list Step) (c : BoxApiClient) : option BoxApiClient :=
  match steps with
  | [] => Some c
  | st :: rest => c' ← step auth st c; run auth rest c'
  end.
End client.

(** ** Errors *)

(** The kinds of error whose texts [remote_error] knows. *)
Definition error_crosses (e : SandboxError) : bool :=
  match e with Io _ _ | Json _ _ | HttpStatus _ _ _ => false | _ => true end.

Lemma remote_error_crosses e : error_crosses e = true → remote_error (error_to_string e) = e.
Proof. destruct e; try done; intros _; unfold remote_error, error_to_string; cbn [strip_prefix String.append]; reflexivity. Qed.

(** an error of the daemon reaches the caller as it was: the seven kinds with a text of
    their own come back as the same error; any other message becomes a backend failure
    with that message, and no error is made up that the message does not name. *)
Theorem remote_error_roundtrip e message :
  (error_crosses e = true → remote_error (error_to_string e) = e) ∧
  (error_to_string (remote_error message) = message ∨
   remote_error message = Backend message ∧ ∀ e', error_crosses e' = true → message ≠ error_to_string e').
Proof.
  split; [apply remote_error_crosses|].
  destruct (decide (error_to_string (remote_error message) = message)) as [|Hne]; [by left|]. right.
  split.
  - revert Hne. unfold remote_error.
    repeat (match goal with |- context [match strip_prefix ?p message with _ => _ end] =>
              destruct (strip_prefix p message) as [d|] eqn:E; [intros []; by rewrite (strip_prefix_Some _ _ _ E)|clear E] end).
    done.
  - intros e' He ->. by rewrite remote_error_crosses in Hne.
Qed.

(** ** The invariant *)

(** Whose events a channel carries. *)
Inductive Owner := OwExec (request_id : string) | OwShell (shell_id : Uuid).

Definition belongs (o : Owner) (e : BoxEvent) : Prop :=
  match o, e with
  | OwExec id, (BeExecOutput id' _ _ | BeExecExit id' _ | BeError (Some id') _) => id' = id
  | OwShell sid, (BeShellOutput sid' _ | BeShellExit sid' _) => sid' = sid
  | _, BeError None _ => True
  | _, _ => False
  end.

Definition sends_own (owners : list Owner) (ch : nat) (e : BoxEvent) : Prop := ∃ o, owners !! ch = Some o ∧ belongs o e.
Definition act_own (owners : list Owner) (a : Act) : Prop :=
  match a with ASend ch e _ => sends_own owners ch e | _ => True end.

Record api_ok (owners : list Owner) (c : BoxApiClient) : Prop := {
  ok_pending id ch : pending_responses (ac_state c) !! id = Some ch ↔ ac_oneshots c !! ch = Some (mkOneshot id None);
  ok_length : length owners = length (ac_chans c);
  ok_execs id ch : exec_streams (ac_state c) !! id = Some ch → owners !! ch = Some (OwExec id);
  ok_shells sid ch : shell_streams (ac_state c) !! sid = Some ch → owners !! ch = Some (OwShell sid);
  ok_buffered sid l : buffered_shell_events (ac_state c) !! sid = Some l →
    shell_streams (ac_state c) !! sid = None ∧ Forall (belongs (OwShell sid)) l;
  ok_sent ch chan : ac_chans c !! ch = Some chan → Forall (sends_own owners ch) (ch_sent chan);
  ok_todo : Forall (act_own owners) (ac_todo c);
  ok_replays : Forall (λ r, Forall (sends_own owners r.1) r.2) (ac_replays c);
}.

Lemma client_new_ok faults : api_ok [] (client_new faults).
Proof. split; try done; intros; by rewrite ?lookup_empty. Qed.

(** The parts of the state the invariant is about. *)
Definition view (c : BoxApiClient) := (ac_state c, ac_oneshots c, ac_chans c, ac_todo c, ac_replays c).

Lemma api_ok_view owners c c' : view c' = view c → api_ok owners c → api_ok owners c'.
Proof. unfold view. intros [= E1 E2 E3 E4 E5] []. split; by rewrite ?E1, ?E2, ?E3, ?E4, ?E5. Qed.

Lemma todo_ok owners todo c : Forall (act_own owners) todo → api_ok owners c → api_ok owners (set_todo todo c).
Proof. by intros Ht []. Qed.

Lemma execs_ok owners m c :
  m ⊆ exec_streams (ac_state c) → api_ok owners c → api_ok owners (set_state (with_execs m (ac_state c)) c).
Proof. intros Hm []. split; try done. simpl. eauto using lookup_weaken. Qed.

Lemma forget_exec_ok owners id c : api_ok owners c → api_ok owners (forget_exec id c).
Proof. apply execs_ok, delete_subseteq. Qed.

Lemma forget_shell_ok owners sid c : api_ok owners c → api_ok owners (forget_shell sid c).
Proof.
  intros []. split; try done; simpl.
  - intros s ch Hs. apply ok_shells0. by eapply lookup_weaken, delete_subseteq.
  - intros s l Hl. apply ok_buffered0 in Hl as [Hn Hl]. split; [|done].
    destruct (decide (s = sid)) as [->|]; [apply lookup_delete_eq|by rewrite lookup_delete_ne].
Qed.

Lemma os_fill_pending v o id : os_fill v o ≠ mkOneshot id None.
Proof. destruct o as [i [w|]]; unfold os_fill; simpl; congruence. Qed.

Lemma api_resolve_ok owners id v c : api_ok owners c → api_ok owners (resolve id v c).
Proof.
  intros Hok. unfold resolve. destruct (pending_responses (ac_state c) !! id) as [ch|] eqn:E; [|done].
  assert (Ho := proj1 (ok_pending _ _ Hok id ch) E). destruct Hok. split; try done. simpl.
  intros i n. destruct (decide (n = ch)) as [->|Hn].
  - rewrite list_lookup_alter_eq, Ho. split.
    + intros Hi. destruct (decide (i = id)) as [->|Hne]; [by rewrite lookup_delete_eq in Hi|].
      rewrite lookup_delete_ne in Hi by done. apply ok_pending0 in Hi. congruence.
    + simpl. intros [= Hx].
  - rewrite list_lookup_alter_ne by done. destruct (decide (i = id)) as [->|Hne].
    + rewrite lookup_delete_eq. split; [done|]. intros Hi%ok_pending0. congruence.
    + rewrite lookup_delete_ne by done. apply ok_pending0.
Qed.

Lemma resolve_gone id v c : pending_responses (ac_state (resolve id v c)) !! id = None.
Proof.
  unfold resolve. destruct (pending_responses (ac_state c) !! id) eqn:E; [|done]. simpl. apply lookup_delete_eq.
Qed.

Lemma register_response_ok owners id c : api_ok owners c → api_ok owners (register_response id c).2.
Proof.
  intros Hok%(api_resolve_ok _ id SenderDropped). assert (Hg := resolve_gone id SenderDropped c).
  unfold register_response. simpl. set (d := resolve id SenderDropped c) in *. clearbody d. destruct Hok. split; try done. simpl.
  intros i n. destruct (decide (i = id)) as [->|Hne].
  - rewrite lookup_insert_eq. split.
    + intros [= <-]. by rewrite lookup_app_r, Nat.sub_diag by lia.
    + intros [Hl|[Hl Hx]]%lookup_app_Some; [apply ok_pending0 in Hl; congruence|].
      apply list_lookup_singleton_Some in Hx as [? _]. f_equal. lia.
  - rewrite lookup_insert_ne, ok_pending0 by done. split; [by apply lookup_app_l_Some|].
    intros [?|[_ Hx]]%lookup_app_Some; [done|]. apply list_lookup_singleton_Some in Hx as [_ [=]]. congruence.
Qed.

Lemma buffer_ok owners sid e c :
  shell_streams (ac_state c) !! sid = None → belongs (OwShell sid) e → api_ok owners c →
  api_ok owners (buffer_shell_event sid e c).
Proof.
  intros Hn He []. split; try done. simpl. intros s l. destruct (decide (s = sid)) as [->|Hne].
  - rewrite lookup_insert_eq. intros [= <-]. split; [done|]. apply Forall_app. split; [|by constructor].
    destruct (buffered_shell_events (ac_state c) !! sid) eqn:E; [|by constructor]. by eapply ok_buffered0.
  - rewrite lookup_insert_ne by done. apply ok_buffered0.
Qed.

Lemma api_fail_all_ok owners message c : api_ok owners c → api_ok owners (fail_all message c).
Proof.
  intros []. split; try done; simpl; try (intros *; by rewrite lookup_empty).
  - intros id ch. rewrite lookup_empty. split; [done|]. rewrite list_lookup_imap, fmap_Some. intros (o & Ho & Hx).
    case_decide as Hd; [by destruct (os_fill_pending _ _ _ (eq_sym Hx))|]. subst o. simpl in Hd.
    by apply ok_pending0 in Ho.
  - apply Forall_app. rewrite !Forall_fmap, !Forall_forall. split; intros [k n] Hk%elem_of_map_to_list.
    + exists (OwExec k). split; [by apply ok_execs0|done].
    + exists (OwShell k). split; [by apply ok_shells0|done].
Qed.

Lemma dispatch_event_ok owners e c : api_ok owners c → api_ok owners (dispatch_event e c).
Proof.
  intros Hok. destruct e as [id r|id st d|id st|sid d|sid code|[id|] m]; simpl.
  - by apply api_resolve_ok.
  - destruct (exec_streams (ac_state c) !! id) eqn:E; [|done]. apply todo_ok; [|done]. constructor; [|done].
    exists (OwExec id). split; [by apply (ok_execs _ _ Hok)|done].
  - apply todo_ok; [|done]. destruct (exec_streams (ac_state c) !! id) eqn:E; repeat constructor.
    exists (OwExec id). split; [by apply (ok_execs _ _ Hok)|done].
  - destruct (shell_streams (ac_state c) !! sid) eqn:E; [|by apply buffer_ok]. apply todo_ok; [|done]. constructor; [|done].
    exists (OwShell sid). split; [by apply (ok_shells _ _ Hok)|done].
  - destruct (shell_streams (ac_state c) !! sid) eqn:E; [|by apply buffer_ok]. apply todo_ok; [|done]. repeat constructor.
    exists (OwShell sid). split; [by apply (ok_shells _ _ Hok)|done].
  - destruct (pending_responses (ac_state c) !! id); [by apply api_resolve_ok|].
    destruct (exec_streams (ac_state c) !! id) eqn:E; [|done]. apply todo_ok; [|by apply forget_exec_ok]. constructor; [|done].
    exists (OwExec id). split; [by apply (ok_execs _ _ Hok)|done].
  - by apply api_fail_all_ok.
Qed.

Lemma sends_own_mono owners o ch e : sends_own owners ch e → sends_own (owners ++ [o]) ch e.
Proof. intros (x & Hx & He). exists x. split; [by apply lookup_app_l_Some|done]. Qed.

(** A channel that becomes fuller by one of its own events, or is read or dropped. *)
Lemma chan_ok owners ch chan chan' c :
  ac_chans c !! ch = Some chan → Forall (sends_own owners ch) (ch_sent chan') → api_ok owners c →
  api_ok owners (set_chans (<[ch := chan']> (ac_chans c)) c).
Proof.
  intros Hc Hf []. split; try done; simpl; [by rewrite length_insert|].
  intros n x. destruct (decide (n = ch)) as [->|Hne].
  - rewrite list_lookup_insert_eq by by eapply lookup_lt_Some. by intros [= <-].
  - rewrite list_lookup_insert_ne by done. apply ok_sent0.
Qed.

Lemma ch_send_own owners ch (chan chan' : Chan BoxEvent) e :
  ch_send e chan = Some chan' → sends_own owners ch e → Forall (sends_own owners ch) (ch_sent chan) →
  Forall (sends_own owners ch) (ch_sent chan').
Proof.
  unfold ch_send. intros Hs He Hf. destruct (ch_open chan); simpl in Hs; [|by injection Hs as <-].
  destruct (ch_full chan); [done|]. injection Hs as <-. simpl. apply Forall_app. by repeat constructor.
Qed.

(** A channel is opened for the events of its owner. *)
Lemma new_chan_ok owners o s' reps c :
  api_ok owners c →
  pending_responses s' = pending_responses (ac_state c) →
  (∀ id ch, exec_streams s' !! id = Some ch → (owners ++ [o]) !! ch = Some (OwExec id)) →
  (∀ sid ch, shell_streams s' !! sid = Some ch → (owners ++ [o]) !! ch = Some (OwShell sid)) →
  (∀ sid l, buffered_shell_events s' !! sid = Some l → shell_streams s' !! sid = None ∧ Forall (belongs (OwShell sid)) l) →
  Forall (λ r, Forall (sends_own (owners ++ [o]) r.1) r.2) reps →
  api_ok (owners ++ [o]) (set_replays reps (set_state s' (set_chans (ac_chans c ++ [new_chan]) c))).
Proof.
  intros [] Hp He Hs Hb Hr. split; simpl; try done.
  - intros. rewrite Hp. apply ok_pending0.
  - rewrite !length_app. simpl. lia.
  - intros ch chan [Hc|[_ Hc]]%lookup_app_Some.
    + eapply Forall_impl; [by eapply ok_sent0|]. intros. by apply sends_own_mono.
    + apply list_lookup_singleton_Some in Hc as [_ <-]. constructor.
  - eapply Forall_impl; [exact ok_todo0|]. intros []; simpl; [apply sends_own_mono|done..].
Qed.

Lemma lookup_fresh_owner owners o (c : BoxApiClient) : api_ok owners c → (owners ++ [o]) !! length (ac_chans c) = Some o.
Proof. intros []. by rewrite lookup_app_r, ok_length0, Nat.sub_diag by lia. Qed.

Lemma replays_mono owners o reps :
  Forall (λ r : nat * list BoxEvent, Forall (sends_own owners r.1) r.2) reps →
  Forall (λ r, Forall (sends_own (owners ++ [o]) r.1) r.2) reps.
Proof.
  intros Hr. eapply Forall_impl; [exact Hr|]. intros [n l] Hl. eapply Forall_impl; [exact Hl|]. intros. by apply sends_own_mono.
Qed.

Lemma register_exec_ok owners id c : api_ok owners c → api_ok (owners ++ [OwExec id]) (register_exec id c).
Proof.
  intros Hok. assert (Hl := lookup_fresh_owner owners (OwExec id) c Hok).
  apply (api_ok_view _ (set_replays (ac_replays c) (register_exec id c))); [by destruct c|].
  apply new_chan_ok; try done; simpl.
  - intros i ch. destruct (decide (i = id)) as [->|Hne]; [rewrite lookup_insert_eq; by intros [= <-]|].
    rewrite lookup_insert_ne by done. intros Hi%(ok_execs _ _ Hok). by apply lookup_app_l_Some.
  - intros sid ch Hi%(ok_shells _ _ Hok). by apply lookup_app_l_Some.
  - apply (ok_buffered _ _ Hok).
  - apply replays_mono, (ok_replays _ _ Hok).
Qed.

Lemma register_shell_ok owners sid c :
  api_ok owners c → api_ok (owners ++ [OwShell sid]) (register_shell_channel sid c).2.
Proof.
  intros Hok. assert (Hl := lookup_fresh_owner owners (OwShell sid) c Hok). unfold register_shell_channel.
  apply new_chan_ok; try done; simpl.
  - intros i ch Hi%(ok_execs _ _ Hok). by apply lookup_app_l_Some.
  - intros s ch. destruct (decide (s = sid)) as [->|Hne]; [rewrite lookup_insert_eq; by intros [= <-]|].
    rewrite lookup_insert_ne by done. intros Hi%(ok_shells _ _ Hok). by apply lookup_app_l_Some.
  - intros s l. destruct (decide (s = sid)) as [->|Hne]; [by rewrite lookup_delete_eq|].
    rewrite lookup_delete_ne, lookup_insert_ne by done. apply (ok_buffered _ _ Hok).
  - apply Forall_app. split; [apply replays_mono, (ok_replays _ _ Hok)|]. constructor; [|done]. simpl.
    destruct (buffered_shell_events (ac_state c) !! sid) as [l|] eqn:E; [|constructor]. simpl.
    eapply Forall_impl; [by apply (ok_buffered _ _ Hok)|]. intros e He. by exists (OwShell sid).
Qed.

Section runs.
Context `{Base64, ClientCrates}.
Implicit Types (c : BoxApiClient) (auth : ClientMessage).

Lemma send_request_view request c : view (send_request request c).2 = view c.
Proof.
  unfold send_request, mbind, M_bind, map_err, lift. destruct (encode_client_message (CmRequest request)); [|done].
  unfold ws_send. by destruct (ac_write_faults c) as [|[]].
Qed.

Lemma stop_reading_ok owners e m c : api_ok owners c → api_ok owners (stop_reading e m c).
Proof.
  intros Hok. unfold stop_reading. eapply api_ok_view; [|apply (api_fail_all_ok _ m), (api_ok_view _ c); [|exact Hok]]; [|done].
  by destruct c.
Qed.

Lemma read_message_ok owners auth input c c' : api_ok owners c → read_message auth input c = Some c' → api_ok owners c'.
Proof.
  intros Hok. unfold read_message. destruct (ac_reading c); [|done]. simpl. case_decide; [done|]. intros [= <-].
  destruct input as [text| | |error|]; try (by apply stop_reading_ok); try done.
  destruct (decode_server_message text) as [[p|e]|]; [by apply (api_ok_view _ c)|by apply dispatch_event_ok|by apply stop_reading_ok].
Qed.

Lemma api_run_act_ok owners c c' : api_ok owners c → run_act c = Some c' → api_ok owners c'.
Proof.
  intros Hok. unfold run_act. assert (Ht := ok_todo _ _ Hok).
  destruct (ac_todo c) as [|[ch e l|id|sid] rest]; [done|..]; apply Forall_cons in Ht as [Ha Ht].
  - intros (chan & Hc & (chan' & Hs & [= <-])%bind_Some)%bind_Some. apply todo_ok; [done|].
    eapply chan_ok; [done| |done]. eapply ch_send_own; [done..|]. by apply (ok_sent _ _ Hok).
  - intros [= <-]. apply todo_ok; [done|]. by apply forget_exec_ok.
  - intros [= <-]. apply todo_ok; [done|]. by apply forget_shell_ok.
Qed.

Lemma replay_ok owners i c c' : api_ok owners c → replay i c = Some c' → api_ok owners c'.
Proof.
  intros Hok. unfold replay. destruct (ac_replays c !! i) as [[ch [|e rest]]|] eqn:E; [done| |done].
  assert (Hr := Forall_lookup_1 _ _ _ _ (ok_replays _ _ Hok) E). apply Forall_cons in Hr as [He Hr].
  intros (chan & Hc & (chan' & Hs & [= <-])%bind_Some)%bind_Some.
  assert (Hok' : api_ok owners (set_chans (<[ch := chan']> (ac_chans c)) c)).
  { eapply chan_ok; [done| |done]. eapply ch_send_own; [done..|]. by apply (ok_sent _ _ Hok). }
  destruct Hok'. split; try done. simpl. apply Forall_insert; [|done]. apply (ok_replays _ _ Hok).
Qed.

(** A step keeps the invariant; the channels keep their owners. *)
Lemma api_step_ok owners auth st c c' :
  api_ok owners c → step auth st c = Some c' → ∃ owners', owners `prefix_of` owners' ∧ api_ok owners' c'.
Proof.
  intros Hok Hst. assert (Hsame : api_ok owners c' → ∃ owners', owners `prefix_of` owners' ∧ api_ok owners' c') by eauto.
  destruct st; simpl in Hst; unfold unlocked in Hst; try (destruct (state_locked c); [done|]).
  - eauto using read_message_ok.
  - eauto using api_run_act_ok.
  - injection Hst as <-. apply Hsame. by apply (api_ok_view _ c).
  - injection Hst as <-. apply Hsame. by apply register_response_ok.
  - injection Hst as <-. apply Hsame. eapply api_ok_view, Hok. apply send_request_view.
  - injection Hst as <-. eexists. split; [|by apply register_exec_ok]. by apply prefix_app_r.
  - injection Hst as <-. apply Hsame. by apply forget_exec_ok.
  - injection Hst as <-. eexists. split; [|by apply register_shell_ok]. by apply prefix_app_r.
  - eauto using replay_ok.
  - apply bind_Some in Hst as (chan & Hc & ([e chan'] & Hr & [= <-])%bind_Some). apply Hsame.
    eapply chan_ok; [done| |done]. unfold ch_recv in Hr. apply bind_Some in Hr as (x & _ & Hr).
    destruct (ch_open chan); [|done]. injection Hr as _ <-. exact (ok_sent _ _ Hok ch chan Hc).
  - injection Hst as <-. apply Hsame. destruct Hok. split; try done; simpl.
    + by rewrite length_alter.
    + intros n x. destruct (decide (n = ch)) as [->|Hne]; [|by rewrite list_lookup_alter_ne; eauto].
      rewrite list_lookup_alter_eq, fmap_Some. intros (y & Hy & ->). exact (ok_sent0 ch y Hy).
Qed.

Lemma api_run_ok owners auth steps c c' :
  api_ok owners c → run auth steps c = Some c' → ∃ owners', owners `prefix_of` owners' ∧ api_ok owners' c'.
Proof.
  revert owners c. induction steps as [|st steps IH]; simpl; intros owners c Hok Hrun.
  - injection Hrun as <-. by exists owners.
  - apply bind_Some in Hrun as (c1 & Hst & Hrun). destruct (api_step_ok owners auth st c c1 Hok Hst) as (o1 & Hp & Hok1).
    destruct (IH o1 c1 Hok1 Hrun) as (o2 & Hp2 & Hok2). exists o2. split; [by etrans|done].
Qed.


(** ** The end of a connection *)

Lemma api_fail_all_answers m c owners ch o :
  api_ok owners c → ac_oneshots c !! ch = Some o →
  ac_oneshots (fail_all m c) !! ch = Some (mkOneshot (os_id o) (Some (default (Delivered (Err (remote_error m))) (os_value o)))).
Proof.
  intros Hok Ho. simpl. rewrite list_lookup_imap, Ho. simpl. destruct o as [id [v|]]; simpl.
  - rewrite decide_False; [done|]. intros Hp%(ok_pending _ _ Hok). congruence.
  - rewrite decide_True; [done|]. by apply (ok_pending _ _ Hok).
Qed.

(** How often the error is queued for a channel. *)
Definition queued (ch : nat) (c : BoxApiClient) : list BoxEvent :=
  omap (λ a, match a with ASend n e _ => if decide (n = ch) then Some e else None | _ => None end) (ac_todo c).

(** C30: when the connection ends, nobody is left waiting: whatever made the reader stop, the
    handshake has a result, every call that was waiting gets the same error and answers already
    delivered stay, no entry is left in a table, and the reader sends each open
    stream the error. *)
Theorem connection_end_tells_everyone owners auth input c c' :
  api_ok owners c → read_message auth input c = Some c' → ac_reading c' = false →
  is_Some (ac_auth c') ∧ ac_state c' = ClientState_default ∧
  ∃ message, (∀ ch o, ac_oneshots c !! ch = Some o →
      ac_oneshots c' !! ch = Some (mkOneshot (os_id o) (Some (default (Delivered (Err (remote_error message))) (os_value o))))) ∧
    (∀ id ch, exec_streams (ac_state c) !! id = Some ch → BeError None message ∈ queued ch c') ∧
    (∀ sid ch, shell_streams (ac_state c) !! sid = Some ch → BeError None message ∈ queued ch c').
Proof.
  intros Hok Hread Hstop.
  assert (∃ e m, c' = stop_reading e m c) as (e & m & ->).
  { unfold read_message in Hread. destruct (ac_reading c) eqn:Er; [|done]. simpl in Hread.
    case_decide; [done|]. injection Hread as <-. destruct input as [text| | |error|]; eauto; [|congruence].
    destruct (decode_server_message text) as [[p|e]|]; [simpl in Hstop; congruence| |eauto].
    exfalso. revert Hstop. assert (∀ id v, ac_reading (resolve id v c) = true) as Hres.
    { intros id v. unfold resolve. by destruct (pending_responses (ac_state c) !! id). }
    destruct e as [id r|id st d|id st|sid d|sid code|[id|] m]; simpl; repeat case_match; simpl; rewrite ?Hres, ?Er; done. }
  assert (Hq : ∀ ch, ch ∈ (map_to_list (exec_streams (ac_state c))).*2 ∨ ch ∈ (map_to_list (shell_streams (ac_state c))).*2 →
    BeError None m ∈ queued ch (stop_reading e m c)).
  { intros ch Hch. apply list_elem_of_omap. exists (ASend ch (BeError None m) false). simpl. rewrite decide_True by done.
    split; [|done]. apply elem_of_app. destruct Hch; [left|right]; apply list_elem_of_fmap; eauto. }
  split_and!; [simpl; by destruct (ac_auth c)|done|]. exists m. split_and!.
  - intros ch o Ho. by apply (api_fail_all_answers m (send_auth (Err e) c) owners); [by apply (api_ok_view _ c)|].
  - intros id ch Hid. apply Hq. left. apply list_elem_of_fmap. exists (id, ch). by rewrite elem_of_map_to_list.
  - intros sid ch Hid. apply Hq. right. apply list_elem_of_fmap. exists (sid, ch). by rewrite elem_of_map_to_list.
Qed.

(** ** Events of a shell before its channel *)

Definition buffered (sid : Uuid) (c : BoxApiClient) : list BoxEvent := default [] (buffered_shell_events (ac_state c) !! sid).

(** The events of a shell among the messages a step reads. *)
Definition arriving (sid : Uuid) (st : Step) : list BoxEvent :=
  match st with
  | SRead (WsText text) =>
      match decode_server_message text with
      | Ok (SmEvent (BeShellOutput s _ as e)) | Ok (SmEvent (BeShellExit s _ as e)) => if decide (s = sid) then [e] else []
      | _ => []
      end
  | _ => []
  end.

(** A step that does not end the connection nor register the shell. *)
Definition calm (sid : Uuid) (st : Step) : Prop :=
  match st with
  | SRead (WsText text) =>
      match decode_server_message text with Ok (SmEvent (BeError None _)) | Err _ => False | _ => True end
  | SRead WsOther => True
  | SRead _ => False
  | SShell s => s ≠ sid
  | _ => True
  end.

Lemma resolve_shells id v c :
  shell_streams (ac_state (resolve id v c)) = shell_streams (ac_state c) ∧
  buffered_shell_events (ac_state (resolve id v c)) = buffered_shell_events (ac_state c).
Proof. unfold resolve. by destruct (pending_responses (ac_state c) !! id). Qed.

Lemma buffer_event_buffered sid s e c :
  buffered sid (buffer_shell_event s e c) = buffered sid c ++ (if decide (s = sid) then [e] else []).
Proof.
  unfold buffered. simpl. case_decide as Hs.
  - subst s. by rewrite lookup_insert_eq.
  - by rewrite lookup_insert_ne, app_nil_r.
Qed.

Lemma dispatch_buffers sid e c :
  shell_streams (ac_state c) !! sid = None → (∀ m, e ≠ BeError None m) →
  shell_streams (ac_state (dispatch_event e c)) !! sid = None ∧
  buffered sid (dispatch_event e c) = buffered sid c ++
    match e with BeShellOutput s _ | BeShellExit s _ => if decide (s = sid) then [e] else [] | _ => [] end.
Proof.
  intros Hn He. assert (Hres : ∀ id v, shell_streams (ac_state (resolve id v c)) !! sid = None ∧ buffered sid (resolve id v c) = buffered sid c ++ []).
  { intros id v. unfold buffered. destruct (resolve_shells id v c) as [-> ->]. by rewrite app_nil_r. }
  assert (Hsh : ∀ s, is_Some (shell_streams (ac_state c) !! s) → s ≠ sid) by (intros s [x Hx] ->; congruence).
  destruct e as [id r|id st d|id st|s d|s code|[id|] m]; simpl.
  - apply Hres.
  - rewrite app_nil_r. by destruct (exec_streams (ac_state c) !! id).
  - by rewrite app_nil_r.
  - destruct (shell_streams (ac_state c) !! s) eqn:E.
    + rewrite decide_False, app_nil_r by (apply Hsh; by rewrite E). done.
    + split; [done|]. apply buffer_event_buffered.
  - destruct (shell_streams (ac_state c) !! s) eqn:E.
    + rewrite decide_False, app_nil_r by (apply Hsh; by rewrite E). done.
    + split; [done|]. apply buffer_event_buffered.
  - destruct (pending_responses (ac_state c) !! id); [apply Hres|]. rewrite app_nil_r. by destruct (exec_streams (ac_state c) !! id).
  - by destruct (He m).
Qed.

Lemma step_buffers auth sid st c c' :
  shell_streams (ac_state c) !! sid = None → calm sid st → step auth st c = Some c' →
  shell_streams (ac_state c') !! sid = None ∧ buffered sid c' = buffered sid c ++ arriving sid st.
Proof.
  intros Hn Hcalm Hst. assert (Hsame : ac_state c' = ac_state c → arriving sid st = [] →
    shell_streams (ac_state c') !! sid = None ∧ buffered sid c' = buffered sid c ++ arriving sid st).
  { unfold buffered. by intros -> ->; rewrite app_nil_r. }
  destruct st; simpl in Hst, Hcalm; unfold unlocked in Hst.
  - unfold read_message in Hst. destruct (ac_reading c); [|done]. simpl in Hst. case_decide; [done|]. injection Hst as <-.
    destruct input as [text| | | |]; try done; [|by apply Hsame]. simpl.
    destruct (decode_server_message text) as [[p|e]|]; [by unfold buffered; simpl; rewrite app_nil_r| |done].
    rewrite (proj2 (dispatch_buffers sid e c Hn ltac:(by intros m ->))).
    split; [apply dispatch_buffers; [done|by intros m ->]|]. by destruct e as [| | | | |[|]].
  - unfold run_act in Hst. destruct (ac_todo c) as [|[ch e l|id|s] rest]; [done|..].
    + apply bind_Some in Hst as (? & _ & (? & _ & [= <-])%bind_Some). by apply Hsame.
    + injection Hst as <-. simpl. by rewrite app_nil_r.
    + injection Hst as <-. unfold buffered. simpl. rewrite app_nil_r. split; [|done].
      apply lookup_delete_None. by right.
  - injection Hst as <-. by apply Hsame.
  - destruct (state_locked c); [done|]. injection Hst as <-. unfold buffered. simpl. rewrite app_nil_r.
    by destruct (resolve_shells id SenderDropped c) as [-> ->].
  - injection Hst as <-. apply Hsame; [|done]. assert (Hv := send_request_view request c). by injection Hv.
  - destruct (state_locked c); [done|]. injection Hst as <-. simpl. by rewrite app_nil_r.
  - destruct (state_locked c); [done|]. injection Hst as <-. simpl. by rewrite app_nil_r.
  - destruct (state_locked c); [done|]. injection Hst as <-. unfold buffered. simpl. rewrite app_nil_r.
    by rewrite lookup_insert_ne, lookup_delete_ne by done.
  - unfold replay in Hst. destruct (ac_replays c !! i) as [[ch [|e rest]]|]; [done| |done].
    apply bind_Some in Hst as (? & _ & (? & _ & [= <-])%bind_Some). by apply Hsame.
  - apply bind_Some in Hst as (? & _ & ([] & _ & [= <-])%bind_Some). by apply Hsame.
  - injection Hst as <-. by apply Hsame.
Qed.

Lemma run_buffers auth sid steps c c' :
  shell_streams (ac_state c) !! sid = None → Forall (calm sid) steps → run auth steps c = Some c' →
  shell_streams (ac_state c') !! sid = None ∧ buffered sid c' = buffered sid c ++ (steps ≫= arriving sid).
Proof.
  revert c. induction steps as [|st steps IH]; simpl; intros c Hn Hall Hrun.
  - injection Hrun as <-. by rewrite app_nil_r.
  - apply Forall_cons in Hall as [Hst Hall]. apply bind_Some in Hrun as (c1 & Hs & Hrun).
    destruct (step_buffers auth sid st c c1 Hn Hst Hs) as [Hn1 Hb1]. destruct (IH c1 Hn1 Hall Hrun) as [Hn2 Hb2].
    split; [done|]. by rewrite Hb2, Hb1, <-app_assoc.
Qed.

Lemma replay_all auth i ch l sent c :
  ac_replays c !! i = Some (ch, l) → ac_chans c !! ch = Some (mkChan sent 0 true) → length sent + length l ≤ CAPACITY →
  ∃ c', run auth (replicate (length l) (SReplay i)) c = Some c' ∧ ac_replays c' !! i = Some (ch, []) ∧
    ac_chans c' !! ch = Some (mkChan (sent ++ l) 0 true).
Proof.
  revert sent c. induction l as [|e l IH]; simpl; intros sent c Hr Hc Hlen.
  - exists c. by rewrite app_nil_r.
  - unfold replay. rewrite Hr, Hc. simpl. unfold ch_send. simpl.
    assert (ch_full (mkChan sent 0 true) = false) as ->.
    { unfold ch_full. apply bool_decide_eq_false. simpl. unfold CAPACITY in *. lia. }
    simpl. destruct (IH (sent ++ [e])
      (set_replays (<[i := (ch, l)]> (ac_replays c)) (set_chans (<[ch := mkChan (sent ++ [e]) 0 true]> (ac_chans c)) c)))
      as (c' & Hrun & Hr' & Hc').
    + simpl. rewrite list_lookup_insert_eq; [done|by eapply lookup_lt_Some].
    + simpl. rewrite list_lookup_insert_eq; [done|by eapply lookup_lt_Some].
    + rewrite length_app. simpl. lia.
    + exists c'. split_and!; [done..|]. by rewrite Hc', <-app_assoc.
Qed.

(** no early event of a shell is lost: what arrives for a shell before its caller has
    registered a channel is kept in order over any run, and, as long as it fits the channel, the
    channel is given exactly that, in order, before anything else when the replay
    is not interrupted. *)
Theorem early_shell_events_kept auth sid steps c c' :
  shell_streams (ac_state c) !! sid = None → buffered sid c = [] → Forall (calm sid) steps → run auth steps c = Some c' →
  state_locked c' = false → length (steps ≫= arriving sid) ≤ CAPACITY →
  let early := steps ≫= arriving sid in
  let ch := length (ac_chans c') in
  let i := length (ac_replays c') in
  ∃ c2, run auth (SShell sid :: replicate (length early) (SReplay i)) c' = Some c2 ∧
    shell_streams (ac_state c2) !! sid = Some ch ∧ ac_replays c2 !! i = Some (ch, []) ∧
    ac_chans c2 !! ch = Some (mkChan early 0 true).
Proof.
  intros Hn Hb Hcalm Hrun Hl Hlen early ch i. destruct (run_buffers auth sid steps c c' Hn Hcalm Hrun) as [_ Hbuf].
  rewrite Hb in Hbuf. simpl in Hbuf. cbn [run step]. unfold unlocked. rewrite Hl. simpl.
  set (c1 := set_replays _ _). assert (Hr : ac_replays c1 !! i = Some (ch, early)).
  { unfold c1, i. simpl. unfold buffered in Hbuf. rewrite Hbuf. by rewrite lookup_app_r, Nat.sub_diag by lia. }
  destruct (replay_all auth i ch early [] c1) as (c2 & Hrun2 & Hr2 & Hc2); [done| |by unfold early|].
  { unfold c1, ch. simpl. by rewrite lookup_app_r, Nat.sub_diag by lia. }
  exists c2. split_and!; [done| |done|done].
  assert (Hkeep : ∀ n c0 c0', run auth (replicate n (SReplay i)) c0 = Some c0' → ac_state c0' = ac_state c0).
  { clear. induction n as [|n IH]; simpl; intros c0 c0' Hrun; [by injection Hrun as <-|].
    apply bind_Some in Hrun as (x & Hx & Hrun). rewrite (IH x c0' Hrun). unfold replay in Hx.
    destruct (ac_replays c0 !! i) as [[n' [|e rest]]|]; [done| |done].
    by apply bind_Some in Hx as (? & _ & (? & _ & [= <-])%bind_Some). }
  rewrite (Hkeep _ _ _ Hrun2). unfold c1. simpl. apply lookup_insert_eq.
Qed.

(** ** What the replay gets wrong *)

(** the order of a shell's output is not kept when the reader comes in between: the channel is
    registered before the buffered events are sent into it, so an event that arrives then
    overtakes them. *)
Theorem replay_can_reorder auth sid text early data c :
  ac_reading c = true → ac_todo c = [] → buffered_shell_events (ac_state c) !! sid = Some [early] →
  decode_server_message text = Ok (SmEvent (BeShellOutput sid data)) →
  let ch := length (ac_chans c) in
  ∃ c', run auth [SShell sid; SRead (WsText text); SAct; SReplay (length (ac_replays c))] c = Some c' ∧
    ac_chans c' !! ch = Some (mkChan [BeShellOutput sid data; early] 0 true).
Proof.
  intros Hr Ht Hb Hd ch. destruct c as [s os chans au rd todo reps n w f]; simpl in *. subst rd todo.
  unfold unlocked, state_locked. simpl. unfold read_message. simpl. rewrite Hd. simpl. rewrite lookup_insert_eq. simpl.
  unfold run_act. simpl. rewrite lookup_app_r, Nat.sub_diag by lia. simpl.
  unfold replay. simpl. rewrite lookup_app_r, Nat.sub_diag, Hb by lia. simpl.
  rewrite list_lookup_insert_eq by (rewrite length_app; simpl; lia). simpl. eexists. split; [done|]. simpl.
  by rewrite list_lookup_insert_eq by (rewrite length_insert, length_app; simpl; lia).
Qed.

(** A replay into a channel that nobody can read yet, with more events than it takes. *)
Definition overfull (i ch : nat) (c : BoxApiClient) : Prop :=
  ∃ rest sent, ac_replays c !! i = Some (ch, rest) ∧ ac_chans c !! ch = Some (mkChan sent 0 true) ∧
    length sent ≤ CAPACITY ∧ CAPACITY < length sent + length rest.

Lemma ch_send_bound (e : BoxEvent) sent chan :
  length sent ≤ CAPACITY → ch_send e (mkChan sent 0 true) = Some chan →
  chan = mkChan (sent ++ [e]) 0 true ∧ S (length sent) ≤ CAPACITY.
Proof.
  intros Hl. unfold ch_send, ch_full. simpl. case_bool_decide as Hf; [done|]. intros [= <-]. split; [done|]. lia.
Qed.

(** Sends into any channel keep it so. *)
Lemma overfull_send i ch n e chan chan' c :
  ac_chans c !! n = Some chan → ch_send e chan = Some chan' → overfull i ch c →
  ∃ rest sent, ac_replays c !! i = Some (ch, rest) ∧ <[n := chan']> (ac_chans c) !! ch = Some (mkChan sent 0 true) ∧
    length sent ≤ CAPACITY ∧ CAPACITY + (if decide (n = ch) then 1 else 0) < length sent + length rest.
Proof.
  intros Hn Hs (rest & sent & Hr & Hc & Hl & Hlen). destruct (decide (n = ch)) as [->|Hne].
  - rewrite Hn in Hc. injection Hc as ->. apply ch_send_bound in Hs as [-> Hb]; [|done].
    exists rest, (sent ++ [e]). rewrite list_lookup_insert_eq by by eapply lookup_lt_Some.
    rewrite length_app. simpl. unfold CAPACITY in *. split_and!; [done..|lia|lia].
  - exists rest, sent. rewrite list_lookup_insert_ne by done. split_and!; [done..|lia].
Qed.

Lemma overfull_same i ch c c' :
  ac_replays c' !! i = ac_replays c !! i → ac_chans c' !! ch = ac_chans c !! ch → overfull i ch c → overfull i ch c'.
Proof. unfold overfull. by intros -> ->. Qed.

Lemma step_overfull auth i ch st c c' :
  st ≠ STake ch → st ≠ SDrop ch → overfull i ch c → step auth st c = Some c' → overfull i ch c'.
Proof.
  intros Htake Hdrop Ho Hst. assert (Hview : ac_replays c' = ac_replays c → ac_chans c' = ac_chans c → overfull i ch c').
  { intros E1 E2. by apply (overfull_same i ch c); rewrite ?E1, ?E2. }
  assert (Hres : ∀ id v, ac_replays (resolve id v c) = ac_replays c ∧ ac_chans (resolve id v c) = ac_chans c).
  { intros id v. unfold resolve. by destruct (pending_responses (ac_state c) !! id). }
  assert (Hold : ∀ (x : nat * list BoxEvent) k, overfull i ch c → (ac_replays c ++ [x]) !! i = ac_replays c !! i ∧
    (ac_chans c ++ [k]) !! ch = ac_chans c !! ch).
  { intros x k (rest & sent & Hr & Hc & _). by rewrite !lookup_app_l by by eapply lookup_lt_Some. }
  destruct st; simpl in Hst; unfold unlocked in Hst; try (destruct (state_locked c); [done|]).
  - unfold read_message in Hst. destruct (ac_reading c); [|done]. simpl in Hst. case_decide; [done|]. injection Hst as <-.
    destruct input as [text| | | |]; try by apply Hview. destruct (decode_server_message text) as [[p|e]|]; try by apply Hview.
    destruct e as [id r|id s d|id s|s d|s code|[id|] m]; simpl in *; repeat case_match; try (by apply Hview); apply Hview; by apply Hres.
  - unfold run_act in Hst. destruct (ac_todo c) as [|[n e l|id|s] rest]; [done|..]; [|injection Hst as <-; by apply Hview..].
    apply bind_Some in Hst as (chan & Hc & (chan' & Hs & [= <-])%bind_Some).
    destruct (overfull_send i ch n e chan chan' c Hc Hs Ho) as (r & s & ? & ? & ? & ?). exists r, s. split_and!; [done..|lia].
  - injection Hst as <-. by apply Hview.
  - injection Hst as <-. apply Hview; by apply (Hres id SenderDropped).
  - injection Hst as <-. assert (Hv := send_request_view request c). apply Hview; by injection Hv.
  - injection Hst as <-. apply (overfull_same i ch c); [done| |done]. simpl. by apply (Hold (0, [])).
  - injection Hst as <-. by apply Hview.
  - injection Hst as <-. apply (overfull_same i ch c); [| |done]; simpl.
    + by apply (Hold _ new_chan).
    + by apply (Hold (0, [])).
  - unfold replay in Hst. destruct (ac_replays c !! i0) as [[n [|e rest]]|] eqn:E; [done| |done].
    apply bind_Some in Hst as (chan & Hc & (chan' & Hs & [= <-])%bind_Some).
    destruct (overfull_send i ch n e chan chan' c Hc Hs Ho) as (r & s & Hr & ? & ? & Hlen). destruct (decide (i0 = i)) as [->|Hne].
    + rewrite E in Hr. injection Hr as -> <-. rewrite decide_True in Hlen by done. exists rest, s. simpl in *.
      rewrite list_lookup_insert_eq by by eapply lookup_lt_Some. unfold CAPACITY in *. split_and!; [done..|]. lia.
    + exists r, s. simpl. rewrite list_lookup_insert_ne by done. split_and!; [done..|lia].
  - apply bind_Some in Hst as (chan & Hc & ([e chan'] & Hr & [= <-])%bind_Some). apply (overfull_same i ch c); [done| |done].
    simpl. apply list_lookup_insert_ne. congruence.
  - injection Hst as <-. apply (overfull_same i ch c); [done| |done]. simpl. apply list_lookup_alter_ne. congruence.
Qed.

(** a shell that says too much before its caller has a channel is never opened:
    [register_shell_channel] returns the receiver only after it has sent every buffered
    event into the channel, which takes 64.  With more, the replay is never done,
    whatever the other tasks and the daemon do, since nobody else can take from it. *)
Theorem overfull_replay_never_ends auth sid steps c c' :
  CAPACITY < length (buffered sid c) → state_locked c = false →
  let ch := length (ac_chans c) in
  let i := length (ac_replays c) in
  Forall (λ st, st ≠ STake ch ∧ st ≠ SDrop ch) steps → run auth (SShell sid :: steps) c = Some c' →
  ∃ event rest, ac_replays c' !! i = Some (ch, event :: rest).
Proof.
  intros Hlen Hl ch i Hall Hrun. cbn [run step] in Hrun. unfold unlocked in Hrun. rewrite Hl in Hrun. simpl in Hrun.
  set (c1 := set_replays _ _) in Hrun. assert (Ho : overfull i ch c1).
  { exists (buffered sid c), []. unfold c1, i, ch. simpl. rewrite !lookup_app_r, !Nat.sub_diag by lia. split_and!; try done. unfold CAPACITY. lia. }
  assert (overfull i ch c') as (rest & sent & Hr & _ & Hs & Hb).
  { clearbody c1. clear Hlen Hl. revert c1 Ho Hrun. induction steps as [|st steps IH]; simpl; intros c1 Ho Hrun; [by injection Hrun as <-|].
    apply Forall_cons in Hall as [[H1 H2] Hall]. apply bind_Some in Hrun as (c2 & Hst & Hrun).
    apply (IH Hall c2); [|done]. by eapply step_overfull. }
  destruct rest as [|e rest]; [simpl in Hb; lia|]. eauto.
Qed.

(** ** [stop_box] *)

Lemma recover_rounds_result error rounds r :
  recover_rounds error rounds = Some r →
  r = Err error ∨ ∃ round record, round ∈ rounds ∧ r = Ok record ∧ rd_connected round = Ok () ∧
    rd_fetched round = Ok record ∧ bx_status record ≠ BRunning.
Proof.
  induction rounds as [|round rounds IH]; simpl; [done|].
  destruct (recover_round error round) as [x|] eqn:E.
  - intros [= ->]. unfold recover_round in E. destruct (rd_connected round) as [[]|ce] eqn:Ec.
    + destruct (rd_fetched round) as [record|fe] eqn:Ef.
      * case_decide; [injection E as <-; right; exists round, record; by split_and!; [left|..]|].
        destruct (rd_late round); [injection E as <-; by left|done].
      * destruct (is_connection_lost_error fe), (rd_late round); simplify_eq; by left.
    + destruct (is_connection_lost_error ce), (rd_late round); simplify_eq; by left.
  - intros Hr. destruct (IH Hr) as [->|(rd & record & Hin & Hrest)]; [by left|]. right. exists rd, record. split; [by right|done].
Qed.

Lemma recover_rounds_end error rounds : Exists (λ round, rd_late round = true) rounds → is_Some (recover_rounds error rounds).
Proof.
  induction 1 as [round rounds Hl|round rounds _ IH]; simpl.
  - unfold recover_round. rewrite Hl. destruct (rd_connected round) as [[]|ce].
    + destruct (rd_fetched round) as [record|fe]; [case_decide|destruct (is_connection_lost_error fe)]; eauto.
    + destruct (is_connection_lost_error ce); eauto.
  - destruct (recover_round error round); eauto.
Qed.

(** a BOX is reported as stopped only when the daemon said so: [stop_box] succeeds with the
    record the daemon answered, or, when the connection was lost, with one a new connection
    fetched that is not running; any failure is the first error, an error that is
    no loss of the connection is returned at once, and when the time is up the loop has ended. *)
Theorem stop_box_recovery answer rounds :
  (∀ record, stop_box answer rounds = Some (Ok record) → answer = Ok record ∨
     ∃ error round, answer = Err error ∧ is_connection_lost_error error = true ∧ round ∈ rounds ∧
       rd_connected round = Ok () ∧ rd_fetched round = Ok record ∧ bx_status record ≠ BRunning) ∧
  (∀ error, stop_box answer rounds = Some (Err error) → answer = Err error) ∧
  (∀ error, answer = Err error → is_connection_lost_error error = false → stop_box answer rounds = Some (Err error)) ∧
  (Exists (λ round, rd_late round = true) rounds → is_Some (stop_box answer rounds)).
Proof.
  unfold stop_box, recover_stopped_box. destruct answer as [record|error].
  - split_and!; [naive_solver|done|done|eauto].
  - destruct (is_connection_lost_error error) eqn:El.
    + split_and!.
      * intros record Hr. destruct (recover_rounds_result error rounds _ Hr) as [|(rd & k & ? & [= <-] & ?)]; [done|].
        right. exists error, rd. by destruct_and!.
      * intros e Hr. destruct (recover_rounds_result error rounds _ Hr) as [[= ->]|(rd & k & ? & ? & ?)]; done.
      * intros e [= <-]. congruence.
      * apply recover_rounds_end.
    + split_and!; [done|naive_solver|naive_solver|eauto].
Qed.
End runs.
End ApiClient.
