(* ===== verification/Interactive.v ===== *)
(** * Interactive: [terminal.rs] and [tty.rs] of [src/box_api/client/], and [interactive_shell]

    What an interactive command does to the terminal of the user.  The calls on
    the terminal are an interface, by call; the mode of the terminal and the
    descriptors the client holds open are state.  The session itself is
    [interactive_session] of [BoxClient].  When the command ends, however it
    ends, the terminal is as it was. *)

From S2P Require Import Prelude RustStd Text FileSystem Auth Protocol GuestRpc BoxStore BoxApi BoxClient.

Class TerminalHost := {
  Termios : Type;
  cfmakeraw : Termios → Termios;
  tty_opens : nat → bool;                         (** whether [/dev/tty] can be opened *)
  stdin_isatty : bool;
  winsize : nat → Result IoError (Z * Z);         (** [ioctl(TIOCGWINSZ)]: columns and rows *)
  tcgetattr_error : nat → option IoError;
  tcsetattr_error : nat → option IoError;
}.

(** The terminal: its mode, how many descriptors of it the client holds, and how
    many calls were made. *)
Record Console `{TerminalHost} := mkConsole { co_mode : Termios; co_open : nat; co_calls : nat }.
Arguments mkConsole {_}.

Record TerminalMode := mkTerminalMode { is_tty : bool; size : option (Z * Z) }.

Section terminal.
Context `{thost : !TerminalHost}.
Local Abbreviation TM := (M SandboxError Console).

(** ** [terminal.rs] *)

(** Opens [/dev/tty]; the descriptor is open when the answer is [true]. *)
Definition open_tty : TM bool := λ c,
  let n := co_calls c in
  if tty_opens n then (Ok true, mkConsole (co_mode c) (S (co_open c)) (S n)) else (Ok false, mkConsole (co_mode c) (co_open c) (S n)).
Definition close_tty : TM () := λ c, (Ok (), mkConsole (co_mode c) (pred (co_open c)) (co_calls c)).

(** A [File] is closed when it goes out of scope, also on an error. *)
Definition with_tty {A} (m : TM A) : TM A := λ c,
  let '(r, c') := m c in (r, (close_tty c').2).

Definition current_size : TM (option (Z * Z)) := λ c,
  (match winsize (co_calls c) with
   | Err e => Err (Io "reading host terminal size" e)
   | Ok (cols, rows) => if (cols =? 0)%Z || (rows =? 0)%Z then Ok None else Ok (Some (cols, rows))
   end, mkConsole (co_mode c) (co_open c) (S (co_calls c))).

Definition current_tty_size : TM (option (Z * Z)) :=
  opened ← open_tty;
  if opened : bool then with_tty current_size else mret None.

Definition capture : TM TerminalMode :=
  size ← current_tty_size;
  match size with
  | Some size => mret (mkTerminalMode true (Some size))
  | None =>
      if negb stdin_isatty then mret (mkTerminalMode false None)
      else size ← current_size; mret (mkTerminalMode true size)
  end.

(** [RawTerminalGuard]: the mode to restore. *)
Definition tcsetattr (mode : Termios) : TM () := λ c,
  match tcsetattr_error (co_calls c) with
  | Some e => (Err (Io "enabling host raw terminal mode" e), mkConsole (co_mode c) (co_open c) (S (co_calls c)))
  | None => (Ok (), mkConsole mode (co_open c) (S (co_calls c)))
  end.
Definition tcgetattr : TM Termios := λ c,
  (match tcgetattr_error (co_calls c) with
   | Some e => Err (Io "reading host terminal mode" e)
   | None => Ok (co_mode c)
   end, mkConsole (co_mode c) (co_open c) (S (co_calls c))).

(** The descriptor is kept in the guard, and closed where an error ends the function. *)
Definition enter_raw_mode (mode : TerminalMode) : TM (option Termios) :=
  if negb (is_tty mode) then mret None
  else
    opened ← open_tty;
    if negb opened then mret None
    else λ c,
      match (original ← tcgetattr; tcsetattr (cfmakeraw original);; mret (Some original)) c with
      | (Ok guard, c') => (Ok guard, c')
      | (Err e, c') => (Err e, (close_tty c').2)
      end.

(** [Drop for RawTerminalGuard]: both results are ignored. *)
Definition drop_guard (guard : option Termios) (c : Console) : Console :=
  match guard with
  | None => c
  | Some original => (close_tty (tcsetattr original c).2).2
  end.

(** ** [tty.rs]: the thread that reads the keyboard *)

(** What a read gives and whether the receiver still takes it: the chunks sent. *)
Fixpoint tty_chunks (reads : list (Result IoError bytes * bool)) : list bytes :=
  match reads with
  | [] => []
  | (Err _, _) :: _ => []
  | (Ok chunk, receiver) :: rest =>
      if decide (chunk = []) then []
      else if receiver : bool then chunk :: tty_chunks rest else []
  end.
End terminal.

(** ** [interactive_shell] *)

Module Interactive.
Import ApiClient.
Section interactive.
Context `{plat : !Platform, b64 : !Base64, ccrates : !ClientCrates, thost : !TerminalHost}.

Record Session := mkSession { ss_console : Console; ss_term : Term }.
Local Abbreviation SM := (M SandboxError Session).

Definition on_console {A} (m : M SandboxError Console A) : SM A := zoom ss_console (λ c s, mkSession c (ss_term s)) m.
Definition on_term {A} (m : M SandboxError Term A) : SM A := zoom ss_term (λ t s, mkSession (ss_console s) t) m.

(** The guard is dropped when the rest of the function has ended, with whatever result. *)
Definition guarded {A} (guard : option Termios) (m : SM A) : SM A := λ s,
  let '(r, s') := m s in (r, mkSession (drop_guard guard (ss_console s')) (ss_term s')).

(** [run_piped_interactive_exec]: standard input as the script, and what the
    command that runs it comes to. *)
Definition run_piped_interactive_exec (target : InteractiveTarget) (input : Result IoError bytes)
    (from_utf8 : bytes → Result string string) (id : Uuid)
    (exec_bash_capture : string → M SandboxError Term CompletedExecution) : SM Z :=
  input ← lift (match input with Ok b => Ok b | Err e => Err (Io "reading piped interactive input" e) end);
  script ← lift (match from_utf8 input with
                 | Ok script => Ok script
                 | Err e => Err (InvalidConfig ("interactive stdin is not valid UTF-8: " ^+ e)) end);
  let delimiter := "SAGENS_EOF_" ^+ uuid_simple id in
  completed ← on_term (exec_bash_capture (piped_command target delimiter script));
  on_term (on_stdio (print_piped completed)).

(** [opened] is the call of [open_shell], [piped] the other way; [None] while the
    session goes on. *)
Definition interactive_shell (piped : SM Z) (open_shell : M SandboxError Term Uuid) (picks : list Picked) : SM (option Z) :=
  terminal ← on_console capture;
  if negb (is_tty terminal) then code ← piped; mret (Some code)
  else
    guard ← on_console (enter_raw_mode terminal);
    guarded guard
      (sid ← on_term open_shell;
       on_term (interactive_session sid (size terminal) picks)).

(** *** The terminal is given back *)

(** The same terminal for the user: its mode and the descriptors held, unless the
    last call to set the mode failed. *)
Definition given_back (c c' : Console) : Prop :=
  co_open c' = co_open c ∧
  (co_mode c' = co_mode c ∨ ∃ n e, tcsetattr_error n = Some e ∧ co_calls c' = S n).
Definition untouched (c c' : Console) : Prop := co_open c' = co_open c ∧ co_mode c' = co_mode c.

#[local] Instance untouched_preorder : PreOrder untouched.
Proof. split; [done|]. intros a b c [H1 H2] [H3 H4]. split; congruence. Qed.

Lemma size_untouched : keeps untouched current_size.
Proof. by intros c. Qed.
Lemma tty_size_untouched : keeps untouched current_tty_size.
Proof.
  intros c. unfold current_tty_size, open_tty, mbind, M_bind. destruct (tty_opens (co_calls c)); [|done].
  unfold with_tty, current_size, close_tty. simpl. by destruct (winsize (S (co_calls c))).
Qed.
Lemma capture_untouched : keeps untouched capture.
Proof.
  unfold capture. apply keeps_bind; [typeclasses eauto|apply tty_size_untouched|intros [sz|]]; [by intros c|].
  destruct stdin_isatty; simpl; [|by intros c]. apply keeps_bind; [typeclasses eauto|apply size_untouched|]. by intros sz c.
Qed.

(** Raw mode was entered, and the guard knows the mode before. *)
Lemma enter_raw_mode_ok mode c guard c' :
  enter_raw_mode mode c = (Ok guard, c') →
  match guard with
  | None => untouched c c'
  | Some original => original = co_mode c ∧ co_mode c' = cfmakeraw original ∧ co_open c' = S (co_open c)
  end.
Proof.
  unfold enter_raw_mode. destruct (is_tty mode); [|by intros [= <- <-]]. simpl. unfold open_tty, mbind, M_bind.
  destruct (tty_opens (co_calls c)); [|by intros [= <- <-]]. simpl. unfold tcgetattr, tcsetattr. simpl.
  destruct (tcgetattr_error (S (co_calls c))); [done|]. simpl. destruct (tcsetattr_error _); [done|]. by intros [= <- <-].
Qed.
Lemma enter_raw_mode_err mode c e c' : enter_raw_mode mode c = (Err e, c') → untouched c c'.
Proof.
  unfold enter_raw_mode. destruct (is_tty mode); [|done]. simpl. unfold open_tty, mbind, M_bind.
  destruct (tty_opens (co_calls c)); [|done]. simpl. unfold tcgetattr, tcsetattr. simpl.
  destruct (tcgetattr_error (S (co_calls c))); [by intros [= _ <-]|]. simpl.
  destruct (tcsetattr_error _); [by intros [= _ <-]|done].
Qed.

Lemma on_term_console {A} (m : M SandboxError Term A) s : ss_console (on_term m s).2 = ss_console s.
Proof. unfold on_term, zoom. by destruct (m (ss_term s)). Qed.

Lemma keeps_term {A} (m : M SandboxError Term A) : keeps (λ s s', ss_console s' = ss_console s) (on_term m).
Proof. intros s. apply on_term_console. Qed.

#[local] Instance same_console_preorder : PreOrder (λ s s' : Session, ss_console s' = ss_console s).
Proof. split; [done|]. intros a b c H1 H2. congruence. Qed.

Lemma piped_console target input from_utf8 id exec :
  keeps (λ s s', ss_console s' = ss_console s) (run_piped_interactive_exec target input from_utf8 id exec).
Proof.
  unfold run_piped_interactive_exec. apply keeps_bind; [typeclasses eauto|by intros s|intros b]. apply keeps_bind; [typeclasses eauto|by intros s|intros script].
  apply keeps_bind; [typeclasses eauto|apply keeps_term|intros done]. apply keeps_term.
Qed.

Lemma piped_then target input from_utf8 id exec :
  keeps (λ s s', ss_console s' = ss_console s)
    (code ← run_piped_interactive_exec target input from_utf8 id exec; mret (Some code)).
Proof. apply keeps_bind; [typeclasses eauto|apply piped_console|]. by intros code s. Qed.
Lemma session_console open_shell sz picks :
  keeps (λ s s', ss_console s' = ss_console s) (sid ← on_term open_shell; on_term (interactive_session sid sz picks)).
Proof. apply keeps_bind; [typeclasses eauto|apply keeps_term|intros sid; apply keeps_term]. Qed.

(** the user gets the terminal back: however an interactive command ends (with the exit of the shell, an error of the daemon, of
    the connection or of standard output, or piped input), the mode of the terminal is what it was before and no
    descriptor of it stays open; only the failure of the call that restores the mode can leave it raw. *)
Theorem terminal_given_back target input from_utf8 id exec open_shell picks s :
  given_back (ss_console s)
    (ss_console (interactive_shell (run_piped_interactive_exec target input from_utf8 id exec) open_shell picks s).2).
Proof.
  unfold interactive_shell, mbind at 1, M_bind, on_console at 1, zoom at 1.
  pose proof (capture_untouched (ss_console s)) as [Ho Hm]. destruct (capture (ss_console s)) as [[terminal|e] c1]; simpl in *;
    [|by split; [|left]].
  destruct (is_tty terminal); simpl.
  - unfold mbind, M_bind, on_console at 1, zoom at 1. simpl.
    destruct (enter_raw_mode terminal c1) as [[guard|e] c2] eqn:E; simpl.
    + apply enter_raw_mode_ok in E. unfold guarded.
      match goal with |- context [let '(r, s') := ?x in _] => destruct x as [r s'] eqn:Ebody end.
      assert (Hc : ss_console s' = c2).
      { pose proof (session_console open_shell (size terminal) picks (mkSession c2 (ss_term s))) as Hb.
        unfold mbind, M_bind in Hb. by rewrite Ebody in Hb. }
      simpl. rewrite Hc. destruct guard as [original|]; simpl.
      * destruct E as (-> & Hm2 & Ho2). unfold tcsetattr. destruct (tcsetattr_error (co_calls c2)) as [e|] eqn:Ee; simpl.
        -- split; [simpl; lia|]. right. by exists (co_calls c2), e.
        -- split; [simpl; lia|]. left. simpl. congruence.
      * destruct E as [Ho2 Hm2]. split; [congruence|]. left. congruence.
    + apply enter_raw_mode_err in E as [Ho2 Hm2]. split; [congruence|]. left. congruence.
  - pose proof (piped_then target input from_utf8 id exec (mkSession c1 (ss_term s))) as Hp.
    unfold mbind, M_bind in Hp |- *. rewrite Hp. by split; [|left].
Qed.
End interactive.

(** *** What a piped script is *)

(** The lines of a here-document: those before its delimiter. *)
Fixpoint until_line (delimiter : string) (lines : list string) : option (list string) :=
  match lines with
  | [] => None
  | l :: rest => if decide (l = delimiter) then Some [] else cons l <$> until_line delimiter rest
  end.

Lemma until_line_app delimiter lines rest :
  delimiter ∉ lines → until_line delimiter (lines ++ delimiter :: rest) = Some lines.
Proof.
  induction lines as [|l lines IH]; intros Hd; simpl; [by rewrite decide_True|].
  rewrite decide_False by set_solver. by rewrite IH by set_solver.
Qed.

(** a script piped into an interactive command arrives whole: the here-document of the command that carries it holds exactly
    its lines, unless one of them is the delimiter, which is drawn at random. *)
Theorem piped_script_exact target delimiter script :
  all_chars (λ a, negb (Ascii.eqb a newline)) delimiter = true → delimiter ∉ split_on newline script →
  ∃ head, split_on newline (piped_command target delimiter script) = head :: split_on newline script ++ [delimiter; ""] ∧
          until_line delimiter (split_on newline script ++ [delimiter; ""]) = Some (split_on newline script).
Proof.
  intros Hd Hs. eexists. split; [|by apply until_line_app].
  set (interpreter := match target with TBash => "bash" | TPython => "python3" end).
  assert (E : piped_command target delimiter script =
    (interpreter ^+ " <<'" ^+ delimiter ^+ "'") ^+ String newline (script ^+ String newline (delimiter ^+ String newline ""))).
  { unfold piped_command, newline_text. rewrite !string_app_assoc. reflexivity. }
  rewrite E, split_on_line.
  - f_equal. rewrite split_on_app. f_equal. by rewrite split_on_line.
  - rewrite !all_chars_app, Hd. by destruct target.
Qed.
End Interactive.
