(* ===== verification/ApiCall.v ===== *)
(** * ApiCall: a call of the BOX API, from end to end

    The client of [BoxClient] and a connection of the server of [BoxApi]: what
    one end writes is what the other reads.  [Implements] says which operation of
    the daemon each call of the client stands for. *)

From S2P Require Import Prelude RustStd FileSystem Auth FsTree Manifest Config Lineage Workspace Images Protocol GuestRpc Runtime BoxStore Boxes BoxApi BoxClient.
Import ApiClient.

(** The two ends agree on JSON. *)
Class ApiCodec `{ApiCrates, ClientCrates} := {
  encode_server_message : ServerMessage → string;
  client_message_roundtrip m : ∃ text, encode_client_message m = Ok text ∧ decode_client_message text = Ok m;
  server_message_roundtrip m : decode_server_message (encode_server_message m) = Ok m;
}.

Section api_call.
Context `{Platform, Target, Serde AdminRegistry, Serde BoxCredentialRegistry, Serde VmImageManifest, Base64, ApiCrates, ClientCrates}.
Context `{!Base64Laws, !ApiCodec}.
Context {B : Type} `{!BoxManager B} (state_dir : path) (base_guest : GuestConfig) (endpoint : string).

Abbreviation HM := (M SandboxError (World * B)).
Abbreviation Conn := (Connection (B := B)).

(** ** What each call stands for *)

Definition on_disk {A} (m : M SandboxError World A) : HM A := zoom fst (λ w h, (w, h.2)) m.
Definition for_admin {A} (p : Principal) (m : HM A) : HM A := _ ← lift (require_admin p); m.
Definition for_box {A} (p : Principal) (b : Uuid) (m : HM A) : HM A := lift (authorize_box p b);; m.

(** A call of the client, made by [p], and the operation of the daemon. *)
Inductive Implements (p : Principal) : ∀ {T}, Op T → HM T → Prop :=
  | im_list_boxes : Implements p list_boxes (for_admin p bm_list_boxes)
  | im_get_box b : Implements p (get_box b) (for_box p b (bm_get_box b))
  | im_create_box image : Implements p (create_box_from_image image) (for_admin p (bm_create_box_from_image image))
  | im_start_box b : Implements p (start_box b) (for_admin p (bm_start_box b))
  | im_stop_box b : Implements p (request_stop b) (for_admin p (bm_stop_box b))
  | im_remove_box b : Implements p (remove_box b) (for_admin p (bm_remove_box b))
  | im_set_box_setting b v : Implements p (set_box_setting b v) (for_admin p (bm_set_box_setting b v))
  | im_list_files b path : Implements p (list_files b path) (for_box p b (bm_list_files b path))
  | im_read_file b path limit :
      Implements p (read_file b path limit) (for_box p b (n ← lift (validate_read_limit limit); bm_read_file b path n))
  | im_write_file b path data parents :
      Implements p (write_file b path data parents) (for_box p b (bm_write_file b path data parents))
  | im_make_dir b path r : Implements p (make_dir b path r) (for_box p b (bm_make_dir b path r))
  | im_remove_path b path r : Implements p (remove_path b path r) (for_box p b (bm_remove_path b path r))
  | im_checkpoint_create b name md :
      Implements p (checkpoint_create b name md) (for_box p b (bm_checkpoint_create b name md))
  | im_checkpoint_list b : Implements p (checkpoint_list b) (for_box p b (bm_checkpoint_list b))
  | im_checkpoint_restore b id mode :
      Implements p (checkpoint_restore b id mode) (for_box p b (bm_checkpoint_restore b id mode))
  | im_checkpoint_fork b id name : Implements p (checkpoint_fork b id name) (for_admin p (bm_checkpoint_fork b id name))
  | im_checkpoint_delete b id : Implements p (checkpoint_delete b id) (for_box p b (bm_checkpoint_delete b id))
  | im_shutdown_daemon : Implements p shutdown_daemon (for_admin p bm_shutdown_daemon)
  | im_admin_add : Implements p admin_add (for_admin p (on_disk (AdminStore.add_admin state_dir endpoint)))
  | im_admin_remove_me :
      Implements p admin_remove_me (admin ← lift (require_admin p); on_disk (AdminStore.remove_admin state_dir admin))
  | im_issue_box_credentials b :
      Implements p (issue_box_credentials b)
        (for_admin p (boxes ← bm_list_boxes;
           if known_box b boxes then on_disk (BoxCredentialStore.issue state_dir endpoint b) else throw (unknown_box b)))
  | im_build_image name apk pip npm mib force :
      Implements p (build_image name apk pip npm mib force)
        (for_admin p (on_disk (image_build (mkBuildSpec state_dir name apk pip npm mib force base_guest))))
  | im_list_images : Implements p list_images (for_admin p (on_disk (image_list state_dir)))
  | im_inspect_image name : Implements p (inspect_image name) (for_admin p (on_disk (inspect state_dir name)))
  | im_remove_image name : Implements p (remove_image name) (for_admin p (on_disk (image_remove state_dir name))).

(** ** The server answers *)

(** The answer to a call is that of the operation. *)
Definition answers {T} (op : Op T) (id : string) (r : Result SandboxError T) (event : BoxEvent) : Prop :=
  match r with
  | Ok x => ∃ response, event = BeResponse id response ∧ op_map op response = Some x
  | Err e => event = BeError (Some id) (error_to_string e)
  end.

(** The shape of every branch of [dispatch_request] that answers. *)
Definition answering {A} (id : string) (m : HM A) (f : A → BoxResponse) (action : ConnectionAction) (c : Conn) :
    Result SandboxError ConnectionAction * Conn :=
  match m (cn_host c) with
  | (Ok x, h) => (send_response id (f x);; mret action) (set_cn_host h c)
  | (Err e, h) => (Err e, set_cn_host h c)
  end.

(** The branch for one call, with the response it makes of the result. *)
Ltac answer_by f :=
  split; [done|]; exists f; eexists; split; [by intros []|];
  match goal with p : Principal |- _ => destruct p end;
  intros [[w h] pr sh se sf tk sd]; cbn;
  unfold answering, for_admin, for_box, serve, on_world, on_disk, zoom, lift, mbind, M_bind, mret, M_ret, BoxApi.decode_bytes; cbn;
  rewrite ?base64_decode_encode; cbn; try done;
  unfold set_cn_host, throw; cbn; repeat (case_match; simplify_eq/=; try done).

Lemma dispatch_answering p T (op : Op T) (direct : HM T) id :
  Implements p op direct →
  request_id (op_request op id) = id ∧
  ∃ f action, (∀ x, op_map op (f x) = Some x) ∧
    ∀ c, dispatch_request state_dir base_guest endpoint (op_request op id) p c = answering id direct f action c.
Proof.
  intros Him; destruct Him.
  - answer_by RsBoxList.
  - answer_by RsBox.
  - answer_by RsBox.
  - answer_by RsBox.
  - answer_by RsBox.
  - answer_by (λ _ : (), RsBoxRemoved b).
  - answer_by RsBox.
  - answer_by (RsFiles path).
  - answer_by RsFile.
  - answer_by (λ _ : (), RsAck).
  - answer_by (λ _ : (), RsAck).
  - answer_by (λ _ : (), RsAck).
  - answer_by RsCheckpoint.
  - answer_by RsCheckpointList.
  - answer_by RsCheckpoint.
  - answer_by RsBox.
  - answer_by (λ _ : (), RsAck).
  - answer_by (λ _ : (), RsAck).
  - answer_by RsAdminAdded.
  - answer_by (λ _ : (), RsAck).
  - answer_by RsBoxCredentials.
  - answer_by RsImage.
  - answer_by RsImageList.
  - answer_by RsImage.
  - answer_by (λ _ : (), RsImageRemoved name).
Qed.

Lemma server_answers p T (op : Op T) (direct : HM T) id c :
  Implements p op direct → cn_principal c = Some p → cn_send_faults c = [] →
  ∃ event closes c', handle_message state_dir base_guest endpoint (CmRequest (op_request op id)) c = (Ok closes, c') ∧
    cn_sent c' = cn_sent c ++ [SmEvent event] ∧ cn_host c' = (direct (cn_host c)).2 ∧ cn_send_faults c' = [] ∧
    answers op id (direct (cn_host c)).1 event.
Proof.
  intros Him Hp Hf. destruct (dispatch_answering p T op direct id Him) as (Hid & f & action & Hmap & Hd).
  cbn [handle_message]. unfold attempt, mbind at 1 2, M_bind, gets. rewrite Hp, Hd, Hid. unfold answering.
  destruct (direct (cn_host c)) as [[x|e] h]; unfold send_response, send_event, send_server_message, mbind, M_bind; cbn; rewrite Hf; cbn.
  - exists (BeResponse id (f x)). destruct action; cbn; eexists _, _; split_and!; try done; exists (f x); by rewrite Hmap.
  - exists (BeError (Some id) (error_to_string e)). eexists _, _. by split_and!.
Qed.

(** ** The client asks and is answered *)

Definition ready_api (c : BoxApiClient) : Prop :=
  ac_reading c = true ∧ ac_todo c = [] ∧ ac_write_faults c = [] ∧
  pending_responses (ac_state c) !! pretty (ac_next_id c) = None.

Lemma begin_op_run {T} (op : Op T) c :
  (∀ id, request_id (op_request op id) = id) → ready_api c →
  let id := pretty (ac_next_id c) in let ch := length (ac_oneshots c) in
  ∃ text c1, decode_client_message text = Ok (CmRequest (op_request op id)) ∧ begin_op op c = (Ok (id, ch), c1) ∧
    ac_written c1 = ac_written c ++ [text] ∧ ac_reading c1 = true ∧ ac_todo c1 = [] ∧
    pending_responses (ac_state c1) !! id = Some ch ∧ ac_oneshots c1 = ac_oneshots c ++ [mkOneshot id None].
Proof.
  intros Hid (Hrd & Htd & Hwf & Hno) id ch. destruct (client_message_roundtrip (CmRequest (op_request op id))) as (text & He & Hd).
  exists text. eexists. split; [done|]. split.
  { unfold begin_op, begin_request, next_request_id, register_response, send_request, map_err, lift, mbind, M_bind. cbn.
    fold id. rewrite Hid, He. unfold ws_send. unfold resolve. cbn. fold id in Hno. rewrite Hno. cbn. rewrite Hwf. done. }
  cbn. split_and!; try done. apply lookup_insert_eq.
Qed.

(** An error crosses the connection as its text. *)
Definition over_api {T} (r : Result SandboxError T) : Result SandboxError T :=
  match r with Ok x => Ok x | Err e => Err (remote_error (error_to_string e)) end.

Lemma read_answer auth {T} (op : Op T) id ch r event c :
  answers op id r event → ac_reading c = true → ac_todo c = [] →
  pending_responses (ac_state c) !! id = Some ch → ac_oneshots c !! ch = Some (mkOneshot id None) →
  ∃ c' d, read_message auth (WsText (encode_server_message (SmEvent event))) c = Some c' ∧
    ac_oneshots c' !! ch = Some (mkOneshot id (Some d)) ∧ finish_op op id d = over_api r.
Proof.
  intros Ha Hrd Htd Hp Ho. unfold read_message. rewrite Hrd, Htd, server_message_roundtrip. simpl.
  assert (Hres : ∀ d, ac_oneshots (resolve id d c) !! ch = Some (mkOneshot id (Some d))).
  { intros d. unfold resolve. rewrite Hp. simpl. by rewrite list_lookup_alter_eq, Ho. }
  destruct r as [x|e]; simpl in Ha.
  - destruct Ha as (response & -> & Hm). eexists _, _. split; [done|]. split; [apply Hres|].
    unfold finish_op. simpl. by rewrite Hm.
  - subst event. simpl. rewrite Hp. eexists _, _. split; [done|]. by split; [apply Hres|].
Qed.

(** ** From end to end *)

(** C8: a call of the API is the operation of the daemon: for every call with one answer, the text
    the client writes is read by the server as its request, which it answers with one
    message; the caller gets the result the operation has when the daemon runs it for this
    principal, access checks included, an error as [remote_error] reads its text, and
    the disk and the BOX service are left as by the operation. *)
Theorem api_call_is_direct auth p T (op : Op T) (direct : HM T) c (s : Conn) :
  Implements p op direct → ready_api c → cn_principal s = Some p → cn_send_faults s = [] →
  let ch := length (ac_oneshots c) in
  ∃ id text c1 closes s1 event c2 d,
    begin_op op c = (Ok (id, ch), c1) ∧ ac_written c1 = ac_written c ++ [text] ∧
    handle_frame state_dir base_guest endpoint (FrText text) s = (Ok closes, s1) ∧
    cn_sent s1 = cn_sent s ++ [SmEvent event] ∧ cn_host s1 = (direct (cn_host s)).2 ∧
    read_message auth (WsText (encode_server_message (SmEvent event))) c1 = Some c2 ∧
    ac_oneshots c2 !! ch = Some (mkOneshot id (Some d)) ∧
    finish_op op id d = over_api (direct (cn_host s)).1.
Proof.
  intros Him Hc Hp Hf ch. set (id := pretty (ac_next_id c)).
  destruct (begin_op_run op c) as (text & c1 & Hdec & Hb & Hw & Hrd & Htd & Hpe & Hos);
    [intros i; by apply (dispatch_answering p T op direct i Him)|done|].
  destruct (server_answers p T op direct id s Him Hp Hf) as (event & closes & s1 & Hh & Hs & Hhost & _ & Ha).
  destruct (read_answer auth op id ch _ event c1 Ha Hrd Htd Hpe) as (c2 & d & Hread & Hd & Hfin).
  { rewrite Hos. unfold ch. by rewrite lookup_app_r, Nat.sub_diag by lia. }
  exists id, text, c1, closes, s1, event, c2, d. split_and!; try done.
  cbn [handle_frame]. unfold map_err, lift, mbind at 1, M_bind. by rewrite Hdec.
Qed.

(** ** Commands *)

(** The commands of the client and what the daemon runs. *)
Inductive Runs : (string → BoxRequest) → Uuid → ExecRequest → Prop :=
  | runs_bash b command timing :
      Runs (exec_bash_request b command timing) b (bash_exec command (fst <$> timing) (snd <$> timing))
  | runs_python b args : Runs (exec_python_request b args) b (python_exec args None None).

(** The client reads messages one after the other, and the caller takes what
    arrives in its channel. *)
Fixpoint pump (auth : ClientMessage) (ch : nat) (messages : list ServerMessage) (c : BoxApiClient) :
    option (list BoxEvent * BoxApiClient) :=
  match messages with
  | [] => Some ([], c)
  | m :: rest =>
      c1 ← read_message auth (WsText (encode_server_message m)) c;
      c2 ← run auth (replicate (length (ac_todo c1)) SAct) c1;
      chan ← ac_chans c2 !! ch;
      match ch_recv chan with
      | Some (e, chan') =>
          '(events, c3) ← pump auth ch rest (set_chans (<[ch := chan']> (ac_chans c2)) c2); Some (e :: events, c3)
      | None => pump auth ch rest c2
      end
  end.

(** A caller that has taken everything from its channel. *)
Record following (id : string) (ch : nat) (c : BoxApiClient) : Prop := {
  fo_reading : ac_reading c = true;
  fo_todo : ac_todo c = [];
  fo_stream : exec_streams (ac_state c) !! id = Some ch;
  fo_chan : ∃ sent, ac_chans c !! ch = Some (mkChan sent (length sent) true);
}.

Lemma send_room (sent : list BoxEvent) e :
  ch_send e (mkChan sent (length sent) true) = Some (mkChan (sent ++ [e]) (length sent) true).
Proof. unfold ch_send, ch_full. simpl. by rewrite Nat.sub_diag. Qed.

Lemma recv_last (sent : list BoxEvent) e :
  ch_recv (mkChan (sent ++ [e]) (length sent) true) = Some (e, mkChan (sent ++ [e]) (length (sent ++ [e])) true).
Proof. unfold ch_recv. simpl. rewrite lookup_app_r, Nat.sub_diag by lia. simpl. by rewrite length_app, Nat.add_comm. Qed.

Lemma pump_relayed auth id ch stream c :
  following id ch c → ∃ c', pump auth ch (map SmEvent (relayed id stream)) c = Some (relayed id stream, c').
Proof.
  revert c. induction stream as [|[st data|status] stream IH]; intros c [Hr Ht Hs (sent & Hc)]; [by exists c|..].
  - cbn [relayed map pump]. unfold read_message at 1. rewrite Hr, Ht, server_message_roundtrip. simpl. rewrite Hs. simpl.
    unfold run_act. simpl. rewrite Hc. simpl. rewrite send_room. simpl.
    assert (Hlt : ch < length (ac_chans c)) by by eapply lookup_lt_Some.
    rewrite list_lookup_insert_eq by done. simpl. rewrite recv_last. simpl.
    match goal with |- context [pump auth ch _ ?c0] => destruct (IH c0) as (c' & ->); [|by exists c'] end.
    split; try done. simpl. eexists. by rewrite list_lookup_insert_eq by by rewrite length_insert.
  - cbn [relayed map pump]. unfold read_message. rewrite Hr, Ht, server_message_roundtrip. simpl. rewrite Hs. simpl.
    unfold run_act. simpl. rewrite Hc. simpl. rewrite send_room. simpl.
    assert (Hlt : ch < length (ac_chans c)) by by eapply lookup_lt_Some.
    rewrite list_lookup_insert_eq by done. simpl. rewrite recv_last. simpl. eauto.
Qed.

Lemma collect_relayed id stream acc :
  (∃ status, EvExit status ∈ stream) →
  collect_exec id acc (relayed id stream) = Done (Ok (completed (foldl collect_event acc (wrap_exec_stream stream)))).
Proof.
  revert acc. induction stream as [|[st data|status] stream IH]; intros acc [status' Hin]; [by apply elem_of_nil in Hin|..].
  - cbn [relayed collect_exec collect_one]. rewrite decide_True by done. unfold decode_bytes. rewrite base64_decode_encode.
    cbn [wrap_exec_stream foldl]. apply IH. apply elem_of_cons in Hin as [|]; [done|]. eauto.
  - cbn [relayed collect_exec collect_one]. by rewrite decide_True by done.
Qed.

Lemma begin_exec_run request c :
  (∀ id, request_id (request id) = id) → ready_api c →
  let id := pretty (ac_next_id c) in let ch := length (ac_chans c) in
  ∃ text c1, decode_client_message text = Ok (CmRequest (request id)) ∧ begin_exec request c = (Ok (id, ch), c1) ∧
    ac_written c1 = ac_written c ++ [text] ∧ following id ch c1.
Proof.
  intros Hid (Hrd & Htd & Hwf & _) id ch. destruct (client_message_roundtrip (CmRequest (request id))) as (text & He & Hd).
  exists text. eexists. split; [done|]. split.
  { unfold begin_exec, open_exec_channel, next_request_id, attempt, send_request, map_err, lift, gets, modify, mbind, M_bind. cbn.
    fold id. rewrite Hid, He. unfold ws_send. cbn. rewrite Hwf. done. }
  split; [done|]. split; try done; cbn.
  - apply lookup_insert_eq.
  - exists []. unfold ch. by rewrite lookup_app_r, Nat.sub_diag by lia.
Qed.

(** C15: running a command through the API is running it in the BOX: when the service gives the
    command's stream and it ends, the text the client writes starts it, the task of the
    server relays it, and what the caller collects from the messages is what collecting
    the stream itself gives: both outputs complete and in order, and the exit status. *)
Theorem api_exec_is_direct auth p request b exec stream h c (s : Conn) :
  Runs request b exec → ready_api c → cn_principal s = Some p → authorize_box p b = Ok () → cn_send_faults s = [] →
  bm_exec b exec (cn_host s) = (Ok stream, h) → (∃ status, EvExit status ∈ stream) →
  ∃ id ch text c1 s1 events c2,
    begin_exec request c = (Ok (id, ch), c1) ∧ ac_written c1 = ac_written c ++ [text] ∧
    handle_frame state_dir base_guest endpoint (FrText text) s = (Ok false, s1) ∧ cn_host s1 = h ∧
    let s2 := run_turns (length (cn_tasks s)) (relay_turns stream) s1 in
    ∃ messages, cn_sent s2 = cn_sent s ++ messages ∧ cn_tasks s2 = cn_tasks s ∧
      pump auth ch messages c1 = Some (events, c2) ∧
      collect_exec id collect_start events = Done (Ok (collect (wrap_exec_stream stream))).
Proof.
  intros Hruns Hc Hp Hauth Hf Hexec Hexit. set (id := pretty (ac_next_id c)). set (ch := length (ac_chans c)).
  destruct (begin_exec_run request c) as (text & c1 & Hdec & Hb & Hw & Hfol); [by destruct Hruns|done|].
  fold id ch in Hdec, Hb, Hfol. destruct (pump_relayed auth id ch stream c1 Hfol) as (c2 & Hpump).
  set (s1 := set_tasks (cn_tasks s ++ [TkExec id stream]) (set_cn_host h s)).
  exists id, ch, text, c1, s1, (relayed id stream), c2. split_and!; [done|done| |done|].
  { cbn [handle_frame]. unfold map_err, lift, mbind at 1, M_bind. rewrite Hdec. cbn [handle_message].
    unfold gets, attempt, mbind, M_bind. rewrite Hp. destruct Hruns; cbn in *; unfold mbind, M_bind, lift, serve, zoom, spawn, modify;
      rewrite Hauth, Hexec; done. }
  cbv zeta. rewrite (exec_relay_complete _ id stream s1) by (done || (cbn; by rewrite lookup_app_r, Nat.sub_diag by lia)).
  exists (map SmEvent (relayed id stream)). split_and!; [done| |done|by apply collect_relayed].
  cbn. by rewrite delete_middle, app_nil_r.
Qed.
End api_call.
