(* ===== verification/HostConfig.v ===== *)
(** * HostConfig: [src/sagens/config.rs], the configuration from the environment

    Paths, the runtime configuration of the daemon and the choice of the
    isolation mode.  The variables are text; what the process finds around it is
    an interface. *)

From S2P Require Import Prelude RustStd Text Paths Config.

(** What a process can ask: its variables, whether a path is a file and what it
    holds, the architecture, the root of the checkout it was built in, whether
    guest artifacts are embedded in it, and [SocketAddr::from_str]. *)
Class HostEnv := {
  env_var : string → option string;
  is_file : string → bool;
  file_bytes : string → option bytes;
  arch : string;
  workspace_root : string;
  has_embedded_assets : bool;
  parse_socket_addr : string → Result string SocketAddr;
}.

(** [PathBuf::join] on the text of a path. *)
Definition path_join (p rel : string) : string :=
  if starts_with "/" rel then rel
  else if decide (p = "") then rel
  else if ends_with "/" p then p ^+ rel else p ^+ "/" ^+ rel.

Record SagensPaths := mkPaths {
  sp_state_dir : string;
  sp_user_config_path : string;
  sp_endpoint : string;
  sp_pid_path : string;
  sp_daemon_log_path : string;
}.

Inductive ProjectArtifactKind := PaKernel | PaRootfs | PaFirmware.

Section config.
Context `{Target, HostEnv}.

Definition home_dir : option string := env_var "HOME".

Definition env_flag (name : string) : bool :=
  match env_var name with Some v => bool_decide (v ∈ ["1"; "true"; "yes"; "on"]) | None => false end.

(** [env::var_os(name).filter(|value| !value.is_empty())] *)
Definition env_nonempty (name : string) : option string :=
  v ← env_var name; if decide (v = "") then None else Some v.

(** [env::var(name).ok().and_then(|value| value.parse().ok()).unwrap_or(d)] *)
Definition env_uint (name : string) (top d : Z) : Z := default d (env_var name ≫= parse_uint top).

Definition join_all (p : string) (parts : list string) : string := foldl path_join p parts.

(** [default_state_dir] and [default_config_dir] differ in two names. *)
Definition user_dir (variable : string) (fallback : list string) : string :=
  let home := default "." home_dir in
  if on_macos then join_all home ["Library"; "Application Support"; "sagens"]
  else match env_nonempty variable with
       | Some xdg => path_join xdg "sagens"
       | None => join_all home fallback
       end.
Definition default_state_dir : string := user_dir "XDG_STATE_HOME" [".local"; "state"; "sagens"].
Definition default_config_dir : string := user_dir "XDG_CONFIG_HOME" [".config"; "sagens"].
Definition default_user_config_path : string := path_join default_config_dir "config.json".
Definition default_endpoint : string := "ws://127.0.0.1:7000".

Definition resolve_paths : SagensPaths :=
  let state_dir := default default_state_dir (env_var "SAGENS_STATE_DIR") in
  mkPaths state_dir
    (default default_user_config_path (env_var "SAGENS_CONFIG"))
    (default default_endpoint (env_var "SAGENS_ENDPOINT"))
    (path_join state_dir "daemon.pid") (path_join state_dir "daemon.log").

(** ** Guest artifacts *)

Definition default_kernel_candidates (guest_dir : string) : list string := [path_join guest_dir "vmlinuz-virt"].

Definition default_project_artifact_candidates (kind : ProjectArtifactKind) : list string :=
  let guest_dir : option string :=
    if on_macos || on_linux then
      if decide (arch = "x86_64") then Some (path_join workspace_root "artifacts/alpine-x86_64")
      else if decide (arch = "aarch64") then Some (path_join workspace_root "artifacts/alpine-aarch64")
      else None
    else None in
  let dirs := match guest_dir with Some d => [d] | None => [] end in
  match kind with
  | PaKernel => dirs ≫= default_kernel_candidates
  | PaRootfs => (λ d, path_join d "rootfs.raw") <$> dirs
  | PaFirmware =>
      if on_macos then [path_join workspace_root "third_party/upstream/libkrun/edk2/KRUN_EFI.silent.fd"] else []
  end.

Definition first_existing_path (candidates : list string) : option string := head (filter (λ p, is_file p = true) candidates).
Definition required_path (candidates : list string) : string := default "" (first_existing_path candidates).

Definition default_guest_path (kind : ProjectArtifactKind) (prefer_embedded_assets : bool) : string :=
  if prefer_embedded_assets then "" else required_path (default_project_artifact_candidates kind).
Definition default_firmware_path (prefer_embedded_assets : bool) : option string :=
  if prefer_embedded_assets then None else first_existing_path (default_project_artifact_candidates PaFirmware).

Definition default_guest_uid : Z := if on_macos then 0 else 65534.
Definition default_guest_gid : Z := if on_macos then 0 else 65534.

(** [GuestKernelFormat::detect_from_path] on the text of a path. *)
Definition kernel_format_of (p : string) (fallback : GuestKernelFormat) : GuestKernelFormat :=
  if decide (p = "") then fallback
  else match (match last (components p) with Some (Normal name) => detect_from_file_name name | _ => None end) with
       | Some format => format
       | None => match file_bytes p with
                 | Some b => detect_from_probe (take KERNEL_FORMAT_PROBE_BYTES b) fallback
                 | None => fallback
                 end
       end.

(** The guest of [build_runtime_config_for_endpoint] and of [resolve_guest_config_for_images]. *)
Definition guest_config : GuestConfig :=
  let kernel := default_guest_path PaKernel has_embedded_assets in
  {| kernel_image := kernel;
     kernel_format := kernel_format_of kernel default_for_host;
     rootfs_image := default_guest_path PaRootfs has_embedded_assets;
     firmware := default_firmware_path has_embedded_assets;
     guest_agent_path := "/usr/local/bin/sagens-guest-agent";
     guest_vsock_port := env_uint "SAGENS_GUEST_VSOCK_PORT" u32_max 11000;
     boot_timeout := 30000000000;
     guest_uid := default_guest_uid;
     guest_gid := default_guest_gid;
     guest_tmpfs_mib := 64 |}.

(** ** The isolation mode *)

Definition secure_defaults_ready : bool := on_linux && bool_decide (is_Some (env_nonempty "SAGENS_CGROUP_PARENT")).
Definition insecure_compat_opt_in : bool := env_flag "SAGENS_INSECURE_COMPAT".

Definition parse_isolation_mode : Result SandboxError IsolationMode :=
  let by_default : Result SandboxError IsolationMode :=
    if secure_defaults_ready then Ok Secure
    else Err (InvalidConfig "secure isolation is the only supported packaged mode on this host; this host would otherwise fall back to insecure compat. Configure the secure host prerequisites or, for dev/test only, set SAGENS_ISOLATION_MODE=compat and SAGENS_INSECURE_COMPAT=1") in
  match env_var "SAGENS_ISOLATION_MODE" with
  | None => by_default
  | Some value =>
      if decide (trim value = "") then by_default
      else let mode := to_ascii_lowercase (trim value) in
        if decide (mode = "compat") then
          if insecure_compat_opt_in then Ok Compat
          else Err (InvalidConfig "compat isolation mode is marked insecure and is only available for dev/test; set SAGENS_INSECURE_COMPAT=1 together with SAGENS_ISOLATION_MODE=compat to continue")
        else if decide (mode = "secure") then Ok Secure
        else Err (InvalidConfig ("unsupported SAGENS_ISOLATION_MODE: " ^+ value))
  end.

Definition parse_endpoint_addr (endpoint : string) : Result SandboxError SocketAddr :=
  text ← ok_or (InvalidConfig ("unsupported endpoint " ^+ endpoint)) (strip_prefix "ws://" endpoint);
  match parse_socket_addr text with
  | Ok addr => Ok addr
  | Err error => Err (InvalidConfig ("invalid websocket endpoint " ^+ endpoint ^+ ": " ^+ error))
  end.

Definition build_runtime_config_for_endpoint (state_dir endpoint : string) : Result SandboxError RuntimeConfig :=
  isolation_mode ← parse_isolation_mode;
  bind ← parse_endpoint_addr endpoint;
  Ok {| rc_state_dir := state_dir;
        rc_guest := guest_config;
        rc_workspace := {| disk_size_mib := env_uint "SAGENS_WORKSPACE_MIB" u64_max 128 |};
        rc_control := {| bind_addr := bind; allow_remote_bind := false |};
        rc_lifecycle := LifecycleConfig_default;
        rc_isolation_mode := isolation_mode;
        rc_hardening :=
          {| enable_landlock := bool_decide (isolation_mode = Secure) || env_flag "SAGENS_ENABLE_LANDLOCK";
             cgroup_parent := env_nonempty "SAGENS_CGROUP_PARENT";
             runner_log_limit_bytes := env_uint "SAGENS_RUNNER_LOG_LIMIT_BYTES" u64_max (4 * 1024 * 1024) |};
        rc_artifact_bundle := {| bundle_id := default "sagens" (env_var "SAGENS_BUNDLE_ID") |};
        rc_default_policy := ExecutionPolicy_default |}.

(** ** Properties *)

(** The user asked for the insecure mode, twice. *)
Definition compat_requested : Prop :=
  (∃ value, env_var "SAGENS_ISOLATION_MODE" = Some value ∧ to_ascii_lowercase (trim value) = "compat") ∧
  insecure_compat_opt_in = true.

Lemma isolation_mode_cases mode :
  parse_isolation_mode = Ok mode →
  (mode = Compat ∧ compat_requested) ∨
  (mode = Secure ∧ (secure_defaults_ready = true ∨
     ∃ value, env_var "SAGENS_ISOLATION_MODE" = Some value ∧ to_ascii_lowercase (trim value) = "secure")).
Proof.
  unfold parse_isolation_mode, compat_requested. destruct (env_var "SAGENS_ISOLATION_MODE") as [value|].
  - case_decide; [destruct secure_defaults_ready; naive_solver|].
    case_decide; [destruct insecure_compat_opt_in; naive_solver|]. case_decide; naive_solver.
  - destruct secure_defaults_ready; naive_solver.
Qed.

(** C34: the daemon is isolated unless the user insists: a configuration built from the environment runs in
    the insecure mode only when both variables ask for it, and without them only secure or
    not at all; in secure mode Landlock is on whatever the variables say; and a configuration that
    passes validation listens on a loopback address only, and in secure mode
    is hardened. *)
Theorem config_fail_closed state_dir endpoint c :
  build_runtime_config_for_endpoint state_dir endpoint = Ok c →
  (rc_isolation_mode c = Compat → compat_requested) ∧
  (env_nonempty "SAGENS_ISOLATION_MODE" = None →
     rc_isolation_mode c = Secure ∧ target_os = Linux ∧ is_Some (cgroup_parent (rc_hardening c))) ∧
  (rc_isolation_mode c = Secure → enable_landlock (rc_hardening c) = true) ∧
  (RuntimeConfig_validate c = Ok () →
     is_loopback (addr_ip (bind_addr (rc_control c))) = true ∧ (rc_isolation_mode c = Secure → hardened c)).
Proof.
  unfold build_runtime_config_for_endpoint. destruct parse_isolation_mode as [mode|] eqn:Em; [|done]. simpl.
  destruct (parse_endpoint_addr endpoint) as [addr|]; [|done]. simpl. intros [= <-]. simpl.
  assert (Hcases := isolation_mode_cases mode Em). split_and!.
  - naive_solver.
  - unfold env_nonempty. intros Hn. assert (secure_defaults_ready = true ∧ mode = Secure) as [Hr ->].
    { unfold parse_isolation_mode in Em. destruct (env_var "SAGENS_ISOLATION_MODE") as [value|] eqn:Ev; simpl in Hn.
      - case_decide as Hv; [|done]. subst value. change (trim "") with "" in Em. rewrite decide_True in Em by done.
        destruct secure_defaults_ready; [by injection Em as <-|done].
      - destruct secure_defaults_ready; [by injection Em as <-|done]. }
    unfold secure_defaults_ready, on_linux in Hr. apply andb_true_iff in Hr as [Ho%bool_decide_eq_true Hg%bool_decide_eq_true].
    by split_and!.
  - by intros ->.
  - intros Hval. destruct (validated_config_is_safe _ Hval) as (Hs & Hl & _). simpl in *. split; auto.
Qed.

(** ** Endpoints *)

(** the daemon never listens where the endpoint does not say so: only addresses of the websocket scheme are accepted, and
    the address bound is the one the endpoint names. *)
Theorem endpoint_is_bound state_dir endpoint c :
  build_runtime_config_for_endpoint state_dir endpoint = Ok c →
  ∃ text, endpoint = "ws://" ^+ text ∧ parse_socket_addr text = Ok (bind_addr (rc_control c)) ∧
    allow_remote_bind (rc_control c) = false.
Proof.
  unfold build_runtime_config_for_endpoint, parse_endpoint_addr. destruct parse_isolation_mode; [|done]. cbn [mbind Result_bind].
  destruct (strip_prefix "ws://" endpoint) as [text|] eqn:Es; [|done]. simpl.
  destruct (parse_socket_addr text) as [addr|] eqn:Ea; [|done]. intros [= <-]. simpl.
  exists text. split_and!; [by apply strip_prefix_Some|done|done].
Qed.
End config.
