(* ===== verification/Cli.v ===== *)
(** * Cli: [src/sagens/args], the command line

    Arguments in, a command or an error out.  The parser consumes a vector from
    its front; here it recurses on the list.  The usage hints of
    the errors are here, the help pages in [HelpPages.v]. *)

From S2P Require Import Prelude RustStd Text FileSystem Lineage Workspace BoxStore BoxApi.

(** ** Commands: [args/mod.rs] *)

Inductive HelpTopic :=
  | HtRoot | HtStart | HtQuit | HtUpdate | HtDaemon | HtDaemonLog
  | HtAdmin | HtAdminAdd | HtAdminRemoveMe
  | HtBox | HtBoxList | HtBoxNew
  | HtImage | HtImageBuild | HtImageList | HtImageInspect | HtImageRemove
  | HtBoxStart | HtBoxStop | HtBoxRemove | HtBoxSet | HtBoxExec
  | HtBoxFs | HtBoxFsList | HtBoxFsUpload | HtBoxFsDownload
  | HtBoxCheckpoint | HtBoxCheckpointCreate | HtBoxCheckpointList | HtBoxCheckpointRestore
  | HtBoxCheckpointFork | HtBoxCheckpointDelete.

Inductive AdminCommand := AdmAdd | AdmRemoveMe.

Record DaemonLogCommand := mkDaemonLog { dl_tail : option Z; dl_follow : bool }.
Inductive DaemonCommand := DmRun | DmLog (command : DaemonLogCommand).

Record BoxNewCommand := mkBoxNew { bn_image : option string }.

Record ImageBuildCommand := mkImageBuild {
  bi_name : string;
  bi_apk : list string;
  bi_pip : list string;
  bi_npm : list string;
  bi_min_image_mib : Z;
  bi_force_refresh : bool;
}.

Inductive ImageCommand :=
  | ImBuild (command : ImageBuildCommand)
  | ImList
  | ImInspect (name : string)
  | ImRemove (name : string).

Record BoxSetCommand := mkBoxSet { bset_box_id : option Uuid; bset_value : BoxSettingValue }.

Inductive ExecTarget := EtBash (command : string) | EtPython (args : list string) | EtInteractive (target : InteractiveTarget).

Record ExecCommand := mkExecCommand { ec_box_id : Uuid; ec_target : ExecTarget }.

Inductive FsCommand :=
  | FsCList (box_id : Uuid) (path : string)
  | FsCUpload (box_id : Uuid) (local_path remote_path : string)
  | FsCDownload (box_id : Uuid) (remote_path local_path : string).

Inductive CheckpointCommand :=
  | CkCreate (box_id : Uuid) (name : option string) (metadata : gmap string string)
  | CkList (box_id : Uuid)
  | CkRestore (box_id : Uuid) (checkpoint_id : string) (mode : CheckpointRestoreMode)
  | CkFork (box_id : Uuid) (checkpoint_id : string) (new_box_name : option string)
  | CkDelete (box_id : Uuid) (checkpoint_id : string).

Inductive BoxCommand :=
  | BxList
  | BxNew (command : BoxNewCommand)
  | BxStart (box_id : Uuid)
  | BxStop (box_id : Uuid)
  | BxRemove (box_id : Uuid)
  | BxSet (command : BoxSetCommand)
  | BxExec (command : ExecCommand)
  | BxFs (command : FsCommand)
  | BxCheckpoint (command : CheckpointCommand).

Inductive Command :=
  | CmdHelp (topic : HelpTopic)
  | CmdStart
  | CmdQuit
  | CmdUpdate
  | CmdDaemon (command : DaemonCommand)
  | CmdAdmin (command : AdminCommand)
  | CmdImage (command : ImageCommand)
  | CmdBox (command : BoxCommand).

(** ** Texts: [args/help.rs] *)

Definition short_usage : string := "usage: sagens <start|quit|update|daemon|admin|image|box> [args]".

Definition render_usage_hint (topic : HelpTopic) : string :=
  match topic with
  | HtRoot => "usage: sagens <command> [args]"
  | HtStart => "usage: sagens start"
  | HtQuit => "usage: sagens quit"
  | HtUpdate => "usage: sagens update"
  | HtDaemon => "usage: sagens daemon [log [--tail LINES] [--follow]]"
  | HtDaemonLog => "usage: sagens daemon log [--tail LINES] [--follow]"
  | HtAdmin => "usage: sagens admin <add|remove me>"
  | HtAdminAdd => "usage: sagens admin add"
  | HtAdminRemoveMe => "usage: sagens admin remove me"
  | HtImage => "usage: sagens image <build|list|inspect|rm>"
  | HtImageBuild => "usage: sagens image build <NAME> [--apk PKG]... [--pip REQ]... [--npm PKG]... [--min-image-mib N] [--force-refresh]"
  | HtImageList => "usage: sagens image list"
  | HtImageInspect => "usage: sagens image inspect <NAME>"
  | HtImageRemove => "usage: sagens image rm <NAME>"
  | HtBox => "usage: sagens box <list|new|start|stop|rm|set|exec|fs|checkpoint>"
  | HtBoxList => "usage: sagens box list"
  | HtBoxNew => "usage: sagens box new [--image NAME]"
  | HtBoxStart => "usage: sagens box start <BOX_ID>"
  | HtBoxStop => "usage: sagens box stop <BOX_ID>"
  | HtBoxRemove => "usage: sagens box rm <BOX_ID>"
  | HtBoxSet => "usage: sagens box set [BOX_ID] <setting> <value>"
  | HtBoxExec => "usage: sagens box exec [-i] <BOX_ID> <bash|python> [args...]"
  | HtBoxFs => "usage: sagens box fs <BOX_ID> <ls|upload|download> ..."
  | HtBoxFsList => "usage: sagens box fs <BOX_ID> ls [PATH]"
  | HtBoxFsUpload => "usage: sagens box fs <BOX_ID> upload <LOCAL_PATH> <REMOTE_PATH>"
  | HtBoxFsDownload => "usage: sagens box fs <BOX_ID> download <REMOTE_PATH> <LOCAL_PATH>"
  | HtBoxCheckpoint => "usage: sagens box checkpoint <create|list|restore|fork|delete> <BOX_ID> ..."
  | HtBoxCheckpointCreate => "usage: sagens box checkpoint create <BOX_ID> [--name NAME] [--meta KEY=VALUE]..."
  | HtBoxCheckpointList => "usage: sagens box checkpoint list <BOX_ID>"
  | HtBoxCheckpointRestore => "usage: sagens box checkpoint restore <BOX_ID> <CHECKPOINT_ID> [--mode rollback|replace]"
  | HtBoxCheckpointFork => "usage: sagens box checkpoint fork <BOX_ID> <CHECKPOINT_ID> [--name NAME]"
  | HtBoxCheckpointDelete => "usage: sagens box checkpoint delete <BOX_ID> <CHECKPOINT_ID>"
  end.

(** A [match] on a string: the first arm that names it. *)
Fixpoint switch {A} (s : string) (arms : list (list string * A)) (other : A) : A :=
  match arms with
  | [] => other
  | (names, a) :: rest => if existsb (String.eqb s) names then a else switch s rest other
  end.

Definition blank_line : string := String line_feed (String line_feed "").

(** [values.join(" ")] *)
Definition join_args (args : list string) : string := unwords args.

(** The topics by the words that name them. *)
Definition help_topics : list (list string * HelpTopic) :=
  [([], HtRoot); (["start"], HtStart); (["quit"], HtQuit); (["update"], HtUpdate); (["daemon"], HtDaemon);
   (["daemon"; "log"], HtDaemonLog); (["admin"], HtAdmin); (["admin"; "add"], HtAdminAdd);
   (["admin"; "remove"; "me"], HtAdminRemoveMe); (["image"], HtImage); (["image"; "build"], HtImageBuild);
   (["image"; "list"], HtImageList); (["image"; "inspect"], HtImageInspect); (["image"; "rm"], HtImageRemove);
   (["box"], HtBox); (["box"; "list"], HtBoxList); (["box"; "ps"], HtBoxList); (["box"; "new"], HtBoxNew);
   (["box"; "start"], HtBoxStart); (["box"; "stop"], HtBoxStop); (["box"; "rm"], HtBoxRemove); (["box"; "set"], HtBoxSet);
   (["box"; "exec"], HtBoxExec); (["box"; "fs"], HtBoxFs); (["box"; "fs"; "ls"], HtBoxFsList);
   (["box"; "fs"; "upload"], HtBoxFsUpload); (["box"; "fs"; "download"], HtBoxFsDownload);
   (["box"; "checkpoint"], HtBoxCheckpoint); (["box"; "checkpoint"; "create"], HtBoxCheckpointCreate);
   (["box"; "checkpoint"; "list"], HtBoxCheckpointList); (["box"; "checkpoint"; "restore"], HtBoxCheckpointRestore);
   (["box"; "checkpoint"; "fork"], HtBoxCheckpointFork); (["box"; "checkpoint"; "delete"], HtBoxCheckpointDelete)].

Definition parse_help_topic (args : list string) : Result SandboxError HelpTopic :=
  match list_find (λ t, t.1 = args) help_topics with
  | Some (_, (_, topic)) => Ok topic
  | None => Err (InvalidConfig ("unsupported help topic " ^+ join_args args ^+ blank_line ^+ short_usage))
  end.

(** ** Helpers of [args/parse.rs] *)

Definition is_help_flag (value : string) : bool := String.eqb value "-h" || String.eqb value "--help".
Definition help_only (args : list string) : bool := match args with [a] => is_help_flag a | _ => false end.

Definition usage_error {A} (topic : HelpTopic) : Result SandboxError A := Err (InvalidConfig (render_usage_hint topic)).

Definition ensure_no_extra_args (args : list string) (topic : HelpTopic) : Result SandboxError () :=
  if decide (args = []) then Ok () else if help_only args then Ok () else usage_error topic.

Definition single_arg (args : list string) (usage : string) : Result SandboxError string :=
  match args with [a] => Ok a | _ => Err (InvalidConfig usage) end.

(** The first argument with the rest. *)
Definition single_arg_from (args : list string) (usage : string) : Result SandboxError (string * list string) :=
  match args with a :: rest => Ok (a, rest) | [] => Err (InvalidConfig usage) end.

(** [usize], on the 64-bit targets. *)
Definition usize_max : Z := 2 ^ 64 - 1.

Definition parse_tail_lines (value : string) : Result SandboxError Z :=
  lines ← ok_or (InvalidConfig ("invalid --tail value " ^+ value ^+ ": " ^+ uint_error usize_max value)) (parse_uint usize_max value);
  if (lines =? 0)%Z then Err (InvalidConfig "--tail must be greater than zero") else Ok lines.

(** [str::replace('_', "")] *)
Fixpoint drop_char (c : ascii) (s : string) : string :=
  match s with EmptyString => "" | String a s' => if Ascii.eqb a c then drop_char c s' else String a (drop_char c s') end.

Definition strip_suffix (pat s : string) : option string :=
  string_rev <$> strip_prefix (string_rev pat) (string_rev s).

(** The units of [parse_mib_value], in the order they are tried. *)
Definition mib_units : list (string * Z) := [("gib", 1024); ("gb", 1024); ("g", 1024); ("mib", 1); ("mb", 1); ("m", 1)]%Z.

Definition split_unit (normalized : string) : string * Z :=
  match head (omap (λ '(unit, factor), (λ digits, (digits, factor)) <$> strip_suffix unit normalized) mib_units) with
  | Some r => r
  | None => (normalized, 1%Z)
  end.

Definition parse_mib_value (name raw : string) : Result SandboxError Z :=
  let normalized := to_ascii_lowercase (drop_char "_" (trim raw)) in
  let '(digits, factor) := split_unit normalized in
  value ← ok_or (InvalidConfig ("invalid " ^+ name ^+ " value " ^+ raw ^+ ": " ^+ uint_error u64_max digits)) (parse_uint u64_max digits);
  if (value * factor <=? u64_max)%Z then Ok (value * factor)%Z
  else Err (InvalidConfig (name ^+ " value " ^+ raw ^+ " is too large")).

Definition parse_u32_value (name raw : string) : Result SandboxError Z :=
  let digits := drop_char "_" (trim raw) in
  ok_or (InvalidConfig ("invalid " ^+ name ^+ " value " ^+ raw ^+ ": " ^+ uint_error u32_max digits)) (parse_uint u32_max digits).

Definition parse_bool_value (name raw : string) : Result SandboxError bool :=
  switch (to_ascii_lowercase (trim raw))
    [(["1"; "true"; "yes"; "on"; "enabled"], Ok true); (["0"; "false"; "no"; "off"; "disabled"], Ok false)]
    (Err (InvalidConfig ("invalid " ^+ name ^+ " value " ^+ raw ^+ "; expected true|false"))).

Section parse.
(** [uuid_error] is the [Display] of the error of [Uuid::parse_str]. *)
Context `{Platform} (uuid_error : string → string).

Definition parse_uuid (value : string) : Result SandboxError Uuid :=
  ok_or (InvalidConfig ("invalid BOX UUID " ^+ value ^+ ": " ^+ uuid_error value)) (uuid_parse value).

(** ** [args/parse_box.rs] *)

(** [parse_box_start], [parse_box_stop] and [parse_box_remove]. *)
Definition parse_one_box (topic : HelpTopic) (command : Uuid → BoxCommand) (args : list string) : Result SandboxError Command :=
  if help_only args then Ok (CmdHelp topic)
  else raw ← single_arg args (render_usage_hint topic); b ← parse_uuid raw; Ok (CmdBox (command b)).
Definition parse_box_start : list string → Result SandboxError Command := parse_one_box HtBoxStart BxStart.
Definition parse_box_stop : list string → Result SandboxError Command := parse_one_box HtBoxStop BxStop.
Definition parse_box_remove : list string → Result SandboxError Command := parse_one_box HtBoxRemove BxRemove.

Definition parse_box_setting (setting value : string) : Result SandboxError BoxSettingValue :=
  let name := to_ascii_lowercase (trim setting) in
  switch name
    [(["cpu"; "cpu_cores"], v ← parse_u32_value "cpu_cores" value; Ok (SetCpuCores v));
     (["memory"; "ram"; "memory_mb"; "ram_mb"],
        v ← parse_mib_value "memory_mb" value;
        if (v <=? u32_max)%Z then Ok (SetMemoryMb v)
        else Err (InvalidConfig "memory_mb is too large to fit into a 32-bit value"));
     (["fs"; "disk"; "fs_size"; "fs_size_mib"; "workspace_mib"; "disk_mib"],
        v ← parse_mib_value "fs_size_mib" value; Ok (SetFsSizeMib v));
     (["proc"; "process_count"; "max_processes"], v ← parse_u32_value "max_processes" value; Ok (SetMaxProcesses v));
     (["network"; "net"; "network_enabled"], v ← parse_bool_value "network_enabled" value; Ok (SetNetworkEnabled v))]
    (Err (InvalidConfig ("unsupported BOX setting " ^+ name ^+
       "; expected cpu_cores|memory_mb|fs_size_mib|max_processes|network_enabled"))).

Definition parse_box_set (args : list string) : Result SandboxError Command :=
  if decide (args = []) then Ok (CmdHelp HtBoxSet)
  else if help_only args then Ok (CmdHelp HtBoxSet)
  else
    '(box_id, setting, value) ← match args with
    | [setting; value] => Ok (None, setting, value)
    | [raw; setting; value] => b ← parse_uuid raw; Ok (Some b, setting, value)
    | _ => usage_error HtBoxSet
    end;
    v ← parse_box_setting setting value;
    Ok (CmdBox (BxSet (mkBoxSet box_id v))).

Definition is_interactive_flag (a : string) : bool := String.eqb a "-i" || String.eqb a "--interactive".
Definition is_trailing_interactive_flag (args : list string) : bool :=
  match args with [a] => is_interactive_flag a | _ => false end.
Definition should_open_interactive (args : list string) (leading_interactive : bool) : bool :=
  leading_interactive || bool_decide (args = []) || is_trailing_interactive_flag args.

Definition exec_target (value : string) (args : list string) (leading : bool) : Result SandboxError ExecTarget :=
  let interactive := should_open_interactive args leading in
  if String.eqb value "bash" && interactive then Ok (EtInteractive TBash)
  else if String.eqb value "python" && interactive then Ok (EtInteractive TPython)
  else if String.eqb value "bash" then Ok (EtBash (join_args args))
  else if String.eqb value "python" then Ok (EtPython args)
  else Err (InvalidConfig ("unsupported exec target " ^+ value ^+ "; expected bash or python")).

Definition parse_box_exec (args : list string) : Result SandboxError Command :=
  if decide (args = []) then Ok (CmdHelp HtBoxExec)
  else if help_only args then Ok (CmdHelp HtBoxExec)
  else
    let '(leading, args1) :=
      match args with a :: rest => if is_interactive_flag a then (true, rest) else (false, args) | [] => (false, []) end in
    '(raw, args2) ← single_arg_from args1 (render_usage_hint HtBoxExec);
    b ← parse_uuid raw;
    '(value, args3) ← single_arg_from args2 "box exec expects `bash` or `python` after <BOX_ID>";
    target ← exec_target value args3 leading;
    Ok (CmdBox (BxExec (mkExecCommand b target))).

(** [--meta KEY=VALUE] *)
Definition parse_metadata (raw : string) : Result SandboxError (string * string) :=
  ok_or (InvalidConfig ("invalid checkpoint metadata " ^+ raw ^+ "; expected KEY=VALUE")) (split_once "=" raw).

(** The loops over the flags of [parse_box_checkpoint]. *)
Fixpoint create_flags (args : list string) (name : option string) (metadata : gmap string string) :
    Result SandboxError (option string * gmap string string) :=
  let usage {A} : Result SandboxError A := usage_error HtBoxCheckpointCreate in
  match args with
  | [] => Ok (name, metadata)
  | flag :: rest =>
      if String.eqb flag "--name" then
        match rest with value :: rest' => create_flags rest' (Some value) metadata | [] => usage end
      else if String.eqb flag "--meta" then
        match rest with
        | raw :: rest' => '(key, value) ← parse_metadata raw; create_flags rest' name (<[key := value]> metadata)
        | [] => usage
        end
      else Err (InvalidConfig ("unknown checkpoint create flag " ^+ flag))
  end.

Definition parse_mode (value : string) : Result SandboxError CheckpointRestoreMode :=
  switch value [(["rollback"], Ok Rollback); (["replace"], Ok Replace)]
    (Err (InvalidConfig ("unsupported checkpoint restore mode " ^+ value))).

Fixpoint restore_flags (args : list string) (mode : CheckpointRestoreMode) : Result SandboxError CheckpointRestoreMode :=
  match args with
  | [] => Ok mode
  | flag :: rest =>
      if String.eqb flag "--mode" then
        match rest with
        | value :: rest' => mode' ← parse_mode value; restore_flags rest' mode'
        | [] => usage_error HtBoxCheckpointRestore
        end
      else Err (InvalidConfig ("unknown checkpoint restore flag " ^+ flag))
  end.

Fixpoint fork_flags (args : list string) (name : option string) : Result SandboxError (option string) :=
  match args with
  | [] => Ok name
  | flag :: rest =>
      if String.eqb flag "--name" then
        match rest with value :: rest' => fork_flags rest' (Some value) | [] => usage_error HtBoxCheckpointFork end
      else Err (InvalidConfig ("unknown checkpoint fork flag " ^+ flag))
  end.

Definition checkpoint_topic (subcommand : string) : HelpTopic :=
  switch subcommand
    [(["create"], HtBoxCheckpointCreate); (["list"], HtBoxCheckpointList); (["restore"], HtBoxCheckpointRestore);
     (["fork"], HtBoxCheckpointFork); (["delete"], HtBoxCheckpointDelete)] HtBoxCheckpoint.

Definition checkpoint_command (subcommand : string) (b : Uuid) (args : list string) : Result SandboxError CheckpointCommand :=
  let unsupported := Err (InvalidConfig
    ("unsupported checkpoint command " ^+ subcommand ^+ "; expected create|list|restore|fork|delete")) in
  switch subcommand
    [(["create"], '(name, metadata) ← create_flags args None ∅; Ok (CkCreate b name metadata));
     (["list"], if decide (args = []) then Ok (CkList b) else unsupported);
     (["restore"],
        '(id, rest) ← single_arg_from args (render_usage_hint HtBoxCheckpointRestore);
        mode ← restore_flags rest Rollback; Ok (CkRestore b id mode));
     (["fork"],
        '(id, rest) ← single_arg_from args (render_usage_hint HtBoxCheckpointFork);
        name ← fork_flags rest None; Ok (CkFork b id name));
     (["delete"], '(id, _) ← single_arg_from args (render_usage_hint HtBoxCheckpointDelete); Ok (CkDelete b id))]
    unsupported.

Definition parse_box_checkpoint (args : list string) : Result SandboxError Command :=
  if decide (args = []) then Ok (CmdHelp HtBoxCheckpoint)
  else if help_only args then Ok (CmdHelp HtBoxCheckpoint)
  else
    '(subcommand, args1) ← single_arg_from args (render_usage_hint HtBoxCheckpoint);
    if help_only args1 then Ok (CmdHelp (checkpoint_topic subcommand))
    else
      '(raw, args2) ← single_arg_from args1 (render_usage_hint HtBoxCheckpoint);
      b ← parse_uuid raw;
      command ← checkpoint_command subcommand b args2;
      Ok (CmdBox (BxCheckpoint command)).

(** ** [args/parse.rs] *)

Definition parse_leaf (args : list string) (topic : HelpTopic) (command : Command) : Result SandboxError Command :=
  if decide (args = []) then Ok command
  else if help_only args then Ok (CmdHelp topic)
  else usage_error topic.

(** The loop of [parse_daemon_log]; a help flag among the others ends it. *)
Fixpoint log_flags (args : list string) (tail : option Z) (follow : bool) : Result SandboxError Command :=
  match args with
  | [] => Ok (CmdDaemon (DmLog (mkDaemonLog tail follow)))
  | arg :: rest =>
      if String.eqb arg "--follow" || String.eqb arg "-f" then log_flags rest tail true
      else if String.eqb arg "--tail" then
        match rest with
        | value :: rest' => n ← parse_tail_lines value; log_flags rest' (Some n) follow
        | [] => usage_error HtDaemonLog
        end
      else match strip_prefix "--tail=" arg with
           | Some value => n ← parse_tail_lines value; log_flags rest (Some n) follow
           | None => if is_help_flag arg then Ok (CmdHelp HtDaemonLog) else usage_error HtDaemonLog
           end
  end.

Definition parse_daemon_log (args : list string) : Result SandboxError Command :=
  if decide (args = []) then Ok (CmdDaemon (DmLog (mkDaemonLog None false)))
  else if help_only args then Ok (CmdHelp HtDaemonLog)
  else log_flags args None false.

Definition unknown {A} (what other : string) (hint : string) : Result SandboxError A :=
  Err (InvalidConfig ("unknown " ^+ what ^+ " " ^+ other ^+ blank_line ^+ hint)).

Definition parse_daemon (args : list string) : Result SandboxError Command :=
  match args with
  | [] => Ok (CmdDaemon DmRun)
  | sub :: rest =>
      if help_only args then Ok (CmdHelp HtDaemon)
      else switch sub [(["log"], parse_daemon_log rest)] (unknown "daemon command" sub (render_usage_hint HtDaemon))
  end.

Definition parse_admin (args : list string) : Result SandboxError Command :=
  match args with
  | [] => Ok (CmdHelp HtAdmin)
  | sub :: rest =>
      let other := unknown "admin command" sub (render_usage_hint HtAdmin) in
      if help_only args then Ok (CmdHelp HtAdmin)
      else switch sub
        [(["add"], ensure_no_extra_args rest HtAdminAdd ≫= λ _, Ok (CmdAdmin AdmAdd));
         (["remove"], if decide (rest = ["me"]) then Ok (CmdAdmin AdmRemoveMe)
                      else if help_only rest then Ok (CmdHelp HtAdminRemoveMe) else other)] other
  end.

(** The loop of [parse_image_build]; [command] is what was read so far. *)
Fixpoint build_flags (args : list string) (command : ImageBuildCommand) : Result SandboxError Command :=
  let '(mkImageBuild name apk pip npm mib force) := command in
  match args with
  | [] => Ok (CmdImage (ImBuild command))
  | flag :: rest =>
      if String.eqb flag "--apk" then
        match rest with v :: rest' => build_flags rest' (mkImageBuild name (apk ++ [v]) pip npm mib force) | [] => usage_error HtImageBuild end
      else if String.eqb flag "--pip" then
        match rest with v :: rest' => build_flags rest' (mkImageBuild name apk (pip ++ [v]) npm mib force) | [] => usage_error HtImageBuild end
      else if String.eqb flag "--npm" then
        match rest with v :: rest' => build_flags rest' (mkImageBuild name apk pip (npm ++ [v]) mib force) | [] => usage_error HtImageBuild end
      else if String.eqb flag "--min-image-mib" then
        match rest with
        | v :: rest' => n ← parse_mib_value "min_image_mib" v; build_flags rest' (mkImageBuild name apk pip npm n force)
        | [] => usage_error HtImageBuild
        end
      else if String.eqb flag "--force-refresh" then build_flags rest (mkImageBuild name apk pip npm mib true)
      else Err (InvalidConfig ("unknown image build flag " ^+ flag))
  end.

Definition parse_image_build (args : list string) : Result SandboxError Command :=
  match args with
  | [] => Ok (CmdHelp HtImageBuild)
  | name :: rest =>
      if help_only args then Ok (CmdHelp HtImageBuild) else build_flags rest (mkImageBuild name [] [] [] 512 false)
  end.

Definition parse_image (args : list string) : Result SandboxError Command :=
  match args with
  | [] => Ok (CmdHelp HtImage)
  | sub :: rest =>
      if help_only args then Ok (CmdHelp HtImage)
      else switch sub
        [(["build"], parse_image_build rest);
         (["list"], ensure_no_extra_args rest HtImageList ≫= λ _, Ok (CmdImage ImList));
         (["inspect"], if help_only rest then Ok (CmdHelp HtImageInspect)
                       else name ← single_arg rest (render_usage_hint HtImageInspect); Ok (CmdImage (ImInspect name)));
         (["rm"], if help_only rest then Ok (CmdHelp HtImageRemove)
                  else name ← single_arg rest (render_usage_hint HtImageRemove); Ok (CmdImage (ImRemove name)))]
        (unknown "image command" sub (render_usage_hint HtImage))
  end.

Fixpoint new_flags (args : list string) (image : option string) : Result SandboxError Command :=
  match args with
  | [] => Ok (CmdBox (BxNew (mkBoxNew image)))
  | flag :: rest =>
      if String.eqb flag "--image" then
        match rest with v :: rest' => new_flags rest' (Some v) | [] => usage_error HtBoxNew end
      else Err (InvalidConfig ("unknown box new flag " ^+ flag))
  end.
Definition parse_box_new (args : list string) : Result SandboxError Command :=
  if help_only args then Ok (CmdHelp HtBoxNew) else new_flags args None.

Definition parse_box_fs (args : list string) : Result SandboxError Command :=
  if decide (args = []) then Ok (CmdHelp HtBoxFs)
  else if help_only args then Ok (CmdHelp HtBoxFs)
  else
    '(raw, args1) ← single_arg_from args (render_usage_hint HtBoxFs);
    b ← parse_uuid raw;
    '(subcommand, args2) ← single_arg_from args1 (render_usage_hint HtBoxFs);
    let fs command : Result SandboxError Command := Ok (CmdBox (BxFs command)) in
    switch subcommand
      [(["ls"], if help_only args2 then Ok (CmdHelp HtBoxFsList) else fs (FsCList b (default "/workspace" (head args2))));
       (["upload"], if help_only args2 then Ok (CmdHelp HtBoxFsUpload)
                    else '(local, args3) ← single_arg_from args2 (render_usage_hint HtBoxFsUpload);
                         '(remote, _) ← single_arg_from args3 (render_usage_hint HtBoxFsUpload);
                         fs (FsCUpload b local remote));
       (["download"], if help_only args2 then Ok (CmdHelp HtBoxFsDownload)
                      else '(remote, args3) ← single_arg_from args2 (render_usage_hint HtBoxFsDownload);
                           '(local, _) ← single_arg_from args3 (render_usage_hint HtBoxFsDownload);
                           fs (FsCDownload b remote local))]
      (Err (InvalidConfig ("unsupported fs command " ^+ subcommand ^+ "; expected ls|upload|download"))).

Definition parse_box (args : list string) : Result SandboxError Command :=
  match args with
  | [] => Ok (CmdHelp HtBox)
  | sub :: rest =>
      if help_only args then Ok (CmdHelp HtBox)
      else switch sub
        [(["list"; "ps"], ensure_no_extra_args rest HtBoxList ≫= λ _, Ok (CmdBox BxList));
         (["new"], parse_box_new rest);
         (["start"], parse_box_start rest);
         (["stop"], parse_box_stop rest);
         (["rm"], parse_box_remove rest);
         (["set"], parse_box_set rest);
         (["exec"], parse_box_exec rest);
         (["fs"], parse_box_fs rest);
         (["checkpoint"], parse_box_checkpoint rest)]
        (unknown "box command" sub (render_usage_hint HtBox))
  end.

Definition parse (args : list string) : Result SandboxError Command :=
  match args with
  | [] => Ok (CmdHelp HtRoot)
  | command :: rest =>
      switch command
        [(["help"; "-h"; "--help"], topic ← parse_help_topic rest; Ok (CmdHelp topic));
         (["start"], parse_leaf rest HtStart CmdStart);
         (["quit"], parse_leaf rest HtQuit CmdQuit);
         (["update"], parse_leaf rest HtUpdate CmdUpdate);
         (["daemon"], parse_daemon rest);
         (["admin"], parse_admin rest);
         (["image"], parse_image rest);
         (["box"], parse_box rest)]
        (unknown "command" command short_usage)
  end.
End parse.

(** ** Texts of numbers *)

Lemma drop_char_none c s : all_chars (λ a, negb (Ascii.eqb a c)) s = true → drop_char c s = s.
Proof.
  induction s as [|a s IH]; simpl; [done|]. intros [Ha Hs]%andb_true_iff. apply negb_true_iff in Ha as ->. by rewrite IH.
Qed.

Lemma lowercase_id s : all_chars (λ a, Ascii.eqb (ascii_lower a) a) s = true → to_ascii_lowercase s = s.
Proof.
  unfold to_ascii_lowercase. induction s as [|a s IH]; simpl; [done|]. intros [Ha%Ascii.eqb_eq Hs]%andb_true_iff.
  by rewrite Ha, IH.
Qed.

(** What is stripped from a text of digits. *)
Lemma digits_plain s :
  all_chars is_ascii_digit s = true → trim s = s ∧ drop_char "_" s = s ∧ to_ascii_lowercase s = s ∧ split_unit s = (s, 1%Z).
Proof.
  intros Hd. split_and!.
  - apply trim_graphic. by eapply all_chars_impl, Hd; apply graphic_digit.
  - apply drop_char_none. eapply all_chars_impl, Hd. intros a. by destruct a as [[][][][][][][][]].
  - apply lowercase_id. eapply all_chars_impl, Hd. intros a. by destruct a as [[][][][][][][][]].
  - unfold split_unit, mib_units, strip_suffix. rewrite <-all_chars_rev in Hd. destruct (string_rev s) as [|a r]; [done|].
    simpl in Hd. apply andb_true_iff in Hd as [Ha _]. by destruct a as [[][][][][][][][]].
Qed.

Lemma parse_mib_pretty name z : (0 ≤ z ≤ u64_max)%Z → parse_mib_value name (pretty z) = Ok z.
Proof.
  intros Hz. destruct (digits_plain (pretty z)) as (Ht & Hu & Hl & Hs); [apply pretty_digits; lia|].
  unfold parse_mib_value. rewrite Ht, Hu, Hl, Hs, parse_uint_pretty by done. simpl. rewrite Z.mul_1_r.
  by destruct (Z.leb_spec z u64_max); [|lia].
Qed.
Lemma parse_u32_pretty name z : (0 ≤ z ≤ u32_max)%Z → parse_u32_value name (pretty z) = Ok z.
Proof.
  intros Hz. destruct (digits_plain (pretty z)) as (Ht & Hu & _ & _); [apply pretty_digits; lia|].
  unfold parse_u32_value. by rewrite Ht, Hu, parse_uint_pretty.
Qed.
Lemma parse_tail_pretty z : (1 ≤ z ≤ usize_max)%Z → parse_tail_lines (pretty z) = Ok z.
Proof.
  intros Hz. unfold parse_tail_lines. rewrite parse_uint_pretty by lia. simpl. by destruct (Z.eqb_spec z 0); [lia|].
Qed.

(** ** A command line for every command *)

#[local] Arguments parse_tail_lines : simpl never.
#[local] Arguments parse_mib_value : simpl never.
#[local] Arguments parse_u32_value : simpl never.
#[local] Arguments parse_uuid : simpl never.
#[local] Arguments parse_box_setting : simpl never.
#[local] Arguments is_help_flag : simpl never.
#[local] Arguments is_interactive_flag : simpl never.
#[local] Arguments pretty : simpl never.

Section roundtrip.
Context `{!Platform, !PlatformLaws} (uuid_error : string → string).

Definition topic_words (topic : HelpTopic) : list string :=
  match topic with
  | HtRoot => [] | HtStart => ["start"] | HtQuit => ["quit"] | HtUpdate => ["update"] | HtDaemon => ["daemon"]
  | HtDaemonLog => ["daemon"; "log"] | HtAdmin => ["admin"] | HtAdminAdd => ["admin"; "add"]
  | HtAdminRemoveMe => ["admin"; "remove"; "me"] | HtImage => ["image"] | HtImageBuild => ["image"; "build"]
  | HtImageList => ["image"; "list"] | HtImageInspect => ["image"; "inspect"] | HtImageRemove => ["image"; "rm"]
  | HtBox => ["box"] | HtBoxList => ["box"; "list"] | HtBoxNew => ["box"; "new"] | HtBoxStart => ["box"; "start"]
  | HtBoxStop => ["box"; "stop"] | HtBoxRemove => ["box"; "rm"] | HtBoxSet => ["box"; "set"] | HtBoxExec => ["box"; "exec"]
  | HtBoxFs => ["box"; "fs"] | HtBoxFsList => ["box"; "fs"; "ls"] | HtBoxFsUpload => ["box"; "fs"; "upload"]
  | HtBoxFsDownload => ["box"; "fs"; "download"] | HtBoxCheckpoint => ["box"; "checkpoint"]
  | HtBoxCheckpointCreate => ["box"; "checkpoint"; "create"] | HtBoxCheckpointList => ["box"; "checkpoint"; "list"]
  | HtBoxCheckpointRestore => ["box"; "checkpoint"; "restore"] | HtBoxCheckpointFork => ["box"; "checkpoint"; "fork"]
  | HtBoxCheckpointDelete => ["box"; "checkpoint"; "delete"]
  end.

Definition flag (name : string) (value : option string) : list string :=
  match value with Some v => [name; v] | None => [] end.
Definition flags (name : string) (values : list string) : list string := values ≫= λ v, [name; v].

Definition setting_words (v : BoxSettingValue) : list string :=
  match v with
  | SetCpuCores n => ["cpu_cores"; pretty n]
  | SetMemoryMb n => ["memory_mb"; pretty n]
  | SetFsSizeMib n => ["fs_size_mib"; pretty n]
  | SetMaxProcesses n => ["max_processes"; pretty n]
  | SetNetworkEnabled b => ["network_enabled"; if b : bool then "true" else "false"]
  end.

Definition metadata_words (metadata : gmap string string) : list string :=
  map_to_list metadata ≫= λ '(key, value), ["--meta"; key ^+ "=" ^+ value].

Definition exec_words (t : ExecTarget) : list string :=
  match t with
  | EtBash command => ["bash"; command]
  | EtPython args => "python" :: args
  | EtInteractive TBash => ["bash"]
  | EtInteractive TPython => ["python"]
  end.

Definition render (command : Command) : list string :=
  let id := uuid_to_string in
  match command with
  | CmdHelp topic => "help" :: topic_words topic
  | CmdStart => ["start"]
  | CmdQuit => ["quit"]
  | CmdUpdate => ["update"]
  | CmdDaemon DmRun => ["daemon"]
  | CmdDaemon (DmLog l) => ["daemon"; "log"] ++ flag "--tail" (pretty <$> dl_tail l) ++ (if dl_follow l then ["--follow"] else [])
  | CmdAdmin AdmAdd => ["admin"; "add"]
  | CmdAdmin AdmRemoveMe => ["admin"; "remove"; "me"]
  | CmdImage (ImBuild c) =>
      ["image"; "build"; bi_name c; "--min-image-mib"; pretty (bi_min_image_mib c)] ++ flags "--apk" (bi_apk c) ++
      flags "--pip" (bi_pip c) ++ flags "--npm" (bi_npm c) ++ (if bi_force_refresh c then ["--force-refresh"] else [])
  | CmdImage ImList => ["image"; "list"]
  | CmdImage (ImInspect name) => ["image"; "inspect"; name]
  | CmdImage (ImRemove name) => ["image"; "rm"; name]
  | CmdBox BxList => ["box"; "list"]
  | CmdBox (BxNew c) => ["box"; "new"] ++ flag "--image" (bn_image c)
  | CmdBox (BxStart b) => ["box"; "start"; id b]
  | CmdBox (BxStop b) => ["box"; "stop"; id b]
  | CmdBox (BxRemove b) => ["box"; "rm"; id b]
  | CmdBox (BxSet c) => ["box"; "set"] ++ (match bset_box_id c with Some b => [id b] | None => [] end) ++ setting_words (bset_value c)
  | CmdBox (BxExec c) => ["box"; "exec"; id (ec_box_id c)] ++ exec_words (ec_target c)
  | CmdBox (BxFs (FsCList b path)) => ["box"; "fs"; id b; "ls"; path]
  | CmdBox (BxFs (FsCUpload b local remote)) => ["box"; "fs"; id b; "upload"; local; remote]
  | CmdBox (BxFs (FsCDownload b remote local)) => ["box"; "fs"; id b; "download"; remote; local]
  | CmdBox (BxCheckpoint (CkCreate b name metadata)) =>
      ["box"; "checkpoint"; "create"; id b] ++ flag "--name" name ++ metadata_words metadata
  | CmdBox (BxCheckpoint (CkList b)) => ["box"; "checkpoint"; "list"; id b]
  | CmdBox (BxCheckpoint (CkRestore b k mode)) =>
      ["box"; "checkpoint"; "restore"; id b; k; "--mode"; match mode with Rollback => "rollback" | Replace => "replace" end]
  | CmdBox (BxCheckpoint (CkFork b k name)) => ["box"; "checkpoint"; "fork"; id b; k] ++ flag "--name" name
  | CmdBox (BxCheckpoint (CkDelete b k)) => ["box"; "checkpoint"; "delete"; id b; k]
  end.

(** Numbers of their machine types. *)
Definition setting_wf (v : BoxSettingValue) : Prop :=
  match v with
  | SetCpuCores n | SetMemoryMb n | SetMaxProcesses n => is_u32 n
  | SetFsSizeMib n => is_u64 n
  | SetNetworkEnabled _ => True
  end.

Definition command_wf (command : Command) : Prop :=
  match command with
  | CmdDaemon (DmLog l) => match dl_tail l with Some n => (1 ≤ n ≤ usize_max)%Z | None => True end
  | CmdImage (ImBuild c) => is_u64 (bi_min_image_mib c)
  | CmdBox (BxSet c) => setting_wf (bset_value c)
  | _ => True
  end.

(** What cannot be written: a name that reads as the help flag, a script that
    reads as the flag for a terminal, a metadata key with an equals sign. *)
Definition expressible (command : Command) : Prop :=
  match command with
  | CmdImage (ImInspect name) | CmdImage (ImRemove name) => is_help_flag name = false
  | CmdBox (BxExec (mkExecCommand _ (EtBash command))) => is_interactive_flag command = false
  | CmdBox (BxExec (mkExecCommand _ (EtPython args))) => args ≠ [] ∧ is_trailing_interactive_flag args = false
  | CmdBox (BxFs (FsCList _ path)) => is_help_flag path = false
  | CmdBox (BxCheckpoint (CkCreate _ _ metadata)) =>
      map_Forall (λ key _, all_chars (λ a, negb (Ascii.eqb a "=")) key = true) metadata
  | _ => True
  end.

Lemma uuid_not_flag b s : all_chars uuid_char s = false → String.eqb (uuid_to_string b) s = false.
Proof.
  intros Hs. apply String.eqb_neq. intros E. pose proof (uuid_to_string_hex b) as Hh. rewrite E in Hh. congruence.
Qed.
Lemma uuid_no_help b : is_help_flag (uuid_to_string b) = false.
Proof. unfold is_help_flag. by rewrite !uuid_not_flag. Qed.
Lemma uuid_no_interactive b : is_interactive_flag (uuid_to_string b) = false.
Proof. unfold is_interactive_flag. by rewrite !uuid_not_flag. Qed.
Lemma parse_uuid_print b : parse_uuid uuid_error (uuid_to_string b) = Ok b.
Proof. unfold parse_uuid. by rewrite uuid_parse_to_string. Qed.

(** A flag that may be repeated adds its values in order. *)
Ltac repeated_flag name c l :=
  revert c; induction l as [|v l IH]; intros [n a p m z f]; simpl; [by rewrite app_nil_r|];
  fold (flags name l); by rewrite IH; simpl; rewrite <-app_assoc.

Lemma build_flags_apk l c rest :
  build_flags (flags "--apk" l ++ rest) c =
  build_flags rest (mkImageBuild (bi_name c) (bi_apk c ++ l) (bi_pip c) (bi_npm c) (bi_min_image_mib c) (bi_force_refresh c)).
Proof. repeated_flag "--apk" c l. Qed.
Lemma build_flags_pip l c rest :
  build_flags (flags "--pip" l ++ rest) c =
  build_flags rest (mkImageBuild (bi_name c) (bi_apk c) (bi_pip c ++ l) (bi_npm c) (bi_min_image_mib c) (bi_force_refresh c)).
Proof. repeated_flag "--pip" c l. Qed.
Lemma build_flags_npm l c rest :
  build_flags (flags "--npm" l ++ rest) c =
  build_flags rest (mkImageBuild (bi_name c) (bi_apk c) (bi_pip c) (bi_npm c ++ l) (bi_min_image_mib c) (bi_force_refresh c)).
Proof. repeated_flag "--npm" c l. Qed.

Lemma create_flags_metadata l name metadata :
  Forall (λ kv, all_chars (λ a, negb (Ascii.eqb a "=")) kv.1 = true) l →
  create_flags (l ≫= λ '(key, value), ["--meta"; key ^+ "=" ^+ value]) name metadata =
  Ok (name, foldl (λ m kv, <[kv.1 := kv.2]> m) metadata l).
Proof.
  revert metadata. induction l as [|[k v] l IH]; intros metadata Hall; [done|].
  apply Forall_cons in Hall as [Hk Hall]. simpl. unfold parse_metadata.
  change (k ^+ "=" ^+ v) with (k ^+ String "=" v). rewrite split_once_app by done. simpl. by apply IH.
Qed.

Lemma foldl_insert_map (m : gmap string string) : foldl (λ m kv, <[kv.1 := kv.2]> m) ∅ (map_to_list m) = m.
Proof.
  assert (Hgen : ∀ (l : list (string * string)) (acc : gmap string string), NoDup l.*1 →
    foldl (λ m kv, <[kv.1 := kv.2]> m) acc l = list_to_map l ∪ acc).
  { induction l as [|[k v] l IH]; intros acc Hnd; simpl; [by rewrite (left_id_L ∅ (∪))|].
    simpl in Hnd. apply NoDup_cons in Hnd as [Hk Hnd]. rewrite IH by done.
    rewrite <-insert_union_l, insert_union_r; [done|]. by apply not_elem_of_list_to_map_1. }
  rewrite Hgen by apply NoDup_fst_map_to_list. by rewrite list_to_map_to_list, (right_id_L ∅ (∪)).
Qed.

Lemma setting_name_plain :
  Forall (λ name, to_ascii_lowercase (trim name) = name)
    ["cpu_cores"; "memory_mb"; "fs_size_mib"; "max_processes"; "network_enabled"].
Proof. repeat constructor. Qed.

Lemma parse_setting_words v :
  setting_wf v → ∃ name value, setting_words v = [name; value] ∧ parse_box_setting name value = Ok v.
Proof.
  pose proof setting_name_plain as Hn. rewrite !Forall_cons in Hn. destruct Hn as (E1 & E2 & E3 & E4 & E5 & _).
  unfold setting_wf, is_u32, is_u64. destruct v as [n|n|n|n|b]; intros Hv; eexists _, _; (split; [reflexivity|]);
    unfold parse_box_setting; rewrite ?E1, ?E2, ?E3, ?E4, ?E5; cbn [switch existsb String.eqb Ascii.eqb Bool.eqb orb].
  - by rewrite parse_u32_pretty.
  - rewrite parse_mib_pretty by (unfold u32_max, u64_max in *; lia). simpl. by destruct (Z.leb_spec n u32_max); [|lia].
  - by rewrite parse_mib_pretty.
  - by rewrite parse_u32_pretty.
  - by destruct b.
Qed.

Lemma checkpoint_line_roundtrip c :
  expressible (CmdBox (BxCheckpoint c)) → parse uuid_error (render (CmdBox (BxCheckpoint c))) = Ok (CmdBox (BxCheckpoint c)).
Proof.
  intros Hex. assert (Hh : ∀ b rest, help_only (uuid_to_string b :: rest) = false).
  { intros b [|x rest]; simpl; [apply uuid_no_help|done]. }
  destruct c as [b name md|b|b k mode|b k name|b k]; simpl in *; unfold parse_box_checkpoint; simpl; rewrite ?Hh; simpl;
    rewrite ?parse_uuid_print; simpl; try done.
  - unfold checkpoint_command. cbn [switch existsb String.eqb Ascii.eqb Bool.eqb orb].
    assert (Hm : ∀ n, create_flags (metadata_words md) n ∅ = Ok (n, md)).
    { intros n. unfold metadata_words. rewrite create_flags_metadata; [by rewrite foldl_insert_map|].
      apply Forall_forall. intros [k v] Hk%elem_of_map_to_list. by apply (Hex k v). }
    destruct name as [n|]; simpl; by rewrite Hm.
  - by rewrite uuid_no_help.
  - by destruct mode.
  - by destruct name.
Qed.

Lemma box_line_roundtrip c :
  command_wf (CmdBox c) → expressible (CmdBox c) → parse uuid_error (render (CmdBox c)) = Ok (CmdBox c).
Proof.
  intros Hwf Hex. destruct c as [|[[image|]]|b|b|b|[box v]|[b t]|f|k]; try done.
  - simpl. unfold parse_box_start, parse_one_box. simpl. by rewrite uuid_no_help, parse_uuid_print.
  - simpl. unfold parse_box_stop, parse_one_box. simpl. by rewrite uuid_no_help, parse_uuid_print.
  - simpl. unfold parse_box_remove, parse_one_box. simpl. by rewrite uuid_no_help, parse_uuid_print.
  - simpl in *. destruct (parse_setting_words v Hwf) as (name & value & Hw & Hp). rewrite Hw. unfold parse_box_set.
    destruct box as [b|]; simpl; rewrite ?parse_uuid_print; simpl; by rewrite Hp.
  - simpl in *. unfold parse_box_exec.
    destruct t as [command|args|[]]; simpl; rewrite uuid_no_interactive; simpl; rewrite parse_uuid_print; simpl; try done.
    + unfold exec_target, should_open_interactive. simpl. by rewrite Hex.
    + destruct Hex as [Hne Hf]. unfold exec_target, should_open_interactive. simpl.
      rewrite bool_decide_eq_false_2 by done. by rewrite Hf.
  - destruct f as [b path|b l r|b r l]; simpl in *; unfold parse_box_fs; simpl; rewrite parse_uuid_print; simpl; try done.
    by rewrite Hex.
  - by apply checkpoint_line_roundtrip.
Qed.

Lemma render_parses command :
  command_wf command → expressible command → parse uuid_error (render command) = Ok command.
Proof.
  intros Hwf Hex. destruct command as [topic| | | |[|[tail follow]]|[]|[[name apk pip npm mib force]| |name|name]|c]; try done.
  - by destruct topic.
  - destruct tail as [n|]; [|by destruct follow]. simpl in *. unfold parse_daemon_log. simpl.
    rewrite parse_tail_pretty by done. by destruct follow.
  - simpl in *. unfold parse_image_build. simpl. rewrite parse_mib_pretty by done. simpl.
    rewrite build_flags_apk, build_flags_pip, build_flags_npm. by destruct force.
  - simpl in *. by rewrite Hex.
  - simpl in *. by rewrite Hex.
  - by apply box_line_roundtrip.
Qed.

(** No rendered line is an internal command. *)
Lemma render_head command :
  match render command with first :: _ => first ≠ "__libkrun-runner" ∧ first ≠ "__security-harness" | [] => False end.
Proof. destruct command as [| | | |[]|[]|[]|[| | | | | | |[]|[]]]; done. Qed.

End roundtrip.

(** ** What a command line can give *)

Definition yields {A} (P : A → Prop) (r : Result SandboxError A) : Prop := match r with Ok a => P a | Err _ => True end.

Lemma yields_bind {A B} (Q : A → Prop) (P : B → Prop) (r : Result SandboxError A) (f : A → Result SandboxError B) :
  yields Q r → (∀ a, Q a → yields P (f a)) → yields P (r ≫= f).
Proof. destruct r as [a|e]; simpl; auto. Qed.

Lemma yields_any {A B} (P : B → Prop) (r : Result SandboxError A) (f : A → Result SandboxError B) :
  (∀ a, yields P (f a)) → yields P (r ≫= f).
Proof. intros Hf. by apply (yields_bind (λ _, True)); [destruct r|auto]. Qed.

Lemma yields_switch {A} (P : A → Prop) s arms other :
  Forall (λ arm, yields P arm.2) arms → yields P other → yields P (switch s arms other).
Proof.
  induction 1 as [|[names a] arms Ha Harms IH]; intros Hother; simpl; [done|]. destruct (existsb (String.eqb s) names); auto.
Qed.

Lemma yields_if {A} (P : A → Prop) (b : bool) r1 r2 : yields P r1 → yields P r2 → yields P (if b then r1 else r2).
Proof. by destruct b. Qed.
Lemma yields_decide {A} (P : A → Prop) Q `{Decision Q} r1 r2 : yields P r1 → yields P r2 → yields P (if decide Q then r1 else r2).
Proof. by case_decide. Qed.

Lemma yields_mib name raw : yields is_u64 (parse_mib_value name raw).
Proof.
  unfold parse_mib_value. destruct (split_unit _) as [digits factor] eqn:E.
  assert (0 ≤ factor)%Z as Hf.
  { unfold split_unit in E. destruct (head _) as [[d f]|] eqn:Eh; [|by simplify_eq].
    apply head_Some_elem_of, list_elem_of_omap in Eh as ([u g] & Hin & (x & _ & [= -> ->])%fmap_Some). simplify_eq.
    unfold mib_units in Hin. repeat (apply elem_of_cons in Hin as [[= -> ->]|Hin]; [lia|]). by apply elem_of_nil in Hin. }
  apply (yields_bind (λ v, (0 ≤ v)%Z)).
  - unfold ok_or. destruct (parse_uint u64_max digits) as [v|] eqn:Ev; simpl; [|done].
    apply parse_uint_bounds in Ev; unfold u64_max in *; lia.
  - intros v Hv. destruct (Z.leb_spec (v * factor) u64_max); simpl; [|done]. unfold is_u64. nia.
Qed.
Lemma yields_u32 name raw : yields is_u32 (parse_u32_value name raw).
Proof.
  unfold parse_u32_value, ok_or. destruct (parse_uint u32_max _) as [v|] eqn:Ev; simpl; [|done].
  apply parse_uint_bounds in Ev; unfold is_u32, u32_max in *; lia.
Qed.
Lemma yields_tail raw : yields (λ n, (1 ≤ n ≤ usize_max)%Z) (parse_tail_lines raw).
Proof.
  unfold parse_tail_lines, ok_or. destruct (parse_uint usize_max raw) as [v|] eqn:Ev; simpl; [|done].
  apply parse_uint_bounds in Ev; [|unfold usize_max; lia]. destruct (Z.eqb_spec v 0); simpl; [done|lia].
Qed.

Lemma yields_setting setting value : yields setting_wf (parse_box_setting setting value).
Proof.
  apply yields_switch; [|done]. repeat apply Forall_cons_2; [..|constructor]; simpl.
  - eapply yields_bind; [apply yields_u32|done].
  - eapply yields_bind; [apply yields_mib|]. intros v Hv. destruct (Z.leb_spec v u32_max); simpl; [|done].
    unfold is_u64, is_u32 in *. lia.
  - eapply yields_bind; [apply yields_mib|done].
  - eapply yields_bind; [apply yields_u32|done].
  - by apply yields_any.
Qed.

Definition tail_wf (tail : option Z) : Prop := match tail with Some n => (1 ≤ n ≤ usize_max)%Z | None => True end.

Lemma yields_log_flags n args tail follow : length args ≤ n → tail_wf tail → yields command_wf (log_flags args tail follow).
Proof.
  revert args tail follow. induction n as [|n IH]; intros [|arg rest] tail follow Hlen Ht; cbn [log_flags length] in *; try done; try lia.
  destruct (_ || _); [apply IH; [lia|done]|]. destruct (String.eqb arg "--tail").
  - destruct rest as [|value rest]; [done|]. simpl in Hlen. eapply yields_bind; [apply yields_tail|]. intros v Hv. apply IH; [lia|done].
  - destruct (strip_prefix "--tail=" arg); [|destruct (is_help_flag arg); exact I].
    eapply yields_bind; [apply yields_tail|]. intros v Hv. apply IH; [lia|done].
Qed.

Lemma yields_build_flags n args c : length args ≤ n → is_u64 (bi_min_image_mib c) → yields command_wf (build_flags args c).
Proof.
  revert args c. induction n as [|n IH]; intros [|arg rest] [name apk pip npm mib force] Hlen Hm; simpl in *; try done; try lia.
  destruct (String.eqb arg "--apk"); [destruct rest; simpl in *; [done|apply IH; [lia|done]]|].
  destruct (String.eqb arg "--pip"); [destruct rest; simpl in *; [done|apply IH; [lia|done]]|].
  destruct (String.eqb arg "--npm"); [destruct rest; simpl in *; [done|apply IH; [lia|done]]|].
  destruct (String.eqb arg "--min-image-mib").
  - destruct rest as [|v rest]; simpl in *; [done|]. eapply yields_bind; [apply yields_mib|]. intros z Hz. apply IH; [lia|done].
  - destruct (String.eqb arg "--force-refresh"); [|done]. apply IH; [lia|done].
Qed.

Lemma yields_new_flags n args image : length args ≤ n → yields command_wf (new_flags args image).
Proof.
  revert args image. induction n as [|n IH]; intros [|arg rest] image Hlen; simpl in *; try done; try lia.
  destruct (String.eqb arg "--image"); [|done]. destruct rest; simpl in *; [done|]. apply IH. lia.
Qed.

Section typed.
Context `{Platform} (uuid_error : string → string).

(** C36: a command line never gives a number its type does not hold: whatever the arguments, a parsed
    command has its sizes and counts within [u32], [u64] and [usize], multiplication by a unit
    included, and a tail of at least one line; everything else is an error. *)
Theorem parsed_command_typed args command : parse uuid_error args = Ok command → command_wf command.
Proof.
  intros Hp. enough (yields command_wf (parse uuid_error args)) as Hy by (by rewrite Hp in Hy). clear Hp command.
  destruct args as [|command rest]; [done|]. apply yields_switch; [|done].
  assert (Hleaf : ∀ args topic c, command_wf c → yields command_wf (parse_leaf args topic c)).
  { intros a topic c Hc. unfold parse_leaf. by apply yields_decide; [|apply yields_if]. }
  repeat apply Forall_cons_2; [..|constructor]; simpl; try (by apply Hleaf).
  - by apply yields_any.
  - unfold parse_daemon. destruct rest as [|sub rest]; [done|]. apply yields_if; [done|]. apply yields_switch; [|done].
    repeat constructor. simpl. unfold parse_daemon_log. apply yields_decide; [done|]. apply yields_if; [done|].
    by apply (yields_log_flags (length rest)).
  - unfold parse_admin. destruct rest as [|sub rest]; [done|]. apply yields_if; [done|]. apply yields_switch; [|done].
    repeat apply Forall_cons_2; [..|constructor]; simpl; [by apply yields_any|]. by apply yields_decide; [|apply yields_if].
  - unfold parse_image. destruct rest as [|sub rest]; [done|]. apply yields_if; [done|]. apply yields_switch; [|done].
    repeat apply Forall_cons_2; [..|constructor]; simpl.
    + unfold parse_image_build. destruct rest as [|name rest]; [done|]. apply yields_if; [done|].
      apply (yields_build_flags (length rest)); [done|]. by vm_compute.
    + by apply yields_any.
    + apply yields_if; [done|]. by apply yields_any.
    + apply yields_if; [done|]. by apply yields_any.
  - unfold parse_box. destruct rest as [|sub rest]; [done|]. apply yields_if; [done|]. apply yields_switch; [|done].
    assert (Hone : ∀ topic c, (∀ b, command_wf (CmdBox (c b))) → yields command_wf (parse_one_box uuid_error topic c rest)).
    { intros topic c Hc. unfold parse_one_box. apply yields_if; [done|]. apply yields_any. intros raw. by apply yields_any. }
    repeat apply Forall_cons_2; [..|constructor]; simpl; try (by apply Hone).
    + by apply yields_any.
    + unfold parse_box_new. apply yields_if; [done|]. apply yields_new_flags with (length rest). lia.
    + unfold parse_box_set. apply yields_decide; [done|]. apply yields_if; [done|]. apply yields_any. intros [[box setting] value].
      eapply yields_bind; [apply yields_setting|done].
    + unfold parse_box_exec. apply yields_decide; [done|]. apply yields_if; [done|].
      destruct (match rest with [] => _ | _ :: _ => _ end) as [leading args1]. 
      apply yields_any. intros [raw args2]. apply yields_any. intros b. apply yields_any. intros [value args3]. by apply yields_any.
    + unfold parse_box_fs. apply yields_decide; [done|]. apply yields_if; [done|]. apply yields_any. intros [raw args1].
      apply yields_any. intros b. apply yields_any. intros [fs args2]. apply yields_switch; [|done].
      repeat apply Forall_cons_2; [..|constructor]; simpl; (apply yields_if; [done|]); [done|..];
        apply yields_any; intros [x args3]; by apply yields_any; intros [].
    + unfold parse_box_checkpoint. apply yields_decide; [done|]. apply yields_if; [done|]. apply yields_any. intros [sub' args1].
      apply yields_if; [done|]. apply yields_any. intros [raw args2]. apply yields_any. intros b. by apply yields_any.
Qed.
End typed.

(** ** Help *)

(** The command lines on which a trailing help flag does not lead to the help of the command.
    With a BOX command that takes an identifier before its subcommand the flag
    is not the last word to be read. *)
Definition help_ignored : list (list string) :=
  [["admin"; "add"]; ["admin"; "remove"; "me"]; ["image"; "list"]; ["box"; "list"]; ["box"; "ps"]].
Definition help_after_id : list (list string) := [["box"; "fs"; "ls"]; ["box"; "fs"; "upload"]; ["box"; "fs"; "download"]].

(** asking for help never does anything else, with one exception: for every command of the help, the command
    line of its words followed by a help flag shows exactly its page.  The exceptions are the
    listings, which run, and [admin add --help], which adds an administrator. *)
Theorem help_flag_shows_help `{Platform} uuid_error words topic flag :
  (words, topic) ∈ help_topics → is_help_flag flag = true → words ∉ help_ignored → words ∉ help_after_id →
  parse uuid_error (words ++ [flag]) = Ok (CmdHelp topic) ∧
  parse uuid_error ["admin"; "add"; flag] = Ok (CmdAdmin AdmAdd).
Proof.
  intros Hin Hf Hi Ha. assert (flag = "-h" ∨ flag = "--help") as Hflag.
  { unfold is_help_flag in Hf. apply orb_true_iff in Hf as [->%String.eqb_eq| ->%String.eqb_eq]; auto. }
  split; [|by destruct Hflag as [->| ->]].
  unfold help_topics in Hin.
  repeat (apply elem_of_cons in Hin as [[= -> ->]|Hin];
    [first [by destruct Hflag as [->| ->] | exfalso; (apply Hi || apply Ha); unfold help_ignored, help_after_id; set_solver]|]).
  by apply elem_of_nil in Hin.
Qed.
