(* ===== verification/Update.v ===== *)
(** * Update: [src/sagens/update.rs] and [update/platform.rs], the self-update

    The release is looked up, the binary is downloaded, checked against the
    published digest, staged beside the executable, tried out and moved over it.
    The network, the parser of the release metadata and the run of the staged
    binary are an interface; every answer of the network and every failure of the
    file system is possible. *)

From S2P Require Import Prelude RustStd Text Paths FileSystem PrivateFs Config HostConfig.

Record ReleaseAsset := mkAsset { asset_name : string; browser_download_url : string }.
Record ReleaseMetadata := mkRelease { tag_name : string; release_assets : list ReleaseAsset }.

Inductive SelfUpdateAction := AlreadyCurrent | Updated.
Inductive TargetPlatform := LinuxX86_64 | LinuxAarch64 | MacosAarch64.

Record SelfUpdateOutcome := mkOutcome {
  out_release_tag : string;
  out_executable_path : path;
  out_platform : string;
  out_action : SelfUpdateAction;
}.

(** A response of the HTTP client: its status, and its body read as text or as bytes. *)
Record HttpResponse := mkResponse {
  http_status : Z;
  http_text : Result string string;
  http_bytes : Result string bytes;
}.

Class UpdateHost := {
  current_exe : Result IoError path;
  os_name : string;                               (** [std::env::consts::OS] *)
  process_id : Z;
  built_release_repo : option string;             (** [option_env!("SAGENS_RELEASE_REPO")] *)
  http_client_error : option string;              (** [ClientBuilder::build] *)
  http_send : nat → string → Result string HttpResponse;  (** by request *)
  status_text : Z → string;                       (** [Display for StatusCode] *)
  parse_release : string → Result string ReleaseMetadata;  (** [serde_json::from_str] *)
  run_help : path → M IoError World (bool * string);  (** success, and the exit status printed *)
  read_size : nat → Z;                          (** how much the [n]th read of a file gives *)
}.

(** The file system, and how many requests were sent. *)
Record UpdateState := mkUpdate { up_world : World; up_requests : nat }.

Definition up_disk {A} (m : M SandboxError World A) : M SandboxError UpdateState A :=
  zoom up_world (λ w s, mkUpdate w (up_requests s)) m.

(** ** Platforms: [update/platform.rs] *)

Definition platform_from_parts (os arch : string) : Result SandboxError TargetPlatform :=
  let on o a := String.eqb os o && String.eqb arch a in
  if on "linux" "x86_64" || on "linux" "amd64" then Ok LinuxX86_64
  else if on "linux" "aarch64" || on "linux" "arm64" then Ok LinuxAarch64
  else if on "macos" "x86_64" || on "darwin" "x86_64" then
    Err (InvalidConfig "self-update is not supported on macOS x86_64 because Intel Mac builds are no longer published")
  else if on "macos" "aarch64" || on "macos" "arm64" || on "darwin" "aarch64" || on "darwin" "arm64" then Ok MacosAarch64
  else Err (InvalidConfig ("self-update is not supported on platform " ^+ os ^+ "/" ^+ arch)).

Definition slug (p : TargetPlatform) : string :=
  match p with LinuxX86_64 => "linux-x86_64" | LinuxAarch64 => "linux-aarch64" | MacosAarch64 => "macos-aarch64" end.

(** ** Digests *)

(** [byte as char], a code point below 256 in UTF-8. *)
Definition byte_as_char (b : Byte.byte) : string :=
  let n := Byte.to_N b in
  if (n <? 128)%N then byte_string [n] else byte_string [192 + n / 64; 128 + n mod 64]%N.

Definition byte_value (b : Byte.byte) : Z := Z.of_N (Byte.to_N b).
Definition byte_of (z : Z) : Byte.byte := default Byte.x00 (Byte.of_N (Z.to_N z)).

Definition decode_hex_nibble (b : Byte.byte) : Result SandboxError Z :=
  let n := byte_value b in
  if (48 <=? n)%Z && (n <=? 57)%Z then Ok (n - 48)%Z
  else if (97 <=? n)%Z && (n <=? 102)%Z then Ok (n - 97 + 10)%Z
  else if (65 <=? n)%Z && (n <=? 70)%Z then Ok (n - 65 + 10)%Z
  else Err (InvalidConfig ("invalid sha256 hex byte " ^+ byte_as_char b)).

(** The loop over [chunks_exact(2)]; the shift is of a [u8]. *)
Fixpoint decode_pairs (l : bytes) : Result SandboxError bytes :=
  match l with
  | a :: b :: l' =>
      hi ← decode_hex_nibble a;
      lo ← decode_hex_nibble b;
      rest ← decode_pairs l';
      Ok (byte_of (Z.lor (Z.land (Z.shiftl hi 4) 255) lo) :: rest)
  | _ => Ok []
  end.

Definition decode_sha256_hex (input : string) : Result SandboxError bytes :=
  if decide (String.length input = 64) then decode_pairs (as_bytes input)
  else Err (InvalidConfig ("invalid sha256 length " ^+ pretty (Z.of_nat (String.length input)) ^+ "; expected 64 hex characters")).

(** What one line of a manifest says: the digest of the file, or nothing. *)
Definition manifest_line (expected_file_name line : string) : option string :=
  match split_whitespace (trim line) with
  | hex :: file_name :: _ => if decide (trim_start_matches "*" file_name = expected_file_name) then Some hex else None
  | _ => None
  end.

Definition parse_sha256_manifest (manifest expected_file_name : string) : Result SandboxError bytes :=
  match head (omap (manifest_line expected_file_name) (str_lines manifest)) with
  | Some hex => decode_sha256_hex hex
  | None => Err (NotFound ("missing checksum for " ^+ expected_file_name))
  end.

Definition find_asset (release : ReleaseMetadata) (name : string) : Result SandboxError ReleaseAsset :=
  ok_or (NotFound ("latest release " ^+ tag_name release ^+ " does not include asset " ^+ name))
        (snd <$> list_find (λ a, asset_name a = name) (release_assets release)).

Definition binary_name (release : ReleaseMetadata) (p : TargetPlatform) : string :=
  "sagens-" ^+ tag_name release ^+ "-" ^+ slug p.

Definition select_release_assets (release : ReleaseMetadata) (p : TargetPlatform) :
    Result SandboxError (ReleaseAsset * ReleaseAsset) :=
  binary ← find_asset release (binary_name release p);
  checksum ← find_asset release (binary_name release p ^+ ".sha256");
  Ok (binary, checksum).

(** Modes of [apply_binary_permissions]: 0o111 and 0o755. *)
Definition executable_mode (current_mode : Z) : Z :=
  if (Z.land current_mode 73 =? 0)%Z then Z.lor current_mode 493 else current_mode.

Section update.
Context `{!Platform, !HostEnv, !UpdateHost}.

(** ** The network *)

Definition nonblank (o : option string) : option string := v ← o; if decide (trim v = "") then None else Some v.

Definition release_repo : string :=
  let built := v ← built_release_repo; if decide (trim v = "") then None else Some (trim v) in
  default "xenage/sanges"
    (match nonblank (env_var "SAGENS_UPDATE_REPO") with
     | Some r => Some r
     | None => match nonblank (env_var "SAGENS_REPO") with Some r => Some r | None => built end
     end).

Definition build_http_client : Result SandboxError () :=
  match http_client_error with
  | None => Ok ()
  | Some error => Err (Backend ("building self-update HTTP client: " ^+ error))
  end.

(** The part [fetch_text] and [fetch_bytes] share; [body] reads the response. *)
Definition fetch {A} (body : HttpResponse → Result string A) (what url : string) : M SandboxError UpdateState A := λ s,
  let s' := mkUpdate (up_world s) (S (up_requests s)) in
  match http_send (up_requests s) url with
  | Err error => (Err (Backend ("downloading " ^+ url ^+ ": " ^+ error)), s')
  | Ok response =>
      if (200 <=? http_status response)%Z && (http_status response <? 300)%Z then
        match body response with
        | Ok a => (Ok a, s')
        | Err error => (Err (Backend ("reading " ^+ what ^+ " from " ^+ url ^+ ": " ^+ error)), s')
        end
      else (Err (Backend ("downloading " ^+ url ^+ " failed with HTTP " ^+ status_text (http_status response))), s')
  end.
Definition fetch_text : string → M SandboxError UpdateState string := fetch http_text "response body".
Definition fetch_bytes : string → M SandboxError UpdateState bytes := fetch http_bytes "release payload".

Definition latest_release_url : string := "https://api.github.com/repos/" ^+ release_repo ^+ "/releases/latest".

Definition fetch_latest_release : M SandboxError UpdateState ReleaseMetadata :=
  body ← fetch_text latest_release_url;
  match parse_release body with
  | Ok release => mret release
  | Err error => throw (Backend ("parsing GitHub release metadata: " ^+ error))
  end.

(** ** Hashing *)

Definition hash_bytes (b : bytes) : bytes := sha256 b.

(** One [read] into a buffer of 64 KiB: some of the rest, nothing only at the end. *)
Definition chunk_size (n : nat) : nat := Z.to_nat (1 + read_size n `mod` (64 * 1024)).
Definition read_chunk (node : node) (rest : bytes) (n : nat) : M IoError World bytes :=
  io_op (λ fs, match node with Dir _ => Err EISDIR | File _ _ => Ok (take (chunk_size n) rest, fs) end) atomic.

(** The loop of [hash_file]; [acc] is what the hasher was given.  Every read
    but the last shortens [rest], so its length is fuel enough. *)
Fixpoint hash_loop (fuel : nat) (node : node) (rest : bytes) (n : nat) (acc : bytes) : M SandboxError World bytes :=
  buffer ← map_err (Io "reading binary for hashing") (read_chunk node rest n);
  match buffer, fuel with
  | [], _ | _, O => mret (sha256 acc)
  | _, S fuel' => hash_loop fuel' node (drop (length buffer) rest) (S n) (acc ++ buffer)
  end.

Definition node_bytes (n : node) : bytes := match n with File _ c => content_bytes c | Dir _ => [] end.

Definition hash_file (p : path) : M SandboxError World bytes :=
  file ← map_err (Io "opening binary for hashing") (fs_metadata p);
  hash_loop (length (node_bytes file)) file (node_bytes file) 0 [].

Definition verify_bytes_sha256 (b expected : bytes) (asset : string) : Result SandboxError () :=
  if decide (hash_bytes b = expected) then Ok ()
  else Err (Backend ("sha256 mismatch for downloaded release asset " ^+ asset)).

(** ** Staging *)

Definition staged_name (file_name : string) (attempt : nat) : string :=
  "." ^+ file_name ^+ ".update-" ^+ pretty process_id ^+ "-" ^+ pretty (Z.of_nat attempt).

(** [Path::exists]: an error reads as absence. *)
Definition path_exists (p : path) : M SandboxError World bool :=
  r ← attempt (fs_metadata p); mret (is_ok r).

Fixpoint first_free (dir : path) (file_name : string) (attempts : list nat) (executable : path) : M SandboxError World path :=
  match attempts with
  | [] => throw (Backend ("unable to allocate staging path near " ^+ display executable))
  | n :: rest =>
      let candidate := dir ++ [staged_name file_name n] in
      taken ← path_exists candidate;
      if taken : bool then first_free dir file_name rest executable else mret candidate
  end.

Definition allocate_staged_path (executable_path : path) : M SandboxError World path :=
  match last executable_path with
  | None => throw (InvalidConfig ("cannot determine parent directory for " ^+ display executable_path))
  | Some file_name =>
      if decide (file_name = "") then throw (InvalidConfig ("cannot determine file name for " ^+ display executable_path))
      else first_free (parent executable_path) file_name (seq 0 32) executable_path
  end.

(** [OpenOptions::create_new] *)
Definition fs_create_new (p : path) : M IoError World () :=
  io_op (λ fs, match fs !! p with
               | Some _ => Err EEXIST
               | None => fs' ← put_file fs p file_mode (Text []); Ok ((), fs')
               end) atomic.

Definition apply_binary_permissions (staged_path executable_path : path) : M SandboxError World () :=
  n ← map_err (Io "reading current binary permissions") (fs_metadata executable_path);
  map_err (Io "setting staged update binary permissions") (fs_set_mode staged_path (executable_mode (node_mode n))).

Definition write_staged_binary (staged_path : path) (payload : bytes) (executable_path : path) : M SandboxError World () :=
  map_err (Io "creating staged update binary") (fs_create_new staged_path);;
  map_err (Io "writing staged update binary") (fs_write staged_path payload);;
  map_err (Io "syncing staged update binary") (fs_sync staged_path);;
  apply_binary_permissions staged_path executable_path.

Definition smoke_test_binary (binary_path : path) : M SandboxError World () :=
  '(success, status) ← map_err (Io "running staged update smoke test") (run_help binary_path);
  if success : bool then mret ()
  else throw (Backend ("downloaded release failed smoke test with exit status " ^+ status)).

Definition replace_binary (staged_path executable_path : path) : M SandboxError World () :=
  map_err (Io "replacing current sagens binary") (fs_rename_file staged_path executable_path).

Definition cleanup_staged_file (p : path) : M SandboxError World () := attempt (fs_remove_file p);; mret ().

(** ** The update *)

(** The part of [run_self_update] after the payload was verified. *)
Definition install (payload : bytes) (executable_path : path) : M SandboxError World () :=
  staged_path ← allocate_staged_path executable_path;
  write_staged_binary staged_path payload executable_path;;
  smoke ← attempt (smoke_test_binary staged_path);
  match smoke with
  | Err error => cleanup_staged_file staged_path;; throw error
  | Ok _ =>
      replaced ← attempt (replace_binary staged_path executable_path);
      match replaced with
      | Err error => cleanup_staged_file staged_path;; throw error
      | Ok _ => mret ()
      end
  end.

Definition run_self_update : M SandboxError UpdateState SelfUpdateOutcome :=
  executable_path ← map_err (Io "discovering current sagens binary") (lift current_exe);
  platform ← lift (platform_from_parts os_name arch);
  lift build_http_client;;
  release ← fetch_latest_release;
  '(binary_asset, checksum_asset) ← lift (select_release_assets release platform);
  checksum_manifest ← fetch_text (browser_download_url checksum_asset);
  expected_digest ← lift (parse_sha256_manifest checksum_manifest (asset_name binary_asset));
  current ← up_disk (hash_file executable_path);
  let outcome := mkOutcome (tag_name release) executable_path (slug platform) in
  if decide (current = expected_digest) then mret (outcome AlreadyCurrent)
  else
    payload ← fetch_bytes (browser_download_url binary_asset);
    lift (verify_bytes_sha256 payload expected_digest (asset_name binary_asset));;
    up_disk (install payload executable_path);;
    mret (outcome Updated).
End update.

(** ** Digests in text *)

Lemma byte_of_value b : byte_of (byte_value b) = b.
Proof. unfold byte_of, byte_value. by rewrite N2Z.id, Byte.of_to_N. Qed.

Lemma hex_byte_nibbles b :
  ∃ x y hi lo, as_bytes (hex_byte b) = [x; y] ∧ decode_hex_nibble x = Ok hi ∧ decode_hex_nibble y = Ok lo ∧
    byte_of (Z.lor (Z.land (Z.shiftl hi 4) 255) lo) = b.
Proof. destruct b; eexists _, _, _, _; (split_and!; [reflexivity|vm_compute; reflexivity..]). Qed.

Lemma decode_hex_byte b l :
  decode_pairs (as_bytes (hex_byte b) ++ l) = rest ← decode_pairs l; Ok (b :: rest).
Proof.
  destruct (hex_byte_nibbles b) as (x & y & hi & lo & -> & Hx & Hy & Hb). cbn [app decode_pairs].
  rewrite Hx, Hy. cbn [mbind Result_bind]. by rewrite Hb.
Qed.

Lemma as_bytes_app a b : as_bytes (a ^+ b) = as_bytes a ++ as_bytes b.
Proof. induction a as [|x a IH]; [done|]. exact (f_equal (cons _) IH). Qed.

Lemma decode_hex_encode d : decode_pairs (as_bytes (hex_encode d)) = Ok d.
Proof.
  induction d as [|b d IH]; [done|]. change (hex_encode (b :: d)) with (hex_byte b ^+ hex_encode d).
  by rewrite as_bytes_app, decode_hex_byte, IH.
Qed.

Lemma hex_encode_length d : String.length (hex_encode d) = 2 * length d.
Proof.
  induction d as [|b d IH]; [done|]. change (hex_encode (b :: d)) with (hex_byte b ^+ hex_encode d).
  rewrite string_length_app, IH. simpl. lia.
Qed.

Lemma hex_encode_graphic d : all_chars graphic (hex_encode d) = true.
Proof.
  induction d as [|b d IH]; [done|]. change (hex_encode (b :: d)) with (hex_byte b ^+ hex_encode d).
  rewrite all_chars_app, IH, andb_true_r. by destruct b.
Qed.

Lemma decode_pairs_length n l d : length l ≤ n → decode_pairs l = Ok d → length d = length l `div` 2.
Proof.
  revert l d. induction n as [|n IH]; intros [|a [|b l]] d Hn; cbn [decode_pairs length] in *; try lia; try (by intros [= <-]).
  destruct (decode_hex_nibble a) as [hi|]; [|done]. destruct (decode_hex_nibble b) as [lo|]; [|done].
  cbn [mbind Result_bind]. destruct (decode_pairs l) as [rest|] eqn:Er; [|done]. intros [= <-].
  cbn [length]. rewrite (IH l rest) by (done || lia). replace (S (S (length l))) with (length l + 1 * 2) by lia.
  rewrite Nat.div_add by lia. lia.
Qed.

Lemma list_byte_length s : length (as_bytes s) = String.length s.
Proof. induction s as [|a s IH]; [done|]. exact (f_equal S IH). Qed.

Lemma decode_digest_length s d : decode_sha256_hex s = Ok d → length d = 32.
Proof.
  unfold decode_sha256_hex. case_decide as Hl; [|done]. intros Hd.
  rewrite (decode_pairs_length (length (as_bytes s)) _ _ (le_n _) Hd), list_byte_length, Hl. done.
Qed.

(** ** Manifests *)

(** A line as [sha256sum] prints it. *)
Definition manifest_entry (entry : bytes * string) : string := hex_encode entry.1 ^+ "  " ^+ entry.2.
Fixpoint render_manifest (entries : list (bytes * string)) : string :=
  match entries with [] => "" | e :: rest => manifest_entry e ^+ String line_feed (render_manifest rest) end.

Definition release_file (name : string) : Prop :=
  name ≠ "" ∧ all_chars graphic name = true ∧ starts_with "*" name = false.

Lemma manifest_entry_line d name wanted :
  length d = 32 → release_file name →
  manifest_line wanted (manifest_entry (d, name)) = if decide (name = wanted) then Some (hex_encode d) else None.
Proof.
  intros Hd (Hne & Hg & Hs). assert (hex_encode d ≠ "") as Hh.
  { intros E. pose proof (hex_encode_length d) as Hl. rewrite E, Hd in Hl. done. }
  pose proof (hex_encode_graphic d) as Hhg. unfold manifest_line, manifest_entry. cbn [fst snd].
  rewrite trim_solid by (apply solid_app; by apply graphic_solid).
  change ("  " ^+ name) with (" " ^+ String " " name).
  rewrite split_whitespace_word, split_whitespace_space, split_whitespace_one by done.
  by rewrite trim_start_matches_none by by apply starts_with_false.
Qed.

Lemma graphic_no_line_feed s : all_chars graphic s = true → all_chars (λ a, negb (Ascii.eqb a line_feed)) s = true.
Proof. apply all_chars_impl. intros a. by destruct a as [[][][][][][][][]]. Qed.

Lemma render_manifest_lines entries :
  Forall (λ e, length e.1 = 32 ∧ release_file e.2) entries → str_lines (render_manifest entries) = map manifest_entry entries.
Proof.
  induction 1 as [|[d name] entries (Hd & Hne & Hg & Hs) _ IH]; [done|]. cbn [fst snd] in *. cbn [render_manifest map].
  assert (hex_encode d ≠ "") as Hh.
  { intros E. pose proof (hex_encode_length d) as Hl. rewrite E, Hd in Hl. done. }
  pose proof (hex_encode_graphic d) as Hhg. rewrite str_lines_cons, IH; [done|..].
  - unfold manifest_entry. cbn [fst snd]. by rewrite !all_chars_app, (graphic_no_line_feed (hex_encode d)), (graphic_no_line_feed name).
  - apply solid_app; by apply graphic_solid.
Qed.

(** a published digest is read back: from a manifest in the format of [sha256sum] with any number of entries,
    the digest found for a file is the one of the first entry with its name, and it has 32 bytes; a file the manifest does not
    list is an error. *)
Theorem manifest_roundtrip entries wanted :
  Forall (λ e, length e.1 = 32 ∧ release_file e.2) entries →
  parse_sha256_manifest (render_manifest entries) wanted =
  match list_find (λ e, e.2 = wanted) entries with
  | Some (_, (d, _)) => Ok d
  | None => Err (NotFound ("missing checksum for " ^+ wanted))
  end.
Proof.
  intros Hall. unfold parse_sha256_manifest. rewrite render_manifest_lines by done.
  induction Hall as [|[d name] entries [Hd Hname] _ IH]; [done|]. cbn [fst snd] in *. cbn [map omap list_omap list_find].
  rewrite manifest_entry_line by done. destruct (decide (name = wanted)) as [->|Hne].
  - rewrite (decide_True (P := (d, wanted).2 = wanted)) by done. cbn [head]. unfold decode_sha256_hex.
    by rewrite hex_encode_length, Hd, decide_True, decode_hex_encode by done.
  - rewrite (decide_False (P := (d, name).2 = wanted)) by done. rewrite IH.
    by destruct (list_find (λ e, e.2 = wanted) entries) as [[i [d' n']]|].
Qed.

(** ** Hashing in pieces *)

Section laws.
Context `{!Platform, !HostEnv, !UpdateHost}.

Lemma take_drop_length {A} n (l : list A) : take n l ++ drop (length (take n l)) l = l.
Proof.
  rewrite length_take. destruct (Nat.le_ge_cases n (length l)).
  - rewrite Nat.min_l by done. apply take_drop.
  - rewrite Nat.min_r, take_ge, drop_ge by lia. apply app_nil_r.
Qed.

Lemma chunk_size_pos n : ∃ k, chunk_size n = S k.
Proof.
  exists (Z.to_nat (read_size n `mod` (64 * 1024))). unfold chunk_size.
  pose proof (Z.mod_pos_bound (read_size n) (64 * 1024) ltac:(lia)). lia.
Qed.

Lemma read_chunk_ok m c rest n w b w' :
  read_chunk (File m c) rest n w = (Ok b, w') → b = take (chunk_size n) rest ∧ w_fs w' = w_fs w.
Proof. intros [[= <- <-] _]%io_op_ok. done. Qed.

Lemma hash_loop_ok fuel m c rest n acc w d w' :
  length rest ≤ fuel → hash_loop fuel (File m c) rest n acc w = (Ok d, w') →
  d = sha256 (acc ++ rest) ∧ w_fs w' = w_fs w.
Proof.
  revert rest n acc w. induction fuel as [|fuel IH]; intros rest n acc w Hlen Hrun; cbn [hash_loop] in Hrun.
  - apply bind_ok_inv in Hrun as (b & w1 & Hb%map_err_ok_inv & Hrun). apply read_chunk_ok in Hb as [-> Hfs].
    destruct rest; [|simpl in Hlen; lia]. rewrite take_nil in Hrun. injection Hrun as <- <-. by rewrite app_nil_r.
  - apply bind_ok_inv in Hrun as (b & w1 & Hb%map_err_ok_inv & Hrun). apply read_chunk_ok in Hb as [-> Hfs].
    destruct rest as [|x rest]; [rewrite take_nil in Hrun; injection Hrun as <- <-; by rewrite app_nil_r|].
    destruct (chunk_size_pos n) as [k Hk]. rewrite Hk in Hrun. cbn [firstn] in Hrun. simpl in Hlen. apply IH in Hrun as [-> Hfs'].
    + split; [|congruence]. f_equal. rewrite <-app_assoc. f_equal. cbn [length drop app]. f_equal.
      apply take_drop_length.
    + cbn [length drop]. rewrite length_drop. lia.
Qed.

(** Whatever the reads give, the digest is the one of the whole file. *)
Lemma hash_file_ok p w d w' :
  hash_file p w = (Ok d, w') → ∃ m c, w_fs w !! p = Some (File m c) ∧ d = hash_bytes (content_bytes c) ∧ w_fs w' = w_fs w.
Proof.
  unfold hash_file. intros (n & w1 & [Hl Hfs]%map_err_ok_inv%metadata_ok & Hrun)%bind_ok_inv.
  destruct n as [m|m c]; [by apply bind_ok_inv in Hrun as (b & w2 & [? _]%map_err_ok_inv%io_op_ok & _)|].
  apply hash_loop_ok in Hrun as [-> Hfs']; [|done]. exists m, c. split_and!; [done|done|congruence].
Qed.

Lemma keeps_hash_file P p : keeps (frame P) (hash_file p).
Proof.
  assert (Hloop : ∀ fuel node rest n acc, keeps (frame P) (hash_loop fuel node rest n acc)).
  { assert (Hc : ∀ node rest n, keeps (frame P) (read_chunk node rest n)).
    { intros node rest n. apply keeps_io_op; [|by intros]. intros fs b fs'. destruct node; [done|]. by intros [= _ <-]. }
    induction fuel as [|fuel IH]; intros node rest n acc; simpl; keeps_tac; auto. }
  unfold hash_file. keeps_tac.
Qed.

(** ** Installing *)

(** The paths the update may write besides the executable. *)
Definition staging (exe q : path) : Prop := ∃ name n, last exe = Some name ∧ q = parent exe ++ [staged_name name n].

Lemma staged_not_exe exe : ¬ staging exe exe.
Proof.
  intros (name & n & Hl & E). apply (f_equal last) in E. rewrite last_snoc, Hl in E. injection E as E.
  apply (f_equal String.length) in E. unfold staged_name in E. rewrite !string_length_app in E. simpl in E. lia.
Qed.

Lemma keeps_create_new P p : P p → keeps (frame P) (fs_create_new p).
Proof.
  intros Hp. apply keeps_io_op; [|by intros]. intros fs a fs'. destruct (fs !! p); [done|].
  destruct (put_file fs p file_mode (Text [])) as [fs1|] eqn:E; [|done]. simpl. intros [= _ <-]. by eapply put_file_frame.
Qed.

Lemma create_new_ok p w u w' :
  fs_create_new p w = (Ok u, w') → w_fs w !! p = None ∧ w_fs w' = <[p := File file_mode (Text [])]> (w_fs w).
Proof.
  intros [Hact _]%io_op_ok. destruct (w_fs w !! p) as [n|] eqn:E; [done|]. unfold put_file in Hact. rewrite E in Hact.
  destruct (parent_is_dir _ _); by simplify_eq/=.
Qed.

Lemma keeps_first_free P dir name l exe : keeps (frame P) (first_free dir name l exe).
Proof. induction l as [|n l IH]; simpl; [keeps_tac|]. unfold path_exists. keeps_tac; eauto with keeps. Qed.

Lemma first_free_ok dir name l exe w p w' :
  first_free dir name l exe w = (Ok p, w') → ∃ n, p = dir ++ [staged_name name n].
Proof.
  revert w. induction l as [|n l IH]; intros w; simpl; [done|]. intros (taken & w1 & _ & Hrun)%bind_ok_inv.
  destruct taken; [by eapply IH|]. apply ret_ok_inv in Hrun as [<- _]. by exists n.
Qed.

Lemma allocate_ok exe w p w' : allocate_staged_path exe w = (Ok p, w') → staging exe p.
Proof.
  unfold allocate_staged_path, staging. destruct (last exe) as [name|]; [|done]. case_decide; [done|].
  intros [n ->]%first_free_ok. by exists name, n.
Qed.

Lemma executable_mode_ok m : Z.land (executable_mode m) 73 ≠ 0%Z.
Proof.
  unfold executable_mode. destruct (Z.eqb_spec (Z.land m 73) 0) as [E|]; [|done]. intros E0.
  apply (f_equal (λ z, Z.testbit z 0)) in E0. rewrite Z.land_spec, Z.lor_spec, Z.bits_0 in E0.
  change (Z.testbit 493 0) with true in E0. change (Z.testbit 73 0) with true in E0.
  by destruct (Z.testbit m 0).
Qed.

Lemma write_staged_ok p payload exe w u w' :
  write_staged_binary p payload exe w = (Ok u, w') →
  ∃ m, w_fs w' = <[p := File m (Text payload)]> (w_fs w) ∧ Z.land m 73 ≠ 0%Z.
Proof.
  unfold write_staged_binary, apply_binary_permissions. intros Hrun. ok_inv.
  match goal with H : fs_create_new _ _ = _ |- _ => apply create_new_ok in H as [_ E1] end.
  match goal with H : fs_write _ _ _ = _ |- _ => apply write_ok in H as [m1 E2] end.
  match goal with H : fs_sync _ _ = _ |- _ => apply fs_sync_ok in H as E3 end.
  match goal with H : fs_metadata _ _ = _ |- _ => apply metadata_ok in H as [_ E4] end.
  apply set_mode_ok in Hrun. rewrite E4, E3, E2, lookup_insert_eq in Hrun.
  destruct Hrun as [(m0 & ? & _)|(m0 & c & [= <- <-] & ->)]; [done|].
  eexists. split; [by rewrite E1, !insert_insert_eq|apply executable_mode_ok].
Qed.

(** A staged binary that is run writes only [scratch]. *)
Context (scratch : path → Prop) (run_help_frame : ∀ p, keeps (frame scratch) (run_help p)).

Definition touched (exe q : path) : Prop := scratch q ∨ staging exe q.

Lemma keeps_smoke exe p : keeps (frame (touched exe)) (smoke_test_binary p).
Proof.
  unfold smoke_test_binary. apply keeps_bind; [typeclasses eauto| |intros [[] status]; keeps_tac].
  apply keeps_map_err, (keeps_impl (frame scratch)), run_help_frame. intros w w' Hf q Hq. apply Hf. unfold touched in Hq. tauto.
Qed.

Lemma keeps_write_staged exe p payload : staging exe p → keeps (frame (touched exe)) (write_staged_binary p payload exe).
Proof.
  intros Hp. assert (touched exe p) by by right. unfold write_staged_binary, apply_binary_permissions.
  keeps_tac; eauto using keeps_create_new with keeps.
Qed.

Lemma cleanup_ok p w : ∃ w', cleanup_staged_file p w = (Ok (), w').
Proof. unfold cleanup_staged_file, mbind, M_bind, attempt. destruct (fs_remove_file p w) as [r w']. by exists w'. Qed.

Lemma keeps_cleanup P p : P p → keeps (frame P) (cleanup_staged_file p).
Proof. intros Hp. unfold cleanup_staged_file. keeps_tac. Qed.

Lemma replace_err P p exe : errs_keep (frame P) (replace_binary p exe).
Proof.
  intros w e w'. unfold replace_binary, map_err. destruct (fs_rename_file p exe w) as [[]w1] eqn:E; [done|]. intros [= _ <-].
  intros q _. by rewrite (io_op_err_atomic _ _ _ _ E).
Qed.

Definition installed (payload : bytes) (exe p : path) (w w' : World) : Prop :=
  staging exe p ∧ ∃ m, Z.land m 73 ≠ 0%Z ∧ w_fs w' !! exe = Some (File m (Text payload)) ∧ w_fs w' !! p = None ∧
  ∀ q, q ≠ exe → ¬ touched exe q → w_fs w' !! q = w_fs w !! q.

(** The last two steps: on failure only paths beside the executable were
    touched, on success the staged file is in its place. *)
Lemma install_outcome payload exe w r w' :
  ¬ scratch exe → (∀ q, staging exe q → ¬ scratch q) → install payload exe w = (r, w') →
  match r with
  | Err _ => frame (touched exe) w w'
  | Ok _ => ∃ p, installed payload exe p w w'
  end.
Proof.
  intros Hexe Hst. unfold install.
  destruct (allocate_staged_path exe w) as [[p|e] w1] eqn:Ea.
  2:{ rewrite (bind_err _ _ _ _ _ Ea). intros [= <- <-]. unfold allocate_staged_path in Ea.
      assert (Hk := λ name, keeps_first_free (touched exe) (parent exe) name (seq 0 32) exe w).
      destruct (last exe) as [name|]; [|by injection Ea as _ <-]. case_decide; [by injection Ea as _ <-|].
      specialize (Hk name). by rewrite Ea in Hk. }
  rewrite (bind_ok _ _ _ _ _ Ea). pose proof (allocate_ok _ _ _ _ Ea) as Hp.
  assert (Hf1 : frame (touched exe) w w1).
  { unfold allocate_staged_path in Ea. assert (Hk := λ name, keeps_first_free (touched exe) (parent exe) name (seq 0 32) exe w).
    destruct (last exe) as [name|]; [|done]. case_decide; [done|]. specialize (Hk name). by rewrite Ea in Hk. }
  pose proof (keeps_write_staged exe p payload Hp w1) as Hf2.
  destruct (write_staged_binary p payload exe w1) as [[u|e] w2] eqn:Ew; simpl in Hf2.
  2:{ rewrite (bind_err _ _ _ _ _ Ew). intros [= <- <-]. by etrans. }
  rewrite (bind_ok _ _ _ _ _ Ew). apply write_staged_ok in Ew as (m & Hfs & Hm).
  pose proof (keeps_smoke exe p w2) as Hf3. pose proof (run_help_frame p w2) as Hf3'.
  destruct (smoke_test_binary p w2) as [rs w3] eqn:Es; simpl in Hf3. rewrite (bind_ok _ _ _ _ _ (attempt_run _ _ _ _ Es)).
  assert (Hs3 : frame scratch w2 w3).
  { pose proof Es as Es'. unfold smoke_test_binary, mbind, M_bind, map_err in Es'.
    destruct (run_help p w2) as [[[[] st]|] w3'] in Es', Hf3'; simpl in *; by injection Es' as _ <-. }
  assert (Hfall : frame (touched exe) w w3) by (etrans; [exact Hf1|by etrans]).
  assert (Hclean : ∀ e w4 w5, frame (touched exe) w w4 → (cleanup_staged_file p;; throw e) w4 = (r, w5) →
    match r with Err _ => frame (touched exe) w w5 | Ok _ => False end).
  { intros e w4 w5 Hf4. destruct (cleanup_ok p w4) as [w6 Hc].
    pose proof (keeps_cleanup (touched exe) p (or_intror Hp) w4) as Hk. rewrite Hc in Hk.
    rewrite (bind_ok _ _ _ _ _ Hc). intros [= <- <-]. by etrans. }
  destruct rs as [|e]; [|intros Hr; specialize (Hclean _ _ _ Hfall Hr); by destruct r].
  destruct (replace_binary p exe w3) as [[u'|e] w4] eqn:Er; rewrite (bind_ok _ _ _ _ _ (attempt_run _ _ _ _ Er)).
  - intros [= <- <-]. exists p. split; [done|]. apply map_err_ok_inv, rename_file_ok in Er as (m' & c & Hl & ->).
    assert (p ≠ exe) as Hne by (intros ->; by apply (staged_not_exe exe)).
    rewrite (Hs3 p), Hfs, lookup_insert_eq in Hl by by apply Hst. injection Hl as <- <-.
    exists m. split_and!; [done|apply lookup_insert_eq|by rewrite lookup_insert_ne, lookup_delete_eq|].
    intros q Hq Ht. rewrite lookup_insert_ne by done. rewrite lookup_delete_ne by (intros ->; apply Ht; by right). by apply Hfall.
  - intros Hr. assert (Hf4 : frame (touched exe) w w4) by (etrans; [exact Hfall|by eapply replace_err]).
    specialize (Hclean _ _ _ Hf4 Hr). by destruct r.
Qed.

(** ** The whole update *)

(** What a request with a successful response gave. *)
Definition served {A} (body : HttpResponse → Result string A) (n : nat) (url : string) (a : A) : Prop :=
  ∃ response, http_send n url = Ok response ∧ (200 ≤ http_status response < 300)%Z ∧ body response = Ok a.

Lemma http_fetch_ok {A} (body : HttpResponse → Result string A) what url s a s' :
  fetch body what url s = (Ok a, s') → served body (up_requests s) url a ∧ s' = mkUpdate (up_world s) (S (up_requests s)).
Proof.
  unfold fetch, served. destruct (http_send (up_requests s) url) as [response|]; [|done].
  destruct (_ && _) eqn:E; [|done]. destruct (body response) as [b|] eqn:Eb; [|done]. intros [= <- <-].
  apply andb_true_iff in E as [?%Z.leb_le ?%Z.ltb_lt]. eauto 10.
Qed.

Definition same_world : relation UpdateState := λ s s', up_world s' = up_world s.
#[local] Instance same_world_preorder : PreOrder same_world.
Proof. split; unfold same_world; [done|]. intros s1 s2 s3 E1 E2. congruence. Qed.

Lemma keeps_fetch {A} (body : HttpResponse → Result string A) what url : keeps same_world (fetch body what url).
Proof.
  intros s. unfold fetch, same_world. destruct (http_send _ _) as [response|]; [|done].
  destruct (_ && _); [|done]. by destruct (body response).
Qed.

(** The executable as the update found it. *)
Definition kept (exe : path) : relation UpdateState := λ s s', frame (touched exe) (up_world s) (up_world s').
#[local] Instance kept_preorder exe : PreOrder (kept exe).
Proof. split; unfold kept; [done|]. intros s1 s2 s3 ? ?. by etrans. Qed.

Lemma kept_fetch {A} exe (body : HttpResponse → Result string A) what url : keeps (kept exe) (fetch body what url).
Proof. eapply keeps_impl, keeps_fetch. intros s s' E. unfold kept. by rewrite E. Qed.

Lemma kept_hash exe p : keeps (kept exe) (up_disk (hash_file p)).
Proof. eapply keeps_zoom, (keeps_hash_file (touched exe)). by intros. Qed.

Lemma install_errs exe payload :
  ¬ scratch exe → (∀ q, staging exe q → ¬ scratch q) → errs_keep (kept exe) (up_disk (install payload exe)).
Proof.
  intros Hexe Hst s e s'. unfold up_disk, zoom. destruct (install payload exe (up_world s)) as [r w'] eqn:Ei.
  intros [= -> <-]. by apply install_outcome in Ei.
Qed.

(** The answers an update that replaced the executable was given, from its [n]th request on. *)
Definition released (n : nat) (o : SelfUpdateOutcome) (payload : bytes) : Prop :=
  ∃ platform body release binary checksum manifest,
    served http_text n latest_release_url body ∧ parse_release body = Ok release ∧ tag_name release = out_release_tag o ∧
    platform_from_parts os_name arch = Ok platform ∧ select_release_assets release platform = Ok (binary, checksum) ∧
    served http_text (S n) (browser_download_url checksum) manifest ∧
    parse_sha256_manifest manifest (asset_name binary) = Ok (hash_bytes payload) ∧
    served http_bytes (S (S n)) (browser_download_url binary) payload.

Lemma fetch_latest_ok s release s' :
  fetch_latest_release s = (Ok release, s') →
  ∃ body, served http_text (up_requests s) latest_release_url body ∧ parse_release body = Ok release ∧
    s' = mkUpdate (up_world s) (S (up_requests s)).
Proof.
  unfold fetch_latest_release. intros (body & s1 & [Hs ->]%http_fetch_ok & Hr)%bind_ok_inv.
  destruct (parse_release body) as [release'|] eqn:E; [|done]. apply ret_ok_inv in Hr as [-> <-]. eauto.
Qed.

Lemma up_disk_ok {A} (m : M SandboxError World A) s a s' :
  up_disk m s = (Ok a, s') → ∃ w', m (up_world s) = (Ok a, w') ∧ s' = mkUpdate w' (up_requests s).
Proof. unfold up_disk, zoom. destruct (m (up_world s)) as [r w']. intros [= -> <-]. eauto. Qed.

Context (exe : path) (exe_is : current_exe = Ok exe).
Context (exe_kept : ¬ scratch exe) (staging_kept : ∀ q, staging exe q → ¬ scratch q).

Lemma update_ok s o s' :
  run_self_update s = (Ok o, s') →
  match out_action o with
  | AlreadyCurrent => w_fs (up_world s') = w_fs (up_world s)
  | Updated => ∃ payload p, installed payload exe p (up_world s) (up_world s') ∧ released (up_requests s) o payload
  end.
Proof.
  unfold run_self_update. rewrite exe_is. intros Hrun.
  apply bind_ok_inv in Hrun as (? & s1 & [= <- <-] & Hrun).
  apply bind_ok_inv in Hrun as (platform & ? & [Hplat <-]%lift_ok_inv & Hrun).
  apply bind_ok_inv in Hrun as (? & ? & [_ <-]%lift_ok_inv & Hrun).
  apply bind_ok_inv in Hrun as (release & ? & (body & Hbody & Hrel & ->)%fetch_latest_ok & Hrun).
  apply bind_ok_inv in Hrun as ([binary checksum] & ? & [Hsel <-]%lift_ok_inv & Hrun).
  apply bind_ok_inv in Hrun as (manifest & ? & [Hman ->]%http_fetch_ok & Hrun).
  apply bind_ok_inv in Hrun as (expected & ? & [Hexp <-]%lift_ok_inv & Hrun).
  apply bind_ok_inv in Hrun as (current & ? & (w1 & (m & c & _ & _ & Hw1)%hash_file_ok & ->)%up_disk_ok & Hrun).
  cbn [up_world up_requests] in *. case_decide as Hcur; [by apply ret_ok_inv in Hrun as [<- <-]|].
  apply bind_ok_inv in Hrun as (payload & ? & [Hpay ->]%http_fetch_ok & Hrun).
  apply bind_ok_inv in Hrun as (? & ? & [Hver <-]%lift_ok_inv & Hrun).
  apply bind_ok_inv in Hrun as ([] & ? & (w2 & Hinst & ->)%up_disk_ok & Hrun).
  apply ret_ok_inv in Hrun as [<- <-]. cbn [out_action up_world up_requests] in *.
  unfold verify_bytes_sha256 in Hver. case_decide as Hh; [|done]. subst expected.
  apply install_outcome in Hinst as (p & Hp & m' & Hm & Hexe & Hnone & Hrest); [|done..].
  exists payload, p. split.
  - split; [done|]. exists m'. split_and!; [done..|]. intros q Hq Ht. rewrite Hrest by done. by rewrite Hw1.
  - exists platform, body, release, binary, checksum, manifest. by split_and!.
Qed.

Lemma update_errs : errs_keep (kept exe) run_self_update.
Proof.
  intros s e s'. unfold run_self_update. rewrite exe_is, (bind_ok _ _ s exe s) by done.
  match goal with |- ?c s = _ → _ => enough (errs_keep (kept exe) c) as He by apply He end.
  do 2 (apply errs_keep_bind; [typeclasses eauto|apply keeps_lift; typeclasses eauto|intros ?]).
  apply errs_keep_bind; [typeclasses eauto| |intros release].
  { unfold fetch_latest_release, fetch_text. keeps_tac; apply kept_fetch. }
  apply errs_keep_bind; [typeclasses eauto|apply keeps_lift; typeclasses eauto|intros [binary checksum]].
  apply errs_keep_bind; [typeclasses eauto|apply kept_fetch|intros manifest].
  apply errs_keep_bind; [typeclasses eauto|apply keeps_lift; typeclasses eauto|intros expected].
  apply errs_keep_bind; [typeclasses eauto|apply kept_hash|intros current]. case_decide; [by intros ? ? ?|].
  apply errs_keep_bind; [typeclasses eauto|apply kept_fetch|intros payload].
  apply errs_keep_bind; [typeclasses eauto|apply keeps_lift; typeclasses eauto|intros _].
  intros s1 e1 s2 Hrun. unfold mbind, M_bind in Hrun.
  destruct (up_disk (install payload exe) s1) as [[u|e2] s3] eqn:Ei; [done|]. injection Hrun as <- <-.
  by eapply install_errs.
Qed.

End laws.
