(* ===== verification/ImageFetch.v ===== *)
(** * ImageFetch: [alpine.rs], [verify.rs] and [archive.rs] of [src/images/], and the downloads of [packages.rs]

    What a build of an image takes from the network: the signing certificate, the
    root file system with its checksum and signature, the indexes and the
    packages, kept in a cache between builds.  The HTTP client, the decoders of
    gzip and tar and the OpenPGP library are an interface; every answer of the
    network and every failure of the file system is possible. *)

From S2P Require Import Prelude RustStd Text Paths FileSystem PrivateFs FsTree Config Images Packages HostConfig Update.

Definition BASE_URL : string := "https://dl-cdn.alpinelinux.org/alpine/v3.23".
Definition ALPINE_RELEASE_KEY_URL : string := "https://alpinelinux.org/keys/ncopa.asc".
Definition EXPECTED_SIGNING_FINGERPRINT : string := "0482D84022F52DF1C4E7CD43293ACD0907D9495A".

(** [sequoia_openpgp::parse::stream::MessageLayer]; of a signature, whether it is good. *)
Inductive MessageLayer :=
  | SignatureGroup (results : list bool)
  | OtherLayer.

(** An entry of an archive: its path, what can be read of it, and how reading it ends. *)
Record TarEntry := mkEntry {
  te_path : Result string string;
  te_data : bytes;
  te_error : option IoError;
}.

Class ImageHost := {
  image_client_error : option string;                       (** [ClientBuilder::build] *)
  image_send : nat → string → Result string HttpResponse;   (** by request *)
  status_error : string → Z → string;                       (** [Response::error_for_status] *)
  read_text : bytes → Result IoError string;                (** the bytes of a file as UTF-8 *)
  Cert : Type;
  parse_certs : string → Result string (list (Result string Cert));
  fingerprint : Cert → string;
  open_signature : bytes → Result string ();                (** [DetachedVerifierBuilder::with_policy] *)
  detached_layers : list Cert → bytes → bytes → Result string (list MessageLayer);  (** signature, payload *)
  tar_gz_entries : bytes → Result string (list (Result string TarEntry));
  image_read_size : nat → Z;                                (** how much the [n]th read of a file gives *)
}.

(** The file system, and the requests sent, the latest first. *)
Record Fetch := mkFetch { fe_world : World; fe_requests : list string }.
Local Abbreviation FM := (M string Fetch).

(** [anyhow]: an error with the contexts it was given. *)
Definition with_context {A} (c : string) (m : FM A) : FM A := map_err (λ e, c ^+ ": " ^+ e) m.
Definition disk {A} (m : M IoError World A) : FM A :=
  zoom fe_world (λ w s, mkFetch w (fe_requests s)) (map_err io_text m).
Definition ensure (b : bool) (message : string) : FM () := if b then mret () else throw message.

(** ** Hexadecimal digits *)

Definition hex_nibble (b : Byte.byte) : Result string Z :=
  let n := byte_value b in
  if (48 <=? n)%Z && (n <=? 57)%Z then Ok (n - 48)%Z
  else if (97 <=? n)%Z && (n <=? 102)%Z then Ok (n - 97 + 10)%Z
  else if (65 <=? n)%Z && (n <=? 70)%Z then Ok (n - 65 + 10)%Z
  else Err ("invalid hex byte " ^+ byte_as_char b).

Fixpoint hex_pairs (l : bytes) : Result string bytes :=
  match l with
  | a :: b :: l' =>
      hi ← hex_nibble a;
      lo ← hex_nibble b;
      rest ← hex_pairs l';
      Ok (byte_of (Z.lor (Z.land (Z.shiftl hi 4) 255) lo) :: rest)
  | _ => Ok []
  end.

Definition decode_hex (input : string) : Result string bytes :=
  if decide (String.length input `mod` 2 = 0) then hex_pairs (as_bytes input) else Err "hex string has odd length".

(** ** Names of files *)

(** [Path::file_stem] and [Path::with_extension] on the last component. *)
Definition file_stem (name : string) : string :=
  match split_once "." (string_rev name) with
  | Some (_, before) => if decide (before = "") then name else string_rev before
  | None => name
  end.
Definition with_extension (p : path) (ext : string) : path :=
  match last p with
  | Some name => parent p ++ [file_stem name ^+ "." ^+ ext]
  | None => p
  end.
Definition with_file_name (p : path) (name : string) : path := parent p ++ [name].

(** [archive_member_matches]: equality of paths is that of their components. *)
Definition archive_member_matches (actual expected : string) : bool :=
  bool_decide (components actual = components expected) ||
  match components actual with
  | CurDir :: cs => bool_decide (cs = components expected)
  | _ => false
  end.

Section fetch.
Context `{plat : !Platform, ihost : !ImageHost}.

Definition hex_sha256 (b : bytes) : string := hex_encode (sha256 b).

(** ** Checksums and signatures: [verify.rs] *)

Definition image_chunk (n : nat) : nat := Z.to_nat (1 + image_read_size n `mod` (64 * 1024)).
Definition read_part (node : node) (rest : bytes) (n : nat) : M IoError World bytes :=
  io_op (λ fs, match node with Dir _ => Err EISDIR | File _ _ => Ok (take (image_chunk n) rest, fs) end) atomic.

(** The loop of [file_sha256]; every read but the last shortens [rest], so its
    length is fuel enough. *)
Fixpoint sha256_loop (fuel : nat) (node : node) (rest : bytes) (n : nat) (acc : bytes) : M IoError World bytes :=
  buffer ← read_part node rest n;
  match buffer, fuel with
  | [], _ | _, O => mret (sha256 acc)
  | _, S fuel' => sha256_loop fuel' node (drop (length buffer) rest) (S n) (acc ++ buffer)
  end.

Definition file_sha256 (p : path) : FM bytes :=
  file ← with_context ("opening " ^+ display p) (disk (fs_metadata p));
  disk (sha256_loop (length (node_bytes file)) file (node_bytes file) 0 []).

Definition read_to_string (p : path) : M IoError World string :=
  data ← fs_read p; lift (read_text data).

Definition verify_sha256 (payload_path checksum_path : path) : FM () :=
  checksum_file ← with_context ("reading " ^+ display checksum_path) (disk (read_to_string checksum_path));
  match split_once_str "  " checksum_file with
  | None => throw "invalid .sha256 format"
  | Some (expected_hex, file_name) =>
      ensure (bool_decide (trim file_name = default "" (last payload_path))) "checksum file name does not match payload name";;
      expected ← lift (decode_hex (trim expected_hex));
      actual ← file_sha256 payload_path;
      ensure (bool_decide (expected = actual)) ("sha256 mismatch for " ^+ display payload_path)
  end.

(** [DetachedSignatureHelper::check] *)
Definition check_layers (structure : list MessageLayer) : Result string () :=
  match structure with
  | [] => Err "missing detached signature results"
  | SignatureGroup results :: _ =>
      if existsb id results then Ok () else Err "detached signature did not validate"
  | OtherLayer :: _ => Err "unexpected OpenPGP message structure"
  end.

Definition verify_detached_signature (payload_path signature_path : path) (cert : Cert) : FM () :=
  ensure (bool_decide (fingerprint cert = EXPECTED_SIGNING_FINGERPRINT)) "unexpected signing cert fingerprint";;
  signature ← with_context ("opening detached signature " ^+ display signature_path) (disk (fs_read signature_path));
  with_context "building detached OpenPGP verifier" (lift (open_signature signature));;
  with_context ("verifying detached signature for " ^+ display payload_path)
    (payload ← disk (fs_read payload_path);
     structure ← lift (detached_layers [cert] signature payload);
     lift (check_layers structure)).

(** ** Archives: [archive.rs] *)

Fixpoint extract_first (archive_path : path) (member_name : string) (destination : path)
    (entries : list (Result string TarEntry)) : FM () :=
  match entries with
  | [] => throw ("missing tar member " ^+ member_name ^+ " in " ^+ display archive_path)
  | entry :: rest =>
      entry ← with_context ("reading tar entry from " ^+ display archive_path) (lift entry);
      name ← with_context ("reading tar path from " ^+ display archive_path) (lift (te_path entry));
      if negb (archive_member_matches name member_name) then extract_first archive_path member_name destination rest
      else
        with_context ("creating " ^+ display destination) (disk (fs_file_create destination));;
        with_context ("extracting " ^+ member_name ^+ " from " ^+ display archive_path)
          (disk (fs_write destination (te_data entry));;
           match te_error entry with Some e => throw (io_text e) | None => mret () end)
  end.

Definition extract_member_from_tar_gz (archive_path : path) (member_name : string) (destination : path) : FM () :=
  disk (fs_create_dir_all (parent destination));;
  archive ← with_context ("opening " ^+ display archive_path) (disk (fs_read archive_path));
  entries ← with_context ("reading tar entries from " ^+ display archive_path) (lift (tar_gz_entries archive));
  extract_first archive_path member_name destination entries.

(** ** Downloads: [alpine.rs] *)

Definition http_client : FM () :=
  match image_client_error with Some error => throw ("building HTTP client: " ^+ error) | None => mret () end.

(** [client.get(url).send()] *)
Definition send (url : string) : FM HttpResponse := λ s,
  (image_send (length (fe_requests s)) url, mkFetch (fe_world s) (url :: fe_requests s)).

Definition error_for_status (url : string) (r : HttpResponse) : Result string HttpResponse :=
  if (400 <=? http_status r)%Z && (http_status r <? 600)%Z then Err (status_error url (http_status r)) else Ok r.

Fixpoint find_cert (items : list (Result string Cert)) : Result string (option Cert) :=
  match items with
  | [] => Ok None
  | Ok cert :: rest => if bool_decide (fingerprint cert = EXPECTED_SIGNING_FINGERPRINT) then Ok (Some cert) else find_cert rest
  | Err error :: _ => Err error
  end.

Definition alpine_signing_cert : FM Cert :=
  response ← with_context "requesting Alpine release signing key" (send ALPINE_RELEASE_KEY_URL);
  response ← with_context "downloading Alpine release signing key" (lift (error_for_status ALPINE_RELEASE_KEY_URL response));
  signing_key ← with_context "reading Alpine release signing key" (lift (http_text response));
  certs ← with_context "parsing Alpine release signing keyring" (lift (parse_certs signing_key));
  found ← lift (find_cert certs);
  lift (ok_or "expected Alpine release signing cert not found" found).

Definition rootfs_tar_name (arch : string) : string := "alpine-minirootfs-" ^+ ALPINE_VERSION ^+ "-" ^+ arch ^+ ".tar.gz".

Definition sidecar (p : path) : path := with_extension p "sha256.local".

(** [Path::is_file] and [Path::metadata]: an error counts as no. *)
Definition regular_file (p : path) : FM bool :=
  r ← attempt (disk (fs_metadata p)); mret (match r with Ok (File _ _) => true | _ => false end).
Definition nonempty (p : path) : FM bool :=
  r ← attempt (disk (fs_metadata p)); mret (match r with Ok (File _ c) => bool_decide (0 < content_len c)%Z | Ok (Dir _) => true | Err _ => false end).

Definition verify_cached_download (p : path) : FM bool :=
  kept ← regular_file (sidecar p);
  if negb kept then nonempty p
  else
    expected ← with_context ("reading " ^+ display (sidecar p)) (disk (read_to_string (sidecar p)));
    data ← with_context ("reading " ^+ display p) (disk (fs_read p));
    mret (bool_decide (trim expected = hex_sha256 data)).

Definition download (url : string) (destination : path) : FM () :=
  disk (fs_create_dir_all (parent destination));;
  response ← with_context ("requesting " ^+ url) (send url);
  response ← with_context ("downloading " ^+ url) (lift (error_for_status url response));
  data ← with_context ("reading " ^+ url) (lift (http_bytes response));
  with_context ("writing " ^+ display destination) (disk (fs_write destination data));;
  disk (fs_write (sidecar destination) (as_bytes (hex_sha256 data))).

Definition fetch_to_file (url : string) (destination : path) (force_refresh : bool) : FM () :=
  present ← regular_file destination;
  cached ← (if present && negb force_refresh then verify_cached_download destination else mret false);
  if cached : bool then mret () else download url destination.

Definition fetch_rootfs (signing_cert : Cert) (arch : string) (destination : path) (tar_name : string) (force_refresh : bool) : FM () :=
  let url := BASE_URL ^+ "/releases/" ^+ arch ^+ "/" ^+ tar_name in
  let checksum_path := with_file_name destination (tar_name ^+ ".sha256") in
  let signature_path := with_file_name destination (tar_name ^+ ".asc") in
  fetch_to_file url destination force_refresh;;
  fetch_to_file (url ^+ ".sha256") checksum_path force_refresh;;
  fetch_to_file (url ^+ ".asc") signature_path force_refresh;;
  verify_sha256 destination checksum_path;;
  verify_detached_signature destination signature_path signing_cert.

Definition fetch_index (index_dir : path) (arch : string) (force_refresh : bool) (repo : string) : FM () :=
  let archive_path := index_dir ++ ["APKINDEX-" ^+ repo ^+ ".tar.gz"] in
  fetch_to_file (BASE_URL ^+ "/" ^+ repo ^+ "/" ^+ arch ^+ "/APKINDEX.tar.gz") archive_path force_refresh;;
  extract_member_from_tar_gz archive_path "APKINDEX" (index_dir ++ ["APKINDEX-" ^+ repo]).

Definition fetch_indexes (index_dir : path) (arch : string) (force_refresh : bool) : FM () :=
  for_each (fetch_index index_dir arch force_refresh) ["main"; "community"].

(** ** The files of [packages.rs] *)

Definition load_index (repo : string) (index_dir : path) (index : Packages * Providers) : FM (Packages * Providers) :=
  let index_path := index_dir ++ ["APKINDEX-" ^+ repo] in
  content ← with_context ("reading " ^+ display index_path) (disk (read_to_string index_path));
  mret (load_index_text repo content index).

Definition load_indexes (index_dir : path) : FM (Packages * Providers) :=
  index ← load_index "main" index_dir (∅, ∅);
  load_index "community" index_dir index.

Definition write_package_manifest (apk_dir : path) (resolved : list Package) : FM () :=
  disk (fs_write (apk_dir ++ ["manifest.txt"])
    (as_bytes (String.concat (String line_feed "") (pk_name <$> resolved) ^+ String line_feed ""))).

Definition download_package (apk_dir : path) (arch : string) (force_refresh : bool) (package : Package) : FM () :=
  fetch_to_file (BASE_URL ^+ "/" ^+ pk_repo package ^+ "/" ^+ arch ^+ "/" ^+ file_name package)
    (join_path apk_dir (file_name package)) force_refresh.

Definition download_packages (apk_dir : path) (arch : string) (resolved : list Package) (force_refresh : bool) : FM () :=
  disk (fs_create_dir_all apk_dir);;
  write_package_manifest apk_dir resolved;;
  for_each (download_package apk_dir arch force_refresh) resolved.
End fetch.

(** ** Names of sidecar files *)

Lemma file_stem_app base ext :
  base ≠ "" → all_chars (λ a, negb (Ascii.eqb a ".")) ext = true → file_stem (base ^+ "." ^+ ext) = base.
Proof.
  intros Hb He. unfold file_stem. rewrite !string_rev_append, string_app_assoc.
  change (string_rev "." ^+ string_rev base) with (String "." (string_rev base)).
  rewrite split_once_app by (by rewrite all_chars_rev). rewrite decide_False by (by apply string_rev_nonempty).
  apply string_rev_involutive.
Qed.

Lemma with_extension_snoc d name ext : with_extension (d ++ [name]) ext = d ++ [file_stem name ^+ "." ^+ ext].
Proof. unfold with_extension. by rewrite last_snoc, parent_app. Qed.

(** The sidecar of a file is another file. *)
Lemma sidecar_ne p : p ≠ [] → sidecar p ≠ p.
Proof.
  destruct p as [|name d _] using rev_ind; [done|]. intros _. unfold sidecar. rewrite with_extension_snoc.
  intros E%app_inv_head. injection E as E.
  assert (Hs : file_stem name = file_stem name ^+ "." ^+ "sha256").
  { rewrite <-E at 1. change ("." ^+ "sha256.local") with (("." ^+ "sha256") ^+ "." ^+ "local").
    rewrite <-string_app_assoc, file_stem_app; [done| |done]. by destruct (file_stem name). }
  apply (f_equal String.length) in Hs. rewrite string_length_app in Hs.
  change (String.length ("." ^+ "sha256")) with 7 in Hs. lia.
Qed.

(** The sidecars of the checksum and of the signature of a file are the same. *)
Lemma sidecar_shared d base : base ≠ "" → sidecar (d ++ [base ^+ ".sha256"]) = sidecar (d ++ [base ^+ ".asc"]).
Proof.
  intros Hb. unfold sidecar. rewrite !with_extension_snoc.
  change (base ^+ ".sha256") with (base ^+ "." ^+ "sha256"). change (base ^+ ".asc") with (base ^+ "." ^+ "asc").
  by rewrite !file_stem_app.
Qed.

(** ** What a run of the downloads does *)

Section outcomes.
Context `{plat : !Platform, ihost : !ImageHost}.

Local Abbreviation files s := (w_fs (fe_world s)).
Implicit Types s : Fetch.

Lemma disk_returned {A} (m : M IoError World A) s a s' :
  disk m s = (Ok a, s') → m (fe_world s) = (Ok a, fe_world s') ∧ fe_requests s' = fe_requests s.
Proof.
  unfold disk, zoom. destruct (map_err io_text m (fe_world s)) as [r w] eqn:E. intros [= -> <-]. by apply map_err_ok_inv in E.
Qed.
Lemma context_ok {A} c (m : FM A) s a s' : with_context c m s = (Ok a, s') → m s = (Ok a, s').
Proof. apply map_err_ok_inv. Qed.
Lemma ensure_ok b message s u s' : ensure b message s = (Ok u, s') → b = true ∧ s' = s.
Proof. unfold ensure. destruct b; [by intros [= _ <-]|done]. Qed.

(** Nothing but reading. *)
Definition reads_only (s s' : Fetch) : Prop := files s' = files s ∧ fe_requests s' = fe_requests s.
#[local] Instance reads_only_preorder : PreOrder reads_only.
Proof. split; [done|]. intros s1 s2 s3 [? ?] [? ?]. split; congruence. Qed.

Lemma disk_read_ok p s b s' :
  disk (fs_read p) s = (Ok b, s') → (∃ m c, files s !! p = Some (File m c) ∧ b = content_bytes c) ∧ reads_only s s'.
Proof. intros [Hr Hq]%disk_returned. apply read_ok in Hr as (m & c & ? & ? & ?). split; [eauto|done]. Qed.

Lemma read_to_string_ok p s t s' :
  disk (read_to_string p) s = (Ok t, s') →
  (∃ m c, files s !! p = Some (File m c) ∧ read_text (content_bytes c) = Ok t) ∧ reads_only s s'.
Proof.
  intros [Hr Hq]%disk_returned. unfold read_to_string in Hr. apply bind_ok_inv in Hr as (b & w1 & Hb & Hr).
  apply read_ok in Hb as (m & c & Hl & -> & Hfs). apply lift_ok_inv in Hr as [Ht Hw]. split; [eauto|].
  split; congruence.
Qed.

Lemma image_chunk_pos n : ∃ k, image_chunk n = S k.
Proof.
  exists (Z.to_nat (image_read_size n `mod` (64 * 1024))). unfold image_chunk.
  pose proof (Z.mod_pos_bound (image_read_size n) (64 * 1024) ltac:(lia)). lia.
Qed.

Lemma sha256_loop_ok fuel m c rest n acc w d w' :
  length rest ≤ fuel → sha256_loop fuel (File m c) rest n acc w = (Ok d, w') → d = sha256 (acc ++ rest) ∧ w_fs w' = w_fs w.
Proof.
  revert rest n acc w. induction fuel as [|fuel IH]; intros rest n acc w Hlen Hrun; cbn [sha256_loop] in Hrun;
    apply bind_ok_inv in Hrun as (b & w1 & [[= Eb Hfs] _]%io_op_ok & Hrun); subst b.
  - destruct rest; [|simpl in Hlen; lia]. rewrite take_nil in Hrun. injection Hrun as <- <-. by rewrite app_nil_r.
  - destruct rest as [|x rest]; [rewrite take_nil in Hrun; injection Hrun as <- <-; by rewrite app_nil_r|].
    destruct (image_chunk_pos n) as [k Hk]. rewrite Hk in Hrun. cbn [firstn] in Hrun. simpl in Hlen. apply IH in Hrun as [-> Hfs'].
    + split; [|congruence]. f_equal. rewrite <-app_assoc. f_equal. cbn [length drop app]. f_equal. apply take_drop_length.
    + cbn [length drop]. rewrite length_drop. lia.
Qed.

Lemma file_sha256_ok p s d s' :
  file_sha256 p s = (Ok d, s') → (∃ m c, files s !! p = Some (File m c) ∧ d = sha256 (content_bytes c)) ∧ reads_only s s'.
Proof.
  unfold file_sha256. intros (n & s1 & H1 & H2)%bind_ok_inv. apply context_ok, disk_returned in H1 as [[Hl Hfs]%metadata_ok Hq].
  apply disk_returned in H2 as [H2 Hq2]. destruct n as [m|m c].
  - cbn in H2. by apply bind_ok_inv in H2 as (b & w2 & [? _]%io_op_ok & _).
  - apply sha256_loop_ok in H2 as [-> Hfs2]; [|done]. split; [eauto|]. split; congruence.
Qed.

(** *** Verification *)

(** The checksum file names the payload and has its digest. *)
Definition checksum_names (fs : gmap path node) (checksum_path payload_path : path) (payload : bytes) : Prop :=
  ∃ m c hex name, fs !! checksum_path = Some (File m c) ∧ read_text (content_bytes c) = Ok (hex ^+ "  " ^+ name) ∧
    trim name = default "" (last payload_path) ∧ decode_hex (trim hex) = Ok (sha256 payload).

(** The library found a good signature of the payload by this certificate. *)
Definition signature_good (fs : gmap path node) (signature_path : path) (cert : Cert) (payload : bytes) : Prop :=
  ∃ m c results rest, fs !! signature_path = Some (File m c) ∧
    detached_layers [cert] (content_bytes c) payload = Ok (SignatureGroup results :: rest) ∧ true ∈ results.

Lemma verify_sha256_ok payload_path checksum_path s u s' :
  verify_sha256 payload_path checksum_path s = (Ok u, s') →
  (∃ m c, files s !! payload_path = Some (File m c) ∧ checksum_names (files s) checksum_path payload_path (content_bytes c)) ∧
  reads_only s s'.
Proof.
  unfold verify_sha256. intros (t & s1 & H1 & H2)%bind_ok_inv. apply context_ok, read_to_string_ok in H1 as [(m & c & Hc & Ht) Hr1].
  destruct (split_once_str "  " t) as [[hex name]|] eqn:Es; [|done]. apply split_once_str_Some in Es as ->.
  apply bind_ok_inv in H2 as ([] & s2 & [Hn%bool_decide_eq_true ->]%ensure_ok & H2).
  apply bind_ok_inv in H2 as (expected & s3 & [He <-]%lift_ok_inv & H2).
  apply bind_ok_inv in H2 as (actual & s4 & [(m' & c' & Hp & ->) Hr4]%file_sha256_ok & H2).
  apply ensure_ok in H2 as [->%bool_decide_eq_true ->]. rewrite (proj1 Hr1) in Hp.
  split; [|by etrans]. exists m', c'. split; [done|]. by exists m, c, hex, name.
Qed.

Lemma check_layers_ok structure u :
  check_layers structure = Ok u → ∃ results rest, structure = SignatureGroup results :: rest ∧ true ∈ results.
Proof.
  destruct structure as [|[results|] rest]; [done| |done]. cbn. destruct (existsb id results) eqn:E; [|done]. intros _.
  exists results, rest. split; [done|]. apply existsb_exists in E as ([] & Hin & [=]). by apply list_elem_of_In.
Qed.

Lemma verify_signature_ok payload_path signature_path cert s u s' :
  verify_detached_signature payload_path signature_path cert s = (Ok u, s') →
  fingerprint cert = EXPECTED_SIGNING_FINGERPRINT ∧
  (∃ m c, files s !! payload_path = Some (File m c) ∧ signature_good (files s) signature_path cert (content_bytes c)) ∧ reads_only s s'.
Proof.
  unfold verify_detached_signature. intros ([] & s1 & [Hf%bool_decide_eq_true ->]%ensure_ok & Hr)%bind_ok_inv.
  apply bind_ok_inv in Hr as (sig & s2 & H2 & Hr). apply context_ok, disk_read_ok in H2 as [(m & c & Hs & ->) Hr2].
  apply bind_ok_inv in Hr as ([] & s3 & H3 & Hr). apply context_ok, lift_ok_inv in H3 as [_ <-]. apply context_ok in Hr.
  apply bind_ok_inv in Hr as (payload & s4 & [(m' & c' & Hp & ->) Hr4]%disk_read_ok & Hr).
  apply bind_ok_inv in Hr as (structure & s5 & [Hd <-]%lift_ok_inv & Hr). apply lift_ok_inv in Hr as [Hc <-].
  apply check_layers_ok in Hc as (results & rest & -> & Hin). rewrite (proj1 Hr2) in Hp.
  split_and!; [done| |by etrans]. exists m', c'. split; [done|]. by exists m, c, results, rest.
Qed.

(** *** One file *)

Lemma attempt_returned {E F S A} (m : M E S A) (x : S) r (x' : S) : (attempt m : M F S _) x = (Ok r, x') → m x = (r, x').
Proof. unfold attempt. destruct (m x). by intros [= <- <-]. Qed.

Lemma disk_any {A} (m : M IoError World A) s r s' :
  disk m s = (r, s') → (m (fe_world s)).2 = fe_world s' ∧ fe_requests s' = fe_requests s.
Proof. unfold disk, zoom, map_err. destruct (m (fe_world s)) as [[a|e] w]; by intros [= <- <-]. Qed.

Lemma metadata_reads p w : w_fs (fs_metadata p w).2 = w_fs w.
Proof.
  unfold fs_metadata, io_op. destruct (w_faults w) as [|[f|] sched]; cbn; [|done|]; by destruct (w_fs w !! p).
Qed.

Lemma metadata_any p s r s' : disk (fs_metadata p) s = (r, s') → reads_only s s' ∧ (∀ n, r = Ok n → files s !! p = Some n).
Proof.
  intros Hr. split.
  - apply disk_any in Hr as [Hw Hq]. split; [|done]. by rewrite <-Hw, metadata_reads.
  - intros n ->. by apply disk_returned in Hr as [[? _]%metadata_ok _].
Qed.

Lemma regular_file_ok p s b s' :
  regular_file p s = (Ok b, s') → reads_only s s' ∧ (b = true → ∃ m c, files s !! p = Some (File m c)).
Proof.
  unfold regular_file. intros (r & s1 & [Hq Hn]%attempt_returned%metadata_any & Hr)%bind_ok_inv.
  apply ret_ok_inv in Hr as [<- <-]. split; [done|]. destruct r as [[|m c]|]; try done. intros _. exists m, c. by apply Hn.
Qed.

Lemma cached_reads p s b s' : verify_cached_download p s = (Ok b, s') → reads_only s s'.
Proof.
  unfold verify_cached_download. intros (kept & s1 & [Hr1 _]%regular_file_ok & Hr)%bind_ok_inv. etrans; [exact Hr1|].
  destruct kept; cbn [negb] in Hr.
  - apply bind_ok_inv in Hr as (t & s2 & H2 & Hr). apply context_ok, read_to_string_ok in H2 as [_ H2].
    apply bind_ok_inv in Hr as (d & s3 & H3 & Hr). apply context_ok, disk_read_ok in H3 as [_ H3].
    apply ret_ok_inv in Hr as [_ <-]. by etrans.
  - unfold nonempty in Hr. apply bind_ok_inv in Hr as (r & s2 & [Hq _]%attempt_returned%metadata_any & Hr).
    by apply ret_ok_inv in Hr as [_ <-].
Qed.

(** The file at [p] is the body of the response to the last request, which was
    for [url], and its sidecar has the digest. *)
Definition downloaded (url : string) (p : path) (s s' : Fetch) : Prop :=
  fe_requests s' = url :: fe_requests s ∧ ∃ r data m m',
    image_send (length (fe_requests s)) url = Ok r ∧ error_for_status url r = Ok r ∧ http_bytes r = Ok data ∧
    files s' = <[sidecar p := File m' (Text (as_bytes (hex_sha256 data)))]> (<[p := File m (Text data)]> (files s ∪ dir_chain (parent p))).

Lemma error_for_status_same url r r' : error_for_status url r = Ok r' → r' = r.
Proof. unfold error_for_status. destruct (_ && _); [done|by intros [= <-]]. Qed.

Lemma download_ok url p s u s' : download url p s = (Ok u, s') → downloaded url p s s'.
Proof.
  unfold download. intros ([] & s1 & [H1 Q1]%disk_returned & Hr)%bind_ok_inv. apply create_dir_all_ok in H1.
  apply bind_ok_inv in Hr as (r & s2 & H2 & Hr). apply context_ok in H2. injection H2 as H2 <-.
  apply bind_ok_inv in Hr as (r' & s3 & H3 & Hr). apply context_ok, lift_ok_inv in H3 as [H3 <-].
  pose proof (error_for_status_same _ _ _ H3) as ->.
  apply bind_ok_inv in Hr as (data & s4 & H4 & Hr). apply context_ok, lift_ok_inv in H4 as [H4 <-].
  apply bind_ok_inv in Hr as ([] & s5 & H5 & Hr). apply context_ok, disk_returned in H5 as [[m H5]%write_ok Q5].
  apply disk_returned in Hr as [[m' H6]%write_ok Q6]. cbn in H5, Q5.
  split; [by rewrite Q6, Q5, Q1|]. exists r, data, m, m'. rewrite H6, H5, H1. by rewrite Q1 in H2.
Qed.

Lemma fetch_to_file_ok url p force s u s' :
  fetch_to_file url p force s = (Ok u, s') →
  (force = false ∧ reads_only s s' ∧ (∃ m c, files s !! p = Some (File m c)) ∧
     ∃ s1, reads_only s s1 ∧ w_faults (fe_world s1) = tail (w_faults (fe_world s)) ∧ verify_cached_download p s1 = (Ok true, s')) ∨
  (∃ s1, reads_only s s1 ∧ downloaded url p s1 s').
Proof.
  unfold fetch_to_file. intros (present & s1 & H1 & Hr)%bind_ok_inv.
  assert (Ht : w_faults (fe_world s1) = tail (w_faults (fe_world s))).
  { unfold regular_file in H1. apply bind_ok_inv in H1 as (r & s2 & H2%attempt_returned%disk_any & H1).
    apply ret_ok_inv in H1 as [_ <-]. destruct H2 as [<- _]. unfold fs_metadata, io_op.
    destruct (w_faults (fe_world s)) as [|[f|] sched] eqn:E; [|done|]; by destruct (_ !! p). }
  apply regular_file_ok in H1 as [Q1 Hp].
  apply bind_ok_inv in Hr as (cached & s2 & H2 & Hr). destruct (present && negb force) eqn:E.
  - apply andb_true_iff in E as [-> Hf%negb_true_iff]. destruct cached.
    + left. apply ret_ok_inv in Hr as [_ <-]. split_and!; [done|etrans; [exact Q1|by eapply cached_reads]|by apply Hp|]. exists s1. done.
    + right. exists s2. split; [etrans; [exact Q1|by eapply cached_reads]|by eapply download_ok].
  - apply ret_ok_inv in H2 as [<- <-]. right. exists s1. split; [done|by eapply download_ok].
Qed.

(** *** The root file system *)

(** the root file system a build unpacks is the one Alpine signed: when
    [fetch_rootfs] succeeds, whether the files came from the network or from the
    cache, the file at the destination is one whose name and SHA-256 digest the
    checksum file has, and of which the OpenPGP library found a good signature by
    the certificate, whose fingerprint is the expected one. *)
Theorem rootfs_verified cert arch destination tar_name force s s' :
  fetch_rootfs cert arch destination tar_name force s = (Ok (), s') →
  fingerprint cert = EXPECTED_SIGNING_FINGERPRINT ∧
  ∃ m c, files s' !! destination = Some (File m c) ∧
    checksum_names (files s') (with_file_name destination (tar_name ^+ ".sha256")) destination (content_bytes c) ∧
    signature_good (files s') (with_file_name destination (tar_name ^+ ".asc")) cert (content_bytes c).
Proof.
  unfold fetch_rootfs. cbv zeta. intros Hr. do 3 apply bind_ok_inv in Hr as (? & ? & _ & Hr).
  apply bind_ok_inv in Hr as (? & s4 & [(m & c & Hp & Hc) Q4]%verify_sha256_ok & Hr).
  apply verify_signature_ok in Hr as (Hf & (m' & c' & Hp' & Hs) & Q5). split; [done|].
  rewrite (proj1 Q5), (proj1 Q4) in *. assert (c' = c) as -> by congruence. by exists m, c.
Qed.

(** The certificate has that fingerprint to begin with. *)
Lemma find_cert_ok items cert : find_cert items = Ok (Some cert) → fingerprint cert = EXPECTED_SIGNING_FINGERPRINT.
Proof.
  induction items as [|[c|e] items IH]; [done| |done]. cbn. case_bool_decide; [by intros [= <-]|done].
Qed.

Lemma signing_cert_ok s cert s' : alpine_signing_cert s = (Ok cert, s') → fingerprint cert = EXPECTED_SIGNING_FINGERPRINT.
Proof.
  unfold alpine_signing_cert. intros Hr. do 4 apply bind_ok_inv in Hr as (? & ? & _ & Hr).
  apply bind_ok_inv in Hr as (found & s5 & [Hf <-]%lift_ok_inv & Hr). apply lift_ok_inv in Hr as [Ho _].
  destruct found as [c|]; [|done]. cbn in Ho. injection Ho as ->. by eapply find_cert_ok.
Qed.

(** *** The cache *)

Definition calm (s : Fetch) : Prop := w_faults (fe_world s) = [].

Lemma io_op_calm {A} (act : gmap path node → Result IoError (A * gmap path node)) torn w :
  w_faults w = [] → w_faults (io_op act torn w).2 = [].
Proof. unfold io_op. intros ->. by destruct (act (w_fs w)) as [[]|]. Qed.

Lemma calm_disk {A} (m : M IoError World A) : keeps (preserves clean) m → keeps (preserves calm) (disk m).
Proof.
  intros Hm s Hs. unfold disk, zoom, map_err. specialize (Hm (fe_world s) Hs). by destruct (m (fe_world s)) as [[] w].
Qed.

Lemma calm_read_text p : keeps (preserves clean) (read_to_string p).
Proof. unfold read_to_string. keeps_tac. intros w Hw. by apply io_op_calm. Qed.

Lemma calm_fetch url p force : keeps (preserves calm) (fetch_to_file url p force).
Proof.
  assert (Hio : ∀ {A} (act : gmap path node → Result IoError (A * gmap path node)) torn, keeps (preserves calm) (disk (io_op act torn))).
  { intros A act torn. apply calm_disk. intros w Hw. by apply io_op_calm. }
  unfold fetch_to_file, verify_cached_download, nonempty, regular_file, download, with_context, send.
  keeps_tac; try apply Hio; try apply calm_disk, calm_read_text. by intros s Hs.
Qed.

Lemma calm_fetched url p force s r s' : calm s → fetch_to_file url p force s = (r, s') → calm s'.
Proof. intros Hs Hr. pose proof (calm_fetch url p force s Hs) as Hc. by rewrite Hr in Hc. Qed.

(** The file at [q] is a regular one. *)
Definition is_regular (fs : gmap path node) (q : path) : Prop := ∃ m c, fs !! q = Some (File m c).

Lemma downloaded_regular url p q s s' : downloaded url p s s' → is_regular (files s) q → is_regular (files s') q.
Proof.
  intros (_ & r & data & m & m' & _ & _ & _ & ->) (m0 & c0 & Hq). unfold is_regular.
  destruct (decide (q = sidecar p)) as [->|H1]; [rewrite lookup_insert_eq; eauto|rewrite lookup_insert_ne by done].
  destruct (decide (q = p)) as [->|H2]; [rewrite lookup_insert_eq; eauto|rewrite lookup_insert_ne by done].
  exists m0, c0. by apply lookup_union_Some_l.
Qed.

Lemma fetched_regular url p force q s u s' :
  fetch_to_file url p force s = (Ok u, s') → is_regular (files s) q → is_regular (files s') q.
Proof.
  intros [(_ & [E _] & _)|(s1 & [E _] & Hd)]%fetch_to_file_ok Hq; [by rewrite E|].
  eapply downloaded_regular; [exact Hd|]. by rewrite E.
Qed.

(** The sidecar of [p] has the digest of the file at [q]. *)
Definition vouches (fs : gmap path node) (p q : path) : Prop := ∃ m c t m' c',
  fs !! sidecar p = Some (File m c) ∧ read_text (content_bytes c) = Ok t ∧
  fs !! q = Some (File m' c') ∧ trim t = hex_sha256 (content_bytes c').

Lemma calm_metadata p s : calm s → ∃ s', disk (fs_metadata p) s =
  (match files s !! p with Some n => Ok n | None => Err (io_text ENOENT) end, s') ∧ calm s' ∧ reads_only s s'.
Proof.
  intros Hs. unfold disk, zoom, map_err, fs_metadata. rewrite io_op_clean by exact Hs. cbn.
  destruct (files s !! p); cbn; (eexists; split; [done|]); destruct s as [[] ?]; done.
Qed.

Lemma cached_vouches p s s' :
  calm s → is_regular (files s) (sidecar p) → verify_cached_download p s = (Ok true, s') → vouches (files s) p p.
Proof.
  intros Hs (m & c & Hc). unfold verify_cached_download, regular_file.
  destruct (calm_metadata (sidecar p) s Hs) as (s1 & E & Hs1 & Q1). rewrite Hc in E.
  rewrite (bind_ok _ _ s true s1); [|by rewrite (bind_ok _ _ _ _ _ (attempt_run _ _ _ _ E))]. cbn [negb].
  intros (t & s2 & H2 & Hr)%bind_ok_inv. apply context_ok, read_to_string_ok in H2 as [(m2 & c2 & Hc2 & Ht) Q2].
  apply bind_ok_inv in Hr as (d & s3 & H3 & Hr). apply context_ok, disk_read_ok in H3 as [(m3 & c3 & Hc3 & ->) _].
  apply ret_ok_inv in Hr as [Hd%bool_decide_eq_true _]. rewrite (proj1 Q1) in Hc2. rewrite (proj1 Q2), (proj1 Q1) in Hc3.
  exists m2, c2, t, m3, c3. done.
Qed.

(** Hexadecimal digits are ASCII, and so is their UTF-8. *)
Class ImageLaws : Prop := {
  read_hex b : read_text (as_bytes (hex_encode b)) = Ok (hex_encode b);
}.
Context `{laws : !ImageLaws}.

Lemma downloaded_vouches url p s s' : p ≠ [] → downloaded url p s s' → vouches (files s') p p.
Proof.
  intros Hp (_ & r & data & m & m' & _ & _ & _ & ->). pose proof (sidecar_ne p Hp) as Hne.
  exists m', (Text (as_bytes (hex_sha256 data))), (hex_sha256 data), m, (Text data). split_and!.
  - apply lookup_insert_eq.
  - apply read_hex.
  - rewrite lookup_insert_ne by done. apply lookup_insert_eq.
  - apply trim_graphic, hex_encode_graphic.
Qed.

(** After a file was fetched, its sidecar has its digest. *)
Lemma fetched_vouches url p force s u s' :
  calm s → p ≠ [] → is_regular (files s) (sidecar p) → fetch_to_file url p force s = (Ok u, s') → vouches (files s') p p.
Proof.
  intros Hs Hp Hr [(_ & [E _] & _ & s1 & [E1 _] & Ht & Hc)|(s1 & _ & Hd)]%fetch_to_file_ok; [|by eapply downloaded_vouches].
  rewrite E. rewrite <-E1 in Hr |- *. eapply cached_vouches; [|done|exact Hc]. unfold calm in *. by rewrite Ht, Hs.
Qed.

(** A file is taken from the cache only if its sidecar has its digest. *)
Lemma fetched_or_requested url p s u s' :
  calm s → is_regular (files s) (sidecar p) → fetch_to_file url p false s = (Ok u, s') →
  (reads_only s s' ∧ vouches (files s) p p) ∨ fe_requests s' = url :: fe_requests s.
Proof.
  intros Hs Hr [(_ & Q & _ & s1 & [E1 _] & Ht & Hc)|(s1 & [_ E] & Hd)]%fetch_to_file_ok.
  - left. split; [done|]. rewrite <-E1 in Hr |- *. eapply cached_vouches; [|done|exact Hc]. unfold calm in *. by rewrite Ht, Hs.
  - right. destruct Hd as [-> _]. by rewrite E.
Qed.

Lemma requests_grow url p force s u s' :
  fetch_to_file url p force s = (Ok u, s') → ∃ l, fe_requests s' = l ++ fe_requests s.
Proof.
  intros [(_ & [_ E] & _)|(s1 & [_ E] & [E' _])]%fetch_to_file_ok; [by exists []|]. exists [url]. by rewrite E', E.
Qed.

(** the signature of the root file system is never taken from the cache: it
    shares the name of its sidecar with the checksum file, so that once the
    sidecar exists every build asks for the signature again, however often it
    was downloaded before, unless the two files have the same digest. *)
Theorem signature_never_cached cert arch dir tar s s' :
  tar ≠ "" → calm s → is_regular (files s) (sidecar (dir ++ [tar ^+ ".sha256"])) →
  fetch_rootfs cert arch (dir ++ [tar]) tar false s = (Ok (), s') →
  (∃ l, fe_requests s' = l ++ fe_requests s ∧ (BASE_URL ^+ "/releases/" ^+ arch ^+ "/" ^+ tar) ^+ ".asc" ∈ l) ∨
  (∃ m c m' c', files s' !! (dir ++ [tar ^+ ".sha256"]) = Some (File m c) ∧ files s' !! (dir ++ [tar ^+ ".asc"]) = Some (File m' c') ∧
     hex_sha256 (content_bytes c) = hex_sha256 (content_bytes c')).
Proof.
  intros Hne Hs Hside. unfold fetch_rootfs, with_file_name. cbv zeta. rewrite parent_app.
  pose proof (sidecar_shared dir tar Hne) as Eside.
  set (checksum := dir ++ [tar ^+ ".sha256"]) in *. set (signature := dir ++ [tar ^+ ".asc"]) in *.
  intros (u1 & s1 & H1 & Hr)%bind_ok_inv. assert (C1 : calm s1) by by eapply calm_fetched.
  pose proof (fetched_regular _ _ _ _ _ _ _ H1 Hside) as R1. apply requests_grow in H1 as [l1 L1].
  apply bind_ok_inv in Hr as (u2 & s2 & H2 & Hr). assert (C2 : calm s2) by by eapply calm_fetched.
  pose proof (fetched_regular _ _ _ _ _ _ _ H2 R1) as R2.
  assert (V2 : vouches (files s2) checksum checksum) by (eapply fetched_vouches; [exact C1|by destruct dir|exact R1|exact H2]).
  apply requests_grow in H2 as [l2 L2]. apply bind_ok_inv in Hr as (u3 & s3 & H3 & Hr). rewrite Eside in R2.
  apply bind_ok_inv in Hr as (u4 & s4 & [_ Q4]%verify_sha256_ok & Hr). apply verify_signature_ok in Hr as (_ & _ & Q5).
  assert (E5 : files s' = files s3) by (rewrite (proj1 Q5); apply Q4).
  assert (L5 : fe_requests s' = fe_requests s3) by (rewrite (proj2 Q5); apply Q4).
  destruct (fetched_or_requested _ _ _ _ _ C2 R2 H3) as [[Q3 V3]|L3].
  - right. destruct V2 as (m & c & t & m1 & c1 & E & Et & F1 & T1), V3 as (m' & c' & t' & m2 & c2 & E' & Et' & F2 & T2).
    rewrite Eside in E. rewrite E5, (proj1 Q3). exists m1, c1, m2, c2. split_and!; [done|done|]. congruence.
  - left. rewrite L5, L3, L2, L1. exists ([(BASE_URL ^+ "/releases/" ^+ arch ^+ "/" ^+ tar) ^+ ".asc"] ++ l2 ++ l1). rewrite <-!app_assoc. split; [done|set_solver].
Qed.

(** *** A download that was cut off *)

#[local] Opaque file_mode.

(** Without a sidecar, whatever is in the cache is taken. *)
Lemma unvouched_kept url p s m c :
  calm s → files s !! p = Some (File m c) → (0 < content_len c)%Z → (∀ m' c', files s !! sidecar p ≠ Some (File m' c')) →
  ∃ s', fetch_to_file url p false s = (Ok (), s') ∧ reads_only s s'.
Proof.
  intros Hs Hp Hlen Hside. destruct (calm_metadata p s Hs) as (s1 & E1 & C1 & Q1). rewrite Hp in E1.
  destruct (calm_metadata (sidecar p) s1 C1) as (s2 & E2 & C2 & Q2). rewrite (proj1 Q1) in E2.
  destruct (calm_metadata p s2 C2) as (s3 & E3 & C3 & Q3). rewrite (proj1 Q2), (proj1 Q1), Hp in E3.
  exists s3. split; [|by etrans; [exact Q1|etrans]].
  unfold fetch_to_file, verify_cached_download, regular_file, nonempty.
  unfold mbind, M_bind, attempt, mret, M_ret. rewrite E1. cbn [andb negb]. rewrite E2.
  destruct (files s !! sidecar p) as [[m'|m' c']|]; [|by destruct (Hside m' c')|]; cbn [negb]; rewrite E3; by rewrite bool_decide_true by done.
Qed.

(** a download that fails half-way poisons the cache: when writing a new file
    stops after some bytes, the build fails, but the part that was written stays,
    has no sidecar, and the next build takes it for the whole file without asking
    the network.  For the root file system the checksum then fails; packages are
    not checked by anything. *)
Theorem torn_download_is_kept url dir name f n r data s :
  let p := dir ++ [name] in
  dir ≠ [] → dir_free (files s) dir → files s !! p = None → (∀ m' c', files s !! sidecar p ≠ Some (File m' c')) →
  w_faults (fe_world s) = [None; None; Some f] → fault_progress f = S (S n) →
  image_send (length (fe_requests s)) url = Ok r → error_for_status url r = Ok r → http_bytes r = Ok data → data ≠ [] →
  ∃ s1 s2, fetch_to_file url p false s = (Err (("writing " ^+ display p) ^+ ": " ^+ io_text (fault_error f)), s1) ∧
    (∃ m, files s1 !! p = Some (File m (Text (take (S n) data)))) ∧
    fetch_to_file url p false s1 = (Ok (), s2) ∧ reads_only s1 s2.
Proof.
  intros p Hd Hfree Hp Hside Hf Hn Hsend Hst Hdata Hne. destruct s as [[fs faults draws ticks] reqs]. cbn in *. subst faults.
  assert (Epar : parent p = dir) by apply parent_app. set (fs1 := fs ∪ dir_chain dir).
  assert (Hnotin : ∀ q, length q = S (length dir) → dir_chain dir !! q = None).
  { intros q Hq. apply eq_None_not_Some. rewrite dir_chain_lookup. intros [Hpre%prefix_length _]. lia. }
  assert (Hp1 : fs1 !! p = None).
  { apply lookup_union_None. split; [done|]. apply Hnotin. unfold p. rewrite length_app. cbn. lia. }
  set (fs2 := <[p := File file_mode (Text (take (S n) data))]> fs1).
  set (s1 := mkFetch (mkWorld fs2 [] draws ticks) (url :: reqs)).
  assert (Htorn : torn_write p file_mode data f fs1 = fs2).
  { assert (Hdir : parent_is_dir fs1 p = true).
    { destruct (chain_lookup_self fs dir Hd Hfree) as [m Hm]. fold fs1 in Hm. unfold parent_is_dir. rewrite Epar.
      revert Hm. generalize fs1. clear -Hd. intros g Hm. destruct dir; [done|]. by rewrite Hm. }
    unfold torn_write. rewrite Hn. unfold put_file. by rewrite Hdir, Hp1. }
  assert (Hrun : fetch_to_file url p false (mkFetch (mkWorld fs [None; None; Some f] draws ticks) reqs) =
    (Err (("writing " ^+ display p) ^+ ": " ^+ io_text (fault_error f)), s1)).
  { unfold fetch_to_file, regular_file, download. rewrite Epar.
    unfold mbind, M_bind, attempt, mret, M_ret, disk, zoom, map_err, with_context, fs_metadata, io_op, send, lift. cbn [fe_world w_faults w_fs tail fe_requests].
    rewrite Hp. cbn. unfold dir_free in Hfree. unfold fs_create_dir_all, io_op. cbn [w_faults w_fs]. rewrite Hfree. cbn.
    rewrite Hsend, Hst, Hdata. cbn. fold fs1. by rewrite Htorn. }
  destruct (unvouched_kept url p s1 file_mode (Text (take (S n) data))) as (s2 & H2 & Q2).
  - done.
  - apply lookup_insert_eq.
  - cbn. destruct data; [done|]. cbn. lia.
  - intros m' c'. cbn. unfold fs2. rewrite lookup_insert_ne by (apply not_eq_sym, sidecar_ne; by destruct dir).
    intros [E|[_ E]]%lookup_union_Some_raw; [by eapply Hside|].
    rewrite Hnotin in E; [done|]. unfold sidecar, p. rewrite with_extension_snoc, length_app. cbn. lia.
  - exists s1, s2. split; [exact Hrun|]. split; [exists file_mode; apply lookup_insert_eq|done].
Qed.
End outcomes.
