(* ===== verification/StageFs.v ===== *)
(** * StageFs: the file system an image is built on

    The builder of images unpacks archives into a directory of its own and works
    on what is in them with [std::fs], which follows symbolic links wherever they
    lead.  The world of [FileSystem] has no links, so a build keeps a layer over
    it: every node inside the build directory, and every link, is in the layer;
    other nodes are in the world.  Paths resolve through both as in [GuestFs].
    Names are taken to be UTF-8, as everywhere. *)

From S2P Require Import Prelude RustStd Text Paths FileSystem PrivateFs FsTree Manifest GuestFs Config HostConfig Update Images Packages ImageFetch.

Inductive snode :=
  | SDir (mode : Z)
  | SFile (mode : Z) (b : bytes)
  | SLink (target : string)
  | SOther (mode : Z).

Abbreviation staging := (gmap path snode).

Record Build := mkBuild {
  bd_fetch : Fetch;
  bd_root : path;
  bd_work : staging;
}.

Definition kind_of (n : snode) : gnode :=
  match n with SDir _ => GDir | SFile _ _ | SOther _ => GFile [] | SLink t => GLink t end.
Definition host_kind (n : node) : gnode := match n with Dir _ => GDir | File _ _ => GFile [] end.

Definition host_files (s : Build) : gmap path node := w_fs (fe_world (bd_fetch s)).

(** The names a path is resolved with, and the node at a resolved path. *)
Definition view (s : Build) : gfs := (kind_of <$> bd_work s) ∪ (host_kind <$> host_files s).
Definition of_host (n : node) : snode := match n with Dir m => SDir m | File m c => SFile m (content_bytes c) end.
Definition stage_at (s : Build) (q : path) : option snode :=
  match bd_work s !! q with
  | Some n => Some n
  | None => match q with [] => Some (SDir 493) | _ => of_host <$> host_files s !! q end
  end.

(** Path resolution, one lookup a component ([GuestFs.walk]). *)
Definition kind_at (s : Build) (q : path) : option gnode :=
  match bd_work s !! q with Some n => Some (kind_of n) | None => host_kind <$> host_files s !! q end.

Fixpoint resolve_from (links : nat) (s : Build) (follow : bool) : path → list string → Result IoError path :=
  fix go (cur : path) (rest : list string) : Result IoError path :=
    match rest with
    | [] => Ok cur
    | n :: rest' =>
        if decide (n = ".") then go cur rest'
        else if decide (n = "..") then go (parent cur) rest'
        else match kind_at s (cur ++ [n]) with
        | None => match rest' with [] => Ok (cur ++ [n]) | _ => Err ENOENT end
        | Some GDir => go (cur ++ [n]) rest'
        | Some (GFile _) => match rest' with [] => Ok (cur ++ [n]) | _ => Err ENOTDIR end
        | Some (GLink target) =>
            if decide (rest' = [] ∧ follow = false) then Ok (cur ++ [n])
            else match links with
            | O => Err ELOOP
            | S links' =>
                resolve_from links' s follow (if starts_with "/" target then [] else cur) (link_names target ++ rest')
            end
        end
    end.
Definition resolve (s : Build) (follow : bool) (p : path) : Result IoError path := resolve_from MAXSYMLINKS s follow [] p.

(** More than the nodes there are. *)
Definition stage_bound (s : Build) : nat := S (size (bd_work s) + size (host_files s)).

Definition set_work (work : staging) (s : Build) : Build := mkBuild (bd_fetch s) (bd_root s) work.
Definition set_host (fs : gmap path node) (s : Build) : Build :=
  mkBuild (mkFetch (set_fs fs (fe_world (bd_fetch s))) (fe_requests (bd_fetch s))) (bd_root s) (bd_work s).

Definition put (q : path) (n : snode) (s : Build) : Build :=
  if decide (bd_root s `prefix_of` q) then set_work (<[q := n]> (bd_work s)) s
  else match n with
  | SDir m => set_host (<[q := Dir m]> (host_files s)) s
  | SFile m b => set_host (<[q := File m (FileSystem.Text b)]> (host_files s)) s
  | SLink _ | SOther _ => set_work (<[q := n]> (bd_work s)) s
  end.

(** One operation, with the schedule of failures of the world. *)
Definition use_fault (s : Build) : Build :=
  let w := fe_world (bd_fetch s) in
  mkBuild (mkFetch (mkWorld (w_fs w) (tail (w_faults w)) (w_draws w) (w_ticks w)) (fe_requests (bd_fetch s))) (bd_root s) (bd_work s).

Definition stage_op {A} (act : Build → Result IoError (A * Build)) (torn : Fault → Build → Build) : M IoError Build A := λ s,
  match w_faults (fe_world (bd_fetch s)) with
  | Some f :: _ => (Err (fault_error f), use_fault (torn f s))
  | _ => match act s with
         | Ok (a, s') => (Ok a, use_fault s')
         | Err e => (Err e, use_fault s)
         end
  end.
Definition whole (_ : Fault) (s : Build) : Build := s.

Definition stage_find (s : Build) (follow : bool) (p : path) : Result IoError (path * snode) :=
  q ← resolve s follow p; n ← ok_or ENOENT (stage_at s q); Ok (q, n).

Lemma kind_view s q : kind_at s q = view s !! q.
Proof.
  unfold kind_at, view. rewrite lookup_union, !lookup_fmap. destruct (bd_work s !! q); simpl; [by rewrite union_Some_l|].
  by rewrite (left_id_L None union).
Qed.

Lemma resolve_walk links s follow cur rest : resolve_from links s follow cur rest = GuestFs.walk links (view s) follow cur rest.
Proof.
  revert cur rest. induction links as [|links IHl]; intros cur rest; revert cur; (induction rest as [|n rest IH]; intros cur; [done|]);
    rewrite walk_cons, <-kind_view; cbn [resolve_from]; rewrite ?IH; repeat case_match; auto.
Qed.

Lemma resolve_namei s follow p : resolve s follow p = namei (view s) follow p.
Proof. apply resolve_walk. Qed.

Lemma view_size s : size (view s) < stage_bound s.
Proof.
  unfold stage_bound, view. rewrite <-(size_dom (_ ∪ _)), dom_union_L, !dom_fmap_L, size_union_alt.
  rewrite !size_dom. pose proof (subseteq_size (dom (host_files s) ∖ dom (bd_work s)) (dom (host_files s)) ltac:(set_solver)) as Hs.
  rewrite size_dom in Hs. lia.
Qed.

Section ops.
Context `{!Platform}.

(** [fs::metadata] and [fs::symlink_metadata] *)
Definition s_metadata (follow : bool) (p : path) : M IoError Build snode :=
  stage_op (λ s, '(_, n) ← stage_find s follow p; Ok (n, s)) whole.

(** [Path::exists] and [Path::is_file]: an error counts as no. *)
Definition s_exists {E} (p : path) : M E Build bool := r ← attempt (s_metadata true p); mret (is_ok r).
Definition s_is_file {E} (p : path) : M E Build bool :=
  r ← attempt (s_metadata true p); mret (match r with Ok (SFile _ _) => true | _ => false end).
Definition s_is_dir {E} (p : path) : M E Build bool :=
  r ← attempt (s_metadata true p); mret (match r with Ok (SDir _) => true | _ => false end).

(** A file opened for writing, truncated: an existing one keeps its mode, a
    special file takes the data. *)
Definition write_at (q : path) (mode : Z) (b : bytes) (s : Build) : Result IoError Build :=
  match stage_at s q with
  | Some (SDir _) => Err EISDIR
  | Some (SFile m _) => Ok (put q (SFile m b) s)
  | Some (SLink _) => Err ELOOP
  | Some (SOther _) => Ok s
  | None => Ok (put q (SFile mode b) s)
  end.

Definition torn_at (p : path) (mode : Z) (b : bytes) (f : Fault) (s : Build) : Build :=
  match fault_progress f with
  | O => s
  | S n => match (q ← resolve s true p; write_at q mode (take n b) s) with Ok s' => s' | Err _ => s end
  end.

Definition s_write (p : path) (b : bytes) : M IoError Build () :=
  stage_op (λ s, q ← resolve s true p; s' ← write_at q file_mode b s; Ok ((), s')) (torn_at p file_mode b).

(** [fs::copy]: contents and permission bits. *)
Definition not_regular : IoError :=
  os_error KOther "the source path is neither a regular file nor a symlink to a regular file".
Definition copy_at (src dst : path) (cut : bytes → bytes) (s : Build) : Result IoError Build :=
  '(_, n) ← stage_find s true src;
  match n with
  | SFile m b =>
      q ← resolve s true dst;
      s' ← write_at q m (cut b) s;
      match stage_at s' q with Some (SFile _ b') => Ok (put q (SFile m b') s') | _ => Ok s' end
  | _ => Err not_regular
  end.
Definition s_copy (src dst : path) : M IoError Build () :=
  stage_op (λ s, s' ← copy_at src dst id s; Ok ((), s'))
    (λ f s, match fault_progress f with
            | O => s
            | S n => match copy_at src dst (take n) s with Ok s' => s' | Err _ => s end
            end).

Definition s_set_mode (p : path) (mode : Z) : M IoError Build () :=
  stage_op (λ s, '(q, n) ← stage_find s true p;
    Ok ((), match n with
            | SDir _ => put q (SDir mode) s
            | SFile _ b => put q (SFile mode b) s
            | SOther _ => put q (SOther mode) s
            | SLink _ => s
            end)) whole.

Definition s_symlink (target : string) (p : path) : M IoError Build () :=
  stage_op (λ s, q ← resolve s false p;
    match stage_at s q with Some _ => Err EEXIST | None => Ok ((), put q (SLink target) s) end) whole.

Definition s_mkdir (p : path) : M IoError Build () :=
  stage_op (λ s, q ← resolve s false p;
    match stage_at s q with Some _ => Err EEXIST | None => Ok ((), put q (SDir dir_mode) s) end) whole.

(** [fs::create_dir_all], as in [GuestFs]. *)
Fixpoint s_create_rev (r : list string) : M IoError Build () :=
  let p := rev r in
  r1 ← attempt (s_mkdir p);
  match r1 with
  | Ok _ => mret ()
  | Err e =>
      let retry := (r2 ← attempt (s_mkdir p);
        match r2 with
        | Ok _ => mret ()
        | Err e' => d ← s_is_dir p; if d : bool then mret () else throw e'
        end) in
      if decide (io_kind e = KNotFound) then
        match r with
        | [] => throw (os_error KOther "failed to create whole tree")
        | _ :: r' => s_create_rev r';; retry
        end
      else d ← s_is_dir p; if d : bool then mret () else throw e
  end.
Definition s_create_dir_all (p : path) : M IoError Build () := s_create_rev (rev p).

Definition without (q : path) (keep : path → bool) (s : Build) : Build :=
  set_work (filter (λ kv, q `prefix_of` kv.1 → keep kv.1 = true) (bd_work s))
    (set_host (filter (λ kv, q `prefix_of` kv.1 → keep kv.1 = true) (host_files s)) s).

Definition s_remove_dir_all (p : path) : M IoError Build () :=
  stage_op (λ s, '(q, n) ← stage_find s false p;
    match n with
    | SDir _ | SLink _ => Ok ((), without q (λ _, false) s)
    | _ => Err ENOTDIR
    end)
    (λ f s, match stage_find s false p with
            | Ok (q, SDir _) => without q (survives_to f q) s
            | _ => s
            end).

Definition s_children (s : Build) (q : path) : list string :=
  dir_order (sort_by_key id string_le (remove_dups (child_names (bd_work s) q ++ child_names (host_files s) q))).
Definition s_read_dir (p : path) : M IoError Build (list string) :=
  stage_op (λ s, '(q, n) ← stage_find s true p;
    match n with SDir _ => Ok (s_children s q, s) | _ => Err ENOTDIR end) whole.

Definition s_read_link (p : path) : M IoError Build string :=
  stage_op (λ s, '(_, n) ← stage_find s false p; match n with SLink t => Ok (t, s) | _ => Err EINVAL end) whole.

(** One more entry of a directory can fail to be read. *)
Definition s_next_entry : M IoError Build () := stage_op (λ s, Ok ((), s)) whole.

(** [File::open], and all of what it reads. *)
Definition s_open (p : path) : M IoError Build snode := s_metadata true p.
Definition s_read_all (n : snode) : M IoError Build bytes :=
  stage_op (λ s, match n with SFile _ b => Ok (b, s) | SOther _ => Ok ([], s) | _ => Err EISDIR end) whole.
End ops.
