(* ===== verification/Ext4Image.v ===== *)
(** * Ext4Image: [src/images/ext4.rs]

    Copies a directory of the build into a fresh ext4 image.  The ext4 library is
    an interface; what it is asked to do to the mounted file system is followed
    call by call. *)

From Stdlib Require Import SpecFloat.
From S2P Require Import Prelude RustStd Text Paths FileSystem PrivateFs FsTree Manifest GuestFs Config HostConfig Update Images Packages ImageFetch StageFs.

(** The part of [ext4_lwext4] the builder uses: devices are the contents of a
    host file, [Ext4Fs] is a mounted file system. *)
Class Ext4Lib := {
  Ext4Fs : Type;
  ext4_mkfs : string → M string content ();            (** [mkfs] with 4096-byte blocks and a label *)
  ext4_mount : content → Result string Ext4Fs;
  ext4_mkdir : string → Z → M string Ext4Fs ();
  ext4_set_permissions : string → Z → M string Ext4Fs ();
  ext4_symlink : string → string → M string Ext4Fs ();   (** target, path *)
  ext4_open_write : string → M string Ext4Fs ();         (** [OpenFlags::CREATE | OpenFlags::WRITE] *)
  ext4_write : string → bytes → M string Ext4Fs ();      (** into the opened file *)
  ext4_read : string → Ext4Fs → Result string bytes;
  ext4_umount : Ext4Fs → Result string content;
  ext4_dropped : Ext4Fs → content;                       (** the device of a file system that was not unmounted *)
}.

Local Abbreviation BM := (M string Build).

Definition staged {A} (m : M IoError Build A) : BM A := map_err io_text m.
Definition context {A S} (c : string) (m : M string S A) : M string S A := map_err (λ e, c ^+ ": " ^+ e) m.
Definition on_host {A} (m : M IoError World A) : BM A :=
  zoom bd_fetch (λ f s, mkBuild f (bd_root s) (bd_work s)) (disk m).

(** ** [f64] arithmetic of [estimate_image_size] *)

Definition f64_of (n : Z) : spec_float := binary_normalize 53 1024 n 0 false.
Definition f64_1_4 : spec_float := S754_finite false 6305039478318694 (-52).
Definition f64_mib : spec_float := S754_finite false 4503599627370496 (-32).
(** [ceil], then [as u64], which saturates. *)
Definition ceil_u64 (x : spec_float) : Z :=
  match x with
  | S754_finite false m e =>
      Z.min (2 ^ 64 - 1) (if (0 <=? e)%Z then Zpos m * 2 ^ e else - (- Zpos m / 2 ^ (- e)))
  | S754_infinity false => 2 ^ 64 - 1
  | _ => 0
  end%Z.
Definition padded_mib (total : Z) : Z := ceil_u64 (SFdiv 53 1024 (SFmul 53 1024 (f64_of total) f64_1_4) f64_mib).

Definition ext4_path (relative : list string) : string :=
  "/" ^+ map_chars (λ a, if Ascii.eqb a "\" then "/"%char else a) (join_names relative).

Section ext4.
Context `{!Platform, !ImageHost, !Ext4Lib}.

(** ** The size *)

(** The entries of one directory: all are listed, directories are visited later. *)
Fixpoint visit (p : path) (names : list string) (stack entries : list path) : BM (list path * list path) :=
  match names with
  | [] => mret (stack, entries)
  | n :: rest =>
      staged s_next_entry;;
      let child := p ++ [n] in
      metadata ← staged (s_metadata false child);
      visit p rest (match metadata with SDir _ => child :: stack | _ => stack end) (entries ++ [child])
  end.

Fixpoint walkdir_loop (fuel : nat) (stack entries : list path) : BM (list path) :=
  match stack with
  | [] => mret entries
  | p :: stack' =>
      match fuel with
      | O => throw "directory tree deeper than the file system"
      | S fuel' =>
          names ← context ("reading " ^+ display p) (staged (s_read_dir p));
          '(stack'', entries') ← visit p names stack' entries;
          walkdir_loop fuel' stack'' entries'
      end
  end.

(** Every directory is visited once. *)
Definition walkdir (root : path) : BM (list path) := λ s, walkdir_loop (stage_bound s) [root] [] s.

Fixpoint entry_sizes (entries : list path) (total : Z) : BM Z :=
  match entries with
  | [] => mret total
  | entry :: rest =>
      metadata ← staged (s_metadata false entry);
      match metadata with
      | SLink _ =>
          target ← staged (s_read_link entry);
          entry_sizes rest ((total + Z.of_nat (String.length target)) mod 2 ^ 64)%Z
      | SFile _ b => entry_sizes rest ((total + Z.of_nat (length b)) mod 2 ^ 64)%Z
      | _ => entry_sizes rest total
      end
  end.

Definition estimate_image_size (rootfs_dir : path) : BM Z :=
  entries ← walkdir rootfs_dir;
  total ← entry_sizes entries 0%Z;
  mret (Z.max 128 ((padded_mib total + 32) mod 2 ^ 64))%Z.

(** ** The copy *)

Local Abbreviation EM := (M string (Build * Ext4Fs)).
Definition in_stage {A} (m : BM A) : EM A := zoom fst (λ s p, (s, p.2)) m.
Definition on_image {A} (m : M string Ext4Fs A) : EM A := zoom snd (λ e p, (p.1, e)) m.

Definition copy_symlink (host_path : path) (image_path : string) : EM () :=
  target ← context ("reading symlink " ^+ display host_path) (in_stage (staged (s_read_link host_path)));
  context ("creating symlink " ^+ image_path ^+ " -> " ^+ target) (on_image (ext4_symlink target image_path)).

Definition copy_file (host_path : path) (image_path : string) (mode : Z) : EM () :=
  input ← context ("opening " ^+ display host_path) (in_stage (staged (s_open host_path)));
  context ("creating file " ^+ image_path ^+ " in ext4 image") (on_image (ext4_open_write image_path));;
  context ("copying " ^+ display host_path ^+ " into ext4 image")
    (data ← in_stage (staged (s_read_all input)); on_image (ext4_write image_path data));;
  context ("setting file permissions on " ^+ image_path) (on_image (ext4_set_permissions image_path mode)).

Definition mode_of (n : snode) : Z := match n with SDir m | SFile m _ | SOther m => m | SLink _ => 511 end.

(** [copy_directory_entry], given the copy of a directory's entries. *)
Definition copy_directory_entry (copy_entries : path → list string → EM ()) (host_path : path) (relative_path : list string) : EM () :=
  metadata ← context ("reading " ^+ display host_path) (in_stage (staged (s_metadata false host_path)));
  let image_path := ext4_path relative_path in
  let mode := Z.land (mode_of metadata) 4095 in
  match metadata with
  | SDir _ =>
      context ("creating directory " ^+ image_path ^+ " in ext4 image") (on_image (ext4_mkdir image_path mode));;
      context ("setting directory permissions on " ^+ image_path) (on_image (ext4_set_permissions image_path mode));;
      copy_entries host_path relative_path
  | SLink _ => copy_symlink host_path image_path
  | SFile _ _ => copy_file host_path image_path mode
  | SOther _ => throw ("unsupported rootfs entry type: " ^+ display host_path)
  end.

Fixpoint copy_directory_entries (fuel : nat) (source_dir : path) (relative_dir : list string) : EM () :=
  match fuel with
  | O => throw "directory tree deeper than the file system"
  | S fuel' =>
      children ← context ("reading " ^+ display source_dir) (in_stage (staged (s_read_dir source_dir)));
      context ("iterating " ^+ display source_dir) (in_stage (staged s_next_entry));;
      for_each (λ n, copy_directory_entry (copy_directory_entries fuel') (source_dir ++ [n]) (relative_dir ++ [n]))
        (sort_by_key id string_le children)
  end.

Definition populate_ext4_from_dir (rootfs_dir : path) : EM () := λ s,
  (metadata ← context ("reading " ^+ display rootfs_dir) (in_stage (staged (s_metadata true rootfs_dir)));
   context "setting ext4 root permissions" (on_image (ext4_set_permissions "/" (Z.land (mode_of metadata) 4095)));;
   copy_directory_entries (stage_bound s.1) rootfs_dir []) s.

(** ** The image *)

(** The device: a host file of that size, whose contents the library rewrites. *)
Definition device_create (p : path) (bytes : Z) : M IoError World () := fs_file_create p;; fs_set_len p bytes.
Definition device_open (p : path) : M IoError World content :=
  io_op (λ fs, c ← read_node fs p; Ok (c, fs)) atomic.
Definition device_put (p : path) (c : content) : BM () :=
  modify (λ s, match host_files s !! p with Some (File m _) => set_host (<[p := File m c]> (host_files s)) s | _ => s end).

(** [mkfs] on the device, whatever it leaves. *)
Definition format_device (label : string) (p : path) : BM () := λ s,
  match host_files s !! p with
  | Some (File m c) => let '(r, c') := ext4_mkfs label c in (r, (device_put p c' s).2)
  | _ => (Ok (), s)
  end.

(** The work on a mounted file system, and what its device holds when it ends. *)
Definition with_ext4 (p : path) (e : Ext4Fs) (m : EM ()) : BM () := λ s,
  match m (s, e) with
  | (Ok _, (s', e')) =>
      match ext4_umount e' with
      | Ok c => device_put p c s'
      | Err error => (Err ("unmounting ext4 image: " ^+ error), (device_put p (ext4_dropped e') s').2)
      end
  | (Err error, (s', e')) => (Err error, (device_put p (ext4_dropped e') s').2)
  end.

Definition build_ext4_image (rootfs_dir image_path : path) (min_image_mib : Z) : BM () :=
  on_host (fs_create_dir_all (parent image_path));;
  estimate ← estimate_image_size rootfs_dir;
  let size_mib := Z.max min_image_mib estimate in
  context ("creating ext4 image " ^+ display image_path)
    (on_host (device_create image_path ((size_mib * 1024 * 1024) mod 2 ^ 64)%Z));;
  context "formatting ext4 image" (format_device "sagens-image" image_path);;
  device ← context ("opening ext4 image " ^+ display image_path) (on_host (device_open image_path));
  ext4 ← context "mounting ext4 image" (lift (ext4_mount device));
  with_ext4 image_path ext4 (populate_ext4_from_dir rootfs_dir).
End ext4.

(** ** What the library promises

    The tree of a mounted file system, by absolute paths; a fresh one has its
    root and what [mkfs] puts there. *)

Inductive enode :=
  | EDir (mode : Z)
  | EFile (mode : Z) (b : bytes)
  | ELink (target : string).

Definition with_emode (m : Z) (n : enode) : enode :=
  match n with EDir _ => EDir m | EFile _ b => EFile m b | ELink t => ELink t end.

Class Ext4Laws `{!Ext4Lib} := {
  ext4_tree : Ext4Fs → gmap string enode;
  ext4_initial : gmap string enode;
  ext4_fresh label c c' e : ext4_mkfs label c = (Ok (), c') → ext4_mount c' = Ok e → ext4_tree e = ext4_initial;
  ext4_initial_dirs p n : ext4_initial !! p = Some n → ∃ m, n = EDir m;
  ext4_mkdir_ok p m e e' :
    ext4_mkdir p m e = (Ok (), e') → ext4_tree e !! p = None ∧ ext4_tree e' = <[p := EDir m]> (ext4_tree e);
  ext4_set_permissions_ok p m e e' :
    ext4_set_permissions p m e = (Ok (), e') →
    ∃ n, ext4_tree e !! p = Some n ∧ ext4_tree e' = <[p := with_emode m n]> (ext4_tree e);
  ext4_symlink_ok t p e e' :
    ext4_symlink t p e = (Ok (), e') → ext4_tree e !! p = None ∧ ext4_tree e' = <[p := ELink t]> (ext4_tree e);
  ext4_open_write_ok p e e' :
    ext4_open_write p e = (Ok (), e') →
    ∃ m b, ext4_tree e' = <[p := EFile m b]> (ext4_tree e) ∧
      match ext4_tree e !! p with Some n => n = EFile m b | None => b = [] end;
  ext4_write_ok p d m b e e' :
    ext4_tree e !! p = Some (EFile m b) → ext4_write p d e = (Ok (), e') →
    ext4_tree e' = <[p := EFile m (d ++ drop (length d) b)]> (ext4_tree e);
  ext4_umount_ok e c : ext4_umount e = Ok c → ∃ e', ext4_mount c = Ok e' ∧ ext4_tree e' = ext4_tree e;
}.

(** ** Runs of the stage's operations *)

Definition same_stage (s s' : Build) : Prop :=
  bd_work s' = bd_work s ∧ host_files s' = host_files s ∧ bd_root s' = bd_root s.

#[global] Instance same_stage_preorder : PreOrder same_stage.
Proof. split; [done|]. intros s1 s2 s3 (? & ? & ?) (? & ? & ?). split_and!; congruence. Qed.

Lemma same_view s s' : same_stage s s' → view s' = view s.
Proof. intros (H1 & H2 & _). unfold view. by rewrite H1, H2. Qed.
Lemma same_at s s' q : same_stage s s' → stage_at s' q = stage_at s q.
Proof. intros (H1 & H2 & _). unfold stage_at. by rewrite H1, H2. Qed.
Lemma same_find s s' follow p : same_stage s s' → stage_find s' follow p = stage_find s follow p.
Proof. intros Hs. unfold stage_find. rewrite !resolve_namei, (same_view _ _ Hs). destruct (namei _ _ _); simpl; [|done]. by rewrite (same_at _ _ _ Hs). Qed.

Lemma same_children `{!Platform} s s' q : same_stage s s' → s_children s' q = s_children s q.
Proof. intros (H1 & H2 & _). unfold s_children. by rewrite H1, H2. Qed.

Lemma use_fault_same s : same_stage s (use_fault s).
Proof. done. Qed.

Lemma stage_op_ok {A} (act : Build → Result IoError (A * Build)) torn s a s' :
  stage_op act torn s = (Ok a, s') → ∃ s1, act s = Ok (a, s1) ∧ s' = use_fault s1.
Proof.
  unfold stage_op. destruct (w_faults _) as [|[f|] l]; [|done|];
    (destruct (act s) as [[b s1]|e]; [|done]); intros [= <- <-]; by exists s1.
Qed.

Lemma s_metadata_ok follow p s n s' :
  s_metadata follow p s = (Ok n, s') → ∃ q, stage_find s follow p = Ok (q, n) ∧ same_stage s s'.
Proof.
  intros Hrun. apply stage_op_ok in Hrun as (s1 & Hact & ->).
  destruct (stage_find s follow p) as [[q n']|e]; simplify_eq/=. by exists q.
Qed.

Lemma s_read_link_ok p s t s' :
  s_read_link p s = (Ok t, s') → ∃ q, stage_find s false p = Ok (q, SLink t) ∧ same_stage s s'.
Proof.
  intros Hrun. apply stage_op_ok in Hrun as (s1 & Hact & ->).
  destruct (stage_find s false p) as [[q [| |t'|]]|e]; simplify_eq/=. by exists q.
Qed.

Lemma s_read_dir_ok `{!Platform} p s names s' :
  s_read_dir p s = (Ok names, s') → ∃ q m, stage_find s true p = Ok (q, SDir m) ∧ names = s_children s q ∧ same_stage s s'.
Proof.
  intros Hrun. apply stage_op_ok in Hrun as (s1 & Hact & ->).
  destruct (stage_find s true p) as [[q [m| | |]]|e]; simplify_eq/=. by exists q, m.
Qed.

Lemma s_read_all_ok n s b s' :
  s_read_all n s = (Ok b, s') → (∃ m, n = SFile m b) ∨ (∃ m, n = SOther m ∧ b = []).
Proof.
  intros Hrun. apply stage_op_ok in Hrun as (s1 & Hact & ->). destruct n; simplify_eq/=; eauto.
Qed.

Lemma s_read_all_same n s b s' : s_read_all n s = (Ok b, s') → same_stage s s'.
Proof. intros Hrun. apply stage_op_ok in Hrun as (s1 & Hact & ->). by destruct n; simplify_eq/=. Qed.

Lemma s_next_entry_same s u s' : s_next_entry s = (Ok u, s') → same_stage s s'.
Proof. intros Hrun. apply stage_op_ok in Hrun as (s1 & Hact & ->). by simplify_eq/=. Qed.

(** ** The names of a staged tree *)

Lemma view_at s q : q ≠ [] → view s !! q = kind_of <$> stage_at s q.
Proof.
  intros Hq. unfold view, stage_at. rewrite lookup_union, !lookup_fmap.
  destruct (bd_work s !! q) as [n|]; simpl; [by rewrite union_Some_l|].
  rewrite (left_id_L None union). destruct q; [done|]. by destruct (host_files s !! _) as [[]|].
Qed.

(** A directory reached through directories, with a tree below it. *)
Record staged_tree (s : Build) (root : path) : Prop := {
  st_root : root ≠ [];
  st_names : Forall plain_name root;
  st_above r : r `prefix_of` root → r ≠ [] → ∃ m, stage_at s r = Some (SDir m);
  st_below k n : root `prefix_of` k → k ≠ root → stage_at s k = Some n →
    Forall plain_name k ∧ ∃ m, stage_at s (parent k) = Some (SDir m);
}.

Lemma staged_above s root k n r :
  staged_tree s root → root `prefix_of` k → stage_at s k = Some n → r `prefix_of` k → r ≠ [] → r ≠ k → ∃ m, stage_at s r = Some (SDir m).
Proof.
  intros Ht. revert n. induction k as [|x k IH] using rev_ind; intros n Hroot Hk Hr Hne Hrk.
  { by apply prefix_nil_inv in Hr. }
  destruct (decide (root = k ++ [x])) as [->|Hx]; [by eapply st_above|].
  apply parent_take_le in Hr; [|done]. rewrite parent_app in Hr.
  destruct (st_below _ _ Ht _ _ Hroot (not_eq_sym Hx) Hk) as (_ & m & Hp). rewrite parent_app in Hp.
  destruct (decide (r = k)) as [->|]; [by exists m|]. eapply IH; [|exact Hp|done..].
  apply parent_take_le in Hroot; [|done]. by rewrite parent_app in Hroot.
Qed.

Lemma staged_names s root k n : staged_tree s root → root `prefix_of` k → stage_at s k = Some n → Forall plain_name k.
Proof. intros Ht Hp Hk. destruct (decide (k = root)) as [->|Hne]; [by eapply st_names|by eapply st_below]. Qed.

Lemma stage_find_tree s root k n follow :
  staged_tree s root → root `prefix_of` k → stage_at s k = Some n → (follow = true → ∀ t, n ≠ SLink t) → stage_find s follow k = Ok (k, n).
Proof.
  intros Ht Hroot Hk Hf. unfold stage_find. rewrite resolve_namei. unfold namei.
  rewrite walk_arrives; simpl.
  - by rewrite Hk.
  - split; [by eapply staged_names|]. simpl. intros r t Hr Hr0 Hl. rewrite view_at in Hl by done. destruct (decide (r = k)) as [->|Hne].
    + split; [done|]. destruct follow; [|done]. rewrite Hk in Hl. destruct n; simplify_eq/=. by destruct (Hf eq_refl t).
    + destruct (staged_above s root k n r) as [m Hm]; [done..|]. by rewrite Hm in Hl.
  - intros r Hr Hr0 Hrk. destruct (staged_above s root k n r) as [m Hm]; [done..|]. by rewrite view_at, Hm by done.
Qed.

Lemma s_children_elem `{!Platform, !PlatformLaws} s q n : n ∈ s_children s q ↔ is_Some (view s !! (q ++ [n])).
Proof.
  unfold s_children. rewrite dir_order_perm, sort_by_key_elem, elem_of_remove_dups, elem_of_app, !child_names_elem, <-kind_view.
  unfold kind_at. destruct (bd_work s !! _), (host_files s !! _); simpl; split; try (intros; eauto; fail); intros [? [=]] || intros [[? [=]]|[? [=]]].
Qed.

Lemma sorted_children `{!Platform, !PlatformLaws} s q : NoDup (sort_by_key id string_le (s_children s q)).
Proof. rewrite sort_by_key_perm. unfold s_children. rewrite dir_order_perm, sort_by_key_perm. apply NoDup_remove_dups. Qed.

(** ** The copy is exact *)

(** What the image holds for a node. *)
Definition image_of (n : snode) : option enode :=
  match n with
  | SDir m => Some (EDir (Z.land m 4095))
  | SFile m b => Some (EFile (Z.land m 4095) b)
  | SLink t => Some (ELink t)
  | SOther _ => None
  end.

(** Names the image keeps apart. *)
Definition no_backslash (name : string) : Prop := all_chars (λ a, negb (Ascii.eqb a "\")) name = true.

Lemma map_chars_id f s : all_chars (λ a, Ascii.eqb (f a) a) s = true → map_chars f s = s.
Proof.
  induction s as [|a s IH]; simpl; [done|]. intros [Ha%Ascii.eqb_eq Hs]%andb_prop. by rewrite Ha, IH.
Qed.

Lemma ext4_path_plain names : Forall no_backslash names → ext4_path names = "/" ^+ join_names names.
Proof.
  intros Hn. unfold ext4_path. f_equal. apply map_chars_id.
  assert (Hall : all_chars (λ a, negb (Ascii.eqb a "\")) (join_names names) = true).
  { induction Hn as [|n names Hn Hns IH]; [done|]. destruct names as [|m names]; [exact Hn|].
    change (join_names (n :: m :: names)) with (n ^+ "/" ^+ join_names (m :: names)).
    rewrite !all_chars_app. simpl. rewrite Hn. exact IH. }
  revert Hall. apply all_chars_impl. intros a Ha. destruct (Ascii.eqb a "\"); [done|]. apply Ascii.eqb_refl.
Qed.

Lemma ext4_path_inj l k :
  l ≠ [] → k ≠ [] → Forall plain_name l → Forall plain_name k → Forall no_backslash l → Forall no_backslash k →
  ext4_path l = ext4_path k → l = k.
Proof.
  intros ?????? E. rewrite !ext4_path_plain in E by done. injection E as E. by apply join_names_inj.
Qed.

Lemma context_returned {A S} c (m : M string S A) s a s' : context c m s = (Ok a, s') → m s = (Ok a, s').
Proof. apply map_err_ok_inv. Qed.
Lemma in_stage_ok `{!Ext4Lib} {A} (m : M IoError Build A) s e a s' e' :
  in_stage (staged m) (s, e) = (Ok a, (s', e')) → m s = (Ok a, s') ∧ e' = e.
Proof. unfold in_stage, staged, zoom, map_err. simpl. destruct (m s) as [[b|x] s1]; by intros [= -> -> ->]. Qed.
Lemma on_image_ok `{!Ext4Lib} {A} (m : M string Ext4Fs A) s e a s' e' :
  on_image m (s, e) = (Ok a, (s', e')) → m e = (Ok a, e') ∧ s' = s.
Proof. unfold on_image, zoom. simpl. destruct (m e) as [r e1]. by intros [= -> -> ->]. Qed.

Section exact.
Context `{plat : !Platform, plaws : !PlatformLaws, elib : !Ext4Lib, elaws : !Ext4Laws}.
Context (s : Build) (root : path).
Context (Htree : staged_tree s root).
Context (Hslash : ∀ q n, root `prefix_of` q → stage_at s q = Some n → Forall no_backslash (drop (length root) q)).

Definition ipath (q : path) : string := ext4_path (drop (length root) q).

(** A node of the tree below the root. *)
Definition inner (q : path) : Prop := root `prefix_of` q ∧ q ≠ root ∧ is_Some (stage_at s q).

(** From [e] to [e'] the nodes in [P] were copied, and nothing else changed. *)
Definition covers (P : path → Prop) (e e' : Ext4Fs) : Prop :=
  (∀ q n, P q → inner q → stage_at s q = Some n → ∃ i, image_of n = Some i ∧ ext4_tree e' !! ipath q = Some i) ∧
  (∀ p, (∀ q, P q → inner q → p ≠ ipath q) → ext4_tree e' !! p = ext4_tree e !! p).

Lemma inner_plain q : inner q → drop (length root) q ≠ [] ∧ Forall plain_name (drop (length root) q) ∧ Forall no_backslash (drop (length root) q).
Proof using Htree Hslash.
  intros ([l ->] & Hne & [n Hn]). pose proof (Hslash _ n (prefix_app_r _ _ _ (reflexivity root)) Hn) as Hb.
  rewrite drop_app_length in *. assert (l ≠ []) as Hl by (intros ->; by rewrite app_nil_r in Hne). split_and!; [done| |done].
  apply (staged_names s root) in Hn as [_ ?]%Forall_app; [done..|by apply prefix_app_r].
Qed.

Lemma ipath_inj q q' : inner q → inner q' → ipath q = ipath q' → q = q'.
Proof using Htree Hslash.
  intros Hq Hq' E. destruct (inner_plain _ Hq) as (H1 & H2 & H3), (inner_plain _ Hq') as (H1' & H2' & H3').
  apply ext4_path_inj in E; [|done..]. destruct Hq as ([l ->] & _), Hq' as ([l' ->] & _). rewrite !drop_app_length in E. by subst.
Qed.

Lemma covers_none (P : path → Prop) e : (∀ q, P q → ¬ inner q) → covers P e e.
Proof. intros HP. split; [intros q n Hq Hi; by destruct (HP q)|done]. Qed.

Lemma covers_impl (P Q : path → Prop) e e' : (∀ q, inner q → P q ↔ Q q) → covers P e e' → covers Q e e'.
Proof.
  intros HPQ [H1 H2]. split; [intros q n Hq Hi; apply H1; [by apply HPQ|done]|].
  intros p Hp. apply H2. intros q Hq Hi. apply Hp; [by apply HPQ|done].
Qed.

Lemma covers_trans (P Q : path → Prop) e1 e2 e3 :
  (∀ q, P q → Q q → False) → covers P e1 e2 → covers Q e2 e3 → covers (λ q, P q ∨ Q q) e1 e3.
Proof using Htree Hslash.
  intros Hdis [H1 H2] [H3 H4]. split.
  - intros q n [Hq|Hq] Hi Hn; [|by apply H3]. destruct (H1 q n Hq Hi Hn) as (i & Hi1 & Hi2). exists i. split; [done|].
    rewrite H4; [done|]. intros q' Hq' Hi' E. apply ipath_inj in E; [|done..]. subst q'. by apply (Hdis q).
  - intros p Hp. rewrite H4; [apply H2|]; intros q Hq; apply Hp; auto.
Qed.

(** One node, whose path got its image. *)
Lemma covers_one q n i e e' :
  inner q → stage_at s q = Some n → image_of n = Some i → ext4_tree e' = <[ipath q := i]> (ext4_tree e) → covers (λ q', q' = q) e e'.
Proof.
  intros Hq Hn Hi He. split.
  - intros q' n' -> _ Hn'. simplify_eq. exists i. split; [done|]. by rewrite He, lookup_insert_eq.
  - intros p Hp. rewrite He, lookup_insert_ne; [done|]. intros <-. by apply (Hp q).
Qed.

Lemma inner_child d k n : root `prefix_of` d → stage_at s (d ++ [k]) = Some n → inner (d ++ [k]).
Proof.
  intros [l ->] Hn. split_and!; [rewrite <- (assoc_L (++)); by apply prefix_app_r| |by exists n].
  intros E. apply (f_equal length) in E. rewrite !length_app in E. simpl in E. lia.
Qed.

(** Nothing is below a node that is no directory. *)
Lemma leaf_below q n q' : inner q → stage_at s q = Some n → (∀ m, n ≠ SDir m) → inner q' → q `prefix_of` q' → q' = q.
Proof using Htree.
  intros (Hpq & Hneq & _) Hn Hd (Hp' & _ & [n' Hn']) Hp. destruct (decide (q' = q)) as [|Hne]; [done|]. exfalso.
  destruct (staged_above s root q' n' q) as [m Hm]; [done..| |by apply not_eq_sym|].
  - intros ->. by apply prefix_nil_inv in Hpq.
  - rewrite Hn in Hm. by destruct (Hd m); injection Hm as ->.
Qed.

Lemma stage_find_inner q n follow s1 :
  same_stage s s1 → inner q → stage_at s q = Some n → (follow = true → ∀ t, n ≠ SLink t) → stage_find s1 follow q = Ok (q, n).
Proof using Htree.
  intros Hs Hq Hn Hf. rewrite (same_find _ _ _ _ Hs). eapply stage_find_tree; [done|apply Hq|done..].
Qed.

Lemma copy_symlink_ok q t s1 e s2 e2 :
  same_stage s s1 → inner q → stage_at s q = Some (SLink t) →
  copy_symlink q (ipath q) (s1, e) = (Ok (), (s2, e2)) → same_stage s s2 ∧ covers (λ q', q' = q) e e2.
Proof using Htree.
  intros Hs Hq Hn Hrun. unfold copy_symlink in Hrun. apply bind_ok_inv in Hrun as (t' & [s' e'] & H1 & H2).
  apply context_returned, in_stage_ok in H1 as [(q1 & Hfind & Hs1)%s_read_link_ok ->].
  rewrite (stage_find_inner q (SLink t)) in Hfind by done. injection Hfind as <- <-.
  apply context_returned, on_image_ok in H2 as [(_ & He)%ext4_symlink_ok ->].
  split; [by etrans|]. by eapply covers_one.
Qed.

Lemma copy_file_ok q m b s1 e s2 e2 :
  same_stage s s1 → inner q → stage_at s q = Some (SFile m b) → (∀ m' b', ext4_tree e !! ipath q ≠ Some (EFile m' b')) →
  copy_file q (ipath q) (Z.land m 4095) (s1, e) = (Ok (), (s2, e2)) → same_stage s s2 ∧ covers (λ q', q' = q) e e2.
Proof using Htree.
  intros Hs Hq Hn Habsent Hrun. unfold copy_file in Hrun. apply bind_ok_inv in Hrun as (input & [s' e'] & H1 & Hrun).
  apply context_returned, in_stage_ok in H1 as [(q1 & Hfind & Hs1)%s_metadata_ok ->].
  rewrite (stage_find_inner q (SFile m b)) in Hfind by done. injection Hfind as <- <-.
  apply bind_ok_inv in Hrun as (u1 & [s3 e3] & H2 & Hrun). apply context_returned, on_image_ok in H2 as [H2 ->]. destruct u1.
  apply ext4_open_write_ok in H2 as (m0 & b0 & He3 & Hold).
  destruct (ext4_tree e !! ipath q) as [x|]; [subst x; by destruct (Habsent m0 b0)|subst b0].
  apply bind_ok_inv in Hrun as (u2 & [s4 e4] & H3 & Hrun). apply context_returned, bind_ok_inv in H3 as (data & [s5 e5] & H3 & H4).
  apply in_stage_ok in H3 as [H3 ->]. pose proof (s_read_all_same _ _ _ _ H3) as Hs5.
  apply s_read_all_ok in H3 as [[m1 [= -> ->]]|(m1 & ? & _)]; [|done].
  apply on_image_ok in H4 as [H4 ->]. destruct u2.
  apply (ext4_write_ok _ _ m0 []) in H4; [|by rewrite He3, lookup_insert_eq]. rewrite drop_nil, app_nil_r in H4.
  apply context_returned, on_image_ok in Hrun as [Hrun ->].
  apply ext4_set_permissions_ok in Hrun as (n & Hn2 & He2).
  rewrite H4, lookup_insert_eq in Hn2. injection Hn2 as <-. simpl in He2.
  split; [by do 2 (etrans; [eassumption|])|]. eapply covers_one; [done..|].
  by rewrite He2, H4, He3, !insert_insert_eq.
Qed.

(** The nodes of [P] have no file in the image yet. *)
Definition unmade (P : path → Prop) (e : Ext4Fs) : Prop :=
  ∀ q m b, P q → inner q → ext4_tree e !! ipath q ≠ Some (EFile m b).

Lemma unmade_covers (P Q : path → Prop) e e' : (∀ q, P q → Q q → False) → covers P e e' → unmade Q e → unmade Q e'.
Proof using Htree Hslash.
  intros Hdis [_ Hc] HQ q m b Hq Hi. rewrite Hc; [by apply HQ|].
  intros q' Hq' Hi' E. apply ipath_inj in E; [|done..]. subst q'. by apply (Hdis q).
Qed.

Lemma unmade_impl (P Q : path → Prop) e : (∀ q, Q q → P q) → unmade P e → unmade Q e.
Proof. intros HPQ HP q m b Hq. apply HP, HPQ, Hq. Qed.

Definition entries_copied (copy : path → list string → M string (Build * Ext4Fs) ()) : Prop := ∀ d m s1 e s2 e2,
  same_stage s s1 → root `prefix_of` d → d ≠ [] → stage_at s d = Some (SDir m) → unmade (λ q, d `prefix_of` q ∧ q ≠ d) e →
  copy d (drop (length root) d) (s1, e) = (Ok (), (s2, e2)) →
  same_stage s s2 ∧ covers (λ q, d `prefix_of` q ∧ q ≠ d) e e2.

Lemma copy_directory_entry_ok copy q n s1 e s2 e2 :
  entries_copied copy → same_stage s s1 → inner q → stage_at s q = Some n → unmade (prefix q) e →
  copy_directory_entry copy q (drop (length root) q) (s1, e) = (Ok (), (s2, e2)) →
  same_stage s s2 ∧ covers (prefix q) e e2.
Proof using Htree Hslash.
  intros Hcopy Hs Hq Hn Hun Hrun. unfold copy_directory_entry in Hrun.
  apply bind_ok_inv in Hrun as (n' & [s3 e3] & H1 & Hrun). apply context_returned, in_stage_ok in H1 as [(q1 & Hfind & Hs3)%s_metadata_ok ->].
  rewrite (stage_find_inner q n) in Hfind by done. injection Hfind as <- <-.
  assert (Hs13 : same_stage s s3) by by etrans.
  assert (Hleaf : (∀ m, n ≠ SDir m) → covers (λ q', q' = q) e e2 → covers (prefix q) e e2).
  { intros Hd. apply covers_impl. intros q' Hq'. split; [by intros ->|]. intros Hp. by eapply leaf_below. }
  destruct n as [m|m b|t|m]; simpl mode_of in Hrun.
  - apply bind_ok_inv in Hrun as ([] & [s4 e4] & H2 & Hrun). apply context_returned, on_image_ok in H2 as [(_ & He4)%ext4_mkdir_ok ->].
    apply bind_ok_inv in Hrun as ([] & [s5 e5] & H3 & Hrun).
    apply context_returned, on_image_ok in H3 as [(x & Hx & He5)%ext4_set_permissions_ok ->].
    rewrite He4, lookup_insert_eq in Hx. injection Hx as <-. simpl in He5. rewrite He4, insert_insert_eq in He5.
    assert (Hone : covers (λ q', q' = q) e e5) by by eapply covers_one.
    destruct (Hcopy q m s3 e5 s2 e2) as [Hs2 Hrest]; [done|apply Hq| |done| |exact Hrun|].
    + intros ->. destruct Hq as (Hp & Hne & _). by apply prefix_nil_inv in Hp.
    + eapply unmade_covers; [|exact Hone|]; [naive_solver|]. eapply unmade_impl; [|exact Hun]. naive_solver.
    + split; [done|]. eapply covers_impl; [|eapply covers_trans; [|exact Hone|exact Hrest]]; [|naive_solver].
      intros q' _. split; [intros [->|[? ?]]; done|]. intros Hp. destruct (decide (q' = q)); auto.
  - destruct (copy_file_ok q m b s3 e s2 e2) as [Hs2 Hc]; [done..| |exact Hrun|]; [intros m' b'; by apply Hun|].
    split; [done|]. by apply Hleaf.
  - destruct (copy_symlink_ok q t s3 e s2 e2) as [Hs2 Hc]; [done..|exact Hrun|]. split; [done|]. by apply Hleaf.
  - discriminate Hrun.
Qed.

Lemma drop_root_snoc d k : root `prefix_of` d → drop (length root) d ++ [k] = drop (length root) (d ++ [k]).
Proof. intros [l ->]. by rewrite <-(assoc_L (++)), !drop_app_length. Qed.

Lemma siblings_apart d k k' (q : path) : (d ++ [k]) `prefix_of` q → (d ++ [k']) `prefix_of` q → k = k'.
Proof.
  intros [l Hl] [l' Hl']. rewrite Hl, <-!(assoc_L (++)) in Hl'. apply app_inv_head in Hl'. by injection Hl' as ->.
Qed.

Lemma copy_each_ok copy d ks s1 e s2 e2 :
  entries_copied copy → root `prefix_of` d → NoDup ks → (∀ k, k ∈ ks → is_Some (stage_at s (d ++ [k]))) →
  same_stage s s1 → unmade (λ q, ∃ k, k ∈ ks ∧ (d ++ [k]) `prefix_of` q) e →
  for_each (λ k, copy_directory_entry copy (d ++ [k]) (drop (length root) d ++ [k])) ks (s1, e) = (Ok (), (s2, e2)) →
  same_stage s s2 ∧ covers (λ q, ∃ k, k ∈ ks ∧ (d ++ [k]) `prefix_of` q) e e2.
Proof using Htree Hslash.
  intros Hcopy Hd. revert s1 e. induction ks as [|k ks IH]; intros s1 e Hnd Hin Hs Hun Hrun; cbn [for_each] in Hrun.
  { injection Hrun as <- <-. split; [done|]. apply covers_none. intros q (k & Hk & _). by apply elem_of_nil in Hk. }
  apply NoDup_cons in Hnd as [Hk Hnd]. apply bind_ok_inv in Hrun as ([] & [s3 e3] & H1 & Hrun).
  rewrite drop_root_snoc in H1 by done. destruct (Hin k) as [n Hn]; [left|].
  destruct (copy_directory_entry_ok copy (d ++ [k]) n s1 e s3 e3) as [Hs3 Hc]; [done..| |done| |exact H1|].
  { by eapply inner_child. }
  { eapply unmade_impl; [|exact Hun]. intros q Hq. exists k. split; [left|done]. }
  assert (Hapart : ∀ q, (d ++ [k]) `prefix_of` q → (∃ k', k' ∈ ks ∧ (d ++ [k']) `prefix_of` q) → False).
  { intros q Hq (k' & Hk' & Hq'). by rewrite (siblings_apart d k k' q) in Hk by done. }
  destruct (IH s3 e3) as [Hs2 Hc2]; [done|intros; apply Hin; by right|done| |exact Hrun|].
  { eapply unmade_covers; [exact Hapart|exact Hc|]. eapply unmade_impl; [|exact Hun].
    intros q (k' & Hk' & Hq'). exists k'. split; [by right|done]. }
  split; [done|]. eapply covers_impl; [|eapply covers_trans; [exact Hapart|exact Hc|exact Hc2]].
  intros q _. split.
  - intros [Hq|(k' & ? & ?)]; [exists k; split; [left|done]|exists k'; split; [by right|done]].
  - intros (k' & [->|Hk']%elem_of_cons & Hq); [by left|right; eauto].
Qed.

(** A node strictly below a directory is at or below one of its entries. *)
Lemma below_entry d q : inner q → d `prefix_of` q ∧ q ≠ d ↔ ∃ k, k ∈ sort_by_key id string_le (s_children s d) ∧ (d ++ [k]) `prefix_of` q.
Proof using Htree plaws.
  intros (Hroot & _ & [n Hn]). split.
  - intros [[l ->] Hne]. destruct l as [|k l]; [by rewrite app_nil_r in Hne|]. exists k.
    change (k :: l) with ([k] ++ l) in *. rewrite (assoc_L (++)) in *.
    split; [|by apply prefix_app_r]. rewrite sort_by_key_elem, s_children_elem.
    rewrite view_at by (by destruct d).
    destruct (decide (l = [])) as [->|Hl]; [rewrite app_nil_r in Hn; rewrite Hn; by eexists|].
    destruct (staged_above s root ((d ++ [k]) ++ l) n (d ++ [k])) as [m Hm]; [done..|by apply prefix_app_r|by destruct d| |by rewrite Hm; eexists].
    intros E. apply (f_equal length) in E. rewrite (length_app _ l) in E. destruct l; [done|]. simpl in E. lia.
  - intros (k & _ & Hp). split; [by etrans; [apply prefix_app_r|exact Hp]|]. intros ->.
    apply prefix_length in Hp. rewrite length_app in Hp. simpl in Hp. lia.
Qed.

Lemma copy_directory_entries_ok fuel : entries_copied (copy_directory_entries fuel).
Proof using Htree Hslash plaws.
  induction fuel as [|fuel IH]; intros d m s1 e s2 e2 Hs Hd Hd0 Hn Hun Hrun; [done|]. cbn [copy_directory_entries] in Hrun.
  apply bind_ok_inv in Hrun as (names & [s3 e3] & H1 & Hrun).
  apply context_returned, in_stage_ok in H1 as [(q1 & m1 & Hfind & Hnames & Hs3)%s_read_dir_ok ->].
  rewrite (same_find s s1), (stage_find_tree s root d (SDir m)) in Hfind by done. injection Hfind as <- <-.
  assert (Hch : names = s_children s d) by (by rewrite Hnames, (same_children s s1)).
  clear Hnames. subst names.
  apply bind_ok_inv in Hrun as ([] & [s4 e4] & H2 & Hrun). apply context_returned, in_stage_ok in H2 as [Hs4%s_next_entry_same ->].
  apply copy_each_ok in Hrun as [Hs2 Hc].
  - split; [done|]. eapply covers_impl; [|exact Hc]. intros q Hq. symmetry. by apply below_entry.
  - exact IH.
  - done.
  - apply sorted_children.
  - intros k. rewrite sort_by_key_elem, s_children_elem, view_at by (by destruct d). intros [x Hx].
    destruct (stage_at s (d ++ [k])); [by eexists|done].
  - by do 2 (etrans; [eassumption|]).
  - intros q x y Hq Hi. apply Hun; [|done]. by apply below_entry.
Qed.

(** *** Fuel *)

(** Copying changes nothing that is staged. *)
Definition unstaged (p p' : Build * Ext4Fs) : Prop := same_stage p.1 p'.1.
#[local] Instance unstaged_preorder : PreOrder unstaged.
Proof. split; [done|]. intros x y z Hxy Hyz. by unfold unstaged; etrans. Qed.

Lemma keeps_image {A} (m : M string Ext4Fs A) : keeps unstaged (on_image m).
Proof. by eapply (keeps_zoom _ (λ _ _, True)). Qed.

Lemma keeps_reading {A} (act : Build → Result IoError (A * Build)) :
  (∀ st a st', act st = Ok (a, st') → st' = st) → keeps unstaged (in_stage (staged (stage_op act whole))).
Proof.
  intros Hact. eapply keeps_zoom; [|apply keeps_map_err; intros st]; [intros p st Hst; exact Hst|].
  unfold stage_op. destruct (w_faults _) as [|[f|] l]; [|done|];
    (destruct (act st) as [[a st']|] eqn:Ea; simpl; [apply Hact in Ea as ->|]; done).
Qed.

Lemma keeps_metadata_read follow p : keeps unstaged (in_stage (staged (s_metadata follow p))).
Proof. apply keeps_reading. intros st a st'. destruct (stage_find st follow p) as [[q n]|]; simpl; intros; by simplify_eq. Qed.

Lemma copy_entry_keeps copy p rel :
  (∀ d r, keeps unstaged (copy d r)) → keeps unstaged (copy_directory_entry copy p rel).
Proof.
  intros Hcopy. unfold copy_directory_entry, context. keeps_step; [apply keeps_map_err, keeps_metadata_read|].
  destruct a as [m|m b|t|m].
  - do 2 (keeps_step; [apply keeps_map_err, keeps_image|]). apply Hcopy.
  - unfold copy_file, context. keeps_step; [apply keeps_map_err, keeps_metadata_read|].
    keeps_step; [apply keeps_map_err, keeps_image|].
    keeps_step; [|apply keeps_map_err, keeps_image]. apply keeps_map_err. keeps_step; [|apply keeps_image].
    apply keeps_reading. intros st x st'. by destruct a; intros; simplify_eq.
  - unfold copy_symlink, context. keeps_step; [|apply keeps_map_err, keeps_image]. apply keeps_map_err, keeps_reading.
    intros st x st'. by destruct (stage_find st false _) as [[q []]|]; simpl; intros; simplify_eq.
  - keeps_step.
Qed.

Lemma copy_keeps fuel d rel : keeps unstaged (copy_directory_entries fuel d rel).
Proof.
  revert d rel. induction fuel as [|fuel IH]; intros d rel; cbn [copy_directory_entries]; [keeps_step|]. unfold context.
  keeps_step.
  { apply keeps_map_err, keeps_reading. intros st x st'. by destruct (stage_find st true d) as [[q []]|]; simpl; intros; simplify_eq. }
  keeps_step. { apply keeps_map_err, keeps_reading. by intros st x st' [= _ <-]. }
  apply keeps_for_each; [typeclasses eauto|]. intros k _. by apply copy_entry_keeps.
Qed.

Lemma populate_keeps dir : keeps unstaged (populate_ext4_from_dir dir).
Proof.
  intros p. unfold populate_ext4_from_dir, context. generalize (stage_bound p.1). intros fuel. revert p.
  match goal with |- ∀ p, unstaged p (?m p).2 => change (keeps unstaged m) end.
  keeps_step; [apply keeps_map_err, keeps_metadata_read|]. keeps_step; [apply keeps_map_err, keeps_image|]. apply copy_keeps.
Qed.

Lemma copy_fuel f1 f2 d m rel s1 e :
  same_stage s s1 → root `prefix_of` d → stage_at s d = Some (SDir m) →
  length (below (view s) d) < f1 → length (below (view s) d) < f2 →
  copy_directory_entries f1 d rel (s1, e) = copy_directory_entries f2 d rel (s1, e).
Proof using Htree plaws.
  revert f2 d m rel s1 e. induction f1 as [|f1 IH]; intros [|f2] d m rel s1 e Hs Hd Hm H1 H2; try lia.
  cbn [copy_directory_entries]. apply bind_ext; [done|]. intros names [s2 e2] Hrun.
  apply context_returned, in_stage_ok in Hrun as [(q & m1 & Hfind & -> & Hs2)%s_read_dir_ok ->].
  rewrite (same_find s s1), (stage_find_tree s root d (SDir m)) in Hfind by done. injection Hfind as <- <-.
  apply bind_ext; [done|]. intros [] [s3 e3] Hrun. apply context_returned, in_stage_ok in Hrun as [Hs3%s_next_entry_same ->].
  assert (Hs13 : same_stage s s3) by (by do 2 (etrans; [eassumption|])).
  apply (for_each_ext (λ p, same_stage s p.1)); [done| |].
  - intros k [s4 e4] Hk Hs4. unfold copy_directory_entry. apply bind_ext; [done|]. intros n [s5 e5] Hrun.
    apply context_returned, in_stage_ok in Hrun as [(q & Hfind & Hs5)%s_metadata_ok ->].
    rewrite sort_by_key_elem, s_children_elem, (same_view s s1), view_at in Hk by (done || by destruct d).
    destruct (stage_at s (d ++ [k])) as [x|] eqn:Ex; [|by destruct Hk].
    pose proof (inner_child d k x Hd Ex) as Hi.
    rewrite (stage_find_inner (d ++ [k]) x) in Hfind by done. injection Hfind as <- <-. destruct x as [m'| | |]; [|done..].
    do 2 (apply bind_ext; [done|]; intros [] [? ?] Hrun; apply context_returned, on_image_ok in Hrun as [_ ->]).
    assert (Hv : view s !! (d ++ [k]) = Some GDir) by (rewrite view_at by (by destruct d); by rewrite Ex).
    pose proof (below_shrinks _ _ _ _ Hv). eapply IH; [by etrans|apply Hi|exact Ex|lia|lia].
  - intros k [s4 e4] _ Hs4. etrans; [exact Hs4|].
    apply (copy_entry_keeps (copy_directory_entries f1) (d ++ [k]) (rel ++ [k])). intros. apply copy_keeps.
Qed.

(** As many levels as there are nodes are enough. *)
Lemma copy_fuel_enough d m s1 e extra :
  same_stage s s1 → root `prefix_of` d → stage_at s d = Some (SDir m) →
  copy_directory_entries (stage_bound s + extra) d (drop (length root) d) (s1, e) =
  copy_directory_entries (stage_bound s) d (drop (length root) d) (s1, e).
Proof using Htree plaws.
  intros Hs Hd Hm. assert (length (below (view s) d) ≤ size (view s)).
  { rewrite <-length_map_to_list. apply length_filter. }
  pose proof (view_size s). eapply copy_fuel; [done..|lia|lia].
Qed.
End exact.

(** ** The image of a directory *)

Section image.
Context `{plat : !Platform, plaws : !PlatformLaws, ihost : !ImageHost, elib : !Ext4Lib, elaws : !Ext4Laws}.

(** What a tree looks like in an image: [initial] is there before. *)
Definition image_holds (s : Build) (root : path) (e : Ext4Fs) : Prop :=
  (∀ rel n, rel ≠ [] → stage_at s (root ++ rel) = Some n →
    ∃ i, image_of n = Some i ∧ ext4_tree e !! ext4_path rel = Some i) ∧
  (∀ p, p ≠ "/" → (∀ rel, rel ≠ [] → is_Some (stage_at s (root ++ rel)) → p ≠ ext4_path rel) →
    ext4_tree e !! p = ext4_initial !! p) ∧
  (∃ m, stage_at s root = Some (SDir m) ∧ ext4_tree e !! "/" = Some (EDir (Z.land m 4095))).

Definition names_apart (s : Build) (root : path) : Prop :=
  ∀ q n, root `prefix_of` q → stage_at s q = Some n → Forall no_backslash (drop (length root) q).

Lemma inner_rel s root rel : rel ≠ [] → is_Some (stage_at s (root ++ rel)) ↔ inner s root (root ++ rel).
Proof.
  intros Hrel. unfold inner. split; [|naive_solver]. intros Hs. split_and!; [by apply prefix_app_r| |done].
  intros E. apply Hrel, (app_inv_head root). by rewrite app_nil_r.
Qed.

Lemma join_names_ne l : l ≠ [] → Forall plain_name l → join_names l ≠ "".
Proof.
  intros Hl Hp E. destruct l as [|n l]; [done|]. apply Forall_cons in Hp as [(Hn & _) _].
  destruct l; simpl in E; [done|]. by destruct n.
Qed.

Lemma root_apart s root : staged_tree s root → names_apart s root → ∀ q, inner s root q → ipath root q ≠ "/".
Proof.
  intros Ht Ha q Hq E. destruct (inner_plain s root Ht Ha q Hq) as (Hne & Hp & Hb). unfold ipath in E.
  rewrite ext4_path_plain in E by done. injection E as E. by apply (join_names_ne _ Hne Hp).
Qed.

Theorem populate_exact s root e s' e' :
  staged_tree s root → names_apart s root → ext4_tree e = ext4_initial →
  populate_ext4_from_dir root (s, e) = (Ok (), (s', e')) → same_stage s s' ∧ image_holds s root e'.
Proof.
  intros Ht Ha He Hrun. destruct (st_above s root Ht root) as [m Hm]; [done|apply (st_root _ _ Ht)|].
  unfold populate_ext4_from_dir in Hrun. apply bind_ok_inv in Hrun as (n & [s1 e1] & H1 & Hrun).
  apply context_returned, in_stage_ok in H1 as [(q & Hfind & Hs1)%s_metadata_ok ->].
  rewrite (stage_find_tree s root root (SDir m)) in Hfind by done. injection Hfind as <- <-.
  apply bind_ok_inv in Hrun as ([] & [s2 e2] & H2 & Hrun).
  apply context_returned, on_image_ok in H2 as [(x & Hx & He2)%ext4_set_permissions_ok ->].
  rewrite He in Hx, He2. destruct (ext4_initial_dirs _ _ Hx) as [m0 ->]. simpl in He2.
  pose proof (root_apart s root Ht Ha) as Hroot.
  assert (Hrel0 : [] = drop (length root) root) by by rewrite drop_all.
  rewrite Hrel0 in Hrun.
  destruct (copy_directory_entries_ok s root Ht Ha (stage_bound s) root m s1 e2 s' e') as [Hs' [Hc1 Hc2]]; [done|done|apply (st_root _ _ Ht)|done| |exact Hrun|].
  { intros q m' b' _ Hq. rewrite He2, lookup_insert_ne; [|intros E; by apply (Hroot q Hq)].
    intros Hf. by destruct (ext4_initial_dirs _ _ Hf). }
  split; [done|]. split; [|split].
  - intros rel y Hrel Hy. assert (Hi : inner s root (root ++ rel)) by (apply inner_rel; [done|by exists y]).
    destruct (Hc1 (root ++ rel) y) as (i & Hi1 & Hi2); [|done..|].
    { destruct Hi as (? & ? & _). by split. }
    exists i. unfold ipath in Hi2. by rewrite drop_app_length in Hi2.
  - intros p Hp Hnone. rewrite Hc2, He2, lookup_insert_ne; [done..|]. intros q _ ([l ->] & Hne & Hsome). unfold ipath.
    rewrite drop_app_length. apply Hnone; [|done]. intros ->. by rewrite app_nil_r in Hne.
  - exists m. split; [done|]. rewrite Hc2; [by rewrite He2, lookup_insert_eq|]. intros q _ Hq E. by apply (Hroot q Hq).
Qed.

(** *** Around the copy *)

Lemma keeps_stage_op {A} (act : Build → Result IoError (A * Build)) :
  (∀ st a st', act st = Ok (a, st') → st' = st) → keeps same_stage (staged (stage_op act whole)).
Proof.
  intros Hact. apply keeps_map_err. intros st. unfold stage_op. destruct (w_faults _) as [|[f|] l]; [|done|];
    (destruct (act st) as [[a st']|] eqn:Ea; simpl; [apply Hact in Ea as ->|]; done).
Qed.

Lemma keeps_stage_metadata follow p : keeps same_stage (staged (s_metadata follow p)).
Proof. apply keeps_stage_op. intros st a st'. destruct (stage_find st follow p) as [[q n]|]; simpl; intros; by simplify_eq. Qed.

Lemma keeps_visit p names stack entries : keeps same_stage (visit p names stack entries).
Proof.
  revert stack entries. induction names as [|n names IH]; intros stack entries; cbn [visit]; [keeps_step|].
  keeps_step; [apply keeps_stage_op; by intros st a st' [= _ <-]|]. keeps_step; [apply keeps_stage_metadata|]. apply IH.
Qed.

Lemma keeps_walkdir_loop fuel stack entries : keeps same_stage (walkdir_loop fuel stack entries).
Proof.
  revert stack entries. induction fuel as [|fuel IH]; intros [|p stack] entries; cbn [walkdir_loop]; try keeps_step.
  { apply keeps_map_err, keeps_stage_op. intros st a st'. by destruct (stage_find st true p) as [[q []]|]; simpl; intros; simplify_eq. }
  keeps_step; [apply keeps_visit|]. destruct a0. apply IH.
Qed.

Lemma keeps_entry_sizes entries total : keeps same_stage (entry_sizes entries total).
Proof.
  revert total. induction entries as [|p entries IH]; intros total; cbn [entry_sizes]; [keeps_step|].
  keeps_step; [apply keeps_stage_metadata|]. destruct a; try apply IH. keeps_step; [|apply IH].
  apply keeps_stage_op. intros st a st'. by destruct (stage_find st false p) as [[q []]|]; simpl; intros; simplify_eq.
Qed.

Lemma keeps_estimate root : keeps same_stage (estimate_image_size root).
Proof. unfold estimate_image_size. keeps_step; [intros s; apply keeps_walkdir_loop|]. keeps_step; [apply keeps_entry_sizes|keeps_step]. Qed.

Lemma keeps_ok {E S A} (R : relation S) (m : M E S A) s r s' : keeps R m → m s = (r, s') → R s s'.
Proof. intros Hm Hrun. pose proof (Hm s) as HR. by rewrite Hrun in HR. Qed.

(** Only the image file and directories above it change, and what is there stays. *)
Definition beside (image : path) (s s' : Build) : Prop :=
  bd_work s' = bd_work s ∧
  (∀ q, ¬ q `prefix_of` image → host_files s' !! q = host_files s !! q) ∧
  (∀ q n, q ≠ image → host_files s !! q = Some n → host_files s' !! q = Some n).

#[local] Instance beside_preorder image : PreOrder (beside image).
Proof.
  split; [done|]. intros s1 s2 s3 (W1 & F1 & G1) (W2 & F2 & G2). split_and!; [congruence| |].
  - intros q Hq. by rewrite F2, F1.
  - intros q n Hq Hn. auto.
Qed.

Lemma same_beside image s s' : same_stage s s' → beside image s s'.
Proof. intros (H1 & H2 & _). unfold beside. by rewrite H1, H2. Qed.

Lemma beside_put image fs s : (∀ q, q ≠ image → fs !! q = host_files s !! q) → beside image s (set_host fs s).
Proof.
  intros Hfs. split_and!; [done| |]; simpl.
  - intros q Hq. apply Hfs. by intros ->.
  - intros q n Hq Hn. unfold host_files at 1. simpl. by rewrite Hfs.
Qed.

Lemma on_host_ok {A} (m : M IoError World A) s a s' :
  on_host m s = (Ok a, s') → ∃ w, m (fe_world (bd_fetch s)) = (Ok a, w) ∧ host_files s' = w_fs w ∧ bd_work s' = bd_work s ∧ bd_root s' = bd_root s.
Proof.
  unfold on_host, disk, zoom, map_err. simpl. destruct (m (fe_world (bd_fetch s))) as [[b|x] w]; intros [= <- <-]; by exists w.
Qed.

Lemma beside_host {A} image (m : M IoError World A) s a s' :
  (∀ w w', m w = (Ok a, w') →
    (∀ q, ¬ q `prefix_of` image → w_fs w' !! q = w_fs w !! q) ∧
    (∀ q n, q ≠ image → w_fs w !! q = Some n → w_fs w' !! q = Some n)) →
  on_host m s = (Ok a, s') → beside image s s'.
Proof.
  intros Hm (w & Hrun & Hh & Hw & Hr)%on_host_ok. apply Hm in Hrun as [H1 H2].
  split_and!; [done|..]; rewrite Hh; done.
Qed.

Lemma create_parent_beside image s u s' : on_host (fs_create_dir_all (parent image)) s = (Ok u, s') → beside image s s'.
Proof.
  apply beside_host. intros w w' [Hact _]%io_op_ok. case_match; [done|]. injection Hact as _ Hact. rewrite <-Hact. split.
  - intros q Hq. rewrite lookup_union. destruct (dir_chain (parent image) !! q) eqn:E; [|apply (right_id None _)].
    destruct Hq. destruct (proj1 (dir_chain_lookup (parent image) q)) as [Hp _]; [by rewrite E|].
    etrans; [exact Hp|]. unfold parent. apply prefix_take.
  - intros q n _ Hn. by apply lookup_union_Some_l.
Qed.

Lemma device_create_ok image size s u s' :
  on_host (device_create image size) s = (Ok u, s') → beside image s s'.
Proof.
  apply beside_host. intros w w' Hrun. unfold device_create in Hrun. apply bind_ok_inv in Hrun as (u1 & w1 & H1 & H2).
  apply io_op_ok in H1 as [H1 _]. apply io_op_ok in H2 as [H2 _].
  assert (Hsame : ∀ q, q ≠ image → w_fs w' !! q = w_fs w !! q).
  { intros q Hq. transitivity (w_fs w1 !! q).
    - case_match; [done|]. case_match; [|done]. case_match; [done|]. injection H2 as _ H2. rewrite <-H2. by rewrite lookup_insert_ne.
    - destruct (put_file (w_fs w) image file_mode (FileSystem.Text [])) as [fs1|] eqn:Ep; [|done]. injection H1 as _ H1.
      rewrite <-H1. by apply (put_file_frame (λ q, q = image)) in Ep; [apply Ep|]. }
  split; [intros q Hq; apply Hsame; by intros ->|]. intros q n Hq Hn. by rewrite Hsame.
Qed.

Lemma device_put_beside image c s : beside image s (device_put image c s).2.
Proof.
  unfold device_put, modify. simpl. destruct (host_files s !! image) as [[|m c0]|]; [done| |done].
  apply beside_put. intros q Hq. by rewrite lookup_insert_ne.
Qed.

Lemma format_beside label image s r s' : format_device label image s = (r, s') → beside image s s'.
Proof.
  unfold format_device. destruct (host_files s !! image) as [[|m c0]|]; [by intros [= _ <-]| |by intros [= _ <-]].
  destruct (ext4_mkfs label c0) as [r1 c1]. intros [= _ <-]. apply device_put_beside.
Qed.

(** The tree is the same in both states. *)
Section unrelated.
Context (root image : path).
Context (Hout : ¬ root `prefix_of` image) (Hin : ¬ image `prefix_of` root).

Lemma beside_below s s' q : beside image s s' → root `prefix_of` q → stage_at s' q = stage_at s q.
Proof using Hout.
  intros (Hw & Hf & _) Hq. unfold stage_at. rewrite Hw. rewrite (Hf q); [done|]. intros Hp. apply Hout. by etrans.
Qed.

Lemma beside_above s s' q n : beside image s s' → q `prefix_of` root → stage_at s q = Some n → stage_at s' q = Some n.
Proof using Hin.
  clear Hout. intros (Hw & _ & Hg) Hq. unfold stage_at. rewrite Hw. destruct (bd_work s !! q); [done|]. destruct q as [|x q]; [done|].
  destruct (host_files s !! (x :: q)) as [y|] eqn:Ey; [|done]. rewrite (Hg _ y); [done| |done]. by intros <-.
Qed.

Lemma beside_tree s s' : beside image s s' → staged_tree s root → staged_tree s' root.
Proof using Hout Hin.
  intros Hb Ht. split; [by eapply st_root|by eapply st_names| |].
  - intros r Hr Hne. destruct (st_above _ _ Ht r Hr Hne) as [m Hm]. exists m. by eapply beside_above.
  - intros k n Hk Hne Hn. rewrite (beside_below s) in Hn by done. destruct (st_below _ _ Ht k n Hk Hne Hn) as (Hp & m & Hm).
    split; [done|]. exists m. rewrite (beside_below s); [done..|]. by apply parent_take_le.
Qed.

Lemma beside_apart s s' : beside image s s' → names_apart s root → names_apart s' root.
Proof using Hout. intros Hb Ha q n Hq Hn. rewrite (beside_below s) in Hn by done. by eapply Ha. Qed.

Lemma beside_holds s s' e : beside image s s' → image_holds s' root e → image_holds s root e.
Proof using Hout.
  intros Hb (H1 & H2 & m & Hm & H3). unfold image_holds. split_and!.
  - intros rel n Hrel Hn. apply H1; [done|]. rewrite (beside_below s); [done..|]. by apply prefix_app_r.
  - intros p Hp Hnone. apply H2; [done|]. intros rel Hrel. rewrite (beside_below s); [by apply Hnone|done|]. by apply prefix_app_r.
  - exists m. by rewrite <-(beside_below s s').
Qed.
End unrelated.

(** Formatting the device and opening it again gives what the formatting left. *)
Lemma format_then_open label image s s1 device s2 :
  format_device label image s = (Ok (), s1) → on_host (device_open image) s1 = (Ok device, s2) →
  beside image s s2 ∧ (∃ m, host_files s2 !! image = Some (File m device)) ∧ ∃ c0, ext4_mkfs label c0 = (Ok (), device).
Proof.
  intros H4 H5. pose proof (format_beside _ _ _ _ _ H4) as Hb4.
  apply on_host_ok in H5 as (w & [Hopen _]%io_op_ok & Hh5 & Hw5 & _).
  change (w_fs (fe_world (bd_fetch s1))) with (host_files s1) in Hopen. unfold read_node in Hopen.
  destruct (host_files s1 !! image) as [[|m c]|] eqn:Eimage; [done| |done]. injection Hopen as -> Hsame.
  assert (Hhost : host_files s2 = host_files s1) by congruence. split_and!.
  - etrans; [exact Hb4|]. split_and!; [done|..]; by rewrite Hhost.
  - exists m. by rewrite Hhost.
  - unfold format_device in H4. destruct (host_files s !! image) as [[|m3 c3]|] eqn:E3; [injection H4 as <-; congruence| |injection H4 as <-; congruence].
    destruct (ext4_mkfs label c3) as [r c'] eqn:Emk. injection H4 as -> <-. exists c3. rewrite Emk. f_equal.
    unfold device_put, modify in Eimage. simpl in Eimage. rewrite E3 in Eimage. unfold host_files in Eimage. simpl in Eimage.
    rewrite lookup_insert_eq in Eimage. congruence.
Qed.

(** The steps of a build that succeeds: a fresh file system is populated and unmounted. *)
Lemma build_ext4_steps s root image min_mib s' :
  build_ext4_image root image min_mib s = (Ok (), s') →
  ∃ s1 m c0 c1 ext4 s2 e2 c2,
    beside image s s1 ∧ host_files s1 !! image = Some (File m c1) ∧ ext4_mkfs "sagens-image" c0 = (Ok (), c1) ∧ ext4_mount c1 = Ok ext4 ∧
    populate_ext4_from_dir root (s1, ext4) = (Ok (), (s2, e2)) ∧ ext4_umount e2 = Ok c2 ∧ s' = (device_put image c2 s2).2.
Proof.
  unfold build_ext4_image. intros Hrun.
  apply bind_ok_inv in Hrun as (u1 & s1 & H1%create_parent_beside & Hrun).
  apply bind_ok_inv in Hrun as (estimate & s2 & H2 & Hrun). apply (keeps_ok _ _ _ _ _ (keeps_estimate root)), (same_beside image) in H2.
  apply bind_ok_inv in Hrun as (u3 & s3 & H3%context_returned%device_create_ok & Hrun).
  apply bind_ok_inv in Hrun as ([] & s4 & H4%context_returned & Hrun).
  apply bind_ok_inv in Hrun as (device & s5 & H5%context_returned & Hrun).
  apply bind_ok_inv in Hrun as (ext4 & s6 & [Hmount ->]%context_returned%lift_ok_inv & Hrun).
  destruct (format_then_open _ _ _ _ _ _ H4 H5) as (Hb5 & [m Him] & [c0 Hfresh]).
  unfold with_ext4 in Hrun. destruct (populate_ext4_from_dir root (s6, ext4)) as [[[]|x] [s7 e7]] eqn:Epop; [|done].
  destruct (ext4_umount e7) as [c7|x] eqn:Eu; [|done].
  exists s6, m, c0, device, ext4, s7, e7, c7. split_and!; [by do 3 (etrans; [eassumption|])|done..|].
  unfold device_put, modify in *. by injection Hrun as <-.
Qed.

(** A fresh file system that was populated from the tree and unmounted is its image. *)
Lemma populated_image_holds label s s1 root image m c0 c1 ext4 s2 e2 c2 :
  staged_tree s root → names_apart s root → ¬ root `prefix_of` image → ¬ image `prefix_of` root →
  beside image s s1 → host_files s1 !! image = Some (File m c1) → ext4_mkfs label c0 = (Ok (), c1) → ext4_mount c1 = Ok ext4 →
  populate_ext4_from_dir root (s1, ext4) = (Ok (), (s2, e2)) → ext4_umount e2 = Ok c2 →
  ∃ m c e, host_files (device_put image c2 s2).2 !! image = Some (File m c) ∧ ext4_mount c = Ok e ∧ image_holds s root e.
Proof.
  intros Ht Ha Hout Hin Hb Him Hmk Hmount Hpop Hu.
  apply ext4_umount_ok in Hu as (e' & Hm' & Htree').
  apply populate_exact in Hpop as [(_ & Hh2 & _) Hholds]; [|by eapply beside_tree|by eapply beside_apart|by eapply ext4_fresh].
  exists m, c2, e'. split_and!; [|done|].
  - unfold device_put, modify. simpl. rewrite Hh2, Him. unfold host_files. simpl. by rewrite lookup_insert_eq.
  - eapply beside_holds; [exact Hout|exact Hb|]. destruct Hholds as (P1 & P2 & P3). unfold image_holds. by rewrite Htree'.
Qed.

Lemma build_ext4_beside s root image min_mib s' :
  build_ext4_image root image min_mib s = (Ok (), s') → beside image s s' ∧ ∃ m c, host_files s' !! image = Some (File m c).
Proof.
  intros (s1 & m & c0 & c1 & ext4 & s2 & e2 & c2 & Hb & Him & _ & _ & Hpop & _ & ->)%build_ext4_steps.
  pose proof (keeps_ok _ _ _ _ _ (populate_keeps root) Hpop) as Hs. change (same_stage s1 s2) in Hs. split.
  - etrans; [exact Hb|]. etrans; [by apply same_beside|]. apply device_put_beside.
  - exists m, c2. unfold device_put, modify. simpl. destruct Hs as (_ & Hh & _). rewrite Hh, Him. unfold host_files. simpl. by rewrite lookup_insert_eq.
Qed.

(** C20: the image is the directory.  When an ext4 image was built from a directory of the build, the
    file is an image that mounts, and in it every node below the directory is at its own path with
    its kind, its permission bits and its contents or link target, the root has the permission bits
    of the directory, and besides there is only what a fresh file system has.  Holds for a tree
    reached through directories whose names have no backslash, and an image outside of it. *)
Theorem image_is_directory s root image min_mib s' :
  staged_tree s root → names_apart s root → ¬ root `prefix_of` image → ¬ image `prefix_of` root →
  build_ext4_image root image min_mib s = (Ok (), s') →
  ∃ m c e, host_files s' !! image = Some (File m c) ∧ ext4_mount c = Ok e ∧ image_holds s root e.
Proof.
  intros Ht Ha Hout Hin (s1 & m & c0 & c1 & ext4 & s2 & e2 & c2 & Hb & Him & Hmk & Hmount & Hpop & Hu & ->)%build_ext4_steps.
  by eapply populated_image_holds.
Qed.
End image.

(** A backslash in a name is taken for a separator: two different trees have the
    same path in the image. *)
Lemma backslash_is_separator a b : ext4_path [a ^+ "\" ^+ b] = ext4_path [a; b].
Proof.
  unfold ext4_path. simpl join_names. f_equal. induction a as [|x a IH]; simpl; [done|]. f_equal. exact IH.
Qed.
