(* ===== verification/ImageBuild.v ===== *)
(** * ImageBuild: [src/images/build.rs], [src/images/rootfs.rs] and [unpack_with_tar] of [src/images/archive.rs]

    A build of an image from its specification: the downloads of [ImageFetch], the
    staged root file system and cache on [StageFs], the two ext4 images of
    [Ext4Image], and the manifest the image store reads.  The tar crate, the base
    image's ext4 and the package managers of the host ([python3 -m pip], [npm]) are
    interfaces. *)

From S2P Require Import Prelude RustStd Text Paths FileSystem PrivateFs FsTree Manifest GuestFs Config HostConfig Update Lineage Images Packages ImageFetch StageFs Ext4Image BoxApi.

Definition DEFAULT_IMAGE_MIB : Z := 512.
Definition CACHE_IMAGE_MIB : Z := 64.

(** What a helper program left: its exit status as text, or success, its output,
    and the staged files. *)
Record HelperOutput := mkHelperOutput {
  ho_success : bool;
  ho_status : string;
  ho_stdout : string;
  ho_stderr : string;
}.

Class BuildTools := {
  (** [Archive::unpack] of a gzipped archive into a directory of the stage. *)
  tar_unpack : bytes → path → staging → staging * option string;
  (** A command: the program and its arguments, run on the stage. *)
  run_helper : list string → staging → Result IoError HelperOutput * staging;
  (** [serde_json] of the build's metadata. *)
  json_metadata : string → list string → list string → list string → Result string bytes;
}.

Local Abbreviation BM := (M string Build).

Definition fetching {A} (m : M string Fetch A) : BM A := zoom bd_fetch (λ f s, mkBuild f (bd_root s) (bd_work s)) m.
Definition stage {A} (m : M IoError Build A) : BM A := staged m.
Definition expect (b : bool) (message : string) : BM () := if b then mret () else throw message.

Section build.
Context `{plat : !Platform, target : !Target, ihost : !ImageHost, elib : !Ext4Lib, tools : !BuildTools, serde : !Serde VmImageManifest}.

(** ** [archive.rs] *)

Definition unpack_with_tar (archive_path destination : path) : BM () :=
  stage (s_create_dir_all destination);;
  archive ← context ("opening " ^+ display archive_path) (on_host (fs_read archive_path));
  context ("unpacking " ^+ display archive_path ^+ " to " ^+ display destination)
    (λ s, let '(work, error) := tar_unpack archive destination (bd_work s) in
          (match error with Some e => Err e | None => Ok () end, set_work work s)).

(** ** [rootfs.rs] *)

Definition guest_mountpoints : list path :=
  [["proc"]; ["sys"]; ["dev"]; ["home"]; ["tmp"]; ["workspace"]; ["usr"; "local"; "bin"]; ["var"; "cache"; "apk"]; ["opt"; "sagens-cache"]].

Definition create_rootfs_mountpoints (rootfs_dir : path) : BM () :=
  for_each (λ relative, stage (s_create_dir_all (rootfs_dir ++ relative))) guest_mountpoints.

Definition AGENT : path := ["usr"; "local"; "bin"; "sagens-guest-agent"].

Definition install_guest_agent (rootfs_dir guest_agent : path) : BM () :=
  let target := rootfs_dir ++ AGENT in
  context ("copying guest agent to " ^+ display target) (stage (s_copy guest_agent target));;
  stage (s_set_mode target 493).   (* 0o755 *)

Definition nl : string := String line_feed "".
Definition INITTAB : string :=
  "::sysinit:/bin/mount -t proc proc /proc" ^+ nl ^+ "::sysinit:/bin/mount -t sysfs sysfs /sys" ^+ nl ^+
  "::sysinit:/bin/mount -t devtmpfs devtmpfs /dev" ^+ nl ^+ "::once:/usr/local/bin/sagens-guest-agent" ^+ nl ^+
  "::shutdown:/bin/umount -a -r" ^+ nl.

Definition write_guest_init (rootfs_dir : path) : BM () := stage (s_write (rootfs_dir ++ ["etc"; "inittab"]) (as_bytes INITTAB)).

Definition PIP_CONF : string := "[global]" ^+ nl ^+ "no-index = true" ^+ nl ^+ "find-links = /opt/sagens-cache/pip/wheels" ^+ nl.
Definition NPMRC : string := "offline=true" ^+ nl ^+ "prefer-offline=true" ^+ nl ^+ "cache=/opt/sagens-cache/npm" ^+ nl.

Definition write_package_manager_defaults (rootfs_dir : path) (configure_pip_cache configure_npm_cache : bool) : BM () :=
  (if configure_pip_cache then stage (s_write (rootfs_dir ++ ["etc"; "pip.conf"]) (as_bytes PIP_CONF)) else mret ());;
  (if configure_npm_cache then stage (s_write (rootfs_dir ++ ["etc"; "npmrc"]) (as_bytes NPMRC)) else mret ()).

Definition ensure_usr_bin_bash (rootfs_dir : path) : BM () :=
  let usr_bin_bash := rootfs_dir ++ ["usr"; "bin"; "bash"] in
  present ← s_exists usr_bin_bash;
  if present : bool then mret ()
  else
    context ("creating " ^+ display (rootfs_dir ++ ["usr"; "bin"])) (stage (s_create_dir_all (rootfs_dir ++ ["usr"; "bin"])));;
    context ("linking " ^+ display usr_bin_bash ^+ " -> /bin/bash") (stage (s_symlink "/bin/bash" usr_bin_bash)).

Definition ensure_real_bash (rootfs_dir : path) : BM () :=
  let bin_bash := rootfs_dir ++ ["bin"; "bash"] in
  file ← s_is_file bin_bash;
  expect file ("expected Alpine rootfs to contain a real /bin/bash, but " ^+ display bin_bash ^+ " is missing");;
  metadata ← context ("reading " ^+ display bin_bash) (stage (s_metadata false bin_bash));
  expect (match metadata with SLink _ => false | _ => true end)
    ("expected " ^+ display bin_bash ^+ " to be a real bash binary, but it is a symlink");;
  ensure_usr_bin_bash rootfs_dir.

(** A directory that is there is removed first. *)
Definition clear_dir (dir : path) : BM () :=
  present ← s_exists dir;
  if present : bool then context ("removing " ^+ display dir) (stage (s_remove_dir_all dir)) else mret ().

(** What follows the unpacking of the base archive. *)
Definition finish_rootfs (apk_dir : path) (resolved : list Package) (rootfs_dir guest_agent : path)
    (configure_pip_cache configure_npm_cache : bool) : BM () :=
  for_each (λ package, unpack_with_tar (join_path apk_dir (file_name package)) rootfs_dir) resolved;;
  create_rootfs_mountpoints rootfs_dir;;
  install_guest_agent rootfs_dir guest_agent;;
  write_guest_init rootfs_dir;;
  write_package_manager_defaults rootfs_dir configure_pip_cache configure_npm_cache;;
  ensure_real_bash rootfs_dir.

Definition rebuild_rootfs (rootfs_tar apk_dir : path) (resolved : list Package) (rootfs_dir guest_agent : path)
    (configure_pip_cache configure_npm_cache : bool) : BM () :=
  clear_dir rootfs_dir;;
  stage (s_create_dir_all rootfs_dir);;
  unpack_with_tar rootfs_tar rootfs_dir;;
  finish_rootfs apk_dir resolved rootfs_dir guest_agent configure_pip_cache configure_npm_cache.

Definition prepare_cache_dir (cache_dir apk_dir : path) (resolved : list Package) : BM () :=
  clear_dir cache_dir;;
  for_each (λ relative, stage (s_create_dir_all (cache_dir ++ relative))) [["apk"]; ["pip"; "wheels"]; ["npm"]];;
  for_each (λ package,
    context ("copying " ^+ file_name package ^+ " into image cache")
      (stage (s_copy (join_path apk_dir (file_name package)) (join_path (cache_dir ++ ["apk"]) (file_name package))))) resolved;;
  stage (s_copy (apk_dir ++ ["manifest.txt"]) (cache_dir ++ ["apk"; "manifest.txt"])).

Definition run_command (command : list string) (description : string) : BM () := λ s,
  let '(r, work) := run_helper command (bd_work s) in
  (match r with
   | Err e => Err (description ^+ ": spawning helper command: " ^+ io_text e)
   | Ok output =>
       if ho_success output then Ok ()
       else Err (description ^+ " failed with status " ^+ ho_status output ^+ ": " ^+ ho_stdout output ^+ ho_stderr output)
   end, set_work work s).

Definition prepare_pip_cache (cache_dir : path) (arch : string) (requirements : list string) : BM () :=
  if decide (requirements = []) then mret ()
  else
    platform ← (if String.eqb arch "aarch64" then mret "musllinux_1_2_aarch64"
                else if String.eqb arch "x86_64" then mret "musllinux_1_2_x86_64"
                else throw ("unsupported pip cache arch: " ^+ arch));
    run_command (["python3"; "-m"; "pip"; "download"; "--dest"; display (cache_dir ++ ["pip"; "wheels"]); "--only-binary=:all:";
                  "--platform"; platform; "--implementation"; "cp"; "--python-version"; "312"; "--abi"; "cp312"] ++ requirements)
      "downloading pip cache".

Definition prepare_npm_cache (cache_dir : path) (packages : list string) : BM () :=
  for_each (λ package,
    run_command ["npm"; "cache"; "add"; package; "--cache"; display (cache_dir ++ ["npm"]); "--prefer-online"; "--no-audit"; "--fund=false"]
      "downloading npm cache") packages.

Definition extract_guest_agent (rootfs_image destination : path) : BM () :=
  stage (s_create_dir_all (parent destination));;
  device ← context ("opening base rootfs " ^+ display rootfs_image) (on_host (device_open rootfs_image));
  fs ← context "mounting base rootfs" (lift (ext4_mount device));
  input ← context "opening guest agent from base rootfs" (lift (ext4_read "/usr/local/bin/sagens-guest-agent" fs));
  context ("creating " ^+ display destination) (stage (s_write destination []));;
  context "extracting guest agent" (stage (s_write destination input));;
  context "unmounting base rootfs" (lift (ext4_umount fs));;
  stage (s_set_mode destination 493).

(** ** [build.rs] *)

Definition write_cache_metadata (cache_dir : path) (spec : ImageBuildSpec) : BM () :=
  data ← lift (json_metadata (ib_name spec) (ib_apk spec) (ib_pip spec) (ib_npm spec));
  stage (s_write (cache_dir ++ ["image.json"]) data).

(** The directories of a build. *)
Record BuildDirs := mkBuildDirs { dr_image : path; dr_build : path; dr_downloads : path }.
Definition apk_dir (d : BuildDirs) : path := dr_downloads d ++ ["apk"].
Definition index_dir (d : BuildDirs) : path := dr_downloads d ++ ["index"].
Definition rootfs_dir (d : BuildDirs) : path := dr_downloads d ++ ["rootfs"].
Definition work_rootfs (d : BuildDirs) : path := dr_build d ++ ["rootfs"].
Definition work_cache (d : BuildDirs) : path := dr_build d ++ ["cache"].
Definition staged_agent (d : BuildDirs) : path := dr_build d ++ ["sagens-guest-agent"].

Definition as_anyhow {A} (m : M SandboxError World A) : BM A :=
  zoom bd_fetch (λ f s, mkBuild f (bd_root s) (bd_work s))
    (zoom fe_world (λ w f, mkFetch w (fe_requests f)) (map_err error_to_string m)).

(** The checks of the specification and the removal of an image that is rebuilt. *)
Definition claim_image (spec : ImageBuildSpec) : BM string :=
  as_anyhow (lift (validate_image_name (ib_name spec)));;
  expect (negb (String.eqb (ib_name spec) BASE_IMAGE_NAME)) "base image is reserved";;
  as_anyhow (image_ensure_layout (ib_state_dir spec));;
  arch ← as_anyhow (lift default_guest_arch);
  let image := image_dir (ib_state_dir spec) (ib_name spec) in
  present ← as_anyhow (path_exists image);
  (if present : bool then
     if negb (ib_force_refresh spec) then throw ("image " ^+ ib_name spec ^+ " already exists; pass --force-refresh to rebuild it")
     else context ("removing " ^+ display image) (on_host (fs_remove_dir_all image))
   else mret ());;
  mret arch.

(** The directories; the build directory is the root of the stage. *)
Definition create_build_dirs (spec : ImageBuildSpec) (arch : string) : BM BuildDirs :=
  id ← as_anyhow new_v4;
  let d := mkBuildDirs (image_dir (ib_state_dir spec) (ib_name spec))
             (images_dir (ib_state_dir spec) ++ [".build-" ^+ ib_name spec ^+ "-" ^+ uuid_simple id])
             (package_cache_dir (ib_state_dir spec) ++ ["alpine"; "v3.23"; arch]) in
  on_host (fs_create_dir_all (dr_image d));;
  modify (λ s, mkBuild (bd_fetch s) (dr_build d) ∅);;
  stage (s_create_dir_all (dr_build d));;
  on_host (fs_create_dir_all (apk_dir d));;
  on_host (fs_create_dir_all (index_dir d));;
  on_host (fs_create_dir_all (rootfs_dir d));;
  mret d.

(** The downloads: the verified root file system and the packages to install. *)
Definition fetch_packages (spec : ImageBuildSpec) (arch : string) (d : BuildDirs) : M string Fetch (list Package) :=
  http_client;;
  signing_cert ← alpine_signing_cert;
  fetch_rootfs signing_cert arch (rootfs_dir d ++ [rootfs_tar_name arch]) (rootfs_tar_name arch) (ib_force_refresh spec);;
  fetch_indexes (index_dir d) arch (ib_force_refresh spec);;
  index ← load_indexes (index_dir d);
  resolved ← match resolve_packages index.1 index.2 (wanted_apk_packages (ib_apk spec) (negb (bool_decide (ib_npm spec = [])))) with
             | Some r => lift r
             | None => throw "dependencies still unresolved"
             end;
  download_packages (apk_dir d) arch resolved (ib_force_refresh spec);;
  mret resolved.

(** The staged cache, and with the root file system both trees. *)
Definition stage_cache (spec : ImageBuildSpec) (arch : string) (d : BuildDirs) (resolved : list Package) : BM () :=
  prepare_cache_dir (work_cache d) (apk_dir d) resolved;;
  prepare_pip_cache (work_cache d) arch (ib_pip spec);;
  prepare_npm_cache (work_cache d) (ib_npm spec);;
  write_cache_metadata (work_cache d) spec.

Definition stage_trees (spec : ImageBuildSpec) (arch : string) (d : BuildDirs) (resolved : list Package) : BM () :=
  extract_guest_agent (join_path [] (rootfs_image (ib_base_guest spec))) (staged_agent d);;
  rebuild_rootfs (rootfs_dir d ++ [rootfs_tar_name arch]) (apk_dir d) resolved (work_rootfs d) (staged_agent d)
    (negb (bool_decide (ib_pip spec = []))) (negb (bool_decide (ib_npm spec = [])));;
  stage_cache spec arch d resolved.

(** The files of the image; its manifest is the last. *)
Definition write_image (spec : ImageBuildSpec) (arch : string) (d : BuildDirs) (resolved : list Package) : BM VmImageManifest :=
  context ("copying base kernel " ^+ kernel_image (ib_base_guest spec))
    (on_host (fs_copy (join_path [] (kernel_image (ib_base_guest spec))) (dr_image d ++ ["vmlinuz-virt"])));;
  build_ext4_image (work_rootfs d) (dr_image d ++ ["rootfs.raw"]) (Z.max (ib_min_image_mib spec) DEFAULT_IMAGE_MIB);;
  build_ext4_image (work_cache d) (dr_image d ++ ["cache.raw"]) CACHE_IMAGE_MIB;;
  created_at_ms ← as_anyhow now_ms;
  let manifest := mkImageManifest 1 (ib_name spec) arch ALPINE_VERSION created_at_ms (ib_apk spec) (ib_pip spec) (ib_npm spec)
                    "vmlinuz-virt" "rootfs.raw" (Some "cache.raw") (Z.of_nat (length resolved)) in
  data ← lift (to_vec manifest);
  on_host (fs_write (dr_image d ++ [IMAGE_MANIFEST]) data);;
  mret manifest.

Definition build_image_inner (spec : ImageBuildSpec) : BM VmImageManifest :=
  arch ← claim_image spec;
  d ← create_build_dirs spec arch;
  resolved ← fetching (fetch_packages spec arch d);
  stage_trees spec arch d resolved;;
  manifest ← write_image spec arch d resolved;
  attempt (stage (s_remove_dir_all (dr_build d)));;
  mret manifest.

Definition build_image (spec : ImageBuildSpec) : M SandboxError Build VmImageManifest :=
  map_err (λ error, Backend ("building image " ^+ ib_name spec ^+ ": " ^+ error)) (build_image_inner spec).
End build.
