(* ===== verification/ImageBuilt.v ===== *)
(** * ImageBuilt: what a build of an image leaves

    The build directory stays reached through directories whatever is unpacked in
    it, so its removal touches nothing else; a build that succeeds leaves an image
    the store resolves; and the archive it starts from is the one that was
    verified. *)

From S2P Require Import Prelude RustStd Text Paths FileSystem PrivateFs FsTree Manifest GuestFs Config HostConfig Update Lineage Images Packages ImageFetch StageFs Ext4Image BoxApi ImageBuild.

(** ** Directories stay *)

(** A directory of the world stays one. *)
Definition dirs_stay (w w' : World) : Prop := ∀ k m, w_fs w !! k = Some (Dir m) → ∃ m', w_fs w' !! k = Some (Dir m').
#[global] Instance dirs_stay_preorder : PreOrder dirs_stay.
Proof. split; [intros w k m Hk; eauto|]. intros w1 w2 w3 H12 H23 k m Hk. destruct (H12 k m Hk) as [m' Hm']. eauto. Qed.

Definition fs_dirs_stay (fs fs' : gmap path node) : Prop := ∀ k m, fs !! k = Some (Dir m) → ∃ m', fs' !! k = Some (Dir m').

Lemma stay_io_op {A} (act : gmap path node → Result IoError (A * gmap path node)) torn :
  (∀ fs a fs', act fs = Ok (a, fs') → fs_dirs_stay fs fs') → (∀ f fs, fs_dirs_stay fs (torn f fs)) → keeps dirs_stay (io_op act torn).
Proof.
  intros Hact Htorn w. unfold io_op. destruct (w_faults w) as [|[f|] l]; [|exact (Htorn f (w_fs w))|];
    (destruct (act (w_fs w)) as [[a fs']|e] eqn:E; [exact (Hact _ _ _ E)|intros k m Hk; eauto]).
Qed.

Lemma stay_refl fs : fs_dirs_stay fs fs.
Proof. intros k m Hk. eauto. Qed.

Lemma stay_insert_file fs p m c : (∀ d, fs !! p ≠ Some (Dir d)) → fs_dirs_stay fs (<[p := File m c]> fs).
Proof. intros Hp k d Hk. destruct (decide (k = p)) as [->|]; [by destruct (Hp d)|]. exists d. by rewrite lookup_insert_ne. Qed.

Lemma stay_put_file fs p m c fs' : put_file fs p m c = Ok fs' → fs_dirs_stay fs fs'.
Proof.
  unfold put_file. destruct (parent_is_dir fs p); [|done].
  destruct (fs !! p) as [[d|m0 c0]|] eqn:E; [done|..]; intros [= <-]; apply stay_insert_file; by rewrite E.
Qed.

Section world.
Context `{!Platform}.

Lemma stay_read p : keeps dirs_stay (fs_read p).
Proof. apply stay_io_op; [|intros f fs; apply stay_refl]. intros fs a fs'. destruct (read_node fs p); simpl; [|done]. intros [= _ <-]. apply stay_refl. Qed.
Lemma stay_metadata p : keeps dirs_stay (fs_metadata p).
Proof. apply stay_io_op; [|intros f fs; apply stay_refl]. intros fs a fs'. destruct (fs !! p); simpl; [|done]. intros [= _ <-]. apply stay_refl. Qed.
Lemma stay_device_open p : keeps dirs_stay (device_open p).
Proof. apply stay_io_op; [|intros f fs; apply stay_refl]. intros fs a fs'. destruct (read_node fs p); simpl; [|done]. intros [= _ <-]. apply stay_refl. Qed.

Lemma stay_chain fs p : fs_dirs_stay fs (fs ∪ dir_chain p).
Proof. intros k m Hk. exists m. by apply lookup_union_Some_l. Qed.
Lemma stay_create_dir_all p : keeps dirs_stay (fs_create_dir_all p).
Proof.
  apply stay_io_op.
  - intros fs a fs'. destruct (has_file_prefix fs p); [done|]. intros [= _ <-]. apply stay_chain.
  - intros f fs. simpl. destruct (has_file_prefix fs _); [apply stay_refl|apply stay_chain].
Qed.
Lemma stay_write p b : keeps dirs_stay (fs_write p b).
Proof.
  apply stay_io_op.
  - intros fs a fs'. destruct (put_file fs p file_mode (Text b)) as [fs1|] eqn:E; simpl; [|done]. intros [= _ <-]. by eapply stay_put_file.
  - intros f fs. unfold torn_write. destruct (fault_progress f); [apply stay_refl|].
    destruct (put_file fs p file_mode _) as [fs1|] eqn:E; [by eapply stay_put_file|apply stay_refl].
Qed.
Lemma stay_file_create p : keeps dirs_stay (fs_file_create p).
Proof.
  apply stay_io_op; [|intros f fs; apply stay_refl]. intros fs a fs'.
  destruct (put_file fs p file_mode (Text [])) as [fs1|] eqn:E; simpl; [|done]. intros [= _ <-]. by eapply stay_put_file.
Qed.
Lemma stay_set_len p n : keeps dirs_stay (fs_set_len p n).
Proof.
  apply stay_io_op; [|intros f fs; apply stay_refl]. intros fs a fs'. destruct (2 ^ 63 <=? n)%Z; [done|].
  destruct (fs !! p) as [[d|m c]|] eqn:E; [done| |done]. intros [= _ <-]. apply stay_insert_file. by rewrite E.
Qed.
Lemma stay_copy_act src dst cut fs fs' : copy_act src dst cut fs = Ok fs' → fs_dirs_stay fs fs'.
Proof.
  unfold copy_act. destruct (fs !! src) as [[d|m c]|]; [done| |done].
  destruct (put_file fs dst m (cut c)) as [fs1|] eqn:E; simpl; [|done]. pose proof (stay_put_file _ _ _ _ _ E) as Hs.
  destruct (fs1 !! dst) as [[d|m1 c1]|] eqn:Ed; intros [= <-]; [done| |done].
  intros k d Hk. destruct (Hs k d Hk) as [d' Hd']. by eapply (stay_insert_file fs1 dst m c1); [rewrite Ed|exact Hd'].
Qed.
Lemma stay_copy src dst : keeps dirs_stay (fs_copy src dst).
Proof.
  apply stay_io_op.
  - intros fs a fs'. destruct (copy_act src dst id fs) as [fs1|] eqn:E; simpl; [|done]. intros [= _ <-]. by eapply stay_copy_act.
  - intros f fs. destruct (fault_progress f); [apply stay_refl|]. destruct (copy_act src dst _ fs) as [fs1|] eqn:E; [by eapply stay_copy_act|apply stay_refl].
Qed.
Lemma stay_now_ms {E} : keeps dirs_stay (now_ms : M E World _).
Proof. intros w k m Hk. eauto. Qed.
Lemma stay_device_create p n : keeps dirs_stay (device_create p n).
Proof. apply keeps_bind; [typeclasses eauto|apply stay_file_create|intros _; apply stay_set_len]. Qed.
End world.

#[export] Hint Resolve stay_read stay_metadata stay_device_open stay_create_dir_all stay_write stay_file_create stay_set_len
  stay_copy stay_now_ms stay_device_create : keeps.

(** ** The build directory stays reached through directories *)

Definition reached (b : path) (s : Build) : Prop :=
  bd_root s = b ∧ ∀ r, r `prefix_of` b → r ≠ [] → ∃ m, stage_at s r = Some (SDir m).

Definition stage_dirs_stay (s s' : Build) : Prop :=
  bd_root s' = bd_root s ∧ ∀ k m, stage_at s k = Some (SDir m) → ∃ m', stage_at s' k = Some (SDir m').

#[global] Instance stage_dirs_stay_preorder : PreOrder stage_dirs_stay.
Proof.
  split; [intros s; split; eauto|]. intros s1 s2 s3 [R1 H1] [R2 H2]. split; [congruence|].
  intros k m Hk. destruct (H1 k m Hk) as [m' Hm']. eauto.
Qed.

Lemma stay_reached {E A} b (m : M E Build A) : keeps stage_dirs_stay m → keeps (preserves (reached b)) m.
Proof.
  intros Hm s [Hroot Hr]. destruct (Hm s) as [Hroot' Hs]. split; [congruence|].
  intros r Hp Hne. destruct (Hr r Hp Hne) as [d Hd]. eauto.
Qed.

Lemma stage_stay_op {A} (act : Build → Result IoError (A * Build)) torn :
  (∀ s a s', act s = Ok (a, s') → stage_dirs_stay s s') → (∀ f s, stage_dirs_stay s (torn f s)) →
  keeps stage_dirs_stay (stage_op act torn).
Proof.
  intros Hact Htorn s. unfold stage_op. destruct (w_faults _) as [|[f|] l]; [|exact (Htorn f s)|];
    (destruct (act s) as [[a s1]|e] eqn:E; [exact (Hact _ _ _ E)|split; simpl; eauto]).
Qed.

Lemma put_at s q n k : k ≠ q → stage_at (put q n s) k = stage_at s k.
Proof.
  intros Hk. unfold put. case_decide; [unfold stage_at; simpl; by rewrite lookup_insert_ne|].
  destruct n; unfold stage_at, host_files; simpl; by rewrite lookup_insert_ne.
Qed.

Lemma put_root s q n : bd_root (put q n s) = bd_root s.
Proof. unfold put. case_decide; [done|]. by destruct n. Qed.

Lemma stay_put s q n : (∀ m, stage_at s q = Some (SDir m) → ∃ m', n = SDir m') → stage_dirs_stay s (put q n s).
Proof.
  intros Hq. split; [apply put_root|]. intros k m Hk. destruct (decide (k = q)) as [->|]; [|rewrite put_at by done; eauto].
  destruct (Hq m Hk) as [m' ->]. unfold put. case_decide.
  - exists m'. unfold stage_at. simpl. by rewrite lookup_insert_eq.
  - unfold stage_at, host_files in *. simpl. destruct (bd_work s !! q) as [x|]; [eauto|]. destruct q; [eauto|]. rewrite lookup_insert_eq. simpl. eauto.
Qed.

Lemma stay_put_free s q n : stage_at s q = None ∨ (∃ m b, stage_at s q = Some (SFile m b)) → stage_dirs_stay s (put q n s).
Proof. intros Hq. apply stay_put. intros m Hm. destruct Hq as [Hq|(? & ? & Hq)]; congruence. Qed.

Lemma stay_write_at q m b s s' : write_at q m b s = Ok s' → stage_dirs_stay s s'.
Proof.
  unfold write_at. destruct (stage_at s q) as [[d|m0 b0|t|m0]|] eqn:E; [done| |done|by intros [= <-]|]; intros [= <-];
    apply stay_put_free; eauto.
Qed.

Lemma stay_copy_at src dst cut s s' : copy_at src dst cut s = Ok s' → stage_dirs_stay s s'.
Proof.
  unfold copy_at. destruct (stage_find s true src) as [[q0 [d|m b|t|m]]|]; simpl; try done.
  destruct (resolve s true dst) as [q|]; simpl; [|done]. destruct (write_at q m (cut b) s) as [s1|] eqn:E; simpl; [|done].
  apply stay_write_at in E. destruct (stage_at s1 q) as [[d|m1 b1|t|m1]|] eqn:E1; intros [= <-]; try done.
  etrans; [exact E|]. apply stay_put_free. eauto.
Qed.

Section stage.
Context `{!Platform}.

Lemma whole_stays f s : stage_dirs_stay s (whole f s).
Proof. reflexivity. Qed.

Lemma stay_s_metadata follow p : keeps stage_dirs_stay (s_metadata follow p).
Proof.
  apply stage_stay_op; [|apply whole_stays]. intros s a s'. destruct (stage_find s follow p) as [[q n]|]; simpl; [|done].
  by intros [= _ <-].
Qed.

Lemma stay_s_mkdir p : keeps stage_dirs_stay (s_mkdir p).
Proof.
  apply stage_stay_op; [|apply whole_stays]. intros s a s'. destruct (resolve s false p) as [q|]; simpl; [|done].
  destruct (stage_at s q) eqn:E; [done|]. intros [= _ <-]. apply stay_put_free. by left.
Qed.

Lemma stay_s_is_dir {E} p : keeps stage_dirs_stay (s_is_dir p : M E Build bool).
Proof. unfold s_is_dir. keeps_step; [apply keeps_attempt, stay_s_metadata|keeps_step]. Qed.
Lemma stay_s_exists {E} p : keeps stage_dirs_stay (s_exists p : M E Build bool).
Proof. unfold s_exists. keeps_step; [apply keeps_attempt, stay_s_metadata|keeps_step]. Qed.
Lemma stay_s_is_file {E} p : keeps stage_dirs_stay (s_is_file p : M E Build bool).
Proof. unfold s_is_file. keeps_step; [apply keeps_attempt, stay_s_metadata|keeps_step]. Qed.

Lemma stay_create_rev r : keeps stage_dirs_stay (s_create_rev r).
Proof.
  induction r as [|n r IH]; cbn [s_create_rev]; (keeps_step; [apply keeps_attempt, stay_s_mkdir|]); (destruct a; [keeps_step|]); case_decide;
    repeat first [apply stay_s_is_dir | apply IH | apply keeps_attempt, stay_s_mkdir | keeps_step].
Qed.
Lemma stay_s_create_dir_all p : keeps stage_dirs_stay (s_create_dir_all p).
Proof. apply stay_create_rev. Qed.

Lemma stay_s_write p b : keeps stage_dirs_stay (s_write p b).
Proof.
  apply stage_stay_op.
  - intros s a s'. destruct (resolve s true p) as [q|]; simpl; [|done].
    destruct (write_at q file_mode b s) as [s1|] eqn:E; simpl; [|done]. intros [= _ <-]. by eapply stay_write_at.
  - intros f s. unfold torn_at. destruct (fault_progress f); [done|]. destruct (resolve s true p) as [q|]; simpl; [|done].
    destruct (write_at q file_mode _ s) as [s1|] eqn:E; [by eapply stay_write_at|done].
Qed.

Lemma stay_s_copy src dst : keeps stage_dirs_stay (s_copy src dst).
Proof.
  apply stage_stay_op.
  - intros s a s'. destruct (copy_at src dst id s) as [s1|] eqn:E; simpl; [|done]. intros [= _ <-]. by eapply stay_copy_at.
  - intros f s. destruct (fault_progress f); [done|]. destruct (copy_at src dst _ s) as [s1|] eqn:E; [by eapply stay_copy_at|done].
Qed.

Lemma stay_s_set_mode p mode : keeps stage_dirs_stay (s_set_mode p mode).
Proof.
  apply stage_stay_op; [|apply whole_stays]. intros s a s'. unfold stage_find.
  destruct (resolve s true p) as [q|]; simpl; [|done]. destruct (stage_at s q) as [n|] eqn:E; simpl; [|done]. intros [= _ <-].
  destruct n; apply stay_put || done; rewrite E; naive_solver.
Qed.

Lemma stay_s_symlink target p : keeps stage_dirs_stay (s_symlink target p).
Proof.
  apply stage_stay_op; [|apply whole_stays]. intros s a s'. destruct (resolve s false p) as [q|]; simpl; [|done].
  destruct (stage_at s q) eqn:E; [done|]. intros [= _ <-]. apply stay_put_free. by left.
Qed.
End stage.

#[export] Hint Resolve stay_s_metadata stay_s_mkdir stay_s_is_dir stay_s_exists stay_s_is_file stay_s_create_dir_all stay_s_write
  stay_s_copy stay_s_set_mode stay_s_symlink : keeps.

(** *** Operations on the host, seen from the stage *)

Lemma host_stays s f : dirs_stay (fe_world (bd_fetch s)) (fe_world f) → stage_dirs_stay s (mkBuild f (bd_root s) (bd_work s)).
Proof.
  intros Hs. split; [done|]. intros k m. unfold stage_at, host_files. simpl. destruct (bd_work s !! k); [eauto|].
  destruct k as [|x k]; [eauto|]. destruct (w_fs (fe_world (bd_fetch s)) !! (x :: k)) as [[d|]|] eqn:E; simpl; [|done..].
  destruct (Hs _ _ E) as [m' ->]. simpl. eauto.
Qed.

Definition fetch_stays (f f' : Fetch) : Prop := dirs_stay (fe_world f) (fe_world f').
#[global] Instance fetch_stays_preorder : PreOrder fetch_stays.
Proof. split; [intros f; unfold fetch_stays; reflexivity|]. intros f1 f2 f3 H12 H23. unfold fetch_stays. by etrans. Qed.

Lemma stay_fetching {A} (m : M string Fetch A) : keeps fetch_stays m → keeps stage_dirs_stay (fetching m).
Proof. intros Hm. eapply keeps_zoom; [|exact Hm]. intros s f Hf. by apply host_stays. Qed.

Lemma stay_disk {A} (m : M IoError World A) : keeps dirs_stay m → keeps fetch_stays (disk m).
Proof. intros Hm. eapply (keeps_zoom _ dirs_stay); [|by apply keeps_map_err]. done. Qed.

Lemma stay_on_host {A} (m : M IoError World A) : keeps dirs_stay m → keeps stage_dirs_stay (on_host m).
Proof. intros Hm. eapply keeps_zoom; [|apply stay_disk, Hm]. intros s f Hf. by apply host_stays. Qed.

Lemma stay_as_anyhow {A} (m : M SandboxError World A) : keeps dirs_stay m → keeps stage_dirs_stay (as_anyhow m).
Proof.
  intros Hm. eapply keeps_zoom; [|eapply (keeps_zoom fetch_stays dirs_stay)].
  - intros s f Hf. by apply host_stays.
  - done.
  - by apply keeps_map_err.
Qed.

Lemma same_stays s s' : same_stage s s' → stage_dirs_stay s s'.
Proof. intros Hs. split; [apply Hs|]. intros k m Hk. exists m. by rewrite (same_at _ _ _ Hs). Qed.

Section fetches.
Context `{!Platform, !ImageHost}.

Lemma stay_send url : keeps fetch_stays (send url).
Proof. intros f. unfold fetch_stays. simpl. reflexivity. Qed.

Lemma stay_fetch_to_file url p force : keeps fetch_stays (fetch_to_file url p force).
Proof.
  unfold fetch_to_file, verify_cached_download, regular_file, nonempty, download, read_to_string, with_context.
  repeat first [apply stay_send | apply stay_disk | keeps_step].
Qed.

Lemma stay_for_each {A} (f : A → M string Fetch ()) xs : (∀ x, keeps fetch_stays (f x)) → keeps fetch_stays (for_each f xs).
Proof. intros Hf. by apply keeps_for_each; [typeclasses eauto|]. Qed.

Ltac stay_tac := repeat first [apply stay_fetch_to_file | apply stay_send | apply stay_disk | keeps_step].

Lemma stay_sha256_loop fuel n rest k acc : keeps dirs_stay (sha256_loop fuel n rest k acc).
Proof.
  assert (Hpart : ∀ rest k, keeps dirs_stay (read_part n rest k)).
  { intros. apply stay_io_op; [|intros f fs; apply stay_refl]. intros fs a fs'. destruct n; [done|]. intros [= _ <-]. apply stay_refl. }
  revert rest k acc. induction fuel as [|fuel IH]; intros rest k acc; cbn [sha256_loop]; (keeps_step; [apply Hpart|]); destruct a; keeps_step.
Qed.

Lemma stay_fetch_rootfs cert arch p tar force : keeps fetch_stays (fetch_rootfs cert arch p tar force).
Proof.
  unfold fetch_rootfs, verify_sha256, verify_detached_signature, file_sha256, read_to_string, with_context, ensure.
  repeat first [apply stay_fetch_to_file | apply stay_sha256_loop | apply stay_disk | keeps_step].
Qed.

Lemma stay_extract_first archive member p entries : keeps fetch_stays (extract_first archive member p entries).
Proof.
  induction entries as [|entry entries IH]; cbn [extract_first]; [keeps_step|]. unfold with_context.
  repeat first [apply IH | apply stay_disk | keeps_step].
Qed.

Lemma stay_fetch_indexes dir arch force : keeps fetch_stays (fetch_indexes dir arch force).
Proof.
  apply stay_for_each. intros repo. unfold fetch_index, extract_member_from_tar_gz, with_context.
  repeat first [apply stay_extract_first | apply stay_fetch_to_file | apply stay_disk | keeps_step].
Qed.

Lemma stay_load_index repo dir index : keeps fetch_stays (load_index repo dir index).
Proof. unfold load_index, read_to_string, with_context. stay_tac. Qed.

Lemma stay_download_packages dir arch resolved force : keeps fetch_stays (download_packages dir arch resolved force).
Proof.
  unfold download_packages, write_package_manifest. stay_tac. apply stay_for_each. intros. apply stay_fetch_to_file.
Qed.

Lemma stay_fetch_packages spec arch d : keeps fetch_stays (fetch_packages spec arch d).
Proof.
  unfold fetch_packages, http_client, alpine_signing_cert, load_indexes, with_context.
  repeat first [apply stay_fetch_rootfs | apply stay_fetch_indexes | apply stay_load_index | apply stay_download_packages | apply stay_send | keeps_step].
Qed.
End fetches.

(** ** The steps of a build *)

(** What the tools are documented to do: an archive is unpacked below its
    destination, and so is what a
    package manager writes, below the directory it is given. *)
Class BuildLaws `{!BuildTools} : Prop := {
  tar_confined b d st q : ¬ (d `prefix_of` q ∧ q ≠ d) → (tar_unpack b d st).1 !! q = st !! q;
  helper_confined c d st q : display d ∈ c → ¬ (d `prefix_of` q ∧ q ≠ d) → (run_helper c st).2 !! q = st !! q;
}.

Definition no_dots (p : path) : Prop := Forall (λ n, n ≠ "." ∧ n ≠ "..") p.

(** A path whose directories are all there is walked as it is written. *)
Lemma walk_plain links fs cur rest :
  no_dots rest → (∀ r, r `prefix_of` rest → r ≠ [] → r ≠ rest → fs !! (cur ++ r) = Some GDir) →
  GuestFs.walk links fs false cur rest = Ok (cur ++ rest).
Proof.
  revert cur. induction rest as [|n rest IH]; intros cur Hd Hdirs; [by rewrite walk_nil, app_nil_r|].
  apply Forall_cons in Hd as [[Hn1 Hn2] Hd]. rewrite walk_cons, !decide_False by done.
  change (n :: rest) with ([n] ++ rest). rewrite (assoc_L (++)). destruct rest as [|k rest].
  { rewrite app_nil_r. destruct (fs !! (cur ++ [n])) as [[|b|t]|]; [by rewrite walk_nil|done| |done]. by rewrite decide_True. }
  rewrite (Hdirs [n]); [|by apply prefix_cons, prefix_nil|done..]. apply IH; [done|].
  intros r Hr Hne Hnr. rewrite <-(assoc_L (++)). apply Hdirs; [by apply prefix_cons|done|]. intros [=]. congruence.
Qed.

Lemma reached_view b s r : reached b s → r `prefix_of` b → r ≠ [] → view s !! r = Some GDir.
Proof. intros [_ Hr] Hp Hne. destruct (Hr r Hp Hne) as [m Hm]. by rewrite view_at, Hm. Qed.

Lemma reached_namei b s p : reached b s → no_dots p → parent p `prefix_of` b → resolve s false p = Ok p.
Proof.
  intros Hr Hd Hp. rewrite resolve_namei. unfold namei. rewrite walk_plain; [done|done|]. intros r Hrp Hne Hrp'. apply (reached_view b); [done| |done].
  etrans; [by apply parent_take_le|done].
Qed.

Section steps.
Context `{plat : !Platform, target : !Target, ihost : !ImageHost, elib : !Ext4Lib, tools : !BuildTools, blaws : !BuildLaws, serde : !Serde VmImageManifest}.
Context (b : path) (Hdots : no_dots b).

Abbreviation safe m := (keeps (preserves (reached b)) m).

Lemma safe_stage {A} (m : M IoError Build A) : keeps stage_dirs_stay m → safe (stage m).
Proof. intros Hm. by apply stay_reached, keeps_map_err. Qed.

Lemma safe_on_host {A} (m : M IoError World A) : keeps dirs_stay m → safe (on_host m).
Proof. intros Hm. by apply stay_reached, stay_on_host. Qed.

Lemma safe_context {A} c (m : M string Build A) : safe m → safe (context c m).
Proof. apply keeps_map_err. Qed.

(** The stage with other contents, the same outside of a directory below [b]. *)
Lemma safe_work s work dest :
  b `prefix_of` dest → (∀ q, ¬ (dest `prefix_of` q ∧ q ≠ dest) → work !! q = bd_work s !! q) → reached b s → reached b (set_work work s).
Proof using.
  intros Hb Hw [Hroot Hs]. split; [done|]. intros r Hp Hne. destruct (Hs r Hp Hne) as [m Hm]. exists m. rewrite <-Hm. unfold stage_at. simpl.
  rewrite Hw; [done|]. intros [Hd Hne']. apply Hne', (anti_symm prefix); [etrans; [exact Hp|done]|done].
Qed.

Lemma safe_unpack archive dest : b `prefix_of` dest → safe (unpack_with_tar archive dest).
Proof using blaws.
  intros Hb. unfold unpack_with_tar. keeps_step; [apply safe_stage, stay_s_create_dir_all|].
  keeps_step; [apply safe_context, safe_on_host, stay_read|]. apply safe_context. intros s Hs.
  destruct (tar_unpack a0 dest (bd_work s)) as [work error] eqn:E. apply (safe_work _ _ dest); [done| |done]. intros q Hq.
  replace work with (tar_unpack a0 dest (bd_work s)).1 by by rewrite E. by apply tar_confined.
Qed.

Lemma safe_run_command c what dir : b `prefix_of` dir → display dir ∈ c → safe (run_command c what).
Proof using blaws.
  intros Hb Hc s Hs. unfold run_command. destruct (run_helper c (bd_work s)) as [r work] eqn:E. apply (safe_work _ _ dir); [done| |done].
  intros q Hq. replace work with (run_helper c (bd_work s)).2 by by rewrite E. by eapply helper_confined.
Qed.

(** A directory right below [b] is removed as it is named. *)
Lemma without_at s q keep k : ¬ q `prefix_of` k → stage_at (without q keep s) k = stage_at s k.
Proof using.
  intros Hk. unfold stage_at, without, host_files. simpl.
  assert (∀ {A} (m : gmap path A), filter (λ kv, q `prefix_of` kv.1 → keep kv.1 = true) m !! k = m !! k) as Hf.
  { intros A m. rewrite map_lookup_filter. destruct (m !! k); simpl; [|done]. rewrite option_guard_True; [done|]. by intros ?. }
  by rewrite !Hf.
Qed.

Lemma safe_remove x : x ≠ "." → x ≠ ".." → safe (s_remove_dir_all (b ++ [x])).
Proof using Hdots.
  intros Hx1 Hx2 s Hs. assert (Hn : resolve s false (b ++ [x]) = Ok (b ++ [x])).
  { apply (reached_namei b); [done| |by rewrite parent_app]. apply Forall_app. by split; [|apply Forall_singleton]. }
  assert (Hwithout : ∀ keep, reached b (without (b ++ [x]) keep s)).
  { intros keep. destruct Hs as [Hroot Hs]. split; [done|]. intros r Hp Hne. rewrite without_at; [by apply Hs|].
    intros Hpre. apply (prefix_length (b ++ [x])) in Hpre. apply prefix_length in Hp. rewrite length_app in Hpre. simpl in Hpre. lia. }
  unfold s_remove_dir_all, stage_op. destruct (w_faults _) as [|[f|] l]; unfold stage_find; rewrite Hn; simpl;
    destruct (stage_at s (b ++ [x])) as [[]|]; simpl; first [exact Hs | apply Hwithout].
Qed.

Lemma safe_clear_dir x : x ≠ "." → x ≠ ".." → safe (clear_dir (b ++ [x])).
Proof using Hdots.
  intros. unfold clear_dir. keeps_step; [apply stay_reached, stay_s_exists|]. destruct a; [|keeps_step].
  by apply safe_context, keeps_map_err, safe_remove.
Qed.

Lemma safe_each {A} (f : A → M string Build ()) xs : (∀ x, safe (f x)) → safe (for_each f xs).
Proof using. intros Hf. by apply keeps_for_each; [typeclasses eauto|]. Qed.

Ltac safe_tac := repeat first
  [ apply safe_context | apply safe_stage; solve [eauto with keeps] | apply safe_on_host; solve [eauto with keeps]
  | apply safe_each; intros ? | apply stay_reached, stay_s_exists | apply stay_reached, stay_s_is_file | keeps_step ].

Lemma safe_ensure_real_bash dir : safe (ensure_real_bash dir).
Proof using. unfold ensure_real_bash, ensure_usr_bin_bash, expect. safe_tac. Qed.

Lemma safe_finish_rootfs apk resolved dir agent pip npm : b `prefix_of` dir → safe (finish_rootfs apk resolved dir agent pip npm).
Proof using blaws.
  intros Hb. unfold finish_rootfs, create_rootfs_mountpoints, install_guest_agent, write_guest_init, write_package_manager_defaults.
  repeat first [by apply safe_unpack | apply safe_ensure_real_bash | safe_tac].
Qed.

Lemma safe_rebuild_rootfs tar apk resolved agent pip npm : safe (rebuild_rootfs tar apk resolved (b ++ ["rootfs"]) agent pip npm).
Proof using Hdots blaws.
  assert (Hb : b `prefix_of` b ++ ["rootfs"]) by by apply prefix_app_r.
  unfold rebuild_rootfs. repeat first [by apply safe_unpack | by apply safe_clear_dir | by apply safe_finish_rootfs | safe_tac].
Qed.

Lemma safe_prepare_cache_dir apk resolved : safe (prepare_cache_dir (b ++ ["cache"]) apk resolved).
Proof using Hdots. unfold prepare_cache_dir. repeat first [by apply safe_clear_dir | safe_tac]. Qed.

Lemma safe_prepare_pip_cache arch requirements : safe (prepare_pip_cache (b ++ ["cache"]) arch requirements).
Proof using Hdots blaws.
  unfold prepare_pip_cache. case_decide; [keeps_step|]. keeps_step; [safe_tac|].
  apply (safe_run_command _ _ ((b ++ ["cache"]) ++ ["pip"; "wheels"])); [by do 2 apply prefix_app_r|]. apply elem_of_app. left. set_solver.
Qed.

Lemma safe_prepare_npm_cache packages : safe (prepare_npm_cache (b ++ ["cache"]) packages).
Proof using Hdots blaws.
  apply safe_each. intros x. apply (safe_run_command _ _ ((b ++ ["cache"]) ++ ["npm"])); [by do 2 apply prefix_app_r|]. set_solver.
Qed.

Lemma safe_extract_guest_agent image dest : safe (extract_guest_agent image dest).
Proof using. unfold extract_guest_agent. safe_tac. Qed.

Lemma safe_write_cache_metadata dir spec : safe (write_cache_metadata dir spec).
Proof using. unfold write_cache_metadata. safe_tac. Qed.

Lemma safe_stage_trees spec arch d resolved : dr_build d = b → safe (stage_trees spec arch d resolved).
Proof using Hdots blaws.
  intros Hd. unfold stage_trees, stage_cache, work_rootfs, work_cache. rewrite Hd.
  repeat first [apply safe_extract_guest_agent | apply safe_rebuild_rootfs | apply safe_prepare_cache_dir | apply safe_prepare_pip_cache
    | apply safe_prepare_npm_cache | apply safe_write_cache_metadata | keeps_step].
Qed.

(** *** Images *)

Lemma stay_device_put p c : keeps stage_dirs_stay (device_put p c).
Proof using.
  intros s. unfold device_put, modify. simpl. destruct (host_files s !! p) as [[d|m c0]|] eqn:E; [done| |done].
  apply (host_stays s (mkFetch (set_fs (<[p := File m c]> (host_files s)) (fe_world (bd_fetch s))) (fe_requests (bd_fetch s)))).
  apply (stay_insert_file (host_files s)). by rewrite E.
Qed.

Lemma stay_build_ext4 dir image mib : keeps stage_dirs_stay (build_ext4_image dir image mib).
Proof using.
  unfold build_ext4_image, context. keeps_step; [apply stay_on_host, stay_create_dir_all|].
  keeps_step; [eapply keeps_impl; [apply same_stays|apply keeps_estimate]|].
  keeps_step; [apply keeps_map_err, stay_on_host, stay_device_create|].
  keeps_step; [apply keeps_map_err|].
  { intros s. unfold format_device. destruct (host_files s !! image) as [[d|m c]|]; [done| |done].
    destruct (ext4_mkfs "sagens-image" c) as [r c']. apply (stay_device_put image c' s). }
  keeps_step; [apply keeps_map_err, stay_on_host, stay_device_open|]. keeps_step; [apply keeps_map_err; keeps_step|].
  intros s. unfold with_ext4. destruct (populate_ext4_from_dir dir (s, a4)) as [r [s' e']] eqn:E.
  assert (Hs : stage_dirs_stay s s').
  { apply same_stays. assert (unstaged (s, a4) (s', e')) as Hu; [|exact Hu].
    eapply (keeps_ok unstaged); [apply populate_keeps|exact E]. }
  destruct r; [destruct (ext4_umount e')|]; (etrans; [exact Hs|apply stay_device_put]).
Qed.

Lemma safe_write_image spec arch d resolved : safe (write_image spec arch d resolved).
Proof using.
  unfold write_image.
  repeat first [apply stay_reached, stay_build_ext4 | apply stay_reached, stay_as_anyhow, stay_now_ms | safe_tac].
Qed.
End steps.

(** ** Before anything is unpacked *)

(** Without links a path resolves to itself. *)
Definition nolinks (s : Build) : Prop := ∀ k t, bd_work s !! k ≠ Some (SLink t).

Lemma nolinks_view s k t : nolinks s → view s !! k ≠ Some (GLink t).
Proof.
  intros Hs. unfold view. rewrite lookup_union, !lookup_fmap. specialize (Hs k).
  destruct (bd_work s !! k) as [[]|], (host_files s !! k) as [[]|]; simpl; try done; intros [=]; by eapply Hs.
Qed.

Lemma walk_linkless links fs follow cur rest q :
  (∀ k t, fs !! k ≠ Some (GLink t)) → no_dots rest → GuestFs.walk links fs follow cur rest = Ok q → q = cur ++ rest.
Proof.
  intros Hl. revert cur. induction rest as [|n rest IH]; intros cur Hd; [rewrite walk_nil, app_nil_r; congruence|].
  apply Forall_cons in Hd as [[Hn1 Hn2] Hd]. rewrite walk_cons, !decide_False by done.
  change (n :: rest) with ([n] ++ rest). rewrite (assoc_L (++)).
  destruct (fs !! (cur ++ [n])) as [[|b|t]|] eqn:E; [by apply IH| |by destruct (Hl _ _ E)|];
    (destruct rest; [|done]); intros [= <-]; by rewrite app_nil_r.
Qed.

Lemma nolinks_namei s follow p q : nolinks s → no_dots p → resolve s follow p = Ok q → q = p.
Proof. rewrite resolve_namei. intros Hs Hd Hn. apply walk_linkless in Hn; [done| |done]. intros k t. by apply nolinks_view. Qed.

Lemma nolinks_put s q n : nolinks s → (∀ t, n ≠ SLink t) → nolinks (put q n s).
Proof.
  intros Hs Hn k t. unfold put. case_decide.
  - simpl. rewrite lookup_insert. case_decide; [|apply Hs]. intros [=]. by eapply Hn.
  - destruct n; simpl; try apply Hs; [by destruct (Hn target)|]. rewrite lookup_insert. case_decide; [done|apply Hs].
Qed.

Section fresh.
Context `{plat : !Platform}.

Lemma nolinks_op {A} (act : Build → Result IoError (A * Build)) torn :
  (∀ s a s', nolinks s → act s = Ok (a, s') → nolinks s') → (∀ f s, nolinks s → nolinks (torn f s)) →
  keeps (preserves nolinks) (stage_op act torn).
Proof.
  intros Hact Htorn s Hs. unfold stage_op. destruct (w_faults _) as [|[f|] l]; [|exact (Htorn f s Hs)|];
    (destruct (act s) as [[a s1]|e] eqn:E; [exact (Hact _ _ _ Hs E)|exact Hs]).
Qed.

Lemma nolinks_mkdir p : keeps (preserves nolinks) (s_mkdir p).
Proof.
  apply nolinks_op; [|done]. intros s a s' Hs. destruct (resolve s false p) as [q|]; simpl; [|done].
  destruct (stage_at s q); [done|]. intros [= _ <-]. by apply nolinks_put.
Qed.

Lemma nolinks_metadata follow p : keeps (preserves nolinks) (s_metadata follow p).
Proof.
  apply nolinks_op; [|done]. intros s a s' Hs. destruct (stage_find s follow p) as [[q n]|]; simpl; [|done]. by intros [= _ <-].
Qed.

Lemma nolinks_is_dir {E} p : keeps (preserves nolinks) (s_is_dir p : M E Build bool).
Proof. unfold s_is_dir. keeps_step; [apply keeps_attempt, nolinks_metadata|keeps_step]. Qed.

Lemma nolinks_create_rev r : keeps (preserves nolinks) (s_create_rev r).
Proof.
  induction r as [|n r IH]; cbn [s_create_rev]; (keeps_step; [apply keeps_attempt, nolinks_mkdir|]); (destruct a; [keeps_step|]); case_decide;
    repeat first [apply nolinks_is_dir | apply IH | apply keeps_attempt, nolinks_mkdir | keeps_step].
Qed.

(** A directory that was created is there. *)
Lemma mkdir_made p s u s' : nolinks s → no_dots p → s_mkdir p s = (Ok u, s') → bd_root s `prefix_of` p → ∃ m, stage_at s' p = Some (SDir m).
Proof.
  intros Hs Hd (s1 & Hact & ->)%stage_op_ok Hroot. destruct (resolve s false p) as [q|] eqn:Eq; simpl in Hact; [|done].
  apply nolinks_namei in Eq as ->; [|done..]. destruct (stage_at s p); [done|]. injection Hact as _ <-.
  exists dir_mode. change (stage_at (put p (SDir dir_mode) s) p = Some (SDir dir_mode)). unfold put. rewrite decide_True by done.
  unfold stage_at. simpl. by rewrite lookup_insert_eq.
Qed.

Lemma is_dir_there {E} p s s' : nolinks s → no_dots p → (s_is_dir p : M E Build bool) s = (Ok true, s') → ∃ m, stage_at s' p = Some (SDir m).
Proof.
  intros Hs Hd (r & s1 & H1 & H2)%bind_ok_inv. apply ret_ok_inv in H2 as [H2 <-]. destruct r as [[m| | |]|]; try done.
  apply attempt_returned in H1. apply s_metadata_ok in H1 as (q & Hfind & Hsame). exists m. rewrite (same_at _ _ _ Hsame).
  unfold stage_find in Hfind. destruct (resolve s true p) as [q'|] eqn:Eq; simpl in Hfind; [|done].
  apply nolinks_namei in Eq as ->; [|done..]. destruct (stage_at s p) as [n|]; simpl in Hfind; [|done]. by injection Hfind as _ ->.
Qed.

Lemma create_dir_all_made r s u s' :
  nolinks s → no_dots (rev r) → bd_root s `prefix_of` rev r → s_create_rev r s = (Ok u, s') → ∃ m, stage_at s' (rev r) = Some (SDir m).
Proof.
  intros Hs Hd Hroot Hrun.
  assert (Hmk : ∀ s1 x s2, nolinks s1 → bd_root s1 = bd_root s → (attempt (s_mkdir (rev r)) : M IoError Build _) s1 = (Ok x, s2) →
    nolinks s2 ∧ bd_root s2 = bd_root s ∧ ∀ v, x = Ok v → ∃ m, stage_at s2 (rev r) = Some (SDir m)).
  { intros s1 x s2 Hs1 Hr1 H1%attempt_returned. split_and!.
    - pose proof (nolinks_mkdir (rev r) s1 Hs1) as Hn. by rewrite H1 in Hn.
    - destruct (stay_s_mkdir (rev r) s1) as [Hr _]. rewrite H1 in Hr. simpl in Hr. congruence.
    - intros v ->. eapply mkdir_made; [exact Hs1|done|exact H1|by rewrite Hr1]. }
  destruct r as [|n r]; cbn [s_create_rev] in Hrun; apply bind_ok_inv in Hrun as (r1 & s1 & H1 & Hrun);
    destruct (Hmk _ _ _ Hs eq_refl H1) as (Hs1 & Hr1 & Hm1); (destruct r1 as [v|e];
      [apply ret_ok_inv in Hrun as [_ <-]; by eapply Hm1|]); case_decide.
  - done.
  - apply bind_ok_inv in Hrun as ([|] & s2 & H2 & Hrun); [|done]. apply ret_ok_inv in Hrun as [_ <-]. by eapply is_dir_there.
  - apply bind_ok_inv in Hrun as ([] & s2 & H2 & Hrun).
    assert (Hs2 : nolinks s2). { pose proof (nolinks_create_rev r s1 Hs1) as Hn. by rewrite H2 in Hn. }
    assert (Hr2 : bd_root s2 = bd_root s). { destruct (stay_create_rev r s1) as [Hr _]. rewrite H2 in Hr. simpl in Hr. congruence. }
    apply bind_ok_inv in Hrun as (r3 & s3 & H3 & Hrun). destruct (Hmk _ _ _ Hs2 Hr2 H3) as (Hs3 & Hr3 & Hm3).
    destruct r3 as [v|e']; [apply ret_ok_inv in Hrun as [_ <-]; by eapply Hm3|].
    apply bind_ok_inv in Hrun as ([|] & s4 & H4 & Hrun); [|done]. apply ret_ok_inv in Hrun as [_ <-]. by eapply is_dir_there.
  - apply bind_ok_inv in Hrun as ([|] & s2 & H2 & Hrun); [|done]. apply ret_ok_inv in Hrun as [_ <-]. by eapply is_dir_there.
Qed.
End fresh.

(** ** The start of a build *)

Section start.
Context `{plat : !Platform, target : !Target, ihost : !ImageHost, elib : !Ext4Lib, tools : !BuildTools, blaws : !BuildLaws, serde : !Serde VmImageManifest}.

Lemma as_anyhow_ok {A} (m : M SandboxError World A) s a s' :
  as_anyhow m s = (Ok a, s') →
  ∃ w, m (fe_world (bd_fetch s)) = (Ok a, w) ∧ host_files s' = w_fs w ∧ bd_work s' = bd_work s ∧ bd_root s' = bd_root s.
Proof.
  unfold as_anyhow, zoom, map_err. simpl. destruct (m (fe_world (bd_fetch s))) as [[b|x] w]; intros [= <- <-]; by exists w.
Qed.

(** All directories down to [p] are on the host. *)
Definition host_dir (p : path) (fs : gmap path node) : Prop := ∀ r, r `prefix_of` p → r ≠ [] → ∃ m, fs !! r = Some (Dir m).

Lemma host_dir_stay p fs fs' : fs_dirs_stay fs fs' → host_dir p fs → host_dir p fs'.
Proof. intros Hs Hp r Hr Hne. destruct (Hp r Hr Hne) as [m Hm]. by eapply Hs. Qed.

Lemma created_host_dir p w u w' : fs_create_dir_all p w = (Ok u, w') → host_dir p (w_fs w').
Proof.
  intros Hrun r Hr Hne. pose proof (create_dir_all_free _ _ _ _ Hrun) as Hfree. apply create_dir_all_ok in Hrun. rewrite Hrun.
  destruct (w_fs w !! r) as [[m|m c]|] eqn:E.
  - exists m. by apply lookup_union_Some_l.
  - exfalso. by eapply (proj1 (dir_free_spec _ _) Hfree).
  - destruct (proj2 (dir_chain_lookup p r)) as [n Hn]; [done|]. exists dir_mode. apply lookup_union_Some_raw. right.
    by rewrite (dir_chain_dir _ _ _ Hn) in Hn.
Qed.

Lemma claim_image_ok spec s arch s' :
  claim_image spec s = (Ok arch, s') →
  valid_id (ib_name spec) ∧ ib_name spec ≠ BASE_IMAGE_NAME ∧ default_guest_arch = Ok arch ∧
  host_dir (images_dir (ib_state_dir spec)) (host_files s').
Proof.
  unfold claim_image. intros Hrun. apply bind_ok_inv in Hrun as ([] & s1 & (w1 & [Hv <-]%lift_ok_inv & H1)%as_anyhow_ok & Hrun).
  apply bind_ok_inv in Hrun as ([] & s2 & H2 & Hrun). unfold expect in H2.
  destruct (String.eqb_spec (ib_name spec) BASE_IMAGE_NAME) as [|Hbase]; [done|]. apply ret_ok_inv in H2 as [_ <-].
  apply bind_ok_inv in Hrun as ([] & s3 & (w3 & H3 & Hh3 & _)%as_anyhow_ok & Hrun).
  unfold image_ensure_layout in H3. apply bind_ok_inv in H3 as ([] & w4 & H4%map_err_ok_inv%created_host_dir & H5%map_err_ok_inv).
  pose proof (stay_create_dir_all (package_cache_dir (ib_state_dir spec)) w4) as Hstay. rewrite H5 in Hstay.
  apply bind_ok_inv in Hrun as (a & s4 & (w5 & [Ha <-]%lift_ok_inv & Hh5 & _)%as_anyhow_ok & Hrun).
  apply bind_ok_inv in Hrun as (present & s5 & (w6 & H6 & Hh6 & _)%as_anyhow_ok & Hrun).
  assert (Hdir : host_dir (images_dir (ib_state_dir spec)) (host_files s5)).
  { assert (w_fs w6 = host_files s4) as Hsame.
    { unfold path_exists in H6. apply bind_ok_inv in H6 as (r & w7 & H7%attempt_returned & H6). apply ret_ok_inv in H6 as [_ <-].
      pose proof (metadata_reads (image_dir (ib_state_dir spec) (ib_name spec)) (fe_world (bd_fetch s4))) as Hm. by rewrite H7 in Hm. }
    rewrite Hh6, Hsame, Hh5. change (w_fs (fe_world (bd_fetch s3))) with (host_files s3). rewrite Hh3. by eapply host_dir_stay. }
  apply bind_ok_inv in Hrun as ([] & s6 & H7 & Hrun). apply ret_ok_inv in Hrun as [<- <-].
  apply validate_persisted_id_ok in Hv. split_and!; [done..|]. destruct present; [|by apply ret_ok_inv in H7 as [_ <-]].
  destruct (negb (ib_force_refresh spec)); [done|]. apply context_returned, on_host_ok in H7 as (w8 & [H8 _]%io_op_ok & Hh8 & _).
  rewrite Hh8. change (w_fs (fe_world (bd_fetch s5))) with (host_files s5) in H8.
  destruct (host_files s5 !! _) as [[d|]|]; [|done..]. injection H8 as H8. rewrite <-H8.
  intros r Hr Hne. destruct (Hdir r Hr Hne) as [m Hm]. exists m. apply map_lookup_filter_Some. split; [done|]. simpl. intros Hp.
  apply prefix_length in Hp, Hr. unfold image_dir, images_dir in *. rewrite !length_app in *. simpl in *. lia.
Qed.

Definition dirs_of (spec : ImageBuildSpec) (arch : string) (id : Uuid) : BuildDirs :=
  mkBuildDirs (image_dir (ib_state_dir spec) (ib_name spec))
    (images_dir (ib_state_dir spec) ++ [".build-" ^+ ib_name spec ^+ "-" ^+ uuid_simple id])
    (package_cache_dir (ib_state_dir spec) ++ ["alpine"; "v3.23"; arch]).

Lemma create_build_dirs_ok spec arch s d s' :
  no_dots (ib_state_dir spec) → host_dir (images_dir (ib_state_dir spec)) (host_files s) →
  create_build_dirs spec arch s = (Ok d, s') →
  (∃ id, d = dirs_of spec arch id) ∧ no_dots (dr_build d) ∧ reached (dr_build d) s' ∧ nolinks s'.
Proof.
  intros Hd Hdir Hrun. unfold create_build_dirs in Hrun.
  apply bind_ok_inv in Hrun as (id & s1 & (w1 & H1 & Hh1 & _)%as_anyhow_ok & Hrun). cbv zeta in Hrun. fold (dirs_of spec arch id) in Hrun.
  assert (Hw1 : w_fs w1 = host_files s) by (by injection H1 as _ <-).
  apply bind_ok_inv in Hrun as ([] & s2 & (w2 & H2 & Hh2 & _)%on_host_ok & Hrun).
  pose proof (stay_create_dir_all (dr_image (dirs_of spec arch id)) (fe_world (bd_fetch s1))) as Hst2. rewrite H2 in Hst2.
  apply bind_ok_inv in Hrun as ([] & s3 & H3 & Hrun). injection H3 as <-.
  set (b := dr_build (dirs_of spec arch id)) in *.
  assert (Hb : no_dots b).
  { apply Forall_app. split; [apply Forall_app; split; [done|by repeat constructor]|]. apply Forall_singleton. split; [done|].
    by destruct (ib_name spec ^+ "-" ^+ uuid_simple id). }
  apply bind_ok_inv in Hrun as ([] & s4 & H4%map_err_ok_inv & Hrun).
  assert (Hnl : nolinks (mkBuild (bd_fetch s2) b ∅)) by (intros k t; simpl; by rewrite lookup_empty).
  pose proof (keeps_ok _ _ _ _ _ (nolinks_create_rev (rev b)) H4 Hnl) as Hnl4.
  pose proof (keeps_ok _ _ _ _ _ (stay_s_create_dir_all b) H4) as Hst4.
  assert (Hmade : ∃ m, stage_at s4 b = Some (SDir m)).
  { unfold s_create_dir_all in H4. apply create_dir_all_made in H4; rewrite ?rev_involutive in *; done. }
  assert (Hr4 : reached b s4).
  { split; [apply Hst4|]. intros r Hp Hne. destruct (decide (r = b)) as [->|Hrb]; [done|].
    apply parent_take_le in Hp; [|done]. unfold b in Hp. simpl in Hp. rewrite parent_app in Hp.
    assert (Hdir2 : host_dir (images_dir (ib_state_dir spec)) (host_files s2)).
    { rewrite Hh2. eapply host_dir_stay; [exact Hst2|]. change (w_fs (fe_world (bd_fetch s1))) with (host_files s1). by rewrite Hh1, Hw1. }
    destruct (Hdir2 r Hp Hne) as [m Hm]. destruct (proj2 Hst4 r m) as [m' Hm']; [|by exists m'].
    unfold stage_at, host_files in *. simpl. rewrite lookup_empty. destruct r; [done|]. by rewrite Hm. }
  assert (Hhost : ∀ p u v, nolinks u → reached b u → on_host (fs_create_dir_all p) u = (Ok (), v) → nolinks v ∧ reached b v).
  { intros p u v Hu1 Hu2 Hv. pose proof (keeps_ok _ _ _ _ _ (safe_on_host b _ (stay_create_dir_all p)) Hv Hu2).
    apply on_host_ok in Hv as (w & _ & _ & Hw & _). split; [intros k t; rewrite Hw; apply Hu1|done]. }
  apply bind_ok_inv in Hrun as ([] & s5 & H5 & Hrun). destruct (Hhost _ _ _ Hnl4 Hr4 H5) as [Hnl5 Hr5].
  apply bind_ok_inv in Hrun as ([] & s6 & H6 & Hrun). destruct (Hhost _ _ _ Hnl5 Hr5 H6) as [Hnl6 Hr6].
  apply bind_ok_inv in Hrun as ([] & s7 & H7 & Hrun). destruct (Hhost _ _ _ Hnl6 Hr6 H7) as [Hnl7 Hr7].
  apply ret_ok_inv in Hrun as [<- <-]. split_and!; [by exists id|done..].
Qed.

(** ** The files of the image *)

(** The files a store finds in an image's directory. *)
Definition image_files (dir : path) (manifest : VmImageManifest) (fs : gmap path node) : Prop :=
  (∃ m c, fs !! (dir ++ ["vmlinuz-virt"]) = Some (File m c)) ∧
  (∃ m c, fs !! (dir ++ ["rootfs.raw"]) = Some (File m c)) ∧
  (∃ m c, fs !! (dir ++ ["cache.raw"]) = Some (File m c)) ∧
  (∃ m data, fs !! (dir ++ [IMAGE_MANIFEST]) = Some (File m (Text data)) ∧ to_vec manifest = Ok data).

Definition manifest_of (spec : ImageBuildSpec) (arch : string) (created_at_ms : Z) (resolved : list Package) : VmImageManifest :=
  mkImageManifest 1 (ib_name spec) arch ALPINE_VERSION created_at_ms (ib_apk spec) (ib_pip spec) (ib_npm spec)
    "vmlinuz-virt" "rootfs.raw" (Some "cache.raw") (Z.of_nat (length resolved)).

Lemma snoc_ne (dir : path) x y : x ≠ y → dir ++ [x] ≠ dir ++ [y].
Proof. intros Hxy E. apply app_inj_tail in E as [_ ?]. done. Qed.

Lemma write_image_ok spec arch d resolved s manifest s' :
  write_image spec arch d resolved s = (Ok manifest, s') →
  image_files (dr_image d) manifest (host_files s') ∧ bd_work s' = bd_work s ∧ ∃ t, manifest = manifest_of spec arch t resolved.
Proof.
  unfold write_image. intros Hrun.
  apply bind_ok_inv in Hrun as ([] & s1 & (w1 & (mk & ck & _ & H1)%copy_ok & Hh1 & Hw1 & _)%context_returned%on_host_ok & Hrun).
  apply bind_ok_inv in Hrun as ([] & s2 & [(Hw2 & _ & Hk2) (mr & cr & Hr2)]%build_ext4_beside & Hrun).
  apply bind_ok_inv in Hrun as ([] & s3 & [(Hw3 & _ & Hk3) (mc & cc & Hc3)]%build_ext4_beside & Hrun).
  apply bind_ok_inv in Hrun as (t & s4 & (w4 & H4 & Hh4 & Hw4 & _)%as_anyhow_ok & Hrun). cbv zeta in Hrun.
  assert (Hs4 : host_files s4 = host_files s3) by (rewrite Hh4; by injection H4 as _ <-).
  apply bind_ok_inv in Hrun as (data & s5 & [Hdata <-]%lift_ok_inv & Hrun).
  apply bind_ok_inv in Hrun as ([] & s6 & (w6 & [mm H6]%write_ok & Hh6 & Hw6 & _)%on_host_ok & Hrun). apply ret_ok_inv in Hrun as [<- <-].
  change (w_fs (fe_world (bd_fetch s4))) with (host_files s4) in H6. rewrite Hs4 in H6.
  assert (Hker : host_files s1 !! (dr_image d ++ ["vmlinuz-virt"]) = Some (File mk ck)) by (by rewrite Hh1, H1, lookup_insert_eq).
  split; [|split; [congruence|by exists t]]. rewrite Hh6, H6. unfold image_files. split_and!.
  - exists mk, ck. rewrite lookup_insert_ne by by apply snoc_ne. apply Hk3; [by apply snoc_ne|]. apply Hk2; [by apply snoc_ne|done].
  - exists mr, cr. rewrite lookup_insert_ne by by apply snoc_ne. by apply Hk3; [apply snoc_ne|].
  - exists mc, cc. by rewrite lookup_insert_ne by by apply snoc_ne.
  - exists mm, data. by rewrite lookup_insert_eq.
Qed.

(** What the store makes of them. *)
Lemma read_still p w m c : clean w → w_fs w !! p = Some (File m c) → fs_read p w = (Ok (content_bytes c), w).
Proof. intros Hc Hp. unfold fs_read. rewrite io_op_clean by done. unfold read_node. rewrite Hp. simpl. by rewrite set_fs_id. Qed.

Lemma ensure_file_still p label w m c : clean w → w_fs w !! p = Some (File m c) → ensure_file p label w = (Ok (), w).
Proof.
  intros Hc Hp. unfold ensure_file, is_file, attempt, mbind, M_bind, fs_metadata. rewrite io_op_clean by done. rewrite Hp. simpl.
  by rewrite set_fs_id.
Qed.

Lemma detect_still p g w : clean w → ∃ format, detect_from_path p g w = (Ok format, w).
Proof.
  intros Hc. unfold detect_from_path. case_decide; [by eexists|]. destruct (last p ≫= detect_from_file_name); [by eexists|].
  unfold attempt, mbind, M_bind, fs_read. rewrite io_op_clean by done.
  destruct (read_node (w_fs w) p); simpl; [rewrite set_fs_id|]; by eexists.
Qed.

Lemma image_resolves `{slaws : !SerdeLaws VmImageManifest} state name g manifest t resolved spec arch w :
  valid_id name → name ≠ BASE_IMAGE_NAME → manifest = manifest_of spec arch t resolved →
  image_files (image_dir state name) manifest (w_fs w) → clean w →
  inspect state name w = (Ok manifest, w) ∧
  ∃ format, resolve_guest state name g w =
    (Ok (mkResolved (with_image g (image_dir state name ++ ["vmlinuz-virt"]) format (image_dir state name ++ ["rootfs.raw"]))
           (Some (image_dir state name ++ ["cache.raw"]))), w).
Proof.
  intros Hv Hbase Hman ((mk & ck & Hk) & (mr & cr & Hr) & (mc & cc & Hcache) & (mm & data & Hm & Hdata)) Hc.
  assert (Hval : validate_image_name name = Ok ()) by by apply validate_persisted_id_ok.
  assert (Hread : read_manifest (image_dir state name ++ [IMAGE_MANIFEST]) w = (Ok manifest, w)).
  { unfold read_manifest. rewrite (bind_ok _ _ _ data w); [|apply map_err_ok; by apply (read_still _ _ _ _ Hc) in Hm].
    apply map_err_ok. destruct (from_to_vec manifest) as (data' & Hd & Hfrom). unfold lift. congruence. }
  assert (Hne : String.eqb name BASE_IMAGE_NAME = false) by by apply String.eqb_neq. split.
  - unfold inspect. rewrite (bind_ok _ _ _ () w); [|unfold lift; by rewrite Hval]. by rewrite Hne.
  - destruct (detect_still (image_dir state name ++ ["vmlinuz-virt"]) (kernel_format g) w Hc) as [format Hf]. exists format.
    unfold resolve_guest. rewrite (bind_ok _ _ _ () w); [|unfold lift; by rewrite Hval]. rewrite Hne. cbv zeta.
    rewrite (bind_ok _ _ _ _ _ Hread). subst manifest. simpl im_kernel_image. simpl im_rootfs_image. simpl im_cache_image.
    change (join_path (image_dir state name) "vmlinuz-virt") with (image_dir state name ++ ["vmlinuz-virt"]).
    change (join_path (image_dir state name) "rootfs.raw") with (image_dir state name ++ ["rootfs.raw"]).
    change (join_path (image_dir state name) <$> Some "cache.raw") with (Some (image_dir state name ++ ["cache.raw"])).
    rewrite (bind_ok _ _ _ _ _ (ensure_file_still _ "image kernel" _ _ _ Hc Hk)).
    rewrite (bind_ok _ _ _ _ _ (ensure_file_still _ "image rootfs" _ _ _ Hc Hr)).
    rewrite (bind_ok _ _ _ _ _ (ensure_file_still _ "image cache" _ _ _ Hc Hcache)).
    by rewrite (bind_ok _ _ _ _ _ Hf).
Qed.

(** Removing the build directory leaves what is not in it. *)
Lemma cleanup_host b s k :
  reached b s → no_dots b → ¬ b `prefix_of` k → host_files (s_remove_dir_all b s).2 !! k = host_files s !! k.
Proof.
  intros Hr Hd Hk. assert (Hn : resolve s false b = Ok b).
  { apply (reached_namei b); [done..|]. unfold parent. apply prefix_take. }
  assert (Hout : ∀ keep, host_files (without b keep s) !! k = host_files s !! k).
  { intros keep. unfold without, host_files. simpl. rewrite map_lookup_filter. destruct (w_fs _ !! k); simpl; [|done].
    rewrite option_guard_True; [done|]. by intros ?. }
  unfold s_remove_dir_all, stage_op. destruct (w_faults _) as [|[f|] l]; unfold stage_find; rewrite Hn; simpl;
    destruct (stage_at s b) as [[]|]; simpl; first [done | apply Hout].
Qed.

Lemma build_not_image spec id x :
  ¬ (images_dir (ib_state_dir spec) ++ [".build-" ^+ ib_name spec ^+ "-" ^+ uuid_simple id]) `prefix_of`
      (image_dir (ib_state_dir spec) (ib_name spec) ++ [x]).
Proof.
  unfold images_dir, image_dir. rewrite <-!(assoc_L (++)). intros Hp%prefix_app_inv. apply prefix_cons_inv_2, prefix_cons_inv_1 in Hp.
  apply (f_equal String.length) in Hp. rewrite !string_length_app in Hp. simpl in Hp. lia.
Qed.

(** C21: what is built can be booted.  When a build of an image succeeds, whatever was downloaded and
    unpacked on the way, the image store, asked on the disk the build left, inspects the image to
    the manifest the build returned (name, packages and number of resolved packages as specified)
    and resolves it to its kernel, root file system and cache in the image's own directory: the
    removal of the build directory at the end takes none of them. *)
Theorem built_image_resolves `{slaws : !SerdeLaws VmImageManifest} spec s manifest s' w g :
  no_dots (ib_state_dir spec) → build_image spec s = (Ok manifest, s') → w_fs w = host_files s' → clean w →
  let dir := image_dir (ib_state_dir spec) (ib_name spec) in
  (∃ arch t resolved, default_guest_arch = Ok arch ∧ manifest = manifest_of spec arch t resolved) ∧
  inspect (ib_state_dir spec) (ib_name spec) w = (Ok manifest, w) ∧
  ∃ format, resolve_guest (ib_state_dir spec) (ib_name spec) g w =
    (Ok (mkResolved (with_image g (dir ++ ["vmlinuz-virt"]) format (dir ++ ["rootfs.raw"])) (Some (dir ++ ["cache.raw"]))), w).
Proof using blaws.
  intros Hdots Hrun%map_err_ok_inv Hw Hc dir. unfold build_image_inner in Hrun.
  apply bind_ok_inv in Hrun as (arch & s1 & (Hv & Hbase & Harch & Hdir)%claim_image_ok & Hrun).
  apply bind_ok_inv in Hrun as (d & s2 & H2 & Hrun). apply create_build_dirs_ok in H2 as ([id ->] & Hb & Hr2 & _); [|done..].
  set (b := dr_build (dirs_of spec arch id)) in *.
  apply bind_ok_inv in Hrun as (resolved & s3 & H3 & Hrun).
  pose proof (keeps_ok _ _ _ _ _ (stay_reached b _ (stay_fetching _ (stay_fetch_packages spec arch _))) H3 Hr2) as Hr3.
  apply bind_ok_inv in Hrun as ([] & s4 & H4 & Hrun).
  pose proof (keeps_ok _ _ _ _ _ (safe_stage_trees b Hb spec arch (dirs_of spec arch id) resolved eq_refl) H4 Hr3) as Hr4.
  apply bind_ok_inv in Hrun as (manifest' & s5 & H5 & Hrun).
  pose proof (keeps_ok _ _ _ _ _ (safe_write_image b spec arch (dirs_of spec arch id) resolved) H5 Hr4) as Hr5.
  apply write_image_ok in H5 as (Hfiles & _ & t & Hman).
  apply bind_ok_inv in Hrun as (r & s6 & H6%attempt_returned & Hrun). apply ret_ok_inv in Hrun as [-> <-].
  assert (Hkeep : ∀ x, w_fs w !! (dir ++ [x]) = host_files s5 !! (dir ++ [x])).
  { intros x. rewrite Hw. replace s6 with (s_remove_dir_all b s5).2; [apply cleanup_host; [done..|apply build_not_image]|].
    unfold stage, staged, map_err in H6. destruct (s_remove_dir_all _ s5) as [[]]; by injection H6. }
  split; [by exists arch, t, resolved|]. eapply image_resolves; [done..| |done].
  unfold image_files in *. by rewrite !Hkeep.
Qed.
End start.
