(* ===== verification/ImageSigned.v ===== *)
(** * ImageSigned: an image starts from the archive that was verified

    Between the verification of the root file system's archive and its unpacking
    a build downloads indexes and packages, whose names come from an index nobody
    verified, and writes into its build directory.  None of this replaces the
    archive. *)

From S2P Require Import Prelude RustStd Text Paths FileSystem PrivateFs FsTree Manifest GuestFs Config HostConfig Update Lineage Images Packages ImageFetch StageFs Ext4Image BoxApi ImageBuild ImageBuilt.

(** ** Names *)

Lemma split_on_last c a suffix :
  all_chars (λ x, negb (Ascii.eqb x c)) suffix = true → ∃ front x, split_on c (a ^+ suffix) = front ++ [x ^+ suffix].
Proof.
  intros Hs. induction a as [|y a (front & x & IH)].
  - assert (Hone : split_on c suffix = [suffix]).
    { clear -Hs. induction suffix as [|z s IH]; [done|]. simpl in Hs. apply andb_prop in Hs as [Hz Hs]. simpl.
      destruct (Ascii.eqb z c); [done|]. by rewrite IH. }
    exists [], "". exact Hone.
  - simpl. destruct (Ascii.eqb y c); [exists (EmptyString :: front), x; by rewrite IH|]. rewrite IH.
    destruct front as [|w front]; [by exists [], (String y x)|by exists (String y w :: front), x].
Qed.

(** A name that ends in [.apk] leads to a file that does. *)
Lemma apk_path dir a : ∃ x, last (join_path dir (a ^+ ".apk")) = Some (x ^+ ".apk").
Proof.
  destruct (split_on_last slash a ".apk" eq_refl) as (front & x & Hsplit). exists x.
  assert (Hseg : segment (x ^+ ".apk") = Some (Normal (x ^+ ".apk"))).
  { unfold segment. rewrite !decide_False; [done| | |]; by destruct x as [|? [|? [|? ?]]]. }
  assert (Hbody : omap segment (split_on slash (a ^+ ".apk")) = omap segment front ++ [Normal (x ^+ ".apk")]).
  { rewrite Hsplit, omap_app. simpl. by rewrite Hseg. }
  assert (Hlast : ∃ cs, components (a ^+ ".apk") = cs ++ [Normal (x ^+ ".apk")]).
  { unfold components. rewrite Hbody. destruct (starts_with "/" (a ^+ ".apk")); [by exists (RootDir :: omap segment front)|].
    destruct (split_on slash (a ^+ ".apk")); [by eexists|]. case_decide; [by exists (CurDir :: omap segment front)|by eexists]. }
  destruct Hlast as [cs Hcs]. unfold join_path, Images.walk. rewrite Hcs, foldl_app. simpl. by rewrite last_snoc.
Qed.

Lemma rev_app_str (x s : string) : string_rev (x ^+ s) = string_rev s ^+ string_rev x.
Proof. unfold string_rev at 1. by rewrite string_rev_app_app, string_rev_app_acc. Qed.

Lemma apk_not_gz x y : x ^+ ".apk" ≠ y ^+ ".tar.gz".
Proof. intros E. apply (f_equal string_rev) in E. by rewrite !rev_app_str in E. Qed.
Lemma local_not_gz x y : x ^+ ".sha256.local" ≠ y ^+ ".tar.gz".
Proof. intros E. apply (f_equal string_rev) in E. by rewrite !rev_app_str in E. Qed.

Lemma tar_name_gz arch : ∃ y, rootfs_tar_name arch = y ^+ ".tar.gz".
Proof.
  unfold rootfs_tar_name. exists ("alpine-minirootfs-" ^+ ALPINE_VERSION ^+ "-" ^+ arch). by rewrite !string_app_assoc.
Qed.

(** ** The archive stays *)

Section stays.
Context `{plat : !Platform, ihost : !ImageHost}.
Context (T : path).

Definition file_stays (f f' : Fetch) : Prop := ∀ n, w_fs (fe_world f) !! T = Some n → w_fs (fe_world f') !! T = Some n.
#[local] Instance file_stays_preorder : PreOrder file_stays.
Proof. split; [by intros f n|]. intros f1 f2 f3 H12 H23 n Hn. auto. Qed.

Lemma fstay_disk {A} (m : M IoError World A) : keeps (frame (λ q, q ≠ T)) m → keeps file_stays (disk m).
Proof.
  intros Hm. eapply keeps_zoom; [|apply keeps_map_err, Hm]. intros f w Hw n Hn. simpl. rewrite Hw; [done|]. tauto.
Qed.

Lemma fstay_create p : keeps file_stays (disk (fs_create_dir_all p)).
Proof.
  eapply (keeps_zoom _ (λ w w', ∀ n, w_fs w !! T = Some n → w_fs w' !! T = Some n)); [done|]. apply keeps_map_err.
  intros w n Hn. unfold fs_create_dir_all, io_op. destruct (w_faults w) as [|[f|] l]; simpl.
  - destruct (has_file_prefix _ _); simpl; [done|]. by apply lookup_union_Some_l.
  - destruct (has_file_prefix _ _); simpl; [done|]. by apply lookup_union_Some_l.
  - destruct (has_file_prefix _ _); simpl; [done|]. by apply lookup_union_Some_l.
Qed.

Lemma fstay_write p b : p ≠ T → keeps file_stays (disk (fs_write p b)).
Proof. intros Hp. by apply fstay_disk, keeps_write. Qed.

Lemma fstay_send url : keeps file_stays (send url).
Proof. by intros f n. Qed.

Lemma fstay_reads {A} (m : M IoError World A) : (∀ w, w_fs (m w).2 = w_fs w) → keeps file_stays (disk m).
Proof. intros Hm. apply fstay_disk. intros w q _. by rewrite Hm. Qed.

Lemma fstay_fetch url p force : p ≠ T → sidecar p ≠ T → keeps file_stays (fetch_to_file url p force).
Proof.
  intros Hp Hs. unfold fetch_to_file, verify_cached_download, regular_file, nonempty, download, read_to_string, with_context.
  repeat first [apply fstay_send | by apply fstay_write | apply fstay_create | apply fstay_disk; keeps_tac | keeps_step].
Qed.

Lemma fstay_extract_first archive member p entries : p ≠ T → keeps file_stays (extract_first archive member p entries).
Proof.
  intros Hp. induction entries as [|entry entries IH]; cbn [extract_first]; [keeps_step|]. unfold with_context.
  repeat first [apply IH | by apply fstay_write | by apply fstay_disk, keeps_file_create | keeps_step].
Qed.

Lemma fstay_each {A} (f : A → M string Fetch ()) xs : (∀ x, keeps file_stays (f x)) → keeps file_stays (for_each f xs).
Proof. intros Hf. by apply keeps_for_each; [typeclasses eauto|]. Qed.
End stays.

(** ** The signed archive *)

Section signed.
Context `{plat : !Platform, target : !Target, ihost : !ImageHost, elib : !Ext4Lib, tools : !BuildTools, blaws : !BuildLaws, serde : !Serde VmImageManifest}.

(** The OpenPGP library found a good signature of the payload by the pinned certificate. *)
Definition signed (payload : bytes) : Prop := ∃ cert signature results rest,
  fingerprint cert = EXPECTED_SIGNING_FINGERPRINT ∧
  detached_layers [cert] signature payload = Ok (SignatureGroup results :: rest) ∧ true ∈ results.

Definition archive_of (d : BuildDirs) (arch : string) : path := rootfs_dir d ++ [rootfs_tar_name arch].

Lemma index_apart d arch x : index_dir d ++ [x] ≠ archive_of d arch.
Proof. unfold index_dir, archive_of, rootfs_dir. intros E. apply app_inj_tail in E as [E _]. by apply app_inj_tail in E as [_ E]. Qed.

Lemma apk_apart d arch x : apk_dir d ++ [x] ≠ archive_of d arch.
Proof. unfold apk_dir, archive_of, rootfs_dir. intros E. apply app_inj_tail in E as [E _]. by apply app_inj_tail in E as [_ E]. Qed.

Lemma package_apart d arch p :
  join_path (apk_dir d) (file_name p) ≠ archive_of d arch ∧ sidecar (join_path (apk_dir d) (file_name p)) ≠ archive_of d arch.
Proof.
  destruct (apk_path (apk_dir d) (pk_name p ^+ "-" ^+ pk_version p)) as [x Hx]. destruct (tar_name_gz arch) as [y Hy].
  assert (Hf : file_name p = (pk_name p ^+ "-" ^+ pk_version p) ^+ ".apk") by (unfold file_name; by rewrite !string_app_assoc).
  rewrite Hf. set (q := join_path _ _) in *. unfold archive_of, sidecar, with_extension. rewrite Hx, Hy. split.
  - intros ->. rewrite last_snoc in Hx. injection Hx as Hx. by apply (apk_not_gz x y).
  - intros E. apply app_inj_tail in E as [_ E]. exact (local_not_gz _ _ E).
Qed.

Lemma fetch_packages_signed spec arch d s resolved s' :
  fetch_packages spec arch d s = (Ok resolved, s') →
  ∃ m c, w_fs (fe_world s') !! archive_of d arch = Some (File m c) ∧ signed (content_bytes c).
Proof.
  unfold fetch_packages. intros Hrun. apply bind_ok_inv in Hrun as ([] & s1 & _ & Hrun).
  apply bind_ok_inv in Hrun as (cert & s2 & _ & Hrun).
  apply bind_ok_inv in Hrun as ([] & s3 & (Hf & m & c & Hc & _ & ms & cs & results & rest & _ & Hl & Hr)%rootfs_verified & Hrun).
  exists m, c. split; [|by exists cert, (content_bytes cs), results, rest].
  assert (Hst : file_stays (archive_of d arch) s3 s'); [|by apply Hst].
  assert (Hpre : PreOrder (file_stays (archive_of d arch))) by apply file_stays_preorder.
  match type of Hrun with ?k s3 = _ => assert (Hk : keeps (file_stays (archive_of d arch)) k); [|by eapply keeps_ok] end.
  assert (Hside : ∀ x, sidecar (index_dir d ++ [x]) ≠ archive_of d arch).
  { intros x. unfold sidecar. rewrite with_extension_snoc. apply index_apart. }
  unfold fetch_indexes, fetch_index, extract_member_from_tar_gz, load_indexes, load_index, download_packages, write_package_manifest,
    download_package, read_to_string, with_context.
  repeat first [apply fstay_each; intros ? | apply fstay_fetch; [apply index_apart|apply Hside] | apply fstay_fetch; apply package_apart
    | apply fstay_extract_first, index_apart | apply fstay_create | apply fstay_write, apk_apart | apply fstay_disk; keeps_tac | keeps_step].
Qed.

(** *** From the verification to the unpacking *)

Section calm_stage.
Context (b T : path) (archive : option node) (Hb : no_dots b) (HT : ¬ b `prefix_of` T).

(** Nothing is unpacked yet: no links, nothing below the root file system's
    directory, and the archive as it was. *)
Definition untouched (s : Build) : Prop :=
  nolinks s ∧ bd_root s = b ∧
  (∀ q, (b ++ ["rootfs"]) `prefix_of` q → q ≠ b ++ ["rootfs"] → bd_work s !! q = None) ∧
  (∀ n, archive = Some n → host_files s !! T = Some n).

Lemma untouched_op {A} (act : Build → Result IoError (A * Build)) torn :
  (∀ s a s', untouched s → act s = Ok (a, s') → untouched s') → (∀ f s, untouched s → untouched (torn f s)) →
  keeps (preserves untouched) (stage_op act torn).
Proof using.
  intros Hact Htorn s Hs. unfold stage_op. destruct (w_faults _) as [|[f|] l]; [|exact (Htorn f s Hs)|];
    (destruct (act s) as [[a s1]|e] eqn:E; [exact (Hact _ _ _ Hs E)|exact Hs]).
Qed.

Lemma untouched_put s p n :
  untouched s → (∀ t, n ≠ SLink t) → ¬ ((b ++ ["rootfs"]) `prefix_of` p ∧ p ≠ b ++ ["rootfs"]) →
  b `prefix_of` p ∨ stage_at s p = None → untouched (put p n s).
Proof using Hb HT.
  intros (Hn & Hr & Hj & Ht) Hl Hp Hwhere. split_and!; [by apply nolinks_put|by rewrite put_root| |].
  - intros q Hq Hne. assert (q ≠ p) by (intros ->; tauto). unfold put. rewrite Hr. case_decide; simpl; [rewrite lookup_insert_ne by done; auto|].
    destruct n; simpl; auto; rewrite lookup_insert_ne by done; auto.
  - intros x Hx. specialize (Ht x Hx). unfold put. rewrite Hr. case_decide as Hin; [done|]. destruct Hwhere as [?|Hnone]; [done|].
    assert (T ≠ p) as HTp.
    { intros <-. unfold stage_at in Hnone. rewrite Ht in Hnone. destruct (bd_work s !! T); [done|]. by destruct T. }
    destruct n; unfold host_files in *; simpl; rewrite ?lookup_insert_ne by done; done.
Qed.

Lemma untouched_mkdir p : no_dots p → ¬ ((b ++ ["rootfs"]) `prefix_of` p ∧ p ≠ b ++ ["rootfs"]) → keeps (preserves untouched) (s_mkdir p).
Proof using Hb HT.
  intros Hd Hp. apply untouched_op; [|done]. intros s a s' Hs. destruct (resolve s false p) as [q|] eqn:Eq; simpl; [|done].
  apply nolinks_namei in Eq as ->; [|apply Hs|done]. destruct (stage_at s p) eqn:E; [done|]. intros [= _ <-]. apply untouched_put; [done..|]. by right.
Qed.

Lemma untouched_metadata follow p : keeps (preserves untouched) (s_metadata follow p).
Proof using.
  apply untouched_op; [|done]. intros s a s' Hs. destruct (stage_find s follow p) as [[q n]|]; simpl; [|done]. by intros [= _ <-].
Qed.

Lemma untouched_is_dir {E} p : keeps (preserves untouched) (s_is_dir p : M E Build bool).
Proof using. unfold s_is_dir. keeps_step; [apply keeps_attempt, untouched_metadata|keeps_step]. Qed.

Lemma untouched_create r : no_dots (rev r) → rev r `prefix_of` b ++ ["rootfs"] → keeps (preserves untouched) (s_create_rev r).
Proof using Hb HT.
  induction r as [|n r IH]; intros Hd Hp.
  - assert (Hmk : keeps (preserves untouched) (s_mkdir [])) by (apply untouched_mkdir; [done|]; intros [Hx%prefix_nil_inv _]; by destruct b).
    cbn [s_create_rev]. keeps_step; [apply keeps_attempt, Hmk|]. (destruct a; [keeps_step|]). case_decide; repeat first [apply untouched_is_dir | keeps_step].
  - assert (Hmk : keeps (preserves untouched) (s_mkdir (rev (n :: r)))).
    { apply untouched_mkdir; [done|]. intros [Hx Hne]. by apply Hne, (anti_symm prefix). }
    assert (Hr : rev r `prefix_of` rev (n :: r)) by (simpl; by apply prefix_app_r).
    cbn [s_create_rev]. keeps_step; [apply keeps_attempt, Hmk|]. (destruct a; [keeps_step|]).
    assert (Hrec : keeps (preserves untouched) (s_create_rev r)).
    { apply IH; [|by etrans]. simpl in Hd. by apply Forall_app in Hd as [? _]. }
    case_decide; repeat first [apply untouched_is_dir | apply Hrec | apply keeps_attempt, Hmk | keeps_step].
Qed.

Lemma untouched_create_all p : no_dots p → p `prefix_of` b ++ ["rootfs"] → keeps (preserves untouched) (s_create_dir_all p).
Proof using Hb HT. intros Hd Hp. apply untouched_create; by rewrite rev_involutive. Qed.

(** Files and modes right in the build directory. *)
Lemma untouched_write_at x m d s s' :
  untouched s → x ≠ "rootfs" → write_at (b ++ [x]) m d s = Ok s' → untouched s'.
Proof using Hb HT.
  intros Hs Hx. assert (Hbelow : ¬ ((b ++ ["rootfs"]) `prefix_of` b ++ [x] ∧ b ++ [x] ≠ b ++ ["rootfs"])).
  { intros [Hp%prefix_app_inv _]. by apply prefix_cons_inv_1 in Hp. }
  unfold write_at. destruct (stage_at s (b ++ [x])) as [[]|]; try done; intros [= <-]; try done; apply untouched_put; try done; left; by apply prefix_app_r.
Qed.

Lemma untouched_write x d : x ≠ "rootfs" → x ≠ "." → x ≠ ".." → keeps (preserves untouched) (s_write (b ++ [x]) d).
Proof using Hb HT.
  intros Hx H1 H2. assert (Hd : no_dots (b ++ [x])) by (apply Forall_app; by split; [|apply Forall_singleton]).
  apply untouched_op.
  - intros s a s' Hs. destruct (resolve s true (b ++ [x])) as [q|] eqn:Eq; simpl; [|done].
    apply nolinks_namei in Eq as ->; [|apply Hs|done]. destruct (write_at _ _ _ _) as [s1|] eqn:Ew; simpl; [|done]. intros [= _ <-].
    by eapply untouched_write_at.
  - intros f s Hs. unfold torn_at. destruct (fault_progress f); [done|]. destruct (resolve s true (b ++ [x])) as [q|] eqn:Eq; simpl; [|done].
    apply nolinks_namei in Eq as ->; [|apply Hs|done]. destruct (write_at _ _ _ _) as [s1|] eqn:Ew; [|done]. by eapply untouched_write_at.
Qed.

Lemma untouched_set_mode x mode : x ≠ "rootfs" → x ≠ "." → x ≠ ".." → keeps (preserves untouched) (s_set_mode (b ++ [x]) mode).
Proof using Hb HT.
  intros Hx H1 H2. assert (Hd : no_dots (b ++ [x])) by (apply Forall_app; by split; [|apply Forall_singleton]).
  assert (Hbelow : ¬ ((b ++ ["rootfs"]) `prefix_of` b ++ [x] ∧ b ++ [x] ≠ b ++ ["rootfs"])).
  { intros [Hp%prefix_app_inv _]. by apply prefix_cons_inv_1 in Hp. }
  apply untouched_op; [|done]. intros s a s' Hs. unfold stage_find. destruct (resolve s true (b ++ [x])) as [q|] eqn:Eq; simpl; [|done].
  apply nolinks_namei in Eq as ->; [|apply Hs|done]. destruct (stage_at s (b ++ [x])) as [n|]; simpl; [|done]. intros [= _ <-].
  destruct n; try done; apply untouched_put; try done; left; by apply prefix_app_r.
Qed.

Lemma untouched_without keep s : untouched s → untouched (without (b ++ ["rootfs"]) keep s).
Proof using HT.
  intros (Hn & Hr & Hj & Ht). split_and!; [|done| |].
  - intros k t. unfold without. simpl. intros [Hk _]%map_lookup_filter_Some. by apply (Hn k t).
  - intros q Hq Hne. unfold without. simpl. rewrite map_lookup_filter. by rewrite Hj.
  - intros n Hx. unfold without, host_files in *. simpl. rewrite map_lookup_filter, (Ht n Hx). simpl.
    rewrite option_guard_True; [done|]. intros Hp. destruct HT. etrans; [|exact Hp]. by apply prefix_app_r.
Qed.

Lemma untouched_clear : keeps (preserves untouched) (clear_dir (b ++ ["rootfs"])).
Proof using Hb HT.
  assert (Hd : no_dots (b ++ ["rootfs"])) by (apply Forall_app; by split; [|apply Forall_singleton]).
  unfold clear_dir, s_exists. keeps_step; [keeps_step; [apply keeps_attempt, untouched_metadata|keeps_step]|].
  destruct a; [|keeps_step]. apply keeps_map_err, keeps_map_err.
  intros s Hs. unfold s_remove_dir_all, stage_op, stage_find. pose proof (nolinks_namei s false (b ++ ["rootfs"])) as Hnamei.
  destruct (w_faults _) as [|[f|] l]; destruct (resolve s false (b ++ ["rootfs"])) as [q|]; simpl; try exact Hs;
    rewrite (Hnamei q (proj1 Hs) Hd eq_refl);
    destruct (stage_at s (b ++ ["rootfs"])) as [[]|]; simpl; first [exact Hs | by apply (untouched_without _ s)].
Qed.

Lemma untouched_on_host {A} (m : M IoError World A) : (∀ w, w_fs (m w).2 = w_fs w) → keeps (preserves untouched) (on_host m).
Proof using.
  intros Hm s Hs. unfold on_host, disk, zoom, map_err. simpl. specialize (Hm (fe_world (bd_fetch s))).
  destruct (m (fe_world (bd_fetch s))) as [[a|e] w]; simpl in *; (destruct Hs as (Hn & Hr & Hj & Ht); split_and!; [done..|];
    intros n Hx; unfold host_files; simpl; rewrite Hm; by apply Ht).
Qed.

Lemma device_open_reads p w : w_fs (device_open p w).2 = w_fs w.
Proof using.
  unfold device_open, io_op. destruct (w_faults w) as [|[f|] l]; simpl; [|done|]; by destruct (read_node (w_fs w) p).
Qed.

Lemma untouched_extract image : keeps (preserves untouched) (extract_guest_agent image (b ++ ["sagens-guest-agent"])).
Proof using Hb HT.
  unfold extract_guest_agent, context. rewrite parent_app.
  repeat first [apply keeps_map_err | apply untouched_create_all; [done|by apply prefix_app_r] | apply untouched_on_host, device_open_reads
    | by apply untouched_write | by apply untouched_set_mode | keeps_step].
Qed.
End calm_stage.

Lemma created_untouched spec arch s d s' :
  no_dots (ib_state_dir spec) → create_build_dirs spec arch s = (Ok d, s') → untouched (dr_build d) [] None s'.
Proof.
  intros Hd Hrun. unfold create_build_dirs in Hrun. apply bind_ok_inv in Hrun as (id & s1 & _ & Hrun). cbv zeta in Hrun.
  fold (dirs_of spec arch id) in Hrun. set (d' := dirs_of spec arch id) in *.
  apply bind_ok_inv in Hrun as ([] & s2 & _ & Hrun). apply bind_ok_inv in Hrun as ([] & s3 & H3 & Hrun). injection H3 as <-.
  assert (Hb : no_dots (dr_build d')).
  { apply Forall_app. split; [apply Forall_app; split; [done|by repeat constructor]|]. apply Forall_singleton. split; [done|].
    by destruct (ib_name spec ^+ "-" ^+ uuid_simple id). }
  assert (HT : ¬ dr_build d' `prefix_of` []).
  { intros Hp%prefix_nil_inv. unfold d', dirs_of, images_dir in Hp. simpl in Hp. by destruct (ib_state_dir spec). }
  assert (H0 : untouched (dr_build d') [] None (mkBuild (bd_fetch s2) (dr_build d') ∅)).
  { split_and!; [intros k t; simpl; by rewrite lookup_empty|done|intros; apply lookup_empty|done]. }
  apply bind_ok_inv in Hrun as ([] & s4 & H4%map_err_ok_inv & Hrun).
  pose proof (keeps_ok _ _ _ _ _ (untouched_create_all _ [] None Hb HT (dr_build d') Hb (prefix_app_r _ _ _ (reflexivity _))) H4 H0) as Hu4.
  assert (Hhost : ∀ p u v, untouched (dr_build d') [] None u → on_host (fs_create_dir_all p) u = (Ok (), v) → untouched (dr_build d') [] None v).
  { intros p u v (Hn & Hr & Hj & _) (w & _ & _ & Hw & Hroot)%on_host_ok. split_and!; [|congruence| |done].
    - intros k t. rewrite Hw. apply Hn.
    - intros q. rewrite Hw. apply Hj. }
  do 3 (apply bind_ok_inv in Hrun as ([] & ? & ?Hc & Hrun)). apply ret_ok_inv in Hrun as [<- <-]. eauto.
Qed.

(** The trees are staged on the archive, unpacked into an empty directory. *)
Lemma stage_trees_base spec arch d resolved m c s s' :
  no_dots (dr_build d) → ¬ dr_build d `prefix_of` archive_of d arch →
  untouched (dr_build d) (archive_of d arch) (Some (File m c)) s → stage_trees spec arch d resolved s = (Ok (), s') →
  ∃ s1 s2 s3,
    (∀ q, work_rootfs d `prefix_of` q → q ≠ work_rootfs d → bd_work s1 !! q = None) ∧
    s2 = set_work (tar_unpack (content_bytes c) (work_rootfs d) (bd_work s1)).1 s1 ∧
    finish_rootfs (apk_dir d) resolved (work_rootfs d) (staged_agent d)
      (negb (bool_decide (ib_pip spec = []))) (negb (bool_decide (ib_npm spec = []))) s2 = (Ok (), s3) ∧
    stage_cache spec arch d resolved s3 = (Ok (), s').
Proof.
  intros Hb HT Hu Hrun. unfold stage_trees in Hrun. apply bind_ok_inv in Hrun as ([] & s1 & H1 & Hrun).
  pose proof (keeps_ok _ _ _ _ _ (untouched_extract (dr_build d) _ (Some (File m c)) Hb HT _) H1 Hu) as Hu1.
  apply bind_ok_inv in Hrun as ([] & s3 & Hbuild & Hcache). unfold rebuild_rootfs in Hbuild.
  apply bind_ok_inv in Hbuild as ([] & s4 & H4 & Hbuild).
  pose proof (keeps_ok _ _ _ _ _ (untouched_clear (dr_build d) _ (Some (File m c)) Hb HT) H4 Hu1) as Hu4.
  assert (Hdr : no_dots (dr_build d ++ ["rootfs"])) by (apply Forall_app; by split; [|apply Forall_singleton]).
  pose proof (untouched_create_all (dr_build d) _ (Some (File m c)) Hb HT (dr_build d ++ ["rootfs"]) Hdr (reflexivity _)) as Hcreate.
  apply bind_ok_inv in Hbuild as ([] & s5 & H5%map_err_ok_inv & Hbuild). pose proof (keeps_ok _ _ _ _ _ Hcreate H5 Hu4) as Hu5.
  apply bind_ok_inv in Hbuild as ([] & s6 & H6 & Hfinish). unfold unpack_with_tar in H6.
  apply bind_ok_inv in H6 as ([] & s7 & H7%map_err_ok_inv & H6). pose proof (keeps_ok _ _ _ _ _ Hcreate H7 Hu5) as (_ & _ & Hj & Hfile).
  apply bind_ok_inv in H6 as (payload & s8 & (w & [Hread _]%io_op_ok & Hh & Hw & Hr)%context_returned%on_host_ok & H6).
  apply context_returned in H6. cbv zeta beta in H6.
  assert (payload = content_bytes c) as ->.
  { specialize (Hfile _ eq_refl). unfold read_node in Hread.
    change (w_fs (fe_world (bd_fetch s7))) with (host_files s7) in Hread. fold (archive_of d arch) in Hread. rewrite Hfile in Hread.
    by injection Hread as <- _. }
  destruct (tar_unpack (content_bytes c) (work_rootfs d) (bd_work s8)) as [work error] eqn:Etar. destruct error; [done|]. injection H6 as <-.
  exists s8, (set_work work s8), s3. split_and!; [|by rewrite Etar|exact Hfinish|exact Hcache].
  intros q Hq Hne. rewrite Hw. by apply Hj.
Qed.

(** C12: an image starts from what Alpine signed.  In every build that succeeds, the archive that is
    unpacked first, into a directory in which nothing is staged yet, is one of which the OpenPGP
    library found a good signature by the certificate with the pinned fingerprint; what the build
    returns was staged on top of it.  Neither the indexes nor the packages downloaded between the
    verification and the unpacking replace it, whatever names the unverified index gives them. *)
Theorem image_base_is_signed spec s manifest s' :
  no_dots (ib_state_dir spec) → build_image spec s = (Ok manifest, s') →
  ∃ arch d resolved payload s1 s2 s3 s4,
    default_guest_arch = Ok arch ∧ signed payload ∧
    (∀ q, work_rootfs d `prefix_of` q → q ≠ work_rootfs d → bd_work s1 !! q = None) ∧
    s2 = set_work (tar_unpack payload (work_rootfs d) (bd_work s1)).1 s1 ∧
    finish_rootfs (apk_dir d) resolved (work_rootfs d) (staged_agent d)
      (negb (bool_decide (ib_pip spec = []))) (negb (bool_decide (ib_npm spec = []))) s2 = (Ok (), s3) ∧
    stage_cache spec arch d resolved s3 = (Ok (), s4) ∧
    ∃ s5, write_image spec arch d resolved s4 = (Ok manifest, s5).
Proof.
  intros Hdots Hrun%map_err_ok_inv. unfold build_image_inner in Hrun.
  apply bind_ok_inv in Hrun as (arch & s1 & (_ & _ & Harch & Hdir)%claim_image_ok & Hrun).
  apply bind_ok_inv in Hrun as (d & s2 & H2 & Hrun). pose proof (created_untouched _ _ _ _ _ Hdots H2) as (Hn & Hr & Hj & _).
  apply create_build_dirs_ok in H2 as ([id Hd] & Hb & _ & _); [|done..].
  apply bind_ok_inv in Hrun as (resolved & s3 & H3 & Hrun).
  assert (H3' : ∃ f, fetch_packages spec arch d (bd_fetch s2) = (Ok resolved, f) ∧ s3 = mkBuild f (bd_root s2) (bd_work s2)).
  { unfold fetching, zoom in H3. destruct (fetch_packages spec arch d (bd_fetch s2)) as [r f]. injection H3 as -> <-. by exists f. }
  destruct H3' as (f & (m & c & Hc & Hsigned)%fetch_packages_signed & ->).
  assert (HT : ¬ dr_build d `prefix_of` archive_of d arch).
  { subst d. unfold archive_of, rootfs_dir. simpl. unfold images_dir, package_cache_dir. rewrite <-!(assoc_L (++)).
    intros Hp%prefix_app_inv. by apply prefix_cons_inv_1 in Hp. }
  apply bind_ok_inv in Hrun as ([] & s4 & H4 & Hrun).
  apply (stage_trees_base _ _ _ _ m c) in H4 as (u1 & u2 & u3 & H4); [|done..|split_and!; [done..|by intros n [= <-]]].
  apply bind_ok_inv in Hrun as (manifest' & s5 & H5 & Hrun). apply bind_ok_inv in Hrun as (r & s6 & _ & Hrun).
  apply ret_ok_inv in Hrun as [-> _].
  exists arch, d, resolved, (content_bytes c), u1, u2, u3, s4. destruct H4 as (P1 & P2 & P3 & P4). split_and!; [done..|by exists s5].
Qed.
End signed.
