(* ===== verification/GuestImage.v ===== *)
(** * GuestImage: [src/bin/build-alpine-guest.rs] and [src/bin/build_alpine_guest/]

    The tool that builds the default guest of a release: a kernel and a root file
    system image.  It is a second copy of the builder of [src/images/], without a
    cache, and with its own error texts; where the code of a function is the same
    word for word, the definition is that of [Packages], [ImageFetch] or
    [Ext4Image].  The stage of [StageFs] is its directory [rootfs-dir]. *)

From S2P Require Import Prelude RustStd Text Paths FileSystem PrivateFs FsTree Manifest GuestFs Config HostConfig Update Lineage Images Packages ImageFetch StageFs Ext4Image ImageBuild.

(** [std::env::consts], [current_dir] and [Path::canonicalize]. *)
Class ToolHost := {
  env_os : string;
  env_arch : string;
  current_dir : Result IoError path;
  canonicalize : string → option string;
}.

Module AlpineGuest.

Local Abbreviation FM := (M string Fetch).
Local Abbreviation BM := (M string Build).

Definition BASE_URL : string := "https://dl-cdn.alpinelinux.org/alpine/v3.23".
Definition ALPINE_VERSION : string := "3.23.4".
Definition ALPINE_RELEASE_KEY_URL : string := "https://alpinelinux.org/keys/ncopa.asc".
Definition EXPECTED_SIGNING_FINGERPRINT : string := "0482D84022F52DF1C4E7CD43293ACD0907D9495A".
Definition BASE_PACKAGES : list string :=
  ["bash"; "python3"; "py3-pip"; "ca-certificates-bundle"; "busybox-binsh"; "linux-virt"].

(** ** The command line: [args.rs] *)

Record Args := mkArgs {
  ar_arch : string;
  ar_work_dir : string;
  ar_output_dir : string;
  ar_guest_agent : string;
  ar_min_image_mib : Z;
  ar_apk_packages : list string;
}.

(** The variables of the loop. *)
Record Flags := mkFlags {
  fl_arch : string;
  fl_work_dir : string;
  fl_output_dir : option string;
  fl_guest_agent : option string;
  fl_min_image_mib : Z;
  fl_apk_packages : list string;
}.

Definition value_flags : list string := ["--arch"; "--work-dir"; "--output-dir"; "--guest-agent"; "--apk"; "--min-image-mib"].

(** One flag with its value. *)
Definition set_flag (flag value : string) (a : Flags) : Result string Flags :=
  let '(mkFlags arch work output agent mib apk) := a in
  if String.eqb flag "--arch" then Ok (mkFlags value work output agent mib apk)
  else if String.eqb flag "--work-dir" then Ok (mkFlags arch value output agent mib apk)
  else if String.eqb flag "--output-dir" then Ok (mkFlags arch work (Some value) agent mib apk)
  else if String.eqb flag "--guest-agent" then Ok (mkFlags arch work output (Some value) mib apk)
  else if String.eqb flag "--apk" then Ok (mkFlags arch work output agent mib (apk ++ [value]))
  else
    match parse_uint u64_max value with
    | Some n => Ok (mkFlags arch work output agent n apk)
    | None => Err ("invalid --min-image-mib value: " ^+ value ^+ ": " ^+ uint_error u64_max value)
    end.

(** [None] is the help text and a successful exit. *)
Fixpoint parse_flags (args : list string) (a : Flags) : Result string (option Flags) :=
  match args with
  | [] => Ok (Some a)
  | flag :: rest =>
      if decide (flag ∈ value_flags) then
        match rest with
        | [] => Err ("missing value for " ^+ flag)
        | value :: rest' => a' ← set_flag flag value a; parse_flags rest' a'
        end
      else if String.eqb flag "-h" || String.eqb flag "--help" then Ok None
      else Err ("unknown flag: " ^+ flag)
  end.

Definition validate_arch (arch : string) : Result string () :=
  if String.eqb arch "aarch64" || String.eqb arch "x86_64" then Ok () else Err ("unsupported guest arch: " ^+ arch).

Definition rootfs_tar_name (arch : string) : string := "alpine-minirootfs-" ^+ ALPINE_VERSION ^+ "-" ^+ arch ^+ ".tar.gz".

Section tool.
Context `{plat : !Platform, thost : !ToolHost, ihost : !ImageHost, elib : !Ext4Lib, tools : !BuildTools}.

Definition default_guest_arch : Result string string :=
  let supported := String.eqb env_os "macos" || String.eqb env_os "linux" in
  if supported && String.eqb env_arch "aarch64" then Ok "aarch64"
  else if supported && String.eqb env_arch "x86_64" then Ok "x86_64"
  else Err ("unsupported host platform for guest build defaults: " ^+ env_os ^+ "/" ^+ env_arch).

Definition canonical (p : string) : string := default p (canonicalize p).

Definition parse (args : list string) : Result string (option Args) :=
  arch ← default_guest_arch;
  flags ← parse_flags args (mkFlags arch ".box-artifacts" None None 256 []);
  match flags with
  | None => Ok None
  | Some a =>
      guest_agent ← ok_or "--guest-agent is required" (fl_guest_agent a);
      validate_arch (fl_arch a);;
      let output_dir := default ("artifacts/alpine-" ^+ fl_arch a) (fl_output_dir a) in
      Ok (Some (mkArgs (fl_arch a) (canonical (fl_work_dir a)) (canonical output_dir) (canonical guest_agent)
                  (fl_min_image_mib a) (fl_apk_packages a)))
  end.

Definition absolute_path (p : string) : Result string path :=
  if starts_with "/" p then Ok (join_path [] p)
  else match current_dir with Ok dir => Ok (join_path dir p) | Err e => Err (io_text e) end.

(** ** Checks and archives: [verify.rs] *)

Definition extract_member_from_tar_gz (archive_path : path) (member_name : string) (destination : path) : FM () :=
  archive ← with_context ("opening " ^+ display archive_path) (disk (fs_read archive_path));
  entries ← with_context ("reading tar entries from " ^+ display archive_path) (lift (tar_gz_entries archive));
  extract_first archive_path member_name destination entries.

Definition verify_sha256 (payload_path checksum_path : path) : FM () :=
  checksum_file ← with_context ("reading " ^+ display checksum_path) (disk (read_to_string checksum_path));
  match split_once_str "  " checksum_file with
  | None => throw "invalid .sha256 format"
  | Some (expected_hex, file_name) =>
      ensure (bool_decide (trim file_name = default "" (last payload_path))) "checksum file name does not match payload name";;
      actual ← file_sha256 payload_path;
      expected ← lift (decode_hex (trim expected_hex));
      ensure (bool_decide (expected = actual)) ("sha256 mismatch for " ^+ display payload_path)
  end.

Definition verify_detached_signature (payload_path signature_path : path) (cert : Cert) : FM () :=
  ensure (bool_decide (fingerprint cert = EXPECTED_SIGNING_FINGERPRINT)) "unexpected signing cert fingerprint";;
  signature ← with_context ("opening detached signature " ^+ display signature_path) (disk (fs_read signature_path));
  with_context "building detached OpenPGP verifier" (lift (open_signature signature));;
  with_context ("verifying detached signature for " ^+ display payload_path)
    (payload ← disk (fs_read payload_path);
     structure ← lift (detached_layers [cert] signature payload);
     lift (check_layers structure)).

(** ** Downloads: [builder.rs] *)

(** [Builder::new]: the certificate it keeps. *)
Definition new : FM Cert :=
  (match image_client_error with Some error => throw ("building HTTP client: " ^+ error) | None => mret () end);;
  response ← with_context "requesting Alpine release signing key" (send ALPINE_RELEASE_KEY_URL);
  response ← with_context "downloading Alpine release signing key" (lift (error_for_status ALPINE_RELEASE_KEY_URL response));
  signing_key ← with_context "reading Alpine release signing key" (lift (http_text response));
  certs ← with_context "parsing Alpine release signing keyring" (lift (parse_certs signing_key));
  found ← lift (find_cert certs);
  signing_cert ← lift (ok_or "expected Alpine release signing cert not found in vendored keyring" found);
  ensure (bool_decide (fingerprint signing_cert = EXPECTED_SIGNING_FINGERPRINT))
    "vendored Alpine release key fingerprint mismatch";;
  mret signing_cert.

(** [client.get(url).send()] and what follows it in [fetch_to_file] and
    [download_packages]. *)
Definition download_to (url : string) (destination : path) : FM () :=
  response ← with_context ("requesting " ^+ url) (send url);
  response ← with_context ("downloading " ^+ url) (lift (error_for_status url response));
  data ← with_context ("reading " ^+ url) (lift (http_bytes response));
  with_context ("writing " ^+ display destination) (disk (fs_write destination data)).

Definition fetch_to_file (url : string) (destination : path) : FM () :=
  disk (fs_create_dir_all (parent destination));;
  download_to url destination.

Definition fetch_rootfs (signing_cert : Cert) (arch : string) (destination : path) (tar_name : string) : FM () :=
  let url := BASE_URL ^+ "/releases/" ^+ arch ^+ "/" ^+ tar_name in
  let checksum_path := with_file_name destination (tar_name ^+ ".sha256") in
  let signature_path := with_file_name destination (tar_name ^+ ".asc") in
  fetch_to_file url destination;;
  fetch_to_file (url ^+ ".sha256") checksum_path;;
  fetch_to_file (url ^+ ".asc") signature_path;;
  verify_sha256 destination checksum_path;;
  verify_detached_signature destination signature_path signing_cert.

Definition fetch_index (index_dir : path) (arch repo : string) : FM () :=
  let archive_path := index_dir ++ ["APKINDEX-" ^+ repo ^+ ".tar.gz"] in
  fetch_to_file (BASE_URL ^+ "/" ^+ repo ^+ "/" ^+ arch ^+ "/APKINDEX.tar.gz") archive_path;;
  extract_member_from_tar_gz archive_path "APKINDEX" (index_dir ++ ["APKINDEX-" ^+ repo]).
Definition fetch_indexes (index_dir : path) (arch : string) : FM () :=
  for_each (fetch_index index_dir arch) ["main"; "community"].

(** ** Packages: [packages.rs] *)

Definition ELF_MAGIC : bytes := byte_of 127 :: as_bytes "ELF".
Definition u16_from_le (a b : Byte.byte) : Z := (byte_value a + 256 * byte_value b)%Z.

Definition validate_guest_agent_binary (p : path) (arch : string) : FM () :=
  data ← with_context ("reading " ^+ display p) (disk (fs_read p));
  ensure (bool_decide (20 <= length data)) ("guest agent binary is too small to validate: " ^+ display p);;
  ensure (bool_decide (take 4 data = ELF_MAGIC))
    ("guest agent must be a Linux ELF binary for guest arch " ^+ arch ^+ ", got a non-ELF file: " ^+ display p);;
  ensure (bool_decide (data !! 4 = Some (byte_of 2)))
    ("guest agent must be a 64-bit ELF binary for guest arch " ^+ arch ^+ ": " ^+ display p);;
  let machine := match data !! 18, data !! 19 with Some a, Some b => u16_from_le a b | _, _ => 0%Z end in
  expected_machine ← (if String.eqb arch "aarch64" then mret 183%Z
                      else if String.eqb arch "x86_64" then mret 62%Z
                      else throw ("unsupported guest arch for ELF validation: " ^+ arch));
  ensure (bool_decide (machine = expected_machine))
    ("guest agent ELF machine mismatch for arch " ^+ arch ^+ ": expected " ^+ pretty expected_machine ^+ ", got " ^+
     pretty machine ^+ " (" ^+ display p ^+ ")").

(** The loop over the blocks of one index. *)
Definition load_block (repo : string) (index : Packages * Providers) (block : string) : Packages * Providers :=
  let fields := foldl add_field ∅ (str_lines block) in
  match first_field fields "P" with
  | None => index
  | Some name =>
      match first_field fields "V" with
      | None => index
      | Some version =>
          let provides := join_fields fields "p" in
          let package := mkPackage name version repo (join_fields fields "D") provides in
          let providers := or_insert name name index.2 in
          let providers := foldl (λ m entry, or_insert (strip_constraint entry) name m) providers provides in
          (<[name := package]> index.1, providers)
      end
  end.
Definition load_repo (index_dir : path) (repo : string) (index : Packages * Providers) : FM (Packages * Providers) :=
  let index_path := index_dir ++ ["APKINDEX-" ^+ repo] in
  content ← with_context ("reading " ^+ display index_path) (disk (read_to_string index_path));
  mret (foldl (load_block repo) index (split_str blank_line (trim content))).
Definition load_indexes (index_dir : path) : FM (Packages * Providers) :=
  index ← load_repo index_dir "main" (∅, ∅);
  load_repo index_dir "community" index.

Definition apk_name (package : Package) : string := pk_name package ^+ "-" ^+ pk_version package ^+ ".apk".

Definition download_packages (apk_dir : path) (arch : string) (resolved : list Package) : FM () :=
  disk (fs_write (apk_dir ++ ["manifest.txt"])
    (as_bytes (String.concat (String line_feed "") (pk_name <$> resolved) ^+ String line_feed "")));;
  for_each (λ package,
    download_to (BASE_URL ^+ "/" ^+ pk_repo package ^+ "/" ^+ arch ^+ "/" ^+ apk_name package)
      (join_path apk_dir (apk_name package))) resolved.

Definition extract_kernel (apk_dir : path) (package : Package) (destination : path) : FM () :=
  extract_member_from_tar_gz (join_path apk_dir (apk_name package)) "boot/vmlinuz-virt" destination.

Definition mountpoints : list path :=
  [["proc"]; ["sys"]; ["dev"]; ["home"]; ["tmp"]; ["workspace"]; ["usr"; "local"; "bin"]; ["var"; "cache"; "apk"]].

Definition ensure_real_bash (rootfs_dir : path) : BM () :=
  let bin_bash := rootfs_dir ++ ["bin"; "bash"] in
  file ← s_is_file bin_bash;
  expect file ("expected Alpine rootfs to contain a real /bin/bash, but " ^+ display bin_bash ^+ " is missing");;
  metadata ← context ("reading " ^+ display bin_bash) (stage (s_metadata false bin_bash));
  expect (match metadata with SLink _ => false | _ => true end)
    ("expected " ^+ display bin_bash ^+ " to be a real bash binary, but it is a symlink");;
  let usr_bin_bash := rootfs_dir ++ ["usr"; "bin"; "bash"] in
  present ← s_exists usr_bin_bash;
  if present : bool then mret ()
  else
    context ("creating " ^+ display (rootfs_dir ++ ["usr"; "bin"])) (stage (s_create_dir_all (rootfs_dir ++ ["usr"; "bin"])));;
    context ("linking " ^+ display usr_bin_bash ^+ " -> /bin/bash") (stage (s_symlink "/bin/bash" usr_bin_bash)).

Definition rebuild_rootfs (rootfs_tar apk_dir : path) (resolved : list Package) (rootfs_dir guest_agent : path) : BM () :=
  present ← s_exists rootfs_dir;
  (if present : bool then context ("removing " ^+ display rootfs_dir) (stage (s_remove_dir_all rootfs_dir)) else mret ());;
  stage (s_create_dir_all rootfs_dir);;
  unpack_with_tar rootfs_tar rootfs_dir;;
  for_each (λ package, unpack_with_tar (join_path apk_dir (apk_name package)) rootfs_dir) resolved;;
  for_each (λ relative, stage (s_create_dir_all (rootfs_dir ++ relative))) mountpoints;;
  let target := rootfs_dir ++ AGENT in
  context ("copying guest agent to " ^+ display target) (stage (s_copy guest_agent target));;
  stage (s_set_mode target 493);;   (* 0o755 *)
  stage (s_write (rootfs_dir ++ ["etc"; "inittab"]) (as_bytes INITTAB));;
  ensure_real_bash rootfs_dir.

(** ** The image: [image.rs]; [walkdir], [estimate_image_size] and [ext4_path] are those of [Ext4Image] *)

Local Abbreviation EM := (M string (Build * Ext4Fs)).

Fixpoint copy_directory_entries (fuel : nat) (source_dir : path) (relative_dir : list string) : EM () :=
  match fuel with
  | O => throw "directory tree deeper than the file system"
  | S fuel' =>
      children ← context ("reading " ^+ display source_dir) (in_stage (staged (s_read_dir source_dir)));
      context ("iterating " ^+ display source_dir) (in_stage (staged s_next_entry));;
      for_each (λ n,
        let host_path := source_dir ++ [n] in
        let relative_path := relative_dir ++ [n] in
        metadata ← context ("reading " ^+ display host_path) (in_stage (staged (s_metadata false host_path)));
        let image_path := ext4_path relative_path in
        let mode := Z.land (mode_of metadata) 4095 in
        match metadata with
        | SDir _ =>
            context ("creating directory " ^+ image_path ^+ " in staged ext4 image") (on_image (ext4_mkdir image_path mode));;
            context ("setting directory permissions on " ^+ image_path) (on_image (ext4_set_permissions image_path mode));;
            copy_directory_entries fuel' host_path relative_path
        | SLink _ =>
            target ← context ("reading symlink " ^+ display host_path) (in_stage (staged (s_read_link host_path)));
            context ("creating symlink " ^+ image_path ^+ " -> " ^+ target) (on_image (ext4_symlink target image_path))
        | SFile _ _ =>
            input ← context ("opening " ^+ display host_path) (in_stage (staged (s_open host_path)));
            context ("creating file " ^+ image_path ^+ " in staged ext4 image") (on_image (ext4_open_write image_path));;
            context ("copying " ^+ display host_path ^+ " into staged ext4 image")
              (data ← in_stage (staged (s_read_all input)); on_image (ext4_write image_path data));;
            context ("setting file permissions on " ^+ image_path) (on_image (ext4_set_permissions image_path mode))
        | SOther _ => throw ("unsupported rootfs entry type: " ^+ display host_path)
        end) (sort_by_key id string_le children)
  end.

Definition populate_ext4_from_dir (rootfs_dir : path) : EM () := λ s,
  (metadata ← context ("reading " ^+ display rootfs_dir) (in_stage (staged (s_metadata true rootfs_dir)));
   context "setting ext4 root permissions" (on_image (ext4_set_permissions "/" (Z.land (mode_of metadata) 4095)));;
   copy_directory_entries (stage_bound s.1) rootfs_dir []) s.

(** The end of [build_staged_ext4_image]: what the device holds when the mounted
    file system is given back. *)
Definition with_staged_ext4 (p : path) (e : Ext4Fs) (m : EM ()) : BM () := λ s,
  match m (s, e) with
  | (Ok _, (s', e')) =>
      match ext4_umount e' with
      | Ok c => device_put p c s'
      | Err error => (Err ("unmounting staged ext4 image: " ^+ error), (device_put p (ext4_dropped e') s').2)
      end
  | (Err error, (s', e')) => (Err error, (device_put p (ext4_dropped e') s').2)
  end.

Definition build_staged_ext4_image (rootfs_dir staging_path : path) (size_bytes : Z) : BM () :=
  context ("creating staged ext4 image " ^+ display staging_path) (on_host (device_create staging_path size_bytes));;
  context "formatting staged ext4 image" (format_device "agent-rootfs" staging_path);;
  device ← context ("opening staged ext4 image " ^+ display staging_path) (on_host (device_open staging_path));
  ext4 ← context "mounting staged ext4 image" (lift (ext4_mount device));
  with_staged_ext4 staging_path ext4 (populate_ext4_from_dir rootfs_dir).

Definition build_ext4_image (rootfs_dir image_path : path) (min_image_mib : Z) : BM () :=
  on_host (fs_create_dir_all (parent image_path));;
  estimate ← estimate_image_size rootfs_dir;
  let size_mib := Z.max min_image_mib estimate in
  build_staged_ext4_image rootfs_dir image_path ((size_mib * 1024 * 1024) mod 2 ^ 64)%Z.

(** ** [Builder::run] *)

(** Up to the packages: the verified archive, the index and the downloads. *)
Definition fetch_all (signing_cert : Cert) (args : Args) (work_dir output_dir guest_agent : path) : FM (list Package) :=
  validate_guest_agent_binary guest_agent (ar_arch args);;
  disk (fs_create_dir_all (work_dir ++ ["downloads"]));;
  disk (fs_create_dir_all (work_dir ++ ["index"]));;
  disk (fs_create_dir_all (work_dir ++ ["apk"]));;
  disk (fs_create_dir_all output_dir);;
  let tar_name := rootfs_tar_name (ar_arch args) in
  fetch_rootfs signing_cert (ar_arch args) (work_dir ++ ["downloads"; tar_name]) tar_name;;
  fetch_indexes (work_dir ++ ["index"]) (ar_arch args);;
  index ← load_indexes (work_dir ++ ["index"]);
  resolved ← match resolve_packages index.1 index.2 (BASE_PACKAGES ++ ar_apk_packages args) with
             | Some r => lift r
             | None => throw "dependencies still unresolved"
             end;
  download_packages (work_dir ++ ["apk"]) (ar_arch args) resolved;;
  mret resolved.

Definition run (signing_cert : Cert) (args : Args) : BM () :=
  work_dir ← lift (absolute_path (ar_work_dir args));
  output_dir ← lift (absolute_path (ar_output_dir args));
  guest_agent ← lift (absolute_path (ar_guest_agent args));
  resolved ← fetching (fetch_all signing_cert args work_dir output_dir guest_agent);
  let rootfs_dir := work_dir ++ ["rootfs-dir"] in
  rebuild_rootfs (work_dir ++ ["downloads"; rootfs_tar_name (ar_arch args)]) (work_dir ++ ["apk"]) resolved rootfs_dir guest_agent;;
  kernel_package ← lift (ok_or "linux-virt package missing from resolved package set"
                           (List.find (λ package, String.eqb (pk_name package) "linux-virt") resolved));
  fetching (extract_kernel (work_dir ++ ["apk"]) kernel_package (output_dir ++ ["vmlinuz-virt"]));;
  build_ext4_image rootfs_dir (output_dir ++ ["rootfs.raw"]) (ar_min_image_mib args).

(** [main]; with [false] the help was shown. *)
Definition main (argv : list string) : BM bool :=
  args ← lift (parse argv);
  match args with
  | None => mret false
  | Some args => signing_cert ← fetching new; run signing_cert args;; mret true
  end.
End tool.

(** ** The same index as in a build of an image *)

Lemma load_block_same repo index block : load_block repo index block = load_package_block repo block index.
Proof.
  unfold load_block, load_package_block, parse_block, package_fields.
  destruct (first_field (foldl add_field ∅ (str_lines block)) "P") as [name|]; [|done]. simpl.
  by destruct (first_field _ "V") as [version|].
Qed.
Lemma load_text_same repo content index :
  foldl (load_block repo) index (split_str blank_line (trim content)) = load_index_text repo content index.
Proof.
  unfold load_index_text. generalize (split_str blank_line (trim content)). intros blocks. revert index.
  induction blocks as [|b blocks IH]; intros index; [done|]. simpl. by rewrite load_block_same, IH.
Qed.

Lemma run_bind_ext {E S A B} (m : M E S A) (f g : A → M E S B) s : (∀ a s', f a s' = g a s') → (m ≫= f) s = (m ≫= g) s.
Proof. intros H. unfold mbind, M_bind. destruct (m s) as [[a|e] s']; [apply H|done]. Qed.

Section equal.
Context `{plat : !Platform, ihost : !ImageHost}.

(** the tool reads the indexes as the daemon does: the same packages, the same providers, the same errors *)
Theorem tool_loads_same_indexes index_dir s : load_indexes index_dir s = ImageFetch.load_indexes index_dir s.
Proof.
  assert (Hrepo : ∀ repo index s, load_repo index_dir repo index s = load_index repo index_dir index s).
  { intros repo index s1. unfold load_repo, load_index. cbv zeta. apply run_bind_ext. intros content s2. by rewrite load_text_same. }
  unfold load_indexes, ImageFetch.load_indexes, mbind, M_bind. rewrite Hrepo.
  destruct (load_index "main" index_dir (∅, ∅) s) as [[index|e] s']; [apply Hrepo|done].
Qed.
End equal.

(** ** What is verified *)

Section verified.
Context `{plat : !Platform, ihost : !ImageHost}.

Local Abbreviation files s := (w_fs (fe_world s)).
Implicit Types s : Fetch.

#[local] Existing Instance reads_only_preorder.

Lemma tool_sha256_ok payload_path checksum_path s u s' :
  verify_sha256 payload_path checksum_path s = (Ok u, s') →
  (∃ m c, files s !! payload_path = Some (File m c) ∧ checksum_names (files s) checksum_path payload_path (content_bytes c)) ∧
  reads_only s s'.
Proof.
  unfold verify_sha256. intros (t & s1 & H1 & H2)%bind_ok_inv. apply context_ok, read_to_string_ok in H1 as [(m & c & Hc & Ht) Hr1].
  destruct (split_once_str "  " t) as [[hex name]|] eqn:Es; [|done]. apply split_once_str_Some in Es as ->.
  apply bind_ok_inv in H2 as ([] & s2 & [Hn%bool_decide_eq_true ->]%ensure_ok & H2).
  apply bind_ok_inv in H2 as (actual & s4 & [(m' & c' & Hp & ->) Hr4]%file_sha256_ok & H2).
  apply bind_ok_inv in H2 as (expected & s3 & [He <-]%lift_ok_inv & H2).
  apply ensure_ok in H2 as [->%bool_decide_eq_true ->]. rewrite (proj1 Hr1) in Hp.
  split; [|by etrans]. exists m', c'. split; [done|]. by exists m, c, hex, name.
Qed.

(** the root file system of the default guest is the signed one: when [fetch_rootfs] succeeds the archive at its destination has the name and digest
    of the checksum file and a good signature by the expected certificate. *)
Theorem tool_rootfs_verified cert arch destination tar_name s s' :
  fetch_rootfs cert arch destination tar_name s = (Ok (), s') →
  fingerprint cert = EXPECTED_SIGNING_FINGERPRINT ∧
  ∃ m c, files s' !! destination = Some (File m c) ∧
    checksum_names (files s') (with_file_name destination (tar_name ^+ ".sha256")) destination (content_bytes c) ∧
    signature_good (files s') (with_file_name destination (tar_name ^+ ".asc")) cert (content_bytes c).
Proof.
  unfold fetch_rootfs. cbv zeta. intros Hr. do 3 apply bind_ok_inv in Hr as (? & ? & _ & Hr).
  apply bind_ok_inv in Hr as (? & s4 & [(m & c & Hp & Hc) Q4]%tool_sha256_ok & Hr).
  change (verify_detached_signature) with (ImageFetch.verify_detached_signature) in Hr.
  apply verify_signature_ok in Hr as (Hf & (m' & c' & Hp' & Hs) & Q5). split; [done|].
  rewrite (proj1 Q5), (proj1 Q4) in *. assert (c' = c) as -> by congruence. by exists m, c.
Qed.

(** The certificate [Builder::new] keeps has the expected fingerprint. *)
Lemma new_ok s cert s' : new s = (Ok cert, s') → fingerprint cert = EXPECTED_SIGNING_FINGERPRINT.
Proof.
  unfold new. intros Hr. do 7 apply bind_ok_inv in Hr as (? & ? & _ & Hr).
  apply bind_ok_inv in Hr as ([] & s1 & [Hf%bool_decide_eq_true ->]%ensure_ok & Hr). by injection Hr as <- _.
Qed.

(** The header of an ELF file for 64 bits and this machine. *)
Definition elf_header (data : bytes) (machine : Z) : Prop :=
  20 ≤ length data ∧ take 4 data = ELF_MAGIC ∧ data !! 4 = Some (byte_of 2) ∧
  ∃ a b, data !! 18 = Some a ∧ data !! 19 = Some b ∧ u16_from_le a b = machine.

(** an agent for the wrong machine is not packed: validation succeeds only for an ELF file of the architecture of the guest *)
Theorem validated_agent_fits p arch s s' :
  validate_guest_agent_binary p arch s = (Ok (), s') →
  ∃ m c, files s !! p = Some (File m c) ∧
    ((arch = "aarch64" ∧ elf_header (content_bytes c) 183) ∨ (arch = "x86_64" ∧ elf_header (content_bytes c) 62)).
Proof.
  unfold validate_guest_agent_binary. intros (data & s1 & H1 & Hr)%bind_ok_inv.
  apply context_ok, disk_read_ok in H1 as [(m & c & Hp & ->) _]. exists m, c. split; [done|].
  apply bind_ok_inv in Hr as ([] & s2 & [Hlen%bool_decide_eq_true _]%ensure_ok & Hr).
  apply bind_ok_inv in Hr as ([] & s3 & [Hmagic%bool_decide_eq_true _]%ensure_ok & Hr).
  apply bind_ok_inv in Hr as ([] & s4 & [Hclass%bool_decide_eq_true _]%ensure_ok & Hr).
  destruct (lookup_lt_is_Some_2 (content_bytes c) 18) as [a Ha]; [lia|].
  destruct (lookup_lt_is_Some_2 (content_bytes c) 19) as [b Hb]; [lia|]. rewrite Ha, Hb in Hr. cbv zeta in Hr.
  destruct (String.eqb_spec arch "aarch64") as [->|_]; [|destruct (String.eqb_spec arch "x86_64") as [->|_]; [|done]];
    apply bind_ok_inv in Hr as (k & s5 & Hk & Hr); injection Hk as <- _;
    apply ensure_ok in Hr as [Hm%bool_decide_eq_true _]; [left|right]; repeat (split; [done|]); by exists a, b.
Qed.
End verified.

(** ** The same copy as in a build of an image *)

(** Two computations that differ in the texts of their errors only. *)
Definition alike {S A} (m m' : M string S A) : Prop := ∀ s,
  (m s).2 = (m' s).2 ∧
  match (m s).1, (m' s).1 with Ok a, Ok b => a = b | Err _, Err _ => True | _, _ => False end.

Lemma alike_refl {S A} (m : M string S A) : alike m m.
Proof. intros s. split; [done|]. by destruct (m s).1. Qed.
Lemma alike_context {S A} c c' (m m' : M string S A) : alike m m' → alike (context c m) (context c' m').
Proof.
  intros H s. destruct (H s) as [Hs Hr]. unfold context, map_err.
  destruct (m s) as [[a|e] s1], (m' s) as [[b|e'] s2]; simpl in *; subst; done.
Qed.
Lemma alike_bind {S A B} (m m' : M string S A) (f f' : A → M string S B) :
  alike m m' → (∀ a, alike (f a) (f' a)) → alike (m ≫= f) (m' ≫= f').
Proof.
  intros Hm Hf s. destruct (Hm s) as [Hs Hr]. unfold mbind, M_bind.
  destruct (m s) as [[a|e] s1], (m' s) as [[b|e'] s2]; simpl in *; subst; try done. apply Hf.
Qed.
Lemma alike_for_each {S A} (f f' : A → M string S ()) xs : (∀ x, alike (f x) (f' x)) → alike (for_each f xs) (for_each f' xs).
Proof. intros Hf. induction xs as [|x xs IH]; [apply alike_refl|]. simpl. apply alike_bind; [apply Hf|intros _; exact IH]. Qed.
Lemma alike_throw {S A} e e' : alike (throw e : M string S A) (throw e').
Proof. by intros s. Qed.

Create HintDb alike.
#[local] Hint Resolve alike_refl alike_context alike_throw : alike.
Ltac alike_steps := repeat first [apply alike_context | apply alike_throw | apply alike_refl | (apply alike_bind; [|intros ?])].

Section copy.
Context `{plat : !Platform, plaws : !PlatformLaws, ihost : !ImageHost, elib : !Ext4Lib, elaws : !Ext4Laws}.

#[local] Existing Instance beside_preorder.

Lemma copy_alike fuel d rel : alike (copy_directory_entries fuel d rel) (Ext4Image.copy_directory_entries fuel d rel).
Proof.
  revert d rel. induction fuel as [|fuel IH]; intros d rel; [apply alike_refl|]. cbn.
  apply alike_bind; [apply alike_refl|intros children]. apply alike_bind; [apply alike_refl|intros _].
  apply alike_for_each. intros n. unfold copy_directory_entry. apply alike_bind; [apply alike_refl|intros [m|m b|t|m]].
  - alike_steps. apply IH.
  - unfold copy_file. alike_steps.
  - unfold copy_symlink. alike_steps.
  - alike_steps.
Qed.
(** the tool fills an image as the daemon does: the same calls with the same results, but for the texts of errors *)
Theorem tool_populates_alike dir : alike (populate_ext4_from_dir dir) (Ext4Image.populate_ext4_from_dir dir).
Proof.
  intros s. unfold populate_ext4_from_dir, Ext4Image.populate_ext4_from_dir.
  apply (alike_bind (S := Build * Ext4Fs)); [apply alike_refl|intros metadata].
  apply alike_bind; [apply alike_refl|intros _]. apply copy_alike.
Qed.

Lemma alike_ok {S A} (m m' : M string S A) s a s' : alike m m' → m s = (Ok a, s') → m' s = (Ok a, s').
Proof. intros H E. destruct (H s) as [Hs Hr]. rewrite E in Hs, Hr. destruct (m' s) as [[b|e] s1]; simpl in *; by subst. Qed.

(** the image of the default guest is the directory it was built from, as in [image_is_directory] *)
Theorem tool_image_is_directory s root image min_mib s' :
  staged_tree s root → names_apart s root → ¬ root `prefix_of` image → ¬ image `prefix_of` root →
  build_ext4_image root image min_mib s = (Ok (), s') →
  ∃ m c e, host_files s' !! image = Some (File m c) ∧ ext4_mount c = Ok e ∧ image_holds s root e.
Proof.
  intros Ht Ha Hout Hin. unfold build_ext4_image. intros Hrun.
  apply bind_ok_inv in Hrun as (u1 & s1 & H1%create_parent_beside & Hrun).
  apply bind_ok_inv in Hrun as (estimate & s2 & H2 & Hrun). apply (keeps_ok _ _ _ _ _ (keeps_estimate root)), (same_beside image) in H2.
  unfold build_staged_ext4_image in Hrun.
  apply bind_ok_inv in Hrun as (u3 & s3 & H3%context_returned%device_create_ok & Hrun).
  apply bind_ok_inv in Hrun as ([] & s4 & H4%context_returned & Hrun).
  apply bind_ok_inv in Hrun as (device & s5 & H5%context_returned & Hrun).
  apply bind_ok_inv in Hrun as (ext4 & s6 & [Hmount ->]%context_returned%lift_ok_inv & Hrun).
  destruct (format_then_open _ _ _ _ _ _ H4 H5) as (Hb5 & [m Him] & [c0 Hfresh]).
  unfold with_staged_ext4 in Hrun. destruct (populate_ext4_from_dir root (s6, ext4)) as [[[]|x] [s7 e7]] eqn:Epop; [|done].
  apply (alike_ok _ _ _ _ _ (tool_populates_alike root)) in Epop.
  destruct (ext4_umount e7) as [c7|x] eqn:Eu; [|done].
  assert (s' = (device_put image c7 s7).2) as ->; [unfold device_put, modify in *; by injection Hrun as <-|].
  eapply (populated_image_holds "agent-rootfs" s s6); try done. by do 3 (etrans; [eassumption|]).
Qed.
End copy.

(** ** The command line *)

(** A command line that gives every argument. *)
Definition args_words (a : Args) : list string :=
  ["--arch"; ar_arch a; "--work-dir"; ar_work_dir a; "--output-dir"; ar_output_dir a; "--guest-agent"; ar_guest_agent a;
   "--min-image-mib"; pretty (ar_min_image_mib a)] ++ (ar_apk_packages a ≫= λ p, ["--apk"; p]).

Lemma parse_apk_flags apks a :
  parse_flags (apks ≫= λ p, ["--apk"; p]) a =
  Ok (Some (mkFlags (fl_arch a) (fl_work_dir a) (fl_output_dir a) (fl_guest_agent a) (fl_min_image_mib a) (fl_apk_packages a ++ apks))).
Proof.
  revert a. induction apks as [|p apks IH]; intros [arch work output agent mib apk]; [by rewrite app_nil_r|].
  rewrite bind_cons. cbn [app parse_flags]. rewrite decide_True by set_solver.
  change (parse_flags (apks ≫= λ p, ["--apk"; p]) (mkFlags arch work output agent mib (apk ++ [p])) = 
    Ok (Some (mkFlags arch work output agent mib (apk ++ p :: apks)))).
  rewrite IH. simpl. by rewrite <-app_assoc.
Qed.

Section args.
Context `{thost : !ToolHost}.

(** what the tool accepts is a guest it can build: a known architecture *)
Lemma parsed_arch argv a : parse argv = Ok (Some a) → ar_arch a = "aarch64" ∨ ar_arch a = "x86_64".
Proof.
  unfold parse. destruct default_guest_arch as [arch|]; [|done]. simpl.
  destruct (parse_flags argv _) as [[f|]|]; [|done|done]. simpl. destruct (fl_guest_agent f); [|done]. simpl.
  unfold validate_arch. destruct (String.eqb_spec (fl_arch f) "aarch64") as [E|_]; [intros [= <-]; by left|].
  destruct (String.eqb_spec (fl_arch f) "x86_64") as [E|_]; [intros [= <-]; by right|done].
Qed.

(** the command line of the tool is read back as it was written, up to the resolution of paths *)
Theorem tool_args_roundtrip a :
  is_ok default_guest_arch = true → ar_arch a = "aarch64" ∨ ar_arch a = "x86_64" → is_u64 (ar_min_image_mib a) →
  parse (args_words a) =
  Ok (Some (mkArgs (ar_arch a) (canonical (ar_work_dir a)) (canonical (ar_output_dir a)) (canonical (ar_guest_agent a))
              (ar_min_image_mib a) (ar_apk_packages a))).
Proof.
  intros Hd Harch Hmib. destruct a as [arch work output agent mib apks]. simpl in *. unfold parse.
  destruct default_guest_arch as [default_arch|]; [|done]. cbn [mbind Result_bind].
  unfold args_words. cbn [ar_arch ar_work_dir ar_output_dir ar_guest_agent ar_min_image_mib ar_apk_packages app].
  cbn [parse_flags]. rewrite !decide_True by set_solver. cbn [set_flag String.eqb Ascii.eqb Bool.eqb mbind Result_bind].
  rewrite parse_uint_pretty by (unfold is_u64, u64_max in *; lia). cbn [mbind Result_bind].
  rewrite parse_apk_flags. cbn. unfold validate_arch. by destruct Harch as [-> | ->].
Qed.
End args.
End AlpineGuest.
