(* ===== verification/Transfer.v ===== *)
(** * Transfer: [src/sagens/client.rs], files in and out of a BOX

    Uploading and downloading of files and directories from the command line: the
    local side is the file system of [FileSystem], the remote side the file
    operations of the API client, an interface.  A local path is resolved
    against the working directory by its components, which is what the kernel does
    where no symbolic link is on the way. *)

From S2P Require Import Prelude RustStd Text Paths FileSystem PrivateFs FsTree Manifest GuestFs HostConfig BoxClient.

(** The file operations of [BoxApiClient]. *)
Class RemoteFiles (R : Type) := {
  list_files : Uuid → string → M SandboxError R (list FileNode);
  read_file : Uuid → string → Z → M SandboxError R ReadFileResult;
  write_file : Uuid → string → bytes → bool → M SandboxError R ();
  make_dir : Uuid → string → bool → M SandboxError R ();
}.

(** ** Local paths *)

Fixpoint locate (cur : path) (p : PathBuf) : path :=
  match p with
  | [] => cur
  | RootDir :: p' => locate [] p'
  | CurDir :: p' => locate cur p'
  | ParentDir :: p' => locate (parent cur) p'
  | Normal n :: p' => locate (cur ++ [n]) p'
  end.

(** [Path::parent] and [Path::file_name]. *)
Definition path_parent (p : PathBuf) : option PathBuf :=
  match last p with None | Some RootDir => None | Some _ => Some (take (pred (length p)) p) end.
Definition path_file_name (p : PathBuf) : option string :=
  match last p with Some (Normal n) => Some n | _ => None end.

Definition fallback_name : string := "downloaded-file".

(** After the first test nothing is left for [trim_end_matches] to trim. *)
Definition remote_file_name (remote_path : string) : string :=
  if ends_with "/" remote_path then fallback_name
  else if decide (remote_path = "") then fallback_name
  else match path_file_name (components remote_path) with
       | Some name => if decide (name = "") then fallback_name else name
       | None => fallback_name
       end.

Definition should_fallback_to_file_download (error : SandboxError) : bool :=
  match error with
  | Io _ source => bool_decide (io_kind source = KNotADirectory)
  | Backend message | Prelude.Protocol message =>
      contains "reading workspace directory" message
      && (contains "Not a directory" message || contains "os error 20" message)
  | _ => false
  end.

(** 16 MiB *)
Definition DOWNLOAD_LIMIT : Z := 16 * 1024 * 1024.

(** The depth of the deepest path, and one: fuel for a walk. *)
Definition depth (fs : gmap path node) : nat := foldr (λ kv d, length kv.1 `max` d) 0 (map_to_list fs).

Section transfer.
Context `{!Platform} {R : Type} `{!RemoteFiles R} (cwd : path).

Abbreviation TM := (M SandboxError (World * R)).

Definition local_op {A} (context : string) (m : M IoError World A) : TM A :=
  zoom fst (λ w s, (w, s.2)) (map_err (Io context) m).
Definition remote_op {A} (m : M SandboxError R A) : TM A := zoom snd (λ r s, (s.1, r)) m.

(** The local file operations: an empty path leads nowhere, the root is a directory. *)
Definition local_is_dir (p : PathBuf) : M IoError World bool :=
  io_op (λ fs, match p, locate cwd p with
               | [], _ => Err ENOENT
               | _, [] => Ok (true, fs)
               | _, q => n ← ok_or ENOENT (fs !! q); Ok (is_dir n, fs)
               end) atomic.
Definition local_read (p : PathBuf) : M IoError World bytes :=
  if decide (p = []) then throw ENOENT else fs_read (locate cwd p).
Definition local_read_dir (p : PathBuf) : M IoError World (list string) :=
  if decide (p = []) then throw ENOENT else fs_read_dir (locate cwd p).
(** [create_dir_all] of the empty path does nothing. *)
Definition local_create_dir_all (p : PathBuf) : M IoError World () :=
  if decide (p = []) then mret () else fs_create_dir_all (locate cwd p).
Definition local_write (p : PathBuf) (data : bytes) : M IoError World () :=
  if decide (p = []) then throw ENOENT
  else if decide (locate cwd p = []) then throw EISDIR else fs_write (locate cwd p) data.

(** [entry.path()], for a name of a directory. *)
Definition child (p : PathBuf) (name : string) : PathBuf := p ++ [Normal name].

(** ** Uploading *)

(** One turn of the loop of [upload_directory]; [walk] is the recursive call. *)
Definition upload_entry (walk : PathBuf → string → TM ()) (box_id : Uuid) (local_dir : PathBuf) (remote_dir : string)
    (file_name : string) : TM () :=
  local_op "iterating local upload directory" fs_next_entry;;
  let local_path := child local_dir file_name in
  let remote_path := path_join remote_dir file_name in
  dir ← local_op "reading local upload entry metadata" (local_is_dir local_path);
  if dir : bool then
    remote_op (make_dir box_id remote_path true);;
    walk local_path remote_path
  else
    data ← local_op "reading local upload file" (local_read local_path);
    remote_op (write_file box_id remote_path data true).

Fixpoint upload_directory (fuel : nat) (box_id : Uuid) (local_dir : PathBuf) (remote_dir : string) : TM () :=
  names ← local_op "reading local upload directory" (local_read_dir local_dir);
  match fuel with
  | O => throw (Backend "directory tree deeper than the file system")
  | S fuel' =>
      for_each (upload_entry (upload_directory fuel' box_id) box_id local_dir remote_dir) names;;
      local_op "iterating local upload directory" fs_next_entry
  end.

Definition upload_path (box_id : Uuid) (local_path : PathBuf) (remote_path : string) : TM () :=
  dir ← local_op "reading local upload path metadata" (local_is_dir local_path);
  if dir : bool then
    remote_op (make_dir box_id remote_path true);;
    fuel ← gets (λ s, S (depth (w_fs s.1)));
    upload_directory fuel box_id local_path remote_path
  else
    data ← local_op "reading local upload file" (local_read local_path);
    remote_op (write_file box_id remote_path data true).

(** ** Downloading *)

Definition write_download_file (p : PathBuf) (data : bytes) : TM () :=
  (match path_parent p with
   | Some parent => local_op "creating local download parent directory" (local_create_dir_all parent)
   | None => mret ()
   end);;
  local_op "writing local downloaded file" (local_write p data).

Definition resolve_download_file_path (remote_path : string) (local_path : PathBuf) : TM PathBuf :=
  dir ← attempt (local_op "" (local_is_dir local_path));
  mret (match dir with
        | Ok true => join local_path (remote_file_name remote_path)
        | _ =>
            if ends_with "/" remote_path then local_path
            else if (match path_file_name local_path with
                     | Some name => String.eqb name "." || String.eqb name ".."
                     | None => false
                     end) then join local_path (remote_file_name remote_path)
            else local_path
        end).

Definition download_entry (box_id : Uuid) (local_root : PathBuf) (entry : FileNode) : TM () :=
  let local_path := join local_root (fn_path entry) in
  match fn_kind entry with
  | FkDirectory => local_op "creating local downloaded directory" (local_create_dir_all local_path)
  | FkFile =>
      file ← remote_op (read_file box_id ("/workspace/" ^+ fn_path entry) DOWNLOAD_LIMIT);
      write_download_file local_path (rf_data file)
  | FkSymlink => throw (InvalidConfig ("downloading symlinks is not supported yet: " ^+ fn_path entry))
  end.
Definition download_directory (box_id : Uuid) (local_root : PathBuf) (entries : list FileNode) : TM () :=
  for_each (download_entry box_id local_root) entries.

Definition download_path (box_id : Uuid) (remote_path : string) (local_path : PathBuf) : TM () :=
  listing ← attempt (remote_op (list_files box_id remote_path));
  match listing with
  | Ok entries =>
      local_op "creating local download directory" (local_create_dir_all local_path);;
      download_directory box_id local_path entries
  | Err error =>
      if should_fallback_to_file_download error then
        file ← remote_op (read_file box_id remote_path DOWNLOAD_LIMIT);
        p ← resolve_download_file_path remote_path local_path;
        write_download_file p (rf_data file)
      else throw error
  end.
End transfer.

(** ** Paths *)

Lemma locate_app cur p p' : locate cur (p ++ p') = locate (locate cur p) p'.
Proof. revert cur. induction p as [|[] p IH]; intros cur; simpl; auto. Qed.

Lemma locate_normal cur names : locate cur (map Normal names) = cur ++ names.
Proof. revert cur. induction names as [|n names IH]; intros cur; simpl; [by rewrite app_nil_r|]. by rewrite IH, <-app_assoc. Qed.

Lemma locate_drop_cur cur p : locate cur (drop_cur p) = locate cur p.
Proof. by destruct p as [|[] p]. Qed.

Lemma join_cases root s : starts_with "/" s = false → locate [] (components s) = locate [] (drop_cur (components s)) ∧
  join root s = match root with [] => components s | _ => root ++ drop_cur (components s) end.
Proof.
  intros Hs. split; [by rewrite locate_drop_cur|]. unfold join. pose proof (relative_no_root s Hs) as Hno.
  destruct (components s) as [|[] cs], root; try done; exfalso; apply Hno; by left.
Qed.

(** Joining a path without [..] stays below the directory, whatever it was. *)
Lemma locate_join cur root s ns :
  starts_with "/" s = false → drop_cur (components s) = map Normal ns → locate cur (join root s) = locate cur root ++ ns.
Proof.
  intros Hs Hns. destruct (join_cases root s Hs) as [_ ->]. destruct root as [|c root].
  - by rewrite <-locate_drop_cur, Hns, locate_normal.
  - by rewrite locate_app, Hns, locate_normal.
Qed.

Lemma locate_parent cur p p' :
  path_parent p = Some p' → last p ≠ Some ParentDir → locate cur p' `prefix_of` locate cur p.
Proof.
  unfold path_parent. destruct p as [|c p _] using rev_ind; [done|]. rewrite last_snoc.
  intros E Hne. assert (p' = p) as ->.
  { destruct c; simplify_eq; rewrite length_app; simpl; rewrite Nat.add_1_r; simpl; by rewrite take_app_length. }
  rewrite locate_app. destruct c; simpl; try done. by apply prefix_app_r.
Qed.

Lemma prefix_near (d ns q : path) : q `prefix_of` d ++ ns → near d q.
Proof. intros Hq. unfold near. destruct (prefix_weak_total q d (d ++ ns)); auto. by apply prefix_app_r. Qed.

(** ** What a download may touch *)

(** Below [root] anything; above it directories may be made, and nothing that
    exists is changed; elsewhere nothing. *)
Definition spares (root : path) (w w' : World) : Prop :=
  (∀ q n, ¬ root `prefix_of` q → w_fs w !! q = Some n → w_fs w' !! q = Some n) ∧ frame (near root) w w'.

#[global] Instance spares_preorder root : PreOrder (spares root).
Proof.
  split; [done|]. intros w1 w2 w3 [H1 F1] [H2 F2]. split; [auto|by etrans].
Qed.

Section props.
Context `{!Platform} {R : Type} `{!RemoteFiles R} (cwd : path).

Lemma spares_io_op {A} (root : path) (act : gmap path node → Result IoError (A * gmap path node)) torn :
  (∀ fs a fs', act fs = Ok (a, fs') → ∀ q n, ¬ root `prefix_of` q → fs !! q = Some n → fs' !! q = Some n) →
  (∀ f fs q n, ¬ root `prefix_of` q → fs !! q = Some n → torn f fs !! q = Some n) →
  keeps (frame (near root)) (io_op act torn) → keeps (spares root) (io_op act torn).
Proof.
  intros Hact Htorn Hf w. split; [|apply Hf]. unfold io_op.
  destruct (w_faults w) as [|[f|] sched]; simpl; [|by apply Htorn|];
    destruct (act (w_fs w)) as [[a fs']|e] eqn:E; simpl; try done; by eapply Hact.
Qed.

Lemma spares_look {A} (root : path) (act : gmap path node → Result IoError (A * gmap path node)) :
  (∀ fs a fs', act fs = Ok (a, fs') → fs' = fs) → keeps (spares root) (io_op act atomic).
Proof.
  intros Hact. apply spares_io_op; [intros fs a fs' ->%Hact; done|done|].
  apply keeps_io_op; [by intros fs a fs' ->%Hact|by intros].
Qed.

Lemma spares_create_dir_all root ns : keeps (spares root) (fs_create_dir_all (root ++ ns)).
Proof.
  apply spares_io_op.
  - intros fs a fs'. destruct (has_file_prefix _ _); [done|]. intros [= _ <-] q n _ Hq. by apply lookup_union_Some_l.
  - intros f fs q n _ Hq. cbn zeta. destruct (has_file_prefix _ _); [done|]. by apply lookup_union_Some_l.
  - apply keeps_create_dir_all. intros q. apply prefix_near.
Qed.

Lemma spares_create_above (root d : path) : d `prefix_of` root → keeps (spares root) (fs_create_dir_all d).
Proof.
  intros Hd. apply spares_io_op.
  - intros fs a fs'. destruct (has_file_prefix _ _); [done|]. intros [= _ <-] q n _ Hq. by apply lookup_union_Some_l.
  - intros f fs q n _ Hq. cbn zeta. destruct (has_file_prefix _ _); [done|]. by apply lookup_union_Some_l.
  - apply keeps_create_dir_all. intros q Hq. left. by etrans.
Qed.

Lemma spares_write (root p : path) data : root `prefix_of` p → keeps (spares root) (fs_write p data).
Proof.
  intros Hp. assert (Hput : ∀ fs m c fs' q n, put_file fs p m c = Ok fs' → ¬ root `prefix_of` q → fs !! q = Some n → fs' !! q = Some n).
  { intros fs m c fs' q n (_ & m' & -> & _)%put_file_ok Hq Hn. rewrite lookup_insert_ne; [done|by intros ->]. }
  apply spares_io_op.
  - intros fs a fs'. destruct (put_file fs p file_mode (Text data)) as [fs1|] eqn:E; [|done]. intros [= _ <-] q n. by eapply Hput.
  - intros f fs q n Hq Hn. unfold torn_write. destruct (fault_progress f); [done|].
    destruct (put_file _ _ _ _) as [fs1|] eqn:E; [by eapply Hput|done].
  - apply keeps_write. by right.
Qed.

Definition lspares (root : path) (s s' : World * R) : Prop := spares root s.1 s'.1.
#[local] Instance lspares_preorder root : PreOrder (lspares root).
Proof. split; unfold lspares; [done|]. intros s1 s2 s3 ? ?. by etrans. Qed.

Lemma lspares_local {A} root ctx (m : M IoError World A) : keeps (spares root) m → keeps (lspares root) (local_op (R := R) ctx m).
Proof. intros Hm. eapply keeps_zoom, keeps_map_err, Hm. done. Qed.
Lemma lspares_remote {A} root (m : M SandboxError R A) : keeps (lspares root) (remote_op m).
Proof. apply (keeps_zoom _ (λ _ _, True)); [|done]. intros [w r] r' _. unfold lspares. simpl. reflexivity. Qed.

Lemma spares_is_dir root p : keeps (spares root) (local_is_dir cwd p).
Proof.
  apply spares_look. intros fs a fs'. destruct p; [done|]. destruct (locate cwd _) as [|x q]; [by intros [= _ <-]|].
  destruct (fs !! (x :: q)); [by intros [= _ <-]|done].
Qed.

Lemma spares_mkdir root p ns : locate cwd p = root ++ ns → keeps (spares root) (local_create_dir_all cwd p).
Proof. intros Hp. unfold local_create_dir_all. case_decide; [apply keeps_ret; typeclasses eauto|]. rewrite Hp. apply spares_create_dir_all. Qed.

(** Writing a downloaded file at or below [root]. *)
Lemma lspares_write_download root p ns data :
  locate cwd p = root ++ ns → last p ≠ Some ParentDir → keeps (lspares root) (write_download_file cwd p data).
Proof.
  intros Hp Hl. unfold write_download_file. apply keeps_bind; [typeclasses eauto| |intros _].
  - destruct (path_parent p) as [p'|] eqn:E; [|apply keeps_ret; typeclasses eauto]. apply lspares_local.
    pose proof (locate_parent cwd p p' E Hl) as Hpre. rewrite Hp in Hpre.
    unfold local_create_dir_all. case_decide; [apply keeps_ret; typeclasses eauto|].
    destruct (prefix_near _ _ _ Hpre) as [Hup|[ns' ->]]; [by apply spares_create_above|apply spares_create_dir_all].
  - apply lspares_local. unfold local_write. case_decide; [apply keeps_throw; typeclasses eauto|].
    case_decide; [apply keeps_throw; typeclasses eauto|]. apply spares_write. rewrite Hp. by apply prefix_app_r.
Qed.

Lemma last_join root s ns :
  starts_with "/" s = false → drop_cur (components s) = map Normal ns → last root ≠ Some ParentDir →
  last (join root s) ≠ Some ParentDir.
Proof.
  intros Hs Hns Hl. destruct (join_cases root s Hs) as [_ ->].
  assert (Hn : last (map Normal ns) ≠ Some ParentDir).
  { rewrite fmap_last. by destruct (last ns). }
  destruct root as [|c root].
  - assert (components s = map Normal ns ∨ components s = CurDir :: map Normal ns) as [->| ->]; [|done|].
    { destruct (components s) as [|[] cs]; simpl in Hns; rewrite <-Hns; auto. }
    by destruct ns.
  - rewrite last_app, Hns. destruct ns as [|n ns]; [done|]. by destruct (last (map Normal (n :: ns))).
Qed.

Definition entry_plain (e : FileNode) : Prop := validate_relative (fn_path e) = Ok ().

Lemma lspares_entry b local e :
  entry_plain e → last local ≠ Some ParentDir → keeps (lspares (locate cwd local)) (download_entry cwd b local e).
Proof.
  intros (Hs & ns & Hns & _)%validate_relative_names Hl. pose proof (locate_join cwd local _ _ Hs Hns) as Hj.
  unfold download_entry. destruct (fn_kind e).
  - apply keeps_bind; [typeclasses eauto|apply lspares_remote|intros file].
    eapply lspares_write_download; [exact Hj|]. by eapply last_join.
  - apply lspares_local. by eapply spares_mkdir.
  - apply keeps_throw; typeclasses eauto.
Qed.

Lemma remote_file_name_plain remote : plain_name (remote_file_name remote).
Proof.
  unfold remote_file_name. destruct (ends_with "/" remote); [by vm_compute|]. case_decide; [by vm_compute|].
  destruct (path_file_name (components remote)) as [name|] eqn:E; [|by vm_compute]. case_decide; [by vm_compute|].
  unfold path_file_name in E. destruct (last (components remote)) as [[| | |n]|] eqn:El; try done. injection E as ->.
  apply last_Some_elem_of in El. unfold components in El.
  assert (Normal name ∈ omap segment (split_on slash remote)) as Hin.
  { destruct (starts_with "/" remote); [by apply elem_of_cons in El as [|]|].
    destruct (split_on slash remote); [done|]. case_decide; [by apply elem_of_cons in El as [|]|done]. }
  apply body_components in Hin as [|(n & [= <-] & Hn)]; done.
Qed.

Lemma resolve_download_cases remote local s p s' :
  resolve_download_file_path (R := R) cwd remote local s = (Ok p, s') →
  p = local ∨ p = join local (remote_file_name remote).
Proof.
  unfold resolve_download_file_path. intros (dir & s1 & _ & [<- _]%ret_ok_inv)%bind_ok_inv.
  destruct dir as [[]|]; auto; destruct (ends_with "/" remote); auto; destruct (path_file_name local); auto; destruct (_ || _); auto.
Qed.

(** a download stays where it was sent: if the listing the BOX gives holds no path with [..] and no absolute one, then
    whatever the contents and whichever operation fails, nothing on the local disk changes
    but what is at or below the destination; above it directories that are missing are made, and what exists is
    left as it is. *)
Theorem download_confined b remote local w (r : R) :
  last local ≠ Some ParentDir →
  (∀ es r', list_files b remote r = (Ok es, r') → Forall entry_plain es) →
  spares (locate cwd local) w (download_path cwd b remote local (w, r)).2.1.
Proof.
  intros Hl Hes. unfold download_path.
  destruct (list_files b remote r) as [[es|e] r'] eqn:El.
  - rewrite (bind_ok _ _ _ (Ok es) (w, r')) by (unfold attempt, remote_op, zoom; simpl; by rewrite El).
    specialize (Hes es r' eq_refl). match goal with |- spares _ _ (?c ?s).2.1 => enough (keeps (lspares (locate cwd local)) c) as Hk by apply (Hk s) end.
    apply keeps_bind; [typeclasses eauto|..].
    + apply lspares_local, (spares_mkdir _ _ []). by rewrite app_nil_r.
    + intros _. apply keeps_for_each; [typeclasses eauto|]. intros e He. apply lspares_entry; [|done].
      by eapply Forall_forall in Hes.
  - rewrite (bind_ok _ _ _ (Err e) (w, r')) by (unfold attempt, remote_op, zoom; simpl; by rewrite El).
    match goal with |- spares _ _ (?c ?s).2.1 => enough (keeps (lspares (locate cwd local)) c) as Hk by apply (Hk s) end.
    destruct (should_fallback_to_file_download e); [|apply keeps_throw; typeclasses eauto].
    apply keeps_bind; [typeclasses eauto|apply lspares_remote|intros file].
    apply keeps_bind_val; [typeclasses eauto|..].
    { unfold resolve_download_file_path. apply keeps_bind; [typeclasses eauto| |intros ?; apply keeps_ret; typeclasses eauto].
      apply keeps_attempt, lspares_local, spares_is_dir. }
    intros s p s' [->| ->]%resolve_download_cases.
    + apply (lspares_write_download _ _ []); [by rewrite app_nil_r|done].
    + pose proof (remote_file_name_plain remote) as Hn. pose proof (plain_name_components _ Hn) as Hc.
      assert (Hrel : starts_with "/" (remote_file_name remote) = false) by by apply plain_name_relative.
      assert (Hd : drop_cur (components (remote_file_name remote)) = map Normal [remote_file_name remote]) by by rewrite Hc.
      eapply lspares_write_download; [by eapply locate_join|by eapply last_join].
Qed.

(** *** A listing that lies *)

Lemma local_run {A} ctx (m : M IoError World A) w a w' (r : R) :
  m w = (Ok a, w') → local_op ctx m (w, r) = (Ok a, (w', r)).
Proof. intros Hm. unfold local_op, zoom. simpl. unfold map_err. by rewrite Hm. Qed.
Lemma remote_run {A} (m : M SandboxError R A) (w : World) r res r' :
  m r = (res, r') → remote_op m (w, r) = (res, (w, r')).
Proof. intros Hm. unfold remote_op, zoom. simpl. by rewrite Hm. Qed.

Lemma create_dir_all_noop d m w :
  clean w → tree (w_fs w) → w_fs w !! d = Some (Dir m) → fs_create_dir_all d w = (Ok (), w).
Proof.
  intros Hw Ht Hd. unfold fs_create_dir_all. rewrite io_op_clean by done.
  assert (dir_free (w_fs w) d) as ->.
  { apply dir_free_spec. intros q m' c Hq Hne Hf. destruct (decide (q = d)) as [->|Hqd]; [congruence|].
    destruct (tree_ancestors _ _ _ Ht Hd q Hq Hne Hqd) as [m'' Hm'']. congruence. }
  rewrite (chain_noop _ _ m) by done. by rewrite set_fs_id.
Qed.

(** a BOX can overwrite files outside the destination: nothing checks the names of a listing, so an entry [../x] of a
    download into the directory [out] replaces the file [x] beside it. *)
Theorem listing_escapes b remote w (r r1 r2 : R) size digest target file m m1 m2 c x :
  plain_name x → clean w → tree (w_fs w) → w_fs w !! cwd = Some (Dir m) → w_fs w !! (cwd ++ ["out"]) = Some (Dir m1) →
  w_fs w !! (cwd ++ [x]) = Some (File m2 c) →
  list_files b remote r = (Ok [mkFileNode ("../" ^+ x) FkFile size digest target], r1) →
  read_file b ("/workspace/../" ^+ x) DOWNLOAD_LIMIT r1 = (Ok file, r2) →
  download_path cwd b remote [Normal "out"] (w, r) =
    (Ok (), (set_fs (<[cwd ++ [x] := File m2 (Text (rf_data file))]> (w_fs w)) w, r2)).
Proof.
  intros Hx Hw Ht Hc Ho Hf Hl Hr. unfold download_path, download_directory.
  set (e := mkFileNode ("../" ^+ x) FkFile size digest target) in *.
  assert (Hj : join [Normal "out"] (fn_path e) = [Normal "out"; ParentDir; Normal x]).
  { unfold join. change (fn_path e) with (".." ^+ String slash x). unfold components.
    rewrite split_on_word by done. destruct Hx as (? & ? & ? & ->). simpl. unfold segment. by rewrite !decide_False by done. }
  rewrite (bind_ok _ _ _ (Ok [e]) (w, r1)) by (unfold attempt; by rewrite (remote_run _ _ _ _ _ Hl)).
  rewrite (bind_ok _ _ _ () (w, r1)) by (by apply local_run, (create_dir_all_noop _ m1)).
  cbn [for_each]. rewrite (bind_ok _ _ _ () (set_fs (<[cwd ++ [x] := File m2 (Text (rf_data file))]> (w_fs w)) w, r2)); [done|].
  unfold download_entry. rewrite Hj. cbn [fn_kind e]. rewrite (bind_ok _ _ _ file (w, r2)) by by apply remote_run.
  unfold write_download_file. cbn [path_parent last length pred take].
  assert (parent (cwd ++ ["out"]) = cwd) as Hpar by apply parent_app.
  rewrite (bind_ok _ _ _ () (w, r2)).
  2:{ apply local_run. unfold local_create_dir_all. cbn [decide]. simpl. rewrite Hpar. by apply (create_dir_all_noop _ m). }
  apply local_run. unfold local_write. simpl. rewrite Hpar.
  rewrite decide_False by (by destruct cwd). unfold fs_write. apply io_op_clean_ok; [done|].
  unfold put_file, parent_is_dir. rewrite parent_app, Hf. destruct cwd as [|y q]; [done|]. by rewrite Hc.
Qed.
End props.

(** ** What an upload sends *)

Inductive RemoteCall := RcMakeDir (p : string) | RcWriteFile (p : string) (data : bytes).

(** The call for a node of the local tree. *)
Definition call_for (p : string) (n : node) : RemoteCall :=
  match n with Dir _ => RcMakeDir p | File _ c => RcWriteFile p (content_bytes c) end.

Lemma depth_bound fs q n : fs !! q = Some n → length q ≤ depth fs.
Proof.
  intros Hq%elem_of_map_to_list. unfold depth. revert Hq. generalize (map_to_list fs).
  induction l as [|kv l IH]; [by intros ?%elem_of_nil|]. simpl. intros [<-|Hin]%elem_of_cons; simpl; [lia|]. specialize (IH Hin). lia.
Qed.

Section upload.
Context `{!Platform} {R : Type} `{!RemoteFiles R} (cwd : path).

Definition do_call (b : Uuid) (call : RemoteCall) : M SandboxError R () :=
  match call with RcMakeDir p => make_dir b p true | RcWriteFile p data => write_file b p data true end.

(** The calls for what is below a directory, in the order of the walk. *)
Fixpoint plan (fuel : nat) (fs : gmap path node) (q : path) (remote : string) : list RemoteCall :=
  match fuel with
  | O => []
  | S fuel' =>
      entries fs q ≫= λ name,
        match fs !! (q ++ [name]) with
        | Some n => call_for (path_join remote name) n :: (if is_dir n then plan fuel' fs (q ++ [name]) (path_join remote name) else [])
        | None => []
        end
  end.

Lemma remote_seq {A B} (m1 : M SandboxError R A) (m2 : M SandboxError R B) (s : World * R) :
  (remote_op m1;; remote_op m2) s = remote_op (m1;; m2) s.
Proof. destruct s as [w r]. unfold remote_op, zoom, mbind, M_bind. simpl. by destruct (m1 r) as [[]r1]. Qed.

Section run.
Context (w : World) (Hw : clean w).

Lemma look_run {A} (ctx : string) (act : gmap path node → Result IoError (A * gmap path node)) torn a (r : R) :
  act (w_fs w) = Ok (a, w_fs w) → local_op ctx (io_op act torn) (w, r) = (Ok a, (w, r)).
Proof. intros Ha. apply local_run. rewrite (io_op_clean_ok _ _ _ _ _ Hw Ha). by rewrite set_fs_id. Qed.

Lemma is_dir_run p q n (ctx : string) (r : R) :
  p ≠ [] → locate cwd p = q → w_fs w !! q = Some n → q ≠ [] → local_op ctx (local_is_dir cwd p) (w, r) = (Ok (is_dir n), (w, r)).
Proof.
  intros Hp Hq Hn Hne. apply look_run. destruct p as [|x p]; [done|]. rewrite Hq. destruct q; [done|]. by rewrite Hn.
Qed.

Lemma read_run p q m c (ctx : string) (r : R) :
  p ≠ [] → locate cwd p = q → w_fs w !! q = Some (File m c) →
  local_op ctx (local_read cwd p) (w, r) = (Ok (content_bytes c), (w, r)).
Proof.
  intros Hp <- Hn. unfold local_read. rewrite decide_False by done. apply look_run. unfold read_node. by rewrite Hn.
Qed.

(** A remote computation keeps the local side. *)
Lemma remote_local {A} (m : M SandboxError R A) r a s' : remote_op m (w, r) = (Ok a, s') → s'.1 = w.
Proof. unfold remote_op, zoom. simpl. destruct (m r) as [res r']. by intros [= _ <-]. Qed.

Context (Hent : ∀ q name, name ∈ entries (w_fs w) q → is_Some (w_fs w !! (q ++ [name]))).

(** The calls for one entry. *)
Definition entry_calls (fuel : nat) (q : path) (remote name : string) : list RemoteCall :=
  match w_fs w !! (q ++ [name]) with
  | Some n => call_for (path_join remote name) n :: (if is_dir n then plan fuel (w_fs w) (q ++ [name]) (path_join remote name) else [])
  | None => []
  end.

Definition walks (fuel : nat) (b : Uuid) : Prop := ∀ p remote (r : R) m,
  p ≠ [] → w_fs w !! locate cwd p = Some (Dir m) → locate cwd p ≠ [] → depth (w_fs w) < length (locate cwd p) + fuel →
  upload_directory cwd fuel b p remote (w, r) =
  remote_op (for_each (do_call b) (plan fuel (w_fs w) (locate cwd p) remote)) (w, r).

Lemma upload_entry_run fuel b p remote name (r : R) :
  walks fuel b → depth (w_fs w) < length (locate cwd p) + S fuel → name ∈ entries (w_fs w) (locate cwd p) →
  upload_entry cwd (upload_directory cwd fuel b) b p remote name (w, r) =
  remote_op (for_each (do_call b) (entry_calls fuel (locate cwd p) remote name)) (w, r).
Proof.
  intros Hwalk Hfuel Hin. destruct (Hent _ _ Hin) as [n Hn]. unfold entry_calls. rewrite Hn.
  assert (Hc : locate cwd (child p name) = locate cwd p ++ [name]) by (unfold child; by rewrite locate_app).
  assert (Hne : locate cwd (child p name) ≠ []) by (rewrite Hc; by destruct (locate cwd p)).
  assert (Hp : child p name ≠ []) by (unfold child; by destruct p).
  unfold upload_entry. rewrite (bind_ok _ _ _ () (w, r)) by by apply look_run. cbv zeta.
  rewrite (bind_ok _ _ _ (is_dir n) (w, r)) by (apply (is_dir_run _ _ _ _ _ Hp Hc); [done|by rewrite <-Hc]).
  cbn [for_each]. rewrite <-remote_seq. destruct n as [m|m c]; cbn [is_dir call_for do_call].
  - apply bind_ext; [done|]. intros [] [w' r'] Hrun. apply remote_local in Hrun. simpl in Hrun. subst w'. rewrite (Hwalk _ _ _ m), Hc; [done|done|..].
    + by rewrite Hc.
    + done.
    + rewrite Hc, length_app. simpl. lia.
  - rewrite (bind_ok _ _ _ (content_bytes c) (w, r)) by by apply (read_run _ _ m c _ _ Hp Hc).
    unfold remote_op at 2, zoom, mbind, M_bind. simpl. unfold remote_op, zoom. simpl. by destruct (write_file _ _ _ _ r) as [[[]|]].
Qed.

Lemma upload_entries_run fuel b p remote names (r : R) :
  walks fuel b → depth (w_fs w) < length (locate cwd p) + S fuel → (∀ name, name ∈ names → name ∈ entries (w_fs w) (locate cwd p)) →
  for_each (upload_entry cwd (upload_directory cwd fuel b) b p remote) names (w, r) =
  remote_op (for_each (do_call b) (names ≫= entry_calls fuel (locate cwd p) remote)) (w, r).
Proof.
  intros Hwalk Hfuel. revert r. induction names as [|name names IH]; intros r Hin; [done|]. cbn [for_each mbind list_bind].
  transitivity (remote_op (for_each (do_call b) (entry_calls fuel (locate cwd p) remote name);;
    for_each (do_call b) (names ≫= entry_calls fuel (locate cwd p) remote)) (w, r)).
  2:{ unfold remote_op, zoom. simpl. by rewrite for_each_app. }
  rewrite <-remote_seq. apply bind_ext.
  - apply upload_entry_run; [done|done|]. apply Hin. by left.
  - intros [] [w' r'] Hrun. rewrite upload_entry_run in Hrun; [|done|done|apply Hin; by left].
    apply remote_local in Hrun. simpl in Hrun. subst w'. apply IH. intros; apply Hin; by right.
Qed.

Lemma upload_directory_run fuel b : walks fuel b.
Proof.
  induction fuel as [|fuel IH]; intros p remote r m Hp Hd Hq Hfuel.
  { pose proof (depth_bound _ _ _ Hd). lia. }
  cbn [upload_directory plan]. rewrite (bind_ok _ _ _ (entries (w_fs w) (locate cwd p)) (w, r)).
  2:{ unfold local_read_dir. rewrite decide_False by done. apply look_run. destruct (locate cwd p); [done|]. by rewrite Hd. }
  unfold mbind, M_bind. rewrite upload_entries_run by (done || lia).
  fold (entry_calls fuel (locate cwd p) remote). unfold remote_op, zoom. simpl.
  destruct (for_each _ _ r) as [[[]|e] r']; [|done]. by apply look_run.
Qed.
End run.

(** A tree is uploaded as its plan says. *)
Lemma upload_path_run b p remote w (r : R) m :
  clean w → (∀ q name, name ∈ entries (w_fs w) q → is_Some (w_fs w !! (q ++ [name]))) →
  p ≠ [] → locate cwd p ≠ [] → w_fs w !! locate cwd p = Some (Dir m) →
  upload_path cwd b p remote (w, r) =
  remote_op (for_each (do_call b) (RcMakeDir remote :: plan (S (depth (w_fs w))) (w_fs w) (locate cwd p) remote)) (w, r).
Proof.
  intros Hw Hent Hp Hq Hd. unfold upload_path. rewrite (bind_ok _ _ _ true (w, r)) by by apply (is_dir_run w Hw p (locate cwd p) (Dir m)).
  cbn [for_each]. rewrite <-remote_seq. apply bind_ext; [done|]. intros [] [w' r'] Hrun. apply remote_local in Hrun. simpl in Hrun. subst w'.
  unfold gets, mbind, M_bind. simpl fst. apply (upload_directory_run w Hw Hent _ _ _ _ _ m); [done|done|done|lia].
Qed.

Context `{!PlatformLaws}.

Lemma plan_sound fuel fs q remote call :
  call ∈ plan fuel fs q remote →
  ∃ rel n, rel ≠ [] ∧ fs !! (q ++ rel) = Some n ∧ call = call_for (foldl path_join remote rel) n.
Proof.
  revert q remote. induction fuel as [|fuel IH]; intros q remote; simpl; [by intros ?%elem_of_nil|].
  rewrite list_elem_of_bind. intros (name & Hin & _). destruct (fs !! (q ++ [name])) as [n|] eqn:Hn; [|by apply elem_of_nil in Hin].
  apply elem_of_cons in Hin as [->|Hin]; [by exists [name], n|]. destruct (is_dir n); [|by apply elem_of_nil in Hin].
  apply IH in Hin as (rel & n' & Hne & Hl & ->). exists (name :: rel), n'. rewrite <-app_assoc in Hl. by split_and!.
Qed.

Lemma plan_complete fuel fs q remote rel n :
  tree fs → rel ≠ [] → length rel ≤ fuel → fs !! (q ++ rel) = Some n →
  call_for (foldl path_join remote rel) n ∈ plan fuel fs q remote.
Proof.
  intros Ht. revert q remote rel. induction fuel as [|fuel IH]; intros q remote rel Hne Hlen Hn;
    (destruct rel as [|name rel]; [done|]); simpl in Hlen; [lia|].
  simpl. apply list_elem_of_bind. exists name.
  replace (q ++ name :: rel) with ((q ++ [name]) ++ rel) in Hn by by rewrite <-app_assoc.
  destruct (decide (rel = [])) as [->|Hrel].
  - rewrite app_nil_r in Hn. rewrite Hn. split; [by left|]. apply entries_elem. eauto.
  - assert (∃ m, fs !! (q ++ [name]) = Some (Dir m)) as [m Hm].
    { eapply tree_ancestors; [done|exact Hn|by apply prefix_app_r|by destruct q|].
      intros E. apply (f_equal length) in E. rewrite (length_app (q ++ [name])) in E. destruct rel; [done|simpl in E; lia]. }
    rewrite Hm. split; [|apply entries_elem; eauto]. right. simpl. apply IH; [done|lia|done].
Qed.

End upload.

(** ** With the agent of a BOX at the other end *)

(** An error of the agent, as it arrives: its text is the message of the guest's failure, whose
    text is the message of the daemon's answer. *)
Definition arrives (e : SandboxError) : SandboxError :=
  ApiClient.remote_error (error_to_string (Prelude.Protocol (error_to_string e))).

Lemma arrives_eq e : arrives e = Prelude.Protocol (error_to_string e).
Proof. reflexivity. Qed.

Section guest.
Context `{!Platform} (cwd : path).

#[local] Instance guest_files : RemoteFiles Guest := {|
  list_files _ p := map_err arrives (agent_list_files p);
  read_file _ p limit := map_err arrives (agent_read_file p limit);
  write_file _ p data parents := map_err arrives (agent_write_file p data parents);
  make_dir _ p recursive := map_err arrives (agent_make_dir p recursive);
|}.

(** Listing a file fails in a way the download recognizes, three errors further. *)
Lemma list_file_falls_back remote (g : Guest) fp q data b :
  g_faults g = [] → (∀ s, agent_path remote s = (Ok fp, s)) → namei (g_fs g) true fp = Ok q →
  node_at (g_fs g) q = Some (GFile data) →
  ∃ e, list_files b remote g = (Err e, g) ∧ should_fallback_to_file_download e = true.
Proof.
  intros Hg Hp Hn Hq. eexists. split; [|shelve]. simpl. unfold map_err at 1, agent_list_files.
  rewrite (bind_ok _ _ _ fp g) by done. unfold mbind, M_bind, map_err, g_read_dir. rewrite g_op_calm by done.
  unfold find_node. rewrite Hn. simpl. rewrite Hq. reflexivity.
  Unshelve. rewrite arrives_eq. vm_compute. reflexivity.
Qed.

Lemma resolve_file_run remote dir name w (g : Guest) :
  clean w → plain_name name → (∀ m, w_fs w !! (locate cwd dir ++ [name]) ≠ Some (Dir m)) →
  resolve_download_file_path cwd remote (child dir name) (w, g) = (Ok (child dir name), (w, g)).
Proof.
  intros Hw (Hn0 & Hn1 & Hn2 & _) Hnd. unfold resolve_download_file_path.
  assert (∃ res, attempt (local_op "" (local_is_dir cwd (child dir name))) (w, g) = (Ok res : Result SandboxError _, (w, g)) ∧ res ≠ Ok true)
    as (res & Hrun & Hres).
  { unfold attempt, local_op, zoom, map_err, local_is_dir. simpl fst. rewrite io_op_clean by done.
    assert (Hloc : locate cwd (child dir name) = locate cwd dir ++ [name]) by (unfold child; by rewrite locate_app).
    assert (Hc : child dir name ≠ []) by (unfold child; by destruct dir).
    destruct (child dir name) as [|x p]; [done|]. rewrite Hloc. destruct (locate cwd dir ++ [name]) as [|y q] eqn:E; [by destruct (locate cwd dir)|].
    specialize (Hnd 0%Z) as Hnd0. destruct (w_fs w !! (y :: q)) as [[m|m c]|]; [by destruct (Hnd m)|..]; simpl; rewrite ?set_fs_id; eauto. }
  rewrite (bind_ok _ _ _ res (w, g)) by done. unfold mret, M_ret. do 2 f_equal.
  assert (path_file_name (child dir name) = Some name) as Hfn by (unfold path_file_name, child; by rewrite last_snoc).
  rewrite Hfn. apply String.eqb_neq in Hn1, Hn2. rewrite Hn1, Hn2.
  destruct res as [[]|]; [done|..]; by destruct (ends_with "/" remote).
Qed.

End guest.
