(* ===== verification/Bundle.v ===== *)
(** * Bundle: [src/bundle.rs], the guest artifacts embedded in the program

    A packaged build carries the kernel, the root file system and the firmware of
    the guest.  Those the configuration does not name are unpacked below the state
    directory.  Which assets a build has, and the zstd decoder, are an interface:
    [embedded_bundle.rs] is generated by the build. *)

From S2P Require Import Prelude RustStd Text Paths FileSystem PrivateFs Config HostConfig GuestFs Transfer.

Inductive Compression := CompressionNone | CompressionZstd.

Record EmbeddedAsset := mkEmbedded {
  ea_file_name : string;
  ea_bytes : bytes;
  ea_compression : Compression;
  ea_mode : Z;
}.

(** [zstd_decode_all] includes what can become of the task it runs in. *)
Class Embedded := {
  KERNEL : option EmbeddedAsset;
  ROOTFS : option EmbeddedAsset;
  FIRMWARE : option EmbeddedAsset;
  zstd_decode_all : bytes → Result (string + string) bytes;   (** the decoder failed, or the task *)
}.

(** ** Paths that grow by a name *)

Lemma locate_snoc cur cs n : locate cur (cs ++ [Normal n]) = locate cur cs ++ [n].
Proof. revert cur. induction cs as [|[] cs IH]; intros cur; [done|apply IH..]. Qed.

Lemma segment_plain n : plain_name n → omap segment (split_on slash n) = [Normal n].
Proof.
  intros (H1 & H2 & H3 & H4). rewrite H4. cbn. unfold segment. by rewrite !decide_False by done.
Qed.

(** The first word of a text and whether it starts with a slash do not depend
    on what follows a separator. *)
Lemma starts_slash_app a p s : starts_with "/" (String a p ^+ s) = starts_with "/" (String a p).
Proof. unfold starts_with. simpl. by repeat case_match. Qed.

Lemma components_app p s n :
  omap segment (split_on slash s) = [Normal n] → components (p ^+ String slash s) = match p with "" => [RootDir; Normal n] | _ => components p ++ [Normal n] end.
Proof.
  intros Hs. unfold components. rewrite split_on_app, omap_app, Hs. destruct p as [|a p]; [done|].
  rewrite starts_slash_app.
  destruct (starts_with "/" (String a p)); [done|].
  destruct (split_on slash (String a p)) as [|w l] eqn:E; [by apply split_on_nonempty in E|]. cbn. by case_decide.
Qed.

Lemma components_slash a q : components (String a q ^+ String slash "") = components (String a q).
Proof.
  unfold components. rewrite split_on_app, omap_app, app_nil_r, starts_slash_app.
  destruct (split_on slash (String a q)) as [|w l] eqn:E; [by apply split_on_nonempty in E|done].
Qed.

Lemma components_push p n : p ≠ "" → plain_name n → components (path_join p n) = components p ++ [Normal n].
Proof.
  intros Hp Hn. unfold path_join. rewrite (plain_name_relative n Hn). rewrite decide_False by done.
  pose proof (segment_plain n Hn) as Hs.
  destruct (ends_with "/" p) eqn:Hend.
  - apply starts_with_true in Hend as [r Hr]. apply (f_equal string_rev) in Hr. rewrite string_rev_involutive in Hr.
    assert (Er : string_rev (string_rev "/" ^+ r) = string_rev r ^+ "/") by exact (string_rev_app_acc r "/"). rewrite Er in Hr.
    set (q := string_rev r) in *. subst p. rewrite string_app_assoc.
    change ("/" ^+ n) with (String slash n). change (q ^+ "/") with (q ^+ String slash "").
    rewrite (components_app q n n Hs). destruct q as [|a q]; [done|].
    by rewrite components_slash.
  - change ("/" ^+ n) with (String slash n). rewrite (components_app p n n Hs). by destruct p.
Qed.

Section bundle.
Context `{Platform, Target, Embedded} (cwd : path).

Definition embedded_assets : bool :=
  bool_decide (is_Some KERNEL) || bool_decide (is_Some ROOTFS) || bool_decide (is_Some FIRMWARE).

Definition at_text (text : string) : path := locate cwd (components text).

Definition materialize_asset (asset : EmbeddedAsset) : Result SandboxError bytes :=
  match ea_compression asset with
  | CompressionNone => Ok (ea_bytes asset)
  | CompressionZstd =>
      match zstd_decode_all (ea_bytes asset) with
      | Ok b => Ok b
      | Err (inl error) => Err (Backend ("decompressing embedded asset " ^+ ea_file_name asset ^+ ": " ^+ error))
      | Err (inr error) =>
          Err (Backend ("joining embedded asset decompression task for " ^+ ea_file_name asset ^+ ": " ^+ error))
      end
  end.

Definition extract_asset (bundle_dir label : string) (asset : EmbeddedAsset) : M SandboxError World string :=
  map_err (Io "creating embedded bundle directory") (fs_create_dir_all (at_text bundle_dir));;
  let p := path_join bundle_dir (ea_file_name asset) in
  data ← lift (materialize_asset asset);
  map_err (Io ("writing embedded asset " ^+ label)) (fs_write (at_text p) data);;
  map_err (Io ("setting embedded asset mode " ^+ label)) (fs_set_mode (at_text p) (ea_mode asset));;
  mret p.

Definition resolve_path (bundle_dir configured : string) (embedded : option EmbeddedAsset) : M SandboxError World string :=
  if decide (configured ≠ "") then mret configured
  else match embedded with
       | Some asset => extract_asset bundle_dir (ea_file_name asset) asset
       | None => throw (InvalidConfig ("missing required embedded asset and no explicit path was configured for " ^+ bundle_dir))
       end.

Definition resolve_optional_path (bundle_dir configured : string) (embedded : option EmbeddedAsset) : M SandboxError World string :=
  if decide (configured ≠ "") then mret configured
  else match embedded with
       | Some asset => extract_asset bundle_dir (ea_file_name asset) asset
       | None => mret ""
       end.

(** [GuestKernelFormat::detect_from_path] on a file of the host. *)
Definition detect_kernel_format (p : string) (fallback : GuestKernelFormat) : M SandboxError World GuestKernelFormat :=
  if decide (p = "") then mret fallback
  else match path_file_name (components p) ≫= detect_from_file_name with
       | Some format => mret format
       | None =>
           data ← attempt (fs_read (at_text p));
           mret (match data with
                 | Ok b => detect_from_probe (take KERNEL_FORMAT_PROBE_BYTES b) fallback
                 | Err _ => fallback
                 end)
       end.

Definition bundle_dir (state_dir bundle_id : string) : string := path_join (path_join state_dir "embedded-bundle") bundle_id.

Definition resolve_firmware (dir : string) (configured : option string) : M SandboxError World (option string) :=
  if decide (default "" configured ≠ "") then mret configured
  else match FIRMWARE with Some asset => Some <$> extract_asset dir "firmware" asset | None => mret None end.

Definition resolve_guest_paths (state_dir bundle_id : string) (guest : GuestConfig) : M SandboxError World GuestConfig :=
  let dir := bundle_dir state_dir bundle_id in
  kernel ← resolve_optional_path dir (kernel_image guest) KERNEL;
  format ← detect_kernel_format kernel (kernel_format guest);
  rootfs ← resolve_path dir (rootfs_image guest) ROOTFS;
  firmware ← resolve_firmware dir (firmware guest);
  mret {| kernel_image := kernel; kernel_format := format; rootfs_image := rootfs; firmware := firmware;
          guest_agent_path := guest_agent_path guest; guest_vsock_port := guest_vsock_port guest;
          boot_timeout := boot_timeout guest; guest_uid := guest_uid guest; guest_gid := guest_gid guest;
          guest_tmpfs_mib := guest_tmpfs_mib guest |}.
(** ** Properties *)

(** The asset that will be unpacked for a path of the configuration. *)
Definition needed (configured : string) (embedded : option EmbeddedAsset) : option EmbeddedAsset :=
  if decide (configured ≠ "") then None else embedded.

Definition needed_assets (guest : GuestConfig) : list EmbeddedAsset :=
  option_list (needed (kernel_image guest) KERNEL) ++ option_list (needed (rootfs_image guest) ROOTFS)
  ++ option_list (needed (default "" (firmware guest)) FIRMWARE).

(** The asset is unpacked at [p], whole and with its mode. *)
Definition unpacked (w : World) (dir p : string) (asset : EmbeddedAsset) : Prop :=
  p = path_join dir (ea_file_name asset) ∧
  ∃ payload, materialize_asset asset = Ok payload ∧ w_fs w !! at_text p = Some (File (ea_mode asset) (Text payload)).

Lemma extract_ok dir label asset w p w' :
  extract_asset dir label asset w = (Ok p, w') → unpacked w' dir p asset.
Proof.
  unfold extract_asset. intros Hr. ok_inv.
  match goal with H : fs_write _ _ _ = _ |- _ => apply write_ok in H as [m E] end.
  match goal with H : fs_set_mode _ _ _ = _ |- _ => apply set_mode_ok in H; rewrite E, lookup_insert_eq in H;
    destruct H as [(? & ? & _)|(? & ? & [= <- <-] & E')]; [done|] end.
  split; [done|]. eexists. split; [done|]. rewrite E'. apply lookup_insert_eq.
Qed.

(** What unpacking a file may write. *)
Definition writes_of (dir p : string) (q : path) : Prop := q `prefix_of` at_text dir ∨ q = at_text p.

Lemma keeps_extract dir label asset :
  keeps (frame (writes_of dir (path_join dir (ea_file_name asset)))) (extract_asset dir label asset).
Proof.
  unfold extract_asset. keeps_tac; [apply keeps_create_dir_all; by left|apply keeps_write; by right|apply keeps_set_mode; by right].
Qed.

Lemma at_text_push dir n : dir ≠ "" → plain_name n → at_text (path_join dir n) = at_text dir ++ [n].
Proof.
  intros Hd Hn. unfold at_text. rewrite components_push by done. by rewrite locate_snoc.
Qed.

(** A file of the bundle survives the unpacking of another. *)
Lemma unpacked_kept dir p asset label other w r w' :
  dir ≠ "" → plain_name (ea_file_name asset) → plain_name (ea_file_name other) → ea_file_name other ≠ ea_file_name asset →
  unpacked w dir p asset → extract_asset dir label other w = (r, w') → unpacked w' dir p asset.
Proof.
  intros Hd Ha Ho Hne (-> & payload & Hm & Hl) Hr. split; [done|]. exists payload. split; [done|].
  pose proof (keeps_extract dir label other w) as Hf. rewrite Hr in Hf. cbn in Hf. rewrite <-Hl. apply Hf.
  unfold writes_of. rewrite !at_text_push by done. intros [Hp|E].
  - apply prefix_length in Hp. rewrite length_app in Hp. cbn in Hp. lia.
  - apply app_inj_tail in E as [_ E]. by apply Hne.
Qed.
Lemma keeps_detect P p fallback : keeps (frame P) (detect_kernel_format p fallback).
Proof. unfold detect_kernel_format. keeps_tac. Qed.

(** What became of one path of the configuration. *)
Definition resolved (w : World) (dir configured result : string) (embedded : option EmbeddedAsset) : Prop :=
  match needed configured embedded with
  | Some asset => unpacked w dir result asset
  | None => result = configured
  end.

(** Everything below the directory of the bundle, and the directories above it. *)
Definition bundle_path (dir : string) (q : path) : Prop := q `prefix_of` at_text dir ∨ at_text dir `prefix_of` q.

Lemma extract_within dir label asset :
  dir ≠ "" → plain_name (ea_file_name asset) → keeps (frame (bundle_path dir)) (extract_asset dir label asset).
Proof.
  intros Hd Hn. eapply keeps_impl, keeps_extract. intros w w' Hf q Hq. apply Hf. intros [Hp| ->]; apply Hq; [by left|].
  right. rewrite at_text_push by done. by apply prefix_app_r.
Qed.

Lemma resolve_path_ok dir configured embedded w p w' :
  resolve_path dir configured embedded w = (Ok p, w') → resolved w' dir configured p embedded ∧ (configured = "" → is_Some embedded).
Proof.
  unfold resolve_path, resolved, needed. case_decide as Hc; [by intros [= <- <-]|].
  destruct embedded as [asset|]; [|done]. intros Hr%extract_ok. split; [done|eauto].
Qed.

Lemma resolve_optional_ok dir configured embedded w p w' :
  resolve_optional_path dir configured embedded w = (Ok p, w') → resolved w' dir configured p embedded.
Proof.
  unfold resolve_optional_path, resolved, needed. case_decide as Hc; [by intros [= <- <-]|].
  destruct embedded as [asset|]; [by intros Hr%extract_ok|]. intros [= <- <-]. done.
Qed.

(** A path that is resolved stays so while another asset is unpacked. *)
Definition apart_from (configured : string) (embedded : option EmbeddedAsset) (other : EmbeddedAsset) : Prop :=
  ∀ asset, needed configured embedded = Some asset →
    plain_name (ea_file_name asset) ∧ plain_name (ea_file_name other) ∧ ea_file_name other ≠ ea_file_name asset.

Lemma resolved_kept dir configured p embedded label other w r w' :
  dir ≠ "" → apart_from configured embedded other → resolved w dir configured p embedded →
  extract_asset dir label other w = (r, w') → resolved w' dir configured p embedded.
Proof.
  unfold resolved. intros Hd Ha Hw Hr. destruct (needed configured embedded) as [asset|] eqn:E; [|done].
  destruct (Ha asset E) as (H1' & H2' & H3'). by eapply unpacked_kept.
Qed.

Lemma resolved_frame dir configured p embedded w w' :
  frame (λ _, False) w w' → resolved w dir configured p embedded → resolved w' dir configured p embedded.
Proof.
  unfold resolved. intros Hf. destruct (needed configured embedded) as [asset|]; [|done].
  intros (-> & payload & Hm & Hl). split; [done|]. exists payload. split; [done|]. rewrite <-Hl. apply Hf. tauto.
Qed.
Lemma path_join_nonempty p n : n ≠ "" → path_join p n ≠ "".
Proof.
  intros Hn. unfold path_join. destruct (starts_with "/" n); [done|]. case_decide; [done|].
  destruct (ends_with "/" p); intros E; apply (f_equal String.length) in E; rewrite ?string_length_app in E; simpl in E;
    destruct n; simpl in *; (done || lia).
Qed.

Lemma needed_apart guest :
  Forall plain_name (ea_file_name <$> needed_assets guest) → NoDup (ea_file_name <$> needed_assets guest) →
  (∀ other, needed (rootfs_image guest) ROOTFS = Some other → apart_from (kernel_image guest) KERNEL other) ∧
  (∀ other, needed (default "" (firmware guest)) FIRMWARE = Some other →
     apart_from (kernel_image guest) KERNEL other ∧ apart_from (rootfs_image guest) ROOTFS other).
Proof.
  unfold needed_assets, apart_from. rewrite Forall_forall.
  destruct (needed (kernel_image guest) KERNEL) as [k|], (needed (rootfs_image guest) ROOTFS) as [r|],
    (needed (default "" (firmware guest)) FIRMWARE) as [f|]; cbn; rewrite ?NoDup_cons; intros Hp Hn;
    (split; [intros o Ho a Ha; simplify_eq; split_and!; set_solver|]);
    intros o Ho; simplify_eq; split; intros a Ha; simplify_eq; split_and!; set_solver.
Qed.

Lemma needed_plain guest :
  Forall plain_name (ea_file_name <$> needed_assets guest) →
  (∀ asset, needed (kernel_image guest) KERNEL = Some asset → plain_name (ea_file_name asset)) ∧
  (∀ asset, needed (rootfs_image guest) ROOTFS = Some asset → plain_name (ea_file_name asset)) ∧
  (∀ asset, needed (default "" (firmware guest)) FIRMWARE = Some asset → plain_name (ea_file_name asset)).
Proof.
  unfold needed_assets. rewrite Forall_forall. intros Hp.
  split_and!; intros asset E; apply Hp; rewrite E; set_solver.
Qed.

Lemma resolve_within dir configured embedded :
  dir ≠ "" → (∀ asset, needed configured embedded = Some asset → plain_name (ea_file_name asset)) →
  keeps (frame (bundle_path dir)) (resolve_path dir configured embedded) ∧
  keeps (frame (bundle_path dir)) (resolve_optional_path dir configured embedded).
Proof.
  unfold needed, resolve_path, resolve_optional_path. intros Hd Hn. case_decide; [split; keeps_tac|].
  destruct embedded as [asset|]; split; keeps_tac; by apply extract_within, Hn.
Qed.

Lemma resolve_path_keeps dir c e c0 e0 p0 w r w' :
  dir ≠ "" → (∀ other, needed c e = Some other → apart_from c0 e0 other) → resolved w dir c0 p0 e0 →
  resolve_path dir c e w = (r, w') → resolved w' dir c0 p0 e0.
Proof.
  unfold needed, resolve_path. intros Hd Ha Hw. case_decide; [by intros [= <- <-]|].
  destruct e as [asset|]; [|by intros [= <- <-]]. apply resolved_kept; [done|by apply Ha|done].
Qed.

(** The firmware: what it comes to, what it leaves alone, where it writes. *)
Lemma firmware_outcome dir configured w f w' :
  dir ≠ "" → (∀ asset, needed (default "" configured) FIRMWARE = Some asset → plain_name (ea_file_name asset)) →
  resolve_firmware dir configured w = (Ok f, w') →
  resolved w' dir (default "" configured) (default "" f) FIRMWARE ∧ frame (bundle_path dir) w w' ∧
  ∀ c0 e0 p0, (∀ other, needed (default "" configured) FIRMWARE = Some other → apart_from c0 e0 other) →
    resolved w dir c0 p0 e0 → resolved w' dir c0 p0 e0.
Proof.
  unfold resolve_firmware, resolved at 1, needed. intros Hd Hn. case_decide as Hc; [by intros [= <- <-]|].
  destruct FIRMWARE as [asset|]; [|intros [= <- <-]; by split_and!].
  intros (p & Hr & ->)%fmap_ok_inv. cbn. split_and!; [by apply extract_ok in Hr| |].
  - pose proof (extract_within dir "firmware" asset Hd (Hn _ eq_refl) w) as Hf. by rewrite Hr in Hf.
  - intros c0 e0 p0 Ha Hw. eapply resolved_kept; [done|by apply Ha|done|exact Hr].
Qed.

Lemma at_text_name dir n : plain_name n → at_text (path_join dir n) = at_text dir ++ [n].
Proof.
  intros Hn. destruct (decide (dir = "")) as [->|Hd]; [|by apply at_text_push]. unfold at_text, path_join.
  rewrite (plain_name_relative n Hn), decide_True by done. by rewrite (plain_name_components n Hn).
Qed.

(** Whatever becomes of it, unpacking stays in its place. *)
Lemma resolve_guest_within state_dir bundle_id guest :
  plain_name bundle_id → Forall plain_name (ea_file_name <$> needed_assets guest) →
  keeps (frame (bundle_path (bundle_dir state_dir bundle_id))) (resolve_guest_paths state_dir bundle_id guest).
Proof.
  intros Hid Hplain. destruct (needed_plain guest Hplain) as (Hk & Hr & Hf).
  assert (Hd : bundle_dir state_dir bundle_id ≠ "") by (apply path_join_nonempty; apply Hid).
  unfold resolve_guest_paths. keeps_tac.
  - by apply resolve_within.
  - apply keeps_detect.
  - by apply resolve_within.
  - unfold resolve_firmware. unfold needed in Hf. case_decide; [keeps_tac|]. destruct FIRMWARE as [asset|]; keeps_tac.
    apply extract_within; [done|by apply Hf].
Qed.

(** unpacking is a round trip and stays in its place: when [resolve_guest_paths]
    succeeds, a path the configuration gives is kept as it is, and for every
    other one the file the result names holds exactly the embedded asset,
    decompressed, with its mode, whatever was there before; the root file system
    is always there; and nothing was written outside the directory of the bundle.
    The assets have plain file names, different from each other, and the
    identifier of the bundle is a plain name. *)
Theorem bundle_unpacked state_dir bundle_id guest w g w' :
  plain_name bundle_id → Forall plain_name (ea_file_name <$> needed_assets guest) →
  NoDup (ea_file_name <$> needed_assets guest) →
  resolve_guest_paths state_dir bundle_id guest w = (Ok g, w') →
  let dir := bundle_dir state_dir bundle_id in
  resolved w' dir (kernel_image guest) (kernel_image g) KERNEL ∧
  resolved w' dir (rootfs_image guest) (rootfs_image g) ROOTFS ∧
  resolved w' dir (default "" (firmware guest)) (default "" (firmware g)) FIRMWARE ∧
  rootfs_image g ≠ "" ∧
  frame (bundle_path dir) w w'.
Proof.
  intros Hid Hplain Hnd Hr. cbv zeta. assert (Hd : bundle_dir state_dir bundle_id ≠ "") by (apply path_join_nonempty; apply Hid).
  set (dir := bundle_dir state_dir bundle_id) in *. unfold resolve_guest_paths in Hr. fold dir in Hr.
  destruct (needed_apart guest Hplain Hnd) as [Hkr Hf].
  destruct (needed_plain guest Hplain) as (Hk' & Hr' & Hf').
  apply bind_ok_inv in Hr as (kernel & w1 & Ek & Hr). apply bind_ok_inv in Hr as (format & w2 & Ed & Hr).
  apply bind_ok_inv in Hr as (rootfs & w3 & Er & Hr). apply bind_ok_inv in Hr as (fw & w4 & Ef & Hr).
  apply ret_ok_inv in Hr as [<- <-]. cbn.
  pose proof (proj2 (resolve_within dir _ _ Hd Hk') w) as F1. rewrite Ek in F1. cbn in F1.
  pose proof (keeps_detect (λ _, False) kernel (kernel_format guest) w1) as F2. rewrite Ed in F2. cbn in F2.
  pose proof (proj1 (resolve_within dir _ _ Hd Hr') w2) as F3. rewrite Er in F3. cbn in F3.
  apply firmware_outcome in Ef as (Hfw & F4 & Hkeep); [|done..].
  pose proof (resolve_path_ok _ _ _ _ _ _ Er) as [Hroot Hsome].
  assert (Hkern : resolved w3 dir (kernel_image guest) kernel KERNEL).
  { eapply resolve_path_keeps; [done|exact Hkr| |exact Er]. eapply resolved_frame; [exact F2|]. by eapply resolve_optional_ok. }
  split_and!; [apply Hkeep; [apply Hf|done]|apply Hkeep; [apply Hf|done]|done| |].
  - revert Hroot. unfold resolved, needed. case_decide as Hc; [by intros ->|].
    destruct (Hsome Hc) as [asset E]. rewrite E. intros (-> & _). apply path_join_nonempty.
    apply (Hr' asset). unfold needed. by case_decide.
  - etrans; [exact F1|]. etrans; [|by etrans]. intros q Hq. apply F2. tauto.
Qed.
End bundle.
