(* ===== verification/Launcher.v ===== *)
(** * Launcher: [src/sagens/daemon.rs], [daemon/runtime_info.rs] and [recovery.rs]

    Starting, finding and stopping the daemon from the command line, and its log.
    What the launcher asks of the network, of other processes and of the clock are
    acts whose answers depend on all that was asked before; the acts are recorded,
    so that a property can say what was done.  The daemon's own run,
    [run_foreground], is in [Foreground]. *)

From S2P Require Import Prelude RustStd Text Paths FileSystem PrivateFs Auth Config HostConfig GuestFs Transfer.

(** ** What the launcher asks of its surroundings *)

Inductive Errno := EPERM | ESRCH | OtherErrno (text : string).

(** [io::Error::from_raw_os_error]: the kind of [ESRCH] is not [NotFound]. *)
Definition errno_error (e : Errno) : IoError :=
  match e with
  | EPERM => os_error KPermissionDenied "Operation not permitted (os error 1)"
  | ESRCH => os_error KOther "No such process (os error 3)"
  | OtherErrno text => os_error KOther text
  end.

Inductive Binding := Bound | AddrInUse | NotBound (error : IoError).

(** The command [spawn_background_daemon] runs. *)
Record DaemonSpawn := mkSpawn {
  sd_binary : string;
  sd_args : list string;
  sd_env : list (string * string);
  sd_log : path;
  sd_new_session : bool;
}.

Inductive Act : Type → Type :=
  | Connect (config : UserConfig) : Act (Result SandboxError ())        (** [BoxApiClient::connect] *)
  | ListBoxes (config : UserConfig) : Act (Result SandboxError ())      (** on the connection just made *)
  | ShutdownDaemon (config : UserConfig) : Act (Result SandboxError ())
  | Kill (pid signal : Z) : Act (Result Errno ())                       (** [libc::kill] *)
  | CommandOf (pid : Z) : Act (option (list string))                    (** sysinfo *)
  | BindTcp (addr : SocketAddr) : Act Binding                           (** [TcpListener::bind], then dropped *)
  | BindPort (ip : IpAddr) : Act (Result IoError (Result IoError Z))    (** port 0; then [local_addr] *)
  | Now : Act Z                                                         (** milliseconds *)
  | Sleep (ms : Z) : Act ()
  | Spawn (command : DaemonSpawn) : Act (Result IoError ())
  | CheckBinary (binary : string) : Act (Result SandboxError ())        (** [validate_host_process_binary] *)
  | Preflight (binary : string) (config : RuntimeConfig) : Act (Result SandboxError ()).

Inductive Event := Ev (T : Type) (act : Act T) (answer : T).
Arguments Ev {T} act answer.

Class DaemonHost := {
  answer : ∀ {T}, list Event → Act T → T;
  self_pid : Z;                             (** [std::process::id] *)
  utf8_text : bytes → option string;        (** [String::from_utf8] *)
  ip_text : IpAddr → string;                (** [Display for IpAddr] *)
}.

(** The file system, and what was done so far, the latest first. *)
Abbreviation LS := (World * list Event)%type.
Abbreviation LM := (M SandboxError LS).

Definition SIGTERM : Z := 15.
Definition SIGKILL : Z := 9.
Definition DAEMON_WAIT_TIMEOUT : Z := 30000.

(** [u32 as i32] *)
Definition as_i32 (pid : Z) : Z := if (pid <? 2 ^ 31)%Z then pid else pid - 2 ^ 32.

Section launcher.
Context `{!Platform, !Serde UserConfig, !Target, !HostEnv, !DaemonHost} (cwd : path).

Definition ask {T} (a : Act T) : LM T := λ s, let t := answer s.2 a in (Ok t, (s.1, Ev a t :: s.2)).
Definition ask_ok {T E} (to_error : E → SandboxError) (a : Act (Result E T)) : LM T :=
  r ← ask a; match r with Ok t => mret t | Err e => throw (to_error e) end.
Definition on_files {A} (m : M SandboxError World A) : LM A := zoom fst (λ w s, (w, s.2)) m.

Definition file_of (text : string) : path := locate cwd (components text).
Definition pid_file (paths : SagensPaths) : path := file_of (sp_pid_path paths).

(** ** Processes: [recovery.rs] *)

Definition process_exists (pid : Z) : LM bool :=
  status ← ask (Kill (as_i32 pid) 0);
  mret (match status with Ok _ | Err EPERM => true | Err _ => false end).

Definition process_command (pid : Z) : LM string :=
  process ← ask (CommandOf pid);
  mret (match process with Some words => trim (unwords words) | None => "" end).

Definition process_looks_like_sagens (pid : Z) : LM bool :=
  command ← process_command pid; mret (contains "sagens" command).

Definition process_command_matches_binary (pid : Z) (host_binary : string) : LM bool :=
  command ← process_command pid; mret (contains host_binary command).

(** [kill]: only an error of the kind [NotFound] is forgiven. *)
Definition kill (pid signal : Z) : LM () :=
  status ← ask (Kill pid signal);
  match status with
  | Ok _ => mret ()
  | Err e => if decide (io_kind (errno_error e) = KNotFound) then mret () else throw (Io "signaling daemon pid" (errno_error e))
  end.

(** The three loops that wait: probe, and if that gave nothing and the deadline
    has not passed, sleep and probe again.  [late] is what the deadline leads to. *)
Fixpoint poll {A E} (fuel : nat) (probe : LM (Result E A)) (late : E → LM A) (deadline : Z) : LM A :=
  r ← probe;
  match r with
  | Ok a => mret a
  | Err e =>
      now ← ask Now;
      if (deadline <=? now)%Z then late e
      else match fuel with
           | O => throw (Backend "clock stands still")
           | S fuel' => ask (Sleep 100);; poll fuel' probe late deadline
           end
  end.
(** A turn takes 100 ms. *)
Definition poll_until {A E} (timeout : Z) (probe : LM (Result E A)) (late : E → LM A) : LM A :=
  now ← ask Now; poll (Z.to_nat (timeout / 100 + 1)) probe late (now + timeout).

Definition exited (pid : Z) : LM (Result () ()) := alive ← process_exists pid; mret (if alive : bool then Err () else Ok ()).
Definition wait_for_exit (pid timeout : Z) : LM () := poll_until timeout (exited pid) (λ _, mret ()).

Definition terminate_process (pid : Z) : LM () :=
  if decide (pid = self_pid) then mret ()
  else
    kill (as_i32 pid) SIGTERM;;
    wait_for_exit pid 2000;;
    alive ← process_exists pid;
    if alive : bool then kill (as_i32 pid) SIGKILL;; wait_for_exit pid 1000 else mret ().

(** [cleanup_pid_file] of [daemon.rs]. *)
Definition cleanup_pid_file (paths : SagensPaths) : LM () :=
  r ← attempt (zoom fst (λ w s, (w, s.2)) (fs_remove_file (pid_file paths)));
  match r with
  | Ok _ => mret ()
  | Err error => if decide (io_kind error = KNotFound) then mret () else throw (Io "removing daemon pid file" error)
  end.

Definition read_pid_file (paths : SagensPaths) : LM (option Z) :=
  r ← attempt (zoom fst (λ w s, (w, s.2)) (fs_read (pid_file paths)));
  match r with
  | Err error => if decide (io_kind error = KNotFound) then mret None else throw (Io "reading daemon pid file" error)
  | Ok data =>
      match utf8_text data with
      | None => throw (Io "reading daemon pid file" (os_error KOther "stream did not contain valid UTF-8"))
      | Some contents =>
          let trimmed := trim contents in
          if decide (trimmed = "") then mret None
          else match parse_uint u32_max trimmed with
               | Some pid => mret (Some pid)
               | None => throw (InvalidConfig ("invalid daemon pid file: " ^+ uint_error u32_max trimmed))
               end
      end
  end.

Definition terminate_recorded_daemon (paths : SagensPaths) : LM bool :=
  recorded ← read_pid_file paths;
  match recorded with
  | None => cleanup_pid_file paths;; mret false
  | Some pid =>
      exists_ ← process_exists pid;
      ours ← (if exists_ : bool then process_looks_like_sagens pid else mret false);
      (if ours : bool then terminate_process pid else mret ());;
      cleanup_pid_file paths;;
      mret exists_
  end.

Definition recorded_daemon_uses_binary (paths : SagensPaths) (host_binary : string) : LM (option bool) :=
  recorded ← read_pid_file paths;
  match recorded with
  | None => mret None
  | Some pid =>
      exists_ ← process_exists pid;
      ours ← (if exists_ : bool then process_looks_like_sagens pid else mret false);
      if ours : bool then matches ← process_command_matches_binary pid host_binary; mret (Some matches) else mret (Some false)
  end.

(** ** Endpoints: [recovery.rs] *)

Definition endpoint_is_bindable (endpoint : string) : LM bool :=
  addr ← lift (parse_endpoint_addr endpoint);
  b ← ask (BindTcp addr);
  match b with
  | Bound => mret true
  | AddrInUse => mret false
  | NotBound error => throw (Io "probing daemon endpoint" error)
  end.

Definition reserve_local_endpoint (endpoint : string) : LM string :=
  addr ← lift (parse_endpoint_addr endpoint);
  listener ← ask_ok (Io "reserving replacement daemon endpoint") (BindPort (addr_ip addr));
  match listener with
  | Ok port => mret ("ws://" ^+ ip_text (addr_ip addr) ^+ ":" ^+ pretty port)
  | Err error => throw (Io "reading replacement daemon endpoint" error)
  end.

Definition with_endpoint (config : UserConfig) (endpoint : string) : UserConfig :=
  {| uc_version := uc_version config; uc_admin_uuid := uc_admin_uuid config;
     uc_admin_token := uc_admin_token config; uc_endpoint := endpoint |}.

(** The configuration, which the source changes in place, is returned. *)
Definition recover_startup_state (paths : SagensPaths) (config : UserConfig) : LM UserConfig :=
  terminate_recorded_daemon paths;;
  if env_var "SAGENS_ENDPOINT" is Some _ then mret config
  else
    bindable ← endpoint_is_bindable (uc_endpoint config);
    if bindable : bool then mret config
    else
      next_endpoint ← reserve_local_endpoint (uc_endpoint config);
      if decide (next_endpoint = uc_endpoint config) then mret config
      else
        let config' := with_endpoint config next_endpoint in
        on_files (write_user_config (file_of (sp_user_config_path paths)) config');;
        mret config'.

(** ** [daemon.rs] *)

Definition healthy_client (config : UserConfig) : LM () := ask_ok id (Connect config);; ask_ok id (ListBoxes config).

Definition daemon_is_healthy (config : UserConfig) : LM bool := r ← attempt (healthy_client config); mret (is_ok r).

Definition ensure_user_config (paths : SagensPaths) : LM UserConfig :=
  let p := file_of (sp_user_config_path paths) in
  there ← on_files (map_err (Io "checking sagens user config") (fs_try_exists p));
  if there : bool then on_files (read_user_config p)
  else
    config ← on_files (UserConfig_new (sp_endpoint paths));
    on_files (write_user_config p config);;
    mret config.

Definition daemon_command (paths : SagensPaths) (host_binary : string) (config : UserConfig) : DaemonSpawn :=
  mkSpawn host_binary ["daemon"]
    [("SAGENS_STATE_DIR", sp_state_dir paths); ("SAGENS_CONFIG", sp_user_config_path paths);
     ("SAGENS_ENDPOINT", uc_endpoint config); ("SAGENS_BOOTSTRAP_ADMIN_UUID", uuid_to_string (uc_admin_uuid config));
     ("SAGENS_BOOTSTRAP_ADMIN_TOKEN", uc_admin_token config)]
    (file_of (sp_daemon_log_path paths)) true.

(** Duplicating the descriptor of the log is taken to succeed. *)
Definition spawn_background_daemon (paths : SagensPaths) (host_binary : string) (config : UserConfig) : LM () :=
  on_files (open_private_file_truncate (file_of (sp_daemon_log_path paths)) "creating daemon log directory" "opening daemon log file");;
  ask_ok (Io "spawning sagens daemon") (Spawn (daemon_command paths host_binary config)).

Definition wait_for_daemon (config : UserConfig) (log_path : string) : LM () :=
  poll_until DAEMON_WAIT_TIMEOUT (attempt (healthy_client config)) (λ error,
    throw (Timeout ("timed out waiting for daemon at " ^+ uc_endpoint config ^+ ": " ^+ error_to_string error ^+
                    "; inspect " ^+ log_path ^+ " or run `sagens daemon log --tail 200`"))).

(** The probe succeeds when no connection is accepted any more. *)
Definition disconnected (config : UserConfig) : LM (Result () ()) :=
  r ← ask (Connect config); mret (match r with Ok _ => Err () | Err _ => Ok () end).
Definition wait_for_daemon_shutdown (config : UserConfig) : LM () :=
  poll_until DAEMON_WAIT_TIMEOUT (disconnected config) (λ _,
    throw (Timeout ("timed out waiting for daemon to stop at " ^+ uc_endpoint config))).

Definition ensure_started (paths : SagensPaths) (host_binary : string) : LM (UserConfig * bool) :=
  config ← ensure_user_config paths;
  healthy ← daemon_is_healthy config;
  matches ← recorded_daemon_uses_binary paths host_binary;
  if healthy && negb (bool_decide (matches = Some false)) then mret (config, true)
  else
    (if healthy : bool then terminate_recorded_daemon paths;; mret () else mret ());;
    config ← recover_startup_state paths config;
    ask_ok id (CheckBinary host_binary);;
    runtime_config ← lift (build_runtime_config_for_endpoint (sp_state_dir paths) (sp_endpoint paths));
    ask_ok id (Preflight host_binary runtime_config);;
    on_files (ensure_private_dir (file_of (sp_state_dir paths)) "creating daemon state directory");;
    spawn_background_daemon paths host_binary config;;
    wait_for_daemon config (sp_daemon_log_path paths);;
    mret (config, false).

Definition quit (paths : SagensPaths) : LM bool :=
  r ← attempt (on_files (read_user_config (file_of (sp_user_config_path paths))));
  match r with
  | Err (Io context source) =>
      if decide (io_kind source = KNotFound) then cleanup_pid_file paths;; mret false else throw (Io context source)
  | Err error => throw error
  | Ok config =>
      client ← attempt (healthy_client config);
      match client with
      | Err _ => terminate_recorded_daemon paths
      | Ok _ =>
          down ← ask (ShutdownDaemon config);
          match down with
          | Err _ => terminate_recorded_daemon paths
          | Ok _ => wait_for_daemon_shutdown config;; cleanup_pid_file paths;; mret true
          end
      end
  end.

Definition write_pid_file (paths : SagensPaths) : LM () :=
  on_files (write_private_file (pid_file paths) (as_bytes (pretty self_pid ^+ String line_feed "")) "creating daemon pid directory" "writing daemon pid file").

(** *** The log *)

(** The loop of [render_log_bytes] over the lines. *)
Fixpoint keep_tail (lines : Z) (buffer text : list string) : list string :=
  match text with
  | [] => buffer
  | line :: rest =>
      keep_tail lines ((if (Z.of_nat (length buffer) =? lines)%Z then tail buffer else buffer) ++ [line]) rest
  end.

(** [values.join("\n")] *)
Fixpoint join_lines (l : list string) : string :=
  match l with [] => "" | [x] => x | x :: rest => x ^+ String line_feed (join_lines rest) end.

(** A [String] takes 24 bytes; [VecDeque::with_capacity] panics beyond [isize::MAX]. *)
Definition capacity_max : Z := (2 ^ 63 - 1) / 24.

(** [None] is the panic. *)
Definition render_log_bytes (data : bytes) (tail : option Z) : option string :=
  let text := from_utf8_lossy data in
  match tail with
  | None => Some text
  | Some lines =>
      if (capacity_max <? lines)%Z then None
      else let rendered := join_lines (keep_tail lines [] (str_lines text)) in
           Some (if decide (rendered = "") then "" else rendered ^+ String line_feed "")
  end.

(** One turn of the loop that follows a log: the length [metadata] gave, and the
    bytes the file had when it was read, a moment later; [None] is a file that is not there. *)
Definition follow_turn (seen : option (Z * bytes)) (offset : Z) : bool * bytes * Z :=
  match seen with
  | None => (false, [], offset)
  | Some (len, data) =>
      let restarted := (len <? offset)%Z in
      let offset := if restarted then 0%Z else offset in
      if (len =? offset)%Z then (restarted, [], offset)
      else let chunk := drop (Z.to_nat offset) data in (restarted, chunk, (offset + Z.of_nat (length chunk))%Z)
  end.

(** What is printed: after each turn the header of a restarted log, if it was, and a chunk. *)
Fixpoint follow_log (turns : list (option (Z * bytes))) (offset : Z) : list (bool * bytes) :=
  match turns with
  | [] => []
  | seen :: rest => let '(restarted, chunk, offset') := follow_turn seen offset in (restarted, chunk) :: follow_log rest offset'
  end.
End launcher.

(** ** What is recorded *)

(** The acts between two states, each with the property [Q]. *)
Definition did (Q : Event → Prop) (s s' : LS) : Prop := ∃ new, s'.2 = new ++ s.2 ∧ Forall Q new.

#[global] Instance did_preorder Q : PreOrder (did Q).
Proof.
  split; [by exists []|]. intros s1 s2 s3 (n1 & E1 & Q1) (n2 & E2 & Q2). exists (n2 ++ n1).
  rewrite E2, E1, app_assoc. split; [done|by apply Forall_app].
Qed.

Definition signals (e : Event) : Prop := match e with Ev (Kill _ signal) _ => signal ≠ 0%Z | _ => False end.
Definition spawns_daemon (e : Event) : Prop := match e with Ev (Spawn _) _ => True | _ => False end.
Definition harmless (e : Event) : Prop := ¬ signals e ∧ ¬ spawns_daemon e.

Section records.
Context `{!Platform, !Serde UserConfig, !Target, !HostEnv, !DaemonHost} (cwd : path).

Section did.
Context (Q : Event → Prop).

Lemma did_ask {T} (a : Act T) : (∀ t, Q (Ev a t)) → keeps (did Q) (ask a).
Proof. intros Ha s. exists [Ev a (answer s.2 a)]. split; [done|]. by constructor. Qed.
Lemma did_ask_ok {T E} (f : E → SandboxError) (a : Act (Result E T)) : (∀ t, Q (Ev a t)) → keeps (did Q) (ask_ok f a).
Proof. intros Ha. unfold ask_ok. apply keeps_bind; [typeclasses eauto|by apply did_ask|]. intros []; keeps_tac. Qed.
Lemma did_files {A} {E} (m : M E World A) : keeps (did Q) (zoom fst (λ w s, (w, s.2)) m).
Proof. apply (keeps_zoom _ (λ _ _, True)); [|done]. intros [w h] w' _. by exists []. Qed.
Lemma did_on_files {A} (m : M SandboxError World A) : keeps (did Q) (on_files m).
Proof. apply did_files. Qed.

Lemma did_exists pid : (∀ t, Q (Ev (Kill (as_i32 pid) 0) t)) → keeps (did Q) (process_exists pid).
Proof. intros Ha. unfold process_exists. keeps_tac. by apply did_ask. Qed.

Lemma did_poll {A E} fuel (probe : LM (Result E A)) late deadline :
  (∀ t, Q (Ev Now t)) → Q (Ev (Sleep 100) ()) → keeps (did Q) probe → (∀ e, keeps (did Q) (late e)) →
  keeps (did Q) (poll fuel probe late deadline).
Proof.
  intros Hn Hs Hp Hl. induction fuel as [|fuel IH]; cbn [poll].
  - apply keeps_bind; [typeclasses eauto|done|]. intros []; [apply keeps_ret; typeclasses eauto|].
    apply keeps_bind; [typeclasses eauto|by apply did_ask|intros now]. destruct (_ <=? _)%Z; [done|apply keeps_throw; typeclasses eauto].
  - apply keeps_bind; [typeclasses eauto|done|]. intros []; [apply keeps_ret; typeclasses eauto|].
    apply keeps_bind; [typeclasses eauto|by apply did_ask|intros now]. destruct (_ <=? _)%Z; [done|].
    apply keeps_bind; [typeclasses eauto|apply did_ask; by intros []|done].
Qed.

Lemma did_poll_until {A E} timeout (probe : LM (Result E A)) late :
  (∀ t, Q (Ev Now t)) → Q (Ev (Sleep 100) ()) → keeps (did Q) probe → (∀ e, keeps (did Q) (late e)) →
  keeps (did Q) (poll_until timeout probe late).
Proof.
  intros Hn Hs Hp Hl. unfold poll_until. apply keeps_bind; [typeclasses eauto|by apply did_ask|]. intros now. by apply did_poll.
Qed.
End did.

#[local] Hint Resolve did_on_files did_files did_exists did_ask did_ask_ok : keeps.

(** What only looks. *)
Lemma harmless_look {T} (a : Act T) (t : T) :
  match a with Kill _ signal => signal = 0%Z | Spawn _ => False | _ => True end → harmless (Ev a t).
Proof. destruct a; unfold harmless; simpl; tauto. Qed.

Ltac look := intros; apply harmless_look; first [exact I|reflexivity].
Ltac looks := keeps_tac; eauto with keeps; try (apply did_ask; look); try (apply did_ask_ok; look).

Lemma harmless_exists pid : keeps (did harmless) (process_exists pid).
Proof. apply did_exists. look. Qed.
Lemma harmless_read_pid paths : keeps (did harmless) (read_pid_file cwd paths).
Proof. unfold read_pid_file. looks. Qed.
Lemma harmless_cleanup paths : keeps (did harmless) (cleanup_pid_file cwd paths).
Proof. unfold cleanup_pid_file. looks. Qed.
Lemma harmless_command pid : keeps (did harmless) (process_command pid).
Proof. unfold process_command. looks. Qed.
Lemma harmless_looks_like pid : keeps (did harmless) (process_looks_like_sagens pid).
Proof. unfold process_looks_like_sagens. keeps_tac; apply harmless_command. Qed.
Lemma harmless_healthy config : keeps (did harmless) (healthy_client config).
Proof. unfold healthy_client. looks. Qed.
Lemma harmless_uses_binary paths binary : keeps (did harmless) (recorded_daemon_uses_binary cwd paths binary).
Proof.
  unfold recorded_daemon_uses_binary, process_command_matches_binary.
  keeps_tac; eauto using harmless_read_pid, harmless_exists, harmless_looks_like, harmless_command.
Qed.
Lemma harmless_wait config log : keeps (did harmless) (wait_for_daemon config log).
Proof.
  unfold wait_for_daemon. apply did_poll_until; [look|look|apply keeps_attempt, harmless_healthy|]. intros e. keeps_tac.
Qed.
Lemma harmless_wait_shutdown config : keeps (did harmless) (wait_for_daemon_shutdown config).
Proof.
  unfold wait_for_daemon_shutdown. apply did_poll_until; [look|look| |intros e; keeps_tac]. unfold disconnected. looks.
Qed.
Lemma harmless_user_config paths : keeps (did harmless) (ensure_user_config cwd paths).
Proof. unfold ensure_user_config. looks. Qed.

(** ** Signals *)

(** Whoever is signaled was looked up before, and its command line names sagens. *)
Definition lawful (new : list Event) : Prop := ∀ p signal r,
  Ev (Kill p signal) r ∈ new → signal ≠ 0%Z →
  ∃ pid words, p = as_i32 pid ∧ pid ≠ self_pid ∧ Ev (CommandOf pid) (Some words) ∈ new ∧
    contains "sagens" (trim (unwords words)) = true.
Definition lawful_run (s s' : LS) : Prop := ∃ new, s'.2 = new ++ s.2 ∧ lawful new.

#[local] Instance lawful_preorder : PreOrder lawful_run.
Proof.
  split; [exists []; split; [done|by intros ? ? ? ?%elem_of_nil]|].
  intros s1 s2 s3 (n1 & E1 & L1) (n2 & E2 & L2). exists (n2 ++ n1). rewrite E2, E1, app_assoc. split; [done|].
  intros p signal r Hin Hs. assert (Ev (Kill p signal) r ∈ n2 ∨ Ev (Kill p signal) r ∈ n1) as [Hn|Hn] by by apply elem_of_app.
  - destruct (L2 _ _ _ Hn Hs) as (pid & words & ? & ? & ? & ?). exists pid, words. rewrite elem_of_app. auto.
  - destruct (L1 _ _ _ Hn Hs) as (pid & words & ? & ? & ? & ?). exists pid, words. rewrite elem_of_app. auto.
Qed.

Lemma harmless_lawful {A} (m : LM A) : keeps (did harmless) m → keeps lawful_run m.
Proof.
  apply keeps_impl. intros s s' (new & E & Hall). exists new. split; [done|]. intros p signal r Hin Hs.
  eapply Forall_forall in Hall; [|exact Hin]. by destruct Hall as [[] _].
Qed.

(** Signals only to this process. *)
Definition signals_only (p : Z) (e : Event) : Prop := match e with Ev (Kill q signal) _ => signal ≠ 0%Z → q = p | _ => True end.

Lemma terminate_signals pid : keeps (did (signals_only (as_i32 pid))) (terminate_process pid).
Proof.
  unfold terminate_process. case_decide; [apply keeps_ret; typeclasses eauto|].
  assert (Hk : ∀ signal, keeps (did (signals_only (as_i32 pid))) (kill (as_i32 pid) signal)).
  { intros signal. unfold kill. keeps_tac; apply did_ask; done. }
  assert (He : keeps (did (signals_only (as_i32 pid))) (process_exists pid)) by (by apply did_exists).
  assert (Hw : ∀ timeout, keeps (did (signals_only (as_i32 pid))) (wait_for_exit pid timeout)).
  { intros timeout. apply did_poll_until; [done|done| |intros e; apply keeps_ret; typeclasses eauto]. unfold exited. keeps_tac. }
  keeps_tac; auto.
Qed.

Lemma terminate_self_quiet : keeps (did harmless) (terminate_process self_pid).
Proof. unfold terminate_process. rewrite decide_True by done. apply keeps_ret; typeclasses eauto. Qed.

Lemma guarded_terminate pid :
  keeps lawful_run (ours ← process_looks_like_sagens pid; if ours : bool then terminate_process pid else mret ()).
Proof.
  intros s. set (t := answer s.2 (CommandOf pid)).
  assert (process_looks_like_sagens pid s =
    (Ok (contains "sagens" (match t with Some words => trim (unwords words) | None => "" end)), (s.1, Ev (CommandOf pid) t :: s.2)))
    as Hrun by done.
  rewrite (bind_ok _ _ _ _ _ Hrun). clear Hrun. destruct t as [words|]; [|exists [Ev (CommandOf pid) None]; split; [done|]].
  2:{ intros p signal r Hin. by apply list_elem_of_singleton in Hin. }
  destruct (contains "sagens" (trim (unwords words))) eqn:Ec; [|exists [Ev (CommandOf pid) (Some words)]; split; [done|]].
  2:{ intros p signal r Hin. by apply list_elem_of_singleton in Hin. }
  set (s1 := (s.1, Ev (CommandOf pid) (Some words) :: s.2)).
  destruct (decide (pid = self_pid)) as [->|Hself].
  - destruct (harmless_lawful _ terminate_self_quiet s1) as (new & E & HL). exists (new ++ [Ev (CommandOf self_pid) (Some words)]).
    rewrite <-app_assoc. split; [done|]. intros p signal r [Hin|Hin%list_elem_of_singleton]%elem_of_app Hs; [|done].
    destruct (HL _ _ _ Hin Hs) as (pid & words' & ? & ? & ? & ?). exists pid, words'. rewrite elem_of_app. auto.
  - destruct (terminate_signals pid s1) as (new & E & HL). exists (new ++ [Ev (CommandOf pid) (Some words)]).
    rewrite <-app_assoc. split; [done|]. intros p signal r [Hin|Hin%list_elem_of_singleton]%elem_of_app Hs; [|done].
    eapply Forall_forall in HL; [|exact Hin]. specialize (HL Hs). exists pid, words. rewrite elem_of_app, list_elem_of_singleton. auto.
Qed.

Lemma keeps_assoc {A B C} (Rel : relation LS) (m : LM A) (f : A → LM B) (g : B → LM C) :
  keeps Rel ((m ≫= f) ≫= g) → keeps Rel (m ≫= λ a, f a ≫= g).
Proof. intros Hk s. specialize (Hk s). unfold mbind, M_bind in *. by destruct (m s) as [[]]. Qed.

Lemma keeps_ret_bind {A B} (Rel : relation LS) (a : A) (f : A → LM B) : keeps Rel (f a) → keeps Rel (mret a ≫= f).
Proof. done. Qed.

Lemma lawful_terminate paths : keeps lawful_run (terminate_recorded_daemon cwd paths).
Proof.
  unfold terminate_recorded_daemon. apply keeps_bind; [typeclasses eauto|apply harmless_lawful, harmless_read_pid|].
  intros [pid|]; [|apply harmless_lawful; keeps_tac; apply harmless_cleanup].
  apply keeps_bind; [typeclasses eauto|apply harmless_lawful, harmless_exists|]. intros [].
  - apply keeps_assoc, keeps_bind; [typeclasses eauto|apply guarded_terminate|intros _].
    apply harmless_lawful. keeps_tac; apply harmless_cleanup.
  - apply harmless_lawful, (keeps_ret_bind _ false). keeps_tac; apply harmless_cleanup.
Qed.

Lemma lawful_recover paths config : keeps lawful_run (recover_startup_state cwd paths config).
Proof.
  unfold recover_startup_state. apply keeps_bind; [typeclasses eauto|apply lawful_terminate|intros _].
  apply harmless_lawful. unfold endpoint_is_bindable, reserve_local_endpoint. looks.
Qed.

Definition harms_nobody (e : Event) : Prop := ¬ signals e.
Lemma nobody_lawful {A} (m : LM A) : keeps (did harms_nobody) m → keeps lawful_run m.
Proof.
  apply keeps_impl. intros s s' (new & E & Hall). exists new. split; [done|]. intros p signal r Hin Hs.
  eapply Forall_forall in Hall; [|exact Hin]. by destruct Hall.
Qed.

(** C33: only a sagens is ever stopped: whatever [quit] and the start of a daemon find in the pid file, and however processes come and go,
    a process gets a signal only after its command line was read and names sagens, and never the
    caller itself. *)
Theorem only_sagens_is_signaled paths binary :
  keeps lawful_run (quit cwd paths) ∧ keeps lawful_run (ensure_started cwd paths binary).
Proof.
  split.
  - unfold quit. apply keeps_bind; [typeclasses eauto|apply keeps_attempt, harmless_lawful; apply did_on_files|intros r].
    destruct r as [config|e]; [|apply harmless_lawful; destruct e; keeps_tac; apply harmless_cleanup].
    apply keeps_bind; [typeclasses eauto|apply keeps_attempt, harmless_lawful, harmless_healthy|intros [|]; [|apply lawful_terminate]].
    apply keeps_bind; [typeclasses eauto|apply harmless_lawful, did_ask; look|intros [|]; [|apply lawful_terminate]].
    apply harmless_lawful. keeps_tac; [apply harmless_wait_shutdown|apply harmless_cleanup].
  - unfold ensure_started. apply keeps_bind; [typeclasses eauto|apply harmless_lawful, harmless_user_config|intros config].
    apply keeps_bind; [typeclasses eauto| |intros healthy].
    { apply harmless_lawful. unfold daemon_is_healthy. keeps_tac; apply harmless_healthy. }
    apply keeps_bind; [typeclasses eauto|apply harmless_lawful, harmless_uses_binary|intros matches].
    destruct (_ && _); [apply keeps_ret; typeclasses eauto|].
    apply keeps_bind; [typeclasses eauto| |intros _].
    { destruct healthy; [|apply keeps_ret; typeclasses eauto]. keeps_tac; apply lawful_terminate. }
    apply keeps_bind; [typeclasses eauto|apply lawful_recover|intros config'].
    apply nobody_lawful. unfold spawn_background_daemon. keeps_tac; try (apply did_on_files); try (apply did_ask_ok; by intros ? []).
    eapply keeps_impl, harmless_wait. intros s s' (new & E & Hall). exists new. split; [done|].
    eapply Forall_impl; [exact Hall|]. by intros e [].
Qed.

(** ** Starting *)

Definition spawnless (e : Event) : Prop := ¬ spawns_daemon e.

Lemma spawnless_harmless {A} (m : LM A) : keeps (did harmless) m → keeps (did spawnless) m.
Proof.
  apply keeps_impl. intros s s' (new & E & Hall). exists new. split; [done|]. eapply Forall_impl; [exact Hall|]. by intros e [].
Qed.

Lemma spawnless_terminate paths : keeps (did spawnless) (terminate_recorded_daemon cwd paths).
Proof.
  unfold terminate_recorded_daemon. apply keeps_bind; [typeclasses eauto|apply spawnless_harmless, harmless_read_pid|].
  assert (Hc : keeps (did spawnless) (cleanup_pid_file cwd paths)) by apply spawnless_harmless, harmless_cleanup.
  assert (He : ∀ pid, keeps (did spawnless) (process_exists pid)) by (intros; apply spawnless_harmless, harmless_exists).
  assert (Hl : ∀ pid, keeps (did spawnless) (process_looks_like_sagens pid)) by (intros; apply spawnless_harmless, harmless_looks_like).
  assert (Ht : ∀ pid, keeps (did spawnless) (terminate_process pid)).
  { intros pid. assert (Hk : ∀ p signal, keeps (did spawnless) (kill p signal)).
    { intros p signal. unfold kill. keeps_tac; apply did_ask; by intros ? []. }
    assert (Hw : ∀ timeout, keeps (did spawnless) (wait_for_exit pid timeout)).
    { intros timeout. apply did_poll_until; [by intros ? []|by intros []| |intros e; apply keeps_ret; typeclasses eauto].
      unfold exited. keeps_tac. }
    unfold terminate_process. case_decide; keeps_tac; auto. }
  keeps_tac; auto.
Qed.

Lemma spawnless_recover paths config : keeps (did spawnless) (recover_startup_state cwd paths config).
Proof.
  unfold recover_startup_state. apply keeps_bind; [typeclasses eauto|apply spawnless_terminate|intros _].
  apply spawnless_harmless. unfold endpoint_is_bindable, reserve_local_endpoint. looks.
Qed.

(** A daemon is spawned only after the checks. *)
Definition gated (paths : SagensPaths) (binary : string) (s s' : LS) : Prop :=
  ∃ later earlier, s'.2 = later ++ earlier ++ s.2 ∧ Forall spawnless earlier ∧
    (Exists spawns_daemon later → ∃ config rc,
       build_runtime_config_for_endpoint (sp_state_dir paths) (sp_endpoint paths) = Ok rc ∧
       Ev (CheckBinary binary) (Ok ()) ∈ earlier ∧ Ev (Preflight binary rc) (Ok ()) ∈ earlier ∧
       Forall (λ e, match e with Ev (Spawn command) _ => command = daemon_command cwd paths binary config | _ => True end) later).

Lemma gated_quiet paths binary s s' : did spawnless s s' → gated paths binary s s'.
Proof. intros (new & E & Hall). exists [], new. split_and!; [done|done|by inversion 1]. Qed.

Lemma gated_bind {A B} paths binary (m : LM A) (f : A → LM B) :
  keeps (did spawnless) m → (∀ a, keeps (gated paths binary) (f a)) → keeps (gated paths binary) (m ≫= f).
Proof.
  intros Hm Hf s. specialize (Hm s). unfold mbind, M_bind. destruct (m s) as [[a|e] s1]; simpl in *; [|by apply gated_quiet].
  destruct Hm as (new & E & Hall). destruct (Hf a s1) as (later & earlier & E' & He & Hx).
  exists later, (earlier ++ new). rewrite E', E, <-!app_assoc. split_and!; [done|by apply Forall_app|]. intros H'.
  destruct (Hx H') as (config & rc & ? & ? & ? & ?). exists config, rc. rewrite !elem_of_app. auto 10.
Qed.

(** The last part of [ensure_started]. *)
Lemma gated_launch {A} paths binary config (a : A) :
  keeps (gated paths binary)
    (ask_ok id (CheckBinary binary);;
     rc ← lift (build_runtime_config_for_endpoint (sp_state_dir paths) (sp_endpoint paths));
     ask_ok id (Preflight binary rc);;
     on_files (ensure_private_dir (file_of cwd (sp_state_dir paths)) "creating daemon state directory");;
     spawn_background_daemon cwd paths binary config;;
     wait_for_daemon config (sp_daemon_log_path paths);;
     mret a).
Proof.
  intros s. set (c1 := answer s.2 (CheckBinary binary)).
  assert (Hc1 : ask_ok id (CheckBinary binary) s = (c1, (s.1, Ev (CheckBinary binary) c1 :: s.2))).
  { unfold ask_ok, ask, mbind, M_bind. fold c1. by destruct c1 as [[]|]. }
  destruct c1 as [[]|e1]; [|rewrite (bind_err _ _ _ _ _ Hc1); by apply gated_quiet; exists [Ev (CheckBinary binary) (Err e1)]; split; [|repeat constructor; intros []]].
  rewrite (bind_ok _ _ _ _ _ Hc1). set (s1 := (s.1, Ev (CheckBinary binary) (Ok ()) :: s.2)).
  destruct (build_runtime_config_for_endpoint (sp_state_dir paths) (sp_endpoint paths)) as [rc|e] eqn:Erc.
  2:{ apply gated_quiet. exists [Ev (CheckBinary binary) (Ok ())]. split; [done|]. repeat constructor. by intros []. }
  rewrite (bind_ok _ _ _ rc s1) by done. set (c2 := answer s1.2 (Preflight binary rc)).
  assert (Hc2 : ask_ok id (Preflight binary rc) s1 = (c2, (s1.1, Ev (Preflight binary rc) c2 :: s1.2))).
  { unfold ask_ok, ask, mbind, M_bind. fold c2. by destruct c2 as [[]|]. }
  destruct c2 as [[]|e2].
  2:{ rewrite (bind_err _ _ _ _ _ Hc2). apply gated_quiet. exists [Ev (Preflight binary rc) (Err e2); Ev (CheckBinary binary) (Ok ())].
      split; [done|]. repeat constructor; by intros []. }
  rewrite (bind_ok _ _ _ _ _ Hc2). set (s2 := (s1.1, Ev (Preflight binary rc) (Ok ()) :: s1.2)).
  set (Q := λ e : Event, match e with Ev (Spawn command) _ => command = daemon_command cwd paths binary config | _ => True end).
  match goal with |- gated _ _ _ (?c s2).2 => assert (keeps (did Q) c) as Hk end.
  { unfold spawn_background_daemon. keeps_tac; try (apply did_on_files); try (by apply did_ask_ok).
    eapply keeps_impl, harmless_wait. intros t t' (new & E & Hall). exists new. split; [done|].
    eapply Forall_impl; [exact Hall|]. intros [T [] r] [_ Hs]; try done. }
  destruct (Hk s2) as (later & E & HQ). exists later, [Ev (Preflight binary rc) (Ok ()); Ev (CheckBinary binary) (Ok ())].
  split_and!; [done|repeat constructor; by intros []|]. intros _. exists config, rc.
  split_and!; [done|right; left|left|done].
Qed.

(** C32: a daemon is started only when it may run: the launcher spawns nothing unless the environment gives a valid configuration, the binary
    was accepted and the preflight of its isolation succeeded, all before; and what it spawns is this binary, with the state
    directory, the endpoint and the credential of the user's configuration.  When it reports a start, such a process was spawned. *)
Theorem start_is_gated paths binary s r s' :
  ensure_started cwd paths binary s = (r, s') →
  gated paths binary s s' ∧
  ∀ config, r = Ok (config, false) → Ev (Spawn (daemon_command cwd paths binary config)) (Ok ()) ∈ s'.2.
Proof.
  intros Hrun. split.
  - enough (keeps (gated paths binary) (ensure_started cwd paths binary)) as Hk by (specialize (Hk s); by rewrite Hrun in Hk).
    clear s r s' Hrun. unfold ensure_started.
    apply gated_bind; [apply spawnless_harmless, harmless_user_config|intros config].
    apply gated_bind; [|intros healthy].
    { apply spawnless_harmless. unfold daemon_is_healthy. keeps_tac; apply harmless_healthy. }
    apply gated_bind; [apply spawnless_harmless, harmless_uses_binary|intros matches].
    destruct (_ && _); [intros s; by apply gated_quiet|].
    apply gated_bind; [destruct healthy; keeps_tac; apply spawnless_terminate|intros _].
    apply gated_bind; [apply spawnless_recover|intros config']. apply gated_launch.
  - intros config ->. unfold ensure_started in Hrun.
    apply bind_ok_inv in Hrun as (c0 & s0 & _ & Hrun). apply bind_ok_inv in Hrun as (healthy & s1 & _ & Hrun).
    apply bind_ok_inv in Hrun as (matches & s2 & _ & Hrun). destruct (_ && _); [done|].
    apply bind_ok_inv in Hrun as ([] & s3 & _ & Hrun). apply bind_ok_inv in Hrun as (c1 & s4 & _ & Hrun).
    do 4 apply bind_ok_inv in Hrun as (? & ? & _ & Hrun).
    apply bind_ok_inv in Hrun as ([] & s5 & Hspawn & Hrun). apply bind_ok_inv in Hrun as ([] & s6 & Hwait & Hrun).
    apply ret_ok_inv in Hrun as [[= <-] <-].
    unfold spawn_background_daemon, ask_ok, ask in Hspawn. apply bind_ok_inv in Hspawn as ([] & s7 & _ & Hspawn).
    apply bind_ok_inv in Hspawn as (res & s8 & [= Hres <-] & Hspawn). destruct res as [[]|]; [|done]. apply ret_ok_inv in Hspawn as [_ <-].
    destruct (harmless_wait c1 (sp_daemon_log_path paths) (s7.1, Ev (Spawn (daemon_command cwd paths binary c1)) (answer s7.2 (Spawn (daemon_command cwd paths binary c1))) :: s7.2)) as (new & E & _).
    rewrite Hwait in E. simpl in E. rewrite E, Hres. apply elem_of_app. right. by left.
Qed.
End records.

(** ** Waiting ends *)

(** The clock: what is read after a reading and a sleep is later by the sleep. *)
Class ClockLaws `{DaemonHost} : Prop := {
  clock_monotone h ext t : t = answer h Now → (t ≤ answer (ext ++ Ev Now t :: h) Now)%Z;
  clock_sleeps h ext mid t ms :
    t = answer h Now → (t + ms ≤ answer (ext ++ Ev (Sleep ms) () :: mid ++ Ev Now t :: h) Now)%Z;
}.

Section waiting.
Context `{!Platform, !Serde UserConfig, !Target, !HostEnv, !DaemonHost, !ClockLaws} (cwd : path).

Definition later_than (bound : Z) (h : list Event) : Prop := ∀ ext, (bound ≤ answer (ext ++ h) Now)%Z.

Section poll.
Context {A E : Type} (probe : LM (Result E A)) (late : E → LM A) (Hprobe : keeps (did (λ _, True)) probe).

(** How a wait ended: by what a probe gave, or by the deadline. *)
Definition polled (deadline : Z) (r : Result SandboxError A) (s' : LS) : Prop :=
  (∃ s1 a, probe s1 = (Ok (Ok a), s') ∧ r = Ok a) ∨
  (∃ s1 s2 e, probe s1 = (Ok (Err e), s2) ∧ (deadline ≤ answer s2.2 Now)%Z ∧
     late e (s2.1, Ev Now (answer s2.2 Now) :: s2.2) = (r, s')) ∨
  (∃ s1 er, probe s1 = (Err er, s') ∧ r = Err er).

Lemma poll_ends fuel deadline bound s r s' :
  later_than bound s.2 → (deadline ≤ bound + 100 * Z.of_nat fuel)%Z →
  poll fuel probe late deadline s = (r, s') → polled deadline r s'.
Proof.
  revert bound s. induction fuel as [|fuel IH]; intros bound s Hb Hd; cbn [poll]; unfold mbind, M_bind;
    pose proof (Hprobe s) as Hp; destruct (probe s) as [[[a|e]|er] s1] eqn:Ep; simpl in Hp.
  1,4: (intros [= <- <-]; left; eauto). 2,4: (intros [= <- <-]; right; right; eauto).
  - destruct Hp as (new & Hnew & _). unfold ask at 1. destruct (Z.leb_spec deadline (answer s1.2 Now)); [intros Hr; right; left; eauto 10|].
    specialize (Hb new). rewrite <-Hnew in Hb. lia.
  - destruct Hp as (new & Hnew & _). specialize (Hb new). rewrite <-Hnew in Hb.
    unfold ask at 1. destruct (Z.leb_spec deadline (answer s1.2 Now)); [intros Hr; right; left; eauto 10|].
    unfold ask at 1. apply (IH (answer s1.2 Now + 100)%Z); [|lia]. intros ext. simpl.
    destruct (answer _ (Sleep 100)). by apply (clock_sleeps _ ext []).
Qed.

Lemma poll_until_ends timeout s r s' :
  (0 ≤ timeout)%Z → poll_until timeout probe late s = (r, s') → polled (answer s.2 Now + timeout) r s'.
Proof.
  intros Ht. unfold poll_until, mbind, M_bind, ask at 1. apply (poll_ends _ _ (answer s.2 Now)).
  - intros ext. simpl. by apply clock_monotone.
  - rewrite Z2Nat.id; [|pose proof (Z.div_pos timeout 100); lia].
    pose proof (Z.div_mod timeout 100). pose proof (Z.mod_pos_bound timeout 100). lia.
Qed.
End poll.

Lemma probes_healthy config : keeps (did (λ _, True)) (attempt (F := SandboxError) (healthy_client config)).
Proof. unfold healthy_client. apply keeps_attempt. keeps_tac; by apply did_ask_ok. Qed.

End waiting.

(** ** A new endpoint *)

(** [SocketAddr::from_str]: the address before the colon and the port; an IPv6 address
    has to be in brackets, which [Display for IpAddr] does not print. *)
Class AddrLaws `{HostEnv, DaemonHost} : Prop := {
  reads_v4 text addr a b c d port :
    parse_socket_addr text = Ok addr → addr_ip addr = V4 a b c d → (0 ≤ port ≤ 65535)%Z →
    parse_socket_addr (ip_text (addr_ip addr) ^+ ":" ^+ pretty port) = Ok {| addr_ip := addr_ip addr; addr_port := port |};
  refuses_bare_v6 segments (port : Z) : is_ok (parse_socket_addr (ip_text (V6 segments) ^+ ":" ^+ pretty port)) = false;
  bound_port h ip (port : Z) : answer h (BindPort ip) = Ok (Ok port) → (0 ≤ port ≤ 65535)%Z;
}.

Section endpoint.
Context `{!Platform, !Serde UserConfig, !Target, !HostEnv, !DaemonHost, !AddrLaws} (cwd : path).

Lemma parse_endpoint_ws text : parse_endpoint_addr ("ws://" ^+ text) =
  match parse_socket_addr text with
  | Ok addr => Ok addr
  | Err error => Err (InvalidConfig ("invalid websocket endpoint " ^+ ("ws://" ^+ text) ^+ ": " ^+ error))
  end.
Proof. unfold parse_endpoint_addr. by rewrite strip_prefix_app. Qed.

Lemma parse_endpoint_ok endpoint addr : parse_endpoint_addr endpoint = Ok addr → ∃ text, parse_socket_addr text = Ok addr.
Proof.
  unfold parse_endpoint_addr. destruct (strip_prefix "ws://" endpoint) as [text|]; [|done]. simpl.
  destruct (parse_socket_addr text) eqn:E; [|done]. intros [= ->]. eauto.
Qed.

Lemma bindable_ok endpoint s b s' :
  endpoint_is_bindable endpoint s = (Ok b, s') →
  ∃ addr, parse_endpoint_addr endpoint = Ok addr ∧ s' = (s.1, Ev (BindTcp addr) (if b then Bound else AddrInUse) :: s.2).
Proof.
  unfold endpoint_is_bindable. intros (addr & s1 & [Ha <-]%lift_ok_inv & Hrun)%bind_ok_inv.
  apply bind_ok_inv in Hrun as (res & s2 & [= Hres <-] & Hrun). exists addr. split; [done|].
  destruct res; try done; apply ret_ok_inv in Hrun as [<- <-]; by rewrite Hres.
Qed.

Lemma reserve_ok endpoint s next s' :
  reserve_local_endpoint endpoint s = (Ok next, s') →
  ∃ addr port, parse_endpoint_addr endpoint = Ok addr ∧ next = "ws://" ^+ ip_text (addr_ip addr) ^+ ":" ^+ pretty port ∧
    (0 ≤ port ≤ 65535)%Z ∧ s' = (s.1, Ev (BindPort (addr_ip addr)) (Ok (Ok port)) :: s.2).
Proof.
  unfold reserve_local_endpoint. intros (addr & s1 & [Ha <-]%lift_ok_inv & Hrun)%bind_ok_inv.
  apply bind_ok_inv in Hrun as (res & s2 & Hask & Hrun). unfold ask_ok in Hask.
  apply bind_ok_inv in Hask as (res' & s3 & [= Hres <-] & Hask). destruct res' as [res'|]; [|done]. apply ret_ok_inv in Hask as [-> <-].
  destruct res as [port|]; [|done]. apply ret_ok_inv in Hrun as [<- <-]. exists addr, port.
  pose proof (bound_port _ _ _ Hres) as Hport. split; [done|]. split; [done|]. split; [done|]. by rewrite Hres.
Qed.

(** the daemon moves only as far as it has to: a start changes the endpoint of the user's configuration only when no endpoint is prescribed
    and the old one is taken, and only to another port of the same address, which is what the file then holds.  The new endpoint
    can be read back when the address is IPv4; of an IPv6 address it cannot, and no later start can use it. *)
Theorem endpoint_recovery paths config s config' s' :
  file_of cwd (sp_user_config_path paths) ≠ [] →
  recover_startup_state cwd paths config s = (Ok config', s') →
  config' = config ∨
  env_var "SAGENS_ENDPOINT" = None ∧ ∃ addr port, parse_endpoint_addr (uc_endpoint config) = Ok addr ∧
    Ev (BindTcp addr) AddrInUse ∈ s'.2 ∧
    config' = with_endpoint config ("ws://" ^+ ip_text (addr_ip addr) ^+ ":" ^+ pretty port) ∧
    (∃ mode data, w_fs s'.1 !! file_of cwd (sp_user_config_path paths) = Some (File mode (Text data)) ∧ to_vec config' = Ok data) ∧
    match addr_ip addr with
    | V4 _ _ _ _ => parse_endpoint_addr (uc_endpoint config') = Ok {| addr_ip := addr_ip addr; addr_port := port |}
    | V6 _ => is_ok (parse_endpoint_addr (uc_endpoint config')) = false
    end.
Proof.
  intros Hp. unfold recover_startup_state. intros (b0 & s0 & _ & Hrun)%bind_ok_inv.
  destruct (env_var "SAGENS_ENDPOINT"); [left; by apply ret_ok_inv in Hrun as [<- _]|].
  apply bind_ok_inv in Hrun as (bindable & s1 & (addr & Ha & ->)%bindable_ok & Hrun).
  destruct bindable; [left; by apply ret_ok_inv in Hrun as [<- _]|].
  apply bind_ok_inv in Hrun as (next & s2 & (addr' & port & Ha' & -> & Hport & ->)%reserve_ok & Hrun).
  rewrite Ha in Ha'. injection Ha' as <-. case_decide; [left; by apply ret_ok_inv in Hrun as [<- _]|]. right. split; [done|].
  apply bind_ok_inv in Hrun as ([] & s3 & Hwrite & [<- <-]%ret_ok_inv).
  exists addr, port. split_and!; [done| |done| |].
  - unfold on_files, zoom in Hwrite. simpl in Hwrite. destruct (write_user_config _ _ s0.1) as [res w]. injection Hwrite as _ <-.
    simpl. right. by left.
  - unfold on_files, zoom in Hwrite. simpl in Hwrite. destruct (write_user_config _ _ s0.1) as [res w] eqn:Ew.
    injection Hwrite as -> <-. simpl. unfold write_user_config in Ew. apply bind_ok_inv in Ew as (? & w1 & _ & Ew).
    apply bind_ok_inv in Ew as (data & w2 & Hdata%map_err_ok_inv & Ew). apply lift_ok_inv in Hdata as [Hdata <-].
    apply write_private_file_ok in Ew as Hf; [|done].
    exists 384%Z, data. by rewrite Hf, lookup_insert_eq.
  - cbn [with_endpoint uc_endpoint]. rewrite parse_endpoint_ws. destruct (parse_endpoint_ok _ _ Ha) as [text Htext].
    destruct (addr_ip addr) as [a b c d|segments] eqn:Eip.
    + rewrite <-Eip. by rewrite (reads_v4 text addr a b c d port Htext Eip Hport).
    + pose proof (refuses_bare_v6 segments port) as Hr. by destruct (parse_socket_addr (ip_text (V6 segments) ^+ ":" ^+ pretty port)).
Qed.
End endpoint.

(** ** The log *)

Lemma keep_tail_spec lines buffer text :
  (1 ≤ lines)%Z → (Z.of_nat (length buffer) ≤ lines)%Z →
  keep_tail lines buffer text = drop (length buffer + length text - Z.to_nat lines) (buffer ++ text).
Proof.
  intros Hl. revert buffer. induction text as [|line text IH]; intros buffer Hb; cbn [keep_tail length].
  - rewrite app_nil_r. replace (length buffer + 0 - Z.to_nat lines) with 0 by lia. done.
  - destruct (Z.eqb_spec (Z.of_nat (length buffer)) lines) as [E|E].
    + destruct buffer as [|b buffer]; [simpl in E; lia|]. cbn [tail length] in *.
      rewrite IH by (rewrite length_app; simpl; lia). rewrite length_app, <-app_assoc. cbn [length app].
      replace (S (length buffer) + S (length text) - Z.to_nat lines) with (S (length text)) by lia.
      cbn [drop]. f_equal. lia.
    + rewrite IH by (rewrite length_app; simpl; lia). rewrite length_app, <-app_assoc. cbn [length app]. f_equal. lia.
Qed.

(** a tail is the end of the log: for every number of lines the command line accepts and a buffer can hold, the text shown is made of the last lines of the
    log, that many or all there are, each ended by a line feed; without a number it is the log. *)
Theorem tail_is_last_lines `{!Platform} data lines :
  (1 ≤ lines ≤ capacity_max)%Z →
  let text := str_lines (from_utf8_lossy data) in
  let shown := drop (length text - Z.to_nat lines) text in
  render_log_bytes data (Some lines) = Some (if decide (join_lines shown = "") then "" else join_lines shown ^+ String line_feed "") ∧
  length shown = Z.to_nat lines `min` length text ∧
  render_log_bytes data None = Some (from_utf8_lossy data).
Proof.
  intros Hl text shown. split_and!; [|unfold shown; rewrite length_drop; lia|done].
  unfold render_log_bytes. destruct (Z.ltb_spec capacity_max lines); [lia|]. fold text. by rewrite keep_tail_spec by (simpl; lia).
Qed.

(** What one saw of a growing file: the length [metadata] gave is of a part of
    what was read then, and both are parts of [whole]. *)
Definition grows_to (whole : bytes) (seen : option (Z * bytes)) (shown : bytes) : Prop :=
  match seen with
  | None => True
  | Some (len, data) => (∃ rest, whole = data ++ rest) ∧ (Z.of_nat (length shown) ≤ len ≤ Z.of_nat (length data))%Z
  end.

(** The observations of a log that is appended to: each sees at least what was shown before. *)
Fixpoint growing (whole shown : bytes) (turns : list (option (Z * bytes))) : Prop :=
  match turns with
  | [] => True
  | seen :: rest =>
      grows_to whole seen shown ∧
      growing whole (match seen with
                     | Some (len, data) => if (len =? Z.of_nat (length shown))%Z then shown else data
                     | None => shown
                     end) rest
  end.

(** following a log shows every byte once: while the file is only appended to, the pieces printed after the initial text continue it without a gap and
    without a repetition, no restart is reported, and after a turn that sees the whole file all of it was shown. *)
Theorem follow_shows_all whole shown turns :
  (∃ rest, whole = shown ++ rest) → growing whole shown turns →
  let out := follow_log turns (Z.of_nat (length shown)) in
  Forall (λ o, o.1 = false) out ∧ (∃ rest, whole = shown ++ concat (map snd out) ++ rest) ∧
  (last turns = Some (Some (Z.of_nat (length whole), whole)) → whole = shown ++ concat (map snd out)).
Proof.
  revert shown. induction turns as [|seen turns IH]; intros shown [rest ->] Hg; cbn [follow_log].
  { split_and!; [constructor|by exists rest|done]. }
  destruct Hg as [Hseen Hg]. destruct seen as [[len data]|].
  - destruct Hseen as ((rest' & Hw) & Hlen). unfold follow_turn.
    destruct (Z.ltb_spec len (Z.of_nat (length shown))) as [|_]; [lia|].
    destruct (Z.eqb_spec len (Z.of_nat (length shown))) as [->|Hne].
    + destruct (IH shown) as (H1 & H2 & H3); [eauto|done|]. cbn [fst snd map concat app]. split_and!; [by constructor|done|].
      intros Hlast. destruct turns as [|t ts]; [|by apply H3].
      injection Hlast as Hl _. rewrite length_app in Hl. destruct rest; [done|simpl in Hl; lia].
    + assert (data = shown ++ drop (length shown) data) as Hd.
      { assert (shown `prefix_of` data) as [k ->]; [|by rewrite drop_app_length].
        destruct (prefix_weak_total shown data (shown ++ rest)) as [|Hp]; [by apply prefix_app_r|rewrite Hw; by apply prefix_app_r|done|].
        apply prefix_length_eq in Hp as ->; [done|lia]. }
      rewrite Nat2Z.id. replace (Z.of_nat (length shown) + Z.of_nat (length (drop (length shown) data)))%Z with (Z.of_nat (length data)).
      2:{ rewrite Hd at 1. rewrite length_app. lia. }
      destruct (IH data) as (H1 & (r2 & H2) & H3); [eauto|done|]. cbn [fst snd map concat].
      split_and!; [by constructor|exists r2; by rewrite app_assoc, app_assoc, <-Hd, <-app_assoc|].
      intros Hlast. rewrite app_assoc, <-Hd. destruct turns as [|t ts]; [|by apply H3].
      injection Hlast as _ ->. by rewrite app_nil_r.
  - unfold follow_turn. destruct (IH shown) as (H1 & H2 & H3); [eauto|done|]. cbn [fst snd map concat app].
    split_and!; [by constructor|done|]. destruct turns; [done|]. done.
Qed.
