(* ===== verification/App.v ===== *)
(** * App: [src/sagens/app.rs], what a command line does

    A parsed command is carried out by the launcher, by the self-update, by the image store
    or through the API of the daemon; its result is printed.  The calls of the API
    are an interface, as in [Transfer]; a printed text is the call that prints it with its arguments,
    [Terminal.v] has the text. *)

From S2P Require Import Prelude RustStd Text Paths FileSystem PrivateFs Auth Manifest Config Lineage Workspace Images BoxStore BoxApi HostConfig Cli Update Transfer Launcher.

(** The calls of [BoxApiClient] the commands make. *)
Class RemoteApi (R : Type) := {
  api_files :: RemoteFiles R;
  api_connect : UserConfig → M SandboxError R ();
  api_list_boxes : M SandboxError R (list BoxRecord);
  api_create_box_from_image : option string → M SandboxError R BoxRecord;
  api_start_box : Uuid → M SandboxError R BoxRecord;
  api_stop_box : Uuid → M SandboxError R BoxRecord;
  api_remove_box : Uuid → M SandboxError R ();
  api_set_box_setting : Uuid → BoxSettingValue → M SandboxError R BoxRecord;
  api_exec_bash : Uuid → string → M SandboxError R Z;
  api_exec_python : Uuid → list string → M SandboxError R Z;
  api_interactive_shell : Uuid → InteractiveTarget → M SandboxError R Z;
  api_checkpoint_create : Uuid → option string → gmap string string → M SandboxError R WorkspaceCheckpointRecord;
  api_checkpoint_list : Uuid → M SandboxError R (list WorkspaceCheckpointRecord);
  api_checkpoint_restore : Uuid → string → CheckpointRestoreMode → M SandboxError R WorkspaceCheckpointRecord;
  api_checkpoint_fork : Uuid → string → option string → M SandboxError R BoxRecord;
  api_checkpoint_delete : Uuid → string → M SandboxError R ();
  api_admin_add : M SandboxError R AdminCredentialBundle;
  api_admin_remove_me : M SandboxError R ();
}.

(** The functions of [output.rs] the commands call. *)
Inductive Output :=
  | PrintHelp (topic : HelpTopic)
  | PrintStart (endpoint : string) (already_running : bool) (mode : IsolationMode)
  | PrintQuit (was_running : bool)
  | PrintUpdate (outcome : SelfUpdateOutcome)
  | PrintAdminBundle (bundle : AdminCredentialBundle)
  | PrintAdminRemoved
  | PrintBoxTable (boxes : list BoxRecord) (mode : option IsolationMode)
  | PrintBoxAction (action : string) (record : BoxRecord)
  | PrintRemoved (box_id : Uuid)
  | PrintImageBuilt (manifest : VmImageManifest)
  | PrintImageList (images : list VmImageManifest)
  | PrintImageInspect (manifest : VmImageManifest)
  | PrintImageRemoved (name : string)
  | PrintFiles (entries : list FileNode)
  | PrintCheckpointId (checkpoint_id : string)
  | PrintCheckpoints (checkpoints : list WorkspaceCheckpointRecord)
  | PrintCheckpointRestoreOk (checkpoint_id : string)
  | PrintCheckpointDeleteOk (checkpoint_id : string).

Record AppState (R : Type) := mkApp {
  ap_world : World;
  ap_events : list Event;      (** what the launcher did *)
  ap_requests : nat;           (** requests of the self-update *)
  ap_remote : R;
  ap_output : list Output;     (** the latest first *)
}.
Arguments mkApp {R}. Arguments ap_world {R}. Arguments ap_events {R}.
Arguments ap_requests {R}. Arguments ap_remote {R}. Arguments ap_output {R}.

Record DaemonRuntimeInfo := mkInfo { di_isolation_mode : IsolationMode }.

(** What is modelled elsewhere in other terms, or not at all: the runner and its
    harness, the daemon itself, the printing of its log, and the building of an
    image; and whether standard output still takes what was printed. *)
Class AppHost (R : Type) := {
  run_runner : string → M SandboxError (AppState R) ();
  run_security_harness : string → M SandboxError (AppState R) ();
  run_foreground : SagensPaths → string → M SandboxError (AppState R) ();
  print_log : SagensPaths → option Z → bool → M SandboxError (AppState R) ();
  build_image : ImageBuildCommand → M SandboxError (AppState R) VmImageManifest;
  stdout_error : list Output → option IoError;
}.

(** ** Internal commands *)

Definition parse_internal (name : string) (args : list string) : Result SandboxError (option string) :=
  match args with
  | [] => Ok None
  | command :: rest =>
      if String.eqb command name then
        match rest with
        | [config_path] => Ok (Some config_path)
        | _ => Err (InvalidConfig ("usage: sagens " ^+ name ^+ " <RUNNER_CONFIG_PATH>"))
        end
      else Ok None
  end.
Definition parse_internal_libkrun_runner : list string → Result SandboxError (option string) := parse_internal "__libkrun-runner".
Definition parse_internal_security_harness : list string → Result SandboxError (option string) := parse_internal "__security-harness".

Section app.
Context `{!Platform, !Serde UserConfig, !Serde VmImageManifest, !Serde DaemonRuntimeInfo, !Target, !HostEnv, !DaemonHost, !UpdateHost}.
Context {R : Type} `{!RemoteApi R, !AppHost R} (cwd : path) (uuid_error : string → string).

Abbreviation AM := (M SandboxError (AppState R)).

(** ** Parts of the state *)

Definition app_files {A} (m : M SandboxError World A) : AM A :=
  zoom ap_world (λ w s, mkApp w (ap_events s) (ap_requests s) (ap_remote s) (ap_output s)) m.
Definition app_launcher {A} (m : M SandboxError LS A) : AM A :=
  zoom (λ s, (ap_world s, ap_events s)) (λ l s, mkApp l.1 l.2 (ap_requests s) (ap_remote s) (ap_output s)) m.
Definition app_update {A} (m : M SandboxError UpdateState A) : AM A :=
  zoom (λ s, mkUpdate (ap_world s) (ap_requests s))
       (λ u s, mkApp (up_world u) (ap_events s) (up_requests u) (ap_remote s) (ap_output s)) m.
Definition app_remote {A} (m : M SandboxError R A) : AM A :=
  zoom ap_remote (λ r s, mkApp (ap_world s) (ap_events s) (ap_requests s) r (ap_output s)) m.
Definition app_transfer {A} (m : M SandboxError (World * R) A) : AM A :=
  zoom (λ s, (ap_world s, ap_remote s)) (λ t s, mkApp t.1 (ap_events s) (ap_requests s) t.2 (ap_output s)) m.

Definition print (context : string) (o : Output) : AM () := λ s,
  let out := o :: ap_output s in
  (match stdout_error out with None => Ok () | Some e => Err (Io context e) end,
   mkApp (ap_world s) (ap_events s) (ap_requests s) (ap_remote s) out).

Definition read_runtime_info (paths : SagensPaths) : AM (option DaemonRuntimeInfo) :=
  r ← attempt (zoom ap_world (λ w s, mkApp w (ap_events s) (ap_requests s) (ap_remote s) (ap_output s))
                 (fs_read (file_of cwd (sp_state_dir paths) ++ ["daemon.runtime.json"])));
  match r with
  | Ok data => info ← map_err (Json "decoding daemon runtime info") (lift (from_slice data)); mret (Some info)
  | Err error => if decide (io_kind error = KNotFound) then mret None else throw (Io "reading daemon runtime info" error)
  end.

(** ** Commands for the daemon *)

(** The configuration is read and a connection is made first. *)
Definition connected (user_config_path : string) : AM () :=
  let hint e := Backend (error_to_string e ^+ "; run `sagens start` first") in
  config ← map_err hint (app_files (read_user_config (file_of cwd user_config_path)));
  map_err hint (app_remote (api_connect config)).

Definition run_admin_command (user_config_path : string) (command : AdminCommand) : AM Z :=
  connected user_config_path;;
  (match command with
   | AdmAdd => bundle ← app_remote api_admin_add; print "writing admin add output" (PrintAdminBundle bundle)
   | AdmRemoveMe => app_remote api_admin_remove_me;; print "writing admin remove output" PrintAdminRemoved
   end);;
  mret 0%Z.

Definition resolve_single_box_id : AM Uuid :=
  boxes ← app_remote api_list_boxes;
  match boxes with
  | [record] => mret (bx_box_id record)
  | [] => throw (NotFound "no BOXes found; create one first or specify BOX_ID explicitly")
  | _ => throw (InvalidConfig "multiple BOXes found; specify BOX_ID explicitly")
  end.

Definition run_box_set_command (command : BoxSetCommand) : AM Z :=
  box_id ← match bset_box_id command with Some b => mret b | None => resolve_single_box_id end;
  record ← app_remote (api_set_box_setting box_id (bset_value command));
  print "writing box set output" (PrintBoxAction "settings updated" record);;
  mret 0%Z.

Definition run_fs_command (command : FsCommand) : AM Z :=
  (match command with
   | FsCList b p => entries ← app_remote (list_files b p); print "writing fs list output" (PrintFiles entries)
   | FsCUpload b local remote => app_transfer (upload_path cwd b (components local) remote)
   | FsCDownload b remote local => app_transfer (download_path cwd b remote (components local))
   end);;
  mret 0%Z.

Definition run_checkpoint_command (command : CheckpointCommand) : AM Z :=
  (match command with
   | CkCreate b name metadata =>
       checkpoint ← app_remote (api_checkpoint_create b name metadata);
       print "writing checkpoint create output" (PrintCheckpointId (cs_checkpoint_id (cr_summary checkpoint)))
   | CkList b => checkpoints ← app_remote (api_checkpoint_list b); print "writing checkpoint list output" (PrintCheckpoints checkpoints)
   | CkRestore b id mode =>
       app_remote (api_checkpoint_restore b id mode);; print "writing checkpoint restore output" (PrintCheckpointRestoreOk id)
   | CkFork b id name =>
       record ← app_remote (api_checkpoint_fork b id name); print "writing checkpoint fork output" (PrintBoxAction "forked" record)
   | CkDelete b id => app_remote (api_checkpoint_delete b id);; print "writing checkpoint delete output" (PrintCheckpointDeleteOk id)
   end);;
  mret 0%Z.

Definition run_box_command (paths : SagensPaths) (command : BoxCommand) : AM Z :=
  connected (sp_user_config_path paths);;
  let shown context action (m : M SandboxError R BoxRecord) : AM Z :=
    record ← app_remote m; print context (PrintBoxAction action record);; mret 0%Z in
  match command with
  | BxList =>
      info ← read_runtime_info paths;
      boxes ← app_remote api_list_boxes;
      print "writing box list output" (PrintBoxTable boxes (di_isolation_mode <$> info));; mret 0%Z
  | BxNew c => shown "writing box create output" "created" (api_create_box_from_image (bn_image c))
  | BxStart b => shown "writing box start output" "started" (api_start_box b)
  | BxStop b => shown "writing box stop output" "stopped" (api_stop_box b)
  | BxRemove b => app_remote (api_remove_box b);; print "writing box remove output" (PrintRemoved b);; mret 0%Z
  | BxSet c => run_box_set_command c;; mret 0%Z
  | BxExec c =>
      match ec_target c with
      | EtBash shell => app_remote (api_exec_bash (ec_box_id c) shell)
      | EtPython args => app_remote (api_exec_python (ec_box_id c) args)
      | EtInteractive target => app_remote (api_interactive_shell (ec_box_id c) target)
      end
  | BxFs c => run_fs_command c
  | BxCheckpoint c => run_checkpoint_command c
  end.

(** ** Commands on this host *)

Definition run_image_command (paths : SagensPaths) (command : ImageCommand) : AM Z :=
  let state_dir := file_of cwd (sp_state_dir paths) in
  (match command with
   | ImBuild c => manifest ← build_image c; print "writing image build output" (PrintImageBuilt manifest)
   | ImList => images ← app_files (image_list state_dir); print "writing image list output" (PrintImageList images)
   | ImInspect name => manifest ← app_files (inspect state_dir name); print "writing image inspect output" (PrintImageInspect manifest)
   | ImRemove name => app_files (image_remove state_dir name);; print "writing image remove output" (PrintImageRemoved name)
   end);;
  mret 0%Z.

Definition host_binary (context : string) : AM string :=
  exe ← map_err (Io context) (lift current_exe); mret (display exe).

Definition run_command (command : Command) : AM Z :=
  let paths := resolve_paths in
  match command with
  | CmdHelp topic => print "writing help output" (PrintHelp topic);; mret 0%Z
  | CmdStart =>
      binary ← host_binary "discovering sagens binary";
      runtime_config ← lift (build_runtime_config_for_endpoint (sp_state_dir paths) (sp_endpoint paths));
      '(config, already_running) ← app_launcher (ensure_started cwd paths binary);
      info ← read_runtime_info paths;
      print "writing start output"
        (PrintStart (uc_endpoint config) already_running (default (rc_isolation_mode runtime_config) (di_isolation_mode <$> info)));;
      mret 0%Z
  | CmdQuit => was_running ← app_launcher (quit cwd paths); print "writing quit output" (PrintQuit was_running);; mret 0%Z
  | CmdUpdate => outcome ← app_update run_self_update; print "writing update output" (PrintUpdate outcome);; mret 0%Z
  | CmdDaemon DmRun => binary ← host_binary "discovering sagens binary"; run_foreground paths binary;; mret 0%Z
  | CmdDaemon (DmLog c) => print_log paths (dl_tail c) (dl_follow c);; mret 0%Z
  | CmdAdmin c => run_admin_command (sp_user_config_path paths) c
  | CmdImage c => run_image_command paths c
  | CmdBox c => run_box_command paths c
  end.

Definition run (raw_args : list string) : AM Z :=
  runner ← lift (parse_internal_libkrun_runner raw_args);
  if runner is Some config_path then run_runner config_path;; mret 0%Z
  else
    harness ← lift (parse_internal_security_harness raw_args);
    if harness is Some config_path then run_security_harness config_path;; mret 0%Z
    else command ← lift (parse uuid_error raw_args); run_command command.

(** ** Properties *)

(** what is typed is what is done: for every command there is a command line that carries out exactly
    this command, and no command line of a user reaches the runner or its harness unless
    it names them. *)
Theorem typed_command_runs `{!PlatformLaws} command s :
  command_wf command → expressible command → run (render command) s = run_command command s.
Proof.
  intros Hwf Hex. pose proof (render_head command) as Hh. unfold run.
  destruct (render command) as [|first rest] eqn:E; [by destruct Hh|]. destruct Hh as [Hr Hs].
  unfold parse_internal_libkrun_runner, parse_internal_security_harness, parse_internal.
  apply String.eqb_neq in Hr, Hs. rewrite Hr, Hs. rewrite <-E.
  rewrite (bind_ok _ _ _ None s), (bind_ok _ _ _ None s) by done.
  by rewrite (bind_ok _ _ _ command s) by (unfold lift; by rewrite render_parses).
Qed.

(** The part of the state a command can change besides the output. *)
Definition quietly (s s' : AppState R) : Prop :=
  ap_world s' = ap_world s ∧ ap_events s' = ap_events s ∧ ap_requests s' = ap_requests s ∧ ap_remote s' = ap_remote s.

(** asking for help does nothing but print, and a line that is not understood does nothing at all: the daemon is not asked, no process is
    touched and no file read or written. *)
Theorem help_is_inert args s r s' :
  run args s = (r, s') →
  (∀ topic, parse uuid_error args = Ok (CmdHelp topic) → parse_internal_libkrun_runner args = Ok None →
     parse_internal_security_harness args = Ok None →
     quietly s s' ∧ ap_output s' = PrintHelp topic :: ap_output s) ∧
  (∀ e, parse uuid_error args = Err e → parse_internal_libkrun_runner args = Ok None →
     parse_internal_security_harness args = Ok None → s' = s ∧ r = Err e).
Proof.
  intros Hrun. split.
  - intros topic Hp Hr Hs. unfold run, lift in Hrun. rewrite Hr, Hs, Hp in Hrun. simpl in Hrun.
    change ((print "writing help output" (PrintHelp topic);; mret 0%Z) s = (r, s')) in Hrun.
    destruct (print "writing help output" (PrintHelp topic) s) as [[[]|e] s1] eqn:Ep;
      [rewrite (bind_ok _ _ _ _ _ Ep) in Hrun; apply pair_equal_spec in Hrun as [_ <-]|
       rewrite (bind_err _ _ _ _ _ Ep) in Hrun; injection Hrun as _ <-];
      unfold print in Ep; injection Ep as _ <-; by repeat split.
  - intros e Hp Hr Hs. unfold run, lift in Hrun. rewrite Hr, Hs, Hp in Hrun. by injection Hrun as <- <-.
Qed.

(** a setting without a BOX is meant for the only one: it is applied exactly when the daemon lists
    one BOX, and to this one; with none or several nothing is set, and the error says which.  With an identifier no list is asked for. *)
Theorem set_without_id v s boxes r1 :
  api_list_boxes (ap_remote s) = (Ok boxes, r1) →
  let s1 := mkApp (ap_world s) (ap_events s) (ap_requests s) r1 (ap_output s) in
  run_box_set_command (mkBoxSet None v) s =
    match boxes with
    | [record] => run_box_set_command (mkBoxSet (Some (bx_box_id record)) v) s1
    | [] => (Err (NotFound "no BOXes found; create one first or specify BOX_ID explicitly"), s1)
    | _ => (Err (InvalidConfig "multiple BOXes found; specify BOX_ID explicitly"), s1)
    end.
Proof.
  intros Hl s1. unfold run_box_set_command, resolve_single_box_id. cbn [bset_box_id bset_value].
  assert (app_remote api_list_boxes s = (Ok boxes, s1)) as Hrun by (unfold app_remote, zoom; by rewrite Hl).
  destruct boxes as [|record [|record' boxes]].
  - erewrite bind_err; [done|]. by rewrite (bind_ok _ _ _ _ _ Hrun).
  - erewrite bind_ok; [|by rewrite (bind_ok _ _ _ _ _ Hrun)]. by rewrite (bind_ok _ _ _ (bx_box_id record) s1).
  - erewrite bind_err; [done|]. by rewrite (bind_ok _ _ _ _ _ Hrun).
Qed.
End app.
