(* ===== verification/Ui.v ===== *)
(** * Ui: [src/sagens/ui.rs]

    The colours, badges and tables of the command line.  A string is its bytes in
    UTF-8, so [chars().count()] counts the bytes that begin a character.  What a
    terminal shows of a text is the text without its escape sequences
    ([shows]); colour changes nothing of it, and the lines of a table are equally
    wide. *)

From S2P Require Import Prelude RustStd Text.

(** ** Characters *)

(** [str::chars().count()]: bytes 0x80 to 0xBF continue a character. *)
Definition starts_char (a : ascii) : bool := negb ((128 <=? code a)%N && (code a <? 192)%N).
Fixpoint chars_count (s : string) : nat :=
  match s with
  | EmptyString => 0
  | String a s' => (if starts_char a then 1 else 0) + chars_count s'
  end.

(** [str::repeat] *)
Fixpoint str_repeat (s : string) (n : nat) : string :=
  match n with O => "" | S n' => s ^+ str_repeat s n' end.

(** ** Cells and themes *)

Inductive Align := ALeft | ACenter | ARight.

Record Cell := mkCell { cell_plain : string; cell_rendered : string; cell_align : Align }.

Definition Cell_plain (value : string) : Cell := mkCell value value ALeft.
Definition Cell_right (value : string) : Cell := mkCell value value ARight.
Definition cell_width (c : Cell) : nat := chars_count (cell_plain c).

Record Theme := mkTheme { color : bool }.

Inductive BadgeStyle := BsInfo | BsSuccess | BsWarning | BsDanger | BsAccent | BsMuted.

Definition escape : ascii := ascii_of_nat 27.

Definition paint (theme : Theme) (value code : string) : string :=
  if color theme then String escape ("[" ^+ code ^+ "m" ^+ value ^+ String escape "[0m") else value.

Definition title (theme : Theme) (value : string) : string := paint theme value "1;38;5;45".
Definition heading (theme : Theme) (value : string) : string := paint theme value "1;38;5;81".
Definition subheading (theme : Theme) (value : string) : string := paint theme value "1;38;5;111".
Definition dim (theme : Theme) (value : string) : string := paint theme value "2;38;5;246".
Definition muted (theme : Theme) (value : string) : string := paint theme value "38;5;244".
Definition code_text (theme : Theme) (value : string) : string := paint theme value "38;5;186".
Definition badge (theme : Theme) (label : string) (style : BadgeStyle) : string :=
  paint theme label
    match style with
    | BsInfo => "1;30;48;5;117"
    | BsSuccess => "1;30;48;5;119"
    | BsWarning => "1;30;48;5;221"
    | BsDanger => "1;37;48;5;160"
    | BsAccent => "1;30;48;5;183"
    | BsMuted => "1;37;48;5;240"
    end.

(** ** Tables *)

Definition pad (value : string) (width : nat) (align : Align) (measured_width : nat) : string :=
  let pad := (width - measured_width)%nat in
  match align with
  | ALeft => value ^+ str_repeat " " pad
  | ARight => str_repeat " " pad ^+ value
  | ACenter =>
      let left := Nat.div2 pad in
      let right := (pad - left)%nat in
      str_repeat " " left ^+ value ^+ str_repeat " " right
  end.

(** The cells of a row after its first separator; [None] is the panic of
    [widths[index]] in a row longer than the header. *)
Fixpoint render_cells (cells : list Cell) (widths : list nat) (sep : string) (style : string → string) : option string :=
  match cells with
  | [] => Some ""
  | cell :: cells' =>
      match widths with
      | [] => None
      | width :: widths' =>
          rest ← render_cells cells' widths' sep style;
          Some (" " ^+ style (pad (cell_rendered cell) width (cell_align cell) (cell_width cell)) ^+ " " ^+ sep ^+ rest)
      end
  end.
Definition render_row (cells : list Cell) (widths : list nat) (sep : string) (style : string → string) : option string :=
  row ← render_cells cells widths sep style; Some (sep ^+ row).

(** A row widens the columns it has; cells beyond the last column are ignored. *)
Fixpoint widen (widths : list nat) (row : list Cell) : list nat :=
  match widths, row with
  | width :: widths', cell :: row' => Nat.max width (cell_width cell) :: widen widths' row'
  | _, _ => widths
  end.
Definition column_widths (headers : list Cell) (rows : list (list Cell)) : list nat :=
  foldl widen (cell_width <$> headers) rows.

(** A width is a number of characters in memory, so adding 2 to it does not
    saturate. *)
Fixpoint border_cells (widths : list nat) (mid right : string) : string :=
  match widths with
  | [] => ""
  | [width] => str_repeat "─" (width + 2) ^+ right
  | width :: widths' => str_repeat "─" (width + 2) ^+ mid ^+ border_cells widths' mid right
  end.
Definition border (widths : list nat) (left mid right : string) : string := left ^+ border_cells widths mid right.

Definition newline : string := String line_feed "".

Fixpoint render_rows (rows : list (list Cell)) (widths : list nat) : option string :=
  match rows with
  | [] => Some ""
  | row :: rows' =>
      line ← render_row row widths "│" (λ value, value);
      rest ← render_rows rows' widths;
      Some (newline ^+ line ^+ rest)
  end.

Definition table (theme : Theme) (headers : list Cell) (rows : list (list Cell)) : option string :=
  match headers with
  | [] => Some ""
  | _ =>
      let widths := column_widths headers rows in
      header ← render_row headers widths "│" (subheading theme);
      body ← render_rows rows widths;
      Some (muted theme (border widths "┌" "┬" "┐") ^+ newline ^+ header ^+ newline ^+
            muted theme (border widths "├" "┼" "┤") ^+ body ^+ newline ^+
            muted theme (border widths "└" "┴" "┘"))
  end.

(** ** What a terminal shows *)

(** The text without its escape sequences, which run from an escape to an [m]. *)
Fixpoint visible_from (escaped : bool) (s : string) : string :=
  match s with
  | EmptyString => EmptyString
  | String a s' =>
      if escaped then visible_from (negb (Ascii.eqb a "m")) s'
      else if Ascii.eqb a escape then visible_from true s'
      else String a (visible_from false s')
  end.
Definition visible (s : string) : string := visible_from false s.

(** [s] shows as [v], and leaves the terminal as it found it. *)
Definition shows (s v : string) : Prop := ∀ t, visible (s ^+ t) = v ^+ visible t.

Definition unescaped (s : string) : Prop := all_chars (λ a, negb (Ascii.eqb a escape)) s = true.
Definition one_line (s : string) : Prop := all_chars (λ a, negb (Ascii.eqb a line_feed)) s = true.

Lemma shows_visible s v : shows s v → visible s = v.
Proof. intros H. specialize (H ""). rewrite string_app_nil_r in H. rewrite H. apply string_app_nil_r. Qed.
Lemma shows_app s1 v1 s2 v2 : shows s1 v1 → shows s2 v2 → shows (s1 ^+ s2) (v1 ^+ v2).
Proof. intros H1 H2 t. by rewrite !string_app_assoc, H1, H2. Qed.
Lemma shows_unescaped s : unescaped s → shows s s.
Proof.
  intros Hs t. unfold visible. induction s as [|a s IH]; [done|]. unfold unescaped in Hs. simpl in *.
  apply andb_true_iff in Hs as [Ha Hs]. apply negb_true_iff in Ha. by rewrite Ha, IH.
Qed.
Lemma shows_cons a s v : Ascii.eqb a escape = false → shows s v → shows (String a s) (String a v).
Proof. intros Ha H t. unfold visible. simpl. rewrite Ha. exact (f_equal (String a) (H t)). Qed.
Lemma unescaped_app a b : unescaped a → unescaped b → unescaped (a ^+ b).
Proof. unfold unescaped. rewrite all_chars_app. intros -> ->. done. Qed.
Lemma one_line_app a b : one_line a → one_line b → one_line (a ^+ b).
Proof. unfold one_line. rewrite all_chars_app. intros -> ->. done. Qed.
Lemma all_chars_repeat f s n : all_chars f s = true → all_chars f (str_repeat s n) = true.
Proof. intros H. induction n; simpl; [done|]. by rewrite all_chars_app, H. Qed.

(** The code of a colour ends the sequence that begins with it. *)
Lemma visible_code c t : all_chars (λ a, negb (Ascii.eqb a "m")) c = true → visible_from true (c ^+ String "m" t) = visible t.
Proof.
  induction c as [|a c IH]; simpl; [done|]. intros H. apply andb_true_iff in H as [Ha H]. by rewrite Ha, IH.
Qed.
Lemma shows_paint theme s v c :
  all_chars (λ a, negb (Ascii.eqb a "m")) c = true → shows s v → shows (paint theme s c) v.
Proof.
  intros Hc Hs t. unfold paint. destruct (color theme); [|apply Hs].
  change (visible_from true ((c ^+ String "m" (s ^+ String escape "[0m")) ^+ t) = v ^+ visible t).
  rewrite string_app_assoc. change (String "m" ?x ^+ t) with (String "m" (x ^+ t)).
  rewrite visible_code, string_app_assoc, Hs by done. done.
Qed.

Lemma shows_title theme s v : shows s v → shows (title theme s) v.
Proof. by apply shows_paint. Qed.
Lemma shows_heading theme s v : shows s v → shows (heading theme s) v.
Proof. by apply shows_paint. Qed.
Lemma shows_subheading theme s v : shows s v → shows (subheading theme s) v.
Proof. by apply shows_paint. Qed.
Lemma shows_dim theme s v : shows s v → shows (dim theme s) v.
Proof. by apply shows_paint. Qed.
Lemma shows_muted theme s v : shows s v → shows (muted theme s) v.
Proof. by apply shows_paint. Qed.
Lemma shows_code theme s v : shows s v → shows (code_text theme s) v.
Proof. by apply shows_paint. Qed.
Lemma shows_badge theme s v style : shows s v → shows (badge theme s style) v.
Proof. intros H. unfold badge. apply shows_paint; [by destruct style|done]. Qed.

Create HintDb ui.
#[export] Hint Resolve shows_app shows_title shows_heading shows_subheading shows_dim shows_muted shows_code shows_badge
  unescaped_app one_line_app : ui.
#[export] Hint Extern 3 (shows _ _) => apply shows_unescaped : ui.
#[export] Hint Extern 1 (unescaped (String _ _)) => reflexivity : ui.
#[export] Hint Extern 1 (unescaped EmptyString) => reflexivity : ui.
#[export] Hint Extern 1 (unescaped newline) => reflexivity : ui.

(** Goes through a text piece by piece. *)
Ltac show_pieces := repeat first [apply shows_cons; [reflexivity|] | apply shows_app]; auto with ui.

Lemma unescaped_repeat s n : unescaped s → unescaped (str_repeat s n).
Proof. apply all_chars_repeat. Qed.
#[export] Hint Resolve unescaped_repeat : ui.

(** ** Tables are shown as they are meant *)

(** A cell shows the text it is measured by. *)
Definition faithful (c : Cell) : Prop := shows (cell_rendered c) (cell_plain c).
Definition colourless (c : Cell) : Cell := mkCell (cell_plain c) (cell_plain c) (cell_align c).
Definition colourless_row (row : list Cell) : list Cell := colourless <$> row.
Definition shows_option (s v : option string) : Prop :=
  match s, v with Some s, Some v => shows s v | None, None => True | _, _ => False end.

Lemma shows_pad s v w a n : shows s v → shows (pad s w a n) (pad v w a n).
Proof. intros H. unfold pad. destruct a; show_pieces. Qed.
#[export] Hint Resolve shows_pad : ui.

Lemma shows_cells cells widths sep f g :
  Forall faithful cells → unescaped sep → (∀ s v, shows s v → shows (f s) (g v)) →
  shows_option (render_cells cells widths sep f) (render_cells (colourless <$> cells) widths sep g).
Proof.
  intros Hc Hsep Hfg. revert widths. induction Hc as [|c cells Hfaith Hc IH]; intros widths; [by apply shows_unescaped|].
  destruct widths as [|w widths]; [done|]. rewrite fmap_cons. cbn [render_cells]. specialize (IH widths).
  destruct (render_cells cells widths sep f) as [s|], (render_cells (colourless <$> cells) widths sep g) as [v|]; try done.
  simpl in *. change (cell_width (colourless c)) with (cell_width c). show_pieces.
Qed.
Lemma shows_row cells widths sep f g :
  Forall faithful cells → unescaped sep → (∀ s v, shows s v → shows (f s) (g v)) →
  shows_option (render_row cells widths sep f) (render_row (colourless <$> cells) widths sep g).
Proof.
  intros Hc Hsep Hfg. pose proof (shows_cells cells widths sep f g Hc Hsep Hfg) as H. unfold render_row.
  destruct (render_cells cells widths sep f), (render_cells (colourless <$> cells) widths sep g); try done.
  simpl in *. show_pieces.
Qed.
Lemma shows_rows rows widths :
  Forall (Forall faithful) rows →
  shows_option (render_rows rows widths) (render_rows (colourless_row <$> rows) widths).
Proof.
  induction 1 as [|row rows Hrow Hrows IH]; [by apply shows_unescaped|]. rewrite fmap_cons. cbn [render_rows].
  change (colourless_row row) with (colourless <$> row).
  pose proof (shows_row row widths "│" (λ v, v) (λ v, v) Hrow eq_refl (λ _ _ H, H)) as Hr.
  destruct (render_row row widths "│" _), (render_row (colourless <$> row) widths "│" _); try done;
    destruct (render_rows rows widths), (render_rows (colourless_row <$> rows) widths); try done.
  simpl in *.
  show_pieces.
Qed.

Lemma widen_colourless widths row : widen widths (colourless <$> row) = widen widths row.
Proof. revert row. induction widths as [|w widths IH]; intros [|c row]; simpl; [done..|]. by rewrite IH. Qed.
Lemma column_widths_colourless headers rows :
  column_widths (colourless <$> headers) (colourless_row <$> rows) = column_widths headers rows.
Proof.
  unfold column_widths. replace (cell_width <$> (colourless <$> headers)) with (cell_width <$> headers).
  - generalize (cell_width <$> headers). induction rows as [|row rows IH]; intros ws; [done|]. rewrite fmap_cons. simpl.
    change (colourless_row row) with (colourless <$> row). by rewrite widen_colourless, IH.
  - by rewrite <-list_fmap_compose.
Qed.

Lemma unescaped_border widths l m r : unescaped l → unescaped m → unescaped r → unescaped (border widths l m r).
Proof.
  intros Hl Hm Hr. apply unescaped_app; [done|]. induction widths as [|w [|w' ws] IH]; [done|simpl..].
  - apply unescaped_app; [by apply unescaped_repeat|done].
  - apply unescaped_app; [by apply unescaped_repeat|]. apply unescaped_app; [done|exact IH].
Qed.

(** colour is decoration: on a terminal a table shows exactly what it holds without colour, as long as every cell shows the text it was measured by. *)
Theorem table_colour_is_decoration theme headers rows :
  Forall faithful headers → Forall (Forall faithful) rows →
  shows_option (table theme headers rows) (table (mkTheme false) (colourless <$> headers) (colourless_row <$> rows)).
Proof.
  intros Hh Hr. destruct headers as [|h headers]; [by apply shows_unescaped|].
  set (hs := h :: headers) in *.
  change (table theme hs rows) with
    (let widths := column_widths hs rows in
      header ← render_row hs widths "│" (subheading theme);
      body ← render_rows rows widths;
      Some (muted theme (border widths "┌" "┬" "┐") ^+ newline ^+ header ^+ newline ^+
            muted theme (border widths "├" "┼" "┤") ^+ body ^+ newline ^+
            muted theme (border widths "└" "┴" "┘"))).
  change (table (mkTheme false) (colourless <$> hs) (colourless_row <$> rows)) with
    (let widths := column_widths (colourless <$> hs) (colourless_row <$> rows) in
      header ← render_row (colourless <$> hs) widths "│" (λ v, v);
      body ← render_rows (colourless_row <$> rows) widths;
      Some (border widths "┌" "┬" "┐" ^+ newline ^+ header ^+ newline ^+
            border widths "├" "┼" "┤" ^+ body ^+ newline ^+ border widths "└" "┴" "┘")).
  cbv zeta. rewrite column_widths_colourless. generalize (column_widths hs rows). intros widths.
  pose proof (shows_row hs widths "│" (subheading theme) (λ v, v) Hh eq_refl (shows_subheading theme)) as H1.
  pose proof (shows_rows rows widths Hr) as H2.
  destruct (render_row hs widths _ _), (render_row (colourless <$> hs) widths _ _); try done. simpl.
  destruct (render_rows rows widths), (render_rows (colourless_row <$> rows) widths); try done. simpl in *.
  repeat apply shows_app; try done; try (apply shows_muted); by (apply shows_unescaped; try by apply unescaped_border).
Qed.

(** ** Tables are complete and rectangular *)

(** A row has one cell per column, none wider than it. *)
Definition fits (row : list Cell) (widths : list nat) : Prop := Forall2 (λ c w, cell_width c ≤ w)%nat row widths.

Lemma widen_length widths row : length (widen widths row) = length widths.
Proof. revert row. induction widths as [|w widths IH]; intros [|c row]; simpl; auto. Qed.
Lemma column_widths_length headers rows : length (column_widths headers rows) = length headers.
Proof.
  unfold column_widths. rewrite <-(length_fmap cell_width headers). generalize (cell_width <$> headers).
  induction rows as [|row rows IH]; intros ws; simpl; [done|]. by rewrite IH, widen_length.
Qed.
Lemma widen_fits row widths : length row = length widths → fits row (widen widths row).
Proof.
  revert row. induction widths as [|w widths IH]; intros [|c row]; simpl; try done; [constructor|].
  intros [= Hlen]. constructor; [lia|by apply IH].
Qed.
Lemma fits_widen row widths row' : fits row widths → fits row (widen widths row').
Proof.
  intros H. revert row'. induction H as [|c w row widths Hc H IH]; intros [|c' row']; simpl; try by constructor.
  constructor; [lia|apply IH].
Qed.
Lemma fits_column_widths headers rows row :
  Forall (λ row, length row = length headers) rows → row = headers ∨ row ∈ rows → fits row (column_widths headers rows).
Proof.
  unfold column_widths. intros Hlen Hin.
  assert (Hacc : ∀ ws, length ws = length headers → (fits row ws ∨ row ∈ rows) → fits row (foldl widen ws rows)).
  { clear Hin. induction Hlen as [|r rows Hr Hlen IH]; intros ws Hws; [by intros [?|?%elem_of_nil]|].
    rewrite elem_of_cons. intros Hcase. simpl. apply IH; [by rewrite widen_length|].
    destruct Hcase as [?|[->|?]]; [left; by apply fits_widen|left; apply widen_fits; lia|by right]. }
  apply Hacc; [by rewrite length_fmap|]. destruct Hin as [->|]; [left|by right].
  unfold fits. clear. induction headers; simpl; constructor; auto.
Qed.

Lemma render_cells_some cells widths sep f : (length cells ≤ length widths)%nat → is_Some (render_cells cells widths sep f).
Proof.
  revert widths. induction cells as [|c cells IH]; intros widths Hlen; [by eexists|].
  destruct widths as [|w widths]; simpl in Hlen; [lia|]. simpl. destruct (IH widths) as [s Hs]; [lia|]. rewrite Hs. by eexists.
Qed.
Lemma render_row_some cells widths sep f : (length cells ≤ length widths)%nat → is_Some (render_row cells widths sep f).
Proof. intros H. unfold render_row. destruct (render_cells_some cells widths sep f H) as [s ->]. by eexists. Qed.
Lemma render_rows_some rows widths : Forall (λ row, length row ≤ length widths)%nat rows → is_Some (render_rows rows widths).
Proof.
  induction 1 as [|row rows Hrow _ IH]; [by eexists|]. simpl.
  destruct (render_row_some row widths "│" (λ v, v) Hrow) as [s ->], IH as [t Ht]. simpl. rewrite Ht. by eexists.
Qed.

(** no row longer than the header, no panic *)
Lemma table_some theme headers rows :
  Forall (λ row, length row ≤ length headers)%nat rows → is_Some (table theme headers rows).
Proof.
  intros Hrows. unfold table. destruct headers as [|h hs]; [by eexists|].
  destruct (render_row_some (h :: hs) (column_widths (h :: hs) rows) "│" (subheading theme)) as [s ->];
    [by rewrite column_widths_length|]. cbn [mbind option_bind].
  destruct (render_rows_some rows (column_widths (h :: hs) rows)) as [t ->]; [|by eexists].
  by rewrite column_widths_length.
Qed.

Lemma chars_count_app a b : chars_count (a ^+ b) = (chars_count a + chars_count b)%nat.
Proof. induction a as [|x a IH]; simpl; [done|]. rewrite IH. lia. Qed.
Lemma chars_count_repeat s n : chars_count (str_repeat s n) = (n * chars_count s)%nat.
Proof. induction n; simpl; [done|]. rewrite chars_count_app. lia. Qed.
Lemma chars_count_pad v w a : (chars_count v ≤ w)%nat → chars_count (pad v w a (chars_count v)) = w.
Proof.
  intros H. unfold pad. destruct a; rewrite ?chars_count_app, ?chars_count_repeat; simpl; [lia| |lia].
  pose proof (Nat.div2_decr (w - chars_count v) (w - chars_count v)). lia.
Qed.

Definition line_width (widths : list nat) : nat := 1 + sum_list_with (λ w, w + 3)%nat widths.

Lemma border_width widths l m r :
  widths ≠ [] → chars_count l = 1%nat → chars_count m = 1%nat → chars_count r = 1%nat →
  chars_count (border widths l m r) = line_width widths.
Proof.
  intros Hne Hl Hm Hr. unfold border, line_width. rewrite chars_count_app, Hl. f_equal.
  induction widths as [|w [|w' ws] IH]; [done| |].
  - simpl. rewrite chars_count_app, chars_count_repeat, Hr. change (chars_count "─") with 1%nat. lia.
  - change (border_cells (w :: w' :: ws) m r) with (str_repeat "─" (w + 2) ^+ m ^+ border_cells (w' :: ws) m r).
    rewrite !chars_count_app, chars_count_repeat, Hm, IH by done. change (chars_count "─") with 1%nat. simpl. lia.
Qed.
Lemma row_width cells widths s :
  fits cells widths → Forall (λ c, cell_rendered c = cell_plain c) cells →
  render_row cells widths "│" (λ v, v) = Some s → chars_count s = line_width widths.
Proof.
  intros Hfit Hc. unfold render_row, line_width.
  destruct (render_cells cells widths "│" (λ v, v)) as [t|] eqn:Ht; [|done]. intros [= <-]. rewrite chars_count_app.
  change (chars_count "│") with 1%nat. f_equal. revert t Ht Hc.
  induction Hfit as [|c w cells widths Hcw Hfit IH]; intros t Ht Hc; [by injection Ht as <-|].
  apply Forall_cons in Hc as [Hr Hc]. simpl in Ht.
  destruct (render_cells cells widths "│" (λ v, v)) as [t'|]; [|done]. injection Ht as <-.
  change (sum_list_with (λ w, w + 3)%nat (w :: widths)) with (w + 3 + sum_list_with (λ w, w + 3)%nat widths)%nat.
  rewrite <-(IH t' eq_refl Hc), Hr. unfold cell_width in *.
  rewrite !chars_count_app, chars_count_pad by done. change (chars_count " ") with 1%nat. change (chars_count "│") with 1%nat. lia.
Qed.

(** ** The lines of a table *)

Lemma one_line_repeat s n : one_line s → one_line (str_repeat s n).
Proof. apply all_chars_repeat. Qed.
Lemma one_line_border widths l m r : one_line l → one_line m → one_line r → one_line (border widths l m r).
Proof.
  intros Hl Hm Hr. apply one_line_app; [done|]. induction widths as [|w [|w' ws] IH]; [done| |].
  - apply one_line_app; [by apply one_line_repeat|done].
  - change (border_cells (w :: w' :: ws) m r) with (str_repeat "─" (w + 2) ^+ m ^+ border_cells (w' :: ws) m r).
    apply one_line_app; [by apply one_line_repeat|by apply one_line_app].
Qed.
Lemma one_line_pad v w a n : one_line v → one_line (pad v w a n).
Proof. intros H. unfold pad. destruct a; repeat apply one_line_app; try done; by apply one_line_repeat. Qed.
Lemma one_line_row cells widths s :
  Forall (λ c, one_line (cell_rendered c)) cells → render_row cells widths "│" (λ v, v) = Some s → one_line s.
Proof.
  unfold render_row. intros Hc. destruct (render_cells cells widths "│" (λ v, v)) as [t|] eqn:Ht; [|done].
  intros [= <-]. apply one_line_app; [done|]. revert widths t Ht.
  induction Hc as [|c cells Hone Hc IH]; intros [|w widths] t Ht; simpl in Ht; simplify_eq; try done.
  destruct (render_cells cells widths "│" (λ v, v)) as [t'|] eqn:Ht'; [|done]. injection Ht as <-.
  repeat apply one_line_app; try done; [by apply one_line_pad|by eapply IH].
Qed.

Lemma newline_app x : newline ^+ x = String line_feed x.
Proof. done. Qed.
Lemma split_one_line s : one_line s → split_on line_feed s = [s].
Proof. intros H. destruct s as [|a s]; [done|]. by eapply all_chars_split; [|exact H|]. Qed.

(** The lines after the second border, which is [l]. *)
Lemma rows_lines rows widths body l last :
  Forall (λ row, fits row widths ∧ Forall (λ c, cell_rendered c = cell_plain c ∧ one_line (cell_plain c)) row) rows →
  render_rows rows widths = Some body → one_line l → one_line last →
  chars_count l = line_width widths → chars_count last = line_width widths →
  Forall (λ line, chars_count line = line_width widths) (split_on line_feed (l ^+ body ^+ newline ^+ last)).
Proof.
  intros Hrows. revert body l. induction Hrows as [|row rows [Hfit Hcells] Hrows IH]; intros body l Hbody Hl Hlast Wl Wlast.
  - injection Hbody as <-. change ("" ^+ newline ^+ last) with (String line_feed last).
    rewrite split_on_line by done. constructor; [done|]. rewrite split_one_line by done. by constructor.
  - simpl in Hbody. destruct (render_row row widths "│" (λ v, v)) as [line|] eqn:Hline; [|done]. simpl in Hbody.
    destruct (render_rows rows widths) as [rest|]; [|done]. injection Hbody as <-.
    change ((newline ^+ line ^+ rest) ^+ newline ^+ last) with (String line_feed ((line ^+ rest) ^+ newline ^+ last)).
    rewrite split_on_line by done. constructor; [done|]. rewrite string_app_assoc. apply IH; try done.
    + eapply one_line_row; [|done]. eapply Forall_impl; [done|]. by intros c [-> ?].
    + eapply row_width; [done| |done]. eapply Forall_impl; [done|]. by intros c [? _].
Qed.

Definition plain_cell (c : Cell) : Prop := cell_rendered c = cell_plain c ∧ one_line (cell_plain c).
Definition printable_cell (c : Cell) : Prop := faithful c ∧ one_line (cell_plain c).

Lemma plain_table_lines headers rows t :
  headers ≠ [] → Forall (λ row, length row = length headers) rows →
  Forall plain_cell headers → Forall (Forall plain_cell) rows → table (mkTheme false) headers rows = Some t →
  Forall (λ line, chars_count line = line_width (column_widths headers rows)) (split_on line_feed t).
Proof.
  intros Hne Hlen Hh Hr Ht. set (widths := column_widths headers rows).
  assert (Hw : widths ≠ []).
  { intros E. apply (f_equal length) in E. unfold widths in E. rewrite column_widths_length in E. by destruct headers. }
  assert (Hfit : ∀ row, row = headers ∨ row ∈ rows → fits row widths) by (intros; by apply fits_column_widths).
  unfold table in Ht. destruct headers as [|h hs]; [done|]. fold widths in Ht.
  change (subheading (mkTheme false)) with (λ v : string, v) in Ht.
  destruct (render_row (h :: hs) widths "│" (λ v, v)) as [header|] eqn:Hheader; [|done]. cbn [mbind option_bind] in Ht.
  destruct (render_rows rows widths) as [body|] eqn:Hbody; [|done]. injection Ht as <-.
  change (muted (mkTheme false) ?b) with b.
  rewrite newline_app, split_on_line by (by apply one_line_border). constructor; [by apply border_width|].
  rewrite newline_app, split_on_line.
  2:{ eapply one_line_row; [|done]. eapply Forall_impl; [exact Hh|]. by intros c [-> ?]. }
  constructor.
  { eapply row_width; [apply Hfit; by left| |done]. eapply Forall_impl; [exact Hh|]. by intros c [? _]. }
  apply (rows_lines rows widths body); try done; try by apply border_width.
  - apply Forall_forall. intros row Hrow. split; [apply Hfit; by right|]. exact (proj1 (Forall_forall _ _) Hr row Hrow).
  - by apply one_line_border.
  - by apply one_line_border.
Qed.

(** a table is rectangular on the screen, with colour or without: when every row has as many cells as the header and no cell holds a line
    feed or an escape sequence of its own, all lines show equally many characters. *)
Theorem table_rectangular theme headers rows t :
  headers ≠ [] → Forall (λ row, length row = length headers) rows →
  Forall printable_cell headers → Forall (Forall printable_cell) rows → table theme headers rows = Some t →
  Forall (λ line, chars_count line = line_width (column_widths headers rows)) (split_on line_feed (visible t)).
Proof.
  intros Hne Hlen Hh Hr Ht.
  assert (Hplain : ∀ cells, Forall printable_cell cells → Forall plain_cell (colourless <$> cells)).
  { intros cells H. apply Forall_fmap. eapply Forall_impl; [exact H|]. by intros c [_ ?]. }
  pose proof (table_colour_is_decoration theme headers rows) as Hshow. rewrite Ht in Hshow.
  destruct (table (mkTheme false) _ _) as [v|] eqn:Hv.
  - rewrite (shows_visible t v).
    + rewrite <-column_widths_colourless. eapply plain_table_lines; [| |by apply Hplain| |done].
      * by destruct headers.
      * apply Forall_fmap. eapply Forall_impl; [exact Hlen|]. intros row E. unfold colourless_row. simpl.
        by rewrite !length_fmap.
      * apply Forall_fmap. eapply Forall_impl; [exact Hr|]. intros row. apply Hplain.
    + apply Hshow; [|]; eapply Forall_impl; try done; [by intros c [? _]|].
      intros row Hrow. eapply Forall_impl; [exact Hrow|]. by intros c [? _].
  - exfalso. apply Hshow; eapply Forall_impl; try done; [by intros c [? _]|].
    intros row Hrow. eapply Forall_impl; [exact Hrow|]. by intros c [? _].
Qed.
