(* ===== verification/HelpPages.v ===== *)
(** * HelpPages: [src/sagens/args/help_pages/] and the renderer of [args/help.rs]

    The page of every topic and its text.  Every topic has a page, colour is
    decoration on all of them, and every example they show is a command line
    that the parser of [Cli.v] understands. *)

From S2P Require Import Prelude RustStd Text Ui FileSystem Cli.

Record PageSpec := mkPage {
  pg_title : string;
  pg_about : string;
  pg_badge : option string;
  pg_usage : list string;
  pg_commands : list (string * string);
  pg_examples : list string;
  pg_notes : list string;
}.

Definition quote : string := String (ascii_of_nat 34) "".

Definition cli_badge (theme : Theme) : option string := Some (badge theme "CLI" BsInfo).

(** ** The pages *)

Definition root_page (theme : Theme) : PageSpec := {|
  pg_title := "sagens";
  pg_about := "Local-first microVM sandboxes for agent workloads.";
  pg_badge := cli_badge theme;
  pg_usage := ["sagens <command> [args]";
      "sagens help <command>"];
  pg_commands := [("start", "Start the daemon and print endpoint/mode.");
      ("quit", "Gracefully stop the daemon if it is running.");
      ("update", "Download the latest release binary and replace this executable.");
      ("daemon", "Run the daemon in the foreground or inspect daemon logs.");
      ("admin", "Manage admin credentials.");
      ("image", "Build and manage local VM images.");
      ("box", "Create, inspect, configure, and operate BOXes.")];
  pg_examples := ["sagens start";
      "sagens update";
      "sagens box new";
      "sagens box start <UUID>";
      "sagens box exec <UUID> bash"];
  pg_notes := ["Use `--help` on any command path for focused help, examples, and aliases."];
|}.

Definition start_page (theme : Theme) : PageSpec := {|
  pg_title := "sagens start";
  pg_about := "Start the daemon in the background if needed and print connection details.";
  pg_badge := Some (badge theme "Daemon" BsSuccess);
  pg_usage := ["sagens start"];
  pg_commands := [];
  pg_examples := ["sagens start"];
  pg_notes := ["Bootstraps user config when missing and reuses a healthy daemon when possible."];
|}.

Definition quit_page (theme : Theme) : PageSpec := {|
  pg_title := "sagens quit";
  pg_about := "Stop the daemon through the BOX API control path.";
  pg_badge := Some (badge theme "Daemon" BsWarning);
  pg_usage := ["sagens quit"];
  pg_commands := [];
  pg_examples := ["sagens quit"];
  pg_notes := ["Falls back to terminating a stale recorded daemon if graceful shutdown fails."];
|}.

Definition update_page (theme : Theme) : PageSpec := {|
  pg_title := "sagens update";
  pg_about := "Download the latest GitHub release for this platform and replace the current executable.";
  pg_badge := Some (badge theme "Self-update" BsAccent);
  pg_usage := ["sagens update"];
  pg_commands := [];
  pg_examples := ["sagens update"];
  pg_notes := ["The release asset is selected automatically for linux/macos on x86_64/aarch64.";
      "Checksums are verified before the binary is staged and swapped into place.";
      "If a daemon is already running, restart it afterward so background work uses the new binary."];
|}.

Definition daemon_page (theme : Theme) : PageSpec := {|
  pg_title := "sagens daemon";
  pg_about := "Run the daemon in the foreground or inspect daemon logs.";
  pg_badge := Some (badge theme "Foreground" BsMuted);
  pg_usage := ["sagens daemon";
      "sagens daemon log [--tail LINES] [--follow]"];
  pg_commands := [("log", "Print the daemon log and optionally tail/follow it.")];
  pg_examples := ["sagens daemon";
      "sagens daemon log --tail 200 --follow"];
  pg_notes := ["Bare `sagens daemon` runs the control-plane process in the foreground.";
      "The log subcommand reads `daemon.log` from the resolved state directory."];
|}.

Definition daemon_log_page (theme : Theme) : PageSpec := {|
  pg_title := "sagens daemon log";
  pg_about := "Read and follow the daemon log for sandbox startup and runtime failures.";
  pg_badge := Some (badge theme "Logs" BsAccent);
  pg_usage := ["sagens daemon log [--tail LINES] [--follow]"];
  pg_commands := [];
  pg_examples := ["sagens daemon log";
      "sagens daemon log --tail 100";
      "sagens daemon log --tail 200 --follow"];
  pg_notes := ["When BOX startup fails, the daemon log records runner and guest console log paths.";
      "Use `--follow` to stream new daemon events while reproducing a flaky BOX start."];
|}.

Definition admin_page (theme : Theme) : PageSpec := {|
  pg_title := "sagens admin";
  pg_about := "Manage admin credentials for the local control plane.";
  pg_badge := Some (badge theme "Admin" BsInfo);
  pg_usage := ["sagens admin <command>"];
  pg_commands := [("add", "Issue a new admin credential bundle.");
      ("remove me", "Remove the active admin credential from the registry.")];
  pg_examples := ["sagens admin add";
      "sagens admin remove me"];
  pg_notes := ["Admin commands require a healthy daemon and an authenticated user config."];
|}.

Definition admin_add_page (theme : Theme) : PageSpec := {|
  pg_title := "sagens admin add";
  pg_about := "Issue a new admin credential bundle.";
  pg_badge := Some (badge theme "Admin" BsInfo);
  pg_usage := ["sagens admin add"];
  pg_commands := [];
  pg_examples := ["sagens admin add"];
  pg_notes := ["The command prints the new credential bundle with endpoint and token."];
|}.

Definition admin_remove_me_page (theme : Theme) : PageSpec := {|
  pg_title := "sagens admin remove me";
  pg_about := "Deactivate the current admin credential.";
  pg_badge := Some (badge theme "Admin" BsDanger);
  pg_usage := ["sagens admin remove me"];
  pg_commands := [];
  pg_examples := ["sagens admin remove me"];
  pg_notes := ["The registry refuses to remove the last active admin."];
|}.

Definition general_page_for (topic : HelpTopic) (theme : Theme) : option PageSpec :=
  match topic with
  | HtRoot => Some (root_page theme)
  | HtStart => Some (start_page theme)
  | HtQuit => Some (quit_page theme)
  | HtUpdate => Some (update_page theme)
  | HtDaemon => Some (daemon_page theme)
  | HtDaemonLog => Some (daemon_log_page theme)
  | HtAdmin => Some (admin_page theme)
  | HtAdminAdd => Some (admin_add_page theme)
  | HtAdminRemoveMe => Some (admin_remove_me_page theme)
  | _ => None
  end.

Definition image_page (theme : Theme) : PageSpec := {|
  pg_title := "sagens image";
  pg_about := "Build and manage local VM images with shared package caches.";
  pg_badge := Some (badge theme "Images" BsInfo);
  pg_usage := ["sagens image <command>"];
  pg_commands := [("build", "Build a named image from APK, pip, and npm inputs.");
      ("list", "List locally built images.");
      ("inspect", "Show image metadata.");
      ("rm", "Remove a local image.")];
  pg_examples := ["sagens image build chromium --apk chromium";
      "sagens image list";
      "sagens image inspect chromium";
      "sagens image rm chromium"];
  pg_notes := ["Images are stored under the resolved state directory and can be used with `sagens box new --image NAME`."];
|}.

Definition image_build_page (theme : Theme) : PageSpec := {|
  pg_title := "sagens image build";
  pg_about := "Build a named VM image and read-only package cache disk.";
  pg_badge := Some (badge theme "Build" BsSuccess);
  pg_usage := ["sagens image build <NAME> [--apk PKG]... [--pip REQ]... [--npm PKG]... [--min-image-mib N] [--force-refresh]"];
  pg_commands := [];
  pg_examples := ["sagens image build chromium --apk chromium";
      "sagens image build pydeps --pip packaging==25.0";
      "sagens image build nodedeps --npm is-number@7.0.0"];
  pg_notes := ["The image rootfs contains APK packages; pip and npm caches are mounted read-only at `/opt/sagens-cache`."];
|}.

Definition image_list_page (theme : Theme) : PageSpec := {|
  pg_title := "sagens image list";
  pg_about := "List locally built VM images.";
  pg_badge := Some (badge theme "Read-only" BsSuccess);
  pg_usage := ["sagens image list"];
  pg_commands := [];
  pg_examples := ["sagens image list"];
  pg_notes := [];
|}.

Definition image_inspect_page (theme : Theme) : PageSpec := {|
  pg_title := "sagens image inspect";
  pg_about := "Show metadata for a local VM image.";
  pg_badge := Some (badge theme "Read-only" BsSuccess);
  pg_usage := ["sagens image inspect <NAME>"];
  pg_commands := [];
  pg_examples := ["sagens image inspect chromium"];
  pg_notes := [];
|}.

Definition image_remove_page (theme : Theme) : PageSpec := {|
  pg_title := "sagens image rm";
  pg_about := "Remove a local VM image.";
  pg_badge := Some (badge theme "Destructive" BsDanger);
  pg_usage := ["sagens image rm <NAME>"];
  pg_commands := [];
  pg_examples := ["sagens image rm chromium"];
  pg_notes := ["The reserved `base` image cannot be removed."];
|}.

Definition image_page_for (topic : HelpTopic) (theme : Theme) : option PageSpec :=
  match topic with
  | HtImage => Some (image_page theme)
  | HtImageBuild => Some (image_build_page theme)
  | HtImageList => Some (image_list_page theme)
  | HtImageInspect => Some (image_inspect_page theme)
  | HtImageRemove => Some (image_remove_page theme)
  | _ => None
  end.

Definition box_page (theme : Theme) : PageSpec := {|
  pg_title := "sagens box";
  pg_about := "Operate and configure durable BOX workspaces.";
  pg_badge := Some (badge theme "BOX" BsInfo);
  pg_usage := ["sagens box <command>"];
  pg_commands := [("list | ps", "List BOXes with runtime settings and status.");
      ("new", "Create a new BOX, optionally from a named image.");
      ("start", "Start a BOX runtime.");
      ("stop", "Stop a BOX runtime.");
      ("rm", "Remove a BOX and its workspace.");
      ("set", "Change per-BOX runtime settings.");
      ("exec", "Run bash or python in a BOX.");
      ("fs", "List, upload, and download workspace files.");
      ("checkpoint", "Manage workspace checkpoints.")];
  pg_examples := ["sagens box new --image chromium";
      "sagens box start <UUID>";
      "sagens box exec <UUID> bash";
      "sagens box set <UUID> fs_size_mib 2GiB"];
  pg_notes := ["The short `box set <setting> <value>` form auto-targets the only BOX when exactly one exists."];
|}.

Definition box_list_page (theme : Theme) : PageSpec := {|
  pg_title := "sagens box list";
  pg_about := "List BOXes with live runtime usage and configured limits.";
  pg_badge := Some (badge theme "Read-only" BsSuccess);
  pg_usage := ["sagens box list";
      "sagens box ps"];
  pg_commands := [];
  pg_examples := ["sagens box list";
      "sagens box ps"];
  pg_notes := ["CPU, RAM, FS size, and process count are shown as `live / configured` while the BOX is running.";
      "Stopped BOXes show `0 / configured`, and `NET` shows only the BOX network setting."];
|}.

Definition box_new_page (theme : Theme) : PageSpec := {|
  pg_title := "sagens box new";
  pg_about := "Create a new BOX workspace.";
  pg_badge := Some (badge theme "Create" BsSuccess);
  pg_usage := ["sagens box new [--image NAME]"];
  pg_commands := [];
  pg_examples := ["sagens box new";
      "sagens box new --image chromium"];
  pg_notes := ["New BOXes inherit runtime defaults, host-aware maximum caps, and the selected immutable image."];
|}.

Definition box_start_page (theme : Theme) : PageSpec := {|
  pg_title := "sagens box start";
  pg_about := "Start a BOX runtime.";
  pg_badge := Some (badge theme "Runtime" BsSuccess);
  pg_usage := ["sagens box start <BOX_ID>"];
  pg_commands := [];
  pg_examples := ["sagens box start <BOX_ID>"];
  pg_notes := ["The BOX runtime is ephemeral; the workspace stays durable across stops."];
|}.

Definition box_stop_page (theme : Theme) : PageSpec := {|
  pg_title := "sagens box stop";
  pg_about := "Stop a BOX runtime without deleting its workspace.";
  pg_badge := Some (badge theme "Runtime" BsWarning);
  pg_usage := ["sagens box stop <BOX_ID>"];
  pg_commands := [];
  pg_examples := ["sagens box stop <BOX_ID>"];
  pg_notes := ["Stop the BOX before changing CPU, RAM, FS size, process count, or network settings."];
|}.

Definition box_remove_page (theme : Theme) : PageSpec := {|
  pg_title := "sagens box rm";
  pg_about := "Remove a BOX and its workspace state.";
  pg_badge := Some (badge theme "Destructive" BsDanger);
  pg_usage := ["sagens box rm <BOX_ID>"];
  pg_commands := [];
  pg_examples := ["sagens box rm <BOX_ID>"];
  pg_notes := ["Removes the persistent workspace and checkpoint lineage after stopping the runtime."];
|}.

Definition box_set_page (theme : Theme) : PageSpec := {|
  pg_title := "sagens box set";
  pg_about := "Update per-BOX runtime settings.";
  pg_badge := Some (badge theme "Settings" BsInfo);
  pg_usage := ["sagens box set <BOX_ID> <setting> <value>";
      "sagens box set <setting> <value>"];
  pg_commands := [("cpu_cores", "Set CPU cores for the BOX runtime.");
      ("memory_mb", "Set RAM in MiB. Accepts MiB/GiB suffixes.");
      ("fs_size_mib", "Resize the persistent workspace disk.");
      ("max_processes", "Set the process-count ceiling.");
      ("network_enabled", "Enable or disable networking when allowed.")];
  pg_examples := ["sagens box set <BOX_ID> cpu_cores 4";
      "sagens box set memory_mb 2GiB";
      "sagens box set <BOX_ID> fs_size_mib 1536";
      "sagens box set <BOX_ID> network_enabled false"];
  pg_notes := ["The short form without `BOX_ID` works only when exactly one BOX exists.";
      "BOXes must be stopped before settings can be changed."];
|}.

Definition box_exec_page (theme : Theme) : PageSpec := {|
  pg_title := "sagens box exec";
  pg_about := "Run bash or python in a BOX.";
  pg_badge := Some (badge theme "Exec" BsAccent);
  pg_usage := ["sagens box exec <BOX_ID> bash <command...>";
      "sagens box exec <BOX_ID> python <args...>";
      "sagens box exec -i <BOX_ID> bash"];
  pg_commands := [];
  pg_examples := ["sagens box exec <BOX_ID> bash " ^+ quote ^+ "echo hello" ^+ quote;
      "sagens box exec <BOX_ID> python -c " ^+ quote ^+ "print('hi')" ^+ quote;
      "sagens box exec -i <BOX_ID> bash"];
  pg_notes := ["BOX must already be running; use `sagens box start <BOX_ID>` first.";
      "Interactive mode opens a real shell when `bash` or `python` is used without trailing arguments."];
|}.

Definition box_fs_page (theme : Theme) : PageSpec := {|
  pg_title := "sagens box fs";
  pg_about := "Inspect and move files in the BOX workspace.";
  pg_badge := Some (badge theme "Filesystem" BsInfo);
  pg_usage := ["sagens box fs <BOX_ID> <command>"];
  pg_commands := [("ls", "List files under a path.");
      ("upload", "Upload a local file or directory.");
      ("download", "Download a file or directory.")];
  pg_examples := ["sagens box fs <BOX_ID> ls /workspace";
      "sagens box fs <BOX_ID> upload ./local ./workspace/local";
      "sagens box fs <BOX_ID> download /workspace/out ./out"];
  pg_notes := ["BOX must already be running; use `sagens box start <BOX_ID>` first."];
|}.

Definition box_fs_list_page (theme : Theme) : PageSpec := {|
  pg_title := "sagens box fs ls";
  pg_about := "List files under a workspace path.";
  pg_badge := Some (badge theme "Filesystem" BsInfo);
  pg_usage := ["sagens box fs <BOX_ID> ls [PATH]"];
  pg_commands := [];
  pg_examples := ["sagens box fs <BOX_ID> ls";
      "sagens box fs <BOX_ID> ls /workspace/src"];
  pg_notes := ["Defaults to `/workspace` when no path is provided."];
|}.

Definition box_fs_upload_page (theme : Theme) : PageSpec := {|
  pg_title := "sagens box fs upload";
  pg_about := "Upload a file or directory into the workspace.";
  pg_badge := Some (badge theme "Filesystem" BsSuccess);
  pg_usage := ["sagens box fs <BOX_ID> upload <LOCAL_PATH> <REMOTE_PATH>"];
  pg_commands := [];
  pg_examples := ["sagens box fs <BOX_ID> upload ./dist /workspace/dist"];
  pg_notes := ["Directories are created recursively when needed."];
|}.

Definition box_fs_download_page (theme : Theme) : PageSpec := {|
  pg_title := "sagens box fs download";
  pg_about := "Download a file or directory from the workspace.";
  pg_badge := Some (badge theme "Filesystem" BsSuccess);
  pg_usage := ["sagens box fs <BOX_ID> download <REMOTE_PATH> <LOCAL_PATH>"];
  pg_commands := [];
  pg_examples := ["sagens box fs <BOX_ID> download /workspace/build ./build"];
  pg_notes := ["Directory downloads recreate the remote tree under the local target path."];
|}.

Definition box_checkpoint_page (theme : Theme) : PageSpec := {|
  pg_title := "sagens box checkpoint";
  pg_about := "Manage checkpoint lineage for a BOX workspace.";
  pg_badge := Some (badge theme "Checkpoint" BsAccent);
  pg_usage := ["sagens box checkpoint <command> <BOX_ID> ..."];
  pg_commands := [("create", "Create a checkpoint.");
      ("list", "List checkpoints.");
      ("restore", "Restore a checkpoint.");
      ("fork", "Create a new BOX from a checkpoint.");
      ("delete", "Delete a checkpoint.")];
  pg_examples := ["sagens box checkpoint create <BOX_ID> --name baseline";
      "sagens box checkpoint list <BOX_ID>";
      "sagens box checkpoint restore <BOX_ID> <CHECKPOINT_ID> --mode replace"];
  pg_notes := ["Checkpoint storage is product-level and intentionally hides storage backend details."];
|}.

Definition box_checkpoint_create_page (theme : Theme) : PageSpec := {|
  pg_title := "sagens box checkpoint create";
  pg_about := "Create a checkpoint for the BOX workspace.";
  pg_badge := Some (badge theme "Checkpoint" BsSuccess);
  pg_usage := ["sagens box checkpoint create <BOX_ID> [--name NAME] [--meta KEY=VALUE]..."];
  pg_commands := [];
  pg_examples := ["sagens box checkpoint create <BOX_ID> --name before-upgrade --meta env=dev"];
  pg_notes := ["Metadata is stored as string key/value pairs."];
|}.

Definition box_checkpoint_list_page (theme : Theme) : PageSpec := {|
  pg_title := "sagens box checkpoint list";
  pg_about := "List checkpoints for a BOX.";
  pg_badge := Some (badge theme "Checkpoint" BsInfo);
  pg_usage := ["sagens box checkpoint list <BOX_ID>"];
  pg_commands := [];
  pg_examples := ["sagens box checkpoint list <BOX_ID>"];
  pg_notes := ["The table includes checkpoint id, name, timestamp, and metadata."];
|}.

Definition box_checkpoint_restore_page (theme : Theme) : PageSpec := {|
  pg_title := "sagens box checkpoint restore";
  pg_about := "Restore a checkpoint into the BOX workspace.";
  pg_badge := Some (badge theme "Checkpoint" BsWarning);
  pg_usage := ["sagens box checkpoint restore <BOX_ID> <CHECKPOINT_ID> [--mode rollback|replace]"];
  pg_commands := [];
  pg_examples := ["sagens box checkpoint restore <BOX_ID> <CHECKPOINT_ID>";
      "sagens box checkpoint restore <BOX_ID> <CHECKPOINT_ID> --mode replace"];
  pg_notes := ["When the BOX is running, the runtime is stopped before restore and restarted afterward."];
|}.

Definition box_checkpoint_fork_page (theme : Theme) : PageSpec := {|
  pg_title := "sagens box checkpoint fork";
  pg_about := "Create a new BOX from a checkpoint snapshot.";
  pg_badge := Some (badge theme "Checkpoint" BsSuccess);
  pg_usage := ["sagens box checkpoint fork <BOX_ID> <CHECKPOINT_ID> [--name NAME]"];
  pg_commands := [];
  pg_examples := ["sagens box checkpoint fork <BOX_ID> <CHECKPOINT_ID> --name sandbox-copy"];
  pg_notes := ["The forked BOX inherits the source BOX settings and starts a fresh checkpoint lineage."];
|}.

Definition box_checkpoint_delete_page (theme : Theme) : PageSpec := {|
  pg_title := "sagens box checkpoint delete";
  pg_about := "Delete a checkpoint from lineage.";
  pg_badge := Some (badge theme "Checkpoint" BsDanger);
  pg_usage := ["sagens box checkpoint delete <BOX_ID> <CHECKPOINT_ID>"];
  pg_commands := [];
  pg_examples := ["sagens box checkpoint delete <BOX_ID> <CHECKPOINT_ID>"];
  pg_notes := ["If the deleted checkpoint was the head, lineage head moves to its source checkpoint."];
|}.

Definition box_page_for (topic : HelpTopic) (theme : Theme) : option PageSpec :=
  match topic with
  | HtBox => Some (box_page theme)
  | HtBoxList => Some (box_list_page theme)
  | HtBoxNew => Some (box_new_page theme)
  | HtBoxStart => Some (box_start_page theme)
  | HtBoxStop => Some (box_stop_page theme)
  | HtBoxRemove => Some (box_remove_page theme)
  | HtBoxSet => Some (box_set_page theme)
  | HtBoxExec => Some (box_exec_page theme)
  | HtBoxFs => Some (box_fs_page theme)
  | HtBoxFsList => Some (box_fs_list_page theme)
  | HtBoxFsUpload => Some (box_fs_upload_page theme)
  | HtBoxFsDownload => Some (box_fs_download_page theme)
  | HtBoxCheckpoint => Some (box_checkpoint_page theme)
  | HtBoxCheckpointCreate => Some (box_checkpoint_create_page theme)
  | HtBoxCheckpointList => Some (box_checkpoint_list_page theme)
  | HtBoxCheckpointRestore => Some (box_checkpoint_restore_page theme)
  | HtBoxCheckpointFork => Some (box_checkpoint_fork_page theme)
  | HtBoxCheckpointDelete => Some (box_checkpoint_delete_page theme)
  | _ => None
  end.

(** [None] is the [unreachable!] of the last resort. *)
Definition page_for (topic : HelpTopic) (theme : Theme) : option PageSpec :=
  match general_page_for topic theme with
  | Some page => Some page
  | None =>
      match image_page_for topic theme with
      | Some page => Some page
      | None => box_page_for topic theme
      end
  end.

(** ** Their text *)

Definition concat_map {A} (f : A → string) (l : list A) : string := foldr (λ x s, f x ^+ s) "" l.

(** A section with its heading, left out when it has no lines. *)
Definition page_section {A} (theme : Theme) (name : string) (line : A → string) (lines : list A) : string :=
  if decide (length lines = 0%nat) then ""
  else newline ^+ heading theme name ^+ newline ^+ concat_map line lines.

Definition render_page (theme : Theme) (page : PageSpec) : string :=
  trim_end
    (title theme (pg_title page) ^+
     (match pg_badge page with Some badge => " " ^+ badge | None => "" end) ^+ newline ^+
     muted theme (pg_about page) ^+ newline ^+ newline ^+
     heading theme "Usage" ^+ newline ^+
     concat_map (λ line, "  " ^+ code_text theme line ^+ newline) (pg_usage page) ^+
     page_section theme "Commands" (λ '(name, description), "  " ^+ subheading theme name ^+ "  " ^+ description ^+ newline)
       (pg_commands page) ^+
     page_section theme "Examples" (λ example, "  " ^+ code_text theme example ^+ newline) (pg_examples page) ^+
     page_section theme "Notes" (λ note, "  • " ^+ note ^+ newline) (pg_notes page)).

Definition render_help (theme : Theme) (topic : HelpTopic) : option string :=
  render_page theme <$> page_for topic theme.

(** ** Every topic is explained *)

(** no topic reaches the [unreachable!] at the end of the search for its page *)
Lemma every_topic_has_page topic theme : is_Some (page_for topic theme).
Proof. by destruct topic; eexists. Qed.

(** On a terminal a page shows what it holds without colour. *)
Lemma help_colour_is_decoration topic theme :
  visible <$> render_help theme topic = render_help (mkTheme false) topic.
Proof. destruct theme as [[]], topic; vm_compute; reflexivity. Qed.

(** ** Every example works *)

(** The words a shell makes of an example: cut at spaces, a text between double
    quotes is one word. *)
Fixpoint shell_go (s word : string) (quoted : bool) : list string :=
  match s with
  | EmptyString => if decide (word = "") then [] else [string_rev word]
  | String a s' =>
      if Ascii.eqb a (ascii_of_nat 34) then shell_go s' word (negb quoted)
      else if Ascii.eqb a " " && negb quoted then
        (if decide (word = "") then [] else [string_rev word]) ++ shell_go s' "" quoted
      else shell_go s' (String a word) quoted
  end.
Definition shell_words (s : string) : list string := shell_go s "" false.

(** The user writes an identifier in the place of a BOX. *)
Definition fill_in (id word : string) : string :=
  if decide (word = "<BOX_ID>" ∨ word = "<UUID>") then id else word.
Definition typed_example (id example : string) : list string :=
  match shell_words example with
  | program :: args => if decide (program = "sagens") then fill_in id <$> args else ["help"]
  | [] => ["help"]
  end.
Definition sample_id : string := "8d6e6c1c-0f5e-4b43-9a53-0d8f6c1c2b11".

Definition all_topics : list HelpTopic :=
  [HtRoot; HtStart; HtQuit; HtUpdate; HtDaemon; HtDaemonLog; HtAdmin; HtAdminAdd; HtAdminRemoveMe; HtBox; HtBoxList;
   HtBoxNew; HtImage; HtImageBuild; HtImageList; HtImageInspect; HtImageRemove; HtBoxStart; HtBoxStop; HtBoxRemove;
   HtBoxSet; HtBoxExec; HtBoxFs; HtBoxFsList; HtBoxFsUpload; HtBoxFsDownload; HtBoxCheckpoint; HtBoxCheckpointCreate;
   HtBoxCheckpointList; HtBoxCheckpointRestore; HtBoxCheckpointFork; HtBoxCheckpointDelete].
Definition examples_of (topic : HelpTopic) : list string :=
  match page_for topic (mkTheme false) with Some page => pg_examples page | None => [] end.

Lemma examples_theme topic theme page : page_for topic theme = Some page → pg_examples page = examples_of topic.
Proof. destruct topic; intros [= <-]; reflexivity. Qed.

Section examples.
Context `{!Platform} (uuid_error : string → string).

(** A command other than the help itself. *)
Definition acts (r : Result SandboxError Command) : Prop :=
  match r with Ok (CmdHelp _) | Err _ => False | Ok _ => True end.

(** the help does not lie: every example of every page, with the identifier of a BOX filled in, is a command line the parser accepts as a command. *)
Theorem help_examples_parse b topic theme page example :
  uuid_parse sample_id = Some b → page_for topic theme = Some page → example ∈ pg_examples page →
  acts (parse uuid_error (typed_example sample_id example)).
Proof.
  intros Hb Hpage. rewrite (examples_theme _ _ _ Hpage). revert example. apply Forall_forall.
  unfold sample_id in Hb. destruct topic;
    match goal with |- Forall _ ?l => let l' := eval vm_compute in l in change l with l' end;
    repeat match goal with |- Forall _ [] => apply Forall_nil_2 | |- Forall _ (_ :: _) => apply Forall_cons_2 end;
    match goal with |- acts (parse _ ?w) => let w' := eval vm_compute in w in change w with w' end;
    lazy head beta iota zeta delta -[uuid_parse]; try rewrite Hb; vm_compute; exact I.
Qed.
End examples.
