(* ===== verification/Terminal.v ===== *)
(** * Terminal: [src/sagens/output.rs] and [src/sagens/output/]

    The text each command prints.  [print_text] is the text of every call of
    [App.Output]; [None] would be a panic.  Nothing panics, colour changes nothing of
    what is shown, and sizes are shown rounded to the nearest tenth. *)

From S2P Require Import Prelude RustStd Text Paths FileSystem PrivateFs Auth Manifest Config Lineage Workspace Images BoxStore HostConfig Cli Update Transfer Launcher App Ui HelpPages.

(** ** Numbers *)

(** [a / b] to the nearest integer, ties to even, for positive [b]. *)
Definition half_even (a b : Z) : Z :=
  let q := (a / b)%Z in
  let r := (a mod b)%Z in
  if (2 * r <? b)%Z then q
  else if (b <? 2 * r)%Z then (q + 1)%Z
  else if Z.even q then q else (q + 1)%Z.

(** [value as f64]: an integer of 53 significant bits. *)
Definition f64_of_u64 (value : Z) : Z :=
  if (value <? 2 ^ 53)%Z then value
  else let ulp := (2 ^ (Z.log2 value - 52))%Z in (half_even value ulp * ulp)%Z.

(** The tenths of a float divided by a power of two (the quotient is exact), and
    [{:.1}] of it. *)
Definition tenths (value unit : Z) : Z := half_even (10 * f64_of_u64 value) unit.
Definition fixed1 (value unit : Z) : string :=
  let t := tenths value unit in pretty (t / 10)%Z ^+ "." ^+ pretty (t mod 10)%Z.

(** ** [output/format.rs] *)

Definition format_bool (value : bool) : string := if value then "on" else "off".
Definition format_box_network_setting (setting : BoxBooleanSetting) : string := format_bool (bo_current setting).

Inductive Unit := UCount | UMemory | UStorage.

Definition format_size_mib (value : Z) : string :=
  if (1024 <=? value)%Z && (value mod 1024 =? 0)%Z then pretty (value / 1024)%Z ^+ "GiB"
  else if (1024 <=? value)%Z then fixed1 value 1024 ^+ "GiB"
  else pretty value ^+ "MiB".

Definition format_bytes (value : Z) : string :=
  if (1024 * 1024 * 1024 <=? value)%Z then fixed1 value (1024 * 1024 * 1024) ^+ " GiB"
  else if (1024 * 1024 <=? value)%Z then fixed1 value (1024 * 1024) ^+ " MiB"
  else if (1024 <=? value)%Z then fixed1 value 1024 ^+ " KiB"
  else pretty value ^+ " B".

Definition format_numeric_value (value : Z) (unit : Unit) : string :=
  match unit with UCount => pretty value | UMemory | UStorage => format_size_mib value end.

(** [{:02}] *)
Definition two_digits (n : Z) : string := if (n <? 10)%Z then "0" ^+ pretty n else pretty n.
Definition format_cpu_millicores (value : Z) : string :=
  let hundredths := (saturating_add u32_max value 5 / 10)%Z in
  let whole := (hundredths / 100)%Z in
  let fraction := (hundredths mod 100)%Z in
  if (fraction =? 0)%Z then pretty whole
  else if (fraction mod 10 =? 0)%Z then pretty whole ^+ "." ^+ pretty (fraction / 10)%Z
  else pretty whole ^+ "." ^+ two_digits fraction.

Definition current_runtime_usage (r : BoxRecord) : option BoxRuntimeUsage :=
  if decide (bx_status r = BRunning) then bx_runtime_usage r else None.

Definition dash : string := "—".

Definition format_box_cpu_setting (r : BoxRecord) (settings : BoxSettings) : string :=
  let current :=
    match current_runtime_usage r with
    | Some runtime => format_cpu_millicores (ru_cpu_millicores runtime)
    | None => if decide (bx_status r = BRunning) then dash else "0"
    end in
  current ^+ " / " ^+ pretty (ns_current (set_cpu_cores settings)).

Definition format_box_usage_value (r : BoxRecord) (configured_value : Z) (unit : Unit)
    (runtime_value : BoxRuntimeUsage → Z) : string :=
  let max := format_numeric_value configured_value unit in
  let current :=
    match current_runtime_usage r with
    | Some runtime => format_numeric_value (runtime_value runtime) unit
    | None => if decide (bx_status r = BRunning) then dash else format_numeric_value 0 unit
    end in
  current ^+ " / " ^+ max.
Definition format_box_memory_setting (r : BoxRecord) (settings : BoxSettings) : string :=
  format_box_usage_value r (ns_current (set_memory_mb settings)) UMemory ru_memory_used_mib.
Definition format_box_fs_setting (r : BoxRecord) (settings : BoxSettings) : string :=
  format_box_usage_value r (ns_current (set_fs_size_mib settings)) UStorage ru_fs_used_mib.
Definition format_box_process_setting (r : BoxRecord) (settings : BoxSettings) : string :=
  format_box_usage_value r (ns_current (set_max_processes settings)) UCount ru_process_count.

(** ** [output/cells.rs] *)

Definition styled_status_cell (theme : Theme) (status : BoxStatus) : Cell :=
  let '(label, badge_style) :=
    match status with
    | BCreated => ("CREATED", BsInfo)
    | BRunning => ("RUNNING", BsSuccess)
    | BStopped => ("STOPPED", BsWarning)
    | BFailed => ("FAILED", BsDanger)
    | BRemoving => ("REMOVING", BsMuted)
    end in
  mkCell label (badge theme label badge_style) ACenter.

Definition styled_kind_cell (theme : Theme) (kind : FileKind) : Cell :=
  let '(label, style) :=
    match kind with
    | FkFile => ("FILE", BsInfo)
    | FkDirectory => ("DIR", BsSuccess)
    | FkSymlink => ("LINK", BsAccent)
    end in
  mkCell label (badge theme label style) ACenter.

Definition isolation_mode_label (mode : IsolationMode) : string :=
  match mode with Compat => "compat" | Secure => "secure" end.

(** ** [output.rs] *)

(** [println!] *)
Definition line (s : string) : string := s ^+ newline.
Definition println_table (theme : Theme) (headers : list Cell) (rows : list (list Cell)) : option string :=
  line <$> table theme headers rows.

(** A cell with the text in the colour of code. *)
Definition code_cell (theme : Theme) (value : string) : Cell := mkCell value (code_text theme value) ALeft.

Definition print_start_message (theme : Theme) (endpoint : string) (already_running : bool) (mode : IsolationMode) : string :=
  let badge := if already_running then badge theme "already running" BsWarning else badge theme "started" BsSuccess in
  line (title theme "sagens daemon" ^+ " " ^+ badge ^+ "  " ^+ code_text theme endpoint ^+ "  " ^+
        dim theme ("mode=" ^+ isolation_mode_label mode)).

Definition print_quit_message (theme : Theme) (was_running : bool) : string :=
  let badge := if was_running then badge theme "stopped" BsWarning else badge theme "already stopped" BsMuted in
  line (title theme "sagens daemon" ^+ " " ^+ badge).

Definition update_detail (outcome : SelfUpdateOutcome) : string :=
  "release=" ^+ out_release_tag outcome ^+ "  platform=" ^+ out_platform outcome ^+ "  binary=" ^+ display (out_executable_path outcome).
Definition print_update_message (theme : Theme) (outcome : SelfUpdateOutcome) : string :=
  let '(badge, detail) :=
    match out_action outcome with
    | AlreadyCurrent => (badge theme "already latest" BsMuted, dim theme (update_detail outcome))
    | Updated => (badge theme "updated" BsSuccess, dim theme (update_detail outcome))
    end in
  line (title theme "sagens update" ^+ " " ^+ badge) ^+
  line detail ^+
  match out_action outcome with
  | Updated => line (muted theme "Restart a running daemon if you want background work to use the new binary.")
  | AlreadyCurrent => ""
  end.

(** [{n} total] in the badge of a listing. *)
Definition count_badge (theme : Theme) (n : nat) (what : string) (style : BadgeStyle) : string :=
  badge theme (pretty (Z.of_nat n) ^+ what) style.

Definition joined (values : list string) : string := String.concat ", " values.

Definition manifest_rows (manifest : VmImageManifest) : list (list Cell) :=
  [[Cell_plain "Name"; Cell_plain (im_name manifest)];
   [Cell_plain "Arch"; Cell_plain (im_arch manifest)];
   [Cell_plain "Alpine"; Cell_plain (im_alpine_version manifest)];
   [Cell_plain "APK"; Cell_plain (joined (im_apk manifest))];
   [Cell_plain "PIP"; Cell_plain (joined (im_pip manifest))];
   [Cell_plain "NPM"; Cell_plain (joined (im_npm manifest))];
   [Cell_plain "Packages"; Cell_plain (pretty (im_package_count manifest))];
   [Cell_plain "Rootfs"; Cell_plain (im_rootfs_image manifest)];
   [Cell_plain "Cache"; Cell_plain (default "none" (im_cache_image manifest))]].
Definition print_image_manifest_table (theme : Theme) (manifest : VmImageManifest) : option string :=
  t ← println_table theme [Cell_plain "Field"; Cell_plain "Value"] (manifest_rows manifest);
  Some (line "" ^+ t).

Definition print_image_built (theme : Theme) (manifest : VmImageManifest) : option string :=
  t ← print_image_manifest_table theme manifest;
  Some (line (title theme "Image" ^+ " " ^+ badge theme "built" BsSuccess ^+ " " ^+ code_text theme (im_name manifest)) ^+ t).
Definition print_image_inspect (theme : Theme) (manifest : VmImageManifest) : option string :=
  t ← print_image_manifest_table theme manifest;
  Some (line (title theme "Image" ^+ " " ^+ code_text theme (im_name manifest)) ^+ t).

Definition image_row (theme : Theme) (image : VmImageManifest) : list Cell :=
  [code_cell theme (im_name image); Cell_plain (im_arch image); Cell_plain (joined (im_apk image));
   Cell_plain (joined (im_pip image)); Cell_plain (joined (im_npm image))].
Definition print_image_list (theme : Theme) (images : list VmImageManifest) : option string :=
  let head := line (title theme "Image inventory" ^+ " " ^+ count_badge theme (length images) " total" BsInfo) ^+ line "" in
  if decide (length images = 0%nat)
  then Some (head ^+ line (dim theme "No images found. Build one with `sagens image build <name>`."))
  else
    t ← println_table theme
          [Cell_plain "IMAGE"; Cell_plain "ARCH"; Cell_plain "APK"; Cell_plain "PIP"; Cell_plain "NPM"]
          (image_row theme <$> images);
    Some (head ^+ t).

Definition print_image_removed (theme : Theme) (name : string) : string :=
  line (title theme "Image" ^+ " " ^+ badge theme "removed" BsDanger ^+ " " ^+ code_text theme name).

(** ** [output/lists.rs] *)

Definition print_checkpoint (action : string) (style : BadgeStyle) (theme : Theme) (checkpoint_id : string) : string :=
  line (title theme "checkpoint" ^+ " " ^+ badge theme action style ^+ " " ^+ code_text theme checkpoint_id).
Definition print_checkpoint_id : Theme → string → string := print_checkpoint "created" BsSuccess.
Definition print_checkpoint_restore_ok : Theme → string → string := print_checkpoint "restored" BsWarning.
Definition print_checkpoint_delete_ok : Theme → string → string := print_checkpoint "deleted" BsDanger.

Definition print_admin_removed (theme : Theme) : string :=
  line (title theme "admin" ^+ " " ^+ badge theme "removed" BsDanger).

Definition file_row (theme : Theme) (entry : FileNode) : list Cell :=
  [styled_kind_cell theme (fn_kind entry); Cell_plain (fn_path entry); Cell_right (format_bytes (fn_size entry))].
Definition print_files (theme : Theme) (entries : list FileNode) : option string :=
  let head := line (title theme "Workspace files" ^+ " " ^+ count_badge theme (length entries) " entries" BsInfo) ^+ line "" in
  if decide (length entries = 0%nat)
  then Some (head ^+ line (dim theme "No files matched the requested path."))
  else
    t ← println_table theme [Cell_plain "TYPE"; Cell_plain "PATH"; Cell_plain "SIZE"] (file_row theme <$> entries);
    Some (head ^+ t).

Section terminal.
Context `{!Platform, !Serde (gmap string string)}.

(** [serde_json::to_string], the compact text. *)
Definition metadata_text (metadata : gmap string string) : string :=
  match to_vec metadata with Ok b => String.string_of_list_byte b | Err _ => "{}" end.

Definition checkpoint_row (theme : Theme) (checkpoint : WorkspaceCheckpointRecord) : list Cell :=
  let summary := cr_summary checkpoint in
  [code_cell theme (cs_checkpoint_id summary);
   Cell_plain (default dash (cs_name summary));
   Cell_right (pretty (cs_created_at_ms summary));
   Cell_plain (metadata_text (cs_metadata summary))].
Definition print_checkpoints (theme : Theme) (checkpoints : list WorkspaceCheckpointRecord) : option string :=
  let head := line (title theme "Checkpoint lineage" ^+ " " ^+ count_badge theme (length checkpoints) " total" BsAccent) ^+ line "" in
  if decide (length checkpoints = 0%nat) then Some (head ^+ line (dim theme "No checkpoints found."))
  else
    t ← println_table theme
          [Cell_plain "CHECKPOINT"; Cell_plain "NAME"; Cell_plain "CREATED_MS"; Cell_plain "METADATA"]
          (checkpoint_row theme <$> checkpoints);
    Some (head ^+ t).

Definition admin_rows (theme : Theme) (bundle : AdminCredentialBundle) : list (list Cell) :=
  [[Cell_plain "Admin UUID"; code_cell theme (uuid_to_string (ab_admin_uuid bundle))];
   [Cell_plain "Admin token"; code_cell theme (ab_admin_token bundle)];
   [Cell_plain "Endpoint"; code_cell theme (ab_endpoint bundle)]].
Definition print_admin_bundle (theme : Theme) (bundle : AdminCredentialBundle) : option string :=
  let head := line (title theme "admin" ^+ " " ^+ badge theme "added" BsSuccess) ^+ line "" in
  t ← println_table theme [Cell_plain "Field"; Cell_plain "Value"] (admin_rows theme bundle);
  Some (head ^+ t).

Definition box_fields (theme : Theme) (r : BoxRecord) : list (list Cell) :=
  let settings := bx_settings r in
  [[Cell_plain "BOX ID"; code_cell theme (uuid_to_string (bx_box_id r))];
   [Cell_plain "Name"; Cell_plain (default dash (bx_name r))];
   [Cell_plain "Status"; styled_status_cell theme (bx_status r)];
   [Cell_plain "Image"; Cell_plain (bx_image r)];
   [Cell_plain "CPU"; Cell_plain (format_box_cpu_setting r settings)];
   [Cell_plain "RAM"; Cell_plain (format_box_memory_setting r settings)];
   [Cell_plain "FS"; Cell_plain (format_box_fs_setting r settings)];
   [Cell_plain "Processes"; Cell_plain (format_box_process_setting r settings)];
   [Cell_plain "Network"; Cell_plain (format_box_network_setting (set_network_enabled settings))];
   [Cell_plain "Workspace"; mkCell (display (bx_workspace_path r)) (dim theme (display (bx_workspace_path r))) ALeft]].
Definition print_box_action (theme : Theme) (action : string) (r : BoxRecord) : option string :=
  let head := line (title theme "BOX" ^+ " " ^+ badge theme action BsSuccess) ^+ line "" in
  t ← println_table theme [Cell_plain "Field"; Cell_plain "Value"] (box_fields theme r);
  Some (head ^+ t).

Definition box_row (theme : Theme) (r : BoxRecord) : list Cell :=
  let settings := bx_settings r in
  [code_cell theme (uuid_to_string (bx_box_id r));
   Cell_plain (bx_image r);
   styled_status_cell theme (bx_status r);
   Cell_plain (format_box_cpu_setting r settings);
   Cell_plain (format_box_memory_setting r settings);
   Cell_plain (format_box_fs_setting r settings);
   Cell_plain (format_box_process_setting r settings);
   Cell_plain (format_box_network_setting (set_network_enabled settings))].
Definition print_box_table (theme : Theme) (boxes : list BoxRecord) (isolation_mode : option IsolationMode) : option string :=
  let inventory := title theme "BOX inventory" ^+ " " ^+ count_badge theme (length boxes) " total" BsInfo in
  let head :=
    match isolation_mode with
    | Some mode => line (inventory ^+ "  " ^+ dim theme ("mode=" ^+ isolation_mode_label mode))
    | None => line inventory
    end ^+ line "" in
  if decide (length boxes = 0%nat)
  then Some (head ^+ line (dim theme "No BOXes found. Create one with `sagens box new`."))
  else
    t ← println_table theme
          [Cell_plain "BOX"; Cell_plain "IMAGE"; Cell_plain "STATUS"; Cell_plain "CPU"; Cell_plain "RAM"; Cell_plain "FS";
           Cell_plain "PROC"; Cell_plain "NET"]
          (box_row theme <$> boxes);
    Some (head ^+ t).

Definition print_removed (theme : Theme) (box_id : Uuid) : string :=
  line (title theme "BOX" ^+ " " ^+ badge theme "removed" BsDanger ^+ " " ^+ code_text theme (uuid_to_string box_id)).

(** ** Every output of a command *)

Definition print_text (theme : Theme) (o : Output) : option string :=
  match o with
  | PrintHelp topic => line <$> render_help theme topic
  | PrintStart endpoint already_running mode => Some (print_start_message theme endpoint already_running mode)
  | PrintQuit was_running => Some (print_quit_message theme was_running)
  | PrintUpdate outcome => Some (print_update_message theme outcome)
  | PrintAdminBundle bundle => print_admin_bundle theme bundle
  | PrintAdminRemoved => Some (print_admin_removed theme)
  | PrintBoxTable boxes mode => print_box_table theme boxes mode
  | PrintBoxAction action record => print_box_action theme action record
  | PrintRemoved box_id => Some (print_removed theme box_id)
  | PrintImageBuilt manifest => print_image_built theme manifest
  | PrintImageList images => print_image_list theme images
  | PrintImageInspect manifest => print_image_inspect theme manifest
  | PrintImageRemoved name => Some (print_image_removed theme name)
  | PrintFiles entries => print_files theme entries
  | PrintCheckpointId id => Some (print_checkpoint_id theme id)
  | PrintCheckpoints checkpoints => print_checkpoints theme checkpoints
  | PrintCheckpointRestoreOk id => Some (print_checkpoint_restore_ok theme id)
  | PrintCheckpointDeleteOk id => Some (print_checkpoint_delete_ok theme id)
  end.
End terminal.

(** ** Rounding *)

Lemma half_even_bound a b : (0 < b)%Z → (2 * Z.abs (half_even a b * b - a) ≤ b)%Z.
Proof.
  intros Hb. unfold half_even. pose proof (Z.div_mod a b ltac:(lia)). pose proof (Z.mod_pos_bound a b Hb).
  set (q := (a / b)%Z) in *. set (r := (a mod b)%Z) in *. clearbody q r. subst a.
  destruct (Z.ltb_spec (2 * r) b); [nia|]. destruct (Z.ltb_spec b (2 * r)); [nia|]. destruct (Z.even q); nia.
Qed.

(** a size is shown to the nearest tenth of its unit: below 2^53, where a float is exact, the tenths printed differ from the value by at most half a tenth. *)
Theorem tenths_nearest value unit :
  (0 ≤ value < 2 ^ 53)%Z → (0 < unit)%Z → (2 * Z.abs (tenths value unit * unit - 10 * value) ≤ unit)%Z.
Proof.
  intros Hv Hu. unfold tenths, f64_of_u64. destruct (Z.ltb_spec value (2 ^ 53)); [|lia].
  by apply half_even_bound.
Qed.

(** the hundredths of a core printed differ from the use by at most five thousandths *)
Lemma millicores_nearest value :
  (0 ≤ value)%Z → (value + 5 ≤ u32_max)%Z → (Z.abs (saturating_add u32_max value 5 / 10 * 10 - value) ≤ 5)%Z.
Proof.
  intros Hv Hm. unfold saturating_add. rewrite Z.min_l by lia.
  pose proof (Z.div_mod (value + 5) 10 ltac:(lia)). pose proof (Z.mod_pos_bound (value + 5) 10 ltac:(lia)). lia.
Qed.

Example format_size_whole : format_size_mib 2048 = "2GiB".
Proof. reflexivity. Qed.
Example format_size_tie : format_size_mib 1280 = "1.2GiB" ∧ format_size_mib 1792 = "1.8GiB".
Proof. split; reflexivity. Qed.
Example format_cpu : format_cpu_millicores 1250 = "1.25" ∧ format_cpu_millicores 1300 = "1.3" ∧ format_cpu_millicores 1042 = "1.04".
Proof. repeat split; reflexivity. Qed.

(** ** Nothing panics *)

Lemma println_table_some theme headers rows :
  Forall (λ row, length row ≤ length headers)%nat rows → is_Some (println_table theme headers rows).
Proof. intros H. unfold println_table. apply fmap_is_Some. by apply table_some. Qed.

Lemma rows_of_some {A} theme headers (f : A → list Cell) (xs : list A) :
  (∀ x, length (f x) ≤ length headers)%nat → is_Some (println_table theme headers (f <$> xs)).
Proof. intros H. apply println_table_some. apply Forall_fmap, Forall_forall. intros x _. apply H. Qed.

Section laws.
Context `{!Platform, !PlatformLaws, !Serde (gmap string string)}.

(** whatever a command prints, no row is longer than the header of its table and no topic is without a page: printing never panics *)
Theorem printing_never_panics theme o : is_Some (print_text theme o).
Proof.
  destruct o; cbn [print_text]; try by eexists.
  - apply fmap_is_Some. unfold render_help. apply fmap_is_Some, every_topic_has_page.
  - unfold print_box_table. case_decide; [by eexists|]. match goal with |- context [println_table theme ?h (?f <$> ?l)] =>
      destruct (rows_of_some theme h f l) as [t ->] end; [intros; simpl; lia|by eexists].
  - unfold print_image_list. case_decide; [by eexists|]. match goal with |- context [println_table theme ?h (?f <$> ?l)] =>
      destruct (rows_of_some theme h f l) as [t ->] end; [intros; simpl; lia|by eexists].
  - unfold print_files. case_decide; [by eexists|]. match goal with |- context [println_table theme ?h (?f <$> ?l)] =>
      destruct (rows_of_some theme h f l) as [t ->] end; [intros; simpl; lia|by eexists].
  - unfold print_checkpoints. case_decide; [by eexists|]. match goal with |- context [println_table theme ?h (?f <$> ?l)] =>
      destruct (rows_of_some theme h f l) as [t ->] end; [intros; simpl; lia|by eexists].
Qed.

(** ** Colour is decoration *)

(** The texts of others that an output shows. *)
Definition box_texts (r : BoxRecord) : list string :=
  [default "" (bx_name r); bx_image r; display (bx_workspace_path r)].
Definition image_texts (m : VmImageManifest) : list string :=
  [im_name m; im_arch m; im_alpine_version m; joined (im_apk m); joined (im_pip m); joined (im_npm m); im_rootfs_image m;
   default "" (im_cache_image m)].
Definition checkpoint_texts (c : WorkspaceCheckpointRecord) : list string :=
  [cs_checkpoint_id (cr_summary c); default "" (cs_name (cr_summary c)); metadata_text (cs_metadata (cr_summary c))].
Definition texts (o : Output) : list string :=
  match o with
  | PrintHelp _ | PrintQuit _ | PrintAdminRemoved | PrintRemoved _ => []
  | PrintStart endpoint _ _ => [endpoint]
  | PrintUpdate outcome => [out_release_tag outcome; out_platform outcome; display (out_executable_path outcome)]
  | PrintAdminBundle bundle => [ab_admin_token bundle; ab_endpoint bundle]
  | PrintBoxTable boxes _ => boxes ≫= box_texts
  | PrintBoxAction action r => action :: box_texts r
  | PrintImageBuilt m | PrintImageInspect m => image_texts m
  | PrintImageList images => images ≫= image_texts
  | PrintImageRemoved s | PrintCheckpointId s | PrintCheckpointRestoreOk s | PrintCheckpointDeleteOk s => [s]
  | PrintFiles entries => fn_path <$> entries
  | PrintCheckpoints checkpoints => checkpoints ≫= checkpoint_texts
  end.

Lemma unescaped_pretty (z : Z) : unescaped (pretty z).
Proof.
  assert (Hd : ∀ n, (0 ≤ n)%Z → unescaped (pretty n)).
  { intros n Hn. eapply all_chars_impl; [|by apply pretty_digits]. intros a Ha.
    destruct (Ascii.eqb_spec a escape) as [->|]; [done|reflexivity]. }
  destruct z as [|q|q]; [reflexivity|by apply Hd|]. change (unescaped (String "-" (pretty (Z.pos q)))).
  pose proof (Hd (Z.pos q) ltac:(lia)) as H1. unfold unescaped in *. simpl. exact H1.
Qed.
Lemma unescaped_uuid b : unescaped (uuid_to_string b).
Proof.
  eapply all_chars_impl; [|apply uuid_to_string_hex]. intros a Ha.
  destruct (Ascii.eqb_spec a escape) as [->|]; [done|reflexivity].
Qed.
#[local] Hint Resolve unescaped_pretty unescaped_uuid : ui.

Lemma unescaped_fixed1 value unit : unescaped (fixed1 value unit).
Proof. unfold fixed1. auto with ui. Qed.
#[local] Hint Resolve unescaped_fixed1 : ui.
Lemma unescaped_size value : unescaped (format_size_mib value).
Proof. unfold format_size_mib. repeat case_match; auto with ui. Qed.
Lemma unescaped_bytes value : unescaped (format_bytes value).
Proof. unfold format_bytes. repeat case_match; auto with ui. Qed.
#[local] Hint Resolve unescaped_size unescaped_bytes : ui.
Lemma unescaped_numeric value unit : unescaped (format_numeric_value value unit).
Proof. destruct unit; simpl; auto with ui. Qed.
Lemma unescaped_millicores value : unescaped (format_cpu_millicores value).
Proof. unfold format_cpu_millicores, two_digits. repeat case_match; auto 6 with ui. Qed.
#[local] Hint Resolve unescaped_numeric unescaped_millicores : ui.
Lemma unescaped_dash : unescaped dash.
Proof. reflexivity. Qed.
#[local] Hint Resolve unescaped_dash : ui.
Lemma unescaped_usage r v unit f : unescaped (format_box_usage_value r v unit f).
Proof. unfold format_box_usage_value. repeat case_match; auto with ui. Qed.
Lemma unescaped_cpu r s : unescaped (format_box_cpu_setting r s).
Proof. unfold format_box_cpu_setting. repeat case_match; auto with ui. Qed.
Lemma unescaped_memory r s : unescaped (format_box_memory_setting r s).
Proof. apply unescaped_usage. Qed.
Lemma unescaped_fs r s : unescaped (format_box_fs_setting r s).
Proof. apply unescaped_usage. Qed.
Lemma unescaped_process r s : unescaped (format_box_process_setting r s).
Proof. apply unescaped_usage. Qed.
Lemma unescaped_network s : unescaped (format_box_network_setting s).
Proof. unfold format_box_network_setting, format_bool. case_match; reflexivity. Qed.
#[local] Hint Resolve unescaped_usage unescaped_cpu unescaped_memory unescaped_fs unescaped_process unescaped_network : ui.

Lemma faithful_plain v : unescaped v → faithful (Cell_plain v).
Proof. apply shows_unescaped. Qed.
Lemma faithful_right v : unescaped v → faithful (Cell_right v).
Proof. apply shows_unescaped. Qed.
Lemma faithful_code theme v : unescaped v → faithful (code_cell theme v).
Proof. intros Hv. by apply shows_code, shows_unescaped. Qed.
Lemma faithful_dim theme v a : unescaped v → faithful (mkCell v (dim theme v) a).
Proof. intros Hv. by apply shows_dim, shows_unescaped. Qed.
Lemma faithful_status theme s : faithful (styled_status_cell theme s).
Proof. destruct s; by apply shows_badge, shows_unescaped. Qed.
Lemma faithful_kind theme k : faithful (styled_kind_cell theme k).
Proof. destruct k; by apply shows_badge, shows_unescaped. Qed.
#[local] Hint Resolve faithful_plain faithful_right faithful_code faithful_dim faithful_status faithful_kind : ui.

Lemma shows_println_table theme headers rows rows' :
  Forall faithful headers → colourless <$> headers = headers → Forall (Forall faithful) rows → colourless_row <$> rows = rows' →
  shows_option (println_table theme headers rows) (println_table (mkTheme false) headers rows').
Proof.
  intros Hh Hc Hr <-. pose proof (table_colour_is_decoration theme headers rows Hh Hr) as H1. rewrite Hc in H1.
  unfold println_table. destruct (table theme headers rows), (table (mkTheme false) headers _); try done.
  simpl in *. unfold line. apply shows_app; [done|]. by apply shows_unescaped.
Qed.

(** A listing: one row per element. *)
Lemma shows_listing {A} theme (f : Theme → A → list Cell) headers (xs : list A) head head' :
  shows head head' → Forall faithful headers → colourless <$> headers = headers →
  (∀ x, colourless_row (f theme x) = f (mkTheme false) x) → Forall (λ x, Forall faithful (f theme x)) xs →
  shows_option (t ← println_table theme headers (f theme <$> xs); Some (head ^+ t))
    (t ← println_table (mkTheme false) headers (f (mkTheme false) <$> xs); Some (head' ^+ t)).
Proof.
  intros Hhead Hh Hc Hf Hxs.
  pose proof (shows_println_table theme headers (f theme <$> xs) (f (mkTheme false) <$> xs) Hh Hc) as H1.
  assert (Hrows : colourless_row <$> (f theme <$> xs) = f (mkTheme false) <$> xs).
  { rewrite <-list_fmap_compose. apply list_fmap_ext. intros i x _. apply Hf. }
  specialize (H1 ltac:(by apply Forall_fmap) Hrows).
  destruct (println_table theme headers _), (println_table (mkTheme false) headers _); try done. by apply shows_app.
Qed.
Lemma shows_fields theme headers rows rows' head head' :
  shows head head' → Forall faithful headers → colourless <$> headers = headers → Forall (Forall faithful) rows →
  colourless_row <$> rows = rows' →
  shows_option (t ← println_table theme headers rows; Some (head ^+ t))
    (t ← println_table (mkTheme false) headers rows'; Some (head' ^+ t)).
Proof.
  intros Hhead Hh Hc Hr Hrows. pose proof (shows_println_table theme headers rows rows' Hh Hc Hr Hrows) as H1.
  destruct (println_table theme headers rows), (println_table (mkTheme false) headers rows'); try done.
  by apply shows_app.
Qed.

Lemma shows_line s v : shows s v → shows (line s) (line v).
Proof. intros Hs. unfold line. apply shows_app; [done|]. by apply shows_unescaped. Qed.
#[local] Hint Resolve shows_line : ui.

Lemma shows_count theme n what style :
  unescaped what → shows (count_badge theme n what style) (count_badge (mkTheme false) n what style).
Proof. intros Hw. apply shows_badge. change (count_badge (mkTheme false) n what style) with (pretty (Z.of_nat n) ^+ what). auto with ui. Qed.
#[local] Hint Resolve shows_count : ui.

Lemma shows_code_self theme v : unescaped v → shows (code_text theme v) (code_text (mkTheme false) v).
Proof. intros Hv. apply shows_code. by apply shows_unescaped. Qed.
#[local] Hint Resolve shows_code_self : ui.

Ltac show_text := repeat first [apply shows_line | apply shows_cons; [reflexivity|] | apply shows_app]; auto 7 with ui.
Ltac fields_clean := repeat (apply Forall_cons; split); auto with ui.

Lemma default_unescaped d o : unescaped d → unescaped (default "" o) → unescaped (default d o).
Proof. by destruct o. Qed.
#[local] Hint Resolve default_unescaped Forall_nil_2 : ui.

Lemma faithful_box theme r : Forall unescaped (box_texts r) → Forall faithful (box_row theme r).
Proof. unfold box_texts. rewrite !Forall_cons. intros (? & ? & ? & _). unfold box_row. fields_clean. Qed.
Lemma faithful_fields theme r : Forall unescaped (box_texts r) → Forall (Forall faithful) (box_fields theme r).
Proof. unfold box_texts. rewrite !Forall_cons. intros (? & ? & ? & _). unfold box_fields. fields_clean. Qed.
Lemma faithful_image theme m : Forall unescaped (image_texts m) → Forall faithful (image_row theme m).
Proof. unfold image_texts. rewrite !Forall_cons. intros (?&?&?&?&?&?&?&?&_). unfold image_row. fields_clean. Qed.
Lemma faithful_manifest m : Forall unescaped (image_texts m) → Forall (Forall faithful) (manifest_rows m).
Proof. unfold image_texts. rewrite !Forall_cons. intros (?&?&?&?&?&?&?&?&_). unfold manifest_rows. fields_clean. Qed.
Lemma faithful_checkpoint theme c : Forall unescaped (checkpoint_texts c) → Forall faithful (checkpoint_row theme c).
Proof. unfold checkpoint_texts. rewrite !Forall_cons. intros (?&?&?&_). unfold checkpoint_row. fields_clean. Qed.

Lemma Forall_bind_texts {A} (f : A → list string) (xs : list A) (P : A → Prop) :
  (∀ x, Forall unescaped (f x) → P x) → Forall unescaped (xs ≫= f) → Forall P xs.
Proof.
  intros Hf. induction xs as [|x xs IH]; [constructor|]. intros H1. rewrite bind_cons in H1. apply Forall_app in H1 as [H1 H2].
  constructor; auto.
Qed.

Lemma shows_manifest_table theme m :
  Forall unescaped (image_texts m) →
  shows_option (print_image_manifest_table theme m) (print_image_manifest_table (mkTheme false) m).
Proof.
  intros Hm. apply shows_fields; [by apply shows_unescaped|fields_clean|reflexivity|by apply faithful_manifest|reflexivity].
Qed.
Lemma shows_manifest theme m head head' :
  shows head head' → Forall unescaped (image_texts m) →
  shows_option (t ← print_image_manifest_table theme m; Some (head ^+ t))
    (t ← print_image_manifest_table (mkTheme false) m; Some (head' ^+ t)).
Proof.
  intros Hhead Hm. pose proof (shows_manifest_table theme m Hm) as H1.
  destruct (print_image_manifest_table theme m), (print_image_manifest_table (mkTheme false) m); try done.
  by apply shows_app.
Qed.

Lemma shows_option_visible s v : shows_option s v → visible <$> s = v.
Proof. destruct s, v; try done. simpl. intros H1. by rewrite (shows_visible _ _ H1). Qed.

(** Every output but the help pages, which [help_colour_is_decoration] checks. *)
Lemma output_shows theme o :
  (∀ topic, o ≠ PrintHelp topic) → Forall unescaped (texts o) → shows_option (print_text theme o) (print_text (mkTheme false) o).
Proof.
  intros Hhelp Ht. destruct o; cbn [print_text texts] in *; try (rewrite !Forall_cons in Ht; decompose [and] Ht; clear Ht).
  - by destruct (Hhelp topic).
  - unfold print_start_message. destruct already_running, mode; show_text.
  - unfold print_quit_message. destruct was_running; show_text.
  - assert (Hd : unescaped (update_detail outcome)) by (unfold update_detail; auto 8 with ui).
    unfold print_update_message. destruct (out_action outcome); show_text.
  - unfold print_admin_bundle. apply shows_fields; [show_text|fields_clean|reflexivity| |reflexivity].
    unfold admin_rows. fields_clean.
  - show_text.
  - unfold print_box_table. case_decide; [destruct mode as [[]|]; show_text|].
    apply shows_listing; [destruct mode as [[]|]; show_text|fields_clean|reflexivity| |].
    { intros x. unfold box_row. by destruct (bx_status x). }
    eapply Forall_bind_texts; [|done]. apply faithful_box.
  - unfold print_box_action. apply shows_fields; [show_text|fields_clean|reflexivity| |unfold box_fields; by destruct (bx_status record)].
    by apply faithful_fields.
  - unfold print_removed. show_text.
  - unfold print_image_built. apply shows_manifest; [|done]. apply Forall_cons in Ht as [? _]. show_text.
  - unfold print_image_list. case_decide; [show_text|].
    apply shows_listing; [show_text|fields_clean|reflexivity|reflexivity|].
    eapply Forall_bind_texts; [|done]. apply faithful_image.
  - unfold print_image_inspect. apply shows_manifest; [|done]. apply Forall_cons in Ht as [? _]. show_text.
  - unfold print_image_removed. show_text.
  - unfold print_files. case_decide; [show_text|].
    apply shows_listing; [show_text|fields_clean|reflexivity| |].
    + intros x. unfold file_row. by destruct (fn_kind x).
    + rewrite Forall_fmap in Ht. eapply Forall_impl; [exact Ht|]. intros x Hx. unfold file_row. fields_clean.
  - unfold print_checkpoint_id, print_checkpoint. show_text.
  - unfold print_checkpoints. case_decide; [show_text|].
    apply shows_listing; [show_text|fields_clean|reflexivity|reflexivity|].
    eapply Forall_bind_texts; [|done]. apply faithful_checkpoint.
  - unfold print_checkpoint_restore_ok, print_checkpoint. show_text.
  - unfold print_checkpoint_delete_ok, print_checkpoint. show_text.
Qed.

(** colour is decoration in everything a command prints: without its escape sequences the text on a terminal is the text in a file,
    provided the values printed hold no escape sequences of their own. *)
Theorem output_colour_is_decoration theme o :
  Forall unescaped (texts o) → visible <$> print_text theme o = print_text (mkTheme false) o.
Proof.
  intros Ht. destruct (match o with PrintHelp _ => true | _ => false end) eqn:Eo.
  - destruct o as [topic| | | | | | | | | | | | | | | | |]; try done. destruct theme as [[]], topic; vm_compute; reflexivity.
  - apply shows_option_visible, output_shows; [|done]. by intros topic ->.
Qed.

(** The name of a file comes from the guest: an escape sequence in it reaches the
    terminal of the user as it is. *)
Lemma file_name_reaches_terminal :
  ∃ text, print_text (mkTheme false) (PrintFiles [mkFileNode (String escape "[2J") FkFile 0 None None]) = Some text ∧
          contains (String escape "[2J") text = true.
Proof. eexists. split; vm_compute; reflexivity. Qed.
End laws.

(** ** The examples of the tests *)

Example badge_without_color : badge (mkTheme false) "STOPPED" BsWarning = "STOPPED".
Proof. reflexivity. Qed.

Definition sample_settings : BoxSettings :=
  mkSettings (mkNumeric 2 10) (mkNumeric 2048 16384) (mkNumeric 4096 65536) (mkNumeric 256 4096) (mkBoolean false true).
Definition sample_record (id : Uuid) (status : BoxStatus) (usage : option BoxRuntimeUsage) : BoxRecord :=
  mkBox id None "base" status sample_settings usage ["workspace.raw"] None 0 None None None.

Example formats_running id :
  let r := sample_record id BRunning (Some (mkUsage 1250 768 640 23)) in
  (format_box_cpu_setting r (bx_settings r), format_box_memory_setting r (bx_settings r),
   format_box_fs_setting r (bx_settings r), format_box_process_setting r (bx_settings r)) =
  ("1.25 / 2", "768MiB / 2GiB", "640MiB / 4GiB", "23 / 256").
Proof. vm_compute. reflexivity. Qed.
Example formats_inactive id :
  let r := sample_record id BStopped None in
  (format_box_cpu_setting r (bx_settings r), format_box_memory_setting r (bx_settings r)) = ("0 / 2", "0MiB / 2GiB").
Proof. vm_compute. reflexivity. Qed.
