(* ===== verification/Daemon.v ===== *)
(** * Daemon: the BOX service under the websocket API

    [LocalBoxService] of [src/boxes/service/] implements the trait [BoxManager]
    that the server of [src/box_api/server/] runs on.  This file makes [Boxes]
    an instance of the interface of [BoxApi], shows that the operations on one
    BOX serve that BOX only, and draws the conclusion for a client that holds
    the credential of one BOX. *)

From S2P Require Import Prelude RustStd Paths FileSystem PrivateFs Auth FsTree Manifest Config Lineage Workspace Images Protocol Runtime BoxStore Boxes BoxApi.

(** ** The shells of a sandbox: the trait [ShellDriver] of [src/backend/mod.rs] *)

Class ShellDriver (R : Type) `{!SandboxService R} := {
  drv_id : box_shell → Uuid;
  drv_events : box_shell → list ShellEvent;
  drv_send_input : box_shell → bytes → M SandboxError (World * R) ();
  drv_resize : box_shell → Z → Z → M SandboxError (World * R) ();
  drv_close : box_shell → M SandboxError (World * R) ();
}.

Class ShellDriverLaws (R : Type) (state_dir : path) `{!SandboxService R, !ShellDriver R,
    !SandboxServiceLaws R state_dir} : Prop := {
  drv_send_input_step sh d : keeps (sandbox_step state_dir (rt_ok (state_dir := state_dir))) (drv_send_input sh d);
  drv_resize_step sh x y : keeps (sandbox_step state_dir (rt_ok (state_dir := state_dir))) (drv_resize sh x y);
  drv_close_step sh : keeps (sandbox_step state_dir (rt_ok (state_dir := state_dir))) (drv_close sh);
}.

(** ** The instance *)

Section instance.
Context `{Platform, Ext4, Target, HostLimits, L : WorkspaceLineageStore, Serde VmImageManifest, Serde BoxRecord}
  {R : Type} `{!SandboxService R, !ShellDriver R}
  (state_dir : path) (workspace_config : WorkspaceConfig) (default_policy : ExecutionPolicy)
  (isolation_mode : IsolationMode).

(** The state of the service, without the disk: the sandboxes and the table of
    live ones. *)
Definition BoxState : Type := R * gmap Uuid Uuid.

Definition as_boxes (h : World * BoxState) : BoxService (R := R) := mkBoxService h.1 h.2.1 h.2.2.
Definition of_boxes (s : BoxService (R := R)) : World * BoxState := (bs_world s, (bs_runtime s, bs_active s)).

Definition managing {A} (m : M SandboxError BoxService A) : M SandboxError (World * BoxState) A :=
  zoom as_boxes (λ s _, of_boxes s) m.

Local Abbreviation box op := (op state_dir workspace_config default_policy isolation_mode).

Definition local_box_manager : BoxManager BoxState := {|
  bm_shell := box_shell;
  shell_id_of := drv_id;
  shell_events := drv_events;
  shell_send_input sh data := managing (runtime (drv_send_input sh data));
  shell_resize sh cols rows := managing (runtime (drv_resize sh cols rows));
  shell_close sh := managing (runtime (drv_close sh));
  bm_list_boxes := managing (box list_boxes);
  bm_get_box b := managing (box get_box b);
  bm_create_box_from_image image := managing (box create_box_from_image image);
  bm_set_box_setting b setting := managing (box set_box_setting b setting);
  bm_start_box b := managing (box start_box b);
  bm_stop_box b := managing (box stop_box b);
  bm_remove_box b := managing (box remove_box b);
  bm_list_files b p := managing (box box_list_files b p);
  bm_read_file b p limit := managing (box box_read_file b p limit);
  bm_write_file b p data create_parents := managing (box box_write_file b p data create_parents);
  bm_make_dir b p recursive := managing (box box_make_dir b p recursive);
  bm_remove_path b p recursive := managing (box box_remove_path b p recursive);
  bm_exec b request := managing (box box_exec b request);
  bm_open_shell b request := managing (box box_open_shell b request);
  bm_checkpoint_create b name metadata := managing (box checkpoint_create b name metadata);
  bm_checkpoint_list b := managing (box checkpoint_list b);
  bm_checkpoint_restore b id mode := managing (box checkpoint_restore b id mode);
  bm_checkpoint_fork b id name := managing (box checkpoint_fork b id name);
  bm_checkpoint_delete b id := managing (box checkpoint_delete b id);
  bm_shutdown_daemon := managing (box shutdown_daemon);
|}.
End instance.

(** ** One BOX is served alone *)

Section daemon.
Context `{PlatformLaws, Ext4, Target, HostLimits, L : WorkspaceLineageStore, !LineageSpec L, Serde VmImageManifest,
          Serde BoxRecord, !SerdeLaws BoxRecord, Serde AdminRegistry, Serde BoxCredentialRegistry, Base64, ApiCrates}
  {R : Type} `{!SandboxService R, !ShellDriver R}
  (state_dir : path) (workspace_config : WorkspaceConfig) (default_policy : ExecutionPolicy)
  (isolation_mode : IsolationMode) (base_guest : GuestConfig) (endpoint : string)
  `{!SandboxServiceLaws R state_dir, !ShellDriverLaws R state_dir, !BoxLayout L state_dir}.

#[local] Instance daemon_manager : BoxManager BoxState :=
  local_box_manager state_dir workspace_config default_policy isolation_mode.

(** The service is in order and the BOXes other than [b] are as in [s0]. *)
Definition apart (b : Uuid) (s0 : BoxService (R := R)) (h : World * BoxState) : Prop :=
  boxes_ok state_dir (as_boxes h) ∧ others state_dir b s0 (as_boxes h).

Lemma own_apart {A} b s0 (Q : A → Prop) (m : M SandboxError (BoxService (R := R)) A) :
  own state_dir b Q m → keeps (preserves (apart b s0)) (managing m).
Proof.
  intros Hm h [Hok Ho]. unfold managing, zoom. destruct (Hm (as_boxes h) Hok) as (Hok' & Ho' & _).
  destruct (m (as_boxes h)) as [r s]. cbn in *. split; [by destruct s|]. eapply others_trans; [exact Ho|]. by destruct s.
Qed.

(** An operation of [run_box_op], with its value. *)
Lemma own_unit {A} b (m : M SandboxError (BoxService (R := R)) A) :
  own state_dir b (λ _, True) (m ≫= λ _, mret ()) → own state_dir b (λ _, True) m.
Proof.
  intros Hm s Hs. specialize (Hm s Hs). unfold mbind, M_bind in Hm. by destruct (m s) as [[a|e] s'].
Qed.

Local Abbreviation run b op := (own_run state_dir workspace_config default_policy isolation_mode b op).

#[local] Instance serves_one_box b s0 : Serves b (apart b s0) (λ _, True).
Proof.
  split; intros; try done; eapply own_apart.
  - apply own_unit, (run b BxGet).
  - apply own_unit, (run b (BxExec r)).
  - apply own_unit, (run b (BxOpenShell r)).
  - apply own_unit, (run b (BxListFiles p)).
  - apply own_unit, (run b (BxReadFile p n)).
  - apply (run b (BxWriteFile p d cp)).
  - apply (run b (BxMakeDir p r)).
  - apply (run b (BxRemovePath p r)).
  - apply own_unit, (run b (BxCheckpointCreate n m)).
  - apply own_unit, (run b BxCheckpointList).
  - apply own_unit, (run b (BxCheckpointRestore id m)).
  - apply (run b (BxCheckpointDelete id)).
  - apply own_runtime, drv_send_input_step.
  - apply own_runtime, drv_resize_step.
  - apply own_runtime, drv_close_step.
Qed.

(** Authenticating a BOX writes the registry of credentials, which is not the
    record of a BOX. *)
Lemma credentials_not_box b : BoxCredentialStore.registry_path state_dir ≠ box_path state_dir b.
Proof.
  unfold BoxCredentialStore.registry_path, box_path. intros Heq%app_inv_head. injection Heq as Heq.
  apply (f_equal rsplit_dot) in Heq. rewrite box_name_rsplit in Heq. cbn in Heq. injection Heq as Heq.
  pose proof (uuid_to_string_hex b) as Hx. by rewrite <-Heq in Hx.
Qed.

Lemma credentials_prefix q b : q `prefix_of` BoxCredentialStore.registry_path state_dir → q ≠ box_path state_dir b.
Proof.
  intros Hq ->. apply (credentials_not_box b). symmetry. apply prefix_length_eq; [done|].
  unfold BoxCredentialStore.registry_path, box_path. rewrite !length_app. done.
Qed.

Lemma authenticate_box_frame b token :
  keeps (frame (λ q, ∀ b', q ≠ box_path state_dir b')) (BoxCredentialStore.authenticate state_dir b token).
Proof.
  unfold BoxCredentialStore.authenticate, BoxCredentialStore.read, BoxCredentialStore.write, read_registry, write_registry.
  keeps_tac.
  - apply keeps_ensure_private_dir. intros q Hq b'. apply credentials_prefix. etrans; [exact Hq|]. apply parent_prefix.
  - apply keeps_write_private_file. intros q Hq b'. by apply credentials_prefix.
Qed.

Lemma issue_frame b where_ :
  keeps (frame (λ q, ∀ b', q ≠ box_path state_dir b')) (BoxCredentialStore.issue state_dir where_ b).
Proof.
  unfold BoxCredentialStore.issue, BoxCredentialStore.read, BoxCredentialStore.write, read_registry, write_registry,
    generate_token.
  keeps_tac.
  - apply keeps_ensure_private_dir. intros q Hq b'. apply credentials_prefix. etrans; [exact Hq|]. apply parent_prefix.
  - apply keeps_write_private_file. intros q Hq b'. by apply credentials_prefix.
Qed.

Lemma authenticate_apart b s0 token w h :
  apart b s0 (w, h) → apart b s0 ((BoxCredentialStore.authenticate state_dir b token w).2, h).
Proof.
  intros [[Hrt Hn] Ho]. pose proof (authenticate_box_frame b token w) as Hf.
  assert (Hst : ∀ b', stored_box state_dir (w_fs (BoxCredentialStore.authenticate state_dir b token w).2) b' =
                      stored_box state_dir (w_fs w) b').
  { intros b'. apply decode_ext, Hf. intros Hp. by apply (Hp b'). }
  split; [split; [done|]|].
  - intros b' r. cbn. rewrite Hst. apply Hn.
  - intros b' Hb. cbn. rewrite Hst. by apply Ho.
Qed.

(** A message of a client that has one BOX's credential, good or not. *)
Definition as_box (b : Uuid) (m : ClientMessage) : Prop :=
  match m with
  | CmAuthenticateAdmin _ _ => False
  | CmAuthenticateBox b' _ => b' = b
  | CmRequest _ => True
  end.

(** through the whole daemon, a client that authenticates as one BOX cannot
    affect another: whatever requests it sends in whatever order, whatever its
    guest does, and whatever fails, the stored record and the live sandbox of
    every other BOX are as they were before, and the connection is authenticated
    as that BOX or not at all. *)
Theorem daemon_box_isolation b events c :
  (∀ text m, EvFrame (FrText text) ∈ events → decode_client_message text = Ok m → as_box b m) →
  boxes_ok state_dir (as_boxes (cn_host c)) → cn_principal c = None → cn_shells c = ∅ →
  let c' := (handle_connection state_dir base_guest endpoint events c).2 in
  (cn_principal c' = None ∨ cn_principal c' = Some (PBox b)) ∧
  ∀ b', b' ≠ b →
    stored_box state_dir (w_fs (cn_host c').1) b' = stored_box state_dir (w_fs (cn_host c).1) b' ∧
    (cn_host c').2.2 !! b' = (cn_host c).2.2 !! b'.
Proof.
  intros Hev Hok Hp Hs. cbv zeta.
  destruct (confined_connection state_dir base_guest endpoint b (apart b (as_boxes (cn_host c))) (λ _, True) events c)
    as [[_ Ho] Hp' _]; [| |done].
  - intros text [id token|b' token|request] Hin Hm; cbn [harmless]; [by destruct (Hev _ _ Hin Hm)| |done].
    specialize (Hev _ _ Hin Hm). cbn in Hev. subst b'. intros w h Hi. split; [by apply authenticate_apart|done].
  - split; [split; [done|apply others_refl]|by left|]. rewrite Hs. apply map_Forall_empty.
Qed.
End daemon.
