(* ===== verification/Server.v ===== *)
(** * Server: [serve_box_api_websocket] of [src/box_api/server/mod.rs]

    The task that accepts connections, and all the connections it has accepted,
    on one BOX service.  A run is a sequence of steps of the accept loop and of
    the connections, in any order; a connection takes one message, or one turn of
    a task it spawned, at a step.  [Daemon] says what one connection can do, here
    is what all of them together can. *)

From S2P Require Import Prelude RustStd Paths FileSystem PrivateFs Auth FsTree Manifest Config Lineage Workspace Images Protocol Runtime BoxStore Boxes BoxApi Daemon.

Section server.
Context `{Platform, Target, Serde AdminRegistry, Serde BoxCredentialRegistry, Serde VmImageManifest, Base64, ApiCrates}
  {B : Type} `{!BoxManager B} (state_dir : path) (base_guest : GuestConfig) (endpoint : string).

Local Abbreviation Conn := (Connection (B := B)).

(** ** One connection, one event at a time *)

(** A turn of the loop of [handle_connection]; the result says whether it ends. *)
Definition serve_event (event : Event) : M SandboxError Conn bool :=
  match event with
  | EvShutdown => mret true
  | EvTask i => run_task i;; mret false
  | EvFrame frame => handle_frame state_dir base_guest endpoint frame
  end.

(** The loop left by [break] closes the shells that are open, one left by an
    error does not.  The result says whether the loop goes on. *)
Definition connection_turn (event : Event) (c : Conn) : bool * Conn :=
  match serve_event event c with
  | (Ok true, c1) => (false, (drain_shells c1).2)
  | (Ok false, c1) => (true, c1)
  | (Err _, c1) => (false, c1)
  end.

(** ** The server *)

(** The spawned tasks of a connection outlive its loop. *)
Record Live := mkLive { lv_conn : Conn; lv_open : bool }.

(** [sr_done] is what the accept loop returned, once it has. *)
Record Server := mkServer {
  sr_host : World * B;
  sr_conns : list Live;
  sr_shutdown : bool;
  sr_done : option (Result SandboxError ());
}.

(** [Accepted] carries what became of the websocket handshake, and for a
    connection which of its messages will fail to go out.  The end of the stream
    of a connection is [FrClose]: both break the loop. *)
Inductive ServerStep :=
  | Accepted (handshake : Result string (list (option string)))
  | AcceptFailed (error : IoError)
  | ShutdownSeen
  | At (i : nat) (event : Event).

Definition new_connection (host : World * B) (handshake : Result string (list (option string))) : Live :=
  match handshake with
  | Ok faults => mkLive (mkConn host None ∅ [] faults [] false) true
  | Err _ => mkLive (mkConn host None ∅ [] [] [] false) false
  end.

(** What a connection can meet now: a task of it runs whether or not its loop
    does; the loop sees the shutdown only after it was signaled. *)
Definition enabled (sv : Server) (l : Live) (event : Event) : bool :=
  match event with
  | EvTask _ => true
  | EvShutdown => lv_open l && sr_shutdown sv
  | EvFrame _ => lv_open l
  end.

Definition server_step (step : ServerStep) (sv : Server) : Server :=
  match step with
  | Accepted handshake =>
      match sr_done sv with
      | Some _ => sv
      | None => mkServer (sr_host sv) (sr_conns sv ++ [new_connection (sr_host sv) handshake]) (sr_shutdown sv) None
      end
  | AcceptFailed error =>
      match sr_done sv with
      | Some _ => sv
      | None => mkServer (sr_host sv) (sr_conns sv) (sr_shutdown sv) (Some (Err (Io "accepting box api connection" error)))
      end
  | ShutdownSeen =>
      match sr_done sv with
      | Some _ => sv
      | None => if sr_shutdown sv then mkServer (sr_host sv) (sr_conns sv) true (Some (Ok ())) else sv
      end
  | At i event =>
      match sr_conns sv !! i with
      | None => sv
      | Some l =>
          if enabled sv l event then
            let '(goes_on, c) := connection_turn event (set_cn_host (sr_host sv) (lv_conn l)) in
            mkServer (cn_host c) (<[i := mkLive c (lv_open l && goes_on)]> (sr_conns sv))
              (sr_shutdown sv || cn_shutdown c) (sr_done sv)
          else sv
      end
  end.

Definition run_server (steps : list ServerStep) (sv : Server) : Server := foldl (λ sv step, server_step step sv) sv steps.

(** ** A connection that runs alone *)

Fixpoint run_alone (events : list Event) (c : Conn) : Conn :=
  match events with
  | [] => (drain_shells c).2
  | event :: events' =>
      match connection_turn event c with
      | (true, c') => run_alone events' c'
      | (false, c') => c'
      end
  end.

(** The turns of a connection, one after the other, are [handle_connection]. *)
Lemma run_alone_handles events c : run_alone events c = (handle_connection state_dir base_guest endpoint events c).2.
Proof.
  unfold handle_connection. revert c. induction events as [|[frame| |i] events IH]; intros c; [done| |done|].
  - cbn [run_alone connection_loop]. unfold connection_turn, serve_event, mbind, M_bind.
    destruct (handle_frame state_dir base_guest endpoint frame c) as [[[]|e] c1]; [done|apply IH|done].
  - cbn [run_alone connection_loop]. unfold connection_turn, serve_event, mbind, M_bind.
    destruct (run_task i c) as [[[]|e] c1]; [apply IH|done].
Qed.
End server.

(** ** Nobody but an admin shuts the server down *)

Section shutdown.
Context `{Platform, Target, Serde AdminRegistry, Serde BoxCredentialRegistry, Serde VmImageManifest, Base64, ApiCrates}
  {B : Type} `{!BoxManager B} (state_dir : path) (base_guest : GuestConfig) (endpoint : string).

Local Abbreviation Conn := (Connection (B := B)).
Local Abbreviation dispatch := (dispatch_request state_dir base_guest endpoint).

Definition same_shutdown : relation Conn := λ c c', cn_shutdown c' = cn_shutdown c.
#[local] Instance same_shutdown_preorder : PreOrder same_shutdown.
Proof. split; [by intros c|intros c1 c2 c3; unfold same_shutdown; congruence]. Qed.

Lemma sd_serve {A} (m : M SandboxError (World * B) A) : keeps same_shutdown (serve m).
Proof. intros c. unfold serve, zoom. by destruct (m (cn_host c)). Qed.
Lemma sd_on_world {A} (m : M SandboxError World A) : keeps same_shutdown (on_world m : M SandboxError Conn A).
Proof. intros c. unfold on_world, zoom. by destruct (m (cn_host c).1). Qed.
Lemma sd_send m : keeps same_shutdown (send_server_message m : M SandboxError Conn ()).
Proof. intros c. unfold send_server_message. by destruct (cn_send_faults c) as [|[]]. Qed.
Lemma sd_modify f : (∀ c : Conn, cn_shutdown (f c) = cn_shutdown c) → keeps same_shutdown (modify f : M SandboxError Conn ()).
Proof. intros Hf c. apply Hf. Qed.
Hint Resolve sd_serve sd_on_world sd_send : keeps.

Ltac sd_tac := unfold send_response, send_event, spawn, shell_handle, remove_shell; keeps_tac; try by apply sd_modify.

Lemma sd_dispatch request p : keeps same_shutdown (dispatch request p).
Proof. destruct request; cbn [dispatch_request dispatch_image_request]; cbv zeta; sd_tac. Qed.

Lemma sd_task i : keeps same_shutdown (run_task i : M SandboxError Conn ()).
Proof. unfold run_task. cbv zeta. sd_tac. Qed.

Lemma sd_drain : keeps same_shutdown (drain_shells : M SandboxError Conn ()).
Proof. unfold drain_shells. sd_tac. apply keeps_for_each; [typeclasses eauto|]. intros e _. sd_tac. Qed.

Lemma keep_open_value {A} (m : M SandboxError Conn A) c a c' : (m;; mret KeepOpen) c = (Ok a, c') → a = KeepOpen.
Proof. intros Hr. ok_inv. done. Qed.

Lemma box_never_shuts_down b request c : (dispatch request (PBox b) c).1 ≠ Ok ShutdownServer.
Proof.
  destruct (dispatch request (PBox b) c) as [[a|e] c'] eqn:Hr; [|done]. intros [= ->].
  destruct request; cbn [dispatch_request] in Hr; cbv zeta in Hr; try (by apply keep_open_value in Hr);
    discriminate Hr.
Qed.

Lemma sd_message m c :
  cn_principal c = None ∨ (∃ b, cn_principal c = Some (PBox b)) →
  cn_shutdown (handle_message state_dir base_guest endpoint m c).2 = cn_shutdown c.
Proof.
  intros Hp. destruct m as [id token|b token|request]; cbn [handle_message].
  - revert c Hp. enough (keeps same_shutdown (authenticate_admin (B := B) state_dir id token)) as Hk by (intros c _; apply Hk).
    unfold authenticate_admin. sd_tac.
  - revert c Hp. enough (keeps same_shutdown (authenticate_box (B := B) state_dir b token)) as Hk by (intros c _; apply Hk).
    unfold authenticate_box. sd_tac.
  - unfold mbind at 1, M_bind at 1, gets. destruct Hp as [->|[b ->]].
    + enough (keeps same_shutdown (send_event (B := B) (BeError (Some (request_id request)) "authentication required");; mret false))
        as Hk by apply Hk. sd_tac.
    + unfold mbind, M_bind, attempt. pose proof (box_never_shuts_down b request c) as Hn.
      pose proof (sd_dispatch request (PBox b) c) as Hd. destruct (dispatch request (PBox b) c) as [[[]|e] c1]; [done..| |]; [done|].
      pose proof (sd_send (SmEvent (BeError (Some (request_id request)) (error_to_string e))) c1) as Hs. unfold send_event.
      destruct (send_server_message _ c1) as [[[]|e'] c2]; cbn in *; unfold same_shutdown in *; congruence.
Qed.

(** A turn of a connection that is nobody, or a BOX. *)
Lemma sd_turn event c :
  cn_principal c = None ∨ (∃ b, cn_principal c = Some (PBox b)) →
  cn_shutdown (connection_turn state_dir base_guest endpoint event c).2 = cn_shutdown c.
Proof.
  intros Hp. unfold connection_turn.
  assert (Hs : cn_shutdown (serve_event state_dir base_guest endpoint event c).2 = cn_shutdown c).
  { destruct event as [[text| | |error]| |i]; try done; cbn [serve_event handle_frame].
    - unfold mbind, M_bind, map_err, lift. destruct (decode_client_message text) as [m|e]; [|done]. by apply sd_message.
    - enough (keeps same_shutdown (run_task (B := B) i;; mret false)) as Hk by apply Hk. keeps_tac. apply sd_task. }
  destruct (serve_event state_dir base_guest endpoint event c) as [[[]|e] c1]; [|done..].
  pose proof (sd_drain c1) as Hd. unfold same_shutdown in Hd. cbn in *. congruence.
Qed.
End shutdown.

(** ** Confinement of all connections

    Every connection has the credential of the BOX [holder] gives it; [I] is any
    property of the disk and the BOX service that the calls for each of these
    BOXes keep. *)

Section confinement.
Context `{Platform, Target, Serde AdminRegistry, Serde BoxCredentialRegistry, Serde VmImageManifest, Base64, ApiCrates}
  {B : Type} `{!BoxManager B} (state_dir : path) (base_guest : GuestConfig) (endpoint : string)
  (holder : nat → Uuid) (I : World * B → Prop) `{!∀ i, Serves (holder i) I (λ _, True)}.

Local Abbreviation Conn := (Connection (B := B)).
Local Abbreviation confined_to i := (confined (B := B) (holder i) I (λ _, True)).
Local Abbreviation turn := (connection_turn (B := B) state_dir base_guest endpoint).

Definition frames_harmless (i : nat) (event : Event) : Prop :=
  ∀ text m, event = EvFrame (FrText text) → decode_client_message text = Ok m → harmless state_dir (holder i) I m.

Lemma confined_turn i event c : frames_harmless i event → confined_to i c → confined_to i (turn event c).2.
Proof.
  intros Hev Hc. unfold connection_turn.
  assert (Hs : confined_to i (serve_event state_dir base_guest endpoint event c).2).
  { destruct event as [[text| | |error]| |k]; try done; cbn [serve_event handle_frame].
    - unfold mbind, M_bind, map_err, lift. destruct (decode_client_message text) as [m|e] eqn:Hm; [|done].
      eapply (cf_message state_dir base_guest endpoint (holder i) I (λ _, True)); [|done]. by eapply Hev.
    - assert (Ht : confined_to i (run_task k c).2) by (by eapply cf_task). unfold mbind, M_bind.
      by destruct (run_task k c) as [[]]. }
  destruct (serve_event state_dir base_guest endpoint event c) as [[[]|e] c1]; [|done..].
  cbn in *. by apply (cf_drain (holder i) I (λ _, True)).
Qed.

(** [flag] is whether the server was told to shut down, which no client does. *)
Record server_confined (flag : bool) (sv : Server (B := B)) : Prop := {
  sc_inv : I (sr_host sv);
  sc_shutdown : sr_shutdown sv = flag;
  sc_done : sr_done sv = Some (Ok ()) → flag = true;
  sc_conns i l : sr_conns sv !! i = Some l →
    confined_to i (set_cn_host (sr_host sv) (lv_conn l)) ∧ cn_shutdown (lv_conn l) = false;
}.

(** What the other connections hold does not depend on the disk or the service. *)
Lemma confined_moves i c h : confined_to i c → I h → confined_to i (set_cn_host h c).
Proof. by intros [_ Hp Hs] Hh. Qed.

Lemma turn_confined flag i event sv :
  frames_harmless i event → server_confined flag sv → server_confined flag (server_step state_dir base_guest endpoint (At i event) sv).
Proof.
  intros Hev Hsv. destruct Hsv as [Hi Hr Hd Hc] eqn:E. clear E. cbn [server_step].
  destruct (sr_conns sv !! i) as [l|] eqn:Hl; [|done]. destruct (enabled sv l event); [|done].
  destruct (Hc i l Hl) as [Hcl Hsd]. pose proof (confined_turn i event _ Hev Hcl) as Ht.
  assert (Hp : cn_principal (set_cn_host (sr_host sv) (lv_conn l)) = None ∨
               ∃ b, cn_principal (set_cn_host (sr_host sv) (lv_conn l)) = Some (PBox b)).
  { destruct (cf_principal _ _ _ _ Hcl); eauto. }
  pose proof (sd_turn state_dir base_guest endpoint event _ Hp) as Hsd'.
  destruct (turn event (set_cn_host (sr_host sv) (lv_conn l))) as [goes_on c]. cbn in Ht, Hsd'.
  split; cbn; [apply Ht|by rewrite Hr, Hsd', Hsd, orb_false_r|done|]. intros j l' Hj.
  apply list_lookup_insert_Some in Hj as [(<- & <- & _)|[_ Hj]]; cbn.
  - split; [by apply confined_moves; [|apply Ht]|congruence].
  - destruct (Hc j l' Hj) as [Hcj Hsj]. split; [|done]. destruct Hcj as [_ Hpj Hshj]. split; [apply Ht|done|done].
Qed.

Lemma step_confined flag step sv :
  (∀ i event, step = At i event → frames_harmless i event) →
  server_confined flag sv → server_confined flag (server_step state_dir base_guest endpoint step sv).
Proof.
  intros Hev Hsv. destruct step as [handshake|error| |i event]; [| | |apply turn_confined; eauto];
    destruct Hsv as [Hi Hr Hd Hc] eqn:E; clear E; cbn [server_step]; destruct (sr_done sv) eqn:Edone; try done.
  - split; [done..|]. cbn. intros j l Hj.
    apply lookup_snoc_Some in Hj as [[_ Hj]|[_ <-]]; [by apply Hc|].
    destruct handshake; cbn; (split; [|done]); (split; [done|by left|apply map_Forall_empty]).
  - destruct (sr_shutdown sv) eqn:E; [|done]. split; cbn; congruence || done.
Qed.

Lemma run_confined flag steps sv :
  (∀ i event, At i event ∈ steps → frames_harmless i event) →
  server_confined flag sv → server_confined flag (run_server state_dir base_guest endpoint steps sv).
Proof.
  unfold run_server. revert sv. induction steps as [|step steps IH]; intros sv Hev Hsv; [done|].
  cbn. apply IH; [intros i event Hin; apply Hev; by right|]. apply step_confined; [|done].
  intros i event ->. apply Hev. by left.
Qed.
End confinement.

(** ** The BOXes nobody has the credential of *)

Section isolation.
Context `{PlatformLaws, Ext4, Target, HostLimits, L : WorkspaceLineageStore, !LineageSpec L, Serde VmImageManifest,
          Serde BoxRecord, !SerdeLaws BoxRecord, Serde AdminRegistry, Serde BoxCredentialRegistry, Base64, ApiCrates}
  {R : Type} `{!SandboxService R, !ShellDriver R}
  (state_dir : path) (workspace_config : WorkspaceConfig) (default_policy : ExecutionPolicy)
  (isolation_mode : IsolationMode) (base_guest : GuestConfig) (endpoint : string)
  `{!SandboxServiceLaws R state_dir, !ShellDriverLaws R state_dir, !BoxLayout L state_dir}.

#[local] Instance server_manager : BoxManager BoxState :=
  local_box_manager state_dir workspace_config default_policy isolation_mode.

(** The service is in order, and the BOXes outside [held] are as in [h0]. *)
Definition untouched (held : Uuid → Prop) (h0 h : World * BoxState (R := R)) : Prop :=
  boxes_ok state_dir (as_boxes h) ∧ ∀ b, ¬ held b →
    stored_box state_dir (w_fs h.1) b = stored_box state_dir (w_fs h0.1) b ∧ h.2.2 !! b = h0.2.2 !! b.

(** What serves one BOX serves a set of them. *)
Lemma apart_untouched {A} (held : Uuid → Prop) h0 b (m : M SandboxError (World * BoxState (R := R)) A) :
  held b → (∀ s0, keeps (preserves (apart state_dir b s0)) m) → keeps (preserves (untouched held h0)) m.
Proof.
  intros Hb Hm h [Hok Ho]. destruct (Hm (as_boxes h) h) as [Hok' Ho']; [split; [done|apply others_refl]|].
  split; [done|]. intros b' Hb'. destruct (Ho b' Hb') as [<- <-]. apply Ho'. intros ->. by apply Hb'.
Qed.

#[local] Instance serves_held (held : Uuid → Prop) h0 b : held b → Serves b (untouched held h0) (λ _, True).
Proof.
  intros Hb.
  assert (Hs : ∀ s0, Serves b (apart state_dir b s0) (λ _, True)) by exact (serves_one_box state_dir workspace_config default_policy isolation_mode b).
  split; intros; try done; eapply apart_untouched; try exact Hb; intros s0; destruct (Hs s0); auto.
Qed.
Lemma authenticate_untouched (held : Uuid → Prop) h0 b token w h :
  held b → untouched held h0 (w, h) → untouched held h0 ((BoxCredentialStore.authenticate state_dir b token w).2, h).
Proof.
  intros Hb [Hok Ho].
  destruct (authenticate_apart state_dir b (as_boxes (w, h)) token w h) as [Hok' Ho']; [split; [done|apply others_refl]|].
  split; [done|]. intros b' Hb'. destruct (Ho b' Hb') as [<- <-]. apply Ho'. intros ->. by apply Hb'.
Qed.

End isolation.
