(* ===== verification/Foreground.v ===== *)
(** * Foreground: [run_foreground] of [src/sagens/daemon.rs], the daemon

    The composition root: checks of the host, the sandbox service, the BOX
    service, the first administrator, the pid file, the server.  The parts are
    those of the other files; here is their order, and what holds of the daemon
    they make. *)

From S2P Require Import Prelude RustStd Text Paths FileSystem PrivateFs Auth FsTree Manifest Config Lineage Workspace Images Protocol Runtime GuestBoot Kernel SecureRunner Microvm Launch Harness BoxStore Boxes BoxLifecycle Stack BoxApi HostConfig GuestFs Transfer Bundle Launcher Update Cli App Daemon Server.

(** [validate_host_process_binary], [TcpListener::bind] with the [local_addr] of
    its result, and [Display for SocketAddr]. *)
Class DaemonSystem := {
  check_binary : string → Result SandboxError ();
  listen : SocketAddr → Result IoError (Result IoError SocketAddr);
  socket_text : SocketAddr → string;
}.

(** The kernel after the calls in [h0]. *)
Definition kernel_after `{Kernel} (h0 : History) : Kernel := {| kernel h s := kernel (h ++ h0) s; machine := machine |}.

Inductive DaemonEnd := StillServing | Stopped.

Definition with_guest_config (c : RuntimeConfig) (g : GuestConfig) : RuntimeConfig :=
  {| rc_state_dir := rc_state_dir c; rc_guest := g; rc_workspace := rc_workspace c; rc_control := rc_control c;
     rc_lifecycle := rc_lifecycle c; rc_isolation_mode := rc_isolation_mode c; rc_hardening := rc_hardening c;
     rc_artifact_bundle := rc_artifact_bundle c; rc_default_policy := rc_default_policy c |}.

(** More calls do not undo a check. *)
Lemma succeeded_within binary dir h k k' : harness_succeeded binary dir h → harness_succeeded binary dir (k ++ h ++ k').
Proof. intros (r & Hin & Hr). exists r. split; [set_solver|done]. Qed.
Lemma did_within x h k k' : Launch.did x h → Launch.did x (k ++ h ++ k').
Proof. intros (r & Hin & Hr). exists r. split; [set_solver|done]. Qed.
Lemma probed_within `{Platform} parent probe_id h k k' : probed parent probe_id h → probed parent probe_id (k ++ h ++ k').
Proof.
  intros (Hmk & Hread & Hset & Hrm). split_and!; [by apply did_within..| |by apply did_within].
  eapply Forall_impl; [exact Hset|]. intros [[p data] context]. apply did_within.
Qed.

Section foreground.
Context `{!Platform, !Ext4, !Target, !HostLimits, L : !WorkspaceLineageStore, !Serde VmImageManifest, !Serde BoxRecord,
          !Serde AdminRegistry, !Serde BoxCredentialRegistry, !Base64, !ApiCrates, !HostEnv, !DaemonHost, !Embedded,
          !Serde LibkrunRunnerConfig, !Serde DaemonRuntimeInfo, system : !DaemonSystem}
  `{host_kernel : Kernel} {G : Type} `{!GuestHost G}
  (shells : ∀ config state_dir, @ShellDriver RuntimeState (local_sandbox_service (G := G) config state_dir))
  (cwd : path) (uuid_error : string → string) (guests : G).

(** ** The state of the process *)

Record Fg := mkFg {
  fg_ls : LS;                                    (** files, and what was asked of the system *)
  fg_calls : History;                            (** the calls of the checks *)
  fg_boxes : BoxState (R := RuntimeState (G := G));
}.
Local Abbreviation FM := (M SandboxError Fg).

Definition fg_launcher {A} (m : M SandboxError LS A) : FM A := zoom fg_ls (λ l s, mkFg l (fg_calls s) (fg_boxes s)) m.
Definition fg_files {A} (m : M SandboxError World A) : FM A :=
  zoom (λ s, (fg_ls s).1) (λ w s, mkFg (w, (fg_ls s).2) (fg_calls s) (fg_boxes s)) m.
Definition fg_service {A} (m : M SandboxError (BoxService (R := RuntimeState (G := G))) A) : FM A :=
  zoom (λ s, as_boxes ((fg_ls s).1, fg_boxes s))
       (λ b s, mkFg ((of_boxes b).1, (fg_ls s).2) (fg_calls s) (of_boxes b).2) m.

(** A check of the host, which is a program over system calls.  None of them
    exits or waits. *)
Definition fg_kernel {A} (m : Kernel → RM A) : FM A := λ s,
  let '(r, h) := m (kernel_after (fg_calls s)) [] in
  (match r with
   | Ok a => Ok a
   | Err (Failed e) => Err e
   | Err _ => Err (Backend "check of the host ended the process")
   end, mkFg (fg_ls s) (h ++ fg_calls s) (fg_boxes s)).

(** ** [AgentSandboxService::new] *)

(** [resolve_config] of [src/runtime/service/mod.rs]; the identifier of the
    probe of the control group is drawn first. *)
Definition resolve_config (config : RuntimeConfig) : FM RuntimeConfig :=
  guest ← fg_files (resolve_guest_paths cwd (rc_state_dir config) (bundle_id (rc_artifact_bundle config)) (rc_guest config));
  let resolved := with_guest_config config guest in
  lift (RuntimeConfig_validate resolved);;
  probe_id ← fg_files new_v4;
  fg_kernel (λ K, preflight_runtime (H := K) resolved probe_id);;
  mret resolved.

Definition state_path (config : RuntimeConfig) : path := at_text cwd (rc_state_dir config).

Definition AgentSandboxService_new (config : RuntimeConfig) : FM RuntimeConfig :=
  resolved ← resolve_config config;
  fg_files (ensure_layout (state_path config));;
  modify (λ s, mkFg (fg_ls s) (fg_calls s) (mkRuntime guests ∅ [] ∅, ∅));;
  mret resolved.

(** ** Administrators and runtime information *)

Definition bootstrap_admin_if_needed (state_dir : path) : M SandboxError World () :=
  match env_var "SAGENS_BOOTSTRAP_ADMIN_UUID", env_var "SAGENS_BOOTSTRAP_ADMIN_TOKEN" with
  | Some admin_uuid, Some admin_token =>
      id ← lift (ok_or (InvalidConfig ("invalid bootstrap admin uuid: " ^+ uuid_error admin_uuid)) (uuid_parse admin_uuid));
      AdminStore.bootstrap state_dir {| ac_admin_uuid := id; ac_admin_token := admin_token |};;
      mret ()
  | _, _ => mret ()
  end.

Definition write_runtime_info (state_dir : path) (mode : IsolationMode) : M SandboxError World () :=
  ensure_private_dir state_dir "creating daemon runtime info directory";;
  data ← map_err (Json "encoding daemon runtime info") (lift (to_vec (mkInfo mode)));
  write_private_file (state_dir ++ ["daemon.runtime.json"]) data "creating daemon runtime info directory"
    "writing daemon runtime info".

(** ** The services on a configuration *)

Section services.
Context (config resolved : RuntimeConfig).

#[local] Instance daemon_sandboxes : SandboxService RuntimeState := local_sandbox_service (G := G) resolved (state_path config).
#[local] Instance daemon_shells : ShellDriver RuntimeState := shells resolved (state_path config).
#[local] Instance daemon_boxes : BoxManager BoxState :=
  local_box_manager (state_path config) (rc_workspace config) (rc_default_policy config) (rc_isolation_mode config).

Definition start_boxes : M SandboxError (BoxService (R := RuntimeState (G := G))) () :=
  LocalBoxService_new (state_path config) (rc_workspace config) (rc_default_policy config) (rc_isolation_mode config).

(** The server from [host] on: the steps until now, then those to come. *)
Definition daemon_server (host : World * BoxState (R := RuntimeState (G := G))) (shutdown : bool) : Server := mkServer host [] shutdown None.
Definition moved (host : World * BoxState (R := RuntimeState (G := G))) (shutdown : bool) (sv : Server) : Server :=
  mkServer host (sr_conns sv) (sr_shutdown sv || shutdown) (sr_done sv).
Definition daemon_run (guest : GuestConfig) (endpoint : string) (steps : list ServerStep) (sv : Server) : Server :=
  run_server (state_path config) guest endpoint steps sv.

(** [handle.wait] returns when the accept loop has; [early] are the steps of the
    server before the runtime information is written, [later] those after. *)
Definition serve_daemon (paths : SagensPaths) (guest : GuestConfig) (endpoint : string) (early later : list ServerStep) :
    FM DaemonEnd :=
  let hold sv s := mkFg ((sr_host sv).1, (fg_ls s).2) (fg_calls s) (sr_host sv).2 in
  sv ← gets (λ s, daemon_run guest endpoint early (daemon_server ((fg_ls s).1, fg_boxes s) false));
  modify (hold sv);;
  info ← attempt (fg_files (write_runtime_info (state_path config) (rc_isolation_mode config)));
  sv ← gets (λ s, daemon_run guest endpoint later (moved ((fg_ls s).1, fg_boxes s) (negb (is_ok info)) sv));
  modify (hold sv);;
  match sr_done sv with
  | None => mret StillServing
  | Some result =>
      match info with
      | Err error => throw error
      | Ok _ => attempt (fg_launcher (cleanup_pid_file cwd paths));; lift result;; mret Stopped
      end
  end.
End services.

(** ** [run_foreground] *)

(** Everything before the server listens: the configuration, the one with the
    unpacked guest, and the guest that images start from. *)
Definition prepare (paths : SagensPaths) (host_binary : string) : FM (RuntimeConfig * RuntimeConfig * GuestConfig) :=
  lift (check_binary host_binary);;
  config ← lift (build_runtime_config_for_endpoint (sp_state_dir paths) (sp_endpoint paths));
  fg_files (ensure_private_dir (state_path config) "creating daemon state directory");;
  fg_kernel (λ K, preflight_secure_runner (outside := K) (state_path config) host_binary config);;
  resolved ← AgentSandboxService_new config;
  fg_service (start_boxes config);;
  fg_files (bootstrap_admin_if_needed (state_path config));;
  fg_launcher (write_pid_file cwd paths);;
  guest ← fg_files (resolve_guest_paths cwd (rc_state_dir config) (bundle_id (rc_artifact_bundle config)) (rc_guest config));
  mret (config, resolved, guest).

Definition open_listener (addr : SocketAddr) : Result SandboxError SocketAddr :=
  match listen addr with
  | Err error => Err (Io "binding box api websocket listener" error)
  | Ok (Err error) => Err (Io "reading box api listener address" error)
  | Ok (Ok bound) => Ok bound
  end.

Definition run_foreground (paths : SagensPaths) (host_binary : string) (early later : list ServerStep) : FM DaemonEnd :=
  '(config, resolved, guest) ← prepare paths host_binary;
  bound ← lift (open_listener (bind_addr (rc_control config)));
  serve_daemon config resolved paths guest ("ws://" ^+ socket_text bound) early later.
End foreground.

(** ** The records of the BOXes are left alone *)

Section startup.
Context `{PlatformLaws, !Ext4, !Target, !HostLimits, L : !WorkspaceLineageStore, !LineageSpec L, !Serde VmImageManifest,
          !Serde BoxRecord, !SerdeLaws BoxRecord, !Serde AdminRegistry, !Serde BoxCredentialRegistry, !Base64, !ApiCrates,
          !HostEnv, !DaemonHost, !Embedded, !Serde LibkrunRunnerConfig, !Serde DaemonRuntimeInfo, system : !DaemonSystem}
  `{host_kernel : Kernel} {G : Type} `{!GuestHost G}
  (shells : ∀ config state_dir, @ShellDriver RuntimeState (local_sandbox_service (G := G) config state_dir))
  (cwd : path) (uuid_error : string → string) (guests : G)
  (paths : SagensPaths) (host_binary : string).

(** The state directory; the pid file is the one [resolve_paths] names, and the
    bundle and its files have plain names. *)
Local Abbreviation sd := (at_text cwd (sp_state_dir paths)).
Context `{!GuestLaws G sd, !BoxLayout L sd}
  (pid_in_state_dir : sp_pid_path paths = path_join (sp_state_dir paths) "daemon.pid")
  (bundle_plain : plain_name (default "sagens" (env_var "SAGENS_BUNDLE_ID")))
  (assets_plain : Forall plain_name (ea_file_name <$> needed_assets guest_config)).

Local Abbreviation F := (Fg (G := G)).
Local Abbreviation world s := (fg_ls s).1.
Local Abbreviation boxes_of s := (as_boxes (world s, fg_boxes s)).
Local Abbreviation stored s := (stored_box sd (w_fs (world s))).

Definition not_a_box (q : path) : Prop := ∀ b, q ≠ box_path sd b.

Lemma not_box_by_length q : length q ≤ S (length sd) → not_a_box q.
Proof. intros Hl b ->. unfold box_path in Hl. rewrite length_app in Hl. cbn in Hl. lia. Qed.

Lemma not_box_by_name name k : name ≠ "boxes" → not_a_box (sd ++ name :: k).
Proof. intros Hn b E. unfold box_path in E. apply app_inv_head in E. by injection E. Qed.

Lemma prefix_not_box name k q : name ≠ "boxes" → q `prefix_of` sd ++ name :: k → not_a_box q.
Proof.
  intros Hn Hq b ->. destruct Hq as [j Hj]. unfold box_path in Hj. rewrite <-app_assoc in Hj. apply app_inv_head in Hj. by injection Hj.
Qed.

(** The records, the sandboxes and the table of live ones are as before. *)
Definition records_kept (s s' : F) : Prop := (∀ b, stored s' b = stored s b) ∧ fg_boxes s' = fg_boxes s.
#[local] Instance records_kept_preorder : PreOrder records_kept.
Proof. split; [by intros s|]. intros s1 s2 s3 [H12 E12] [H23 E23]. split; [intros b; congruence|congruence]. Qed.

Lemma kept_files {A} (m : M SandboxError World A) : keeps (frame not_a_box) m → keeps records_kept (fg_files (G := G) m).
Proof.
  intros Hm s. specialize (Hm (world s)). unfold fg_files, zoom. destruct (m (world s)) as [r w]. split; [|done].
  intros b. apply decode_ext. apply Hm. intros Hp. by apply (Hp b).
Qed.

Lemma kept_kernel {A} (m : Kernel → RM A) : keeps records_kept (fg_kernel (G := G) m).
Proof. intros s. unfold fg_kernel. by destruct (m (kernel_after (fg_calls s)) []). Qed.

Lemma bundle_not_box q : bundle_path cwd (bundle_dir (sp_state_dir paths) (default "sagens" (env_var "SAGENS_BUNDLE_ID"))) q → not_a_box q.
Proof.
  assert (Hat : at_text cwd (bundle_dir (sp_state_dir paths) (default "sagens" (env_var "SAGENS_BUNDLE_ID"))) =
                sd ++ ["embedded-bundle"; default "sagens" (env_var "SAGENS_BUNDLE_ID")]).
  { unfold bundle_dir. rewrite !at_text_name by done. by rewrite <-app_assoc. }
  unfold bundle_path. rewrite Hat. intros [Hq|[k ->]]; [by apply (prefix_not_box "embedded-bundle" [default "sagens" (env_var "SAGENS_BUNDLE_ID")])|]. rewrite <-app_assoc. by apply not_box_by_name.
Qed.

Lemma kept_bundle g :
  g = guest_config →
  keeps records_kept (fg_files (G := G) (resolve_guest_paths cwd (sp_state_dir paths) (default "sagens" (env_var "SAGENS_BUNDLE_ID")) g)).
Proof.
  intros ->. apply kept_files. eapply keeps_impl, (resolve_guest_within cwd _ _ _ bundle_plain assets_plain).
  intros w w' Hf q Hq. apply Hf. intros Hb. by apply Hq, bundle_not_box.
Qed.

Lemma kept_pid : keeps records_kept (fg_launcher (G := G) (write_pid_file cwd paths)).
Proof.
  intros s. unfold fg_launcher, write_pid_file, Launcher.on_files, zoom. set (m := write_private_file _ _ _ _).
  assert (Hm : keeps (frame not_a_box) m).
  { apply keeps_write_private_file. unfold pid_file, file_of. rewrite pid_in_state_dir.
    fold (at_text cwd (path_join (sp_state_dir paths) "daemon.pid")). rewrite at_text_name by done.
    intros q Hq. by apply (prefix_not_box "daemon.pid" []). }
  specialize (Hm (world s)). destruct (m (world s)) as [r w]. split; [|done].
  intros b. apply decode_ext. apply Hm. intros Hp. by apply (Hp b).
Qed.

Lemma kept_bootstrap : keeps records_kept (fg_files (G := G) (bootstrap_admin_if_needed uuid_error sd)).
Proof.
  apply kept_files. unfold bootstrap_admin_if_needed, AdminStore.bootstrap, AdminStore.read, AdminStore.write, read_registry,
    write_registry, new_record, generate_token. keeps_tac.
  - apply keeps_ensure_private_dir. intros q Hq. apply (prefix_not_box "admins" ["registry.json"]); [done|]. etrans; [exact Hq|apply parent_prefix].
  - apply keeps_write_private_file. intros q Hq. by apply (prefix_not_box "admins" ["registry.json"]).
Qed.

Lemma config_fields config :
  build_runtime_config_for_endpoint (sp_state_dir paths) (sp_endpoint paths) = Ok config →
  rc_state_dir config = sp_state_dir paths ∧ rc_guest config = guest_config ∧
  bundle_id (rc_artifact_bundle config) = default "sagens" (env_var "SAGENS_BUNDLE_ID").
Proof.
  unfold build_runtime_config_for_endpoint. destruct parse_isolation_mode; [|done]. cbn.
  destruct (parse_endpoint_addr _); [|done]. by intros [= <-].
Qed.

(** The checks of the host that secure mode needs were made, and came out well. *)
Definition vetted (config : RuntimeConfig) (h : History) : Prop :=
  on_linux = true ∧ enable_landlock (rc_hardening config) = true ∧
  (∃ name, harness_succeeded host_binary (sd ++ ["secure-preflight"; name]) h) ∧
  (∃ parent probe_id, cgroup_parent (rc_hardening config) = Some parent ∧ probed parent probe_id h) ∧
  ∃ abi, (LandlockAbi, abi) ∈ h ∧ (1 ≤ rp_value abi)%Z.

Lemma fg_kernel_ok {A} (m : Kernel → RM A) (s : F) a s' :
  fg_kernel m s = (Ok a, s') → ∃ h, m (kernel_after (fg_calls s)) [] = (Ok a, h) ∧ fg_calls s' = h ++ fg_calls s.
Proof. unfold fg_kernel. destruct (m _ []) as [[x|[e|c|]] h]; intros [= <- <-]; eauto. Qed.

Lemma fg_service_ok {A} (m : M SandboxError (BoxService (R := RuntimeState (G := G))) A) (s : F) r s' :
  fg_service m s = (r, s') → m (boxes_of s) = (r, boxes_of s') ∧ fg_calls s' = fg_calls s.
Proof. unfold fg_service, zoom. destruct (m (boxes_of s)) as [r1 [w rt act]]. intros [= <- <-]. done. Qed.

Lemma fg_files_calls {A} (m : M SandboxError World A) (s : F) r s' : fg_files m s = (r, s') → fg_calls s' = fg_calls s.
Proof. unfold fg_files, zoom. destruct (m (world s)). by intros [= <- <-]. Qed.
Lemma fg_launcher_calls {A} (m : M SandboxError LS A) (s : F) r s' : fg_launcher m s = (r, s') → fg_calls s' = fg_calls s.
Proof. unfold fg_launcher, zoom. destruct (m (fg_ls s)). by intros [= <- <-]. Qed.

(** *** The sandbox service *)

Lemma resolve_config_ok config (s : F) resolved s' :
  build_runtime_config_for_endpoint (sp_state_dir paths) (sp_endpoint paths) = Ok config →
  resolve_config cwd config s = (Ok resolved, s') →
  records_kept s s' ∧ (∃ g, resolved = with_guest_config config g) ∧ RuntimeConfig_validate resolved = Ok () ∧
  ∃ h probe_id, fg_calls s' = h ++ fg_calls s ∧
    preflight_runtime (H := kernel_after (fg_calls s)) resolved probe_id [] = (Ok (), h).
Proof.
  intros Hc Hr. destruct (config_fields config Hc) as (E1 & E2 & E3). unfold resolve_config in Hr. rewrite E1, E2, E3 in Hr.
  apply (bind_ok_keeps records_kept) in Hr as (g & s1 & K1 & F1 & Hr); [|by apply kept_bundle]. cbv zeta in Hr.
  apply bind_ok_inv in Hr as ([] & s2 & [Hval <-]%lift_ok_inv & Hr).
  apply (bind_ok_keeps records_kept) in Hr as (probe_id & s3 & K3 & F3 & Hr); [|apply kept_files; keeps_tac].
  apply (bind_ok_keeps records_kept) in Hr as ([] & s4 & K4 & F4 & Hr); [|apply kept_kernel].
  apply ret_ok_inv in Hr as [<- <-]. apply fg_files_calls in F1, F3. apply fg_kernel_ok in F4 as (h & Hp & Hh).
  split; [by etrans; [exact K1|etrans]|]. split; [by eexists|]. split; [done|]. exists h, probe_id. by rewrite Hh, F3, F1 in *.
Qed.

(** *** The whole start *)

(** Records are filed under their identifiers and the sandboxes of the service
    are in order, on the sandbox service of a configuration. *)
Definition daemon_ok (resolved : RuntimeConfig) (s : F) : Prop :=
  boxes_ok (SandboxService0 := local_sandbox_service (G := G) resolved sd)
    (SandboxServiceLaws0 := local_sandbox_laws resolved sd) sd (boxes_of s).

Definition records_named (s : F) : Prop := ∀ b r, stored s b = Some r → bx_box_id r = b.

Lemma kept_named s s' : records_kept s s' → records_named s → records_named s'.
Proof. intros [Hs _] Hn b r. rewrite Hs. apply Hn. Qed.

Lemma fresh_ok resolved (s : F) : records_named s → fg_boxes s = (mkRuntime guests ∅ [] ∅, ∅) → daemon_ok resolved s.
Proof. intros Hn Hb. split; [|done]. rewrite Hb. split; [by constructor|apply map_Forall_empty]. Qed.

Lemma kept_ok resolved s s' : records_kept s s' → daemon_ok resolved s → daemon_ok resolved s'.
Proof.
  intros [Hs Hb] [Hrt Hn]. split; [cbn; by rewrite Hb|]. intros b r. cbn. rewrite Hs. apply Hn.
Qed.

(** The two checks, one after the other, with other calls around them. *)
Lemma vetted_by config g k0 k1 k2 h2 h probe_id hall :
  rc_isolation_mode config = Secure → hall = h ++ h2 ++ k0 →
  preflight_secure_runner (outside := kernel_after k1) sd host_binary config [] = (Ok (), h2) →
  preflight_runtime (H := kernel_after k2) (with_guest_config config g) probe_id [] = (Ok (), h) →
  vetted config hall.
Proof using Type.
  intros Hsec -> Hgate Hpre.
  apply (preflight_gates (outside := kernel_after k1)) in Hgate as (Hl & name & Hh); [|done].
  apply (preflight_fail_closed (H := kernel_after k2)) in Hpre as [Hp _]; [|done].
  destruct Hp as (_ & Hland & (parent & Hpar & Hprobe) & abi & Habi & Hv); [done|].
  split_and!; [done|done| | |].
  - exists name. by apply succeeded_within.
  - exists parent, probe_id. split; [done|]. by apply (probed_within _ _ _ []).
  - exists abi. split; [apply elem_of_app; by left|done].
Qed.

(** The sandbox service and the BOX service have come up on the records of [s]. *)
Lemma services_outcome config (s s1 s2 : F) resolved :
  build_runtime_config_for_endpoint (sp_state_dir paths) (sp_endpoint paths) = Ok config → records_named s →
  AgentSandboxService_new cwd guests config s = (Ok resolved, s1) →
  fg_service (start_boxes cwd config) s1 = (Ok (), s2) →
  (∃ g, resolved = with_guest_config config g) ∧ RuntimeConfig_validate resolved = Ok () ∧
  daemon_ok resolved s2 ∧ (∀ b x, stored s2 b = Some x → bx_status x ≠ BRunning) ∧
  ∃ h probe_id, fg_calls s2 = h ++ fg_calls s ∧
    preflight_runtime (H := kernel_after (fg_calls s)) resolved probe_id [] = (Ok (), h).
Proof.
  intros Hc Hn Hnew Hboxes. destruct (config_fields config Hc) as (E1 & E2 & E3).
  unfold AgentSandboxService_new, state_path in Hnew. rewrite E1 in Hnew.
  apply bind_ok_inv in Hnew as (res & s3 & F3 & Hnew). apply (resolve_config_ok config) in F3 as (K3 & Hg & Hval & h & probe_id & Eh & Hpre); [|done].
  apply (bind_ok_keeps records_kept) in Hnew as ([] & s4 & K4 & F4 & Hnew); [|apply kept_files, layout_frame].
  apply bind_ok_inv in Hnew as ([] & s4' & ->%modify_ok_inv & Hnew). apply ret_ok_inv in Hnew as [<- <-].
  set (s5 := mkFg _ _ _) in Hboxes.
  assert (Hn4 : records_named s4) by (by eapply kept_named; [exact K4|]; eapply kept_named).
  assert (Hok5 : daemon_ok res s5) by by apply fresh_ok.
  apply fg_service_ok in Hboxes as [F6 E6]. unfold start_boxes, state_path in F6. rewrite E1 in F6.
  pose proof (restart_named (SandboxService0 := local_sandbox_service (G := G) res sd)
    (SandboxServiceLaws0 := local_sandbox_laws res sd) sd (rc_workspace config) (rc_default_policy config) (rc_isolation_mode config)
    (boxes_of s5) Hok5) as Hok6. rewrite F6 in Hok6. cbn [snd] in Hok6.
  pose proof (restart_none_running (SandboxService0 := local_sandbox_service (G := G) res sd)
    (SandboxServiceLaws0 := local_sandbox_laws res sd) sd (rc_workspace config) (rc_default_policy config) (rc_isolation_mode config)
    (boxes_of s5) (boxes_of s2) Hok5 F6) as Hrun6.
  do 3 (split; [done|]). split; [exact Hrun6|]. exists h, probe_id. split; [|done].
  apply fg_files_calls in F4. rewrite E6. cbn. by rewrite F4.
Qed.

Lemma prepare_outcome s config resolved guest s' :
  records_named s → prepare cwd uuid_error guests paths host_binary s = (Ok (config, resolved, guest), s') →
  check_binary host_binary = Ok () ∧ build_runtime_config_for_endpoint (sp_state_dir paths) (sp_endpoint paths) = Ok config ∧
  (∃ g, resolved = with_guest_config config g) ∧ RuntimeConfig_validate resolved = Ok () ∧
  (rc_isolation_mode config = Secure → vetted config (fg_calls s')) ∧
  daemon_ok resolved s' ∧ (∀ b x, stored s' b = Some x → bx_status x ≠ BRunning).
Proof.
  intros Hn Hr. unfold prepare in Hr.
  apply bind_ok_inv in Hr as ([] & s0 & [Hbin <-]%lift_ok_inv & Hr).
  apply bind_ok_inv in Hr as (c & s0 & [Hc <-]%lift_ok_inv & Hr).
  destruct (config_fields c Hc) as (E1 & E2 & E3). unfold state_path in Hr. rewrite E1 in Hr.
  apply (bind_ok_keeps records_kept) in Hr as ([] & s1 & K1 & F1 & Hr).
  2:{ apply kept_files, keeps_ensure_private_dir. intros q Hq%prefix_length. apply not_box_by_length. lia. }
  apply (bind_ok_keeps records_kept) in Hr as ([] & s2 & K2 & F2 & Hr); [|apply kept_kernel].
  apply bind_ok_inv in Hr as (res & s5 & Hnew & Hr). apply bind_ok_inv in Hr as ([] & s6 & Hboxes & Hr).
  destruct (services_outcome c s2 s5 s6 res Hc) as (Hg & Hval & Hok6 & Hrun6 & h & probe_id & Eh & Hpre); [|done..|].
  { by eapply kept_named; [exact K2|]; eapply kept_named. }
  apply (bind_ok_keeps records_kept) in Hr as ([] & s7 & K7 & F7 & Hr); [|apply kept_bootstrap].
  apply (bind_ok_keeps records_kept) in Hr as ([] & s8 & K8 & F8 & Hr); [|apply kept_pid].
  rewrite E2, E3 in Hr. apply (bind_ok_keeps records_kept) in Hr as (g & s9 & K9 & F9 & Hr); [|by apply kept_bundle].
  apply ret_ok_inv in Hr as [[= <- <- <-] <-].
  assert (K : records_kept s6 s9) by (etrans; [exact K7|by etrans]).
  split_and!; [done|done|done|done| | |].
  - intros Hsec. apply fg_files_calls in F7, F9. apply fg_launcher_calls in F8. apply fg_kernel_ok in F2 as (h2 & Hgate & Eh2).
    assert (Ecalls : fg_calls s9 = h ++ h2 ++ fg_calls s1) by (by rewrite F9, F8, F7, Eh, Eh2).
    destruct Hg as [g' ->]. by eapply vetted_by.
  - eapply kept_ok; [exact K|]. exact Hok6.
  - intros b x. rewrite (proj1 K b). apply Hrun6.
Qed.

(** ** Serving *)

Context (shell_laws : ∀ config,
  @ShellDriverLaws RuntimeState sd (local_sandbox_service (G := G) config sd) (shells config sd) (local_sandbox_laws config sd))
  (holder : nat → Uuid).

(** The BOXes a client has the credential of. *)
Definition held (b : Uuid) : Prop := ∃ i, holder i = b.

(** The daemon is in order, and the other BOXes are as on [h0]. *)
Definition quiet (resolved : RuntimeConfig) (h0 h : World * BoxState (R := RuntimeState (G := G))) : Prop :=
  untouched (SandboxService0 := local_sandbox_service (G := G) resolved sd)
    (SandboxServiceLaws0 := local_sandbox_laws resolved sd) sd held h0 h.

Lemma quiet_files resolved h0 w h w' :
  frame not_a_box w w' → quiet resolved h0 (w, h) → quiet resolved h0 (w', h).
Proof.
  intros Hf [[Hrt Hn] Ho]. assert (Hs : ∀ b, stored_box sd (w_fs w') b = stored_box sd (w_fs w) b).
  { intros b. apply decode_ext, Hf. intros Hp. by apply (Hp b). }
  split; [split; [done|]|].
  - intros b r. cbn. rewrite Hs. apply Hn.
  - intros b Hb. cbn. rewrite Hs. by apply Ho.
Qed.

Lemma info_frame mode : keeps (frame not_a_box) (write_runtime_info sd mode).
Proof.
  unfold write_runtime_info. keeps_tac.
  - apply keeps_ensure_private_dir. intros q Hq%prefix_length. apply not_box_by_length. lia.
  - apply keeps_write_private_file. intros q Hq. by apply (prefix_not_box "daemon.runtime.json" []).
Qed.

Lemma cleanup_frame ls : frame not_a_box ls.1 (cleanup_pid_file cwd paths ls).2.1.
Proof.
  unfold cleanup_pid_file, mbind, M_bind, attempt, zoom. unfold pid_file, file_of. rewrite pid_in_state_dir.
  fold (at_text cwd (path_join (sp_state_dir paths) "daemon.pid")). rewrite at_text_name by done.
  assert (Hp : not_a_box (sd ++ ["daemon.pid"])) by by apply (not_box_by_name "daemon.pid" []).
  pose proof (keeps_remove_file _ _ Hp ls.1) as Hk. destruct (fs_remove_file _ ls.1) as [[[]|e] w]; cbn in Hk; [exact Hk|].
  case_decide; exact Hk.
Qed.

Definition box_clients (steps : list ServerStep) : Prop := ∀ i text m,
  At i (EvFrame (FrText text)) ∈ steps → decode_client_message text = Ok m → as_box (holder i) m.

Section one_configuration.
Context (guest : GuestConfig) (ws : WorkspaceConfig) (control : ControlPlaneConfig) (lifecycle : LifecycleConfig)
  (mode : IsolationMode) (hardening : HardeningConfig) (bundle : ArtifactBundle) (policy : ExecutionPolicy)
  (resolved : RuntimeConfig) (endpoint : string) (h0 : World * BoxState (R := RuntimeState (G := G))).

Local Abbreviation config := (Build_RuntimeConfig (sp_state_dir paths) guest ws control lifecycle mode hardening bundle policy).
#[local] Instance one_manager : BoxManager BoxState := daemon_boxes shells cwd config resolved.

#[local] Instance one_serves i : Serves (holder i) (quiet resolved h0) (λ _, True).
Proof.
  apply (serves_held (SandboxService0 := local_sandbox_service (G := G) resolved sd) (ShellDriver0 := shells resolved sd)
    (SandboxServiceLaws0 := local_sandbox_laws resolved sd) (ShellDriverLaws0 := shell_laws resolved)
    sd ws policy mode). by exists i.
Qed.

Lemma clients_harmless steps i event :
  box_clients steps → At i event ∈ steps → frames_harmless sd holder (quiet resolved h0) i event.
Proof.
  intros Hev Hin text m -> Hm. specialize (Hev i text m Hin Hm).
  destruct m as [id token|b' token|request]; cbn in *; [done| |done]. subst b'. intros w h Hi. split; [|done].
  apply (authenticate_untouched (SandboxService0 := local_sandbox_service (G := G) resolved sd) sd
    (SandboxServiceLaws0 := local_sandbox_laws resolved sd)); [by exists i|done].
Qed.

Lemma run_quiet flag steps g sv :
  box_clients steps → server_confined holder (quiet resolved h0) flag sv →
  server_confined holder (quiet resolved h0) flag (daemon_run shells cwd config resolved g endpoint steps sv).
Proof.
  intros Hev Hsv. unfold daemon_run.
  refine (run_confined sd g endpoint holder (quiet resolved h0) flag steps sv _ Hsv).
  intros i event Hin. by eapply clients_harmless.
Qed.

(** The server with the disk changed by the daemon itself, and perhaps told to stop. *)
Lemma moved_quiet host flag sv :
  quiet resolved h0 host → server_confined holder (quiet resolved h0) false sv →
  server_confined holder (quiet resolved h0) flag (moved shells cwd config resolved host flag sv).
Proof.
  intros Hq [Hi Hs Hd Hc]. split; cbn; [done|by rewrite Hs|by intros E; apply Hd in E|].
  intros i l Hl. destruct (Hc i l Hl) as [[_ Hp Hsh] Hf]. split; [|done]. split; [done|done|done].
Qed.
End one_configuration.

Lemma serve_outcome config resolved guest endpoint early later s r s' :
  rc_state_dir config = sp_state_dir paths → daemon_ok resolved s → box_clients early → box_clients later →
  serve_daemon shells cwd config resolved paths guest endpoint early later s = (r, s') →
  r ≠ Ok Stopped ∧ quiet resolved (world s, fg_boxes s) (world s', fg_boxes s').
Proof.
  intros Ec Hok Hearly Hlater. destruct config as [sdir g ws control lifecycle mode hardening bundle policy]. cbn in Ec. subst sdir.
  set (config := Build_RuntimeConfig _ _ _ _ _ _ _ _ _). set (h0 := (world s, fg_boxes s)).
  unfold serve_daemon. unfold mbind at 1, M_bind at 1, gets. cbv zeta.
  set (sv1 := daemon_run _ _ _ _ _ _ early _).
  assert (Hs1 : server_confined (BoxManager0 := daemon_boxes shells cwd config resolved) holder (quiet resolved h0) false sv1).
  { apply run_quiet; [done|]. split; cbn; [split; [exact Hok|done]|done|done|done]. }
  unfold mbind at 1, M_bind at 1, modify. unfold mbind at 1, M_bind at 1, attempt at 1.
  unfold fg_files at 1, zoom at 1. cbn [fg_ls fst].
  pose proof (info_frame mode (sr_host sv1).1) as Hf.
  change (state_path cwd config) with sd. change (rc_isolation_mode config) with mode.
  destruct (write_runtime_info sd mode (sr_host sv1).1) as [info w2]. cbn in Hf.
  set (flag := negb (is_ok info)).
  assert (Hq2 : quiet resolved h0 (w2, (sr_host sv1).2)).
  { eapply quiet_files; [exact Hf|]. destruct Hs1 as [Hi _ _ _]. by destruct (sr_host sv1). }
  unfold mbind at 1, M_bind at 1. cbn [fg_ls fg_boxes fst].
  set (sv2 := daemon_run _ _ _ _ _ _ later _).
  assert (Hs2 : server_confined (BoxManager0 := daemon_boxes shells cwd config resolved) holder (quiet resolved h0) flag sv2).
  { apply run_quiet; [done|]. by apply moved_quiet. }
  destruct Hs2 as [Hi2 _ Hd2 _]. clearbody sv2. unfold mbind at 1, M_bind at 1. cbn [fg_ls fg_boxes fst snd fg_calls].
  destruct (sr_done sv2) as [result|]; [|intros [= <- <-]; cbn; by destruct (sr_host sv2)].
  destruct info as [[]|e]; [|intros [= <- <-]; cbn; by destruct (sr_host sv2)].
  unfold mbind, M_bind, attempt, fg_launcher, zoom. cbn [fg_ls].
  match goal with |- context [cleanup_pid_file cwd paths ?ls] =>
    pose proof (cleanup_frame ls) as Hk; destruct (cleanup_pid_file cwd paths ls) as [rc ls'] end. cbn in Hk.
  destruct result as [[]|e]; [by specialize (Hd2 eq_refl)|]. intros [= <- <-]. split; [done|]. cbn.
  eapply quiet_files; [exact Hk|]. by destruct (sr_host sv2).
Qed.


(** *** A daemon that cannot listen *)

Lemma pid_file_at : pid_file cwd paths = sd ++ ["daemon.pid"].
Proof.
  unfold pid_file, file_of. rewrite pid_in_state_dir. by apply at_text_name.
Qed.

Lemma prepare_writes_pid s config resolved guest s' :
  prepare cwd uuid_error guests paths host_binary s = (Ok (config, resolved, guest), s') →
  ∃ m, w_fs (world s') !! pid_file cwd paths = Some (File m (Text (as_bytes (pretty self_pid ^+ String line_feed "")))).
Proof.
  unfold prepare. intros Hr.
  apply bind_ok_inv in Hr as ([] & s0 & [_ <-]%lift_ok_inv & Hr). apply bind_ok_inv in Hr as (c & s0 & [Hc <-]%lift_ok_inv & Hr).
  destruct (config_fields c Hc) as (E1 & E2 & E3).
  do 2 apply bind_ok_inv in Hr as ([] & ? & _ & Hr). apply bind_ok_inv in Hr as (? & ? & _ & Hr).
  do 2 apply bind_ok_inv in Hr as ([] & ? & _ & Hr). apply bind_ok_inv in Hr as ([] & s8 & Hw & Hr).
  apply bind_ok_inv in Hr as (g & s9 & Hg & Hr). apply ret_ok_inv in Hr as [_ <-].
  rewrite E1, E2, E3 in Hg. revert Hw Hg. unfold fg_launcher, write_pid_file, Launcher.on_files, fg_files, zoom.
  destruct (write_private_file _ _ _ _ _) as [rw w8] eqn:Ew. intros [= -> <-]. cbn [fg_ls fst].
  pose proof (resolve_guest_within cwd (sp_state_dir paths) _ _ bundle_plain assets_plain w8) as Hf.
  destruct (resolve_guest_paths cwd _ _ _ w8) as [rg w9]. intros [= -> <-]. cbn in *.
  apply write_private_file_ok in Ew; [|rewrite pid_file_at; by destruct sd]. exists 384%Z.
  rewrite Hf, Ew; [apply lookup_insert_eq|]. rewrite pid_file_at. unfold bundle_path, bundle_dir.
  rewrite !at_text_name by done. rewrite <-app_assoc. intros [Hb|[k Hb]].
  - destruct Hb as [k Hb]. rewrite <-app_assoc in Hb. by apply app_inv_head in Hb.
  - rewrite <-app_assoc in Hb. by apply app_inv_head in Hb.
Qed.

(** a daemon that cannot listen has already done harm: when the address is taken,
    for instance by the daemon that is running, [run_foreground] fails after it
    has put its own process identifier into the pid file and recorded every
    running BOX as failed. *)
Theorem second_daemon_clobbers early later s config resolved guest s1 e :
  records_named s → prepare cwd uuid_error guests paths host_binary s = (Ok (config, resolved, guest), s1) →
  listen (bind_addr (rc_control config)) = Err e →
  run_foreground shells cwd uuid_error guests paths host_binary early later s =
    (Err (Io "binding box api websocket listener" e), s1) ∧
  (∃ m, w_fs (world s1) !! pid_file cwd paths = Some (File m (Text (as_bytes (pretty self_pid ^+ String line_feed ""))))) ∧
  ∀ b x, stored s1 b = Some x → bx_status x ≠ BRunning.
Proof.
  intros Hn Hp Hl. split_and!.
  - unfold run_foreground. rewrite (bind_ok _ _ _ _ _ Hp). cbv beta iota. unfold open_listener. by rewrite Hl.
  - by eapply prepare_writes_pid.
  - by destruct (prepare_outcome _ _ _ _ _ Hn Hp) as (_ & _ & _ & _ & _ & _ & Hrun).
Qed.
End startup.
