(* ===== verification/Embedding.v ===== *)
(** * Embedding: [src/embedding.rs] and [src/daemon_api.rs], the daemon inside another program

    The daemon of [Foreground] on a thread of the host program, without a pid
    file and without runtime information, under a handle that stops it; and the
    calls that start and stop the daemon as a process of its own.  The parts and
    the server are those of [Foreground] and [Launcher]. *)

From S2P Require Import Prelude RustStd Text Paths FileSystem PrivateFs Auth FsTree Manifest Config Lineage Workspace Images Protocol Runtime GuestBoot Kernel SecureRunner Microvm Launch Harness BoxStore Boxes BoxLifecycle Stack BoxApi HostConfig GuestFs Transfer Bundle Launcher Update Cli App Daemon Server Foreground.

Record EmbeddedDaemonConfig := {
  ec_state_dir : string;
  ec_user_config_path : string;
  ec_endpoint : string;
  ec_admin_credential : AdminCredential;
}.

Record EmbeddedDaemonInfo := {
  ei_state_dir : string;
  ei_user_config_path : string;
  ei_user_config : UserConfig;
}.

(** ** The handle *)

(** What the host program has of the thread: whether it holds the sender of the
    stop signal, and the thread. *)
Record EmbeddedDaemonHandle := mkHandle { eh_info : EmbeddedDaemonInfo; eh_stop_tx : bool; eh_thread : bool }.

(** What [recv_timeout] on the ready channel gives, with what [join] gives after
    it; a thread that panicked is [None]. *)
Inductive Ready :=
  | RxInfo (info : EmbeddedDaemonInfo)
  | RxError (error : SandboxError)
  | RxTimeout
  | RxDisconnected (joined : option (Result SandboxError ())).

Definition EmbeddedDaemonHandle_start (spawned : Result IoError ()) (ready : Ready) : Result SandboxError EmbeddedDaemonHandle :=
  match spawned with
  | Err error => Err (Io "spawning embedded daemon thread" error)
  | Ok () =>
      match ready with
      | RxInfo info => Ok (mkHandle info true true)
      | RxError error => Err error
      | RxTimeout => Err (Timeout "timed out waiting for embedded daemon startup")
      | RxDisconnected (Some (Ok ())) => Err (Backend "embedded daemon exited before reporting startup state")
      | RxDisconnected (Some (Err error)) => Err error
      | RxDisconnected None => Err (Backend "embedded daemon thread panicked")
      end
  end.

(** [close]: whether the stop signal is sent, the result and the handle after it. *)
Definition EmbeddedDaemonHandle_close (joined : option (Result SandboxError ())) (handle : EmbeddedDaemonHandle) :
    bool * Result SandboxError () * EmbeddedDaemonHandle :=
  (eh_stop_tx handle,
   if eh_thread handle then
     match joined with
     | Some result => result
     | None => Err (Backend "embedded daemon thread panicked")
     end
   else Ok (),
   mkHandle (eh_info handle) false false).

Section embedding.
Context `{!Platform, !Ext4, !Target, !HostLimits, L : !WorkspaceLineageStore, !Serde VmImageManifest, !Serde BoxRecord,
          !Serde AdminRegistry, !Serde BoxCredentialRegistry, !Serde UserConfig, !Base64, !ApiCrates, !HostEnv, !Embedded,
          !Serde LibkrunRunnerConfig, system : !DaemonSystem}
  `{host_kernel : Kernel} {G : Type} `{!GuestHost G}
  (shells : ∀ config state_dir, @ShellDriver RuntimeState (local_sandbox_service (G := G) config state_dir))
  (cwd : path) (guests : G).
Local Abbreviation FM := (M SandboxError (Fg (G := G))).

(** ** [run_embedded_daemon] *)

(** The services, up to the BOX service. *)
Definition embedded_services (c : EmbeddedDaemonConfig) (current_exe : Result IoError string) : FM (RuntimeConfig * RuntimeConfig) :=
  host_binary ← lift (match current_exe with Ok exe => Ok exe | Err e => Err (Io "discovering host process executable" e) end);
  lift (check_binary host_binary);;
  config ← lift (build_runtime_config_for_endpoint (ec_state_dir c) (ec_endpoint c));
  fg_kernel (λ K, preflight_secure_runner (outside := K) (state_path cwd config) host_binary config);;
  resolved ← AgentSandboxService_new cwd guests config;
  fg_service (start_boxes cwd config);;
  mret (config, resolved).

(** Everything before the server accepts: the configuration, the one with the
    unpacked guest, the guest that images start from, and the address. *)
Definition embedded_prepare (c : EmbeddedDaemonConfig) (current_exe : Result IoError string) :
    FM (RuntimeConfig * RuntimeConfig * GuestConfig * SocketAddr) :=
  '(config, resolved) ← embedded_services c current_exe;
  fg_files (AdminStore.bootstrap (state_path cwd config) (ec_admin_credential c));;
  guest ← fg_files (resolve_guest_paths cwd (rc_state_dir config) (bundle_id (rc_artifact_bundle config)) (rc_guest config));
  bound ← lift (open_listener (bind_addr (rc_control config)));
  mret (config, resolved, guest, bound).

Definition embedded_user_config (c : EmbeddedDaemonConfig) (bound : SocketAddr) : UserConfig :=
  {| uc_version := 1; uc_admin_uuid := ac_admin_uuid (ec_admin_credential c);
     uc_admin_token := ac_admin_token (ec_admin_credential c); uc_endpoint := "ws://" ^+ socket_text bound |}.

Section serving.
Context (c : EmbeddedDaemonConfig) (config resolved : RuntimeConfig) (guest : GuestConfig) (bound : SocketAddr).

Local Abbreviation AnyServer := (Server (BoxManager0 := daemon_boxes shells cwd config resolved)).

Definition serve_steps (steps : list ServerStep) (shutdown : bool) (sv : AnyServer) : FM AnyServer :=
  sv ← gets (λ s, daemon_run shells cwd config resolved guest ("ws://" ^+ socket_text bound) steps
                    (moved shells cwd config resolved ((fg_ls s).1, fg_boxes s) shutdown sv));
  modify (λ s, mkFg ((sr_host sv).1, (fg_ls s).2) (fg_calls s) (sr_host sv).2);;
  mret sv.

(** [server.wait] returns when the accept loop has. *)
Definition wait_result (sv : AnyServer) : FM DaemonEnd :=
  match sr_done sv with
  | None => mret StillServing
  | Some result => lift result;; mret Stopped
  end.

(** The server accepts from here on.  [None]: the user configuration could not be
    written and the server is still shutting down. *)
Definition embedded_up (early failing : list ServerStep) : FM (option (EmbeddedDaemonInfo * AnyServer)) :=
  s ← gets id;
  sv ← serve_steps early false (daemon_server shells cwd config resolved ((fg_ls s).1, fg_boxes s) false);
  written ← attempt (fg_files (write_user_config (at_text cwd (ec_user_config_path c)) (embedded_user_config c bound)));
  match written with
  | Err error =>
      sv ← serve_steps failing true sv;
      match sr_done sv with Some _ => throw error | None => mret None end
  | Ok _ =>
      mret (Some ({| ei_state_dir := ec_state_dir c; ei_user_config_path := ec_user_config_path c;
                     ei_user_config := embedded_user_config c bound |}, sv))
  end.

(** The last select: [later] are the steps before the stop signal, or before the
    handle with its sender is gone, and [stop] those after. *)
Definition embedded_loop (later : list ServerStep) (stop : option (list ServerStep)) (sv : AnyServer) : FM DaemonEnd :=
  sv ← serve_steps later false sv;
  match sr_done sv, stop with
  | None, Some steps => sv ← serve_steps steps true sv; wait_result sv
  | _, _ => wait_result sv
  end.
End serving.

Definition run_embedded_daemon (c : EmbeddedDaemonConfig) (current_exe : Result IoError string)
    (early failing later : list ServerStep) (stop : option (list ServerStep)) : FM DaemonEnd :=
  '(config, resolved, guest, bound) ← embedded_prepare c current_exe;
  up ← embedded_up c config resolved guest bound early failing;
  match up with
  | None => mret StillServing
  | Some (_, sv) => embedded_loop config resolved guest bound later stop sv
  end.

Definition run_embedded_daemon_thread (runtime : Result IoError ()) (c : EmbeddedDaemonConfig)
    (current_exe : Result IoError string) (early failing later : list ServerStep) (stop : option (list ServerStep)) : FM DaemonEnd :=
  lift (match runtime with Ok u => Ok u | Err e => Err (Io "building embedded daemon runtime" e) end);;
  run_embedded_daemon c current_exe early failing later stop.
End embedding.

(** ** [daemon_api.rs] *)

Record ManagedDaemonOptions := {
  mo_state_dir : option string;
  mo_user_config_path : option string;
  mo_endpoint : option string;
}.

Record ManagedDaemonPaths := {
  mp_state_dir : string;
  mp_user_config_path : string;
  mp_endpoint : string;
  mp_pid_path : string;
  mp_daemon_log_path : string;
}.

Record ManagedDaemonStartInfo := {
  ms_paths : ManagedDaemonPaths;
  ms_user_config : UserConfig;
  ms_already_running : bool;
}.

Section managed.
Context `{!Platform, !Serde UserConfig, !Target, !HostEnv, !DaemonHost} (cwd : path).

Definition resolve_managed_daemon_paths (options : ManagedDaemonOptions) : ManagedDaemonPaths :=
  let defaults := resolve_paths in
  let state_dir := default (sp_state_dir defaults) (mo_state_dir options) in
  {| mp_pid_path := path_join state_dir "daemon.pid";
     mp_daemon_log_path := path_join state_dir "daemon.log";
     mp_state_dir := state_dir;
     mp_user_config_path := default (sp_user_config_path defaults) (mo_user_config_path options);
     mp_endpoint := default (sp_endpoint defaults) (mo_endpoint options) |}.

Definition into_internal_paths (paths : ManagedDaemonPaths) : SagensPaths :=
  {| sp_state_dir := mp_state_dir paths;
     sp_user_config_path := mp_user_config_path paths;
     sp_endpoint := mp_endpoint paths;
     sp_pid_path := path_join (mp_state_dir paths) "daemon.pid";
     sp_daemon_log_path := mp_daemon_log_path paths |}.

Definition start_managed_daemon (host_binary : string) (options : ManagedDaemonOptions) : M SandboxError LS ManagedDaemonStartInfo :=
  let paths := resolve_managed_daemon_paths options in
  '(user_config, already_running) ← ensure_started cwd (into_internal_paths paths) host_binary;
  mret {| ms_paths := paths; ms_user_config := user_config; ms_already_running := already_running |}.

Definition quit_managed_daemon (options : ManagedDaemonOptions) : M SandboxError LS bool :=
  quit cwd (into_internal_paths (resolve_managed_daemon_paths options)).

(** Without options, the daemon is the one of the command line. *)
Lemma managed_default : into_internal_paths (resolve_managed_daemon_paths {| mo_state_dir := None; mo_user_config_path := None; mo_endpoint := None |}) = resolve_paths.
Proof. reflexivity. Qed.
End managed.

(** ** The accept loop ends once it is told to *)

Section stopping.
Context `{Platform, Target, Serde AdminRegistry, Serde BoxCredentialRegistry, Serde VmImageManifest, Base64, ApiCrates}
  {B : Type} `{!BoxManager B} (state_dir : path) (base_guest : GuestConfig) (endpoint : string).
Local Abbreviation run := (run_server (B := B) state_dir base_guest endpoint).

Lemma step_told step (sv : Server (B := B)) :
  sr_shutdown sv = true → sr_shutdown (server_step state_dir base_guest endpoint step sv) = true.
Proof.
  intros Hs. destruct step as [h|e| |i event]; cbn [server_step].
  1-3: by destruct (sr_done sv); rewrite ?Hs.
  destruct (sr_conns sv !! i) as [l|]; [|done]. destruct (enabled sv l event); [|done].
  destruct (connection_turn _ _ _ _ _). cbn. by rewrite Hs.
Qed.

Lemma step_ended step (sv : Server (B := B)) result :
  sr_done sv = Some result → sr_done (server_step state_dir base_guest endpoint step sv) = Some result.
Proof.
  intros Hd. destruct step as [h|e| |i event]; cbn [server_step]; rewrite ?Hd; [done..|].
  destruct (sr_conns sv !! i) as [l|]; [|done]. destruct (enabled sv l event); [|done]. by destruct (connection_turn _ _ _ _ _).
Qed.

Lemma run_ended steps (sv : Server (B := B)) result : sr_done sv = Some result → sr_done (run steps sv) = Some result.
Proof.
  unfold run_server. revert sv. induction steps as [|step steps IH]; intros sv Hd; [done|]. apply IH. by apply step_ended.
Qed.

Lemma run_stops steps (sv : Server (B := B)) : sr_shutdown sv = true → ShutdownSeen ∈ steps → is_Some (sr_done (run steps sv)).
Proof.
  unfold run_server. revert sv. induction steps as [|step steps IH]; intros sv Hs Hin; [by apply not_elem_of_nil in Hin|].
  apply elem_of_cons in Hin as [<-|Hin]; [|apply IH; [by apply step_told|done]].
  cbn [foldl]. destruct (sr_done sv) as [result|] eqn:Hd.
  - exists result. apply run_ended. by apply step_ended.
  - exists (Ok ()). apply run_ended. cbn [server_step]. by rewrite Hd, Hs.
Qed.
End stopping.

(** ** The embedded daemon *)

Section embedded_daemon.
Context `{PlatformLaws, !Ext4, !Target, !HostLimits, L : !WorkspaceLineageStore, !LineageSpec L, !Serde VmImageManifest,
          !Serde BoxRecord, !SerdeLaws BoxRecord, !Serde AdminRegistry, !Serde BoxCredentialRegistry, !Serde UserConfig, !Base64,
          !ApiCrates, !HostEnv, !Embedded, !Serde LibkrunRunnerConfig, system : !DaemonSystem}
  `{host_kernel : Kernel} {G : Type} `{!GuestHost G}
  (shells : ∀ config state_dir, @ShellDriver RuntimeState (local_sandbox_service (G := G) config state_dir))
  (cwd : path) (guests : G) (c : EmbeddedDaemonConfig) (host_binary : string).

(** The paths of [Foreground]; there is no pid file here. *)
Definition embedded_paths : SagensPaths :=
  mkPaths (ec_state_dir c) (ec_user_config_path c) (ec_endpoint c)
    (path_join (ec_state_dir c) "daemon.pid") (path_join (ec_state_dir c) "daemon.log").
Local Abbreviation sd := (at_text cwd (sp_state_dir embedded_paths)).

Context `{!GuestLaws G sd, !BoxLayout L sd}
  (bundle_plain : plain_name (default "sagens" (env_var "SAGENS_BUNDLE_ID")))
  (assets_plain : Forall plain_name (ea_file_name <$> needed_assets guest_config))
  (user_config_apart : ∀ q, q `prefix_of` at_text cwd (ec_user_config_path c) → not_a_box cwd embedded_paths q).

Local Abbreviation F := (Fg (G := G)).
Local Abbreviation stored s := (stored_box sd (w_fs (fg_ls s).1)).
Local Abbreviation kept := (records_kept (G := G) cwd embedded_paths).
Local Abbreviation services := (embedded_services cwd guests c (Ok host_binary)).
Local Abbreviation prepared := (embedded_prepare cwd guests c (Ok host_binary)).

#[local] Existing Instance records_kept_preorder.

Lemma kept_credential : keeps kept (fg_files (AdminStore.bootstrap sd (ec_admin_credential c))).
Proof.
  apply kept_files. unfold AdminStore.bootstrap, AdminStore.read, AdminStore.write, read_registry, write_registry, new_record,
    generate_token. keeps_tac.
  - apply keeps_ensure_private_dir. intros q Hq. apply (prefix_not_box cwd embedded_paths "admins" ["registry.json"]); [done|].
    etrans; [exact Hq|apply parent_prefix].
  - apply keeps_write_private_file. intros q Hq. by apply (prefix_not_box cwd embedded_paths "admins" ["registry.json"]).
Qed.

Lemma services_up (s : F) config resolved s' :
  records_named cwd embedded_paths s → services s = (Ok (config, resolved), s') →
  check_binary host_binary = Ok () ∧ build_runtime_config_for_endpoint (ec_state_dir c) (ec_endpoint c) = Ok config ∧
  (∃ g, resolved = with_guest_config config g) ∧ RuntimeConfig_validate resolved = Ok () ∧
  (rc_isolation_mode config = Secure → vetted cwd embedded_paths host_binary config (fg_calls s')) ∧
  daemon_ok cwd embedded_paths resolved s' ∧ (∀ b x, stored s' b = Some x → bx_status x ≠ BRunning).
Proof.
  intros Hn Hr. unfold embedded_services in Hr.
  apply bind_ok_inv in Hr as (exe & s0 & [[= <-] <-]%lift_ok_inv & Hr).
  apply bind_ok_inv in Hr as ([] & s0 & [Hbin <-]%lift_ok_inv & Hr).
  apply bind_ok_inv in Hr as (c1 & s0 & [Hc <-]%lift_ok_inv & Hr).
  apply (bind_ok_keeps kept) in Hr as ([] & s2 & K2 & F2 & Hr); [|apply kept_kernel].
  apply bind_ok_inv in Hr as (res & s5 & Hnew & Hr). apply bind_ok_inv in Hr as ([] & s6 & Hboxes & Hr).
  apply ret_ok_inv in Hr as [[= <- <-] <-].
  destruct (services_outcome cwd guests embedded_paths bundle_plain assets_plain c1 s2 s5 s6 res Hc)
    as (Hg & Hval & Hok6 & Hrun6 & h & probe_id & Eh & Hpre); [by eapply kept_named|done..|].
  split_and!; [done..| |done|done].
  intros Hsec. apply fg_kernel_ok in F2 as (h2 & Hgate & Eh2). destruct Hg as [g' ->].
  assert (E1 : state_path cwd c1 = sd) by (unfold state_path; by rewrite (proj1 (config_fields embedded_paths c1 Hc))).
  rewrite E1 in Hgate. eapply (vetted_by cwd embedded_paths host_binary); [done| |done|done]. by rewrite Eh, Eh2.
Qed.

Lemma prepared_up (s : F) config resolved guest bound s' :
  records_named cwd embedded_paths s → prepared s = (Ok (config, resolved, guest, bound), s') →
  check_binary host_binary = Ok () ∧ build_runtime_config_for_endpoint (ec_state_dir c) (ec_endpoint c) = Ok config ∧
  (∃ g, resolved = with_guest_config config g) ∧ RuntimeConfig_validate resolved = Ok () ∧
  (rc_isolation_mode config = Secure → vetted cwd embedded_paths host_binary config (fg_calls s')) ∧
  daemon_ok cwd embedded_paths resolved s' ∧ (∀ b x, stored s' b = Some x → bx_status x ≠ BRunning).
Proof.
  intros Hn Hr. unfold embedded_prepare in Hr. apply bind_ok_inv in Hr as ([c1 res] & s1 & Hs & Hr).
  apply (services_up s) in Hs as (Hbin & Hc & Hg & Hval & Hvet & Hok & Hrun); [|done].
  destruct (config_fields embedded_paths c1 Hc) as (E1 & E2 & E3). unfold state_path in Hr. rewrite E1, E2, E3 in Hr.
  apply (bind_ok_keeps kept) in Hr as (reg & s2 & K2 & F2 & Hr); [|apply kept_credential].
  apply (bind_ok_keeps kept) in Hr as (g & s3 & K3 & F3 & Hr); [|by apply kept_bundle].
  apply bind_ok_inv in Hr as (b & s4 & [_ <-]%lift_ok_inv & Hr). apply ret_ok_inv in Hr as [[= <- <- <- <-] <-].
  apply fg_files_calls in F2, F3. assert (K : kept s1 s3) by by etrans. split_and!; [done..| | |].
  - intros Hsec. rewrite F3, F2. by apply Hvet.
  - by eapply kept_ok.
  - intros b' x. rewrite (proj1 K b'). apply Hrun.
Qed.

Context (shell_laws : ∀ config,
  @ShellDriverLaws RuntimeState sd (local_sandbox_service (G := G) config sd) (shells config sd) (local_sandbox_laws config sd))
  (holder : nat → Uuid).

Section one_run.
Context (guest0 : GuestConfig) (ws : WorkspaceConfig) (control : ControlPlaneConfig) (lifecycle : LifecycleConfig)
  (mode : IsolationMode) (hardening : HardeningConfig) (bundle : ArtifactBundle) (policy : ExecutionPolicy)
  (resolved : RuntimeConfig) (guest : GuestConfig) (bound : SocketAddr) (h0 : World * BoxState (R := RuntimeState (G := G))).
Local Abbreviation config := (Build_RuntimeConfig (ec_state_dir c) guest0 ws control lifecycle mode hardening bundle policy).
Local Abbreviation calm := (quiet cwd embedded_paths holder resolved h0).
Local Abbreviation confined flag sv := (server_confined (BoxManager0 := daemon_boxes shells cwd config resolved) holder calm flag sv).

(** The server runs on, and the state of the process is that of the server. *)
Lemma serve_steps_quiet steps shutdown sv (s : F) :
  box_clients holder steps → calm ((fg_ls s).1, fg_boxes s) → confined false sv →
  ∃ sv' s', serve_steps shells cwd config resolved guest bound steps shutdown sv s = (Ok sv', s') ∧
    confined shutdown sv' ∧ calm ((fg_ls s').1, fg_boxes s') ∧
    sr_done sv' = sr_done (daemon_run shells cwd config resolved guest ("ws://" ^+ socket_text bound) steps
      (moved shells cwd config resolved ((fg_ls s).1, fg_boxes s) shutdown sv)).
Proof.
  intros Hev Hq Hsv. unfold serve_steps, mbind, M_bind, gets, modify, mret, M_ret.
  set (sv1 := daemon_run _ _ _ _ _ _ _ _).
  assert (Hs1 : confined shutdown sv1).
  { apply (run_quiet shells cwd embedded_paths shell_laws); [done|]. by apply moved_quiet. }
  exists sv1. eexists. do 2 (split; [done|]). split; [|done]. destruct Hs1 as [Hi _ _ _]. cbn. by destruct (sr_host sv1).
Qed.

Lemma wait_result_quiet flag sv (s : F) r s' :
  confined flag sv → wait_result shells cwd config resolved sv s = (r, s') → s' = s ∧ (r = Ok Stopped → flag = true).
Proof.
  intros [_ _ Hd _]. unfold wait_result. destruct (sr_done sv) as [[[]|e]|]; intros [= <- <-]; (split; [done|]); auto; discriminate.
Qed.

Lemma embedded_loop_quiet later stop sv (s : F) r s' :
  box_clients holder later → (∀ steps, stop = Some steps → box_clients holder steps) →
  calm ((fg_ls s).1, fg_boxes s) → confined false sv →
  embedded_loop shells cwd config resolved guest bound later stop sv s = (r, s') →
  calm ((fg_ls s').1, fg_boxes s') ∧ (r = Ok Stopped → is_Some stop).
Proof.
  intros Hlater Hstop Hq Hsv. unfold embedded_loop.
  destruct (serve_steps_quiet later false sv s) as (sv1 & s1 & E1 & Hs1 & Hq1 & _); [done..|]. rewrite (bind_ok _ _ _ _ _ E1).
  destruct stop as [steps|].
  - destruct (sr_done sv1) eqn:Ed.
    + intros Hr. apply (wait_result_quiet false) in Hr as [-> _]; [|done]. by split.
    + destruct (serve_steps_quiet steps true sv1 s1) as (sv2 & s2 & E2 & Hs2 & Hq2 & _); [by apply Hstop|done..|].
      rewrite (bind_ok _ _ _ _ _ E2). intros Hr. apply (wait_result_quiet true) in Hr as [-> _]; [|done]. by split.
  - intros Hr. assert (Hr' : wait_result shells cwd config resolved sv1 s1 = (r, s')) by (by destruct (sr_done sv1)).
    apply (wait_result_quiet false) in Hr' as [-> Hst]; [|done]. split; [done|]. by intros Hst'%Hst.
Qed.

Lemma kept_user_config config' : keeps (frame (not_a_box cwd embedded_paths)) (write_user_config (at_text cwd (ec_user_config_path c)) config').
Proof.
  unfold write_user_config. keeps_tac.
  - apply keeps_ensure_private_dir. intros q Hq. apply user_config_apart. etrans; [exact Hq|apply parent_prefix].
Qed.

Lemma embedded_up_quiet early failing (s : F) r s' :
  box_clients holder early → box_clients holder failing → daemon_ok cwd embedded_paths resolved s → h0 = ((fg_ls s).1, fg_boxes s) →
  embedded_up shells cwd c config resolved guest bound early failing s = (r, s') →
  calm ((fg_ls s').1, fg_boxes s') ∧ (∀ info sv, r = Ok (Some (info, sv)) → confined false sv).
Proof.
  intros Hearly Hfail Hok Eh. unfold embedded_up. unfold mbind at 1, M_bind at 1, gets. cbn [id].
  set (sv0 := daemon_server _ _ _ _ _ _). assert (Hq : calm ((fg_ls s).1, fg_boxes s)) by (rewrite Eh; by split).
  destruct (serve_steps_quiet early false sv0 s) as (sv1 & s1 & E1 & Hs1 & Hq1 & _); [done|done|by split|].
  rewrite (bind_ok _ _ _ _ _ E1). unfold mbind at 1, M_bind at 1, attempt, fg_files, zoom.
  pose proof (kept_user_config (embedded_user_config c bound) (fg_ls s1).1) as Hf.
  destruct (write_user_config _ _ (fg_ls s1).1) as [written w2]. cbn in Hf.
  set (s2 := mkFg _ _ _). assert (Hq2 : calm ((fg_ls s2).1, fg_boxes s2)) by (by eapply quiet_files).
  destruct written as [u|error]; [intros [= <- <-]; split; [done|]; by intros info sv [= _ <-]|].
  destruct (serve_steps_quiet failing true sv1 s2) as (sv3 & s3 & E3 & Hs3 & Hq3 & _); [done..|]. rewrite (bind_ok _ _ _ _ _ E3).
  destruct (sr_done sv3); intros [= <- <-]; by split.
Qed.
End one_run.

(** the daemon inside another program is as safe as the daemon: it serves only
    from a state that was prepared and checked as [daemon_serves_safely] says,
    and from then on clients with BOX credentials cannot touch the BOXes they have
    no credential of, whether they come before or after the user configuration was
    written, also where that failed, and also while the daemon stops.  It comes to
    a regular end only after its handle was closed or dropped. *)
Theorem embedded_serves_safely early failing later stop s r s' :
  records_named cwd embedded_paths s → box_clients holder early → box_clients holder failing → box_clients holder later →
  (∀ steps, stop = Some steps → box_clients holder steps) →
  run_embedded_daemon shells cwd guests c (Ok host_binary) early failing later stop s = (r, s') →
  (r = Ok Stopped → is_Some stop) ∧
  ((∃ e, prepared s = (Err e, s') ∧ r = Err e) ∨
   ∃ config resolved guest bound s1,
     prepared s = (Ok (config, resolved, guest, bound), s1) ∧
     check_binary host_binary = Ok () ∧
     build_runtime_config_for_endpoint (ec_state_dir c) (ec_endpoint c) = Ok config ∧
     (∃ g, resolved = with_guest_config config g) ∧ RuntimeConfig_validate resolved = Ok () ∧
     (rc_isolation_mode config = Secure → vetted cwd embedded_paths host_binary config (fg_calls s1)) ∧
     (∀ b x, stored s1 b = Some x → bx_status x ≠ BRunning) ∧
     ∀ b, (∀ i, holder i ≠ b) → stored s' b = stored s1 b ∧ (fg_boxes s').2 !! b = (fg_boxes s1).2 !! b).
Proof.
  intros Hn Hearly Hfail Hlater Hstop. unfold run_embedded_daemon.
  destruct (prepared s) as [[[[[config resolved] guest] bound]|e] s1] eqn:Hp.
  2:{ rewrite (bind_err _ _ _ _ _ Hp). intros [= <- <-]. split; [done|]. left. eauto. }
  rewrite (bind_ok _ _ _ _ _ Hp). destruct (prepared_up _ _ _ _ _ _ Hn Hp) as (Hbin & Hc & Hg & Hval & Hvet & Hok & Hrun).
  pose proof (proj1 (config_fields embedded_paths config Hc)) as E1. cbv beta iota.
  intros Hr. enough (quiet cwd embedded_paths holder resolved ((fg_ls s1).1, fg_boxes s1) ((fg_ls s').1, fg_boxes s') ∧ (r = Ok Stopped → is_Some stop))
    as [[_ Hq] Hst].
  { split; [done|]. right. exists config, resolved, guest, bound, s1. do 7 (split; [done|]). intros b Hb. apply Hq. intros [i Hi]. by apply (Hb i). }
  clear Hc Hg Hvet Hp. destruct config as [sdir g0 ws control lifecycle mode hardening bundle policy]. cbn in E1. subst sdir.
  unfold mbind, M_bind in Hr. match type of Hr with context [embedded_up ?a ?b ?c ?d ?e ?f ?g ?h ?i s1] =>
    destruct (embedded_up a b c d e f g h i s1) as [up s2] eqn:Hup end.
  eapply embedded_up_quiet in Hup as [Hq2 Hs2]; [|done..].
  destruct up as [[[info sv]|]|e]; [|by injection Hr as <- <-..].
  by eapply embedded_loop_quiet in Hr; [| | |exact Hq2|eapply Hs2].
Qed.

(** closing the handle of an embedded daemon, or dropping it, ends its thread: whatever was served before and whatever clients
    do meanwhile, once the accept loop has looked at the signal it has returned. *)
Theorem embedded_close_stops config resolved guest bound later steps sv (s : F) :
  ShutdownSeen ∈ steps →
  (embedded_loop shells cwd config resolved guest bound later (Some steps) sv s).1 ≠ Ok StillServing.
Proof.
  intros Hin. unfold embedded_loop, serve_steps, wait_result, mbind, M_bind, gets, modify, mret, M_ret.
  set (sv1 := daemon_run _ _ _ _ _ _ later _). destruct (sr_done sv1) as [result|] eqn:Ed1.
  { unfold lift. by destruct result. }
  set (sv2 := daemon_run _ _ _ _ _ _ steps _).
  assert (Hd : is_Some (sr_done sv2)) by (apply run_stops; [by apply orb_true_r|done]).
  destruct Hd as [result ->]. unfold lift. by destruct result.
Qed.

(** *** The credential *)

Local Abbreviation admins_at w := (Auth.stored AdminStore.empty (AdminStore.registry_path sd) w).
Local Abbreviation credential := (ac_admin_uuid (ec_admin_credential c), hash_token (ac_admin_token (ec_admin_credential c))).

Lemma bootstrap_outcome `{!SerdeLaws AdminRegistry} w b w' :
  AdminStore.bootstrap sd (ec_admin_credential c) w = (Ok b, w') →
  ∃ r0 r1, admins_at w = Some r0 ∧ admins_at w' = Some r1 ∧
    if decide (live r0 = ∅) then live r1 = {[credential]} else r1 = r0.
Proof.
  unfold AdminStore.bootstrap. intros Hr. apply bind_ok_inv in Hr as ([v l] & w1 & Hread & Hr).
  apply read_registry_ok in Hread as [Hs Hfs]. exists (mkAdminRegistry v l). cbn [admins version] in Hr.
  assert (Hex : existsb ar_active l = true ↔ live (mkAdminRegistry v l) ≠ ∅).
  { rewrite existsb_elem. split.
    - intros (a & Hin & Ha) He. assert (cred_of a ∈ live (mkAdminRegistry v l)) by (apply live_elem; eauto). set_solver.
    - intros Hne. apply set_choose_L in Hne as [x (a & Hin & Ha & _)%live_elem]. eauto. }
  destruct (existsb ar_active l) eqn:E.
  - apply ret_ok_inv in Hr as [_ <-]. exists (mkAdminRegistry v l). split; [done|].
    split; [unfold Auth.stored in *; by rewrite Hfs|]. rewrite decide_False; [done|]. by apply Hex.
  - apply bind_ok_inv in Hr as (a & w2 & Ha & Hr). unfold new_record in Ha. apply bind_ok_inv in Ha as (now & w3 & _ & Ha).
    apply ret_ok_inv in Ha as [<- <-]. apply bind_ok_inv in Hr as ([] & w4 & Hw & Hr). apply ret_ok_inv in Hr as [_ <-].
    apply (write_registry_ok _ AdminStore.empty) in Hw; [|apply admin_path_ne]. eexists. split; [done|]. split; [exact Hw|].
    assert (He : live (mkAdminRegistry v l) = ∅) by (destruct (decide (live (mkAdminRegistry v l) = ∅)) as [|Hne]; [done|]; by apply Hex in Hne).
    rewrite decide_True by done. rewrite live_append_set, He by done. by rewrite (right_id_L ∅ (∪)).
Qed.

(** the credential an embedded daemon hands to its host program, in the configuration file as in the answer of [start], is
    accepted by this daemon exactly when the state directory had no active administrator yet, or had this one: where another
    one is registered, the credential is not, and nothing says so. *)
Theorem embedded_credential `{!SerdeLaws AdminRegistry} (s : F) config resolved guest bound s' :
  prepared s = (Ok (config, resolved, guest, bound), s') →
  ∃ s1 r0 r1, services s = (Ok (config, resolved), s1) ∧ admins_at (fg_ls s1).1 = Some r0 ∧ admins_at (fg_ls s').1 = Some r1 ∧
    (credential ∈ live r1 ↔ live r0 = ∅ ∨ credential ∈ live r0) ∧
    (credential ∉ live r1 → ∀ w', AdminStore.authenticate sd (uc_admin_uuid (embedded_user_config c bound))
       (uc_admin_token (embedded_user_config c bound)) (fg_ls s').1 ≠ (Ok true, w')).
Proof.
  unfold embedded_prepare. intros Hr. apply bind_ok_inv in Hr as ([c1 res] & s1 & Hs & Hr).
  assert (Hc : build_runtime_config_for_endpoint (ec_state_dir c) (ec_endpoint c) = Ok c1).
  { clear Hr. unfold embedded_services in Hs. apply bind_ok_inv in Hs as (exe & s0 & _ & Hs). apply bind_ok_inv in Hs as ([] & s2 & _ & Hs).
    apply bind_ok_inv in Hs as (c2 & s3 & [Hc _]%lift_ok_inv & Hs). apply bind_ok_inv in Hs as ([] & s4 & _ & Hs).
    apply bind_ok_inv in Hs as (res' & s5 & _ & Hs). apply bind_ok_inv in Hs as ([] & s6 & _ & Hs). by apply ret_ok_inv in Hs as [[= <- <-] _]. }
  destruct (config_fields embedded_paths c1 Hc) as (E1 & E2 & E3). unfold state_path in Hr. rewrite E1, E2, E3 in Hr.
  apply bind_ok_inv in Hr as (reg & s2 & Hb & Hr). apply bind_ok_inv in Hr as (g & s3 & Hg & Hr).
  apply bind_ok_inv in Hr as (b & s4 & [_ <-]%lift_ok_inv & Hr). apply ret_ok_inv in Hr as [[= <- <- <- <-] <-].
  unfold fg_files, zoom in Hb, Hg. destruct (AdminStore.bootstrap _ _ _) as [rb wb] eqn:Eb in Hb. injection Hb as -> <-. cbn [fg_ls fst] in Hg.
  pose proof (resolve_guest_within cwd (ec_state_dir c) _ _ bundle_plain assets_plain wb) as Hf.
  destruct (resolve_guest_paths cwd _ _ _ wb) as [rg wg]. injection Hg as -> <-. cbn [fg_ls fst snd] in *.
  apply bootstrap_outcome in Eb as (r0 & r1 & H0' & H1' & Hlive). exists s1, r0, r1.
  assert (Hs1 : admins_at wg = Some r1).
  { rewrite <-H1'. unfold Auth.stored. rewrite Hf; [done|]. unfold AdminStore.registry_path, bundle_path, bundle_dir.
    rewrite !at_text_name by done. rewrite <-app_assoc. intros [[k Hk]|[k Hk]]; rewrite <-app_assoc in Hk; by apply app_inv_head in Hk. }
  do 3 (split; [done|]). split.
  - case_decide as He; [rewrite Hlive, He; set_solver|]. subst r1. naive_solver.
  - intros Hno w' Hauth. apply authenticate_sound in Hauth as (r & Hr & Hin). simplify_eq. done.
Qed.
End embedded_daemon.
