(* ===== verification/Signing.v ===== *)
(** * Signing: [src/bin/xtask/signing.rs] and [src/bin/xtask/signing/], how a release is signed

    The tool that builds releases drives other programs: [codesign], [security],
    [pkgbuild], [xcrun], [git].  A program is an interface: given its arguments
    and environment it does something to the disk and to the rest of the machine
    and has an output.  The tool itself, which arguments it passes, in which
    order, what it reads from the output, and what it does when a program fails,
    is here. *)

From S2P Require Import Prelude RustStd Text Paths FileSystem PrivateFs FsTree GuestFs Config HostConfig Images Update.

(** ** Programs *)

Record Command := mkCommand {
  cm_program : string;
  cm_args : list string;
  cm_env : list (string * string);
  cm_current_dir : option path;
}.

(** [std::process::Output]; the status with its [Display]. *)
Record Output := mkOutput { ou_success : bool; ou_status : string; ou_stdout : bytes; ou_stderr : bytes }.

Abbreviation Environment := (gmap string string).

(** [Machine] is whatever of the machine is not the disk. *)
Class Programs := {
  Machine : Type;
  execute : Environment → Command → World * Machine → Result IoError Output * (World * Machine);
  clock : Machine → Z;                            (** in nanoseconds *)
  sleep : Z → Machine → Machine;
  build_os : string;                              (** [std::env::consts] *)
  build_arch : string;
  process_id : Z;
  command_debug : Command → string;               (** [Debug for Command] *)
  string_debug : string → string;                 (** [Debug for str] *)
  utf8_decode : bytes → Result string string;     (** [String::from_utf8] *)
}.

(** How the tool ends early: an [anyhow] error with its contexts, or an exit; or
    the turns given to a loop are used up. *)
Inductive Stop :=
  | Fail (message : string)
  | Exit (usage : string)                         (** printed, with status 0 *)
  | OutOfTurns.

Record Bench `{Programs} := mkBench {
  bn_world : World;
  bn_machine : Machine;
  bn_env : Environment;
  bn_printed : list string;
}.
Arguments mkBench {_}.

Definition tool_command (tool : string) (args : list string) : Command := mkCommand tool args [] None.
Definition in_context (c : string) (e : Stop) : Stop := match e with Fail m => Fail (c ^+ ": " ^+ m) | _ => e end.

Section bench.
Context `{!Platform, progs : !Programs}.
Local Abbreviation XM := (M Stop Bench).

Definition with_context {A} (c : string) (m : XM A) : XM A := map_err (in_context c) m.
Definition ensure (b : bool) (message : string) : XM () := if b then mret () else throw (Fail message).
Definition on_disk {A} (m : M IoError World A) : XM A :=
  zoom bn_world (λ w s, mkBench w (bn_machine s) (bn_env s) (bn_printed s)) (map_err (λ e, Fail (io_text e)) m).
Definition println (line : string) : XM () := modify (λ s, mkBench (bn_world s) (bn_machine s) (bn_env s) (bn_printed s ++ [line])).

(** [Path::exists] and [Path::is_file]: an error counts as no. *)
Definition exists_path (p : path) : XM bool := r ← attempt (on_disk (fs_metadata p)); mret (is_ok r).
Definition is_file_path (p : path) : XM bool :=
  r ← attempt (on_disk (fs_metadata p)); mret (match r with Ok (File _ _) => true | _ => false end).

(** [Command::output]; [Command::status] is the same without looking at the text. *)
Definition output (c : Command) : XM Output := λ s,
  let '(r, (w, m)) := execute (bn_env s) c (bn_world s, bn_machine s) in
  (match r with Ok o => Ok o | Err e => Err (Fail (io_text e)) end, mkBench w m (bn_env s) (bn_printed s)).

(** [env::var] filtered for the empty string. *)
Definition read_env (name : string) : XM (option string) :=
  gets (λ s, match bn_env s !! name with Some v => if decide (v = "") then None else Some v | None => None end).

(** ** [types.rs]: paths *)

Definition absolutize (root : path) (p : string) : path := join_path root p.
Definition target_root (root : path) : XM path :=
  dir ← read_env "CARGO_TARGET_DIR";
  mret (match dir with Some dir => absolutize root dir | None => root ++ ["target"] end).

(** ** [signing/command.rs] *)

Definition printable (c : Command) : string := String.concat " " (cm_program c :: cm_args c).

Definition run_signing (c : Command) (description : string) : XM () :=
  o ← with_context (description ^+ ": " ^+ string_debug (printable c)) (output c);
  ensure (ou_success o) (description ^+ " failed with status " ^+ ou_status o).

Fixpoint parse_identity_lines (lines : list string) (marker : string) : option string :=
  match lines with
  | [] => None
  | line :: rest =>
      if contains marker line then
        match split_whitespace line with
        | _ :: hash :: _ => Some hash
        | _ => parse_identity_lines rest marker
        end
      else parse_identity_lines rest marker
  end.
Definition parse_identity_hash (stdout marker : string) : Result Stop string :=
  ok_or (Fail (marker ^+ " identity not found in imported certificate")) (parse_identity_lines (str_lines stdout) marker).

Definition decode_output (what : string) (b : bytes) : Result Stop string :=
  match utf8_decode b with Ok s => Ok s | Err e => Err (Fail (what ^+ ": " ^+ e)) end.

Definition find_identity (keychain : path) (marker : string) : XM string :=
  o ← with_context "listing codesigning identities"
        (output (tool_command "security" ["find-identity"; "-v"; "-p"; "codesigning"; display keychain]));
  ensure (ou_success o) ("security find-identity failed with status " ^+ ou_status o);;
  stdout ← lift (decode_output "decoding find-identity output" (ou_stdout o));
  lift (parse_identity_hash stdout marker).
Definition find_codesign_identity (keychain : path) : XM string := find_identity keychain "Developer ID Application:".
Definition find_installer_identity (keychain : path) : XM string := find_identity keychain "Developer ID Installer:".

(** ** [signing/settings.rs] *)

Definition ENV_KEYS : list string :=
  ["APPLE_APP_SPECIFIC_PASSWORD"; "APPLE_ID"; "TEAM_ID"; "BUILD_CERTIFICATE_BASE64"; "INSTALLER_CERTIFICATE_BASE64";
   "KEYCHAIN_PASSWORD"; "P12_PASSWORD"; "INSTALLER_P12_PASSWORD"].
Definition FORCE_SIGN_ENV : string := "SAGENS_FORCE_SIGN".
Definition SKIP_INSTALLER_ENV : string := "SAGENS_SKIP_INSTALLER".

Record DeveloperIdSettings := mkDeveloperId {
  apple_app_specific_password : option string;
  apple_id : option string;
  team_id : option string;
  build_certificate_base64 : option string;
  installer_certificate_base64 : option string;
  keychain_password : option string;
  p12_password : option string;
  installer_p12_password : option string;
}.

Inductive SigningSettings :=
  | AdHoc
  | DeveloperId (settings : DeveloperIdSettings).

Definition read_settings : XM DeveloperIdSettings :=
  a ← read_env "APPLE_APP_SPECIFIC_PASSWORD";
  b ← read_env "APPLE_ID";
  c ← read_env "TEAM_ID";
  d ← read_env "BUILD_CERTIFICATE_BASE64";
  e ← read_env "INSTALLER_CERTIFICATE_BASE64";
  f ← read_env "KEYCHAIN_PASSWORD";
  g ← read_env "P12_PASSWORD";
  h ← read_env "INSTALLER_P12_PASSWORD";
  mret (mkDeveloperId a b c d e f g h).

Definition settings_is_empty : XM bool :=
  gets (λ s, forallb (λ key, match bn_env s !! key with Some v => bool_decide (v = "") | None => true end) ENV_KEYS).

Definition is_some {A} (o : option A) : bool := match o with Some _ => true | None => false end.
Definition require (value : option string) (message : string) : Result Stop () := if is_some value then Ok () else Err (Fail message).

Definition validate_settings (s : DeveloperIdSettings) : Result Stop () :=
  require (build_certificate_base64 s) "BUILD_CERTIFICATE_BASE64 is required for Developer ID signing";;
  require (keychain_password s) "KEYCHAIN_PASSWORD is required for Developer ID signing";;
  require (p12_password s) "P12_PASSWORD is required for Developer ID signing";;
  let notary_present := length (List.filter is_some [apple_app_specific_password s; apple_id s; team_id s]) in
  (if decide (notary_present = 0 ∨ notary_present = 3) then Ok ()
   else Err (Fail "APPLE_APP_SPECIFIC_PASSWORD, APPLE_ID, and TEAM_ID must be provided together for notarization"));;
  if Bool.eqb (is_some (installer_certificate_base64 s)) (is_some (installer_p12_password s)) ||
     negb (is_some (installer_certificate_base64 s)) || is_some (p12_password s)
  then Ok () else Err (Fail "INSTALLER_CERTIFICATE_BASE64 requires INSTALLER_P12_PASSWORD or P12_PASSWORD").

Definition has_notary_credentials (s : DeveloperIdSettings) : bool :=
  is_some (apple_app_specific_password s) && is_some (apple_id s) && is_some (team_id s).
Definition required (key : string) (value : option string) : Result Stop string :=
  ok_or (Fail (key ^+ " must be set for this signing flow")) value.
Definition installer_password (s : DeveloperIdSettings) : Result Stop string :=
  ok_or (Fail "INSTALLER_P12_PASSWORD or P12_PASSWORD must be set")
    (match installer_p12_password s with Some p => Some p | None => p12_password s end).

Definition env_truthy (key : string) : XM bool :=
  v ← read_env key;
  mret (match v with Some v => bool_decide (v ∈ ["1"; "true"; "TRUE"; "yes"; "YES"; "on"; "ON"]) | None => false end).

Definition unquoted (quote : ascii) (value : string) : option string :=
  match value with
  | String a rest =>
      match string_rev rest with
      | String b inner => if Ascii.eqb a quote && Ascii.eqb b quote then Some (string_rev inner) else None
      | EmptyString => None
      end
  | EmptyString => None
  end.
Definition double_quote : ascii := ascii_of_nat 34.
Definition single_quote : ascii := ascii_of_nat 39.
Definition parse_env_value (value : string) : string :=
  match unquoted double_quote value with
  | Some inner => inner
  | None => default value (unquoted single_quote value)
  end.

Definition git_output (root : path) (args : list string) : XM (option string) :=
  r ← attempt (output (tool_command "git" ("-C" :: display root :: args)));
  mret (match r with
        | Ok o => if ou_success o then match utf8_decode (ou_stdout o) with Ok s => Some s | Err _ => None end else None
        | Err _ => None
        end).
Definition git_current_branch (root : path) : XM (option string) :=
  o ← git_output root ["branch"; "--show-current"];
  mret (v ← o; let v := trim v in if decide (v = "") then None else Some v).
Definition git_head_has_tag (root : path) : XM bool :=
  o ← git_output root ["tag"; "--points-at"; "HEAD"];
  mret (match o with Some v => negb (bool_decide (trim v = "")) | None => false end).

Definition release_signing_allowed (root : path) : XM bool :=
  forced ← env_truthy FORCE_SIGN_ENV;
  if forced : bool then mret true
  else
    github_ref ← read_env "GITHUB_REF";
    match github_ref with
    | Some github_ref => mret (String.eqb github_ref "refs/heads/main" || starts_with "refs/tags/" github_ref)
    | None =>
        git ← exists_path (root ++ [".git"]);
        if negb git then mret false
        else
          tagged ← git_head_has_tag root;
          if tagged : bool then mret true
          else branch ← git_current_branch root; mret (bool_decide (branch = Some "main"))
    end.

Definition settings_from_env (root : path) : XM SigningSettings :=
  env ← read_settings;
  force_sign ← env_truthy FORCE_SIGN_ENV;
  empty ← settings_is_empty;
  if force_sign : bool then
    ensure (negb empty) "Developer ID signing was requested, but signing secrets are missing";;
    lift (validate_settings env);;
    mret (DeveloperId env)
  else
    allowed ← (if empty : bool then mret false else release_signing_allowed root);
    if negb allowed then mret AdHoc
    else lift (validate_settings env);; mret (DeveloperId env).

(** ** [signing.rs]: the file [.env] *)

(** [env::set_var]. *)
Definition set_var (key value : string) : XM () :=
  modify (λ s, mkBench (bn_world s) (bn_machine s) (<[key := value]> (bn_env s)) (bn_printed s)).

Definition load_env_line (index : nat) (raw_line : string) : XM () :=
  let line := trim raw_line in
  if bool_decide (line = "") || starts_with "#" line then mret ()
  else
    let line := default line (strip_prefix "export " line) in
    match split_once "=" line with
    | None => throw (Fail ("invalid .env line " ^+ pretty (S index) ^+ ": expected KEY=VALUE"))
    | Some (key, value) =>
        let key := trim key in
        if decide (key = "") then throw (Fail ("invalid .env line " ^+ pretty (S index) ^+ ": empty key"))
        else
          present ← gets (λ s, is_some (bn_env s !! key));
          if present : bool then mret () else set_var key (parse_env_value (trim value))
    end.

Fixpoint load_env_lines (index : nat) (lines : list string) : XM () :=
  match lines with
  | [] => mret ()
  | line :: rest => load_env_line index line;; load_env_lines (S index) rest
  end.

Definition load_repo_env (root : path) : XM () :=
  let p := root ++ [".env"] in
  present ← is_file_path p;
  if negb present then mret ()
  else
    contents ← with_context ("reading " ^+ display p)
      (data ← on_disk (fs_read p);
       lift (match utf8_decode data with Ok s => Ok s | Err _ => Err (Fail "stream did not contain valid UTF-8") end));
    load_env_lines 0 (str_lines contents).

(** ** [signing/keychain.rs] *)

(** The value of a base64 digit; [None] for a byte that is skipped. *)
Definition base64_digit (b : Byte.byte) : Result Stop (option Z) :=
  let n := byte_value b in
  if (65 <=? n)%Z && (n <=? 90)%Z then Ok (Some (n - 65)%Z)
  else if (97 <=? n)%Z && (n <=? 122)%Z then Ok (Some (n - 97 + 26)%Z)
  else if (48 <=? n)%Z && (n <=? 57)%Z then Ok (Some (n - 48 + 52)%Z)
  else if (n =? 43)%Z then Ok (Some 62%Z)
  else if (n =? 47)%Z then Ok (Some 63%Z)
  else if bool_decide (n ∈ [61; 10; 13; 9; 32]%Z) then Ok None
  else Err (Fail "BUILD_CERTIFICATE_BASE64 contains invalid base64 data").

(** [while bits >= 8]: one turn is enough, since less than 8 bits wait and 6 come. *)
Fixpoint decode_base64_loop (value : bytes) (buffer bits : Z) : Result Stop bytes :=
  match value with
  | [] => Ok []
  | byte :: rest =>
      d ← base64_digit byte;
      match d with
      | None => decode_base64_loop rest buffer bits
      | Some digit =>
          let buffer := Z.lor (Z.land (Z.shiftl buffer 6) 4294967295) digit in
          let bits := (bits + 6)%Z in
          if (8 <=? bits)%Z then
            let bits := (bits - 8)%Z in
            out ← decode_base64_loop rest (Z.land buffer (Z.shiftl 1 bits - 1)) bits;
            Ok (byte_of (Z.land (Z.shiftr buffer bits) 255) :: out)
          else decode_base64_loop rest buffer bits
      end
  end.
Definition decode_base64 (value : string) : Result Stop bytes := decode_base64_loop (as_bytes value) 0 0.

(** [trim_matches] with one character. *)
Fixpoint trim_start_char (c : ascii) (s : string) : string :=
  match s with String a s' => if Ascii.eqb a c then trim_start_char c s' else s | EmptyString => EmptyString end.
Definition trim_char (c : ascii) (s : string) : string := string_rev (trim_start_char c (string_rev (trim_start_char c s))).

Definition nonempty (l : string) : bool := negb (bool_decide (l = "")).
Definition parse_keychain_paths (stdout : string) : list string :=
  List.filter nonempty (map (trim_char double_quote) (List.filter nonempty (map trim (str_lines stdout)))).

Definition current_default_keychain : XM string :=
  o ← with_context "reading current default keychain" (output (tool_command "security" ["default-keychain"; "-d"; "user"]));
  stdout ← lift (decode_output "decoding default-keychain output" (ou_stdout o));
  lift (ok_or (Fail "default-keychain output did not include a keychain path") (head (parse_keychain_paths stdout))).

Definition current_search_list : XM (list string) :=
  o ← with_context "reading current keychain search list" (output (tool_command "security" ["list-keychains"; "-d"; "user"]));
  stdout ← lift (decode_output "decoding list-keychains output" (ou_stdout o));
  mret (parse_keychain_paths stdout).

Definition set_default_keychain (p : string) : XM () :=
  run_signing (tool_command "security" ["default-keychain"; "-d"; "user"; "-s"; p]) "setting default signing keychain".
Definition set_search_list (paths : list string) : XM () :=
  run_signing (tool_command "security" (["list-keychains"; "-d"; "user"; "-s"] ++ paths)) "updating keychain search list".

(** Paths are compared as [Path]s; the paths here are absolute and normal. *)
Definition activate_keychain (p : string) (original_search_list : list string) : XM () :=
  set_search_list (p :: filter (λ existing, existing ≠ p) original_search_list);;
  set_default_keychain p.

Definition restore_keychain_state (original_default_keychain : option string) (original_search_list : list string) : XM () :=
  (match original_default_keychain with Some p => attempt (F := Stop) (set_default_keychain p);; mret () | None => mret () end);;
  match original_search_list with [] => mret () | _ => attempt (F := Stop) (set_search_list original_search_list);; mret () end.

Definition import_certificate (certificate keychain : path) (certificate_base64 p12_password label : string) : XM () :=
  data ← lift (decode_base64 certificate_base64);
  with_context ("writing " ^+ display certificate) (on_disk (fs_write certificate data));;
  run_signing (tool_command "security"
    ["import"; display certificate; "-f"; "pkcs12"; "-k"; display keychain; "-P"; p12_password; "-A"; "-T"; "/usr/bin/codesign";
     "-T"; "/usr/bin/productbuild"; "-T"; "/usr/bin/productsign"; "-T"; "/usr/bin/security"]) ("importing " ^+ label).

Definition import_certificates (dir keychain : path) (settings : DeveloperIdSettings) : XM () :=
  certificate ← lift (required "BUILD_CERTIFICATE_BASE64" (build_certificate_base64 settings));
  password ← lift (required "P12_PASSWORD" (p12_password settings));
  import_certificate (dir ++ ["certificate-app.p12"]) keychain certificate password "Developer ID Application certificate";;
  match installer_certificate_base64 settings with
  | None => mret ()
  | Some certificate =>
      password ← lift (installer_password settings);
      import_certificate (dir ++ ["certificate-installer.p12"]) keychain certificate password "Developer ID Installer certificate"
  end.

Record TempKeychain := mkTempKeychain {
  tk_dir : path;
  tk_path : path;
  tk_app_identity : string;
  tk_installer_identity : option string;
  tk_original_default_keychain : option string;
  tk_original_search_list : list string;
}.

(** The clock is that of [SystemTime]; it is after the epoch. *)
Definition unique_temp_dir (root : path) : XM path :=
  now ← gets (λ s, clock (bn_machine s));
  target ← target_root root;
  mret (target ++ ["xtask-signing"; pretty process_id ^+ "-" ^+ pretty now]).

(** Restores the keychains and removes the temporary one, whatever fails:
    [cleanup_failed_keychain] and [Drop for TempKeychain]. *)
Definition remove_keychain (p dir : path) (original_default_keychain : option string) (original_search_list : list string) : XM () :=
  restore_keychain_state original_default_keychain original_search_list;;
  attempt (F := Stop) (output (tool_command "security" ["delete-keychain"; display p]));;
  attempt (F := Stop) (on_disk (fs_remove_dir_all dir));;
  mret ().

Definition configure_keychain (dir p : path) (password : string) (original_search_list : list string) (settings : DeveloperIdSettings) :
    XM (string * option string) :=
  run_signing (tool_command "security" ["create-keychain"; "-p"; password; display p]) "creating temporary signing keychain";;
  run_signing (tool_command "security" ["set-keychain-settings"; "-lut"; "21600"; display p]) "configuring temporary signing keychain";;
  run_signing (tool_command "security" ["unlock-keychain"; "-p"; password; display p]) "unlocking temporary signing keychain";;
  activate_keychain (display p) original_search_list;;
  import_certificates dir p settings;;
  run_signing (tool_command "security"
    ["set-key-partition-list"; "-S"; "apple-tool:,apple:,codesign:,productbuild:,productsign:"; "-s"; "-k"; password; display p])
    "configuring keychain access for codesign";;
  app_identity ← find_codesign_identity p;
  installer_identity ← attempt (find_installer_identity p);
  mret (app_identity, match installer_identity with Ok i => Some i | Err _ => None end).

Definition create_keychain (root : path) (settings : DeveloperIdSettings) : XM TempKeychain :=
  dir ← unique_temp_dir root;
  with_context ("creating " ^+ display dir) (on_disk (fs_create_dir_all dir));;
  let p := dir ++ ["sagens-signing.keychain-db"] in
  password ← lift (required "KEYCHAIN_PASSWORD" (keychain_password settings));
  default_keychain ← attempt current_default_keychain;
  let default_keychain := match default_keychain with Ok p => Some p | Err _ => None end in
  search_list ← attempt current_search_list;
  let search_list := match search_list with Ok l => l | Err _ => [] end in
  configured ← attempt (configure_keychain dir p password search_list settings);
  match configured with
  | Ok (app, installer) => mret (mkTempKeychain dir p app installer default_keychain search_list)
  | Err error => remove_keychain p dir default_keychain search_list;; throw error
  end.

(** The rest of a function that holds the keychain; it is dropped at the end of
    it, with whatever result. *)
Definition with_keychain {A} (root : path) (settings : DeveloperIdSettings) (m : TempKeychain → XM A) : XM A :=
  keychain ← create_keychain root settings;
  r ← attempt (m keychain);
  remove_keychain (tk_path keychain) (tk_dir keychain) (tk_original_default_keychain keychain) (tk_original_search_list keychain);;
  lift r.

(** ** [signing/notary.rs] *)

Definition POLL_INTERVAL : Z := 10 * 1000000000.
Definition RETRY_DELAY : Z := 5 * 1000000000.
Definition MAX_WAIT : Z := 30 * 60 * 1000000000.
Definition MAX_TRANSIENT_FAILURES : nat := 6.

Record SubmitResponse := { sub_id : string }.
Record SubmissionInfo := { si_id : string; si_status : string }.
Context `{!Serde SubmitResponse, !Serde SubmissionInfo}.

Definition run_output (c : Command) (description : string) : XM Output :=
  o ← with_context (description ^+ ": launching notarytool") (output c);
  if ou_success o then mret o
  else
    let details := String.concat (String line_feed "") (List.filter nonempty
      [trim (from_utf8_lossy (ou_stderr o)); trim (from_utf8_lossy (ou_stdout o))]) in
    if decide (details = "") then throw (Fail (description ^+ " failed with status " ^+ ou_status o))
    else throw (Fail (description ^+ " failed with status " ^+ ou_status o ^+ ": " ^+ details)).

Definition run_json (c : Command) (description : string) : XM string :=
  o ← run_output c description;
  lift (decode_output (description ^+ ": decoding utf-8 json response") (ou_stdout o)).

Definition parse_json {T} `{!Serde T} (json description : string) : Result Stop T :=
  match from_slice (as_bytes (trim json)) with
  | Ok t => Ok t
  | Err e => Err (Fail (description ^+ ": " ^+ json ^+ ": " ^+ e))
  end.

Definition notary_command (subcommand : string) (settings : DeveloperIdSettings) (rest : list string) : Result Stop Command :=
  apple_id ← required "APPLE_ID" (apple_id settings);
  app_password ← required "APPLE_APP_SPECIFIC_PASSWORD" (apple_app_specific_password settings);
  team_id ← required "TEAM_ID" (team_id settings);
  Ok (tool_command "xcrun"
    (["notarytool"; subcommand; "--apple-id"; apple_id; "--password"; app_password; "--team-id"; team_id] ++ rest)).

Definition submit (p : path) (settings : DeveloperIdSettings) : XM SubmitResponse :=
  c ← lift (notary_command "submit" settings ["--output-format"; "json"; "--no-progress"; display p]);
  stdout ← run_json c "submitting artifact for notarization";
  lift (parse_json stdout "decoding notarization submit response").

Definition fetch_info (submission_id : string) (settings : DeveloperIdSettings) : XM SubmissionInfo :=
  c ← lift (notary_command "info" settings ["--output-format"; "json"; "--no-progress"; submission_id]);
  stdout ← run_json c "fetching notarization status";
  lift (parse_json stdout "decoding notarization info response").

Definition fetch_log (submission_id : string) (settings : DeveloperIdSettings) : XM string :=
  c ← lift (notary_command "log" settings ["--no-progress"; submission_id]);
  run_json c "fetching notarization log".

Definition log_path_for (p : path) : path :=
  parent p ++ [match last p with Some name => name ^+ ".notary-log.json" | None => "notary-log.json" end].

Definition stop_text (e : Stop) : string := match e with Fail m => m | _ => "" end.

(** The error of a submission that was refused. *)
Definition invalid_submission (p : path) (submission_id : string) (settings : DeveloperIdSettings) : XM Stop :=
  log ← attempt (fetch_log submission_id settings);
  let rejected := "Apple notarization rejected submission " ^+ submission_id in
  match log with
  | Err error => mret (Fail (rejected ^+ "; failed to fetch notarization log: " ^+ stop_text error))
  | Ok log =>
      let log_path := log_path_for p in
      written ← attempt (on_disk (fs_write log_path (as_bytes log)));
      mret (match written with
            | Ok _ => Fail (rejected ^+ "; log written to " ^+ display log_path)
            | Err error => Fail (rejected ^+ "; failed to write log to " ^+ display log_path ^+ ": " ^+ stop_text error)
            end)
  end.

Definition pause (d : Z) : XM () := modify (λ s, mkBench (bn_world s) (sleep d (bn_machine s)) (bn_env s) (bn_printed s)).

(** [None] while the loop goes on, with the failures in a row and the status seen last. *)
Definition poll_turn (p : path) (submission_id : string) (settings : DeveloperIdSettings) (started : Z)
    (failures : nat) (last_status : option string) : XM (option (nat * option string)) :=
  now ← gets (λ s, clock (bn_machine s));
  if (MAX_WAIT <? now - started)%Z then
    throw (Fail ("notarization submission " ^+ submission_id ^+ " did not complete within " ^+
      pretty ((MAX_WAIT `div` 1000000000) `div` 60)%Z ^+ " minutes; retry later with `xcrun notarytool info " ^+ submission_id ^+ " ...`"))
  else
    r ← attempt (fetch_info submission_id settings);
    match r with
    | Ok info =>
        (if decide (last_status = Some (si_status info)) then mret ()
         else println ("notarization " ^+ si_id info ^+ " status: " ^+ si_status info));;
        if String.eqb (si_status info) "Accepted" then mret None
        else if String.eqb (si_status info) "In Progress" then pause POLL_INTERVAL;; mret (Some (0, Some (si_status info)))
        else if String.eqb (si_status info) "Invalid" then error ← invalid_submission p submission_id settings; throw error
        else throw (Fail ("notarization submission " ^+ submission_id ^+ " returned unexpected status `" ^+ si_status info ^+ "`"))
    | Err error =>
        if decide (MAX_TRANSIENT_FAILURES < S failures) then
          throw (in_context ("polling notarization status for " ^+ submission_id ^+ " failed " ^+ pretty (S failures) ^+ " times in a row") error)
        else pause RETRY_DELAY;; mret (Some (S failures, last_status))
    end.

Fixpoint poll_loop (turns : nat) (p : path) (submission_id : string) (settings : DeveloperIdSettings) (started : Z)
    (failures : nat) (last_status : option string) : XM () :=
  match turns with
  | O => throw OutOfTurns
  | S turns' =>
      r ← poll_turn p submission_id settings started failures last_status;
      match r with
      | None => mret ()
      | Some (failures', last_status') => poll_loop turns' p submission_id settings started failures' last_status'
      end
  end.

(** Every turn sleeps at least [RETRY_DELAY]. *)
Definition poll_turns : nat := Z.to_nat (MAX_WAIT / RETRY_DELAY + 2).

Definition wait_for_completion (p : path) (submission_id : string) (settings : DeveloperIdSettings) : XM () :=
  started ← gets (λ s, clock (bn_machine s));
  poll_loop poll_turns p submission_id settings started 0 None.

Definition notarize_path (p : path) (settings : DeveloperIdSettings) : XM () :=
  submission ← submit p settings;
  println ("submitted " ^+ display p ^+ " for notarization (" ^+ sub_id submission ^+ ")");;
  wait_for_completion p (sub_id submission) settings.

(** ** [signing/installer.rs] and [signing/python.rs] *)

Definition installer_stage_dir (root : path) (package_name : string) : XM path :=
  target ← target_root root; mret (target ++ ["xtask-pkg"; package_name]).

(** [split] at every character that is not a digit. *)
Fixpoint digit_runs (s : string) : list string :=
  match s with
  | EmptyString => [""]
  | String a s' =>
      if is_ascii_digit a then match digit_runs s' with [] => [String a ""] | w :: ws => String a w :: ws end
      else "" :: digit_runs s'
  end.
Definition installer_pkg_version (version : string) : string :=
  match List.filter nonempty (digit_runs (trim_start_matches "v" version)) with
  | [] => "0"
  | parts => String.concat "." parts
  end.

Definition pkgbuild_args (version : string) (install_root : path) : list string :=
  ["--root"; display install_root; "--identifier"; "dev.tvorogme.sagens"; "--version"; version;
   "--install-location"; "/"; "--ownership"; "recommended"].
Definition build_unsigned_pkg (version : string) (install_root pkg : path) : XM () :=
  run_signing (tool_command "pkgbuild" (pkgbuild_args version install_root ++ [display pkg])) "building macOS installer package".
Definition build_signed_pkg (version : string) (install_root pkg : path) (identity : string) (keychain : path) : XM () :=
  run_signing (tool_command "pkgbuild"
    (pkgbuild_args version install_root ++ ["--sign"; identity; "--keychain"; display keychain; display pkg]))
    "building signed macOS installer package".
Definition staple_ticket (p : path) : XM () :=
  run_signing (tool_command "xcrun" ["stapler"; "staple"; display p]) "stapling notarization ticket".

Definition stage_python_binary (package_root binary : path) : XM path :=
  let bin_dir := package_root ++ ["sagens"; "_bin"] in
  with_context ("creating " ^+ display bin_dir) (on_disk (fs_create_dir_all bin_dir));;
  let staged := bin_dir ++ ["sagens"] in
  with_context ("copying " ^+ display binary ^+ " to " ^+ display staged) (on_disk (fs_copy binary staged));;
  mret staged.

(** ** [signing.rs] *)

Definition entitlement_args (entitlements : option path) : list string :=
  match entitlements with Some e => ["--entitlements"; display e] | None => [] end.

Definition ad_hoc_codesign (entitlements : option path) (p : path) (description : string) : XM () :=
  run_signing (tool_command "codesign"
    (["--force"; "--sign"; "-"] ++ entitlement_args entitlements ++ ["--timestamp=none"; display p]))
    ("ad-hoc codesigning " ^+ description).

Definition developer_id_codesign (identity : string) (keychain : path) (entitlements : option path) (p : path) (description : string) : XM () :=
  run_signing (tool_command "codesign"
    (["--force"; "--sign"; identity; "--keychain"; display keychain] ++ entitlement_args entitlements ++
     ["--options"; "runtime"; "--timestamp"; display p])) ("Developer ID codesigning " ^+ description).

Definition sign_macos_code (root p : path) (entitlements : option path) (description : string) : XM () :=
  settings ← settings_from_env root;
  match settings with
  | AdHoc => ad_hoc_codesign entitlements p description
  | DeveloperId settings =>
      with_keychain root settings (λ keychain,
        developer_id_codesign (tk_app_identity keychain) (tk_path keychain) entitlements p description)
  end.

Definition entitlements_file (root : path) : path := root ++ ["macos"; "sagens.entitlements"].
Definition on_macos_host : bool := String.eqb build_os "macos".

Definition sign_binary (root binary : path) : XM () :=
  if negb on_macos_host then mret ()
  else sign_macos_code root binary (Some (entitlements_file root)) "sagens binary".

Definition sign_native_payload (root p : path) (host : bool) : XM () :=
  if negb on_macos_host then mret ()
  else sign_macos_code root p (if host then Some (entitlements_file root) else None)
         (if host then "sagens host payload" else "Python native payload").

Definition sign_pkg (root : path) (version : string) (install_root pkg : path) : XM () :=
  settings ← settings_from_env root;
  match settings with
  | AdHoc => build_unsigned_pkg version install_root pkg
  | DeveloperId settings =>
      with_keychain root settings (λ keychain,
        match tk_installer_identity keychain with
        | Some signer =>
            build_signed_pkg version install_root pkg signer (tk_path keychain);;
            if has_notary_credentials settings then
              notarize_path pkg settings;;
              staple_ticket pkg
            else mret ()
        | None => build_unsigned_pkg version install_root pkg
        end)
  end.

Definition build_macos_pkg (root : path) (package_name version : string) (binary out_dir : path) : XM (option path) :=
  skip ← env_truthy SKIP_INSTALLER_ENV;
  if negb on_macos_host || skip then mret None
  else
    let pkg := out_dir ++ [package_name ^+ ".pkg"] in
    present ← exists_path pkg;
    (if present : bool then with_context ("removing " ^+ display pkg) (on_disk (fs_remove_file pkg)) else mret ());;
    stage ← installer_stage_dir root package_name;
    staged ← exists_path stage;
    (if staged : bool then with_context ("removing " ^+ display stage) (on_disk (fs_remove_dir_all stage)) else mret ());;
    let install_root := stage ++ ["root"] in
    let install_bin_dir := install_root ++ ["usr"; "local"; "bin"] in
    with_context ("creating " ^+ display install_bin_dir) (on_disk (fs_create_dir_all install_bin_dir));;
    let staged_binary := install_bin_dir ++ ["sagens"] in
    with_context ("copying " ^+ display binary ^+ " to " ^+ display staged_binary) (on_disk (fs_copy binary staged_binary));;
    sign_pkg root (installer_pkg_version version) install_root pkg;;
    with_context ("removing " ^+ display stage) (on_disk (fs_remove_dir_all stage));;
    mret (Some pkg).

Definition notarize_release_archive (root : path) (package_name : string) (binary out_dir : path) : XM (option path) :=
  if negb on_macos_host then mret None
  else
    settings ← settings_from_env root;
    match settings with
    | AdHoc => mret None
    | DeveloperId settings =>
        if negb (has_notary_credentials settings) then mret None
        else
          let archive := out_dir ++ [package_name ^+ ".zip"] in
          present ← exists_path archive;
          (if present : bool then with_context ("removing " ^+ display archive) (on_disk (fs_remove_file archive)) else mret ());;
          run_signing (tool_command "ditto" ["-c"; "-k"; "--keepParent"; display binary; display archive])
            "creating notarization archive";;
          notarize_path archive settings;;
          mret (Some archive)
    end.
End bench.

(** ** The decoder of base64 *)

(** RFC 4648, with padding. *)
Definition base64_alphabet (n : Z) : Byte.byte :=
  byte_of (if n <? 26 then n + 65 else if n <? 52 then n + 71 else if n <? 62 then n - 4 else if n =? 62 then 43 else 47)%Z.
Definition base64_pad : Byte.byte := byte_of 61.
Fixpoint base64_encode (b : bytes) : bytes :=
  match b with
  | [] => []
  | [x] =>
      let x := byte_value x in [base64_alphabet (x / 4); base64_alphabet (x mod 4 * 16); base64_pad; base64_pad]
  | [x; y] =>
      let x := byte_value x in let y := byte_value y in
      [base64_alphabet (x / 4); base64_alphabet (x mod 4 * 16 + y / 16); base64_alphabet (y mod 16 * 4); base64_pad]
  | x :: y :: z :: rest =>
      let x := byte_value x in let y := byte_value y in let z := byte_value z in
      base64_alphabet (x / 4) :: base64_alphabet (x mod 4 * 16 + y / 16) ::
      base64_alphabet (y mod 16 * 4 + z / 64) :: base64_alphabet (z mod 64) :: base64_encode rest
  end.

Lemma byte_value_range b : (0 ≤ byte_value b < 256)%Z.
Proof. unfold byte_value. pose proof (Byte.to_N_bounded b). lia. Qed.

Lemma base64_digit_of n : (0 ≤ n < 64)%Z → base64_digit (base64_alphabet n) = Ok (Some n).
Proof.
  intros Hn. assert (Hall : forallb (λ k, let k := Z.of_nat k in
    match base64_digit (base64_alphabet k) with Ok (Some m) => (m =? k)%Z | _ => false end) (seq 0 64) = true) by (vm_compute; reflexivity).
  rewrite forallb_forall in Hall. specialize (Hall (Z.to_nat n)). rewrite in_seq, Z2Nat.id in Hall by lia.
  specialize (Hall ltac:(lia)). cbv zeta in Hall. destruct (base64_digit (base64_alphabet n)) as [[m|]|]; [|done..].
  by apply Z.eqb_eq in Hall as ->.
Qed.

Lemma shift_in buffer d : (0 ≤ buffer < 64)%Z → (0 ≤ d < 64)%Z →
  Z.lor (Z.land (Z.shiftl buffer 6) 4294967295) d = (buffer * 64 + d)%Z.
Proof.
  intros Hb Hd. assert (Hall : forallb (λ k, forallb (λ n, let k := Z.of_nat k in let n := Z.of_nat n in
    (Z.lor (Z.land (Z.shiftl k 6) 4294967295) n =? k * 64 + n)%Z) (seq 0 64)) (seq 0 64) = true) by (vm_compute; reflexivity).
  rewrite forallb_forall in Hall. specialize (Hall (Z.to_nat buffer)). rewrite in_seq, forallb_forall in Hall.
  specialize (Hall ltac:(lia) (Z.to_nat d)). rewrite in_seq, !Z2Nat.id in Hall by lia. apply Z.eqb_eq, Hall. lia.
Qed.

(** One digit: with [bits] bits waiting, a byte comes out from the second digit of a group on. *)
Lemma decode_digit d rest buffer bits :
  (0 ≤ d < 64)%Z → (0 ≤ bits ≤ 6)%Z → (0 ≤ buffer < 2 ^ bits)%Z →
  decode_base64_loop (base64_alphabet d :: rest) buffer bits =
    if (2 <=? bits)%Z then
      out ← decode_base64_loop rest ((buffer * 64 + d) mod 2 ^ (bits - 2)) (bits - 2);
      Ok (byte_of ((buffer * 64 + d) / 2 ^ (bits - 2)) :: out)
    else decode_base64_loop rest (buffer * 64 + d) (bits + 6).
Proof.
  intros Hd Hbits Hb. cbn [decode_base64_loop]. rewrite base64_digit_of by done. cbn [mbind Result_bind]. cbv zeta.
  assert (2 ^ bits ≤ 2 ^ 6)%Z by (apply Z.pow_le_mono_r; lia). change (2 ^ 6)%Z with 64%Z in *.
  rewrite shift_in by lia. replace (8 <=? bits + 6)%Z with (2 <=? bits)%Z by (apply eq_bool_prop_intro; rewrite !Is_true_true, !Z.leb_le; lia).
  destruct (Z.leb_spec 2 bits) as [H2|]; [|done]. replace (bits + 6 - 8)%Z with (bits - 2)%Z by lia.
  rewrite Z.shiftl_1_l, Z.sub_1_r, <-Z.ones_equiv, Z.land_ones, Z.shiftr_div_pow2 by lia.
  assert (Hp : (0 < 2 ^ (bits - 2))%Z) by (apply Z.pow_pos_nonneg; lia).
  assert (Hq : (2 ^ bits = 2 ^ (bits - 2) * 4)%Z) by (replace bits with (bits - 2 + 2)%Z at 1 by lia; by rewrite Z.pow_add_r by lia).
  change 255%Z with (Z.ones 8). rewrite Z.land_ones by lia. rewrite (Z.mod_small (_ / _)); [done|].
  split; [apply Z.div_pos; lia|]. apply Z.div_lt_upper_bound; [lia|]. change (2 ^ 8)%Z with 256%Z. lia.
Qed.

Local Ltac div_lia := Z.to_euclidean_division_equations; lia.

(** The four digits of a group. *)
Lemma decode_digit1 d rest : (0 ≤ d < 64)%Z → decode_base64_loop (base64_alphabet d :: rest) 0 0 = decode_base64_loop rest d 6.
Proof. intros Hd. rewrite decode_digit by (simpl; lia). reflexivity. Qed.
Lemma decode_digit2 d rest buffer : (0 ≤ d < 64)%Z → (0 ≤ buffer < 64)%Z →
  decode_base64_loop (base64_alphabet d :: rest) buffer 6 =
    out ← decode_base64_loop rest ((buffer * 64 + d) mod 16) 4; Ok (byte_of ((buffer * 64 + d) / 16) :: out).
Proof. intros Hd Hb. rewrite decode_digit by (simpl; lia). reflexivity. Qed.
Lemma decode_digit3 d rest buffer : (0 ≤ d < 64)%Z → (0 ≤ buffer < 16)%Z →
  decode_base64_loop (base64_alphabet d :: rest) buffer 4 =
    out ← decode_base64_loop rest ((buffer * 64 + d) mod 4) 2; Ok (byte_of ((buffer * 64 + d) / 4) :: out).
Proof. intros Hd Hb. rewrite decode_digit by (simpl; lia). reflexivity. Qed.
Lemma decode_digit4 d rest buffer : (0 ≤ d < 64)%Z → (0 ≤ buffer < 4)%Z →
  decode_base64_loop (base64_alphabet d :: rest) buffer 2 =
    out ← decode_base64_loop rest 0 0; Ok (byte_of (buffer * 64 + d) :: out).
Proof. intros Hd Hb. rewrite decode_digit by (simpl; lia). simpl. by rewrite Z.mod_1_r, Z.div_1_r. Qed.
Lemma decode_padding rest buffer bits : decode_base64_loop (base64_pad :: rest) buffer bits = decode_base64_loop rest buffer bits.
Proof. reflexivity. Qed.

Lemma byte_of_eq n x : n = byte_value x → byte_of n = x.
Proof. intros ->. apply byte_of_value. Qed.

Lemma decode_encoded b : decode_base64_loop (base64_encode b) 0 0 = Ok b.
Proof.
  remember (length b) as n eqn:Hn. revert b Hn. induction (lt_wf n) as [n _ IH]. intros b ->.
  destruct b as [|x [|y [|z rest]]]; [done| | |]; cbn [base64_encode]; cbv zeta; pose proof (byte_value_range x).
  - rewrite decode_digit1 by div_lia. rewrite decode_digit2 by div_lia. rewrite !decode_padding. cbn [decode_base64_loop mbind Result_bind].
    by rewrite (byte_of_eq _ x) by div_lia.
  - pose proof (byte_value_range y). rewrite decode_digit1 by div_lia. rewrite decode_digit2 by div_lia.
    rewrite decode_digit3 by div_lia. rewrite decode_padding. cbn [decode_base64_loop mbind Result_bind].
    rewrite (byte_of_eq _ x) by div_lia. by rewrite (byte_of_eq _ y) by div_lia.
  - pose proof (byte_value_range y). pose proof (byte_value_range z).
    rewrite decode_digit1 by div_lia. rewrite decode_digit2 by div_lia. rewrite decode_digit3 by div_lia. rewrite decode_digit4 by div_lia.
    rewrite (IH (length rest)) by (simpl; lia || done). cbn [mbind Result_bind].
    rewrite (byte_of_eq _ x) by div_lia. rewrite (byte_of_eq _ y) by div_lia. by rewrite (byte_of_eq _ z) by div_lia.
Qed.

(** a certificate is decoded to what was encoded: the decoder of the signing tool inverts the standard encoding, with its
    padding. *)
Theorem base64_roundtrip b text : as_bytes text = base64_encode b → decode_base64 text = Ok b.
Proof. intros E. unfold decode_base64. rewrite E. apply decode_encoded. Qed.

(** ** Waiting for the notary *)

(** A clock that does not go back, and passes the time slept. *)
Class ClockLaws `{Programs} : Prop := {
  execute_time env c w m : (clock m ≤ clock (execute env c (w, m)).2.2)%Z;
  sleep_time d m : (0 ≤ d)%Z → (clock m + d ≤ clock (sleep d m))%Z;
}.

(** No time goes back, and every error is an error of the tool. *)
Definition timely `{Programs} (s s' : Bench) : Prop := (clock (bn_machine s) ≤ clock (bn_machine s'))%Z.
#[export] Instance timely_preorder `{Programs} : PreOrder timely.
Proof. split; [by intros s; unfold timely|intros a b c; unfold timely; lia]. Qed.

Definition only_fails `{Programs} {A} (m : M Stop Bench A) : Prop := ∀ s e s', m s = (Err e, s') → ∃ text, e = Fail text.

Section notary.
Context `{!Platform, progs : !Programs, !ClockLaws, !Serde SubmitResponse, !Serde SubmissionInfo}.
Local Abbreviation XM := (M Stop Bench).

Lemma fails_bind {A B} (m : XM A) (f : A → XM B) : only_fails m → (∀ a, only_fails (f a)) → only_fails (m ≫= f).
Proof.
  intros Hm Hf s e s'. unfold mbind, M_bind. destruct (m s) as [[a|e1] s1] eqn:E; [apply Hf|]. intros [= -> ->]. by eapply Hm.
Qed.
Lemma fails_ret {A} (a : A) : only_fails (mret a : XM A).
Proof. by intros s e s'. Qed.
Lemma fails_fail {A} t : only_fails (throw (Fail t) : XM A).
Proof. intros s e s' [= <- _]. eauto. Qed.
Lemma fails_lift {A} (r : Result Stop A) : (∀ e, r = Err e → ∃ t, e = Fail t) → only_fails (lift r : XM A).
Proof. intros Hr s e s' [= E _]. eauto. Qed.
Lemma fails_context {A} c (m : XM A) : only_fails m → only_fails (with_context c m).
Proof.
  intros Hm s e s'. unfold with_context, map_err. destruct (m s) as [[a|e1] s1] eqn:E; [done|]. intros [= <- <-].
  apply Hm in E as [t ->]. simpl. eauto.
Qed.
Lemma fails_output c : only_fails (output c).
Proof. intros s e s'. unfold output. destruct (execute _ _ _) as [[o|e1] [w m]]; intros [= <- <-]; eauto. Qed.
Lemma fails_command sub settings rest e : notary_command sub settings rest = Err e → ∃ t, e = Fail t.
Proof.
  unfold notary_command, required. destruct (apple_id settings); simpl; [|intros [= <-]; eauto].
  destruct (apple_app_specific_password settings); simpl; [|intros [= <-]; eauto]. destruct (team_id settings); simpl; [done|intros [= <-]; eauto].
Qed.
Lemma fails_run_json c description : only_fails (run_json c description).
Proof.
  unfold run_json, run_output, decode_output. apply fails_bind.
  - apply fails_bind; [apply fails_context, fails_output|]. intros o. destruct (ou_success o); [apply fails_ret|].
    cbv zeta. case_decide; apply fails_fail.
  - intros o. apply fails_lift. intros e. destruct (utf8_decode _); [done|]. intros [= <-]. eauto.
Qed.
Lemma fails_fetch_info id settings : only_fails (fetch_info id settings).
Proof.
  unfold fetch_info, parse_json. apply fails_bind; [apply fails_lift; intros e; apply fails_command|intros c].
  apply fails_bind; [apply fails_run_json|intros t]. apply fails_lift. intros e. destruct (from_slice _); [done|]. intros [= <-]. eauto.
Qed.

Lemma timely_output c : keeps timely (output c).
Proof.
  intros s. unfold output, timely. pose proof (execute_time (bn_env s) c (bn_world s) (bn_machine s)) as Ht.
  by destruct (execute _ _ _) as [r [w m]].
Qed.
Lemma timely_disk {A} (m : M IoError World A) : keeps timely (on_disk m).
Proof. intros s. unfold on_disk, zoom, timely. by destruct (map_err _ _ _). Qed.
Lemma timely_print t : keeps timely (println t).
Proof. intros s. by unfold timely. Qed.
Lemma timely_context {A} c (m : XM A) : keeps timely m → keeps timely (with_context c m).
Proof. intros Hm. by apply keeps_map_err. Qed.
Lemma timely_run_json c description : keeps timely (run_json c description).
Proof.
  unfold run_json, run_output. apply keeps_bind; [typeclasses eauto| |intros o; apply keeps_lift; typeclasses eauto].
  apply keeps_bind; [typeclasses eauto|apply timely_context, timely_output|]. intros o. cbv zeta.
  destruct (ou_success o); [apply keeps_ret; typeclasses eauto|]. case_decide; apply keeps_throw; typeclasses eauto.
Qed.
Lemma timely_fetch_info id settings : keeps timely (fetch_info id settings).
Proof.
  unfold fetch_info. apply keeps_bind; [typeclasses eauto|apply keeps_lift; typeclasses eauto|intros c].
  apply keeps_bind; [typeclasses eauto|apply timely_run_json|intros t; apply keeps_lift; typeclasses eauto].
Qed.

(** How one turn ends: accepted, refused, or later. *)
Lemma poll_turn_outcome p id settings started failures last_status s r s' :
  poll_turn p id settings started failures last_status s = (r, s') →
  match r with
  | Ok None => ∃ info s1, fetch_info id settings s = (Ok info, s1) ∧ si_status info = "Accepted"
  | Ok (Some _) => (clock (bn_machine s) - started ≤ MAX_WAIT)%Z ∧ (clock (bn_machine s) + RETRY_DELAY ≤ clock (bn_machine s'))%Z
  | Err e => ∃ text, e = Fail text
  end.
Proof.
  unfold poll_turn. unfold mbind at 1, M_bind at 1, gets at 1.
  destruct (Z.ltb_spec MAX_WAIT (clock (bn_machine s) - started)) as [|Hle]; [intros [= <- <-]; eauto|].
  pose proof (timely_fetch_info id settings s) as Ht. pose proof (fails_fetch_info id settings s) as Hf.
  unfold mbind at 1, M_bind at 1, attempt at 1. destruct (fetch_info id settings s) as [[info|e] s1] eqn:Ei; unfold timely in Ht; simpl in Ht.
  - set (said := if decide _ then _ else _ : XM ()).
    assert (Hsaid : ∃ s2, said s1 = (Ok (), s2) ∧ bn_machine s2 = bn_machine s1) by (subst said; case_decide; by eexists).
    destruct Hsaid as (s2 & Es & Em). rewrite (bind_ok _ _ _ _ _ Es). clear said Es.
    destruct (String.eqb_spec (si_status info) "Accepted"); [intros [= <- <-]; eauto|].
    destruct (String.eqb_spec (si_status info) "In Progress").
    { intros [= <- <-]. split; [done|]. simpl. rewrite Em. pose proof (sleep_time POLL_INTERVAL (bn_machine s1) ltac:(done)).
      unfold RETRY_DELAY, POLL_INTERVAL in *. lia. }
    destruct (String.eqb_spec (si_status info) "Invalid"); [|intros [= <- <-]; eauto].
    unfold invalid_submission, mbind, M_bind, attempt. destruct (fetch_log id settings s2) as [[log|e1] s3]; [|intros [= <- <-]; eauto].
    destruct (on_disk _ s3) as [[u|e1] s4]; intros [= <- <-]; eauto.
  - case_decide; [intros [= <- <-]; destruct (Hf e s1 eq_refl) as [t ->]; simpl; eauto|].
    intros [= <- <-]. split; [done|]. simpl. pose proof (sleep_time RETRY_DELAY (bn_machine s1) ltac:(done)). lia.
Qed.

Lemma poll_loop_ends turns p id settings started failures last_status s r s' :
  (started + MAX_WAIT < clock (bn_machine s) + RETRY_DELAY * (Z.of_nat turns - 1))%Z → 0 < turns →
  poll_loop turns p id settings started failures last_status s = (r, s') →
  (r = Ok () ∧ ∃ info s1 s2, fetch_info id settings s1 = (Ok info, s2) ∧ si_status info = "Accepted") ∨ ∃ text, r = Err (Fail text).
Proof.
  revert failures last_status s. induction turns as [|turns IH]; intros failures last_status s Hc Hpos; [lia|]. cbn [poll_loop].
  unfold mbind, M_bind. destruct (poll_turn _ _ _ _ _ _ s) as [[[[f' l']|]|e] s1] eqn:E; apply poll_turn_outcome in E.
  - destruct E as [Hle Hs]. unfold RETRY_DELAY, MAX_WAIT in *. assert (0 < turns) by lia. apply IH; lia.
  - intros [= <- <-]. left. destruct E as (info & s2 & Hi & Ha). split; [done|]. eauto.
  - intros [= <- <-]. right. destruct E as [t ->]. eauto.
Qed.

(** waiting for the notary ends, with success only when the notary has accepted the submission: within half an hour of
    answers, with six failures in a row at most, the loop has returned or given an error. *)
Theorem notary_wait_ends p id settings s r s' :
  wait_for_completion p id settings s = (r, s') →
  (r = Ok () ∧ ∃ info s1 s2, fetch_info id settings s1 = (Ok info, s2) ∧ si_status info = "Accepted") ∨ ∃ text, r = Err (Fail text).
Proof.
  unfold wait_for_completion. unfold mbind, M_bind, gets. apply poll_loop_ends; [|by apply Nat.lt_0_succ].
  assert (Ht : (Z.of_nat poll_turns = 362)%Z) by (vm_compute; reflexivity). rewrite Ht. unfold RETRY_DELAY, MAX_WAIT. lia.
Qed.
End notary.

(** ** The keychains of the user *)

Definition keychain_line (p : string) : string := "    " ^+ String double_quote (p ^+ String double_quote (String line_feed "")).
Definition keychain_lines (l : list string) : string := foldr (λ p t, keychain_line p ^+ t) "" l.

(** [security]: the default keychain and the search list of the user, as its
    manual page has it.  [delete-keychain] also takes the keychain off the list. *)
Class SecurityLaws `{Programs} := {
  kc_default : Machine → string;
  kc_search : Machine → list string;
  utf8_text t : utf8_decode (as_bytes t) = Ok t;
  security_default env w m :
    ∃ o w' m', execute env (tool_command "security" ["default-keychain"; "-d"; "user"]) (w, m) = (Ok o, (w', m')) ∧
      ou_stdout o = as_bytes (keychain_line (kc_default m)) ∧ kc_default m' = kc_default m ∧ kc_search m' = kc_search m;
  security_list env w m :
    ∃ o w' m', execute env (tool_command "security" ["list-keychains"; "-d"; "user"]) (w, m) = (Ok o, (w', m')) ∧
      ou_stdout o = as_bytes (keychain_lines (kc_search m)) ∧ kc_default m' = kc_default m ∧ kc_search m' = kc_search m;
  security_set_default env w m p :
    ∃ o w' m', execute env (tool_command "security" ["default-keychain"; "-d"; "user"; "-s"; p]) (w, m) = (Ok o, (w', m')) ∧
      ou_success o = true ∧ kc_default m' = p ∧ kc_search m' = kc_search m;
  security_set_list env w m l :
    ∃ o w' m', execute env (tool_command "security" (["list-keychains"; "-d"; "user"; "-s"] ++ l)) (w, m) = (Ok o, (w', m')) ∧
      ou_success o = true ∧ kc_default m' = kc_default m ∧ kc_search m' = l;
  security_delete env w m p :
    ∃ r w' m', execute env (tool_command "security" ["delete-keychain"; p]) (w, m) = (r, (w', m')) ∧
      (kc_default m ≠ p → kc_default m' = kc_default m) ∧ kc_search m' = filter (λ q, q ≠ p) (kc_search m);
}.

(** The name of a keychain as it is printed between quotes. *)
Definition plain_keychain (p : string) : Prop :=
  p ≠ "" ∧ all_chars (λ a, negb (Ascii.eqb a double_quote) && negb (Ascii.eqb a line_feed)) p = true.

Definition quoted_keychain (p : string) : string := String double_quote (p ^+ String double_quote "").

Lemma rev_quoted p : string_rev (quoted_keychain p) = String double_quote (string_rev p ^+ String double_quote "").
Proof. unfold quoted_keychain. change (String double_quote (p ^+ ?x)) with (String double_quote "" ^+ p ^+ x). by rewrite !string_rev_append. Qed.

Lemma trim_quoted p : trim ("    " ^+ quoted_keychain p) = quoted_keychain p.
Proof.
  assert (E : trim_start ("    " ^+ quoted_keychain p) = quoted_keychain p).
  { unfold trim_start, quoted_keychain. cbn [String.append String.length]. cbn [strip_all]. reflexivity. }
  unfold trim. rewrite E. unfold trim_end. rewrite rev_quoted, strip_all_done by by apply graphic_not_white_rev.
  rewrite <-rev_quoted. apply string_rev_involutive.
Qed.

Lemma trim_start_char_none c a t : Ascii.eqb a c = false → trim_start_char c (String a t) = String a t.
Proof. intros Ha. simpl. by rewrite Ha. Qed.

Lemma trim_start_char_quote t : trim_start_char double_quote (String double_quote t) = trim_start_char double_quote t.
Proof. reflexivity. Qed.

Lemma trim_char_quoted p : plain_keychain p → trim_char double_quote (quoted_keychain p) = p.
Proof.
  intros [Hne Hp]. unfold trim_char, quoted_keychain.
  assert (Hq : all_chars (λ a, negb (Ascii.eqb a double_quote)) p = true) by (eapply all_chars_impl; [|exact Hp]; intros a Ha; by apply andb_true_iff in Ha as [? _]).
  pose proof Hq as Hr. rewrite <-all_chars_rev in Hr. pose proof (string_rev_nonempty p Hne) as Hnr.
  destruct p as [|a p']; [done|]. simpl in Hq. apply andb_true_iff in Hq as [Ha%negb_true_iff _].
  rewrite trim_start_char_quote. change (String a p' ^+ ?x) with (String a (p' ^+ x)). rewrite trim_start_char_none by done.
  change (String a (p' ^+ String double_quote "")) with (String a p' ^+ String double_quote ""). rewrite string_rev_append.
  destruct (string_rev (String a p')) as [|b r] eqn:E; [done|]. simpl in Hr. apply andb_true_iff in Hr as [Hb%negb_true_iff _].
  change (string_rev (String double_quote "") ^+ String b r) with (String double_quote (String b r)).
  rewrite trim_start_char_quote, trim_start_char_none by done. rewrite <-E. apply string_rev_involutive.
Qed.

Lemma keychain_line_split p rest : plain_keychain p →
  str_lines (keychain_line p ^+ rest) = ("    " ^+ quoted_keychain p) :: str_lines rest.
Proof.
  intros [_ Hp]. assert (El : keychain_line p ^+ rest = ("    " ^+ quoted_keychain p) ^+ String line_feed rest).
  { unfold keychain_line, quoted_keychain. rewrite !string_app_assoc. f_equal.
    change (String double_quote ?x ^+ ?y) with (String double_quote (x ^+ y)). by rewrite !string_app_assoc. }
  rewrite El. unfold str_lines. rewrite split_on_line.
  - pose proof (split_on_nonempty line_feed rest). cbn [chomp_lines]. destruct (split_on line_feed rest) as [|x xs]; [done|]. f_equal.
    unfold chomp_cr. rewrite string_rev_append, rev_quoted. reflexivity.
  - rewrite all_chars_app. unfold quoted_keychain. simpl. rewrite all_chars_app. simpl. rewrite andb_true_r.
    eapply all_chars_impl; [|exact Hp]. intros a Ha. by apply andb_true_iff in Ha as [_ ?].
Qed.

(** What [security] prints is read back. *)
Lemma keychains_read_back l : Forall plain_keychain l → parse_keychain_paths (keychain_lines l) = l.
Proof.
  unfold parse_keychain_paths. induction 1 as [|p l Hp Hl IH]; [done|]. cbn [keychain_lines foldr].
  fold (keychain_lines l). rewrite keychain_line_split by done. cbn [map]. rewrite trim_quoted. cbn [List.filter].
  assert (Hq : nonempty (quoted_keychain p) = true) by reflexivity. rewrite Hq. cbn [map]. rewrite trim_char_quoted by done. cbn [List.filter].
  assert (Hn : nonempty p = true) by (unfold nonempty; by rewrite bool_decide_false by apply Hp). by rewrite Hn, IH.
Qed.

Lemma filter_absent (x : string) (l : list string) : x ∉ l → filter (λ q, q ≠ x) l = l.
Proof.
  induction l as [|y l IH]; [done|]. intros Hx. rewrite filter_cons_True by (intros ->; apply Hx; left).
  by rewrite IH by (intros H; apply Hx; by right).
Qed.

Section keychain.
Context `{!Platform, progs : !Programs, laws : !SecurityLaws}.
Local Abbreviation XM := (M Stop Bench).

Definition keychains (s : Bench) : string * list string := (kc_default (bn_machine s), kc_search (bn_machine s)).
Definition same_keychains (s s' : Bench) : Prop := keychains s' = keychains s.
#[local] Instance same_keychains_preorder : PreOrder same_keychains.
Proof. split; [done|]. intros a b c. unfold same_keychains. congruence. Qed.

Lemma same_disk {A} (m : M IoError World A) : keeps same_keychains (on_disk m).
Proof. intros s. unfold on_disk, zoom, same_keychains. by destruct (map_err _ _ _). Qed.

Lemma output_by c s o w m : execute (bn_env s) c (bn_world s, bn_machine s) = (Ok o, (w, m)) →
  output c s = (Ok o, mkBench w m (bn_env s) (bn_printed s)).
Proof. intros E. unfold output. by rewrite E. Qed.

Lemma set_default_works p s : ∃ s', set_default_keychain p s = (Ok (), s') ∧ keychains s' = (p, kc_search (bn_machine s)).
Proof.
  destruct (security_set_default (bn_env s) (bn_world s) (bn_machine s) p) as (o & w & m & E & Ho & Hd & Hs).
  eexists. split.
  - unfold set_default_keychain, run_signing. erewrite bind_ok; [|unfold with_context; apply map_err_ok, output_by, E].
    unfold ensure. by rewrite Ho.
  - unfold keychains. simpl. by rewrite Hd, Hs.
Qed.
Lemma set_list_works l s : ∃ s', set_search_list l s = (Ok (), s') ∧ keychains s' = (kc_default (bn_machine s), l).
Proof.
  destruct (security_set_list (bn_env s) (bn_world s) (bn_machine s) l) as (o & w & m & E & Ho & Hd & Hs).
  eexists. split.
  - unfold set_search_list, run_signing. erewrite bind_ok; [|unfold with_context; apply map_err_ok, output_by, E].
    unfold ensure. by rewrite Ho.
  - unfold keychains. simpl. by rewrite Hd, Hs.
Qed.

Lemma remove_restores p dir d l s :
  l ≠ [] → d ≠ display p → display p ∉ l →
  ∃ s', remove_keychain p dir (Some d) l s = (Ok (), s') ∧ keychains s' = (d, l).
Proof.
  intros Hl Hd Hp. unfold remove_keychain, restore_keychain_state.
  destruct (set_default_works d s) as (s1 & E1 & K1). destruct (set_list_works l s1) as (s2 & E2 & K2).
  destruct (security_delete (bn_env s2) (bn_world s2) (bn_machine s2) (display p)) as (r & w & m & E3 & Hd3 & Hs3).
  set (s3 := mkBench w m (bn_env s2) (bn_printed s2)).
  assert (K3 : keychains s3 = (d, l)).
  { injection K1 as Kd1 Ks1. injection K2 as Kd2 Ks2. unfold keychains, s3. simpl. rewrite Hd3, Hs3, Kd2, Ks2, Kd1 by congruence.
    by rewrite filter_absent. }
  pose proof (same_disk (fs_remove_dir_all dir) s3) as K4. destruct (on_disk (fs_remove_dir_all dir) s3) as [r4 s4] eqn:E4.
  exists s4. split; [|unfold same_keychains in K4; simpl in K4; congruence].
  unfold mbind, M_bind, attempt. rewrite E1. destruct l as [|x l']; [done|]. unfold mret, M_ret. cbv beta iota. rewrite E2. unfold output. rewrite E3. fold s3. by rewrite E4.
Qed.

(** The keychains at the start are what is put back. *)
Lemma originals_read s : Forall plain_keychain (kc_default (bn_machine s) :: kc_search (bn_machine s)) →
  (∃ s', current_default_keychain s = (Ok (kc_default (bn_machine s)), s') ∧ keychains s' = keychains s) ∧
  ∃ s', current_search_list s = (Ok (kc_search (bn_machine s)), s') ∧ keychains s' = keychains s.
Proof.
  intros Hall. pose proof (Forall_inv Hall) as Hdp. pose proof (Forall_inv_tail Hall) as Hsp. split.
  - destruct (security_default (bn_env s) (bn_world s) (bn_machine s)) as (o & w & m & E & Ho & Hd & Hs). eexists. split.
    + unfold current_default_keychain, with_context. erewrite bind_ok; [|apply map_err_ok, output_by, E].
      unfold decode_output. rewrite Ho, utf8_text.
      assert (Hp : parse_keychain_paths (keychain_line (kc_default (bn_machine s)) ^+ "") = [kc_default (bn_machine s)]) by (apply (keychains_read_back [_]); by constructor).
      rewrite string_app_nil_r in Hp. unfold mbind, M_bind, lift. simpl. by rewrite Hp.
    + unfold keychains. simpl. by rewrite Hd, Hs.
  - destruct (security_list (bn_env s) (bn_world s) (bn_machine s)) as (o & w & m & E & Ho & Hd & Hs). eexists. split.
    + unfold current_search_list, with_context. erewrite bind_ok; [|apply map_err_ok, output_by, E].
      unfold decode_output. rewrite Ho, utf8_text. unfold mbind, M_bind, lift. by rewrite keychains_read_back.
    + unfold keychains. simpl. by rewrite Hd, Hs.
Qed.

Lemma temp_dir_same root : keeps same_keychains (unique_temp_dir root).
Proof. by intros s. Qed.

(** Making the temporary keychain: its path, and that it remembers what was there, or has put it back. *)
Lemma created root settings s :
  Forall plain_keychain (kc_default (bn_machine s) :: kc_search (bn_machine s)) → kc_search (bn_machine s) ≠ [] →
  (∀ dir, display (dir ++ ["sagens-signing.keychain-db"]) ∉ kc_default (bn_machine s) :: kc_search (bn_machine s)) →
  match create_keychain root settings s with
  | (Ok k, _) => (∃ dir, tk_path k = dir ++ ["sagens-signing.keychain-db"]) ∧
                 tk_original_default_keychain k = Some (kc_default (bn_machine s)) ∧ tk_original_search_list k = kc_search (bn_machine s)
  | (Err _, s') => keychains s' = keychains s
  end.
Proof.
  intros Hall Hl Hfresh. unfold create_keychain.
  pose proof (temp_dir_same root s) as K1. unfold mbind at 1, M_bind at 1. destruct (unique_temp_dir root s) as [[dir|e] s1]; [|done].
  unfold same_keychains in K1. simpl in K1. unfold mbind at 1, M_bind at 1.
  pose proof (keeps_map_err same_keychains (in_context ("creating " ^+ display dir)) _ (same_disk (fs_create_dir_all dir)) s1) as K2.
  unfold with_context. destruct (map_err _ _ s1) as [[u|e] s2]; unfold same_keychains in K2; simpl in K2; [|congruence].
  cbv zeta. unfold mbind at 1, M_bind at 1, lift at 1. destruct (required _ _) as [password|e]; [|congruence].
  assert (Ks : keychains s2 = keychains s) by congruence. injection Ks as Kd Ks.
  destruct (originals_read s2) as [(s3 & E3 & K3) _]; [by rewrite Kd, Ks|].
  unfold mbind at 1, M_bind at 1, attempt at 1. rewrite E3. injection K3 as Kd3 Ks3.
  destruct (originals_read s3) as [_ (s4 & E4 & K4)]; [by rewrite Kd3, Ks3, Kd, Ks|].
  unfold mbind at 1, M_bind at 1, attempt at 1. rewrite E4. rewrite Ks3, Ks, Kd.
  unfold mbind at 1, M_bind at 1, attempt at 1. destruct (configure_keychain _ _ _ _ _ s4) as [[[app installer]|e] s5]; [simpl; eauto|].
  specialize (Hfresh dir). apply not_elem_of_cons in Hfresh as [Hf1 Hf2].
  destruct (remove_restores (dir ++ ["sagens-signing.keychain-db"]) dir (kc_default (bn_machine s)) (kc_search (bn_machine s)) s5)
    as (s6 & E & K); [done|congruence|done|]. by rewrite (bind_ok _ _ _ _ _ E).
Qed.

(** the user's keychains are given back: whatever is done with the temporary keychain of a signature, and wherever making it
    or using it fails, the default keychain and the search list are afterwards what they were before. *)
Theorem keychain_restored {A} root settings (use : TempKeychain → XM A) s :
  Forall plain_keychain (kc_default (bn_machine s) :: kc_search (bn_machine s)) → kc_search (bn_machine s) ≠ [] →
  (∀ dir, display (dir ++ ["sagens-signing.keychain-db"]) ∉ kc_default (bn_machine s) :: kc_search (bn_machine s)) →
  keychains (with_keychain root settings use s).2 = keychains s.
Proof.
  intros Hall Hl Hfresh. unfold with_keychain.
  assert (Hc : match create_keychain root settings s with
    | (Ok k, _) => (∃ dir, tk_path k = dir ++ ["sagens-signing.keychain-db"]) ∧
                   tk_original_default_keychain k = Some (kc_default (bn_machine s)) ∧ tk_original_search_list k = kc_search (bn_machine s)
    | (Err _, s') => keychains s' = keychains s
    end) by by apply created.
  unfold mbind at 1, M_bind at 1. destruct (create_keychain root settings s) as [[k|e] s1]; [|done].
  destruct Hc as ((dir & Hdir) & Hd & Hs). unfold mbind at 1, M_bind at 1, attempt at 1. destruct (use k s1) as [r s2].
  rewrite Hd, Hs, Hdir. specialize (Hfresh dir). apply not_elem_of_cons in Hfresh as [Hf1 Hf2].
  destruct (remove_restores (dir ++ ["sagens-signing.keychain-db"]) (tk_dir k) (kc_default (bn_machine s)) (kc_search (bn_machine s)) s2)
    as (s3 & E & K); [done|congruence|done|]. by rewrite (bind_ok _ _ _ _ _ E).
Qed.
End keychain.

(** ** Settings, environment and versions *)

Section settings.
Context `{!Platform, progs : !Programs}.

(** Settings a signature with a Developer ID can be made with. *)
Definition complete (d : DeveloperIdSettings) : Prop :=
  is_some (build_certificate_base64 d) ∧ is_some (keychain_password d) ∧ is_some (p12_password d) ∧
  (has_notary_credentials d = true ∨ apple_app_specific_password d = None ∧ apple_id d = None ∧ team_id d = None) ∧
  ∃ password, installer_password d = Ok password.

Lemma validate_complete d : validate_settings d = Ok () ↔ complete d.
Proof.
  unfold validate_settings, complete, require, has_notary_credentials, installer_password.
  destruct d as [a b c d e f g h]; cbn -[length decide].
  destruct d, f, g; cbn -[length decide]; try (split; [done|naive_solver]).
  rewrite orb_true_r. destruct a, b, c; cbn; (split; [intros Hv|intros Hc]); try discriminate Hv; try done;
    try (split_and!; [done|done|done|by (by left) || (by right)|destruct h; eauto]); naive_solver.
Qed.

Lemma reads_only {A} (f : Bench → A) (s : Bench) : (gets f : M Stop Bench A) s = (Ok (f s), s).
Proof. done. Qed.

(** releases are signed with the developer's certificate only where they may be: when the settings give Developer ID, every
    secret the signature needs is there, the notary's are all there or all missing, and signing was asked for by name or the
    sources are those of the main branch or of a tag. *)
Theorem signing_gated root s d s' :
  settings_from_env root s = (Ok (DeveloperId d), s') →
  complete d ∧ ((env_truthy FORCE_SIGN_ENV s).1 = Ok true ∨ release_signing_allowed root s = (Ok true, s')).
Proof.
  unfold settings_from_env. intros Hr. apply bind_ok_inv in Hr as (env & s1 & He & Hr).
  assert (s1 = s) as -> by (unfold read_settings, read_env in He; by injection He as _ <-).
  apply bind_ok_inv in Hr as (force & s2 & Hf & Hr).
  assert (s2 = s) as -> by (unfold env_truthy, read_env in Hf; by injection Hf as _ <-).
  apply bind_ok_inv in Hr as (empty & s3 & Hm & Hr).
  assert (s3 = s) as -> by (unfold settings_is_empty in Hm; by injection Hm as _ <-).
  destruct force.
  - apply bind_ok_inv in Hr as ([] & s4 & Hen & Hr).
    apply bind_ok_inv in Hr as ([] & s5 & [Hv _]%lift_ok_inv & Hr). apply ret_ok_inv in Hr as [[= <-] <-].
    split; [by apply validate_complete|left]. by rewrite Hf.
  - apply bind_ok_inv in Hr as (allowed & s4 & Ha & Hr). destruct allowed; [|by apply ret_ok_inv in Hr as [? _]].
    apply bind_ok_inv in Hr as ([] & s5 & [Hv <-]%lift_ok_inv & Hr). apply ret_ok_inv in Hr as [[= <-] <-].
    split; [by apply validate_complete|right]. by destruct empty.
Qed.

Definition env_grows (s s' : Bench) : Prop := bn_env s ⊆ bn_env s'.
#[local] Instance env_grows_preorder : PreOrder env_grows.
Proof. split; [by intros s; unfold env_grows|intros a b c; unfold env_grows; by etrans]. Qed.

Lemma load_line_grows index line : keeps env_grows (load_env_line index line).
Proof.
  unfold load_env_line. cbv zeta. destruct (_ || _); [by intros s|]. destruct (split_once _ _) as [[key value]|]; [|by intros s].
  case_decide; [by intros s|]. intros s. unfold mbind, M_bind, gets, env_grows. destruct (bn_env s !! trim key) eqn:E; [done|].
  simpl. by apply insert_subseteq.
Qed.
Lemma load_lines_grow index lines : keeps env_grows (load_env_lines index lines).
Proof.
  revert index. induction lines as [|line lines IH]; intros index; cbn [load_env_lines]; [by intros s|].
  apply keeps_bind; [typeclasses eauto|apply load_line_grows|]. by intros _.
Qed.

(** the file [.env] gives defaults: whatever is in it, and wherever reading it stops, no variable of the environment is
    changed or removed. *)
Theorem env_file_never_overrides root s name value :
  bn_env s !! name = Some value → bn_env (load_repo_env root s).2 !! name = Some value.
Proof.
  intros Hv. enough (keeps env_grows (load_repo_env root)) as Hk by (by eapply lookup_weaken, (Hk s)).
  assert (Hdisk : ∀ A (m : M IoError World A), keeps env_grows (on_disk m)).
  { intros A m s0. unfold on_disk, zoom, env_grows. by destruct (map_err _ _ _). }
  unfold load_repo_env, is_file_path. cbv zeta. apply keeps_bind; [typeclasses eauto| |intros present].
  - apply keeps_bind; [typeclasses eauto|by apply keeps_attempt|by intros r s0].
  - destruct present; [|by intros s0]. apply keeps_bind; [typeclasses eauto| |intros contents; apply load_lines_grow].
    apply keeps_map_err, keeps_bind; [typeclasses eauto|done|by intros data s0].
Qed.

(** [KEY=VALUE] as it is written. *)
Definition env_entry (kv : string * string) : string := kv.1 ^+ String "=" kv.2.
Definition plain_entry (kv : string * string) : Prop :=
  kv.1 ≠ "" ∧ all_chars is_ascii_alphanumeric kv.1 = true ∧
  all_chars graphic kv.2 = true ∧ unquoted double_quote kv.2 = None ∧ unquoted single_quote kv.2 = None.

Lemma load_entry index kv (s : Bench) : plain_entry kv → bn_env s !! kv.1 = None →
  load_env_line index (env_entry kv) s = set_var kv.1 kv.2 s.
Proof.
  destruct kv as [key value]. unfold env_entry, plain_entry. cbn [fst snd]. intros (Hk & Hkc & Hvc & Hd & Hs) Hn. unfold load_env_line.
  assert (Hkg : all_chars graphic key = true).
  { eapply all_chars_impl; [|exact Hkc]. intros a. destruct a as [[][][][][][][][]]; by vm_compute. }
  assert (Ht : trim (key ^+ String "=" value) = key ^+ String "=" value) by (apply trim_graphic; rewrite all_chars_app, Hkg; exact Hvc).
  rewrite Ht. assert (He : bool_decide (key ^+ String "=" value = "") = false) by (apply bool_decide_false; by destruct key).
  assert (Hh : starts_with "#" (key ^+ String "=" value) = false).
  { destruct key as [|a key']; [done|]. simpl in Hkc. apply andb_true_iff in Hkc as [Ha _]. unfold starts_with. change (String a key' ^+ ?x) with (String a (key' ^+ x)). cbn [strip_prefix].
    destruct (Ascii.eqb_spec "#" a) as [<-|]; [by vm_compute in Ha|done]. }
  rewrite He, Hh. cbn [orb].
  assert (Hx : strip_prefix "export " (key ^+ String "=" value) = None).
  { destruct (strip_prefix _ _) as [t|] eqn:E; [|done]. apply strip_prefix_Some in E. exfalso.
    assert (Hc : all_chars graphic (key ^+ String "=" value) = true) by (rewrite all_chars_app, Hkg; exact Hvc).
    rewrite E in Hc. by vm_compute in Hc. }
  rewrite Hx. cbn [default]. cbv zeta. rewrite split_once_app.
  2:{ eapply all_chars_impl; [|exact Hkc]. intros a Ha. destruct (Ascii.eqb_spec a "=") as [->|]; [by vm_compute in Ha|done]. }
  rewrite trim_graphic by done. rewrite decide_False by done. unfold mbind, M_bind, gets. rewrite Hn. simpl.
  unfold parse_env_value. rewrite (trim_graphic value) by done. by rewrite Hd, Hs.
Qed.

(** and what is in it arrives: a file of [KEY=VALUE] lines whose keys are not set yet sets each of them to its value. *)
Theorem env_file_loads index entries (s : Bench) :
  Forall plain_entry entries → NoDup (map fst entries) → (∀ kv, kv ∈ entries → bn_env s !! kv.1 = None) →
  load_env_lines index (map env_entry entries) s =
    (Ok (), mkBench (bn_world s) (bn_machine s) (list_to_map entries ∪ bn_env s) (bn_printed s)).
Proof.
  revert index s. induction entries as [|[key value] entries IH]; intros index s Hp Hnd Hn; cbn [map load_env_lines].
  { rewrite list_to_map_nil, (left_id_L ∅ (∪)). by destruct s. }
  apply Forall_cons in Hp as [Hp1 Hp]. simpl in Hnd. apply NoDup_cons in Hnd as [Hk Hnd].
  erewrite bind_ok; [|rewrite load_entry by (done || apply (Hn (key, value)); left); reflexivity].
  rewrite IH; [|done|done|].
  - assert (Hfree : list_to_map entries !! key = (None : option string)) by (by apply not_elem_of_list_to_map_1).
    cbn [fst snd set_var modify bn_env bn_world bn_machine bn_printed]. rewrite list_to_map_cons. by rewrite <-insert_union_l, insert_union_r.
  - intros kv Hin. simpl. rewrite lookup_insert_ne; [apply Hn; by right|]. intros ->. apply Hk. by apply list_elem_of_fmap_2.
Qed.
End settings.

(** the version of an installer package is one that [pkgbuild] takes, from whatever version a release has: numbers with dots
    between them. *)
Theorem pkg_version_numeric version :
  ∃ parts, parts ≠ [] ∧ Forall (λ p, p ≠ "" ∧ all_chars is_ascii_digit p = true) parts ∧
    installer_pkg_version version = String.concat "." parts.
Proof.
  unfold installer_pkg_version. set (runs := List.filter nonempty (digit_runs _)).
  assert (Hruns : ∀ s, Forall (λ p, all_chars is_ascii_digit p = true) (digit_runs s)).
  { induction s as [|a s IH]; cbn [digit_runs]; [by repeat constructor|]. destruct (is_ascii_digit a) eqn:Ea; [|by constructor].
    destruct (digit_runs s) as [|w ws]; [constructor; [simpl; by rewrite Ea|done]|]. apply Forall_cons in IH as [Hw Hws].
    constructor; [simpl; by rewrite Ea|done]. }
  assert (Hall : Forall (λ p, p ≠ "" ∧ all_chars is_ascii_digit p = true) runs).
  { apply Forall_forall. intros p Hin. subst runs. apply list_elem_of_In, filter_In in Hin as [Hin Hn].
    split; [intros ->; by vm_compute in Hn|]. eapply Forall_forall in Hruns; [exact Hruns|by apply list_elem_of_In]. }
  destruct runs as [|x xs] eqn:E; [|by exists (x :: xs)]. exists ["0"]. split; [done|]. by split; [repeat constructor|].
Qed.
