(* ===== verification/Release.v ===== *)
(** * Release: [src/bin/xtask.rs] and [src/bin/xtask/], the tool that builds releases

    Which programs are run with which arguments, what is copied where, when the
    guest of a build is made again, and the files of a release, in the form the
    self-update of [Update] reads.  The signing is [Signing]. *)

From S2P Require Import Prelude RustStd Text Paths FileSystem PrivateFs FsTree Manifest GuestFs Config HostConfig Images Update Packages ImageFetch StageFs Ext4Image Signing.

(** An ELF file as the [object] crate reads it. *)
Record ElfSymbol := mkSymbol { sy_name : option string; sy_section : option nat; sy_address : Z; sy_size : Z }.
Record ElfSection := mkSection { sn_name : option string; sn_address : Z; sn_data : Result string bytes }.
Record Elf := mkElf {
  elf_dynamic_symbols : list ElfSymbol;
  elf_symbols : list ElfSymbol;
  elf_section : nat → Result string ElfSection;
}.

(** The checkout the tool was built from, its links, and the crates it uses. *)
Class Checkout `{Programs} := {
  manifest_dir : path;                                (** [CARGO_MANIFEST_DIR] *)
  links : Machine → staging;
  tempdir : M IoError World path;                     (** [tempfile::tempdir] *)
  parse_elf : bytes → Result string Elf;              (** [object::File::parse] *)
}.

Module Xtask.

(** ** [types.rs] *)

Definition EMBED_MANIFEST : list string := [".sagens-state"; "embed-manifest.json"].
Definition GUEST_AGENT_MANIFEST : list string := ["crates"; "sagens-guest-agent"; "Cargo.toml"].

Inductive Profile := Debug | Release.
Definition parse_profile (value : string) : Result Stop Profile :=
  if String.eqb value "debug" then Ok Debug
  else if String.eqb value "release" then Ok Release
  else Err (Fail ("unsupported profile: " ^+ value)).
Definition profile_str (p : Profile) : string := match p with Debug => "debug" | Release => "release" end.
Definition cargo_flag (p : Profile) : list string := match p with Debug => [] | Release => ["--release"] end.

Inductive PlatformOs := Macos | Linux.
Inductive PlatformArch := Aarch64 | X86_64.
Record BuildPlatform := mkPlatform { pl_os : PlatformOs; pl_arch : PlatformArch }.

Definition platform_from (os arch : string) : Result Stop BuildPlatform :=
  os' ← (if String.eqb os "macos" then Ok Macos
         else if String.eqb os "linux" then Ok Linux
         else Err (Fail ("unsupported host operating system: " ^+ os)));
  match os' with
  | Macos => if String.eqb arch "x86_64"
             then Err (Fail "macOS x86_64 host builds are not supported by the libkrun-only backend") else Ok ()
  | Linux => Ok ()
  end;;
  arch' ← (if String.eqb arch "aarch64" then Ok Aarch64
           else if String.eqb arch "x86_64" then Ok X86_64
           else Err (Fail ("unsupported host architecture: " ^+ arch)));
  Ok (mkPlatform os' arch').
Definition platform_str (p : BuildPlatform) : string :=
  match pl_os p, pl_arch p with
  | Macos, Aarch64 => "macos-aarch64"
  | Macos, X86_64 => "macos-x86_64"
  | Linux, Aarch64 => "linux-aarch64"
  | Linux, X86_64 => "linux-x86_64"
  end.
Definition guest_arch (p : BuildPlatform) : string := match pl_arch p with Aarch64 => "aarch64" | X86_64 => "x86_64" end.
Definition guest_target (p : BuildPlatform) : string :=
  match pl_arch p with Aarch64 => "aarch64-unknown-linux-musl" | X86_64 => "x86_64-unknown-linux-musl" end.

Record ResolvedArtifacts := mkArtifacts { ra_kernel : path; ra_rootfs : path; ra_firmware : option path }.

Section tool.
Context `{!Platform, !HostEnv, !UpdateHost, progs : !Programs, checkout : !Checkout,
          !Serde SubmitResponse, !Serde SubmissionInfo, !Serde ResolvedArtifacts}.
Local Abbreviation XM := (M Stop Bench).

Definition platform_current : Result Stop BuildPlatform := platform_from build_os build_arch.

Definition repo_root : Result Stop path :=
  match manifest_dir with
  | [] => Err (Fail "xtask manifest directory has no workspace root parent")
  | dir => Ok (parent dir)
  end.

(** [EmbedManifestGuard::write], and its [Drop]. *)
Definition write_embed_manifest (p : path) (artifacts : ResolvedArtifacts) : XM () :=
  with_context ("creating " ^+ display (parent p)) (on_disk (fs_create_dir_all (parent p)));;
  data ← lift (match to_vec artifacts with Ok b => Ok b | Err e => Err (Fail ("encoding embed manifest: " ^+ e)) end);
  with_context ("writing " ^+ display p) (on_disk (fs_write p data)).
Definition drop_embed_manifest (p : path) : XM () := attempt (F := Stop) (on_disk (fs_remove_file p));; mret ().

(** ** [cargo_ops.rs] *)

Definition run (c : Command) (description : string) : XM () :=
  o ← with_context (description ^+ ": " ^+ command_debug c) (output c);
  ensure (ou_success o) (description ^+ " failed with status " ^+ ou_status o).

Definition cargo_build (root : path) (profile : Profile) (bins : list string) : XM () :=
  run (mkCommand "cargo" (["build"] ++ cargo_flag profile ++ flat_map (λ bin, ["--bin"; bin]) bins) [] (Some root)) "running cargo build".

Definition cargo_test (root : path) (profile : Profile) (e2e_binary : option (string * path)) (trailing_args : list string) : XM () :=
  let '(args, env) := match e2e_binary with
    | Some (test_name, binary) =>
        (["--test"; test_name], [("SAGENS_RUN_E2E", "1"); ("SAGENS_HOST_BINARY", display binary)])
    | None => ([], [])
    end in
  run (mkCommand "cargo" (["test"] ++ cargo_flag profile ++ args ++ trailing_args) env (Some root)) "running cargo test".

Definition run_shell_e2e (root : path) (script_rel : string) (binary : path) : XM () :=
  let script := join_path root script_rel in
  present ← is_file_path script;
  ensure present ("missing shell e2e script: " ^+ display script);;
  run (mkCommand "bash" [display script; display binary] [] (Some root)) "running shell e2e".

(** The loop of reads is that of [hash_file] in [update.rs], with a context of its own. *)
Definition hashing (p : path) (e : SandboxError) : Stop :=
  Fail ("hashing " ^+ display p ^+ ": " ^+ match e with Io _ source => io_text source | _ => error_to_string e end).
Definition sha256_file (p : path) : XM string :=
  file ← with_context ("opening " ^+ display p) (on_disk (fs_metadata p));
  digest ← zoom bn_world (λ w s, mkBench w (bn_machine s) (bn_env s) (bn_printed s))
             (map_err (hashing p) (hash_loop (length (node_bytes file)) file (node_bytes file) 0 []));
  mret (hex_encode digest).

Definition sha256_line (digest file_name : string) : string := digest ^+ "  " ^+ file_name ^+ String line_feed "".
Definition write_sha256 (p : path) (digest file_name : string) : XM () :=
  with_context ("writing " ^+ display p) (on_disk (fs_write p (as_bytes (sha256_line digest file_name)))).

Definition file_name_of (p : path) (missing : string) : XM string := lift (ok_or (Fail missing) (last p)).

Definition remove_old (p : path) : XM () :=
  present ← exists_path p;
  if present : bool then with_context ("removing " ^+ display p) (on_disk (fs_remove_file p)) else mret ().

(** A file of the release with its checksum beside it. *)
Definition publish (out_dir : path) (missing : string) (artifact : option path) : XM () :=
  match artifact with
  | None => mret ()
  | Some p =>
      name ← file_name_of p missing;
      digest ← sha256_file p;
      write_sha256 (join_path out_dir (name ^+ ".sha256")) digest name
  end.

Definition package_name (version artifact_platform : string) : string := "sagens-" ^+ version ^+ "-" ^+ artifact_platform.

Definition create_package (out_dir : path) (artifact_platform version : string) (binary : path) : XM () :=
  let package_name := package_name version artifact_platform in
  let packaged_binary := join_path out_dir package_name in
  let sha256_path := join_path out_dir (package_name ^+ ".sha256") in
  remove_old packaged_binary;;
  remove_old sha256_path;;
  with_context ("copying " ^+ display binary ^+ " to " ^+ display packaged_binary) (on_disk (fs_copy binary packaged_binary));;
  root ← lift repo_root;
  sign_binary root packaged_binary;;
  digest ← sha256_file packaged_binary;
  binary_name ← file_name_of packaged_binary "packaged binary has no file name";
  write_sha256 sha256_path digest binary_name;;
  pkg ← build_macos_pkg root package_name version packaged_binary out_dir;
  publish out_dir "installer package has no file name" pkg;;
  archive ← notarize_release_archive root package_name packaged_binary out_dir;
  publish out_dir "notarization archive has no file name" archive;;
  println ("created " ^+ display packaged_binary).

(** ** [runtime/submodules.rs] *)

Definition maybe_init_submodules (root : path) : XM () :=
  git ← exists_path (root ++ [".git"]);
  if negb git then mret ()
  else
    with_context "initializing upstream submodules"
      (output (tool_command "git"
        ["-C"; display root; "submodule"; "update"; "--init"; "--recursive"; "third_party/upstream/libkrun"]));;
    mret ().

Definition ensure_upstream_checkout (root : path) (rel probe : string) : XM path :=
  let checkout := join_path root rel in
  present ← is_file_path (join_path checkout probe);
  if present : bool then mret checkout
  else
    maybe_init_submodules root;;
    present ← is_file_path (join_path checkout probe);
    ensure present ("missing " ^+ rel ^+ " checkout; run `git submodule update --init --recursive " ^+ rel ^+ "`");;
    mret checkout.

(** ** [runtime.rs] *)

Definition guest_output_dir (root : path) (platform : BuildPlatform) : XM path :=
  dir ← read_env "SAGENS_GUEST_OUTPUT_DIR";
  mret (match dir with
        | Some dir => absolutize root dir
        | None => root ++ ["artifacts"; "alpine-" ^+ guest_arch platform]
        end).
Definition guest_work_dir (root : path) : XM path :=
  dir ← read_env "SAGENS_GUEST_WORK_DIR";
  mret (match dir with Some dir => absolutize root dir | None => root ++ [".box-artifacts"] end).
Definition guest_kernel_path (root : path) (platform : BuildPlatform) : XM path :=
  dir ← guest_output_dir root platform; mret (dir ++ ["vmlinuz-virt"]).
Definition guest_rootfs_path (root : path) (platform : BuildPlatform) : XM path :=
  dir ← guest_output_dir root platform; mret (dir ++ ["rootfs.raw"]).
Definition guest_agent_binary (root : path) (platform : BuildPlatform) (profile : Profile) : XM path :=
  target ← target_root root;
  mret (target ++ ["guest-agent"; guest_target platform; profile_str profile; "sagens-guest-agent"]).

Definition ensure_rust_target (target : string) : XM () :=
  o ← with_context ("ensuring rust target " ^+ target) (output (tool_command "rustup" ["target"; "add"; target]));
  ensure (ou_success o) ("rustup target add " ^+ target ^+ " failed with status " ^+ ou_status o).

Definition guest_linker (target : string) : list (string * string) :=
  if String.eqb target "aarch64-unknown-linux-musl" then [("CARGO_TARGET_AARCH64_UNKNOWN_LINUX_MUSL_LINKER", "rust-lld")]
  else if String.eqb target "x86_64-unknown-linux-musl" then [("CARGO_TARGET_X86_64_UNKNOWN_LINUX_MUSL_LINKER", "rust-lld")]
  else [].

Definition build_guest_agent (root : path) (platform : BuildPlatform) (profile : Profile) : XM () :=
  ensure_rust_target (guest_target platform);;
  target ← target_root root;
  run (mkCommand "cargo"
    (["build"; "--manifest-path"; display (root ++ GUEST_AGENT_MANIFEST); "--target"; guest_target platform;
      "--target-dir"; display (target ++ ["guest-agent"])] ++ cargo_flag profile)
    (guest_linker (guest_target platform)) (Some root)) "building guest agent binary".

(** ** [runtime/libkrunfw_kernel.rs] *)

Definition PREBUILT_VERSION : string := "v5.2.0".
Definition PREBUILT_AARCH64_ARCHIVE : string := "libkrunfw-aarch64.tgz".
Definition PREBUILT_AARCH64_URL : string :=
  "https://github.com/containers/libkrunfw/releases/download/v5.2.0/libkrunfw-aarch64.tgz".
Definition AARCH64_LIBRARY_PATH : string := "lib64/libkrunfw.so.5.2.0".
Definition KERNEL_BUNDLE_SYMBOL : string := "KERNEL_BUNDLE".
Definition KERNEL_OUTPUT : string := "vmlinuz-virt".

Definition download_prebuilt_archive (p : path) (archive_name archive_url : string) : XM () :=
  (match p with [] => throw (Fail "archive path has no parent directory") | _ => mret () end);;
  with_context ("creating " ^+ display (parent p)) (on_disk (fs_create_dir_all (parent p)));;
  run (tool_command "curl" ["-L"; "--fail"; "-o"; display p; archive_url])
    ("downloading libkrunfw prebuilt kernel bundle " ^+ archive_name ^+ " (" ^+ PREBUILT_VERSION ^+ ")").

Definition cached_prebuilt_archive (work_dir : path) (cache_key archive_name archive_url : string) : XM path :=
  let cache_dir := join_path work_dir cache_key in
  with_context ("creating " ^+ display cache_dir) (on_disk (fs_create_dir_all cache_dir));;
  let archive_path := join_path cache_dir archive_name in
  present ← is_file_path archive_path;
  (if present : bool then mret () else download_prebuilt_archive archive_path archive_name archive_url);;
  mret archive_path.

Definition extract_archive_member (archive_path : path) (member : string) (output_dir : path) : XM () :=
  run (tool_command "tar" ["-xzf"; display archive_path; "-C"; display output_dir; member])
    ("extracting " ^+ member ^+ " from " ^+ display archive_path).

Definition U64_MAX : Z := 18446744073709551615.

(** [usize] has 64 bits. *)
Definition kernel_bundle (elf : Elf) : Result Stop bytes :=
  symbol ← ok_or (Fail "locating KERNEL_BUNDLE symbol")
             (snd <$> list_find (λ s, sy_name s = Some KERNEL_BUNDLE_SYMBOL) (elf_dynamic_symbols elf ++ elf_symbols elf));
  section_index ← ok_or (Fail "KERNEL_BUNDLE is not backed by an ELF section") (sy_section symbol);
  section ← (match elf_section elf section_index with
             | Ok s => Ok s | Err e => Err (Fail ("reading ELF section for KERNEL_BUNDLE: " ^+ e)) end);
  let section_name := default "<unnamed>" (sn_name section) in
  section_data ← (match sn_data section with
                  | Ok d => Ok d | Err e => Err (Fail ("reading " ^+ section_name ^+ " section bytes: " ^+ e)) end);
  start ← (if (sy_address symbol <? sn_address section)%Z then Err (Fail "KERNEL_BUNDLE starts before its section base")
           else Ok (sy_address symbol - sn_address section)%Z);
  let size := sy_size symbol in
  if (size <=? 0)%Z then Err (Fail "KERNEL_BUNDLE symbol is empty")
  else if (U64_MAX <? start + size)%Z then Err (Fail "KERNEL_BUNDLE range overflowed section bounds")
  else if (Z.of_nat (length section_data) <? start + size)%Z then
    Err (Fail ("KERNEL_BUNDLE range " ^+ pretty start ^+ ".." ^+ pretty (start + size)%Z ^+ " exceeds " ^+ section_name ^+
               " section size " ^+ pretty (length section_data)))
  else
    let kernel := take (Z.to_nat size) (drop (Z.to_nat start) section_data) in
    let kernel := if decide (last kernel = Some Byte.x00) then removelast kernel else kernel in
    if decide (kernel = []) then Err (Fail "decoded KERNEL_BUNDLE is empty") else Ok kernel.

Definition parse_kernel_bundle_elf (p : path) : XM bytes :=
  data ← with_context ("reading " ^+ display p) (on_disk (fs_read p));
  elf ← lift (match parse_elf data with Ok e => Ok e | Err e => Err (Fail ("parsing ELF image " ^+ display p ^+ ": " ^+ e)) end);
  lift (kernel_bundle elf).

(** The temporary directory is removed at the end, with whatever result. *)
Definition with_tempdir {A} (context : string) (m : path → XM A) : XM A :=
  dir ← with_context context (on_disk tempdir);
  r ← attempt (m dir);
  attempt (F := Stop) (on_disk (fs_remove_dir_all dir));;
  lift r.

Definition materialize_prebuilt_guest_kernel (work_dir : path) (cache_key archive_name archive_url library_path : string) (output_dir : path) : XM () :=
  archive_path ← cached_prebuilt_archive work_dir cache_key archive_name archive_url;
  with_tempdir "creating libkrunfw extraction directory" (λ extract_dir,
    extract_archive_member archive_path library_path extract_dir;;
    kernel ← parse_kernel_bundle_elf (join_path extract_dir library_path);
    with_context ("creating " ^+ display output_dir) (on_disk (fs_create_dir_all output_dir));;
    let p := output_dir ++ [KERNEL_OUTPUT] in
    with_context ("writing " ^+ display p) (on_disk (fs_write p kernel))).

Definition materialize_aarch64_guest_kernel (work_dir output_dir : path) : XM () :=
  materialize_prebuilt_guest_kernel work_dir "libkrunfw-aarch64" PREBUILT_AARCH64_ARCHIVE PREBUILT_AARCH64_URL
    AARCH64_LIBRARY_PATH output_dir.

Definition materialize_platform_kernel (platform : BuildPlatform) (work_dir output_dir : path) : XM () :=
  match pl_os platform, pl_arch platform with
  | Macos, Aarch64 => materialize_aarch64_guest_kernel work_dir output_dir
  | _, _ => mret ()
  end.

Definition build_guest_artifacts (root : path) (platform : BuildPlatform) (profile : Profile) : XM () :=
  build_guest_agent root platform profile;;
  cargo_build root profile ["build-alpine-guest"];;
  target ← target_root root;
  let builder := target ++ [profile_str profile; "build-alpine-guest"] in
  guest ← guest_agent_binary root platform profile;
  output_dir ← guest_output_dir root platform;
  work_dir ← guest_work_dir root;
  run (tool_command (display builder)
    ["--arch"; guest_arch platform; "--work-dir"; display work_dir; "--guest-agent"; display guest; "--output-dir"; display output_dir])
    "building Alpine guest artifacts";;
  materialize_platform_kernel platform work_dir output_dir.

Definition resolve_firmware (root : path) (platform : BuildPlatform) : XM (option path) :=
  match pl_os platform with
  | Linux => mret None
  | Macos =>
      libkrun_root ← ensure_upstream_checkout root "third_party/upstream/libkrun" "Makefile";
      let firmware := libkrun_root ++ ["edk2"; "KRUN_EFI.silent.fd"] in
      present ← is_file_path firmware;
      ensure present ("missing libkrun firmware: " ^+ display firmware);;
      mret (Some firmware)
  end.

Definition resolve_artifacts (root : path) (platform : BuildPlatform) : XM ResolvedArtifacts :=
  kernel ← guest_kernel_path root platform;
  rootfs ← guest_rootfs_path root platform;
  k ← is_file_path kernel;
  ensure k ("missing guest kernel: " ^+ display kernel);;
  r ← is_file_path rootfs;
  ensure r ("missing guest rootfs: " ^+ display rootfs);;
  firmware ← resolve_firmware root platform;
  mret (mkArtifacts kernel rootfs firmware).

(** ** [runtime/guest_fingerprint.rs] *)

Definition GUEST_ARTIFACT_FINGERPRINT_FILE : string := ".build-fingerprint".
Definition ARM64_IMAGE_MAGIC_OFFSET : nat := 56.
Definition ARM64_IMAGE_MAGIC_END : nat := ARM64_IMAGE_MAGIC_OFFSET + 4.

Definition guest_artifact_fingerprint_inputs : list (list string) :=
  [["Cargo.lock"]; ["src"; "bin"; "build-alpine-guest.rs"]; ["src"; "bin"; "build_alpine_guest"]; ["src"; "bin"; "xtask"; "runtime"];
   ["crates"; "sagens-guest-agent"]; ["crates"; "sagens-guest-contract"]; ["guest-agent"]; ["shared"]].

(** The disk with its links, to read from. *)
Definition tree_of (s : Bench) : Build := mkBuild (mkFetch (bn_world s) []) [] (links (bn_machine s)).
Definition on_tree {A} (m : M IoError Build A) : XM A := λ s,
  let '(r, b) := m (tree_of s) in
  (match r with Ok a => Ok a | Err e => Err (Fail (io_text e)) end,
   mkBench (fe_world (bd_fetch b)) (bn_machine s) (bn_env s) (bn_printed s)).

Definition relative_text (root p : path) : string := String.concat "/" (drop (length root) p).

(** What the hasher is given, in order.  Every level has a directory of its own,
    so the number of nodes is turns enough. *)
Fixpoint hash_path_recursively (turns : nat) (root p : path) : XM bytes :=
  match turns with
  | O => throw OutOfTurns
  | S turns' =>
      metadata ← with_context ("reading " ^+ display p) (on_tree (s_metadata false p));
      let name := as_bytes (relative_text root p) in
      match metadata with
      | SDir _ =>
          children ← with_context ("reading " ^+ display p) (on_tree (s_read_dir p));
          with_context ("iterating " ^+ display p) (on_tree s_next_entry);;
          parts ← map_each (λ child, hash_path_recursively turns' root (p ++ [child])) (sort_by_key id string_le children);
          mret (name ++ as_bytes "D" ++ concat parts)
      | SLink _ =>
          target ← with_context ("reading symlink " ^+ display p) (on_tree (s_read_link p));
          mret (name ++ as_bytes "L" ++ as_bytes target)
      | SFile _ _ =>
          file ← with_context ("reading " ^+ display p) (on_tree (s_open p));
          data ← with_context ("reading " ^+ display p) (on_tree (s_read_all file));
          mret (name ++ as_bytes "F" ++ data)
      | SOther _ => throw (Fail ("unsupported fingerprint path type: " ^+ display p))
      end
  end.

Definition current_guest_artifact_fingerprint (root : path) (platform : BuildPlatform) : XM string :=
  turns ← gets (λ s, stage_bound (tree_of s));
  parts ← map_each (λ relative, hash_path_recursively turns root (root ++ relative)) guest_artifact_fingerprint_inputs;
  mret (hex_encode (sha256 (as_bytes (platform_str platform) ++ concat parts))).

Definition guest_artifact_fingerprint_path (root : path) (platform : BuildPlatform) : XM path :=
  dir ← guest_output_dir root platform; mret (dir ++ [GUEST_ARTIFACT_FINGERPRINT_FILE]).

(** The four bytes at an offset, if they are there. *)
Definition bytes_at (offset stop : nat) (b : bytes) : option bytes :=
  if decide (stop ≤ length b) then Some (take (stop - offset) (drop offset b)) else None.

Definition guest_kernel_compatible (platform : BuildPlatform) (kernel : path) : XM bool :=
  match pl_os platform, pl_arch platform with
  | Macos, Aarch64 =>
      data ← with_context ("reading " ^+ display kernel) (on_disk (fs_read kernel));
      mret (bool_decide (bytes_at ARM64_IMAGE_MAGIC_OFFSET ARM64_IMAGE_MAGIC_END data = Some (as_bytes "ARMd")))
  | _, _ => mret true
  end.

Definition guest_artifacts_stale (root : path) (platform : BuildPlatform) : XM bool :=
  kernel ← guest_kernel_path root platform;
  rootfs ← guest_rootfs_path root platform;
  fingerprint_path ← guest_artifact_fingerprint_path root platform;
  k ← is_file_path kernel;
  if negb k then mret true else
  r ← is_file_path rootfs;
  if negb r then mret true else
  f ← is_file_path fingerprint_path;
  if negb f then mret true else
  compatible ← guest_kernel_compatible platform kernel;
  if negb compatible then mret true
  else
    current ← current_guest_artifact_fingerprint root platform;
    cached ← with_context ("reading " ^+ display fingerprint_path)
      (data ← on_disk (fs_read fingerprint_path);
       lift (match utf8_decode data with Ok s => Ok s | Err _ => Err (Fail "stream did not contain valid UTF-8") end));
    mret (negb (bool_decide (trim cached = current))).

Definition write_guest_artifact_fingerprint (root : path) (platform : BuildPlatform) : XM () :=
  output_dir ← guest_output_dir root platform;
  with_context ("creating " ^+ display output_dir) (on_disk (fs_create_dir_all output_dir));;
  fingerprint_path ← guest_artifact_fingerprint_path root platform;
  fingerprint ← current_guest_artifact_fingerprint root platform;
  with_context ("writing " ^+ display fingerprint_path)
    (on_disk (fs_write fingerprint_path (as_bytes (fingerprint ^+ String line_feed "")))).

(** ** [host.rs] *)

Definition prepare_embedded_assets (root : path) (platform : BuildPlatform) (profile : Profile) (refresh_guest skip_guest_refresh : bool) : XM path :=
  build ← (if skip_guest_refresh then mret false else if refresh_guest then mret true else guest_artifacts_stale root platform);
  (if build : bool then build_guest_artifacts root platform profile;; write_guest_artifact_fingerprint root platform else mret ());;
  artifacts ← resolve_artifacts root platform;
  let manifest_path := root ++ EMBED_MANIFEST in
  write_embed_manifest manifest_path artifacts;;
  mret manifest_path.

Definition cargo_build_host (root : path) (profile : Profile) : XM () :=
  run (mkCommand "cargo" (["build"] ++ cargo_flag profile ++ ["--bin"; "sagens"]) [] (Some root)) "building sagens host binary".

(** The manifest is removed at the end, with whatever result. *)
Definition build_native_binary (root : path) (platform : BuildPlatform) (profile : Profile) (refresh_guest skip_guest_refresh : bool) : XM path :=
  manifest ← prepare_embedded_assets root platform profile refresh_guest skip_guest_refresh;
  r ← attempt (cargo_build_host root profile;;
    target ← target_root root;
    let binary := target ++ [profile_str profile; "sagens"] in
    sign_binary root binary;;
    mret binary);
  drop_embed_manifest manifest;;
  lift r.

Record BuiltHostBinary := mkBuilt { bh_artifact_platform : string; bh_path : path }.
Definition build_distribution_binary (root : path) (profile : Profile) (refresh_guest skip_guest_refresh : bool) : XM BuiltHostBinary :=
  maybe_init_submodules root;;
  current ← lift platform_current;
  p ← build_native_binary root current profile refresh_guest skip_guest_refresh;
  mret (mkBuilt (platform_str current) p).

(** ** [app.rs] *)

Record SignPathArgs := mkSignPath { sg_path : option string; sg_host : bool }.
Record DevArgs := mkDev {
  dv_profile : Profile; dv_run_tests : bool; dv_run_e2e : bool; dv_refresh_guest : bool; dv_skip_guest_refresh : bool;
  dv_python_package_root : option string }.
Record PackageArgs := mkPackage {
  pk_profile : Profile; pk_version : string; pk_out_dir : string; pk_skip_guest_refresh : bool;
  pk_python_package_root : option string }.

Definition missing_value (flag : string) : Stop := Fail ("missing value for " ^+ flag).
Definition is_help (flag : string) : bool := String.eqb flag "-h" || String.eqb flag "--help".

Fixpoint parse_sign_path (args : list string) (a : SignPathArgs) : Result Stop SignPathArgs :=
  match args with
  | [] => match sg_path a with Some _ => Ok a | None => Err (Fail "missing --path") end
  | flag :: rest =>
      if String.eqb flag "--path" then
        match rest with [] => Err (missing_value flag) | v :: rest' => parse_sign_path rest' (mkSignPath (Some v) (sg_host a)) end
      else if String.eqb flag "--host" then parse_sign_path rest (mkSignPath (sg_path a) true)
      else if is_help flag then Err (Exit "usage: cargo run --bin xtask -- sign-path --path FILE [--host]")
      else Err (Fail ("unknown sign-path flag: " ^+ flag))
  end.

Fixpoint parse_dev (args : list string) (a : DevArgs) : Result Stop DevArgs :=
  match args with
  | [] => Ok a
  | flag :: rest =>
      let '(mkDev profile tests e2e refresh skip python) := a in
      if String.eqb flag "--release" then parse_dev rest (mkDev Release tests e2e refresh skip python)
      else if String.eqb flag "--test" then parse_dev rest (mkDev profile true e2e refresh skip python)
      else if String.eqb flag "--e2e" then parse_dev rest (mkDev profile tests true refresh skip python)
      else if String.eqb flag "--refresh-guest" then parse_dev rest (mkDev profile tests e2e true skip python)
      else if String.eqb flag "--skip-guest-refresh" then parse_dev rest (mkDev profile tests e2e refresh true python)
      else if String.eqb flag "--python-package-root" then
        match rest with [] => Err (missing_value flag) | v :: rest' => parse_dev rest' (mkDev profile tests e2e refresh skip (Some v)) end
      else if is_help flag then
        Err (Exit "usage: cargo run --bin xtask -- dev [--release] [--test] [--e2e] [--refresh-guest] [--skip-guest-refresh] [--python-package-root DIR]")
      else Err (Fail ("unknown dev flag: " ^+ flag))
  end.

Fixpoint parse_package (args : list string) (a : PackageArgs) : Result Stop PackageArgs :=
  match args with
  | [] => Ok a
  | flag :: rest =>
      let '(mkPackage profile version out_dir skip python) := a in
      if String.eqb flag "--profile" then
        match rest with
        | [] => Err (missing_value flag)
        | v :: rest' => profile ← parse_profile v; parse_package rest' (mkPackage profile version out_dir skip python)
        end
      else if String.eqb flag "--version" then
        match rest with [] => Err (missing_value flag) | v :: rest' => parse_package rest' (mkPackage profile v out_dir skip python) end
      else if String.eqb flag "--out-dir" then
        match rest with [] => Err (missing_value flag) | v :: rest' => parse_package rest' (mkPackage profile version v skip python) end
      else if String.eqb flag "--skip-guest-refresh" then parse_package rest (mkPackage profile version out_dir true python)
      else if String.eqb flag "--python-package-root" then
        match rest with [] => Err (missing_value flag) | v :: rest' => parse_package rest' (mkPackage profile version out_dir skip (Some v)) end
      else if is_help flag then
        Err (Exit "usage: cargo run --bin xtask -- package [--profile debug|release] [--version VERSION] [--out-dir DIR] [--skip-guest-refresh] [--python-package-root DIR]")
      else Err (Fail ("unknown package flag: " ^+ flag))
  end.

Definition default_dev : DevArgs := mkDev Debug false false false false None.
Definition default_package : PackageArgs := mkPackage Release "dev" "dist" false None.

Definition stage_python_binary_if_requested (root : path) (python_package_root : option string) (binary : path) : XM () :=
  match python_package_root with
  | None => mret ()
  | Some package_root =>
      staged ← stage_python_binary (absolutize root package_root) binary;
      println ("staged " ^+ display staged)
  end.

Definition run_sign_path (a : SignPathArgs) : XM () :=
  root ← lift repo_root;
  sign_native_payload root (absolutize root (default "" (sg_path a))) (sg_host a);;
  println ("signed " ^+ default "" (sg_path a)).

Definition run_dev (a : DevArgs) : XM () :=
  root ← lift repo_root;
  built ← build_distribution_binary root (dv_profile a) (dv_refresh_guest a) (dv_skip_guest_refresh a);
  stage_python_binary_if_requested root (dv_python_package_root a) (bh_path built);;
  (if dv_run_tests a then cargo_test root (dv_profile a) None [] else mret ());;
  (if dv_run_e2e a then
     run_shell_e2e root "scripts/e2e-standalone.sh" (bh_path built);;
     run_shell_e2e root "scripts/e2e-checkpoint.sh" (bh_path built)
   else mret ());;
  println ("built " ^+ display (bh_path built)).

Definition run_package (a : PackageArgs) : XM () :=
  root ← lift repo_root;
  built ← build_distribution_binary root (pk_profile a) true (pk_skip_guest_refresh a);
  stage_python_binary_if_requested root (pk_python_package_root a) (bh_path built);;
  let out_dir := absolutize root (pk_out_dir a) in
  with_context ("creating " ^+ display out_dir) (on_disk (fs_create_dir_all out_dir));;
  create_package out_dir (bh_artifact_platform built) (pk_version a) (bh_path built).

Definition usage : string :=
  "usage: cargo run --bin xtask -- <dev|package> [options]" ^+ String line_feed (String line_feed
  ("dev:       build a local sagens binary with embedded standalone assets" ^+ String line_feed
  ("package:   build a standalone release binary with embedded assets" ^+ String line_feed
   "sign-path: sign a macOS native payload file"))).

(** The arguments after the name of the program. *)
Definition main (args : list string) : XM () :=
  root ← lift repo_root;
  load_repo_env root;;
  let task := default "help" (head args) in
  if String.eqb task "dev" then a ← lift (parse_dev (tail args) default_dev); run_dev a
  else if String.eqb task "package" then a ← lift (parse_package (tail args) default_package); run_package a
  else if String.eqb task "sign-path" then a ← lift (parse_sign_path (tail args) (mkSignPath None false)); run_sign_path a
  else if is_help task || String.eqb task "help" then println usage
  else throw (Fail ("unknown xtask subcommand: " ^+ task)).
End tool.

(** ** The fingerprint of the guest *)

Section fingerprint.
Context `{!Platform, !PlatformLaws, !HostEnv, !UpdateHost, progs : !Programs, checkout : !Checkout,
          !Serde SubmitResponse, !Serde SubmissionInfo, !Serde ResolvedArtifacts}.
Local Abbreviation XM := (M Stop Bench).

Definition same_tree (s s' : Bench) : Prop := same_stage (tree_of s) (tree_of s').
#[local] Instance same_tree_preorder : PreOrder same_tree.
Proof. split; [by intros s|]. intros a b c. unfold same_tree. intros. by etrans. Qed.

Lemma on_tree_ok {A} (m : M IoError Build A) s a s' :
  on_tree m s = (Ok a, s') → ∃ b, m (tree_of s) = (Ok a, b) ∧ (same_stage (tree_of s) b → same_tree s s').
Proof.
  unfold on_tree. destruct (m (tree_of s)) as [[x|e] b] eqn:E; [|done]. intros [= <- <-]. exists b. split; [done|].
  intros (Hw & Hh & Hr). split_and!; [done| |done]. unfold host_files in *. simpl in *. done.
Qed.

Lemma with_context_ok {A} c (m : XM A) s a s' : with_context c m s = (Ok a, s') → m s = (Ok a, s').
Proof. apply map_err_ok_inv. Qed.

(** Reads leave the tree alone. *)
Lemma metadata_read follow p s n s' :
  on_tree (s_metadata follow p) s = (Ok n, s') → ∃ q, stage_find (tree_of s) follow p = Ok (q, n) ∧ same_tree s s'.
Proof. intros (b & (q & Hq & Hs)%s_metadata_ok & Ht)%on_tree_ok. exists q. split; [done|]. by apply Ht. Qed.
Lemma read_dir_read p s names s' :
  on_tree (s_read_dir p) s = (Ok names, s') →
  ∃ q m, stage_find (tree_of s) true p = Ok (q, SDir m) ∧ names = s_children (tree_of s) q ∧ same_tree s s'.
Proof. intros (b & (q & m & Hq & -> & Hs)%s_read_dir_ok & Ht)%on_tree_ok. exists q, m. split_and!; [done..|by apply Ht]. Qed.
Lemma next_entry_read s u s' : on_tree s_next_entry s = (Ok u, s') → same_tree s s'.
Proof. intros (b & Hs%s_next_entry_same & Ht)%on_tree_ok. by apply Ht. Qed.
Lemma read_link_read p s t s' :
  on_tree (s_read_link p) s = (Ok t, s') → ∃ q, stage_find (tree_of s) false p = Ok (q, SLink t) ∧ same_tree s s'.
Proof.
  intros (b & Hrun & Ht)%on_tree_ok. apply stage_op_ok in Hrun as (s1 & Hact & ->).
  destruct (stage_find (tree_of s) false p) as [[q [| |t'|]]|]; simplify_eq/=. exists q. split; [done|]. apply Ht, use_fault_same.
Qed.
Lemma read_all_read n s b s' :
  on_tree (s_read_all n) s = (Ok b, s') → same_tree s s' ∧ ∀ m d, n = SFile m d → b = d.
Proof.
  intros (b' & Hrun & Ht)%on_tree_ok. apply stage_op_ok in Hrun as (s1 & Hact & ->).
  assert (s1 = tree_of s) as -> by (by destruct n; simplify_eq/=). split; [apply Ht, use_fault_same|].
  intros m d ->. by simplify_eq/=.
Qed.

Lemma tree_moves root s s' : staged_tree (tree_of s) root → same_tree s s' → staged_tree (tree_of s') root.
Proof.
  intros [R1 R2 R3 R4] Hs. split; [done|done| |].
  - intros r Hr Hne. rewrite (same_at _ _ _ Hs). by apply R3.
  - intros k n Hk Hne. rewrite !(same_at _ _ _ Hs). by apply R4.
Qed.

(** The two trees agree at and below [p]. *)
Definition agree (p : path) (s s' : Bench) : Prop := ∀ q, p `prefix_of` q → stage_at (tree_of s') q = stage_at (tree_of s) q.

Lemma agree_moves p s s' s1 s1' : same_tree s s1 → same_tree s' s1' → agree p s s' → agree p s1 s1'.
Proof. intros S1 S2 Ha q Hq. rewrite (same_at _ _ _ S1), (same_at _ _ _ S2). by apply Ha. Qed.
Lemma agree_below p k s s' : agree p s s' → agree (p ++ [k]) s s'.
Proof. intros Ha q Hq. apply Ha. etrans; [apply prefix_app_r; reflexivity|exact Hq]. Qed.

(** Same names, in the order of the sort. *)
Lemma agree_children p s s' : p ≠ [] → agree p s s' →
  sort_by_key id string_le (s_children (tree_of s') p) = sort_by_key id string_le (s_children (tree_of s) p).
Proof.
  intros Hp Ha. pose proof (sorted_children (tree_of s) p) as N1. pose proof (sorted_children (tree_of s') p) as N2.
  rewrite sort_by_key_perm in N1, N2. apply sorted_names_eq; [done..|]. intros n. rewrite !s_children_elem, !view_at by (by destruct p).
  rewrite Ha by (by apply prefix_app_r). done.
Qed.

Definition hashes_alike (root p : path) (t t' : nat) : Prop := ∀ s s' b b' s1 s1',
  staged_tree (tree_of s) root → staged_tree (tree_of s') root → root `prefix_of` p → is_Some (stage_at (tree_of s) p) → agree p s s' →
  hash_path_recursively t root p s = (Ok b, s1) → hash_path_recursively t' root p s' = (Ok b', s1') →
  b = b' ∧ same_tree s s1 ∧ same_tree s' s1'.

Lemma children_alike root p t t' ks s s' bs bs' s1 s1' :
  (∀ k, k ∈ ks → hashes_alike root (p ++ [k]) t t') → (∀ k, k ∈ ks → is_Some (stage_at (tree_of s) (p ++ [k]))) →
  staged_tree (tree_of s) root → staged_tree (tree_of s') root → root `prefix_of` p → agree p s s' →
  map_each (λ k, hash_path_recursively t root (p ++ [k])) ks s = (Ok bs, s1) →
  map_each (λ k, hash_path_recursively t' root (p ++ [k])) ks s' = (Ok bs', s1') →
  bs = bs' ∧ same_tree s s1 ∧ same_tree s' s1'.
Proof.
  revert s s' bs bs'. induction ks as [|k ks IH]; intros s s' bs bs' Hall Hex T T' Hp Ha Hr Hr'; cbn [map_each] in *.
  { apply ret_ok_inv in Hr as [<- <-], Hr' as [<- <-]. done. }
  apply bind_ok_inv in Hr as (b & s2 & Hb & Hr), Hr' as (b' & s2' & Hb' & Hr').
  apply bind_ok_inv in Hr as (bs0 & s3 & Hbs & Hr), Hr' as (bs0' & s3' & Hbs' & Hr').
  apply ret_ok_inv in Hr as [<- <-], Hr' as [<- <-].
  destruct (Hall k (list_elem_of_here _ _) s s' b b' s2 s2') as (-> & S1 & S2); [done|done| | | |done|done|].
  { etrans; [exact Hp|by apply prefix_app_r]. }
  { apply Hex. left. }
  { by apply agree_below. }
  destruct (IH s2 s2' bs0 bs0') as (-> & S3 & S4); [|..|exact Hbs|exact Hbs'|]; [by intros; apply Hall; right| | | |done| |].
  - intros k' Hk'. rewrite (same_at _ _ _ S1). apply Hex. by right.
  - exact (tree_moves _ _ _ T S1).
  - exact (tree_moves _ _ _ T' S2).
  - exact (agree_moves _ _ _ _ _ S1 S2 Ha).
  - split_and!; [done|by etrans|by etrans].
Qed.

Lemma hash_alike root t : ∀ t' p, hashes_alike root p t t'.
Proof.
  induction t as [|t IH]; intros [|t'] p s s' b b' s1 s1' T T' Hp [n Hn] Ha Hr Hr'; [done..|].
  assert (Hne : p ≠ []) by (intros ->; apply prefix_nil_inv in Hp; by destruct (st_root _ _ T)).
  assert (Hn' : stage_at (tree_of s') p = Some n) by (by rewrite Ha).
  cbn [hash_path_recursively] in Hr, Hr'. apply bind_ok_inv in Hr as (md & s2 & Hm & Hr), Hr' as (md' & s2' & Hm' & Hr').
  apply with_context_ok, metadata_read in Hm as (q & Hf & S2), Hm' as (q' & Hf' & S2').
  rewrite (stage_find_tree _ root p n false) in Hf by done. rewrite (stage_find_tree _ root p n false) in Hf' by done.
  injection Hf as <- <-. injection Hf' as <- <-. cbv zeta in Hr, Hr'.
  pose proof (tree_moves _ _ _ T S2) as T2. pose proof (tree_moves _ _ _ T' S2') as T2'.
  assert (Hn2 : stage_at (tree_of s2) p = Some n) by (by rewrite (same_at _ _ _ S2)).
  assert (Hn2' : stage_at (tree_of s2') p = Some n) by (by rewrite (same_at _ _ _ S2')).
  destruct n as [m|m d|target|m]; [| | |done].
  - apply bind_ok_inv in Hr as (names & s3 & Hd & Hr), Hr' as (names' & s3' & Hd' & Hr').
    apply with_context_ok, read_dir_read in Hd as (q & m1 & Hf & -> & S3), Hd' as (q' & m1' & Hf' & -> & S3').
    rewrite (stage_find_tree _ root p (SDir m) true) in Hf by done. rewrite (stage_find_tree _ root p (SDir m) true) in Hf' by done.
    injection Hf as <- <-. injection Hf' as <- <-.
    apply bind_ok_inv in Hr as ([] & s4 & He & Hr), Hr' as ([] & s4' & He' & Hr'). apply with_context_ok, next_entry_read in He, He'.
    apply bind_ok_inv in Hr as (bs & s5 & Hbs & Hr), Hr' as (bs' & s5' & Hbs' & Hr').
    apply ret_ok_inv in Hr as [<- <-], Hr' as [<- <-].
    assert (S4 : same_tree s s4) by (by do 2 (etrans; [eassumption|])). assert (S4' : same_tree s' s4') by (by do 2 (etrans; [eassumption|])).
    assert (A2 : agree p s2 s2') by exact (agree_moves _ _ _ _ _ S2 S2' Ha). rewrite (agree_children p s2 s2' Hne A2) in Hbs'.
    edestruct (children_alike root p t t') as (-> & S5 & S5'); [..|exact Hbs|exact Hbs'|].
    + intros k _. apply IH.
    + intros k Hk. rewrite sort_by_key_elem, s_children_elem, view_at in Hk by (by destruct p).
      rewrite (same_at _ _ _ S4). rewrite (same_at _ _ _ S2) in Hk. by destruct (stage_at (tree_of s) (p ++ [k])); [|destruct Hk].
    + exact (tree_moves _ _ _ T S4).
    + exact (tree_moves _ _ _ T' S4').
    + done.
    + exact (agree_moves _ _ _ _ _ S4 S4' Ha).
    + split_and!; [done|by etrans|by etrans].
  - apply bind_ok_inv in Hr as (f & s3 & Ho & Hr), Hr' as (f' & s3' & Ho' & Hr'). unfold s_open in Ho, Ho'.
    apply with_context_ok, metadata_read in Ho as (q & Hf & S3), Ho' as (q' & Hf' & S3').
    rewrite (stage_find_tree _ root p (SFile m d) true) in Hf by done. rewrite (stage_find_tree _ root p (SFile m d) true) in Hf' by done.
    injection Hf as <- <-. injection Hf' as <- <-.
    apply bind_ok_inv in Hr as (data & s4 & Hd & Hr), Hr' as (data' & s4' & Hd' & Hr').
    apply with_context_ok, read_all_read in Hd as [S4 Ed], Hd' as [S4' Ed']. apply ret_ok_inv in Hr as [<- <-], Hr' as [<- <-].
    rewrite (Ed m d), (Ed' m d) by done. split_and!; [done|by do 2 (etrans; [eassumption|])|by do 2 (etrans; [eassumption|])].
  - apply bind_ok_inv in Hr as (l & s3 & Ho & Hr), Hr' as (l' & s3' & Ho' & Hr').
    apply with_context_ok, read_link_read in Ho as (q & Hf & S3), Ho' as (q' & Hf' & S3').
    rewrite (stage_find_tree _ root p (SLink target) false) in Hf by done. rewrite (stage_find_tree _ root p (SLink target) false) in Hf' by done.
    injection Hf as <- <-. injection Hf' as <- <-. apply ret_ok_inv in Hr as [<- <-], Hr' as [<- <-].
    split_and!; [done|by etrans|by etrans].
Qed.

(** *** As many turns as there are nodes are enough *)

Lemma bind_err_inv {E S A B} (m : M E S A) (f : A → M E S B) s e s' :
  (m ≫= f) s = (Err e, s') → m s = (Err e, s') ∨ ∃ a s1, m s = (Ok a, s1) ∧ f a s1 = (Err e, s').
Proof. unfold mbind, M_bind. destruct (m s) as [[a|e'] s1]; [eauto|]. intros [= -> ->]. by left. Qed.

Lemma fails_on_tree {A} (m : M IoError Build A) : only_fails (on_tree m).
Proof. intros s e s'. unfold on_tree. destruct (m (tree_of s)) as [[a|e'] b]; [done|]. intros [= <- _]. eauto. Qed.

(** A failure of [map_each] is one of an element, after elements that kept the tree. *)
Lemma map_each_err {A B} (f : A → XM B) l s e s' :
  (∀ x s1 b s2, x ∈ l → same_tree s s1 → f x s1 = (Ok b, s2) → same_tree s1 s2) → map_each f l s = (Err e, s') →
  ∃ x s1, x ∈ l ∧ same_tree s s1 ∧ f x s1 = (Err e, s').
Proof.
  revert s. induction l as [|x l IH]; intros s Hkeep; cbn [map_each]; [done|].
  intros [Hx|(b & s1 & Hb & [Hl|(bs & s2 & _ & Hr)]%bind_err_inv)]%bind_err_inv; [..|done].
  - exists x, s. split_and!; [left|done|done].
  - assert (S1 : same_tree s s1) by (eapply Hkeep; [left|done|exact Hb]).
    destruct (IH s1) as (y & s2 & Hy & Hs & Hf); [|done|].
    + intros y s2 b' s3 Hy Hs. apply Hkeep; [by right|by etrans].
    + exists y, s2. split_and!; [by right|by etrans|done].
Qed.

Lemma hash_keeps root t p s b s1 : staged_tree (tree_of s) root → root `prefix_of` p → is_Some (stage_at (tree_of s) p) →
  hash_path_recursively t root p s = (Ok b, s1) → same_tree s s1.
Proof. intros T Hp He Hr. by apply (hash_alike root t t p s s b b s1 s1 T T Hp He (λ q _, eq_refl) Hr Hr). Qed.

Lemma hash_turns root t : ∀ p s e s', staged_tree (tree_of s) root → root `prefix_of` p → is_Some (stage_at (tree_of s) p) →
  length (below (view (tree_of s)) p) < t → hash_path_recursively t root p s = (Err e, s') → e ≠ OutOfTurns.
Proof.
  induction t as [|t IH]; intros p s e s' T Hp [n Hn] Ht Hr; [lia|].
  assert (Hne : p ≠ []) by (intros ->; apply prefix_nil_inv in Hp; by destruct (st_root _ _ T)).
  assert (Hfail : ∀ A c (m : M IoError Build A) s0 s0', with_context c (on_tree m) s0 = (Err e, s0') → e ≠ OutOfTurns).
  { intros A c m s0 s0' H'. by apply (fails_context c _ (fails_on_tree m)) in H' as [text ->]. }
  cbn [hash_path_recursively] in Hr. apply bind_err_inv in Hr as [Hr|(md & s2 & Hm & Hr)]; [by eapply Hfail|].
  apply with_context_ok, metadata_read in Hm as (q & Hf & S2). rewrite (stage_find_tree _ root p n false) in Hf by done.
  injection Hf as <- <-. cbv zeta in Hr. destruct n as [m|m d|target|m].
  - apply bind_err_inv in Hr as [Hr|(names & s3 & Hd & Hr)]; [by eapply Hfail|].
    apply with_context_ok, read_dir_read in Hd as (q & m1 & Hf & -> & S3).
    rewrite (stage_find_tree _ root p (SDir m) true) in Hf by (done || exact (tree_moves _ _ _ T S2) || by rewrite (same_at _ _ _ S2)).
    injection Hf as <- <-. apply bind_err_inv in Hr as [Hr|([] & s4 & He & Hr)]; [by eapply Hfail|].
    apply with_context_ok, next_entry_read in He. assert (S4 : same_tree s s4) by (by do 2 (etrans; [eassumption|])).
    apply bind_err_inv in Hr as [Hr|(bs & s5 & _ & Hr)]; [|done].
    assert (Hchild : ∀ k, k ∈ sort_by_key id string_le (s_children (tree_of s2) p) → is_Some (stage_at (tree_of s) (p ++ [k]))).
    { intros k Hk. rewrite sort_by_key_elem, s_children_elem, view_at, (same_at _ _ _ S2) in Hk by (by destruct p).
      by destruct (stage_at (tree_of s) (p ++ [k])); [|destruct Hk]. }
    assert (Hdeep : ∀ k, root `prefix_of` p ++ [k]) by (intros k; etrans; [exact Hp|by apply prefix_app_r]).
    apply map_each_err in Hr as (k & s5 & Hk & S5 & Hr).
    + assert (S : same_tree s s5) by (by etrans). destruct (Hchild k Hk) as [x Hx].
      eapply (IH (p ++ [k]) s5); [exact (tree_moves _ _ _ T S)|apply Hdeep|by rewrite (same_at _ _ _ S)| |exact Hr].
      rewrite (same_view _ _ S). assert (Hv : view (tree_of s) !! (p ++ [k]) = Some (kind_of x)) by (rewrite view_at by (by destruct p); by rewrite Hx).
      pose proof (below_shrinks _ _ _ _ Hv). lia.
    + intros k s6 b s7 Hk S6. assert (S : same_tree s s6) by (by etrans).
      apply hash_keeps; [exact (tree_moves _ _ _ T S)|apply Hdeep|]. rewrite (same_at _ _ _ S). by apply Hchild.
  - apply bind_err_inv in Hr as [Hr|(f & s3 & _ & Hr)]; [by eapply Hfail|].
    apply bind_err_inv in Hr as [Hr|(f' & s4 & _ & Hr)]; [by eapply Hfail|done].
  - apply bind_err_inv in Hr as [Hr|(f & s3 & _ & Hr)]; [by eapply Hfail|done].
  - by injection Hr as <- _.
Qed.

Lemma inputs_alike root t t' rels s s' bs bs' s1 s1' :
  staged_tree (tree_of s) root → staged_tree (tree_of s') root →
  (∀ rel, rel ∈ rels → is_Some (stage_at (tree_of s) (root ++ rel)) ∧ agree (root ++ rel) s s') →
  map_each (λ rel, hash_path_recursively t root (root ++ rel)) rels s = (Ok bs, s1) →
  map_each (λ rel, hash_path_recursively t' root (root ++ rel)) rels s' = (Ok bs', s1') → bs = bs'.
Proof.
  revert s s' bs bs'. induction rels as [|rel rels IH]; intros s s' bs bs' T T' Hall Hr Hr'; cbn [map_each] in *.
  { apply ret_ok_inv in Hr as [<- _], Hr' as [<- _]. done. }
  apply bind_ok_inv in Hr as (b & s2 & Hb & Hr), Hr' as (b' & s2' & Hb' & Hr').
  apply bind_ok_inv in Hr as (bs0 & s3 & Hbs & Hr), Hr' as (bs0' & s3' & Hbs' & Hr').
  apply ret_ok_inv in Hr as [<- <-], Hr' as [<- <-]. destruct (Hall rel (list_elem_of_here _ _)) as [Hex Ha].
  destruct (hash_alike root t t' (root ++ rel) s s' b b' s2 s2') as (-> & S1 & S2); [done|done|by apply prefix_app_r|done..|].
  f_equal. eapply IH; [exact (tree_moves _ _ _ T S1)|exact (tree_moves _ _ _ T' S2)| |exact Hbs|exact Hbs'].
  intros rel' Hin. destruct (Hall rel') as [Hex' Ha']; [by right|]. split; [by rewrite (same_at _ _ _ S1)|exact (agree_moves _ _ _ _ _ S1 S2 Ha')].
Qed.

(** the fingerprint of the guest is one of its sources: two checkouts whose inputs are the same files, directories and links
    have the same fingerprint, in whatever order their directories are listed, whatever the modes of the files outside them and
    whatever else has changed on the disk; so a guest is not built again without need. *)
Theorem fingerprint_of_sources root platform s s' f f' s1 s1' :
  staged_tree (tree_of s) root → staged_tree (tree_of s') root →
  (∀ rel, rel ∈ guest_artifact_fingerprint_inputs → is_Some (stage_at (tree_of s) (root ++ rel)) ∧ agree (root ++ rel) s s') →
  current_guest_artifact_fingerprint root platform s = (Ok f, s1) →
  current_guest_artifact_fingerprint root platform s' = (Ok f', s1') → f = f'.
Proof.
  intros T T' Hall Hr Hr'. unfold current_guest_artifact_fingerprint in Hr, Hr'.
  unfold mbind at 1, M_bind at 1, gets in Hr. unfold mbind at 1, M_bind at 1, gets in Hr'.
  apply bind_ok_inv in Hr as (bs & s2 & Hb & Hr), Hr' as (bs' & s2' & Hb' & Hr').
  apply ret_ok_inv in Hr as [<- _], Hr' as [<- _]. by rewrite (inputs_alike root _ _ _ s s' bs bs' s2 s2' T T' Hall Hb Hb').
Qed.

(** the fingerprint is computed however deep the sources are: the walk ends, with a fingerprint or with an error of the file
    system, and never because it was given too few turns. *)
Theorem fingerprint_ends root platform s r s' :
  staged_tree (tree_of s) root → (∀ rel, rel ∈ guest_artifact_fingerprint_inputs → is_Some (stage_at (tree_of s) (root ++ rel))) →
  current_guest_artifact_fingerprint root platform s = (r, s') → r ≠ Err OutOfTurns.
Proof.
  intros T Hall Hr ->. unfold current_guest_artifact_fingerprint in Hr. unfold mbind at 1, M_bind at 1, gets in Hr.
  assert (Hp : ∀ rel, root `prefix_of` root ++ rel) by (intros rel; by apply prefix_app_r).
  apply bind_err_inv in Hr as [Hr|(bs & s1 & _ & Hr)]; [|done].
  apply map_each_err in Hr as (rel & s1 & Hin & Hs & Hr).
  - eapply (hash_turns root _ (root ++ rel) s1); [exact (tree_moves _ _ _ T Hs)|done|rewrite (same_at _ _ _ Hs); by apply Hall| |exact Hr|done].
    rewrite (same_view _ _ Hs). pose proof (view_size (tree_of s)).
    assert (length (below (view (tree_of s)) (root ++ rel)) ≤ size (view (tree_of s))) by (rewrite <-length_map_to_list; apply length_filter).
    lia.
  - intros rel s1 b s2 Hin Hs. apply hash_keeps; [exact (tree_moves _ _ _ T Hs)|done|]. rewrite (same_at _ _ _ Hs). by apply Hall.
Qed.

(** ** What is published *)

(** The checksum file of a name reads back as the digest. *)
Lemma sha256_line_read d name : length d = 32 → release_file name →
  parse_sha256_manifest (sha256_line (hex_encode d) name) name = Ok d.
Proof.
  intros Hd Hn. assert (E : sha256_line (hex_encode d) name = render_manifest [(d, name)]).
  { unfold sha256_line. cbn [render_manifest]. unfold manifest_entry. cbn [fst snd]. by rewrite !string_app_assoc. }
  rewrite E, manifest_roundtrip by (constructor; [by split|constructor]). cbn [list_find]. by rewrite decide_True.
Qed.

Lemma join_name dir n : plain_name n → join_path dir n = dir ++ [n].
Proof. intros Hn. unfold join_path. by rewrite (plain_name_components n Hn). Qed.

Lemma on_disk_ok {A} (m : M IoError World A) s a s' :
  on_disk m s = (Ok a, s') → ∃ w, m (bn_world s) = (Ok a, w) ∧ s' = mkBench w (bn_machine s) (bn_env s) (bn_printed s).
Proof. unfold on_disk, zoom, map_err. destruct (m (bn_world s)) as [[x|e] w]; [|done]. intros [= <- <-]. eauto. Qed.

Lemma sha256_file_ok p s h s' : sha256_file p s = (Ok h, s') →
  ∃ m c, w_fs (bn_world s) !! p = Some (File m c) ∧ h = hex_encode (sha256 (content_bytes c)) ∧ w_fs (bn_world s') = w_fs (bn_world s).
Proof.
  unfold sha256_file. intros Hr. apply bind_ok_inv in Hr as (n & s1 & Hm & Hr).
  apply with_context_ok, on_disk_ok in Hm as (w & [Hn Hw]%metadata_ok & ->).
  apply bind_ok_inv in Hr as (d & s2 & Hh & Hr). apply ret_ok_inv in Hr as [<- <-].
  unfold zoom in Hh. cbn [bn_world] in Hh.
  match type of Hh with context [map_err ?f ?l w] => destruct (map_err f l w) as [[x|e] w2] eqn:E end; [|done].
  injection Hh as <- <-. apply map_err_ok_inv in E. destruct n as [m|m c].
  { cbn [node_bytes hash_loop length] in E. by apply bind_ok_inv in E as (b & w3 & [? _]%map_err_ok_inv%io_op_ok & _). }
  apply hash_loop_ok in E as [-> Hw2]; [|done]. exists m, c. split_and!; [done|done|]. simpl. congruence.
Qed.

Lemma remove_old_ok p s u s' : remove_old p s = (Ok u, s') → ∀ q, q ≠ p → w_fs (bn_world s') !! q = w_fs (bn_world s) !! q.
Proof.
  unfold remove_old, exists_path. intros Hr q Hq. apply bind_ok_inv in Hr as (present & s1 & He & Hr).
  assert (W1 : w_fs (bn_world s1) = w_fs (bn_world s)).
  { apply bind_ok_inv in He as (r & s2 & Ha & He). apply ret_ok_inv in He as [_ <-]. unfold attempt, on_disk, zoom, map_err in Ha.
    pose proof (keeps_metadata (λ _, False) p (bn_world s)) as Hk. destruct (fs_metadata p (bn_world s)) as [r' w].
    assert (w_fs w = w_fs (bn_world s)) by (apply map_eq; intros x; apply (Hk x); tauto). by destruct r'; injection Ha as _ <-. }
  destruct present; [|apply ret_ok_inv in Hr as [_ <-]; by rewrite W1].
  apply with_context_ok, on_disk_ok in Hr as (w & Hw%remove_file_ok & ->). simpl. rewrite Hw, lookup_delete_ne, W1 by done. done.
Qed.

(** a release can be installed by the self-update: where nothing is signed, the packaged file is the binary that was built, its
    name is the one the updater looks for on its platform, and the checksum file beside it is a manifest from which the updater
    reads the digest of exactly this file. *)
Theorem package_verifies out_dir platform tag assets binary s s' m c :
  build_os ≠ "macos" → (∀ b, length (sha256 b) = 32) →
  release_file (package_name tag (platform_str platform)) → plain_name (package_name tag (platform_str platform)) →
  plain_name (package_name tag (platform_str platform) ^+ ".sha256") →
  let packaged := out_dir ++ [package_name tag (platform_str platform)] in
  binary ≠ packaged → binary ≠ out_dir ++ [package_name tag (platform_str platform) ^+ ".sha256"] →
  w_fs (bn_world s) !! binary = Some (File m c) →
  create_package out_dir (platform_str platform) tag binary s = (Ok (), s') →
  (∀ p, slug p = platform_str platform → binary_name {| tag_name := tag; release_assets := assets |} p = package_name tag (platform_str platform)) ∧
  w_fs (bn_world s') !! packaged = Some (File m c) ∧
  ∃ mode text, w_fs (bn_world s') !! (out_dir ++ [package_name tag (platform_str platform) ^+ ".sha256"]) = Some (File mode (FileSystem.Text (as_bytes text))) ∧
    parse_sha256_manifest text (package_name tag (platform_str platform)) = Ok (sha256 (content_bytes c)).
Proof.
  intros Hos Hsha Hrel Hplain Hplain2 packaged Hb1 Hb2 Hbin Hr. set (name := package_name tag (platform_str platform)) in *.
  assert (Hjoin : join_path out_dir name = packaged) by (by apply join_name).
  assert (Hjoin2 : join_path out_dir (name ^+ ".sha256") = out_dir ++ [name ^+ ".sha256"]) by (by apply join_name).
  split; [intros p Hp; unfold name, package_name, binary_name; by rewrite <-Hp|]. unfold create_package in Hr. cbv zeta in Hr. fold name in Hr. rewrite Hjoin, Hjoin2 in Hr.
  apply bind_ok_inv in Hr as ([] & s1 & H1' & Hr). apply bind_ok_inv in Hr as ([] & s2 & H2' & Hr).
  pose proof (remove_old_ok _ _ _ _ H1' binary Hb1) as B1. pose proof (remove_old_ok _ _ _ _ H2' binary Hb2) as B2.
  apply bind_ok_inv in Hr as ([] & s3 & Hc & Hr). apply with_context_ok, on_disk_ok in Hc as (w & Hc%copy_ok & ->).
  destruct Hc as (m' & c' & Hsrc & Hw). rewrite B2, B1, Hbin in Hsrc. injection Hsrc as <- <-.
  apply bind_ok_inv in Hr as (root & s4 & [_ <-]%lift_ok_inv & Hr).
  apply bind_ok_inv in Hr as ([] & s5 & Hsign & Hr). unfold sign_binary, on_macos_host in Hsign.
  assert (Hm : String.eqb build_os "macos" = false) by (by apply String.eqb_neq). rewrite Hm in Hsign. apply ret_ok_inv in Hsign as [_ <-].
  apply bind_ok_inv in Hr as (digest & s6 & Hd & Hr). apply sha256_file_ok in Hd as (m6 & c6 & Hp & -> & W6). simpl in Hp, W6.
  rewrite Hw, lookup_insert_eq in Hp. injection Hp as <- <-.
  apply bind_ok_inv in Hr as (bname & s7 & Hfn & Hr). unfold file_name_of in Hfn. apply lift_ok_inv in Hfn as [Hfn <-].
  unfold packaged in Hfn. rewrite last_snoc in Hfn. injection Hfn as <-.
  apply bind_ok_inv in Hr as ([] & s8 & Hws & Hr). unfold write_sha256 in Hws. apply with_context_ok, on_disk_ok in Hws as (w8 & [m8 Hw8]%write_ok & ->).
  apply bind_ok_inv in Hr as (pkg & s9 & Hpkg & Hr). unfold build_macos_pkg in Hpkg. apply bind_ok_inv in Hpkg as (skip & s10 & Hskip & Hpkg).
  unfold on_macos_host in Hpkg. rewrite Hm in Hpkg. cbn [negb orb] in Hpkg. apply ret_ok_inv in Hpkg as [<- <-].
  assert (W10 : bn_world s10 = w8).
  { unfold env_truthy, read_env in Hskip. by injection Hskip as _ <-. }
  cbn [publish] in Hr. apply bind_ok_inv in Hr as ([] & s11 & [_ <-]%ret_ok_inv & Hr).
  apply bind_ok_inv in Hr as (archive & s12 & Har & Hr). unfold notarize_release_archive, on_macos_host in Har. rewrite Hm in Har.
  cbn [negb] in Har. apply ret_ok_inv in Har as [<- <-]. cbn [publish] in Hr. apply bind_ok_inv in Hr as ([] & s13 & [_ <-]%ret_ok_inv & Hr).
  injection Hr as <-. simpl. rewrite W10, Hw8.
  assert (Hne : name ^+ ".sha256" ≠ name).
  { intros E. apply (f_equal String.length) in E. rewrite string_length_app in E. simpl in E. lia. }
  split.
  - rewrite lookup_insert_ne by (unfold packaged; intros E; apply app_inj_tail in E as [_ E]; done). rewrite W6, Hw. apply lookup_insert_eq.
  - exists m8. eexists. split; [apply lookup_insert_eq|]. by apply sha256_line_read.
Qed.
End fingerprint.

(** ** What is built *)

(** the platform a release is named after is the one its updater asks for: wherever the tool builds at all, the updater of the
    binary it built accepts the platform, under the same name. *)
Theorem built_platform_updates os arch p : platform_from os arch = Ok p →
  ∃ target, platform_from_parts os arch = Ok target ∧ slug target = platform_str p.
Proof.
  unfold platform_from, platform_from_parts. intros Hr.
  destruct (String.eqb_spec os "macos") as [->|Hm]; [|destruct (String.eqb_spec os "linux") as [->|Hl]; [|done]];
    (destruct (String.eqb_spec arch "aarch64") as [->|Ha]; [|destruct (String.eqb_spec arch "x86_64") as [->|Hx]]);
    simplify_eq/=; eauto.
  all: by repeat case_match; simplify_eq/=.
Qed.

Lemma strip_zero (b : bytes) (r := if decide (last b = Some Byte.x00) then removelast b else b) :
  ∃ tail, b = r ++ tail ∧ (tail = [] ∨ tail = [Byte.x00]).
Proof.
  unfold r. destruct (decide (last b = Some Byte.x00)) as [Hl|_]; [|exists []; by rewrite app_nil_r; auto].
  exists [Byte.x00]. split; [|by right]. apply last_Some in Hl as [b' ->]. by rewrite removelast_last.
Qed.

(** the kernel that is extracted is the object the symbol names: it is not empty, it lies at the offset of the symbol in the bytes of
    its section and is as long as the symbol says, but for one zero byte at the end; a symbol that points outside its section, even
    through a sum that overflows, is an error. *)
Theorem kernel_bundle_exact elf kernel : kernel_bundle elf = Ok kernel →
  ∃ symbol i section data tail,
    symbol ∈ elf_dynamic_symbols elf ++ elf_symbols elf ∧ sy_name symbol = Some KERNEL_BUNDLE_SYMBOL ∧
    sy_section symbol = Some i ∧ elf_section elf i = Ok section ∧ sn_data section = Ok data ∧
    let start := (sy_address symbol - sn_address section)%Z in
    (0 ≤ start)%Z ∧ (start + sy_size symbol ≤ Z.of_nat (length data))%Z ∧
    Z.of_nat (length (kernel ++ tail)) = sy_size symbol ∧ (tail = [] ∨ tail = [Byte.x00]) ∧ kernel ≠ [] ∧
    take (length (kernel ++ tail)) (drop (Z.to_nat start) data) = kernel ++ tail.
Proof.
  unfold kernel_bundle. intros Hr.
  destruct (list_find _ _) as [[n symbol]|] eqn:Hf; [|done]. apply list_find_Some in Hf as (Hin%list_elem_of_lookup_2 & Hname & _).
  cbn [fmap option_fmap option_map snd ok_or] in Hr. cbn [mbind Result_bind] in Hr.
  destruct (sy_section symbol) as [i|] eqn:Hi; [|done]. cbn in Hr.
  destruct (elf_section elf i) as [section|] eqn:Hs; [|done]. cbn in Hr.
  destruct (sn_data section) as [data|] eqn:Hd; [|done]. cbn in Hr.
  destruct (sy_address symbol <? sn_address section)%Z eqn:E1; [done|]. cbn in Hr.
  destruct (sy_size symbol <=? 0)%Z eqn:E2; [done|]. destruct (U64_MAX <? _)%Z; [done|].
  destruct (Z.of_nat (length data) <? _)%Z eqn:E3; [done|].
  set (b := take (Z.to_nat (sy_size symbol)) (drop (Z.to_nat (sy_address symbol - sn_address section)) data)) in Hr.
  destruct (strip_zero b) as (tail & Hb & Ht). cbv zeta in Hr, Hb.
  set (r := if decide (last b = Some Byte.x00) then removelast b else b) in *. destruct (decide (r = [])) as [|He]; [done|]. injection Hr as <-.
  assert (Hlen : length b = Z.to_nat (sy_size symbol)) by (unfold b; rewrite length_take, length_drop; lia).
  exists symbol, i, section, data, tail. rewrite <-Hb, Hlen. split_and!; [done|done|done|done|done|lia|lia|lia|done|done|done].
Qed.

(** The arguments that ask for a package. *)
Definition package_flags (a : PackageArgs) : list string :=
  ["--profile"; profile_str (pk_profile a); "--version"; pk_version a; "--out-dir"; pk_out_dir a] ++
  (if pk_skip_guest_refresh a then ["--skip-guest-refresh"] else []) ++
  match pk_python_package_root a with Some root => ["--python-package-root"; root] | None => [] end.

(** every package can be asked for: written out as flags it is read back, whatever the values are, a value that looks like a flag
    included. *)
Theorem package_args_roundtrip a : parse_package (package_flags a) default_package = Ok a.
Proof. by destruct a as [[] version out_dir [] [root|]]. Qed.

(** flags of no effect on each other may come in any order: a later value replaces an earlier one and nothing else. *)
Theorem parse_package_app flags rest a b :
  parse_package flags a = Ok b → parse_package (flags ++ rest) a = parse_package rest b.
Proof.
  remember (length flags) as n eqn:Hn. revert flags a Hn. induction n as [n IH] using lt_wf_ind. intros flags a -> Hr.
  destruct flags as [|flag flags]; [by injection Hr as ->|]. destruct a as [profile version out_dir skip python].
  cbn [parse_package app] in *.
  repeat case_match; try done; simplify_eq/=; try (eapply IH; [|reflexivity|done]; simpl; lia).
  all: destruct (parse_profile _) as [pr|] eqn:Ep; simplify_eq/=; eapply IH; [|reflexivity|done]; simpl; lia.
Qed.
End Xtask.
