(* ===== verification/Demo.v ===== *)
(** * Demo: a concrete host

    Instances of every interface the development is parameterized over: what is
    assumed of the uuid crate, of serde_json and of the machines holds of them,
    and the model runs on them.  The witnesses of the properties use it. *)

From S2P Require Import Prelude RustStd Paths FileSystem PrivateFs Auth FsTree Manifest Config Lineage Workspace Images Protocol Runtime BoxStore Boxes BoxLifecycle Stack BoxApi Daemon.

(** ** A serialization

    Values as trees of numbers and strings, trees as bytes. *)

Abbreviation wire := (gen_tree (Z + string)).

Class Wire (A : Type) := {
  to_wire : A → wire;
  of_wire : wire → option A;
  of_to_wire a : of_wire (to_wire a) = Some a;
}.

#[global] Instance wire_Z : Wire Z.
Proof.
  refine {| to_wire z := GenLeaf (inl z); of_wire w := match w with GenLeaf (inl z) => Some z | _ => None end |}. done.
Defined.
#[global] Instance wire_string : Wire string.
Proof.
  refine {| to_wire s := GenLeaf (inr s); of_wire w := match w with GenLeaf (inr s) => Some s | _ => None end |}. done.
Defined.
#[global] Instance wire_N : Wire N.
Proof.
  refine {| to_wire n := to_wire (Z.of_N n); of_wire w := Z.to_N <$> of_wire w |}.
  intros n. rewrite of_to_wire. cbn. by rewrite N2Z.id.
Defined.
#[global] Instance wire_bool : Wire bool.
Proof.
  refine {| to_wire (b : bool) := to_wire (if b then 1 else 0)%Z; of_wire w := (λ z : Z, (z =? 1)%Z) <$> of_wire w |}. by intros [].
Defined.

Fixpoint all_some {A} (l : list (option A)) : option (list A) :=
  match l with [] => Some [] | x :: l' => a ← x; r ← all_some l'; Some (a :: r) end.

Section wire.
Context {A : Type} `{Wire A}.

#[global] Instance wire_list : Wire (list A).
Proof.
  refine {| to_wire l := GenNode 0 (map to_wire l);
            of_wire w := match w with GenNode 0 l => all_some (map of_wire l) | _ => None end |}.
  intros l. induction l as [|a l IH]; [done|]. cbn in *. by rewrite of_to_wire, IH.
Defined.
#[global] Instance wire_option : Wire (option A).
Proof.
  refine {| to_wire o := to_wire (match o with Some a => [a] | None => [] end);
            of_wire w := l ← of_wire w; match l with [] => Some None | a :: _ => Some (Some a) end |}.
  intros [a|]; by rewrite of_to_wire.
Defined.
End wire.

#[global] Instance wire_prod {A B} `{Wire A, Wire B} : Wire (A * B).
Proof.
  refine {| to_wire p := GenNode 0 [to_wire p.1; to_wire p.2];
            of_wire w := match w with GenNode 0 [a; b] => x ← of_wire a; y ← of_wire b; Some (x, y) | _ => None end |}.
  intros [a b]. cbn. by rewrite !of_to_wire.
Defined.
#[global] Instance wire_map {A} `{Wire A} : Wire (gmap string A).
Proof.
  unshelve refine (@Build_Wire (gmap string A) (λ m, to_wire (map_to_list m : list (string * A)))
    (λ w, list_to_map <$> (of_wire w : option (list (string * A)))) _).
  intros m. cbn beta. rewrite of_to_wire. cbn. by rewrite list_to_map_to_list.
Defined.

(** A record, from the tuple of its fields. *)
Definition wire_iso {A B} `{Wire B} (f : A → B) (g : B → A) (Hgf : ∀ a, g (f a) = a) : Wire A.
Proof.
  refine {| to_wire a := to_wire (f a); of_wire w := g <$> (of_wire w : option B) |}.
  intros a. rewrite of_to_wire. cbn. by rewrite Hgf.
Defined.

Fixpoint pos_to_bytes (p : positive) : bytes :=
  match p with xH => [] | xO p' => Byte.x00 :: pos_to_bytes p' | xI p' => Byte.x01 :: pos_to_bytes p' end.
Fixpoint pos_of_bytes (b : bytes) : positive :=
  match b with [] => xH | Byte.x00 :: b' => xO (pos_of_bytes b') | _ :: b' => xI (pos_of_bytes b') end.
Lemma pos_of_to_bytes p : pos_of_bytes (pos_to_bytes p) = p.
Proof. induction p; cbn; by rewrite ?IHp. Qed.

#[global] Instance wire_serde {A} `{Wire A} : Serde A := {
  to_vec a := Ok (pos_to_bytes (encode (to_wire a)));
  from_slice b := ok_or "expected value" (w ← decode (pos_of_bytes b); of_wire (A := A) w);
}.
#[global] Instance wire_serde_laws {A} `{Wire A} : SerdeLaws A.
Proof.
  split. intros a. eexists. split; [reflexivity|]. cbn. rewrite pos_of_to_bytes, decode_encode. cbn.
  by rewrite of_to_wire.
Qed.

(** *** The records on disk *)

#[global] Instance wire_file_kind : Wire FileKind.
Proof.
  apply (wire_iso (λ k, match k with FkFile => 0 | FkDirectory => 1 | FkSymlink => 2 end)%Z
    (λ z, if (z =? 0)%Z then FkFile else if (z =? 1)%Z then FkDirectory else FkSymlink)). by intros [].
Defined.
#[global] Instance wire_change_kind : Wire WorkspaceChangeKind.
Proof.
  apply (wire_iso (λ k, match k with Added => 0 | Modified => 1 | Deleted => 2 | TypeChanged => 3 end)%Z
    (λ z, if (z =? 0)%Z then Added else if (z =? 1)%Z then Modified else if (z =? 2)%Z then Deleted else TypeChanged)).
  by intros [].
Defined.
#[global] Instance wire_change : Wire WorkspaceChange.
Proof.
  apply (wire_iso (λ c, (wc_path c, wc_kind c, wc_kind_after c)) (λ '(a, b, c), mkChange a b c)). by intros [].
Defined.
#[global] Instance wire_summary : Wire WorkspaceCheckpointSummary.
Proof.
  apply (wire_iso (λ s, (cs_checkpoint_id s, cs_workspace_id s, cs_name s, cs_metadata s, cs_created_at_ms s))
    (λ '(a, b, c, d, e), mkSummary a b c d e)). by intros [].
Defined.
#[global] Instance wire_checkpoint : Wire WorkspaceCheckpointRecord.
Proof.
  apply (wire_iso (λ r, (cr_summary r, cr_source_checkpoint_id r, cr_changes r)) (λ '(a, b, c), mkCheckpoint a b c)).
  by intros [].
Defined.
#[global] Instance wire_head : Wire WorkspaceLineageHead.
Proof. apply (wire_iso head_checkpoint mkHead). by intros []. Defined.
#[global] Instance wire_image : Wire VmImageManifest.
Proof.
  apply (wire_iso
    (λ m, (im_version m, im_name m, im_arch m, im_alpine_version m, im_created_at_ms m, im_apk m, im_pip m, im_npm m,
           im_kernel_image m, im_rootfs_image m, im_cache_image m, im_package_count m))
    (λ '(a, b, c, d, e, f, g, h, i, j, k, l), mkImageManifest a b c d e f g h i j k l)). by intros [].
Defined.
#[global] Instance wire_admin : Wire AdminRecord.
Proof.
  apply (wire_iso (λ r, (ar_admin_uuid r, ar_token_hash r, ar_active r, ar_created_at_ms r, ar_updated_at_ms r))
    (λ '(a, b, c, d, e), mkAdminRecord a b c d e)). by intros [].
Defined.
#[global] Instance wire_admins : Wire AdminRegistry.
Proof. apply (wire_iso (λ r, (version r, admins r)) (λ '(a, b), mkAdminRegistry a b)). by intros []. Defined.
#[global] Instance wire_credential : Wire BoxCredentialRecord.
Proof.
  apply (wire_iso (λ r, (br_box_id r, br_token_hash r, br_active r, br_created_at_ms r, br_updated_at_ms r))
    (λ '(a, b, c, d, e), mkBoxCredentialRecord a b c d e)). by intros [].
Defined.
#[global] Instance wire_credentials : Wire BoxCredentialRegistry.
Proof. apply (wire_iso (λ r, (box_version r, boxes r)) (λ '(a, b), mkBoxCredentialRegistry a b)). by intros []. Defined.
#[global] Instance wire_user_config : Wire UserConfig.
Proof.
  apply (wire_iso (λ c, (uc_version c, uc_admin_uuid c, uc_admin_token c, uc_endpoint c))
    (λ '(v, u, t, e), {| uc_version := v; uc_admin_uuid := u; uc_admin_token := t; uc_endpoint := e |})). by intros [].
Defined.
#[global] Instance wire_numeric : Wire BoxNumericSetting.
Proof. apply (wire_iso (λ n, (ns_current n, ns_max n)) (λ '(a, b), mkNumeric a b)). by intros []. Defined.
#[global] Instance wire_boolean : Wire BoxBooleanSetting.
Proof. apply (wire_iso (λ n, (bo_current n, bo_max n)) (λ '(a, b), mkBoolean a b)). by intros []. Defined.
#[global] Instance wire_settings : Wire BoxSettings.
Proof.
  apply (wire_iso (λ s, (set_cpu_cores s, set_memory_mb s, set_fs_size_mib s, set_max_processes s, set_network_enabled s))
    (λ '(a, b, c, d, e), mkSettings a b c d e)). by intros [].
Defined.
#[global] Instance wire_usage : Wire BoxRuntimeUsage.
Proof.
  apply (wire_iso (λ u, (ru_cpu_millicores u, ru_memory_used_mib u, ru_fs_used_mib u, ru_process_count u))
    (λ '(a, b, c, d), mkUsage a b c d)). by intros [].
Defined.
#[global] Instance wire_status : Wire BoxStatus.
Proof.
  apply (wire_iso (λ k, match k with BCreated => 0 | BRunning => 1 | BStopped => 2 | BFailed => 3 | BRemoving => 4 end)%Z
    (λ z, if (z =? 0)%Z then BCreated else if (z =? 1)%Z then BRunning else if (z =? 2)%Z then BStopped
          else if (z =? 3)%Z then BFailed else BRemoving)). by intros [].
Defined.
#[global] Instance wire_box : Wire BoxRecord.
Proof.
  apply (wire_iso
    (λ r, (bx_box_id r, bx_name r, bx_image r, bx_status r, bx_settings r, bx_runtime_usage r, bx_workspace_path r,
           bx_active_sandbox_id r, bx_created_at_ms r, bx_last_start_at_ms r, bx_last_stop_at_ms r, bx_last_error r))
    (λ '(a, b, c, d, e, f, g, h, i, j, k, l), mkBox a b c d e f g h i j k l)). by intros [].
Defined.

(** ** The host *)

(** Identifiers, printed as the binary digits of the number, low end first. *)
Fixpoint print_pos (p : positive) : string :=
  match p with xH => "1" | xO p' => String "0" (print_pos p') | xI p' => String "1" (print_pos p') end.
Fixpoint parse_pos (s : string) : option positive :=
  match s with
  | EmptyString => None
  | String a EmptyString => if Ascii.eqb a "1" then Some xH else None
  | String a s' => p ← parse_pos s'; Some (if Ascii.eqb a "1" then xI p else xO p)
  end.
Definition print_id (u : Uuid) : string := match u with N0 => "0" | Npos p => print_pos p end.
Definition parse_id (s : string) : option Uuid := if String.eqb s "0" then Some 0%N else Npos <$> parse_pos s.

Lemma print_pos_cons p : ∃ a s, print_pos p = String a s.
Proof. destruct p; cbn; eauto. Qed.
Lemma parse_print_pos p : parse_pos (print_pos p) = Some p.
Proof.
  induction p as [p IH|p IH|]; [..|done]; cbn [print_pos parse_pos]; destruct (print_pos_cons p) as (a & s & E);
    rewrite E in IH |- *; by rewrite IH.
Qed.
Lemma parse_print u : parse_id (print_id u) = Some u.
Proof.
  destruct u as [|p]; [done|]. unfold parse_id, print_id. rewrite parse_print_pos.
  destruct (String.eqb_spec (print_pos p) "0") as [E|_]; [|done]. pose proof (parse_print_pos p) as Hp. by rewrite E in Hp.
Qed.
Lemma print_chars f u : f "0"%char = true → f "1"%char = true → all_chars f (print_id u) = true.
Proof. intros H0 H1. destruct u as [|p]; cbn; [by rewrite H0|]. induction p; cbn; by rewrite ?H0, ?H1. Qed.

#[global] Instance demo_platform : Platform := {|
  entropy n := N.of_nat (S n);
  uuid_to_string := print_id;
  uuid_simple := print_id;
  uuid_parse := parse_id;
  wall_clock n := Some (1000 + Z.of_nat n)%Z;
  sha256 b := b;
  umask := 18;
  from_utf8_lossy b := "";
  dir_order l := l;
|}.
#[global] Instance demo_platform_laws : PlatformLaws.
Proof.
  split; [|intros u; by apply print_chars|exact parse_print|done].
  intros u. split; [|by apply print_chars]. cbn. destruct u as [|p]; [done|]. by destruct p.
Qed.
#[global] Instance demo_ext4 : Ext4 := {|
  block_device_open c := Ok ();
  block_device_missing := "no such device";
  mkfs size label c := (Ok (), c);
  run_program program args c := Ok (Some 0%Z, default (Text []) c);
  geteuid := 1000;
|}.
#[global] Instance demo_target : Target := {| target_os := Linux; target_x86_64 := true |}.
#[global] Instance demo_limits : HostLimits := {|
  available_parallelism := Some 8%Z;
  sysconf_phys_pages := 4194304;
  sysconf_page_size := 4096;
  rlimit_nproc := Some (Some 30000%Z);
  statvfs w p := Some (26214400, 4096)%Z;
|}.

(** ** The machines

    They may stop answering, and they may refuse to stop. *)

Record Machines := mkMachines { m_answer : bool; m_stop : bool }.

Definition answer {A} (a : A) : M SandboxError (World * Machines) A := λ h,
  if m_answer h.2 then (Ok a, h) else (Err (Timeout "the guest does not answer"), h).

#[global] Instance demo_guests : GuestHost Machines := {|
  vm := (); guest := (); endpoint := (); shell_session := ();
  backend_launch request := mret ((), ());
  backend_shutdown v h := if m_stop h.2 then (Ok (), h) else (Err (Backend "shutdown failed"), h);
  guest_connect e timeout := answer ();
  guest_snapshot g := answer (mkSnapshot ∅);
  guest_sync g := answer ();
  guest_shutdown g := answer ();
  guest_list_files g p := answer [];
  guest_read_file g p limit := throw (NotFound "no such file");
  guest_write_file g p data create_parents := answer ();
  guest_make_dir g p recursive := answer ();
  guest_remove_path g p recursive := answer ();
  guest_exec g request := answer [EvOutput Stdout [Byte.x68; Byte.x69]; EvExit Success];
  guest_open_shell g request := answer ();
  guest_runtime_stats g := answer (mkStats 10 20 30 4);
  guest_timeout A n m := r ← attempt m; mret (Some r);
|}.

Lemma answer_step {A} state_dir (a : A) : keeps (machine_step state_dir) (answer a).
Proof. intros [w g]. unfold answer. cbn. destruct (m_answer g); reflexivity. Qed.

#[global] Instance demo_guest_laws state_dir : GuestLaws Machines state_dir.
Proof.
  split; intros; try apply answer_step; try (intros h; reflexivity).
  - intros [w g]. cbn. destruct (m_stop g); reflexivity.
  - intros h. specialize (H h). cbn. unfold mbind, M_bind, attempt. by destruct (m h).
Qed.

(** ** The daemon *)

Definition demo_state : path := ["var"; "sagens"].
Definition demo_policy : ExecutionPolicy := mkPolicy 1 256 128 false (Some 60000%Z).
Definition demo_guest : GuestConfig := {|
  kernel_image := "/usr/lib/sagens/kernel"; kernel_format := Elf; rootfs_image := "/usr/lib/sagens/rootfs";
  firmware := None; guest_agent_path := "/sbin/agent"; guest_vsock_port := 11000; boot_timeout := 15000000000;
  guest_uid := 65534; guest_gid := 65534; guest_tmpfs_mib := 64 |}.
Definition demo_config : RuntimeConfig := {|
  rc_state_dir := "/var/sagens"; rc_guest := demo_guest; rc_workspace := {| disk_size_mib := 64 |};
  rc_control := ControlPlaneConfig_default; rc_lifecycle := LifecycleConfig_default; rc_isolation_mode := Secure;
  rc_hardening := {| enable_landlock := true; cgroup_parent := Some "sagens"; runner_log_limit_bytes := 1048576 |};
  rc_artifact_bundle := ArtifactBundle_default; rc_default_policy := demo_policy |}.

#[global] Instance demo_lineage : WorkspaceLineageStore := local_store (checkpoints_dir demo_state).
#[global] Instance demo_lineage_spec : LineageSpec demo_lineage := local_spec (checkpoints_dir demo_state).
#[global] Instance demo_box_layout : BoxLayout demo_lineage demo_state := local_box_layout demo_state.
#[global] Instance demo_layout : StoreLayout demo_lineage demo_state := local_layout demo_state.
#[global] Instance demo_sandboxes : SandboxService RuntimeState := local_sandbox_service demo_config demo_state.
#[global] Instance demo_sandbox_laws : SandboxServiceLaws RuntimeState demo_state :=
  local_sandbox_laws demo_config demo_state.

(** An empty disk, no faults. *)
Definition demo_world : World := mkWorld ∅ [] 0 0.
Definition demo_boxes (answer stop : bool) : BoxService (R := RuntimeState) :=
  mkBoxService demo_world (mkRuntime (mkMachines answer stop) ∅ [] ∅) ∅.

Definition demo_op {A} (op : path → WorkspaceConfig → ExecutionPolicy → IsolationMode → A) : A :=
  op demo_state (rc_workspace demo_config) demo_policy Secure.

(** The state after a computation. *)
Definition after {E S A} (m : M E S A) (s : S) : S := (m s).2.

(** A client of the API: the messages it can send, by name. *)
Definition demo_decode (text : string) : Result string ClientMessage :=
  if String.eqb text "box 1" then Ok (CmAuthenticateBox 1 "11001")
  else if String.eqb text "get 1" then Ok (CmRequest (RqGetBox "a" 1))
  else if String.eqb text "get 2" then Ok (CmRequest (RqGetBox "b" 2))
  else if String.eqb text "shell 1" then Ok (CmRequest (RqOpenShell "c" 1 TBash))
  else if String.eqb text "list" then Ok (CmRequest (RqListBoxes "d"))
  else Err "expected value".

#[global] Instance demo_base64 : Base64 := {|
  base64_encode b := String.string_of_list_byte b;
  base64_decode s := Ok (String.list_byte_of_string s);
|}.
#[global] Instance demo_base64_laws : Base64Laws.
Proof. constructor. intros b. simpl. by rewrite String.list_byte_of_string_of_list_byte. Qed.

#[global] Instance demo_crates : ApiCrates := {|
  decode_client_message := demo_decode;
  image_build spec := throw (Backend "no network");
|}.

#[global] Instance demo_driver : ShellDriver RuntimeState := {|
  drv_id sh := 7%N;
  drv_events sh := [ShStarted; ShOutput [Byte.x24]; ShExit 0];
  drv_send_input sh data := mret ();
  drv_resize sh cols rows := mret ();
  drv_close sh := mret ();
|}.
#[global] Instance demo_driver_laws : ShellDriverLaws RuntimeState demo_state.
Proof. split; intros; intros h; reflexivity. Qed.

#[global] Instance demo_manager : BoxManager BoxState :=
  local_box_manager demo_state (rc_workspace demo_config) demo_policy Secure.

(** ** Facts about it *)

Lemma demo_boxes_ok answer stop : boxes_ok demo_state (demo_boxes answer stop).
Proof. split; [split; [constructor|apply map_Forall_empty]|]. done. Qed.

Lemma create_box_ok s : boxes_ok demo_state s → boxes_ok demo_state (after (demo_op create_box) s).
Proof. intros Hs. exact (proj1 (own_create_record demo_state _ demo_policy Secure None BASE_IMAGE_NAME BoxSettings_default s Hs)). Qed.

(** A BOX, and the same BOX running. *)
Definition demo_created : BoxService := after (demo_op create_box) (demo_boxes true true).
Definition demo_running : BoxService := after (demo_op start_box 1%N) demo_created.

Lemma demo_created_ok : boxes_ok demo_state demo_created.
Proof. apply create_box_ok, demo_boxes_ok. Qed.
Lemma demo_running_ok : boxes_ok demo_state demo_running.
Proof.
  pose proof (own_start demo_state (rc_workspace demo_config) demo_policy Secure 1%N demo_created demo_created_ok) as [Hok _].
  unfold demo_running, after, demo_op. exact Hok.
Qed.

(** The machines stop answering, or stopping. *)
Definition with_machines (g : Machines) (s : BoxService (R := RuntimeState)) : BoxService :=
  let r := bs_runtime s in
  mkBoxService (bs_world s) (mkRuntime g (rs_active r) (rs_warm_runs r) (rs_history r)) (bs_active s).

Lemma with_machines_ok g s : boxes_ok demo_state s → boxes_ok demo_state (with_machines g s).
Proof. intros [[Hw Ha] Hn]. by split. Qed.

(** Checking that the files of a concrete disk form a tree. *)
Lemma tree_check w : bool_decide (tree (w_fs w)) = true → tree_world w.
Proof. apply bool_decide_eq_true. Qed.

(** What a successful computation returned. *)
Definition value {E A} `{!Inhabited A} (r : Result E A) : A := match r with Ok a => a | Err _ => inhabitant end.

#[global] Instance BoxRecord_inhabited : Inhabited BoxRecord :=
  populate (mkBox 0 None "" BCreated BoxSettings_default None [] None 0 None None None).
#[global] Instance checkpoint_inhabited : Inhabited WorkspaceCheckpointRecord :=
  populate (mkCheckpoint (mkSummary "" "" None ∅ 0) None []).
#[global] Instance session_inhabited : Inhabited SandboxSessionSummary :=
  populate (mkSession 0 "" SActive demo_policy 0 None).
#[global] Instance session_record_inhabited : Inhabited SandboxSessionRecord :=
  populate (mkSessionRecord inhabitant []).

Lemma ran {E S A} `{!Inhabited A} (m : M E S A) s : is_ok (m s).1 = true → m s = (Ok (value (m s).1), after m s).
Proof. unfold after. by destruct (m s) as [[a|e] s']. Qed.
Lemma ran_unit {E S} (m : M E S ()) s : is_ok (m s).1 = true → m s = (Ok (), after m s).
Proof. unfold after. by destruct (m s) as [[[]|e] s']. Qed.
Lemma failed_run {E S A} (m : M E S A) s : is_ok (m s).1 = false → ∃ e, m s = (Err e, after m s).
Proof. unfold after. destruct (m s) as [[a|e] s']; [done|eauto]. Qed.

(** A workspace with a disk, and the lineage it starts with. *)
Definition demo_prepare (ws : string) : M SandboxError World WorkspaceLease := prepare_workspace demo_state 64 ws.
Definition demo_ws : World := after (demo_prepare "a") demo_world.
Definition demo_lease : WorkspaceLease := {| wl_workspace_id := "a"; wl_disk_path := workspace_disk demo_state "a" |}.

Lemma demo_ws_named : named (w_fs demo_ws) "a".
Proof.
  assert (Hrun : ∃ l, demo_prepare "a" demo_world = (Ok l, demo_ws)).
  { unfold demo_ws, after. destruct (demo_prepare "a" demo_world) as [[l|e] w] eqn:E; [by eexists|].
    exfalso. assert (Hok : is_ok (demo_prepare "a" demo_world).1 = true) by (vm_compute; reflexivity).
    by rewrite E in Hok. }
  destruct Hrun as [l Hrun]. assert (Ht : tree_world demo_world) by (by apply tree_check).
  destruct (prepare_ok demo_state 64 "a" demo_world l demo_ws Ht Hrun) as (_ & _ & Hs & _).
  eapply same_lineage_named; [exact Hs|]. intros id r Hr. done.
Qed.
Lemma demo_ws_tree : tree_world demo_ws.
Proof. apply tree_check. vm_compute. reflexivity. Qed.

Definition demo_checkpoint : M SandboxError World WorkspaceCheckpointRecord :=
  create_checkpoint demo_lease [] (Some "first") ∅.
Definition demo_saved : World := after demo_checkpoint demo_ws.
Definition demo_record : WorkspaceCheckpointRecord := value (demo_checkpoint demo_ws).1.

(** The guest writes to the disk. *)
Definition demo_written : World :=
  set_fs (<[workspace_disk demo_state "a" := File 384 (Text [Byte.x01])]> (w_fs demo_saved)) demo_saved.

Lemma demo_saved_tree : tree_world demo_saved.
Proof. apply tree_check. vm_compute. reflexivity. Qed.

Lemma demo_saved_named : named (w_fs demo_saved) "a".
Proof.
  assert (Hok : is_ok (demo_checkpoint demo_ws).1 = true) by (vm_compute; reflexivity).
  pose proof (ran demo_checkpoint demo_ws Hok) as Hc. fold demo_record demo_saved in Hc. unfold demo_checkpoint, demo_lease in Hc.
  destruct (create_checkpoint_ok demo_state _ _ _ _ _ _ _ demo_ws_tree Hc) as (m & d & _ & _ & Hrec & _).
  intros id r. rewrite Hrec. case_decide as Hid; [|apply demo_ws_named].
  intros Hr. apply (inj Some) in Hr. rewrite <-Hr. exact (eq_sym Hid).
Qed.

(** A second checkpoint, and then the first one deleted. *)
Definition demo_pruned : World := after (delete_checkpoint "a" "1") (after demo_checkpoint demo_saved).
