(* ===== verification/Witnesses.v ===== *)
(** * Witnesses: the properties at concrete inputs

    Each lemma applies a property on the host of [Demo]: its hypotheses hold
    there, with the model's definitions evaluated. *)

From S2P Require Import Prelude RustStd Paths FileSystem PrivateFs Auth FsTree Manifest Config Lineage Workspace Images Protocol Runtime BoxStore Boxes BoxLifecycle Stack BoxApi Daemon Server Demo.

Ltac by_vm := vm_compute; reflexivity.

(** A run that succeeds, from the evaluation of whether it does. *)
Ltac runs m s H := pose proof (ran m s) as H; specialize (H ltac:(by_vm)).
Ltac runs_unit m s H := pose proof (ran_unit m s) as H; specialize (H ltac:(by_vm)).
Ltac fails m s e H :=
  let F := fresh in pose proof (failed_run m s) as F; specialize (F ltac:(by_vm)); destruct F as [e H].

(** ** Workspaces *)

Lemma checkpoint_roundtrip_witness :
  value (restore_checkpoint demo_state 64 "a" (checkpoint_id demo_record) Rollback demo_written).1 = demo_record.
Proof.
  runs demo_checkpoint demo_ws Hc. fold demo_record demo_saved in Hc.
  unfold demo_checkpoint, demo_lease in Hc.
  runs (restore_checkpoint demo_state 64 "a" (checkpoint_id demo_record) Rollback) demo_written Hr.
  refine (proj1 (checkpoint_roundtrip demo_state 64 "a" [] (Some "first") ∅ Rollback demo_ws demo_record demo_saved
    demo_written _ _ demo_ws_tree demo_ws_named Hc _ _ Hr)).
  - apply tree_check. by_vm.
  - intros q [k ->]. unfold demo_written. cbn [w_fs set_fs]. by rewrite lookup_insert_ne.
Defined.

Lemma restore_checkpoint_spec_witness :
  Restored demo_state "a" "1" Rollback demo_record (w_fs demo_saved)
    (w_fs (after (restore_checkpoint demo_state 64 "a" "1" Rollback) demo_saved)).
Proof.
  runs (restore_checkpoint demo_state 64 "a" "1" Rollback) demo_saved Hr.
  assert (Hv : value (restore_checkpoint demo_state 64 "a" "1" Rollback demo_saved).1 = demo_record) by by_vm.
  rewrite Hv in Hr.
  exact (restore_checkpoint_spec demo_state 64 "a" "1" Rollback demo_saved _ _ demo_saved_tree demo_saved_named Hr).
Defined.

Lemma workspaces_isolated_witness :
  same_lineage (w_fs demo_saved)
    (w_fs (run_ops demo_state 64 [("b", OpPrepare); ("c", OpForkFrom "a" "1"); ("b", OpRemove)] demo_saved)) "a".
Proof.
  refine (proj2 (workspaces_isolated demo_state 64 "a" [("b", OpPrepare); ("c", OpForkFrom "a" "1"); ("b", OpRemove)]
    demo_saved _)).
  by repeat constructor.
Defined.

Lemma fork_workspace_spec_witness :
  record_at (w_fs demo_saved) "a" "1" = Some demo_record ∧
  head_at (w_fs (after (fork_workspace demo_state 64 "a" "1" "b") demo_saved)) "b" = Some None.
Proof.
  runs (fork_workspace demo_state 64 "a" "1" "b") demo_saved Hr.
  assert (Hv : value (fork_workspace demo_state 64 "a" "1" "b" demo_saved).1 = demo_record) by by_vm.
  rewrite Hv in Hr. assert (Hne : "a" ≠ "b") by done.
  destruct (fork_workspace_spec demo_state 64 "a" "1" "b" demo_saved _ _ demo_saved_tree Hne Hr) as (Hrec & _ & Hh & _).
  by split.
Defined.

Lemma delete_can_leave_dangling_head_witness :
  head_at (w_fs (after (delete_checkpoint "a" "01") demo_pruned)) "a" = Some (Some "1") ∧
  record_at (w_fs (after (delete_checkpoint "a" "01") demo_pruned)) "a" "1" = None.
Proof.
  runs_unit (delete_checkpoint "a" "01") demo_pruned Hd.
  set (r := mkCheckpoint (mkSummary "01" "a" (Some "first") ∅ 1001) (Some "1") []).
  refine (delete_can_leave_dangling_head "a" "01" "1" r demo_pruned _ _ _ _ _ _ _ _ Hd).
  - apply tree_check. by_vm.
  - assert (Hs : bool_decide (is_Some (w_fs demo_pruned !! Local.head_path (checkpoints_dir demo_state) "a")) = true)
      by by_vm. exact (bool_decide_eq_true_1 _ Hs).
  - by_vm.
  - done.
  - by_vm.
  - done.
  - by_vm.
Defined.

(** ** Paths, settings and configuration *)

Lemma resolve_stays_in_root_witness :
  ∃ names, [RootDir; Normal "workspace"; Normal "src"; Normal "main.rs"] = [RootDir; Normal "workspace"] ++ map Normal names ∧
    Forall plain_name names.
Proof. by apply (resolve_stays_in_root [RootDir; Normal "workspace"] "/workspace/src/./main.rs"). Defined.

Lemma persisted_id_is_one_component_witness :
  join [RootDir; Normal "state"] "box-1" = [RootDir; Normal "state"] ++ [Normal "box-1"] ∧ plain_name "box-1".
Proof. by apply (persisted_id_is_one_component "box-1" "workspace_id"). Defined.

Lemma normalize_relative_spec_witness : normalize_workspace_path "src/lib" = Ok ("/workspace/" ^+ "src/lib").
Proof. by rewrite (normalize_relative_spec "src/lib"). Defined.

Lemma validated_config_is_safe_witness : hardened demo_config.
Proof. by apply (validated_config_is_safe demo_config). Defined.

Lemma normalize_settings_spec_witness :
  ∃ s, normalize_settings BoxSettings_default 64 (mkCaps 8 16384 102400 4096 false) = Some s ∧ settings_ok s.
Proof.
  destruct (normalize_settings_spec BoxSettings_default 64 (mkCaps 8 16384 102400 4096 false)) as (s & Hs & Hok & _).
  - unfold caps_ok. cbn. lia.
  - lia.
  - by exists s.
Defined.

Lemma detected_caps_ok_witness : caps_ok (detect_box_caps demo_world demo_state demo_policy 64 Secure 64).
Proof.
  refine (proj1 (detected_caps_ok demo_world demo_state demo_policy 64 Secure 64 _ _)); [|lia].
  split; [cbn; lia|done].
Defined.

(** ** Credentials *)

Definition demo_admin : AdminCredential := {| ac_admin_uuid := 5; ac_admin_token := "secret" |}.
Definition demo_admins : World :=
  after (AdminStore.add_admin demo_state "ws://127.0.0.1:7000") (after (AdminStore.bootstrap demo_state demo_admin) demo_world).
Definition demo_registry : AdminRegistry :=
  default AdminStore.empty (stored AdminStore.empty (AdminStore.registry_path demo_state) demo_admins).

Lemma demo_ready w p : bool_decide (w_faults w = [] ∧ p ≠ [] ∧ parent p ≠ [] ∧ has_file_prefix (w_fs w) (parent p) = false) = true →
  match w_fs w !! p with Some (Dir _) => false | _ => true end = true → ready p w.
Proof.
  intros (Hf & Hp & Hpp & Hd)%bool_decide_eq_true Hm. split_and!; [done..|]. intros m Hw. by rewrite Hw in Hm.
Qed.

Lemma admin_store_refines_witness : refines_at demo_state (AdminSpec.Remove 5%N) demo_admins demo_registry.
Proof.
  refine (admin_store_refines demo_state (AdminSpec.Remove 5%N) demo_admins demo_registry _ I).
  split_and!; [apply demo_ready; by_vm|by_vm|]. unfold unique_admins. apply (bool_decide_eq_true_1 _). by_vm.
Defined.

Lemma remove_admin_keeps_one_witness :
  ∃ r r', stored AdminStore.empty (AdminStore.registry_path demo_state) demo_admins = Some r ∧
    stored AdminStore.empty (AdminStore.registry_path demo_state) (after (AdminStore.remove_admin demo_state 5%N) demo_admins)
      = Some r' ∧
    1 ≤ AdminStore.active_count r' ∧ AdminStore.active_count r = S (AdminStore.active_count r').
Proof.
  runs_unit (AdminStore.remove_admin demo_state 5%N) demo_admins Hr.
  exact (remove_admin_keeps_one demo_state 5%N demo_admins _ Hr).
Defined.

Lemma authenticate_sound_witness :
  ∃ r, stored AdminStore.empty (AdminStore.registry_path demo_state) demo_admins = Some r ∧ (5%N, hash_token "secret") ∈ live r.
Proof.
  runs (AdminStore.authenticate demo_state 5%N "secret") demo_admins Hr.
  assert (Hv : value (AdminStore.authenticate demo_state 5%N "secret" demo_admins).1 = true) by by_vm. rewrite Hv in Hr.
  exact (authenticate_sound demo_state 5%N "secret" demo_admins _ Hr).
Defined.

Lemma demo_box_holds : box_holds demo_state demo_world BoxCredentialStore.empty.
Proof. split_and!; [apply demo_ready; by_vm|by_vm|]. constructor. Qed.

Lemma issue_rotates_one_box_witness :
  ∃ bundle w', BoxCredentialStore.issue demo_state "ws://127.0.0.1:7000" 1%N demo_world = (Ok bundle, w') ∧ bb_box_id bundle = 1%N.
Proof.
  destruct (issue_rotates_one_box demo_state "ws://127.0.0.1:7000" 1%N demo_world _ demo_box_holds)
    as (bundle & w' & r' & Hr & _ & Hb & _). exists bundle, w'. exact (conj Hr Hb).
Defined.

Lemma box_authenticate_exact_witness :
  ∃ w', BoxCredentialStore.authenticate demo_state 1%N "guess" demo_world = (Ok false, w').
Proof.
  destruct (box_authenticate_exact demo_state 1%N "guess" demo_world _ demo_box_holds) as (w' & r' & Hr & _).
  exists w'. assert (Ha : accepts BoxCredentialStore.empty 1%N (hash_token "guess") = false) by by_vm.
  rewrite Ha in Hr. exact Hr.
Defined.

Definition demo_user_config : UserConfig :=
  {| uc_version := 1; uc_admin_uuid := 5%N; uc_admin_token := "token"; uc_endpoint := "ws://127.0.0.1:7000" |}.

Lemma user_config_roundtrip_witness :
  ∃ w1, write_user_config ["home"; "sagens"; "config.json"] demo_user_config demo_world = (Ok (), w1) ∧
    read_user_config ["home"; "sagens"; "config.json"] w1 = (Ok demo_user_config, w1).
Proof.
  destruct (user_config_roundtrip ["home"; "sagens"; "config.json"] demo_user_config demo_world) as (w1 & Hw & Hr & _).
  - apply demo_ready; by_vm.
  - exists w1. exact (conj Hw Hr).
Defined.

(** ** Sandboxes *)

Definition demo_spec : SandboxSpec := mkSandboxSpec "a" BASE_IMAGE_NAME demo_policy None.
Definition demo_service : Service (G := Machines) := fresh_service demo_world (mkMachines true true).
Definition demo_launch : M SandboxError (Service (G := Machines)) SandboxSessionSummary :=
  create_launch demo_config demo_state demo_spec.
Definition demo_active : Service := after demo_launch demo_service.
(** A session of it, with its identifier. *)
#[global] Instance managed_inhabited : Inhabited (ManagedSandbox (G := Machines)) :=
  populate (ManagedSandbox_new inhabitant (mkSnapshot ∅) (run_layout demo_state 0) demo_lease () ()).
Definition demo_session : ManagedSandbox := default inhabitant (sv_active demo_active !! 1%N).

Lemma interleaved_creates_share_workspace_witness :
  ¬ exclusive (sv_active (after demo_launch demo_active)).
Proof.
  runs demo_launch demo_service H1. fold demo_active in H1. runs demo_launch demo_active H2. unfold demo_launch in H1, H2.
  refine (proj2 (interleaved_creates_share_workspace demo_config demo_state demo_spec demo_spec demo_service _ demo_active
    _ _ eq_refl _ _ H1 H2 _)); [by_vm|by_vm|].
  apply (bool_decide_eq_true_1 _). by_vm.
Defined.

Lemma secure_sandboxes_have_no_network_witness :
  network_enabled (ss_policy (value (create_sandbox demo_config demo_state demo_spec demo_service).1)) = false.
Proof.
  runs (create_sandbox demo_config demo_state demo_spec) demo_service Hr.
  exact (proj2 (secure_sandboxes_have_no_network demo_config demo_state demo_spec demo_service _ _ Hr) eq_refl).
Defined.

Lemma destroy_sandbox_spec_witness :
  sv_active (after (destroy_sandbox demo_config 1%N) demo_active) !! 1%N = None ∧
  record_ok 1%N (value (destroy_sandbox demo_config 1%N demo_active).1).
Proof.
  runs (destroy_sandbox demo_config 1%N) demo_active Hr.
  destruct (destroy_sandbox_spec demo_config 1%N demo_session demo_active _ _ ltac:(by_vm) ltac:(by_vm) ltac:(by_vm) Hr)
    as (Ha & _ & Hok & _). exact (conj Ha Hok).
Defined.

(** The same service with machines that refuse to stop. *)
Definition demo_stubborn : Service :=
  mkService (sv_world demo_active) (mkMachines true false) (sv_active demo_active) (sv_warm_runs demo_active)
    (sv_history demo_active).

Lemma failed_shutdown_forgets_sandbox_witness :
  sv_active (after (destroy_sandbox demo_config 1%N) demo_stubborn) !! 1%N = None ∧
  sv_history (after (destroy_sandbox demo_config 1%N) demo_stubborn) !! 1%N = None.
Proof.
  fails (destroy_sandbox demo_config 1%N) demo_stubborn e Hr.
  destruct (failed_shutdown_forgets_sandbox demo_config 1%N demo_session demo_stubborn e _ ltac:(by_vm) ltac:(by_vm) Hr)
    as (Ha & Hh & _). exact (conj Ha Hh).
Defined.

Lemma exec_is_exclusive_witness :
  match exec 1%N (ExecRequest_shell "true") demo_active with
  | (Ok _, s') => exec 1%N (ExecRequest_shell "true") s' =
                    (Err (Conflict "parallel exec is not supported for a running BOX"), s')
  | (Err _, s') => sv_active s' !! 1%N = Some demo_session
  end.
Proof.
  exact (exec_is_exclusive 1%N (ExecRequest_shell "true") (ExecRequest_shell "true") demo_session demo_active
    ltac:(by_vm) ltac:(by_vm)).
Defined.

(** ** BOXes *)

Definition demo_box : BoxRecord := value (demo_op create_box (demo_boxes true true)).1.

(** The second of the writes, of the temporary file, is cut short. *)
Definition demo_torn : World :=
  let w := bs_world demo_created in
  mkWorld (w_fs w) [None; Some {| fault_error := ENOENT; fault_progress := 1; fault_survives := λ _, true |}]
    (w_draws w) (w_ticks w).

Lemma box_write_atomic_witness :
  stored_box demo_state (w_fs (after (box_write demo_state (with_status demo_box BFailed None None)) demo_torn)) 1%N =
  stored_box demo_state (w_fs demo_torn) 1%N.
Proof.
  set (r := with_status demo_box BFailed None None).
  fails (box_write demo_state r) demo_torn e Hr.
  assert (Hid : bx_box_id r = 1%N) by by_vm.
  pose proof (proj2 (box_write_atomic demo_state r demo_torn (Err e) _ Hr)) as Hs. rewrite Hid in Hs. exact Hs.
Defined.

Lemma box_list_exact_witness :
  ∃ r, stored_box demo_state (w_fs (bs_world demo_created)) 1%N = Some r ∧
    r ∈ value (box_list demo_state (bs_world demo_created)).1.
Proof.
  runs (box_list demo_state) (bs_world demo_created) Hr.
  destruct (box_list_exact demo_state (bs_world demo_created) _ _ Hr) as (_ & _ & Hall & _).
  assert (Hs : is_Some (stored_box demo_state (w_fs (bs_world demo_created)) 1%N)) by (apply (bool_decide_eq_true_1 _); by_vm).
  destruct Hs as [r Hs]. exists r. exact (conj Hs (Hall _ _ Hs)).
Defined.

(** Two BOXes. *)
Definition demo_two : BoxService := after (demo_op create_box) demo_created.


Lemma start_box_outcome_witness :
  bx_status (value (demo_op start_box 1%N demo_created).1) = BRunning ∨
  failed demo_state 1%N demo_running (value (demo_op start_box 1%N demo_created).1).
Proof.
  runs (demo_op start_box 1%N) demo_created Hr. fold demo_running in Hr. unfold demo_op at 1 in Hr.
  destruct (start_box_outcome demo_state (rc_workspace demo_config) demo_policy Secure 1%N demo_created _ _
    demo_created_ok Hr) as [[Hs _]|Hf]; [left; exact Hs|right; exact Hf].
Defined.

Lemma stop_box_stops_witness :
  bx_status (value (demo_op stop_box 1%N demo_running).1) = BStopped ∧
  bs_active (after (demo_op stop_box 1%N) demo_running) !! 1%N = None.
Proof.
  runs (demo_op stop_box 1%N) demo_running Hr. unfold demo_op at 1 in Hr.
  destruct (stop_box_stops demo_state (rc_workspace demo_config) demo_policy Secure 1%N demo_running _ _
    demo_running_ok Hr) as (_ & Hs & _ & _ & _ & _ & Ha). exact (conj Hs Ha).
Defined.

Lemma remove_box_complete_witness :
  stored_box demo_state (w_fs (bs_world (after (demo_op remove_box 1%N) demo_running))) 1%N = None ∧
  w_fs (bs_world (after (demo_op remove_box 1%N) demo_running)) !! workspace_disk demo_state (box_ws 1%N) = None.
Proof.
  runs_unit (demo_op remove_box 1%N) demo_running Hr. unfold demo_op at 1 in Hr.
  assert (Ht : tree_world (bs_world demo_running)) by (apply tree_check; by_vm).
  destruct (remove_box_complete demo_state (rc_workspace demo_config) demo_policy Secure 1%N demo_running _
    demo_running_ok Ht Hr) as (Hs & _ & Hq).
  refine (conj Hs (Hq _ _)). left. by exists ["workspace.raw"].
Defined.

(** The disk is as the daemon left it; the service starts anew. *)
Definition demo_restarted : BoxService := mkBoxService (bs_world demo_running) (mkRuntime (mkMachines true true) ∅ [] ∅) ∅.

Definition demo_new : M SandboxError (BoxService (R := RuntimeState (G := Machines))) () :=
  LocalBoxService_new demo_state (rc_workspace demo_config) demo_policy Secure.

Lemma restart_leaves_none_running_witness :
  (∃ x, stored_box demo_state (w_fs (bs_world demo_restarted)) 1%N = Some x ∧ bx_status x = BRunning) ∧
  (∃ x, stored_box demo_state (w_fs (bs_world (after demo_new demo_restarted))) 1%N = Some x ∧ bx_status x ≠ BRunning).
Proof.
  split.
  { assert (Hs : bx_status <$> stored_box demo_state (w_fs (bs_world demo_restarted)) 1%N = Some BRunning) by by_vm.
    apply fmap_Some in Hs as (x & Hx & Hs). exact (ex_intro _ x (conj Hx (eq_sym Hs))). }
  runs_unit demo_new demo_restarted Hr. unfold demo_new at 1 in Hr.
  assert (Hok : boxes_ok demo_state demo_restarted).
  { split; [split; [constructor|apply map_Forall_empty]|]. exact (proj2 demo_running_ok). }
  assert (Hs : is_Some (stored_box demo_state (w_fs (bs_world (after demo_new demo_restarted))) 1%N))
    by (apply (bool_decide_eq_true_1 _); by_vm).
  destruct Hs as [x Hx]. exists x. split; [exact Hx|].
  exact (restart_leaves_none_running demo_state (rc_workspace demo_config) demo_policy Secure demo_restarted _ Hok Hr 1%N x Hx).
Defined.

(** A running BOX whose machine does not answer. *)
Definition demo_mute : BoxService := with_machines (mkMachines false true) demo_running.

(** Its sandbox is active. *)
Definition sandbox_active (h : RuntimeState (G := Machines)) : Prop := is_Some (rs_active h !! 2%N).

Lemma stats_keep_active id h : sandbox_active h.2 → sandbox_active (rt_runtime_stats id h).2.2.
Proof.
  destruct h as [w h]. cbn. unfold serving, zoom. intros Ha.
  pose proof (with_guest_same id guest_runtime_stats (as_service (w, h))) as [Hs _]. unfold runtime_stats.
  destruct (with_guest id guest_runtime_stats (as_service (w, h))) as [r s]. cbn in *. unfold sandbox_active. cbn.
  by rewrite Hs.
Qed.

Lemma failed_stats_orphan_sandbox_witness :
  failed demo_state 1%N (after (demo_op get_box 1%N) demo_mute) (value (demo_op get_box 1%N demo_mute).1) ∧
  sandbox_active (bs_runtime (after (demo_op get_box 1%N) demo_mute)).
Proof.
  runs (demo_op get_box 1%N) demo_mute Hr. unfold demo_op at 1 in Hr.
  assert (Hok : boxes_ok demo_state demo_mute) by (apply with_machines_ok, demo_running_ok).
  refine (failed_stats_orphan_sandbox demo_state (rc_workspace demo_config) demo_policy Secure 1%N demo_mute _ _
    sandbox_active Hok Hr _ _ stats_keep_active _).
  - assert (Hb : bx_status <$> stored_box demo_state (w_fs (bs_world demo_mute)) 1%N = Some BRunning) by by_vm.
    apply fmap_Some in Hb as (r0 & Hr0 & Hs). exists r0. exact (conj Hr0 (eq_sym Hs)).
  - apply (bool_decide_eq_true_1 _). by_vm.
  - apply (bool_decide_eq_true_1 _). by_vm.
Defined.

(** The same BOX, once it has been looked at, with the machine answering again. *)
Definition demo_orphan : BoxService := with_machines (mkMachines true true) (after (demo_op get_box 1%N) demo_mute).

Lemma orphaned_box_stuck_witness : ∃ e s', demo_op start_box 1%N demo_orphan = (Err e, s').
Proof.
  assert (Hok : boxes_ok demo_state demo_orphan).
  { apply with_machines_ok.
    pose proof (own_get demo_state (rc_workspace demo_config) demo_policy Secure 1%N demo_mute) as Hg.
    destruct Hg as [Hg _]; [apply with_machines_ok, demo_running_ok|]. exact Hg. }
  assert (Ho : orphaned demo_state 1%N demo_orphan).
  { split; [by_vm|]. intros r Hr.
    assert (Hb : bx_status <$> stored_box demo_state (w_fs (bs_world demo_orphan)) 1%N = Some BFailed) by by_vm.
    rewrite Hr in Hb. cbn in Hb. injection Hb as ->. done. }
  destruct (orphaned_box_stuck demo_config demo_state (rc_workspace demo_config) demo_policy Secure 1%N demo_orphan Hok Ho)
    as [(e & s' & He & _) _]. exists e, s'. exact He.
Defined.

(** ** The API *)

(** A BOX with a credential, and a client of the daemon. *)
Definition with_credential (b : Uuid) (s : BoxService (R := RuntimeState (G := Machines))) : BoxService :=
  mkBoxService (after (BoxCredentialStore.issue demo_state "ws://127.0.0.1:7000" b) (bs_world s)) (bs_runtime s) (bs_active s).
Definition demo_issued : World * BoxState := of_boxes (with_credential 1%N demo_running).
Definition demo_conn : Connection (B := BoxState) := mkConn demo_issued None ∅ [] [] [] false.
Definition demo_events : list Event :=
  [EvFrame (FrText "box 1"); EvFrame (FrText "get 1"); EvFrame (FrText "get 2"); EvFrame (FrText "shell 1");
   EvTask 0; EvFrame (FrText "list"); EvFrame FrClose].

(** It authenticates as that BOX, and is told so. *)
Example demo_client_authenticated :
  cn_principal (handle_connection demo_state demo_guest "e" demo_events demo_conn).2 = Some (PBox 1) ∧
  head (cn_sent (handle_connection demo_state demo_guest "e" demo_events demo_conn).2) = Some (SmAuthenticated (PBox 1)).
Proof. vm_compute. split; reflexivity. Qed.

Lemma with_credential_ok b s : boxes_ok demo_state s → boxes_ok demo_state (as_boxes (of_boxes (with_credential b s))).
Proof.
  intros [Hrt Hn]. split; [exact Hrt|]. intros b' r. cbn [bs_world as_boxes of_boxes with_credential fst].
  assert (Hst : stored_box demo_state (w_fs (after (BoxCredentialStore.issue demo_state "ws://127.0.0.1:7000" b) (bs_world s))) b' =
                stored_box demo_state (w_fs (bs_world s)) b').
  { apply decode_ext, (issue_frame demo_state). intros Hp. exact (Hp b' eq_refl). }
  rewrite Hst. apply Hn.
Qed.

Lemma demo_issued_ok : boxes_ok demo_state (as_boxes demo_issued).
Proof. exact (with_credential_ok 1%N demo_running demo_running_ok). Qed.

(** What it may decode to. *)
Lemma demo_decode_as_box text m : demo_decode text = Ok m → as_box 1%N m.
Proof. unfold demo_decode. repeat destruct (String.eqb _ _); by intros [= <-]. Qed.

Lemma daemon_box_isolation_witness :
  2%N ≠ 1%N ∧
  stored_box demo_state (w_fs (cn_host (handle_connection demo_state demo_guest "e" demo_events demo_conn).2).1) 2%N =
  stored_box demo_state (w_fs demo_issued.1) 2%N.
Proof.
  assert (Hb : 2%N ≠ 1%N) by done. split; [exact Hb|].
  refine (proj1 (proj2 (daemon_box_isolation demo_state (rc_workspace demo_config) demo_policy Secure demo_guest "e" 1%N
    demo_events demo_conn _ demo_issued_ok eq_refl eq_refl) 2%N Hb)).
  intros text m _ Hm. exact (demo_decode_as_box text m Hm).
Defined.

(** Two clients of that BOX at the same time, and one whose handshake fails. *)
Definition demo_server : Server (B := BoxState) := mkServer demo_issued [] false None.
Definition demo_schedule : list ServerStep :=
  [Accepted (Ok []); At 0 (EvFrame (FrText "box 1")); Accepted (Ok []); At 1 (EvFrame (FrText "get 1"));
   At 1 (EvFrame (FrText "box 1")); At 0 (EvFrame (FrText "shell 1")); Accepted (Err "no upgrade"); At 0 (EvTask 0);
   At 1 (EvFrame (FrText "get 2")); At 0 (EvFrame FrClose); At 1 (EvFrame (FrText "list")); ShutdownSeen].

Example demo_server_runs :
  let sv := run_server demo_state demo_guest "e" demo_schedule demo_server in
  map (λ l, (cn_principal (lv_conn l), lv_open l)) (sr_conns sv) =
    [(Some (PBox 1), false); (Some (PBox 1), true); (None, false)] ∧ sr_done sv = None.
Proof. vm_compute. split; reflexivity. Qed.


Lemma box_client_confined_witness :
  confined 1%N (apart demo_state 1%N (as_boxes demo_issued)) (λ _, True)
    (handle_connection demo_state demo_guest "e" demo_events demo_conn).2.
Proof.
  refine (box_client_confined demo_state demo_guest "e" 1%N (apart demo_state 1%N (as_boxes demo_issued)) (λ _, True)
    (Serves0 := serves_one_box demo_state (rc_workspace demo_config) demo_policy Secure 1%N (as_boxes demo_issued))
    demo_events demo_conn _ _).
  - intros text m _ Hm. apply demo_decode_as_box in Hm. destruct m as [id token|b' token|request]; [done| |done].
    cbn in Hm. subst b'. intros w h Hi. split; [|done]. exact (authenticate_apart demo_state 1%N _ token w h Hi).
  - split; [split; [exact demo_issued_ok|apply others_refl]|by left|apply map_Forall_empty].
Defined.

Lemma box_principal_refused_witness :
  ∃ why, dispatch_request demo_state demo_guest "e" (RqGetBox "b" 2) (PBox 1) demo_conn = (Err (Conflict why), demo_conn).
Proof. apply (box_principal_refused demo_state demo_guest "e" 1%N (RqGetBox "b" 2) demo_conn). right. by exists 2%N. Defined.

(** A connection that relays a command. *)
Definition demo_relay : Connection (B := BoxState) :=
  mkConn demo_issued (Some (PBox 1)) ∅ [] [] [TkExec "x" [EvOutput Stdout [Byte.x68]; EvExit Success; EvOutput Stderr []]] false.

Lemma exec_relay_complete_witness :
  cn_sent (run_turns 0 2 demo_relay) =
    map SmEvent [BeExecOutput "x" Stdout (base64_encode [Byte.x68]); BeExecExit "x" Success].
Proof.
  exact (f_equal cn_sent (exec_relay_complete 0 "x" [EvOutput Stdout [Byte.x68]; EvExit Success; EvOutput Stderr []]
    demo_relay eq_refl eq_refl)).
Defined.

Lemma connection_end_and_shells_witness :
  handle_connection demo_state demo_guest "e" [EvFrame (FrError "reset")] demo_conn =
    (Err (Backend "reading box api websocket: reset"), demo_conn).
Proof.
  exact (connection_end_and_shells demo_state demo_guest "e" [EvFrame (FrError "reset")] demo_conn
    (Err (Backend "reading box api websocket: reset")) demo_conn eq_refl).
Defined.
