(* ===== verification/DemoGuest.v ===== *)
(** * DemoGuest: a concrete guest

    Instances of what the guest components are parameterized over: a
    serialization of the messages that keeps the rules of JSON lines, and a
    guest with a small file system. *)

From S2P Require Import Prelude RustStd Text Paths FileSystem PrivateFs FsTree Manifest Config Lineage Workspace Images Protocol Runtime GuestWire GuestRpc GuestFs GuestStats GuestBoot GuestExec GuestServer GuestCall Auth BoxStore Boxes BoxLifecycle Stack BoxApi Daemon Demo.

(** ** Messages *)

#[global] Instance wire_file_node : Wire FileNode.
Proof.
  apply (wire_iso (λ n, (fn_path n, fn_kind n, fn_size n, fn_digest n, fn_target n)) (λ '(a, b, c, d, e), mkFileNode a b c d e)).
  by intros [].
Defined.
#[global] Instance wire_exec_request : Wire ExecRequest.
Proof.
  apply (wire_iso (λ r, (ex_program r, ex_args r, ex_env r, ex_cwd r, ex_timeout_ms r, ex_kill_grace_ms r))
    (λ '(a, b, c, d, e, f), mkExec a b c d e f)). by intros [].
Defined.
#[global] Instance wire_shell_request : Wire ShellRequest.
Proof.
  apply (wire_iso (λ r, (sh_program r, sh_args r, sh_env r, sh_cwd r)) (λ '(a, b, c, d), mkShell a b c d)). by intros [].
Defined.
#[global] Instance wire_stats : Wire GuestRuntimeStats.
Proof.
  apply (wire_iso (λ s, (st_cpu_millicores s, st_memory_used_mib s, st_fs_used_mib s, st_process_count s))
    (λ '(a, b, c, d), mkStats a b c d)). by intros [].
Defined.
#[global] Instance wire_payload : Wire ReadFilePayload.
Proof. apply (wire_iso (λ p, (rp_path p, rp_data p, rp_truncated p)) (λ '(a, b, c), mkPayload a b c)). by intros []. Defined.
#[global] Instance wire_ready : Wire GuestRpcReady.
Proof. apply (wire_iso (λ r, (rr_protocol_version r, rr_capabilities r)) (λ '(a, b), mkReady a b)). by intros []. Defined.
#[global] Instance wire_stream : Wire OutputStream.
Proof. apply (wire_iso (λ s, match s with Stdout => true | Stderr => false end) (λ b : bool, if b then Stdout else Stderr)). by intros []. Defined.
#[global] Instance wire_exit : Wire ExecExit.
Proof.
  apply (wire_iso (λ e, match e with Success => (0, 0) | ExitCode c => (1, c) | ExecTimeout => (2, 0) | Killed => (3, 0) end)%Z
    (λ '(t, c), if (t =? 0)%Z then Success else if (t =? 1)%Z then ExitCode c else if (t =? 2)%Z then ExecTimeout else Killed)).
  by intros [].
Defined.

Definition request_to_wire (q : GuestRequest) : wire :=
  match q with
  | GqPing i => GenNode 0 [to_wire i]
  | GqExec i x r => GenNode 1 [to_wire i; to_wire x; to_wire r]
  | GqOpenShell i s r => GenNode 2 [to_wire i; to_wire s; to_wire r]
  | GqShellInput i s d => GenNode 3 [to_wire i; to_wire s; to_wire d]
  | GqResizeShell i s c r => GenNode 4 [to_wire i; to_wire s; to_wire c; to_wire r]
  | GqCloseShell i s => GenNode 5 [to_wire i; to_wire s]
  | GqSnapshotWorkspace i => GenNode 6 [to_wire i]
  | GqSyncWorkspace i => GenNode 7 [to_wire i]
  | GqRuntimeStats i => GenNode 8 [to_wire i]
  | GqListFiles i p => GenNode 9 [to_wire i; to_wire p]
  | GqReadFile i p l => GenNode 10 [to_wire i; to_wire p; to_wire l]
  | GqWriteFile i p d c => GenNode 11 [to_wire i; to_wire p; to_wire d; to_wire c]
  | GqMakeDir i p r => GenNode 12 [to_wire i; to_wire p; to_wire r]
  | GqRemovePath i p r => GenNode 13 [to_wire i; to_wire p; to_wire r]
  | GqShutdown i => GenNode 14 [to_wire i]
  end.
Definition request_of_wire (w : wire) : option GuestRequest :=
  match w with
  | GenNode 0 [i] => i ← of_wire i; Some (GqPing i)
  | GenNode 1 [i; x; r] => i ← of_wire i; x ← of_wire x; r ← of_wire r; Some (GqExec i x r)
  | GenNode 2 [i; s; r] => i ← of_wire i; s ← of_wire s; r ← of_wire r; Some (GqOpenShell i s r)
  | GenNode 3 [i; s; d] => i ← of_wire i; s ← of_wire s; d ← of_wire d; Some (GqShellInput i s d)
  | GenNode 4 [i; s; c; r] => i ← of_wire i; s ← of_wire s; c ← of_wire c; r ← of_wire r; Some (GqResizeShell i s c r)
  | GenNode 5 [i; s] => i ← of_wire i; s ← of_wire s; Some (GqCloseShell i s)
  | GenNode 6 [i] => i ← of_wire i; Some (GqSnapshotWorkspace i)
  | GenNode 7 [i] => i ← of_wire i; Some (GqSyncWorkspace i)
  | GenNode 8 [i] => i ← of_wire i; Some (GqRuntimeStats i)
  | GenNode 9 [i; p] => i ← of_wire i; p ← of_wire p; Some (GqListFiles i p)
  | GenNode 10 [i; p; l] => i ← of_wire i; p ← of_wire p; l ← of_wire l; Some (GqReadFile i p l)
  | GenNode 11 [i; p; d; c] => i ← of_wire i; p ← of_wire p; d ← of_wire d; c ← of_wire c; Some (GqWriteFile i p d c)
  | GenNode 12 [i; p; r] => i ← of_wire i; p ← of_wire p; r ← of_wire r; Some (GqMakeDir i p r)
  | GenNode 13 [i; p; r] => i ← of_wire i; p ← of_wire p; r ← of_wire r; Some (GqRemovePath i p r)
  | GenNode 14 [i] => i ← of_wire i; Some (GqShutdown i)
  | _ => None
  end.
Lemma request_of_to_wire q : request_of_wire (request_to_wire q) = Some q.
Proof. destruct q; unfold request_to_wire, request_of_wire; rewrite ?of_to_wire; cbn [mbind option_bind]; by rewrite ?of_to_wire. Qed.

Definition event_to_wire (e : GuestEvent) : wire :=
  match e with
  | GeReady r => GenNode 0 [to_wire r]
  | GePong i => GenNode 1 [to_wire i]
  | GeAck i => GenNode 2 [to_wire i]
  | GeShellOpened i s => GenNode 3 [to_wire i; to_wire s]
  | GeExecOutput x s d => GenNode 4 [to_wire x; to_wire s; to_wire d]
  | GeExecExit x s => GenNode 5 [to_wire x; to_wire s]
  | GeShellOutput s d => GenNode 6 [to_wire s; to_wire d]
  | GeShellExit s c => GenNode 7 [to_wire s; to_wire c]
  | GeWorkspaceSnapshot i l => GenNode 8 [to_wire i; to_wire l]
  | GeRuntimeStats i s => GenNode 9 [to_wire i; to_wire s]
  | GeFilesListed i l => GenNode 10 [to_wire i; to_wire l]
  | GeFileRead i f => GenNode 11 [to_wire i; to_wire f]
  | GeError i t m => GenNode 12 [to_wire i; to_wire t; to_wire m]
  end.
Definition event_of_wire (w : wire) : option GuestEvent :=
  match w with
  | GenNode 0 [r] => r ← of_wire r; Some (GeReady r)
  | GenNode 1 [i] => i ← of_wire i; Some (GePong i)
  | GenNode 2 [i] => i ← of_wire i; Some (GeAck i)
  | GenNode 3 [i; s] => i ← of_wire i; s ← of_wire s; Some (GeShellOpened i s)
  | GenNode 4 [x; s; d] => x ← of_wire x; s ← of_wire s; d ← of_wire d; Some (GeExecOutput x s d)
  | GenNode 5 [x; s] => x ← of_wire x; s ← of_wire s; Some (GeExecExit x s)
  | GenNode 6 [s; d] => s ← of_wire s; d ← of_wire d; Some (GeShellOutput s d)
  | GenNode 7 [s; c] => s ← of_wire s; c ← of_wire c; Some (GeShellExit s c)
  | GenNode 8 [i; l] => i ← of_wire i; l ← of_wire l; Some (GeWorkspaceSnapshot i l)
  | GenNode 9 [i; s] => i ← of_wire i; s ← of_wire s; Some (GeRuntimeStats i s)
  | GenNode 10 [i; l] => i ← of_wire i; l ← of_wire l; Some (GeFilesListed i l)
  | GenNode 11 [i; f] => i ← of_wire i; f ← of_wire f; Some (GeFileRead i f)
  | GenNode 12 [i; t; m] => i ← of_wire i; t ← of_wire t; m ← of_wire m; Some (GeError i t m)
  | _ => None
  end.
Lemma event_of_to_wire e : event_of_wire (event_to_wire e) = Some e.
Proof. destruct e; unfold event_to_wire, event_of_wire; rewrite ?of_to_wire; cbn [mbind option_bind]; by rewrite ?of_to_wire. Qed.

(** ** Lines: the bits of a message, then a brace *)

Definition brace : Byte.byte := Byte.x7d.
Definition line_of (w : wire) : bytes := pos_to_bytes (encode w) ++ [brace].
Definition of_line (b : bytes) : option wire := decode (pos_of_bytes (take (pred (length b)) b)).

Lemma of_line_of w : of_line (line_of w) = Some w.
Proof.
  unfold of_line, line_of. rewrite length_app. simpl. rewrite Nat.add_1_r. simpl. rewrite take_app_length.
  by rewrite pos_of_to_bytes, decode_encode.
Qed.

#[global] Instance demo_request_serde : Serde GuestRequest := {
  to_vec q := Ok (line_of (request_to_wire q));
  from_slice b := ok_or "expected value" (w ← of_line b; request_of_wire w);
}.
#[global] Instance demo_event_serde : Serde GuestEvent := {
  to_vec e := Ok (line_of (event_to_wire e));
  from_slice b := ok_or "expected value" (w ← of_line b; event_of_wire w);
}.
#[global] Instance demo_request_laws : SerdeLaws GuestRequest.
Proof. split. intros q. eexists. split; [done|]. simpl. rewrite of_line_of. simpl. by rewrite request_of_to_wire. Qed.
#[global] Instance demo_event_laws : SerdeLaws GuestEvent.
Proof. split. intros e. eexists. split; [done|]. simpl. rewrite of_line_of. simpl. by rewrite event_of_to_wire. Qed.

(** ASCII is UTF-8. *)
#[global] Instance demo_utf8 : Utf8 := {| valid_utf8 b := forallb (λ x, (Byte.to_N x <? 128)%N) b |}.

Lemma line_bytes w x : x ∈ line_of w → x = Byte.x00 ∨ x = Byte.x01 ∨ x = brace.
Proof.
  unfold line_of. rewrite elem_of_app, list_elem_of_singleton. intros [Hx|Hx]; [|by right; right].
  induction (encode w) as [p IH|p IH|]; simpl in Hx; [..|by apply not_elem_of_nil in Hx];
    apply elem_of_cons in Hx as [->|Hx]; auto.
Qed.

Lemma line_ok w : (LF ∉ line_of w) ∧ (line_of w ≠ [] ∧ last (line_of w) ≠ Some CR) ∧ (valid_utf8 (line_of w) = true).
Proof.
  split_and!.
  - intros Hx. destruct (line_bytes w LF Hx) as [?|[?|?]]; done.
  - unfold line_of. by destruct (pos_to_bytes _).
  - unfold line_of. by rewrite last_snoc.
  - simpl. apply forallb_forall. intros x Hx. apply list_elem_of_In in Hx.
    destruct (line_bytes w x Hx) as [->|[->| ->]]; done.
Qed.

#[global] Instance demo_request_lines : JsonLines GuestRequest.
Proof. split; intros q b [= <-]; destruct (line_ok (request_to_wire q)) as (? & ? & ?); done. Qed.
#[global] Instance demo_event_lines : JsonLines GuestEvent.
Proof. split; intros e b [= <-]; destruct (line_ok (event_to_wire e)) as (? & ? & ?); done. Qed.

(** ** A guest *)

(** A workspace with a file, a directory and a link out of it. *)
Definition demo_gfs : gfs :=
  <[["workspace"] := GDir]> (<[["workspace"; "notes"] := GFile [Byte.x61; Byte.x62]]>
  (<[["workspace"; "dir"] := GDir]> (<[["workspace"; "dir"; "x"] := GFile []]> (<[["etc"] := GDir]> ∅)))).
Definition demo_files : Guest := mkGuest demo_gfs [].

Definition demo_linked : Guest :=
  mkGuest (<[["workspace"; "l"] := GLink "/etc/passwd"]> demo_gfs) [].

Definition demo_boot : BootConfig := default_boot.

Definition demo_readings : Readings := mkReadings (Ok "") (Ok "") None (Ok "") (Ok (mkStatvfs 0 0 1)) (Ok []).
Definition demo_oracle : Oracle := mkOracle (Ok ()) (Ok ()) (Ok ()) demo_readings.

(** ** Runs *)

Definition event_line (e : GuestEvent) : bytes := line_of (event_to_wire e).

Definition client_after (steps : list Step) : Client := default (from_stream 0 []) (run steps (from_stream 0 [])).
Definition agent_after (g : Guest) (steps : list AStep) : Agent :=
  default (connection g []) (arun demo_boot steps (connection g [])).

Definition is_some {A} (o : option A) : bool := match o with Some _ => true | None => false end.

Lemma client_ran steps : is_some (run steps (from_stream 0 [])) = true → run steps (from_stream 0 []) = Some (client_after steps).
Proof. unfold client_after. by destruct (run steps (from_stream 0 [])). Qed.
Lemma client_ok steps : is_some (run steps (from_stream 0 [])) = true → rpc_ok (client_after steps).
Proof. intros Hr%client_ran. exact (run_ok_steps _ _ _ (rpc_ok_fresh 0 []) Hr). Qed.
Lemma agent_ran g steps :
  is_some (arun demo_boot steps (connection g [])) = true → arun demo_boot steps (connection g []) = Some (agent_after g steps).
Proof. unfold agent_after. by destruct (arun demo_boot steps (connection g [])). Qed.

(** A call under way, and a command whose stream is full while another call waits. *)
Definition demo_waiting : list Step := [SNextId; SRegister "1"; SWrite (GqPing "1")].
Definition demo_output : Step := SRead (InLine (event_line (GeExecOutput (entropy 0) Stdout "a"))).
Definition demo_full : list Step := SExec :: concat (replicate 64 [demo_output; SAct]) ++ [SRegister "1"; demo_output].

(** A shell the agent was asked for, whose waiter runs. *)
Definition demo_request (q : GuestRequest) : AStep := ARequest (Ok (Some q)) demo_oracle.
Definition demo_shell_open : list AStep := [demo_request (GqOpenShell "1" 7%N ShellRequest_default); AWait 0].

(** A command that ignores [SIGTERM]. *)
Definition stubborn_child : Child :=
  {| exits sent := match filter (λ ts, ts.2 = SIGKILL) sent with (t, _) :: _ => Some (t, WExited None) | [] => None end |}.
