(* ===== verification/GuestWitnesses.v ===== *)
(** * GuestWitnesses: the properties of the guest at concrete inputs

    Each lemma applies a property on the guest of [DemoGuest]. *)

From S2P Require Import Prelude RustStd Text Paths FileSystem PrivateFs FsTree Manifest Config Lineage Workspace Images Protocol Runtime GuestWire GuestRpc GuestFs GuestStats GuestBoot GuestExec GuestServer GuestCall Auth BoxStore Boxes BoxLifecycle Stack BoxApi Daemon Demo DemoGuest.

Ltac by_vm := vm_compute; reflexivity.

(** ** The connection *)

Lemma framing_roundtrip_witness :
  ∃ stream, frame_all [GqPing "1"; GqShutdown "2"] = Ok stream ∧
    read_messages (S (length stream)) "reading guest request" "decoding guest request" stream = ([GqPing "1"; GqShutdown "2"], Ok ()).
Proof. exact (framing_roundtrip "reading guest request" "decoding guest request" [GqPing "1"; GqShutdown "2"]). Defined.

Lemma rpc_invariant_witness :
  cl_responses (client_after demo_full) !! "1" = Some 0 ↔ cl_oneshots (client_after demo_full) !! 0 = Some (mkOneshot "1" None).
Proof. exact (proj1 (rpc_invariant 0 [] demo_full (client_after demo_full) (client_ran demo_full ltac:(by_vm))) "1" 0). Defined.

Lemma failure_answers_everyone_witness :
  ∃ message, cl_oneshots (fail_all "guest RPC connection closed" (client_after demo_waiting)) !! 0 =
    Some (os_fill (Err (Prelude.Protocol message)) (mkOneshot "1" None)).
Proof.
  destruct (failure_answers_everyone InEof (client_after demo_waiting) (fail_all "guest RPC connection closed" (client_after demo_waiting))
    (client_ok demo_waiting ltac:(by_vm)) ltac:(by_vm) ltac:(by_vm)) as (message & Hans & _).
  exists message. apply Hans. by_vm.
Defined.

Lemma stopped_reader_never_answers_witness :
  ∃ id, cl_oneshots (begin_call ClPing (client_after [SRead InEof])).2 !! 0 = Some (mkOneshot id None).
Proof.
  destruct (stopped_reader_never_answers ClPing (client_after [SRead InEof]) 0 (begin_call ClPing (client_after [SRead InEof])).2
    (client_ok [SRead InEof] ltac:(by_vm)) ltac:(by_vm) ltac:(by_vm)) as (id & Hid & _).
  exists id. exact Hid.
Defined.

Lemma full_stream_blocks_everyone_witness :
  cl_oneshots (client_after demo_full) !! 0 = Some (mkOneshot "1" None) ∧ blocked_on 0 (client_after demo_full).
Proof.
  assert (Hb : blocked_on 0 (client_after demo_full)).
  { unfold blocked_on. eexists _, _, _, _. split_and!; [by_vm|by_vm|by_vm|by_vm]. }
  split; [|exact Hb].
  refine (full_stream_blocks_everyone 0 (client_after demo_full) 0 "1" [] (client_after demo_full)
    (client_ok demo_full ltac:(by_vm)) Hb _ _ _ _); [by_vm|constructor|constructor|reflexivity].
Defined.

Definition demo_hello : GuestRpcReady := mkReady 3 capabilities.
Definition demo_early : Client := default (from_stream 0 []) (read_input (InLine (event_line (GeReady demo_hello))) (from_stream 0 [])).

Lemma early_ready_is_lost_witness : (begin_wait_ready (begin_wait_ready demo_early).2).1 = None.
Proof.
  refine (proj2 (early_ready_is_lost demo_hello (event_line (GeReady demo_hello)) (from_stream 0 []) demo_early [SSubscribe]
    (begin_wait_ready demo_early).2 eq_refl eq_refl _ _ _ _)); [by_vm|by_vm|reflexivity|].
  constructor; [|constructor]. intros (line & ready & Hst & _). discriminate Hst.
Defined.

(** ** Files *)

Definition after_write : Guest := (agent_write_file "a/b" [Byte.x63] true demo_files).2.

Lemma write_then_read_witness :
  agent_read_file "a/b" 10 after_write = (Ok (mkReadFileResult "a/b" [Byte.x63] false), after_write).
Proof.
  destruct (write_then_read "a/b" [Byte.x63] true 10 demo_files after_write ltac:(by_vm) ltac:(by_vm) ltac:(done)) as [Hr _].
  exact Hr.
Defined.

Lemma read_file_bounded_witness :
  (Z.of_nat (length (rf_data (mkReadFileResult "notes" [Byte.x61] true))) ≤ 1 ≤ MAX_READ_FILE_BYTES)%Z.
Proof.
  exact (proj1 (read_file_bounded "notes" 1 demo_files (mkReadFileResult "notes" [Byte.x61] true) demo_files ltac:(done) ltac:(by_vm))).
Defined.

(** Every entry of a map, checked one by one. *)
Lemma map_check {A} (fs : gmap path A) (P : path → A → bool) :
  forallb (λ kv, P kv.1 kv.2) (map_to_list fs) = true → ∀ k n, fs !! k = Some n → P k n = true.
Proof.
  intros Hall k n Hk. apply elem_of_map_to_list, list_elem_of_In in Hk.
  exact (proj1 (forallb_forall _ _) Hall _ Hk).
Qed.

Lemma demo_linkless : linkless demo_gfs.
Proof.
  intros k t _ Hk. pose proof (map_check demo_gfs (λ _ n, match n with GLink _ => false | _ => true end) ltac:(by_vm) k _ Hk). done.
Qed.

Lemma agent_confined_witness :
  linkless (g_fs (agent_remove_path "dir" true demo_files).2) ∧ g_fs (agent_remove_path "dir" true demo_files).2 !! ["etc"] = Some GDir.
Proof.
  destruct (agent_confined demo_files (agent_remove_path "dir" true demo_files).2 demo_linkless
    (or_intror (or_intror (ex_intro _ "dir" (ex_intro _ true eq_refl))))) as [Hl Ho].
  split; [exact Hl|]. rewrite (Ho ["etc"]); [reflexivity|]. intros [l Hp]. discriminate Hp.
Defined.

Definition plain_check (n : string) : bool :=
  negb (bool_decide (n = "")) && negb (bool_decide (n = ".")) && negb (bool_decide (n = "..")) && bool_decide (split_on slash n = [n]).
Lemma plain_checked n : plain_check n = true → plain_name n.
Proof.
  unfold plain_check, plain_name. rewrite !andb_true_iff, !negb_true_iff, !bool_decide_eq_false, bool_decide_eq_true. naive_solver.
Qed.

Lemma link_leaves_workspace_witness :
  agent_write_file "l" [Byte.x78] false demo_linked = (Ok (), mkGuest (<[["etc"; "passwd"] := GFile [Byte.x78]]> (g_fs demo_linked)) []).
Proof.
  refine (link_leaves_workspace demo_linked "l" ["etc"; "passwd"] [Byte.x78] eq_refl (plain_checked "l" eq_refl) _ _ _ _ _ _).
  - discriminate.
  - repeat constructor; apply plain_checked; reflexivity.
  - by_vm.
  - by_vm.
  - intros r [l Hl] Hne Hnr. destruct r as [|a [|b [|c r]]]; [done| |by injection Hl as <- <- <-|discriminate].
    injection Hl as <- _. by_vm.
  - left. by_vm.
Defined.

Definition gtree_check (fs : gfs) : bool :=
  forallb (λ kv, negb (bool_decide (kv.1 = [])) && forallb plain_check kv.1 &&
    match node_at fs (parent kv.1) with Some GDir => true | _ => false end) (map_to_list fs).
Lemma gtree_checked fs : gtree_check fs = true → gtree fs.
Proof.
  intros Hfs k n Hk. pose proof (map_check fs (λ k _, negb (bool_decide (k = [])) && forallb plain_check k &&
    match node_at fs (parent k) with Some GDir => true | _ => false end) Hfs k n Hk) as Hc.
  apply andb_true_iff in Hc as [[Hne%negb_true_iff%bool_decide_eq_false Hp]%andb_true_iff Hd]. split_and!; [done| |].
  - apply Forall_forall. intros s Hs. apply plain_checked. exact (proj1 (forallb_forall _ _) Hp _ (proj1 (list_elem_of_In _ _) Hs)).
  - by destruct (node_at fs (parent k)) as [[]|].
Qed.

Lemma snapshot_exact_witness :
  ∃ nodes, snapshot_workspace demo_files = (Ok nodes, demo_files) ∧ NoDup (fn_path <$> nodes).
Proof.
  destruct (snapshot_exact demo_files (gtree_checked demo_gfs ltac:(by_vm)) eq_refl eq_refl) as (nodes & Hn & _ & Hnd). exists nodes. split; [exact Hn|exact Hnd].
Defined.

Definition demo_emptied : Guest := (agent_remove_path "notes" false demo_files).2.


(** ** Load *)

Lemma cpu_millicores_nearest_witness :
  (0 ≤ cpu_millicores_used (mkSample 100 200) (mkSample 250 400) 2 ≤ 2 * 1000)%Z ∧
  cpu_millicores_used (mkSample 100 200) (mkSample 250 400) 2 = 1500%Z.
Proof.
  split; [|by_vm]. refine (proj1 (cpu_millicores_nearest (mkSample 100 200) (mkSample 250 400) 2 _ _ _ _ _));
    (split; [discriminate|vm_compute; discriminate]).
Defined.

(** ** Booting *)

Definition demo_boot_request : BackendLaunchRequest := {|
  bl_sandbox_id := 1%N; bl_run_layout := mkRun 1%N [] [] [] [] [] []; bl_guest := rc_guest demo_config;
  bl_cache_image := Some ["cache"]; bl_policy := demo_policy; bl_workspace := {| wl_workspace_id := "a"; wl_disk_path := [] |};
  bl_hardening := rc_hardening demo_config; bl_isolation_mode := Secure; bl_artifact_bundle := rc_artifact_bundle demo_config |}.

Lemma demo_numbers : runner_numbers_ok (build_runner_config demo_boot_request).
Proof. repeat split; vm_compute; discriminate. Qed.

Definition demo_cmdline : string := kernel_cmdline (build_runner_config demo_boot_request) ^+ String line_feed "".

Lemma boot_config_roundtrip_witness : read_cache_device demo_cmdline = Some "/dev/vdc".
Proof. exact (proj2 (proj2 (boot_config_roundtrip demo_boot_request demo_numbers))). Defined.

Lemma secure_guest_filters_network_witness : ∃ boot, from_cmdline demo_cmdline = Ok boot ∧ bt_network_enabled boot = false.
Proof. refine (proj2 (secure_guest_filters_network demo_boot_request demo_numbers eq_refl _)). by_vm. Defined.

Lemma no_network_filter_verdict_witness :
  seccomp_verdict (build_no_network_seccomp_filter X86_64) (mkSeccomp 41 (seccomp_audit_arch X86_64) [2; 1; 0]%Z) = Some 327681%Z.
Proof.
  exact (no_network_filter_verdict X86_64 (mkSeccomp 41 (seccomp_audit_arch X86_64) [2; 1; 0]%Z) 2 [1; 0]%Z eq_refl).
Defined.

(** ** Commands *)

Lemma stubborn_laws : child_laws 5 stubborn_child.
Proof.
  split; unfold stubborn_child; cbn [exits].
  - intros sent t s te w Hs _. rewrite filter_app. by destruct (filter _ sent) as [|[t' s'] l].
  - intros sent t s te w. rewrite filter_app. destruct (filter (λ ts, ts.2 = SIGKILL) sent) as [|[t' s'] l]; [|by left].
    destruct s; [done|]. cbn. intros [= <- <-]. by right.
  - intros sent t Hpast. rewrite filter_app. destruct (filter (λ ts, ts.2 = SIGKILL) sent) as [|[t' s'] l] eqn:E.
    + eexists t, _. split; [done|lia].
    + eexists t', _. split; [done|]. assert ((t', s') ∈ sent) as Hin by (eapply list_elem_of_filter; rewrite E; left).
      apply (proj1 (Forall_forall _ _) Hpast) in Hin. simpl in Hin. lia.
Qed.


(** ** The agent *)

Definition demo_served : list AStep := [demo_request (GqPing "1"); demo_request (GqListFiles "2" ".")].

Lemma one_answer_per_request_witness :
  omap answer_id (ag_sent (agent_after demo_files demo_served)) ++ pending (agent_after demo_files demo_served) = ["1"; "2"].
Proof.
  refine (one_answer_per_request demo_boot demo_served demo_files (agent_after demo_files demo_served)
    (agent_ran demo_files demo_served _) _); [by_vm|vm_compute; discriminate].
Defined.

(** A command killed at its timeout, whose output ends later. *)
Definition demo_exec : ExecRequest := mkExec "/bin/sh" [] ∅ "." (Some 1000%Z) 250.
Definition demo_killed : list AStep :=
  [demo_request (GqExec "1" 9%N demo_exec); AExecOutput 0 Stdout [Byte.x61]; AExecStatus 0 stubborn_child 0; AExecEof 0 Stderr].
Definition demo_reported : list AStep := demo_killed ++ [AExecEof 0 Stdout; AExecReport 0].

Lemma exec_exit_is_last_witness :
  ∃ x, ag_execs (agent_after demo_files demo_reported) !! 0 = Some x ∧ xp_status x = Some Killed ∧
    ∃ outs, exec_events 9%N (agent_after demo_files demo_reported) = outs ++ [GeExecExit 9%N Killed].
Proof.
  destruct (ag_execs (agent_after demo_files demo_reported) !! 0) as [x|] eqn:Hx; [|exfalso; revert Hx; vm_compute; discriminate].
  exists x. split; [reflexivity|].
  destruct (exec_exit_is_last demo_boot demo_reported demo_files (agent_after demo_files demo_reported) 0 x
    (agent_ran demo_files demo_reported ltac:(by_vm)) ltac:(vm_compute; discriminate)
    ltac:(vm_compute; repeat constructor; by intros ?%not_elem_of_nil) Hx) as [(outs & Ho & _) _].
  revert Ho. revert Hx. vm_compute ag_execs. intros [= <-]. intros Ho. split; [reflexivity|]. exists outs. exact Ho.
Defined.

Lemma open_output_withholds_exit_witness :
  ∃ x, ag_execs (agent_after demo_files demo_killed) !! 0 = Some x ∧ running Stdout x = true ∧ xp_reported x = false.
Proof.
  assert (∃ x, ag_execs (agent_after demo_files demo_killed) !! 0 = Some x ∧ running Stdout x = true ∧ xp_reported x = false ∧
    xp_status x = Some Killed) as (x & Hx & Hr & Hn & _).
  { eexists. split; [by_vm|]. split; [by_vm|]. split; by_vm. }
  refine (open_output_withholds_exit demo_boot [] 0 Stdout x (agent_after demo_files demo_killed) (agent_after demo_files demo_killed)
    _ Hx Hr Hn _ _ _); [by_vm|by intros ?%not_elem_of_nil|reflexivity|].
  intros [e He]. revert He. vm_compute. discriminate.
Defined.

Lemma close_waits_for_running_shell_witness :
  ∃ a1, astep demo_boot (demo_request (GqCloseShell "2" 7%N)) (agent_after demo_files demo_shell_open) = Some a1 ∧
    answers a1 = answers (agent_after demo_files demo_shell_open) ∧ ∀ input o, astep demo_boot (ARequest input o) a1 = None.
Proof.
  destruct (close_waits_for_running_shell demo_boot "2" 7%N 0 demo_oracle (agent_after demo_files demo_shell_open)
    ltac:(by_vm) ltac:(by_vm) ltac:(by_vm)) as (a1 & Hstep & Hrun).
  - eexists. split; [vm_compute; reflexivity|]. split; [reflexivity|]. split; reflexivity.
  - exists a1. split; [exact Hstep|]. destruct (Hrun [] a1 eq_refl) as (Ha & _ & Hn); [by intros w ?%not_elem_of_nil|].
    split; [exact Ha|exact Hn].
Defined.

Definition demo_guest_boot : BootConfig := default default_boot (match from_cmdline demo_cmdline with Ok b => Some b | Err _ => None end).
Definition demo_started : list AStep := [demo_request (GqExec "1" 9%N demo_exec)].
Definition demo_agent : Agent :=
  default (connection demo_files []) (arun demo_guest_boot demo_started (connection demo_files [])).


(** ** A call *)

Lemma remote_call_is_direct_witness :
  ∃ request c1 a1 line c2,
    begin_call (ClReadFile "notes" 1) (from_stream 0 []) = (Ok 0, c1) ∧
    astep demo_boot (ARequest (Ok (Some request)) demo_oracle) (connection demo_files []) = Some a1 ∧
    read_input (InLine line) c1 = Some c2 ∧
    os_value <$> cl_oneshots c2 !! 0 = Some (Some (Ok (RspFile (mkReadFileResult "notes" [Byte.x61] true)))).
Proof.
  destruct (remote_call_is_direct demo_boot (ClReadFile "notes" 1) _ demo_oracle (from_stream 0 []) (connection demo_files [])
    eq_refl ltac:(done) ltac:(repeat split) ltac:(by_vm) ltac:(by_vm))
    as (rb & request & c1 & a1 & eb & line & c2 & Hb & _ & _ & Hs & _ & _ & Hr & Ho & _).
  exists request, c1, a1, line, c2. split; [exact Hb|]. split; [exact Hs|]. split; [exact Hr|]. exact Ho.
Defined.
