(* ===== verification/RunnerWitnesses.v ===== *)
(** * RunnerWitnesses: the properties of launcher and runner on a concrete kernel

    A kernel that grants every call, with a choice for [setsid]: the value
    POSIX documents, and the [0] the runner waits for. *)

From S2P Require Import Prelude RustStd Text Paths FileSystem PrivateFs FsTree Manifest Config Lineage Workspace Images Protocol Runtime GuestBoot GuestExec Kernel SecureRunner Microvm Launch Auth BoxStore Boxes BoxLifecycle Stack BoxApi Daemon Demo GuestWire GuestRpc GuestFs GuestStats GuestServer GuestCall DemoGuest GuestWitnesses.

Ltac by_vm := vm_compute; reflexivity.

Definition demo_reply (setsid : Z) (s : Sys) : Reply :=
  let value v := mkReply v 0 EINVAL 0 [] (0, 0)%Z in
  match s with
  | Setsid => value setsid
  | FsExists _ | LandlockAbi | ReadByte _ | WriteByte _ _ => value 1
  | OpenPath _ => value 7
  | Spawn _ _ _ => value 4242
  | Pipe2 => mkReply 0 0 EINVAL 0 [] (5, 6)%Z
  | FsReadDir _ => mkReply 0 0 EINVAL 0 [Ok "0"; Ok "1"; Ok "2"; Ok "3"; Ok "9"] (0, 0)%Z
  | Sysconf_PAGESIZE => value 4096
  | _ => value 0
  end%Z.

Definition granting (setsid : Z) : Kernel := {| kernel _ s := demo_reply setsid s; machine := X86_64 |}.

#[global] Instance demo_runner_serde : Serde LibkrunRunnerConfig := {
  to_vec c := Ok (as_bytes (lk_kernel_image c));
  from_slice _ := Err "not read back";
}.

Definition demo_hardening : HardeningConfig :=
  {| enable_landlock := true; cgroup_parent := Some "/sys/fs/cgroup/sagens"; runner_log_limit_bytes := 4194304 |}.

Definition demo_secure_request : BackendLaunchRequest := {|
  bl_sandbox_id := 1%N; bl_run_layout := run_layout demo_state 1%N; bl_guest := rc_guest demo_config;
  bl_cache_image := Some ["cache"]; bl_policy := demo_policy;
  bl_workspace := {| wl_workspace_id := "a"; wl_disk_path := ["disk"] |};
  bl_hardening := demo_hardening; bl_isolation_mode := Secure; bl_artifact_bundle := rc_artifact_bundle demo_config |}.

Definition demo_runner_config : LibkrunRunnerConfig := build_runner_config demo_secure_request.

(** A run of the runner, cut at its entry into the guest: the calls after it,
    the entry, the calls before it. *)
Definition demo_run (setsid : Z) : Result Halt () * History :=
  run_from_file (H := granting setsid) 3 (Ok demo_runner_config) (Some "5") "" [].
Definition demo_result : Result Halt () := (demo_run 0).1.
Definition demo_after : History := take 1 (demo_run 0).2.
Definition demo_before : History := drop 2 (demo_run 0).2.

Lemma demo_run_cut :
  run_from_file (H := granting 0) 3 (Ok demo_runner_config) (Some "5") "" [] =
  (demo_result, demo_after ++ (Krun (krun_start_enter 0), demo_reply 0 Setsid) :: demo_before).
Proof. by_vm. Qed.

Lemma runner_filter_verdict_witness :
  seccomp_verdict (build_seccomp_filter X86_64) (mkSeccomp 59 (seccomp_audit_arch X86_64) [0; 0; 0]%Z) = Some 327681%Z.
Proof.
  exact (runner_filter_verdict X86_64 (mkSeccomp 59 (seccomp_audit_arch X86_64) [0; 0; 0]%Z) 0 [0; 0]%Z eq_refl).
Defined.


Lemma posix_setsid h : (rp_value (kernel (Kernel := granting 1) h Setsid) = -1 ∨ 0 < rp_value (kernel (Kernel := granting 1) h Setsid))%Z.
Proof. by right. Qed.

Lemma secure_runner_never_starts_witness :
  is_ok (demo_run 1).1 = false ∧ Forall (λ c, enters c.1 = false) (demo_run 1).2.
Proof.
  exact (secure_runner_never_starts (H := granting 1) 3 demo_runner_config (Some "5") "" _ _ posix_setsid eq_refl (surjective_pairing _)).
Defined.

(** ** The launcher *)

Definition demo_launch : Result Halt (Z * GuestTransportEndpoint) * History :=
  launch_self_runner (H := granting 1) demo_secure_request None (Ok "/usr/bin/sagens") [].
Definition demo_launch_result : Result Halt (Z * GuestTransportEndpoint) := demo_launch.1.
Definition demo_launched : History := demo_launch.2.
Definition demo_release : History := take 1 demo_launch.2.
Definition demo_held : History := drop 2 demo_launch.2.

Lemma demo_launch_run :
  launch_self_runner (H := granting 1) demo_secure_request None (Ok "/usr/bin/sagens") [] =
  (demo_launch_result, demo_launched).
Proof. by_vm. Qed.

Lemma demo_launch_cut :
  launch_self_runner (H := granting 1) demo_secure_request None (Ok "/usr/bin/sagens") [] =
  (demo_launch_result, demo_release ++ (WriteByte 6 1, demo_reply 1 (WriteByte 6 1)) :: demo_held).
Proof. by_vm. Qed.

Lemma runner_gated_on_cgroup_witness :
  ∃ program args pipe child,
    (Spawn program args [(RUNNER_STARTUP_FD_ENV, pretty (rp_pipe pipe).1)], child) ∈ demo_held ∧
    attached "/sys/fs/cgroup/sagens" 1%N (rp_value child) demo_policy demo_held.
Proof.
  destruct (runner_gated_on_cgroup (H := granting 1) demo_secure_request "/sys/fs/cgroup/sagens" None (Ok "/usr/bin/sagens")
    demo_launch_result demo_release 6 1 (demo_reply 1 (WriteByte 6 1)) demo_held eq_refl eq_refl demo_launch_cut)
    as (program & args & pipe & child & _ & _ & Hs & Ha).
  exists program, args, pipe, child. split; [exact Hs|exact Ha].
Defined.

Lemma launch_leaves_only_its_runner_witness :
  reaped_but (match demo_launch_result with Ok (pid, _) => Some pid | Err _ => None end) demo_launched.
Proof.
  exact (launch_leaves_only_its_runner (H := granting 1) demo_secure_request None (Ok "/usr/bin/sagens")
    demo_launch_result demo_launched demo_launch_run).
Defined.

Definition demo_secure_config : RuntimeConfig := {|
  rc_state_dir := rc_state_dir demo_config; rc_guest := rc_guest demo_config; rc_workspace := rc_workspace demo_config;
  rc_control := rc_control demo_config; rc_lifecycle := rc_lifecycle demo_config; rc_isolation_mode := Secure;
  rc_hardening := demo_hardening; rc_artifact_bundle := rc_artifact_bundle demo_config;
  rc_default_policy := rc_default_policy demo_config |}.

Definition demo_checked : History := (preflight_runtime (H := granting 1) demo_secure_config 2%N []).2.

Lemma demo_check : preflight_runtime (H := granting 1) demo_secure_config 2%N [] = (Ok (), demo_checked).
Proof. by_vm. Qed.

Lemma preflight_fail_closed_witness :
  ∃ parent, cgroup_parent demo_hardening = Some parent ∧ probed parent 2%N demo_checked.
Proof.
  destruct (proj1 (preflight_fail_closed (H := granting 1) demo_secure_config 2%N (Ok ()) demo_checked eq_refl demo_check) eq_refl)
    as (_ & _ & Hp & _). exact Hp.
Defined.

Definition demo_endpoint : GuestTransportEndpoint :=
  mkEndpoint (rl_vsock_socket (run_layout demo_state 1%N)) (guest_vsock_port (rc_guest demo_config)).

Lemma demo_launch_ok :
  launch_self_runner (H := granting 1) demo_secure_request None (Ok "/usr/bin/sagens") [] =
  (Ok (4242%Z, demo_endpoint), demo_launched).
Proof. by_vm. Qed.

Lemma secure_socket_mismatch_witness :
  ∃ socket, marks socket_of demo_before = [(ep_port demo_endpoint, display socket)] ∧
    v_root (view demo_before) ++ socket ≠ ep_socket_path demo_endpoint.
Proof.
  exact (secure_socket_mismatch (granting 1) (granting 0) 3 demo_state 1%N demo_secure_request None (Ok "/usr/bin/sagens")
    4242 demo_endpoint demo_launched (Some "5") "" demo_result demo_after 0 (demo_reply 0 Setsid) demo_before
    eq_refl eq_refl demo_launch_ok demo_run_cut).
Defined.

(** ** Ending a runner *)

(** A runner that ignores everything but [SIGKILL]. *)
Lemma shutdown_ends_runner_witness :
  ∃ r c i, shutdown EINVAL (new_process stubborn_child) (mkClock 0 [] false) = Some (r, c, i) ∧ (0 ≤ ck_now c ≤ 2005)%Z.
Proof.
  destruct (shutdown_ends_runner EINVAL 5 stubborn_child 0 stubborn_laws ltac:(done)) as (r & c & i & Hs & Ht & _).
  exists r, c, i. split; [exact Hs|exact Ht].
Defined.
