(* ===== verification/DemoApi.v ===== *)
(** * DemoApi: the messages of the BOX API on a concrete wire

    JSON as a serialization of every message of the API, with which the two ends
    of a connection understand each other. *)

From S2P Require Import Prelude RustStd Paths FileSystem PrivateFs Auth FsTree Manifest Config Lineage Workspace Images Protocol Runtime GuestWire GuestRpc GuestFs GuestStats GuestBoot GuestExec GuestServer GuestCall BoxStore Boxes BoxLifecycle Stack BoxApi BoxClient ApiCall Daemon Demo DemoGuest.

(** ** Messages *)

#[global] Instance wire_target : Wire InteractiveTarget.
Proof. apply (wire_iso (λ t, match t with TBash => true | TPython => false end) (λ b : bool, if b then TBash else TPython)). by intros []. Defined.
#[global] Instance wire_mode : Wire CheckpointRestoreMode.
Proof. apply (wire_iso (λ t, match t with Rollback => true | Replace => false end) (λ b : bool, if b then Rollback else Replace)). by intros []. Defined.
#[global] Instance wire_read_file : Wire ReadFileResult.
Proof.
  apply (wire_iso (λ f, (rf_path f, String.string_of_list_byte (rf_data f), rf_truncated f))
    (λ '(a, b, c), mkReadFileResult a (String.list_byte_of_string b) c)).
  intros []. simpl. by rewrite String.list_byte_of_string_of_list_byte.
Defined.
#[global] Instance wire_admin_bundle : Wire AdminCredentialBundle.
Proof. apply (wire_iso (λ b, (ab_admin_uuid b, ab_admin_token b, ab_endpoint b)) (λ '(a, b, c), Build_AdminCredentialBundle a b c)). by intros []. Defined.
#[global] Instance wire_box_bundle : Wire BoxCredentialBundle.
Proof. apply (wire_iso (λ b, (bb_box_id b, bb_box_token b, bb_endpoint b)) (λ '(a, b, c), Build_BoxCredentialBundle a b c)). by intros []. Defined.

Definition setting_to_wire (q : BoxSettingValue) : wire :=
  match q with
  | SetCpuCores v => GenNode 0 [to_wire v]
  | SetMemoryMb v => GenNode 1 [to_wire v]
  | SetFsSizeMib v => GenNode 2 [to_wire v]
  | SetMaxProcesses v => GenNode 3 [to_wire v]
  | SetNetworkEnabled v => GenNode 4 [to_wire v]
  end.
Definition setting_of_wire (w : wire) : option BoxSettingValue :=
  match w with
  | GenNode 0 [v] => v ← of_wire v; Some (SetCpuCores v)
  | GenNode 1 [v] => v ← of_wire v; Some (SetMemoryMb v)
  | GenNode 2 [v] => v ← of_wire v; Some (SetFsSizeMib v)
  | GenNode 3 [v] => v ← of_wire v; Some (SetMaxProcesses v)
  | GenNode 4 [v] => v ← of_wire v; Some (SetNetworkEnabled v)
  | _ => None
  end.
#[global] Instance wire_setting : Wire BoxSettingValue.
Proof.
  refine {| to_wire := setting_to_wire; of_wire := setting_of_wire |}.
  intros q. destruct q; unfold setting_to_wire, setting_of_wire; rewrite ?of_to_wire; cbn [mbind option_bind]; by rewrite ?of_to_wire.
Defined.

Definition principal_to_wire (q : Principal) : wire :=
  match q with
  | PAdmin u => GenNode 0 [to_wire u]
  | PBox u => GenNode 1 [to_wire u]
  end.
Definition principal_of_wire (w : wire) : option Principal :=
  match w with
  | GenNode 0 [u] => u ← of_wire u; Some (PAdmin u)
  | GenNode 1 [u] => u ← of_wire u; Some (PBox u)
  | _ => None
  end.
#[global] Instance wire_principal : Wire Principal.
Proof.
  refine {| to_wire := principal_to_wire; of_wire := principal_of_wire |}.
  intros q. destruct q; unfold principal_to_wire, principal_of_wire; rewrite ?of_to_wire; cbn [mbind option_bind]; by rewrite ?of_to_wire.
Defined.

Definition box_request_to_wire (q : BoxRequest) : wire :=
  match q with
  | RqPing i => GenNode 0 [to_wire i]
  | RqListBoxes i => GenNode 1 [to_wire i]
  | RqGetBox i b => GenNode 2 [to_wire i; to_wire b]
  | RqNewBox i m => GenNode 3 [to_wire i; to_wire m]
  | RqImageBuild i n a p k m f => GenNode 4 [to_wire i; to_wire n; to_wire a; to_wire p; to_wire k; to_wire m; to_wire f]
  | RqImageList i => GenNode 5 [to_wire i]
  | RqImageInspect i n => GenNode 6 [to_wire i; to_wire n]
  | RqImageRemove i n => GenNode 7 [to_wire i; to_wire n]
  | RqStartBox i b => GenNode 8 [to_wire i; to_wire b]
  | RqStopBox i b => GenNode 9 [to_wire i; to_wire b]
  | RqRemoveBox i b => GenNode 10 [to_wire i; to_wire b]
  | RqSetBoxSetting i b v => GenNode 11 [to_wire i; to_wire b; to_wire v]
  | RqExecBash i b c t k => GenNode 12 [to_wire i; to_wire b; to_wire c; to_wire t; to_wire k]
  | RqExecPython i b a t k => GenNode 13 [to_wire i; to_wire b; to_wire a; to_wire t; to_wire k]
  | RqOpenShell i b t => GenNode 14 [to_wire i; to_wire b; to_wire t]
  | RqShellInput i s d => GenNode 15 [to_wire i; to_wire s; to_wire d]
  | RqResizeShell i s c r => GenNode 16 [to_wire i; to_wire s; to_wire c; to_wire r]
  | RqCloseShell i s => GenNode 17 [to_wire i; to_wire s]
  | RqFsList i b p => GenNode 18 [to_wire i; to_wire b; to_wire p]
  | RqFsRead i b p l => GenNode 19 [to_wire i; to_wire b; to_wire p; to_wire l]
  | RqFsWrite i b p d c => GenNode 20 [to_wire i; to_wire b; to_wire p; to_wire d; to_wire c]
  | RqFsMkdir i b p r => GenNode 21 [to_wire i; to_wire b; to_wire p; to_wire r]
  | RqFsRemove i b p r => GenNode 22 [to_wire i; to_wire b; to_wire p; to_wire r]
  | RqCheckpointCreate i b n m => GenNode 23 [to_wire i; to_wire b; to_wire n; to_wire m]
  | RqCheckpointList i b => GenNode 24 [to_wire i; to_wire b]
  | RqCheckpointRestore i b k m => GenNode 25 [to_wire i; to_wire b; to_wire k; to_wire m]
  | RqCheckpointFork i b k n => GenNode 26 [to_wire i; to_wire b; to_wire k; to_wire n]
  | RqCheckpointDelete i b k => GenNode 27 [to_wire i; to_wire b; to_wire k]
  | RqShutdownDaemon i => GenNode 28 [to_wire i]
  | RqAdminAdd i => GenNode 29 [to_wire i]
  | RqBoxIssueCredentials i b => GenNode 30 [to_wire i; to_wire b]
  | RqAdminRemoveMe i => GenNode 31 [to_wire i]
  end.
Definition box_request_of_wire (w : wire) : option BoxRequest :=
  match w with
  | GenNode 0 [i] => i ← of_wire i; Some (RqPing i)
  | GenNode 1 [i] => i ← of_wire i; Some (RqListBoxes i)
  | GenNode 2 [i; b] => i ← of_wire i; b ← of_wire b; Some (RqGetBox i b)
  | GenNode 3 [i; m] => i ← of_wire i; m ← of_wire m; Some (RqNewBox i m)
  | GenNode 4 [i; n; a; p; k; m; f] => i ← of_wire i; n ← of_wire n; a ← of_wire a; p ← of_wire p; k ← of_wire k; m ← of_wire m; f ← of_wire f; Some (RqImageBuild i n a p k m f)
  | GenNode 5 [i] => i ← of_wire i; Some (RqImageList i)
  | GenNode 6 [i; n] => i ← of_wire i; n ← of_wire n; Some (RqImageInspect i n)
  | GenNode 7 [i; n] => i ← of_wire i; n ← of_wire n; Some (RqImageRemove i n)
  | GenNode 8 [i; b] => i ← of_wire i; b ← of_wire b; Some (RqStartBox i b)
  | GenNode 9 [i; b] => i ← of_wire i; b ← of_wire b; Some (RqStopBox i b)
  | GenNode 10 [i; b] => i ← of_wire i; b ← of_wire b; Some (RqRemoveBox i b)
  | GenNode 11 [i; b; v] => i ← of_wire i; b ← of_wire b; v ← of_wire v; Some (RqSetBoxSetting i b v)
  | GenNode 12 [i; b; c; t; k] => i ← of_wire i; b ← of_wire b; c ← of_wire c; t ← of_wire t; k ← of_wire k; Some (RqExecBash i b c t k)
  | GenNode 13 [i; b; a; t; k] => i ← of_wire i; b ← of_wire b; a ← of_wire a; t ← of_wire t; k ← of_wire k; Some (RqExecPython i b a t k)
  | GenNode 14 [i; b; t] => i ← of_wire i; b ← of_wire b; t ← of_wire t; Some (RqOpenShell i b t)
  | GenNode 15 [i; s; d] => i ← of_wire i; s ← of_wire s; d ← of_wire d; Some (RqShellInput i s d)
  | GenNode 16 [i; s; c; r] => i ← of_wire i; s ← of_wire s; c ← of_wire c; r ← of_wire r; Some (RqResizeShell i s c r)
  | GenNode 17 [i; s] => i ← of_wire i; s ← of_wire s; Some (RqCloseShell i s)
  | GenNode 18 [i; b; p] => i ← of_wire i; b ← of_wire b; p ← of_wire p; Some (RqFsList i b p)
  | GenNode 19 [i; b; p; l] => i ← of_wire i; b ← of_wire b; p ← of_wire p; l ← of_wire l; Some (RqFsRead i b p l)
  | GenNode 20 [i; b; p; d; c] => i ← of_wire i; b ← of_wire b; p ← of_wire p; d ← of_wire d; c ← of_wire c; Some (RqFsWrite i b p d c)
  | GenNode 21 [i; b; p; r] => i ← of_wire i; b ← of_wire b; p ← of_wire p; r ← of_wire r; Some (RqFsMkdir i b p r)
  | GenNode 22 [i; b; p; r] => i ← of_wire i; b ← of_wire b; p ← of_wire p; r ← of_wire r; Some (RqFsRemove i b p r)
  | GenNode 23 [i; b; n; m] => i ← of_wire i; b ← of_wire b; n ← of_wire n; m ← of_wire m; Some (RqCheckpointCreate i b n m)
  | GenNode 24 [i; b] => i ← of_wire i; b ← of_wire b; Some (RqCheckpointList i b)
  | GenNode 25 [i; b; k; m] => i ← of_wire i; b ← of_wire b; k ← of_wire k; m ← of_wire m; Some (RqCheckpointRestore i b k m)
  | GenNode 26 [i; b; k; n] => i ← of_wire i; b ← of_wire b; k ← of_wire k; n ← of_wire n; Some (RqCheckpointFork i b k n)
  | GenNode 27 [i; b; k] => i ← of_wire i; b ← of_wire b; k ← of_wire k; Some (RqCheckpointDelete i b k)
  | GenNode 28 [i] => i ← of_wire i; Some (RqShutdownDaemon i)
  | GenNode 29 [i] => i ← of_wire i; Some (RqAdminAdd i)
  | GenNode 30 [i; b] => i ← of_wire i; b ← of_wire b; Some (RqBoxIssueCredentials i b)
  | GenNode 31 [i] => i ← of_wire i; Some (RqAdminRemoveMe i)
  | _ => None
  end.
#[global] Instance wire_box_request : Wire BoxRequest.
Proof.
  refine {| to_wire := box_request_to_wire; of_wire := box_request_of_wire |}.
  intros q. destruct q; unfold box_request_to_wire, box_request_of_wire; rewrite ?of_to_wire; cbn [mbind option_bind]; by rewrite ?of_to_wire.
Defined.

Definition client_message_to_wire (q : ClientMessage) : wire :=
  match q with
  | CmAuthenticateAdmin u t => GenNode 0 [to_wire u; to_wire t]
  | CmAuthenticateBox u t => GenNode 1 [to_wire u; to_wire t]
  | CmRequest r => GenNode 2 [to_wire r]
  end.
Definition client_message_of_wire (w : wire) : option ClientMessage :=
  match w with
  | GenNode 0 [u; t] => u ← of_wire u; t ← of_wire t; Some (CmAuthenticateAdmin u t)
  | GenNode 1 [u; t] => u ← of_wire u; t ← of_wire t; Some (CmAuthenticateBox u t)
  | GenNode 2 [r] => r ← of_wire r; Some (CmRequest r)
  | _ => None
  end.
#[global] Instance wire_client_message : Wire ClientMessage.
Proof.
  refine {| to_wire := client_message_to_wire; of_wire := client_message_of_wire |}.
  intros q. destruct q; unfold client_message_to_wire, client_message_of_wire; rewrite ?of_to_wire; cbn [mbind option_bind]; by rewrite ?of_to_wire.
Defined.

Definition box_response_to_wire (q : BoxResponse) : wire :=
  match q with
  | RsPong => GenNode 0 []
  | RsBoxList l => GenNode 1 [to_wire l]
  | RsBox r => GenNode 2 [to_wire r]
  | RsBoxRemoved b => GenNode 3 [to_wire b]
  | RsImage m => GenNode 4 [to_wire m]
  | RsImageList l => GenNode 5 [to_wire l]
  | RsImageRemoved n => GenNode 6 [to_wire n]
  | RsFiles p l => GenNode 7 [to_wire p; to_wire l]
  | RsFile f => GenNode 8 [to_wire f]
  | RsCheckpoint k => GenNode 9 [to_wire k]
  | RsCheckpointList l => GenNode 10 [to_wire l]
  | RsShellOpened s b => GenNode 11 [to_wire s; to_wire b]
  | RsAdminAdded b => GenNode 12 [to_wire b]
  | RsBoxCredentials b => GenNode 13 [to_wire b]
  | RsAck => GenNode 14 []
  end.
Definition box_response_of_wire (w : wire) : option BoxResponse :=
  match w with
  | GenNode 0 [] => Some RsPong
  | GenNode 1 [l] => l ← of_wire l; Some (RsBoxList l)
  | GenNode 2 [r] => r ← of_wire r; Some (RsBox r)
  | GenNode 3 [b] => b ← of_wire b; Some (RsBoxRemoved b)
  | GenNode 4 [m] => m ← of_wire m; Some (RsImage m)
  | GenNode 5 [l] => l ← of_wire l; Some (RsImageList l)
  | GenNode 6 [n] => n ← of_wire n; Some (RsImageRemoved n)
  | GenNode 7 [p; l] => p ← of_wire p; l ← of_wire l; Some (RsFiles p l)
  | GenNode 8 [f] => f ← of_wire f; Some (RsFile f)
  | GenNode 9 [k] => k ← of_wire k; Some (RsCheckpoint k)
  | GenNode 10 [l] => l ← of_wire l; Some (RsCheckpointList l)
  | GenNode 11 [s; b] => s ← of_wire s; b ← of_wire b; Some (RsShellOpened s b)
  | GenNode 12 [b] => b ← of_wire b; Some (RsAdminAdded b)
  | GenNode 13 [b] => b ← of_wire b; Some (RsBoxCredentials b)
  | GenNode 14 [] => Some RsAck
  | _ => None
  end.
#[global] Instance wire_box_response : Wire BoxResponse.
Proof.
  refine {| to_wire := box_response_to_wire; of_wire := box_response_of_wire |}.
  intros q. destruct q; unfold box_response_to_wire, box_response_of_wire; rewrite ?of_to_wire; cbn [mbind option_bind]; by rewrite ?of_to_wire.
Defined.

Definition box_event_to_wire (q : BoxEvent) : wire :=
  match q with
  | BeResponse i r => GenNode 0 [to_wire i; to_wire r]
  | BeExecOutput i s d => GenNode 1 [to_wire i; to_wire s; to_wire d]
  | BeExecExit i s => GenNode 2 [to_wire i; to_wire s]
  | BeShellOutput s d => GenNode 3 [to_wire s; to_wire d]
  | BeShellExit s c => GenNode 4 [to_wire s; to_wire c]
  | BeError i m => GenNode 5 [to_wire i; to_wire m]
  end.
Definition box_event_of_wire (w : wire) : option BoxEvent :=
  match w with
  | GenNode 0 [i; r] => i ← of_wire i; r ← of_wire r; Some (BeResponse i r)
  | GenNode 1 [i; s; d] => i ← of_wire i; s ← of_wire s; d ← of_wire d; Some (BeExecOutput i s d)
  | GenNode 2 [i; s] => i ← of_wire i; s ← of_wire s; Some (BeExecExit i s)
  | GenNode 3 [s; d] => s ← of_wire s; d ← of_wire d; Some (BeShellOutput s d)
  | GenNode 4 [s; c] => s ← of_wire s; c ← of_wire c; Some (BeShellExit s c)
  | GenNode 5 [i; m] => i ← of_wire i; m ← of_wire m; Some (BeError i m)
  | _ => None
  end.
#[global] Instance wire_box_event : Wire BoxEvent.
Proof.
  refine {| to_wire := box_event_to_wire; of_wire := box_event_of_wire |}.
  intros q. destruct q; unfold box_event_to_wire, box_event_of_wire; rewrite ?of_to_wire; cbn [mbind option_bind]; by rewrite ?of_to_wire.
Defined.

Definition server_message_to_wire (q : ServerMessage) : wire :=
  match q with
  | SmAuthenticated p => GenNode 0 [to_wire p]
  | SmEvent e => GenNode 1 [to_wire e]
  end.
Definition server_message_of_wire (w : wire) : option ServerMessage :=
  match w with
  | GenNode 0 [p] => p ← of_wire p; Some (SmAuthenticated p)
  | GenNode 1 [e] => e ← of_wire e; Some (SmEvent e)
  | _ => None
  end.
#[global] Instance wire_server_message : Wire ServerMessage.
Proof.
  refine {| to_wire := server_message_to_wire; of_wire := server_message_of_wire |}.
  intros q. destruct q; unfold server_message_to_wire, server_message_of_wire; rewrite ?of_to_wire; cbn [mbind option_bind]; by rewrite ?of_to_wire.
Defined.

(** ** Text *)

Definition text_of {A} `{Wire A} (a : A) : string := String.string_of_list_byte (pos_to_bytes (encode (to_wire a))).
Definition of_text {A} `{Wire A} (s : string) : Result string A :=
  ok_or "expected value" (w ← decode (pos_of_bytes (String.list_byte_of_string s)); of_wire (A := A) w).

Lemma of_text_of {A} `{Wire A} (a : A) : of_text (text_of a) = Ok a.
Proof.
  unfold of_text, text_of. rewrite String.list_byte_of_string_of_list_byte, pos_of_to_bytes, decode_encode. simpl.
  by rewrite of_to_wire.
Qed.

Definition api_crates : ApiCrates := {|
  decode_client_message := of_text;
  image_build spec := throw (Backend "no network");
|}.
#[global] Instance demo_client_crates : ClientCrates := {|
  encode_client_message m := Ok (text_of m);
  decode_server_message := of_text;
|}.
Definition demo_codec : @ApiCodec api_crates demo_client_crates.
Proof.
  refine (@Build_ApiCodec api_crates demo_client_crates text_of _ _).
  - intros m. exists (text_of m). split; [done|]. apply (of_text_of m).
  - intros m. apply (of_text_of m).
Defined.
