(* ===== verification/ApiWitnesses.v ===== *)
(** * ApiWitnesses: the properties of the API client on a concrete daemon *)

From S2P Require Import Prelude RustStd Paths FileSystem PrivateFs Auth FsTree Manifest Config Lineage Workspace Images Protocol Runtime GuestWire GuestRpc GuestFs GuestStats GuestBoot GuestExec GuestServer GuestCall BoxStore Boxes BoxLifecycle Stack BoxApi BoxClient ApiCall Daemon Demo DemoGuest Witnesses DemoApi.
Import ApiClient.

#[local] Existing Instance api_crates | 0.
#[local] Existing Instance demo_codec | 0.

Ltac by_vm := vm_compute; reflexivity.

(** ** The client alone *)

Definition demo_auth : ClientMessage := CmAuthenticateAdmin 1 "t".
Definition shell_says (n : Z) : Step := SRead (WsText (text_of (SmEvent (BeShellOutput 7 (pretty n))))).

(** A call waits, a command runs, and a shell speaks before its caller listens. *)
Definition demo_steps : list Step :=
  [SNextId; SRegister "1"; SWrite (RqPing "1"); SExec "2"; shell_says 1; shell_says 2].
Definition demo_api : BoxApiClient := default (client_new []) (run demo_auth demo_steps (client_new [])).

Lemma demo_api_run : run demo_auth demo_steps (client_new []) = Some demo_api.
Proof. by_vm. Qed.


Lemma demo_api_ok : ∃ owners, api_ok owners demo_api.
Proof.
  destruct (api_run_ok [] demo_auth demo_steps (client_new []) demo_api (client_new_ok []) demo_api_run) as (o & _ & Ho). eauto.
Qed.

Definition demo_ended : BoxApiClient := default demo_api (read_message demo_auth WsEnd demo_api).

Lemma demo_ended_run : read_message demo_auth WsEnd demo_api = Some demo_ended ∧ ac_reading demo_ended = false.
Proof. split; by_vm. Qed.

Lemma connection_end_tells_everyone_witness :
  is_Some (ac_auth demo_ended) ∧ ac_state demo_ended = ClientState_default.
Proof.
  destruct demo_api_ok as [owners Hok].
  destruct (connection_end_tells_everyone owners demo_auth WsEnd demo_api demo_ended Hok (proj1 demo_ended_run) (proj2 demo_ended_run))
    as (Ha & Hs & _). exact (conj Ha Hs).
Defined.

Lemma early_shell_events_kept_witness :
  ∃ c2, run demo_auth [SShell 7; SReplay 0; SReplay 0] demo_api = Some c2 ∧
    ac_chans c2 !! 1 = Some (mkChan [BeShellOutput 7 "1"; BeShellOutput 7 "2"] 0 true).
Proof.
  assert (Hcalm : Forall (calm 7) demo_steps) by (repeat constructor).
  destruct (early_shell_events_kept demo_auth 7 demo_steps (client_new []) demo_api eq_refl eq_refl Hcalm demo_api_run
    ltac:(by_vm) ltac:(apply (bool_decide_eq_true_1 _); by_vm)) as (c2 & Hrun & _ & _ & Hc).
  exists c2. exact (conj Hrun Hc).
Defined.

Definition loud_steps : list Step := replicate 65 (shell_says 1).
Definition loud_api : BoxApiClient := default (client_new []) (run demo_auth loud_steps (client_new [])).

Lemma loud_api_over : 64 < length (buffered 7 loud_api) ∧ state_locked loud_api = false.
Proof. split; [apply (bool_decide_eq_true_1 _)|]; by_vm. Qed.

Definition stuck_steps : list Step := SShell 7 :: replicate 64 (SReplay 0).
Definition stuck_api : BoxApiClient := default (client_new []) (run demo_auth stuck_steps loud_api).

Lemma stuck_api_run : run demo_auth stuck_steps loud_api = Some stuck_api.
Proof. by_vm. Qed.

Lemma overfull_replay_never_ends_witness : ∃ event rest, ac_replays stuck_api !! 0 = Some (0, event :: rest).
Proof.
  assert (Hall : Forall (λ st, st ≠ STake 0 ∧ st ≠ SDrop 0) (replicate 64 (SReplay 0))) by by apply Forall_replicate.
  exact (overfull_replay_never_ends demo_auth 7 (replicate 64 (SReplay 0)) loud_api stuck_api (proj1 loud_api_over)
    (proj2 loud_api_over) Hall stuck_api_run).
Defined.

(** ** The client and the daemon *)

Definition demo_server : Connection (B := BoxState) := mkConn (of_boxes demo_running) (Some (PAdmin 1)) ∅ [] [] [] false.

Lemma client_ready : ready_api (client_new []).
Proof. by split_and!. Qed.

Lemma api_call_is_direct_witness :
  ∃ id c1 c2 d, begin_op list_boxes (client_new []) = (Ok (id, 0), c1) ∧
    ac_oneshots c2 !! 0 = Some (mkOneshot id (Some d)) ∧
    finish_op list_boxes id d = over_api (for_admin (PAdmin 1) bm_list_boxes (of_boxes demo_running)).1.
Proof.
  destruct (api_call_is_direct demo_state demo_guest "e" demo_auth (PAdmin 1) _ list_boxes (for_admin (PAdmin 1) bm_list_boxes)
    (client_new []) demo_server (im_list_boxes _ _ _ _) client_ready eq_refl eq_refl)
    as (id & text & c1 & closes & s1 & event & c2 & d & Hb & _ & _ & _ & _ & _ & Ho & Hf).
  exists id, c1, c2, d. exact (conj Hb (conj Ho Hf)).
Defined.

Definition hi : list ExecutionEvent := [EvOutput Stdout [Byte.x68; Byte.x69]; EvExit Success].

Lemma demo_exec_stream : (bm_exec 1%N (bash_exec "echo hi" None None) (of_boxes demo_running)).1 = Ok hi.
Proof. by_vm. Qed.

Lemma api_exec_is_direct_witness :
  ∃ id events, collect_exec id collect_start events = Done (Ok (collect hi)).
Proof.
  destruct (bm_exec 1%N (bash_exec "echo hi" None None) (of_boxes demo_running)) as [r h] eqn:E.
  assert (r = Ok hi) as -> by (pose proof demo_exec_stream as Hr; rewrite E in Hr; exact Hr).
  assert (Hx : ∃ status, EvExit status ∈ hi) by (exists Success; right; left).
  destruct (api_exec_is_direct demo_state demo_guest "e" demo_auth (PAdmin 1) _ 1%N _ hi h (client_new []) demo_server
    (runs_bash 1%N "echo hi" None) client_ready eq_refl eq_refl eq_refl E Hx)
    as (id & ch & text & c1 & s1 & events & c2 & _ & _ & _ & _ & messages & _ & _ & _ & Hc).
  exists id, events. exact Hc.
Defined.
