(* ===== verification/CliWitnesses.v ===== *)
(** * CliWitnesses: the properties of the command line on a concrete host *)

From S2P Require Import Prelude RustStd Text Paths FileSystem PrivateFs Auth FsTree Manifest Config Lineage Workspace Images Protocol Runtime GuestFs BoxStore Boxes BoxLifecycle Stack BoxApi BoxClient HostConfig Cli Update Transfer Launcher App Daemon Demo DemoGuest.

Ltac by_vm := vm_compute; reflexivity.

(** ** An environment *)

Definition demo_variable (name : string) : option string :=
  if String.eqb name "SAGENS_CGROUP_PARENT" then Some "/sys/fs/cgroup/sagens" else None.

Definition demo_addr : SocketAddr := {| addr_ip := V4 127 0 0 1; addr_port := 7000 |}.

#[local] Instance demo_env : HostEnv := {|
  env_var := demo_variable;
  is_file _ := true;
  file_bytes _ := Some [Byte.x7f; Byte.x45; Byte.x4c; Byte.x46];
  arch := "x86_64";
  workspace_root := "/src";
  has_embedded_assets := false;
  parse_socket_addr s :=
    match strip_prefix "127.0.0.1:" s with
    | Some p => match parse_uint 65535 p with Some port => Ok {| addr_ip := V4 127 0 0 1; addr_port := port |} | None => Err "invalid" end
    | None => Err "invalid socket address syntax"
    end;
|}.

Definition demo_runtime : Result SandboxError RuntimeConfig := build_runtime_config_for_endpoint "/var/sagens" "ws://127.0.0.1:7000".
Definition demo_rc : RuntimeConfig := match demo_runtime with Ok c => c | Err _ => demo_config end.

Lemma demo_runtime_ok : demo_runtime = Ok demo_rc.
Proof. by_vm. Qed.

Lemma config_fail_closed_witness :
  rc_isolation_mode demo_rc = Secure ∧ is_loopback (addr_ip (bind_addr (rc_control demo_rc))) = true.
Proof.
  destruct (config_fail_closed "/var/sagens" "ws://127.0.0.1:7000" demo_rc demo_runtime_ok) as (_ & Hd & _ & Hv).
  split; [exact (proj1 (Hd eq_refl))|]. refine (proj1 (Hv _)). by_vm.
Defined.

Lemma endpoint_is_bound_witness : allow_remote_bind (rc_control demo_rc) = false.
Proof.
  destruct (endpoint_is_bound "/var/sagens" "ws://127.0.0.1:7000" demo_rc demo_runtime_ok) as (text & _ & _ & Hr). exact Hr.
Defined.

(** ** Command lines *)

Definition demo_line : Command := CmdBox (BxSet (mkBoxSet (Some 5%N) (SetMemoryMb 512))).


Lemma parsed_command_typed_witness : command_wf (CmdBox (BxSet (mkBoxSet (Some 5%N) (SetMemoryMb 1000)))).
Proof.
  refine (parsed_command_typed (λ _, "") ["box"; "set"; uuid_to_string 5%N; "ram"; "1_0_0_0mib"]
    (CmdBox (BxSet (mkBoxSet (Some 5%N) (SetMemoryMb 1000)))) _). by_vm.
Defined.

Lemma help_flag_shows_help_witness : parse (λ _, "") ["box"; "exec"; "-h"] = Ok (CmdHelp HtBoxExec).
Proof.
  assert (Hin : (["box"; "exec"], HtBoxExec) ∈ help_topics) by (apply (list_elem_of_lookup_2 help_topics 22); reflexivity).
  refine (proj1 (help_flag_shows_help (λ _, "") ["box"; "exec"] HtBoxExec "-h" Hin eq_refl _ _));
    apply (bool_decide_eq_true_1 _); by_vm.
Defined.

(** ** The self-update *)

Definition old_binary : bytes := [Byte.x6f].
Definition new_binary : bytes := replicate 32 Byte.x6e.
Definition asset : string := "sagens-v2-linux-x86_64".
Definition demo_entries : list (bytes * string) := [(new_binary, asset)].

#[local] Instance demo_update_host : UpdateHost := {|
  current_exe := Ok ["bin"; "sagens"];
  os_name := "linux";
  process_id := 42%Z;
  built_release_repo := None;
  http_client_error := None;
  http_send n url := Ok (mkResponse 200 (Ok (if decide (n = 0) then "release" else render_manifest demo_entries)) (Ok new_binary));
  status_text _ := "";
  parse_release _ := Ok (mkRelease "v2" [mkAsset asset "https://x/binary"; mkAsset (asset ^+ ".sha256") "https://x/sums"]);
  run_help _ := mret (true, "");
  read_size _ := 0%Z;
|}.

Definition update_world (faults : list (option Fault)) : World :=
  mkWorld {[ ["bin"] := Dir 493; ["bin"; "sagens"] := File 493 (Text old_binary) ]} faults 0 0.
Definition demo_update (faults : list (option Fault)) : Result SandboxError SelfUpdateOutcome * UpdateState :=
  run_self_update (mkUpdate (update_world faults) 0).

Lemma manifest_roundtrip_witness : parse_sha256_manifest (render_manifest demo_entries) asset = Ok new_binary.
Proof.
  assert (Hall : Forall (λ e, length e.1 = 32 ∧ release_file e.2) demo_entries).
  { repeat constructor; done. }
  exact (manifest_roundtrip demo_entries asset Hall).
Defined.

Lemma demo_updates :
  demo_update [] = ((demo_update []).1, (demo_update []).2) ∧
  out_action <$> (match (demo_update []).1 with Ok o => Some o | Err _ => None end) = Some Updated.
Proof. split; [by destruct (demo_update [])|by_vm]. Qed.

Lemma staging_not_scratch : ¬ False ∧ ∀ q : path, staging ["bin"; "sagens"] q → ¬ False.
Proof. split; [intros []|intros q _ []]. Qed.


(** A failed write of the staged binary leaves a part of it behind, and is retried under another name. *)
Definition full_disk : Fault := {| fault_error := ENOENT; fault_progress := 5; fault_survives := λ _, true |}.
Lemma failed_staging_leaks :
  is_ok (demo_update [None; None; None; None; None; Some full_disk]).1 = false ∧
  w_fs (up_world (demo_update [None; None; None; None; None; Some full_disk]).2) !! ["bin"; ".sagens.update-42-0"] =
    Some (File 420 (Text (replicate 4 Byte.x6e))).
Proof. split; by_vm. Qed.

(** ** Transfers *)

Definition home : path := ["home"; "u"].
Definition home_world : World :=
  mkWorld {[ ["home"] := Dir 493; home := Dir 493; home ++ ["in"] := Dir 493; home ++ ["in"; "a"] := File 420 (Text [Byte.x61]);
             home ++ ["out"] := Dir 493; home ++ ["x"] := File 384 (Text [Byte.x78]) ]} [] 0 0.

#[local] Existing Instance guest_files.

Lemma home_tree : tree (w_fs home_world).
Proof. apply (bool_decide_eq_true_1 _). by_vm. Qed.

Definition local_in : PathBuf := [Normal "in"].
Definition local_a : PathBuf := [Normal "in"; Normal "a"].


Definition uploaded : Result SandboxError () * (World * Guest) := upload_path home 1%N local_a "up" (home_world, demo_files).

Lemma uploaded_ok : uploaded = (Ok (), (home_world, uploaded.2.2)) ∧ g_faults uploaded.2.2 = [].
Proof. split; by_vm. Qed.


(** A BOX that lists one honest file. *)
#[local] Instance honest_files : RemoteFiles () := {|
  list_files _ _ := mret [mkFileNode "docs/a" FkFile 1 None None];
  read_file _ p _ := mret (mkReadFileResult p [Byte.x61] false);
  write_file _ _ _ _ := mret ();
  make_dir _ _ _ := mret ();
|}.

Lemma download_confined_witness :
  w_fs (download_path home 1%N "/workspace" [Normal "out"] (home_world, ())).2.1 !! (home ++ ["x"]) = Some (File 384 (Text [Byte.x78])).
Proof.
  assert (Hl : last [Normal "out"] ≠ Some ParentDir) by discriminate.
  assert (He : ∀ es r', list_files 1%N "/workspace" () = (Ok es, r') → Forall entry_plain es).
  { intros es r' [= <- _]. repeat constructor. }
  refine (proj1 (download_confined home 1%N "/workspace" [Normal "out"] home_world () Hl He) (home ++ ["x"]) _ _ _).
  - vm_compute. intros [k E]. discriminate E.
  - by_vm.
Defined.

(** ** The launcher *)

(** Milliseconds slept so far. *)
Fixpoint slept (h : list Event) : Z :=
  match h with
  | [] => 0
  | Ev (Sleep ms) _ :: h' => Z.max 0 ms + slept h'
  | _ :: h' => slept h'
  end%Z.

Fixpoint spawned (h : list Event) : bool :=
  match h with [] => false | Ev (Spawn _) _ :: _ => true | _ :: h' => spawned h' end.

(** A daemon answers once it was spawned; its old port is taken. *)
Definition demo_answer {T} (h : list Event) (a : Act T) : T :=
  match a with
  | Connect _ | ListBoxes _ => if spawned h then Ok () else Err (Backend "connection refused")
  | ShutdownDaemon _ => Ok ()
  | Kill _ _ => Err ESRCH
  | CommandOf _ => None
  | BindTcp _ => AddrInUse
  | BindPort _ => Ok (Ok 7001%Z)
  | Now => slept h
  | Sleep _ => ()
  | Spawn _ => Ok ()
  | CheckBinary _ => Ok ()
  | Preflight _ _ => Ok ()
  end.

#[local] Instance demo_daemon_host : DaemonHost := {|
  Launcher.answer T h a := demo_answer h a;
  self_pid := 42%Z;
  utf8_text _ := Some "";
  ip_text ip := match ip with V4 _ _ _ _ => "127.0.0.1" | V6 _ => "::1" end;
|}.

Lemma slept_app ext h : (slept h ≤ slept (ext ++ h))%Z.
Proof. induction ext as [|[T a t] ext IH]; [done|]. destruct a; simpl; lia. Qed.

#[local] Instance demo_clock : ClockLaws.
Proof.
  split.
  - intros h ext t ->. cbn [Launcher.answer demo_daemon_host demo_answer]. etrans; [|apply slept_app]. done.
  - intros h ext mid t ms ->. cbn [Launcher.answer demo_daemon_host demo_answer]. etrans; [|apply slept_app]. simpl.
    pose proof (slept_app mid (Ev Now (slept h) :: h)) as Hm. simpl in Hm. lia.
Qed.

#[local] Instance demo_addr_laws : AddrLaws.
Proof.
  split.
  - intros text addr a b c d port Hp Hip Hport. cbn [parse_socket_addr demo_env] in *.
    destruct (strip_prefix "127.0.0.1:" text) as [p|]; [|done]. destruct (parse_uint 65535 p); [|done].
    injection Hp as <-. cbn [addr_ip ip_text demo_daemon_host].
    change ("127.0.0.1" ^+ ":" ^+ pretty port) with ("127.0.0.1:" ^+ pretty port).
    by rewrite strip_prefix_app, parse_uint_pretty.
  - done.
  - intros h ip port [= <-]. lia.
Qed.

Definition demo_paths : SagensPaths :=
  mkPaths "/var/sagens" "/var/sagens/config.json" "ws://127.0.0.1:7000" "/var/sagens/daemon.pid" "/var/sagens/daemon.log".
Definition demo_launch : LS := (demo_world, []).

Definition started : Result SandboxError (UserConfig * bool) * LS := ensure_started [] demo_paths "/bin/sagens" demo_launch.
Definition started_config : option UserConfig := match started.1 with Ok (c, false) => Some c | _ => None end.

Lemma started_ok : started = (started.1, started.2) ∧ is_Some started_config.
Proof. split; [by destruct started|]. apply (bool_decide_eq_true_1 _). by_vm. Qed.

Lemma start_is_gated_witness :
  ∃ config, Ev (Spawn (daemon_command [] demo_paths "/bin/sagens" config)) (Ok ()) ∈ started.2.2.
Proof.
  destruct started_ok as [Hrun [config Hc]].
  destruct (start_is_gated [] demo_paths "/bin/sagens" demo_launch started.1 started.2 Hrun) as [_ Hs].
  exists config. apply Hs. unfold started_config in Hc. destruct (started.1) as [[c []]|]; try discriminate Hc. by injection Hc as ->.
Defined.

Definition demo_user : UserConfig :=
  {| uc_version := 1; uc_admin_uuid := 1%N; uc_admin_token := "t"; uc_endpoint := "ws://127.0.0.1:7000" |}.


Definition recovered : Result SandboxError UserConfig * LS := recover_startup_state [] demo_paths demo_user demo_launch.

Lemma recovered_ok : recovered = (Ok (with_endpoint demo_user "ws://127.0.0.1:7001"), recovered.2).
Proof. by_vm. Qed.

Lemma endpoint_recovery_witness :
  ∃ port, parse_endpoint_addr "ws://127.0.0.1:7001" = Ok {| addr_ip := V4 127 0 0 1; addr_port := port |}.
Proof.
  destruct (endpoint_recovery [] demo_paths demo_user demo_launch _ _ ltac:(discriminate) recovered_ok)
    as [He|(_ & addr & port & Ha & _ & He & _ & Hm)]; [discriminate He|].
  assert (addr = demo_addr) as -> by (vm_compute in Ha; by injection Ha as <-). exists port. exact Hm.
Defined.

(** ** The log *)

Lemma follow_shows_all_witness :
  [Byte.x61; Byte.x62; Byte.x63] =
  [Byte.x61] ++ concat (map snd (follow_log [Some (2%Z, [Byte.x61; Byte.x62]); None; Some (3%Z, [Byte.x61; Byte.x62; Byte.x63])] 1)).
Proof.
  refine (proj2 (proj2 (follow_shows_all [Byte.x61; Byte.x62; Byte.x63] [Byte.x61]
    [Some (2%Z, [Byte.x61; Byte.x62]); None; Some (3%Z, [Byte.x61; Byte.x62; Byte.x63])] _ _)) eq_refl).
  - by exists [Byte.x62; Byte.x63].
  - repeat split; try (simpl; lia); [by exists [Byte.x63]|by exists []].
Defined.

Lemma tail_is_last_lines_witness : render_log_bytes [] (Some 5%Z) = Some "".
Proof. exact (proj1 (tail_is_last_lines [] 5 ltac:(vm_compute; split; discriminate))). Defined.
