(* ===== verification/ForegroundWitnesses.v ===== *)
(** * ForegroundWitnesses: the daemon, its bundle and its checks on a concrete host

    The state directory holds a BOX that was running when the daemon before this
    one ended, and its credential.  The kernel grants every call. *)

From S2P Require Import Prelude RustStd Text Paths FileSystem PrivateFs Auth FsTree Manifest Config Lineage Workspace Images Protocol Runtime GuestBoot GuestExec Kernel SecureRunner Microvm Launch Harness BoxStore Boxes BoxLifecycle Stack BoxApi HostConfig GuestFs Transfer Bundle Launcher Update Cli App Daemon Server Foreground Demo Witnesses RunnerWitnesses CliWitnesses.

Ltac by_vm := vm_compute; reflexivity.

#[local] Existing Instance demo_env.
#[local] Existing Instance demo_daemon_host.

(** ** The host *)

Definition demo_kernel_asset : EmbeddedAsset := mkEmbedded "kernel" [Byte.x7f] CompressionNone 420.

#[local] Instance demo_embedded : Embedded := {|
  KERNEL := Some demo_kernel_asset; ROOTFS := None; FIRMWARE := None;
  zstd_decode_all b := Ok b;
|}.

#[local] Instance demo_info_serde : Serde DaemonRuntimeInfo := {
  to_vec i := Ok [match di_isolation_mode i with Compat => Byte.x00 | Secure => Byte.x01 end];
  from_slice _ := Err "not read back";
}.

(** A system on which the address is free, or taken. *)
Definition demo_system (bound : Result IoError (Result IoError SocketAddr)) : DaemonSystem := {|
  check_binary _ := Ok ();
  listen _ := bound;
  socket_text _ := "127.0.0.1:7000";
|}.

Definition demo_shells (config : RuntimeConfig) (state_dir : path) :
    @ShellDriver RuntimeState (local_sandbox_service (G := Machines) config state_dir) := {|
  drv_id _ := 7%N;
  drv_events _ := [ShStarted; ShOutput [Byte.x24]; ShExit 0];
  drv_send_input _ _ := mret ();
  drv_resize _ _ _ := mret ();
  drv_close _ := mret ();
|}.

Lemma demo_shells_laws config : @ShellDriverLaws RuntimeState demo_state
  (local_sandbox_service (G := Machines) config demo_state) (demo_shells config demo_state) (local_sandbox_laws config demo_state).
Proof. split; intros; intros h; reflexivity. Qed.

(** ** The daemon *)

Definition demo_fg : Fg (G := Machines) := mkFg (demo_issued.1, []) [] (mkRuntime (mkMachines true true) ∅ [] ∅, ∅).

Lemma demo_fg_named b r : stored_box demo_state (w_fs (fg_ls demo_fg).1) b = Some r → bx_box_id r = b.
Proof. exact (proj2 demo_issued_ok b r). Qed.

Definition demo_prepared (bound : Result IoError (Result IoError SocketAddr)) :
    Result SandboxError (RuntimeConfig * RuntimeConfig * GuestConfig) * Fg (G := Machines) :=
  prepare (system := demo_system bound) (host_kernel := granting 1) [] (λ _, "")
    (mkMachines true true) demo_paths "/bin/sagens" demo_fg.
Definition demo_daemon (bound : Result IoError (Result IoError SocketAddr)) (early later : list ServerStep) :
    Result SandboxError DaemonEnd * Fg (G := Machines) :=
  run_foreground (system := demo_system bound) (host_kernel := granting 1) demo_shells [] (λ _, "")
    (mkMachines true true) demo_paths "/bin/sagens" early later demo_fg.

(** One client, before and after the runtime information is written. *)
Definition demo_early : list ServerStep := [Accepted (Ok []); At 0 (EvFrame (FrText "box 1"))].
Definition demo_later : list ServerStep := [At 0 (EvFrame (FrText "get 1")); At 0 (EvFrame (FrText "get 2")); AcceptFailed EINVAL].
Definition free : Result IoError (Result IoError SocketAddr) := Ok (Ok demo_addr).

Lemma demo_clients steps : box_clients (λ _, 1%N) steps.
Proof. intros i text m _ Hm. exact (demo_decode_as_box text m Hm). Qed.

(** The accept loop fails in the end; until then it served. *)
Lemma demo_daemon_ran :
  demo_daemon free demo_early demo_later = (Err (Io "accepting box api connection" EINVAL), (demo_daemon free demo_early demo_later).2) ∧
  is_ok (demo_prepared free).1 = true ∧ (demo_daemon free demo_early (take 2 demo_later)).1 = Ok StillServing.
Proof. split_and!; by_vm. Qed.

Lemma demo_bundle_plain : plain_name (default "sagens" (env_var "SAGENS_BUNDLE_ID")).
Proof. split_and!; done. Qed.

Lemma demo_assets_plain : Forall plain_name (ea_file_name <$> needed_assets guest_config).
Proof. assert (needed_assets guest_config = []) as -> by by_vm. constructor. Qed.


(** A second daemon, which finds the address taken. *)
Definition taken : Result IoError (Result IoError SocketAddr) := Err EINVAL.

Lemma second_daemon_clobbers_witness :
  bx_status <$> stored_box demo_state (w_fs (fg_ls demo_fg).1) 1%N = Some BRunning ∧
  (demo_daemon taken [] []).1 = Err (Io "binding box api websocket listener" EINVAL) ∧
  ∃ m, w_fs (fg_ls (demo_daemon taken [] []).2).1 !! ["var"; "sagens"; "daemon.pid"] =
    Some (File m (Text (as_bytes ("42" ^+ String line_feed "")))).
Proof.
  split; [by_vm|]. destruct (demo_prepared taken) as [[[[config resolved] guest]|e] s1] eqn:Hp.
  2:{ exfalso. assert (Hok : is_ok (demo_prepared taken).1 = true) by by_vm. rewrite Hp in Hok. discriminate Hok. }
  unfold demo_prepared in Hp.
  destruct (second_daemon_clobbers (system := demo_system taken) (host_kernel := granting 1) demo_shells [] (λ _, "") (mkMachines true true)
    demo_paths "/bin/sagens" eq_refl demo_bundle_plain demo_assets_plain demo_shells_laws [] [] demo_fg config resolved guest s1 EINVAL demo_fg_named Hp eq_refl)
    as (Hrun & [m Hm] & _).
  unfold demo_daemon. rewrite Hrun. split; [reflexivity|]. exists m. exact Hm.
Defined.
