(* ===== verification/ImageWitnesses.v ===== *)
(** * ImageWitnesses: a build of an image on a concrete host

    A mirror that serves a signed root file system, an index and its packages; an
    ext4 library that keeps its tree as it is; an archiver that knows two
    archives, one of them hostile. *)

From S2P Require Import Prelude RustStd Text Paths FileSystem PrivateFs FsTree Manifest GuestFs Config HostConfig Update Lineage Images Packages ImageFetch StageFs Ext4Image BoxApi ImageBuild ImageBuilt ImageSigned Runtime GuestBoot Kernel GuestInit Demo GuestWitnesses.

Ltac by_vm := vm_compute; reflexivity.

(** ** The mirror *)

Definition demo_line (l : list string) : string := String.concat nl l.
Definition demo_index : string :=
  String.concat nl (map (λ p, demo_line ["P:" ^+ p; "V:1"; ""]) BASE_APK_PACKAGES).

(** The digest of a file is its bytes, and so is its signature. *)
Definition demo_body (url : string) : string :=
  let tar := rootfs_tar_name "x86_64" in
  if String.eqb url ALPINE_RELEASE_KEY_URL then EXPECTED_SIGNING_FINGERPRINT
  else if String.eqb url (BASE_URL ^+ "/releases/x86_64/" ^+ tar ^+ ".sha256") then hex_encode (as_bytes "base") ^+ "  " ^+ tar ^+ nl
  else if String.eqb url (BASE_URL ^+ "/releases/x86_64/" ^+ tar ^+ ".asc") then "base"
  else if String.eqb url (BASE_URL ^+ "/releases/x86_64/" ^+ tar) then "base"
  else if String.eqb url (BASE_URL ^+ "/main/x86_64/APKINDEX.tar.gz") then demo_index
  else "package".

Definition mirror (up : bool) : ImageHost := {|
  image_client_error := None;
  image_send n url := if up then Ok (mkResponse 200%Z (Ok (demo_body url)) (Ok (as_bytes (demo_body url)))) else Err "connection refused";
  status_error url n := "status";
  read_text b := Ok (String.string_of_list_byte b);
  Cert := string;
  parse_certs text := Ok [Ok text];
  fingerprint c := c;
  open_signature b := Ok ();
  detached_layers certs signature payload := Ok [SignatureGroup [bool_decide (signature = payload)]];
  tar_gz_entries b := Ok [Ok (mkEntry (Ok "APKINDEX") b None)];
  image_read_size n := 65535%Z;
|}.

(** ** The ext4 library *)

#[global] Instance wire_byte : Wire Byte.byte.
Proof.
  refine {| to_wire b := to_wire (Byte.to_N b); of_wire w := n ← (of_wire w : option N); Byte.of_N n |}.
  intros b. rewrite of_to_wire. apply Byte.of_to_N.
Defined.

#[global] Instance wire_enode : Wire enode.
Proof.
  apply (wire_iso
    (λ n, match n with EDir m => (0, (m, ([], ""))) | EFile m b => (1, (m, (b, ""))) | ELink t => (2, (0, ([], t))) end)%Z
    (λ x, if (x.1 =? 0)%Z then EDir x.2.1 else if (x.1 =? 1)%Z then EFile x.2.1 x.2.2.1 else ELink x.2.2.2)).
  by intros [].
Defined.

Definition demo_device (tree : gmap string enode) : content :=
  match to_vec tree with Ok b => Text b | Err _ => Text [] end.
Definition demo_fresh : gmap string enode := {[ "/" := EDir 493; "/lost+found" := EDir 448 ]}.

Definition tree_op (f : gmap string enode → option (gmap string enode)) : M string (gmap string enode) () := λ t,
  match f t with Some t' => (Ok (), t') | None => (Err "ext4 error", t) end.

#[global] Instance demo_ext4_lib : Ext4Lib := {|
  Ext4Fs := gmap string enode;
  ext4_mkfs _ c := (Ok (), demo_device demo_fresh);
  ext4_mount c := from_slice (content_bytes c);
  ext4_mkdir p m := tree_op (λ t, match t !! p with None => Some (<[p := EDir m]> t) | Some _ => None end);
  ext4_set_permissions p m := tree_op (λ t, (λ n, <[p := with_emode m n]> t) <$> t !! p);
  ext4_symlink target p := tree_op (λ t, match t !! p with None => Some (<[p := ELink target]> t) | Some _ => None end);
  ext4_open_write p := tree_op (λ t, match t !! p with
                                      | None => Some (<[p := EFile 438%Z []]> t)
                                      | Some (EFile m b) => Some t
                                      | Some _ => None
                                      end);
  ext4_write p d := tree_op (λ t, match t !! p with
                                  | Some (EFile m b) => Some (<[p := EFile m (d ++ drop (length d) b)]> t)
                                  | _ => None
                                  end);
  ext4_read p t := match t !! p with Some (EFile _ b) => Ok b | _ => Err "no such file" end;
  ext4_umount t := Ok (demo_device t);
  ext4_dropped t := demo_device t;
|}.

Lemma demo_device_mount tree : ext4_mount (demo_device tree) = Ok tree.
Proof.
  destruct (from_to_vec tree) as (b & Hto & Hfrom). cbn [ext4_mount demo_ext4_lib]. unfold demo_device. rewrite Hto. exact Hfrom.
Qed.

Lemma tree_op_ok f t t' : tree_op f t = (Ok (), t') → f t = Some t'.
Proof. unfold tree_op. destruct (f t); by intros [= ->]. Qed.

Ltac tree_step H :=
  cbn [ext4_mkdir ext4_set_permissions ext4_symlink ext4_open_write ext4_write demo_ext4_lib] in H; apply tree_op_ok in H.

#[global] Instance demo_ext4_laws : Ext4Laws.
Proof.
  unshelve refine {| ext4_tree := (λ t : Ext4Fs, t : gmap string enode); ext4_initial := demo_fresh |}.
  - intros label c c' e [= <-] He. rewrite demo_device_mount in He. by injection He.
  - intros p n. unfold demo_fresh. rewrite lookup_insert, lookup_singleton. repeat case_decide; intros [= <-]; eauto.
  - intros p m e e' H. tree_step H. destruct ((e : gmap string enode) !! p) eqn:E; [done|]. by injection H as <-.
  - intros p m e e' H. tree_step H. destruct ((e : gmap string enode) !! p) as [n|] eqn:E; [|done]. injection H as <-. by exists n.
  - intros target p e e' H. tree_step H. destruct ((e : gmap string enode) !! p) eqn:E; [done|]. by injection H as <-.
  - intros p e e' H. tree_step H. destruct ((e : gmap string enode) !! p) as [[m|m b|t]|] eqn:E; [done| |done|]; injection H as <-.
    + exists m, b. split; [|done]. symmetry. by apply insert_id.
    + by eexists _, _.
  - intros p d m b e e' E H. tree_step H. rewrite E in H. by injection H as <-.
  - intros e c [= <-]. exists e. by rewrite demo_device_mount.
Defined.

(** ** The archiver, the package managers and the host *)

Definition base_tree (dest : path) : staging :=
  list_to_map [(dest ++ ["bin"], SDir 493); (dest ++ ["bin"; "bash"], SFile 493 (as_bytes "bash")); (dest ++ ["etc"], SDir 493);
               (dest ++ ["bin"; "sh"], SLink "bash")].

#[global] Instance demo_tools : BuildTools := {|
  tar_unpack b dest st := (if decide (b = as_bytes "base") then base_tree dest ∪ st else st, None);
  run_helper c st := (Ok (mkHelperOutput true "exit status: 0" "" ""), st);
  json_metadata name apk pip npm := Ok (as_bytes name);
|}.

#[global] Instance demo_build_laws : BuildLaws.
Proof.
  split; [|done]. intros b d st q Hq. cbn [tar_unpack demo_tools]. case_decide; [|done]. cbn [fst]. apply lookup_union_r.
  apply not_elem_of_list_to_map_1. intros ([k n] & -> & Hin)%list_elem_of_fmap. apply Hq.
  repeat (apply elem_of_cons in Hin as [[= -> ->]|Hin]; [simpl; split; [by apply prefix_app_r|intros E; apply (f_equal length) in E; rewrite length_app in E; simpl in E; lia]|]).
  by apply elem_of_nil in Hin.
Qed.

Definition agent_image : content :=
  demo_device (<["/usr/local/bin/sagens-guest-agent" := EFile 493 (as_bytes "agent")]> demo_fresh).
Definition image_fs : gmap path node := list_to_map [
  (["var"], Dir 493); (["var"; "sagens"], Dir 448);
  (["usr"], Dir 493); (["usr"; "lib"], Dir 493); (["usr"; "lib"; "sagens"], Dir 493);
  (["usr"; "lib"; "sagens"; "kernel"], File 420 (Text (as_bytes "kernel")));
  (["usr"; "lib"; "sagens"; "rootfs"], File 420 agent_image)].
Definition build_start (fs : gmap path node) : Build := mkBuild (mkFetch (mkWorld fs [] 0 0) []) [] ∅.

Definition demo_spec (force : bool) : ImageBuildSpec := mkBuildSpec demo_state "tools" [] [] [] 0 force demo_guest.

(** The outcome of a build, with the mirror up or down. *)
Definition built (up : bool) (force : bool) (fs : gmap path node) : Result SandboxError VmImageManifest * Build :=
  build_image (ihost := mirror up) (demo_spec force) (build_start fs).

(** ** Witnesses *)

Lemma demo_build_succeeds : is_ok (built true false image_fs).1 = true.
Proof. by_vm. Qed.

Lemma demo_build_run : ∃ manifest s', built true false image_fs = (Ok manifest, s').
Proof.
  pose proof demo_build_succeeds as Hok. destruct (built true false image_fs) as [[manifest|] s']; [by exists manifest, s'|done].
Qed.

Lemma demo_dots : no_dots (ib_state_dir (demo_spec false)).
Proof. by repeat constructor. Qed.

Lemma built_image_resolves_witness :
  ∃ manifest s', built true false image_fs = (Ok manifest, s') ∧
    inspect demo_state "tools" (mkWorld (host_files s') [] 0 0) = (Ok manifest, mkWorld (host_files s') [] 0 0).
Proof.
  destruct demo_build_run as (manifest & s' & Hrun). exists manifest, s'. split; [exact Hrun|].
  destruct (built_image_resolves (ihost := mirror true) (demo_spec false) (build_start image_fs) manifest s'
    (mkWorld (host_files s') [] 0 0) demo_guest demo_dots Hrun eq_refl eq_refl) as (_ & Hinspect & _).
  exact Hinspect.
Defined.

Lemma image_base_is_signed_witness : ∃ payload, signed (ihost := mirror true) payload.
Proof.
  destruct demo_build_run as (manifest & s' & Hrun).
  destruct (image_base_is_signed (ihost := mirror true) (demo_spec false) (build_start image_fs) manifest s' demo_dots Hrun)
    as (arch & d & resolved & payload & s1 & s2 & s3 & s4 & _ & Hsigned & _).
  by exists payload.
Defined.

(** A staged tree and the image it becomes. *)
Definition small_stage : Build :=
  mkBuild (mkFetch (mkWorld {[ ["img"] := Dir 493 ]} [] 0 0) []) ["b"]
    (list_to_map [(["b"], SDir 448); (["b"; "etc"], SDir 511); (["b"; "etc"; "motd"], SFile 420 (as_bytes "hi")); (["b"; "sh"], SLink "etc/motd")]).

Definition small_image : Result string () * Build := build_ext4_image ["b"] ["img"; "rootfs.raw"] 64 small_stage.

Lemma small_stage_at k n : stage_at small_stage k = Some n → k ≠ [] → k = ["img"] ∨
  (k, n) ∈ [(["b"], SDir 448); (["b"; "etc"], SDir 511); (["b"; "etc"; "motd"], SFile 420 (as_bytes "hi")); (["b"; "sh"], SLink "etc/motd")].
Proof.
  unfold stage_at, small_stage, host_files. cbn [bd_work bd_fetch fe_world w_fs].
  destruct (_ !! k) as [x|] eqn:E; [intros [= ->] _; right; by apply elem_of_list_to_map_2|].
  destruct k as [|y k]; [done|]. intros H _. left. destruct (decide (y :: k = ["img"])) as [|Hne]; [done|].
  by rewrite lookup_singleton_ne in H.
Qed.

Ltac each_small H := repeat (apply elem_of_cons in H as [[= -> ->]|H]; [|]); [..|by apply elem_of_nil in H].

Lemma small_tree : staged_tree small_stage ["b"] ∧ names_apart small_stage ["b"].
Proof.
  split; [split|].
  - done.
  - apply Forall_singleton. by repeat split.
  - intros r Hr Hne. exists 448%Z. destruct r as [|x [|y r]]; [done| |by apply prefix_length in Hr; simpl in Hr; lia].
    apply prefix_cons_inv_1 in Hr as ->. by_vm.
  - intros k n Hp Hne Hk. apply small_stage_at in Hk as [->|Hk]; [by apply prefix_cons_inv_1 in Hp| |by intros ->; apply prefix_nil_inv in Hp].
    each_small Hk; (split; [by repeat constructor|]); (done || (exists 448%Z; by_vm) || (exists 511%Z; by_vm)).
  - intros k n Hp Hk. apply small_stage_at in Hk as [->|Hk]; [by apply prefix_cons_inv_1 in Hp| |by intros ->; apply prefix_nil_inv in Hp].
    each_small Hk; by repeat constructor.
Qed.

Lemma image_is_directory_witness : ∃ m c e,
  host_files small_image.2 !! ["img"; "rootfs.raw"] = Some (File m c) ∧ ext4_mount c = Ok e ∧ image_holds small_stage ["b"] e.
Proof.
  assert (Hok : is_ok small_image.1 = true) by by_vm.
  destruct small_image as [[[]|] s'] eqn:Hrun; [|done].
  apply (image_is_directory small_stage ["b"] ["img"; "rootfs.raw"] 64 s'); [apply small_tree..| | |exact Hrun].
  - intros Hp. by apply prefix_cons_inv_1 in Hp.
  - intros Hp. by apply prefix_cons_inv_1 in Hp.
Defined.

(** ** What a failed build leaves *)

Lemma four_eq {A B C D} (a a' : A) (b b' : B) (c c' : C) (d d' : D) :
  (a, b, c, d) = (a', b', c', d') → a = a' ∧ b = b' ∧ c = c' ∧ d = d'.
Proof. by intros [= -> -> -> ->]. Qed.

(** a rebuild removes the image it replaces before it downloads anything: with
    the mirror down the build fails, the image is gone, and its empty directory
    makes the next build refuse. *)
Theorem forced_rebuild_loses_image :
  let before := host_files (built true false image_fs).2 in
  let failed := built false true before in
  let manifest := image_dir demo_state "tools" ++ [IMAGE_MANIFEST] in
  is_Some (before !! manifest) ∧
  failed.1 = Err (Backend "building image tools: requesting Alpine release signing key: connection refused") ∧
  host_files failed.2 !! manifest = None ∧
  (built true false (host_files failed.2)).1 =
    Err (Backend "building image tools: image tools already exists; pass --force-refresh to rebuild it").
Proof.
  intros before failed manifest.
  assert (H : (bool_decide (is_Some (before !! manifest)), failed.1, host_files failed.2 !! manifest, (built true false (host_files failed.2)).1) =
    (true, Err (Backend "building image tools: requesting Alpine release signing key: connection refused"), None,
     Err (Backend "building image tools: image tools already exists; pass --force-refresh to rebuild it"))) by by_vm.
  destruct (four_eq _ _ _ _ _ _ _ _ H) as (H1 & H2 & H3 & H4).
  exact (conj (proj1 (bool_decide_eq_true _) H1) (conj H2 (conj H3 H4))).
Qed.

(** a link in a package leads the builder out of its directory: [write_guest_init]
    follows it and overwrites a file of the host. *)
Definition hostile_stage : Build :=
  mkBuild (mkFetch (mkWorld (list_to_map [(["etc"], Dir 493); (["etc"; "inittab"], File 420 (Text (as_bytes "host")))]) [] 0 0) []) ["b"]
    (list_to_map [(["b"], SDir 493); (["b"; "rootfs"], SDir 493); (["b"; "rootfs"; "etc"], SLink "/etc")]).

Theorem package_link_leaves_build :
  let r := write_guest_init ["b"; "rootfs"] hostile_stage in
  r.1 = Ok () ∧ host_files r.2 !! ["etc"; "inittab"] = Some (File 420 (Text (as_bytes INITTAB))).
Proof. split; by_vm. Qed.

(** ** A guest that boots *)

Definition booting_kernel : GuestKernel := {|
  guest_kernel h c := match c with
    | GReadText _ => mkGuestReply true 0 EINVAL demo_cmdline 0
    | GServe _ => mkGuestReply true 0 EINVAL "" 1
    | _ => mkGuestReply true 0 EINVAL "" 0
    end |}.

(** The calls before its first connection, and the configuration it serves. *)
Definition boot_before : GuestHistory := tail (guest_run (H := booting_kernel) 3 []).2.
Definition demo_boot : BootConfig := match from_cmdline demo_cmdline with Ok boot => boot | Err _ => default_boot end.

Lemma guest_mounts_as_configured_witness :
  mounts_of boot_before =
    runtime_mounts ++ policy_mounts (lk_tmpfs_mib (build_runner_config demo_boot_request)) "/dev/vdb" (Some "/dev/vdc").
Proof.
  refine (proj1 (proj2 (guest_mounts_as_configured (H := booting_kernel) (build_runner_config demo_boot_request) 3 (Ok ()) demo_boot
    (mkGuestReply true 0 EINVAL "" 1) [] boot_before demo_numbers _ _))).
  - done.
  - by_vm.
Defined.
